(* ===== verification/_CoqProject ===== *)
-Q . S2P
Prelude.v
DList.v
RbTree.v
RbRepr.v
RbInsert.v
RbQuery.v
RbDelete.v
RbErase.v
RbFrame.v
RbProps.v
Bits.v
Lock.v
CString.v
Printfmt.v
Buddy.v
BuddyInv.v
BuddyProps.v
BuddyInit.v
BuddySpec.v
Mmu.v
Alloc.v
Cpu.v
Proc.v
ProcPid.v
ProcProps.v
ProcSpec.v
ProcMain.v
ProcThms.v
Pmm.v
PmmRefs.v
PmmFresh.v
PmmInv.v
PmmProps.v
PmmFault.v
PmmThms.v
PmmCopy.v
Shmem.v
ShmemInv.v
ShmemProps.v
ShmemOps.v
Vmm.v
VmmInv.v
VmmProps.v
VmmThms.v
VmmUnmap.v
VmmPages.v
VmmFault.v
VmmExit.v
VmmDup.v
ShmemThms.v
Slab.v
SlabPages.v
SlabInv.v
SlabProps.v
SlabMain.v
SlabThms.v
ArmPmm.v
ArmInv.v
ArmThms.v
ArmDev.v
Boot.v
Loader.v
LoaderThms.v
Console.v
ConsoleDev.v
ConsoleOut.v
ConsoleIn.v
ConsoleInit.v
ConsoleThms.v
Formats.v
Trap.v
TrapProps.v
TrapThms.v
