(* ===== verification/Prelude.v ===== *)
(** * A verification of the ucore-multi teaching kernel

    ucore-multi is a small operating system kernel in C for x86 and ARM.  Its
    parts are layered: a library of lists, trees, bit operations, strings and
    formatted output (src/include, src/lib); the allocator of physical pages
    (kern/mm/buddy_pmm.c) and, on top of it, the allocator of objects
    (kern/mm/slab.c); page tables (pmm.c of both architectures); address spaces made of
    virtual memory areas, kept in a list and a red-black tree, and shared memory
    (kern/mm/vmm.c, kern/mm/shmem.c); processes and a round-robin scheduler
    (kern/process/proc.c, kern/schedule/sched.c).  The console drivers
    (arch/x86/generic/console.c) print what lib/stdio.c formats and buffer what
    lib/readline.c reads; the trap handlers (arch/x86/generic/intr.c) bring
    console, timer, page faults and the scheduler together.  kern_init starts
    the parts one after the other, after a boot loader (bootmain.c) has read the
    kernel image into memory.

    ** How the code is modelled

    A C function is a function of the state and error monad [M] of this file: it
    returns, panics (a failed [assert] or [panic()]), faults (an access to
    memory that holds no object of the type, or an address outside the kernel's
    mapping) or has used up the fuel of its loops.  The state of a component is
    a record: global variables are fields, structures of one type a finite map
    from addresses.  Addresses and machine integers are [Z]; the wrap-around of
    a 32-bit operation is written out ([u32], [s32]) where it can happen.  NULL
    is 0, or [None] where the pointer is an index.  A component calls another
    through a lens on its state ([zoom]).  The lists of list.h embedded in
    structures are one map from link addresses (an inductive type per
    component) to pairs of neighbours.  Messages on the console are left out of
    the models below the console; a panic is an outcome, and what it prints is
    modelled in [Trap].

    ** Files

    - [Prelude]: the monad, its proof rules, machine integers.
    - [DList] (include/list.h): the operations on circular lists; a heap is
      abstracted by a family of disjoint lists ([dlists]).
    - [RbTree] (lib/rb_tree.c, include/rb_tree.h) with [RbRepr], [RbInsert],
      [RbQuery], [RbDelete], [RbErase], [RbFrame], [RbProps]: the red-black tree,
      pointer by pointer, against sorted lists.
    - [Bits] (include/bitops.h, bitops/non-atomic.h, asm/bitops.h and
      asm/atomic.h of both architectures, the calls of lock.h, div64.h,
      lib/hash.c, lib/rand.c).
    - [Lock] (include/lock.h over asm/bitops.h and asm/irqflags.h of both
      architectures): lock, try_lock and unlock instruction by instruction, run
      by several processes on one processor with preemption; the architectures
      are instances of a class with an annotation for every point of the code.
    - [CString] (lib/string.c and the string instructions of
      arch/x86/include/x86.h) over a byte memory.
    - [Printfmt] (lib/printfmt.c, include/error.h).
    - [Buddy] (kern/mm/buddy_pmm.c, kern/include/memlayout.h) with [BuddyInv],
      [BuddyProps], [BuddyInit], [BuddySpec].
    - [Mmu] (mmu.h, memlayout.h and pmm.h of x86, mmu.h of ARM): address
      arithmetic and descriptors.
    - [Cpu] (x86.h, the descriptor table, paging and page manager calls of
      arch/x86/pmm.c): the registers and what loading them checks.
    - [Alloc]: what clients rely on of alloc_pages/free_pages and kmalloc/kfree,
      as classes; the buddy allocator implements the first.
    - [Proc] (kern/process/proc.c, kern/schedule/sched.c) with [ProcPid],
      [ProcProps], [ProcSpec], [ProcMain], [ProcThms]: over any allocators of the
      classes of [Alloc].
    - [Pmm] (arch/x86/pmm.c) with [PmmRefs], [PmmFresh], [PmmInv], [PmmProps],
      [PmmFault], [PmmThms], [PmmCopy]: page tables in words of physical memory, the TLB,
      reference counts, the counts of free pages.
    - [Shmem] (kern/mm/shmem.c, kern/include/shmem.h) with [ShmemInv],
      [ShmemProps], [ShmemOps], [ShmemThms]: the list of nodes and their pages of
      entries against a function from page numbers to entries.
    - [Vmm] (kern/mm/vmm.c, kern/include/vmm.h) with [VmmInv], [VmmProps],
      [VmmThms], [VmmUnmap] and [VmmPages] for mm_unmap: against an interface of
      the page tables that [Pmm] over the allocators implements; [VmmFault] for
      do_pgfault, [VmmExit] for exit_mmap, [VmmDup] for dup_mmap.
    - [Slab] (kern/mm/slab.c) with [SlabPages], [SlabInv], [SlabProps],
      [SlabMain], [SlabThms]: over any page allocator with the flag PG_slab; it
      implements both classes of [Alloc].
    - [ArmPmm] (arch/arm/pmm.c and pmm.h, memlayout.h and memmap.c of the
      S3C2410) with [ArmInv], [ArmThms]: the page tables of ARM.
    - [ArmDev] (console.c, clock.c and intr.c of the S3C2410): over the
      registers of the board, which a class describes.
    - [Loader] (both bootmain.c, include/elf.h, arch/x86/tool/sign.c) with
      [LoaderThms]: over a byte memory and a disk controller.
    - [Boot] (kern/init/init.c): the processes over the slab allocator over the
      buddy allocator.
    - [Console] (arch/x86/generic/console.c and clock.c, the 8259A part of
      intr.c, lib/stdio.c, lib/readline.c): over device operations that are
      parameters.  [ConsoleDev] states what the hardware promises (class
      [Devices]) and has a concrete machine; [ConsoleOut], [ConsoleIn] and
      [ConsoleInit] relate output to a terminal, input to a keyboard with
      modifier keys and a ring buffer, and start-up to both; [ConsoleThms].
    - [Formats]: what vprintfmt makes of a format, piece by piece.
    - [Trap] (the rest of arch/x86/generic/intr.c, kern/debug/panic.c) with
      [TrapProps], [TrapThms]: over the console, the processes and the address
      spaces.

    ** What the theorems show

    - Lists and trees: every permitted sequence of operations acts as on lists
      and sorted lists; the red-black invariant holds after every insertion and
      deletion; queries return what they should.
    - Library: the versions of the bit operations and counters of both
      architectures agree; the lock excludes other processes wherever the
      processor is taken away; memmove copies overlapping ranges and memcpy and
      memset agree with their x86 versions; vprintfmt returns when the format
      gets the arguments it asks for and snprintf stays in its buffer; printed
      numbers are read back.
    - Page allocator: no sequence of requests loses or duplicates a page or
      fails an assertion; blocks are split and merged correctly.
    - Slab allocator: the objects of every sequence of kmalloc and kfree calls
      are disjoint from each other, from the control areas of the slabs and from
      the pages of others; no page leaks; small requests are refused only when
      no page is left; slab_init computes caches that fit.
    - Processes: the table, the hash lists, the pids and the counters stay
      consistent under do_fork and schedule; do_fork undoes what it did when it
      fails; the scheduler is round robin and starves nobody.
    - Page tables: page_insert and unmap_range keep mappings, reference counts,
      ownership of pages and the TLB consistent; copy_range shares the pages of
      two address spaces, read-only unless asked otherwise; the boot mappings of
      ARM translate as the kernel expects.
    - Boot loaders: a kernel image is in memory as its program headers say when
      its entry point is called; the boot sector is signed.
    - Address spaces: find_vma, mm_map, get_unmapped_area and user_mem_check
      implement a partial function from addresses to areas, by list and by tree;
      mm_unmap removes a range from that function and from the page tables;
      do_pgfault gives every address of an area a page of its own, by copy on
      write where a page is shared; dup_mmap copies the areas and shares the
      pages read-only; exit_mmap gives back every page and page table.
    - Shared memory: shmem_insert_entry and shmem_get_entry implement a function
      from pages to entries with one reference per entry; shmem_destroy gives
      back the structures and pages of the object and every page it held alone.
    - Processor: gdt_init loads flat segments without a fault, enable_paging sets
      the bits of CR0 it should, and the page manager behind the interrupt mask
      is the page allocator it wraps.
    - Boot: the components run together on the real allocators; the boot panics
      exactly when they refuse the memory of the first processes.
    - Console: cprintf drives screen and ports as a terminal would, cons_getc
      returns what the keyboard and the serial port sent, readline edits a line
      of at most 1023 characters that may come in parts;
      no sequence of calls leaves an array.
    - Traps: the timer preempts, so every RUNNABLE process runs; input, page
      faults and unexpected traps are dispatched, reported or stop the kernel.

    ** Fuel

    A loop over a list or tree takes more fuel than elements ([rb_fuel] gives a
    bound by the height of a red-black tree); theorems state the bound they
    need.  A shared memory object below KERNBASE has at most 768 nodes of 4 MB.  Loops with a constant bound in the code carry it (11 orders of the
    buddy allocator, 13 caches, 1024 entries of a table).  kmalloc needs fuel 3
    and kfree 2: a cache whose control areas lie off slab takes them from a
    cache that has its own inside, so the recursion is one level deep, and the
    loop of kmem_cache_alloc repeats once.  vprintfmt needs as much fuel as the
    format is long and 150 more for its longest escape and the nested call of %e; the handlers of [Trap]
    have 200, enough for every message of intr.c; the input loops need more
    fuel than characters wait.

    ** What is not modelled

    The trap entry and the context switch (assembly; switch_to is modelled by its
    effect); the self tests check_vmm, check_mmap, check_shmem, check_slab,
    check_rb_tree and check_boot_pgdir.  Interrupts between the statements of a function and
    other processors are not part of the sequential models; [Lock] has the
    interleavings of the lock functions, but no interrupt handler that takes a
    lock itself.  The shared areas of dup_mmap, mm_unmap and
    do_pgfault are modelled; the theorems about these functions are for address
    spaces of private areas. *)
From stdpp Require Import base gmap list fin_maps.
From Stdlib Require Import ZArith Lia.

Declare Scope ucore_scope.
Delimit Scope ucore_scope with ucore.
#[global] Open Scope Z_scope.
Open Scope ucore_scope.

(** ** Outcomes of a C function

    A call either returns, stops in [panic()] (every [assert] of the sources
    panics), dereferences a pointer that points to no object, or has used up
    the fuel given to its loops. *)
Inductive outcome (A : Type) : Type :=
| Ret (a : A)
| Panic
| Fault
| OutOfFuel.
Arguments Ret {A} _.
Arguments Panic {A}.
Arguments Fault {A}.
Arguments OutOfFuel {A}.

(** ** The state and error monad of the kernel code *)
Definition M (S A : Type) : Type := S → outcome (A * S).

#[global] Instance M_ret {S} : MRet (M S) := λ A a s, Ret (a, s).
#[global] Instance M_bind {S} : MBind (M S) := λ A B k m s,
  match m s with
  | Ret (a, s') => k a s'
  | Panic => Panic
  | Fault => Fault
  | OutOfFuel => OutOfFuel
  end.

Definition panic {S A} : M S A := λ _, Panic.
Definition fault {S A} : M S A := λ _, Fault.
Definition out_of_fuel {S A} : M S A := λ _, OutOfFuel.
Definition skip {S} : M S unit := mret ().
Definition get {S} : M S S := λ s, Ret (s, s).
Definition gets {S A} (f : S → A) : M S A := λ s, Ret (f s, s).
Definition modify {S} (f : S → S) : M S unit := λ s, Ret ((), f s).

(** [assert(x)] of kern/include/assert.h. *)
Definition assert {S} (b : bool) : M S unit := if b then skip else panic.

Definition when {S} (b : bool) (m : M S unit) : M S unit := if b then m else skip.

(** Running a computation of a component inside a larger state. *)
Record lens (S T : Type) : Type := Lens { view : S → T; over : T → S → S }.
Arguments Lens {S T} _ _.
Arguments view {S T} _ _.
Arguments over {S T} _ _ _.

Definition zoom {S T A} (l : lens S T) (m : M T A) : M S A := λ s,
  match m (view l s) with
  | Ret (a, t) => Ret (a, over l t s)
  | Panic => Panic
  | Fault => Fault
  | OutOfFuel => OutOfFuel
  end.

Class LensLaws {S T} (l : lens S T) : Prop := {
  view_over : ∀ t s, view l (over l t s) = t;
  over_view : ∀ s, over l (view l s) s = s;
  over_over : ∀ t t' s, over l t (over l t' s) = over l t s }.

(** ** Symbolic execution of monadic code *)
Section Monad.
Context {S : Type}.

Lemma bind_Ret {A B} (m : M S A) (k : A → M S B) s a s' :
  m s = Ret (a, s') → (m ≫= k) s = k a s'.
Proof. intros H. unfold mbind, M_bind. by rewrite H. Qed.

Lemma bind_inv {A B} (m : M S A) (k : A → M S B) s b s'' :
  (m ≫= k) s = Ret (b, s'') →
  ∃ a s', m s = Ret (a, s') ∧ k a s' = Ret (b, s'').
Proof.
  unfold mbind, M_bind. destruct (m s) as [[a s']| | |] eqn:E; [|done..].
  intros H. by exists a, s'.
Qed.

Lemma bind_assoc {A B C} (m : M S A) (f : A → M S B) (g : B → M S C) s :
  ((m ≫= f) ≫= g) s = (m ≫= (λ a, f a ≫= g)) s.
Proof. unfold mbind, M_bind. by destruct (m s) as [[a s']| | |]. Qed.

Lemma bind_mret {A B} (a : A) (k : A → M S B) s : (mret a ≫= k) s = k a s.
Proof. done. Qed.

Lemma bind_skip {B} (k : unit → M S B) s : (skip ≫= k) s = k () s.
Proof. done. Qed.

Lemma bind_gets {A B} (f : S → A) (k : A → M S B) s : (gets f ≫= k) s = k (f s) s.
Proof. done. Qed.

Lemma bind_get {B} (k : S → M S B) s : (get ≫= k) s = k s s.
Proof. done. Qed.

Lemma bind_modify {B} (f : S → S) (k : unit → M S B) s :
  (modify f ≫= k) s = k () (f s).
Proof. done. Qed.

Lemma bind_assert {B} b (k : unit → M S B) s :
  b = true → (assert b ≫= k) s = k () s.
Proof. by intros ->. Qed.

Lemma bind_assert_inv {B} b (k : unit → M S B) s r :
  (assert b ≫= k) s = Ret r → b = true ∧ k () s = Ret r.
Proof. by destruct b. Qed.

Lemma zoom_Ret {T A} (l : lens S T) (m : M T A) s a t :
  m (view l s) = Ret (a, t) → zoom l m s = Ret (a, over l t s).
Proof. intros H. unfold zoom. by rewrite H. Qed.
End Monad.

Create HintDb ucore discriminated.

#[export] Hint Rewrite @bind_mret @bind_skip @bind_gets @bind_get @bind_modify : monad.

(** [mrun H] rewrites the first step of the computation with [H]. *)
Ltac mrun H := erewrite bind_Ret by (first [exact H | apply H | eapply H]).
(** Run the first step of the goal as in [E]. *)
Ltac mfollow E :=
  let E1 := fresh "E" in apply bind_inv in E as (? & ? & E1 & E); rewrite (bind_Ret _ _ _ _ _ E1); clear E1.

(** [mret_step] removes administrative steps. *)
Ltac mnorm := autorewrite with monad.

(** [decide_now] proves a decidable closed statement by evaluation. *)
Ltac decide_now := match goal with
  |- ?P => apply (bool_decide_eq_true_1 P); vm_compute; reflexivity end.

(** The value returned, when there is one. *)
Definition ret_val {A B} (r : outcome (A * B)) : option A := match r with Ret (a, _) => Some a | _ => None end.
Lemma ret_val_Ret {A B} (r : outcome (A * B)) a b : r = Ret (a, b) → ret_val r = Some a.
Proof. by intros ->. Qed.

(** ** Machine integers *)
Definition u32 (z : Z) : Z := z mod 2 ^ 32.
Definition s32 (z : Z) : Z := (z + 2 ^ 31) mod 2 ^ 32 - 2 ^ 31.
Definition u64 (z : Z) : Z := z mod 2 ^ 64.
Definition u16 (z : Z) : Z := z mod 2 ^ 16.
Definition u8 (z : Z) : Z := z mod 2 ^ 8.
Definition s8 (z : Z) : Z := (z + 2 ^ 7) mod 2 ^ 8 - 2 ^ 7.

Definition is_u32 (z : Z) : Prop := 0 ≤ z < 2 ^ 32.

Lemma u32_range z : is_u32 (u32 z).
Proof. unfold is_u32, u32. apply Z.mod_pos_bound. lia. Qed.
Lemma u32_small z : is_u32 z → u32 z = z.
Proof. apply Z.mod_small. Qed.
Lemma s32_small z : - 2 ^ 31 ≤ z < 2 ^ 31 → s32 z = z.
Proof. intros. unfold s32. rewrite Z.mod_small; lia. Qed.
#[export] Hint Resolve u32_range : ucore.

(** ** Lists *)
Lemma NoDup_perm {A} (l l' : list A) : l ≡ₚ l' → NoDup l → NoDup l'.
Proof. by intros ->. Qed.

Lemma filter_ext_in {B} (P Q : B → Prop) `{∀ x, Decision (P x), ∀ x, Decision (Q x)} (l : list B) :
  (∀ x, x ∈ l → P x ↔ Q x) → filter P l = filter Q l.
Proof.
  induction l as [|x l IH]; intros HPQ; [done|]. rewrite !filter_cons.
  rewrite IH by (intros; apply HPQ; by right). pose proof (HPQ x ltac:(by left)).
  repeat destruct (decide _); tauto.
Qed.
