(* ===== verification/DList.v ===== *)
(** * include/list.h: circular doubly linked lists

    The heap of list entries is a finite map from addresses to
    [struct list_entry].  Every function of list.h is a computation on that
    heap, field write by field write.  [dlists h F] says that [h] holds, for
    every head [hd] with [F !! hd = Some xs], a well-formed circular list with
    exactly the members [xs], all lists being disjoint; the theorems show that
    each function implements the corresponding operation on sequences. *)
From stdpp Require Import base gmap list fin_maps.
From Stdlib Require Import ZArith Lia.
From S2P Require Import Prelude.

(** ** The data and the operations *)
Record list_entry (K : Type) : Type := ListEntry { prev : K; next : K }.
Arguments ListEntry {K} _ _.
Arguments prev {K} _.
Arguments next {K} _.

Section Ops.
Context {K : Type} `{Countable K}.

Definition read_entry (p : K) : M (gmap K (list_entry K)) (list_entry K) := λ h,
  match h !! p with Some e => Ret (e, h) | None => Fault end.

Definition set_prev (p v : K) : M (gmap K (list_entry K)) unit := λ h,
  match h !! p with
  | Some e => Ret ((), <[p := ListEntry v (next e)]> h)
  | None => Fault
  end.

Definition set_next (p v : K) : M (gmap K (list_entry K)) unit := λ h,
  match h !! p with
  | Some e => Ret ((), <[p := ListEntry (prev e) v]> h)
  | None => Fault
  end.

(** elm->prev = elm->next = elm *)
Definition list_init (elm : K) : M (gmap K (list_entry K)) unit :=
  set_next elm elm;; set_prev elm elm.

(** prev->next = next->prev = elm; elm->next = next; elm->prev = prev *)
Definition __list_add (elm prev next : K) : M (gmap K (list_entry K)) unit :=
  set_prev next elm;; set_next prev elm;;
  set_next elm next;; set_prev elm prev.

Definition __list_del (prev next : K) : M (gmap K (list_entry K)) unit :=
  set_next prev next;; set_prev next prev.

Definition list_next (listelm : K) : M (gmap K (list_entry K)) K :=
  e ← read_entry listelm; mret (next e).

Definition list_prev (listelm : K) : M (gmap K (list_entry K)) K :=
  e ← read_entry listelm; mret (prev e).

Definition list_add_before (listelm elm : K) : M (gmap K (list_entry K)) unit :=
  p ← list_prev listelm; __list_add elm p listelm.

Definition list_add_after (listelm elm : K) : M (gmap K (list_entry K)) unit :=
  n ← list_next listelm; __list_add elm listelm n.

Definition list_add (listelm elm : K) : M (gmap K (list_entry K)) unit :=
  list_add_after listelm elm.

Definition list_del (listelm : K) : M (gmap K (list_entry K)) unit :=
  p ← list_prev listelm; n ← list_next listelm; __list_del p n.

Definition list_del_init (listelm : K) : M (gmap K (list_entry K)) unit :=
  list_del listelm;; list_init listelm.

Definition list_empty (list : K) : M (gmap K (list_entry K)) bool :=
  n ← list_next list; mret (bool_decide (n = list)).
End Ops.

(** ** Representation *)
Section Repr.
Context {K : Type} `{Countable K}.
Implicit Types (h : gmap K (list_entry K)) (F : gmap K (list K)).

Definition nxt h (x : K) : option K := next <$> h !! x.
Definition prv h (x : K) : option K := prev <$> h !! x.

(** [a] and [b] are neighbours. *)
Definition link h (a b : K) : Prop := nxt h a = Some b ∧ prv h b = Some a.

Fixpoint chain h (a : K) (xs : list K) (z : K) : Prop :=
  match xs with
  | [] => link h a z
  | x :: xs' => link h a x ∧ chain h x xs' z
  end.

Definition owns F (x hd : K) : Prop := ∃ xs, F !! hd = Some xs ∧ x ∈ hd :: xs.

Definition unowned F (x : K) : Prop := ∀ hd, ¬ owns F x hd.

Record dlists h F : Prop := {
  dl_nodup : ∀ hd xs, F !! hd = Some xs → NoDup (hd :: xs);
  dl_chain : ∀ hd xs, F !! hd = Some xs → chain h hd xs hd;
  dl_disj : ∀ x hd1 hd2, owns F x hd1 → owns F x hd2 → hd1 = hd2 }.

(** *** Heap updates seen through [nxt] and [prv] *)
Lemma set_next_spec h p v :
  is_Some (h !! p) → ∃ h', set_next p v h = Ret ((), h') ∧
    (∀ x, nxt h' x = if decide (x = p) then Some v else nxt h x) ∧
    (∀ x, prv h' x = prv h x) ∧ dom h' = dom h.
Proof.
  intros [e He]. exists (<[p := ListEntry (prev e) v]> h).
  unfold set_next, nxt, prv. rewrite He. split_and!; [done|..].
  - intros x. case_decide; subst; by simplify_map_eq.
  - intros x. destruct (decide (x = p)) as [->|]; [by rewrite lookup_insert_eq, He|by rewrite lookup_insert_ne].
  - apply dom_insert_lookup_L. eauto.
Qed.

Lemma set_prev_spec h p v :
  is_Some (h !! p) → ∃ h', set_prev p v h = Ret ((), h') ∧
    (∀ x, prv h' x = if decide (x = p) then Some v else prv h x) ∧
    (∀ x, nxt h' x = nxt h x) ∧ dom h' = dom h.
Proof.
  intros [e He]. exists (<[p := ListEntry v (next e)]> h).
  unfold set_prev, nxt, prv. rewrite He. split_and!; [done|..].
  - intros x. case_decide; subst; by simplify_map_eq.
  - intros x. destruct (decide (x = p)) as [->|]; [by rewrite lookup_insert_eq, He|by rewrite lookup_insert_ne].
  - apply dom_insert_lookup_L. eauto.
Qed.

Lemma nxt_is_Some h x y : nxt h x = Some y → is_Some (h !! x).
Proof. unfold nxt. destruct (h !! x); [by eexists|done]. Qed.
Lemma prv_is_Some h x y : prv h x = Some y → is_Some (h !! x).
Proof. unfold prv. destruct (h !! x); [by eexists|done]. Qed.
Lemma dom_is_Some h h' (x : K) : dom h' = dom h → is_Some (h !! x) → is_Some (h' !! x).
Proof. intros E. rewrite <-!elem_of_dom. by rewrite E. Qed.

Lemma list_next_run h x y : nxt h x = Some y → list_next x h = Ret (y, h).
Proof.
  unfold nxt, list_next, read_entry, mbind, M_bind.
  destruct (h !! x); simpl; [|done]. by intros [= ->].
Qed.
Lemma list_prev_run h x y : prv h x = Some y → list_prev x h = Ret (y, h).
Proof.
  unfold prv, list_prev, read_entry, mbind, M_bind.
  destruct (h !! x); simpl; [|done]. by intros [= ->].
Qed.

(** The effect of the two internal functions. *)
Lemma __list_add_effect h elm a b :
  is_Some (h !! elm) → link h a b → elm ≠ a → elm ≠ b →
  ∃ h', __list_add elm a b h = Ret ((), h') ∧
    (∀ x, nxt h' x = if decide (x = elm) then Some b
                     else if decide (x = a) then Some elm else nxt h x) ∧
    (∀ x, prv h' x = if decide (x = elm) then Some a
                     else if decide (x = b) then Some elm else prv h x) ∧
    dom h' = dom h.
Proof.
  intros He [Hn Hp] Hea Heb.
  destruct (set_prev_spec h b elm) as (h1 & E1 & P1 & N1 & D1); [eauto using prv_is_Some|].
  destruct (set_next_spec h1 a elm) as (h2 & E2 & N2 & P2 & D2);
    [eapply dom_is_Some; eauto using nxt_is_Some|].
  destruct (set_next_spec h2 elm b) as (h3 & E3 & N3 & P3 & D3);
    [eapply dom_is_Some; [|eauto]; congruence|].
  destruct (set_prev_spec h3 elm a) as (h4 & E4 & P4 & N4 & D4);
    [eapply dom_is_Some; [|eauto]; congruence|].
  exists h4. split_and!; [|..|congruence].
  - unfold __list_add. mrun E1. mrun E2. mrun E3. exact E4.
  - intros x. rewrite N4, N3, N2, N1. repeat case_decide; congruence.
  - intros x. rewrite P4, P3, P2, P1. repeat case_decide; congruence.
Qed.

Lemma __list_del_effect h a b :
  is_Some (h !! a) → is_Some (h !! b) →
  ∃ h', __list_del a b h = Ret ((), h') ∧
    (∀ x, nxt h' x = if decide (x = a) then Some b else nxt h x) ∧
    (∀ x, prv h' x = if decide (x = b) then Some a else prv h x) ∧
    dom h' = dom h.
Proof.
  intros Ha Hb.
  destruct (set_next_spec h a b) as (h1 & E1 & N1 & P1 & D1); [done|].
  destruct (set_prev_spec h1 b a) as (h2 & E2 & P2 & N2 & D2);
    [by eapply dom_is_Some|].
  exists h2. split_and!; [|..|congruence].
  - unfold __list_del. mrun E1. exact E2.
  - intros x. by rewrite N2, N1.
  - intros x. by rewrite P2, P1.
Qed.

(** *** Chains *)
Lemma chain_app h a l1 x l2 z :
  chain h a (l1 ++ x :: l2) z ↔ chain h a l1 x ∧ chain h x l2 z.
Proof. revert a. induction l1 as [|y l1 IH]; intros a; simpl; [done|]. rewrite IH. tauto. Qed.

Lemma chain_frame h h' a xs z :
  (∀ x, x ∈ a :: xs → nxt h' x = nxt h x) →
  (∀ x, x ∈ xs ++ [z] → prv h' x = prv h x) →
  chain h a xs z → chain h' a xs z.
Proof.
  revert a. induction xs as [|y xs IH]; intros a Hn Hp; simpl; unfold link.
  - rewrite Hn, Hp by set_solver. done.
  - rewrite Hn, Hp by set_solver. intros [? ?]. split; [done|].
    apply IH; [|set_solver|done]. intros; apply Hn; set_solver.
Qed.

Lemma chain_in h a xs z x : chain h a xs z → x ∈ a :: xs → is_Some (nxt h x).
Proof.
  revert a. induction xs as [|y xs IH]; intros a; simpl.
  - intros [? ?] ?%list_elem_of_singleton. subst. by eexists.
  - intros [[? ?] ?] [->|?]%elem_of_cons; [by eexists|]. eauto.
Qed.

(** The last member of [a :: l], which precedes whatever follows. *)
Definition lastof (a : K) (l : list K) : K := default a (last l).
Definition firstof (l : list K) (z : K) : K := default z (head l).

Lemma lastof_cons a y l : lastof a (y :: l) = lastof y l.
Proof. unfold lastof. rewrite last_cons. by destruct (last l). Qed.

Lemma lastof_in a l : lastof a l ∈ a :: l.
Proof.
  revert a. induction l as [|y l IH]; intros a; [by left|].
  rewrite lastof_cons. right. apply IH.
Qed.
Lemma firstof_in l z : firstof l z ∈ l ++ [z].
Proof. destruct l; simpl; unfold firstof; simpl; set_solver. Qed.

Lemma chain_split h a l1 l2 z :
  chain h a (l1 ++ l2) z →
  link h (lastof a l1) (firstof l2 z).
Proof.
  revert a. induction l1 as [|y l1 IH]; intros a.
  - by destruct l2; simpl; [|intros [? ?]].
  - simpl. intros [_ ?]. rewrite lastof_cons. by apply IH.
Qed.

Lemma chain_join h a l1 l2 z e :
  chain h a (l1 ++ [e] ++ l2) z ↔
  (chain h a l1 e ∧ chain h e l2 z).
Proof. apply chain_app. Qed.

(** Inserting [e] between the two halves of a chain. *)
Lemma chain_insert h h' a l1 l2 z e :
  NoDup (a :: l1 ++ l2) → e ∉ a :: l1 ++ l2 → z ∉ l1 ++ l2 → e ≠ z →
  (∀ x, nxt h' x = if decide (x = e) then Some (firstof l2 z)
                   else if decide (x = lastof a l1) then Some e else nxt h x) →
  (∀ x, prv h' x = if decide (x = e) then Some (lastof a l1)
                   else if decide (x = firstof l2 z) then Some e else prv h x) →
  chain h a (l1 ++ l2) z → chain h' a (l1 ++ e :: l2) z.
Proof.
  revert a. induction l1 as [|y l1 IH]; intros a Hnd He Hz Hez Hn Hp Hc.
  - simpl in *. split.
    + split; [rewrite Hn|rewrite Hp]; unfold lastof; simpl;
        repeat case_decide; set_solver.
    + destruct l2 as [|w l2]; simpl in *; unfold firstof, lastof, link in *; simpl in *.
      { split; [rewrite Hn|rewrite Hp]; repeat case_decide; subst; try done; set_solver. }
      destruct Hc as [Hl Hc]. split.
      { split; [rewrite Hn|rewrite Hp]; repeat case_decide; subst; try done; set_solver. }
      eapply chain_frame; [..|exact Hc].
      * intros x Hx. rewrite Hn. apply NoDup_cons in Hnd as [Ha _].
        repeat case_decide; set_solver.
      * intros x Hx. rewrite Hp. apply NoDup_cons in Hnd as [_ Hnd].
        apply NoDup_cons in Hnd as [Hw _].
        assert (x ≠ w) by set_solver. assert (x ≠ e) by set_solver.
        repeat case_decide; done.
  - simpl in Hc. destruct Hc as [Hl Hc]. apply NoDup_cons in Hnd as [Ha Hnd].
    rewrite lastof_cons in Hn, Hp. simpl. split.
    + destruct Hl as [Hl1 Hl2]. pose proof (lastof_in y l1).
      pose proof (firstof_in l2 z) as Hf.
      split; [rewrite Hn|rewrite Hp].
      * assert (a ≠ e) by set_solver. assert (a ≠ lastof y l1) by set_solver.
        by repeat case_decide.
      * assert (y ≠ e) by set_solver.
        assert (y ≠ firstof l2 z).
        { intros ->. apply NoDup_cons in Hnd as [Hy _]. set_solver. }
        by repeat case_decide.
    + apply IH; set_solver.
Qed.

(** Removing [e]. *)
Lemma chain_remove h h' a l1 l2 z e :
  NoDup (a :: l1 ++ e :: l2) → z ∉ l1 ++ e :: l2 →
  (∀ x, nxt h' x = if decide (x = lastof a l1) then Some (firstof l2 z) else nxt h x) →
  (∀ x, prv h' x = if decide (x = firstof l2 z) then Some (lastof a l1) else prv h x) →
  chain h a (l1 ++ e :: l2) z → chain h' a (l1 ++ l2) z.
Proof.
  revert a. induction l1 as [|y l1 IH]; intros a Hnd Hz Hn Hp Hc.
  - simpl in *. destruct Hc as [_ Hc]. destruct l2 as [|w l2]; simpl in *;
      unfold firstof, lastof, link in *; simpl in *.
    { rewrite Hn, Hp. by repeat case_decide. }
    split; [rewrite Hn, Hp; by repeat case_decide|].
    destruct Hc as [_ Hc]. apply NoDup_cons in Hnd as [Ha Hnd].
    apply NoDup_cons in Hnd as [He Hnd]. apply NoDup_cons in Hnd as [Hw Hnd].
    eapply chain_frame; [..|exact Hc].
    + intros x Hx. rewrite Hn. case_decide; set_solver.
    + intros x Hx. rewrite Hp. case_decide; set_solver.
  - simpl in Hc. destruct Hc as [Hl Hc]. apply NoDup_cons in Hnd as [Ha Hnd].
    rewrite lastof_cons in Hn, Hp. simpl. split.
    + destruct Hl as [Hl1 Hl2]. pose proof (lastof_in y l1).
      pose proof (firstof_in l2 z) as Hf. split; [rewrite Hn|rewrite Hp].
      * rewrite decide_False; [done|]. set_solver.
      * rewrite decide_False; [done|]. intros ->.
        apply NoDup_cons in Hnd as [Hy _]. set_solver.
    + apply IH; set_solver.
Qed.
End Repr.

(** ** The functions of list.h implement sequences *)
Section Family.
Context {K : Type} `{Countable K}.
Implicit Types (h : gmap K (list_entry K)) (F : gmap K (list K)).

Lemma owns_insert F hd xs x hd' :
  owns (<[hd := xs]> F) x hd' ↔
  (hd' = hd ∧ x ∈ hd :: xs) ∨ (hd' ≠ hd ∧ owns F x hd').
Proof.
  unfold owns. destruct (decide (hd' = hd)) as [->|Hne].
  - rewrite lookup_insert_eq. naive_solver.
  - rewrite lookup_insert_ne by done. naive_solver.
Qed.

Lemma owns_head F hd xs : F !! hd = Some xs → owns F hd hd.
Proof. intros. exists xs. split; [done|set_solver]. Qed.
Lemma owns_member F hd xs x : F !! hd = Some xs → x ∈ xs → owns F x hd.
Proof. intros. exists xs. split; [done|set_solver]. Qed.

Lemma dlists_alloc h F x hd : dlists h F → owns F x hd → is_Some (h !! x).
Proof.
  intros D (xs & Hxs & Hin). pose proof (dl_chain _ _ D _ _ Hxs) as Hc.
  destruct (chain_in _ _ _ _ _ Hc Hin) as [y Hy]. by eapply nxt_is_Some.
Qed.

(** An entry nobody points to may come and go. *)
Lemma dlists_agree h h' F : dlists h F → (∀ x hd, owns F x hd → h' !! x = h !! x) → dlists h' F.
Proof.
  intros [D1 D2 D3] He. split; try done. intros hd xs HF. eapply chain_frame; [..|by apply D2].
  - intros x Hx. unfold nxt. rewrite (He x hd); [done|]. by exists xs.
  - intros x Hx. unfold prv. rewrite (He x hd); [done|]. exists xs. split; [done|]. set_solver.
Qed.
Lemma dlists_fresh h F e y : dlists h F → unowned F e → dlists (<[e := y]> h) F.
Proof.
  intros D He. eapply dlists_agree; [done|]. intros x hd Ho. rewrite lookup_insert_ne; [done|]. intros <-. by apply (He hd).
Qed.
Lemma dlists_delete h F e : dlists h F → unowned F e → dlists (delete e h) F.
Proof.
  intros D He. eapply dlists_agree; [done|]. intros x hd Ho. rewrite lookup_delete_ne; [done|]. intros <-. by apply (He hd).
Qed.
Lemma dlists_new h F e y : dlists h F → h !! e = None → dlists (<[e := y]> h) F.
Proof.
  intros D He. apply dlists_fresh; [done|]. intros hd Ho. destruct (dlists_alloc _ _ _ _ D Ho). congruence.
Qed.

(** A list may be given up as a whole. *)
Lemma owns_delete F hd x hd' : owns (delete hd F) x hd' ↔ hd' ≠ hd ∧ owns F x hd'.
Proof.
  unfold owns. destruct (decide (hd' = hd)) as [->|Hne].
  - rewrite lookup_delete_eq. naive_solver.
  - rewrite lookup_delete_ne by done. naive_solver.
Qed.
Lemma dlists_drop h F hd : dlists h F → dlists h (delete hd F).
Proof.
  intros [D1 D2 D3]. split.
  - intros hd' xs [_ HF]%lookup_delete_Some. by apply D1.
  - intros hd' xs [_ HF]%lookup_delete_Some. by apply D2.
  - intros x h1 h2 [_ H1]%owns_delete [_ H2]%owns_delete. by eapply D3.
Qed.
Lemma dlists_dropped h F hd x : dlists h F → owns F x hd → unowned (delete hd F) x.
Proof. intros D Ho hd' [Hne Ho']%owns_delete. apply Hne. by eapply (dl_disj _ _ D). Qed.

(** A change that touches only entries of the list at [hd] leaves the other
    lists alone. *)
Lemma dlists_update h h' F hd xs xs' :
  dlists h F → F !! hd = Some xs →
  (∀ x, x ∉ hd :: xs' → x ∉ hd :: xs → nxt h' x = nxt h x ∧ prv h' x = prv h x) →
  NoDup (hd :: xs') → chain h' hd xs' hd →
  (∀ x, x ∈ xs' → x ∈ xs ∨ unowned F x) →
  dlists h' (<[hd := xs']> F).
Proof.
  intros D Hxs Hsame Hnd Hc Hsub.
  assert (Hout : ∀ x hd', hd' ≠ hd → owns F x hd' → x ∉ hd :: xs' ∧ x ∉ hd :: xs).
  { intros x hd' Hne Hown. split.
    - intros [->|Hin]%elem_of_cons.
      + by apply Hne, (dl_disj _ _ D hd); [|eapply owns_head].
      + destruct (Hsub x Hin) as [Hin'|Hun]; [|by apply (Hun hd')].
        by apply Hne, (dl_disj _ _ D x); [|eapply owns_member].
    - intros Hin. apply Hne, (dl_disj _ _ D x); [done|]. by exists xs. }
  split.
  - intros hd' ys. destruct (decide (hd' = hd)) as [->|Hne].
    + rewrite lookup_insert_eq. by intros [= <-].
    + rewrite lookup_insert_ne by done. apply (dl_nodup _ _ D).
  - intros hd' ys. destruct (decide (hd' = hd)) as [->|Hne].
    + rewrite lookup_insert_eq. by intros [= <-].
    + rewrite lookup_insert_ne by done. intros Hys.
      eapply chain_frame; [..|by apply (dl_chain _ _ D)].
      * intros x Hx. destruct (Hout x hd' Hne) as [? ?]; [by exists ys|].
        by destruct (Hsame x) as [? ?].
      * intros x Hx. destruct (Hout x hd' Hne) as [? ?]; [exists ys; set_solver|].
        by destruct (Hsame x) as [? ?].
  - intros x hd1 hd2. rewrite !owns_insert.
    intros [[-> Hi1]|[Hn1 Ho1]] [[-> Hi2]|[Hn2 Ho2]]; [done|..].
    + by destruct (Hout x hd2 Hn2 Ho2).
    + by destruct (Hout x hd1 Hn1 Ho1).
    + by apply (dl_disj _ _ D x).
Qed.

(** Insertion between the two halves of a member list. *)
Lemma insert_between h F hd l1 l2 e :
  dlists h F → F !! hd = Some (l1 ++ l2) → unowned F e → is_Some (h !! e) →
  ∃ h', __list_add e (lastof hd l1) (firstof l2 hd) h = Ret ((), h') ∧
    dlists h' (<[hd := l1 ++ e :: l2]> F) ∧ dom h' = dom h.
Proof.
  intros D Hxs Hun He.
  pose proof (dl_nodup _ _ D _ _ Hxs) as Hnd.
  pose proof (dl_chain _ _ D _ _ Hxs) as Hc.
  assert (e ∉ hd :: l1 ++ l2) as Hnin.
  { intros Hin. apply (Hun hd). by exists (l1 ++ l2). }
  pose proof (lastof_in hd l1). pose proof (firstof_in l2 hd).
  destruct (__list_add_effect h e (lastof hd l1) (firstof l2 hd))
    as (h' & E & N & P & Hdom); [done|by eapply chain_split|set_solver|set_solver|].
  exists h'. split_and!; [done| |done].
  pose proof Hnd as [Hhd _]%NoDup_cons.
  eapply dlists_update; [done|done|..].
  - intros x Hx1 Hx2. rewrite N, P.
    rewrite !decide_False by set_solver. done.
  - rewrite <-Permutation_middle. apply NoDup_cons. split; [set_solver|].
    apply NoDup_cons. split; [set_solver|]. by apply NoDup_cons in Hnd as [_ ?].
  - eapply chain_insert; [..|exact Hc]; try done; set_solver.
  - intros x Hx. destruct (decide (x = e)) as [->|]; [by right|left; set_solver].
Qed.

Lemma lastof_nil (a : K) : lastof a [] = a. Proof. done. Qed.

Lemma list_add_after_dlists h F hd l1 a l2 e :
  dlists h F → F !! hd = Some (l1 ++ a :: l2) → unowned F e → is_Some (h !! e) →
  ∃ h', list_add_after a e h = Ret ((), h') ∧
    dlists h' (<[hd := l1 ++ a :: e :: l2]> F) ∧ dom h' = dom h.
Proof.
  intros D Hxs Hun He.
  pose proof (dl_chain _ _ D _ _ Hxs) as Hc.
  replace (l1 ++ a :: l2) with ((l1 ++ [a]) ++ l2) in Hxs, Hc by by rewrite <-app_assoc.
  replace (l1 ++ a :: e :: l2) with ((l1 ++ [a]) ++ e :: l2) by by rewrite <-app_assoc.
  destruct (insert_between h F hd (l1 ++ [a]) l2 e) as (h' & E & D' & Hd); [done..|].
  apply chain_split in Hc as [Hc _].
  unfold lastof in E, Hc. rewrite last_snoc in E, Hc. simpl in *.
  exists h'. split_and!; [|done..]. unfold list_add_after.
  rewrite (bind_Ret _ _ _ _ _ (list_next_run _ _ _ Hc)). exact E.
Qed.

Lemma list_add_head_dlists h F hd xs e :
  dlists h F → F !! hd = Some xs → unowned F e → is_Some (h !! e) →
  ∃ h', list_add hd e h = Ret ((), h') ∧
    dlists h' (<[hd := e :: xs]> F) ∧ dom h' = dom h.
Proof.
  intros D Hxs Hun He. pose proof (dl_chain _ _ D _ _ Hxs) as Hc.
  destruct (insert_between h F hd [] xs e) as (h' & E & D' & Hd); [done..|].
  apply (chain_split h hd [] xs hd) in Hc as [Hc _]. rewrite lastof_nil in E, Hc.
  exists h'. split_and!; [|done..]. unfold list_add, list_add_after.
  rewrite (bind_Ret _ _ _ _ _ (list_next_run _ _ _ Hc)). exact E.
Qed.

Lemma list_add_before_dlists h F hd xs e :
  dlists h F → F !! hd = Some xs → unowned F e → is_Some (h !! e) →
  ∃ h', list_add_before hd e h = Ret ((), h') ∧
    dlists h' (<[hd := xs ++ [e]]> F) ∧ dom h' = dom h.
Proof.
  intros D Hxs Hun He. pose proof (dl_chain _ _ D _ _ Hxs) as Hc.
  rewrite <-(app_nil_r xs) in Hxs, Hc.
  destruct (insert_between h F hd xs [] e) as (h' & E & D' & Hd); [done..|].
  apply chain_split in Hc as [_ Hc].
  exists h'. split_and!; [|done..]. unfold list_add_before.
  rewrite (bind_Ret _ _ _ _ _ (list_prev_run _ _ _ Hc)). exact E.
Qed.

Lemma list_del_dlists h F hd l1 e l2 :
  dlists h F → F !! hd = Some (l1 ++ e :: l2) →
  ∃ h', list_del e h = Ret ((), h') ∧
    dlists h' (<[hd := l1 ++ l2]> F) ∧ dom h' = dom h ∧
    unowned (<[hd := l1 ++ l2]> F) e.
Proof.
  intros D Hxs. pose proof (dl_chain _ _ D _ _ Hxs) as Hc.
  pose proof (dl_nodup _ _ D _ _ Hxs) as Hnd.
  pose proof Hc as [_ Hp]%chain_split. unfold firstof in Hp. simpl in Hp.
  pose proof Hc as Hc2. rewrite cons_middle, app_assoc in Hc2.
  apply chain_split in Hc2 as [Hn Hq].
  unfold lastof in Hn, Hq. rewrite last_snoc in Hn, Hq. simpl in Hn, Hq.
  pose proof (lastof_in hd l1). pose proof (firstof_in l2 hd).
  destruct (__list_del_effect h (lastof hd l1) (firstof l2 hd))
    as (h' & E & N & P & Hdom).
  { apply (dlists_alloc h F _ hd D). exists (l1 ++ e :: l2). split; [done|set_solver]. }
  { by eapply prv_is_Some. }
  assert (e ∉ hd :: l1 ++ l2) as Hnin.
  { rewrite <-Permutation_middle in Hnd. apply NoDup_cons in Hnd as [Hh Hnd].
    apply NoDup_cons in Hnd as [He _]. set_solver. }
  exists h'. split_and!; [| |done|].
  - unfold list_del. rewrite (bind_Ret _ _ _ _ _ (list_prev_run _ _ _ Hp)).
    rewrite (bind_Ret _ _ _ _ _ (list_next_run _ _ _ Hn)). exact E.
  - eapply dlists_update; [done|done|..].
    + intros x Hx1 Hx2. rewrite N, P. rewrite !decide_False by set_solver. done.
    + rewrite <-Permutation_middle in Hnd. apply NoDup_cons in Hnd as [Hh Hnd].
      apply NoDup_cons in Hnd as [He Hnd]. apply NoDup_cons. split; [set_solver|done].
    + apply NoDup_cons in Hnd as Hnd'. eapply chain_remove; [..|exact Hc]; try done.
      apply Hnd'.
    + set_solver.
  - intros hd'. rewrite owns_insert. intros [[-> Hi]|[Hne Ho]]; [done|].
    apply Hne, (dl_disj _ _ D e); [done|]. eapply owns_member; [done|set_solver].
Qed.

Lemma list_empty_dlists h F hd xs :
  dlists h F → F !! hd = Some xs →
  list_empty hd h = Ret (bool_decide (xs = []), h).
Proof.
  intros D Hxs. pose proof (dl_chain _ _ D _ _ Hxs) as Hc.
  pose proof (dl_nodup _ _ D _ _ Hxs) as [Hh _]%NoDup_cons.
  apply (chain_split h hd [] xs hd) in Hc as [Hc _]. rewrite lastof_nil in Hc.
  unfold list_empty. rewrite (bind_Ret _ _ _ _ _ (list_next_run _ _ _ Hc)).
  unfold mret, M_ret. do 2 f_equal. apply bool_decide_ext. unfold firstof.
  destruct xs; simpl; [done|]. split; [|done]. intros ->. set_solver.
Qed.

Lemma list_next_head h F hd xs :
  dlists h F → F !! hd = Some xs → list_next hd h = Ret (firstof xs hd, h).
Proof.
  intros D Hxs. pose proof (dl_chain _ _ D _ _ Hxs) as Hc.
  apply (chain_split h hd [] xs hd) in Hc as [Hc _]. by apply list_next_run.
Qed.

Lemma nxt_member h F hd l1 a l2 :
  dlists h F → F !! hd = Some (l1 ++ a :: l2) → nxt h a = Some (firstof l2 hd).
Proof.
  intros D Hxs. pose proof (dl_chain _ _ D _ _ Hxs) as Hc.
  rewrite cons_middle, app_assoc in Hc. apply chain_split in Hc as [Hc _].
  unfold lastof in Hc. by rewrite last_snoc in Hc.
Qed.
Lemma list_next_member h F hd l1 a l2 :
  dlists h F → F !! hd = Some (l1 ++ a :: l2) →
  list_next a h = Ret (firstof l2 hd, h).
Proof. intros D Hxs. by eapply list_next_run, nxt_member. Qed.

Lemma list_prev_head h F hd xs :
  dlists h F → F !! hd = Some xs → list_prev hd h = Ret (lastof hd xs, h).
Proof.
  intros D Hxs. pose proof (dl_chain _ _ D _ _ Hxs) as Hc.
  rewrite <-(app_nil_r xs) in Hc. apply chain_split in Hc as [_ Hc].
  by apply list_prev_run.
Qed.

Lemma list_prev_member h F hd l1 a l2 :
  dlists h F → F !! hd = Some (l1 ++ a :: l2) →
  list_prev a h = Ret (lastof hd l1, h).
Proof.
  intros D Hxs. pose proof (dl_chain _ _ D _ _ Hxs) as Hc.
  apply chain_split in Hc as [_ Hc]. by apply list_prev_run.
Qed.

(** [list_init] makes a fresh entry an empty list of its own. *)
Lemma list_init_dlists h F e :
  dlists h F → unowned F e → is_Some (h !! e) →
  ∃ h', list_init e h = Ret ((), h') ∧ dlists h' (<[e := []]> F) ∧ dom h' = dom h.
Proof.
  intros D Hun He.
  destruct (set_next_spec h e e) as (h1 & E1 & N1 & P1 & D1); [done|].
  destruct (set_prev_spec h1 e e) as (h2 & E2 & P2 & N2 & D2); [by eapply dom_is_Some|].
  exists h2. split_and!; [unfold list_init; by mrun E1| |congruence].
  assert (Hne : ∀ x hd, owns F x hd → x ≠ e) by (intros x hd Ho ->; by apply (Hun hd)).
  split.
  - intros hd ys. destruct (decide (hd = e)) as [->|].
    + rewrite lookup_insert_eq. intros [= <-]. apply NoDup_singleton.
    + rewrite lookup_insert_ne by done. apply (dl_nodup _ _ D).
  - intros hd ys. destruct (decide (hd = e)) as [->|].
    + rewrite lookup_insert_eq. intros [= <-]. simpl. split.
      * by rewrite N2, N1, decide_True.
      * by rewrite P2, decide_True.
    + rewrite lookup_insert_ne by done. intros Hys.
      eapply chain_frame; [..|by apply (dl_chain _ _ D)].
      * intros x Hx. rewrite N2, N1, decide_False; [done|].
        apply (Hne x hd). by exists ys.
      * intros x Hx. rewrite P2, P1, decide_False; [done|].
        apply (Hne x hd). exists ys. set_solver.
  - intros x hd1 hd2. rewrite !owns_insert.
    intros [[-> Hi1]|[Hn1 Ho1]] [[-> Hi2]|[Hn2 Ho2]]; [done|..].
    + apply list_elem_of_singleton in Hi1 as ->. by destruct (Hun hd2).
    + apply list_elem_of_singleton in Hi2 as ->. by destruct (Hun hd1).
    + by apply (dl_disj _ _ D x).
Qed.

Lemma list_add_before_member h F hd l1 a l2 e :
  dlists h F → F !! hd = Some (l1 ++ a :: l2) → unowned F e → is_Some (h !! e) →
  ∃ h', list_add_before a e h = Ret ((), h') ∧
    dlists h' (<[hd := l1 ++ e :: a :: l2]> F) ∧ dom h' = dom h.
Proof.
  intros D Hxs Hun He. pose proof (dl_chain _ _ D _ _ Hxs) as Hc.
  destruct (insert_between h F hd l1 (a :: l2) e) as (h' & E & D' & Hd); [done..|].
  apply chain_split in Hc as [_ Hc].
  exists h'. split_and!; [|done..]. unfold list_add_before.
  rewrite (bind_Ret _ _ _ _ _ (list_prev_run _ _ _ Hc)). exact E.
Qed.

(** ** The operations against lists *)
Inductive list_op : Type :=
| OpInit (e : K)
| OpAdd (at_ e : K)
| OpAddBefore (at_ e : K)
| OpAddAfter (at_ e : K)
| OpDel (e : K)
| OpDelInit (e : K).

Definition run_list_op (o : list_op) : M (gmap K (list_entry K)) unit :=
  match o with
  | OpInit e => list_init e
  | OpAdd a e => list_add a e
  | OpAddBefore a e => list_add_before a e
  | OpAddAfter a e => list_add_after a e
  | OpDel e => list_del e
  | OpDelInit e => list_del_init e
  end.

(** What each operation means on a family of disjoint lists, each named by
    its head, and when it may be called: an entry is added while it is in no
    list, and deleted while it is a member (not a head) of one.  The head
    itself stands for both ends of its list. *)
Inductive list_step (F : gmap K (list K)) : list_op → gmap K (list K) → Prop :=
| step_init e : unowned F e → list_step F (OpInit e) (<[e := []]> F)
| step_add_front hd xs e : F !! hd = Some xs → unowned F e →
    list_step F (OpAdd hd e) (<[hd := e :: xs]> F)
| step_add hd l1 a l2 e : F !! hd = Some (l1 ++ a :: l2) → unowned F e →
    list_step F (OpAdd a e) (<[hd := l1 ++ a :: e :: l2]> F)
| step_after_front hd xs e : F !! hd = Some xs → unowned F e →
    list_step F (OpAddAfter hd e) (<[hd := e :: xs]> F)
| step_after hd l1 a l2 e : F !! hd = Some (l1 ++ a :: l2) → unowned F e →
    list_step F (OpAddAfter a e) (<[hd := l1 ++ a :: e :: l2]> F)
| step_before_back hd xs e : F !! hd = Some xs → unowned F e →
    list_step F (OpAddBefore hd e) (<[hd := xs ++ [e]]> F)
| step_before hd l1 a l2 e : F !! hd = Some (l1 ++ a :: l2) → unowned F e →
    list_step F (OpAddBefore a e) (<[hd := l1 ++ e :: a :: l2]> F)
| step_del hd l1 e l2 : F !! hd = Some (l1 ++ e :: l2) →
    list_step F (OpDel e) (<[hd := l1 ++ l2]> F)
| step_del_init hd l1 e l2 : F !! hd = Some (l1 ++ e :: l2) →
    list_step F (OpDelInit e) (<[e := []]> (<[hd := l1 ++ l2]> F)).

Definition op_entry (o : list_op) : K :=
  match o with
  | OpInit e | OpAdd _ e | OpAddBefore _ e | OpAddAfter _ e | OpDel e | OpDelInit e => e
  end.

Lemma run_list_op_spec h F o F' :
  dlists h F → list_step F o F' → is_Some (h !! op_entry o) →
  ∃ h', run_list_op o h = Ret ((), h') ∧ dlists h' F' ∧ dom h' = dom h.
Proof.
  intros D Hs He. destruct Hs as [e Hun|hd xs e Hxs Hun|hd l1 a l2 e Hxs Hun|hd xs e Hxs Hun
    |hd l1 a l2 e Hxs Hun|hd xs e Hxs Hun|hd l1 a l2 e Hxs Hun|hd l1 e l2 Hxs|hd l1 e l2 Hxs];
    simpl in *.
  - by apply list_init_dlists.
  - by apply list_add_head_dlists.
  - by apply list_add_after_dlists.
  - by apply list_add_head_dlists.
  - by apply list_add_after_dlists.
  - by apply list_add_before_dlists.
  - by apply list_add_before_member.
  - destruct (list_del_dlists h F hd l1 e l2 D Hxs) as (h' & ? & ? & ? & _). by exists h'.
  - destruct (list_del_dlists h F hd l1 e l2 D Hxs) as (h1 & E1 & D1 & Hd1 & Hun).
    destruct (list_init_dlists h1 _ e D1 Hun) as (h2 & E2 & D2 & Hd2);
      [by eapply dom_is_Some|].
    exists h2. unfold list_del_init. mrun E1. by rewrite Hd2.
Qed.

(** Sequences of operations. *)
Inductive list_steps : gmap K (list K) → list list_op → gmap K (list K) → Prop :=
| steps_nil F : list_steps F [] F
| steps_cons F o F1 os F2 : list_step F o F1 → list_steps F1 os F2 → list_steps F (o :: os) F2.

Fixpoint run_list_ops (os : list list_op) : M (gmap K (list_entry K)) unit :=
  match os with [] => skip | o :: os => run_list_op o;; run_list_ops os end.

Lemma run_list_ops_spec h F os F' :
  dlists h F → list_steps F os F' → Forall (λ o, is_Some (h !! op_entry o)) os →
  ∃ h', run_list_ops os h = Ret ((), h') ∧ dlists h' F'.
Proof.
  intros D Hs. revert h D. induction Hs as [F|F o F1 os F2 Ho Hs IH]; intros h D Hall.
  - by exists h.
  - apply Forall_cons in Hall as [He Hall].
    destruct (run_list_op_spec h F o F1 D Ho He) as (h1 & E1 & D1 & Hd).
    destruct (IH h1 D1) as (h2 & E2 & D2).
    { eapply Forall_impl; [exact Hall|]. intros o' Ho'. simpl in *. by eapply dom_is_Some. }
    exists h2. simpl. by mrun E1.
Qed.
End Family.
Arguments OpInit {K} _.
Arguments OpAdd {K} _ _.
Arguments OpAddBefore {K} _ _.
Arguments OpAddAfter {K} _ _.
Arguments OpDel {K} _.
Arguments OpDelInit {K} _.

(** C32. The circular doubly linked lists of list.h refine lists: starting from
    any heap that holds a family of disjoint lists, every permitted sequence
    of list_init, list_add, list_add_before, list_add_after, list_del and
    list_del_init returns without a bad access, and leaves a heap that holds
    exactly the lists the same operations on Rocq lists give. *)
Theorem list_ops_refine {K} `{Countable K} (h : gmap K (list_entry K)) F os F' :
  dlists h F → list_steps F os F' → Forall (λ o, is_Some (h !! op_entry o)) os →
  ∃ h', run_list_ops os h = Ret ((), h') ∧ dlists h' F'.
Proof. apply run_list_ops_spec. Qed.

Lemma dlists_empty {K} `{Countable K} (h : gmap K (list_entry K)) : dlists h ∅.
Proof. split; [done|done|]. by intros x hd1 hd2 (xs & ? & _). Qed.

Lemma list_ops_refine_witness :
  ∃ h', run_list_ops [OpInit 1; OpAdd 1 2; OpAddAfter 2 3; OpAddBefore 1 4; OpDelInit 3]
          (list_to_map ((λ p, (p, ListEntry 0 0)) <$> [1; 2; 3; 4])) = Ret ((), h') ∧
    dlists h' {[ 1 := [2; 4]; 3 := [] ]}.
Proof.
  assert (Hun : ∀ (F : gmap Z (list Z)) e,
            map_Forall (λ hd xs, e ∉ hd :: xs) F → unowned F e).
  { intros F e HF hd (xs & Hxs & Hin). by apply (HF hd xs Hxs). }
  eapply (list_ops_refine _ ∅).
  - apply dlists_empty.
  - eapply steps_cons; [apply step_init, Hun; decide_now|].
    eapply steps_cons; [apply (step_add_front _ 1 []); [done|apply Hun; decide_now]|].
    eapply steps_cons; [apply (step_after _ 1 [] 2 []); [done|apply Hun; decide_now]|].
    eapply steps_cons; [apply (step_before_back _ 1 [2; 3]); [done|apply Hun; decide_now]|].
    eapply steps_cons; [apply (step_del_init _ 1 [2] 3 [4]); done|].
    replace ({[ 1 := [2; 4]; 3 := [] ]} : gmap Z (list Z)) with
      (<[3 := []]> (<[1 := [2] ++ [4]]> (<[1 := [2; 3; 4]]> (<[1 := [2; 3]]> (<[1 := [2]]> (<[1 := []]> ∅))))) : gmap Z (list Z))
      by decide_now.
    constructor.
  - decide_now.
Defined.

(** ** Walking a list *)
Section Walk.
Context {K : Type} `{Countable K}.
Implicit Types (h : gmap K (list_entry K)) (F : gmap K (list K)).
Lemma next_at h F hd l1 l2 :
  dlists h F → F !! hd = Some (l1 ++ l2) → list_next (lastof hd l1) h = Ret (firstof l2 hd, h).
Proof.
  intros Hd HF. destruct l1 as [|x l1 _] using rev_ind; [by apply (list_next_head h F)|].
  unfold lastof. rewrite last_snoc. simpl. rewrite <-app_assoc in HF. by apply (list_next_member h F hd l1 x l2).
Qed.
Lemma prev_at h F hd l1 l2 :
  dlists h F → F !! hd = Some (l1 ++ l2) → list_prev (firstof l2 hd) h = Ret (lastof hd l1, h).
Proof.
  intros Hd HF. destruct l2 as [|x l2].
  - rewrite app_nil_r in HF. by apply (list_prev_head h F).
  - by apply (list_prev_member h F hd l1 x l2).
Qed.
(** list_add_after writes the new entry and its two neighbours only. *)
Lemma set_prev_frame h p v r : set_prev p v h = Ret r → ∀ x, x ≠ p → r.2 !! x = h !! x.
Proof. unfold set_prev. destruct (h !! p); intros [= <-] x Hx; simpl. by rewrite lookup_insert_ne. Qed.
Lemma set_next_frame h p v r : set_next p v h = Ret r → ∀ x, x ≠ p → r.2 !! x = h !! x.
Proof. unfold set_next. destruct (h !! p); intros [= <-] x Hx; simpl. by rewrite lookup_insert_ne. Qed.
Lemma list_add_after_frame h a b e h' :
  list_add_after a e h = Ret ((), h') → list_next a h = Ret (b, h) → ∀ x, x ≠ a → x ≠ b → x ≠ e → h' !! x = h !! x.
Proof.
  intros E En x Ha Hb He. unfold list_add_after in E. rewrite (bind_Ret _ _ _ _ _ En) in E. unfold __list_add in E.
  apply bind_inv in E as (? & h1 & E1 & E). apply bind_inv in E as (? & h2 & E2 & E). apply bind_inv in E as (? & h3 & E3 & E).
  rewrite (set_prev_frame _ _ _ _ E), (set_next_frame _ _ _ _ E3), (set_next_frame _ _ _ _ E2), (set_prev_frame _ _ _ _ E1) by done.
  done.
Qed.
Lemma add_at h F hd l1 l2 e :
  dlists h F → F !! hd = Some (l1 ++ l2) → unowned F e → is_Some (h !! e) →
  ∃ h', list_add_after (lastof hd l1) e h = Ret ((), h') ∧ dlists h' (<[hd := l1 ++ e :: l2]> F) ∧ dom h' = dom h ∧
    ∀ x, unowned F x → x ≠ e → h' !! x = h !! x.
Proof.
  intros Hd HF Hu He.
  assert (Hadd : ∃ h', list_add_after (lastof hd l1) e h = Ret ((), h') ∧ dlists h' (<[hd := l1 ++ e :: l2]> F) ∧
    dom h' = dom h).
  { destruct l1 as [|x l1 _] using rev_ind; [by apply list_add_head_dlists|].
    unfold lastof. rewrite last_snoc. simpl. rewrite <-app_assoc in HF |- *. by apply list_add_after_dlists. }
  destruct Hadd as (h' & E & Hd' & Hdom). exists h'. split_and!; try done. intros x Hx Hxe.
  apply (list_add_after_frame _ _ _ _ _ E (next_at h F hd l1 l2 Hd HF)); [| |done]; intros ->; apply (Hx hd);
    exists (l1 ++ l2); (split; [done|]).
  - pose proof (lastof_in hd l1). set_solver.
  - pose proof (firstof_in l2 hd). set_solver.
Qed.
End Walk.
