(* ===== verification/RbTree.v ===== *)
(** * lib/rb_tree.c: the red-black tree, pointer by pointer

    The heap maps node addresses to [struct rb_node]; every function is the C
    code statement by statement, with the macros FUNC_ROTATE, RB_INSERT_SUB
    and RB_DELETE_FIXUP_SUB parameterised by a direction, as the C macros are
    by the two field names. *)
From stdpp Require Import base gmap list fin_maps.
From Stdlib Require Import ZArith Lia.
From S2P Require Import Prelude.

Definition NULL : Z := 0.

(** ** Data: include/rb_tree.h *)
Record rb_node : Type := RbNode {
  red : bool;
  parent : Z;
  left : Z;
  right : Z }.

Record rb_tree : Type := RbTree {
  compare : Z → Z → Z;
  nil : Z;
  root : Z }.

(** The two instances of each macro. *)
Inductive dir : Type := Left | Right.
Definition opp (d : dir) : dir := match d with Left => Right | Right => Left end.
#[global] Instance dir_eq_dec : EqDecision dir.
Proof. solve_decision. Defined.

Definition child (d : dir) (n : rb_node) : Z :=
  match d with Left => left n | Right => right n end.
Definition with_child (d : dir) (v : Z) (n : rb_node) : rb_node :=
  match d with
  | Left => RbNode (red n) (parent n) v (right n)
  | Right => RbNode (red n) (parent n) (left n) v
  end.
Definition with_parent (v : Z) (n : rb_node) : rb_node :=
  RbNode (red n) v (left n) (right n).
Definition with_red (b : bool) (n : rb_node) : rb_node :=
  RbNode b (parent n) (left n) (right n).

Abbreviation heap := (gmap Z rb_node).

(** ** Memory accesses *)
Definition read (p : Z) : M heap rb_node := λ h,
  match h !! p with Some n => Ret (n, h) | None => Fault end.
Definition update (p : Z) (f : rb_node → rb_node) : M heap unit := λ h,
  match h !! p with Some n => Ret ((), <[p := f n]> h) | None => Fault end.

Definition get_red (p : Z) : M heap bool := n ← read p; mret (red n).
Definition get_parent (p : Z) : M heap Z := n ← read p; mret (parent n).
Definition get_child (d : dir) (p : Z) : M heap Z := n ← read p; mret (child d n).
Definition set_red (p : Z) (b : bool) : M heap unit := update p (with_red b).
Definition set_parent (p v : Z) : M heap unit := update p (with_parent v).
Definition set_child (d : dir) (p v : Z) : M heap unit := update p (with_child d v).

(** ** Operations *)
Definition rb_tree_empty (tree : rb_tree) : M heap bool :=
  l ← get_child Left (root tree); mret (bool_decide (l = nil tree)).

(** if (x == x->parent->_left) x->parent->_left = y; else x->parent->_right = y; *)
Definition replace_child (d : dir) (x y : Z) : M heap unit :=
  p ← get_parent x; c ← get_child d p;
  if bool_decide (x = c) then set_child d p y else set_child (opp d) p y.

(** FUNC_ROTATE with [_left] = [d]. *)
Definition rotate (d : dir) (tree : rb_tree) (x : Z) : M heap unit :=
  y ← get_child (opp d) x;
  assert (bool_decide (x ≠ root tree ∧ x ≠ nil tree ∧ y ≠ nil tree));;
  yl ← get_child d y;
  set_child (opp d) x yl;;
  yl ← get_child d y;
  (if bool_decide (yl ≠ nil tree) then yl ← get_child d y; set_parent yl x else skip);;
  px ← get_parent x;
  set_parent y px;;
  replace_child d x y;;
  set_child d y x;;
  set_parent x y;;
  r ← get_red (nil tree);
  assert (negb r).

Definition rb_left_rotate : rb_tree → Z → M heap unit := rotate Left.
Definition rb_right_rotate : rb_tree → Z → M heap unit := rotate Right.

(** The descent loop of rb_insert_binary; returns the final y. *)
Fixpoint insert_descend (fuel : nat) (tree : rb_tree) (node x y : Z) : M heap Z :=
  match fuel with
  | O => out_of_fuel
  | S fuel =>
    if bool_decide (x = nil tree) then mret y
    else
      x' ← (if bool_decide (compare tree x node > 0) then get_child Left x
            else get_child Right x);
      insert_descend fuel tree node x' x
  end.

Definition rb_insert_binary (fuel : nat) (tree : rb_tree) (node : Z) : M heap unit :=
  set_child Right node (nil tree);;
  set_child Left node (nil tree);;
  x ← get_child Left (root tree);
  y ← insert_descend fuel tree node x (root tree);
  set_parent node y;;
  if bool_decide (y = root tree ∨ compare tree y node > 0)
  then set_child Left y node else set_child Right y node.

(** RB_INSERT_SUB with [_left] = [d]; returns the new x. *)
Definition rb_insert_sub (d : dir) (tree : rb_tree) (x : Z) : M heap Z :=
  p ← get_parent x; pp ← get_parent p; y ← get_child (opp d) pp;
  yr ← get_red y;
  if (yr : bool) then
    p ← get_parent x; set_red p false;;
    set_red y false;;
    p ← get_parent x; pp ← get_parent p; set_red pp true;;
    p ← get_parent x; get_parent p
  else
    p ← get_parent x; c ← get_child (opp d) p;
    x ← (if bool_decide (x = c) then
           x' ← get_parent x; rotate d tree x';; mret x'
         else mret x);
    p ← get_parent x; set_red p false;;
    p ← get_parent x; pp ← get_parent p; set_red pp true;;
    p ← get_parent x; pp ← get_parent p; rotate (opp d) tree pp;;
    mret x.

Fixpoint rb_insert_loop (fuel : nat) (tree : rb_tree) (x : Z) : M heap unit :=
  match fuel with
  | O => out_of_fuel
  | S fuel =>
    p ← get_parent x; pr ← get_red p;
    if (pr : bool) then
      p ← get_parent x; pp ← get_parent p; l ← get_child Left pp;
      x' ← rb_insert_sub (if bool_decide (p = l) then Left else Right) tree x;
      rb_insert_loop fuel tree x'
    else skip
  end.

Definition rb_insert (fuel : nat) (tree : rb_tree) (node : Z) : M heap unit :=
  rb_insert_binary fuel tree node;;
  set_red node true;;
  rb_insert_loop fuel tree node;;
  r ← get_child Left (root tree); set_red r false;;
  nr ← get_red (nil tree); rr ← get_red (root tree);
  assert (negb nr && negb rr).

(** while (y->_left != nil) y = y->_left; *)
Fixpoint descend (fuel : nat) (d : dir) (tree : rb_tree) (y : Z) : M heap Z :=
  match fuel with
  | O => out_of_fuel
  | S fuel =>
    c ← get_child d y;
    if bool_decide (c = nil tree) then mret y else descend fuel d tree c
  end.

(** while (x == y->right) x = y, y = y->parent; *)
Fixpoint succ_up (fuel : nat) (x y : Z) : M heap Z :=
  match fuel with
  | O => out_of_fuel
  | S fuel =>
    r ← get_child Right y;
    if bool_decide (x = r) then p ← get_parent y; succ_up fuel y p else mret y
  end.

Definition rb_tree_successor (fuel : nat) (tree : rb_tree) (node : Z) : M heap Z :=
  y ← get_child Right node;
  if bool_decide (y ≠ nil tree) then descend fuel Left tree y
  else
    y ← get_parent node;
    y ← succ_up fuel node y;
    if bool_decide (y = root tree) then mret (nil tree) else mret y.

Fixpoint pred_up (fuel : nat) (tree : rb_tree) (x y : Z) : M heap Z :=
  match fuel with
  | O => out_of_fuel
  | S fuel =>
    l ← get_child Left y;
    if bool_decide (x = l) then
      if bool_decide (y = root tree) then mret (nil tree)
      else p ← get_parent y; pred_up fuel tree y p
    else mret y
  end.

Definition rb_tree_predecessor (fuel : nat) (tree : rb_tree) (node : Z) : M heap Z :=
  y ← get_child Left node;
  if bool_decide (y ≠ nil tree) then descend fuel Right tree y
  else y ← get_parent node; pred_up fuel tree node y.

(** The loop of rb_search; [cmp n] is compare(n, key). *)
Fixpoint search_loop (fuel : nat) (tree : rb_tree) (cmp : Z → Z) (node : Z) : M heap Z :=
  match fuel with
  | O => out_of_fuel
  | S fuel =>
    if bool_decide (node = nil tree) then mret node
    else
      let r := cmp node in
      if bool_decide (r = 0) then mret node
      else
        n ← (if bool_decide (r > 0) then get_child Left node else get_child Right node);
        search_loop fuel tree cmp n
  end.

Definition rb_search (fuel : nat) (tree : rb_tree) (cmp : Z → Z) : M heap Z :=
  node ← get_child Left (root tree);
  node ← search_loop fuel tree cmp node;
  mret (if bool_decide (node ≠ nil tree) then node else NULL).

(** RB_DELETE_FIXUP_SUB with [_left] = [d]; [rt] is the local variable root. *)
Definition rb_delete_fixup_sub (d : dir) (tree : rb_tree) (rt x : Z) : M heap Z :=
  p ← get_parent x; w ← get_child (opp d) p;
  wr ← get_red w;
  w ← (if (wr : bool) then
         set_red w false;;
         p ← get_parent x; set_red p true;;
         p ← get_parent x; rotate d tree p;;
         p ← get_parent x; get_child (opp d) p
       else mret w);
  wl ← get_child d w; wlr ← get_red wl;
  wr ← get_child (opp d) w; wrr ← get_red wr;
  if negb wlr && negb wrr then
    set_red w true;; get_parent x
  else
    wr ← get_child (opp d) w; wrr ← get_red wr;
    w ← (if negb wrr then
           wl ← get_child d w; set_red wl false;;
           set_red w true;;
           rotate (opp d) tree w;;
           p ← get_parent x; get_child (opp d) p
         else mret w);
    p ← get_parent x; pr ← get_red p; set_red w pr;;
    p ← get_parent x; set_red p false;;
    wr ← get_child (opp d) w; set_red wr false;;
    p ← get_parent x; rotate d tree p;;
    mret rt.

Fixpoint rb_delete_fixup_loop (fuel : nat) (tree : rb_tree) (rt x : Z) : M heap Z :=
  match fuel with
  | O => out_of_fuel
  | S fuel =>
    xr ← (if bool_decide (x ≠ rt) then r ← get_red x; mret (negb r) else mret false);
    if (xr : bool) then
      p ← get_parent x; l ← get_child Left p;
      x' ← rb_delete_fixup_sub (if bool_decide (x = l) then Left else Right) tree rt x;
      rb_delete_fixup_loop fuel tree rt x'
    else mret x
  end.

Definition rb_delete_fixup (fuel : nat) (tree : rb_tree) (node : Z) : M heap unit :=
  rt ← get_child Left (root tree);
  x ← rb_delete_fixup_loop fuel tree rt node;
  set_red x false.

Definition rb_delete (fuel : nat) (tree : rb_tree) (node : Z) : M heap unit :=
  let z := node in
  zl ← get_child Left z; zr ← get_child Right z;
  y ← (if bool_decide (zl = nil tree ∨ zr = nil tree) then mret z
       else rb_tree_successor fuel tree z);
  yl ← get_child Left y;
  x ← (if bool_decide (yl ≠ nil tree) then mret yl else get_child Right y);
  assert (bool_decide (y ≠ root tree ∧ y ≠ nil tree));;
  py ← get_parent y; set_parent x py;;
  replace_child Left y x;;
  yr ← get_red y;
  let need_fixup := negb yr in
  (if bool_decide (y ≠ z) then
     replace_child Left z y;;
     zr ← get_child Right z; set_parent zr y;;
     zl ← get_child Left z; set_parent zl y;;
     n ← read z; update y (λ _, n)
   else skip);;
  if (need_fixup : bool) then rb_delete_fixup fuel tree x else skip.

Definition or_null (tree : rb_tree) (p : Z) : Z :=
  if bool_decide (p ≠ nil tree) then p else NULL.

Definition rb_node_prev (fuel : nat) (tree : rb_tree) (node : Z) : M heap Z :=
  prev ← rb_tree_predecessor fuel tree node; mret (or_null tree prev).
Definition rb_node_next (fuel : nat) (tree : rb_tree) (node : Z) : M heap Z :=
  next ← rb_tree_successor fuel tree node; mret (or_null tree next).
Definition rb_node_root (tree : rb_tree) : M heap Z :=
  node ← get_child Left (root tree); mret (or_null tree node).
Definition rb_node_left (tree : rb_tree) (node : Z) : M heap Z :=
  left ← get_child Left node; mret (or_null tree left).
Definition rb_node_right (tree : rb_tree) (node : Z) : M heap Z :=
  right ← get_child Right node; mret (or_null tree right).

Fixpoint check_tree (fuel : nat) (tree : rb_tree) (node : Z) : M heap Z :=
  match fuel with
  | O => out_of_fuel
  | S fuel =>
    if bool_decide (node = nil tree) then
      r ← get_red node; assert (negb r);; mret 1
    else
      l ← get_child Left node;
      (if bool_decide (l ≠ nil tree) then
         assert (bool_decide (compare tree node l >= 0));;
         p ← get_parent l; assert (bool_decide (p = node))
       else skip);;
      r ← get_child Right node;
      (if bool_decide (r ≠ nil tree) then
         assert (bool_decide (compare tree node r ≤ 0));;
         p ← get_parent r; assert (bool_decide (p = node))
       else skip);;
      nr ← get_red node;
      (if (nr : bool) then
         lr ← get_red l; rr ← get_red r; assert (negb lr && negb rr)
       else skip);;
      hb_left ← check_tree fuel tree l;
      hb_right ← check_tree fuel tree r;
      assert (bool_decide (hb_left = hb_right));;
      nr ← get_red node;
      mret (if (nr : bool) then hb_left else s32 (hb_left + 1))
  end.

(** Creation and destruction call the allocator, whose state [S] contains the
    heap of nodes. *)
Section Alloc.
Context {S : Type} (nodes : lens S heap).
Context (kmalloc : Z → M S Z) (kfree : Z → M S unit).

Definition sizeof_rb_node : Z := 16.
Definition sizeof_rb_tree : Z := 12.

Definition rb_node_create : M S Z := kmalloc sizeof_rb_node.

(** The address of the new tree with its contents, or [None] for NULL. *)
Definition rb_tree_create (compare : Z → Z → Z) : M S (option (Z * rb_tree)) :=
  tree ← kmalloc sizeof_rb_tree;
  if bool_decide (tree = NULL) then mret None
  else
    nil ← rb_node_create;
    if bool_decide (nil = NULL) then kfree tree;; mret None
    else
      zoom nodes (modify (insert nil (RbNode false nil nil nil)));;
      root ← rb_node_create;
      if bool_decide (root = NULL) then kfree nil;; kfree tree;; mret None
      else
        zoom nodes (modify (insert root (RbNode false nil nil nil)));;
        mret (Some (tree, RbTree compare nil root)).

Definition rb_tree_destroy (addr : Z) (tree : rb_tree) : M S unit :=
  kfree (root tree);; kfree (nil tree);; kfree addr.
End Alloc.
