(* ===== verification/RbRepr.v ===== *)
(** * The red-black tree: representation and rotations

    An inductive tree whose nodes carry their addresses, contexts for the path
    to the root, and the relation [rep] between a heap and a tree in a
    context.  A heap represents a tree when it contains the list of cells the
    tree prescribes, which makes the relation invariant under permutation and
    lets each heap write be framed. *)
From stdpp Require Import base gmap list fin_maps.
From Stdlib Require Import ZArith Lia.
From S2P Require Import Prelude RbTree.

(** ** Trees and contexts *)
Inductive tree : Type :=
| L
| N (c : bool) (l : tree) (x : Z) (r : tree).

Definition nd (d : dir) (c : bool) (t : tree) (x : Z) (u : tree) : tree :=
  match d with Left => N c t x u | Right => N c u x t end.

(** The hole is the [d]-child of [x]; [s] is its sibling. *)
Inductive frame : Type := Frame (d : dir) (c : bool) (x : Z) (s : tree).

Fixpoint plug (k : list frame) (t : tree) : tree :=
  match k with
  | [] => t
  | Frame d c x s :: k => plug k (nd d c t x s)
  end.

Fixpoint ids (t : tree) : list Z :=
  match t with L => [] | N _ l x r => x :: ids l ++ ids r end.
Fixpoint inorder (t : tree) : list Z :=
  match t with L => [] | N _ l x r => inorder l ++ x :: inorder r end.

Lemma inorder_ids t : inorder t ≡ₚ ids t.
Proof.
  induction t as [|c l IHl x r IHr]; simpl; [done|].
  by rewrite <-Permutation_middle, IHl, IHr.
Qed.

Definition is_red (t : tree) : bool := match t with N true _ _ _ => true | _ => false end.

Section Repr.
Context (tr : rb_tree).

Definition rt (t : tree) : Z := match t with L => nil tr | N _ _ x _ => x end.

Definition node (d : dir) (c : bool) (par a b : Z) : rb_node :=
  match d with Left => RbNode c par a b | Right => RbNode c par b a end.

(** The cells of a tree whose root has parent [par]. *)
Fixpoint cells (par : Z) (t : tree) : list (Z * rb_node) :=
  match t with
  | L => []
  | N c l x r => (x, RbNode c par (rt l) (rt r)) :: cells x l ++ cells x r
  end.

Definition cpar (k : list frame) : Z :=
  match k with [] => root tr | Frame _ _ x _ :: _ => x end.
(** The cell that holds the hole, and the rest of the context. *)
Definition ctop (k : list frame) (p : Z) : rb_node :=
  match k with
  | [] => RbNode false (nil tr) p (nil tr)
  | Frame d c x s :: k => node d c (cpar k) p (rt s)
  end.
Fixpoint crest (k : list frame) : list (Z * rb_node) :=
  match k with
  | [] => []
  | Frame d c x s :: k => cells x s ++ (cpar k, ctop k x) :: crest k
  end.

Definition all (k : list frame) (t : tree) : list (Z * rb_node) :=
  (cpar k, ctop k (rt t)) :: crest k ++ cells (cpar k) t.

Definition models (h : heap) (l : list (Z * rb_node)) : Prop :=
  Forall (λ c, h !! c.1 = Some c.2) l.

(** The sentinel nil: black, its links arbitrary. *)
Definition nil_ok (h : heap) : Prop := ∃ n, h !! nil tr = Some n ∧ red n = false.

Record rep (h : heap) (k : list frame) (t : tree) : Prop := {
  rep_models : models h (all k t);
  rep_nodup : NoDup (nil tr :: (all k t).*1);
  rep_nil : nil_ok h }.

(** *** Elementary facts *)
#[global] Instance models_perm h : Proper ((≡ₚ) ==> iff) (models h).
Proof. intros l l' E. unfold models. by rewrite E. Qed.

Lemma models_app h l1 l2 : models h (l1 ++ l2) ↔ models h l1 ∧ models h l2.
Proof. apply Forall_app. Qed.
Lemma models_cons h x n l : models h ((x, n) :: l) ↔ h !! x = Some n ∧ models h l.
Proof. unfold models. by rewrite Forall_cons. Qed.
Lemma models_nil h : models h []. Proof. constructor. Qed.

Lemma models_insert h p n l : p ∉ l.*1 → models h l → models (<[p := n]> h) l.
Proof.
  intros Hp. unfold models. rewrite !Forall_forall. intros Hm c Hc.
  rewrite lookup_insert_ne; [by apply Hm|].
  intros ->. apply Hp. apply list_elem_of_fmap. by exists c.
Qed.

Lemma keys_cells par t : (cells par t).*1 = ids t.
Proof.
  revert par. induction t as [|c l IHl x r IHr]; intros par; simpl; [done|].
  by rewrite fmap_app, IHl, IHr.
Qed.

Fixpoint cids (k : list frame) : list Z :=
  match k with [] => [] | Frame _ _ x s :: k => ids s ++ cpar k :: cids k end.
Lemma keys_crest k : (crest k).*1 = cids k.
Proof.
  induction k as [|[d c x s] k IH]; simpl; [done|].
  rewrite fmap_app, keys_cells, fmap_cons. simpl. by rewrite IH.
Qed.

Definition aids (k : list frame) (t : tree) : list Z := cpar k :: cids k ++ ids t.
Lemma keys_all k t : (all k t).*1 = aids k t.
Proof. unfold all, aids; simpl. by rewrite fmap_app, keys_cells, keys_crest. Qed.

Lemma rt_nd d c t x u : rt (nd d c t x u) = x.
Proof. by destruct d. Qed.
Lemma ids_nd d c t x u : ids (nd d c t x u) ≡ₚ x :: ids t ++ ids u.
Proof. destruct d; simpl; [done|]. by rewrite (Permutation_app_comm (ids u)). Qed.
Lemma cells_nd par d c t x u :
  cells par (nd d c t x u) ≡ₚ (x, node d c par (rt t) (rt u)) :: cells x t ++ cells x u.
Proof. destruct d; simpl; [done|]. by rewrite (Permutation_app_comm (cells x u)). Qed.

Lemma node_child d c p a b : child d (node d c p a b) = a.
Proof. by destruct d. Qed.
Lemma node_child_opp d c p a b : child (opp d) (node d c p a b) = b.
Proof. by destruct d. Qed.
Lemma node_parent d c p a b : parent (node d c p a b) = p.
Proof. by destruct d. Qed.
Lemma node_red d c p a b : red (node d c p a b) = c.
Proof. by destruct d. Qed.
Lemma node_with_child d c p a b v : with_child d v (node d c p a b) = node d c p v b.
Proof. by destruct d. Qed.
Lemma node_with_child_opp d c p a b v :
  with_child (opp d) v (node d c p a b) = node d c p a v.
Proof. by destruct d. Qed.
Lemma node_with_parent d c p a b v : with_parent v (node d c p a b) = node d c v a b.
Proof. by destruct d. Qed.
Lemma node_with_red d c p a b v : with_red v (node d c p a b) = node d v p a b.
Proof. by destruct d. Qed.
Lemma opp_opp d : opp (opp d) = d.
Proof. by destruct d. Qed.
Lemma nd_opp d c t x u : nd (opp d) c t x u = nd d c u x t.
Proof. by destruct d. Qed.

(** *** Moving the focus *)
Lemma all_zip d c x s k t : all (Frame d c x s :: k) t ≡ₚ all k (nd d c t x s).
Proof.
  unfold all. simpl. rewrite rt_nd, cells_nd.
  rewrite <-!app_assoc. simpl.
  rewrite (Permutation_app_comm (cells x t) (cells x s)).
  rewrite <-!Permutation_middle.
  rewrite (Permutation_app_comm (crest k) (_ ++ _)), <-!app_assoc.
  rewrite (Permutation_app_comm (cells x t) (crest k)).
  by rewrite perm_swap.
Qed.

Lemma rep_zip h d c x s k t : rep h (Frame d c x s :: k) t ↔ rep h k (nd d c t x s).
Proof.
  split; intros [Hm Hn Hz]; split; try done.
  - by rewrite <-all_zip.
  - by rewrite <-all_zip.
  - by rewrite all_zip.
  - by rewrite all_zip.
Qed.

Lemma rep_plug h k t : rep h k t ↔ rep h [] (plug k t).
Proof.
  revert t. induction k as [|[d c x s] k IH]; intros t; simpl; [done|].
  by rewrite rep_zip, IH.
Qed.
End Repr.

#[export] Hint Rewrite @rt_nd @node_child @node_child_opp @node_parent @node_red
  @node_with_child @node_with_child_opp @node_with_parent @node_with_red @opp_opp : rb.

(** ** Symbolic execution of the heap accesses *)
Lemma get_red_run h p n : h !! p = Some n → get_red p h = Ret (red n, h).
Proof. intros E. unfold get_red, read, mbind, M_bind. by rewrite E. Qed.
Lemma get_parent_run h p n : h !! p = Some n → get_parent p h = Ret (parent n, h).
Proof. intros E. unfold get_parent, read, mbind, M_bind. by rewrite E. Qed.
Lemma get_child_run h d p n : h !! p = Some n → get_child d p h = Ret (child d n, h).
Proof. intros E. unfold get_child, read, mbind, M_bind. by rewrite E. Qed.
Lemma update_run h p f n : h !! p = Some n → update p f h = Ret ((), <[p := f n]> h).
Proof. intros E. unfold update. by rewrite E. Qed.

Section Steps.
Context {B : Type}.
Lemma bind_red h p n (k : bool → M heap B) :
  h !! p = Some n → (get_red p ≫= k) h = k (red n) h.
Proof. intros E. by rewrite (bind_Ret _ _ _ _ _ (get_red_run _ _ _ E)). Qed.
Lemma bind_parent h p n (k : Z → M heap B) :
  h !! p = Some n → (get_parent p ≫= k) h = k (parent n) h.
Proof. intros E. by rewrite (bind_Ret _ _ _ _ _ (get_parent_run _ _ _ E)). Qed.
Lemma bind_child h d p n (k : Z → M heap B) :
  h !! p = Some n → (get_child d p ≫= k) h = k (child d n) h.
Proof. intros E. by rewrite (bind_Ret _ _ _ _ _ (get_child_run _ _ _ _ E)). Qed.
Lemma bind_set_red h p n b (k : unit → M heap B) :
  h !! p = Some n → (set_red p b ≫= k) h = k () (<[p := with_red b n]> h).
Proof. intros E. by erewrite bind_Ret by by apply update_run. Qed.
Lemma bind_set_parent h p n v (k : unit → M heap B) :
  h !! p = Some n → (set_parent p v ≫= k) h = k () (<[p := with_parent v n]> h).
Proof. intros E. by erewrite bind_Ret by by apply update_run. Qed.
Lemma bind_set_child h d p n v (k : unit → M heap B) :
  h !! p = Some n → (set_child d p v ≫= k) h = k () (<[p := with_child d v n]> h).
Proof. intros E. by erewrite bind_Ret by by apply update_run. Qed.
End Steps.

Section Rotate.
Context (tr : rb_tree).
Implicit Types (h : heap) (k : list frame) (t : tree).

(** replace_child writes the hole of the context. *)
Lemma replace_child_run h k d x y n :
  h !! cpar tr k = Some (ctop tr k x) → h !! x = Some n → parent n = cpar tr k →
  x ≠ nil tr → x ∉ cids tr k →
  replace_child d x y h = Ret ((), <[cpar tr k := ctop tr k y]> h).
Proof.
  intros Hp Hx Hpar Hnil Hin. unfold replace_child.
  rewrite (bind_parent _ _ _ _ Hx), Hpar, (bind_child _ _ _ _ _ Hp).
  destruct k as [|[d' c p s] k]; simpl in *.
  - case_bool_decide as E; destruct d; simpl in *; try done;
      unfold set_child; by erewrite update_run by done.
  - destruct (decide (d = d')) as [->|Hd].
    + autorewrite with rb. rewrite bool_decide_true by done.
      unfold set_child. erewrite update_run by done. by autorewrite with rb.
    + assert (d = opp d') as -> by (destruct d, d'; done). autorewrite with rb.
      rewrite bool_decide_false.
      * unfold set_child. erewrite update_run by done. by autorewrite with rb.
      * intros ->. destruct s; simpl in *; [done|]. set_solver.
Qed.

Lemma nil_ok_insert h p n : nil_ok tr h → (p = nil tr → red n = false) →
  nil_ok tr (<[p := n]> h).
Proof.
  intros (m & Hm & Hr) Hn. destruct (decide (p = nil tr)) as [->|Hp].
  - exists n. split; [apply lookup_insert_eq|by apply Hn].
  - exists m. by rewrite lookup_insert_ne.
Qed.

Lemma reparent_cells h par par' t :
  models h (cells tr par t) → NoDup (ids t) →
  t ≠ L → ∃ n, h !! rt tr t = Some n ∧
    models (<[rt tr t := with_parent par' n]> h) (cells tr par' t).
Proof.
  destruct t as [|c l x r]; [done|]. simpl.
  rewrite models_cons. intros [Hx Hm] [Hn _]%NoDup_cons _.
  eexists. split; [done|]. rewrite models_cons. split; [by rewrite lookup_insert_eq|].
  apply models_insert; [|done]. by rewrite fmap_app, !keys_cells.
Qed.

Lemma root_in k : root tr ∈ cpar tr k :: cids tr k.
Proof.
  induction k as [|[d c x s] k IH]; simpl; [by left|]. set_solver.
Qed.

Lemma rep_ids h k t : rep tr h k t → NoDup (nil tr :: aids tr k t).
Proof. intros [_ Hn _]. by rewrite keys_all in Hn. Qed.
End Rotate.

(** [atoms H] opens [NoDup (p1 :: p2 :: ... :: l1 ++ l2 ++ ...)] into the facts
    [p1 ≠ p2] and [p1 ∉ l1]; [diff] solves a disequality from such facts. *)
Ltac atoms H :=
  repeat (rewrite NoDup_cons in H;
          let H' := fresh "Hn" in destruct H as [H' H];
          rewrite ?not_elem_of_cons, ?not_elem_of_app in H'; destruct_and? H').
Ltac diff := first [assumption | apply not_eq_sym; assumption].
Ltac notin := rewrite ?fmap_app, ?keys_cells, ?keys_crest, ?not_elem_of_cons, ?not_elem_of_app;
  repeat split; diff.

(** [lk] solves a lookup in a heap built by writes to known cells; [hstep] runs
    one heap access; [frame] proves that a group of cells survives writes
    elsewhere. *)
Ltac lk := first [ eassumption
                 | rewrite lookup_insert_eq; reflexivity
                 | rewrite lookup_insert_ne by diff; lk ].
Ltac hstep := first
  [ erewrite bind_red by lk | erewrite bind_parent by lk | erewrite bind_child by lk
  | erewrite bind_set_red by lk | erewrite bind_set_parent by lk
  | erewrite bind_set_child by lk ]; autorewrite with rb.
Ltac frame := repeat (apply models_insert; [notin|]); assumption.

Section Rotate2.
Context (tr : rb_tree).
Implicit Types (h : heap) (k : list frame) (t : tree).

Lemma rotate_rep h k d cx a x cy b y e :
  rep tr h k (nd d cx a x (nd d cy b y e)) →
  ∃ h', rotate d tr x h = Ret ((), h') ∧
    rep tr h' k (nd d cy (nd d cx a x b) y e) ∧
    (∀ p, p ∉ aids tr k (nd d cx a x (nd d cy b y e)) → h' !! p = h !! p).
Proof.
  intros Hrep. pose proof (rep_ids _ _ _ _ Hrep) as Hnd.
  destruct Hrep as [Hm _ Hz].
  unfold all in Hm. rewrite !cells_nd, !rt_nd in Hm.
  rewrite !models_cons, !models_app, !models_cons, !models_app, !models_cons, !models_app in Hm.
  destruct Hm as (Hp & Hk & Hx & Ha & Hy & Hb & He).
  unfold aids in Hnd. rewrite !ids_nd in Hnd.
  assert (x ≠ root tr) as Hxr.
  { pose proof (root_in tr k). intros ->. apply NoDup_cons in Hnd as [_ Hnd].
    rewrite app_comm_cons in Hnd. apply NoDup_app in Hnd as (_ & Hd & _).
    apply (Hd (root tr)); [done|by left]. }
  destruct Hz as (nn & Hnn & Hnr).
  destruct b as [|cb bl bx br].
  - assert (Hnd1 : NoDup (nil tr :: cpar tr k :: x :: y :: cids tr k ++ ids a ++ ids e)).
    { eapply NoDup_perm; [|exact Hnd]. simpl. solve_Permutation. }
    atoms Hnd1. eexists. split; [|split].
    + unfold rotate. hstep.
      rewrite bind_assert by (apply bool_decide_true; repeat split; diff).
      do 3 hstep. rewrite bool_decide_false by (intros E; by apply E).
      rewrite bind_skip. do 2 hstep.
      erewrite bind_Ret; [|eapply (replace_child_run tr _ k)]; [|lk|lk|..]; [|by autorewrite with rb|diff..].
      do 3 hstep. rewrite Hnr. reflexivity.
    + split.
      * unfold all. rewrite !cells_nd, !rt_nd. autorewrite with rb. simpl.
        rewrite !models_cons, !models_app, !models_cons, !models_app. simpl.
        split_and!; try lk; try frame; apply models_nil.
      * rewrite keys_all. unfold aids. rewrite !ids_nd. simpl.
        eapply NoDup_perm; [|exact Hnd]. simpl. solve_Permutation.
      * exists nn. split; [lk|done].
    + intros p Hp'. unfold aids in Hp'. rewrite !ids_nd in Hp'.
      rewrite !lookup_insert_ne by set_solver + Hp'. done.
  - simpl in Hb. rewrite models_cons, models_app in Hb.
    destruct Hb as (Hbx & Hbl & Hbr).
    assert (Hnd1 : NoDup (nil tr :: cpar tr k :: x :: y :: bx :: cids tr k
                            ++ ids a ++ ids bl ++ ids br ++ ids e)).
    { eapply NoDup_perm; [|exact Hnd]. simpl. solve_Permutation. }
    atoms Hnd1. simpl in Hy. eexists. split; [|split].
    + unfold rotate. hstep.
      rewrite bind_assert by (apply bool_decide_true; repeat split; diff).
      do 3 hstep. rewrite bool_decide_true by diff.
      rewrite bind_assoc. do 4 hstep.
      erewrite bind_Ret; [|eapply (replace_child_run tr _ k)]; [|lk|lk|..]; [|by autorewrite with rb|diff..].
      do 3 hstep. rewrite Hnr. reflexivity.
    + split.
      * unfold all. rewrite !cells_nd, !rt_nd. autorewrite with rb. simpl.
        rewrite !models_cons, !models_app, !models_cons, !models_app, !models_cons,
          !models_app. simpl.
        split_and!; try lk; try frame.
      * rewrite keys_all. unfold aids. rewrite !ids_nd. simpl.
        eapply NoDup_perm; [|exact Hnd]. simpl. solve_Permutation.
      * exists nn. split; [lk|done].
    + intros p Hp'. unfold aids in Hp'. rewrite !ids_nd in Hp'. simpl in Hp'.
      rewrite !lookup_insert_ne by set_solver + Hp'. done.
Qed.
End Rotate2.
