(* ===== verification/RbInsert.v ===== *)
(** * The red-black tree: invariants, search and insertion *)
From stdpp Require Import base gmap list fin_maps.
From Stdlib Require Import ZArith Lia Sorted.
From S2P Require Import Prelude RbTree RbRepr.

(** ** The red-black invariant *)

(** [rbt t n]: no red node has a red child, and every path from the root of
    [t] to a leaf has [n] black nodes. *)
Fixpoint rbt (t : tree) (n : nat) : Prop :=
  match t with
  | L => n = O
  | N c l _ r => ∃ m, rbt l m ∧ rbt r m ∧
      if c then n = m ∧ is_red l = false ∧ is_red r = false else n = S m
  end.

(** A red-black tree as the client sees it: the root is black. *)
Definition valid (t : tree) : Prop := is_red t = false ∧ ∃ n, rbt t n.

Definition top_red (k : list frame) : bool :=
  match k with Frame _ c _ _ :: _ => c | [] => false end.

(** A context that expects a tree of black height [n]. *)
Fixpoint kv (k : list frame) (n : nat) : Prop :=
  match k with
  | [] => True
  | Frame d c x s :: k' => rbt s n ∧
      (if c then is_red s = false ∧ top_red k' = false ∧ k' ≠ [] else True) ∧
      kv k' (if c then n else S n)
  end.

Fixpoint kl (k : list frame) : list Z :=
  match k with
  | [] => []
  | Frame Left _ _ _ :: k => kl k
  | Frame Right _ x s :: k => kl k ++ inorder s ++ [x]
  end.
Fixpoint kr (k : list frame) : list Z :=
  match k with
  | [] => []
  | Frame Left _ x s :: k => x :: inorder s ++ kr k
  | Frame Right _ _ _ :: k => kr k
  end.

Lemma inorder_plug k t : inorder (plug k t) = kl k ++ inorder t ++ kr k.
Proof.
  revert t. induction k as [|[[] c x s] k IH]; intros t; simpl.
  - by rewrite app_nil_r.
  - rewrite IH. simpl. by rewrite <-!app_assoc.
  - rewrite IH. simpl. by rewrite <-!app_assoc.
Qed.

Lemma inorder_plug_eq k t t' :
  inorder t = inorder t' → inorder (plug k t) = inorder (plug k t').
Proof. rewrite !inorder_plug. by intros ->. Qed.

Lemma rbt_nd d c t x u n :
  rbt (nd d c t x u) n ↔ ∃ m, rbt t m ∧ rbt u m ∧
      if c then n = m ∧ is_red t = false ∧ is_red u = false else n = S m.
Proof. destruct d; simpl; [done|]. split; intros (m & ? & ? & ?); exists m; destruct c; tauto. Qed.

Lemma is_red_nd d c t x u : is_red (nd d c t x u) = c.
Proof. by destruct d, c. Qed.

Lemma nd_split d c a x b : ∃ a' b', N c a x b = nd d c a' x b'.
Proof. destruct d; [by exists a, b|by exists b, a]. Qed.

Lemma plug_rbt k t n :
  kv k n → rbt t n → (is_red t = true → top_red k = false) → ∃ m, rbt (plug k t) m.
Proof.
  intros Hk Ht Hr. revert t n Hk Ht Hr.
  induction k as [|[d c x s] k IH]; intros t n Hk Ht Hr; simpl; [by exists n|].
  destruct Hk as (Hs & Hc & Hk). eapply IH; [exact Hk|..].
  - apply rbt_nd. exists n. destruct c; [|done]. split_and!; try tauto.
    destruct (is_red t); [|done]. by specialize (Hr eq_refl).
  - rewrite is_red_nd. intros ->. tauto.
Qed.

Lemma plug_black k t : is_red (plug k t) = match last k with Some (Frame _ c _ _) => c | None => is_red t end.
Proof.
  revert t. induction k as [|[d c x s] k IH]; intros t; simpl; [done|].
  rewrite IH, is_red_nd, last_cons. by destruct (last k) as [[]|].
Qed.

(** The height bound that makes the fuel of the loops sufficient. *)
Fixpoint height (t : tree) : nat :=
  match t with L => O | N _ l _ r => S (Nat.max (height l) (height r)) end.

Section Facts.
Context (tr : rb_tree).
Implicit Types (h : heap) (k : list frame) (t : tree).

(** ** Reading through the representation *)
Lemma rep_top h k t : rep tr h k t → h !! cpar tr k = Some (ctop tr k (rt tr t)).
Proof. intros [Hm _ _]. unfold all in Hm. rewrite models_cons in Hm. tauto. Qed.

Lemma rep_N h k c l x r :
  rep tr h k (N c l x r) → h !! x = Some (RbNode c (cpar tr k) (rt tr l) (rt tr r)).
Proof.
  intros [Hm _ _]. unfold all in Hm. simpl in Hm.
  rewrite models_cons, models_app, models_cons in Hm. tauto.
Qed.

Lemma rep_nd h k d c t x u :
  rep tr h k (nd d c t x u) → h !! x = Some (node d c (cpar tr k) (rt tr t) (rt tr u)).
Proof. destruct d; apply rep_N. Qed.

Lemma rep_red h k t : rep tr h k t → ∃ n, h !! rt tr t = Some n ∧ red n = is_red t.
Proof.
  intros Hr. destruct t as [|c l x r].
  - by apply rep_nil in Hr.
  - eexists. split; [by eapply rep_N|]. by destruct c.
Qed.

Lemma rep_rt_nil h k t : rep tr h k t → rt tr t = nil tr → t = L.
Proof.
  intros Hr. destruct t as [|c l x r]; [done|]. simpl. intros ->.
  apply rep_ids, NoDup_cons in Hr as [Hn _]. destruct Hn.
  unfold aids. simpl. set_solver.
Qed.
Lemma rep_N_nil h k c l x r : rep tr h k (N c l x r) → x ≠ nil tr.
Proof. intros Hr ->. by apply rep_rt_nil in Hr. Qed.

Lemma rep_sib h k d c t x u :
  rep tr h k (nd d c t x u) ↔ rep tr h (Frame (opp d) c x t :: k) u.
Proof. by rewrite rep_zip, nd_opp. Qed.

Lemma aids_nd d c x s k t : aids tr (Frame d c x s :: k) t ≡ₚ aids tr k (nd d c t x s).
Proof. rewrite <-!(keys_all tr). by rewrite all_zip. Qed.

Lemma aids_plug k t : aids tr k t ≡ₚ aids tr [] (plug k t).
Proof.
  revert t. induction k as [|[d c x s] k IH]; intros t; simpl; [done|].
  by rewrite aids_nd, IH.
Qed.

Lemma rep_root h k t : rep tr h k t → root tr ∉ ids t.
Proof.
  intros Hr. apply rep_ids in Hr. unfold aids in Hr.
  apply NoDup_cons in Hr as [_ Hr]. rewrite app_comm_cons in Hr.
  apply NoDup_app in Hr as (_ & Hd & _). apply Hd, root_in.
Qed.

(** The child of the parent on the side of the hole is the focus, and the
    other child is not. *)
Lemma rep_not_sib h k d c t x u : t ≠ L → rep tr h k (nd d c t x u) → rt tr t ≠ rt tr u.
Proof.
  intros Ht Hr E. destruct t as [|ct lt xt rt']; [done|]. simpl in E.
  pose proof Hr as Hr2. rewrite rep_sib in Hr2. destruct u as [|cu lu xu ru]; simpl in *.
  - rewrite <-rep_zip in Hr. by apply rep_N_nil in Hr.
  - subst. apply rep_ids in Hr. unfold aids in Hr. rewrite ids_nd in Hr. simpl in Hr.
    apply NoDup_cons in Hr as [_ Hr]. apply NoDup_cons in Hr as [_ Hr].
    apply NoDup_app in Hr as (_ & _ & Hr). apply NoDup_cons in Hr as [_ Hr].
    apply NoDup_cons in Hr as [Hn _]. set_solver.
Qed.

(** ** Changing a colour *)
Lemma rep_recolor h k d c t x u b :
  rep tr h k (nd d c t x u) →
  rep tr (<[x := node d b (cpar tr k) (rt tr t) (rt tr u)]> h) k (nd d b t x u).
Proof.
  intros Hr. pose proof (rep_ids _ _ _ _ Hr) as Hnd. destruct Hr as [Hm _ Hz].
  unfold all in Hm. rewrite cells_nd, rt_nd in Hm.
  rewrite models_cons, models_app, models_cons, models_app in Hm.
  destruct Hm as (Hp & Hk & Hx & Ht & Hu). unfold aids in Hnd. rewrite ids_nd in Hnd.
  assert (Hnd1 : NoDup (nil tr :: cpar tr k :: x :: cids tr k ++ ids t ++ ids u)).
  { eapply NoDup_perm; [|exact Hnd]. solve_Permutation. }
  atoms Hnd1. split.
  - unfold all. rewrite cells_nd, rt_nd.
    rewrite models_cons, models_app, models_cons, models_app.
    split_and!; [lk|frame|lk|frame|frame].
  - rewrite keys_all. unfold aids. by rewrite ids_nd.
  - apply nil_ok_insert; [done|]. by intros ->.
Qed.

Lemma set_red_rep h k d c t x u b :
  rep tr h k (nd d c t x u) →
  ∃ h', set_red x b h = Ret ((), h') ∧ rep tr h' k (nd d b t x u) ∧
    (∀ p, p ≠ x → h' !! p = h !! p).
Proof.
  intros Hr. eexists. split; [|split].
  - by apply update_run, (rep_nd _ _ _ _ _ _ _ Hr).
  - rewrite node_with_red. by eapply rep_recolor.
  - intros p Hp. by rewrite lookup_insert_ne.
Qed.
End Facts.

Lemma inorder_nd_cong d c c' t t' x u u' :
  inorder t = inorder t' → inorder u = inorder u' →
  inorder (nd d c t x u) = inorder (nd d c' t' x u').
Proof. destruct d; simpl; by intros -> ->. Qed.

Lemma inorder_rotate d c1 c2 c3 c4 a x b y e :
  inorder (nd d c1 (nd d c2 a x b) y e) = inorder (nd d c3 a x (nd d c4 b y e)).
Proof. destruct d; simpl; by rewrite <-!app_assoc. Qed.

Section Insert.
Context (tr : rb_tree).
Implicit Types (h : heap) (k : list frame) (t : tree).

(** Memory outside the represented tree. *)
Definition same_out h h' k t : Prop := ∀ q, q ∉ aids tr k t → h' !! q = h !! q.

(** Uncle red: recolour and move two levels up. *)
Lemma insert_sub_red h d1 p s d g ul ux ur k a x b :
  let X := N true a x b in
  rep tr h k (nd d false (nd d1 true X p s) g (N true ul ux ur)) →
  ∃ h', rb_insert_sub d tr x h = Ret (g, h') ∧
    rep tr h' k (nd d true (nd d1 false X p s) g (N false ul ux ur)) ∧
    same_out h h' k (nd d false (nd d1 true X p s) g (N true ul ux ur)).
Proof.
  intros X Hr2.
  pose proof Hr2 as Hr1. rewrite <-rep_zip in Hr1.
  pose proof Hr1 as Hr. rewrite <-rep_zip in Hr.
  pose proof (rep_N _ _ _ _ _ _ _ Hr) as Hx.
  pose proof (rep_nd _ _ _ _ _ _ _ _ Hr1) as Hp.
  pose proof (rep_nd _ _ _ _ _ _ _ _ Hr2) as Hg. rewrite rt_nd in Hg.
  pose proof Hr2 as Hru. rewrite rep_sib in Hru.
  pose proof (rep_N _ _ _ _ _ _ _ Hru) as Hu. simpl in *.
  unfold rb_insert_sub. do 4 hstep. simpl. hstep. simpl.
  (* x->parent->red = 0 *)
  destruct (set_red_rep _ _ _ _ _ _ _ _ false Hr1) as (h1 & E1 & R1 & F1). mrun E1.
  rewrite rep_zip, rep_sib in R1.
  destruct (set_red_rep tr _ _ Left _ _ _ _ false R1) as (h2 & E2 & R2 & F2). mrun E2.
  simpl in R2. rewrite <-rep_sib in R2. 
  pose proof R2 as R3. rewrite <-rep_zip in R3. pose proof R3 as R4. rewrite <-rep_zip in R4.
  pose proof (rep_N _ _ _ _ _ _ _ R4) as Hx2. simpl in Hx2.
  pose proof (rep_nd _ _ _ _ _ _ _ _ R3) as Hp2. simpl in Hp2.
  hstep. simpl. hstep.
  destruct (set_red_rep _ _ _ _ _ _ _ _ true R2) as (h3 & E3 & R5 & F3). mrun E3.
  pose proof R5 as R6. rewrite <-rep_zip in R6. pose proof R6 as R7. rewrite <-rep_zip in R7.
  pose proof (rep_N _ _ _ _ _ _ _ R7) as Hx3. simpl in Hx3.
  pose proof (rep_nd _ _ _ _ _ _ _ _ R6) as Hp3. simpl in Hp3.
  hstep. simpl. rewrite (get_parent_run _ _ _ Hp3), node_parent.
  exists h3. split_and!; [done..|].
  intros q Hq. unfold aids in Hq. rewrite !ids_nd in Hq. simpl in Hq.
  rewrite F3, F2, F1; [done|set_solver + Hq..].
Qed.

(** The last three statements of RB_INSERT_SUB. *)
Lemma insert_tail h d p s g u k c a x b :
  let X := N c a x b in
  rep tr h k (nd d false (nd d true X p s) g u) →
  ∃ h', (p ← get_parent x; set_red p false;;
         p ← get_parent x; pp ← get_parent p; set_red pp true;;
         p ← get_parent x; pp ← get_parent p; rotate (opp d) tr pp;; mret x) h
        = Ret (x, h') ∧
    rep tr h' k (nd d false X p (nd d true s g u)) ∧
    same_out h h' k (nd d false (nd d true X p s) g u).
Proof.
  intros X Hr2. pose proof Hr2 as Hr1. rewrite <-rep_zip in Hr1.
  pose proof Hr1 as Hr. rewrite <-rep_zip in Hr.
  pose proof (rep_N _ _ _ _ _ _ _ Hr) as Hx. simpl in Hx.
  hstep. simpl.
  destruct (set_red_rep _ _ _ _ _ _ _ _ false Hr1) as (h1 & E1 & R1 & F1). mrun E1.
  pose proof R1 as R1'. rewrite <-rep_zip in R1'.
  pose proof (rep_N _ _ _ _ _ _ _ R1') as Hx1. simpl in Hx1.
  pose proof (rep_nd _ _ _ _ _ _ _ _ R1) as Hp1. simpl in Hp1.
  hstep. simpl. hstep.
  rewrite rep_zip in R1.
  destruct (set_red_rep _ _ _ _ _ _ _ _ true R1) as (h2 & E2 & R2 & F2). mrun E2.
  pose proof R2 as R3. rewrite <-rep_zip in R3. pose proof R3 as R4. rewrite <-rep_zip in R4.
  pose proof (rep_N _ _ _ _ _ _ _ R4) as Hx2. simpl in Hx2.
  pose proof (rep_nd _ _ _ _ _ _ _ _ R3) as Hp2. simpl in Hp2.
  hstep. simpl. hstep.
  rewrite <-(nd_opp d true), <-(nd_opp d false) in R2.
  destruct (rotate_rep _ _ _ _ _ _ _ _ _ _ _ R2) as (h3 & E3 & R5 & F3). mrun E3.
  exists h3. split_and!; [done| |].
  - by rewrite !nd_opp in R5.
  - intros q Hq. unfold aids in Hq. rewrite !ids_nd in Hq. simpl in Hq.
    rewrite F3, F2, F1; [done|..]; unfold aids; rewrite ?ids_nd; simpl; set_solver + Hq.
Qed.

Lemma insert_sub_outer h d p s g u k a x b :
  let X := N true a x b in
  rep tr h k (nd d false (nd d true X p s) g u) → is_red u = false →
  ∃ h', rb_insert_sub d tr x h = Ret (x, h') ∧
    rep tr h' k (nd d false X p (nd d true s g u)) ∧
    same_out h h' k (nd d false (nd d true X p s) g u).
Proof.
  intros X Hr2 Hub. pose proof Hr2 as Hr1. rewrite <-rep_zip in Hr1.
  pose proof Hr1 as Hr. rewrite <-rep_zip in Hr.
  pose proof (rep_N _ _ _ _ _ _ _ Hr) as Hx. simpl in Hx.
  pose proof (rep_nd _ _ _ _ _ _ _ _ Hr1) as Hp. simpl in Hp.
  pose proof (rep_nd _ _ _ _ _ _ _ _ Hr2) as Hg. rewrite rt_nd in Hg.
  pose proof Hr2 as Hru. rewrite rep_sib in Hru.
  destruct (rep_red _ _ _ _ Hru) as (nu & Hu & Hured).
  assert (Hxs : x ≠ rt tr s) by (eapply (rep_not_sib tr _ _ _ _ X); eauto; done).
  unfold rb_insert_sub. hstep. simpl. do 3 hstep. rewrite Hured, Hub.
  hstep. simpl. hstep. rewrite bool_decide_false by done. rewrite bind_mret.
  by apply insert_tail.
Qed.

Lemma insert_sub_inner h d p s g u k a x b :
  rep tr h k (nd d false (nd d true s p (nd d true a x b)) g u) → is_red u = false →
  ∃ h', rb_insert_sub d tr x h = Ret (p, h') ∧
    rep tr h' k (nd d false (nd d true s p a) x (nd d true b g u)) ∧
    same_out h h' k (nd d false (nd d true s p (nd d true a x b)) g u).
Proof.
  intros Hr2 Hub. pose proof Hr2 as Hr1. rewrite <-rep_zip in Hr1.
  pose proof Hr1 as Hr. rewrite rep_sib in Hr.
  pose proof (rep_nd _ _ _ _ _ _ _ _ Hr) as Hx. simpl in Hx.
  pose proof (rep_nd _ _ _ _ _ _ _ _ Hr1) as Hp. rewrite rt_nd in Hp. simpl in Hp.
  pose proof (rep_nd _ _ _ _ _ _ _ _ Hr2) as Hg. rewrite rt_nd in Hg.
  pose proof Hr2 as Hru. rewrite rep_sib in Hru.
  destruct (rep_red _ _ _ _ Hru) as (nu & Hu & Hured).
  unfold rb_insert_sub. do 4 hstep. rewrite Hured, Hub.
  do 2 hstep. rewrite bool_decide_true by done. rewrite bind_assoc. hstep.
  destruct (rotate_rep _ _ _ _ _ _ _ _ _ _ _ Hr1) as (h1 & E1 & R1 & F1).
  rewrite bind_assoc. mrun E1. rewrite bind_mret.
  rewrite rep_zip in R1. destruct (nd_split d true s p a) as (s' & a' & E).
  assert (∃ l r, nd d true s p a = N true l p r) as (l & r & Elr).
  { destruct d; simpl; eauto. }
  rewrite Elr in R1 |- *.
  destruct (insert_tail _ _ _ _ _ _ _ _ _ _ _ R1) as (h2 & E2 & R2 & F2).
  rewrite E2. exists h2. split_and!; [done..|].
  intros q Hq. rewrite F2, F1; [done|..].
  - by rewrite aids_nd.
  - unfold aids in *. rewrite <-Elr. rewrite !ids_nd. rewrite !ids_nd in Hq. set_solver + Hq.
Qed.

Lemma elem_of_aids q k t : q ∈ aids tr k t ↔ q = root tr ∨ q ∈ inorder (plug k t).
Proof.
  rewrite aids_plug. unfold aids. simpl. rewrite elem_of_cons.
  by rewrite (inorder_ids (plug k t)).
Qed.

(** One turn of the loop, all cases together. *)
Lemma insert_sub_spec h d1 p s d g u k a x b n :
  let K := Frame d1 true p s :: Frame d false g u :: k in
  rep tr h K (N true a x b) → kv K n → rbt (N true a x b) n →
  ∃ h' k' a' x' b' n', rb_insert_sub d tr x h = Ret (x', h') ∧
    rep tr h' k' (N true a' x' b') ∧ kv k' n' ∧ rbt (N true a' x' b') n' ∧
    (length k' < length K)%nat ∧
    inorder (plug k' (N true a' x' b')) = inorder (plug K (N true a x b)) ∧
    same_out h h' K (N true a x b).
Proof.
  intros K Hr (Hs & (Hsb & _ & _) & Hu & _ & Hk) Ht. simpl in Hk.
  assert (HN : ∀ c t v w, ∃ l r, nd d c t v w = N c l v r) by (intros; destruct d; simpl; eauto).
  pose proof Hr as Hr2. unfold K in Hr2. rewrite !rep_zip in Hr2.
  assert (Hout : ∀ h', same_out h h' k (nd d false (nd d1 true (N true a x b) p s) g u) →
                 same_out h h' K (N true a x b)).
  { intros h' Hs' q Hq. apply Hs'. unfold K in Hq. by rewrite !aids_nd in Hq. }
  destruct (is_red u) eqn:Hured.
  - destruct u as [|[] ul ux ur]; try done.
    destruct (insert_sub_red _ _ _ _ _ _ _ _ _ _ _ _ _ Hr2) as (h' & E & R & F).
    destruct (HN true (nd d1 false (N true a x b) p s) g (N false ul ux ur)) as (l & r & Elr).
    exists h', k, l, g, r, (S n). rewrite <-Elr. split_and!; try done.
    + apply rbt_nd. exists (S n). rewrite is_red_nd, rbt_nd. split_and!; try done.
      * by exists n.
      * destruct Hu as (m & ? & ? & ? & ?). exists m. naive_solver.
    + simpl. lia.
    + simpl. apply inorder_plug_eq. repeat apply inorder_nd_cong; done.
    + by apply Hout.
  - destruct (decide (d1 = d)) as [->|Hd].
    + destruct (insert_sub_outer _ _ _ _ _ _ _ _ _ _ Hr2) as (h' & E & R & F); [done|].
      exists h', (Frame d false p (nd d true s g u) :: k), a, x, b, n.
      split_and!; try done.
      * by rewrite rep_zip.
      * split_and!; [|done..]. apply rbt_nd. by exists n.
      * simpl. lia.
      * simpl. apply inorder_plug_eq.
        destruct d; simpl; by rewrite <-?app_assoc; simpl; rewrite <-?app_assoc.
      * by apply Hout.
    + assert (d1 = opp d) as -> by (destruct d, d1; done).
      destruct (nd_split d true a x b) as (a' & b' & Eab).
      rewrite Eab in *. rewrite nd_opp in Hr2. rewrite nd_opp in Hout.
      destruct (insert_sub_inner _ _ _ _ _ _ _ _ _ _ Hr2) as (h' & E & R & F); [done|].
      apply rbt_nd in Ht as (m & Ha & Hb & -> & Har & Hbr).
      destruct (HN true s p a') as (l & r & Elr).
      exists h', (Frame d false x (nd d true b' g u) :: k), l, p, r, m.
      rewrite <-Elr. split_and!; try done.
      * by rewrite rep_zip.
      * split_and!; [|done..]. apply rbt_nd. by exists m.
      * apply rbt_nd. by exists m.
      * simpl. lia.
      * simpl. apply inorder_plug_eq. rewrite nd_opp.
        destruct d; simpl; repeat (rewrite <-?app_assoc; simpl); done.
      * by apply Hout.
Qed.

Lemma insert_loop_spec fuel h k a x b n :
  (length k < fuel)%nat → rep tr h k (N true a x b) → kv k n → rbt (N true a x b) n →
  ∃ h' t' m, rb_insert_loop fuel tr x h = Ret ((), h') ∧ rep tr h' [] t' ∧ rbt t' m ∧
    inorder t' = inorder (plug k (N true a x b)) ∧ same_out h h' k (N true a x b).
Proof.
  revert h k a x b n. induction fuel as [|fuel IH]; intros h k a x b n Hf Hr Hk Ht; [lia|].
  pose proof (rep_N _ _ _ _ _ _ _ Hr) as Hx. pose proof (rep_top _ _ _ _ Hr) as Hp.
  simpl in Hx, Hp. simpl. hstep. simpl. hstep.
  assert (red (ctop tr k x) = top_red k) as ->.
  { destruct k as [|[]]; simpl; autorewrite with rb; done. }
  destruct (top_red k) eqn:Htop.
  - destruct k as [|[d1 c p s] k]; [done|]. simpl in Htop. subst c.
    pose proof Hk as (_ & (_ & Htk & Hne) & _).
    destruct k as [|[d c g u] k]; [done|]. simpl in Htk. subst c. clear Hne.
    pose proof Hr as Hr1. rewrite rep_zip in Hr1.
    pose proof (rep_nd _ _ _ _ _ _ _ _ Hr1) as Hp1. simpl in Hp, Hp1.
    pose proof Hr1 as Hr2. rewrite rep_zip in Hr2.
    pose proof (rep_nd _ _ _ _ _ _ _ _ Hr2) as Hg. rewrite rt_nd in Hg. simpl in Hx.
    hstep. simpl. do 2 hstep.
    assert ((if bool_decide (p = child Left (node d false (cpar tr k) p (rt tr u)))
             then Left else Right) = d) as ->.
    { destruct d; simpl; [by rewrite bool_decide_true|]. rewrite bool_decide_false; [done|].
      assert (p ≠ rt tr u) as ?; [|done].
      rewrite <-(rt_nd tr d1 true (N true a x b) p s).
      eapply rep_not_sib; [|exact Hr2]. by destruct d1. }
    destruct (insert_sub_spec _ _ _ _ _ _ _ _ _ _ _ _ Hr Hk Ht)
      as (h1 & k' & a' & x' & b' & n' & E & R & Hk' & Ht' & Hlen & Hin & F).
    mrun E. simpl in Hlen, Hf.
    destruct (IH h1 k' a' x' b' n') as (h2 & t' & m & E2 & R2 & Hm & Hin2 & F2);
      [lia|done..|].
    exists h2, t', m. split_and!; try done; [by rewrite Hin2, Hin|].
    intros q Hq. rewrite F2, F; [done|done|].
    rewrite elem_of_aids. rewrite elem_of_aids in Hq. by rewrite Hin.
  - exists h. destruct (plug_rbt k (N true a x b) n) as [m Hm]; [done..|].
    eexists _, m. split_and!; try done. by rewrite <-rep_plug.
Qed.
End Insert.

(** ** Ordering

    The contract of the compare callback (include/rb_tree.h): its sign is that
    of the difference of the nodes' keys. *)
Definition keyed (tr : rb_tree) (key : Z → Z) : Prop :=
  ∀ a b, Z.sgn (compare tr a b) = Z.sgn (key a - key b).

Definition sorted (key : Z → Z) (xs : list Z) : Prop :=
  StronglySorted (λ a b, key a ≤ key b) xs.

Lemma keyed_gt tr key a b : keyed tr key → compare tr a b > 0 ↔ key b < key a.
Proof. intros Hk. specialize (Hk a b). lia. Qed.

Lemma sorted_app key xs ys :
  sorted key (xs ++ ys) ↔ sorted key xs ∧ sorted key ys ∧
    (∀ a b, a ∈ xs → b ∈ ys → key a ≤ key b).
Proof.
  unfold sorted. induction xs as [|x xs IH]; simpl.
  - split; [|tauto]. intros. split_and!; [constructor|done|]. intros a b Ha. inversion Ha.
  - split.
    + intros Hs. apply StronglySorted_inv in Hs as [Hs Hf].
      apply IH in Hs as (? & ? & Hc). rewrite Forall_app in Hf. destruct Hf as [Hf1 Hf2].
      split_and!; [by constructor|done|]. intros a b [->|Ha]%elem_of_cons Hb; [|by apply Hc].
      rewrite Forall_forall in Hf2. by apply Hf2.
    + intros (Hs & Hy & Hc). apply StronglySorted_inv in Hs as [Hs Hf]. constructor.
      * apply IH. split_and!; try done. intros; apply Hc; [by right|done].
      * apply Forall_app. split; [done|]. apply Forall_forall. intros b Hb. apply Hc; [by left|done].
Qed.

Lemma sorted_cons key x xs :
  sorted key (x :: xs) ↔ sorted key xs ∧ (∀ b, b ∈ xs → key x ≤ key b).
Proof.
  change (x :: xs) with ([x] ++ xs). rewrite sorted_app.
  split; [intros (_ & ? & Hc); split; [done|]; intros; apply Hc; set_solver|].
  intros [? Hc]. split_and!; try done; [repeat constructor|].
  intros a b ->%list_elem_of_singleton Hb. by apply Hc.
Qed.

Section Binary.
Context (tr : rb_tree).
Implicit Types (h : heap) (k : list frame) (t : tree).

Lemma insert_descend_spec key z fuel h k t n :
  (height t < fuel)%nat → keyed tr key → rep tr h k t → sorted key (inorder t) →
  (∀ q, q ∈ kl k → key q ≤ key z) → (∀ q, q ∈ kr k → key z < key q) →
  kv k n → rbt t n → (is_red t = true → top_red k = false ∧ k ≠ []) →
  ∃ k', insert_descend fuel tr z (rt tr t) (cpar tr k) h = Ret (cpar tr k', h) ∧
    plug k' L = plug k t ∧
    (∀ q, q ∈ kl k' → key q ≤ key z) ∧ (∀ q, q ∈ kr k' → key z < key q) ∧
    (length k' ≤ length k + height t)%nat ∧ kv k' O.
Proof.
  intros Hf Hkey. revert h k t n Hf.
  induction fuel as [|fuel IH]; intros h k t n Hf Hr Hs Hl Hrr Hk Ht Hred; [lia|].
  destruct t as [|c l x r]; simpl.
  - rewrite bool_decide_true by done. exists k. simpl in Ht. subst n.
    split_and!; try done; lia.
  - rewrite bool_decide_false by by eapply rep_N_nil.
    pose proof (rep_N _ _ _ _ _ _ _ Hr) as Hx. simpl in Hs, Hf.
    apply sorted_app in Hs as (Hsl & Hsr & Hc). apply sorted_cons in Hsr as (Hsr & Hxr).
    destruct Ht as (m & Hml & Hmr & Hm).
    assert (Hkm : kv k (if c then m else S m)).
    { destruct c; [by destruct Hm as (-> & _)|by subst n]. }
    case_bool_decide as Hcmp; rewrite (keyed_gt tr key) in Hcmp by done; hstep; simpl.
    + destruct (IH h (Frame Left c x r :: k) l m) as (k' & E & Hp & Hl' & Hr' & Hlen & Hkv);
        try done; [lia|by rewrite rep_zip|..].
      { intros q [->|[Hq|Hq]%elem_of_app]%elem_of_cons; [done| |by apply Hrr].
        specialize (Hxr q Hq). lia. }
      { simpl. split_and!; try done. destruct c; [|done]. destruct Hm as (_ & _ & ?).
        by destruct (Hred eq_refl). }
      { intros Hlr. simpl. split; [|done]. destruct c; [|done].
        destruct Hm as (_ & Hm & _). by rewrite Hm in Hlr. }
      exists k'. split_and!; try done. simpl in Hlen; lia.
    + destruct (IH h (Frame Right c x l :: k) r m) as (k' & E & Hp & Hl' & Hr' & Hlen & Hkv);
        try done; [lia|by rewrite rep_zip|..].
      { intros q. simpl. rewrite !elem_of_app, list_elem_of_singleton.
        intros [Hq|[Hq| ->]]; [by apply Hl| |lia].
        specialize (Hc q x Hq ltac:(by left)). lia. }
      { simpl. split_and!; try done. destruct c; [|done]. destruct Hm as (_ & ? & _).
        by destruct (Hred eq_refl). }
      { intros Hlr. simpl. split; [|done]. destruct c; [|done].
        destruct Hm as (_ & _ & Hm). by rewrite Hm in Hlr. }
      exists k'. split_and!; try done. simpl in Hlen; lia.
Qed.

(** Hanging the new node into the hole. *)
Lemma attach_spec key h k z c :
  keyed tr key → rep tr h k L → z ∉ nil tr :: aids tr k L →
  (∃ p, h !! z = Some (RbNode c p (nil tr) (nil tr))) →
  (∀ q, q ∈ kl k → key q ≤ key z) → (∀ q, q ∈ kr k → key z < key q) →
  ∃ h', (set_parent z (cpar tr k);;
         if bool_decide (cpar tr k = root tr ∨ compare tr (cpar tr k) z > 0)
         then set_child Left (cpar tr k) z else set_child Right (cpar tr k) z) h
        = Ret ((), h') ∧
    rep tr h' k (N c L z L) ∧ (∀ q, q ≠ z → q ∉ aids tr k L → h' !! q = h !! q).
Proof.
  intros Hkey Hr Hz (p0 & Hz0) Hl Hrr.
  pose proof (rep_ids _ _ _ _ Hr) as Hnd. pose proof (rep_top _ _ _ _ Hr) as Hp.
  simpl in Hp. unfold aids in Hnd, Hz. simpl in Hnd, Hz. rewrite app_nil_r in Hnd, Hz.
  assert (Hnd1 : NoDup (z :: nil tr :: cpar tr k :: cids tr k)) by (by apply NoDup_cons).
  atoms Hnd1.
  exists (<[cpar tr k := ctop tr k z]> (<[z := RbNode c (cpar tr k) (nil tr) (nil tr)]> h)).
  split_and!.
  - hstep. unfold set_child.
    destruct k as [|[d cp p s] k]; simpl in *.
    + rewrite bool_decide_true by by left. by erewrite update_run by lk.
    + assert (Hroot : p ≠ root tr).
      { rewrite rep_zip in Hr. apply rep_root in Hr. rewrite ids_nd in Hr. set_solver + Hr. }
      destruct d; simpl in *.
      * rewrite bool_decide_true by (right; rewrite (keyed_gt tr key) by done; apply Hrr; by left).
        by erewrite update_run by lk.
      * rewrite bool_decide_false; [by erewrite update_run by lk|].
        intros [?|Hgt]; [done|]. rewrite (keyed_gt tr key) in Hgt by done.
        assert (key p ≤ key z) by (apply Hl; set_solver +). lia.
  - destruct Hr as [Hm _ Hnil]. unfold all in Hm. simpl in Hm.
    rewrite models_cons, models_app in Hm. destruct Hm as (_ & Hm & _). split.
    + unfold all. simpl. rewrite models_cons, models_app, models_cons.
      split_and!; [lk|frame|lk|apply models_nil].
    + rewrite keys_all. unfold aids. simpl. apply (NoDup_perm (z :: nil tr :: cpar tr k :: cids tr k)); [solve_Permutation|].
      by apply NoDup_cons.
    + apply nil_ok_insert; [apply nil_ok_insert|]; try done; intros E; congruence.
  - intros q Hqz Hq. unfold aids in Hq. rewrite not_elem_of_cons in Hq.
    rewrite !lookup_insert_ne by naive_solver. done.
Qed.

(** The tree is intact when memory outside it is written. *)
Lemma rep_write h k t p n : rep tr h k t → p ∉ nil tr :: aids tr k t →
  rep tr (<[p := n]> h) k t.
Proof.
  intros [Hm Hn Hz] Hp. split; [|done|].
  - apply models_insert; [|done]. rewrite keys_all. set_solver + Hp.
  - apply nil_ok_insert; [done|]. set_solver + Hp.
Qed.

Definition blacken (t : tree) : tree :=
  match t with L => L | N _ l x r => N false l x r end.
Lemma inorder_blacken t : inorder (blacken t) = inorder t.
Proof. by destruct t. Qed.
Lemma valid_blacken t n : rbt t n → valid (blacken t).
Proof.
  destruct t as [|c l x r]; simpl; [intros; split; [done|by exists n]|].
  intros (m & ? & ? & _). split; [done|]. exists (S m). simpl. by exists m.
Qed.

(** The whole of rb_insert. *)
Lemma rb_insert_spec key fuel h t z :
  (height t < fuel)%nat → keyed tr key → rep tr h [] t → valid t →
  sorted key (inorder t) → z ∉ nil tr :: root tr :: ids t → is_Some (h !! z) →
  ∃ h' t' xs ys, rb_insert fuel tr z h = Ret ((), h') ∧ rep tr h' [] t' ∧ valid t' ∧
    inorder t = xs ++ ys ∧ inorder t' = xs ++ z :: ys ∧
    (∀ q, q ∈ xs → key q ≤ key z) ∧ (∀ q, q ∈ ys → key z < key q) ∧
    (∀ q, q ∉ z :: root tr :: ids t → h' !! q = h !! q).
Proof.
  intros Hf Hkey Hr [Hblack [n Hn]] Hs Hz [n0 Hz0].
  assert (Hz' : z ∉ nil tr :: aids tr [] t) by (unfold aids; simpl; set_solver + Hz).
  unfold rb_insert, rb_insert_binary.
  rewrite !bind_assoc. erewrite bind_set_child by lk. rewrite !bind_assoc.
  erewrite bind_set_child by lk. rewrite insert_insert_eq. rewrite !bind_assoc. simpl.
  set (h1 := <[z := _]> h).
  assert (R1 : rep tr h1 [] t) by by apply rep_write.
  pose proof (rep_top _ _ _ _ R1) as Hroot. simpl in Hroot.
  erewrite bind_child by lk. simpl. rewrite !bind_assoc.
  destruct (insert_descend_spec key z fuel h1 [] t n) as (k & E & Hp & Hl & Hrr & Hlen & Hkv);
    try done; try set_solver +.
  { intros Hred. by rewrite Hred in Hblack. }
  mrun E. simpl in Hp, Hlen.
  assert (Rk : rep tr h1 k L) by by rewrite rep_plug, Hp.
  assert (Hzk : z ∉ nil tr :: aids tr k L).
  { rewrite not_elem_of_cons, elem_of_aids, Hp, <-(elem_of_aids tr z [] t).
    by rewrite <-not_elem_of_cons. }
  destruct (attach_spec key h1 k z (red n0) Hkey Rk Hzk) as (h2 & E2 & R2 & F2); try done.
  { eexists. unfold h1. by rewrite lookup_insert_eq. }
  mrun E2.
  destruct (set_red_rep tr h2 k Left (red n0) L z L true R2) as (h3 & E3 & R3 & F3). mrun E3.
  simpl in R3.
  destruct (insert_loop_spec tr fuel h3 k L z L O)
    as (h4 & t4 & m & E4 & R4 & Hm & Hin & F4); try done.
  { lia. } { by exists O. }
  mrun E4. rewrite inorder_plug in Hin. simpl in Hin.
  pose proof (rep_top _ _ _ _ R4) as Hroot4. simpl in Hroot4.
  erewrite bind_child by lk. simpl.
  destruct t4 as [|c4 l4 x4 r4]; [by destruct (kl k)|].
  destruct (set_red_rep tr h4 [] Left c4 l4 x4 r4 false R4) as (h5 & E5 & R5 & F5).
  simpl. mrun E5. simpl in R5.
  pose proof (rep_top _ _ _ _ R5) as Hroot5. simpl in Hroot5.
  destruct (rep_nil _ _ _ _ R5) as (nn & Hnn & Hnr).
  do 2 hstep. rewrite Hnr. simpl.
  exists h5, (N false l4 x4 r4), (kl k), (kr k). split_and!; try done.
  - by apply (valid_blacken (N c4 l4 x4 r4) m).
  - transitivity (inorder (plug k L)); [by rewrite Hp|]. by rewrite inorder_plug.
  - intros q Hq.
    assert (Hqk : q ∉ aids tr k L).
    { rewrite elem_of_aids, Hp. rewrite (inorder_ids t). set_solver + Hq. }
    rewrite F5, F4, F3, F2; try set_solver + Hq; try done.
    + unfold h1. rewrite lookup_insert_ne; [done|]. set_solver + Hq.
    + unfold aids in *. simpl in *. set_solver + Hqk Hq.
    + (* the new root is one of the nodes *)
      intros ->. assert (x4 ∈ kl k ++ z :: kr k) as Hx4.
      { rewrite <-Hin. simpl. set_solver +. }
      apply Hqk. rewrite elem_of_aids, inorder_plug. right.
      simpl. apply elem_of_app in Hx4 as [?|[->|?]%elem_of_cons]; set_solver.
Qed.
End Binary.
