(* ===== verification/RbQuery.v ===== *)
(** * The red-black tree: search, successor, predecessor and the checker *)
From stdpp Require Import base gmap list fin_maps.
From Stdlib Require Import ZArith Lia Sorted.
From S2P Require Import Prelude RbTree RbRepr RbInsert.

Section Query.
Context (tr : rb_tree).
Implicit Types (h : heap) (k : list frame) (t : tree).

Lemma rep_left h k c l x r : rep tr h k (N c l x r) → rep tr h (Frame Left c x r :: k) l.
Proof. by rewrite rep_zip. Qed.
Lemma rep_right h k c l x r : rep tr h k (N c l x r) → rep tr h (Frame Right c x l :: k) r.
Proof. by rewrite rep_zip. Qed.

Lemma or_null_rt h k t : rep tr h k t → t ≠ L → or_null tr (rt tr t) = rt tr t.
Proof.
  intros Hr Ht. unfold or_null. rewrite bool_decide_true; [done|].
  intros E. by apply (rep_rt_nil _ _ _ _ Hr) in E.
Qed.

(** ** rb_search *)

(** The search as a function on trees: the first node on the path whose
    comparison is zero. *)
Fixpoint tsearch (cmp : Z → Z) (t : tree) : option Z :=
  match t with
  | L => None
  | N _ l x r => if bool_decide (cmp x = 0) then Some x
                 else if bool_decide (cmp x > 0) then tsearch cmp l else tsearch cmp r
  end.

Lemma search_loop_spec cmp fuel h k t :
  (height t < fuel)%nat → rep tr h k t →
  search_loop fuel tr cmp (rt tr t) h = Ret (default (nil tr) (tsearch cmp t), h).
Proof.
  revert k t. induction fuel as [|fuel IH]; intros k t Hf Hr; [lia|].
  destruct t as [|c l x r]; simpl; [by rewrite bool_decide_true|].
  rewrite bool_decide_false by by eapply rep_N_nil.
  case_bool_decide; [done|]. pose proof (rep_N _ _ _ _ _ _ _ Hr) as Hx. simpl in Hf.
  case_bool_decide; hstep; simpl.
  - eapply IH; [lia|by apply rep_left].
  - eapply IH; [lia|by apply rep_right].
Qed.

(** The callback agrees with the order: its sign is that of [key n - v]. *)
Definition keyed_search (key : Z → Z) (cmp : Z → Z) (v : Z) : Prop :=
  ∀ n, Z.sgn (cmp n) = Z.sgn (key n - v).

Lemma tsearch_sound cmp t x : tsearch cmp t = Some x → x ∈ inorder t ∧ cmp x = 0.
Proof.
  induction t as [|c l IHl y r IHr]; simpl; [done|].
  case_bool_decide as E; [intros [= <-]; split; [set_solver +|done]|].
  case_bool_decide; [intros []%IHl|intros []%IHr]; split; set_solver.
Qed.

Lemma tsearch_complete key cmp v t x :
  keyed_search key cmp v → sorted key (inorder t) → x ∈ inorder t → cmp x = 0 →
  tsearch cmp t ≠ None.
Proof.
  intros Hc. induction t as [|c l IHl y r IHr]; simpl; [set_solver|].
  intros (Hsl & (Hsr & Hyr)%sorted_cons & Hlr)%sorted_app Hx H0.
  pose proof (Hc x) as Hcx. pose proof (Hc y) as Hcy.
  case_bool_decide; [done|].
  apply elem_of_app in Hx as [Hx|[->|Hx]%elem_of_cons]; [|done|].
  - specialize (Hlr x y Hx ltac:(by left)). rewrite bool_decide_true by lia. by apply IHl.
  - specialize (Hyr x Hx). rewrite bool_decide_false by lia. by apply IHr.
Qed.

(** ** Successor and predecessor *)
Lemma descend_spec d fuel h k t :
  (height t ≤ fuel)%nat → rep tr h k t → t ≠ L →
  descend fuel d tr (rt tr t) h
  = Ret (default (nil tr) (match d with Left => head (inorder t) | Right => last (inorder t) end), h).
Proof.
  revert k t. induction fuel as [|fuel IH]; intros k t Hf Hr Ht;
    (destruct t as [|c l x r]; [done|]); simpl in Hf; [lia|].
  pose proof (rep_N _ _ _ _ _ _ _ Hr) as Hx. simpl. hstep.
  destruct d; simpl.
  - case_bool_decide as E.
    + apply (rep_rt_nil _ _ _ _ (rep_left _ _ _ _ _ _ Hr)) in E as ->. done.
    + erewrite IH; [|lia|by apply rep_left|by intros ->].
      destruct (inorder l) as [|y ys] eqn:El; [|done].
      destruct l; [done|]. simpl in El. by destruct (inorder l1).
  - case_bool_decide as E.
    + apply (rep_rt_nil _ _ _ _ (rep_right _ _ _ _ _ _ Hr)) in E as ->. simpl.
      by rewrite last_snoc.
    + erewrite IH; [|lia|by apply rep_right|by intros ->].
      rewrite last_app_cons, last_cons. destruct (last (inorder r)) eqn:El; [done|].
      apply last_None in El. destruct r; [done|]. simpl in El. by destruct (inorder r1).
Qed.

Lemma succ_up_spec fuel h k t :
  (length k < fuel)%nat → rep tr h k t → t ≠ L →
  succ_up fuel (rt tr t) (cpar tr k) h = Ret (default (root tr) (head (kr k)), h).
Proof.
  revert k t. induction fuel as [|fuel IH]; intros k t Hf Hr Ht; [lia|].
  pose proof (rep_top _ _ _ _ Hr) as Hp. simpl. hstep.
  destruct k as [|[d c y s] k]; simpl.
  - rewrite bool_decide_false; [done|]. intros E. by apply (rep_rt_nil _ _ _ _ Hr) in E.
  - pose proof Hr as Hr1. rewrite rep_zip in Hr1. simpl in Hp. destruct d; simpl.
    + rewrite bool_decide_false; [done|]. by eapply (rep_not_sib tr _ _ Left).
    + rewrite bool_decide_true by done. hstep. simpl.
      specialize (IH k (N c s y t)). simpl in IH, Hf. apply IH; [lia|done|done].
Qed.

Lemma pred_up_spec fuel h k t :
  (length k < fuel)%nat → rep tr h k t → t ≠ L →
  pred_up fuel tr (rt tr t) (cpar tr k) h = Ret (default (nil tr) (last (kl k)), h).
Proof.
  revert k t. induction fuel as [|fuel IH]; intros k t Hf Hr Ht; [lia|].
  pose proof (rep_top _ _ _ _ Hr) as Hp. simpl. hstep.
  destruct k as [|[d c y s] k]; simpl.
  - by rewrite !bool_decide_true.
  - pose proof Hr as Hr1. rewrite rep_zip in Hr1. simpl in Hp.
    assert (y ≠ root tr).
    { apply rep_root in Hr1. rewrite ids_nd in Hr1. set_solver + Hr1. }
    destruct d; simpl.
    + rewrite bool_decide_true, bool_decide_false by done. hstep. simpl.
      specialize (IH k (N c t y s)). simpl in IH, Hf. apply IH; [lia|done|done].
    + rewrite bool_decide_false; [|by eapply (rep_not_sib tr _ _ Right)].
      rewrite app_assoc, last_snoc. done.
Qed.

Lemma inorder_nonempty t : t ≠ L → inorder t ≠ [].
Proof. destruct t; [done|]. simpl. by destruct (inorder t1). Qed.

Lemma successor_spec fuel h k c l x r :
  (height r ≤ fuel)%nat → (length k < fuel)%nat → rep tr h k (N c l x r) →
  rb_tree_successor fuel tr x h = Ret (default (nil tr) (head (inorder r ++ kr k)), h).
Proof.
  intros Hf1 Hf2 Hr. pose proof (rep_N _ _ _ _ _ _ _ Hr) as Hx.
  unfold rb_tree_successor. hstep. simpl. case_bool_decide as E.
  - rewrite (descend_spec Left _ _ _ _ Hf1 (rep_right _ _ _ _ _ _ Hr)) by by intros ->.
    destruct (inorder r) eqn:Er; [|done].
    by destruct (inorder_nonempty r); [intros ->|].
  - assert (r = L) as ->.
    { destruct (decide (rt tr r = nil tr)) as [E'|]; [|tauto].
      by apply (rep_rt_nil _ _ _ _ (rep_right _ _ _ _ _ _ Hr)). }
    hstep. simpl. pose proof (succ_up_spec fuel h k _ Hf2 Hr) as Es. simpl in Es.
    mrun (Es ltac:(done)).
    destruct (head (kr k)) as [y|] eqn:Ek; simpl; [|by rewrite bool_decide_true].
    rewrite bool_decide_false; [done|]. intros ->.
    assert (root tr ∈ inorder (plug k (N c l x L))) as Hin.
    { rewrite inorder_plug. apply head_Some_elem_of in Ek. set_solver. }
    rewrite rep_plug in Hr. apply rep_root in Hr. by rewrite inorder_ids in Hin.
Qed.

Lemma predecessor_spec fuel h k c l x r :
  (height l ≤ fuel)%nat → (length k < fuel)%nat → rep tr h k (N c l x r) →
  rb_tree_predecessor fuel tr x h = Ret (default (nil tr) (last (kl k ++ inorder l)), h).
Proof.
  intros Hf1 Hf2 Hr. pose proof (rep_N _ _ _ _ _ _ _ Hr) as Hx.
  unfold rb_tree_predecessor. hstep. simpl. case_bool_decide as E.
  - rewrite (descend_spec Right _ _ _ _ Hf1 (rep_left _ _ _ _ _ _ Hr)) by by intros ->.
    rewrite last_app. destruct (last (inorder l)) eqn:El; [done|].
    apply last_None in El. by destruct (inorder_nonempty l); [intros ->|].
  - assert (l = L) as ->.
    { destruct (decide (rt tr l = nil tr)) as [E'|]; [|tauto].
      by apply (rep_rt_nil _ _ _ _ (rep_left _ _ _ _ _ _ Hr)). }
    hstep. simpl. pose proof (pred_up_spec fuel h k _ Hf2 Hr) as Es. simpl in Es.
    rewrite Es by done. by rewrite app_nil_r.
Qed.

(** ** check_tree *)
Lemma height_rbt t n : rbt t n → (n ≤ height t)%nat.
Proof.
  revert n. induction t as [|c l IHl x r IHr]; simpl; intros n; [lia|].
  intros (m & Hl%IHl & Hr%IHr & Hm). destruct c; [destruct Hm as [-> _]|]; lia.
Qed.

Lemma check_tree_spec key fuel h k t n :
  (height t < fuel)%nat → keyed tr key → rep tr h k t → rbt t n →
  sorted key (inorder t) → Z.of_nat n < 2 ^ 31 - 1 →
  check_tree fuel tr (rt tr t) h = Ret (Z.of_nat n + 1, h).
Proof.
  intros Hf Hkey. revert k t n Hf. induction fuel as [|fuel IH]; intros k t n Hf Hr Hn Hs Hov; [lia|].
  destruct t as [|c l x r]; simpl.
  - rewrite bool_decide_true by done. destruct (rep_nil _ _ _ _ Hr) as (nn & Hnn & Hnr).
    hstep. rewrite Hnr. simpl in Hn. by subst n.
  - rewrite bool_decide_false by by eapply rep_N_nil.
    pose proof (rep_N _ _ _ _ _ _ _ Hr) as Hx. simpl in Hf, Hs.
    pose proof (rep_left _ _ _ _ _ _ Hr) as Rl. pose proof (rep_right _ _ _ _ _ _ Hr) as Rr.
    apply sorted_app in Hs as (Hsl & (Hsr & Hxr)%sorted_cons & Hlr).
    destruct Hn as (m & Hml & Hmr & Hm).
    assert (Hleft : (if bool_decide (rt tr l ≠ nil tr) then
       assert (bool_decide (compare tr x (rt tr l) >= 0));;
       p ← get_parent (rt tr l); assert (bool_decide (p = x)) else skip) h = Ret ((), h)).
    { destruct l as [|cl ll xl rl]; [by rewrite bool_decide_false by (simpl; tauto)|].
      rewrite bool_decide_true by by eapply rep_N_nil. simpl.
      rewrite bind_assert.
      2: { apply bool_decide_true. specialize (Hkey x xl).
           specialize (Hlr xl x ltac:(simpl; set_solver +) ltac:(by left)). lia. }
      pose proof (rep_N _ _ _ _ _ _ _ Rl). hstep. simpl. by rewrite bool_decide_true by done. }
    assert (Hright : (if bool_decide (rt tr r ≠ nil tr) then
       assert (bool_decide (compare tr x (rt tr r) ≤ 0));;
       p ← get_parent (rt tr r); assert (bool_decide (p = x)) else skip) h = Ret ((), h)).
    { destruct r as [|cr lr xr rr]; [by rewrite bool_decide_false by (simpl; tauto)|].
      rewrite bool_decide_true by by eapply rep_N_nil. simpl.
      rewrite bind_assert.
      2: { apply bool_decide_true. specialize (Hkey x xr).
           specialize (Hxr xr ltac:(simpl; set_solver +)). lia. }
      pose proof (rep_N _ _ _ _ _ _ _ Rr). hstep. simpl. by rewrite bool_decide_true by done. }
    hstep. simpl. mrun Hleft. hstep. simpl. mrun Hright. hstep. simpl.
    destruct (rep_red _ _ _ _ Rl) as (nl & Hnl & Hnlr).
    destruct (rep_red _ _ _ _ Rr) as (nr & Hnr & Hnrr).
    assert (Hcol : (if c then lr ← get_red (rt tr l); rr ← get_red (rt tr r);
                       assert (negb lr && negb rr) else skip) h = Ret ((), h)).
    { destruct c; [|done]. do 2 hstep. rewrite Hnlr, Hnrr.
      by destruct Hm as (_ & -> & ->). }
    mrun Hcol.
    assert (Z.of_nat m < 2 ^ 31 - 1) by (destruct c; [destruct Hm as [-> _]|]; lia).
    mrun (IH _ l m ltac:(lia) Rl Hml Hsl ltac:(lia)).
    mrun (IH _ r m ltac:(lia) Rr Hmr Hsr ltac:(lia)).
    rewrite bind_assert by by rewrite bool_decide_true. hstep. simpl.
    destruct c; [by destruct Hm as (-> & _)|]. subst n.
    unfold mret, M_ret. do 2 f_equal. rewrite s32_small; lia.
Qed.
End Query.
