(* ===== verification/RbDelete.v ===== *)
(** * The red-black tree: deletion *)
From stdpp Require Import base gmap list fin_maps.
From Stdlib Require Import ZArith Lia Sorted.
From S2P Require Import Prelude RbTree RbRepr RbInsert RbQuery.

Section Fixup.
Context (tr : rb_tree).
Implicit Types (h : heap) (k : list frame) (t : tree).

(** The parent field of the focused node, which for the sentinel nil is set
    by rb_delete. *)
Definition par_ok h k t : Prop := ∃ n, h !! rt tr t = Some n ∧ parent n = cpar tr k.

Lemma rep_nil_out h k t : rep tr h k t → nil tr ∉ aids tr k t.
Proof. intros Hr. by apply rep_ids, NoDup_cons in Hr as [? _]. Qed.

Lemma par_keep h h' k k' t :
  par_ok h k t → rep tr h' k' t → cpar tr k' = cpar tr k → h' !! nil tr = h !! nil tr →
  par_ok h' k' t.
Proof.
  intros (n & Hl & Hp) Hr Hc Hn. unfold par_ok. destruct t as [|c l x r]; simpl in *.
  - exists n. rewrite Hn, Hc. done.
  - eexists. split; [by eapply rep_N|done].
Qed.
Lemma par_N h k c l x r : rep tr h k (N c l x r) → par_ok h k (N c l x r).
Proof. intros Hr. eexists. split; [by eapply rep_N|done]. Qed.

(** A focused tree that is one black node short of what its context expects,
    unless it is red and blackening it makes up for it. *)
Definition short t (n : nat) : Prop :=
  if is_red t then rbt (blacken t) (S n) else rbt t n.

(** RB_DELETE_FIXUP_SUB after its first [if]. *)
Definition fixup_rest (d : dir) (rt x w : Z) : M heap Z :=
  wl ← get_child d w; wlr ← get_red wl;
  wr ← get_child (opp d) w; wrr ← get_red wr;
  if negb wlr && negb wrr then
    set_red w true;; get_parent x
  else
    wr ← get_child (opp d) w; wrr ← get_red wr;
    w ← (if negb wrr then
           wl ← get_child d w; set_red wl false;;
           set_red w true;;
           rotate (opp d) tr w;;
           p ← get_parent x; get_child (opp d) p
         else mret w);
    p ← get_parent x; pr ← get_red p; set_red w pr;;
    p ← get_parent x; set_red p false;;
    wr ← get_child (opp d) w; set_red wr false;;
    p ← get_parent x; rotate d tr p;;
    mret rt.

(** The last block: w's far child is red. *)
Lemma fixup_case4 h d c t p wa w wbl wb wbr k (x0 : Z) :
  rep tr h (Frame d c p (nd d false wa w (N true wbl wb wbr)) :: k) t →
  par_ok h (Frame d c p (nd d false wa w (N true wbl wb wbr)) :: k) t →
  ∃ h', (p ← get_parent (rt tr t); pr ← get_red p; set_red w pr;;
         p ← get_parent (rt tr t); set_red p false;;
         wr ← get_child (opp d) w; set_red wr false;;
         p ← get_parent (rt tr t); rotate d tr p;; mret x0) h = Ret (x0, h') ∧
    rep tr h' k (nd d c (nd d false t p wa) w (N false wbl wb wbr)) ∧
    h' !! nil tr = h !! nil tr.
Proof.
  intros Hr Hpar. pose proof Hpar as (n & Hx & Hxp). simpl in Hxp.
  pose proof Hr as Hr1. rewrite rep_zip in Hr1.
  pose proof (rep_nd _ _ _ _ _ _ _ _ Hr1) as Hp.
  assert (Hnw : w ≠ nil tr).
  { rewrite rep_sib in Hr1.
    intros ->. pose proof (rep_ids _ _ _ _ Hr1) as Hnd. unfold aids in Hnd.
    rewrite ids_nd in Hnd. apply NoDup_cons in Hnd as [Hnd _]. set_solver + Hnd. }
  hstep. rewrite Hxp. hstep.
  pose proof Hr1 as Hr2. rewrite rep_sib in Hr2.
  destruct (set_red_rep _ _ _ _ _ _ _ _ c Hr2) as (h1 & E1 & R1 & F1). mrun E1.
  pose proof R1 as R1'. rewrite <-rep_sib in R1'. rewrite <-rep_zip in R1'.
  destruct (par_keep _ _ _ _ _ Hpar R1') as (n1 & Hx1 & Hxp1); [done|by apply F1|]. simpl in Hxp1.
  hstep. rewrite Hxp1. rewrite rep_zip in R1'.
  destruct (set_red_rep _ _ _ _ _ _ _ _ false R1') as (h2 & E2 & R2 & F2). mrun E2.
  pose proof R2 as R2'. rewrite rep_sib in R2'.
  pose proof (rep_nd _ _ _ _ _ _ _ _ R2') as Hw2. simpl in Hw2. hstep.
  rewrite rep_sib in R2'.
  destruct (set_red_rep tr _ _ Left _ _ _ _ false R2') as (h3 & E3 & R3 & F3). mrun E3.
  simpl in R3. rewrite <-!rep_sib in R3.
  assert (Hpn : p ≠ nil tr).
  { intros ->. apply rep_nil_out in R3. unfold aids in R3. rewrite ids_nd in R3.
    set_solver + R3. }
  pose proof (rep_N_nil _ _ _ _ _ _ _ R2') as Hwbn.
  assert (h3 !! nil tr = h !! nil tr) as Hn3 by (rewrite F3, F2, F1 by congruence; done).
  pose proof R3 as R3'. rewrite <-rep_zip in R3'.
  destruct (par_keep _ _ _ _ _ Hpar R3') as (n3 & Hx3 & Hxp3); [done..|]. simpl in Hxp3.
  hstep. rewrite Hxp3.
  destruct (rotate_rep _ _ _ _ _ _ _ _ _ _ _ R3) as (h4 & E4 & R4 & F4). mrun E4.
  exists h4. split_and!; [done..|]. rewrite F4; [done|]. by eapply rep_nil_out.
Qed.

Lemma rep_nd_nil h k d c t x u : rep tr h k (nd d c t x u) → x ≠ nil tr.
Proof. destruct d; apply rep_N_nil. Qed.

Lemma N_nd c l x r d : is_red (N c l x r) = true → ∃ a b, N c l x r = nd d true a x b.
Proof. destruct c; [|done]. intros _. apply nd_split. Qed.

(** w is black. *)
Lemma fixup_rest_spec h d c t p wa w wb k rt0 :
  let s := nd d false wa w wb in
  rep tr h (Frame d c p s :: k) t → par_ok h (Frame d c p s :: k) t →
  ∃ x' h', fixup_rest d rt0 (rt tr t) w h = Ret (x', h') ∧
    ((x' = p ∧ is_red wa = false ∧ is_red wb = false ∧
      rep tr h' k (nd d c t p (nd d true wa w wb))) ∨
     (x' = rt0 ∧ ∃ wa' w' wb',
      rep tr h' k (nd d c (nd d false t p wa') w' wb') ∧
      inorder (nd d c (nd d false t p wa') w' wb') = inorder (nd d c t p s) ∧
      is_red wb' = false ∧
      ∀ n, rbt wa n → rbt wb n → rbt wa' n ∧ rbt wb' (S n))).
Proof.
  intros s Hr Hpar. unfold s in *. clear s.
  pose proof Hr as Hr1. rewrite rep_zip in Hr1.
  pose proof Hr1 as Hrw. rewrite rep_sib in Hrw.
  pose proof (rep_nd _ _ _ _ _ _ _ _ Hrw) as Hw.
  pose proof (rep_nd_nil _ _ _ _ _ _ _ Hrw) as Hwn.
  pose proof Hrw as Hrwa. rewrite <-rep_zip in Hrwa.
  destruct (rep_red _ _ _ _ Hrwa) as (na & Hna & Hnar).
  pose proof Hrw as Hrwb. rewrite rep_sib in Hrwb.
  destruct (rep_red _ _ _ _ Hrwb) as (nb & Hnb & Hnbr).
  unfold fixup_rest. do 4 hstep. rewrite Hnar, Hnbr.
  destruct (is_red wb) eqn:Ewb; [|destruct (is_red wa) eqn:Ewa]; simpl.
  - (* case 4 *)
    destruct wb as [|[] wbl wbx wbr]; try done.
    rewrite andb_false_r. do 2 hstep. rewrite Hnbr. simpl. rewrite bind_mret.
    destruct (fixup_case4 h d c t p wa w wbl wbx wbr k rt0 Hr Hpar) as (h' & E & R & _).
    exists rt0, h'. split; [exact E|]. right. split; [done|].
    exists wa, w, (N false wbl wbx wbr). split_and!; [done| |done|].
    + destruct d; simpl; repeat (rewrite <-?app_assoc; simpl); done.
    + intros n Ha (m & ? & ? & -> & _). split; [done|]. by exists m.
  - (* case 3, then 4 *)
    do 2 hstep. rewrite Hnbr. simpl.
    destruct wa as [|cw1 wl1 w1 wr1]; [done|].
    destruct (N_nd cw1 wl1 w1 wr1 d Ewa) as (a1 & b1 & E1). rewrite E1 in *.
    rewrite bind_assoc. hstep. simpl.
    destruct (set_red_rep _ _ _ _ _ _ _ _ false Hrwa) as (h1 & E2 & R1 & F1).
    rewrite bind_assoc. mrun E2. pose proof (rep_nd_nil _ _ _ _ _ _ _ R1) as Hw1n.
    rewrite rep_zip in R1.
    destruct (set_red_rep _ _ _ _ _ _ _ _ true R1) as (h2 & E3 & R2 & F2).
    rewrite bind_assoc. mrun E3.
    rewrite <-(nd_opp d true), <-(nd_opp d false) in R2.
    pose proof (rep_nil_out _ _ _ R2) as Hout.
    destruct (rotate_rep _ _ _ _ _ _ _ _ _ _ _ R2) as (h3 & E4 & R3 & F3).
    rewrite bind_assoc. mrun E4. rewrite !nd_opp in R3. rewrite <-rep_sib in R3.
    pose proof R3 as R3'. rewrite <-rep_zip in R3'.
    assert (Hn3 : h3 !! nil tr = h !! nil tr) by (rewrite F3, F2, F1 by congruence; done).
    assert (Hpar3 := par_keep _ _ _ _ _ Hpar R3' eq_refl Hn3).
    pose proof Hpar3 as (n3 & Hx3 & Hxp3). simpl in Hxp3.
    pose proof (rep_nd _ _ _ _ _ _ _ _ R3) as Hp3. rewrite rt_nd in Hp3.
    rewrite bind_assoc. hstep. rewrite Hxp3. hstep. 
    assert (∃ l3 r3, nd d true b1 w wb = N true l3 w r3 ∧
               ∀ n, rbt b1 n → rbt wb n → rbt (N false l3 w r3) (S n)) as (l3 & r3 & El3 & Hb3).
    { destruct d; simpl; [exists b1, wb|exists wb, b1]; (split; [done|]); intros n ??; by exists n. }
    rewrite El3 in R3'.
    destruct (fixup_case4 h3 d c t p a1 w1 l3 w r3 k rt0 R3') as (h' & E & R & _).
    { by rewrite <-El3. }
    exists rt0, h'. split; [exact E|]. right. split; [done|].
    exists a1, w1, (N false l3 w r3). split_and!; [done| |done|].
    + transitivity (inorder (nd d c (nd d false t p a1) w1 (nd d true b1 w wb))).
      { apply inorder_nd_cong; [done|]. by rewrite El3. }
      destruct d; simpl; repeat (rewrite <-?app_assoc; simpl); done.
    + intros n Ha Hb. apply rbt_nd in Ha as (m & ? & ? & -> & _). split; [done|]. by apply Hb3.
  - (* case 2 *)
    destruct (set_red_rep _ _ _ _ _ _ _ _ true Hrw) as (h1 & E1 & R1 & F1). mrun E1.
    rewrite <-rep_sib in R1. pose proof R1 as R1'. rewrite <-rep_zip in R1'.
    assert (Hn1 : h1 !! nil tr = h !! nil tr) by (by apply F1).
    destruct (par_keep _ _ _ _ _ Hpar R1' eq_refl Hn1) as (n1 & Hx1 & Hxp1).
    simpl in Hxp1. rewrite (get_parent_run _ _ _ Hx1), Hxp1.
    exists p, h1. split; [done|]. by left.
Qed.

Lemma is_red_plug k u u' : is_red u = is_red u' → is_red (plug k u) = is_red (plug k u').
Proof. rewrite !plug_black. by intros ->. Qed.

Lemma rt_plug k u u' : k ≠ [] → rt tr (plug k u) = rt tr (plug k u').
Proof.
  revert u u'. induction k as [|[d c x s] k IH]; intros u u' Hk; [done|]. simpl.
  destruct k as [|f k]; [simpl; by rewrite !rt_nd|]. by apply IH.
Qed.

(** Case 1: w is red; afterwards the sibling is black. *)
Lemma fixup_case1 h d t p wa w wb k :
  rep tr h (Frame d false p (nd d true wa w wb) :: k) t →
  par_ok h (Frame d false p (nd d true wa w wb) :: k) t →
  ∃ h', (set_red w false;; p ← get_parent (rt tr t); set_red p true;;
         p ← get_parent (rt tr t); rotate d tr p;;
         p ← get_parent (rt tr t); get_child (opp d) p) h = Ret (rt tr wa, h') ∧
    rep tr h' (Frame d true p wa :: Frame d false w wb :: k) t ∧
    par_ok h' (Frame d true p wa :: Frame d false w wb :: k) t.
Proof.
  intros Hr Hpar. pose proof Hr as Hr1. rewrite rep_zip in Hr1.
  pose proof (rep_nd_nil _ _ _ _ _ _ _ Hr1) as Hpn.
  pose proof Hr1 as Hrw. rewrite rep_sib in Hrw.
  pose proof (rep_nd_nil _ _ _ _ _ _ _ Hrw) as Hwn.
  destruct (set_red_rep _ _ _ _ _ _ _ _ false Hrw) as (h1 & E1 & R1 & F1). mrun E1.
  rewrite <-rep_sib in R1. pose proof R1 as R1'. rewrite <-rep_zip in R1'.
  destruct (par_keep _ _ _ _ _ Hpar R1') as (n1 & Hx1 & Hxp1); [done|by apply F1|].
  simpl in Hxp1. hstep. rewrite Hxp1.
  destruct (set_red_rep _ _ _ _ _ _ _ _ true R1) as (h2 & E2 & R2 & F2). mrun E2.
  pose proof R2 as R2'. rewrite <-rep_zip in R2'.
  assert (Hn2 : h2 !! nil tr = h !! nil tr) by (rewrite F2, F1 by congruence; done).
  destruct (par_keep _ _ _ _ _ Hpar R2') as (n2 & Hx2 & Hxp2); [done..|].
  simpl in Hxp2. hstep. rewrite Hxp2.
  pose proof (rep_nil_out _ _ _ R2) as Hout.
  destruct (rotate_rep _ _ _ _ _ _ _ _ _ _ _ R2) as (h3 & E3 & R3 & F3). mrun E3.
  rewrite <-rep_zip in R3. pose proof (rep_nd _ _ _ _ _ _ _ _ R3) as Hp3.
  rewrite <-rep_zip in R3.
  assert (Hn3 : h3 !! nil tr = h !! nil tr) by (rewrite F3; done).
  pose proof (par_keep _ _ _ _ _ Hpar R3 eq_refl Hn3) as Hpar3.
  pose proof Hpar3 as (n3 & Hx3 & Hxp3). simpl in Hxp3. hstep. rewrite Hxp3.
  exists h3. split_and!; [|done..].
  rewrite (get_child_run _ _ _ _ Hp3). by autorewrite with rb.
Qed.

Lemma black_tree t n : rbt t (S n) → is_red t = false → ∀ d,
  ∃ a x b, t = nd d false a x b ∧ rbt a n ∧ rbt b n.
Proof.
  destruct t as [|[] l x r]; simpl; try done. intros (m & ? & ? & [= <-]) _ d.
  destruct d; [by exists l, x, r|by exists r, x, l].
Qed.

(** Both continuations of fixup_rest, with the invariant restored. *)
Lemma fixup_rest_inv h d c t p s k rt0 n :
  rep tr h (Frame d c p s :: k) t → par_ok h (Frame d c p s :: k) t →
  is_red t = false → rbt t n → kv (Frame d c p s :: k) (S n) → is_red s = false →
  ∃ x' h', fixup_rest d rt0 (rt tr t) (rt tr s) h = Ret (x', h') ∧ ∃ T,
    rep tr h' k T ∧ is_red T = c ∧ inorder T = inorder (nd d c t p s) ∧
    ((x' = p ∧ rt tr T = p ∧ T ≠ L ∧
      ∃ n', short T n' ∧ kv k (S n')) ∨
     (x' = rt0 ∧ (∃ np, h' !! p = Some np ∧ red np = false) ∧
      ∃ n', rbt T n' ∧ kv k n' ∧ (is_red T = true → top_red k = false))).
Proof.
  intros Hr Hpar Htb Ht (Hs & Hc & Hk) Hsb.
  destruct (black_tree s n Hs Hsb d) as (wa & w & wb & -> & Hwa & Hwb).
  rewrite rt_nd.
  destruct (fixup_rest_spec h d c t p wa w wb k rt0 Hr Hpar) as (x' & h' & E & Hcase).
  exists x', h'. split; [done|].
  destruct Hcase as [(-> & Ha & Hb & R)|(-> & wa' & w' & wb' & R & Hin & Hwb' & Hbh)].
  - exists (nd d c t p (nd d true wa w wb)). rewrite rt_nd, is_red_nd. split_and!; try done.
    { apply inorder_nd_cong; [done|]. by apply inorder_nd_cong. }
    left. split_and!; try done; [by destruct d|].
    exists (if c then n else S n). split; [|by destruct c].
    unfold short. rewrite is_red_nd. destruct c.
    + assert (blacken (nd d true t p (nd d true wa w wb)) = nd d false t p (nd d true wa w wb))
        as -> by by destruct d.
      apply rbt_nd. exists n. rewrite rbt_nd. split_and!; try done. by exists n.
    + apply rbt_nd. exists n. rewrite rbt_nd. split_and!; try done. by exists n.
  - exists (nd d c (nd d false t p wa') w' wb'). rewrite is_red_nd. split_and!; try done.
    right. split_and!; [done|..].
    { rewrite <-rep_zip in R. eexists. split; [by eapply rep_nd|by autorewrite with rb]. }
    destruct (Hbh n Hwa Hwb) as [Ha' Hb'].
    exists (if c then S n else S (S n)). split_and!; [|by destruct c|].
    + apply rbt_nd. exists (S n). rewrite rbt_nd, is_red_nd. split_and!; [by exists n|done|].
      by destruct c.
    + intros ->. tauto.
Qed.

Lemma fixup_sub_unfold d x rt0 h :
  rb_delete_fixup_sub d tr rt0 x h =
  (p ← get_parent x; w ← get_child (opp d) p; wr ← get_red w;
   w ← (if (wr : bool) then
          set_red w false;; p ← get_parent x; set_red p true;;
          p ← get_parent x; rotate d tr p;;
          p ← get_parent x; get_child (opp d) p
        else mret w);
   fixup_rest d rt0 x w) h.
Proof. done. Qed.

(** One turn of the loop.  The local variable root of rb_delete_fixup may
    be stale afterwards, when case 1 rotated at the root; then the loop is
    about to stop at a red node. *)
Lemma fixup_sub_spec h d c t p s k n rt0 :
  let K := Frame d c p s :: k in
  rep tr h K t → par_ok h K t → is_red t = false → rbt t n → kv K (S n) →
  is_red (plug K t) = false → rt0 = rt tr (plug K t) →
  ∃ x' h', rb_delete_fixup_sub d tr rt0 (rt tr t) h = Ret (x', h') ∧ ∃ k2 T,
    rep tr h' k2 T ∧ inorder (plug k2 T) = inorder (plug K t) ∧
    is_red (plug k2 T) = false ∧
    ((x' = rt tr T ∧ rt tr T = p ∧ T ≠ L ∧ (k2 = k ∨ is_red T = true) ∧
      ∃ n', short T n' ∧ kv k2 (S n')) ∨
     (x' = rt0 ∧ (∃ nr, h' !! rt0 = Some nr ∧ red nr = false) ∧
      ∃ m, rbt (plug k2 T) m)).
Proof.
  intros K Hr Hpar Htb Ht Hkv Hrb Hrt. rewrite fixup_sub_unfold.
  pose proof Hr as Hr1. unfold K in Hr1. rewrite rep_zip in Hr1.
  pose proof (rep_nd _ _ _ _ _ _ _ _ Hr1) as Hp.
  pose proof Hpar as (nx & Hx & Hxp). simpl in Hxp.
  pose proof Hr1 as Hrs. rewrite rep_sib in Hrs.
  destruct (rep_red _ _ _ _ Hrs) as (ns & Hns & Hnsr).
  hstep. rewrite Hxp. do 2 hstep. rewrite Hnsr.
  destruct (is_red s) eqn:Es.
  - (* case 1 *)
    pose proof Hkv as (Hs & Hc & Hk).
    destruct c; [destruct Hc as (Hc & _); congruence|].
    destruct s as [|[] ls w rs]; try done.
    destruct (N_nd true ls w rs d eq_refl) as (wa & wb & Es2). unfold K in *. rewrite Es2 in *.
    apply rbt_nd in Hs as (m & Hwa & Hwb & <- & Hwar & Hwbr).
    rewrite rt_nd.
    destruct (fixup_case1 h d t p wa w wb k Hr Hpar) as (h1 & E1 & R1 & P1).
    mrun E1.
    destruct (fixup_rest_inv h1 d true t p wa (Frame d false w wb :: k) rt0 n)
      as (x' & h' & E & T & R & HT & Hin & Hcase); try done.
    exists x', h'. split; [done|]. exists (Frame d false w wb :: k), T. split_and!; try done.
    + rewrite (inorder_plug_eq _ _ _ Hin). simpl. apply inorder_plug_eq, inorder_rotate.
    + rewrite <-Hrb. simpl. apply is_red_plug. by rewrite !is_red_nd.
    + destruct Hcase as [(-> & Hp' & HL & n' & Hsh & Hk')|(-> & Hpb & n' & HTn & Hk' & Hred)].
      * left. rewrite Hp'. split_and!; try done; [by right|by exists n'].
      * right. split_and!; [done| |by eapply plug_rbt].
        destruct k as [|f k]; [simpl in Hrt; rewrite rt_nd in Hrt; by subst rt0|].
        rewrite Hrt.
        change (plug (Frame d false p (nd d true wa w wb) :: f :: k) t)
          with (plug (f :: k) (nd d false t p (nd d true wa w wb))).
        rewrite (rt_plug (f :: k) _ (nd d false T w wb)) by done.
        rewrite rep_plug in R. destruct (rep_red _ _ _ _ R) as (nr & Hnr & Hnrr).
        exists nr. split; [done|]. rewrite Hnrr. rewrite <-Hrb. apply (is_red_plug (f :: k)).
        by rewrite !is_red_nd.
  - rewrite bind_mret.
    destruct (fixup_rest_inv h d c t p s k rt0 n)
      as (x' & h' & E & T & R & HT & Hin & Hcase); try done.
    exists x', h'. split; [done|]. exists k, T. split_and!; try done.
    + by rewrite (inorder_plug_eq _ _ _ Hin).
    + rewrite <-Hrb. simpl. apply is_red_plug. by rewrite is_red_nd.
    + destruct Hcase as [(-> & Hp' & HL & n' & Hsh & Hk')|(-> & Hpb & n' & HTn & Hk' & Hred)].
      * left. rewrite Hp'. split_and!; try done; [by left|by exists n'].
      * right. split_and!; [done| |by eapply plug_rbt].
        destruct k as [|f k]; [simpl in Hrt; rewrite rt_nd in Hrt; by subst rt0|].
        subst rt0. unfold K. change (plug (Frame d c p s :: f :: k) t) with (plug (f :: k) (nd d c t p s)).
        rewrite (rt_plug (f :: k) _ T) by done.
        rewrite rep_plug in R. destruct (rep_red _ _ _ _ R) as (nr & Hnr & Hnrr).
        exists nr. split; [done|]. rewrite Hnrr. rewrite <-Hrb. apply (is_red_plug (f :: k)).
        by rewrite is_red_nd.
Qed.

(** The statement after the loop, x->red = 0. *)
Lemma blacken_spec h k t :
  rep tr h k t → ∃ h', set_red (rt tr t) false h = Ret ((), h') ∧ rep tr h' k (blacken t).
Proof.
  intros Hr. destruct t as [|c l x r]; simpl.
  - destruct (rep_nil _ _ _ _ Hr) as (n & Hn & Hnr). eexists.
    split; [by apply update_run|].
    assert (with_red false n = n) as -> by (destruct n; simpl in *; by subst).
    by rewrite insert_id.
  - destruct (set_red_rep tr h k Left c l x r false Hr) as (h' & E & R & _). by exists h'.
Qed.

Lemma is_red_blacken t : is_red (blacken t) = false.
Proof. by destruct t as [|[] ]. Qed.

Lemma short_blacken t n : short t n → rbt (blacken t) (S n) ∨ (is_red t = false ∧ rbt t n).
Proof. unfold short. destruct (is_red t); tauto. Qed.

Definition fixup_done k t (r : outcome (unit * heap)) : Prop :=
  ∃ h' T, r = Ret ((), h') ∧ rep tr h' [] T ∧ valid T ∧ inorder T = inorder (plug k t).

(** The loop stops at a red node, whatever the local root is. *)
Lemma fixup_exit_red fuel h k t n rt0 :
  rep tr h k t → is_red t = true → short t n → kv k (S n) →
  (k ≠ [] → is_red (plug k t) = false) →
  fixup_done k t ((rb_delete_fixup_loop (S fuel) tr rt0 (rt tr t) ≫= λ x, set_red x false) h).
Proof.
  intros Hr Hred Hsh Hk Hrb. simpl.
  destruct (rep_red _ _ _ _ Hr) as (nx & Hnx & Hnr).
  assert ((if bool_decide (rt tr t ≠ rt0) then r ← get_red (rt tr t); mret (negb r) else mret false) h
          = Ret (false, h)) as E.
  { case_bool_decide; [|done]. hstep. by rewrite Hnr, Hred. }
  rewrite bind_assoc. mrun E. simpl. rewrite bind_mret.
  destruct (blacken_spec _ _ _ Hr) as (h' & E' & R). rewrite E'.
  exists h', (plug k (blacken t)). split_and!; try done.
  - by rewrite <-rep_plug.
  - split.
    + destruct k as [|f k]; [apply is_red_blacken|].
      specialize (Hrb ltac:(done)). rewrite plug_black in Hrb |- *.
      rewrite last_cons in Hrb |- *. by destruct (last k).
    + eapply plug_rbt; [done| |by rewrite is_red_blacken].
      unfold short in Hsh. by rewrite Hred in Hsh.
  - by apply inorder_plug_eq, inorder_blacken.
Qed.

Lemma rt_plug_in k u : k ≠ [] → rt tr (plug k u) ∈ cpar tr k :: cids tr k.
Proof.
  revert u. induction k as [|[d c x s] k IH]; intros u Hk; [done|]. simpl.
  destruct k as [|f k]; [simpl; rewrite rt_nd; by left|].
  right. apply elem_of_app. right. by apply IH.
Qed.

Lemma rt_not_top h k t f : rep tr h (f :: k) t → rt tr t ≠ rt tr (plug (f :: k) t).
Proof.
  intros Hr E. pose proof (rt_plug_in (f :: k) t ltac:(done)) as Hin. rewrite <-E in Hin.
  apply rep_ids in Hr. unfold aids in Hr. rewrite app_comm_cons in Hr.
  apply NoDup_cons in Hr as [Hnil Hr]. destruct t as [|c l x r]; simpl in Hin.
  - apply Hnil, elem_of_app. by left.
  - apply NoDup_app in Hr as (_ & Hd & _). apply (Hd x Hin). by left.
Qed.

Lemma fixup_loop_spec fuel h k t n :
  (length k < fuel)%nat → rep tr h k t → par_ok h k t → short t n → kv k (S n) →
  (k ≠ [] → is_red (plug k t) = false) →
  fixup_done k t
    ((rb_delete_fixup_loop fuel tr (rt tr (plug k t)) (rt tr t) ≫= λ x, set_red x false) h).
Proof.
  revert h k t n. induction fuel as [|fuel IH]; intros h k t n Hf Hr Hpar Hsh Hk Hrb; [lia|].
  destruct (is_red t) eqn:Hred; [by eapply fixup_exit_red|].
  unfold short in Hsh. rewrite Hred in Hsh.
  destruct k as [|[d c p s] k].
  - simpl. rewrite bool_decide_false by tauto. rewrite bind_assoc, !bind_mret.
    destruct (blacken_spec _ _ _ Hr) as (h' & E' & R). rewrite E'.
    exists h', (blacken t). split_and!; try done; [by eapply valid_blacken|].
    apply inorder_blacken.
  - pose proof (rt_not_top _ _ _ _ Hr) as Hne. specialize (Hrb ltac:(done)).
    remember (rt tr (plug (Frame d c p s :: k) t)) as rt0 eqn:Hrt0.
    destruct (rep_red _ _ _ _ Hr) as (nx & Hnx & Hnr).
    pose proof Hpar as (nx' & Hnx' & Hxp). rewrite Hnx in Hnx'. injection Hnx' as <-. simpl in Hxp.
    pose proof (rep_top _ _ _ _ Hr) as Hp. simpl in Hp.
    simpl. rewrite bool_decide_true by done. rewrite !bind_assoc. hstep. rewrite bind_mret.
    rewrite Hnr, Hred. simpl. rewrite bind_assoc. hstep. rewrite Hxp, bind_assoc. hstep.
    assert ((if bool_decide (rt tr t = child Left (node d c (cpar tr k) (rt tr t) (rt tr s)))
             then Left else Right) = d) as ->.
    { destruct d; simpl; [by rewrite bool_decide_true|]. rewrite bool_decide_false; [done|].
      pose proof Hr as Hr1. rewrite rep_zip in Hr1. destruct Hk as (Hs & _).
      destruct s as [|cs ls xs rs]; [done|]. rewrite rep_sib in Hr1. intros E.
      pose proof Hr1 as Hr2. rewrite rep_zip in Hr2. simpl in E.
      eapply (rep_not_sib tr _ _ _ _ (N cs ls xs rs)); [|exact Hr2|]; done. }
    rewrite bind_assoc.
    destruct (fixup_sub_spec h d c t p s k n rt0 Hr Hpar Hred Hsh Hk Hrb Hrt0)
      as (x' & h' & E & k2 & T & R & Hin & Hb & Hcase).
    mrun E.
    assert (fixup_done k2 T ((rb_delete_fixup_loop fuel tr rt0 x' ≫= λ x, set_red x false) h'))
      as (h'' & T' & E' & R' & V' & I'); [|exists h'', T'; by rewrite I', Hin].
    simpl in Hf. destruct fuel as [|fuel]; [lia|].
    destruct Hcase as [(-> & HpT & HL & Hk2 & n' & Hsh' & Hk')|(-> & (nr & Hnr0 & Hnrb) & m & Hm)].
    + destruct (is_red T) eqn:HT; [by eapply fixup_exit_red|].
      destruct Hk2 as [->|]; [|done].
      assert (rt0 = rt tr (plug k T)) as ->.
      { rewrite Hrt0. change (plug (Frame d c p s :: k) t) with (plug k (nd d c t p s)).
        destruct k as [|f k]; [|by apply rt_plug]. simpl. by rewrite rt_nd. }
      eapply IH; try done; [lia|].
      destruct T; [done|]. by apply par_N.
    + cbn [rb_delete_fixup_loop]. rewrite bool_decide_false by tauto.
      rewrite bind_assoc, !bind_mret.
      unfold set_red. rewrite (update_run _ _ _ _ Hnr0).
      assert (with_red false nr = nr) as -> by (destruct nr; simpl in *; by subst).
      rewrite insert_id by done. exists h', (plug k2 T). split_and!; try done; [by rewrite <-rep_plug|].
      split; [done|]. by exists m.
Qed.
End Fixup.
