(* ===== verification/RbErase.v ===== *)
(** * The red-black tree: rb_delete as a whole

    The node is unlinked (or its successor is, and takes its place), then the
    black heights are repaired by rb_delete_fixup. *)
From stdpp Require Import base gmap list fin_maps.
From Stdlib Require Import ZArith Lia Sorted.
From S2P Require Import Prelude RbTree RbRepr RbInsert RbQuery RbDelete.

(** ** Focusing on a node *)
Lemma plug_app k1 k2 t : plug (k1 ++ k2) t = plug k2 (plug k1 t).
Proof. revert t. induction k1 as [|[d c x s] k1 IH]; intros t; simpl; [done|apply IH]. Qed.

Lemma focus t x : x ∈ inorder t → ∃ k c l r,
  t = plug k (N c l x r) ∧ (length k + height (N c l x r) ≤ height t)%nat.
Proof.
  induction t as [|c l IHl y r IHr]; simpl; [set_solver|].
  intros [Hx|[->|Hx]%elem_of_cons]%elem_of_app.
  - destruct (IHl Hx) as (k & c' & l' & r' & Ek & Hlen).
    exists (k ++ [Frame Left c y r]), c', l', r'.
    rewrite plug_app, <-Ek, length_app. simpl in *. split; [done|lia].
  - by exists [], c, l, r.
  - destruct (IHr Hx) as (k & c' & l' & r' & Ek & Hlen).
    exists (k ++ [Frame Right c y l]), c', l', r'.
    rewrite plug_app, <-Ek, length_app. simpl in *. split; [done|lia].
Qed.

Lemma leftmost t : t ≠ L → ∃ k c y r,
  t = plug k (N c L y r) ∧ kl k = [] ∧ (length k < height t)%nat.
Proof.
  induction t as [|c l IHl y r IHr]; [done|]. intros _. destruct l as [|c' l' y' r'] eqn:El.
  - exists [], c, y, r. simpl. split_and!; [done..|lia].
  - destruct IHl as (k & c1 & y1 & r1 & Ek & Hk & Hlen); [done|].
    exists (k ++ [Frame Left c y r]), c1, y1, r1.
    rewrite plug_app, <-Ek, length_app. simpl in *. split_and!; [done| |lia].
    clear -Hk. induction k as [|[[] ???] k IH]; simpl in *; [done|by apply IH|].
    by destruct (kl k), (inorder s).
Qed.

Lemma kv_plug_inv k t n : rbt (plug k t) n → (is_red (plug k t) = false) →
  ∃ m, rbt t m ∧ kv k m ∧ (is_red t = true → top_red k = false ∧ k ≠ []).
Proof.
  revert t. induction k as [|[d c x s] k IH]; intros t Hn Hb; simpl in *.
  - exists n. split_and!; try done. by rewrite Hb.
  - destruct (IH _ Hn Hb) as (m & Hm & Hk & Hr). rewrite rbt_nd in Hm. rewrite is_red_nd in Hr.
    destruct Hm as (m' & Ht & Hs & Hm). exists m'. split; [done|].
    destruct c.
    + destruct Hm as (-> & Htb & Hsb). destruct (Hr eq_refl). split_and!; try done.
      by rewrite Htb.
    + subst m. split_and!; done.
Qed.

(** The address in a frame does not matter to the invariant. *)
Lemma kv_rename k1 d c x x' s k n :
  kv (k1 ++ Frame d c x s :: k) n → kv (k1 ++ Frame d c x' s :: k) n.
Proof.
  revert n. induction k1 as [|[d1 c1 x1 s1] k1 IH]; intros n; [done|].
  cbn [app kv]. intros (Hs & Hc & Hk). split_and!; [done| |by apply IH].
  destruct c1; [|done]. destruct Hc as (? & ? & _). destruct k1; by split_and!.
Qed.

Lemma last_rename k1 d c x x' s k t t' :
  is_red (plug (k1 ++ Frame d c x s :: k) t) = is_red (plug (k1 ++ Frame d c x' s :: k) t').
Proof.
  rewrite !plug_app. simpl. apply is_red_plug. by rewrite !is_red_nd.
Qed.

Section Unlink.
Context (tr : rb_tree).
Implicit Types (h : heap) (k : list frame) (t : tree).

(** x->parent = y->parent, then y's parent points to x instead of y. *)
Lemma unlink_spec h k d c t y :
  rep tr h k (nd d c t y L) →
  ∃ h', (set_parent (rt tr t) (cpar tr k) ≫= λ _, replace_child Left y (rt tr t)) h
        = Ret ((), h') ∧
    rep tr h' k t ∧ par_ok tr h' k t ∧ y ∉ nil tr :: aids tr k t ∧
    h' !! y = Some (node d c (cpar tr k) (rt tr t) (nil tr)) ∧
    (t ≠ L → h' !! nil tr = h !! nil tr).
Proof.
  intros Hr. pose proof (rep_nd _ _ _ _ _ _ _ _ Hr) as Hy. simpl in Hy.
  pose proof (rep_ids _ _ _ _ Hr) as Hnd. pose proof (rep_top _ _ _ _ Hr) as Hp.
  rewrite rt_nd in Hp. destruct Hr as [Hm _ Hnil].
  unfold all in Hm. rewrite cells_nd, rt_nd in Hm.
  rewrite models_cons, models_app, models_cons, models_app in Hm.
  destruct Hm as (_ & Hk & _ & Ht & _).
  unfold aids in Hnd. rewrite ids_nd in Hnd. simpl in Hnd. rewrite app_nil_r in Hnd.
  assert (Hnd1 : NoDup (y :: nil tr :: cpar tr k :: cids tr k ++ ids t)).
  { eapply NoDup_perm; [|exact Hnd]. solve_Permutation. }
  pose proof Hnd1 as Hnd2. rewrite NoDup_cons in Hnd2. destruct Hnd2 as [Hyout Hnd2].
  destruct t as [|ct lt x rt']; simpl in *.
  - rewrite app_nil_r in Hnd1. atoms Hnd1. destruct Hnil as (nn & Hnn & Hnr).
    exists (<[cpar tr k := ctop tr k (nil tr)]> (<[nil tr := with_parent (cpar tr k) nn]> h)).
    split_and!.
    + hstep. rewrite (replace_child_run tr _ k) with (n := node d c (cpar tr k) (nil tr) (nil tr));
        [done|lk|lk|by autorewrite with rb|diff|diff].
    + split.
      * unfold all. simpl. rewrite models_cons, models_app. split_and!; [lk|frame|apply models_nil].
      * rewrite keys_all. unfold aids. simpl. done.
      * eexists. split; [lk|done].
    + eexists. simpl. split; [lk|done].
    + by unfold aids.
    + lk.
    + done.
  - rewrite models_cons, models_app in Ht. destruct Ht as (Hx & Hlt & Hrt).
    assert (Hnd3 : NoDup (y :: nil tr :: cpar tr k :: x :: cids tr k ++ ids lt ++ ids rt')).
    { eapply NoDup_perm; [|exact Hnd1]. solve_Permutation. }
    atoms Hnd3.
    exists (<[cpar tr k := ctop tr k x]> (<[x := RbNode ct (cpar tr k) (rt tr lt) (rt tr rt')]> h)).
    split_and!.
    + hstep. rewrite (replace_child_run tr _ k) with (n := node d c (cpar tr k) x (nil tr));
        [done|lk|lk|by autorewrite with rb|diff|diff].
    + split.
      * unfold all. simpl. rewrite models_cons, models_app, models_cons, models_app.
        split_and!; try lk; frame.
      * rewrite keys_all. unfold aids. simpl. done.
      * destruct Hnil as (nn & Hnn & Hnr). exists nn. split; [lk|done].
    + eexists. simpl. split; [lk|done].
    + by unfold aids.
    + lk.
    + intros _. by rewrite !lookup_insert_ne by diff.
Qed.

(** y, out of the tree, takes the place of z: the block under
    [if (y != z)]. *)
Definition take_place (z y : Z) : M heap unit :=
  replace_child Left z y;;
  zr ← get_child Right z; set_parent zr y;;
  zl ← get_child Left z; set_parent zl y;;
  n ← read z; update y (λ _, n).

Lemma bind_read {B} h p n (k : rb_node → M heap B) :
  h !! p = Some n → (read p ≫= k) h = k n h.
Proof. intros E. unfold read, mbind, M_bind. by rewrite E. Qed.

Lemma take_place_spec h k c l z r y ny :
  rep tr h k (N c l z r) → l ≠ L → y ∉ nil tr :: aids tr k (N c l z r) → h !! y = Some ny →
  ∃ h', take_place z y h = Ret ((), h') ∧ rep tr h' k (N c l y r) ∧
    (r = L → ∃ n, h' !! nil tr = Some n ∧ parent n = y) ∧
    (r ≠ L → h' !! nil tr = h !! nil tr).
Proof.
  intros Hr Hl Hy Hny. pose proof (rep_ids _ _ _ _ Hr) as Hnd.
  destruct Hr as [Hm _ Hnil]. unfold all in Hm. simpl in Hm.
  rewrite models_cons, models_app, models_cons, models_app in Hm.
  destruct Hm as (Hp & Hk & Hz & Hml & Hmr).
  destruct l as [|cl ll xl rl]; [done|]. simpl in Hml. rewrite models_cons, models_app in Hml.
  destruct Hml as (Hxl & Hll & Hrl). destruct Hnil as (nn & Hnn & Hnr).
  unfold aids in Hnd, Hy. simpl in Hnd, Hy.
  assert (Hnd0 := NoDup_cons_2 _ _ Hy Hnd). clear Hnd Hy.
  assert (Hnd' : NoDup (nil tr :: aids tr k (N c (N cl ll xl rl) y r))).
  { apply (NoDup_cons_1_2 z). unfold aids.
    eapply NoDup_perm; [|exact Hnd0]. simpl. solve_Permutation. }
  destruct r as [|cr lr xr rr].
  - assert (Hnd1 : NoDup (y :: nil tr :: cpar tr k :: z :: xl :: cids tr k ++ ids ll ++ ids rl)).
    { eapply NoDup_perm; [|exact Hnd0]. simpl. solve_Permutation. }
    atoms Hnd1.
    eexists. split_and!.
    + unfold take_place.
      erewrite bind_Ret by (apply (replace_child_run tr _ k) with (n := RbNode c (cpar tr k) xl (nil tr)); [lk|lk|done|diff|diff]).
      hstep. simpl. hstep. hstep. simpl. hstep. erewrite bind_read by lk.
      by erewrite update_run by lk.
    + simpl. split.
      * unfold all. simpl. repeat first [rewrite models_cons | rewrite models_app].
        split_and!; try lk; try frame; apply models_nil.
      * by rewrite keys_all.
      * eexists. split; [lk|done].
    + intros _. eexists. split; [lk|done].
    + done.
  - simpl in Hmr. rewrite models_cons, models_app in Hmr. destruct Hmr as (Hxr & Hlr & Hrr).
    assert (Hnd1 : NoDup (y :: nil tr :: cpar tr k :: z :: xl :: xr :: cids tr k ++ ids ll ++ ids rl ++ ids lr ++ ids rr)).
    { eapply NoDup_perm; [|exact Hnd0]. simpl. solve_Permutation. }
    atoms Hnd1.
    eexists. split_and!.
    + unfold take_place.
      erewrite bind_Ret by (apply (replace_child_run tr _ k) with (n := RbNode c (cpar tr k) xl xr); [lk|lk|done|diff|diff]).
      hstep. simpl. hstep. hstep. simpl. hstep. erewrite bind_read by lk.
      by erewrite update_run by lk.
    + simpl. split.
      * unfold all. simpl. repeat first [rewrite models_cons | rewrite models_app].
        split_and!; try lk; frame.
      * by rewrite keys_all.
      * exists nn. split; [lk|done].
    + done.
    + intros _. by rewrite !lookup_insert_ne by diff.
Qed.

Lemma delete_finish_spec fuel h k d c t y n :
  (length k < fuel)%nat → rep tr h k t → par_ok tr h k t →
  rbt (nd d c t y L) n → kv k n → (c = true → top_red k = false ∧ k ≠ []) →
  (k ≠ [] → is_red (plug k t) = false) →
  fixup_done tr k t ((if negb c then rb_delete_fixup fuel tr (rt tr t) else skip) h).
Proof.
  intros Hf Hr Hpar (m & Ht & _ & Hm)%rbt_nd Hk Hc Hrb. destruct c; simpl.
  - destruct Hm as (-> & Htb & _). destruct (Hc eq_refl) as [_ Hne].
    exists h, (plug k t). split_and!; try done; [by rewrite <-rep_plug|].
    split; [by apply Hrb|]. eapply plug_rbt; [done..|by rewrite Htb].
  - subst n. pose proof Hr as Hr0. rewrite rep_plug in Hr0. apply rep_top in Hr0. simpl in Hr0.
    unfold rb_delete_fixup. hstep. simpl. apply (fixup_loop_spec tr) with (n := m); try done.
    unfold short. destruct t as [|[] lt x rt']; simpl in *; try done.
    destruct Ht as (m' & ? & ? & -> & _). by exists m'.
Qed.

(** The node itself is unlinked: it has at most one child. *)
Lemma rb_delete_one fuel h k c l z r n :
  (length k < fuel)%nat → rep tr h k (N c l z r) → l = L ∨ r = L →
  rbt (N c l z r) n → kv k n → (c = true → top_red k = false ∧ k ≠ []) →
  is_red (plug k (N c l z r)) = false →
  ∃ h' t', rb_delete fuel tr z h = Ret ((), h') ∧ rep tr h' [] t' ∧ valid t' ∧
    inorder t' = kl k ++ inorder l ++ inorder r ++ kr k.
Proof.
  intros Hf Hr Hlr Hn Hk Hc Hrb.
  pose proof (rep_N _ _ _ _ _ _ _ Hr) as Hz. pose proof (rep_N_nil _ _ _ _ _ _ _ Hr) as Hzn.
  pose proof (rep_root _ _ _ _ Hr) as Hroot. simpl in Hroot.
  assert (∃ d t, N c l z r = nd d c t z L ∧
    rt tr t = (if bool_decide (rt tr l ≠ nil tr) then rt tr l else rt tr r) ∧
    inorder t = inorder l ++ inorder r) as (d & t & Ed & Ert & Ein).
  { destruct l as [|cl ll xl rl].
    - exists Right, r. rewrite bool_decide_false; [done|]. simpl. tauto.
    - destruct Hlr as [| ->]; [done|]. exists Left, (N cl ll xl rl).
      rewrite bool_decide_true by (by eapply rep_N_nil, rep_left). simpl. by rewrite app_nil_r. }
  rewrite Ed in Hr, Hn, Hrb.
  destruct (unlink_spec h k d c t z Hr) as (h1 & E1 & R1 & P1 & Ho & Hz1 & _).
  unfold rb_delete. do 2 hstep. simpl.
  rewrite bool_decide_true by (destruct Hlr as [->| ->]; [by left|by right]). rewrite bind_mret.
  hstep. simpl.
  assert ((if bool_decide (rt tr l ≠ nil tr) then mret (rt tr l) else get_child Right z) h
          = Ret (rt tr t, h)) as Ex.
  { rewrite Ert. case_bool_decide; [done|]. by rewrite (get_child_run _ _ _ _ Hz). }
  mrun Ex. rewrite bind_assert by (apply bool_decide_true; set_solver + Hzn Hroot).
  hstep. simpl. rewrite <-bind_assoc. mrun E1. hstep.
  rewrite bool_decide_false by tauto. rewrite bind_skip.
  destruct (delete_finish_spec fuel h1 k d c t z n) as (h' & T & E & R & V & I); try done.
  { intros Hne. rewrite <-Hrb. rewrite !plug_black. destruct (last k) eqn:El; [done|].
    by apply last_None in El. }
  exists h', T. split_and!; try done. by rewrite I, inorder_plug, Ein, <-app_assoc.
Qed.

(** The successor is unlinked and takes the node's place. *)
Lemma rb_delete_two fuel h k c l z r n :
  (length k + height (N c l z r) < fuel)%nat → rep tr h k (N c l z r) → l ≠ L → r ≠ L →
  rbt (plug k (N c l z r)) n → is_red (plug k (N c l z r)) = false →
  ∃ h' t', rb_delete fuel tr z h = Ret ((), h') ∧ rep tr h' [] t' ∧ valid t' ∧
    inorder t' = kl k ++ inorder l ++ inorder r ++ kr k.
Proof.
  intros Hf Hr HlL HrL Hn Hrb. simpl in Hf.
  pose proof (rep_N _ _ _ _ _ _ _ Hr) as Hz. pose proof (rep_N_nil _ _ _ _ _ _ _ Hr) as Hzn.
  assert (Hsucc := successor_spec tr fuel h k c l z r ltac:(lia) ltac:(lia) Hr).
  destruct (leftmost r HrL) as (k2 & cy & y & ry & Er & Hk2 & Hlen).
  assert (Hin : inorder r = y :: inorder ry ++ kr k2) by (by rewrite Er, inorder_plug, Hk2).
  rewrite Hin in Hsucc. simpl in Hsucc.
  assert (EK : ∀ x u, plug (k2 ++ Frame Right c x l :: k) u = plug k (N c l x (plug k2 u)))
    by (intros; by rewrite plug_app).
  assert (HrK : rep tr h (k2 ++ Frame Right c z l :: k) (nd Right cy ry y L)).
  { rewrite rep_plug, EK. simpl. rewrite <-Er. by rewrite <-rep_plug. }
  rewrite Er, <-EK in Hn, Hrb.
  destruct (kv_plug_inv _ _ _ Hn Hrb) as (m & Hm & Hkm & Hcy).
  pose proof (rep_N _ _ _ _ _ _ _ HrK) as Hy. pose proof (rep_N_nil _ _ _ _ _ _ _ HrK) as Hyn.
  pose proof (rep_root _ _ _ _ HrK) as Hyr. simpl in Hyr.
  destruct (unlink_spec h _ Right cy ry y HrK) as (h1 & E1 & R1 & P1 & Ho & Hy1 & Hn1).
  assert (R1' : rep tr h1 k (N c l z (plug k2 ry))).
  { by rewrite rep_plug, <-EK, <-rep_plug. }
  assert (Ho' : y ∉ nil tr :: aids tr k (N c l z (plug k2 ry))).
  { rewrite not_elem_of_cons, elem_of_aids, <-EK, <-elem_of_aids. by rewrite <-not_elem_of_cons. }
  destruct (take_place_spec h1 k c l z (plug k2 ry) y _ R1' HlL Ho' Hy1)
    as (h2 & E2 & R2 & Hnil2 & Hnil2').
  assert (R2' : rep tr h2 (k2 ++ Frame Right c y l :: k) ry).
  { by rewrite rep_plug, EK, <-rep_plug. }
  assert (Hyz : y ≠ z).
  { intros ->. apply Ho'. unfold aids. simpl. set_solver +. }
  assert (P2 : par_ok tr h2 (k2 ++ Frame Right c y l :: k) ry).
  { destruct ry as [|cr lr xr rr]; [|by apply par_N]. unfold par_ok in *. simpl in *.
    destruct k2 as [|[d2 c2 x2 s2] k2]; simpl in *; [by apply Hnil2|].
    rewrite Hnil2'; [done|]. intros E. apply (f_equal inorder) in E.
    rewrite inorder_plug in E. by destruct (kl k2), d2, (inorder s2). }
  unfold rb_delete. do 2 hstep. simpl.
  rewrite bool_decide_false.
  2: { intros [E|E].
       - by apply (rep_rt_nil _ _ _ _ (rep_left _ _ _ _ _ _ _ Hr)) in E.
       - by apply (rep_rt_nil _ _ _ _ (rep_right _ _ _ _ _ _ _ Hr)) in E. }
  mrun Hsucc. hstep. simpl. rewrite (bool_decide_false (nil tr ≠ nil tr)) by tauto.
  hstep. simpl. rewrite bind_assert by (apply bool_decide_true; set_solver + Hyn Hyr).
  hstep. simpl. rewrite <-bind_assoc. mrun E1. hstep.
  rewrite bool_decide_true by done. mrun E2.
  destruct (delete_finish_spec fuel h2 (k2 ++ Frame Right c y l :: k) Right cy ry y m)
    as (h' & T & E & R & V & I); try done.
  { rewrite length_app. simpl. lia. }
  { by eapply kv_rename. }
  { intros Hred. rewrite Hred in Hcy. destruct (Hcy eq_refl) as [Htop _].
    split; [|by destruct k2]. by destruct k2 as [|[]]. }
  { intros _. rewrite <-Hrb. apply last_rename. }
  exists h', T. split_and!; try done.
  rewrite I, EK, inorder_plug. simpl. rewrite inorder_plug, Hk2, Hin. simpl.
  repeat (rewrite <-!app_assoc; simpl). done.
Qed.

Lemma inorder_NoDup h t : rep tr h [] t → NoDup (inorder t).
Proof.
  intros Hr%rep_ids. unfold aids in Hr. simpl in Hr. rewrite inorder_ids.
  by apply NoDup_cons in Hr as [_ [_ Hr]%NoDup_cons].
Qed.

Lemma rb_delete_spec fuel h t z :
  (height t < fuel)%nat → rep tr h [] t → valid t → z ∈ inorder t →
  ∃ h' t' xs ys, rb_delete fuel tr z h = Ret ((), h') ∧ rep tr h' [] t' ∧ valid t' ∧
    inorder t = xs ++ z :: ys ∧ inorder t' = xs ++ ys.
Proof.
  intros Hf Hr [Hb [n Hn]] Hz. destruct (focus t z Hz) as (k & c & l & r & -> & Hlen).
  rewrite <-rep_plug in Hr.
  assert (∃ h' t', rb_delete fuel tr z h = Ret ((), h') ∧ rep tr h' [] t' ∧ valid t' ∧
    inorder t' = kl k ++ inorder l ++ inorder r ++ kr k) as (h' & t' & E & R & V & I).
  { destruct (kv_plug_inv _ _ _ Hn Hb) as (m & Hm & Hkm & Hc). simpl in Hlen.
    destruct l as [|cl ll xl rl]; [|destruct r as [|cr lr xr rr]].
    - eapply rb_delete_one; eauto; [lia|]. destruct c; [|done]. by intros _; apply Hc.
    - eapply rb_delete_one; eauto; [lia|]. destruct c; [|done]. by intros _; apply Hc.
    - eapply rb_delete_two; try done. simpl in *. lia. }
  exists h', t', (kl k ++ inorder l), (inorder r ++ kr k). split_and!; try done.
  - rewrite inorder_plug. simpl. by rewrite <-!app_assoc.
  - by rewrite I, <-!app_assoc.
Qed.
End Unlink.
