(* ===== verification/RbFrame.v ===== *)
(** * The red-black tree: memory outside a tree is left alone

    A frame property in the style of separation logic: a function of
    lib/rb_tree.c that returns from a heap returns in the same way from any
    larger heap and leaves the rest as it is; and it neither allocates nor
    frees nodes.  It is proved from the structure of the code. *)
From stdpp Require Import base gmap list fin_maps.
From Stdlib Require Import ZArith Lia Sorted.
From S2P Require Import Prelude RbTree RbRepr.

Class Framed {A} (m : M heap A) : Prop := framed :
  ∀ h a h', m h = Ret (a, h') → dom h' = dom h ∧
    ∀ hf, h ##ₘ hf → m (h ∪ hf) = Ret (a, h' ∪ hf).

#[global] Hint Mode Framed + ! : typeclass_instances.

#[global] Instance framed_ret {A} (a : A) : Framed (mret a).
Proof. intros h b h' [= <- <-]. done. Qed.

#[global] Instance framed_skip : Framed skip.
Proof. apply framed_ret. Qed.

#[global] Instance framed_assert b : Framed (assert b).
Proof. destruct b; [apply framed_skip|]. by intros h a h'. Qed.

#[global] Instance framed_out_of_fuel {A} : Framed (A := A) out_of_fuel.
Proof. by intros h a h'. Qed.

#[global] Instance framed_bind {A B} (m : M heap A) (k : A → M heap B) :
  Framed m → (∀ a, Framed (k a)) → Framed (m ≫= k).
Proof.
  intros Hm Hk h b h'' (a & h' & E1 & E2)%bind_inv.
  destruct (Hm _ _ _ E1) as [D1 F1]. destruct (Hk _ _ _ _ E2) as [D2 F2].
  split; [congruence|]. intros hf Hd. mrun (F1 hf Hd). apply F2.
  apply map_disjoint_dom. rewrite D1. by apply map_disjoint_dom.
Qed.

#[global] Instance framed_read p : Framed (read p).
Proof.
  intros h n h'. unfold read. destruct (h !! p) eqn:E; [|done]. intros [= <- <-].
  split; [done|]. intros hf Hd. by rewrite (lookup_union_Some_l _ _ _ _ E).
Qed.

#[global] Instance framed_update p f : Framed (update p f).
Proof.
  intros h n h'. unfold update. destruct (h !! p) eqn:E; [|done]. intros [= <- <-].
  split.
  - rewrite dom_insert_L. apply elem_of_dom_2 in E. set_solver + E.
  - intros hf Hd. by rewrite (lookup_union_Some_l _ _ _ _ E), insert_union_l.
Qed.

#[global] Instance framed_if {A} (b : bool) (m n : M heap A) :
  Framed m → Framed n → Framed (if b then m else n).
Proof. by destruct b. Qed.

(** [framed_solve] proves the frame property of straight-line code. *)
Ltac framed_solve := repeat first
  [ progress intros | typeclasses eauto 2 | apply framed_bind | apply framed_if ].

#[global] Instance framed_get_red p : Framed (get_red p).
Proof. unfold get_red. framed_solve. Qed.
#[global] Instance framed_get_parent p : Framed (get_parent p).
Proof. unfold get_parent. framed_solve. Qed.
#[global] Instance framed_get_child d p : Framed (get_child d p).
Proof. unfold get_child. framed_solve. Qed.
#[global] Instance framed_set_red p b : Framed (set_red p b).
Proof. unfold set_red. framed_solve. Qed.
#[global] Instance framed_set_parent p v : Framed (set_parent p v).
Proof. unfold set_parent. framed_solve. Qed.
#[global] Instance framed_set_child d p v : Framed (set_child d p v).
Proof. unfold set_child. framed_solve. Qed.
#[global] Instance framed_replace_child d x y : Framed (replace_child d x y).
Proof. unfold replace_child. framed_solve. Qed.
#[global] Instance framed_rotate d tr x : Framed (rotate d tr x).
Proof. unfold rotate. framed_solve. Qed.

#[global] Instance framed_insert_descend fuel tr z x y : Framed (insert_descend fuel tr z x y).
Proof. revert x y. induction fuel; intros; simpl; framed_solve. Qed.
#[global] Instance framed_insert_sub d tr x : Framed (rb_insert_sub d tr x).
Proof. unfold rb_insert_sub. framed_solve. Qed.
#[global] Instance framed_insert_loop fuel tr x : Framed (rb_insert_loop fuel tr x).
Proof. revert x. induction fuel; intros; simpl; framed_solve. Qed.
#[global] Instance framed_rb_insert fuel tr z : Framed (rb_insert fuel tr z).
Proof. unfold rb_insert, rb_insert_binary. framed_solve. Qed.

#[global] Instance framed_descend fuel d tr y : Framed (descend fuel d tr y).
Proof. revert y. induction fuel; intros; simpl; framed_solve. Qed.
#[global] Instance framed_succ_up fuel x y : Framed (succ_up fuel x y).
Proof. revert x y. induction fuel; intros; simpl; framed_solve. Qed.
#[global] Instance framed_successor fuel tr x : Framed (rb_tree_successor fuel tr x).
Proof. unfold rb_tree_successor. framed_solve. Qed.
#[global] Instance framed_fixup_sub d tr rt x : Framed (rb_delete_fixup_sub d tr rt x).
Proof. unfold rb_delete_fixup_sub. framed_solve. Qed.
#[global] Instance framed_fixup_loop fuel tr rt x : Framed (rb_delete_fixup_loop fuel tr rt x).
Proof. revert x. induction fuel; intros; simpl; framed_solve. Qed.
#[global] Instance framed_fixup fuel tr x : Framed (rb_delete_fixup fuel tr x).
Proof. unfold rb_delete_fixup. framed_solve. Qed.
#[global] Instance framed_rb_delete fuel tr z : Framed (rb_delete fuel tr z).
Proof. unfold rb_delete. framed_solve. Qed.

(** Running a framed computation on the cells it needs gives the run on the
    whole heap. *)
Lemma frame_run {A} (m : M heap A) `{!Framed m} (X : gset Z) h a h0' :
  m (filter (λ c, c.1 ∈ X) h) = Ret (a, h0') →
  ∃ h', m h = Ret (a, h') ∧ dom h' = dom h ∧
    (∀ q, q ∈ X → h' !! q = h0' !! q) ∧ (∀ q, q ∉ X → h' !! q = h !! q).
Proof.
  intros E. destruct (framed _ _ _ E) as [D F].
  set (hf := filter (λ c, c.1 ∉ X) h).
  assert (Hd : filter (λ c, c.1 ∈ X) h ##ₘ hf).
  { apply map_disjoint_filter_complement. }
  assert (Hu : filter (λ c, c.1 ∈ X) h ∪ hf = h) by apply map_filter_union_complement.
  specialize (F hf Hd). rewrite Hu in F. exists (h0' ∪ hf). split_and!; [done|..].
  - rewrite dom_union_L, D, <-dom_union_L. by rewrite Hu.
  - intros q Hq. assert (hf !! q = None) as Hn.
    { apply map_lookup_filter_None. right. intros ? _ Hc. by apply Hc. }
    destruct (h0' !! q) eqn:E0; [by apply lookup_union_Some_l|].
    by apply lookup_union_None.
  - intros q Hq. assert (h0' !! q = None) as Hn.
    { apply not_elem_of_dom. rewrite D. apply not_elem_of_dom.
      apply map_lookup_filter_None. by right. }
    rewrite lookup_union_r by done. destruct (h !! q) eqn:Eq.
    + by apply map_lookup_filter_Some.
    + apply map_lookup_filter_None. by left.
Qed.

(** Whether a heap represents a tree depends on the tree's cells only. *)
Lemma rep_agree tr h h' k t :
  rep tr h k t → (∀ q, q ∈ nil tr :: aids tr k t → h' !! q = h !! q) → rep tr h' k t.
Proof.
  intros [Hm Hn (n & Hnil & Hr)] Hq. split; [|done|].
  - unfold models in *. rewrite Forall_forall in Hm |- *. intros c Hc.
    rewrite Hq; [by apply Hm|]. right. rewrite <-(keys_all tr).
    apply list_elem_of_fmap. by exists c.
  - exists n. rewrite Hq; [done|by left].
Qed.
