(* ===== verification/RbProps.v ===== *)
(** * The red-black tree: its contract

    The tree as its clients see it: a list of nodes in key order.  The
    theorems of this file say that the C functions implement the obvious
    operations on that list, without panicking, within a number of loop turns
    logarithmic in the number of nodes, and without touching other memory. *)
From stdpp Require Import base gmap list fin_maps.
From Stdlib Require Import ZArith Lia Sorted.
From S2P Require Import Prelude RbTree RbRepr RbInsert RbQuery RbDelete RbErase RbFrame.

(** ** The abstract specification *)

(** Insertion behind the nodes with the same key. *)
Fixpoint sinsert (key : Z → Z) (z : Z) (xs : list Z) : list Z :=
  match xs with
  | [] => [z]
  | x :: xs' => if bool_decide (key x ≤ key z) then x :: sinsert key z xs' else z :: xs
  end.

Definition sdelete (z : Z) (xs : list Z) : list Z := filter (λ q, q ≠ z) xs.

Definition represents (tr : rb_tree) (key : Z → Z) (h : heap) (xs : list Z) : Prop :=
  ∃ t, rep tr h [] t ∧ valid t ∧ inorder t = xs ∧ sorted key xs.

(** The cells of the represented tree. *)
Definition footprint (tr : rb_tree) (xs : list Z) : list Z := nil tr :: root tr :: xs.

(** Loop turns that suffice for a tree of [n] nodes. *)
Definition rb_fuel (n : nat) : nat := S (2 * Nat.log2 (S n)).

(** ** Height *)
Lemma rbt_height t n : rbt t n → (height t ≤ 2 * n + (if is_red t then 1 else 0))%nat.
Proof.
  revert n. induction t as [|c l IHl x r IHr]; intros n; simpl; [lia|].
  intros (m & Hl%IHl & Hr%IHr & Hm). destruct c.
  - destruct Hm as (-> & El & Er). rewrite El in Hl. rewrite Er in Hr. lia.
  - subst n. destruct (is_red l), (is_red r); lia.
Qed.

Lemma rbt_size t n : rbt t n → (2 ^ n ≤ S (length (inorder t)))%nat.
Proof.
  revert n. induction t as [|c l IHl x r IHr]; intros n; simpl; [intros ->; simpl; lia|].
  intros (m & Hl%IHl & Hr%IHr & Hm). rewrite length_app. simpl.
  destruct c; [destruct Hm as (-> & _)|subst n; simpl]; lia.
Qed.

Lemma valid_height t : valid t → (height t < rb_fuel (length (inorder t)))%nat.
Proof.
  intros [Hb [n Hn]]. pose proof (rbt_height _ _ Hn) as Hh. rewrite Hb in Hh.
  apply rbt_size, Nat.log2_le_mono in Hn. rewrite Nat.log2_pow2 in Hn by lia.
  unfold rb_fuel. lia.
Qed.

Lemma rb_fuel_mono m n : (m ≤ n)%nat → (rb_fuel m ≤ rb_fuel n)%nat.
Proof. intros H. unfold rb_fuel. pose proof (Nat.log2_le_mono (S m) (S n)). lia. Qed.

(** ** The specification's lists *)
Lemma sinsert_split key z xs ys :
  (∀ q, q ∈ xs → key q ≤ key z) → (∀ q, q ∈ ys → key z < key q) →
  sinsert key z (xs ++ ys) = xs ++ z :: ys.
Proof.
  intros Hx Hy. induction xs as [|x xs IH]; simpl.
  - destruct ys as [|y ys]; simpl; [done|]. rewrite bool_decide_false; [done|].
    specialize (Hy y ltac:(by left)). lia.
  - rewrite bool_decide_true by (apply Hx; by left). f_equal. apply IH.
    intros. apply Hx. by right.
Qed.

Lemma sinsert_perm key z xs : sinsert key z xs ≡ₚ z :: xs.
Proof.
  induction xs as [|x xs IH]; simpl; [done|]. case_bool_decide; [|done].
  rewrite IH. apply perm_swap.
Qed.

Lemma sinsert_sorted key z xs : sorted key xs → sorted key (sinsert key z xs).
Proof.
  induction xs as [|x xs IH]; simpl.
  - intros _. apply sorted_cons. split; [constructor|]. set_solver.
  - intros [Hs Hx]%sorted_cons. case_bool_decide as E.
    + apply sorted_cons. split; [by apply IH|]. intros b. rewrite sinsert_perm.
      intros [->|Hb]%elem_of_cons; [done|by apply Hx].
    + rewrite !sorted_cons. split; [done|]. intros b [->|Hb]%elem_of_cons; [lia|].
      specialize (Hx b Hb). lia.
Qed.

Lemma sdelete_notin z xs : z ∉ xs → sdelete z xs = xs.
Proof.
  unfold sdelete. induction xs as [|x xs IH]; [done|]. intros [Hx Hxs]%not_elem_of_cons.
  rewrite filter_cons_True by done. by rewrite IH.
Qed.

Lemma sdelete_split z xs ys : NoDup (xs ++ z :: ys) → sdelete z (xs ++ z :: ys) = xs ++ ys.
Proof.
  intros (_ & Hxz & Hzy)%NoDup_app. apply NoDup_cons in Hzy as [Hzy _].
  unfold sdelete. rewrite filter_app, filter_cons_False by tauto.
  change (sdelete z xs ++ sdelete z ys = xs ++ ys).
  rewrite !sdelete_notin; [done..|]. intros Hq. apply (Hxz z Hq). by left.
Qed.

Lemma sorted_sub key xs z ys : sorted key (xs ++ z :: ys) → sorted key (xs ++ ys).
Proof.
  rewrite !sorted_app, sorted_cons. intros (? & (? & ?) & Hc). split_and!; try done.
  intros; apply Hc; [done|by right].
Qed.

Section Contract.
Context (tr : rb_tree) (key : Z → Z) (Hkey : keyed tr key).
Implicit Types (h : heap) (t : tree) (xs : list Z).

Lemma insert_represents fuel h xs z :
  represents tr key h xs → (rb_fuel (length xs) ≤ fuel)%nat →
  z ∉ footprint tr xs → is_Some (h !! z) →
  ∃ h', rb_insert fuel tr z h = Ret ((), h') ∧ represents tr key h' (sinsert key z xs) ∧
    dom h' = dom h ∧ (∀ q, q ∉ footprint tr (z :: xs) → h' !! q = h !! q).
Proof using Hkey.
  intros (t & Hr & Hv & <- & Hs) Hf Hz Hin. pose proof (valid_height t Hv) as Hh.
  destruct (rb_insert_spec tr key fuel h t z) as (h' & t' & l & r & E & R & V & I & I' & Hl & Hg & F);
    try done.
  { lia. } { unfold footprint in Hz. by rewrite (inorder_ids t) in Hz. }
  exists h'. split_and!; try done.
  - exists t'. split_and!; try done; [|by apply sinsert_sorted].
    by rewrite I, sinsert_split, I'.
  - by apply (framed _ _ _ E).
  - intros q Hq. apply F. rewrite <-(inorder_ids t). set_solver + Hq.
Qed.

Lemma rep_filter h t : rep tr h [] t →
  rep tr (filter (λ c, c.1 ∈ (list_to_set (footprint tr (inorder t)) : gset Z)) h) [] t.
Proof.
  intros Hr. eapply rep_agree; [done|]. intros q Hq. unfold aids in Hq. simpl in Hq.
  assert (q ∈ (list_to_set (footprint tr (inorder t)) : gset Z)) as Hin.
  { rewrite elem_of_list_to_set. unfold footprint. by rewrite (inorder_ids t). }
  destruct (h !! q) eqn:E; [by apply map_lookup_filter_Some|].
  apply map_lookup_filter_None. by left.
Qed.

Lemma delete_represents fuel h xs z :
  represents tr key h xs → (rb_fuel (length xs) ≤ fuel)%nat → z ∈ xs →
  ∃ h', rb_delete fuel tr z h = Ret ((), h') ∧ represents tr key h' (sdelete z xs) ∧
    dom h' = dom h ∧ (∀ q, q ∉ footprint tr xs → h' !! q = h !! q).
Proof.
  intros (t & Hr & Hv & <- & Hs) Hf Hz. pose proof (valid_height t Hv) as Hh.
  destruct (rb_delete_spec tr fuel _ t z ltac:(lia) (rep_filter _ _ Hr) Hv Hz)
    as (h0 & t' & l & r & E & R & V & I & I').
  destruct (frame_run _ _ _ _ _ E) as (h' & E' & D & Hin & Hout).
  exists h'. split_and!; try done.
  - exists t'. pose proof (inorder_NoDup _ _ _ Hr) as Hnd. rewrite I in Hnd, Hs |- *.
    rewrite sdelete_split by done. split_and!; try done; [|by eapply sorted_sub].
    eapply rep_agree; [done|]. intros q Hq. apply Hin. rewrite elem_of_list_to_set.
    unfold footprint. unfold aids in Hq. simpl in Hq. rewrite <-(inorder_ids t'), I' in Hq.
    rewrite I. set_solver + Hq.
  - intros q Hq. apply Hout. by rewrite elem_of_list_to_set.
Qed.

(** ** Sequences of operations *)
Inductive rb_op : Type := Insert (z : Z) | Delete (z : Z).

Definition run_op (fuel : nat) (o : rb_op) : M heap unit :=
  match o with Insert z => rb_insert fuel tr z | Delete z => rb_delete fuel tr z end.
Fixpoint run_ops (fuel : nat) (os : list rb_op) : M heap unit :=
  match os with [] => skip | o :: os => run_op fuel o;; run_ops fuel os end.

Definition spec_op (o : rb_op) xs : list Z :=
  match o with Insert z => sinsert key z xs | Delete z => sdelete z xs end.
Definition spec_ops (os : list rb_op) xs : list Z := fold_left (flip spec_op) os xs.

(** What the callers guarantee: a node is inserted while it is in no tree and
    deleted while it is in this one. *)
Fixpoint ops_ok (D : gset Z) (os : list rb_op) xs : bool :=
  match os with
  | [] => true
  | o :: os' =>
    match o with
    | Insert z => bool_decide (z ∈ D ∧ z ∉ footprint tr xs)
    | Delete z => bool_decide (z ∈ xs)
    end && ops_ok D os' (spec_op o xs)
  end.

Lemma spec_op_length o xs : (length (spec_op o xs) ≤ S (length xs))%nat.
Proof.
  destruct o as [z|z]; simpl; [by rewrite sinsert_perm|].
  unfold sdelete. pose proof (length_filter (λ q, q ≠ z) xs). lia.
Qed.

Lemma run_op_represents fuel h xs o :
  represents tr key h xs → (rb_fuel (length xs) ≤ fuel)%nat → ops_ok (dom h) [o] xs = true →
  ∃ h', run_op fuel o h = Ret ((), h') ∧ represents tr key h' (spec_op o xs) ∧ dom h' = dom h.
Proof using Hkey.
  intros Hr Hf Hok. simpl in Hok. rewrite andb_true_r in Hok. destruct o as [z|z]; simpl.
  - apply bool_decide_eq_true in Hok as [Hd Hz].
    destruct (insert_represents fuel h xs z) as (h' & ? & ? & ? & _); try done.
    + by apply elem_of_dom.
    + by exists h'.
  - apply bool_decide_eq_true in Hok.
    destruct (delete_represents fuel h xs z) as (h' & ? & ? & ? & _); try done. by exists h'.
Qed.

Lemma run_ops_represents fuel h xs os :
  represents tr key h xs → (rb_fuel (length xs + length os) ≤ fuel)%nat →
  ops_ok (dom h) os xs = true →
  ∃ h', run_ops fuel os h = Ret ((), h') ∧ represents tr key h' (spec_ops os xs).
Proof using Hkey.
  revert h xs. induction os as [|o os IH]; intros h xs Hr Hf Hok; [by exists h|].
  cbn [ops_ok] in Hok. apply andb_true_iff in Hok as [Ho Hos].
  destruct (run_op_represents fuel h xs o) as (h1 & E1 & R1 & D1); [done| |by simpl; rewrite Ho|].
  { etransitivity; [|exact Hf]. apply rb_fuel_mono. simpl. lia. }
  destruct (IH h1 (spec_op o xs)) as (h2 & E2 & R2); [done| |by rewrite D1|].
  { etransitivity; [|exact Hf]. apply rb_fuel_mono. pose proof (spec_op_length o xs).
    simpl. lia. }
  exists h2. split; [|done]. simpl. by mrun E1.
Qed.
End Contract.

(** ** Queries *)
Section Queries.
Context (tr : rb_tree) (key : Z → Z).
Implicit Types (h : heap) (xs : list Z).

Lemma focus_split h t xs z ys :
  rep tr h [] t → inorder t = xs ++ z :: ys →
  ∃ k c l r, rep tr h k (N c l z r) ∧ (length k + height (N c l z r) ≤ height t)%nat ∧
    xs = kl k ++ inorder l ∧ ys = inorder r ++ kr k.
Proof.
  intros Hr Hin. destruct (focus t z) as (k & c & l & r & -> & Hlen); [rewrite Hin; set_solver +|].
  exists k, c, l, r. rewrite rep_plug. split; [done|]. split; [done|].
  apply inorder_NoDup in Hr. rewrite Hin in Hr. rewrite inorder_plug in Hin. simpl in Hin.
  rewrite <-app_assoc in Hin. simpl in Hin. rewrite app_assoc in Hin.
  pose proof Hr as Hr'. rewrite <-Hin in Hr'.
  apply NoDup_app in Hr as (_ & Hx & [Hy _]%NoDup_cons).
  apply NoDup_app in Hr' as (_ & Hx' & [Hy' _]%NoDup_cons).
  destruct (not_elem_of_app_cons_inv_r z z _ _ _ _ Hy Hy' Hin) as (-> & _ & ->). done.
Qed.

Lemma or_null_default h o t :
  rep tr h [] t → (∀ q, o = Some q → q ∈ inorder t) →
  or_null tr (default (nil tr) o) = default NULL o.
Proof.
  intros Hr Ho. unfold or_null. destruct o as [q|]; simpl.
  - rewrite bool_decide_true; [done|]. intros ->. specialize (Ho _ eq_refl).
    apply rep_ids, NoDup_cons in Hr as [Hn _]. apply Hn. unfold aids. simpl.
    rewrite <-(inorder_ids t). by right.
  - rewrite bool_decide_false; [done|]. tauto.
Qed.

Lemma next_represents fuel h xs z ys :
  represents tr key h (xs ++ z :: ys) → (rb_fuel (length (xs ++ z :: ys)) ≤ fuel)%nat →
  rb_node_next fuel tr z h = Ret (default NULL (head ys), h).
Proof.
  intros (t & Hr & Hv & Hin & Hs) Hf. pose proof (valid_height t Hv) as Hh.
  destruct (focus_split h t xs z ys Hr Hin) as (k & c & l & r & Hk & Hlen & -> & ->).
  rewrite Hin in Hh. simpl in Hlen. unfold rb_node_next.
  mrun (successor_spec tr fuel h k c l z r ltac:(lia) ltac:(lia) Hk).
  unfold mret, M_ret. rewrite (or_null_default h _ t); [done..|].
  intros q Hq%head_Some_elem_of. rewrite Hin. set_solver.
Qed.

Lemma prev_represents fuel h xs z ys :
  represents tr key h (xs ++ z :: ys) → (rb_fuel (length (xs ++ z :: ys)) ≤ fuel)%nat →
  rb_node_prev fuel tr z h = Ret (default NULL (last xs), h).
Proof.
  intros (t & Hr & Hv & Hin & Hs) Hf. pose proof (valid_height t Hv) as Hh.
  destruct (focus_split h t xs z ys Hr Hin) as (k & c & l & r & Hk & Hlen & -> & ->).
  rewrite Hin in Hh. simpl in Hlen. unfold rb_node_prev.
  mrun (predecessor_spec tr fuel h k c l z r ltac:(lia) ltac:(lia) Hk).
  unfold mret, M_ret. rewrite (or_null_default h _ t); [done..|].
  intros q Hq%last_Some_elem_of. rewrite Hin. set_solver.
Qed.

Lemma search_represents fuel h xs cmp v :
  represents tr key h xs → (rb_fuel (length xs) ≤ fuel)%nat → keyed_search key cmp v →
  NULL ∉ xs →
  ∃ p, rb_search fuel tr cmp h = Ret (p, h) ∧
    (p ∈ xs ∧ key p = v ∨ p = NULL ∧ ∀ q, q ∈ xs → key q ≠ v).
Proof.
  intros (t & Hr & Hv & <- & Hs) Hf Hc Hnull. pose proof (valid_height t Hv) as Hh.
  pose proof (rep_top _ _ _ _ Hr) as Ht. simpl in Ht.
  exists (default NULL (tsearch cmp t)). split.
  - unfold rb_search. hstep. simpl.
    mrun (search_loop_spec tr cmp fuel h [] t ltac:(lia) Hr).
    unfold mret, M_ret. do 2 f_equal.
    change (or_null tr (default (nil tr) (tsearch cmp t)) = default NULL (tsearch cmp t)).
    eapply (or_null_default h); [done|]. by intros q [? _]%tsearch_sound.
  - destruct (tsearch cmp t) as [p|] eqn:E; simpl.
    + left. apply tsearch_sound in E as [Hin H0]. split; [done|]. specialize (Hc p). lia.
    + right. split; [done|]. intros q Hq Hkq.
      eapply tsearch_complete; [done|done|exact Hq| |exact E]. specialize (Hc q). lia.
Qed.

Lemma check_represents fuel h xs :
  keyed tr key → represents tr key h xs → (rb_fuel (length xs) ≤ fuel)%nat →
  Z.of_nat (length xs) < 2 ^ 32 →
  ∃ n, (l ← get_child Left (root tr); check_tree fuel tr l) h = Ret (n, h) ∧ 1 ≤ n ≤ 33.
Proof.
  intros Hkey (t & Hr & Hv & <- & Hs) Hf Hlen. pose proof (valid_height t Hv) as Hh.
  destruct Hv as [_ [n Hn]]. pose proof (rbt_size _ _ Hn) as Hsz.
  assert (Z.of_nat n ≤ 32).
  { assert (2 ^ Z.of_nat n < 2 ^ 33) as ?%Z.pow_lt_mono_r_iff; [|lia..].
    apply Nat2Z.inj_le in Hsz.
    rewrite Nat2Z.inj_pow in Hsz. change (Z.of_nat 2) with 2 in Hsz. lia. }
  pose proof (rep_top _ _ _ _ Hr) as Ht. simpl in Ht.
  exists (Z.of_nat n + 1). split; [|lia]. hstep. simpl.
  apply (check_tree_spec tr key fuel h [] t n); try done; lia.
Qed.
End Queries.

(** ** Creation and destruction

    What rb_tree.c relies on of kmalloc and kfree, with [live s] the addresses
    of the allocated objects. *)
Class KmallocSpec {S} (nodes : lens S heap) (live : S → gset Z)
    (kmalloc : Z → M S Z) (kfree : Z → M S unit) : Prop := {
  kmalloc_ok n s : ∃ p s', kmalloc n s = Ret (p, s') ∧
    (∀ q, q ∈ live s → view nodes s' !! q = view nodes s !! q) ∧
    (p = NULL ∧ live s' = live s ∨
     p ≠ NULL ∧ p ∉ live s ∧ live s' = {[p]} ∪ live s);
  kfree_ok p s : p ∈ live s → ∃ s', kfree p s = Ret ((), s') ∧
    live s' = live s ∖ {[p]} ∧
    (∀ q, q ∈ live s' → view nodes s' !! q = view nodes s !! q);
  live_over h s : live (over nodes h s) = live s }.

Lemma rep_empty tr h :
  h !! nil tr = Some (RbNode false (nil tr) (nil tr) (nil tr)) →
  h !! root tr = Some (RbNode false (nil tr) (nil tr) (nil tr)) → nil tr ≠ root tr →
  ∀ key, represents tr key h [].
Proof.
  intros Hn Hr Hne key. exists L. split_and!; try done.
  - split; [by repeat constructor| |by eexists].
    simpl. apply NoDup_cons. split; [set_solver + Hne|]. apply NoDup_singleton.
  - split; [done|]. by exists O.
  - constructor.
Qed.

Section Create.
Context {S : Type} (nodes : lens S heap) `{!LensLaws nodes} (live : S → gset Z).
Context (kmalloc : Z → M S Z) (kfree : Z → M S unit).
Context `{HK : !KmallocSpec nodes live kmalloc kfree}.

Definition created (cmp : Z → Z → Z) (s s' : S) (r : option (Z * rb_tree)) : Prop :=
  match r with
  | None => live s' = live s
  | Some (a, tr) =>
    compare tr = cmp ∧ live s' = {[a; nil tr; root tr]} ∪ live s ∧
    ({[a; nil tr; root tr]} : gset Z) ## live s ∧ NoDup [a; nil tr; root tr] ∧
    NULL ∉ [a; nil tr; root tr] ∧
    (∀ key, represents tr key (view nodes s') [])
  end ∧ ∀ q, q ∈ live s → view nodes s' !! q = view nodes s !! q.

Lemma zoom_insert p n s :
  zoom nodes (modify (insert p n)) s = Ret ((), over nodes (<[p := n]> (view nodes s)) s).
Proof. done. Qed.

Lemma create_spec cmp s :
  ∃ r s', rb_tree_create nodes kmalloc kfree cmp s = Ret (r, s') ∧ created cmp s s' r.
Proof using HK LensLaws0.
  unfold rb_tree_create, rb_node_create.
  destruct (kmalloc_ok sizeof_rb_tree s) as (a & s1 & E1 & F1 & H1). mrun E1.
  destruct H1 as [[-> L1]|(Ha & Hal & L1)].
  { rewrite bool_decide_true by done. by exists None, s1. }
  rewrite bool_decide_false by done.
  destruct (kmalloc_ok sizeof_rb_node s1) as (n & s2 & E2 & F2 & H2). mrun E2.
  destruct H2 as [[-> L2]|(Hn & Hnl & L2)].
  { rewrite bool_decide_true by done.
    destruct (kfree_ok a s2) as (s3 & E3 & L3 & F3); [set_solver + L1 L2|]. mrun E3.
    exists None, s3. split; [done|]. split; [set_solver + L1 L2 L3 Hal|].
    intros q Hq. rewrite F3, F2, F1; [done|set_solver + L1 L2 L3 Hal Hq..]. }
  rewrite bool_decide_false by done. rewrite (bind_Ret _ _ _ _ _ (zoom_insert _ _ _)).
  set (s2' := over nodes _ s2).
  destruct (kmalloc_ok sizeof_rb_node s2') as (r & s3 & E3 & F3 & H3). mrun E3.
  assert (Hl2 : live s2' = live s2) by apply live_over. rewrite Hl2 in H3.
  assert (Hv2 : view nodes s2' = <[n := RbNode false n n n]> (view nodes s2)) by apply view_over.
  destruct H3 as [[-> L3]|(Hr & Hrl & L3)].
  { rewrite bool_decide_true by done.
    destruct (kfree_ok n s3) as (s4 & E4 & L4 & F4); [set_solver + L2 L3|]. mrun E4.
    destruct (kfree_ok a s4) as (s5 & E5 & L5 & F5); [set_solver + L1 L2 L3 L4 Hnl|]. mrun E5.
    exists None, s5. rewrite Hl2 in F3.
    assert (live s4 = live s1) as L4' by (rewrite L4, L3, L2; set_solver + Hnl).
    assert (live s5 = live s) as L5' by (rewrite L5, L4', L1; set_solver + Hal).
    split; [done|]. split; [done|].
    intros q Hq.
    rewrite F5, F4, F3, Hv2, lookup_insert_ne, F2, F1;
      [done|set_solver + L1 L2 L4' L5' Hq Hnl..]. }
  rewrite bool_decide_false by done. rewrite (bind_Ret _ _ _ _ _ (zoom_insert _ _ _)).
  rewrite Hl2 in F3. rewrite L2, L1 in Hrl. rewrite L1 in Hnl.
  eexists _, _. split; [done|]. split; rewrite ?view_over, ?live_over; simpl.
  - rewrite L3, L2, L1.
    split_and!; [done|set_solver +|set_solver + Hal Hnl Hrl| |set_solver + Ha Hn Hr|].
    + rewrite !NoDup_cons, !not_elem_of_cons.
      split_and!; [set_solver + Hnl|set_solver + Hrl|set_solver +|set_solver + Hrl|set_solver +|set_solver +|].
      apply NoDup_nil_2.
    + apply rep_empty; simpl; [|by rewrite lookup_insert_eq|set_solver + Hrl].
      rewrite lookup_insert_ne by set_solver + Hrl.
      rewrite F3, Hv2 by (rewrite L2; set_solver +). by rewrite lookup_insert_eq.
  - intros q Hq. rewrite lookup_insert_ne by (intros ->; set_solver + Hrl Hq).
    rewrite F3 by (rewrite L2, L1; set_solver + Hq).
    rewrite Hv2, lookup_insert_ne by (intros ->; set_solver + Hnl Hq).
    rewrite F2, F1; [done|done|rewrite L1; set_solver + Hq].
Qed.

Lemma destroy_spec a tr s :
  ({[a; nil tr; root tr]} : gset Z) ⊆ live s → NoDup [a; nil tr; root tr] →
  ∃ s', rb_tree_destroy kfree a tr s = Ret ((), s') ∧
    live s' = live s ∖ {[a; nil tr; root tr]} ∧
    (∀ q, q ∈ live s' → view nodes s' !! q = view nodes s !! q).
Proof using HK.
  intros Hl Hnd. unfold rb_tree_destroy. rewrite !NoDup_cons, !not_elem_of_cons in Hnd.
  destruct (kfree_ok (root tr) s) as (s1 & E1 & L1 & F1); [set_solver + Hl|]. mrun E1.
  destruct (kfree_ok (nil tr) s1) as (s2 & E2 & L2 & F2); [set_solver + Hl Hnd L1|]. mrun E2.
  destruct (kfree_ok a s2) as (s3 & E3 & L3 & F3); [set_solver + Hl Hnd L1 L2|]. rewrite E3.
  exists s3. split; [done|]. split; [set_solver + L1 L2 L3|].
  intros q Hq. rewrite F3, F2, F1; [done|set_solver + L1 L2 L3 Hq..].
Qed.
End Create.

(** ** A concrete tree, for the examples *)
Definition ex_tr : rb_tree := RbTree (λ a b, a - b) 1 2.
Definition ex_heap : heap :=
  list_to_map ((λ p, (p, RbNode false 1 1 1)) <$> [1; 2; 10; 11; 12; 13; 14; 15; 16]).
Definition ex_ops : list rb_op :=
  [Insert 12; Insert 10; Insert 11; Insert 13; Delete 11; Insert 15; Insert 14].
Definition ex_full : heap :=
  match run_ops ex_tr 16 ex_ops ex_heap with Ret (_, h) => h | _ => ∅ end.

Lemma ex_keyed : keyed ex_tr id.
Proof. by intros a b. Qed.
Lemma ex_empty : represents ex_tr id ex_heap [].
Proof. by apply rep_empty. Qed.
Lemma ex_full_represents : represents ex_tr id ex_full [10; 12; 13; 14; 15].
Proof.
  destruct (run_ops_represents ex_tr id ex_keyed 16 ex_heap [] ex_ops ex_empty) as (h' & E & R).
  - vm_compute. lia.
  - by vm_compute.
  - unfold ex_full. rewrite E. exact R.
Qed.

(** ** The properties *)

(** C1. The red-black tree refines a sorted list: any sequence of rb_insert and
    rb_delete calls whose nodes are owned by the caller as required returns
    without a panic or a bad access, and leaves a valid red-black tree whose
    in-order listing is what the same sequence of insertions (behind equal
    keys) and deletions makes of the list. *)
Theorem rb_ops_refine tr key fuel h xs os :
  keyed tr key → represents tr key h xs → (rb_fuel (length xs + length os) ≤ fuel)%nat →
  ops_ok tr key (dom h) os xs = true →
  ∃ h', run_ops tr fuel os h = Ret ((), h') ∧ represents tr key h' (spec_ops key os xs).
Proof. intros. by apply run_ops_represents. Qed.

Lemma rb_ops_refine_witness :
  ∃ h', run_ops ex_tr 16 ex_ops ex_heap = Ret ((), h') ∧
    represents ex_tr id h' [10; 12; 13; 14; 15].
Proof.
  apply (rb_ops_refine ex_tr id 16 ex_heap [] ex_ops).
  - by intros a b.
  - apply ex_empty.
  - vm_compute. lia.
  - by vm_compute.
Defined.

(** rb_insert returns, inserts the node behind those with keys not greater,
    keeps the red-black invariant, and changes no cell outside the tree and
    the node. *)
Theorem rb_insert_correct tr key fuel h xs z :
  keyed tr key → represents tr key h xs → (rb_fuel (length xs) ≤ fuel)%nat →
  z ∉ footprint tr xs → is_Some (h !! z) →
  ∃ h', rb_insert fuel tr z h = Ret ((), h') ∧ represents tr key h' (sinsert key z xs) ∧
    (∀ q, q ∉ footprint tr (z :: xs) → h' !! q = h !! q).
Proof.
  intros Hk Hr Hf Hz Hin.
  destruct (insert_represents tr key Hk fuel h xs z Hr Hf Hz Hin) as (h' & ? & ? & _ & ?).
  by exists h'.
Qed.

Lemma rb_insert_correct_witness :
  ∃ h', rb_insert 8 ex_tr 11 ex_full = Ret ((), h') ∧
    represents ex_tr id h' [10; 11; 12; 13; 14; 15] ∧ h' !! 16 = ex_full !! 16.
Proof.
  destruct (rb_insert_correct ex_tr id 8 ex_full [10; 12; 13; 14; 15] 11) as (h' & E & R & F).
  - by intros a b.
  - apply ex_full_represents.
  - vm_compute. lia.
  - decide_now.
  - eexists. by vm_compute.
  - exists h'. split; [exact E|]. split; [exact R|]. apply F. decide_now.
Defined.

(** C29. rb_delete of a node of the tree returns, removes exactly that node,
    keeps the red-black invariant (rb_delete_fixup restores the black heights
    in every case, although its local variable root can be stale after a
    rotation at the root) and changes no cell outside the tree. *)
Theorem rb_delete_correct tr key fuel h xs z :
  represents tr key h xs → (rb_fuel (length xs) ≤ fuel)%nat → z ∈ xs →
  ∃ h', rb_delete fuel tr z h = Ret ((), h') ∧ represents tr key h' (sdelete z xs) ∧
    (∀ q, q ∉ footprint tr xs → h' !! q = h !! q).
Proof.
  intros Hr Hf Hz. destruct (delete_represents tr key fuel h xs z Hr Hf Hz) as (h' & ? & ? & _ & ?).
  by exists h'.
Qed.

Lemma rb_delete_correct_witness :
  ∃ h', rb_delete 8 ex_tr 12 ex_full = Ret ((), h') ∧
    represents ex_tr id h' [10; 13; 14; 15] ∧ h' !! 16 = ex_full !! 16.
Proof.
  destruct (rb_delete_correct ex_tr id 8 ex_full [10; 12; 13; 14; 15] 12) as (h' & E & R & F).
  - apply ex_full_represents.
  - vm_compute. lia.
  - decide_now.
  - exists h'. split; [exact E|]. split; [exact R|]. apply F. decide_now.
Defined.

(** rb_search with a comparison that agrees with the key order returns a
    node with the key when the tree has one and NULL exactly when it has
    none, and changes nothing. *)
Theorem rb_search_correct tr key fuel h xs cmp v :
  represents tr key h xs → (rb_fuel (length xs) ≤ fuel)%nat → keyed_search key cmp v →
  NULL ∉ xs →
  ∃ p, rb_search fuel tr cmp h = Ret (p, h) ∧
    (p ∈ xs ∧ key p = v ∨ p = NULL ∧ ∀ q, q ∈ xs → key q ≠ v).
Proof. apply search_represents. Qed.

Lemma rb_search_correct_witness :
  ∃ p, rb_search 8 ex_tr (λ n, n - 13) ex_full = Ret (p, ex_full) ∧
    (p ∈ [10; 12; 13; 14; 15] ∧ p = 13 ∨ p = NULL ∧ ∀ q, q ∈ [10; 12; 13; 14; 15] → q ≠ 13).
Proof.
  apply (rb_search_correct ex_tr id 8 ex_full [10; 12; 13; 14; 15] (λ n, n - 13) 13).
  - apply ex_full_represents.
  - vm_compute. lia.
  - by intros n.
  - decide_now.
Defined.

(** rb_node_next and rb_node_prev return the neighbours of a node in the
    in-order listing, and NULL at its ends. *)
Theorem rb_neighbours_correct tr key fuel h xs z ys :
  represents tr key h (xs ++ z :: ys) → (rb_fuel (length (xs ++ z :: ys)) ≤ fuel)%nat →
  rb_node_next fuel tr z h = Ret (default NULL (head ys), h) ∧
  rb_node_prev fuel tr z h = Ret (default NULL (last xs), h).
Proof. intros Hr Hf. split; [by eapply next_represents|by eapply prev_represents]. Qed.

Lemma rb_neighbours_correct_witness :
  rb_node_next 8 ex_tr 12 ex_full = Ret (13, ex_full) ∧
  rb_node_prev 8 ex_tr 12 ex_full = Ret (10, ex_full).
Proof.
  apply (rb_neighbours_correct ex_tr id 8 ex_full [10] 12 [13; 14; 15]).
  - apply ex_full_represents.
  - vm_compute. lia.
Defined.

(** check_tree, the kernel's own checker, called on the root of a tree of
    fewer than 2^32 nodes, returns without violating any of its assertions,
    and the black height it reports is at most 33. *)
Theorem rb_check_tree_passes tr key fuel h xs :
  keyed tr key → represents tr key h xs → (rb_fuel (length xs) ≤ fuel)%nat →
  Z.of_nat (length xs) < 2 ^ 32 →
  ∃ n, (l ← get_child Left (root tr); check_tree fuel tr l) h = Ret (n, h) ∧ 1 ≤ n ≤ 33.
Proof. intros. by eapply check_represents. Qed.

Lemma rb_check_tree_passes_witness :
  ∃ n, (l ← get_child Left 2; check_tree 8 ex_tr l) ex_full = Ret (n, ex_full) ∧ 1 ≤ n ≤ 33.
Proof.
  apply (rb_check_tree_passes ex_tr id 8 ex_full [10; 12; 13; 14; 15]).
  - by intros a b.
  - apply ex_full_represents.
  - vm_compute. lia.
  - by vm_compute.
Defined.

(** rb_tree_create either fails with every allocation undone, or returns a
    tree that represents the empty list in three fresh blocks; in both cases
    no live object is disturbed. *)
Theorem rb_tree_create_correct {S} (nodes : lens S heap) live kmalloc kfree cmp s :
  LensLaws nodes → KmallocSpec nodes live kmalloc kfree →
  ∃ r s', rb_tree_create nodes kmalloc kfree cmp s = Ret (r, s') ∧
    created nodes live cmp s s' r.
Proof. intros. by apply create_spec. Qed.

(** A small allocator that never fails. *)
Definition ex_state : Type := gset Z * heap.
Definition ex_nodes : lens ex_state heap := Lens snd (λ h s, (s.1, h)).
Definition ex_kmalloc (n : Z) : M ex_state Z := λ s,
  let p := fresh ({[0]} ∪ s.1) in Ret (p, ({[p]} ∪ s.1, s.2)).
Definition ex_kfree (p : Z) : M ex_state unit := λ s, Ret ((), (s.1 ∖ {[p]}, s.2)).

Lemma rb_tree_create_correct_witness :
  ∃ r s', rb_tree_create ex_nodes ex_kmalloc ex_kfree Z.sub (∅, ∅) = Ret (r, s') ∧
    created ex_nodes fst Z.sub (∅, ∅) s' r.
Proof.
  apply rb_tree_create_correct.
  - split; [done|by intros []|done].
  - split.
    + intros n s. eexists _, _. split; [done|]. split; [done|]. right.
      pose proof (is_fresh ({[0]} ∪ s.1 : gset Z)) as Hf.
      split_and!; [set_solver + Hf|set_solver + Hf|done].
    + intros p s Hp. eexists. split; [done|]. by split.
    + done.
Defined.
