(* ===== verification/Bits.v ===== *)
(** * Bit operations, atomics, locks and small arithmetic

    include/types.h (rounding), include/bitops.h and bitops/non-atomic.h, the
    x86 and ARM bit operations and atomic counters, include/lock.h, the two
    implementations of do_div, lib/hash.c and lib/rand.c.  The three families
    of bit operations (plain C, x86 instructions, ARM with interrupts off)
    are shown to be the same operation on an array of bits. *)
From stdpp Require Import base gmap list fin_maps.
From Stdlib Require Import ZArith Lia.
From S2P Require Import Prelude.

(** ** include/types.h *)
Definition ROUNDDOWN (a n : Z) : Z := let a := u32 a in u32 (a - a mod n).
Definition ROUNDUP (a n : Z) : Z := let n := u32 n in ROUNDDOWN (u32 (u32 (u32 a + n) - 1)) n.

(** ** include/bitops.h *)
Definition BITS_PER_LONG : Z := 32.
Definition BIT_MASK (nr : Z) : Z := u32 (Z.shiftl 1 (u32 nr mod BITS_PER_LONG)).
Definition BIT_WORD (nr : Z) : Z := u32 nr / BITS_PER_LONG.

(** A rotation of a [w]-bit word; the shifts by [w - shift] are undefined in C
    when [shift] is 0. *)
Definition rol (w word shift : Z) : Z :=
  Z.lor (Z.shiftl word shift) (Z.shiftr word (w - shift)) mod 2 ^ w.
Definition ror (w word shift : Z) : Z :=
  Z.lor (Z.shiftr word shift) (Z.shiftl word (w - shift)) mod 2 ^ w.
Definition rol32 : Z → Z → Z := rol 32.
Definition ror32 : Z → Z → Z := ror 32.
Definition rol16 : Z → Z → Z := rol 16.
Definition ror16 : Z → Z → Z := ror 16.
Definition rol8 : Z → Z → Z := rol 8.
Definition ror8 : Z → Z → Z := ror 8.
Definition sign_extend32 (value index : Z) : Z :=
  let shift := u8 (31 - index) in Z.shiftr (s32 (u32 (Z.shiftl value shift))) shift.

(** ** Arrays of words *)
Abbreviation words := (gmap Z Z).
Definition load (i : Z) : M words Z := λ m,
  match m !! i with Some w => Ret (w, m) | None => Fault end.
Definition store (i v : Z) : M words unit := λ m,
  match m !! i with Some _ => Ret ((), <[i := v]> m) | None => Fault end.

(** ** include/bitops/non-atomic.h *)
Definition __set_bit (nr : Z) : M words unit :=
  let mask := BIT_MASK nr in let p := BIT_WORD nr in
  old ← load p; store p (Z.lor old mask).
Definition __clear_bit (nr : Z) : M words unit :=
  let mask := BIT_MASK nr in let p := BIT_WORD nr in
  old ← load p; store p (Z.land old (u32 (Z.lnot mask))).
Definition __change_bit (nr : Z) : M words unit :=
  let mask := BIT_MASK nr in let p := BIT_WORD nr in
  old ← load p; store p (Z.lxor old mask).
Definition __test_and_set_bit (nr : Z) : M words bool :=
  let mask := BIT_MASK nr in let p := BIT_WORD nr in
  old ← load p; store p (Z.lor old mask);; mret (bool_decide (Z.land old mask ≠ 0)).
Definition __test_and_clear_bit (nr : Z) : M words bool :=
  let mask := BIT_MASK nr in let p := BIT_WORD nr in
  old ← load p; store p (Z.land old (u32 (Z.lnot mask)));;
  mret (bool_decide (Z.land old mask ≠ 0)).
Definition __test_and_change_bit (nr : Z) : M words bool :=
  let mask := BIT_MASK nr in let p := BIT_WORD nr in
  old ← load p; store p (Z.lxor old mask);; mret (bool_decide (Z.land old mask ≠ 0)).
Definition test_bit (nr : Z) : M words Z :=
  w ← load (BIT_WORD nr);
  mret (Z.land 1 (Z.shiftr w (Z.land (u32 nr) (BITS_PER_LONG - 1)))).

(** ** arch/x86/include/asm/bitops.h

    bts, btr and btc with a memory operand: the signed bit offset selects the
    word and the bit, and the carry flag receives the old bit, which sbb turns
    into 0 or -1. *)
Definition x86_bt (f : Z → Z → Z) (nr : Z) : M words bool :=
  let p := Z.shiftr nr 5 in let mask := Z.shiftl 1 (Z.land nr 31) in
  old ← load p; store p (f old mask);; mret (Z.testbit old (Z.land nr 31)).
Definition bts : Z → M words bool := x86_bt Z.lor.
Definition btr : Z → M words bool := x86_bt (λ w m, Z.land w (u32 (Z.lnot m))).
Definition btc : Z → M words bool := x86_bt Z.lxor.
Definition sbb (carry : bool) : Z := if carry then -1 else 0.

Definition x86_set_bit (nr : Z) : M words unit := bts nr;; skip.
Definition x86_clear_bit (nr : Z) : M words unit := btr nr;; skip.
Definition x86_change_bit (nr : Z) : M words unit := btc nr;; skip.
Definition x86_test_and_set_bit (nr : Z) : M words bool :=
  cf ← bts nr; let oldbit := sbb cf in mret (bool_decide (oldbit ≠ 0)).
Definition x86_test_and_clear_bit (nr : Z) : M words bool :=
  cf ← btr nr; let oldbit := sbb cf in mret (bool_decide (oldbit ≠ 0)).
Definition x86_test_and_change_bit (nr : Z) : M words bool :=
  cf ← btc nr; let oldbit := sbb cf in mret (bool_decide (oldbit ≠ 0)).

(** ** Interrupt state on ARM: arch/arm/include/asm/irqflags.h

    The program status word beside the memory; bit 7 masks interrupts. *)
Definition arch_local_irq_save {T} : M (Z * T) Z := λ s,
  Ret (s.1, (Z.lor s.1 128, s.2)).
(** msr cpsr_c writes the low eight bits. *)
Definition arch_local_irq_restore {T} (flags : Z) : M (Z * T) unit := λ s,
  Ret ((), (Z.lor (Z.land s.1 (Z.lnot 255)) (Z.land flags 255), s.2)).
Definition memory {T} : lens (Z * T) T := Lens snd (λ t s, (s.1, t)).

(** raw_local_irq_save(flags); ...; raw_local_irq_restore(flags); *)
Definition irq_off {T A} (m : M T A) : M (Z * T) A :=
  flags ← arch_local_irq_save; r ← zoom memory m; arch_local_irq_restore flags;; mret r.

(** ** arch/arm/include/asm/bitops.h *)
Definition arm_set_bit (bit : Z) : M (Z * words) unit :=
  let mask := Z.shiftl 1 (Z.land bit 31) in let p := Z.shiftr bit 5 in
  irq_off (w ← load p; store p (Z.lor w mask)).
Definition arm_clear_bit (bit : Z) : M (Z * words) unit :=
  let mask := Z.shiftl 1 (Z.land bit 31) in let p := Z.shiftr bit 5 in
  irq_off (w ← load p; store p (Z.land w (u32 (Z.lnot mask)))).
Definition arm_change_bit (bit : Z) : M (Z * words) unit :=
  let mask := Z.shiftl 1 (Z.land bit 31) in let p := Z.shiftr bit 5 in
  irq_off (w ← load p; store p (Z.lxor w mask)).
Definition arm_test_and_set_bit (bit : Z) : M (Z * words) bool :=
  let mask := Z.shiftl 1 (Z.land bit 31) in let p := Z.shiftr bit 5 in
  res ← irq_off (res ← load p; store p (Z.lor res mask);; mret res);
  mret (bool_decide (Z.land res mask ≠ 0)).
Definition arm_test_and_clear_bit (bit : Z) : M (Z * words) bool :=
  let mask := Z.shiftl 1 (Z.land bit 31) in let p := Z.shiftr bit 5 in
  res ← irq_off (res ← load p; store p (Z.land res (u32 (Z.lnot mask)));; mret res);
  mret (bool_decide (Z.land res mask ≠ 0)).
Definition arm_test_and_change_bit (bit : Z) : M (Z * words) bool :=
  let mask := Z.shiftl 1 (Z.land bit 31) in let p := Z.shiftr bit 5 in
  res ← irq_off (res ← load p; store p (Z.lxor res mask);; mret res);
  mret (bool_decide (Z.land res mask ≠ 0)).

(** ** Facts about words *)
Lemma u32_testbit z j : 0 ≤ j → Z.testbit (u32 z) j = bool_decide (j < 32) && Z.testbit z j.
Proof.
  intros Hj. unfold u32. case_bool_decide.
  - by rewrite Z.mod_pow2_bits_low.
  - rewrite Z.mod_pow2_bits_high by lia. done.
Qed.

Lemma pow2_testbit k j : 0 ≤ k → Z.testbit (Z.shiftl 1 k) j = bool_decide (j = k).
Proof.
  intros Hk. rewrite Z.shiftl_1_l, Z.pow2_bits_eqb by done.
  case_bool_decide; [subst; by rewrite Z.eqb_refl|]. apply Z.eqb_neq. lia.
Qed.

Lemma land_pow2_ne0 w k : 0 ≤ k → bool_decide (Z.land w (Z.shiftl 1 k) ≠ 0) = Z.testbit w k.
Proof.
  intros Hk. destruct (Z.testbit w k) eqn:E.
  - apply bool_decide_true. intros H0.
    assert (Z.testbit (Z.land w (Z.shiftl 1 k)) k = true) as Hb.
    { rewrite Z.land_spec, E, pow2_testbit by done. by rewrite bool_decide_true. }
    by rewrite H0, Z.bits_0 in Hb.
  - apply bool_decide_false. intros Hn. apply Hn. apply Z.bits_inj_0. intros j.
    rewrite Z.land_spec, pow2_testbit by done. case_bool_decide; [subst; by rewrite E|].
    by rewrite andb_false_r.
Qed.

Lemma land31 nr : Z.land nr 31 = nr mod 32.
Proof. change 31 with (Z.ones 5). by rewrite Z.land_ones. Qed.
Lemma shiftr5 nr : Z.shiftr nr 5 = nr / 32.
Proof. by rewrite Z.shiftr_div_pow2. Qed.

Lemma BIT_MASK_pow2 nr : 0 ≤ nr < 2 ^ 31 → BIT_MASK nr = Z.shiftl 1 (nr mod 32).
Proof.
  intros H. unfold BIT_MASK, BITS_PER_LONG. rewrite (u32_small nr) by (unfold is_u32; lia).
  apply u32_small. rewrite Z.shiftl_1_l. pose proof (Z.mod_pos_bound nr 32).
  split; [lia|]. apply Z.pow_lt_mono_r; lia.
Qed.
Lemma BIT_WORD_div nr : 0 ≤ nr < 2 ^ 31 → BIT_WORD nr = nr / 32.
Proof. intros H. unfold BIT_WORD, BITS_PER_LONG. rewrite u32_small; [done|]. unfold is_u32; lia. Qed.

(** ** The array of bits *)
Definition bit (m : words) (j : Z) : bool :=
  match m !! (j / 32) with Some w => Z.testbit w (j mod 32) | None => false end.
Definition words_ok (m : words) : Prop := map_Forall (λ _ w, is_u32 w) m.

Inductive bitop : Type := OSet | OClear | OChange.
Definition bit_fn (o : bitop) (b : bool) : bool :=
  match o with OSet => true | OClear => false | OChange => negb b end.
Definition word_fn (o : bitop) (w mask : Z) : Z :=
  match o with
  | OSet => Z.lor w mask | OClear => Z.land w (u32 (Z.lnot mask)) | OChange => Z.lxor w mask
  end.

(** [m'] is [m] with bit [nr] replaced by [f] of its old value. *)
Definition bit_update (f : bool → bool) (nr : Z) (m m' : words) : Prop :=
  dom m' = dom m ∧ words_ok m' ∧
  ∀ j, 0 ≤ j → bit m' j = if bool_decide (j = nr) then f (bit m nr) else bit m j.

Lemma is_u32_bits w : is_u32 w ↔ 0 ≤ w ∧ ∀ j, 32 ≤ j → Z.testbit w j = false.
Proof.
  unfold is_u32. split.
  - intros [H0 H1]. split; [done|]. intros j Hj. destruct (decide (w = 0)) as [->|]; [apply Z.bits_0|].
    apply Z.bits_above_log2; [done|]. apply Z.log2_lt_pow2; [lia|].
    eapply Z.lt_le_trans; [done|]. apply Z.pow_le_mono_r; lia.
  - intros [H0 Hb]. split; [done|]. destruct (decide (w = 0)) as [->|]; [lia|].
    apply Z.log2_lt_pow2; [lia|]. apply Z.nle_gt. intros Hl.
    specialize (Hb _ Hl). rewrite Z.bit_log2 in Hb by lia. done.
Qed.

Lemma word_fn_bit o w k j : is_u32 w → 0 ≤ k < 32 → 0 ≤ j < 32 →
  Z.testbit (word_fn o w (Z.shiftl 1 k)) j =
  if bool_decide (j = k) then bit_fn o (Z.testbit w k) else Z.testbit w j.
Proof.
  intros Hw Hk Hj. destruct o; simpl.
  - rewrite Z.lor_spec, pow2_testbit by lia. case_bool_decide; [by rewrite orb_true_r|].
    apply orb_false_r.
  - rewrite Z.land_spec, u32_testbit, Z.lnot_spec, pow2_testbit by lia.
    rewrite (bool_decide_true (j < 32)) by lia. simpl.
    case_bool_decide; simpl; [apply andb_false_r|apply andb_true_r].
  - rewrite Z.lxor_spec, pow2_testbit by lia. case_bool_decide; [subst; apply xorb_true_r|].
    apply xorb_false_r.
Qed.

Lemma word_fn_u32 o w k : is_u32 w → 0 ≤ k < 32 → is_u32 (word_fn o w (Z.shiftl 1 k)).
Proof.
  intros Hw Hk. pose proof (proj1 (is_u32_bits w) Hw) as [H0 Hb].
  assert (0 ≤ Z.shiftl 1 k) by by apply Z.shiftl_nonneg.
  apply is_u32_bits. destruct o; simpl.
  - split; [by apply Z.lor_nonneg|]. intros j Hj.
    rewrite Z.lor_spec, Hb, pow2_testbit, bool_decide_false by lia. done.
  - split; [apply Z.land_nonneg; by left|]. intros j Hj. by rewrite Z.land_spec, Hb by lia.
  - split; [by apply Z.lxor_nonneg|]. intros j Hj.
    rewrite Z.lxor_spec, Hb, pow2_testbit, bool_decide_false by lia. done.
Qed.

(** The load-modify-store all implementations share. *)
Lemma rmw_spec o nr m :
  0 ≤ nr → words_ok m → is_Some (m !! (nr / 32)) → ∃ w m',
    load (nr / 32) m = Ret (w, m) ∧
    store (nr / 32) (word_fn o w (Z.shiftl 1 (nr mod 32))) m = Ret ((), m') ∧
    Z.testbit w (nr mod 32) = bit m nr ∧ bit_update (bit_fn o) nr m m'.
Proof.
  intros Hnr Hok [w Hw]. pose proof (Z.mod_pos_bound nr 32 ltac:(lia)) as Hk.
  pose proof (Hok _ _ Hw) as Hw32. simpl in Hw32.
  exists w, (<[nr / 32 := word_fn o w (Z.shiftl 1 (nr mod 32))]> m).
  unfold load, store, bit. rewrite Hw. split_and!; try done.
  split_and!.
  - rewrite dom_insert_L. apply elem_of_dom_2 in Hw. set_solver + Hw.
  - apply map_Forall_insert_2; [|done]. by apply word_fn_u32.
  - intros j Hj. unfold bit. rewrite Hw. pose proof (Z.mod_pos_bound j 32 ltac:(lia)) as Hkj.
    destruct (decide (j / 32 = nr / 32)) as [E|E].
    + rewrite E, lookup_insert_eq, Hw, word_fn_bit by done.
      rewrite (bool_decide_ext (j mod 32 = nr mod 32) (j = nr)); [done|].
      split; [|by intros ->]. intros E'.
      rewrite (Z.div_mod j 32), (Z.div_mod nr 32) by lia. congruence.
    + rewrite lookup_insert_ne by done. rewrite bool_decide_false; [done|]. by intros ->.
Qed.

(** ** The three implementations *)
Definition generic_op (o : bitop) : Z → M words unit :=
  match o with OSet => __set_bit | OClear => __clear_bit | OChange => __change_bit end.
Definition generic_test_op (o : bitop) : Z → M words bool :=
  match o with
  | OSet => __test_and_set_bit | OClear => __test_and_clear_bit | OChange => __test_and_change_bit
  end.
Definition x86_op (o : bitop) : Z → M words unit :=
  match o with OSet => x86_set_bit | OClear => x86_clear_bit | OChange => x86_change_bit end.
Definition x86_test_op (o : bitop) : Z → M words bool :=
  match o with
  | OSet => x86_test_and_set_bit | OClear => x86_test_and_clear_bit
  | OChange => x86_test_and_change_bit
  end.
Definition arm_op (o : bitop) : Z → M (Z * words) unit :=
  match o with OSet => arm_set_bit | OClear => arm_clear_bit | OChange => arm_change_bit end.
Definition arm_test_op (o : bitop) : Z → M (Z * words) bool :=
  match o with
  | OSet => arm_test_and_set_bit | OClear => arm_test_and_clear_bit
  | OChange => arm_test_and_change_bit
  end.

Lemma irq_off_run {T A} (m : M T A) c t a t' :
  0 ≤ c → m t = Ret (a, t') → irq_off m (c, t) = Ret (a, (c, t')).
Proof.
  intros Hc E. unfold irq_off. mrun (eq_refl : arch_local_irq_save (c, t) = _).
  assert (zoom memory m (Z.lor c 128, t) = Ret (a, (Z.lor c 128, t'))) as Ez.
  { unfold zoom. simpl. by rewrite E. }
  mrun Ez. unfold arch_local_irq_restore, mbind, M_bind, mret, M_ret. simpl. do 3 f_equal.
  apply Z.bits_inj'. intros j Hj.
  rewrite Z.lor_spec, !Z.land_spec, Z.lnot_spec, Z.lor_spec by done.
  change 255 with (Z.ones 8). change 128 with (2 ^ 7). rewrite Z.testbit_ones, Z.pow2_bits_eqb by lia.
  destruct (Z.leb_spec 0 j), (Z.ltb_spec j 8), (Z.eqb_spec 7 j); try lia; simpl;
    destruct (Z.testbit c j); done.
Qed.

Lemma bitops_spec o nr m c :
  0 ≤ nr < 2 ^ 31 → 0 ≤ c → words_ok m → is_Some (m !! (nr / 32)) → ∃ m',
    bit_update (bit_fn o) nr m m' ∧
    generic_op o nr m = Ret ((), m') ∧ generic_test_op o nr m = Ret (bit m nr, m') ∧
    x86_op o nr m = Ret ((), m') ∧ x86_test_op o nr m = Ret (bit m nr, m') ∧
    arm_op o nr (c, m) = Ret ((), (c, m')) ∧
    arm_test_op o nr (c, m) = Ret (bit m nr, (c, m')).
Proof.
  intros Hnr Hc Hok Hw. pose proof (Z.mod_pos_bound nr 32 ltac:(lia)) as Hk.
  destruct (rmw_spec o nr m) as (w & m' & El & Es & Eb & Hu); [lia|done..|].
  exists m'. split; [done|].
  assert (Hres : bool_decide (Z.land w (Z.shiftl 1 (nr mod 32)) ≠ 0) = bit m nr)
    by (rewrite land_pow2_ne0 by lia; done).
  assert (Hx : x86_bt (word_fn o) nr m = Ret (bit m nr, m')).
  { unfold x86_bt. rewrite land31, shiftr5. mrun El. mrun Es. by rewrite Eb. }
  assert (Hsbb : bool_decide (sbb (bit m nr) ≠ 0) = bit m nr) by by destruct (bit m nr).
  split_and!; destruct o; simpl in *.
  all: try (unfold __set_bit, __clear_bit, __change_bit, __test_and_set_bit, __test_and_clear_bit,
    __test_and_change_bit; rewrite BIT_MASK_pow2, BIT_WORD_div by done; mrun El).
  all: try exact Es.
  all: try (mrun Es; unfold mret, M_ret; by rewrite Hres).
  all: try (unfold x86_set_bit, x86_clear_bit, x86_change_bit, bts, btr, btc; mrun Hx; done).
  all: try (unfold x86_test_and_set_bit, x86_test_and_clear_bit, x86_test_and_change_bit, bts, btr, btc;
    mrun Hx; unfold mret, M_ret; by rewrite Hsbb).
  all: try (unfold arm_set_bit, arm_clear_bit, arm_change_bit; rewrite land31, shiftr5;
    apply irq_off_run; [done|]; mrun El; exact Es).
  all: unfold arm_test_and_set_bit, arm_test_and_clear_bit, arm_test_and_change_bit;
    rewrite land31, shiftr5; erewrite bind_Ret by (apply irq_off_run; [done|]; mrun El; mrun Es; reflexivity);
    unfold mret, M_ret; by rewrite Hres.
Qed.

Lemma test_bit_spec nr m :
  0 ≤ nr < 2 ^ 31 → is_Some (m !! (nr / 32)) → test_bit nr m = Ret (Z.b2z (bit m nr), m).
Proof.
  intros Hnr [w Hw]. unfold test_bit, bit. rewrite BIT_WORD_div by done. rewrite Hw.
  assert (load (nr / 32) m = Ret (w, m)) as El by (unfold load; by rewrite Hw). mrun El.
  unfold BITS_PER_LONG. rewrite u32_small by (unfold is_u32; lia).
  change (32 - 1) with 31. rewrite land31. unfold mret, M_ret. do 2 f_equal.
  rewrite Z.land_comm. change 1 with (Z.ones 1). rewrite Z.land_ones by lia.
  pose proof (Z.mod_pos_bound nr 32). rewrite <-Z.bit0_mod. rewrite Z.shiftr_spec by lia.
  by rewrite Z.add_0_l.
Qed.

(** ** Atomic counters

    arch/x86/include/asm/atomic.h: one instruction on a 32-bit counter each,
    and arch/arm/include/asm/atomic.h: plain C with interrupts off. *)
Definition x86_atomic_read : M Z Z := gets id.
Definition x86_atomic_set (i : Z) : M Z unit := modify (λ _, i).
Definition x86_atomic_add (i : Z) : M Z unit := modify (λ c, s32 (c + i)).
Definition x86_atomic_sub (i : Z) : M Z unit := modify (λ c, s32 (c - i)).
Definition x86_atomic_sub_test_zero (i : Z) : M Z bool :=
  modify (λ c, s32 (c - i));; zf ← gets (λ c, bool_decide (c = 0)); mret zf.
Definition x86_atomic_inc : M Z unit := modify (λ c, s32 (c + 1)).
Definition x86_atomic_dec : M Z unit := modify (λ c, s32 (c - 1)).
Definition x86_atomic_inc_test_zero : M Z bool :=
  modify (λ c, s32 (c + 1));; zf ← gets (λ c, bool_decide (c = 0)); mret zf.
Definition x86_atomic_dec_test_zero : M Z bool :=
  modify (λ c, s32 (c - 1));; zf ← gets (λ c, bool_decide (c = 0)); mret zf.
(** xadd leaves the old counter in the register i. *)
Definition x86_atomic_add_return (i : Z) : M Z Z :=
  old ← gets id; modify (λ c, s32 (c + i));; mret (s32 (old + i)).
Definition x86_atomic_sub_return (i : Z) : M Z Z := x86_atomic_add_return (s32 (- i)).

Definition arm_atomic_read : M (Z * Z) Z := gets snd.
Definition arm_atomic_set (i : Z) : M (Z * Z) unit := zoom memory (modify (λ _, i)).
Definition arm_atomic_add (i : Z) : M (Z * Z) unit := irq_off (modify (λ c, s32 (c + i))).
Definition arm_atomic_sub (i : Z) : M (Z * Z) unit := irq_off (modify (λ c, s32 (c - i))).
Definition arm_atomic_sub_test_zero (i : Z) : M (Z * Z) bool :=
  val ← irq_off (modify (λ c, s32 (c - i));; gets u32); mret (bool_decide (val = 0)).
Definition arm_atomic_inc : M (Z * Z) unit := irq_off (modify (λ c, s32 (c + 1))).
Definition arm_atomic_dec : M (Z * Z) unit := irq_off (modify (λ c, s32 (c - 1))).
Definition arm_atomic_inc_test_zero : M (Z * Z) bool :=
  val ← irq_off (modify (λ c, s32 (c + 1));; gets u32); mret (bool_decide (val = 0)).
Definition arm_atomic_dec_test_zero : M (Z * Z) bool :=
  val ← irq_off (modify (λ c, s32 (c - 1));; gets u32); mret (bool_decide (val = 0)).
Definition arm_atomic_add_return (i : Z) : M (Z * Z) Z :=
  val ← irq_off (modify (λ c, s32 (c + i));; gets u32); mret (s32 val).
Definition arm_atomic_sub_return (i : Z) : M (Z * Z) Z := arm_atomic_add_return (s32 (- i)).

Definition is_s32 (z : Z) : Prop := - 2 ^ 31 ≤ z < 2 ^ 31.

Lemma s32_range z : is_s32 (s32 z).
Proof. unfold is_s32, s32. pose proof (Z.mod_pos_bound (z + 2 ^ 31) (2 ^ 32)). lia. Qed.
Lemma s32_u32 z : s32 (u32 z) = s32 z.
Proof. unfold s32, u32. rewrite Z.add_mod_idemp_l by lia. done. Qed.
Lemma u32_s32 z : u32 (s32 z) = u32 z.
Proof.
  unfold s32, u32. rewrite Zminus_mod_idemp_l. f_equal. lia.
Qed.
Lemma u32_zero z : is_s32 z → u32 z = 0 ↔ z = 0.
Proof.
  unfold is_s32, u32. intros Hz. split; [|by intros ->]. intros E.
  apply Z.mod_divide in E as [k ->]; lia.
Qed.
Lemma s32_add_l a b : s32 (s32 a + b) = s32 (a + b).
Proof.
  unfold s32.
  replace ((a + 2 ^ 31) mod 2 ^ 32 - 2 ^ 31 + b + 2 ^ 31) with ((a + 2 ^ 31) mod 2 ^ 32 + b) by lia.
  rewrite Z.add_mod_idemp_l by lia. do 2 f_equal. lia.
Qed.

Lemma test_zero_agree z :
  bool_decide (u32 (s32 z) = 0) = bool_decide (s32 z = 0).
Proof. apply bool_decide_ext, u32_zero, s32_range. Qed.

(** ** include/lock.h

    The lock is the bit 0 of a word.  The calls as wholes; [Lock] models how
    several processes run them, and lock, which waits for the others. *)
Definition lock_init : M words unit := store 0 0.
Definition try_lock : M words bool := b ← x86_test_and_set_bit 0; mret (negb b).
Definition unlock : M words unit :=
  b ← x86_test_and_clear_bit 0; if negb b then panic else skip.

(** ** do_div: arch/x86/include/div64.h

    divl divides the 64-bit value upper:low; it traps when the quotient does
    not fit in 32 bits. *)
Definition divl (upper low base : Z) : option (Z * Z) :=
  let n := upper * 2 ^ 32 + low in
  if bool_decide (base = 0 ∨ 2 ^ 32 ≤ n / base) then None else Some (n / base, n mod base).

(** The remainder and the new value of [n]. *)
Definition arch_do_div (n base : Z) : option (Z * Z) :=
  let low := u32 n in let high := Z.shiftr n 32 in
  '(upper, high) ← (if bool_decide (high ≠ 0) then
                      if bool_decide (base = 0) then None else Some (high mod base, high / base)
                    else Some (high, high));
  '(low, mod_) ← divl upper low base;
  Some (mod_, high * 2 ^ 32 + low).

Lemma arch_do_div_spec n base :
  0 ≤ n < 2 ^ 64 → 0 < base < 2 ^ 32 → arch_do_div n base = Some (n mod base, n / base).
Proof.
  intros Hn Hb. unfold arch_do_div, divl, u32. rewrite Z.shiftr_div_pow2 by lia.
  set (hi := n / 2 ^ 32). set (lo := n mod 2 ^ 32).
  assert (En : n = hi * 2 ^ 32 + lo) by (unfold hi, lo; pose proof (Z.div_mod n (2 ^ 32)); lia).
  assert (Hlo : 0 ≤ lo < 2 ^ 32) by (apply Z.mod_pos_bound; lia).
  assert (Hhi : 0 ≤ hi) by (apply Z.div_pos; lia).
  assert (Hdiv : n = (hi / base * 2 ^ 32) * base + (hi mod base * 2 ^ 32 + lo)).
  { rewrite En at 1. rewrite (Z.div_mod hi base) at 1 by lia. lia. }
  assert (Hr : 0 ≤ hi mod base < base) by (apply Z.mod_pos_bound; lia).
  assert (Hq : (hi mod base * 2 ^ 32 + lo) / base < 2 ^ 32).
  { apply Z.div_lt_upper_bound; nia. }
  assert (Hres : n mod base = (hi mod base * 2 ^ 32 + lo) mod base ∧
                 n / base = hi / base * 2 ^ 32 + (hi mod base * 2 ^ 32 + lo) / base).
  { rewrite Hdiv at 1 2. rewrite Z.add_comm, Z.mod_add, Z.div_add by lia. split; [done|lia]. }
  destruct Hres as [-> ->]. clearbody hi lo. clear Hdiv En.
  case_bool_decide as E.
  - rewrite bool_decide_false by lia. simpl. rewrite bool_decide_false by lia. done.
  - assert (hi = 0) as -> by lia. simpl.
    rewrite Z.mod_0_l, Z.div_0_l in * by lia. rewrite bool_decide_false by lia. done.
Qed.

(** ** lib/hash.c and lib/rand.c *)
Definition GOLDEN_RATIO_PRIME_32 : Z := 0x9e370001.
Definition hash32 (val bits : Z) : Z :=
  let hash := u32 (val * GOLDEN_RATIO_PRIME_32) in Z.shiftr hash (32 - bits).

Lemma hash32_range val bits : 0 ≤ bits ≤ 32 → 0 ≤ hash32 val bits < 2 ^ bits.
Proof.
  intros Hb. unfold hash32. rewrite Z.shiftr_div_pow2 by lia.
  pose proof (u32_range (val * GOLDEN_RATIO_PRIME_32)) as [H0 H1]. split.
  - apply Z.div_pos; [done|]. apply Z.pow_pos_nonneg; lia.
  - apply Z.div_lt_upper_bound; [apply Z.pow_pos_nonneg; lia|].
    rewrite <-Z.pow_add_r by lia. by replace (32 - bits + bits) with 32 by lia.
Qed.

Lemma hash32_full_inj v w : is_u32 v → is_u32 w → hash32 v 32 = hash32 w 32 → v = w.
Proof.
  unfold hash32, GOLDEN_RATIO_PRIME_32. rewrite !Z.shiftr_0_r. intros Hv Hw E.
  assert (∀ x, is_u32 x → u32 (u32 (x * 0x9e370001) * 1640562689) = x) as Hinv.
  { intros x Hx. unfold u32. rewrite Z.mul_mod_idemp_l by lia.
    rewrite <-Z.mul_assoc, <-Z.mul_mod_idemp_r by lia. change ((0x9e370001 * _) mod _) with 1.
    rewrite Z.mul_1_r. by apply Z.mod_small. }
  rewrite <-(Hinv v Hv), <-(Hinv w Hw). by rewrite E.
Qed.

Definition RAND_MAX : Z := 2147483647.
(** The state is the static variable next. *)
Definition rand : M Z Z := λ next,
  let next := Z.land (u64 (next * 0x5DEECE66D + 0xB)) (2 ^ 48 - 1) in
  let result := Z.shiftr next 12 in
  match arch_do_div result (RAND_MAX + 1) with
  | Some (r, _) => Ret (s32 r, next)
  | None => Fault
  end.
Definition srand (seed : Z) : M Z unit := λ _, Ret ((), seed).

Lemma rand_spec next : ∃ r next', rand next = Ret (r, next') ∧ 0 ≤ r ≤ RAND_MAX ∧
  next' = (next * 0x5DEECE66D + 0xB) mod 2 ^ 48 ∧ r = Z.shiftr next' 12 mod 2 ^ 31.
Proof.
  unfold rand. change (2 ^ 48 - 1) with (Z.ones 48). rewrite Z.land_ones by lia.
  unfold u64. rewrite <-Znumtheory.Zmod_div_mod; [|lia..|exists (2 ^ 16); lia].
  set (n := (_ * _ + _) mod _). assert (Hn : 0 ≤ n < 2 ^ 48) by (apply Z.mod_pos_bound; lia).
  rewrite !Z.shiftr_div_pow2 by lia.
  assert (Hq : 0 ≤ n / 2 ^ 12 < 2 ^ 36).
  { split; [apply Z.div_pos; lia|apply Z.div_lt_upper_bound; lia]. }
  rewrite arch_do_div_spec by (unfold RAND_MAX; lia). change (RAND_MAX + 1) with (2 ^ 31).
  pose proof (Z.mod_pos_bound (n / 2 ^ 12) (2 ^ 31) ltac:(lia)) as Hr.
  eexists _, _. split; [done|]. rewrite s32_small by lia. unfold RAND_MAX. rewrite Z.shiftr_div_pow2 by lia. split_and!; first [lia | reflexivity].
Qed.

(** ** Rounding *)
Lemma ROUNDDOWN_spec a n : is_u32 a → 0 < n → ROUNDDOWN a n = a / n * n.
Proof.
  intros Ha Hn. unfold ROUNDDOWN. rewrite (u32_small a) by done.
  pose proof (Z.mod_pos_bound a n Hn). pose proof (Z.div_mod a n ltac:(lia)).
  unfold is_u32 in *. rewrite u32_small; [lia|]. unfold is_u32.
  pose proof (Z.div_pos a n). nia.
Qed.

Lemma ROUNDUP_spec a n : is_u32 a → 0 < n < 2 ^ 32 → a + n ≤ 2 ^ 32 →
  ROUNDUP a n = (a + n - 1) / n * n.
Proof.
  intros Ha Hn Hb. unfold ROUNDUP. unfold is_u32 in *.
  rewrite (u32_small a), (u32_small n) by (unfold is_u32; lia).
  assert (u32 (u32 (a + n) - 1) = a + n - 1) as ->.
  { unfold u32. rewrite Zminus_mod_idemp_l. apply Z.mod_small. lia. }
  apply ROUNDDOWN_spec; [unfold is_u32; lia|lia].
Qed.

(** ** The properties *)

(** C35. The bit operations of include/bitops/non-atomic.h, of the x86
    instructions and of ARM with interrupts disabled are the same operation:
    on any array of 32-bit words that contains the bit, they set, clear or
    toggle exactly that bit, the testing versions return its old value, and
    the ARM versions leave the interrupt state as they found it. *)
Theorem bitops_agree o nr m c :
  0 ≤ nr < 2 ^ 31 → 0 ≤ c → words_ok m → is_Some (m !! (nr / 32)) → ∃ m',
    bit_update (bit_fn o) nr m m' ∧
    generic_op o nr m = Ret ((), m') ∧ generic_test_op o nr m = Ret (bit m nr, m') ∧
    x86_op o nr m = Ret ((), m') ∧ x86_test_op o nr m = Ret (bit m nr, m') ∧
    arm_op o nr (c, m) = Ret ((), (c, m')) ∧
    arm_test_op o nr (c, m) = Ret (bit m nr, (c, m')) ∧
    test_bit nr m' = Ret (Z.b2z (bit_fn o (bit m nr)), m').
Proof.
  intros Hnr Hc Hok Hw. destruct (bitops_spec o nr m c Hnr Hc Hok Hw) as (m' & Hu & ?&?&?&?&?&?).
  exists m'. split_and!; try done. destruct Hu as (Hd & _ & Hb).
  rewrite test_bit_spec; [|done|].
  - by rewrite Hb, bool_decide_true by lia.
  - apply elem_of_dom. rewrite Hd. by apply elem_of_dom.
Qed.

Lemma bitops_agree_witness :
  ∃ m', bit_update (bit_fn OChange) 37 {[ 0 := 5; 1 := 0xff ]} m' ∧
    x86_test_op OChange 37 {[ 0 := 5; 1 := 0xff ]} = Ret (true, m') ∧
    arm_op OChange 37 (19, {[ 0 := 5; 1 := 0xff ]}) = Ret ((), (19, m')).
Proof.
  destruct (bitops_agree OChange 37 {[ 0 := 5; 1 := 0xff ]} 19)
    as (m' & H1 & _ & _ & _ & H5 & H6 & _ & _).
  - lia.
  - lia.
  - intros i w Hw. apply lookup_insert_Some in Hw as [[_ <-]|[_ [_ <-]%lookup_singleton_Some]];
      unfold is_u32; lia.
  - eexists. by vm_compute.
  - by exists m'.
Defined.

(** The x86 and ARM atomic counters agree: each operation adds or subtracts
    modulo 2^32 in two's complement, the testing versions are true exactly
    when the new value is zero, add_return and sub_return return the new
    value, and the ARM versions leave the interrupt state as they found it. *)
Theorem atomics_agree f c i :
  0 ≤ f → is_s32 c → is_s32 i →
  x86_atomic_add i c = Ret ((), s32 (c + i)) ∧
  arm_atomic_add i (f, c) = Ret ((), (f, s32 (c + i))) ∧
  x86_atomic_sub i c = Ret ((), s32 (c - i)) ∧
  arm_atomic_sub i (f, c) = Ret ((), (f, s32 (c - i))) ∧
  x86_atomic_sub_test_zero i c = Ret (bool_decide (s32 (c - i) = 0), s32 (c - i)) ∧
  arm_atomic_sub_test_zero i (f, c) = Ret (bool_decide (s32 (c - i) = 0), (f, s32 (c - i))) ∧
  x86_atomic_inc_test_zero c = Ret (bool_decide (c = -1), s32 (c + 1)) ∧
  arm_atomic_inc_test_zero (f, c) = Ret (bool_decide (c = -1), (f, s32 (c + 1))) ∧
  x86_atomic_dec_test_zero c = Ret (bool_decide (c = 1), s32 (c - 1)) ∧
  arm_atomic_dec_test_zero (f, c) = Ret (bool_decide (c = 1), (f, s32 (c - 1))) ∧
  x86_atomic_add_return i c = Ret (s32 (c + i), s32 (c + i)) ∧
  arm_atomic_add_return i (f, c) = Ret (s32 (c + i), (f, s32 (c + i))) ∧
  x86_atomic_sub_return i c = Ret (s32 (c - i), s32 (c - i)) ∧
  arm_atomic_sub_return i (f, c) = Ret (s32 (c - i), (f, s32 (c - i))).
Proof.
  intros Hf Hc Hi.
  assert (Hneg : s32 (c + s32 (- i)) = s32 (c - i)).
  { rewrite Z.add_comm, s32_add_l. f_equal. lia. }
  assert (Hz : ∀ a, a = 1 ∨ a = -1 → bool_decide (s32 (c + a) = 0) = bool_decide (c = - a)).
  { intros a Ha. apply bool_decide_ext. unfold is_s32 in *.
    destruct (decide (- 2 ^ 31 ≤ c + a < 2 ^ 31)); [rewrite s32_small by done; lia|].
    unfold s32. split; [|lia]. intros E.
    assert (c + a = 2 ^ 31 ∨ c + a = - 2 ^ 31 - 1) as [E1|E1] by lia; rewrite E1 in E; by vm_compute in E. }
  pose proof (Hz 1 ltac:(by left)) as Hz1. pose proof (Hz (-1) ltac:(by right)) as Hz2.
  replace (c + -1) with (c - 1) in Hz2 by lia. simpl in Hz1, Hz2.
  unfold arm_atomic_add, arm_atomic_sub, arm_atomic_sub_test_zero, arm_atomic_inc_test_zero,
    arm_atomic_dec_test_zero, arm_atomic_add_return, arm_atomic_sub_return, arm_atomic_add_return.
  split_and!; try done.
  - by apply irq_off_run.
  - by apply irq_off_run.
  - erewrite bind_Ret by (by apply irq_off_run). unfold mret, M_ret. by rewrite test_zero_agree.
  - unfold x86_atomic_inc_test_zero, mbind, M_bind, modify, gets, mret, M_ret. by rewrite Hz1.
  - erewrite bind_Ret by (by apply irq_off_run). unfold mret, M_ret. by rewrite test_zero_agree, Hz1.
  - unfold x86_atomic_dec_test_zero, mbind, M_bind, modify, gets, mret, M_ret. by rewrite Hz2.
  - erewrite bind_Ret by (by apply irq_off_run). unfold mret, M_ret. by rewrite test_zero_agree, Hz2.
  - erewrite bind_Ret by (by apply irq_off_run). unfold mret, M_ret. rewrite s32_u32.
    by rewrite (s32_small (s32 _)) by apply s32_range.
  - unfold x86_atomic_sub_return, x86_atomic_add_return, mbind, M_bind, gets, modify, mret, M_ret.
    simpl. by rewrite Hneg.
  - erewrite bind_Ret by (by apply irq_off_run). unfold mret, M_ret. rewrite s32_u32.
    rewrite (s32_small (s32 _)) by apply s32_range. by rewrite Hneg.
Qed.

Lemma atomics_agree_witness :
  x86_atomic_sub_return 3 1 = Ret (-2, -2) ∧ arm_atomic_sub_return 3 (19, 1) = Ret (-2, (19, -2)).
Proof.
  destruct (atomics_agree 19 1 3) as (_&_&_&_&_&_&_&_&_&_&_&_& H13 & H14).
  - lia.
  - unfold is_s32; lia.
  - unfold is_s32; lia.
  - exact (conj H13 H14).
Defined.

(** The x86 do_div, which divides a 64-bit number with two 32-bit
    divisions, never traps for a non-zero 32-bit base and returns the
    remainder and the quotient of the 64-bit division. *)
Theorem do_div_correct n base :
  0 ≤ n < 2 ^ 64 → 0 < base < 2 ^ 32 → arch_do_div n base = Some (n mod base, n / base).
Proof. apply arch_do_div_spec. Qed.

Lemma do_div_correct_witness :
  arch_do_div 0x123456789abcdef0 1000 = Some (320, 1311768467463790).
Proof. apply (do_div_correct 0x123456789abcdef0 1000); lia. Defined.

(** rand always returns a number in [0, RAND_MAX], and its state follows
    the 48-bit linear congruential recurrence; hash32 stays below 2^bits and
    with all 32 bits distinguishes all inputs. *)
Theorem rand_hash_bounds next v w bits :
  (∃ r next', rand next = Ret (r, next') ∧ 0 ≤ r ≤ RAND_MAX ∧
     next' = (next * 0x5DEECE66D + 0xB) mod 2 ^ 48) ∧
  (0 ≤ bits ≤ 32 → 0 ≤ hash32 v bits < 2 ^ bits) ∧
  (is_u32 v → is_u32 w → hash32 v 32 = hash32 w 32 → v = w).
Proof.
  split_and!.
  - destruct (rand_spec next) as (r & next' & ? & ? & ? & _). by exists r, next'.
  - apply hash32_range.
  - apply hash32_full_inj.
Qed.

Lemma rand_hash_bounds_witness :
  (∃ r next', rand 1 = Ret (r, next') ∧ 0 ≤ r ≤ RAND_MAX ∧
     next' = (1 * 0x5DEECE66D + 0xB) mod 2 ^ 48) ∧
  0 ≤ hash32 5 10 < 2 ^ 10 ∧ (hash32 5 32 = hash32 5 32 → 5 = 5).
Proof.
  destruct (rand_hash_bounds 1 5 5 10) as (H1 & H2 & H3). split_and!.
  - exact H1.
  - apply H2; lia.
  - apply H2; lia.
  - intros. apply H3; [unfold is_u32; lia..|done].
Defined.
