(* ===== verification/Lock.v ===== *)
(** * Locks under preemption: include/lock.h

    [Bits] models test_and_set_bit and test_and_clear_bit as whole calls; here
    they are sequences of instructions, and the machine has one processor that
    several processes share.  Between any two instructions the timer may hand
    the processor to another process, unless the running process has masked
    interrupts; lock() gives it away itself, in schedule(), while the lock is
    taken.  On x86 the bit operations are one bts or btr instruction and an
    sbb; on ARM they are a load and a store between the instructions that save
    and mask, and restore, the interrupt state.  Mutual exclusion is proved for
    both, by annotating every point of the code. *)
From stdpp Require Import base gmap list fin_maps.
From Stdlib Require Import ZArith Lia.
From S2P Require Import Prelude Bits.

(** ** Instructions

    What a process has in registers: the status word (EFLAGS or CPSR), the
    variables flags, temp and res of the ARM code, the carry flag and the
    variable oldbit of the x86 code.  An instruction works on the registers and
    on the memory. *)
Record cpu : Type := Cpu {
  psr : Z; flags : Z; temp : Z; res : Z; cf : bool; oldbit : Z }.
Abbreviation instr := (M (cpu * words) unit).

Definition reg (f : cpu → cpu) : instr := λ s, Ret ((), (f s.1, s.2)).
Definition access {A} (op : M words A) (f : A → cpu → cpu) : instr := λ s,
  match op s.2 with
  | Ret (a, m) => Ret ((), (f a s.1, m))
  | Panic => Panic | Fault => Fault | OutOfFuel => OutOfFuel
  end.

(** arch/x86/include/asm/bitops.h: btsl %2, %1 or btrl %2, %1 on bit 0, and
    sbbl %0, %0. *)
Definition set_cf (b : bool) (c : cpu) : cpu :=
  Cpu (psr c) (flags c) (temp c) (res c) b (oldbit c).
Definition btsl : instr := access (bts 0) set_cf.
Definition btrl : instr := access (btr 0) set_cf.
Definition sbbl : instr := reg (λ c, Cpu (psr c) (flags c) (temp c) (res c) (cf c) (sbb (cf c))).

(** arch/arm/include/asm/irqflags.h: mrs flags, cpsr; orr temp, flags, #128;
    msr cpsr_c, temp to save and mask, msr cpsr_c, flags to restore; and the
    load and the two stores of arch/arm/include/asm/bitops.h, with the mask of
    bit 0. *)
Definition set_control (v psr : Z) : Z := Z.lor (Z.land psr (Z.lnot 255)) (Z.land v 255).
Definition mrs : instr := reg (λ c, Cpu (psr c) (psr c) (temp c) (res c) (cf c) (oldbit c)).
Definition orr : instr :=
  reg (λ c, Cpu (psr c) (flags c) (Z.lor (flags c) 128) (res c) (cf c) (oldbit c)).
Definition msr_temp : instr :=
  reg (λ c, Cpu (set_control (temp c) (psr c)) (flags c) (temp c) (res c) (cf c) (oldbit c)).
Definition msr_flags : instr :=
  reg (λ c, Cpu (set_control (flags c) (psr c)) (flags c) (temp c) (res c) (cf c) (oldbit c)).
Definition ldr : instr :=
  access (load 0) (λ w c, Cpu (psr c) (flags c) (temp c) w (cf c) (oldbit c)).
Definition str_set : instr := λ s, access (store 0 (Z.lor (res s.1) 1)) (λ _, id) s.
Definition str_clear : instr := λ s,
  access (store 0 (Z.land (res s.1) (u32 (Z.lnot 1)))) (λ _, id) s.

(** ** The two architectures

    The code of test_and_set_bit(0, lock) and test_and_clear_bit(0, lock), what
    they return, and whether an interrupt can be taken. *)
Class arch_locks : Type := {
  set_code : list instr; clear_code : list instr;
  returned : cpu → bool; irqs_on : cpu → bool }.

Definition x86_locks : arch_locks := {|
  set_code := [btsl; sbbl]; clear_code := [btrl; sbbl];
  returned c := bool_decide (oldbit c ≠ 0);
  irqs_on c := Z.testbit (psr c) 9 |}.

Definition arm_locks : arch_locks := {|
  set_code := [mrs; orr; msr_temp; ldr; str_set; msr_flags];
  clear_code := [mrs; orr; msr_temp; ldr; str_clear; msr_flags];
  returned c := bool_decide (Z.land (res c) 1 ≠ 0);
  irqs_on c := negb (Z.testbit (psr c) 7) |}.

Inductive arch : Type := X86 | ARM.
Definition locks (a : arch) : arch_locks :=
  match a with X86 => x86_locks | ARM => arm_locks end.

(** The code runs to its end without an interruption. *)
Fixpoint run_code (code : list instr) : instr :=
  match code with [] => skip | i :: code => i;; run_code code end.

(** ** Processes

    Where a process is: in code of its own without or with the lock, before
    instruction [k] of the bit operation of a call, or at the call of
    schedule() in the loop of lock(). *)
Inductive call : Type := CTry | CLock | CUnlock.
Inductive point : Type := Outside | Holding | At (f : call) (k : nat) | Waiting.
#[export] Instance call_eq_dec : EqDecision call.
Proof. solve_decision. Defined.
#[export] Instance point_eq_dec : EqDecision point.
Proof. solve_decision. Defined.

Record thread : Type := Thread { pt : point; regs : cpu }.
Record machine : Type := Machine { current : Z; threads : gmap Z thread; mem : words }.

Inductive event : Type :=
| ECall (f : call)     (* the running process calls a function of lock.h *)
| EStep                (* it executes an instruction *)
| EIrq (q : Z)         (* the timer interrupts it and [q] runs next *)
| EYield (q : Z).      (* its schedule() makes [q] run next *)

Section Machine.
Context {A : arch_locks}.

Definition code (f : call) : list instr :=
  match f with CUnlock => clear_code | _ => set_code end.

(** What follows the bit operation.  try_lock returns its negation; lock goes
    on to schedule() when try_lock failed; unlock panics when the bit was
    clear. *)
Definition after (f : call) (old : bool) : outcome point :=
  match f with
  | CTry => Ret (if negb old then Holding else Outside)
  | CLock => Ret (if negb (negb old) then Waiting else Holding)
  | CUnlock => if negb old then Panic else Ret Outside
  end.

Definition put (th : thread) (m : words) : M machine unit := λ s,
  Ret ((), Machine (current s) (<[current s := th]> (threads s)) m).

Definition exec (th : thread) : M machine unit := λ s,
  match pt th with
  | At f k =>
    match code f !! k : option instr with
    | Some i =>
      match i (regs th, mem s) with
      | Ret (_, (c, m)) => put (Thread (At f (S k)) c) m s
      | Panic => Panic | Fault => Fault | OutOfFuel => OutOfFuel
      end
    | None =>
      match after f (returned (regs th)) with
      | Ret p => put (Thread p (regs th)) (mem s) s
      | Panic => Panic | Fault => Fault | OutOfFuel => OutOfFuel
      end
    end
  | _ => skip s
  end.

(** A process without the lock calls try_lock or lock, one with it calls
    unlock. *)
Definition may_call (f : call) (p : point) : bool :=
  bool_decide (p = match f with CUnlock => Holding | _ => Outside end).

Definition switch (q : Z) : M machine unit := λ s,
  match threads s !! q with
  | Some _ => Ret ((), Machine q (threads s) (mem s))
  | None => Ret ((), s)
  end.

(** The body of the loop of lock(): schedule() makes [q] run, and the process
    goes on with the test of the loop when it runs again. *)
Definition lock_body (q : Z) (th : thread) : M machine unit := λ s,
  (put (Thread (At CLock 0) (regs th)) (mem s);; switch q) s.

(** An event that cannot happen changes nothing; an interrupt that is masked
    stays pending. *)
Definition step (e : event) : M machine unit := λ s,
  match threads s !! current s with
  | None => Fault
  | Some th =>
    match e with
    | ECall f => if may_call f (pt th) then put (Thread (At f 0) (regs th)) (mem s) s else skip s
    | EStep => exec th s
    | EIrq q => if irqs_on (regs th) then switch q s else skip s
    | EYield q =>
      if bool_decide (pt th = Waiting) then lock_body q th s else skip s
    end
  end.

Fixpoint run (es : list event) : M machine unit :=
  match es with [] => skip | e :: es => step e;; run es end.

End Machine.

Definition holds (s : machine) (p : Z) : Prop := pt <$> threads s !! p = Some Holding.

(** ** Annotations

    [ann k c st mine] describes the registers of a process before instruction
    [k]: [st] is its status word outside the calls, [mine] whether the lock is
    already, or still, its own.  [sharp k c w] is what it knows of the lock word
    [w]; it may know something only while it cannot be interrupted. *)
Definition annotation : Type := nat → cpu → Z → bool → Prop.
Definition sharp_annotation : Type := nat → cpu → Z → Prop.

(** An instruction establishes the annotation that follows it; it leaves the
    lock alone, or takes or drops it when no other process has it. *)
Definition step_ok (code : list instr) (ann : annotation) (sharp : sharp_annotation) : Prop :=
  ∀ k i c m st mine taken, code !! k = Some i → 0 ≤ st → ann k c st mine →
    sharp k c (Z.b2z taken) → m !! 0 = Some (Z.b2z taken) → (mine = true → taken = true) →
    ∃ c' mine' taken', i (c, m) = Ret ((), (c', <[0 := Z.b2z taken']> m)) ∧
      ann (S k) c' st mine' ∧ sharp (S k) c' (Z.b2z taken') ∧
      ((mine' = mine ∧ taken' = taken) ∨ (taken = mine ∧ taken' = mine')).

Class ArchLocks (A : arch_locks) : Type := {
  set_ann : annotation; set_sharp : sharp_annotation;
  clear_ann : annotation; clear_sharp : sharp_annotation;
  set_start c : set_ann 0%nat c (psr c) false ∧ ∀ w, set_sharp 0%nat c w;
  clear_start c : clear_ann 0%nat c (psr c) true ∧ ∀ w, clear_sharp 0%nat c w;
  set_step : step_ok set_code set_ann set_sharp;
  clear_step : step_ok clear_code clear_ann clear_sharp;
  set_irq k c st mine w :
    0 ≤ st → set_ann k c st mine → irqs_on c = true → set_sharp k c w;
  clear_irq k c st mine w :
    0 ≤ st → clear_ann k c st mine → irqs_on c = true → clear_sharp k c w;
  set_end k c st mine : set_code !! k = None → set_ann k c st mine →
    psr c = st ∧ returned c = negb mine;
  clear_end k c st mine : clear_code !! k = None → clear_ann k c st mine →
    psr c = st ∧ returned c = true ∧ mine = false;
  set_solo c m b : 0 ≤ psr c → m !! 0 = Some (Z.b2z b) →
    ∃ c', run_code set_code (c, m) = Ret ((), (c', <[0 := 1]> m)) ∧ returned c' = b }.

(** *** x86 *)
Definition x86_set_ann : annotation := λ k c st mine, psr c = st ∧
  match k with
  | 0%nat => mine = false
  | 1%nat => cf c = negb mine
  | _ => oldbit c = sbb (negb mine)
  end.
Definition x86_clear_ann : annotation := λ k c st mine, psr c = st ∧
  match k with
  | 0%nat => mine = true
  | 1%nat => cf c = true ∧ mine = false
  | _ => oldbit c = -1 ∧ mine = false
  end.

Lemma lock_bts b m : m !! 0 = Some (Z.b2z b) → bts 0 m = Ret (b, <[0 := 1]> m).
Proof.
  intros E. unfold bts, x86_bt. change (Z.shiftr 0 5) with 0. unfold load, store, mbind, M_bind.
  rewrite E. cbn. rewrite E. by destruct b.
Qed.
Lemma lock_btr b m : m !! 0 = Some (Z.b2z b) → btr 0 m = Ret (b, <[0 := 0]> m).
Proof.
  intros E. unfold btr, x86_bt. change (Z.shiftr 0 5) with 0. unfold load, store, mbind, M_bind.
  rewrite E. cbn. rewrite E. by destruct b.
Qed.

#[export] Instance x86_ok : ArchLocks x86_locks.
Proof.
  refine {| set_ann := x86_set_ann; set_sharp _ _ _ := True;
            clear_ann := x86_clear_ann; clear_sharp _ _ _ := True |}; try done.
  - intros [|[|k]] i c m st mine taken Ei _ [Hst Ha] _ E Hm; simplify_eq/=.
    + unfold btsl, access. cbn. rewrite (lock_bts _ _ E).
      exists (set_cf taken c), (negb taken), true. split; [done|]. split; [|split; [done|]].
      * split; [done|]. simpl. by destruct taken.
      * destruct taken; [left|right]; by repeat split.
    + eexists _, mine, taken. unfold sbbl, reg. cbn. rewrite (insert_id _ _ _ E). split; [done|].
      split; [|split; [done|by left]]. split; [done|]. simpl. by rewrite Ha.
  - intros [|[|k]] i c m st mine taken Ei _ [Hst Ha] _ E Hm; simplify_eq/=.
    + rewrite Hm in * by done. unfold btrl, access. cbn. rewrite (lock_btr _ _ E).
      exists (set_cf true c), false, false. split; [done|]. split; [|split; [done|right]]; done.
    + destruct Ha as [Hcf ->]. eexists _, false, taken. unfold sbbl, reg. cbn.
      rewrite (insert_id _ _ _ E). split; [done|].
      split; [|split; [done|by left]]. split; [done|]. simpl. by rewrite Hcf.
  - intros [|[|k]] c st mine Ek [Hst Ha]; simplify_eq/=. split; [done|].
    rewrite Ha. by destruct mine.
  - intros [|[|k]] c st mine Ek [Hst Ha]; simplify_eq/=. destruct Ha as [-> ->]. done.
  - intros c m b _ E. cbn. unfold mbind, M_bind, btsl, access. cbn. rewrite (lock_bts _ _ E).
    eexists. split; [done|]. by destruct b.
Defined.

(** *** ARM *)
Definition masked (st : Z) (c : cpu) : Prop := psr c = Z.lor st 128 ∧ flags c = st.
(** Before the store the process has the lock or not ([pre]); what it loaded
    then says what the store did ([post]). *)
Definition arm_ann (pre : bool) (post : Z → bool → Prop) : annotation := λ k c st mine,
  match k with
  | 0%nat => psr c = st ∧ mine = pre
  | 1%nat => psr c = st ∧ flags c = st ∧ mine = pre
  | 2%nat => psr c = st ∧ flags c = st ∧ temp c = Z.lor st 128 ∧ mine = pre
  | 3%nat | 4%nat => masked st c ∧ mine = pre
  | 5%nat => masked st c ∧ post (res c) mine
  | _ => psr c = st ∧ post (res c) mine
  end.
Definition arm_set_post (r : Z) (mine : bool) : Prop := r = Z.b2z (negb mine).
Definition arm_clear_post (r : Z) (mine : bool) : Prop := r = 1 ∧ mine = false.
(** Between the load and the store the loaded word is the word. *)
Definition arm_sharp : sharp_annotation := λ k c w,
  match k with 4%nat => res c = w | _ => True end.

Lemma set_control_spec v st j : 0 ≤ j →
  Z.testbit (set_control v st) j = if bool_decide (j < 8) then Z.testbit v j else Z.testbit st j.
Proof.
  intros Hj. unfold set_control. rewrite Z.lor_spec, !Z.land_spec, Z.lnot_spec by done.
  change 255 with (Z.ones 8). rewrite Z.testbit_ones by lia.
  rewrite (bool_decide_ext _ (Z.ltb j 8 = true)) by (rewrite Z.ltb_lt; done).
  destruct (Z.leb_spec 0 j), (Z.ltb_spec j 8); try lia; simpl;
    destruct (Z.testbit st j), (Z.testbit v j); done.
Qed.

Lemma mask_testbit st j : 0 ≤ j → j ≠ 7 → Z.testbit (Z.lor st 128) j = Z.testbit st j.
Proof.
  intros Hj Hn. rewrite Z.lor_spec. change 128 with (2 ^ 7). rewrite Z.pow2_bits_false by lia.
  by rewrite orb_false_r.
Qed.
Lemma mask_control st : set_control (Z.lor st 128) st = Z.lor st 128.
Proof.
  apply Z.bits_inj'. intros j Hj. rewrite set_control_spec by done.
  case_bool_decide; [done|]. rewrite mask_testbit by lia. done.
Qed.
Lemma unmask_control st : set_control st (Z.lor st 128) = st.
Proof.
  apply Z.bits_inj'. intros j Hj. rewrite set_control_spec by done.
  case_bool_decide; [done|]. rewrite mask_testbit by lia. done.
Qed.
Lemma masked_irqs st c : masked st c → Z.testbit (psr c) 7 = true.
Proof. intros [-> _]. rewrite Z.lor_spec. change (Z.testbit 128 7) with true. apply orb_true_r. Qed.

Lemma lock_load b m : m !! 0 = Some b → load 0 m = Ret (b, m).
Proof. unfold load. by intros ->. Qed.
Lemma lock_store b v m : m !! 0 = Some b → store 0 v m = Ret ((), <[0 := v]> m).
Proof. unfold store. by intros ->. Qed.

Lemma arm_step_ok str pre post :
  (∀ c m st mine taken, masked st c → mine = pre → res c = Z.b2z taken → m !! 0 = Some (Z.b2z taken) →
     (mine = true → taken = true) →
     ∃ mine' taken', str (c, m) = Ret ((), (c, <[0 := Z.b2z taken']> m)) ∧ post (res c) mine' ∧
       ((mine' = mine ∧ taken' = taken) ∨ (taken = mine ∧ taken' = mine'))) →
  step_ok [mrs; orr; msr_temp; ldr; str; msr_flags] (arm_ann pre post) arm_sharp.
Proof.
  intros Hstr k i c m st mine taken Ei _ Ha Hs E Hm.
  assert (Hid : <[0 := Z.b2z taken]> m = m) by (by apply insert_id).
  destruct k as [|[|[|[|[|[|k]]]]]]; simpl in Ei; try done; injection Ei as <-; simpl in Ha.
  - destruct Ha as [Hp Hmi]. eexists _, mine, taken. rewrite Hid. split; [done|].
    split; [done|]. split; [done|by left].
  - destruct Ha as (Hp & Hf & Hmi). eexists _, mine, taken. rewrite Hid. split; [done|].
    split; [|split; [done|by left]]. simpl. split_and!; congruence.
  - destruct Ha as (Hp & Hf & Ht & Hmi). eexists _, mine, taken. rewrite Hid. split; [done|].
    split; [|split; [done|by left]]. split; [|done]. split; simpl; [|done].
    rewrite Ht, Hp. apply mask_control.
  - eexists _, mine, taken. unfold ldr, access. cbn. rewrite (lock_load _ _ E), Hid.
    split; [done|]. split; [done|]. split; [done|by left].
  - destruct Ha as [Hma Hmi].
    destruct (Hstr c m st mine taken) as (mine' & taken' & Es & Hp & Hmv); try done.
    by exists c, mine', taken'.
  - destruct Ha as [[Hp Hf] Hr]. eexists _, mine, taken. rewrite Hid. split; [done|].
    split; [|split; [done|by left]]. split; [|done]. simpl. rewrite Hp, Hf. apply unmask_control.
Qed.

Lemma arm_irq pre post k c st mine w :
  arm_ann pre post k c st mine → irqs_on (arch_locks := arm_locks) c = true → arm_sharp k c w.
Proof.
  intros Ha Hi. destruct k as [|[|[|[|[|k]]]]]; try done. destruct Ha as [Hm _].
  change (negb (Z.testbit (psr c) 7) = true) in Hi. by rewrite (masked_irqs _ _ Hm) in Hi.
Qed.

#[export] Instance arm_ok : ArchLocks arm_locks.
Proof.
  refine {| set_ann := arm_ann false arm_set_post; set_sharp := arm_sharp;
            clear_ann := arm_ann true arm_clear_post; clear_sharp := arm_sharp |}; try done.
  - apply arm_step_ok. intros c m st mine taken _ -> Hr E _.
    exists (negb taken), true. unfold str_set, access. simpl. rewrite (lock_store _ _ _ E), Hr.
    unfold arm_set_post. destruct taken; (split; [done|split; [done|]]); [by left|by right].
  - apply arm_step_ok. intros c m st mine taken _ -> Hr E Ht. rewrite Ht in * by done.
    exists false, false. unfold str_clear, access. simpl. rewrite (lock_store _ _ _ E), Hr.
    split; [done|]. split; [done|by right].
  - intros k c st mine w _. apply arm_irq.
  - intros k c st mine w _. apply arm_irq.
  - intros [|[|[|[|[|[|k]]]]]] c st mine Ek Ha; try done. destruct Ha as [Hp Hr].
    split; [done|]. simpl. rewrite Hr. by destruct mine.
  - intros [|[|[|[|[|[|k]]]]]] c st mine Ek Ha; try done. destruct Ha as (Hp & Hr & ->).
    split; [done|]. simpl. by rewrite Hr.
  - intros c m b _ E. cbn. unfold mbind, M_bind, mrs, orr, msr_temp, msr_flags, reg, ldr, access. cbn.
    rewrite (lock_load _ _ E). cbn. unfold str_set, access. cbn. rewrite (lock_store _ _ _ E). cbn.
    destruct b; eexists; split; reflexivity.
Defined.

(** ** The invariant *)
Section Invariant.
Context {A : arch_locks} {P : ArchLocks A} (st : Z → Z) (m0 : words).
Hypothesis Hst : ∀ p, 0 ≤ st p.

Definition ann_at (p : point) (c : cpu) (st : Z) (mine : bool) : Prop :=
  match p with
  | Outside | Waiting => psr c = st ∧ mine = false
  | Holding => psr c = st ∧ mine = true
  | At CUnlock k => clear_ann k c st mine
  | At _ k => set_ann k c st mine
  end.
Definition sharp_at (p : point) (c : cpu) (w : Z) : Prop :=
  match p with
  | At CUnlock k => clear_sharp k c w
  | At _ k => set_sharp k c w
  | _ => True
  end.

(** Process [p] has the lock; some process has it. *)
Definition mine (owner : option Z) (p : Z) : bool := bool_decide (owner = Some p).
Definition taken (owner : option Z) : bool := bool_decide (is_Some owner).

Record machine_inv (s : machine) (owner : option Z) : Prop := {
  mi_word : mem s = <[0 := Z.b2z (taken owner)]> m0;
  mi_current : is_Some (threads s !! current s);
  mi_owner p : owner = Some p → is_Some (threads s !! p);
  mi_ann p th : threads s !! p = Some th → ann_at (pt th) (regs th) (st p) (mine owner p);
  mi_sharp p th w : threads s !! p = Some th → p ≠ current s ∨ w = Z.b2z (taken owner) →
    sharp_at (pt th) (regs th) w }.

(** The running process may change who has the lock, from and to itself. *)
Definition passes (owner owner' : option Z) (p : Z) : Prop :=
  owner' = owner ∨ (owner ∈ [None; Some p] ∧ owner' ∈ [None; Some p]).

Lemma put_inv s owner owner' th m :
  machine_inv s owner → passes owner owner' (current s) →
  m = <[0 := Z.b2z (taken owner')]> m0 →
  ann_at (pt th) (regs th) (st (current s)) (mine owner' (current s)) →
  sharp_at (pt th) (regs th) (Z.b2z (taken owner')) →
  ∃ s', put th m s = Ret ((), s') ∧ machine_inv s' owner'.
Proof using Type.
  intros Hi Hp -> Ha Hs. eexists. split; [done|].
  assert (Hown : ∀ p, p ≠ current s → mine owner' p = mine owner p).
  { intros p Hne. unfold mine. apply bool_decide_ext. unfold passes in Hp.
    rewrite !list_elem_of_In in Hp. simpl in Hp. naive_solver. }
  split; simpl.
  - done.
  - by rewrite lookup_insert_eq.
  - intros p Ho. destruct (decide (p = current s)) as [->|Hne]; [by rewrite lookup_insert_eq|].
    rewrite lookup_insert_ne by done. apply (mi_owner _ _ Hi).
    pose proof (Hown p Hne) as E. unfold mine in E. rewrite bool_decide_true in E by done.
    by apply (bool_decide_eq_true (owner = Some p)).
  - intros p th' Hth. apply lookup_insert_Some in Hth as [[<- <-]|[Hne Hth]]; [done|].
    rewrite Hown by done. by apply (mi_ann _ _ Hi).
  - intros p th' w Hth Hw. apply lookup_insert_Some in Hth as [[<- <-]|[Hne Hth]].
    + destruct Hw as [Hn | ->]; done.
    + apply (mi_sharp _ _ Hi p); [done|]. by left.
Qed.

(** A switch is harmless when the running process knows nothing of the word. *)
Lemma switch_inv s owner q th :
  machine_inv s owner → threads s !! current s = Some th →
  (∀ w, sharp_at (pt th) (regs th) w) →
  ∃ s', switch q s = Ret ((), s') ∧ machine_inv s' owner.
Proof using Type.
  intros Hi Hth Hs. unfold switch. destruct (threads s !! q) eqn:Eq; [|by exists s].
  eexists. split; [done|]. destruct Hi as [Hw Hc Ho Ha Hsh]. split; simpl; try done.
  intros p th' w Hp _. destruct (decide (p = current s)) as [->|Hne]; [by simplify_eq|].
  apply (Hsh p); [done|]. by left.
Qed.

Lemma passes_refl owner p : passes owner owner p.
Proof using Type. by left. Qed.

(** An instruction of annotated code. *)
Lemma instr_inv s owner th k f i ann sharp :
  machine_inv s owner → threads s !! current s = Some th →
  pt th = At f k → code f !! k = Some i → step_ok (code f) ann sharp →
  (∀ k c st mine, ann_at (At f k) c st mine = ann k c st mine) →
  (∀ k c w, sharp_at (At f k) c w = sharp k c w) →
  ∃ s' owner', exec th s = Ret ((), s') ∧ machine_inv s' owner'.
Proof using Hst.
  intros Hi Hth Hpt Hk Hok Hann Hsharp. pose proof (mi_ann _ _ Hi _ _ Hth) as Ha.
  pose proof (mi_sharp _ _ Hi _ _ _ Hth (or_intror eq_refl)) as Hs. pose proof (mi_word _ _ Hi) as Hw.
  rewrite Hpt, Hann in Ha. rewrite Hpt, Hsharp in Hs.
  destruct (Hok k i (regs th) (mem s) (st (current s)) (mine owner (current s)) (taken owner))
    as (c' & mi' & ta' & Ei & Ha' & Hs' & Hmv); try done.
  { by rewrite Hw, lookup_insert_eq. }
  { unfold mine, taken. rewrite !bool_decide_eq_true. by intros ->. }
  assert (∃ owner', passes owner owner' (current s) ∧ mine owner' (current s) = mi' ∧
            taken owner' = ta') as (owner' & Hp & Hm' & Ht').
  { destruct Hmv as [[-> ->]|[Ht ->]]; [exists owner; split_and!; done || by left|].
    exists (if mi' then Some (current s) else None). split_and!.
    - right. split; [|destruct mi'; set_solver]. unfold mine, taken in Ht.
      destruct owner as [o|]; [|set_solver]. rewrite bool_decide_true in Ht by done.
      symmetry in Ht. apply bool_decide_eq_true in Ht. rewrite Ht. set_solver.
    - unfold mine. destruct mi'; by case_bool_decide.
    - unfold taken. destruct mi'; by vm_compute. }
  subst mi' ta'.
  destruct (put_inv s owner owner' (Thread (At f (S k)) c') (<[0 := Z.b2z (taken owner')]> (mem s)))
    as (s' & Es & Hi'); try done.
  { rewrite Hw. apply insert_insert_eq. }
  { cbn [pt regs]. by rewrite Hann. }
  { cbn [pt regs]. by rewrite Hsharp. }
  exists s', owner'. split; [|done]. unfold exec. rewrite Hpt. cbv beta iota. by rewrite Hk, Ei.
Qed.

(** The end of a call. *)
Lemma return_inv s owner th k f :
  machine_inv s owner → threads s !! current s = Some th →
  pt th = At f k → code f !! k = None →
  ∃ s' owner', exec th s = Ret ((), s') ∧ machine_inv s' owner'.
Proof using Type.
  intros Hi Hth Hpt Hk. pose proof (mi_ann _ _ Hi _ _ Hth) as Ha. rewrite Hpt in Ha.
  assert (∃ p, after f (returned (regs th)) = Ret p ∧
            ann_at p (regs th) (st (current s)) (mine owner (current s)) ∧
            ∀ w, sharp_at p (regs th) w) as (p & Ep & Hp & Hs).
  { destruct f; simpl in Hk, Ha.
    1,2: destruct (set_end _ _ _ _ Hk Ha) as [Hps Hr]; rewrite Hr;
      destruct (mine owner (current s)); by eexists.
    destruct (clear_end _ _ _ _ Hk Ha) as (Hps & Hr & Hm). rewrite Hr, Hm. by eexists. }
  destruct (put_inv s owner owner (Thread p (regs th)) (mem s)) as (s' & Es & Hi'); try done.
  { apply passes_refl. }
  { apply (mi_word _ _ Hi). }
  exists s', owner. split; [|done]. unfold exec. rewrite Hpt. cbv beta iota. by rewrite Hk, Ep.
Qed.

Lemma call_inv s owner th f :
  machine_inv s owner → threads s !! current s = Some th → may_call f (pt th) = true →
  ∃ s', put (Thread (At f 0) (regs th)) (mem s) s = Ret ((), s') ∧ machine_inv s' owner.
Proof using Type.
  intros Hi Hth Hc. apply bool_decide_eq_true in Hc. pose proof (mi_ann _ _ Hi _ _ Hth) as Ha.
  rewrite Hc in Ha. apply (put_inv s owner owner); [done|apply passes_refl|apply (mi_word _ _ Hi)|..];
    cbn [pt regs]; destruct f; simpl in Ha |- *; destruct Ha as [Hps Hmi]; rewrite ?Hmi, <-?Hps;
    first [apply set_start|apply clear_start].
Qed.

Lemma step_inv e s owner :
  machine_inv s owner → ∃ s' owner', step e s = Ret ((), s') ∧ machine_inv s' owner'.
Proof using Hst.
  intros Hi. destruct (mi_current _ _ Hi) as [th Hth]. unfold step. rewrite Hth. destruct e.
  - destruct (may_call f (pt th)) eqn:Ec; [|by eexists s, owner].
    destruct (call_inv _ _ _ _ Hi Hth Ec) as (s' & ? & ?). by exists s', owner.
  - destruct (pt th) as [| |f k|] eqn:Hpt; try (exists s, owner; unfold exec; by rewrite Hpt).
    destruct (code f !! k) as [i|] eqn:Hk; [|by eapply return_inv].
    destruct f; eapply instr_inv; eauto using set_step, clear_step.
  - destruct (irqs_on (regs th)) eqn:Eirq; [|by eexists s, owner].
    destruct (switch_inv s owner q th) as (s' & ? & ?); [done..| |by exists s', owner].
    intros w. pose proof (mi_ann _ _ Hi _ _ Hth) as Ha.
    destruct (pt th) as [| |[| |] k|]; simpl in Ha |- *; try done;
      [eapply set_irq..|eapply clear_irq]; [|exact Ha|exact Eirq| |exact Ha|exact Eirq| |exact Ha|exact Eirq]; apply Hst.
  - case_bool_decide as Hpt; [|by eexists s, owner].
    pose proof (mi_ann _ _ Hi _ _ Hth) as Ha. rewrite Hpt in Ha. destruct Ha as [Hps Hm].
    destruct (set_start (regs th)) as [Hs0 Hs1]. rewrite Hps in Hs0.
    destruct (put_inv s owner owner (Thread (At CLock 0) (regs th)) (mem s)) as (s1 & Es & Hi1); try done.
    { apply passes_refl. }
    { apply (mi_word _ _ Hi). }
    { cbn [pt regs ann_at]. by rewrite Hm. }
    { apply Hs1. }
    unfold put in Es. injection Es as <-.
    destruct (switch_inv _ owner q (Thread (At CLock 0) (regs th)) Hi1) as (s' & E' & Hi').
    { simpl. apply lookup_insert_eq. }
    { done. }
    by exists s', owner.
Qed.

Lemma run_inv es : ∀ s owner, machine_inv s owner →
  ∃ s' owner', run es s = Ret ((), s') ∧ machine_inv s' owner'.
Proof using Hst.
  induction es as [|e es IH]; intros s owner Hi; [by exists s, owner|].
  destruct (step_inv e s owner Hi) as (s1 & o1 & E & Hi1). simpl. rewrite (bind_Ret _ _ _ _ _ E).
  by apply (IH s1 o1).
Qed.
End Invariant.

(** ** A call that is not interrupted *)
Section Solo.
Context {A : arch_locks} {P : ArchLocks A}.

Lemma steps_run l : ∀ s f k c c' m',
  threads s !! current s = Some (Thread (At f k) c) → drop k (code f) = l →
  run_code l (c, mem s) = Ret ((), (c', m')) →
  run (replicate (length l) EStep) s = Ret ((), Machine (current s)
    (<[current s := Thread (At f (k + length l)) c']> (threads s)) m').
Proof using Type.
  induction l as [|i l IH]; intros s f k c c' m' Hth Hl Hr.
  - simpl in Hr |- *. unfold skip, mret, M_ret in Hr |- *. injection Hr as <- <-.
    rewrite Nat.add_0_r, insert_id by done. by destruct s.
  - assert (Hk : code f !! k = Some i).
    { rewrite <-(Nat.add_0_r k), <-lookup_drop, Hl. done. }
    assert (Hl' : drop (S k) (code f) = l).
    { rewrite <-Nat.add_1_r, <-drop_drop, Hl. done. }
    apply bind_inv in Hr as ([] & [c1 m1] & Ei & Hr).
    set (s1 := Machine (current s) (<[current s := Thread (At f (S k)) c1]> (threads s)) m1).
    assert (Es : step EStep s = Ret ((), s1)).
    { unfold step. rewrite Hth. unfold exec. cbn [pt regs]. by rewrite Hk, Ei. }
    simpl. rewrite (bind_Ret _ _ _ _ _ Es).
    rewrite (IH s1 f (S k) c1 c' m'); [|apply lookup_insert_eq|done..].
    unfold s1. simpl. rewrite insert_insert_eq. by rewrite Nat.add_succ_r.
Qed.

Lemma run_app es1 es2 s s' :
  run es1 s = Ret ((), s') → run (es1 ++ es2) s = run es2 s'.
Proof using Type.
  revert s. induction es1 as [|e es1 IH]; intros s Hr; simpl in Hr |- *.
  - unfold skip, mret, M_ret in Hr. by injection Hr as <-.
  - apply bind_inv in Hr as ([] & s1 & E & Hr). rewrite (bind_Ret _ _ _ _ _ E). by apply IH.
Qed.

(** try_lock, or one turn of the loop of lock, from beginning to end. *)
Definition one_try (f : call) : list event :=
  ECall f :: replicate (length (set_code)) EStep ++ [EStep].

Lemma one_try_run f s c b :
  f ≠ CUnlock → threads s !! current s = Some (Thread Outside c) → 0 ≤ psr c →
  mem s !! 0 = Some (Z.b2z b) → ∃ c' p, after f b = Ret p ∧
    run (one_try f) s = Ret ((), Machine (current s)
      (<[current s := Thread p c']> (threads s)) (<[0 := 1]> (mem s))).
Proof using P.
  intros Hf Hth Hc Hm. destruct (set_solo c (mem s) b Hc Hm) as (c' & Er & Eb).
  assert (Hcode : code f = set_code) by by destruct f.
  assert (∃ p, after f b = Ret p) as [p Ep] by (destruct f; [by eexists..|done]).
  exists c', p. split; [done|]. unfold one_try.
  set (s1 := Machine (current s) (<[current s := Thread (At f 0) c]> (threads s)) (mem s)).
  assert (Es : step (ECall f) s = Ret ((), s1)).
  { unfold step. rewrite Hth. cbn [pt regs]. unfold may_call.
    rewrite bool_decide_true by (by destruct f). done. }
  cbn [run]. rewrite (bind_Ret _ _ _ _ _ Es).
  rewrite <-Hcode in Er |- *.
  rewrite (run_app _ _ _ _ (steps_run (code f) s1 f 0 c c' _ (lookup_insert_eq _ _ _) eq_refl Er)).
  unfold s1. simpl. rewrite insert_insert_eq. unfold mbind, M_bind, step. simpl.
  rewrite lookup_insert_eq. unfold exec. cbn [pt regs].
  rewrite (lookup_ge_None_2 (code f)) by done. rewrite Eb, Ep. unfold put. simpl.
  by rewrite insert_insert_eq.
Qed.
End Solo.

(** Alone, the code of a bit operation is the function of [Bits]. *)
Definition returns (A : arch_locks) (f : call) (c : cpu) (m : words)
    (b : bool) (st : Z) (m' : words) : Prop :=
  ∃ c', run_code (code f) (c, m) = Ret ((), (c', m')) ∧ returned c' = b ∧ psr c' = st.

Lemma x86_codes_solo c m b : m !! 0 = Some (Z.b2z b) →
  (∃ m', x86_test_and_set_bit 0 m = Ret (b, m') ∧ returns x86_locks CTry c m b (psr c) m') ∧
  (∃ m', x86_test_and_clear_bit 0 m = Ret (b, m') ∧ returns x86_locks CUnlock c m b (psr c) m').
Proof.
  intros E. unfold x86_test_and_set_bit, x86_test_and_clear_bit.
  rewrite (bind_Ret _ _ _ _ _ (lock_bts _ _ E)), (bind_Ret _ _ _ _ _ (lock_btr _ _ E)).
  split; eexists; (split; [by destruct b|]); unfold returns; cbn;
    unfold mbind, M_bind, btsl, btrl, access; cbn;
    rewrite ?(lock_bts _ _ E), ?(lock_btr _ _ E); cbn; eexists; (split; [done|]); by destruct b.
Qed.

Lemma arm_code_solo str v c m b : 0 ≤ psr c → m !! 0 = Some (Z.b2z b) →
  (∀ c, res c = Z.b2z b → str (c, m) = Ret ((), (c, <[0 := v]> m))) →
  ∃ c', run_code [mrs; orr; msr_temp; ldr; str; msr_flags] (c, m) = Ret ((), (c', <[0 := v]> m)) ∧
    returned (arch_locks := arm_locks) c' = b ∧ psr c' = psr c.
Proof.
  intros Hc E Hs. cbn [run_code]. unfold mrs, orr, msr_temp, msr_flags, reg.
  unfold mbind at 1 2 3 4, M_bind at 1 2 3 4. unfold ldr, access. cbn [fst snd psr flags temp].
  rewrite (lock_load _ _ E). unfold mbind, M_bind. rewrite Hs by done. cbn [fst snd skip mret M_ret].
  eexists. split; [done|]. split; [by destruct b|]. cbn [psr flags].
  rewrite mask_control. apply unmask_control.
Qed.

Lemma arm_codes_solo c m b : 0 ≤ psr c → m !! 0 = Some (Z.b2z b) →
  (∃ m', arm_test_and_set_bit 0 (psr c, m) = Ret (b, (psr c, m')) ∧
     returns arm_locks CTry c m b (psr c) m') ∧
  (∃ m', arm_test_and_clear_bit 0 (psr c, m) = Ret (b, (psr c, m')) ∧
     returns arm_locks CUnlock c m b (psr c) m').
Proof.
  intros Hc E. split; eexists; split.
  - unfold arm_test_and_set_bit. erewrite bind_Ret by (apply irq_off_run; [done|];
      mrun (lock_load _ _ E); mrun (lock_store _ (Z.lor (Z.b2z b) 1) _ E); reflexivity).
    by destruct b.
  - apply arm_code_solo; [done..|]. intros c' Hr. unfold str_set, access. simpl.
    by rewrite Hr, (lock_store _ _ _ E).
  - unfold arm_test_and_clear_bit. erewrite bind_Ret by (apply irq_off_run; [done|];
      mrun (lock_load _ _ E); mrun (lock_store _ (Z.land (Z.b2z b) (u32 (Z.lnot 1))) _ E); reflexivity).
    by destruct b.
  - apply arm_code_solo; [done..|]. intros c' Hr. unfold str_clear, access. simpl.
    by rewrite Hr, (lock_store _ _ _ E).
Qed.

(** ** The property *)
Lemma start_inv {A : arch_locks} {P : ArchLocks A} m m0 cur ths :
  lock_init m = Ret ((), m0) → is_Some (ths !! cur) →
  map_Forall (λ _ th, pt th = Outside ∧ 0 ≤ psr (regs th)) ths →
  ∃ st, (∀ p, 0 ≤ st p) ∧ (∀ p th, ths !! p = Some th → st p = psr (regs th)) ∧
    machine_inv st m (Machine cur ths m0) None.
Proof.
  intros Hm Hc Ho. exists (λ p, match ths !! p with Some th => psr (regs th) | None => 0 end).
  unfold lock_init, store in Hm. destruct (m !! 0); [|done]. injection Hm as <-. split_and!.
  - intros p. destruct (ths !! p) as [th|] eqn:E; [|lia]. by apply (Ho _ _ E).
  - by intros p th ->.
  - split; simpl; try done; intros p th; [|intros w]; intros E; destruct (Ho _ _ E) as [-> _]; [|done].
    by rewrite E.
Qed.

Lemma holds_owner {A : arch_locks} {P : ArchLocks A} st m s owner p :
  machine_inv st m s owner → holds s p → owner = Some p.
Proof.
  intros Hi Hp. unfold holds in Hp. destruct (threads s !! p) as [th|] eqn:E; [|done].
  injection Hp as Hp. pose proof (mi_ann _ _ _ _ Hi _ _ E) as Ha. rewrite Hp in Ha.
  destruct Ha as [_ Ha]. by apply bool_decide_eq_true in Ha.
Qed.

(** Between calls. *)
Definition idle (p : point) : Prop := match p with At _ _ => False | _ => True end.
#[export] Instance idle_dec p : Decision (idle p).
Proof. destruct p; apply _. Defined.

Lemma idle_owner {A : arch_locks} {P : ArchLocks A} st m s owner p :
  machine_inv st m s owner → map_Forall (λ _ th, idle (pt th)) (threads s) →
  owner = Some p → holds s p.
Proof.
  intros Hi Hq Ho. destruct (mi_owner _ _ _ _ Hi _ Ho) as [th E]. unfold holds. rewrite E. simpl.
  pose proof (mi_ann _ _ _ _ Hi _ _ E) as Ha. pose proof (Hq _ _ E) as Hid.
  assert (mine owner p = true) as Hm by by apply bool_decide_true.
  cbv beta in Hid. destruct (pt th) as [| |f k|]; [|done|done|]; simpl in Ha; destruct Ha; congruence.
Qed.

(** C36. Locks exclude each other under preemption, on x86 and on ARM.  Start
    with an initialised lock and any processes outside the lock functions, and
    run any sequence of events: the running process calls try_lock or lock, or
    unlock when it has the lock; it executes one instruction of the bit
    operation; the timer hands the processor to another process when the
    running one can be interrupted; schedule() in the loop of lock() does.
    Then no instruction faults and unlock does not panic; at most one process
    has the lock; a process that is not inside a call has the status word, and
    so the interrupt mask, it started with; no other word has changed.  And
    when no process is inside a call, a process that calls try_lock or lock
    and is not interrupted gets the lock if nobody has it; otherwise try_lock
    fails or lock goes on to schedule(), and the holder keeps the lock. *)
Theorem lock_mutual_exclusion a m m0 cur ths es : let A := locks a in
  lock_init m = Ret ((), m0) → is_Some (ths !! cur) →
  map_Forall (λ _ th, pt th = Outside ∧ 0 ≤ psr (regs th)) ths →
  ∃ s, run es (Machine cur ths m0) = Ret ((), s) ∧
    (∀ p q, holds s p → holds s q → p = q) ∧
    (∀ p th th0, threads s !! p = Some th → ths !! p = Some th0 → idle (pt th) →
       psr (regs th) = psr (regs th0)) ∧
    (∀ j, j ≠ 0 → mem s !! j = m !! j) ∧
    ∀ f, f ≠ CUnlock → map_Forall (λ _ th, idle (pt th)) (threads s) →
      pt <$> threads s !! current s = Some Outside →
      ∃ s', run (one_try f) s = Ret ((), s') ∧
        ((∀ p, ¬ holds s p) → holds s' (current s)) ∧
        ∀ p, holds s p → holds s' p ∧
          pt <$> threads s' !! current s = Some (if bool_decide (f = CLock) then Waiting else Outside).
Proof.
  intros A Hm0 Hc Ho. assert (ArchLocks A) as P by (destruct a; apply _).
  destruct (start_inv m m0 cur ths Hm0 Hc Ho) as (st & Hst & Hpsr & Hi0).
  destruct (run_inv st m Hst es _ _ Hi0) as (s & owner & Er & Hi). exists s. split; [done|].
  split_and!.
  - intros p q Hp Hq. apply (holds_owner _ _ _ _ _ Hi) in Hp, Hq. congruence.
  - intros p th th0 E E0 Hid. rewrite <-(Hpsr _ _ E0). pose proof (mi_ann _ _ _ _ Hi _ _ E) as Ha.
    destruct (pt th); try done; by destruct Ha.
  - intros j Hj. rewrite (mi_word _ _ _ _ Hi). by rewrite lookup_insert_ne.
  - intros f Hf Hq Hcur. destruct (threads s !! current s) as [[p c]|] eqn:E; [|done].
    injection Hcur as ->. pose proof (mi_ann _ _ _ _ Hi _ _ E) as [Hps Hmi]. simpl in Hps.
    destruct (one_try_run f s c (taken owner)) as (c' & p & Ep & Er'); try done.
    { rewrite Hps. apply Hst. }
    { by rewrite (mi_word _ _ _ _ Hi), lookup_insert_eq. }
    eexists. split; [exact Er'|]. unfold holds. simpl. rewrite lookup_insert_eq. simpl. split.
    + intros Hno. assert (owner = None) as ->.
      { destruct owner as [o|]; [|done]. exfalso. by eapply Hno, idle_owner. }
      destruct f; try done; simpl in Ep; by injection Ep as <-.
    + intros q Hh. pose proof (holds_owner _ _ _ _ _ Hi Hh) as ->.
      assert (q ≠ current s) by (intros ->; unfold mine in Hmi; by rewrite bool_decide_true in Hmi).
      rewrite lookup_insert_ne by done. split; [exact Hh|].
      destruct f; try done; simpl in Ep; by injection Ep as <-.
Qed.

(** Three processes on ARM.  The first is interrupted inside lock(), the second
    inside try_lock; the interrupt that comes between the load and the store of
    the first stays pending; the second fails, the first has the lock, and the
    second calls lock() and waits. *)
Definition ex_cpu (st : Z) : cpu := Cpu st 0 0 0 false 0.
Definition ex_threads : gmap Z thread :=
  {[ 1 := Thread Outside (ex_cpu 19); 2 := Thread Outside (ex_cpu 19); 3 := Thread Outside (ex_cpu 147) ]}.
Definition ex_events : list event :=
  [ECall CLock; EStep; EIrq 2; ECall CTry; EStep; EStep; EIrq 1; EStep; EStep; EStep; EIrq 2; EStep;
   EStep; EIrq 2; EStep; EStep; EStep; EStep; EStep; EIrq 1; EStep; EIrq 2].
Definition ex_final : machine :=
  match run (A := locks ARM) ex_events (Machine 1 ex_threads {[ 0 := 0; 4 := 7 ]}) with
  | Ret (_, s) => s
  | _ => Machine 0 ∅ ∅
  end.

Lemma lock_mutual_exclusion_witness :
  run (A := locks ARM) ex_events (Machine 1 ex_threads {[ 0 := 0; 4 := 7 ]}) = Ret ((), ex_final) ∧
  mem ex_final !! 4 = Some 7 ∧ (∀ p, holds ex_final p → p = 1) ∧
  ∃ s', run (A := locks ARM) (one_try (A := locks ARM) CLock) ex_final = Ret ((), s') ∧
    holds s' 1 ∧ pt <$> threads s' !! 2 = Some Waiting.
Proof.
  destruct (lock_mutual_exclusion ARM {[ 0 := 9; 4 := 7 ]} {[ 0 := 0; 4 := 7 ]} 1 ex_threads ex_events)
    as (s & Er & Hx & _ & Hm & Htry).
  - by vm_compute.
  - eexists. by vm_compute.
  - apply map_Forall_to_list. repeat (constructor; [by split|]). constructor.
  - assert (s = ex_final) as -> by (unfold ex_final; by rewrite Er).
    assert (H1 : holds ex_final 1) by by vm_compute.
    split; [exact Er|]. split; [by rewrite Hm|]. split; [intros p Hp; exact (Hx p 1 Hp H1)|].
    destruct (Htry CLock) as (s' & Es & _ & Hh).
    + done.
    + apply (bool_decide_unpack _). by vm_compute.
    + by vm_compute.
    + exists s'. split; [exact Es|]. exact (Hh 1 H1).
Defined.
