(* ===== verification/CString.v ===== *)
(** * lib/string.c and the string instructions of arch/x86/include/x86.h

    Memory is a map from addresses to bytes.  Loops that run to a terminator
    take fuel; loops over a count recurse on it.  The x86 versions model the
    lods, stos, scas and movs instructions byte by byte. *)
From stdpp Require Import base gmap list fin_maps.
From Stdlib Require Import ZArith Lia.
From Stdlib Require Import Ascii.
From S2P Require Import Prelude.

(** The codes of the characters of a string. *)
Definition codes (s : String.string) : list Z :=
  (λ c, Z.of_N (N_of_ascii c)) <$> String.list_ascii_of_string s.

Abbreviation mem := (gmap Z Z).

Definition rd (p : Z) : M mem Z := λ m,
  match m !! p with Some b => Ret (b, m) | None => Fault end.
Definition wr (p b : Z) : M mem unit := λ m,
  match m !! p with Some _ => Ret ((), <[p := b]> m) | None => Fault end.

(** ** String functions *)
Fixpoint strlen_loop (fuel : nat) (s cnt : Z) : M mem Z :=
  match fuel with
  | O => out_of_fuel
  | S fuel => c ← rd s; if bool_decide (c ≠ 0) then strlen_loop fuel (s + 1) (u32 (cnt + 1)) else mret cnt
  end.
Definition strlen (fuel : nat) (s : Z) : M mem Z := strlen_loop fuel s 0.

Fixpoint strnlen_loop (fuel : nat) (s len cnt : Z) : M mem Z :=
  match fuel with
  | O => out_of_fuel
  | S fuel =>
    if bool_decide (cnt < len) then
      c ← rd s;
      if bool_decide (c ≠ 0) then strnlen_loop fuel (s + 1) len (u32 (cnt + 1)) else mret cnt
    else mret cnt
  end.
Definition strnlen (fuel : nat) (s len : Z) : M mem Z := strnlen_loop fuel s len 0.

Fixpoint strcpy_loop (fuel : nat) (p src : Z) : M mem unit :=
  match fuel with
  | O => out_of_fuel
  | S fuel =>
    c ← rd src; wr p c;;
    if bool_decide (c ≠ 0) then strcpy_loop fuel (p + 1) (src + 1) else skip
  end.
Definition strcpy (fuel : nat) (dst src : Z) : M mem Z := strcpy_loop fuel dst src;; mret dst.

Fixpoint strncpy_loop (len : nat) (p src : Z) : M mem unit :=
  match len with
  | O => skip
  | S len =>
    c ← rd src; wr p c;;
    strncpy_loop len (p + 1) (if bool_decide (c ≠ 0) then src + 1 else src)
  end.
Definition strncpy (dst src len : Z) : M mem Z :=
  strncpy_loop (Z.to_nat len) dst src;; mret dst.

Fixpoint strcmp (fuel : nat) (s1 s2 : Z) : M mem Z :=
  match fuel with
  | O => out_of_fuel
  | S fuel =>
    c1 ← rd s1;
    more ← (if bool_decide (c1 ≠ 0) then c2 ← rd s2; mret (bool_decide (c1 = c2)) else mret false);
    if (more : bool) then strcmp fuel (s1 + 1) (s2 + 1)
    else c1 ← rd s1; c2 ← rd s2; mret (s32 (u8 c1 - u8 c2))
  end.

Fixpoint strncmp (n : nat) (s1 s2 : Z) : M mem Z :=
  match n with
  | O => mret 0
  | S n' =>
    c1 ← rd s1;
    more ← (if bool_decide (c1 ≠ 0) then c2 ← rd s2; mret (bool_decide (c1 = c2)) else mret false);
    if (more : bool) then strncmp n' (s1 + 1) (s2 + 1)
    else c1 ← rd s1; c2 ← rd s2; mret (s32 (u8 c1 - u8 c2))
  end.

Fixpoint strchr (fuel : nat) (s c : Z) : M mem Z :=
  match fuel with
  | O => out_of_fuel
  | S fuel =>
    b ← rd s;
    if bool_decide (b ≠ 0) then
      if bool_decide (b = c) then mret s else strchr fuel (s + 1) c
    else mret 0
  end.

Fixpoint strfind (fuel : nat) (s c : Z) : M mem Z :=
  match fuel with
  | O => out_of_fuel
  | S fuel =>
    b ← rd s;
    if bool_decide (b ≠ 0) then
      if bool_decide (b = c) then mret s else strfind fuel (s + 1) c
    else mret s
  end.

(** *** strtol *)
Fixpoint skip_blanks (fuel : nat) (s : Z) : M mem Z :=
  match fuel with
  | O => out_of_fuel
  | S fuel =>
    c ← rd s;
    if bool_decide (c = 32 ∨ c = 9) then skip_blanks fuel (s + 1) else mret s
  end.

(** The digit value of a (signed) character. *)
Definition digit_value (c : Z) : option Z :=
  let c := s8 c in
  if bool_decide (48 ≤ c ≤ 57) then Some (c - 48)
  else if bool_decide (97 ≤ c ≤ 122) then Some (c - 97 + 10)
  else if bool_decide (65 ≤ c ≤ 90) then Some (c - 65 + 10)
  else None.

Fixpoint strtol_digits (fuel : nat) (s val base : Z) : M mem (Z * Z) :=
  match fuel with
  | O => out_of_fuel
  | S fuel =>
    c ← rd s;
    match digit_value c with
    | None => mret (s, val)
    | Some dig =>
      if bool_decide (dig >= base) then mret (s, val)
      else strtol_digits fuel (s + 1) (s32 (val * base + dig)) base
    end
  end.

(** The value and the end pointer. *)
Definition strtol (fuel : nat) (s base : Z) : M mem (Z * Z) :=
  s ← skip_blanks fuel s;
  c ← rd s;
  let '(s, neg) := if bool_decide (c = 43) then (s + 1, false)
                   else if bool_decide (c = 45) then (s + 1, true) else (s, false) in
  hex ← (if bool_decide (base = 0 ∨ base = 16) then
           c0 ← rd s;
           if bool_decide (c0 = 48) then c1 ← rd (s + 1); mret (bool_decide (c1 = 120))
           else mret false
         else mret false);
  '(s, base) ← (if (hex : bool) then mret (s + 2, 16)
                else if bool_decide (base = 0) then
                  c0 ← rd s;
                  if bool_decide (c0 = 48) then mret (s + 1, 8) else mret (s, 10)
                else mret (s, base));
  '(s, val) ← strtol_digits fuel s 0 base;
  mret (if (neg : bool) then s32 (- val) else val, s).

(** ** Memory functions *)
Fixpoint memset_loop (n : nat) (p c : Z) : M mem unit :=
  match n with O => skip | S n => wr p c;; memset_loop n (p + 1) c end.
Definition memset (s c n : Z) : M mem Z := memset_loop (Z.to_nat n) s c;; mret s.

(** while (n -- > 0) *d ++ = *s ++; *)
Fixpoint copy_forward (n : nat) (d s : Z) : M mem unit :=
  match n with O => skip | S n => c ← rd s; wr d c;; copy_forward n (d + 1) (s + 1) end.
(** while (n -- > 0) *-- d = *-- s; *)
Fixpoint copy_backward (n : nat) (d s : Z) : M mem unit :=
  match n with
  | O => skip
  | S n => c ← rd (s - 1); wr (d - 1) c;; copy_backward n (d - 1) (s - 1)
  end.

Definition memmove (dst src n : Z) : M mem Z :=
  (if bool_decide (src < dst ∧ src + n > dst)
   then copy_backward (Z.to_nat n) (dst + n) (src + n)
   else copy_forward (Z.to_nat n) dst src);;
  mret dst.

Definition memcpy (dst src n : Z) : M mem Z := copy_forward (Z.to_nat n) dst src;; mret dst.

Fixpoint memcmp (n : nat) (s1 s2 : Z) : M mem Z :=
  match n with
  | O => mret 0
  | S n =>
    c1 ← rd s1; c2 ← rd s2;
    if bool_decide (c1 ≠ c2) then mret (s32 (u8 c1 - u8 c2)) else memcmp n (s1 + 1) (s2 + 1)
  end.

(** ** The x86 versions *)

(** 1: lodsb; scasb; jne 2f; testb al, al; jne 1b; xorl eax, eax; jmp 3f;
    2: sbbl eax, eax; orb $1, al; 3: *)
Fixpoint __strcmp (fuel : nat) (esi edi : Z) : M mem Z :=
  match fuel with
  | O => out_of_fuel
  | S fuel =>
    al ← rd esi; b ← rd edi;
    if bool_decide (al ≠ b) then
      let cf := bool_decide (al < b) in
      let eax := if cf then 2 ^ 32 - 1 else 0 in
      mret (s32 (Z.lor eax 1))
    else if bool_decide (al ≠ 0) then __strcmp fuel (esi + 1) (edi + 1)
    else mret 0
  end.

(** 1: lodsb; stosb; testb al, al; jne 1b *)
Fixpoint x86_strcpy_loop (fuel : nat) (esi edi : Z) : M mem unit :=
  match fuel with
  | O => out_of_fuel
  | S fuel =>
    al ← rd esi; wr edi al;;
    if bool_decide (al ≠ 0) then x86_strcpy_loop fuel (esi + 1) (edi + 1) else skip
  end.
Definition __strcpy (fuel : nat) (dst src : Z) : M mem Z := x86_strcpy_loop fuel src dst;; mret dst.

(** rep; stosb *)
Fixpoint rep_stosb (ecx : nat) (edi al : Z) : M mem unit :=
  match ecx with O => skip | S ecx => wr edi al;; rep_stosb ecx (edi + 1) al end.
Definition __memset (s c n : Z) : M mem Z := rep_stosb (Z.to_nat n) s c;; mret s.

(** movsl copies a word: four reads, then four writes. *)
Fixpoint rep_movsl (ecx : nat) (edi esi : Z) : M mem (Z * Z) :=
  match ecx with
  | O => mret (edi, esi)
  | S ecx =>
    b0 ← rd esi; b1 ← rd (esi + 1); b2 ← rd (esi + 2); b3 ← rd (esi + 3);
    wr edi b0;; wr (edi + 1) b1;; wr (edi + 2) b2;; wr (edi + 3) b3;;
    rep_movsl ecx (edi + 4) (esi + 4)
  end.
Fixpoint rep_movsb (ecx : nat) (edi esi : Z) : M mem unit :=
  match ecx with O => skip | S ecx => b ← rd esi; wr edi b;; rep_movsb ecx (edi + 1) (esi + 1) end.
(** With the direction flag set. *)
Fixpoint rep_movsb_down (ecx : nat) (edi esi : Z) : M mem unit :=
  match ecx with
  | O => skip
  | S ecx => b ← rd esi; wr edi b;; rep_movsb_down ecx (edi - 1) (esi - 1)
  end.

Definition __memcpy (dst src n : Z) : M mem Z :=
  '(edi, esi) ← rep_movsl (Z.to_nat (n / 4)) dst src;
  let ecx := Z.land n 3 in
  (if bool_decide (ecx = 0) then skip else rep_movsb (Z.to_nat ecx) edi esi);;
  mret dst.

Definition __memmove (dst src n : Z) : M mem Z :=
  if bool_decide (dst < src) then __memcpy dst src n
  else rep_movsb_down (Z.to_nat n) (n - 1 + dst) (n - 1 + src);; mret dst.

(** ** Copies *)
Definition valid (m : mem) (p n : Z) : Prop := ∀ a, p ≤ a < p + n → is_Some (m !! a).

(** [m'] is [m] with the [n] bytes at [d] replaced by those of [m] at [s]. *)
Definition copied (m m' : mem) (d s n : Z) : Prop :=
  ∀ a, m' !! a = if bool_decide (d ≤ a < d + n) then m !! (a - d + s) else m !! a.

Lemma valid_compute m p n :
  forallb (λ i, bool_decide (is_Some (m !! (p + Z.of_nat i)))) (seq 0 (Z.to_nat n)) = true →
  valid m p n.
Proof.
  intros H a Ha. rewrite forallb_forall in H. specialize (H (Z.to_nat (a - p))).
  replace (p + Z.of_nat (Z.to_nat (a - p))) with a in H by lia.
  apply (bool_decide_eq_true_1 _), H, in_seq. lia.
Qed.

Lemma rd_run m p b : m !! p = Some b → rd p m = Ret (b, m).
Proof. intros E. unfold rd. by rewrite E. Qed.
Lemma wr_run m p b : is_Some (m !! p) → wr p b m = Ret ((), <[p := b]> m).
Proof. intros [? E]. unfold wr. by rewrite E. Qed.

Lemma copied_0 m d s : copied m m d s 0.
Proof. intros a. by rewrite bool_decide_false by lia. Qed.

Lemma copied_valid m m' d s n p k :
  copied m m' d s n → valid m s n → valid m p k → valid m' p k.
Proof.
  intros Hc Hs Hp a Ha. rewrite Hc. case_bool_decide; [apply Hs; lia|by apply Hp].
Qed.

(** A forward copy in two parts, when the destination is not inside the
    source above its start. *)
Lemma copied_app m m1 m2 d s k l :
  0 ≤ k → 0 ≤ l → d ≤ s ∨ s + k + l ≤ d →
  copied m m1 d s k → copied m1 m2 (d + k) (s + k) l → copied m m2 d s (k + l).
Proof.
  intros Hk Hl Hov H1 H2 a. rewrite H2. case_bool_decide as Ea.
  - rewrite (bool_decide_true (d ≤ a < _)) by lia. rewrite H1, bool_decide_false by lia.
    f_equal. lia.
  - rewrite H1. case_bool_decide as Eb.
    + by rewrite bool_decide_true by lia.
    + by rewrite bool_decide_false by lia.
Qed.

(** A backward copy: the upper part first. *)
Lemma copied_app_down m m1 m2 d s k l :
  0 ≤ k → 0 ≤ l → s ≤ d →
  copied m m1 (d + k) (s + k) l → copied m1 m2 d s k → copied m m2 d s (k + l).
Proof.
  intros Hk Hl Hov H1 H2 a. rewrite H2. case_bool_decide as Ea.
  - rewrite (bool_decide_true (d ≤ a < _)) by lia. rewrite H1, bool_decide_false by lia. done.
  - rewrite H1. case_bool_decide as Eb.
    + rewrite bool_decide_true by lia. f_equal. lia.
    + by rewrite bool_decide_false by lia.
Qed.

Lemma copied_1 m d s b : m !! s = Some b → copied m (<[d := b]> m) d s 1.
Proof.
  intros E a. case_bool_decide.
  - assert (a = d) as -> by lia. rewrite lookup_insert_eq, <-E. f_equal. lia.
  - by rewrite lookup_insert_ne by lia.
Qed.

Lemma copy_forward_spec n m d s :
  valid m d (Z.of_nat n) → valid m s (Z.of_nat n) → d ≤ s ∨ s + Z.of_nat n ≤ d →
  ∃ m', copy_forward n d s m = Ret ((), m') ∧ copied m m' d s (Z.of_nat n).
Proof.
  revert m d s. induction n as [|n IH]; intros m d s Hd Hs Hov.
  - exists m. split; [done|apply copied_0].
  - rewrite Nat2Z.inj_succ in *. destruct (Hs s) as [b Hb]; [lia|].
    pose proof (copied_1 m d s b Hb) as H1.
    assert (Hs1 : valid m s 1) by (intros a Ha; apply Hs; lia).
    destruct (IH (<[d := b]> m) (d + 1) (s + 1)) as (m' & E & H2).
    + eapply copied_valid; [exact H1|done|]. intros a Ha. apply Hd. lia.
    + eapply copied_valid; [exact H1|done|]. intros a Ha. apply Hs. lia.
    + lia.
    + exists m'. split.
      * simpl. mrun (rd_run _ _ _ Hb). mrun (wr_run m d b ltac:(apply Hd; lia)). done.
      * replace (Z.succ (Z.of_nat n)) with (1 + Z.of_nat n) by lia.
        eapply copied_app; [lia..| |exact H1|exact H2]. lia.
Qed.

Lemma copy_backward_spec n m d s :
  valid m d (Z.of_nat n) → valid m s (Z.of_nat n) → s ≤ d →
  ∃ m', copy_backward n (d + Z.of_nat n) (s + Z.of_nat n) m = Ret ((), m') ∧
    copied m m' d s (Z.of_nat n).
Proof.
  revert m. induction n as [|n IH]; intros m Hd Hs Hov.
  - exists m. split; [done|apply copied_0].
  - rewrite Nat2Z.inj_succ in *. destruct (Hs (s + Z.of_nat n)) as [b Hb]; [lia|].
    pose proof (copied_1 m (d + Z.of_nat n) (s + Z.of_nat n) b Hb) as H1.
    assert (Hs1 : valid m (s + Z.of_nat n) 1) by (intros a Ha; apply Hs; lia).
    destruct (IH (<[d + Z.of_nat n := b]> m)) as (m' & E & H2).
    + eapply copied_valid; [exact H1|done|]. intros a Ha. apply Hd. lia.
    + eapply copied_valid; [exact H1|done|]. intros a Ha. apply Hs. lia.
    + done.
    + exists m'. split.
      * simpl. replace (s + Z.succ (Z.of_nat n) - 1) with (s + Z.of_nat n) by lia.
        replace (d + Z.succ (Z.of_nat n) - 1) with (d + Z.of_nat n) by lia.
        mrun (rd_run _ _ _ Hb). mrun (wr_run m (d + Z.of_nat n) b ltac:(apply Hd; lia)). done.
      * replace (Z.succ (Z.of_nat n)) with (Z.of_nat n + 1) by lia.
        eapply copied_app_down; [lia..| |exact H1|exact H2]. lia.
Qed.

(** The instructions do what the loops do. *)
Lemma rep_movsb_forward n d s m : rep_movsb n d s m = copy_forward n d s m.
Proof. reflexivity. Qed.
Lemma rep_movsb_down_backward n d s m :
  rep_movsb_down n (d - 1) (s - 1) m = copy_backward n d s m.
Proof.
  revert d s m. induction n as [|n IH]; intros d s m; simpl; [done|].
  unfold mbind, M_bind. destruct (rd _ m) as [[]| | |]; try done.
  destruct (wr _ _ _) as [[]| | |]; try done.
Qed.

Lemma movsl_spec m d s :
  valid m d 4 → valid m s 4 → ∃ m' b0 b1 b2 b3,
    m !! s = Some b0 ∧ m !! (s + 1) = Some b1 ∧ m !! (s + 2) = Some b2 ∧ m !! (s + 3) = Some b3 ∧
    m' = <[d + 3 := b3]> (<[d + 2 := b2]> (<[d + 1 := b1]> (<[d := b0]> m))) ∧
    copied m m' d s 4.
Proof.
  intros Hd Hs. destruct (Hs s) as [b0 H0]; [lia|]. destruct (Hs (s + 1)) as [b1 H1]; [lia|].
  destruct (Hs (s + 2)) as [b2 H2]; [lia|]. destruct (Hs (s + 3)) as [b3 H3]; [lia|].
  eexists _, b0, b1, b2, b3. split_and!; try done. intros a. case_bool_decide as Ha.
  - assert (a = d ∨ a = d + 1 ∨ a = d + 2 ∨ a = d + 3) as [->|[->|[->| ->]]] by lia.
    + rewrite !lookup_insert_ne, lookup_insert_eq by lia. rewrite <-H0. f_equal. lia.
    + rewrite !lookup_insert_ne, lookup_insert_eq by lia. rewrite <-H1. f_equal. lia.
    + rewrite !lookup_insert_ne, lookup_insert_eq by lia. rewrite <-H2. f_equal. lia.
    + rewrite lookup_insert_eq. rewrite <-H3. f_equal. lia.
  - by rewrite !lookup_insert_ne by lia.
Qed.

Lemma rep_movsl_spec n m d s :
  valid m d (4 * Z.of_nat n) → valid m s (4 * Z.of_nat n) → d ≤ s ∨ s + 4 * Z.of_nat n ≤ d →
  ∃ m', rep_movsl n d s m = Ret ((d + 4 * Z.of_nat n, s + 4 * Z.of_nat n), m') ∧
    copied m m' d s (4 * Z.of_nat n).
Proof.
  revert m d s. induction n as [|n IH]; intros m d s Hd Hs Hov.
  - exists m. split; [|apply copied_0]. simpl. unfold mret, M_ret. do 3 f_equal; lia.
  - rewrite Nat2Z.inj_succ in *.
    destruct (movsl_spec m d s) as (m1 & b0 & b1 & b2 & b3 & H0 & H1 & H2 & H3 & Em & Hc).
    { intros a Ha. apply Hd. lia. } { intros a Ha. apply Hs. lia. }
    assert (Hs4 : valid m s 4) by (intros a Ha; apply Hs; lia).
    destruct (IH m1 (d + 4) (s + 4)) as (m' & E & Hc2).
    + eapply copied_valid; [exact Hc|done|]. intros a Ha. apply Hd. lia.
    + eapply copied_valid; [exact Hc|done|]. intros a Ha. apply Hs. lia.
    + lia.
    + exists m'. split.
      * simpl. mrun (rd_run _ _ _ H0). mrun (rd_run _ _ _ H1). mrun (rd_run _ _ _ H2).
        mrun (rd_run _ _ _ H3).
        assert (Hin : ∀ (m2 : mem) a b, is_Some (m !! a) → dom m2 = dom m → is_Some (m2 !! a) ∧ dom (<[a := b]> m2) = dom m).
        { intros m2 a b Ha Hdom. assert (is_Some (m2 !! a)) as Hx
            by (apply elem_of_dom; rewrite Hdom; by apply elem_of_dom).
          split; [done|]. by rewrite dom_insert_lookup_L. }
        destruct (Hin m d b0) as [_ D1]; [apply Hd; lia|done|].
        destruct (Hin _ (d + 1) b1 ltac:(apply Hd; lia) D1) as [I1 D2].
        destruct (Hin _ (d + 2) b2 ltac:(apply Hd; lia) D2) as [I2 D3].
        destruct (Hin _ (d + 3) b3 ltac:(apply Hd; lia) D3) as [I3 _].
        mrun (wr_run m d b0 ltac:(apply Hd; lia)).
        mrun (wr_run _ (d + 1) b1 I1). mrun (wr_run _ (d + 2) b2 I2). mrun (wr_run _ (d + 3) b3 I3).
        rewrite <-Em, E. do 3 f_equal; lia.
      * replace (4 * Z.succ (Z.of_nat n)) with (4 + 4 * Z.of_nat n) by lia.
        eapply copied_app; [lia..| |exact Hc|exact Hc2]. lia.
Qed.

(** ** Strings in memory *)
Fixpoint cstr (m : mem) (p : Z) (cs : list Z) : Prop :=
  match cs with
  | [] => m !! p = Some 0
  | c :: cs => m !! p = Some c ∧ 0 < c < 256 ∧ cstr m (p + 1) cs
  end.

Lemma strlen_loop_spec fuel m p cs cnt :
  (length cs < fuel)%nat → cstr m p cs → 0 ≤ cnt → cnt + Z.of_nat (length cs) < 2 ^ 32 →
  strlen_loop fuel p cnt m = Ret (cnt + Z.of_nat (length cs), m).
Proof.
  revert p cs cnt. induction fuel as [|fuel IH]; intros p cs cnt Hf Hs H0 Hb; [lia|].
  destruct cs as [|c cs]; simpl in *.
  - mrun (rd_run _ _ _ Hs). rewrite bool_decide_false by lia. unfold mret, M_ret. by rewrite Z.add_0_r.
  - destruct Hs as (Hp & Hc & Hs). mrun (rd_run _ _ _ Hp). rewrite bool_decide_true by lia.
    rewrite u32_small by (unfold is_u32; lia).
    rewrite (IH _ cs); [|lia|done|lia|lia]. do 2 f_equal. lia.
Qed.

Lemma strnlen_loop_spec fuel m p cs len cnt :
  (length cs < fuel)%nat → cstr m p cs → 0 ≤ cnt → cnt ≤ len → len < 2 ^ 32 →
  strnlen_loop fuel p len cnt m = Ret (Z.min len (cnt + Z.of_nat (length cs)), m).
Proof.
  revert p cs cnt. induction fuel as [|fuel IH]; intros p cs cnt Hf Hs H0 Hb Hl; [lia|].
  simpl. destruct (decide (cnt < len)) as [Hlt|Hlt].
  - rewrite bool_decide_true by done. destruct cs as [|c cs]; simpl in *.
    + mrun (rd_run _ _ _ Hs). rewrite bool_decide_false by lia. unfold mret, M_ret. do 2 f_equal. lia.
    + destruct Hs as (Hp & Hc & Hs). mrun (rd_run _ _ _ Hp). rewrite bool_decide_true by lia.
      rewrite u32_small by (unfold is_u32; lia).
      rewrite (IH _ cs); [|lia|done|lia|lia|done]. do 2 f_equal. lia.
  - rewrite bool_decide_false by done. unfold mret, M_ret. do 2 f_equal. lia.
Qed.

(** The byte-wise order of strings. *)
Fixpoint str_compare (xs ys : list Z) : Z :=
  match xs, ys with
  | [], [] => 0
  | [], y :: _ => - y
  | x :: _, [] => x
  | x :: xs, y :: ys => if bool_decide (x = y) then str_compare xs ys else x - y
  end.

Definition str_ok (cs : list Z) : Prop := Forall (λ c, 0 < c < 256) cs.
Lemma cstr_ok m p cs : cstr m p cs → str_ok cs.
Proof. revert p. induction cs as [|c cs IH]; intros p; simpl; constructor; naive_solver. Qed.

Lemma str_compare_eq xs ys : str_ok xs → str_ok ys → str_compare xs ys = 0 ↔ xs = ys.
Proof.
  unfold str_ok. revert ys. induction xs as [|x xs IH]; intros [|y ys] Hx Hy; simpl; [done|..].
  - apply Forall_cons in Hy as [Hy _]. split; [lia|done].
  - apply Forall_cons in Hx as [Hx _]. split; [lia|done].
  - apply Forall_cons in Hx as [Hx Hxs]. apply Forall_cons in Hy as [Hy Hys].
    case_bool_decide as E; [rewrite IH by done; subst; naive_solver|]. split; [lia|naive_solver].
Qed.

Lemma strcmp_spec fuel m p q xs ys :
  (length xs < fuel)%nat → cstr m p xs → cstr m q ys →
  strcmp fuel p q m = Ret (str_compare xs ys, m).
Proof.
  revert p q xs ys. induction fuel as [|fuel IH]; intros p q xs ys Hf Hx Hy; [lia|].
  assert (Hu : ∀ c, 0 ≤ c < 256 → u8 c = c) by (intros; by apply Z.mod_small).
  destruct xs as [|x xs]; simpl in Hx |- *.
  - mrun (rd_run _ _ _ Hx). rewrite bool_decide_false, bind_mret by lia.
    mrun (rd_run _ _ _ Hx). destruct ys as [|y ys]; simpl in *.
    + mrun (rd_run _ _ _ Hy). done.
    + destruct Hy as (Hq & Hc & _). mrun (rd_run _ _ _ Hq). unfold mret, M_ret.
      rewrite !Hu, s32_small by lia. do 2 f_equal.
  - destruct Hx as (Hp & Hcx & Hx). mrun (rd_run _ _ _ Hp). rewrite bool_decide_true by lia.
    destruct ys as [|y ys]; simpl in Hy.
    + rewrite bind_assoc. mrun (rd_run _ _ _ Hy). rewrite bind_mret, bool_decide_false by lia.
      mrun (rd_run _ _ _ Hp). mrun (rd_run _ _ _ Hy). unfold mret, M_ret.
      rewrite !Hu, s32_small by lia. do 2 f_equal. lia.
    + destruct Hy as (Hq & Hcy & Hy). rewrite bind_assoc. mrun (rd_run _ _ _ Hq). rewrite bind_mret.
      case_bool_decide as E; [simpl in Hf; apply IH; [lia|done..]|].
      mrun (rd_run _ _ _ Hp). mrun (rd_run _ _ _ Hq). unfold mret, M_ret.
      by rewrite !Hu, s32_small by lia.
Qed.

Lemma x86_strcmp_spec fuel m p q xs ys :
  (length xs < fuel)%nat → cstr m p xs → cstr m q ys →
  __strcmp fuel p q m = Ret (Z.sgn (str_compare xs ys), m).
Proof.
  revert p q xs ys. induction fuel as [|fuel IH]; intros p q xs ys Hf Hx Hy; [lia|].
  assert (Hr : ∀ a b : Z, a ≠ b →
    s32 (Z.lor (if bool_decide (a < b) then 2 ^ 32 - 1 else 0) 1) = Z.sgn (a - b)).
  { intros a b Hab. case_bool_decide; [rewrite Z.sgn_neg by lia|rewrite Z.sgn_pos by lia]; by vm_compute. }
  destruct xs as [|x xs]; simpl in Hx |- *.
  - mrun (rd_run _ _ _ Hx). destruct ys as [|y ys]; simpl in *.
    + mrun (rd_run _ _ _ Hy). by rewrite !bool_decide_false by lia.
    + destruct Hy as (Hq & Hc & _). mrun (rd_run _ _ _ Hq). rewrite bool_decide_true by lia.
      unfold mret, M_ret. by rewrite Hr by lia.
  - destruct Hx as (Hp & Hcx & Hx). mrun (rd_run _ _ _ Hp). destruct ys as [|y ys]; simpl in Hy.
    + mrun (rd_run _ _ _ Hy). rewrite bool_decide_true by lia. unfold mret, M_ret.
      rewrite Hr by lia. do 3 f_equal. lia.
    + destruct Hy as (Hq & Hcy & Hy). mrun (rd_run _ _ _ Hq).
      destruct (decide (x = y)) as [E|E].
      * rewrite bool_decide_false by tauto. rewrite bool_decide_true by lia.
        rewrite bool_decide_true by done. simpl in Hf. apply IH; [lia|done..].
      * rewrite bool_decide_true by done. rewrite (bool_decide_false (x = y)) by done.
        unfold mret, M_ret. by rewrite Hr.
Qed.

Lemma cstr_lookup m p cs i : (i ≤ length cs)%nat → cstr m p cs →
  m !! (p + Z.of_nat i) = Some (default 0 (cs !! i)).
Proof.
  revert p i. induction cs as [|c cs IH]; intros p i Hi Hs; simpl in *.
  - assert (i = O) as -> by lia. by rewrite Z.add_0_r.
  - destruct Hs as (Hp & _ & Hs). destruct i as [|i]; simpl; [by rewrite Z.add_0_r|].
    rewrite <-(IH (p + 1) i) by (done || lia). f_equal. lia.
Qed.

(** strcpy is a copy of the string and its terminator. *)
Lemma strcpy_loop_copy fuel m p cs d :
  (length cs < fuel)%nat → cstr m p cs →
  d + Z.of_nat (length cs) < p ∨ p + Z.of_nat (length cs) < d →
  strcpy_loop fuel d p m = copy_forward (S (length cs)) d p m.
Proof.
  revert m p cs d. induction fuel as [|fuel IH]; intros m p cs d Hf Hs Hd; [lia|].
  destruct cs as [|c cs]; simpl in Hs, Hf, Hd.
  - simpl. unfold mbind, M_bind. rewrite (rd_run _ _ _ Hs). destruct (wr d 0 m) as [[]| | |]; try done.
  - destruct Hs as (Hp & Hc & Hs). simpl length. cbn [strcpy_loop].
    change (copy_forward (S (S (length cs))) d p) with
      (c ← rd p; wr d c;; copy_forward (S (length cs)) (d + 1) (p + 1)).
    unfold mbind, M_bind. rewrite (rd_run _ _ _ Hp). destruct (wr d c m) as [[[] m1]| | |] eqn:E; try done.
    rewrite bool_decide_true by lia. apply IH; [lia| |lia].
    unfold wr in E. destruct (m !! d); [|done]. injection E as <-.
    assert (Hfr : ∀ q l, d < q ∨ q + Z.of_nat (length l) < d → cstr m q l → cstr (<[d := c]> m) q l).
    { clear. intros q l. revert q. induction l as [|x l IHl]; intros q Hd; simpl in *.
      - by rewrite lookup_insert_ne by lia.
      - intros (? & ? & ?). rewrite lookup_insert_ne by lia. split_and!; try lia; [done|].
        apply IHl; [lia|done]. }
    apply Hfr; [lia|done].
Qed.

Lemma x86_strcpy_same fuel m p d : x86_strcpy_loop fuel p d m = strcpy_loop fuel d p m.
Proof.
  revert m p d. induction fuel as [|fuel IH]; intros m p d; simpl; [done|].
  unfold mbind, M_bind. destruct (rd p m) as [[c m1]| | |]; try done.
  destruct (wr d c m1) as [[[] m2]| | |]; try done. case_bool_decide; [apply IH|done].
Qed.

(** The position of a character. *)
Fixpoint index_of (c : Z) (cs : list Z) : option Z :=
  match cs with
  | [] => None
  | x :: cs => if bool_decide (x = c) then Some 0 else (Z.add 1) <$> index_of c cs
  end.

Lemma strchr_spec fuel m p cs c :
  (length cs < fuel)%nat → cstr m p cs →
  strchr fuel p c m = Ret (match index_of c cs with Some i => p + i | None => 0 end, m) ∧
  strfind fuel p c m = Ret (p + default (Z.of_nat (length cs)) (index_of c cs), m).
Proof.
  revert p cs. induction fuel as [|fuel IH]; intros p cs Hf Hs; [lia|].
  destruct cs as [|x cs]; simpl in *.
  - split; mrun (rd_run _ _ _ Hs); rewrite bool_decide_false by lia; unfold mret, M_ret; [done|].
    by rewrite Z.add_0_r.
  - destruct Hs as (Hp & Hx & Hs). destruct (IH (p + 1) cs) as [E1 E2]; [lia|done|].
    split; mrun (rd_run _ _ _ Hp); rewrite bool_decide_true by lia; case_bool_decide.
    + unfold mret, M_ret. by rewrite Z.add_0_r.
    + rewrite E1. destruct (index_of c cs); simpl; [|done]. do 2 f_equal. lia.
    + unfold mret, M_ret. simpl. by rewrite Z.add_0_r.
    + rewrite E2. do 2 f_equal. destruct (index_of c cs); simpl; lia.
Qed.

Lemma memset_loop_spec n m p c :
  valid m p (Z.of_nat n) → ∃ m', memset_loop n p c m = Ret ((), m') ∧
    ∀ a, m' !! a = if bool_decide (p ≤ a < p + Z.of_nat n) then Some c else m !! a.
Proof.
  revert m p. induction n as [|n IH]; intros m p Hv.
  - exists m. split; [done|]. intros a. by rewrite bool_decide_false by lia.
  - rewrite Nat2Z.inj_succ in *. destruct (IH (<[p := c]> m) (p + 1)) as (m' & E & Hm').
    + intros a Ha. rewrite lookup_insert_ne by lia. apply Hv. lia.
    + exists m'. split; [simpl; mrun (wr_run m p c ltac:(apply Hv; lia)); done|].
      intros a. rewrite Hm'. destruct (decide (a = p)) as [->|].
      * by rewrite bool_decide_false, lookup_insert_eq, bool_decide_true by lia.
      * rewrite lookup_insert_ne by done. case_bool_decide; [by rewrite bool_decide_true by lia|by rewrite bool_decide_false by lia].
Qed.

(** Bytes in memory. *)
Fixpoint bytes (m : mem) (p : Z) (bs : list Z) : Prop :=
  match bs with [] => True | b :: bs => m !! p = Some b ∧ 0 ≤ b < 256 ∧ bytes m (p + 1) bs end.

Fixpoint bytes_compare (xs ys : list Z) : Z :=
  match xs, ys with
  | x :: xs, y :: ys => if bool_decide (x ≠ y) then x - y else bytes_compare xs ys
  | _, _ => 0
  end.

Lemma u8_small c : 0 ≤ c < 256 → u8 c = c.
Proof. intros. by apply Z.mod_small. Qed.

Lemma memcmp_spec m p q xs ys :
  length xs = length ys → bytes m p xs → bytes m q ys →
  memcmp (length xs) p q m = Ret (bytes_compare xs ys, m).
Proof.
  revert p q ys. induction xs as [|x xs IH]; intros p q [|y ys] Hl Hx Hy; simpl in *; try done.
  destruct Hx as (Hp & Hcx & Hx), Hy as (Hq & Hcy & Hy).
  mrun (rd_run _ _ _ Hp). mrun (rd_run _ _ _ Hq). case_bool_decide.
  - unfold mret, M_ret. by rewrite !u8_small, s32_small by lia.
  - apply IH; [lia|done..].
Qed.

Lemma bytes_compare_eq xs ys : length xs = length ys → bytes_compare xs ys = 0 ↔ xs = ys.
Proof.
  revert ys. induction xs as [|x xs IH]; intros [|y ys] Hl; simpl in *; try done.
  case_bool_decide as E; [split; [lia|naive_solver]|]. rewrite IH by lia.
  split; [intros ->; f_equal; lia|naive_solver].
Qed.

Lemma strncmp_spec n m p q xs ys :
  cstr m p xs → cstr m q ys →
  strncmp n p q m = Ret (str_compare (take n xs) (take n ys), m).
Proof.
  revert p q xs ys. induction n as [|n IH]; intros p q xs ys Hx Hy; [done|].
  destruct xs as [|x xs]; simpl in Hx |- *.
  - mrun (rd_run _ _ _ Hx). rewrite bool_decide_false, bind_mret by lia.
    mrun (rd_run _ _ _ Hx). destruct ys as [|y ys]; simpl in *.
    + mrun (rd_run _ _ _ Hy). done.
    + destruct Hy as (Hq & Hc & _). mrun (rd_run _ _ _ Hq). unfold mret, M_ret.
      by rewrite !u8_small, s32_small by lia.
  - destruct Hx as (Hp & Hcx & Hx). mrun (rd_run _ _ _ Hp). rewrite bool_decide_true by lia.
    destruct ys as [|y ys]; simpl in Hy.
    + rewrite bind_assoc. mrun (rd_run _ _ _ Hy). rewrite bind_mret, bool_decide_false by lia.
      mrun (rd_run _ _ _ Hp). mrun (rd_run _ _ _ Hy). unfold mret, M_ret.
      rewrite !u8_small, s32_small by lia. do 2 f_equal. simpl. lia.
    + destruct Hy as (Hq & Hcy & Hy). rewrite bind_assoc. mrun (rd_run _ _ _ Hq). rewrite bind_mret.
      simpl. case_bool_decide as E; [by apply IH|].
      mrun (rd_run _ _ _ Hp). mrun (rd_run _ _ _ Hq). unfold mret, M_ret.
      by rewrite !u8_small, s32_small by lia.
Qed.

Lemma cstr_write m p cs d c :
  d < p ∨ p + Z.of_nat (length cs) < d → cstr m p cs → cstr (<[d := c]> m) p cs.
Proof.
  revert p. induction cs as [|x cs IH]; intros p Hd; simpl in *.
  - by rewrite lookup_insert_ne by lia.
  - intros (? & ? & ?). rewrite lookup_insert_ne by lia. split_and!; try lia; [done|].
    apply IH; [lia|done].
Qed.

(** strncpy copies at most [n] characters and pads with zeros. *)
Lemma strncpy_loop_spec n m d p cs :
  cstr m p cs → valid m d (Z.of_nat n) →
  d + Z.of_nat n ≤ p ∨ p + Z.of_nat (length cs) < d →
  ∃ m', strncpy_loop n d p m = Ret ((), m') ∧
    ∀ a, m' !! a = if bool_decide (d ≤ a < d + Z.of_nat n)
                   then Some (default 0 (cs !! Z.to_nat (a - d))) else m !! a.
Proof.
  revert m d p cs. induction n as [|n IH]; intros m d p cs Hs Hv Hd.
  - exists m. split; [done|]. intros a. by rewrite bool_decide_false by lia.
  - rewrite Nat2Z.inj_succ in *.
    assert (Hw : ∀ c, wr d c m = Ret ((), <[d := c]> m)) by (intros; apply wr_run, Hv; lia).
    assert (Hv' : ∀ c, valid (<[d := c]> m) (d + 1) (Z.of_nat n)).
    { intros c a Ha. rewrite lookup_insert_ne by lia. apply Hv. lia. }
    destruct cs as [|c cs].
    + simpl in Hs, Hd. destruct (IH (<[d := 0]> m) (d + 1) p []) as (m' & E & Hm');
        [by apply cstr_write; [simpl; lia|]|done|simpl; lia|].
      exists m'. split.
      * simpl. mrun (rd_run _ _ _ Hs). mrun (Hw 0). by rewrite bool_decide_false by lia.
      * intros a. rewrite Hm'. destruct (decide (a = d)) as [->|].
        -- rewrite bool_decide_false, lookup_insert_eq, bool_decide_true by lia. done.
        -- rewrite lookup_insert_ne by done. case_bool_decide; [by rewrite bool_decide_true by lia|by rewrite bool_decide_false by lia].
    + pose proof Hs as (Hp & Hc & Hs'). simpl in Hd.
      destruct (IH (<[d := c]> m) (d + 1) (p + 1) cs) as (m' & E & Hm');
        [by apply cstr_write; [lia|]|done|lia|].
      exists m'. split.
      * simpl. mrun (rd_run _ _ _ Hp). mrun (Hw c). by rewrite bool_decide_true by lia.
      * intros a. rewrite Hm'. destruct (decide (a = d)) as [->|].
        -- rewrite bool_decide_false, lookup_insert_eq, bool_decide_true by lia.
           by rewrite Z.sub_diag.
        -- rewrite lookup_insert_ne by done. case_bool_decide as Ha.
           ++ rewrite bool_decide_true by lia.
              by replace (Z.to_nat (a - d)) with (S (Z.to_nat (a - (d + 1)))) by lia.
           ++ by rewrite bool_decide_false by lia.
Qed.

(** ** The C and the x86 copies *)
Lemma copied_fun m m1 m2 d s n : copied m m1 d s n → copied m m2 d s n → m1 = m2.
Proof. intros H1 H2. apply map_eq. intros a. by rewrite H1, H2. Qed.

Lemma memcpy_both m d s n : 0 ≤ n → valid m d n → valid m s n → d ≤ s ∨ s + n ≤ d →
  ∃ m', memcpy d s n m = Ret (d, m') ∧ __memcpy d s n m = Ret (d, m') ∧ copied m m' d s n.
Proof.
  intros Hn Hd Hs Ho. assert (Hnat : Z.of_nat (Z.to_nat n) = n) by lia.
  destruct (copy_forward_spec (Z.to_nat n) m d s) as (m1 & E1 & C1); rewrite ?Hnat; [done..|]. rewrite Hnat in C1.
  exists m1. split; [unfold memcpy; by mrun E1|]. split; [|done].
  pose proof (Z.div_mod n 4 ltac:(lia)) as Hdm. pose proof (Z.mod_pos_bound n 4 ltac:(lia)).
  pose proof (Z.div_pos n 4 ltac:(lia) ltac:(lia)).
  assert (Hq : Z.of_nat (Z.to_nat (n / 4)) = n / 4) by lia.
  destruct (rep_movsl_spec (Z.to_nat (n / 4)) m d s) as (ma & Ea & Ca); rewrite ?Hq.
  { intros a Ha. apply Hd. lia. } { intros a Ha. apply Hs. lia. } { lia. }
  rewrite Hq in Ea, Ca. unfold __memcpy. mrun Ea. simpl.
  change 3 with (Z.ones 2). rewrite Z.land_ones by lia. change (2 ^ 2) with 4.
  assert (Hsa : valid m s (4 * (n / 4))) by (intros a Ha; apply Hs; lia).
  case_bool_decide as E0.
  - replace n with (4 * (n / 4)) in C1 by lia. by rewrite (copied_fun _ _ _ _ _ _ C1 Ca).
  - assert (Hr : Z.of_nat (Z.to_nat (n mod 4)) = n mod 4) by lia.
    destruct (copy_forward_spec (Z.to_nat (n mod 4)) ma (d + 4 * (n / 4)) (s + 4 * (n / 4)))
      as (mb & Eb & Cb); rewrite ?Hr.
    { eapply copied_valid; [exact Ca|done|]. intros a Ha. apply Hd. lia. }
    { eapply copied_valid; [exact Ca|done|]. intros a Ha. apply Hs. lia. }
    { lia. }
    rewrite Hr in Cb. rewrite <-rep_movsb_forward in Eb. mrun Eb.
    assert (C2 : copied m mb d s n).
    { rewrite Hdm at 1. eapply copied_app; [lia..| |exact Ca|exact Cb]. lia. }
    by rewrite (copied_fun _ _ _ _ _ _ C1 C2).
Qed.

Lemma copy_down_both m d s n : 0 ≤ n → valid m d n → valid m s n → s ≤ d →
  ∃ m', (copy_backward (Z.to_nat n) (d + n) (s + n);; mret d) m = Ret (d, m') ∧
    (rep_movsb_down (Z.to_nat n) (n - 1 + d) (n - 1 + s);; mret d) m = Ret (d, m') ∧ copied m m' d s n.
Proof.
  intros Hn Hd Hs Ho. assert (Hnat : Z.of_nat (Z.to_nat n) = n) by lia.
  destruct (copy_backward_spec (Z.to_nat n) m d s) as (m1 & E & C); rewrite ?Hnat; [done..|lia|].
  rewrite Hnat in E, C. exists m1. split; [by mrun E|]. split; [|done].
  rewrite <-rep_movsb_down_backward in E. replace (n - 1 + d) with (d + n - 1) by lia.
  replace (n - 1 + s) with (s + n - 1) by lia. by mrun E.
Qed.

(** ** The properties *)

(** C37. memmove moves its bytes correctly however the two areas overlap, in the
    C version and in the x86 version (whose forward copy is by words), both
    leave the same memory, and change nothing outside the destination.  So do
    memcpy and its x86 version, when the destination does not start inside the
    source, and memset and its x86 version fill exactly their area. *)
Theorem memmove_correct m d s n :
  0 ≤ n → valid m d n → valid m s n →
  (∃ m', memmove d s n m = Ret (d, m') ∧ __memmove d s n m = Ret (d, m') ∧ copied m m' d s n) ∧
  (d ≤ s ∨ s + n ≤ d →
   ∃ m', memcpy d s n m = Ret (d, m') ∧ __memcpy d s n m = Ret (d, m') ∧ copied m m' d s n) ∧
  (∀ c, ∃ m', memset d c n m = Ret (d, m') ∧ __memset d c n m = Ret (d, m') ∧
     ∀ a, m' !! a = if bool_decide (d ≤ a < d + n) then Some c else m !! a).
Proof.
  intros Hn Hd Hs. assert (Hnat : Z.of_nat (Z.to_nat n) = n) by lia. split_and!; [|by apply memcpy_both|].
  - unfold memmove, __memmove. destruct (decide (s < d ∧ s + n > d)) as [Ho|Ho].
    + rewrite (bool_decide_true (s < d ∧ _)), (bool_decide_false (d < s)) by lia. apply copy_down_both; [done..|lia].
    + rewrite (bool_decide_false (s < d ∧ _)) by lia.
      destruct (memcpy_both m d s n) as (m1 & E1 & E2 & C1); try done; [lia|]. exists m1. split; [exact E1|]. split; [|done].
      case_bool_decide; [exact E2|]. destruct (copy_down_both m d s n) as (m2 & _ & E3 & C2); try done; [lia|].
      by rewrite (copied_fun _ _ _ _ _ _ C1 C2).
  - intros c. destruct (memset_loop_spec (Z.to_nat n) m d c) as (m' & E & Hm); rewrite ?Hnat; [done|]. rewrite Hnat in Hm.
    exists m'. unfold memset, __memset. split; [by mrun E|]. split; [|done]. by mrun (E : rep_stosb (Z.to_nat n) d c m = _).
Qed.

Definition ex_mem : mem := list_to_map ((λ i, (i, 64 + i)) <$> [1; 2; 3; 4; 5; 6; 7; 8; 9; 10]).

Lemma memmove_correct_witness :
  (∃ m', memmove 3 1 7 ex_mem = Ret (3, m') ∧ __memmove 3 1 7 ex_mem = Ret (3, m') ∧
     copied ex_mem m' 3 1 7) ∧
  (∃ m', memset 3 9 7 ex_mem = Ret (3, m') ∧ __memset 3 9 7 ex_mem = Ret (3, m') ∧ m' !! 9 = Some 9 ∧ m' !! 10 = Some 74).
Proof.
  destruct (memmove_correct ex_mem 3 1 7) as (H1 & _ & H3).
  - lia.
  - apply valid_compute. by vm_compute.
  - apply valid_compute. by vm_compute.
  - split; [exact H1|]. destruct (H3 9) as (m' & E1 & E2 & Hm). exists m'. split; [exact E1|]. split; [exact E2|].
    split; rewrite Hm; vm_compute; reflexivity.
Defined.

(** On strings shorter than 2^32: strlen and strnlen return the length
    (bounded by len), strcmp returns the difference at the first difference of
    the two strings, zero exactly when they are equal, the x86 strcmp returns
    its sign, and strchr and strfind return the first occurrence of a
    character, or NULL and the terminator when there is none. *)
Theorem string_queries_correct fuel m p q xs ys len c :
  (length xs < fuel)%nat → cstr m p xs → cstr m q ys →
  Z.of_nat (length xs) < 2 ^ 32 → 0 ≤ len < 2 ^ 32 →
  strlen fuel p m = Ret (Z.of_nat (length xs), m) ∧
  strnlen fuel p len m = Ret (Z.min len (Z.of_nat (length xs)), m) ∧
  strcmp fuel p q m = Ret (str_compare xs ys, m) ∧
  (str_compare xs ys = 0 ↔ xs = ys) ∧
  __strcmp fuel p q m = Ret (Z.sgn (str_compare xs ys), m) ∧
  strchr fuel p c m = Ret (match index_of c xs with Some i => p + i | None => 0 end, m) ∧
  strfind fuel p c m = Ret (p + default (Z.of_nat (length xs)) (index_of c xs), m).
Proof.
  intros Hf Hx Hy Hlen Hl. destruct (strchr_spec fuel m p xs c Hf Hx) as [Hch Hfi]. split_and!.
  - by apply (strlen_loop_spec fuel m p xs 0).
  - apply (strnlen_loop_spec fuel m p xs len 0); [done..|lia|lia].
  - by apply strcmp_spec.
  - apply str_compare_eq; by eapply cstr_ok.
  - by apply x86_strcmp_spec.
  - exact Hch.
  - exact Hfi.
Qed.

(** "abc" at 1 and "abd" at 10. *)
Definition ex_strings : mem :=
  list_to_map [(1, 97); (2, 98); (3, 99); (4, 0); (10, 97); (11, 98); (12, 100); (13, 0)].

Lemma string_queries_correct_witness :
  strlen 8 1 ex_strings = Ret (3, ex_strings) ∧ strcmp 8 1 10 ex_strings = Ret (-1, ex_strings) ∧
  strchr 8 1 99 ex_strings = Ret (3, ex_strings).
Proof.
  destruct (string_queries_correct 8 ex_strings 1 10 [97; 98; 99] [97; 98; 100] 2 99)
    as (H1 & _ & H3 & _ & _ & H6 & _).
  - simpl. lia.
  - simpl. repeat split; lia.
  - simpl. repeat split; lia.
  - simpl. lia.
  - lia.
  - split; [exact H1|]. split; [exact H3|exact H6].
Defined.

(** strcpy, in C and in x86 instructions, copies a string with its
    terminator to a disjoint place and changes nothing else; strncpy writes
    exactly len bytes, the string's characters and then zeros. *)
Theorem strcpy_correct fuel m d p cs len :
  (length cs < fuel)%nat → cstr m p cs → valid m d (Z.of_nat (length cs) + 1) →
  d + Z.of_nat (length cs) < p ∨ p + Z.of_nat (length cs) < d →
  (∃ m', strcpy fuel d p m = Ret (d, m') ∧ __strcpy fuel d p m = Ret (d, m') ∧
     copied m m' d p (Z.of_nat (length cs) + 1)) ∧
  (0 ≤ len ≤ Z.of_nat (length cs) + 1 → ∃ m', strncpy d p len m = Ret (d, m') ∧
     ∀ a, m' !! a = if bool_decide (d ≤ a < d + len)
                    then Some (default 0 (cs !! Z.to_nat (a - d))) else m !! a).
Proof.
  intros Hf Hs Hv Hd. split.
  - destruct (copy_forward_spec (S (length cs)) m d p) as (m' & E & C).
    + intros a Ha. apply Hv. lia.
    + intros a Ha. rewrite <-(Z.sub_add p a), Z.add_comm.
      replace (a - p) with (Z.of_nat (Z.to_nat (a - p))) by lia.
      rewrite (cstr_lookup _ _ cs) by (done || lia). done.
    + lia.
    + exists m'. rewrite Nat2Z.inj_succ, <-Z.add_1_r in C. unfold strcpy, __strcpy.
      rewrite <-(strcpy_loop_copy fuel) in E by done. pose proof E as E'.
      rewrite <-x86_strcpy_same in E'. mrun E. mrun E'. done.
  - intros Hl. assert (Hnat : Z.of_nat (Z.to_nat len) = len) by lia.
    destruct (strncpy_loop_spec (Z.to_nat len) m d p cs) as (m' & E & Hm'); rewrite ?Hnat; [done|..].
    + intros a Ha. apply Hv. lia.
    + lia.
    + rewrite Hnat in Hm'. exists m'. unfold strncpy. mrun E. done.
Qed.

Lemma strcpy_correct_witness :
  ∃ m', strcpy 8 1 10 ex_strings = Ret (1, m') ∧ __strcpy 8 1 10 ex_strings = Ret (1, m') ∧
    copied ex_strings m' 1 10 4.
Proof.
  destruct (strcpy_correct 8 ex_strings 1 10 [97; 98; 100] 2) as [H _].
  - simpl. lia.
  - simpl. repeat split; lia.
  - apply valid_compute. by vm_compute.
  - simpl. lia.
  - exact H.
Defined.
