(* ===== verification/Printfmt.v ===== *)
(** * lib/printfmt.c: formatted output

    printnum, vprintfmt with its format language, and vsnprintf.  The C code
    prints through a function pointer putch; here the code is a function of
    the putch action, so that the kernel's two uses (a bounded buffer, the
    console) are instances, and a simulation between two putch actions lifts
    to everything that is printed. *)
From stdpp Require Import base gmap list fin_maps.
From Stdlib Require Import ZArith Lia.
From S2P Require Import Prelude Bits CString.

(** ** include/error.h *)
Definition E_UNSPECIFIED : Z := 1.
Definition E_BAD_PROC : Z := 2.
Definition E_INVAL : Z := 3.
Definition E_NO_MEM : Z := 4.
Definition E_NO_FREE_PROC : Z := 5.
Definition E_FAULT : Z := 6.
Definition MAXERROR : Z := 6.

(** Characters. *)
Definition chr_percent : Z := 37.
Definition chr_space : Z := 32.
Definition chr_minus : Z := 45.
Definition chr_0 : Z := 48.

(** The table error_string, as bytes. *)
Definition error_string (err : Z) : option (option (list Z)) :=
  if bool_decide (err = 0) then Some None
  else if bool_decide (err = E_UNSPECIFIED) then
    Some (Some [117; 110; 115; 112; 101; 99; 105; 102; 105; 101; 100; 32; 101; 114; 114; 111; 114])
  else if bool_decide (err = E_BAD_PROC) then
    Some (Some [98; 97; 100; 32; 112; 114; 111; 99; 101; 115; 115])
  else if bool_decide (err = E_INVAL) then
    Some (Some [105; 110; 118; 97; 108; 105; 100; 32; 112; 97; 114; 97; 109; 101; 116; 101; 114])
  else if bool_decide (err = E_NO_MEM) then
    Some (Some [111; 117; 116; 32; 111; 102; 32; 109; 101; 109; 111; 114; 121])
  else if bool_decide (err = E_NO_FREE_PROC) then
    Some (Some [111; 117; 116; 32; 111; 102; 32; 112; 114; 111; 99; 101; 115; 115; 101; 115])
  else if bool_decide (err = E_FAULT) then
    Some (Some [115; 101; 103; 109; 101; 110; 116; 97; 116; 105; 111; 110; 32; 102; 97; 117; 108; 116])
  else None.

(** A variable argument: a 32-bit slot, a 64-bit slot, or a string (None is
    the NULL pointer). *)
Inductive arg : Type := A32 (z : Z) | A64 (z : Z) | AStr (s : option (list Z)).

(** The flags of one %-escape. *)
Record fspec : Type := FSpec {
  padc : Z; width : Z; precision : Z; lflag : Z; altflag : bool }.

Definition digit_chars : list Z :=
  [48; 49; 50; 51; 52; 53; 54; 55; 56; 57; 97; 98; 99; 100; 101; 102].
Definition digit_char (d : Z) : Z := nth (Z.to_nat d) digit_chars 0.

(** The format string is the bytes before its terminator. *)
Definition fmt_at {S} (fmt : list Z) (i : nat) : M S Z :=
  if bool_decide (i = length fmt) then mret 0
  else match fmt !! i with Some c => mret c | None => fault end.

Section Printfmt.
Context {S : Type} (putch : Z → M S unit).

Fixpoint repeat_putch (n : nat) (c : Z) : M S unit :=
  match n with O => skip | Datatypes.S n => putch c;; repeat_putch n c end.

Fixpoint printnum (fuel : nat) (num base width padc : Z) : M S unit :=
  match fuel with
  | O => out_of_fuel
  | Datatypes.S fuel =>
    match arch_do_div num base with
    | None => fault
    | Some (mod_, result) =>
      (if bool_decide (num >= base) then printnum fuel result base (s32 (width - 1)) padc
       else (* while (-- width > 0) *) repeat_putch (Z.to_nat (width - 1)) padc);;
      if bool_decide (mod_ < 16) then putch (digit_char mod_) else fault
    end
  end.

Definition va_u32 (ap : list arg) : M S (Z * list arg) :=
  match ap with A32 z :: ap => mret (u32 z, ap) | _ => fault end.
Definition va_s32 (ap : list arg) : M S (Z * list arg) :=
  match ap with A32 z :: ap => mret (s32 z, ap) | _ => fault end.
Definition va_u64 (ap : list arg) : M S (Z * list arg) :=
  match ap with A64 z :: ap => mret (u64 z, ap) | _ => fault end.
Definition va_str (ap : list arg) : M S (option (list Z) * list arg) :=
  match ap with AStr s :: ap => mret (s, ap) | _ => fault end.

Definition s64 (z : Z) : Z := (z + 2 ^ 63) mod 2 ^ 64 - 2 ^ 63.

Definition getuint (ap : list arg) (lflag : Z) : M S (Z * list arg) :=
  if bool_decide (lflag >= 2) then va_u64 ap
  else if bool_decide (lflag ≠ 0) then va_u32 ap else va_u32 ap.
Definition getint (ap : list arg) (lflag : Z) : M S (Z * list arg) :=
  if bool_decide (lflag >= 2) then '(z, ap) ← va_u64 ap; mret (s64 z, ap)
  else if bool_decide (lflag ≠ 0) then va_s32 ap else va_s32 ap.

(** for (precision = 0; ; ++ fmt) { precision = precision * 10 + ch - '0';
    ch = *fmt; if (ch < '0' || ch > '9') break; } *)
Fixpoint scan_width (fuel : nat) (fmt : list Z) (i : nat) (ch prec : Z) : M S (nat * Z) :=
  match fuel with
  | O => out_of_fuel
  | Datatypes.S fuel =>
    let prec := s32 (prec * 10 + ch - chr_0) in
    c ← fmt_at fmt i;
    let ch := s8 c in
    if bool_decide (ch < 48 ∨ ch > 57) then mret (i, prec)
    else scan_width fuel fmt (Datatypes.S i) ch prec
  end.

(** for (fmt --; fmt[-1] != '%'; fmt --); from the position [j] of fmt. *)
Fixpoint back_scan (fmt : list Z) (j : nat) : M S nat :=
  match j with
  | O => fault
  | Datatypes.S j' =>
    c ← fmt_at fmt j';
    if bool_decide (c = chr_percent) then mret j else back_scan fmt j'
  end.

(** The loop that prints the characters of a string; returns the final
    width. *)
Fixpoint print_chars (p : list Z) (altflag : bool) (precision width : Z) : M S Z :=
  match p with
  | [] => mret width
  | c :: p =>
    let ch := s8 c in
    if bool_decide (precision < 0 ∨ precision - 1 >= 0) then
      (if altflag && bool_decide (ch < 32 ∨ ch > 126) then putch 63 else putch ch);;
      print_chars p altflag (if bool_decide (precision < 0) then precision else precision - 1)
        (width - 1)
    else mret width
  end.

Definition null_string : list Z := [40; 110; 117; 108; 108; 41].

(** strnlen of a string given by its characters. *)
Definition list_strnlen (p : list Z) (len : Z) : Z := Z.min len (Z.of_nat (length p)).

Definition print_string (fs : fspec) (s : option (list Z)) : M S unit :=
  let p := default null_string s in
  width ← (if bool_decide (width fs > 0 ∧ padc fs ≠ chr_minus) then
             let w := s32 (width fs - list_strnlen p (u32 (precision fs))) in
             repeat_putch (Z.to_nat w) (padc fs);; mret (Z.min w 0)
           else mret (width fs));
  width ← print_chars p (altflag fs) (precision fs) width;
  repeat_putch (Z.to_nat width) chr_space.

(** The switch at the label reswitch; [i] is the position of fmt.  Returns the
    position and the arguments after the escape.  [printfmt] is the nested
    call made by %e. *)
Fixpoint reswitch (printfmt : list Z → list arg → M S unit) (fuel : nat)
    (fmt : list Z) (i : nat) (ap : list arg) (fs : fspec) : M S (nat * list arg) :=
  match fuel with
  | O => out_of_fuel
  | Datatypes.S fuel =>
    ch ← fmt_at fmt i;
    let i := Datatypes.S i in
    let again := reswitch printfmt fuel fmt in
    let process_precision i ap prec :=
      again i ap (if bool_decide (width fs < 0)
                  then FSpec (padc fs) prec (-1) (lflag fs) (altflag fs)
                  else FSpec (padc fs) (width fs) prec (lflag fs) (altflag fs)) in
    let number num base ap :=
      printnum fuel num base (width fs) (padc fs);; mret (i, ap) in
    if bool_decide (ch = 45) then
      again i ap (FSpec 45 (width fs) (precision fs) (lflag fs) (altflag fs))
    else if bool_decide (ch = 48) then
      again i ap (FSpec 48 (width fs) (precision fs) (lflag fs) (altflag fs))
    else if bool_decide (49 ≤ ch ≤ 57) then
      '(i, prec) ← scan_width fuel fmt i ch 0; process_precision i ap prec
    else if bool_decide (ch = 42) then
      '(prec, ap) ← va_s32 ap; process_precision i ap prec
    else if bool_decide (ch = 46) then
      again i ap (FSpec (padc fs) (if bool_decide (width fs < 0) then 0 else width fs)
                    (precision fs) (lflag fs) (altflag fs))
    else if bool_decide (ch = 35) then
      again i ap (FSpec (padc fs) (width fs) (precision fs) (lflag fs) true)
    else if bool_decide (ch = 108) then
      again i ap (FSpec (padc fs) (width fs) (precision fs) (lflag fs + 1) (altflag fs))
    else if bool_decide (ch = 99) then
      '(c, ap) ← va_s32 ap; putch c;; mret (i, ap)
    else if bool_decide (ch = 101) then
      '(err, ap) ← va_s32 ap;
      let err := if bool_decide (err < 0) then s32 (- err) else err in
      p ← (if bool_decide (err > MAXERROR) then mret None
           else match error_string err with Some p => mret p | None => fault end);
      match p with
      | None => printfmt [101; 114; 114; 111; 114; 32; 37; 100] [A32 err];; mret (i, ap)
      | Some p => printfmt [37; 115] [AStr (Some p)];; mret (i, ap)
      end
    else if bool_decide (ch = 115) then
      '(s, ap) ← va_str ap; print_string fs s;; mret (i, ap)
    else if bool_decide (ch = 100) then
      '(num, ap) ← getint ap (lflag fs);
      num ← (if bool_decide (num < 0) then putch 45;; mret (u64 (- num)) else mret (u64 num));
      number num 10 ap
    else if bool_decide (ch = 117) then
      '(num, ap) ← getuint ap (lflag fs); number num 10 ap
    else if bool_decide (ch = 111) then
      '(num, ap) ← getuint ap (lflag fs); number num 8 ap
    else if bool_decide (ch = 112) then
      putch 48;; putch 120;;
      '(num, ap) ← va_u32 ap; number num 16 ap
    else if bool_decide (ch = 120) then
      '(num, ap) ← getuint ap (lflag fs); number num 16 ap
    else if bool_decide (ch = 37) then
      putch ch;; mret (i, ap)
    else
      putch 37;; j ← back_scan fmt (i - 1); mret (j, ap)
  end.

Fixpoint vprintfmt (fuel : nat) (fmt : list Z) (i : nat) (ap : list arg) : M S unit :=
  match fuel with
  | O => out_of_fuel
  | Datatypes.S fuel =>
    ch ← fmt_at fmt i;
    let i := Datatypes.S i in
    if bool_decide (ch ≠ chr_percent) then
      if bool_decide (ch = 0) then skip
      else putch ch;; vprintfmt fuel fmt i ap
    else
      '(i, ap) ← reswitch (λ f a, vprintfmt fuel f 0 a) fuel fmt i ap
                   (FSpec chr_space (-1) (-1) 0 false);
      vprintfmt fuel fmt i ap
  end.

Definition printfmt (fuel : nat) (fmt : list Z) (ap : list arg) : M S unit :=
  vprintfmt fuel fmt 0 ap.
End Printfmt.

(** ** Printing to a buffer *)
Record sprintbuf : Type := SprintBuf { buf : Z; ebuf : Z; cnt : Z; smem : mem }.

Definition sprintputch (ch : Z) : M sprintbuf unit := λ b,
  let b := SprintBuf (buf b) (ebuf b) (s32 (cnt b + 1)) (smem b) in
  if bool_decide (buf b < ebuf b) then
    match wr (buf b) (u8 ch) (smem b) with
    | Ret (_, m) => Ret ((), SprintBuf (buf b + 1) (ebuf b) (cnt b) m)
    | Panic => Panic | Fault => Fault | OutOfFuel => OutOfFuel
    end
  else Ret ((), b).

Definition vsnprintf (fuel : nat) (str size : Z) (fmt : list Z) (ap : list arg) : M mem Z := λ m,
  let b := SprintBuf str (str + size - 1) 0 m in
  if bool_decide (str = 0 ∨ buf b > ebuf b) then Ret (- E_INVAL, m)
  else
    match vprintfmt sprintputch fuel fmt 0 ap b with
    | Ret (_, b) => (wr (buf b) 0;; mret (cnt b)) (smem b)
    | Panic => Panic | Fault => Fault | OutOfFuel => OutOfFuel
    end.

Definition snprintf (fuel : nat) (str size : Z) (fmt : list Z) (ap : list arg) : M mem Z :=
  vsnprintf fuel str size fmt ap.

(** Printing to a list, the abstract output. *)
Definition lputch (c : Z) : M (list Z) unit := λ l, Ret ((), l ++ [c]).
Definition output (fuel : nat) (fmt : list Z) (ap : list arg) : outcome (unit * list Z) :=
  vprintfmt lputch fuel fmt 0 ap [].

(** "x=%5d|%-5d|%x|%s|%e|%q" *)
Definition ex_fmt : list Z := [120;61;37;53;100;124;37;48;53;100;124;37;120;124;37;115;124;37;101;124;37;113;37;108].
Example ex_output : output 200 ex_fmt [A32 (-42); A32 42; A32 255; AStr (Some [97;98]); A32 (-4)]
  = Ret ((), [120;61;45;32;32;32;52;50;124;48;48;48;52;50;124;102;102;124;97;98;124;111;117;116;32;111;102;32;109;101;109;111;114;121;124;37;113;37;108]).
Proof. by vm_compute. Qed.

(** ** Lifting a simulation of putch *)
Section Sim.
Context {S1 S2 : Type} (R : S1 → S2 → Prop).

(** Whenever the first computation returns, so does the second, with the same
    result and related states. *)
Definition sim {A} (m1 : M S1 A) (m2 : M S2 A) : Prop :=
  ∀ s1 s2 a s1', R s1 s2 → m1 s1 = Ret (a, s1') → ∃ s2', m2 s2 = Ret (a, s2') ∧ R s1' s2'.

Lemma sim_ret {A} (a : A) : sim (mret a) (mret a).
Proof. intros s1 s2 b s1' HR [= <- <-]. by exists s2. Qed.
Lemma sim_skip : sim skip skip.
Proof. apply sim_ret. Qed.
Lemma sim_fault {A} : sim (A := A) fault fault.
Proof. by intros s1 s2 a s1' HR. Qed.
Lemma sim_fuel {A} : sim (A := A) out_of_fuel out_of_fuel.
Proof. by intros s1 s2 a s1' HR. Qed.
Lemma sim_bind {A B} (m1 : M S1 A) m2 (k1 : A → M S1 B) k2 :
  sim m1 m2 → (∀ a, sim (k1 a) (k2 a)) → sim (m1 ≫= k1) (m2 ≫= k2).
Proof.
  intros Hm Hk s1 s2 b s1'' HR (a & s1' & E1 & E2)%bind_inv.
  destruct (Hm _ _ _ _ HR E1) as (s2' & E1' & HR'). mrun E1'. by eapply Hk.
Qed.
Lemma sim_if {A} (b : bool) (m1 n1 : M S1 A) m2 n2 :
  sim m1 m2 → sim n1 n2 → sim (if b then m1 else n1) (if b then m2 else n2).
Proof. by destruct b. Qed.

Context (putch1 : Z → M S1 unit) (putch2 : Z → M S2 unit).
Context (Hputch : ∀ c, sim (putch1 c) (putch2 c)).

Lemma sim_fmt_at fmt i : sim (fmt_at fmt i) (fmt_at fmt i).
Proof.
  unfold fmt_at. apply sim_if; [apply sim_ret|].
  destruct (fmt !! i); [apply sim_ret|apply sim_fault].
Qed.

Ltac sims := repeat match goal with
  | |- sim (mret _) _ => apply sim_ret
  | |- sim skip _ => apply sim_skip
  | |- sim fault _ => apply sim_fault
  | |- sim out_of_fuel _ => apply sim_fuel
  | |- sim (putch1 _) _ => apply Hputch
  | |- sim (fmt_at _ _) _ => apply sim_fmt_at
  | |- sim (_ ≫= _) _ => apply sim_bind
  | |- sim (match ?x with _ => _ end) _ =>
      lazymatch type of x with bool => apply sim_if | _ => destruct x end
  | |- ∀ _, _ => intro
  end.

Lemma sim_repeat n c : sim (repeat_putch putch1 n c) (repeat_putch putch2 n c).
Proof using Hputch. induction n; simpl; sims; done. Qed.
Lemma sim_printnum fuel num base w pc :
  sim (printnum putch1 fuel num base w pc) (printnum putch2 fuel num base w pc).
Proof using Hputch.
  revert num w. induction fuel as [|fuel IH]; intros num w; cbn [printnum]; [sims|].
  destruct (arch_do_div num base) as [[]|]; sims; lazymatch goal with
    | |- sim (repeat_putch _ _ _) _ => apply sim_repeat
    | |- _ => apply IH
    end.
Qed.
Lemma sim_print_chars p alt prec w :
  sim (print_chars putch1 p alt prec w) (print_chars putch2 p alt prec w).
Proof using Hputch. revert prec w. induction p as [|c p IH]; intros; simpl; sims; apply IH. Qed.
Lemma sim_print_string fs s : sim (print_string putch1 fs s) (print_string putch2 fs s).
Proof using Hputch.
  unfold print_string. sims; lazymatch goal with
    | |- sim (repeat_putch _ _ _) _ => apply sim_repeat
    | |- _ => apply sim_print_chars
    end.
Qed.
Lemma sim_scan fuel fmt i ch prec :
  sim (scan_width fuel fmt i ch prec) (scan_width fuel fmt i ch prec).
Proof. revert i ch prec. induction fuel as [|fuel IH]; intros; simpl; sims; apply IH. Qed.
Lemma sim_back fmt j : sim (back_scan fmt j) (back_scan fmt j).
Proof. induction j as [|j IH]; simpl; sims; apply IH. Qed.

Lemma sim_reswitch pf1 pf2 fuel fmt i ap fs :
  (∀ f a, sim (pf1 f a) (pf2 f a)) →
  sim (reswitch putch1 pf1 fuel fmt i ap fs) (reswitch putch2 pf2 fuel fmt i ap fs).
Proof using Hputch.
  intros Hpf. revert i ap fs. induction fuel as [|fuel IH]; intros i ap fs; [apply sim_fuel|].
  cbn [reswitch]. apply sim_bind; [apply sim_fmt_at|]. intros ch.
  unfold getint, getuint, va_s32, va_u32, va_u64, va_str.
  sims; lazymatch goal with
    | |- sim (reswitch _ _ _ _ _ _ _) _ => apply IH
    | |- sim (printnum _ _ _ _ _ _) _ => apply sim_printnum
    | |- sim (print_string _ _ _) _ => apply sim_print_string
    | |- sim (scan_width _ _ _ _ _) _ => apply sim_scan
    | |- sim (back_scan _ _) _ => apply sim_back
    | |- _ => apply Hpf
    end.
Qed.

Lemma sim_vprintfmt fuel fmt i ap :
  sim (vprintfmt putch1 fuel fmt i ap) (vprintfmt putch2 fuel fmt i ap).
Proof using Hputch.
  revert fmt i ap. induction fuel as [|fuel IH]; intros fmt i ap; [apply sim_fuel|].
  cbn [vprintfmt]. apply sim_bind; [apply sim_fmt_at|]. intros ch. sims; lazymatch goal with
    | |- sim (reswitch _ _ _ _ _ _ _) _ => apply sim_reswitch; intros; apply IH
    | |- _ => apply IH
    end.
Qed.
End Sim.

(** The bounded buffer against the list of printed characters: the first
    [size - 1] characters are in the buffer, and all are counted. *)
Record in_buffer (m0 : mem) (str size : Z) (l : list Z) (b : sprintbuf) : Prop := {
  ib_ebuf : ebuf b = str + size - 1;
  ib_cnt : cnt b = s32 (Z.of_nat (length l));
  ib_buf : buf b = str + Z.min (Z.of_nat (length l)) (size - 1);
  ib_mem : ∀ a, smem b !! a =
    if bool_decide (str ≤ a < buf b) then u8 <$> (l !! Z.to_nat (a - str)) else m0 !! a }.

Lemma sprintputch_sim m0 str size :
  1 ≤ size → valid m0 str size →
  ∀ c, sim (in_buffer m0 str size) (lputch c) (sprintputch c).
Proof.
  intros Hsz Hv c l b [] l' [He Hc Hb Hm] [= <-].
  unfold sprintputch. simpl. rewrite He, Hb.
  assert (Hcnt : s32 (cnt b + 1) = s32 (Z.of_nat (length (l ++ [c])))).
  { rewrite Hc, s32_add_l, length_app. simpl. f_equal. lia. }
  case_bool_decide as Hlt.
  - assert (Hlen : Z.of_nat (length l) < size - 1) by lia.
    assert (Hbuf : buf b = str + Z.of_nat (length l)) by lia.
    rewrite <-Hb, Hbuf, wr_run.
    + eexists. split; [done|]. split; cbn [buf ebuf cnt smem];
        [lia|exact Hcnt|rewrite length_app; simpl; lia|].
      intros a. destruct (decide (a = str + Z.of_nat (length l))) as [->|Ha].
      * rewrite lookup_insert_eq, bool_decide_true by lia.
        replace (Z.to_nat _) with (length l) by lia. rewrite lookup_app_r by lia.
        by rewrite Nat.sub_diag.
      * rewrite lookup_insert_ne, Hm, Hbuf by done. case_bool_decide.
        -- rewrite bool_decide_true by lia. rewrite lookup_app_l by lia. done.
        -- by rewrite bool_decide_false by lia.
    + rewrite Hm, Hbuf, bool_decide_false by lia. apply Hv. lia.
  - eexists. split; [done|]. split; cbn [buf ebuf cnt smem];
      [lia|exact Hcnt|rewrite length_app; simpl; lia|].
    intros a. rewrite Hm, Hb. case_bool_decide; [|done].
    rewrite lookup_app_l by lia. done.
Qed.

(** ** Digits *)
Fixpoint digits (fuel : nat) (base num : Z) : list Z :=
  match fuel with
  | O => []
  | S fuel => (if bool_decide (num >= base) then digits fuel base (num / base) else []) ++ [num mod base]
  end.

Definition horner (base : Z) (v : Z) (ds : list Z) : Z := fold_left (λ v d, v * base + d) ds v.

Lemma digits_value fuel base num :
  2 ≤ base → 0 ≤ num < 2 ^ Z.of_nat fuel → horner base 0 (digits fuel base num) = num.
Proof.
  intros Hb. revert num. induction fuel as [|fuel IH]; intros num Hn; simpl.
  - change (2 ^ Z.of_nat 0) with 1 in Hn. unfold horner. simpl. lia.
  - unfold horner. rewrite fold_left_app. simpl. fold (horner base 0).
    rewrite Nat2Z.inj_succ, Z.pow_succ_r in Hn by lia.
    pose proof (Z.div_mod num base ltac:(lia)). pose proof (Z.mod_pos_bound num base ltac:(lia)).
    case_bool_decide.
    + fold (horner base 0 (digits fuel base (num / base))). rewrite IH; [lia|].
      split; [apply Z.div_pos; lia|]. apply Z.div_lt_upper_bound; [lia|]. nia.
    + simpl. rewrite Z.mod_small; lia.
Qed.

Lemma digits_range fuel base num : 2 ≤ base → 0 ≤ num →
  Forall (λ d, 0 ≤ d < base) (digits fuel base num).
Proof.
  intros Hb. revert num. induction fuel as [|fuel IH]; intros num Hn; simpl; [constructor|].
  apply Forall_app. split.
  - case_bool_decide; [|constructor]. apply IH. apply Z.div_pos; lia.
  - constructor; [|constructor]. apply Z.mod_pos_bound. lia.
Qed.

Lemma digits_nonempty fuel base num : (0 < length (digits (S fuel) base num))%nat.
Proof. simpl. rewrite length_app. simpl. lia. Qed.

Lemma repeat_putch_list n c l :
  repeat_putch lputch n c l = Ret ((), l ++ replicate n c).
Proof.
  revert l. induction n as [|n IH]; intros l; simpl; [by rewrite app_nil_r|].
  unfold mbind, M_bind. simpl. rewrite IH. by rewrite <-app_assoc.
Qed.

(** What printnum prints: padding on the left, then the digits. *)
Lemma printnum_list fuel num base w pc l :
  2 ≤ base ≤ 16 → 0 ≤ num < 2 ^ Z.of_nat (S fuel) → (fuel < 64)%nat →
  - 2 ^ 31 + Z.of_nat (S fuel) ≤ w < 2 ^ 31 →
  printnum lputch (S fuel) num base w pc l =
  Ret ((), l ++ replicate (Z.to_nat (w - Z.of_nat (length (digits (S fuel) base num)))) pc
             ++ (digit_char <$> digits (S fuel) base num)).
Proof.
  intros Hb. revert num w l. induction fuel as [|fuel IH]; intros num w l Hn Hf Hw.
  - change (2 ^ Z.of_nat 1) with 2 in Hn. cbn [printnum]. rewrite arch_do_div_spec by lia.
    rewrite (bool_decide_false (num >= base)) by lia. mrun (repeat_putch_list (Z.to_nat (w - 1)) pc l).
    rewrite Z.mod_small by lia. rewrite bool_decide_true by lia. unfold lputch.
    simpl digits. rewrite (bool_decide_false (num >= base)) by lia. simpl. rewrite Z.mod_small by lia.
    by rewrite <-app_assoc.
  - assert (2 ^ Z.of_nat (S (S fuel)) ≤ 2 ^ 64) by (apply Z.pow_le_mono_r; lia).
    remember (S fuel) as k eqn:Ek. cbn [printnum digits]. rewrite arch_do_div_spec by lia.
    pose proof (Z.mod_pos_bound num base ltac:(lia)).
    rewrite (bool_decide_true (num mod base < 16)) by lia.
    destruct (decide (num >= base)) as [E|E].
    + rewrite (bool_decide_true (num >= base)) by done. rewrite (s32_small (w - 1)) by lia.
      assert (0 ≤ num / base < 2 ^ Z.of_nat k).
      { rewrite (Nat2Z.inj_succ k), Z.pow_succ_r in Hn by lia.
        split; [apply Z.div_pos; lia|]. apply Z.div_lt_upper_bound; [lia|]. nia. }
      mrun (IH (num / base) (w - 1) l ltac:(lia) ltac:(lia) ltac:(lia)).
      unfold lputch. rewrite fmap_app, length_app. simpl length. simpl fmap.
      rewrite <-!app_assoc. do 6 f_equal. lia.
    + rewrite (bool_decide_false (num >= base)) by done.
      mrun (repeat_putch_list (Z.to_nat (w - 1)) pc l).
      unfold lputch. simpl. by rewrite <-app_assoc.
Qed.

(** ** Reading numbers back *)
Lemma digit_char_value d : 0 ≤ d < 16 → digit_value (digit_char d) = Some d ∧ 0 < digit_char d < 128.
Proof.
  intros Hd. assert (d ∈ [0;1;2;3;4;5;6;7;8;9;10;11;12;13;14;15]) as Hin by set_solver by lia.
  repeat (apply elem_of_cons in Hin as [->|Hin]; [split; [by vm_compute|vm_compute; done]|]).
  inversion Hin.
Qed.

Lemma horner_mono base v ds : 1 ≤ base → 0 ≤ v → Forall (λ d, 0 ≤ d) ds → v ≤ horner base v ds.
Proof.
  intros Hb. revert v. induction ds as [|d ds IH]; intros v Hv Hds; simpl; [lia|].
  apply Forall_cons in Hds as [Hd Hds]. specialize (IH (v * base + d) ltac:(nia) Hds). nia.
Qed.

(** The characters [cs] at [p] and a terminator. *)
Lemma strtol_digits_spec fuel m p v base ds :
  (length ds < fuel)%nat → 2 ≤ base ≤ 16 → Forall (λ d, 0 ≤ d < base) ds →
  cstr m p (digit_char <$> ds) → 0 ≤ v → horner base v ds < 2 ^ 31 →
  strtol_digits fuel p v base m = Ret ((p + Z.of_nat (length ds), horner base v ds), m).
Proof.
  intros Hf Hb. revert fuel p v Hf. induction ds as [|d ds IH]; intros fuel p v Hf Hds Hs Hv Hh;
    (destruct fuel as [|fuel]; [simpl in Hf; lia|]); simpl in *.
  - mrun (rd_run _ _ _ Hs). rewrite Z.add_0_r. by vm_compute (digit_value 0).
  - apply Forall_cons in Hds as [Hd Hds]. destruct Hs as (Hp & _ & Hs).
    mrun (rd_run _ _ _ Hp). destruct (digit_char_value d ltac:(lia)) as [-> _].
    rewrite bool_decide_false by lia.
    assert (v * base + d ≤ horner base (v * base + d) ds).
    { apply horner_mono; [lia|nia|]. eapply Forall_impl; [exact Hds|]. simpl. lia. }
    rewrite (s32_small (v * base + d)) by nia.
    rewrite (IH fuel (p + 1) (v * base + d)); [|lia|done|done|nia|done].
    do 3 f_equal. lia.
Qed.

(** ** Formats and their arguments

    [args_fit None cs ap]: the arguments [ap] are what the conversions in the rest
    [cs] of a format ask for, read as text; [args_fit (Some lflag) cs ap]: read
    inside an escape with that many l.  %e asks for an int that can be negated.
    An escape that the code does not know is text. *)
Definition is32 (ap : list arg) : bool := match ap with A32 _ :: _ => true | _ => false end.
Definition is64 (ap : list arg) : bool := match ap with A64 _ :: _ => true | _ => false end.
Definition isstr (ap : list arg) : bool := match ap with AStr _ :: _ => true | _ => false end.
Definition iserr (ap : list arg) : bool :=
  match ap with A32 z :: _ => bool_decide (s32 z ≠ - 2 ^ 31) | _ => false end.
Definition isint (lflag : Z) (ap : list arg) : bool :=
  if bool_decide (lflag >= 2) then is64 ap else is32 ap.

Definition escape_fits (lflag c : Z) (rest : option Z → list arg → bool) (ap : list arg) : bool :=
  if bool_decide (c = 45) then rest (Some lflag) ap
  else if bool_decide (c = 48) then rest (Some lflag) ap
  else if bool_decide (49 ≤ c ≤ 57) then rest (Some lflag) ap
  else if bool_decide (c = 42) then is32 ap && rest (Some lflag) (tail ap)
  else if bool_decide (c = 46) then rest (Some lflag) ap
  else if bool_decide (c = 35) then rest (Some lflag) ap
  else if bool_decide (c = 108) then rest (Some (lflag + 1)) ap
  else if bool_decide (c = 99) then is32 ap && rest None (tail ap)
  else if bool_decide (c = 101) then iserr ap && rest None (tail ap)
  else if bool_decide (c = 115) then isstr ap && rest None (tail ap)
  else if bool_decide (c = 100) then isint lflag ap && rest None (tail ap)
  else if bool_decide (c = 117) then isint lflag ap && rest None (tail ap)
  else if bool_decide (c = 111) then isint lflag ap && rest None (tail ap)
  else if bool_decide (c = 112) then is32 ap && rest None (tail ap)
  else if bool_decide (c = 120) then isint lflag ap && rest None (tail ap)
  else if bool_decide (c = 37) then rest None ap
  else if bool_decide (c = 0) then true else rest None ap.

Fixpoint args_fit (esc : option Z) (cs : list Z) (ap : list arg) : bool :=
  match cs with
  | [] => true
  | c :: cs =>
    match esc with
    | Some lflag => escape_fits lflag c (λ e a, args_fit e cs a) ap
    | None =>
      if bool_decide (c = chr_percent) then args_fit (Some 0) cs ap
      else if bool_decide (c = 0) then true else args_fit None cs ap
    end
  end.

Definition is_byte (c : Z) : Prop := 0 ≤ c < 256.

(** Characters that are text when read again. *)
Definition plain (fmt : list Z) (i j : nat) : Prop :=
  ∀ k, (i ≤ k < j)%nat → ∃ c, fmt !! k = Some c ∧ c ≠ chr_percent ∧ c ≠ 0.
Lemma plain_snoc fmt i j c : plain fmt i j → fmt !! j = Some c → c ≠ chr_percent → c ≠ 0 → plain fmt i (Datatypes.S j).
Proof.
  intros Hp Hj H1 H2 k Hk. destruct (decide (k = j)) as [->|]; [by exists c|]. apply Hp. lia.
Qed.
Lemma args_fit_plain fmt i j ap : (i ≤ j)%nat → plain fmt i j → args_fit None (drop i fmt) ap = args_fit None (drop j fmt) ap.
Proof.
  intros Hij Hp. induction Hij as [|j Hij IH]; [done|]. rewrite IH by (intros k Hk; apply Hp; lia).
  destruct (Hp j ltac:(lia)) as (c & Hc & H1 & H2). rewrite (drop_S _ _ _ Hc). cbn [args_fit].
  rewrite !bool_decide_false by done. done.
Qed.
Lemma args_fit_digits fmt i j lf ap : (i ≤ j)%nat →
  (∀ k, (i ≤ k < j)%nat → ∃ c, fmt !! k = Some c ∧ 48 ≤ c ≤ 57) →
  args_fit (Some lf) (drop i fmt) ap = args_fit (Some lf) (drop j fmt) ap.
Proof.
  intros Hij Hp. induction Hij as [|j Hij IH]; [done|]. rewrite IH by (intros k Hk; apply Hp; lia).
  destruct (Hp j ltac:(lia)) as (c & Hc & H1). rewrite (drop_S _ _ _ Hc). cbn [args_fit]. unfold escape_fits.
  rewrite (bool_decide_false (c = 45)) by lia. destruct (decide (c = 48)) as [->|]; [done|].
  rewrite (bool_decide_false (c = 48)) by done. by rewrite bool_decide_true by lia.
Qed.

(** ** Termination

    [post m P]: [m] does not run out of fuel, and its result satisfies [P] when
    it returns; with [strict] it also returns. *)
Section Termination.
Context {S : Type} (strict : bool) (putch : Z → M S unit).

Definition post {A} (m : M S A) (P : A → Prop) : Prop :=
  ∀ s, match m s with Ret (a, _) => P a | OutOfFuel => False | _ => strict = false end.

Lemma post_bind {A B} (m : M S A) (k : A → M S B) P Q :
  post m P → (∀ a, P a → post (k a) Q) → post (m ≫= k) Q.
Proof.
  intros Hm Hk s. specialize (Hm s). unfold mbind, M_bind.
  destruct (m s) as [[a s']| | |]; try done. by apply Hk.
Qed.
Lemma post_ret {A} (a : A) (P : A → Prop) : P a → post (mret a) P.
Proof. by intros H s. Qed.
Lemma post_fault {A} (P : A → Prop) : strict = false → post fault P.
Proof. by intros Hs s. Qed.
Lemma post_mono {A} (m : M S A) (P Q : A → Prop) : post m P → (∀ a, P a → Q a) → post m Q.
Proof. intros Hm H s. specialize (Hm s). destruct (m s) as [[]| | |]; auto. Qed.

Context (Hputch : ∀ c, post (putch c) (λ _, True)).

Lemma post_repeat n c : post (repeat_putch putch n c) (λ _, True).
Proof using Hputch.
  induction n as [|n IH]; simpl; [by apply post_ret|]. eapply post_bind; [apply Hputch|done].
Qed.

Lemma post_printnum fuel num base w pc k :
  2 ≤ base ≤ 16 → 0 ≤ num < 2 ^ Z.of_nat k → (k ≤ 64)%nat → (k < fuel)%nat →
  post (printnum putch fuel num base w pc) (λ _, True).
Proof using Hputch.
  intros Hb. revert num w k. induction fuel as [|fuel IH]; intros num w k Hn Hk Hf; [lia|].
  cbn [printnum].
  assert (2 ^ Z.of_nat k ≤ 2 ^ 64) by (apply Z.pow_le_mono_r; lia).
  rewrite arch_do_div_spec by lia.
  eapply post_bind with (P := λ _, True).
  - destruct (decide (num >= base)) as [E|E].
    + rewrite bool_decide_true by done. destruct k as [|k]; [simpl in Hn; lia|].
      apply (IH _ _ k); [|lia|lia]. rewrite Nat2Z.inj_succ, Z.pow_succ_r in Hn by lia.
      split; [apply Z.div_pos; lia|]. apply Z.div_lt_upper_bound; [lia|]. nia.
    + rewrite bool_decide_false by done. apply post_repeat.
  - intros _ _. pose proof (Z.mod_pos_bound num base ltac:(lia)).
    rewrite bool_decide_true by lia. apply Hputch.
Qed.

Lemma post_print_chars p alt prec w : post (print_chars putch p alt prec w) (λ _, True).
Proof using Hputch.
  revert prec w. induction p as [|c p IH]; intros prec w; simpl; [by apply post_ret|].
  case_bool_decide; [|by apply post_ret]. eapply post_bind; [|intros; apply IH].
  destruct (alt && _); apply Hputch.
Qed.
Lemma post_print_string fs s : post (print_string putch fs s) (λ _, True).
Proof using Hputch.
  unfold print_string. eapply post_bind with (P := λ _, True).
  - case_bool_decide; [|by apply post_ret].
    eapply post_bind; [apply post_repeat|]. intros _ _. by apply post_ret.
  - intros w _. eapply post_bind; [apply post_print_chars|]. intros w' _. apply post_repeat.
Qed.

Lemma post_fmt_at fmt i : (i ≤ length fmt)%nat →
  post (fmt_at fmt i) (λ c, i = length fmt ∧ c = 0 ∨ fmt !! i = Some c).
Proof.
  intros Hi. unfold fmt_at. case_bool_decide; [apply post_ret; by left|].
  destruct (fmt !! i) as [c|] eqn:E; [apply post_ret; by right|]. apply lookup_ge_None in E. lia.
Qed.

Lemma s8_digit c : is_byte c → ¬ (s8 c < 48 ∨ s8 c > 57) → 48 ≤ c ≤ 57.
Proof.
  unfold is_byte, s8. intros Hc Hn. destruct (decide (c < 128)).
  - rewrite Z.mod_small in Hn by lia. lia.
  - exfalso. apply Hn. left. replace (c + 2 ^ 7) with (c - 128 + 1 * 2 ^ 8) by lia.
    rewrite Z.mod_add, Z.mod_small by lia. lia.
Qed.

Lemma post_scan fuel fmt i ch prec :
  (length fmt < i + fuel)%nat → (i ≤ length fmt)%nat → (strict = true → Forall is_byte fmt) →
  post (scan_width fuel fmt i ch prec) (λ r, (i ≤ r.1 ≤ length fmt)%nat ∧
    (strict = true → ∀ k, (i ≤ k < r.1)%nat → ∃ c, fmt !! k = Some c ∧ 48 ≤ c ≤ 57)).
Proof.
  intros Hf Hi Hby. revert i ch prec Hf Hi. induction fuel as [|fuel IH]; intros i ch prec Hf Hi; [lia|]. cbn [scan_width].
  eapply post_bind; [by apply post_fmt_at|]. intros c Hc. case_bool_decide as E.
  - apply post_ret. simpl. split; [lia|]. intros _ k Hk. lia.
  - destruct Hc as [[_ ->]|Hc]; [exfalso; apply E; left; by vm_compute|].
    apply lookup_lt_Some in Hc as Hlt. eapply post_mono; [apply IH; lia|]. intros r [Hr Hd]. split; [lia|].
    intros Hs k Hk. destruct (decide (k = i)) as [->|]; [|apply Hd; [done|lia]].
    exists c. split; [done|]. apply s8_digit; [|done]. by apply (Forall_lookup_1 _ _ _ _ (Hby Hs) Hc).
Qed.

(** The scan goes back to the character behind the %. *)
Lemma post_back fmt i j :
  (i < j ≤ length fmt)%nat → fmt !! i = Some chr_percent →
  post (back_scan fmt j) (λ r, (i < r ≤ j)%nat ∧ (plain fmt (Datatypes.S i) j → r = Datatypes.S i)).
Proof.
  intros Hj Hi. induction j as [|j IH]; [lia|]. cbn [back_scan].
  eapply post_bind; [apply post_fmt_at; lia|]. intros c Hc. case_bool_decide as E.
  - apply post_ret. split; [lia|]. intros Hp. destruct (decide (j = i)) as [->|]; [done|].
    destruct (Hp j ltac:(lia)) as (c' & Hc' & Hn & _). destruct Hc as [[-> _]|Hc]; [lia|]. congruence.
  - destruct (decide (j = i)) as [->|Hne].
    + destruct Hc as [[-> _]|Hc]; [lia|]. rewrite Hi in Hc. congruence.
    + eapply post_mono; [apply IH; lia|]. intros r [Hr Hp]. split; [lia|]. intros Hpl. apply Hp.
      intros k Hk. apply Hpl. lia.
Qed.

(** The two formats %e uses. *)
Definition nested_ok (pf : list Z → list arg → M S unit) : Prop :=
  (∀ e, post (pf [101; 114; 114; 111; 114; 32; 37; 100] [A32 e]) (λ _, True)) ∧
  (∀ p, post (pf [37; 115] [AStr (Some p)]) (λ _, True)).

(** The arguments are there when [strict]; what is left is the tail. *)
Lemma strict_false (b : bool) : (strict = true → b = true) → b = false → strict = false.
Proof. destruct strict; [|done]. intros H Hb. by rewrite H in Hb. Qed.
Lemma post_va_u32 ap : (strict = true → is32 ap = true) → post (va_u32 ap) (λ r, 0 ≤ r.1 < 2 ^ Z.of_nat 64 ∧ r.2 = tail ap).
Proof.
  intros H. unfold va_u32. destruct ap as [|[z|z|z] ap]; try (apply post_fault; by eapply strict_false).
  apply post_ret. simpl. pose proof (u32_range z) as []. change (Z.of_nat 64) with 64. split; [lia|done].
Qed.
Lemma post_va_u64 ap : (strict = true → is64 ap = true) → post (va_u64 ap) (λ r, 0 ≤ r.1 < 2 ^ Z.of_nat 64 ∧ r.2 = tail ap).
Proof.
  intros H. unfold va_u64, u64. destruct ap as [|[z|z|z] ap]; try (apply post_fault; by eapply strict_false).
  apply post_ret. simpl. split; [|done]. apply Z.mod_pos_bound. lia.
Qed.
Lemma post_getuint ap lf : (strict = true → isint lf ap = true) →
  post (getuint ap lf) (λ r, 0 ≤ r.1 < 2 ^ Z.of_nat 64 ∧ r.2 = tail ap).
Proof.
  unfold getuint, isint. intros H. case_bool_decide; [by apply post_va_u64|]. case_bool_decide; by apply post_va_u32.
Qed.
Lemma post_va_s32 ap : (strict = true → is32 ap = true) →
  post (va_s32 ap) (λ r, r.2 = tail ap ∧ ∃ z, ap = A32 z :: r.2 ∧ r.1 = s32 z).
Proof.
  intros H. unfold va_s32. destruct ap as [|[z|z|z] ap]; try (apply post_fault; by eapply strict_false).
  apply post_ret. simpl. split; [done|by exists z].
Qed.
Lemma post_getint ap lf : (strict = true → isint lf ap = true) → post (getint ap lf) (λ r, r.2 = tail ap).
Proof.
  unfold getint, isint. intros H. case_bool_decide.
  - eapply post_bind; [by apply post_va_u64|]. intros [] []. by apply post_ret.
  - case_bool_decide; (eapply post_mono; [by apply post_va_s32|]; by intros r []).
Qed.
Lemma post_va_str ap : (strict = true → isstr ap = true) → post (va_str ap) (λ r, r.2 = tail ap).
Proof.
  intros H. unfold va_str. destruct ap as [|[z|z|z] ap]; try (apply post_fault; by eapply strict_false). by apply post_ret.
Qed.

Lemma post_number fuel num base w pc (r : nat * list arg) (P : nat * list arg → Prop) :
  2 ≤ base ≤ 16 → 0 ≤ num < 2 ^ Z.of_nat 64 → (64 < fuel)%nat → P r →
  post (printnum putch fuel num base w pc ≫= λ _, mret r) P.
Proof using Hputch.
  intros Hb Hn Hf HP. eapply post_bind; [by eapply post_printnum|]. intros _ _. by apply post_ret.
Qed.

(** A format in which an e follows a %. *)
Definition has_e (fmt : list Z) : Prop :=
  ∃ i j, (i < j)%nat ∧ fmt !! i = Some chr_percent ∧ fmt !! j = Some 101.

(** The table of %e has a place for the number. *)
Lemma post_error z ap : (strict = true → iserr (A32 z :: ap) = true) →
  let err := if bool_decide (s32 z < 0) then s32 (- s32 z) else s32 z in
  post (if bool_decide (err > MAXERROR) then mret None
        else match error_string err with Some p => mret p | None => fault end) (λ _, True).
Proof.
  intros Hz err. case_bool_decide as Hm; [by apply post_ret|].
  destruct (error_string err) eqn:Ee; [by apply post_ret|]. apply post_fault. destruct strict; [|done].
  specialize (Hz eq_refl). unfold iserr in Hz. apply bool_decide_eq_true in Hz.
  pose proof (s32_range z) as Hr. unfold is_s32 in Hr.
  assert (H0 : 0 ≤ err ≤ MAXERROR).
  { unfold err in *. case_bool_decide; [|lia]. rewrite s32_small in Hm |- * by lia. lia. }
  unfold MAXERROR in H0. exfalso.
  assert (err = 0 ∨ err = 1 ∨ err = 2 ∨ err = 3 ∨ err = 4 ∨ err = 5 ∨ err = 6) as Hc by lia.
  repeat destruct Hc as [Hc|Hc]; rewrite Hc in Ee; vm_compute in Ee; discriminate Ee.
Qed.

Lemma post_reswitch pf fuel fmt i0 i ap fs :
  (has_e fmt → nested_ok pf) → (strict = true → Forall is_byte fmt) → fmt !! i0 = Some chr_percent → (i0 < i)%nat →
  (length fmt + 66 < i + fuel)%nat → (65 < fuel)%nat → (i ≤ length fmt)%nat →
  (strict = true → plain fmt (Datatypes.S i0) i ∧ args_fit (Some (lflag fs)) (drop i fmt) ap = true) →
  post (reswitch putch pf fuel fmt i ap fs) (λ r, (i0 < r.1 ≤ length fmt)%nat ∧
    (strict = true → args_fit None (drop r.1 fmt) r.2 = true)).
Proof using Hputch.
  intros Hnest Hby H0. revert i ap fs. induction fuel as [|fuel IH]; intros i ap fs Hi Hf Hf2 Hl Hs; [lia|].
  cbn [reswitch]. eapply post_bind; [by apply post_fmt_at|]. intros ch Hch.
  assert (Hend : ch ≠ 0 → fmt !! i = Some ch ∧ (Datatypes.S i ≤ length fmt)%nat).
  { intros Hne. destruct Hch as [[_ ->]|Hch]; [done|]. split; [done|]. by apply lookup_lt_Some in Hch. }
  set (rest := λ e a, args_fit e (drop (Datatypes.S i) fmt) a).
  assert (Hfit : strict = true → escape_fits (lflag fs) ch rest ap = true).
  { intros Hst. destruct (Hs Hst) as [_ Hfi]. destruct Hch as [[-> ->]|Hch]; [done|].
    by rewrite (drop_S _ _ _ Hch) in Hfi. }
  assert (Hagain : ∀ i' ap' fs', ch ≠ 0 → ch ≠ chr_percent → (i < i' ≤ length fmt)%nat →
    (strict = true → plain fmt (Datatypes.S i) i' ∧ args_fit (Some (lflag fs')) (drop i' fmt) ap' = true) →
    post (reswitch putch pf fuel fmt i' ap' fs') (λ r, (i0 < r.1 ≤ length fmt)%nat ∧
      (strict = true → args_fit None (drop r.1 fmt) r.2 = true))).
  { intros i' ap' fs' Hn0 Hnp Hi' Hs'. destruct (Hend Hn0) as [Hci Hle]. apply IH; [lia..|]. intros Hst.
    destruct (Hs' Hst) as [Hp' Hf']. split; [|done]. intros k Hk. destruct (Hs Hst) as [Hp _].
    destruct (decide (k < i)%nat); [apply Hp; lia|]. destruct (decide (k = i)) as [->|]; [by exists ch|]. apply Hp'. lia. }
  assert (Hnext : ∀ fs' ap', ch ≠ 0 → ch ≠ chr_percent → (strict = true → rest (Some (lflag fs')) ap' = true) →
    post (reswitch putch pf fuel fmt (Datatypes.S i) ap' fs') (λ r, (i0 < r.1 ≤ length fmt)%nat ∧
      (strict = true → args_fit None (drop r.1 fmt) r.2 = true))).
  { intros fs' ap' Hn0 Hnp Hr. destruct (Hend Hn0) as [_ Hle]. apply Hagain; [done|done|lia|]. intros Hst.
    split; [intros k Hk; lia|by apply Hr]. }
  assert (Hret : ∀ ap', ch ≠ 0 → (strict = true → rest None ap' = true) →
    (i0 < ((Datatypes.S i, ap') : nat * list arg).1 ≤ length fmt)%nat ∧
    (strict = true → args_fit None (drop (Datatypes.S i) fmt) ap' = true)).
  { intros ap' Hne Hr. destruct (Hend Hne) as [_ Hle]. split; [simpl; lia|done]. }
  unfold escape_fits in Hfit.
  repeat match goal with
  | |- post (if bool_decide (ch = ?c) then _ else _) _ => destruct (decide (ch = c)) as [->|?];
      [rewrite (bool_decide_true (c = c)) by done; rewrite (bool_decide_true (c = c)) in Hfit by done
      |rewrite (bool_decide_false (ch = c)) by done; rewrite (bool_decide_false (ch = c)) in Hfit by done]
  | |- post (if bool_decide (49 ≤ ch ≤ 57) then _ else _) _ => destruct (decide (49 ≤ ch ≤ 57));
      [rewrite (bool_decide_true (49 ≤ ch ≤ 57)) by done; rewrite (bool_decide_true (49 ≤ ch ≤ 57)) in Hfit by done
      |rewrite (bool_decide_false (49 ≤ ch ≤ 57)) by done; rewrite (bool_decide_false (49 ≤ ch ≤ 57)) in Hfit by done]
  end;
  (* an argument and the rest *)
  try (assert (Harg : strict = true → rest None (tail ap) = true) by (intros Hst; by apply andb_true_iff in Hfit as [_ ?]));
  try match type of Hfit with _ → ?b && _ = true =>
    assert (Hhead : strict = true → b = true) by (intros Hst; by apply andb_true_iff in Hfit as [? _]) end.
  - by apply Hnext.
  - by apply Hnext.
  - destruct (Hend ltac:(lia)) as [Hci Hle]. eapply post_bind; [apply post_scan; [lia|lia|done]|].
    intros [i' prec] [Hr Hd]. simpl in Hr, Hd.
    apply Hagain; [lia|unfold chr_percent; lia|lia|]. intros Hst. split.
    + intros k Hk. destruct (Hd Hst k Hk) as (c & Hc & Hcr). exists c. split; [done|]. unfold chr_percent. lia.
    + rewrite <-(args_fit_digits fmt (Datatypes.S i) i'); [|lia|by apply Hd]. case_bool_decide; by apply Hfit.
  - eapply post_bind; [by apply post_va_s32|]. intros [prec ap'] [Hap _]. simpl in Hap. subst ap'.
    apply Hnext; [done|done|]. intros Hst. apply andb_true_iff in Hfit as [_ Hfit]; [|done]. by case_bool_decide.
  - by apply Hnext.
  - by apply Hnext.
  - by apply Hnext.
  - eapply post_bind; [by apply post_va_s32|]. intros [c ap'] [Hap _]. simpl in Hap. subst ap'.
    eapply post_bind; [apply Hputch|]. intros _ _. apply post_ret. by apply Hret.
  - eapply post_bind; [apply post_va_s32; intros Hst; specialize (Hhead Hst); by destruct ap as [|[]]|].
    intros [err ap'] [Hap (z & Ez & Herr)]. simpl in Hap, Ez, Herr. subst ap' err. rewrite Ez in Hhead.
    eapply post_bind with (P := λ _, True); [by eapply post_error|].
    destruct Hnest as [Hn1 Hn2]; [exists i0, i; split; [done|]; split; [done|]; by apply Hend|].
    intros [p|] _.
    + eapply post_bind; [apply Hn2|]. intros _ _. apply post_ret. by apply Hret.
    + eapply post_bind; [apply Hn1|]. intros _ _. apply post_ret. by apply Hret.
  - eapply post_bind; [by apply post_va_str|]. intros [s ap'] Hap. simpl in Hap. subst ap'.
    eapply post_bind; [apply post_print_string|]. intros _ _. apply post_ret. by apply Hret.
  - eapply post_bind; [by apply post_getint|]. intros [num ap'] Hap. simpl in Hap. subst ap'.
    eapply post_bind with (P := λ z, 0 ≤ z < 2 ^ Z.of_nat 64).
    { change (2 ^ Z.of_nat 64) with (2 ^ 64). case_bool_decide.
      - eapply post_bind; [apply Hputch|]. intros _ _. apply post_ret. apply Z.mod_pos_bound. lia.
      - apply post_ret. apply Z.mod_pos_bound. lia. }
    intros z Hz. destruct (Hend ltac:(done)). apply post_number; [lia|done|lia|by apply Hret].
  - eapply post_bind; [by apply post_getuint|]. intros [num ap'] [Hz Hap]. simpl in Hz, Hap. subst ap'.
    destruct (Hend ltac:(done)). apply post_number; [lia|done|lia|by apply Hret].
  - eapply post_bind; [by apply post_getuint|]. intros [num ap'] [Hz Hap]. simpl in Hz, Hap. subst ap'.
    destruct (Hend ltac:(done)). apply post_number; [lia|done|lia|by apply Hret].
  - eapply post_bind; [apply Hputch|]. intros _ _. eapply post_bind; [apply Hputch|]. intros _ _.
    eapply post_bind; [by apply post_va_u32|]. intros [num ap'] [Hz Hap]. simpl in Hz, Hap. subst ap'.
    destruct (Hend ltac:(done)). apply post_number; [lia|done|lia|by apply Hret].
  - eapply post_bind; [by apply post_getuint|]. intros [num ap'] [Hz Hap]. simpl in Hz, Hap. subst ap'.
    destruct (Hend ltac:(done)). apply post_number; [lia|done|lia|by apply Hret].
  - eapply post_bind; [apply Hputch|]. intros _ _. apply post_ret. by apply Hret.
  - eapply post_bind; [apply Hputch|]. intros _ _.
    replace (Datatypes.S i - 1)%nat with i by lia.
    eapply post_bind; [apply (post_back fmt i0); [lia|done]|]. intros j [Hj Hpl]. apply post_ret. simpl. split; [lia|].
    intros Hst. destruct (Hs Hst) as [Hp _]. rewrite (Hpl Hp). rewrite (args_fit_plain fmt _ i) by (done || lia).
    destruct Hch as [[-> ->]|Hch]; [by rewrite drop_all|]. rewrite (drop_S _ _ _ Hch). cbn [args_fit].
    rewrite bool_decide_false by done. by apply Hfit.
Qed.

Lemma post_vprintfmt_gen pf_ok fuel fmt i ap :
  (has_e fmt → ∀ f, (pf_ok ≤ f)%nat → nested_ok (λ fm a, vprintfmt putch f fm 0 a)) →
  (strict = true → Forall is_byte fmt) →
  (length fmt + pf_ok + 70 < i + fuel)%nat → (pf_ok + 70 < fuel)%nat → (i ≤ length fmt)%nat →
  (strict = true → args_fit None (drop i fmt) ap = true) →
  post (vprintfmt putch fuel fmt i ap) (λ _, True).
Proof using Hputch.
  intros Hpf Hby. revert i ap. induction fuel as [|fuel IH]; intros i ap Hf Hf2 Hi Hs; [lia|].
  cbn [vprintfmt]. eapply post_bind; [by apply post_fmt_at|]. intros ch Hch.
  destruct (decide (ch = chr_percent)) as [->|Ep].
  2: { rewrite bool_decide_true by done. case_bool_decide as Hc0; [by apply post_ret|].
    destruct Hch as [[_ ->]|Hch]; [done|]. apply lookup_lt_Some in Hch as ?.
    eapply post_bind; [apply Hputch|]. intros _ _. apply IH; [lia..|]. intros Hst. specialize (Hs Hst).
    rewrite (drop_S _ _ _ Hch) in Hs. cbn [args_fit] in Hs. by rewrite !bool_decide_false in Hs by done. }
  - rewrite bool_decide_false by tauto.
    destruct Hch as [[_ ?]|Hch]; [done|]. apply lookup_lt_Some in Hch as ?.
    eapply post_bind.
    { apply (post_reswitch _ _ _ i); [intros He; apply Hpf; [done|lia]|done|done|lia..|]. intros Hst. specialize (Hs Hst).
      split; [intros k Hk; lia|]. rewrite (drop_S _ _ _ Hch) in Hs. exact Hs. }
    intros [j ap'] [Hj Hs']. simpl in Hj, Hs'. apply IH; [lia..|done].
Qed.

Lemma nested_ok_vprintfmt f : (79 ≤ f)%nat → nested_ok (λ fm a, vprintfmt putch f fm 0 a).
Proof using Hputch.
  intros Hf. split; intros x; apply (post_vprintfmt_gen 0); simpl; try lia; try done.
  - intros (i & j & Hij & Hi & Hj). exfalso.
    destruct i as [|[|[|[|[|[|[|[|i]]]]]]]]; simpl in Hi; try done;
      destruct j as [|[|[|[|[|[|[|[|j]]]]]]]]; simpl in Hj; try done; lia.
  - intros _. repeat constructor; done.
  - intros (i & j & Hij & Hi & Hj). exfalso.
    destruct i as [|[|i]]; simpl in Hi; try done; destruct j as [|[|j]]; simpl in Hj; try done; lia.
  - intros _. repeat constructor; done.
Qed.

Lemma post_vprintfmt fuel fmt ap :
  (length fmt + 150 ≤ fuel)%nat → (strict = true → Forall is_byte fmt ∧ args_fit None fmt ap = true) →
  post (vprintfmt putch fuel fmt 0 ap) (λ _, True).
Proof using Hputch.
  intros Hf Hs. apply (post_vprintfmt_gen 79); [|intros Hst; apply (Hs Hst)|lia..|intros Hst; apply (Hs Hst)].
  intros _ f Hf'. by apply nested_ok_vprintfmt.
Qed.
End Termination.

(** ** Buffers *)
Lemma vsnprintf_spec fuel m str size fmt ap l :
  str ≠ 0 → 1 ≤ size → valid m str size → output fuel fmt ap = Ret ((), l) →
  ∃ m', vsnprintf fuel str size fmt ap m = Ret (s32 (Z.of_nat (length l)), m') ∧
    ∀ a, m' !! a =
      let n := Z.min (Z.of_nat (length l)) (size - 1) in
      if bool_decide (str ≤ a < str + n) then u8 <$> l !! Z.to_nat (a - str)
      else if bool_decide (a = str + n) then Some 0 else m !! a.
Proof.
  intros Hs Hsz Hv E. unfold vsnprintf. cbn [buf ebuf]. rewrite bool_decide_false by lia.
  destruct (sim_vprintfmt _ _ _ (sprintputch_sim m str size Hsz Hv) fuel fmt 0 ap
              [] (SprintBuf str (str + size - 1) 0 m) () l) as (b & -> & [He Hc Hb Hm]); [|done|].
  { split; simpl; [done|done|lia|]. intros a. by rewrite bool_decide_false by lia. }
  exists (<[buf b := 0]> (smem b)). split.
  - erewrite bind_Ret; [|apply wr_run]; [by unfold mret, M_ret; rewrite Hc|].
    rewrite Hm, bool_decide_false by lia. apply Hv. lia.
  - intros a. rewrite Hb in Hm |- *. simpl. destruct (decide (a = str + Z.min (Z.of_nat (length l)) (size - 1))) as [->|Ha].
    + rewrite lookup_insert_eq. rewrite bool_decide_false by lia. by rewrite bool_decide_true.
    + rewrite lookup_insert_ne, Hm by done. by rewrite (bool_decide_false (a = _)).
Qed.

Lemma cstr_intro m p cs :
  str_ok cs → (∀ i c, cs !! i = Some c → m !! (p + Z.of_nat i) = Some c) →
  m !! (p + Z.of_nat (length cs)) = Some 0 → cstr m p cs.
Proof.
  revert p. induction cs as [|c cs IH]; intros p Hok Hi Hz; simpl in *; [by rewrite Z.add_0_r in Hz|].
  apply Forall_cons in Hok as [Hc Hok]. split_and!; try lia.
  - by rewrite <-(Hi O c), Z.add_0_r.
  - apply IH; [done|..].
    + intros i x Hx. rewrite <-(Hi (S i) x) by done. f_equal. lia.
    + rewrite <-Hz. f_equal. lia.
Qed.

(** ** Decimal numbers *)
Definition fmt_d : list Z := [37; 100].
Definition decimal (n : Z) : list Z :=
  (if bool_decide (n < 0) then [45] else []) ++ (digit_char <$> digits 64 10 (Z.abs n)).

Lemma digits_length fuel base num k :
  2 ≤ base → (1 ≤ k)%nat → 0 ≤ num < base ^ Z.of_nat k → (length (digits fuel base num) ≤ k)%nat.
Proof.
  intros Hb. revert num k. induction fuel as [|fuel IH]; intros num k Hk Hn; simpl; [lia|].
  rewrite length_app. simpl. case_bool_decide; [|simpl; lia].
  destruct k as [|[|k]]; [lia|simpl in Hn; lia|].
  assert (length (digits fuel base (num / base)) ≤ S k)%nat; [|lia].
  apply IH; [lia|]. rewrite Nat2Z.inj_succ, Z.pow_succ_r in Hn by lia.
  split; [apply Z.div_pos; lia|]. apply Z.div_lt_upper_bound; lia.
Qed.

#[local] Arguments digits : simpl never.

Lemma printnum_decimal f0 l z : f0 = 64%nat → 0 ≤ z ≤ 2 ^ 31 →
  (printnum lputch f0 z 10 (-1) chr_space ≫= λ _, mret (2%nat, [] : list arg)) l =
  Ret ((2%nat, []), l ++ (digit_char <$> digits 64 10 z)).
Proof.
  intros -> Hz. pose proof (printnum_list 63 z 10 (-1) chr_space l) as E.
  erewrite bind_Ret by (apply E; [lia| |lia|lia]; change (Z.of_nat 64) with 64; lia).
  match goal with |- context [replicate ?k] => replace k with 0%nat by lia end. done.
Qed.

Lemma reswitch_d f0 pf n : f0 = 64%nat → - 2 ^ 31 ≤ n < 2 ^ 31 →
  reswitch lputch pf (S f0) fmt_d 1 [A32 n] (FSpec chr_space (-1) (-1) 0 false) []
  = Ret ((2%nat, []), decimal n).
Proof.
  intros Hf Hn. unfold fmt_d. cbn [reswitch].
  mrun (eq_refl : fmt_at [37; 100] 1 ([] : list Z) = Ret (100, [])).
  rewrite !(bool_decide_false (100 = _)) by lia.
  rewrite (bool_decide_false (49 ≤ 100 ≤ 57)) by lia. rewrite (bool_decide_true (100 = 100)) by done.
  mrun (eq_refl : getint [A32 n] (lflag (FSpec chr_space (-1) (-1) 0 false)) ([] : list Z) = Ret ((s32 n, []), [])).
  cbn [padc width]. rewrite s32_small by lia.
  unfold decimal. case_bool_decide as E.
  - rewrite bind_assoc. mrun (eq_refl : lputch 45 [] = Ret ((), [45])). rewrite bind_mret.
    unfold u64. rewrite Z.mod_small by lia. rewrite printnum_decimal by lia. by rewrite Z.abs_neq by lia.
  - rewrite bind_mret. unfold u64. rewrite Z.mod_small by lia. rewrite printnum_decimal by lia.
    by rewrite Z.abs_eq by lia.
Qed.

Lemma output_d f0 n : f0 = 64%nat → - 2 ^ 31 ≤ n < 2 ^ 31 →
  output (S (S f0)) fmt_d [A32 n] = Ret ((), decimal n).
Proof.
  intros Hf Hn. unfold output. remember (S f0) as f1 eqn:Ef1. cbn [vprintfmt].
  mrun (eq_refl : fmt_at fmt_d 0 ([] : list Z) = Ret (37, [])).
  rewrite bool_decide_false by (intros E; by apply E).
  assert (E := reswitch_d f0 (λ f a, vprintfmt lputch f1 f 0 a) n Hf Hn). rewrite <-Ef1 in E.
  mrun E. subst f1. cbn [vprintfmt].
  mrun (eq_refl : fmt_at fmt_d 2 (decimal n) = Ret (0, decimal n)).
  rewrite bool_decide_true by done. by rewrite bool_decide_true.
Qed.

Lemma decimal_ok n : - 2 ^ 31 ≤ n < 2 ^ 31 → str_ok (decimal n) ∧ (0 < length (decimal n) ≤ 11)%nat ∧
  (u8 <$> decimal n) = decimal n.
Proof.
  intros Hn. unfold decimal, str_ok.
  assert (Hd : Forall (λ d, 0 ≤ d < 10) (digits 64 10 (Z.abs n))) by (apply digits_range; lia).
  assert (Hc : Forall (λ c, 0 < c < 256) (digit_char <$> digits 64 10 (Z.abs n))).
  { apply Forall_fmap. eapply Forall_impl; [exact Hd|]. intros d Hd'. cbv beta in Hd'.
    destruct (digit_char_value d) as [_ Hr]; [lia|]. unfold compose. lia. }
  assert (Hlen : (0 < length (digits 64 10 (Z.abs n)) ≤ 10)%nat).
  { split; [apply (digits_nonempty 63)|]. apply digits_length; [lia|lia|].
    change (10 ^ Z.of_nat 10) with 10000000000. lia. }
  assert (Hok : Forall (λ c, 0 < c < 256)
    ((if bool_decide (n < 0) then [45] else []) ++ (digit_char <$> digits 64 10 (Z.abs n)))).
  { apply Forall_app. split; [|done]. case_bool_decide; repeat constructor; lia. }
  split_and!; [done|..].
  - rewrite length_app, length_fmap. lia.
  - rewrite length_app, length_fmap. case_bool_decide; simpl; lia.
  - rewrite <-(list_fmap_id (_ ++ _)) at 2. apply list_fmap_ext. intros i c Hc'. apply u8_small.
    rewrite Forall_lookup in Hok. specialize (Hok i c Hc'). cbv beta in Hok. unfold id. lia.
Qed.

Lemma strtol_decimal m p n :
  - 2 ^ 31 < n < 2 ^ 31 → cstr m p (decimal n) →
  strtol 16 p 10 m = Ret ((n, p + Z.of_nat (length (decimal n))), m).
Proof.
  intros Hn Hs. pose proof (digits_value 64 10 (Z.abs n)) as Hval. specialize (Hval ltac:(lia)).
  assert (0 ≤ Z.abs n < 2 ^ Z.of_nat 64) as Hr by (change (Z.of_nat 64) with 64; lia).
  specialize (Hval Hr).
  assert (Hd : Forall (λ d, 0 ≤ d < 10) (digits 64 10 (Z.abs n))) by (apply digits_range; lia).
  assert (Hlen : (0 < length (digits 64 10 (Z.abs n)) ≤ 10)%nat).
  { split; [apply (digits_nonempty 63)|]. apply digits_length; [lia|lia|].
    change (10 ^ Z.of_nat 10) with 10000000000. lia. }
  assert (Hdig : ∀ q, cstr m q (digit_char <$> digits 64 10 (Z.abs n)) →
    ∃ c, m !! q = Some c ∧ c ≠ 32 ∧ c ≠ 9 ∧ c ≠ 43 ∧ c ≠ 45 ∧
      strtol_digits 16 q 0 10 m = Ret ((q + Z.of_nat (length (digits 64 10 (Z.abs n))), Z.abs n), m)).
  { intros q Hq.
    assert (Hst : strtol_digits 16 q 0 10 m =
              Ret ((q + Z.of_nat (length (digits 64 10 (Z.abs n))), Z.abs n), m)).
    { rewrite <-Hval at 2. apply strtol_digits_spec; try done; try lia. }
    rewrite Hst. clear Hst. destruct (digits 64 10 (Z.abs n)) as [|d ds] eqn:Ed; [simpl in Hlen; lia|].
    exists (digit_char d). split; [apply Hq|].
    apply Forall_cons in Hd as [Hd0 _].
    assert (Hne : ∀ z, digit_value z = None → digit_char d ≠ z).
    { intros z Hz <-. destruct (digit_char_value d) as [Hv _]; [lia|]. by rewrite Hv in Hz. }
    split_and!; try done; apply Hne; by vm_compute. }
  unfold strtol. destruct (decide (n < 0)) as [E|E].
  - unfold decimal in Hs |- *. rewrite (bool_decide_true (n < 0)) in Hs |- * by done. simpl in Hs.
    destruct Hs as (Hp & _ & Hs). destruct (Hdig _ Hs) as (c & Hc & _ & _ & _ & _ & Hdg).
    assert (skip_blanks 16 p m = Ret (p, m)) as Hsk.
    { simpl. mrun (rd_run _ _ _ Hp). by rewrite bool_decide_false by lia. }
    mrun Hsk. mrun (rd_run _ _ _ Hp).
    rewrite (bool_decide_false (45 = 43)), (bool_decide_true (45 = 45)) by lia. cbv beta iota zeta.
    rewrite (bool_decide_false (10 = 0 ∨ 10 = 16)), bind_mret by lia. cbv beta iota.
    rewrite (bool_decide_false (10 = 0)), bind_mret by lia.
    mrun Hdg. unfold mret, M_ret. rewrite s32_small by lia. simpl length. rewrite length_fmap.
    do 3 f_equal; lia.
  - unfold decimal in Hs |- *. rewrite (bool_decide_false (n < 0)) in Hs |- * by done. simpl in Hs.
    destruct (Hdig _ Hs) as (c & Hc & H1 & H2 & H3 & H4 & Hdg).
    assert (skip_blanks 16 p m = Ret (p, m)) as Hsk.
    { simpl. mrun (rd_run _ _ _ Hc). by rewrite bool_decide_false by lia. }
    mrun Hsk. mrun (rd_run _ _ _ Hc).
    rewrite (bool_decide_false (c = 43)), (bool_decide_false (c = 45)) by lia. cbv beta iota zeta.
    rewrite (bool_decide_false (10 = 0 ∨ 10 = 16)), bind_mret by lia. cbv beta iota.
    rewrite (bool_decide_false (10 = 0)), bind_mret by lia.
    mrun Hdg. unfold mret, M_ret. simpl app. rewrite length_fmap.
    do 3 f_equal; lia.
Qed.

(** ** Two limits of the code *)

(** A "-" flag, meant to pad on the right, makes printnum pad numbers on the
    left with dashes: "%-5d" prints 42 as "---42". *)
Lemma minus_flag_pads_numbers_with_dashes :
  output 100 [37; 45; 53; 100] [A32 42] = Ret ((), [45; 45; 45; 52; 50]).
Proof. by vm_compute. Qed.

(** With base 1, which the comment of printnum allows, the recursion never
    ends. *)
Lemma printnum_base_1_diverges {S} (putch : Z → M S unit) fuel num w pc s :
  1 ≤ num < 2 ^ 64 → printnum putch fuel num 1 w pc s = OutOfFuel.
Proof.
  intros Hn. revert w. induction fuel as [|fuel IH]; intros w; [done|]. cbn [printnum].
  rewrite arch_do_div_spec by lia. rewrite Z.div_1_r, (bool_decide_true (num >= 1)) by lia.
  unfold mbind, M_bind. by rewrite IH.
Qed.

(** %e negates the smallest integer to itself and indexes the table with it. *)
Lemma error_format_min_int_faults : output 100 [37; 101] [A32 (- 2 ^ 31)] = Fault.
Proof. by vm_compute. Qed.

(** ** The properties *)

(** C39. snprintf into a buffer of at least one byte writes inside the buffer
    only, always terminates it, puts the first size - 1 characters of the full
    output there, and returns the length of the full output, for every format
    and argument list. *)
Theorem snprintf_bounded fuel m str size fmt ap l :
  str ≠ 0 → 1 ≤ size → valid m str size → output fuel fmt ap = Ret ((), l) →
  ∃ m', snprintf fuel str size fmt ap m = Ret (s32 (Z.of_nat (length l)), m') ∧
    ∀ a, m' !! a =
      let n := Z.min (Z.of_nat (length l)) (size - 1) in
      if bool_decide (str ≤ a < str + n) then u8 <$> l !! Z.to_nat (a - str)
      else if bool_decide (a = str + n) then Some 0 else m !! a.
Proof. apply vsnprintf_spec. Qed.

Definition ex_buf : mem := list_to_map ((λ i, (i, 7)) <$> [100; 101; 102; 103; 104; 105]).
Lemma snprintf_bounded_witness :
  ∃ m', snprintf 100 100 4 [37; 120; 33] [A32 0xabcd] ex_buf = Ret (5, m') ∧
    m' !! 102 = Some 99 ∧ m' !! 103 = Some 0 ∧ m' !! 104 = Some 7.
Proof.
  destruct (snprintf_bounded 100 ex_buf 100 4 [37; 120; 33] [A32 0xabcd] [97; 98; 99; 100; 33])
    as (m' & E & Hm).
  - lia.
  - lia.
  - apply valid_compute. by vm_compute.
  - by vm_compute.
  - exists m'. rewrite !Hm. split; [exact E|]. split_and!; vm_compute; reflexivity.
Defined.

(** C38. vprintfmt returns for every format, a string of bytes, whose
    conversions find the arguments they ask for ([args_fit]: an int, a 64-bit
    integer after two l, a string, and for %e an int other than the smallest),
    also when the format has escapes the code does not know, where it moves
    back and prints them as text; so does snprintf into a valid buffer, with the
    length of the output.  It ends for all other arguments too.  Fuel of 150
    more than the length of the format is enough. *)
Theorem vprintfmt_terminates fuel m str size fmt ap :
  (length fmt + 150 ≤ fuel)%nat →
  (Forall is_byte fmt → args_fit None fmt ap = true →
     ∃ l, output fuel fmt ap = Ret ((), l) ∧
       (str ≠ 0 → 1 ≤ size → valid m str size →
        ∃ m', snprintf fuel str size fmt ap m = Ret (s32 (Z.of_nat (length l)), m'))) ∧
  output fuel fmt ap ≠ OutOfFuel ∧ snprintf fuel str size fmt ap m ≠ OutOfFuel.
Proof.
  intros Hf. split_and!.
  - intros Hby Hfit. assert (H : ∀ c, post true (lputch c) (λ _, True)) by by intros c l.
    pose proof (post_vprintfmt true lputch H fuel fmt ap Hf (λ _, conj Hby Hfit) []) as Hp.
    unfold output. destruct (vprintfmt lputch fuel fmt 0 ap []) as [[[] l]| | |] eqn:E; try done.
    exists l. split; [done|]. intros Hs Hsz Hv.
    destruct (vsnprintf_spec fuel m str size fmt ap l Hs Hsz Hv E) as (m' & E' & _). by exists m'.
  - assert (H : ∀ c, post false (lputch c) (λ _, True)) by by intros c l.
    pose proof (post_vprintfmt false lputch H fuel fmt ap Hf ltac:(done) []) as Hp.
    unfold output. intros E. by rewrite E in Hp.
  - assert (H : ∀ c, post false (sprintputch c) (λ _, True)).
    { intros c b. unfold sprintputch. simpl. case_bool_decide; [|done].
      unfold wr. by destruct (smem b !! buf b). }
    unfold snprintf, vsnprintf. cbn [buf ebuf]. case_bool_decide; [done|].
    pose proof (post_vprintfmt false sprintputch H fuel fmt ap Hf ltac:(done) (SprintBuf str (str + size - 1) 0 m)) as Hp.
    destruct (vprintfmt _ _ _ _ _ _) as [[[] b]| | |]; try done.
    unfold mbind, M_bind, wr. by destruct (smem b !! buf b).
Qed.

(** Every conversion of [ex_fmt], an unknown one and an unfinished one. *)
Lemma vprintfmt_terminates_witness :
  ∃ l, output 200 ex_fmt [A32 (-42); A32 42; A32 255; AStr (Some [97;98]); A32 (-4)] = Ret ((), l) ∧
    ∃ m', snprintf 200 100 4 ex_fmt [A32 (-42); A32 42; A32 255; AStr (Some [97;98]); A32 (-4)] ex_buf =
      Ret (s32 (Z.of_nat (length l)), m').
Proof.
  destruct (vprintfmt_terminates 200 ex_buf 100 4 ex_fmt [A32 (-42); A32 42; A32 255; AStr (Some [97;98]); A32 (-4)])
    as [H _]; [simpl; lia|].
  destruct H as (l & E & Hb).
  - unfold ex_fmt, is_byte. repeat constructor; lia.
  - vm_compute. reflexivity.
  - exists l. split; [exact E|]. apply Hb; [lia|lia|]. apply valid_compute. by vm_compute.
Defined.

(** C40. Printing an int with snprintf "%d" into a buffer of 12 bytes and
    reading it back with strtol in base 10 gives the same number, and strtol
    stops at the end of the text. *)
Theorem snprintf_strtol_roundtrip m str size n :
  str ≠ 0 → 12 ≤ size → valid m str size → - 2 ^ 31 < n < 2 ^ 31 →
  ∃ m' len, snprintf 66 str size fmt_d [A32 n] m = Ret (len, m') ∧
    strtol 16 str 10 m' = Ret ((n, str + len), m').
Proof.
  intros Hs Hsz Hv Hn. destruct (decimal_ok n ltac:(lia)) as (Hok & Hlen & Hu8).
  destruct (vsnprintf_spec 66 m str size fmt_d [A32 n] (decimal n)) as (m' & E & Hm);
    [done|lia|done|by apply (output_d 64); [|lia]|].
  rewrite s32_small in E by lia. exists m', (Z.of_nat (length (decimal n))). split; [done|].
  apply strtol_decimal; [done|]. apply cstr_intro; [done|..].
  - intros i c Hi. pose proof (lookup_lt_Some _ _ _ Hi). rewrite Hm. cbv zeta.
    rewrite bool_decide_true by lia. replace (Z.to_nat _) with i by lia.
    rewrite <-list_lookup_fmap, Hu8. done.
  - rewrite Hm. cbv zeta. rewrite bool_decide_false by lia. by rewrite bool_decide_true by lia.
Qed.

Definition ex_buf12 : mem := list_to_map ((λ i, (100 + Z.of_nat i, 7)) <$> seq 0 12).

Lemma snprintf_strtol_roundtrip_witness :
  ∃ m' len, snprintf 66 100 12 fmt_d [A32 (-20490)] ex_buf12 = Ret (len, m') ∧
    strtol 16 100 10 m' = Ret ((-20490, 100 + len), m').
Proof.
  apply snprintf_strtol_roundtrip.
  - lia.
  - lia.
  - apply valid_compute. by vm_compute.
  - lia.
Defined.
