(* ===== verification/Buddy.v ===== *)
(** * kern/mm/buddy_pmm.c: the buddy allocator of physical pages

    A struct Page pointer is the index of the page in the array pages, so that
    page2ppn is the identity.  The free lists are the circular lists of
    include/list.h over the addresses of the list heads and of the page_link
    fields. *)
From stdpp Require Import base gmap list fin_maps.
From Stdlib Require Import ZArith Lia.
From S2P Require Import Prelude DList Bits.

(** ** kern/include/memlayout.h *)
Record Page : Type := MkPage { ref : Z; flags : Z; property : Z; zone_num : Z }.

Definition PG_reserved : Z := 0.
Definition PG_property : Z := 1.

Definition PageReserved (pg : Page) : bool := Z.testbit (flags pg) PG_reserved.
Definition PageProperty (pg : Page) : bool := Z.testbit (flags pg) PG_property.
Definition SetPageReserved (pg : Page) : Page :=
  MkPage (ref pg) (Z.lor (flags pg) (Z.shiftl 1 PG_reserved)) (property pg) (zone_num pg).
Definition SetPageProperty (pg : Page) : Page :=
  MkPage (ref pg) (Z.lor (flags pg) (Z.shiftl 1 PG_property)) (property pg) (zone_num pg).
Definition ClearPageProperty (pg : Page) : Page :=
  MkPage (ref pg) (Z.land (flags pg) (u32 (Z.lnot (Z.shiftl 1 PG_property))))
    (property pg) (zone_num pg).
Definition page_ref (pg : Page) : Z := ref pg.
Definition set_page_ref (v : Z) (pg : Page) : Page :=
  MkPage v (flags pg) (property pg) (zone_num pg).
Definition page_ref_inc (pg : Page) : Page * Z :=
  let r := s32 (ref pg + 1) in (set_page_ref r pg, r).
Definition page_ref_dec (pg : Page) : Page * Z :=
  let r := s32 (ref pg - 1) in (set_page_ref r pg, r).
Definition set_flags (v : Z) (pg : Page) : Page :=
  MkPage (ref pg) v (property pg) (zone_num pg).
Definition set_property (v : Z) (pg : Page) : Page :=
  MkPage (ref pg) (flags pg) v (zone_num pg).
Definition set_zone_num (v : Z) (pg : Page) : Page :=
  MkPage (ref pg) (flags pg) (property pg) v.

(** The addresses of list entries: &free_list(x) and &(p->page_link). *)
Inductive addr : Type := FreeList (x : Z) | PageLink (p : Z).
#[global] Instance addr_eq_dec : EqDecision addr.
Proof. solve_decision. Defined.
#[global] Instance addr_countable : Countable addr.
Proof.
  refine (inj_countable' (λ a, match a with FreeList x => inl x | PageLink p => inr p end)
            (λ s, match s with inl x => FreeList x | inr p => PageLink p end) _).
  by intros [].
Defined.

Record pmm : Type := MkPmm {
  pages : gmap Z Page;
  links : gmap addr (list_entry addr);
  nr_free : gmap Z Z;
  mem_base : gmap Z Z;        (* zones[].mem_base *)
  zone_count : Z;             (* the static zone_num of buddy_init_memmap *)
  npage : Z }.

Definition MAX_ORDER : Z := 10.
Definition MAX_ZONE_NUM : Z := 10.

Definition links_lens : lens pmm (gmap addr (list_entry addr)) :=
  Lens links (λ l s, MkPmm (pages s) l (nr_free s) (mem_base s) (zone_count s) (npage s)).
#[global] Instance links_lens_laws : LensLaws links_lens.
Proof. split; [done|by intros []|done]. Qed.

Definition get_page (p : Z) : M pmm Page := λ s,
  match pages s !! p with Some pg => Ret (pg, s) | None => Fault end.
Definition set_page (p : Z) (f : Page → Page) : M pmm unit := λ s,
  match pages s !! p with
  | Some pg => Ret ((), MkPmm (<[p := f pg]> (pages s)) (links s) (nr_free s) (mem_base s)
                          (zone_count s) (npage s))
  | None => Fault
  end.
Definition get_nr_free (x : Z) : M pmm Z := λ s,
  match nr_free s !! x with Some n => Ret (n, s) | None => Fault end.
Definition set_nr_free (x n : Z) : M pmm unit := modify (λ s,
  MkPmm (pages s) (links s) (<[x := n]> (nr_free s)) (mem_base s) (zone_count s) (npage s)).
Definition get_mem_base (z : Z) : M pmm Z := λ s,
  match mem_base s !! z with Some b => Ret (b, s) | None => Fault end.

Definition le2page (le : addr) : M pmm Z :=
  match le with PageLink p => mret p | FreeList _ => fault end.

(** ** Operations *)
Fixpoint buddy_init_loop (n : nat) (i : Z) : M pmm unit :=
  match n with
  | O => skip
  | S n => zoom links_lens (list_init (FreeList i));; set_nr_free i 0;; buddy_init_loop n (i + 1)
  end.
(** for (i = 0; i <= MAX_ORDER; i ++) *)
Definition buddy_init : M pmm unit := buddy_init_loop 11 0.

Fixpoint init_pages (n : nat) (p zone : Z) : M pmm unit :=
  match n with
  | O => skip
  | S n =>
    pg ← get_page p; assert (PageReserved pg);;
    set_page p (λ pg, set_page_ref 0 (set_zone_num zone (set_property 0 (set_flags 0 pg))));;
    init_pages n (p + 1) zone
  end.

(** while (n >= order_size); returns n and p. *)
Fixpoint fill_order (fuel : nat) (order order_size n p : Z) : M pmm (Z * Z) :=
  match fuel with
  | O => out_of_fuel
  | S fuel =>
    if bool_decide (n >= order_size) then
      set_page p (set_property order);;
      set_page p SetPageProperty;;
      zoom links_lens (list_add (FreeList order) (PageLink p));;
      nf ← get_nr_free order; set_nr_free order (u32 (nf + 1));;
      fill_order fuel order order_size (n - order_size) (p + order_size)
    else mret (n, p)
  end.

Fixpoint fill (fuel : nat) (order order_size n p : Z) : M pmm unit :=
  match fuel with
  | O => out_of_fuel
  | S fuel =>
    if bool_decide (n ≠ 0) then
      '(n, p) ← fill_order (S fuel) order order_size n p;
      fill fuel (u32 (order - 1)) (Z.shiftr order_size 1) n p
    else skip
  end.

Definition buddy_init_memmap (fuel : nat) (base n : Z) : M pmm unit :=
  zc ← gets zone_count;
  assert (bool_decide (n > 0 ∧ zc < MAX_ZONE_NUM));;
  init_pages (Z.to_nat n) base zc;;
  modify (λ s, MkPmm (pages s) (links s) (nr_free s) (<[zc := base]> (mem_base s)) (zc + 1) (npage s));;
  fill fuel MAX_ORDER (Z.shiftl 1 MAX_ORDER) n base.

Fixpoint getorder_loop (fuel : nat) (n order order_size : Z) : M pmm Z :=
  match fuel with
  | O => panic
  | S fuel => if bool_decide (n ≤ order_size) then mret order
              else getorder_loop fuel n (order + 1) (u32 (Z.shiftl order_size 1))
  end.
(** The loop runs for order = 0 .. MAX_ORDER, then the function panics. *)
Definition getorder (n : Z) : M pmm Z := getorder_loop 11 n 0 1.

(** while (cur_order > order) *)
Fixpoint split_loop (fuel : nat) (page cur_order order size : Z) : M pmm unit :=
  match fuel with
  | O => out_of_fuel
  | S fuel =>
    if bool_decide (cur_order > order) then
      let cur_order := cur_order - 1 in
      let size := Z.shiftr size 1 in
      let buddy := page + size in
      set_page buddy (set_property cur_order);;
      set_page buddy SetPageProperty;;
      nf ← get_nr_free cur_order; set_nr_free cur_order (u32 (nf + 1));;
      zoom links_lens (list_add (FreeList cur_order) (PageLink buddy));;
      split_loop fuel page cur_order order size
    else skip
  end.

(** for (cur_order = order; cur_order <= MAX_ORDER; cur_order ++); None is
    NULL. *)
Fixpoint alloc_loop (fuel : nat) (order cur_order : Z) : M pmm (option Z) :=
  match fuel with
  | O => out_of_fuel
  | S fuel =>
    if bool_decide (cur_order ≤ MAX_ORDER) then
      e ← zoom links_lens (list_empty (FreeList cur_order));
      if negb e then
        le ← zoom links_lens (list_next (FreeList cur_order));
        page ← le2page le;
        nf ← get_nr_free cur_order; set_nr_free cur_order (u32 (nf - 1));;
        zoom links_lens (list_del le);;
        split_loop 11 page cur_order order (Z.shiftl 1 cur_order);;
        set_page page ClearPageProperty;;
        mret (Some page)
      else alloc_loop fuel order (cur_order + 1)
    else mret None
  end.

Definition buddy_alloc_pages_sub (order : Z) : M pmm (option Z) :=
  assert (bool_decide (order ≤ MAX_ORDER));; alloc_loop 12 order order.

Definition page2ppn (p : Z) : Z := p.

Definition page_is_buddy (page order zone : Z) : M pmm bool :=
  np ← gets npage;
  if bool_decide (page2ppn page < np) then
    pg ← get_page page;
    if bool_decide (zone_num pg = zone) then
      mret (negb (PageReserved pg) && PageProperty pg && bool_decide (property pg = order))
    else mret false
  else mret false.

Definition page2idx (page : Z) : M pmm Z :=
  pg ← get_page page; b ← get_mem_base (zone_num pg); mret (page - b).
Definition idx2page (zone idx : Z) : M pmm Z :=
  b ← get_mem_base zone; mret (b + idx).

(** for (; p != base + (1 << order); p ++) *)
Fixpoint free_clear (n : nat) (p : Z) : M pmm unit :=
  match n with
  | O => skip
  | S n =>
    pg ← get_page p; assert (negb (PageReserved pg) && negb (PageProperty pg));;
    set_page p (λ pg, set_page_ref 0 (set_flags 0 pg));;
    free_clear n (p + 1)
  end.

(** while (order < MAX_ORDER); returns page_idx and order. *)
Fixpoint merge_loop (fuel : nat) (zone page_idx order : Z) : M pmm (Z * Z) :=
  match fuel with
  | O => out_of_fuel
  | S fuel =>
    if bool_decide (order < MAX_ORDER) then
      let buddy_idx := Z.lxor page_idx (Z.shiftl 1 order) in
      buddy ← idx2page zone buddy_idx;
      ok ← page_is_buddy buddy order zone;
      if negb ok then mret (page_idx, order)
      else
        nf ← get_nr_free order; set_nr_free order (u32 (nf - 1));;
        zoom links_lens (list_del (PageLink buddy));;
        set_page buddy ClearPageProperty;;
        merge_loop fuel zone (Z.land page_idx buddy_idx) (order + 1)
    else mret (page_idx, order)
  end.

Definition buddy_free_pages_sub (base order : Z) : M pmm unit :=
  page_idx ← page2idx base;
  assert (bool_decide (Z.land page_idx (Z.shiftl 1 order - 1) = 0));;
  free_clear (Z.to_nat (Z.shiftl 1 order)) base;;
  pg ← get_page base;
  let zone := zone_num pg in
  '(page_idx, order) ← merge_loop 12 zone page_idx order;
  page ← idx2page zone page_idx;
  set_page page (set_property order);;
  set_page page SetPageProperty;;
  nf ← get_nr_free order; set_nr_free order (u32 (nf + 1));;
  zoom links_lens (list_add (FreeList order) (PageLink page)).

(** while (n >= order_size): frees from the low end while the index has the
    bit; returns base, n, order and order_size. *)
Fixpoint free_low (fuel : nat) (base n order order_size : Z) : M pmm (Z * Z * Z * Z) :=
  match fuel with
  | O => out_of_fuel
  | S fuel =>
    if bool_decide (n >= order_size) then
      assert (bool_decide (order ≤ MAX_ORDER));;
      idx ← page2idx base;
      '(base, n) ← (if bool_decide (Z.land idx order_size ≠ 0) then
                      buddy_free_pages_sub base order;; mret (base + order_size, n - order_size)
                    else mret (base, n));
      free_low fuel base n (order + 1) (u32 (Z.shiftl order_size 1))
    else mret (base, n, order, order_size)
  end.

(** while (n < order_size) { order --; order_size >>= 1; } *)
Fixpoint lower (fuel : nat) (n order order_size : Z) : M pmm (Z * Z) :=
  match fuel with
  | O => out_of_fuel
  | S fuel => if bool_decide (n < order_size) then lower fuel n (order - 1) (Z.shiftr order_size 1)
              else mret (order, order_size)
  end.

Fixpoint free_high (fuel : nat) (base n order order_size : Z) : M pmm unit :=
  match fuel with
  | O => out_of_fuel
  | S fuel =>
    if bool_decide (n ≠ 0) then
      '(order, order_size) ← lower 12 n order order_size;
      buddy_free_pages_sub base order;;
      free_high fuel (base + order_size) (n - order_size) order order_size
    else skip
  end.

Definition buddy_free_pages (base n : Z) : M pmm unit :=
  assert (bool_decide (n > 0));;
  if bool_decide (n = 1) then buddy_free_pages_sub base 0
  else
    '(base, n, order, order_size) ← free_low 13 base n 0 1;
    free_high 13 base n order order_size.

Definition buddy_alloc_pages (n : Z) : M pmm (option Z) :=
  assert (bool_decide (n > 0));;
  order ← getorder n;
  let order_size := Z.shiftl 1 order in
  page ← buddy_alloc_pages_sub order;
  match page with
  | Some p =>
    (if bool_decide (n ≠ order_size) then buddy_free_pages (p + n) (order_size - n) else skip);;
    mret (Some p)
  | None => mret None
  end.

Fixpoint nr_free_loop (n : nat) (order ret : Z) : M pmm Z :=
  match n with
  | O => mret ret
  | S n => nf ← get_nr_free order; nr_free_loop n (order + 1) (u32 (ret + u32 (nf * Z.shiftl 1 order)))
  end.
Definition buddy_nr_free_pages : M pmm Z := nr_free_loop 11 0 0.

(** ** buddy_check *)
Definition get_entry (a : addr) : M pmm (list_entry addr) := λ s,
  match links s !! a with Some e => Ret (e, s) | None => Fault end.
Definition set_entry (a : addr) (e : list_entry addr) : M pmm unit := λ s,
  match links s !! a with
  | Some _ => Ret ((), MkPmm (pages s) (<[a := e]> (links s)) (nr_free s) (mem_base s)
                         (zone_count s) (npage s))
  | None => Fault
  end.

(** while ((le = list_next(le)) != list): [sgn] is 1 in the first walk and -1
    in the last. *)
Fixpoint check_list (fuel : nat) (sgn i : Z) (le : addr) (count total : Z) : M pmm (Z * Z) :=
  match fuel with
  | O => out_of_fuel
  | S fuel =>
    le ← zoom links_lens (list_next le);
    if bool_decide (le ≠ FreeList i) then
      p ← le2page le;
      pg ← get_page p;
      assert (PageProperty pg && bool_decide (property pg = i));;
      check_list fuel sgn i le (s32 (count + sgn)) (s32 (total + sgn * Z.shiftl 1 i))
    else mret (count, total)
  end.
Fixpoint check_lists (fuel n : nat) (sgn i count total : Z) : M pmm (Z * Z) :=
  match n with
  | O => mret (count, total)
  | S n => '(count, total) ← check_list fuel sgn i (FreeList i) count total;
           check_lists fuel n sgn (i + 1) count total
  end.

(** Saving and restoring the list heads and the counters. *)
Fixpoint check_save (n : nat) (i : Z) : M pmm (list (list_entry addr * Z)) :=
  match n with
  | O => mret []
  | S n =>
    e ← get_entry (FreeList i);
    zoom links_lens (list_init (FreeList i));;
    em ← zoom links_lens (list_empty (FreeList i)); assert em;;
    nf ← get_nr_free i; set_nr_free i 0;;
    rest ← check_save n (i + 1); mret ((e, nf) :: rest)
  end.
Fixpoint check_restore (store : list (list_entry addr * Z)) (i : Z) : M pmm unit :=
  match store with
  | [] => skip
  | (e, nf) :: store => set_entry (FreeList i) e;; set_nr_free i nf;; check_restore store (i + 1)
  end.

Definition check_free (n : Z) : M pmm unit :=
  r ← buddy_nr_free_pages; assert (bool_decide (r = n)).
Definition check_block (p o : Z) : M pmm unit :=
  pg ← get_page p; assert (PageProperty pg && bool_decide (property pg = o)).
(** assert((p = alloc_pages(n)) != NULL) *)
Definition check_alloc (n : Z) : M pmm Z :=
  p ← buddy_alloc_pages n; match p with Some p => mret p | None => panic end.
Definition check_no_page : M pmm unit :=
  p ← buddy_alloc_pages 1; assert (bool_decide (p = None)).

Definition buddy_check (fuel : nat) : M pmm unit :=
  '(count, total) ← check_lists fuel 11 1 0 0 0;
  check_free (u32 total);;
  p0 ← buddy_alloc_pages 8;
  buddy ← buddy_alloc_pages 8;
  p0 ← (match p0 with Some p => mret p | None => panic end);
  idx ← page2idx p0; assert (bool_decide (Z.land idx 7 = 0));;
  pg0 ← get_page p0; assert (negb (PageProperty pg0));;
  store ← check_save 11 0;
  check_free 0;; check_no_page;;
  buddy_free_pages p0 8;; check_free 8;; check_block p0 3;;
  p0 ← check_alloc 6; pg0 ← get_page p0; assert (negb (PageProperty pg0));; check_free 2;;
  p1 ← check_alloc 2; assert (bool_decide (p1 = p0 + 6));; check_free 0;;
  buddy_free_pages p0 3;; check_block p0 1;; check_block (p0 + 2) 0;;
  buddy_free_pages (p0 + 3) 3;; buddy_free_pages p1 2;; check_block p0 3;;
  p0 ← check_alloc 6; p1 ← check_alloc 2;
  buddy_free_pages (p0 + 4) 2;; buddy_free_pages p1 2;;
  let p1 := p0 + 4 in check_block p1 2;;
  buddy_free_pages p0 4;; check_block p0 3;;
  p0 ← check_alloc 8; check_no_page;; check_free 0;;
  check_restore store 0;;
  buddy_free_pages p0 8;;
  match buddy with Some b => buddy_free_pages b 8 | None => fault end;;
  check_free (u32 total);;
  '(count, total) ← check_lists fuel 11 (-1) 0 count total;
  assert (bool_decide (count = 0));; assert (bool_decide (total = 0)).
