(* ===== verification/BuddyInv.v ===== *)
(** * The buddy allocator: representation invariant and elementary steps

    The abstract state is the map [B] from the first page of each free block to
    its order.  [inv s B e] relates it to the C state; [e] is a page whose
    PG_property flag is momentarily stale. *)
From stdpp Require Import base gmap list fin_maps.
From Stdlib Require Import ZArith Lia.
From S2P Require Import Prelude DList Bits Buddy.

Abbreviation blocks := (gmap Z Z).

Definition in_block (i o p : Z) : Prop := i ≤ p < i + 2 ^ o.
Definition covers (B : blocks) (p : Z) : Prop := ∃ i o, B !! i = Some o ∧ in_block i o p.

(** The pages of a block exist, belong to one zone and are not reserved; the
    block is aligned in its zone. *)
Definition zoned (s : pmm) (z i n : Z) : Prop :=
  ∀ p, i ≤ p < i + n → ∃ pg, pages s !! p = Some pg ∧ zone_num pg = z ∧ PageReserved pg = false.
Definition aligned (s : pmm) (z i o : Z) : Prop :=
  ∃ b, mem_base s !! z = Some b ∧ b ≤ i ∧ (2 ^ o | i - b).

Record inv (s : pmm) (B : blocks) (L : Z → list Z) (e : option Z) : Prop := {
  inv_lists : ∃ F, dlists (links s) F ∧
    (∀ o, 0 ≤ o ≤ 10 → F !! FreeList o = Some (PageLink <$> L o)) ∧
    (∀ hd xs, F !! hd = Some xs → ∃ o, hd = FreeList o ∧ 0 ≤ o ≤ 10);
  inv_links : ∀ p, is_Some (pages s !! p) → is_Some (links s !! PageLink p);
  inv_LB : ∀ o i, 0 ≤ o ≤ 10 → i ∈ L o ↔ B !! i = Some o;
  inv_nr : ∀ o, 0 ≤ o ≤ 10 → nr_free s !! o = Some (u32 (Z.of_nat (length (L o))));
  inv_order : ∀ i o, B !! i = Some o → 0 ≤ o ≤ 10;
  inv_zone : ∀ i o, B !! i = Some o → ∃ z, zoned s z i (2 ^ o) ∧ aligned s z i o;
  inv_head : ∀ i o, B !! i = Some o → ∃ pg, pages s !! i = Some pg ∧
    PageProperty pg = true ∧ property pg = o;
  inv_flag : ∀ p pg, pages s !! p = Some pg → PageProperty pg = true → e ≠ Some p →
    B !! p = Some (property pg);
  inv_disj : ∀ i o j o', B !! i = Some o → B !! j = Some o' → i ≠ j →
    i + 2 ^ o ≤ j ∨ j + 2 ^ o' ≤ i;
  inv_npage : ∀ p, is_Some (pages s !! p) ↔ 0 ≤ p < npage s;
  inv_base : ∀ z b, mem_base s !! z = Some b → 0 ≤ b }.

(** What no step changes. *)
Record evolves (s s' : pmm) : Prop := {
  ev_pages : ∀ p pg, pages s !! p = Some pg → ∃ pg', pages s' !! p = Some pg' ∧
    zone_num pg' = zone_num pg ∧ (PageReserved pg = false → PageReserved pg' = false);
  ev_base : mem_base s' = mem_base s;
  ev_npage : npage s' = npage s }.

Lemma evolves_refl s : evolves s s.
Proof. split; [|done..]. intros p pg Hp. by exists pg. Qed.
Lemma evolves_trans s1 s2 s3 : evolves s1 s2 → evolves s2 s3 → evolves s1 s3.
Proof.
  intros [P1 B1 N1] [P2 B2 N2]. split; [|congruence..]. intros p pg Hp.
  destruct (P1 p pg Hp) as (pg1 & Hp1 & Hz1 & Hr1). destruct (P2 p pg1 Hp1) as (pg2 & Hp2 & Hz2 & Hr2).
  exists pg2. split_and!; [done|congruence|auto].
Qed.
Lemma evolves_zoned s s' z i n : evolves s s' → zoned s z i n → zoned s' z i n.
Proof.
  intros Hev Hz p Hp. destruct (Hz p Hp) as (pg & Hpg & Hzn & Hr).
  destruct (ev_pages _ _ Hev p pg Hpg) as (pg' & ? & ? & ?). exists pg'. split_and!; [done|congruence|auto].
Qed.
Lemma evolves_aligned s s' z i o : evolves s s' → aligned s z i o → aligned s' z i o.
Proof. intros Hev (b & Hb & ?). exists b. by rewrite (ev_base _ _ Hev). Qed.

Lemma zoned_sub s z i n j m : zoned s z i n → i ≤ j → j + m ≤ i + n → zoned s z j m.
Proof. intros Hz Hi Hn p Hp. apply Hz. lia. Qed.

(** ** Flags *)
Lemma reserved_set_property pg : PageReserved (SetPageProperty pg) = PageReserved pg.
Proof.
  unfold PageReserved, SetPageProperty, PG_reserved, PG_property. simpl flags.
  rewrite Z.lor_spec. by rewrite orb_false_r.
Qed.
Lemma property_set_property pg : PageProperty (SetPageProperty pg) = true.
Proof.
  unfold PageProperty, SetPageProperty, PG_property. simpl flags.
  rewrite Z.lor_spec. by rewrite orb_true_r.
Qed.
Lemma reserved_clear_property pg : PageReserved (ClearPageProperty pg) = PageReserved pg.
Proof.
  unfold PageReserved, ClearPageProperty, PG_reserved, PG_property. simpl flags.
  rewrite Z.land_spec, u32_testbit by lia. simpl. by rewrite andb_true_r.
Qed.
Lemma property_clear_property pg : PageProperty (ClearPageProperty pg) = false.
Proof.
  unfold PageProperty, ClearPageProperty, PG_property. simpl flags.
  rewrite Z.land_spec, u32_testbit by lia. simpl. by rewrite andb_false_r.
Qed.

(** ** Running the primitive steps *)
Definition with_pages (ps : gmap Z Page) (s : pmm) : pmm :=
  MkPmm ps (links s) (nr_free s) (mem_base s) (zone_count s) (npage s).
Definition with_links (l : gmap addr (list_entry addr)) (s : pmm) : pmm :=
  MkPmm (pages s) l (nr_free s) (mem_base s) (zone_count s) (npage s).
Definition with_nr_free (n : gmap Z Z) (s : pmm) : pmm :=
  MkPmm (pages s) (links s) n (mem_base s) (zone_count s) (npage s).

Lemma get_page_run s p pg : pages s !! p = Some pg → get_page p s = Ret (pg, s).
Proof. intros E. unfold get_page. by rewrite E. Qed.
Lemma set_page_run s p f pg :
  pages s !! p = Some pg → set_page p f s = Ret ((), with_pages (<[p := f pg]> (pages s)) s).
Proof. intros E. unfold set_page. by rewrite E. Qed.
Lemma get_nr_free_run s x n : nr_free s !! x = Some n → get_nr_free x s = Ret (n, s).
Proof. intros E. unfold get_nr_free. by rewrite E. Qed.
Lemma get_mem_base_run s x n : mem_base s !! x = Some n → get_mem_base x s = Ret (n, s).
Proof. intros E. unfold get_mem_base. by rewrite E. Qed.
Lemma links_run {A} (m : M (gmap addr (list_entry addr)) A) s a l :
  m (links s) = Ret (a, l) → zoom links_lens m s = Ret (a, with_links l s).
Proof. intros E. by apply (zoom_Ret links_lens). Qed.

Lemma u32_succ n : u32 (u32 n + 1) = u32 (n + 1).
Proof. unfold u32. by rewrite Z.add_mod_idemp_l by lia. Qed.
Lemma u32_pred n : u32 (u32 n - 1) = u32 (n - 1).
Proof. unfold u32. by rewrite Zminus_mod_idemp_l. Qed.

(** ** Lists of the family *)
Definition upd (L : Z → list Z) (o : Z) (xs : list Z) : Z → list Z :=
  λ o', if bool_decide (o' = o) then xs else L o'.
Lemma upd_eq L o xs : upd L o xs o = xs.
Proof. unfold upd. by rewrite bool_decide_true. Qed.
Lemma upd_ne L o xs o' : o' ≠ o → upd L o xs o' = L o'.
Proof. intros. unfold upd. by rewrite bool_decide_false. Qed.

Lemma family_update s B L e F o xs :
  inv s B L e → dlists (links s) F →
  (∀ o, 0 ≤ o ≤ 10 → F !! FreeList o = Some (PageLink <$> L o)) →
  (∀ hd xs, F !! hd = Some xs → ∃ o, hd = FreeList o ∧ 0 ≤ o ≤ 10) → 0 ≤ o ≤ 10 →
  (∀ o', 0 ≤ o' ≤ 10 → <[FreeList o := PageLink <$> xs]> F !! FreeList o' =
      Some (PageLink <$> upd L o xs o')) ∧
  (∀ hd ys, <[FreeList o := PageLink <$> xs]> F !! hd = Some ys → ∃ o, hd = FreeList o ∧ 0 ≤ o ≤ 10).
Proof.
  intros _ _ HF Hhd Ho. split.
  - intros o' Ho'. destruct (decide (o' = o)) as [->|Hne].
    + by rewrite lookup_insert_eq, upd_eq.
    + rewrite lookup_insert_ne by congruence. rewrite upd_ne by done. by apply HF.
  - intros hd ys Hys. destruct (decide (hd = FreeList o)) as [->|Hne]; [by exists o|].
    rewrite lookup_insert_ne in Hys by done. by eapply Hhd.
Qed.

Lemma unowned_page s B L e F p :
  inv s B L e → dlists (links s) F →
  (∀ o, 0 ≤ o ≤ 10 → F !! FreeList o = Some (PageLink <$> L o)) →
  (∀ hd xs, F !! hd = Some xs → ∃ o, hd = FreeList o ∧ 0 ≤ o ≤ 10) →
  B !! p = None → unowned F (PageLink p).
Proof.
  intros Hi _ HF Hhd Hp hd (xs & Hxs & Hin). destruct (Hhd _ _ Hxs) as (o & -> & Ho).
  rewrite HF in Hxs by done. injection Hxs as <-.
  apply elem_of_cons in Hin as [?|Hin]; [done|].
  apply list_elem_of_fmap in Hin as (q & [= <-] & Hq). apply (inv_LB _ _ _ _ Hi) in Hq; [|done].
  congruence.
Qed.

(** ** Adding a free block *)
Definition link_block (i o : Z) : M pmm unit :=
  set_page i (set_property o);;
  set_page i SetPageProperty;;
  nf ← get_nr_free o; set_nr_free o (u32 (nf + 1));;
  zoom links_lens (list_add (FreeList o) (PageLink i)).

Lemma link_block_spec s B L e i o z :
  inv s B L e → 0 ≤ o ≤ 10 → zoned s z i (2 ^ o) → aligned s z i o →
  (∀ p, in_block i o p → ¬ covers B p) → e ≠ Some i →
  ∃ s' L', link_block i o s = Ret ((), s') ∧ inv s' (<[i := o]> B) L' e ∧ evolves s s' ∧
    (∀ p, p ≠ i → pages s' !! p = pages s !! p).
Proof.
  intros Hi Ho Hz Ha Hd He. assert (H2 : 0 < 2 ^ o) by (apply Z.pow_pos_nonneg; lia).
  destruct (Hz i) as (pg & Hpg & Hzn & Hres); [lia|].
  assert (HBi : B !! i = None).
  { destruct (B !! i) as [o'|] eqn:E; [|done]. destruct (Hd i); [unfold in_block; lia|].
    exists i, o'. split; [done|]. unfold in_block. pose proof (inv_order _ _ _ _ Hi _ _ E).
    assert (0 < 2 ^ o') by (apply Z.pow_pos_nonneg; lia). lia. }
  destruct (inv_lists _ _ _ _ Hi) as (F & HD & HF & Hhd).
  destruct (list_add_head_dlists (links s) F (FreeList o) (PageLink <$> L o) (PageLink i))
    as (l' & El & HD' & Hdom); [done|by apply HF|by eapply unowned_page|by eapply inv_links|].
  destruct (family_update s B L e F o (i :: L o) Hi HD HF Hhd Ho) as [HF' Hhd'].
  pose (pg' := SetPageProperty (set_property o pg)).
  pose (s1 := with_pages (<[i := pg']> (pages s)) s).
  pose (s2 := with_nr_free (<[o := u32 (u32 (Z.of_nat (length (L o))) + 1)]> (nr_free s)) s1).
  exists (with_links l' s2), (upd L o (i :: L o)).
  assert (Hpg' : PageProperty pg' = true ∧ property pg' = o ∧ zone_num pg' = zone_num pg ∧
                 PageReserved pg' = PageReserved pg).
  { unfold pg'. rewrite property_set_property, reserved_set_property. done. }
  destruct Hpg' as (Hprop & Hord & Hzone & Hrsv).
  assert (Hev : evolves s (with_links l' s2)).
  { split; [|done..]. intros p q Hq. simpl. destruct (decide (p = i)) as [->|Hne].
    - rewrite lookup_insert_eq. exists pg'. rewrite Hpg in Hq. injection Hq as <-.
      split_and!; [done..|congruence].
    - rewrite lookup_insert_ne by done. by exists q. }
  split_and!; [| |done|].
  - unfold link_block. mrun (set_page_run s i (set_property o) pg Hpg).
    erewrite bind_Ret; [|apply set_page_run; apply lookup_insert_eq].
    unfold with_pages at 1. simpl. rewrite insert_insert_eq.
    erewrite bind_Ret; [|apply get_nr_free_run; simpl; by apply (inv_nr _ _ _ _ Hi)].
    unfold set_nr_free. rewrite bind_modify. by apply links_run.
  - split; simpl.
    + exists (<[FreeList o := PageLink <$> i :: L o]> F). by split_and!.
    + intros p Hp. apply elem_of_dom. rewrite Hdom. apply elem_of_dom.
      apply (inv_links _ _ _ _ Hi). destruct (decide (p = i)) as [->|Hne]; [by eexists|].
      by rewrite lookup_insert_ne in Hp.
    + intros o' j Ho'. destruct (decide (o' = o)) as [->|Hne].
      * rewrite upd_eq, elem_of_cons, (inv_LB _ _ _ _ Hi) by done. rewrite lookup_insert_Some.
        split; [|naive_solver]. intros [->|Hj]; [by left|]. right. split; [|done]. congruence.
      * rewrite upd_ne, (inv_LB _ _ _ _ Hi) by done. rewrite lookup_insert_Some. split; [|naive_solver].
        intros Hj. right. split; [|done]. congruence.
    + intros o' Ho'. destruct (decide (o' = o)) as [->|Hne].
      * rewrite lookup_insert_eq, upd_eq, u32_succ. do 2 f_equal. simpl. lia.
      * rewrite lookup_insert_ne, upd_ne by done. by apply (inv_nr _ _ _ _ Hi).
    + intros j o' [[<- <-]|[_ Hj]]%lookup_insert_Some; [done|by eapply inv_order].
    + intros j o' [[<- <-]|[_ Hj]]%lookup_insert_Some.
      * exists z. split; [by eapply evolves_zoned|by eapply evolves_aligned].
      * destruct (inv_zone _ _ _ _ Hi _ _ Hj) as (z' & ? & ?). exists z'.
        split; [by eapply evolves_zoned|by eapply evolves_aligned].
    + intros j o' [[<- <-]|[Hne Hj]]%lookup_insert_Some.
      * exists pg'. by rewrite lookup_insert_eq.
      * destruct (inv_head _ _ _ _ Hi _ _ Hj) as (q & ? & ? & ?). exists q.
        by rewrite lookup_insert_ne.
    + intros p q Hq Hpq Hep. destruct (decide (p = i)) as [->|Hne].
      * rewrite lookup_insert_eq in Hq. injection Hq as <-. by rewrite lookup_insert_eq, Hord.
      * rewrite lookup_insert_ne in Hq by done. rewrite lookup_insert_ne by done. by eapply inv_flag.
    + assert (Hdis : ∀ j o', B !! j = Some o' → i ≠ j → i + 2 ^ o ≤ j ∨ j + 2 ^ o' ≤ i).
      { intros j o' Hj Hne. pose proof (inv_order _ _ _ _ Hi _ _ Hj).
        assert (0 < 2 ^ o') by (apply Z.pow_pos_nonneg; lia).
        destruct (decide (i + 2 ^ o ≤ j)); [by left|]. destruct (decide (j + 2 ^ o' ≤ i)); [by right|].
        exfalso. apply (Hd (Z.max i j)); [unfold in_block; lia|]. exists j, o'.
        split; [done|]. unfold in_block. lia. }
      intros j1 o1 j2 o2 [[<- <-]|[Hn1 H1]]%lookup_insert_Some [[<- <-]|[Hn2 H2']]%lookup_insert_Some Hne.
      * done.
      * by apply Hdis.
      * destruct (Hdis _ _ H1); [done|by right|by left].
      * by eapply inv_disj.
    + intros p. rewrite <-(inv_npage _ _ _ _ Hi). destruct (decide (p = i)) as [->|Hne].
      * rewrite lookup_insert_eq, Hpg. split; by eexists.
      * by rewrite lookup_insert_ne.
    + by eapply inv_base.
  - intros p Hp. simpl. by rewrite lookup_insert_ne.
Qed.

(** ** Removing a free block *)
Definition unlink_block (i o : Z) : M pmm unit :=
  nf ← get_nr_free o; set_nr_free o (u32 (nf - 1));;
  zoom links_lens (list_del (PageLink i)).

Lemma unlink_block_spec s B L i o :
  inv s B L None → B !! i = Some o →
  ∃ s' L', unlink_block i o s = Ret ((), s') ∧ inv s' (delete i B) L' (Some i) ∧ evolves s s' ∧
    pages s' = pages s.
Proof.
  intros Hi HB. pose proof (inv_order _ _ _ _ Hi _ _ HB) as Ho.
  destruct (inv_lists _ _ _ _ Hi) as (F & HD & HF & Hhd).
  assert (Hin : i ∈ L o) by by apply (inv_LB _ _ _ _ Hi).
  apply list_elem_of_split in Hin as (l1 & l2 & EL).
  pose proof (HF o Ho) as HFo. rewrite EL, fmap_app, fmap_cons in HFo.
  pose proof (dl_nodup _ _ HD _ _ HFo) as Hnd.
  destruct (list_del_dlists (links s) F (FreeList o) (PageLink <$> l1) (PageLink i) (PageLink <$> l2))
    as (l' & El & HD' & Hdom & _); [done..|].
  rewrite <-fmap_app in HD'.
  destruct (family_update s B L None F o (l1 ++ l2) Hi HD HF Hhd Ho) as [HF' Hhd'].
  pose (s2 := with_nr_free (<[o := u32 (u32 (Z.of_nat (length (L o))) - 1)]> (nr_free s)) s).
  exists (with_links l' s2), (upd L o (l1 ++ l2)).
  assert (Hev : evolves s (with_links l' s2)).
  { split; [|done..]. intros p q Hq. by exists q. }
  assert (Hnin : i ∉ l1 ++ l2).
  { intros Hi'. apply NoDup_cons in Hnd as [_ Hnd]. rewrite <-Permutation_middle in Hnd.
    apply NoDup_cons in Hnd as [Hn _]. apply Hn. rewrite <-fmap_app. by apply list_elem_of_fmap_2. }
  split_and!; [| |done|done].
  - unfold unlink_block. mrun (get_nr_free_run s o _ (inv_nr _ _ _ _ Hi o Ho)).
    unfold set_nr_free. rewrite bind_modify. by apply links_run.
  - split; simpl.
    + exists (<[FreeList o := PageLink <$> l1 ++ l2]> F). by split_and!.
    + intros p Hp. apply elem_of_dom. rewrite Hdom. apply elem_of_dom. by apply (inv_links _ _ _ _ Hi).
    + intros o' j Ho'. rewrite lookup_delete_Some. destruct (decide (o' = o)) as [->|Hne].
      * rewrite upd_eq. rewrite <-(inv_LB _ _ _ _ Hi), EL by done. split.
        -- intros Hj. split; [intros ->; done|set_solver + Hj].
        -- intros [Hj Hin]. set_solver + Hj Hin.
      * rewrite upd_ne, (inv_LB _ _ _ _ Hi) by done. split; [|tauto]. intros Hj. split; [congruence|done].
    + intros o' Ho'. destruct (decide (o' = o)) as [->|Hne].
      * rewrite lookup_insert_eq, upd_eq, u32_pred, EL, !length_app. do 2 f_equal. simpl. lia.
      * rewrite lookup_insert_ne, upd_ne by done. by apply (inv_nr _ _ _ _ Hi).
    + intros j o' [_ Hj]%lookup_delete_Some. by eapply inv_order.
    + intros j o' [_ Hj]%lookup_delete_Some. destruct (inv_zone _ _ _ _ Hi _ _ Hj) as (z & ? & ?).
      exists z. split; [by eapply evolves_zoned|by eapply evolves_aligned].
    + intros j o' [_ Hj]%lookup_delete_Some. by eapply inv_head.
    + intros p q Hq Hp Hne. rewrite lookup_delete_ne by congruence. by eapply inv_flag.
    + intros j1 o1 j2 o2 [_ H1]%lookup_delete_Some [_ H2]%lookup_delete_Some. by eapply inv_disj.
    + apply (inv_npage _ _ _ _ Hi).
    + by eapply inv_base.
Qed.

Lemma clear_property_spec s B L i :
  inv s B L (Some i) → B !! i = None → is_Some (pages s !! i) →
  ∃ s', set_page i ClearPageProperty s = Ret ((), s') ∧ inv s' B L None ∧ evolves s s' ∧
    (∀ p, p ≠ i → pages s' !! p = pages s !! p).
Proof.
  intros Hi HB [pg Hpg]. exists (with_pages (<[i := ClearPageProperty pg]> (pages s)) s).
  assert (Hev : evolves s (with_pages (<[i := ClearPageProperty pg]> (pages s)) s)).
  { split; [|done..]. intros p q Hq. simpl. destruct (decide (p = i)) as [->|Hne].
    - rewrite lookup_insert_eq. rewrite Hpg in Hq. injection Hq as <-. eexists.
      split_and!; [done..|]. by rewrite reserved_clear_property.
    - rewrite lookup_insert_ne by done. by exists q. }
  split_and!; [by apply set_page_run| |done|by intros; simpl; rewrite lookup_insert_ne].
  destruct Hi as [H1 H2 H3 H4 H5 H6 H7 H8 H9 H10 H11]. split; simpl; try done.
  - intros p Hp. apply H2. destruct (decide (p = i)) as [->|Hne]; [by eexists|].
    by rewrite lookup_insert_ne in Hp.
  - intros j o Hj. destruct (H6 j o Hj) as (z & ? & ?). exists z.
    split; [by eapply evolves_zoned|by eapply evolves_aligned].
  - intros j o Hj. rewrite lookup_insert_ne by congruence. by apply H7.
  - intros p q Hq Hp _. destruct (decide (p = i)) as [->|Hne].
    + rewrite lookup_insert_eq in Hq. injection Hq as <-. by rewrite property_clear_property in Hp.
    + rewrite lookup_insert_ne in Hq by done. apply H8; [done|done|congruence].
  - intros p. rewrite <-H10. destruct (decide (p = i)) as [->|Hne].
    + rewrite lookup_insert_eq, Hpg. split; by eexists.
    + by rewrite lookup_insert_ne.
Qed.

(** ** Coverage *)
Lemma covers_insert B i o p : B !! i = None →
  covers (<[i := o]> B) p ↔ in_block i o p ∨ covers B p.
Proof.
  intros HB. unfold covers. split.
  - intros (j & o' & [[<- <-]|[_ Hj]]%lookup_insert_Some & Hp); [by left|right; eauto].
  - intros [Hp|(j & o' & Hj & Hp)]; [exists i, o; by rewrite lookup_insert_eq|].
    exists j, o'. rewrite lookup_insert_ne; [done|congruence].
Qed.

Lemma covers_delete s B L e i o p :
  inv s B L e → B !! i = Some o → covers (delete i B) p ↔ covers B p ∧ ¬ in_block i o p.
Proof.
  intros Hi HB. unfold covers. split.
  - intros (j & o' & [Hne Hj]%lookup_delete_Some & Hp). split; [eauto|].
    intros Hp'. unfold in_block in *. destruct (inv_disj _ _ _ _ Hi _ _ _ _ HB Hj); [done|lia..].
  - intros [(j & o' & Hj & Hp) Hn]. exists j, o'. rewrite lookup_delete_ne; [done|].
    intros ->. rewrite HB in Hj. injection Hj as <-. done.
Qed.

Lemma not_covers_head s B L e i : inv s B L e → ¬ covers B i → B !! i = None.
Proof.
  intros Hi Hn. destruct (B !! i) as [o|] eqn:E; [|done]. destruct Hn. exists i, o.
  split; [done|]. unfold in_block. pose proof (inv_order _ _ _ _ Hi _ _ E).
  assert (0 < 2 ^ o) by (apply Z.pow_pos_nonneg; lia). lia.
Qed.

(** ** Splitting: the loop of buddy_alloc_pages_sub *)
Lemma split_loop_unfold fuel page cur order size s :
  split_loop (S fuel) page cur order size s =
  (if bool_decide (cur > order)
   then link_block (page + Z.shiftr size 1) (cur - 1);;
        split_loop fuel page (cur - 1) order (Z.shiftr size 1)
   else skip) s.
Proof.
  cbn [split_loop]. case_bool_decide; [|done]. unfold link_block.
  unfold mbind, M_bind. repeat (case_match; simplify_eq; try done).
Qed.

Lemma aligned_sub s z i o o' k : 0 ≤ o' ≤ o → aligned s z i o → 0 ≤ k → (2 ^ o' | k) →
  aligned s z (i + k) o'.
Proof.
  intros Ho (b & Hb & Hle & Hd) Hk Hdk. exists b. split_and!; [done|lia|].
  replace (i + k - b) with ((i - b) + k) by lia. apply Z.divide_add_r; [|done].
  etransitivity; [|exact Hd]. exists (2 ^ (o - o')). rewrite <-Z.pow_add_r by lia. f_equal. lia.
Qed.

Lemma split_loop_spec fuel s B L page cur order z :
  (Z.to_nat (cur - order) < fuel)%nat → 0 ≤ order ≤ cur → cur ≤ 10 →
  inv s B L (Some page) → zoned s z page (2 ^ cur) → aligned s z page cur →
  (∀ p, in_block page cur p → ¬ covers B p) →
  ∃ s' B' L', split_loop fuel page cur order (2 ^ cur) s = Ret ((), s') ∧
    inv s' B' L' (Some page) ∧ evolves s s' ∧
    (∀ p, covers B' p ↔ covers B p ∨ in_block page cur p ∧ ¬ in_block page order p).
Proof.
  revert s B L cur. induction fuel as [|fuel IH]; intros s B L cur Hf Ho Hc Hi Hz Ha Hd; [lia|].
  rewrite split_loop_unfold. case_bool_decide as E.
  - assert (Hsz : Z.shiftr (2 ^ cur) 1 = 2 ^ (cur - 1)).
    { rewrite Z.shiftr_div_pow2 by lia. rewrite <-Z.pow_sub_r by lia. done. }
    assert (H2 : 2 ^ cur = 2 * 2 ^ (cur - 1)).
    { rewrite <-Z.pow_succ_r by lia. f_equal. lia. }
    assert (Hpos : 0 < 2 ^ (cur - 1)) by (apply Z.pow_pos_nonneg; lia).
    rewrite Hsz.
    destruct (link_block_spec s B L (Some page) (page + 2 ^ (cur - 1)) (cur - 1) z)
      as (s1 & L1 & E1 & I1 & Ev1 & _); [done|lia| | | | |].
    { eapply zoned_sub; [exact Hz|lia|lia]. }
    { eapply (aligned_sub _ _ _ cur); [lia|done|lia|done]. }
    { intros p Hp. apply Hd. unfold in_block in *. lia. }
    { intros [= E']. lia. }
    mrun E1.
    assert (HBn : B !! (page + 2 ^ (cur - 1)) = None).
    { eapply not_covers_head; [done|]. apply Hd. unfold in_block. lia. }
    destruct (IH s1 (<[page + 2 ^ (cur - 1) := cur - 1]> B) L1 (cur - 1))
      as (s2 & B2 & L2 & E2 & I2 & Ev2 & C2); [lia|lia|lia|done| | | |].
    { eapply evolves_zoned; [done|]. eapply zoned_sub; [exact Hz|lia|lia]. }
    { eapply evolves_aligned; [done|]. rewrite <-(Z.add_0_r page).
      eapply (aligned_sub _ _ _ cur); [lia|done|lia|apply Z.divide_0_r]. }
    { intros p Hp [Hp'|Hp']%covers_insert; [unfold in_block in *; lia| |done].
      apply (Hd p); [unfold in_block in *; lia|done]. }
    exists s2, B2, L2. split_and!; [done|done|by eapply evolves_trans|].
    intros p. rewrite C2, covers_insert by done.
    assert (2 ^ order ≤ 2 ^ (cur - 1)) by (apply Z.pow_le_mono_r; lia).
    unfold in_block. split; [|].
    + intros [[?|?]|[? ?]]; [right|left|right]; try done; lia.
    + intros [?|[? ?]]; [by left; right|]. destruct (decide (page + 2 ^ (cur - 1) ≤ p)); [left; left|right]; lia.
  - assert (cur = order) as -> by lia. exists s, B, L. split_and!; [done|done|apply evolves_refl|].
    intros p. tauto.
Qed.
