(* ===== verification/BuddyProps.v ===== *)
(** * The buddy allocator: allocation and freeing

    alloc_pages hands out a range of free pages and nothing else changes hands;
    free_pages returns a range; both keep the representation invariant. *)
From stdpp Require Import base gmap list fin_maps.
From Stdlib Require Import ZArith Lia.
From S2P Require Import Prelude DList Bits Buddy BuddyInv.

Lemma with_links_id s : with_links (links s) s = s.
Proof. by destruct s. Qed.

Lemma pow2_pos o : 0 ≤ o → 0 < 2 ^ o.
Proof. intros. by apply Z.pow_pos_nonneg. Qed.

(** ** buddy_alloc_pages_sub *)
Lemma take_block_unfold page cur order s :
  (nf ← get_nr_free cur; set_nr_free cur (u32 (nf - 1));;
   zoom links_lens (list_del (PageLink page));;
   split_loop 11 page cur order (Z.shiftl 1 cur);;
   set_page page ClearPageProperty;; mret (Some page)) s =
  (unlink_block page cur;; split_loop 11 page cur order (Z.shiftl 1 cur);;
   set_page page ClearPageProperty;; mret (Some page)) s.
Proof.
  unfold unlink_block, mbind, M_bind. repeat (case_match; simplify_eq; try done).
Qed.

Lemma take_block_spec s B L page cur order :
  inv s B L None → B !! page = Some cur → 0 ≤ order ≤ cur →
  ∃ z s' B' L', (unlink_block page cur;; split_loop 11 page cur order (Z.shiftl 1 cur);;
      set_page page ClearPageProperty;; mret (Some page)) s = Ret (Some page, s') ∧
    inv s' B' L' None ∧ evolves s s' ∧ zoned s z page (2 ^ order) ∧ aligned s z page order ∧
    (∀ p, covers B' p ↔ covers B p ∧ ¬ in_block page order p).
Proof.
  intros Hi HB Ho. pose proof (inv_order _ _ _ _ Hi _ _ HB) as Hc.
  destruct (inv_zone _ _ _ _ Hi _ _ HB) as (z & Hz & Ha).
  destruct (unlink_block_spec s B L page cur Hi HB) as (s1 & L1 & E1 & I1 & Ev1 & Hp1).
  mrun E1. rewrite Z.shiftl_1_l.
  assert (Hcov : ∀ p, in_block page cur p → ¬ covers (delete page B) p).
  { intros p Hp. rewrite covers_delete by done. tauto. }
  destruct (split_loop_spec 11 s1 (delete page B) L1 page cur order z)
    as (s2 & B2 & L2 & E2 & I2 & Ev2 & C2); [lia|lia|lia|done|by eapply evolves_zoned|
                                             by eapply evolves_aligned|done|].
  mrun E2. pose proof (pow2_pos order ltac:(lia)).
  assert (H2le : 2 ^ order ≤ 2 ^ cur) by (apply Z.pow_le_mono_r; lia).
  destruct (clear_property_spec s2 B2 L2 page I2) as (s3 & E3 & I3 & Ev3 & _).
  { eapply not_covers_head; [done|]. rewrite C2. intros [Hp|[_ Hp]].
    - apply (Hcov page); [unfold in_block; lia|done].
    - apply Hp. unfold in_block. lia. }
  { destruct (Hz page) as (pg & Hpg & _); [lia|].
    destruct (ev_pages _ _ (evolves_trans _ _ _ Ev1 Ev2) _ _ Hpg) as (pg' & Hpg' & _). by eexists. }
  mrun E3. exists z, s3, B2, L2. split_and!; [done|done| | | |].
  - eapply evolves_trans; [done|]. by eapply evolves_trans.
  - eapply zoned_sub; [exact Hz|lia|lia].
  - rewrite <-(Z.add_0_r page). eapply (aligned_sub _ _ _ cur); [lia|done|lia|apply Z.divide_0_r].
  - intros p. rewrite C2, covers_delete by done. unfold in_block. split; [|].
    + intros [[? ?]|[Hp ?]]; [split; [done|lia]|]. split; [exists page, cur; done|done].
    + intros [? ?]. destruct (decide (page ≤ p < page + 2 ^ cur)); [right|left]; tauto.
Qed.

Lemma alloc_loop_spec fuel s B L order cur :
  (Z.to_nat (11 - cur) < fuel)%nat → 0 ≤ order ≤ cur → cur ≤ 11 → inv s B L None →
  (∀ i o, B !! i = Some o → order ≤ o → cur ≤ o) →
  (alloc_loop fuel order cur s = Ret (None, s) ∧ ∀ i o, B !! i = Some o → o < order) ∨
  (∃ i z s' B' L', alloc_loop fuel order cur s = Ret (Some i, s') ∧ inv s' B' L' None ∧
     evolves s s' ∧ zoned s z i (2 ^ order) ∧ aligned s z i order ∧
     (∀ p, in_block i order p → covers B p) ∧
     (∀ p, covers B' p ↔ covers B p ∧ ¬ in_block i order p)).
Proof.
  revert cur. induction fuel as [|fuel IH]; intros cur Hf Ho Hc Hi Hno; [lia|]. cbn [alloc_loop].
  destruct (decide (cur ≤ 10)) as [H10|H10].
  2: { rewrite bool_decide_false by (unfold MAX_ORDER; lia). left. split; [done|].
       intros i o HB. pose proof (inv_order _ _ _ _ Hi _ _ HB). specialize (Hno i o HB). lia. }
  rewrite bool_decide_true by (unfold MAX_ORDER; lia).
  destruct (inv_lists _ _ _ _ Hi) as (F & HD & HF & Hhd).
  pose proof (HF cur ltac:(lia)) as HFc.
  erewrite bind_Ret by (apply links_run; by eapply list_empty_dlists).
  rewrite with_links_id.
  destruct (L cur) as [|i xs] eqn:EL.
  - simpl. apply IH; [lia|lia|lia|done|]. intros i o HB Hle. specialize (Hno i o HB Hle).
    assert (o ≠ cur); [|lia]. intros ->. apply (inv_LB _ _ _ _ Hi) in HB; [|lia].
    rewrite EL in HB. inversion HB.
  - rewrite (bool_decide_false (PageLink <$> i :: xs = [])) by done. cbn [negb].
    erewrite bind_Ret by (apply links_run; by eapply list_next_head).
    rewrite with_links_id. change (firstof (PageLink <$> i :: xs) (FreeList cur)) with (PageLink i).
    cbn [le2page]. rewrite bind_mret.
    assert (HB : B !! i = Some cur) by (apply (inv_LB _ _ _ _ Hi); [lia|rewrite EL; by left]).
    right. rewrite take_block_unfold.
    destruct (take_block_spec s B L i cur order Hi HB ltac:(lia))
      as (z & s' & B' & L' & E & I' & Ev & Hz & Ha & C).
    exists i, z, s', B', L'. split_and!; try done.
    intros p Hp. exists i, cur. split; [done|].
    assert (2 ^ order ≤ 2 ^ cur) by (apply Z.pow_le_mono_r; lia). unfold in_block in *. lia.
Qed.

Lemma alloc_sub_spec s B L order :
  0 ≤ order ≤ 10 → inv s B L None →
  (buddy_alloc_pages_sub order s = Ret (None, s) ∧ ∀ i o, B !! i = Some o → o < order) ∨
  (∃ i z s' B' L', buddy_alloc_pages_sub order s = Ret (Some i, s') ∧ inv s' B' L' None ∧
     evolves s s' ∧ zoned s z i (2 ^ order) ∧ aligned s z i order ∧
     (∀ p, in_block i order p → covers B p) ∧
     (∀ p, covers B' p ↔ covers B p ∧ ¬ in_block i order p)).
Proof.
  intros Ho Hi. unfold buddy_alloc_pages_sub.
  rewrite bind_assert by (apply bool_decide_true; unfold MAX_ORDER; lia).
  apply (alloc_loop_spec 12 s B L order order); [lia|lia|lia|done|lia].
Qed.

(** ** The index arithmetic of buddies *)
Lemma testbit_mul_pow2 q o j : 0 ≤ o → 0 ≤ j → Z.testbit (2 ^ o * q) j = bool_decide (o ≤ j) && Z.testbit q (j - o).
Proof.
  intros Ho Hj. rewrite Z.mul_comm, <-Z.shiftl_mul_pow2 by done.
  rewrite Z.shiftl_spec by done. case_bool_decide; [done|]. rewrite Z.testbit_neg_r by lia. done.
Qed.

Lemma lxor_buddy q o : 0 ≤ o → Z.lxor (2 ^ o * q) (Z.shiftl 1 o) = 2 ^ o * Z.lxor q 1.
Proof.
  intros Ho. apply Z.bits_inj'. intros j Hj.
  rewrite Z.lxor_spec, !testbit_mul_pow2, pow2_testbit, Z.lxor_spec by lia.
  case_bool_decide; simpl.
  - f_equal. change 1 with (Z.shiftl 1 0). rewrite pow2_testbit by lia. apply bool_decide_ext. lia.
  - by rewrite bool_decide_false by lia.
Qed.
Lemma land_buddy a b o : 0 ≤ o → Z.land (2 ^ o * a) (2 ^ o * b) = 2 ^ o * Z.land a b.
Proof.
  intros Ho. apply Z.bits_inj'. intros j Hj. rewrite Z.land_spec, !testbit_mul_pow2, Z.land_spec by lia.
  by case_bool_decide.
Qed.
Lemma lxor_1 q : Z.lxor q 1 = if Z.even q then q + 1 else q - 1.
Proof.
  destruct (Z.even q) eqn:E.
  - rewrite Z.add_nocarry_lxor; [done|]. apply Z.bits_inj_0. intros j.
    rewrite Z.land_spec. change 1 with (Z.shiftl 1 0). rewrite pow2_testbit by lia.
    case_bool_decide; [subst|by rewrite andb_false_r].
    rewrite Z.bit0_odd, <-Z.negb_even, E. done.
  - assert (Z.odd q = true) as Eo by (rewrite <-Z.negb_even, E; done).
    apply Z.odd_spec in Eo as [k ->]. replace (2 * k + 1 - 1) with (2 * k) by lia.
    rewrite (Z.add_nocarry_lxor (2 * k) 1).
    + by rewrite Z.lxor_assoc, Z.lxor_nilpotent, Z.lxor_0_r.
    + apply Z.bits_inj_0. intros j. rewrite Z.land_spec. change 1 with (Z.shiftl 1 0).
      rewrite pow2_testbit by lia. case_bool_decide; [subst|by rewrite andb_false_r].
      by rewrite Z.testbit_even_0.
Qed.
Lemma land_lxor_1 q : Z.land q (Z.lxor q 1) = 2 * (q / 2).
Proof.
  apply Z.bits_inj'. intros j Hj. rewrite Z.land_spec, Z.lxor_spec.
  destruct (decide (j = 0)) as [->|Hne].
  - rewrite Z.testbit_even_0. by destruct (Z.testbit q 0).
  - replace j with (Z.succ (j - 1)) by lia. rewrite Z.testbit_even_succ by lia.
    change (Z.testbit 1 (Z.succ (j - 1))) with (Z.testbit (Z.shiftl 1 0) (Z.succ (j - 1))).
    rewrite pow2_testbit, bool_decide_false, xorb_false_r by lia.
    rewrite Z.div2_bits by lia. by destruct (Z.testbit q (Z.succ (j - 1))).
Qed.

(** The buddy of an aligned block and the block they merge to. *)
Lemma buddy_arith idx o : 0 ≤ o → 0 ≤ idx → (2 ^ o | idx) →
  let bidx := Z.lxor idx (Z.shiftl 1 o) in let m := Z.land idx bidx in
  0 ≤ m ∧ 0 ≤ bidx ∧ (2 ^ (o + 1) | m) ∧
  ((idx = m ∧ bidx = m + 2 ^ o) ∨ (bidx = m ∧ idx = m + 2 ^ o)).
Proof.
  intros Ho H0 [q ->]. rewrite Z.mul_comm in *. pose proof (pow2_pos o Ho).
  assert (Hq : 0 ≤ q) by nia. cbv zeta. rewrite lxor_buddy, land_buddy, land_lxor_1 by done.
  rewrite Z.pow_add_r by lia. change (2 ^ 1) with 2.
  pose proof (Z.div_pos q 2 Hq ltac:(lia)). rewrite lxor_1.
  split_and!; [nia| |exists (q / 2); lia|].
  - destruct (Z.even q) eqn:E; [nia|]. assert (q ≠ 0) by (intros ->; done). nia.
  - destruct (Z.even q) eqn:E.
    + apply Z.even_spec in E as [k ->].
      replace (2 * k / 2) with k by (apply (Z.div_unique _ _ _ 0); lia). left. split; lia.
    + assert (Z.odd q = true) as Eo by (rewrite <-Z.negb_even, E; done).
      apply Z.odd_spec in Eo as [k ->].
      replace ((2 * k + 1) / 2) with k by (apply (Z.div_unique _ _ _ 1); lia).
      right. split; lia.
Qed.

(** ** buddy_free_pages_sub *)

(** A block in the caller's hands, about to be merged. *)
Record loose (s : pmm) (B : blocks) (z b idx o : Z) : Prop := {
  lo_order : 0 ≤ o ≤ 10;
  lo_base : mem_base s !! z = Some b;
  lo_idx : 0 ≤ idx;
  lo_aligned : (2 ^ o | idx);
  lo_zoned : zoned s z (b + idx) (2 ^ o);
  lo_free : ∀ p, in_block (b + idx) o p → ¬ covers B p }.

Lemma unlink_clear_unfold fuel zone idx bidx order buddy s :
  (nf ← get_nr_free order; set_nr_free order (u32 (nf - 1));;
   zoom links_lens (list_del (PageLink buddy));;
   set_page buddy ClearPageProperty;;
   merge_loop fuel zone (Z.land idx bidx) (order + 1)) s =
  (unlink_block buddy order;; set_page buddy ClearPageProperty;;
   merge_loop fuel zone (Z.land idx bidx) (order + 1)) s.
Proof. unfold unlink_block, mbind, M_bind. repeat (case_match; simplify_eq; try done). Qed.

Lemma page_is_buddy_spec s B L page order zone :
  inv s B L None → 0 ≤ page →
  ∃ r, page_is_buddy page order zone s = Ret (r, s) ∧
    (r = true → B !! page = Some order ∧
       ∃ pg, pages s !! page = Some pg ∧ zone_num pg = zone).
Proof.
  intros Hi H0. unfold page_is_buddy. rewrite bind_gets. unfold page2ppn.
  case_bool_decide as Hn; [|by exists false].
  assert (is_Some (pages s !! page)) as [pg Hpg] by (apply (inv_npage _ _ _ _ Hi); lia).
  mrun (get_page_run s page pg Hpg). case_bool_decide as Hz; [|by exists false].
  eexists. split; [done|]. intros [[_ Hp]%andb_true_iff Ho]%andb_true_iff.
  apply bool_decide_eq_true in Ho. split; [|by exists pg].
  rewrite (inv_flag _ _ _ _ Hi page pg Hpg Hp) by done. by rewrite Ho.
Qed.

Lemma merge_loop_spec fuel s B L z b idx o :
  (Z.to_nat (10 - o) < fuel)%nat → inv s B L None → loose s B z b idx o →
  ∃ idx' o' s' B' L', merge_loop fuel z idx o s = Ret ((idx', o'), s') ∧
    inv s' B' L' None ∧ evolves s s' ∧ loose s' B' z b idx' o' ∧
    (∀ p, covers B' p ∨ in_block (b + idx') o' p ↔ covers B p ∨ in_block (b + idx) o p).
Proof.
  revert s B L idx o. induction fuel as [|fuel IH]; intros s B L idx o Hf Hi Hl; [lia|].
  destruct Hl as [Ho Hb H0 Ha Hz Hfree]. pose proof (pow2_pos o ltac:(lia)) as Hpos.
  cbn [merge_loop]. destruct (decide (o < 10)) as [Hlt|Hge].
  2: { rewrite bool_decide_false by (unfold MAX_ORDER; lia).
       exists idx, o, s, B, L. split_and!; [done|done|apply evolves_refl|by split|done]. }
  rewrite bool_decide_true by (unfold MAX_ORDER; lia).
  destruct (buddy_arith idx o ltac:(lia) H0 Ha) as (Hm0 & Hbi0 & Hdiv & Hcase).
  set (bidx := Z.lxor idx (Z.shiftl 1 o)) in *.
  unfold idx2page. rewrite bind_assoc. mrun (get_mem_base_run s z b Hb). rewrite bind_mret.
  pose proof (inv_base _ _ _ _ Hi _ _ Hb) as Hb0.
  destruct (page_is_buddy_spec s B L (b + bidx) o z Hi ltac:(lia)) as (r & Er & Hr).
  mrun Er. destruct r; cbn [negb].
  2: { exists idx, o, s, B, L. split_and!; [done|done|apply evolves_refl|by split|done]. }
  destruct (Hr eq_refl) as (HB & pg & Hpg & Hzn).
  rewrite unlink_clear_unfold.
  destruct (unlink_block_spec s B L _ _ Hi HB) as (s1 & L1 & E1 & I1 & Ev1 & Hp1). mrun E1.
  destruct (clear_property_spec s1 _ L1 (b + bidx) I1) as (s2 & E2 & I2 & Ev2 & _).
  { apply lookup_delete_eq. } { rewrite Hp1. by eexists. }
  mrun E2. assert (Ev : evolves s s2) by by eapply evolves_trans.
  destruct (inv_zone _ _ _ _ Hi _ _ HB) as (z' & Hz' & _).
  assert (z' = z) as ->.
  { destruct (Hz' (b + bidx)) as (pg' & Hpg' & Hz1 & _); [lia|]. congruence. }
  assert (H2 : 2 ^ (o + 1) = 2 * 2 ^ o) by (rewrite Z.pow_add_r by lia; lia).
  assert (Hblock : ∀ p, in_block (b + Z.land idx bidx) (o + 1) p ↔
            in_block (b + idx) o p ∨ in_block (b + bidx) o p).
  { intros p. unfold in_block. rewrite H2. lia. }
  assert (Hl2 : loose s2 (delete (b + bidx) B) z b (Z.land idx bidx) (o + 1)).
  { split; [lia|by rewrite (ev_base _ _ Ev)|done|done| |].
    - eapply evolves_zoned; [done|]. intros p Hp.
      destruct (proj1 (Hblock p)) as [Hp'|Hp']; [by unfold in_block| |].
      + by apply Hz.
      + by apply Hz'.
    - intros p [Hp|Hp]%Hblock; rewrite covers_delete by done; [|tauto].
      intros [Hc _]. by apply (Hfree p). }
  destruct (IH s2 _ L1 (Z.land idx bidx) (o + 1) ltac:(lia) I2 Hl2)
    as (idx' & o' & s' & B' & L' & E' & I' & Ev' & Hl' & C').
  exists idx', o', s', B', L'. split_and!; [done|done|by eapply evolves_trans|done|].
  intros p. rewrite C', Hblock, covers_delete by done.
  assert (in_block (b + bidx) o p → covers B p) by (intros; by exists (b + bidx), o).
  unfold in_block in *.
  destruct (decide (b + bidx ≤ p < b + bidx + 2 ^ o)); tauto.
Qed.

(** Clearing the flags of the freed pages. *)
Lemma free_clear_spec n s B L z i :
  inv s B L None → zoned s z i (Z.of_nat n) → (∀ p, i ≤ p < i + Z.of_nat n → ¬ covers B p) →
  ∃ s', free_clear n i s = Ret ((), s') ∧ inv s' B L None ∧ evolves s s'.
Proof.
  revert s i. induction n as [|n IH]; intros s i Hi Hz Hc.
  - exists s. split_and!; [done|done|apply evolves_refl].
  - rewrite Nat2Z.inj_succ in *. destruct (Hz i) as (pg & Hpg & Hzn & Hr); [lia|].
    assert (Hprop : PageProperty pg = false).
    { destruct (PageProperty pg) eqn:E; [|done]. destruct (Hc i); [lia|].
      pose proof (inv_flag _ _ _ _ Hi i pg Hpg E ltac:(done)) as HB. exists i, (property pg).
      split; [done|]. pose proof (pow2_pos (property pg)). pose proof (inv_order _ _ _ _ Hi _ _ HB).
      unfold in_block. lia. }
    assert (HBi : B !! i = None) by (eapply not_covers_head; [done|]; apply Hc; lia).
    pose (s1 := with_pages (<[i := set_page_ref 0 (set_flags 0 pg)]> (pages s)) s).
    assert (Ev1 : evolves s s1).
    { split; [|done..]. intros p q Hq. simpl. destruct (decide (p = i)) as [->|Hne].
      - rewrite lookup_insert_eq. rewrite Hpg in Hq. injection Hq as <-. by eexists.
      - rewrite lookup_insert_ne by done. by exists q. }
    assert (I1 : inv s1 B L None).
    { destruct Hi as [H1 H2 H3 H4 H5 H6 H7 H8 H9 H10 H11]. split; simpl; try done.
      - intros p Hp. apply H2. destruct (decide (p = i)) as [->|Hne]; [by eexists|].
        by rewrite lookup_insert_ne in Hp.
      - intros j o Hj. destruct (H6 j o Hj) as (z' & ? & ?). exists z'.
        split; [by eapply evolves_zoned|by eapply evolves_aligned].
      - intros j o Hj. rewrite lookup_insert_ne by congruence. by apply H7.
      - intros p q Hq Hp _. destruct (decide (p = i)) as [->|Hne].
        + rewrite lookup_insert_eq in Hq. by injection Hq as <-.
        + rewrite lookup_insert_ne in Hq by done. by apply H8.
      - intros p. rewrite <-H10. destruct (decide (p = i)) as [->|Hne].
        + rewrite lookup_insert_eq, Hpg. split; by eexists.
        + by rewrite lookup_insert_ne. }
    destruct (IH s1 (i + 1)) as (s' & E & I' & Ev); [done| | |].
    { eapply evolves_zoned; [done|]. eapply zoned_sub; [exact Hz|lia|lia]. }
    { intros p Hp. apply Hc. lia. }
    exists s'. split_and!; [|done|by eapply evolves_trans]. cbn [free_clear].
    mrun (get_page_run s i pg Hpg). rewrite Hr, Hprop, bind_assert by done.
    mrun (set_page_run s i (λ pg, set_page_ref 0 (set_flags 0 pg)) pg Hpg). done.
Qed.

Lemma free_sub_spec s B L z b i o :
  inv s B L None → mem_base s !! z = Some b → 0 ≤ o ≤ 10 → b ≤ i → (2 ^ o | i - b) →
  zoned s z i (2 ^ o) → (∀ p, in_block i o p → ¬ covers B p) →
  ∃ s' B' L', buddy_free_pages_sub i o s = Ret ((), s') ∧ inv s' B' L' None ∧ evolves s s' ∧
    (∀ p, covers B' p ↔ covers B p ∨ in_block i o p).
Proof.
  intros Hi Hb Ho Hbi Ha Hz Hfree. pose proof (pow2_pos o ltac:(lia)) as Hpos.
  destruct (Hz i) as (pg & Hpg & Hzn & Hres); [lia|].
  unfold buddy_free_pages_sub, page2idx. rewrite !bind_assoc. mrun (get_page_run s i pg Hpg).
  rewrite Hzn, bind_assoc. mrun (get_mem_base_run s z b Hb). rewrite bind_mret.
  assert (Hland : Z.land (i - b) (Z.shiftl 1 o - 1) = 0).
  { rewrite Z.shiftl_1_l. replace (2 ^ o - 1) with (Z.ones o) by (rewrite Z.ones_equiv; lia).
    rewrite Z.land_ones by lia. by apply Z.mod_divide; [lia|]. }
  rewrite bind_assert by (by apply bool_decide_true).
  assert (Hsz : Z.of_nat (Z.to_nat (Z.shiftl 1 o)) = 2 ^ o) by (rewrite Z.shiftl_1_l; lia).
  destruct (free_clear_spec (Z.to_nat (Z.shiftl 1 o)) s B L z i) as (s1 & E1 & I1 & Ev1);
    [done|by rewrite Hsz|by rewrite Hsz|].
  mrun E1. destruct (ev_pages _ _ Ev1 _ _ Hpg) as (pg1 & Hpg1 & Hzn1 & _).
  mrun (get_page_run s1 i pg1 Hpg1). rewrite Hzn1, Hzn.
  destruct (merge_loop_spec 12 s1 B L z b (i - b) o) as (idx' & o' & s2 & B2 & L2 & E2 & I2 & Ev2 & Hl & C2);
    [lia|done| |].
  { split; [done|by rewrite (ev_base _ _ Ev1)|lia|done|..];
      replace (b + (i - b)) with i by lia; [by eapply evolves_zoned|done]. }
  mrun E2. destruct Hl as [Ho' Hb' H0' Ha' Hz' Hf'].
  unfold idx2page. rewrite bind_assoc. mrun (get_mem_base_run s2 z b Hb'). rewrite bind_mret.
  destruct (link_block_spec s2 B2 L2 None (b + idx') o' z I2 Ho' Hz')
    as (s3 & L3 & E3 & I3 & Ev3 & _); [|done|done|].
  { exists b. split_and!; [done|lia|]. by replace (b + idx' - b) with idx' by lia. }
  unfold link_block in E3. rewrite E3. exists s3, (<[b + idx' := o']> B2), L3.
  split_and!; [done|done| |].
  - eapply evolves_trans; [done|]. by eapply evolves_trans.
  - assert (B2 !! (b + idx') = None) as HBn.
    { eapply not_covers_head; [done|]. apply Hf'. pose proof (pow2_pos o' ltac:(lia)). unfold in_block. lia. }
    intros p. rewrite covers_insert by done. specialize (C2 p).
    replace (b + (i - b)) with i in C2 by lia. tauto.
Qed.

(** ** buddy_free_pages *)

(** A range of pages in the caller's hands. *)
Record owned (s : pmm) (B : blocks) (z b i n : Z) : Prop := {
  ow_base : mem_base s !! z = Some b;
  ow_le : b ≤ i;
  ow_zoned : zoned s z i n;
  ow_free : ∀ p, i ≤ p < i + n → ¬ covers B p }.

Lemma owned_sub s B z b i n j m :
  owned s B z b i n → i ≤ j → j + m ≤ i + n → owned s B z b j m.
Proof.
  intros [Hb Hle Hz Hf] Hj Hm. split; [done|lia|by eapply zoned_sub|]. intros p Hp. apply Hf. lia.
Qed.

Lemma owned_rest s B z b i n s' B' k :
  owned s B z b i n → 0 ≤ k → evolves s s' →
  (∀ p, covers B' p ↔ covers B p ∨ i ≤ p < i + k) → owned s' B' z b (i + k) (n - k).
Proof.
  intros [Hb Hle Hz Hf] Hk Hev HC. split.
  - by rewrite (ev_base _ _ Hev).
  - lia.
  - eapply evolves_zoned; [done|]. intros p Hp. apply Hz. lia.
  - intros p Hp. rewrite HC. intros [Hc|?]; [|lia]. apply (Hf p); [lia|done].
Qed.

Lemma free_block s B L z b i n o :
  inv s B L None → owned s B z b i n → 0 ≤ o ≤ 10 → 2 ^ o ≤ n → (2 ^ o | i - b) →
  ∃ s' B' L', buddy_free_pages_sub i o s = Ret ((), s') ∧ inv s' B' L' None ∧ evolves s s' ∧
    owned s' B' z b (i + 2 ^ o) (n - 2 ^ o) ∧
    (∀ p, covers B' p ↔ covers B p ∨ i ≤ p < i + 2 ^ o).
Proof.
  intros Hi Hw Ho Hn Ha. pose proof Hw as [Hb Hle Hz Hf]. pose proof (pow2_pos o ltac:(lia)).
  destruct (free_sub_spec s B L z b i o Hi Hb Ho Hle Ha) as (s' & B' & L' & E & I' & Ev & C).
  { eapply zoned_sub; [exact Hz|lia|lia]. }
  { intros p Hp. apply Hf. unfold in_block in Hp. lia. }
  exists s', B', L'. split_and!; [done|done|done| |done].
  eapply owned_rest; [done|lia|done|done].
Qed.

Lemma div_pow2_succ i o : 0 ≤ o → (2 ^ o | i) →
  (Z.land i (2 ^ o) ≠ 0 → (2 ^ (o + 1) | i + 2 ^ o)) ∧ (Z.land i (2 ^ o) = 0 → (2 ^ (o + 1) | i)).
Proof.
  intros Ho [q ->]. rewrite Z.mul_comm. rewrite Z.pow_add_r by lia. change (2 ^ 1) with 2.
  pose proof (pow2_pos o Ho). replace (Z.land (2 ^ o * q) (2 ^ o)) with (2 ^ o * Z.land q 1).
  2: { rewrite <-land_buddy by done. by rewrite Z.mul_1_r. }
  change 1 with (Z.ones 1). rewrite Z.land_ones by lia. change (2 ^ 1) with 2.
  pose proof (Z.div_mod q 2 ltac:(lia)). pose proof (Z.mod_pos_bound q 2 ltac:(lia)).
  split; intros Hx.
  - assert (q mod 2 = 1) as Hm by (destruct (decide (q mod 2 = 0)) as [Hz|]; [rewrite Hz in Hx|]; lia).
    exists (q / 2 + 1). replace q with (2 * (q / 2) + 1) at 1 by lia. ring.
  - assert (q mod 2 = 0) as Hm by nia.
    exists (q / 2). replace q with (2 * (q / 2)) at 1 by lia. ring.
Qed.

Lemma free_low_spec fuel s B L z b i n o :
  (Z.to_nat (11 - o) < fuel)%nat → 0 ≤ o ≤ 11 → 0 ≤ n < 2 ^ 11 → inv s B L None → 0 < n →
  owned s B z b i n → (2 ^ o | i - b) →
  ∃ i' n' o' s' B' L', free_low fuel i n o (2 ^ o) s = Ret ((i', n', o', 2 ^ o'), s') ∧
    inv s' B' L' None ∧ evolves s s' ∧ owned s' B' z b i' n' ∧ 0 ≤ n' < 2 ^ o' ∧ 0 ≤ o' ≤ 11 ∧
    (2 ^ o' | i' - b) ∧ i ≤ i' ∧ i' + n' = i + n ∧
    (∀ p, covers B' p ↔ covers B p ∨ i ≤ p < i').
Proof.
  revert s B L i n o. induction fuel as [|fuel IH]; intros s B L i n o Hf Ho Hn Hi Hpos Hw Ha; [lia|].
  cbn [free_low]. pose proof (pow2_pos o ltac:(lia)) as H2.
  destruct (decide (n >= 2 ^ o)) as [Hge|Hlt].
  2: { rewrite bool_decide_false by done. exists i, n, o, s, B, L.
       split_and!; try done; [apply evolves_refl|lia|lia..|]. intros p. split; [tauto|]. intros [?|?]; [done|lia]. }
  rewrite bool_decide_true by done.
  assert (o ≤ 10).
  { assert (2 ^ o < 2 ^ 11) as ?%Z.pow_lt_mono_r_iff by lia; lia. }
  rewrite bind_assert by (apply bool_decide_true; unfold MAX_ORDER; lia).
  assert (Hsh : u32 (Z.shiftl (2 ^ o) 1) = 2 ^ (o + 1)).
  { rewrite Z.shiftl_mul_pow2, <-Z.pow_add_r by lia. apply u32_small. unfold is_u32.
    split; [apply Z.pow_nonneg; lia|]. apply Z.pow_lt_mono_r; lia. }
  pose proof Hw as [Hb Hle Hz _]. destruct (Hz i) as (pg & Hpg & Hzn & _); [lia|].
  assert (Eidx : page2idx i s = Ret (i - b, s)).
  { unfold page2idx. mrun (get_page_run s i pg Hpg). rewrite Hzn.
    mrun (get_mem_base_run s z b Hb). done. }
  mrun Eidx. destruct (div_pow2_succ (i - b) o ltac:(lia) Ha) as [Hset Hclr].
  rewrite Hsh. case_bool_decide as Hbit.
  - destruct (free_block s B L z b i n o Hi Hw ltac:(lia) ltac:(lia) Ha)
      as (s1 & B1 & L1 & E1 & I1 & Ev1 & W1 & C1).
    rewrite bind_assoc. mrun E1. rewrite bind_mret.
    destruct (decide (n - 2 ^ o = 0)) as [H0|H0].
    + (* the range is used up *)
      assert (n = 2 ^ o) as -> by lia. destruct fuel as [|fuel]; [lia|]. cbn [free_low].
      assert (H2' : 0 < 2 ^ (o + 1)) by (apply pow2_pos; lia).
      rewrite bool_decide_false by lia.
      exists (i + 2 ^ o), (2 ^ o - 2 ^ o), (o + 1), s1, B1, L1.
      split_and!; try done; try lia.
      replace (i + 2 ^ o - b) with (i - b + 2 ^ o) by lia. by apply Hset.
    + destruct (IH s1 B1 L1 (i + 2 ^ o) (n - 2 ^ o) (o + 1))
        as (i' & n' & o' & s' & B' & L' & E & I' & Ev & W & Hn' & Ho' & Ha' & Hle' & Hsum & C);
        try done; try lia.
      { replace (i + 2 ^ o - b) with (i - b + 2 ^ o) by lia. by apply Hset. }
      exists i', n', o', s', B', L'. split_and!; try done; try lia.
      * by eapply evolves_trans.
      * intros p. rewrite C, C1. clear -Hle' H2. split.
        { intros [[?|?]|?]; [by left|right; lia..]. }
        { intros [?|?]; [by left; left|]. destruct (decide (p < i + 2 ^ o)); [left; right; lia|right; lia]. }
  - rewrite bind_mret. assert (Hbit0 : Z.land (i - b) (2 ^ o) = 0) by lia.
    destruct (IH s B L i n (o + 1))
      as (i' & n' & o' & s' & B' & L' & E & I' & Ev & W & Hn' & Ho' & Ha' & Hle' & Hsum & C);
      try done; try lia; [by apply Hclr|].
    exists i', n', o', s', B', L'. split_and!; try done; lia.
Qed.

Lemma lower_spec fuel n o s :
  (Z.to_nat o < fuel)%nat → 0 ≤ o → 0 < n →
  ∃ o', lower fuel n o (2 ^ o) s = Ret ((o', 2 ^ o'), s) ∧ 0 ≤ o' ≤ o ∧ 2 ^ o' ≤ n ∧
    (n < 2 ^ o → n < 2 ^ (o' + 1)) ∧ (n < 2 ^ o → o' < o).
Proof.
  revert o. induction fuel as [|fuel IH]; intros o Hf Ho Hn; [lia|]. cbn [lower].
  case_bool_decide as E.
  - destruct (decide (o = 0)) as [->|Hne]; [simpl in E; lia|].
    assert (Hsz : Z.shiftr (2 ^ o) 1 = 2 ^ (o - 1)).
    { rewrite Z.shiftr_div_pow2 by lia. rewrite <-Z.pow_sub_r by lia. done. }
    rewrite Hsz. destruct (IH (o - 1)) as (o' & E' & Ho' & H1 & H2 & H3); [lia|lia|lia|].
    exists o'. split_and!; [done|lia|lia|done| |lia].
    intros _. destruct (decide (n < 2 ^ (o - 1))); [by apply H2|].
    destruct (decide (o' = o - 1)) as [->|]; [by replace (o - 1 + 1) with o by lia|].
    assert (2 ^ o' ≤ 2 ^ (o - 1)) by (apply Z.pow_le_mono_r; lia).
    destruct fuel as [|f]; [lia|]. exfalso. cbn [lower] in E'. rewrite bool_decide_false in E' by done.
    injection E' as E'. lia.
  - exists o. split_and!; try done; lia.
Qed.

Lemma free_high_spec fuel s B L z b i n o :
  (Z.to_nat o < fuel)%nat → 0 ≤ o ≤ 11 → 0 ≤ n < 2 ^ o → inv s B L None →
  owned s B z b i n → (2 ^ o | i - b) →
  ∃ s' B' L', free_high fuel i n o (2 ^ o) s = Ret ((), s') ∧ inv s' B' L' None ∧
    evolves s s' ∧ (∀ p, covers B' p ↔ covers B p ∨ i ≤ p < i + n).
Proof.
  revert s B L i n o. induction fuel as [|fuel IH]; intros s B L i n o Hf Ho Hn Hi Hw Ha; [lia|].
  cbn [free_high]. case_bool_decide as Hn0.
  2: { exists s, B, L. split_and!; try done; [apply evolves_refl|]. intros p. split; [tauto|].
       intros [?|?]; [done|lia]. }
  destruct (lower_spec 12 n o s ltac:(lia) ltac:(lia) ltac:(lia)) as (o' & E & Ho' & Hle & Hlt & Hlt').
  mrun E. specialize (Hlt ltac:(lia)). specialize (Hlt' ltac:(lia)).
  rewrite Z.pow_add_r in Hlt by lia. change (2 ^ 1) with 2 in Hlt.
  assert (Ha' : (2 ^ o' | i - b)).
  { etransitivity; [|exact Ha]. exists (2 ^ (o - o')). rewrite <-Z.pow_add_r by lia. f_equal. lia. }
  destruct (free_block s B L z b i n o' Hi Hw ltac:(lia) Hle Ha')
    as (s1 & B1 & L1 & E1 & I1 & Ev1 & W1 & C1).
  mrun E1. destruct (IH s1 B1 L1 (i + 2 ^ o') (n - 2 ^ o') o') as (s' & B' & L' & E' & I' & Ev & C);
    try done; try lia.
  { replace (i + 2 ^ o' - b) with (i - b + 2 ^ o') by lia. by apply Z.divide_add_r. }
  exists s', B', L'. split_and!; try done; [by eapply evolves_trans|].
  intros p. rewrite C, C1. split; [intros [[?|?]|?]|intros [?|?]]; try tauto; try (right; lia).
  destruct (decide (p < i + 2 ^ o')); [left; right; lia|right; lia].
Qed.

Lemma free_pages_spec s B L z b i n :
  inv s B L None → owned s B z b i n → 0 < n < 2 ^ 11 →
  ∃ s' B' L', buddy_free_pages i n s = Ret ((), s') ∧ inv s' B' L' None ∧ evolves s s' ∧
    (∀ p, covers B' p ↔ covers B p ∨ i ≤ p < i + n).
Proof.
  intros Hi Hw Hn. unfold buddy_free_pages. rewrite bind_assert by (apply bool_decide_true; lia).
  case_bool_decide as H1.
  - subst n. destruct (free_block s B L z b i 1 0 Hi Hw) as (s1 & B1 & L1 & E1 & I1 & Ev1 & _ & C1);
      [lia|simpl; lia|apply Z.divide_1_l|].
    exists s1, B1, L1. by split_and!.
  - destruct (free_low_spec 13 s B L z b i n 0) as
      (i' & n' & o' & s1 & B1 & L1 & E1 & I1 & Ev1 & W1 & Hn' & Ho' & Ha' & Hle & Hsum & C1);
      try done; try lia; [apply Z.divide_1_l|].
    change (2 ^ 0) with 1 in E1. mrun E1.
    destruct (free_high_spec 13 s1 B1 L1 z b i' n' o') as (s2 & B2 & L2 & E2 & I2 & Ev2 & C2);
      try done; try lia.
    exists s2, B2, L2. split_and!; try done; [by eapply evolves_trans|].
    intros p. rewrite C2, C1. split; [intros [[?|?]|?]|intros [?|?]]; try tauto; try (right; lia).
    destruct (decide (p < i')); [left; right; lia|right; lia].
Qed.

(** ** buddy_alloc_pages *)
Lemma getorder_loop_spec fuel n o s :
  0 ≤ o ≤ 10 → (fuel = Z.to_nat (11 - o))%nat → 0 < n →  n ≤ 2 ^ 10 → (0 < o → 2 ^ (o - 1) < n) →
  ∃ o', getorder_loop fuel n o (2 ^ o) s = Ret (o', s) ∧ o ≤ o' ≤ 10 ∧ n ≤ 2 ^ o' ∧
    (0 < o' → 2 ^ (o' - 1) < n).
Proof.
  revert o. induction fuel as [|fuel IH]; intros o Ho Hf Hn Hmax Hlow; [lia|]. cbn [getorder_loop].
  case_bool_decide as E; [by exists o; split_and!; try lia|].
  assert (o < 10) by (destruct (decide (o = 10)) as [->|]; lia).
  assert (Hsh : u32 (Z.shiftl (2 ^ o) 1) = 2 ^ (o + 1)).
  { rewrite Z.shiftl_mul_pow2, <-Z.pow_add_r by lia. apply u32_small. unfold is_u32.
    split; [apply Z.pow_nonneg; lia|]. apply Z.pow_lt_mono_r; lia. }
  rewrite Hsh. destruct (IH (o + 1)) as (o' & E' & Ho' & H1 & H2); [lia|lia|lia|lia| |].
  { intros _. replace (o + 1 - 1) with o by lia. lia. }
  exists o'. split_and!; try done; lia.
Qed.

Lemma alloc_pages_spec s B L n :
  inv s B L None → 0 < n ≤ 2 ^ 10 →
  (buddy_alloc_pages n s = Ret (None, s) ∧ ∀ i o, B !! i = Some o → 2 ^ o < n) ∨
  (∃ i z b s' B' L', buddy_alloc_pages n s = Ret (Some i, s') ∧ inv s' B' L' None ∧
     evolves s s' ∧ owned s' B' z b i n ∧ (∀ p, i ≤ p < i + n → covers B p) ∧
     (∀ p, covers B' p ↔ covers B p ∧ ¬ i ≤ p < i + n)).
Proof.
  intros Hi Hn. unfold buddy_alloc_pages. rewrite bind_assert by (apply bool_decide_true; lia).
  destruct (getorder_loop_spec 11 n 0 s) as (o & Eo & Ho & Hle & Hlow); [lia|lia|lia|lia|lia|].
  unfold getorder. change (2 ^ 0) with 1 in Eo. mrun Eo. rewrite Z.shiftl_1_l.
  destruct (alloc_sub_spec s B L o Ho Hi) as [[E HB]|(i & z & s1 & B1 & L1 & E & I1 & Ev1 & Hz & Ha & Hin & C1)].
  - left. mrun E. split; [done|]. intros i o' Hio. specialize (HB i o' Hio).
    pose proof (inv_order _ _ _ _ Hi _ _ Hio).
    assert (2 ^ o' ≤ 2 ^ (o - 1)) by (apply Z.pow_le_mono_r; lia). specialize (Hlow ltac:(lia)). lia.
  - right. mrun E. destruct Ha as (b & Hb & Hbi & Hdiv).
    assert (W1 : owned s1 B1 z b i (2 ^ o)).
    { split; [by rewrite (ev_base _ _ Ev1)|done|by eapply evolves_zoned|].
      intros p Hp. rewrite C1. unfold in_block. tauto. }
    case_bool_decide as Hne.
    + destruct (free_pages_spec s1 B1 L1 z b (i + n) (2 ^ o - n) I1) as (s2 & B2 & L2 & E2 & I2 & Ev2 & C2).
      { eapply owned_sub; [done|lia|lia]. }
      { assert (2 ^ o ≤ 2 ^ 10) by (apply Z.pow_le_mono_r; lia). lia. }
      mrun E2. exists i, z, b, s2, B2, L2.
      assert (HC : ∀ p, covers B2 p ↔ covers B p ∧ ¬ i ≤ p < i + n).
      { intros p. rewrite C2, C1. unfold in_block in *. split.
        - intros [[? ?]|?]; [split; [done|lia]|]. split; [apply Hin; lia|lia].
        - intros [? ?]. destruct (decide (i + n ≤ p < i + n + (2 ^ o - n))); [by right|left].
          split; [done|lia]. }
      split_and!; [done|done|by eapply evolves_trans| | |done].
      * destruct (owned_sub _ _ _ _ _ _ i n W1) as [? ? ? _]; [lia|lia|].
        split; [by rewrite (ev_base _ _ Ev2)|done|by eapply evolves_zoned|].
        intros p Hp. rewrite HC. tauto.
      * intros p Hp. apply Hin. unfold in_block. lia.
    + rewrite bind_skip. assert (n = 2 ^ o) as -> by (destruct (decide (n = 2 ^ o)); tauto).
      exists i, z, b, s1, B1, L1. by split_and!.
Qed.

(** ** The free pages, counted *)
Definition block_pages (L : Z → list Z) (o : Z) : list Z := L o ≫= λ i, seqZ i (2 ^ o).
Definition free_list (L : Z → list Z) : list Z := seqZ 0 11 ≫= block_pages L.

Lemma elem_of_block_pages L o p : p ∈ block_pages L o ↔ ∃ i, i ∈ L o ∧ in_block i o p.
Proof.
  unfold block_pages, in_block. rewrite list_elem_of_bind. split.
  - intros (i & Hp & Hi). apply elem_of_seqZ in Hp. by exists i.
  - intros (i & Hi & Hp). exists i. by rewrite elem_of_seqZ.
Qed.
Lemma elem_of_free_list s B L e p : inv s B L e → p ∈ free_list L ↔ covers B p.
Proof.
  intros Hi. unfold free_list. rewrite list_elem_of_bind. split.
  - intros (o & Hp & Ho%elem_of_seqZ). apply elem_of_block_pages in Hp as (i & Hio & Hp).
    exists i, o. split; [|done]. apply (inv_LB _ _ _ _ Hi); [lia|done].
  - intros (i & o & Hio & Hp). pose proof (inv_order _ _ _ _ Hi _ _ Hio). exists o.
    rewrite elem_of_seqZ, elem_of_block_pages. split; [|lia]. exists i. split; [|done].
    by apply (inv_LB _ _ _ _ Hi).
Qed.
Lemma in_two_blocks s B L e i o j o' p :
  inv s B L e → B !! i = Some o → B !! j = Some o' → in_block i o p → in_block j o' p → i = j ∧ o = o'.
Proof.
  intros Hi Hio Hjo Hp Hq. destruct (decide (i = j)) as [->|Hne].
  - split; [done|congruence].
  - unfold in_block in *. destruct (inv_disj _ _ _ _ Hi _ _ _ _ Hio Hjo Hne); lia.
Qed.
Lemma NoDup_L s B L e o : inv s B L e → 0 ≤ o ≤ 10 → NoDup (L o).
Proof.
  intros Hi Ho. destruct (inv_lists _ _ _ _ Hi) as (F & HD & HF & _).
  pose proof (dl_nodup (links s) F HD (FreeList o) (PageLink <$> L o) (HF o Ho)) as Hnd.
  apply NoDup_cons in Hnd as [_ Hnd]. by apply NoDup_fmap_1 in Hnd.
Qed.
Lemma NoDup_free_list s B L e : inv s B L e → NoDup (free_list L).
Proof.
  intros Hi. apply NoDup_bind; [| |apply NoDup_seqZ].
  - intros o o' p Ho%elem_of_seqZ Ho'%elem_of_seqZ (i & Hio & Hp)%elem_of_block_pages
      (j & Hjo & Hq)%elem_of_block_pages.
    apply (inv_LB _ _ _ _ Hi) in Hio; [|lia]. apply (inv_LB _ _ _ _ Hi) in Hjo; [|lia].
    by destruct (in_two_blocks s B L e i o j o' p).
  - intros o Ho%elem_of_seqZ. apply NoDup_bind; [| |eapply NoDup_L; [done|lia]].
    + intros i j p Hio Hjo Hp%elem_of_seqZ Hq%elem_of_seqZ.
      apply (inv_LB _ _ _ _ Hi) in Hio; [|lia]. apply (inv_LB _ _ _ _ Hi) in Hjo; [|lia].
      by destruct (in_two_blocks s B L e i o j o p).
    + intros i _. apply NoDup_seqZ.
Qed.

Lemma length_block_pages L o : 0 ≤ o → Z.of_nat (length (block_pages L o)) = Z.of_nat (length (L o)) * 2 ^ o.
Proof.
  intros Ho. unfold block_pages. pose proof (pow2_pos o Ho).
  induction (L o) as [|i l IH]; [done|]. csimpl. rewrite length_app, length_seqZ. lia.
Qed.
Lemma nr_free_loop_spec n o r s B L :
  inv s B L None → 0 ≤ o → o + Z.of_nat n ≤ 11 →
  nr_free_loop n o (u32 r) s =
    Ret (u32 (r + Z.of_nat (length (seqZ o (Z.of_nat n) ≫= block_pages L))), s).
Proof.
  intros Hi. revert o r. induction n as [|n IH]; intros o r Ho Hn.
  - simpl. by rewrite Z.add_0_r.
  - cbn [nr_free_loop]. mrun (get_nr_free_run s o _ (inv_nr _ _ _ _ Hi o ltac:(lia))).
    rewrite seqZ_cons by lia. replace (Z.pred (Z.of_nat (S n))) with (Z.of_nat n) by lia. csimpl.
    rewrite length_app, Nat2Z.inj_add, length_block_pages by done. rewrite Z.shiftl_1_l.
    replace (u32 (u32 r + _)) with (u32 (r + Z.of_nat (length (L o)) * 2 ^ o)).
    2: { unfold u32. by rewrite Z.mul_mod_idemp_l, <-Z.add_mod by lia. }
    rewrite IH by lia. rewrite Z.add_assoc. done.
Qed.
Lemma nr_free_pages_spec s B L :
  inv s B L None → buddy_nr_free_pages s = Ret (u32 (Z.of_nat (length (free_list L))), s).
Proof. intros Hi. apply (nr_free_loop_spec 11 0 0 s B L); [done|lia|lia]. Qed.

Lemma free_list_split s B L s' B' L' i n :
  inv s B L None → inv s' B' L' None → 0 ≤ n → (∀ p, i ≤ p < i + n → ¬ covers B' p) →
  (∀ p, covers B p ↔ covers B' p ∨ i ≤ p < i + n) →
  Z.of_nat (length (free_list L)) = Z.of_nat (length (free_list L')) + n.
Proof.
  intros Hi Hi' Hn Hd HC. replace (length (free_list L)) with (length (seqZ i n ++ free_list L')).
  { rewrite length_app, length_seqZ. lia. }
  apply Permutation_length, NoDup_Permutation; [|by eapply NoDup_free_list|].
  - apply NoDup_app. split_and!; [apply NoDup_seqZ| |by eapply NoDup_free_list].
    intros p Hp%elem_of_seqZ Hq. apply (elem_of_free_list s' B' L' None) in Hq; [|done]. by apply (Hd p).
  - intros p. rewrite elem_of_app, elem_of_seqZ, (elem_of_free_list s B L None), (elem_of_free_list s' B' L' None), HC by done.
    tauto.
Qed.
