(* ===== verification/BuddyInit.v ===== *)
(** * The buddy allocator: initialisation

    buddy_init empties the free lists and buddy_init_memmap gives a range of
    reserved pages to the allocator. *)
From stdpp Require Import base gmap list fin_maps.
From Stdlib Require Import ZArith Lia.
From S2P Require Import Prelude DList Bits Buddy BuddyInv BuddyProps.

(** ** buddy_init *)

(** Memory before buddy_init. *)
Record raw (s : pmm) : Prop := {
  raw_heads : ∀ o, 0 ≤ o ≤ 10 → is_Some (links s !! FreeList o);
  raw_links : ∀ p, is_Some (pages s !! p) → is_Some (links s !! PageLink p);
  raw_flags : ∀ p pg, pages s !! p = Some pg → PageProperty pg = false;
  raw_npage : ∀ p, is_Some (pages s !! p) ↔ 0 ≤ p < npage s;
  raw_zones : mem_base s = ∅;
  raw_count : zone_count s = 0 }.

(** The lists already initialised. *)
Definition heads_up_to (i : Z) (F : gmap addr (list addr)) : Prop :=
  (∀ o, 0 ≤ o < i → F !! FreeList o = Some []) ∧
  (∀ hd xs, F !! hd = Some xs → xs = [] ∧ ∃ o, hd = FreeList o ∧ 0 ≤ o < i).

Lemma buddy_init_loop_spec n i s F :
  i + Z.of_nat n = 11 → 0 ≤ i → raw s → dlists (links s) F → heads_up_to i F →
  (∀ o, 0 ≤ o < i → nr_free s !! o = Some 0) →
  ∃ s' F', buddy_init_loop n i s = Ret ((), s') ∧ raw s' ∧ dlists (links s') F' ∧
    heads_up_to 11 F' ∧ (∀ o, 0 ≤ o < 11 → nr_free s' !! o = Some 0) ∧
    pages s' = pages s ∧ npage s' = npage s.
Proof.
  revert i s F. induction n as [|n IH]; intros i s F Hin Hi0 Hr HD [HF Hhd] Hnr.
  - exists s, F. assert (i = 11) as -> by lia. by split_and!.
  - destruct Hr as [R1 R2 R3 R4 R5 R6].
    destruct (list_init_dlists (links s) F (FreeList i)) as (l' & El & HD' & Hdom); [done| |apply R1; lia|].
    { intros hd (xs & Hxs & Hx). destruct (Hhd hd xs Hxs) as (-> & o & -> & Ho).
      apply list_elem_of_singleton in Hx as [= ->]. lia. }
    assert (Hlk : ∀ a, is_Some (links s !! a) → is_Some (l' !! a)).
    { intros a Ha. apply elem_of_dom. rewrite Hdom. by apply elem_of_dom. }
    destruct (IH (i + 1) (with_nr_free (<[i := 0]> (nr_free s)) (with_links l' s)) (<[FreeList i := []]> F))
      as (s' & F' & E & ?); [lia|lia| |done| | |].
    + split; simpl; auto.
    + split.
      * intros o Ho. destruct (decide (o = i)) as [->|Hne]; [by rewrite lookup_insert_eq|].
        rewrite lookup_insert_ne by congruence. apply HF. lia.
      * intros hd xs [[<- <-]|[_ Hxs]]%lookup_insert_Some; [split; [done|]; exists i; split; [done|lia]|].
        destruct (Hhd hd xs Hxs) as (-> & o & -> & Ho). split; [done|]. exists o. split; [done|lia].
    + intros o Ho. simpl. destruct (decide (o = i)) as [->|Hne]; [by rewrite lookup_insert_eq|].
      rewrite lookup_insert_ne by done. apply Hnr. lia.
    + exists s', F'. split_and!; try tauto. cbn [buddy_init_loop]. mrun (links_run _ _ _ _ El).
      unfold set_nr_free. by rewrite bind_modify.
Qed.

Lemma buddy_init_spec s :
  raw s → ∃ s', buddy_init s = Ret ((), s') ∧ inv s' ∅ (λ _, []) None ∧ pages s' = pages s ∧
    npage s' = npage s ∧ mem_base s' = ∅ ∧ zone_count s' = 0.
Proof.
  intros Hr. destruct (buddy_init_loop_spec 11 0 s ∅) as
    (s' & F & E & [R1 R2 R3 R4 R5 R6] & HD & [HF Hhd] & Hnr & ? & ?); [lia|lia|done| | |lia|].
  { split; intros *; rewrite ?lookup_empty; try done. intros (xs & Hxs & _). by rewrite lookup_empty in Hxs. }
  { split; intros *; [lia|]. by rewrite lookup_empty. }
  exists s'. split_and!; try done. split; try done.
  - exists F. split_and!; [done| |].
    + intros o Ho. rewrite HF by lia. done.
    + intros hd xs Hxs. destruct (Hhd hd xs Hxs) as (_ & o & -> & Ho). exists o. split; [done|lia].
  - intros o i Ho. rewrite lookup_empty. split; [by intros ?%elem_of_nil|done].
  - intros o Ho. by rewrite Hnr by lia.
  - intros p pg Hp HP. by rewrite (R3 p pg Hp) in HP.
  - intros z b. by rewrite R5, lookup_empty.
Qed.

(** ** init_pages *)
Lemma inv_set_uncovered s B L i pg pg' :
  inv s B L None → pages s !! i = Some pg → ¬ covers B i → PageProperty pg' = false →
  inv (with_pages (<[i := pg']> (pages s)) s) B L None.
Proof.
  intros Hi Hpg Hc Hpg'. assert (HBi : B !! i = None) by by eapply not_covers_head.
  destruct Hi as [H1 H2 H3 H4 H5 H6 H7 H8 H9 H10 H11]. split; simpl; try done.
  - intros p Hp. apply H2. destruct (decide (p = i)) as [->|Hne]; [by eexists|].
    by rewrite lookup_insert_ne in Hp.
  - intros j o Hj. destruct (H6 j o Hj) as (z' & Hz & ?). exists z'. split; [|done].
    intros p Hp. simpl. destruct (decide (p = i)) as [->|Hne].
    + destruct Hc. exists j, o. by split.
    + rewrite lookup_insert_ne by done. by apply Hz.
  - intros j o Hj. rewrite lookup_insert_ne by congruence. by apply H7.
  - intros p q Hq Hp _. destruct (decide (p = i)) as [->|Hne].
    + rewrite lookup_insert_eq in Hq. injection Hq as <-. congruence.
    + rewrite lookup_insert_ne in Hq by done. by apply H8.
  - intros p. rewrite <-H10. destruct (decide (p = i)) as [->|Hne].
    + rewrite lookup_insert_eq, Hpg. split; by eexists.
    + by rewrite lookup_insert_ne.
Qed.

(** Reserved pages are never free. *)
Lemma reserved_uncovered s B L e p pg :
  inv s B L e → pages s !! p = Some pg → PageReserved pg = true → ¬ covers B p.
Proof.
  intros Hi Hpg Hr (i & o & Hio & Hp). destruct (inv_zone _ _ _ _ Hi _ _ Hio) as (z & Hz & _).
  destruct (Hz p Hp) as (pg' & ? & _ & ?). congruence.
Qed.

Definition reserved (s : pmm) (i n : Z) : Prop :=
  ∀ p, i ≤ p < i + n → ∃ pg, pages s !! p = Some pg ∧ PageReserved pg = true.

Lemma init_pages_spec n s B L i z :
  inv s B L None → reserved s i (Z.of_nat n) →
  ∃ s', init_pages n i z s = Ret ((), s') ∧ inv s' B L None ∧ zoned s' z i (Z.of_nat n) ∧
    (∀ p, ¬ i ≤ p < i + Z.of_nat n → pages s' !! p = pages s !! p) ∧
    mem_base s' = mem_base s ∧ zone_count s' = zone_count s ∧ npage s' = npage s.
Proof.
  revert s i. induction n as [|n IH]; intros s i Hi Hr.
  - exists s. split_and!; try done. intros p Hp. lia.
  - rewrite Nat2Z.inj_succ in *. destruct (Hr i) as (pg & Hpg & Hpr); [lia|].
    pose (f := λ pg, set_page_ref 0 (set_zone_num z (set_property 0 (set_flags 0 pg)))).
    destruct (IH (with_pages (<[i := f pg]> (pages s)) s) (i + 1)) as (s' & E & I' & Hz & Hp & ? & ? & ?).
    { eapply inv_set_uncovered; [done|done|by eapply reserved_uncovered|done]. }
    { intros p Hp. simpl. rewrite lookup_insert_ne by lia. apply Hr. lia. }
    exists s'. split_and!; try done.
    + cbn [init_pages]. mrun (get_page_run s i pg Hpg). rewrite bind_assert by done.
      mrun (set_page_run s i f pg Hpg). done.
    + intros p Hip. destruct (decide (p = i)) as [->|Hne]; [|apply Hz; lia].
      exists (f pg). rewrite Hp by lia. simpl. by rewrite lookup_insert_eq.
    + intros p Hip. rewrite Hp by lia. simpl. by rewrite lookup_insert_ne by lia.
Qed.

Lemma inv_new_zone s B L zc b :
  inv s B L None → mem_base s !! zc = None → 0 ≤ b →
  inv (MkPmm (pages s) (links s) (nr_free s) (<[zc := b]> (mem_base s)) (zc + 1) (npage s)) B L None.
Proof.
  intros [H1 H2 H3 H4 H5 H6 H7 H8 H9 H10 H11] Hn Hb. split; simpl; try done.
  - intros i o Hio. destruct (H6 i o Hio) as (z & Hz & b' & Hb' & ?). exists z. split; [done|].
    exists b'. simpl. rewrite lookup_insert_ne by congruence. done.
  - intros z b' [[<- <-]|[_ ?]]%lookup_insert_Some; [done|by eapply H11].
Qed.

(** ** fill *)
Lemma fill_step_unfold p o {A} (k : M pmm A) s :
  is_Some (nr_free s !! o) →
  (set_page p (set_property o);; set_page p SetPageProperty;;
   zoom links_lens (list_add (FreeList o) (PageLink p));;
   nf ← get_nr_free o; set_nr_free o (u32 (nf + 1));; k) s = (link_block p o;; k) s.
Proof.
  intros [nf Hnf]. unfold link_block, mbind, M_bind, set_page, get_nr_free, set_nr_free, zoom, modify.
  destruct (pages s !! p) as [pg|]; [|done]. simpl. destruct (<[p:=_]> _ !! p) as [pg'|]; [|done]. simpl.
  rewrite Hnf. simpl. by destruct (list_add _ _ _) as [[[] l]| | |]; simpl; rewrite ?Hnf.
Qed.

Record filled (s s' : pmm) (B B' : blocks) (L' : Z → list Z) (i j : Z) : Prop := {
  fl_inv : inv s' B' L' None;
  fl_ev : evolves s s';
  fl_frame : ∀ q, ¬ i ≤ q < j → pages s' !! q = pages s !! q;
  fl_count : zone_count s' = zone_count s;
  fl_covers : ∀ q, covers B' q ↔ covers B q ∨ i ≤ q < j }.

Lemma filled_nil s B L i : inv s B L None → filled s s B B L i i.
Proof. intros Hi. split; try done; [apply evolves_refl|]. intros q. split; [tauto|]. intros [?|?]; [done|lia]. Qed.
Lemma filled_trans s1 s2 s3 B1 B2 B3 L2 L3 i j k :
  i ≤ j ≤ k → filled s1 s2 B1 B2 L2 i j → filled s2 s3 B2 B3 L3 j k → filled s1 s3 B1 B3 L3 i k.
Proof.
  intros Hij [I1 V1 F1 Z1 C1] [I2 V2 F2 Z2 C2]. split; try congruence.
  - by eapply evolves_trans.
  - intros q Hq. rewrite F2, F1 by lia. done.
  - intros q. rewrite C2, C1. split.
    + intros [[?|?]|?]; [by left|right; lia..].
    + intros [?|?]; [by left; left|]. destruct (decide (q < j)); [left; right; lia|right; lia].
Qed.

Lemma fill_order_spec fuel s B L z b p n o :
  (Z.to_nat n < fuel)%nat → 0 ≤ o ≤ 10 → inv s B L None → owned s B z b p n → 0 ≤ n →
  (2 ^ o | p - b) →
  ∃ n' p' s' B' L', fill_order fuel o (2 ^ o) n p s = Ret ((n', p'), s') ∧
    filled s s' B B' L' p p' ∧ owned s' B' z b p' n' ∧ 0 ≤ n' < 2 ^ o ∧ (2 ^ o | p' - b) ∧
    p ≤ p' ∧ p' + n' = p + n.
Proof.
  revert s B L p n. induction fuel as [|fuel IH]; intros s B L p n Hf Ho Hi Hw Hn Ha; [lia|].
  cbn [fill_order]. pose proof (pow2_pos o ltac:(lia)) as Hpos.
  destruct (decide (n >= 2 ^ o)) as [Hge|Hlt].
  2: { rewrite (bool_decide_false (n >= 2 ^ o)) by done. exists n, p, s, B, L.
       split_and!; try done; try lia. by eapply filled_nil. }
  rewrite (bool_decide_true (n >= 2 ^ o)) by done. pose proof Hw as [Hb Hle Hz Hfr].
  rewrite fill_step_unfold by (rewrite (inv_nr _ _ _ _ Hi o Ho); by eexists).
  destruct (link_block_spec s B L None p o z) as (s1 & L1 & E1 & I1 & V1 & F1); try done.
  { eapply zoned_sub; [exact Hz|lia|lia]. }
  { exists b. split_and!; [done|lia|done]. }
  { intros q Hq. unfold in_block in Hq. apply Hfr. lia. }
  assert (HBp : B !! p = None).
  { eapply not_covers_head; [done|]. apply Hfr. lia. }
  assert (C1 : ∀ q, covers (<[p := o]> B) q ↔ covers B q ∨ p ≤ q < p + 2 ^ o).
  { intros q. rewrite covers_insert by done. unfold in_block. tauto. }
  mrun E1. destruct (IH s1 (<[p := o]> B) L1 (p + 2 ^ o) (n - 2 ^ o)) as
    (n' & p' & s' & B' & L' & E & Fl & W & Hn' & Ha' & Hp & Hs); try done; try lia.
  { by eapply owned_rest; [done|lia|done|]. }
  { replace (p + 2 ^ o - b) with (p - b + 2 ^ o) by lia. apply Z.divide_add_r; [done|]. by exists 1; lia. }
  exists n', p', s', B', L'. split_and!; try done; try lia.
  eapply filled_trans; [|split; [exact I1|exact V1| | |exact C1]|exact Fl]; [lia| |].
  - intros q Hq. apply F1. lia.
  - unfold link_block, set_page, mbind, M_bind, get_nr_free, set_nr_free, modify, zoom in E1.
    repeat (case_match; simplify_eq/=). done.
Qed.

Lemma fill_spec fuel s B L z b p n o :
  (Z.to_nat n + Z.to_nat o + 2 ≤ fuel)%nat → 0 ≤ o ≤ 10 → inv s B L None → owned s B z b p n →
  0 ≤ n → (2 ^ o | p - b) →
  ∃ s' B' L', fill fuel o (2 ^ o) n p s = Ret ((), s') ∧ filled s s' B B' L' p (p + n).
Proof.
  revert s B L p n o. induction fuel as [|fuel IH]; intros s B L p n o Hf Ho Hi Hw Hn Ha; [lia|].
  cbn [fill]. destruct (decide (n = 0)) as [->|Hn0].
  { exists s, B, L. rewrite Z.add_0_r. split; [done|by eapply filled_nil]. }
  rewrite (bool_decide_true (n ≠ 0)) by done.
  destruct (fill_order_spec (S fuel) s B L z b p n o) as
    (n' & p' & s1 & B1 & L1 & E1 & Fl1 & W1 & Hn' & Ha' & Hp' & Hs); try done; [lia|].
  mrun E1. destruct (decide (o = 0)) as [->|Hne].
  - assert (n' = 0) as -> by lia. exists s1, B1, L1. replace (p + n) with p' by lia.
    split; [|done]. destruct fuel as [|fuel]; [lia|done].
  - replace (u32 (o - 1)) with (o - 1) by (symmetry; apply u32_small; unfold is_u32; lia).
    rewrite Z.shiftr_div_pow2 by lia. rewrite <-Z.pow_sub_r by lia.
    destruct (IH s1 B1 L1 p' n' (o - 1)) as (s' & B' & L' & E & Fl); try done; try lia.
    { apply Fl1. }
    { etransitivity; [|exact Ha']. exists 2. rewrite <-Z.pow_succ_r by lia. f_equal. lia. }
    exists s', B', L'. split; [done|]. rewrite Hs in Fl. eapply filled_trans; [|done|done]. lia.
Qed.

Lemma buddy_init_memmap_spec fuel s B L p n :
  inv s B L None → mem_base s !! zone_count s = None → zone_count s < MAX_ZONE_NUM →
  0 ≤ p → 0 < n → reserved s p n → (Z.to_nat n + 12 ≤ fuel)%nat →
  ∃ s' B' L', buddy_init_memmap fuel p n s = Ret ((), s') ∧ inv s' B' L' None ∧
    (∀ q, covers B' q ↔ covers B q ∨ p ≤ q < p + n) ∧
    (∀ q, ¬ p ≤ q < p + n → pages s' !! q = pages s !! q) ∧
    mem_base s' = <[zone_count s := p]> (mem_base s) ∧ zone_count s' = zone_count s + 1.
Proof.
  intros Hi Hmb Hzc Hp Hn Hr Hf. unfold buddy_init_memmap. rewrite bind_gets.
  rewrite bind_assert by (apply bool_decide_true; lia).
  destruct (init_pages_spec (Z.to_nat n) s B L p (zone_count s)) as
    (s1 & E1 & I1 & Hz & F1 & Hb1 & Hc1 & Hn1); [done|rewrite Z2Nat.id by lia; done|].
  rewrite Z2Nat.id in * by lia. mrun E1. rewrite bind_modify.
  pose proof (inv_new_zone s1 B L (zone_count s) p I1) as I2. rewrite Hb1 in I2.
  specialize (I2 Hmb Hp). rewrite Hb1.
  destruct (fill_spec fuel _ B L (zone_count s) p p n MAX_ORDER ltac:(unfold MAX_ORDER; lia)
    ltac:(unfold MAX_ORDER; lia) I2) as (s' & B' & L' & E & [I' V F Z C]).
  { split; simpl; [by rewrite lookup_insert_eq|lia|done|]. intros q Hq.
    destruct (Hr q Hq) as (pg & Hpg & Hres). exact (reserved_uncovered s B L None q pg Hi Hpg Hres). }
  { lia. }
  { rewrite Z.sub_diag. apply Z.divide_0_r. }
  exists s', B', L'. split_and!; try done.
  - intros q Hq. rewrite F by done. simpl. by apply F1.
  - by rewrite (ev_base _ _ V).
Qed.
