(* ===== verification/BuddySpec.v ===== *)
(** * The buddy allocator: its contract

    The allocator as its clients see it: a bag of free pages from which ranges
    of pages are taken and to which they are given back. *)
From stdpp Require Import base gmap list fin_maps.
From Stdlib Require Import ZArith Lia.
From S2P Require Import Prelude DList Bits Buddy BuddyInv BuddyProps BuddyInit.

(** ** Client programs *)

(** A client takes ranges of [n] pages and gives back the [k]-th range it holds. *)
Inductive client_op : Type := OpAlloc (n : Z) | OpFree (k : nat).
Definition op_ok (op : client_op) : Prop :=
  match op with OpAlloc n => 0 < n ≤ 2 ^ 10 | OpFree _ => True end.

Definition run_op (op : client_op) (hand : list (Z * Z)) : M pmm (list (Z * Z)) :=
  match op with
  | OpAlloc n =>
    p ← buddy_alloc_pages n;
    mret (match p with Some i => (i, n) :: hand | None => hand end)
  | OpFree k =>
    match hand !! k with
    | Some (i, n) => buddy_free_pages i n;; mret (delete k hand)
    | None => mret hand
    end
  end.
Fixpoint run_ops (ops : list client_op) (hand : list (Z * Z)) : M pmm (list (Z * Z)) :=
  match ops with
  | [] => mret hand
  | op :: ops => hand ← run_op op hand; run_ops ops hand
  end.

Definition hand_pages (hand : list (Z * Z)) : list Z := hand ≫= λ '(i, n), seqZ i n.

(** A range the allocator can take back. *)
Definition holdable (s : pmm) (r : Z * Z) : Prop :=
  0 < r.2 ≤ 2 ^ 10 ∧ ∃ z b, mem_base s !! z = Some b ∧ b ≤ r.1 ∧ zoned s z r.1 r.2.

Record holds (s : pmm) (L : Z → list Z) (hand : list (Z * Z)) : Prop := {
  ho_inv : ∃ B, inv s B L None;
  ho_ranges : Forall (holdable s) hand;
  ho_nodup : NoDup (hand_pages hand ++ free_list L) }.

Lemma holdable_evolves s s' r : evolves s s' → holdable s r → holdable s' r.
Proof.
  intros Ev [Hn (z & b & Hb & Hle & Hz)]. split; [done|]. exists z, b.
  rewrite (ev_base _ _ Ev). split_and!; [done|done|by eapply evolves_zoned].
Qed.
Lemma hand_pages_delete hand k i n :
  hand !! k = Some (i, n) → hand_pages hand ≡ₚ seqZ i n ++ hand_pages (delete k hand).
Proof.
  revert k. induction hand as [|[j m] hand IH]; intros [|k]; simpl; try done.
  - intros [= -> ->]. done.
  - intros E. unfold hand_pages in *. csimpl. rewrite (IH k E). rewrite !app_assoc.
    f_equiv. apply Permutation_app_comm.
Qed.

(** Moving a range between the free pages and the client. *)
Lemma free_list_perm s B L s' B' L' i n :
  inv s B L None → inv s' B' L' None → (∀ p, i ≤ p < i + n → ¬ covers B' p) →
  (∀ p, covers B p ↔ covers B' p ∨ i ≤ p < i + n) →
  free_list L ≡ₚ seqZ i n ++ free_list L'.
Proof.
  intros Hi Hi' Hd HC. apply NoDup_Permutation; [by eapply NoDup_free_list| |].
  - apply NoDup_app. split_and!; [apply NoDup_seqZ| |by eapply NoDup_free_list].
    intros p Hp%elem_of_seqZ Hq. apply (elem_of_free_list s' B' L' None) in Hq; [|done]. by apply (Hd p).
  - intros p. rewrite elem_of_app, elem_of_seqZ.
    rewrite (elem_of_free_list s B L None), (elem_of_free_list s' B' L' None), HC by done. tauto.
Qed.

Lemma run_op_spec s L hand op :
  holds s L hand → op_ok op →
  ∃ s' L' hand', run_op op hand s = Ret (hand', s') ∧ holds s' L' hand' ∧
    hand_pages hand' ++ free_list L' ≡ₚ hand_pages hand ++ free_list L.
Proof.
  intros [[B Hi] Hr Hnd] Hok. destruct op as [n|k]; simpl in *.
  - destruct (alloc_pages_spec s B L n Hi Hok) as [[E _]|(i & z & b & s' & B' & L' & E & I' & Ev & W & Hin & C)];
      mrun E.
    { exists s, L, hand. split_and!; [done| |done]. split; [by exists B|done|done]. }
    assert (HP : hand_pages ((i, n) :: hand) ++ free_list L' ≡ₚ hand_pages hand ++ free_list L).
    { rewrite (free_list_perm s B L s' B' L' i n Hi I').
      - unfold hand_pages at 1. csimpl. rewrite <-app_assoc, !(Permutation_app_comm (seqZ i n)).
        by rewrite app_assoc.
      - apply W.
      - intros p. rewrite C. split; [|intros [[??]|?]; [done|by apply Hin]].
        intros Hp. destruct (decide (i ≤ p < i + n)); tauto. }
    exists s', L', ((i, n) :: hand). split_and!; [done| |done]. split.
    + by exists B'.
    + constructor; [|eapply Forall_impl; [done|]; intros; by eapply holdable_evolves].
      destruct W as [Hb Hle Hz _]. split; [done|]. by exists z, b.
    + by rewrite HP.
  - destruct (hand !! k) as [[i n]|] eqn:Ek.
    2: { exists s, L, hand. split_and!; [done| |done]. split; [by exists B|done|done]. }
    pose proof (hand_pages_delete _ _ _ _ Ek) as HD. rewrite HD in Hnd.
    pose proof (Forall_lookup_1 _ _ _ _ Hr Ek) as [Hn (z & b & Hb & Hle & Hz)]. simpl in *.
    assert (Hdis : ∀ p, i ≤ p < i + n → ¬ covers B p).
    { intros p Hp Hc. apply (elem_of_free_list s B L None) in Hc; [|done].
      rewrite <-app_assoc in Hnd. apply NoDup_app in Hnd as (_ & Hnd & _).
      apply (Hnd p); [by apply elem_of_seqZ|]. apply elem_of_app. by right. }
    destruct (free_pages_spec s B L z b i n) as (s' & B' & L' & E & I' & Ev & C); [done|by split|lia|].
    mrun E.
    assert (HP : hand_pages (delete k hand) ++ free_list L' ≡ₚ hand_pages hand ++ free_list L).
    { rewrite HD, (free_list_perm s' B' L' s B L i n I' Hi) by done.
      rewrite !app_assoc. f_equiv. apply Permutation_app_comm. }
    exists s', L', (delete k hand). split_and!; [done| |done]. split.
    + by exists B'.
    + apply Forall_delete. eapply Forall_impl; [done|]. intros; by eapply holdable_evolves.
    + by rewrite HP, HD.
Qed.

Lemma run_ops_spec ops s L hand :
  holds s L hand → Forall op_ok ops →
  ∃ s' L' hand', run_ops ops hand s = Ret (hand', s') ∧ holds s' L' hand' ∧
    hand_pages hand' ++ free_list L' ≡ₚ hand_pages hand ++ free_list L.
Proof.
  intros Hh Hok. revert s L hand Hh. induction Hok as [|op ops Hop Hops IH]; intros s L hand Hh.
  - exists s, L, hand. by split_and!.
  - destruct (run_op_spec s L hand op Hh Hop) as (s1 & L1 & h1 & E1 & H1 & P1).
    destruct (IH s1 L1 h1 H1) as (s' & L' & h' & E & H' & P'). exists s', L', h'.
    split_and!; [simpl; by mrun E1|done|]. by rewrite P'.
Qed.

(** ** Boot: buddy_init, then a buddy_init_memmap per region of memory *)
Fixpoint memmaps (fuel : nat) (regions : list (Z * Z)) : M pmm unit :=
  match regions with
  | [] => skip
  | (base, n) :: regions => buddy_init_memmap fuel base n;; memmaps fuel regions
  end.
Definition buddy_boot (fuel : nat) (regions : list (Z * Z)) : M pmm unit :=
  buddy_init;; memmaps fuel regions.

Definition in_region (p : Z) (r : Z * Z) : Prop := r.1 ≤ p < r.1 + r.2.
Definition region_ok (s : pmm) (fuel : nat) (r : Z * Z) : Prop :=
  0 ≤ r.1 ∧ 0 < r.2 ∧ reserved s r.1 r.2 ∧ (Z.to_nat r.2 + 12 ≤ fuel)%nat.

Lemma memmaps_spec fuel regions s B L :
  inv s B L None → (∀ z, zone_count s ≤ z → mem_base s !! z = None) →
  zone_count s + Z.of_nat (length regions) ≤ MAX_ZONE_NUM →
  Forall (region_ok s fuel) regions → NoDup (hand_pages regions) →
  ∃ s' B' L', memmaps fuel regions s = Ret ((), s') ∧ inv s' B' L' None ∧
    (∀ p, covers B' p ↔ covers B p ∨ Exists (in_region p) regions).
Proof.
  revert s B L. induction regions as [|[i n] regions IH]; intros s B L Hi Hmb Hzc Hok Hnd.
  - exists s, B, L. split_and!; try done. intros p. rewrite Exists_nil. tauto.
  - apply Forall_cons in Hok as [(H0 & Hn & Hr & Hf) Hok]. simpl in *.
    unfold hand_pages in Hnd. csimpl in Hnd. apply NoDup_app in Hnd as (_ & Hdis & Hnd).
    destruct (buddy_init_memmap_spec fuel s B L i n) as (s1 & B1 & L1 & E1 & I1 & C1 & F1 & Hb1 & Hz1);
      try done; [apply Hmb; lia|lia|].
    destruct (IH s1 B1 L1) as (s' & B' & L' & E & I' & C'); [done| |lia| |done|].
    + intros z Hz. rewrite Hb1, lookup_insert_ne by lia. apply Hmb. lia.
    + apply Forall_lookup_2. intros k [j m] Hk.
      destruct (Forall_lookup_1 _ _ _ _ Hok Hk) as (? & ? & Hr' & ?). split_and!; try done.
      simpl in *. intros p Hp. rewrite F1; [by apply Hr'|]. intros Hip.
      apply (Hdis p); [by apply elem_of_seqZ|]. apply list_elem_of_bind. exists (j, m).
      split; [by apply elem_of_seqZ|]. by eapply list_elem_of_lookup_2.
    + exists s', B', L'. split_and!; [by mrun E1|done|]. intros p. rewrite C', C1, Exists_cons.
      unfold in_region at 2. simpl. tauto.
Qed.

Lemma buddy_boot_spec fuel regions s :
  raw s → (length regions ≤ 10)%nat → Forall (region_ok s fuel) regions → NoDup (hand_pages regions) →
  ∃ s' B' L', buddy_boot fuel regions s = Ret ((), s') ∧ inv s' B' L' None ∧
    free_list L' ≡ₚ hand_pages regions.
Proof.
  intros Hr Hlen Hok Hnd. destruct (buddy_init_spec s Hr) as (s1 & E1 & I1 & Hp & Hn & Hb & Hz).
  destruct (memmaps_spec fuel regions s1 ∅ (λ _, [])) as (s' & B' & L' & E & I' & C); try done.
  { intros z _. by rewrite Hb. }
  { rewrite Hz. unfold MAX_ZONE_NUM. lia. }
  { eapply Forall_impl; [done|]. intros r (? & ? & Hr' & ?). split_and!; try done.
    intros p ?. rewrite Hp. by apply Hr'. }
  exists s', B', L'. split_and!; [unfold buddy_boot; by mrun E1|done|].
  apply NoDup_Permutation; [by eapply NoDup_free_list|done|]. intros p.
  rewrite (elem_of_free_list s' B' L' None), C by done. unfold hand_pages. rewrite list_elem_of_bind.
  rewrite Exists_exists. split.
  - intros [(? & ? & Hf & _)|([j m] & ? & ?)]; [by rewrite lookup_empty in Hf|].
    exists (j, m). rewrite elem_of_seqZ. done.
  - intros ([j m] & ?%elem_of_seqZ & ?). right. by exists (j, m).
Qed.

(** A memory of [n] reserved pages, for the concrete runs. *)
Definition blank (n : nat) : pmm :=
  MkPmm (list_to_map ((λ p, (Z.of_nat p, MkPage 0 1 0 0)) <$> seq 0 n))
    (list_to_map (((λ o, (FreeList (Z.of_nat o), ListEntry (FreeList 0) (FreeList 0))) <$> seq 0 11) ++
       ((λ p, (PageLink (Z.of_nat p), ListEntry (FreeList 0) (FreeList 0))) <$> seq 0 n)))
    ∅ ∅ 0 (Z.of_nat n).

Lemma blank_pages n p pg : pages (blank n) !! p = Some pg ↔ 0 ≤ p < Z.of_nat n ∧ pg = MkPage 0 1 0 0.
Proof.
  simpl. rewrite <-elem_of_list_to_map.
  - rewrite list_elem_of_fmap. setoid_rewrite elem_of_seq. split.
    + intros (q & [= -> ->] & Hq). split; [lia|done].
    + intros [Hp ->]. exists (Z.to_nat p). rewrite Z2Nat.id by lia. split; [done|lia].
  - rewrite <-list_fmap_compose. apply NoDup_fmap_2; [intros ???; simpl in *; lia|apply NoDup_seq].
Qed.
Lemma blank_links n a :
  (∃ o, a = FreeList o ∧ 0 ≤ o ≤ 10) ∨ (∃ p, a = PageLink p ∧ 0 ≤ p < Z.of_nat n) →
  is_Some (links (blank n) !! a).
Proof.
  intros Ha. apply not_eq_None_Some. unfold blank. cbn [links]. rewrite <-not_elem_of_list_to_map, fmap_app.
  rewrite <-!list_fmap_compose. intros Hn. apply Hn. apply elem_of_app.
  destruct Ha as [(o & -> & Ho)|(p & -> & Hp)]; [left|right]; apply list_elem_of_fmap.
  - exists (Z.to_nat o). rewrite elem_of_seq. simpl. rewrite Z2Nat.id by lia. split; [done|lia].
  - exists (Z.to_nat p). rewrite elem_of_seq. simpl. rewrite Z2Nat.id by lia. split; [done|lia].
Qed.
Lemma blank_raw n : raw (blank n).
Proof.
  assert (Hnp : ∀ p, is_Some (pages (blank n) !! p) ↔ 0 ≤ p < Z.of_nat n).
  { intros p. split; [intros [pg Hpg]; by apply blank_pages in Hpg as [? _]|].
    intros Hp. exists (MkPage 0 1 0 0). by apply blank_pages. }
  split; try done.
  - intros o Ho. apply blank_links. left. by exists o.
  - intros p Hp%Hnp. apply blank_links. right. by exists p.
  - intros p pg [_ ->]%blank_pages. done.
Qed.
Lemma blank_region n fuel i m :
  0 ≤ i → 0 < m → i + m ≤ Z.of_nat n → (Z.to_nat m + 12 ≤ fuel)%nat → region_ok (blank n) fuel (i, m).
Proof.
  intros. split_and!; simpl; try done. intros p Hp. exists (MkPage 0 1 0 0).
  split; [|done]. apply blank_pages. split; [lia|done].
Qed.

Lemma regions_ok : Forall (region_ok (blank 70) 100) [(3, 40); (50, 20)].
Proof.
  repeat (apply Forall_cons; split); [..|by constructor]; apply blank_region; try lia; decide_now.
Qed.
Lemma regions_nodup : NoDup (hand_pages [(3, 40); (50, 20)]).
Proof. decide_now. Qed.

(** A booted memory of 60 free pages in two zones. *)
Lemma booted : ∃ s B L, buddy_boot 100 [(3, 40); (50, 20)] (blank 70) = Ret ((), s) ∧ inv s B L None ∧
  free_list L ≡ₚ hand_pages [(3, 40); (50, 20)].
Proof.
  apply (buddy_boot_spec 100 [(3, 40); (50, 20)] (blank 70) (blank_raw 70));
    [simpl; lia|apply regions_ok|apply regions_nodup].
Qed.
Lemma booted_holds : ∃ s L, buddy_boot 100 [(3, 40); (50, 20)] (blank 70) = Ret ((), s) ∧ holds s L [].
Proof.
  destruct booted as (s & B & L & E & I & _). exists s, L. split; [done|].
  split; [by exists B|done|]. by eapply NoDup_free_list.
Qed.

(** ** Properties *)

(** C2. For every sequence of requests for 1 to 1024 pages and returns of
    ranges held, the buddy allocator runs without failing an assertion, without
    a bad access and without running out of loop turns, keeps its invariant,
    and neither loses nor duplicates a page: the pages held by the client and
    the free pages together are always the same pages, each exactly once. *)
Theorem buddy_clients_conserve_pages s L hand ops :
  holds s L hand → Forall op_ok ops →
  ∃ s' L' hand', run_ops ops hand s = Ret (hand', s') ∧ holds s' L' hand' ∧
    hand_pages hand' ++ free_list L' ≡ₚ hand_pages hand ++ free_list L.
Proof. apply run_ops_spec. Qed.

Lemma buddy_clients_conserve_pages_witness :
  ∃ s L, buddy_boot 100 [(3, 40); (50, 20)] (blank 70) = Ret ((), s) ∧
  ∃ s' L' hand', run_ops [OpAlloc 5; OpAlloc 16; OpFree 1; OpAlloc 40; OpFree 0] [] s = Ret (hand', s') ∧
    holds s' L' hand' ∧ hand_pages hand' ++ free_list L' ≡ₚ [] ++ free_list L.
Proof.
  destruct booted_holds as (s & L & E & H). exists s, L. split; [exact E|].
  apply (buddy_clients_conserve_pages s L []); [exact H|].
  repeat (apply Forall_cons; split); [simpl; lia..|by constructor].
Defined.

(** C31. buddy_alloc_pages(n) for 1 <= n <= 1024 returns NULL only when no free
    block has n pages, changing nothing; otherwise the pages it returns were
    free, are no longer free, and no other page changes hands. *)
Theorem buddy_alloc_pages_correct s B L n :
  inv s B L None → 0 < n ≤ 2 ^ 10 →
  (buddy_alloc_pages n s = Ret (None, s) ∧ ∀ i o, B !! i = Some o → 2 ^ o < n) ∨
  (∃ i z b s' B' L', buddy_alloc_pages n s = Ret (Some i, s') ∧ inv s' B' L' None ∧
     evolves s s' ∧ owned s' B' z b i n ∧ (∀ p, i ≤ p < i + n → covers B p) ∧
     (∀ p, covers B' p ↔ covers B p ∧ ¬ i ≤ p < i + n)).
Proof. apply alloc_pages_spec. Qed.

Lemma buddy_alloc_pages_correct_witness :
  ∃ s B L, buddy_boot 100 [(3, 40); (50, 20)] (blank 70) = Ret ((), s) ∧ inv s B L None ∧
  ((buddy_alloc_pages 6 s = Ret (None, s) ∧ ∀ i o, B !! i = Some o → 2 ^ o < 6) ∨
  (∃ i z b s' B' L', buddy_alloc_pages 6 s = Ret (Some i, s') ∧ inv s' B' L' None ∧
     evolves s s' ∧ owned s' B' z b i 6 ∧ (∀ p, i ≤ p < i + 6 → covers B p) ∧
     (∀ p, covers B' p ↔ covers B p ∧ ¬ i ≤ p < i + 6))).
Proof.
  destruct booted as (s & B & L & E & I & _). exists s, B, L. split; [exact E|]. split; [exact I|].
  apply (buddy_alloc_pages_correct s B L 6); [exact I|lia].
Defined.

(** C30. buddy_free_pages(base, n) for 1 <= n < 2048 pages of one zone that are
    not free makes exactly these pages free, whatever the alignment of base,
    and keeps the invariant, merging blocks on the way. *)
Theorem buddy_free_pages_correct s B L z b i n :
  inv s B L None → owned s B z b i n → 0 < n < 2 ^ 11 →
  ∃ s' B' L', buddy_free_pages i n s = Ret ((), s') ∧ inv s' B' L' None ∧ evolves s s' ∧
    (∀ p, covers B' p ↔ covers B p ∨ i ≤ p < i + n).
Proof. apply free_pages_spec. Qed.

Lemma buddy_free_pages_correct_witness :
  ∃ s B L z b i, inv s B L None ∧ owned s B z b i 7 ∧
  ∃ s' B' L', buddy_free_pages i 7 s = Ret ((), s') ∧ inv s' B' L' None ∧ evolves s s' ∧
    (∀ p, covers B' p ↔ covers B p ∨ i ≤ p < i + 7).
Proof.
  destruct booted as (s & B & L & E & I & HL).
  destruct (alloc_pages_spec s B L 7 I ltac:(lia)) as
    [[En HB]|(i & z & b & s1 & B1 & L1 & E1 & I1 & Ev & W & _ & _)].
  - exfalso. assert (Hb : match (buddy_boot 100 [(3, 40); (50, 20)];; buddy_alloc_pages 7) (blank 70) with
      | Ret (None, _) => True | _ => False end).
    { erewrite bind_Ret by exact E. rewrite En. constructor. }
    revert Hb. vm_compute. tauto.
  - exists s1, B1, L1, z, b, i. split; [exact I1|]. split; [exact W|].
    apply (buddy_free_pages_correct s1 B1 L1 z b i 7); [exact I1|exact W|lia].
Defined.

(** buddy_init followed by buddy_init_memmap on at most ten disjoint
    regions of reserved pages leaves exactly the pages of the regions free. *)
Theorem buddy_boot_correct fuel regions s :
  raw s → (length regions ≤ 10)%nat → Forall (region_ok s fuel) regions → NoDup (hand_pages regions) →
  ∃ s' B' L', buddy_boot fuel regions s = Ret ((), s') ∧ inv s' B' L' None ∧
    free_list L' ≡ₚ hand_pages regions.
Proof. apply buddy_boot_spec. Qed.

Lemma buddy_boot_correct_witness :
  ∃ s' B' L', buddy_boot 100 [(3, 40); (50, 20)] (blank 70) = Ret ((), s') ∧ inv s' B' L' None ∧
    free_list L' ≡ₚ hand_pages [(3, 40); (50, 20)].
Proof.
  apply (buddy_boot_correct 100 [(3, 40); (50, 20)] (blank 70));
    [apply blank_raw|simpl; lia|apply regions_ok|apply regions_nodup].
Defined.

(** buddy_nr_free_pages returns the number of free pages (as a size_t),
    and no page is counted twice. *)
Theorem buddy_nr_free_pages_correct s B L :
  inv s B L None →
  buddy_nr_free_pages s = Ret (u32 (Z.of_nat (length (free_list L))), s) ∧
  NoDup (free_list L) ∧ ∀ p, p ∈ free_list L ↔ covers B p.
Proof.
  intros Hi. split_and!; [by eapply nr_free_pages_spec|by eapply NoDup_free_list|].
  intros p. by eapply elem_of_free_list.
Qed.

Lemma buddy_nr_free_pages_correct_witness :
  ∃ s B L, buddy_nr_free_pages s = Ret (u32 (Z.of_nat (length (free_list L))), s) ∧
    NoDup (free_list L) ∧ ∀ p, p ∈ free_list L ↔ covers B p.
Proof.
  destruct booted as (s & B & L & E & I & HL). exists s, B, L.
  apply (buddy_nr_free_pages_correct s B L). exact I.
Defined.

(** The allocator's own check passes on the booted memory. *)
Example buddy_check_passes :
  match (buddy_boot 100 [(3, 40); (50, 20)];; buddy_check 100;; buddy_nr_free_pages) (blank 70) with
  | Ret (r, _) => r = 60 | _ => False end.
Proof. vm_compute. reflexivity. Qed.
