(* ===== verification/Mmu.v ===== *)
(** * Memory layout and address arithmetic of the two architectures

    arch/x86/include/mmu.h and pmm.h, arch/arm/include/mmu.h and pmm.h, the
    memlayout.h of the two machines.  Addresses are 32-bit numbers; a struct
    Page pointer is its index in the array pages, as in Buddy. *)
From stdpp Require Import base list.
From Stdlib Require Import ZArith Lia.
From S2P Require Import Prelude Bits.

Definition PGSIZE : Z := 4096.
Definition PGSHIFT : Z := 12.

(** ** x86 *)
Definition KERNBASE : Z := 0xC0000000.
Definition KMEMSIZE : Z := 0x38000000.
Definition KERNTOP : Z := KERNBASE + KMEMSIZE.
Definition VPT : Z := 0xFAC00000.
Definition KSTACKPAGE : Z := 2.
Definition KSTACKSIZE : Z := KSTACKPAGE * PGSIZE.
Definition USERTOP : Z := 0xB0000000.
Definition USERBASE : Z := 0x00200000.
Definition USER_ACCESS (start end_ : Z) : bool :=
  bool_decide (USERBASE ≤ start) && bool_decide (start < end_) && bool_decide (end_ ≤ USERTOP).
Definition KERN_ACCESS (start end_ : Z) : bool :=
  bool_decide (KERNBASE ≤ start) && bool_decide (start < end_) && bool_decide (end_ ≤ KERNTOP).

Definition PTXSHIFT : Z := 12.
Definition PDXSHIFT : Z := 22.
Definition NPDEENTRY : Z := 1024.
Definition NPTEENTRY : Z := 1024.
Definition PTSIZE : Z := PGSIZE * NPTEENTRY.
Definition PTE_P : Z := 0x001.
Definition PTE_W : Z := 0x002.
Definition PTE_U : Z := 0x004.
Definition PTE_USER : Z := Z.lor (Z.lor PTE_U PTE_W) PTE_P.
Definition FL_IF : Z := 0x200.
(** Segments and their selectors: memlayout.h *)
Definition SEG_KTEXT : Z := 1.
Definition SEG_KDATA : Z := 2.
Definition SEG_UTEXT : Z := 3.
Definition SEG_UDATA : Z := 4.
Definition SEG_TSS : Z := 5.
Definition GD_KTEXT : Z := Z.shiftl SEG_KTEXT 3.
Definition GD_KDATA : Z := Z.shiftl SEG_KDATA 3.
Definition GD_UTEXT : Z := Z.shiftl SEG_UTEXT 3.
Definition GD_UDATA : Z := Z.shiftl SEG_UDATA 3.
Definition GD_TSS : Z := Z.shiftl SEG_TSS 3.
Definition DPL_KERNEL : Z := 0.
Definition DPL_USER : Z := 3.
Definition KERNEL_CS : Z := Z.lor GD_KTEXT DPL_KERNEL.
Definition KERNEL_DS : Z := Z.lor GD_KDATA DPL_KERNEL.
Definition USER_CS : Z := Z.lor GD_UTEXT DPL_USER.
Definition USER_DS : Z := Z.lor GD_UDATA DPL_USER.

Definition PDX (la : Z) : Z := Z.land (Z.shiftr la PDXSHIFT) 0x3FF.
Definition PTX (la : Z) : Z := Z.land (Z.shiftr la PTXSHIFT) 0x3FF.
Definition PPN (la : Z) : Z := Z.shiftr la PTXSHIFT.
Definition PGOFF (la : Z) : Z := Z.land la 0xFFF.
Definition PGADDR (d t o : Z) : Z :=
  u32 (Z.lor (Z.lor (Z.shiftl d PDXSHIFT) (Z.shiftl t PTXSHIFT)) o).
Definition PTE_ADDR (pte : Z) : Z := Z.land pte (u32 (Z.lnot 0xFFF)).
Definition PDE_ADDR (pde : Z) : Z := PTE_ADDR pde.

Section Conversions.
Context {S : Type}.

Definition PADDR (kva : Z) : M S Z :=
  if bool_decide (kva < KERNBASE) then panic else mret (kva - KERNBASE).
Definition KADDR (npage pa : Z) : M S Z :=
  if bool_decide (PPN pa >= npage) then panic else mret (u32 (pa + KERNBASE)).
Definition page2pa (page : Z) : Z := u32 (Z.shiftl page PGSHIFT).
Definition pa2page (npage pa : Z) : M S Z :=
  if bool_decide (PPN pa >= npage) then panic else mret (PPN pa).
Definition page2kva (npage page : Z) : M S Z := KADDR npage (page2pa page).
Definition kva2page (npage kva : Z) : M S Z := pa ← PADDR kva; pa2page npage pa.
Definition pte2page (npage pte : Z) : M S Z :=
  if bool_decide (Z.land pte PTE_P = 0) then panic else pa2page npage (PTE_ADDR pte).
Definition pde2page (npage pde : Z) : M S Z := pa2page npage (PDE_ADDR pde).
End Conversions.

(** ** Descriptors *)
Record gatedesc : Type := MkGate {
  gd_off_15_0 : Z; gd_ss : Z; gd_args : Z; gd_rsv1 : Z; gd_type : Z; gd_s : Z; gd_dpl : Z; gd_p : Z;
  gd_off_31_16 : Z }.
Definition STS_IG32 : Z := 0xE.
Definition STS_TG32 : Z := 0xF.
Definition STS_CG32 : Z := 0xC.
Definition STS_T32A : Z := 0x9.
(** A bit field of [w] bits keeps the low bits of what is stored. *)
Definition field (w v : Z) : Z := v mod 2 ^ w.
Definition SETGATE (istrap : bool) (ss off dpl : Z) : gatedesc :=
  MkGate (Z.land off 0xffff) (field 16 ss) 0 0 (if istrap then STS_TG32 else STS_IG32) 0
    (field 2 dpl) 1 (Z.shiftr off 16).
Definition SETCALLGATE (ss off dpl : Z) : gatedesc :=
  MkGate (Z.land off 0xffff) (field 16 ss) 0 0 STS_CG32 0 (field 2 dpl) 1 (Z.shiftr off 16).

Record segdesc : Type := MkSeg {
  sd_lim_15_0 : Z; sd_base_15_0 : Z; sd_base_23_16 : Z; sd_type : Z; sd_s : Z; sd_dpl : Z; sd_p : Z;
  sd_lim_19_16 : Z; sd_avl : Z; sd_rsv1 : Z; sd_db : Z; sd_g : Z; sd_base_31_24 : Z }.
Definition SEG_NULL : segdesc := MkSeg 0 0 0 0 0 0 0 0 0 0 0 0 0.
Definition SEG (type base lim dpl : Z) : segdesc :=
  MkSeg (Z.land (Z.shiftr lim 12) 0xffff) (Z.land base 0xffff) (Z.land (Z.shiftr base 16) 0xff)
    (field 4 type) 1 (field 2 dpl) 1 (Z.shiftr lim 28) 0 0 1 1 (Z.shiftr base 24).
Definition SEGTSS (type base lim dpl : Z) : segdesc :=
  MkSeg (Z.land lim 0xffff) (Z.land base 0xffff) (Z.land (Z.shiftr base 16) 0xff)
    (field 4 type) 0 (field 2 dpl) 1 (field 4 (Z.shiftr lim 16)) 0 0 1 0 (Z.shiftr base 24).

(** ** ARM *)
Module Arm.
Definition PTXSHIFT : Z := 12.
Definition PDXSHIFT : Z := 20.
Definition NPDEENTRY : Z := 4096.
Definition NPTEENTRY : Z := 256.
Definition PTSIZE : Z := PGSIZE * NPTEENTRY.
Definition PDX (la : Z) : Z := Z.land (Z.shiftr la PDXSHIFT) 0xFFF.
Definition PTX (la : Z) : Z := Z.land (Z.shiftr la PTXSHIFT) 0xFF.
Definition PPN (la : Z) : Z := Z.shiftr la PGSHIFT.
Definition PGOFF (la : Z) : Z := Z.land la 0xFFF.
Definition PGADDR (d t o : Z) : Z :=
  u32 (Z.lor (Z.lor (Z.shiftl d PDXSHIFT) (Z.shiftl t PTXSHIFT)) o).
Definition PTE_ADDR (pte : Z) : Z := Z.land pte (u32 (Z.lnot 0xFFF)).
Definition PDE_ADDR (pde : Z) : Z := Z.land pde (u32 (Z.lnot 0x3FF)).
End Arm.

(** ** What the processor reads out of a descriptor *)
Definition gate_offset (g : gatedesc) : Z := Z.lor (Z.shiftl (gd_off_31_16 g) 16) (gd_off_15_0 g).
Definition seg_base (d : segdesc) : Z :=
  Z.lor (Z.lor (Z.shiftl (sd_base_31_24 d) 24) (Z.shiftl (sd_base_23_16 d) 16)) (sd_base_15_0 d).
(** The 20-bit limit counts pages when the G bit is set. *)
Definition seg_limit (d : segdesc) : Z :=
  let l := Z.lor (Z.shiftl (sd_lim_19_16 d) 16) (sd_lim_15_0 d) in
  if bool_decide (sd_g d = 1) then Z.lor (Z.shiftl l 12) 0xFFF else l.

(** ** Lemmas *)
Lemma lor_add a b k : 0 ≤ k → 0 ≤ b < 2 ^ k → Z.lor (Z.shiftl a k) b = a * 2 ^ k + b.
Proof.
  intros Hk Hb. rewrite <-Z.shiftl_mul_pow2 by done.
  assert (Z.land (Z.shiftl a k) b = 0).
  { apply Z.bits_inj'. intros j Hj. rewrite Z.land_spec, Z.bits_0, Z.shiftl_spec by done.
    destruct (decide (j < k)); [by rewrite Z.testbit_neg_r by lia|].
    replace b with (b mod 2 ^ k) by (apply Z.mod_small; lia).
    rewrite Z.mod_pow2_bits_high by lia. apply andb_false_r. }
  rewrite <-Z.lxor_lor by done. by rewrite Z.add_nocarry_lxor.
Qed.
Lemma land_mask a k : 0 ≤ k → Z.land a (2 ^ k - 1) = a mod 2 ^ k.
Proof. intros. rewrite <-Z.land_ones by done. by rewrite Z.ones_equiv. Qed.
Lemma PDX_div la : PDX la = la / 2 ^ 22 mod 2 ^ 10.
Proof. unfold PDX, PDXSHIFT. change 0x3FF with (2 ^ 10 - 1). by rewrite land_mask, Z.shiftr_div_pow2 by lia. Qed.
Lemma PTX_div la : PTX la = la / 2 ^ 12 mod 2 ^ 10.
Proof. unfold PTX, PTXSHIFT. change 0x3FF with (2 ^ 10 - 1). by rewrite land_mask, Z.shiftr_div_pow2 by lia. Qed.
Lemma PPN_div la : PPN la = la / 2 ^ 12.
Proof. unfold PPN, PTXSHIFT. by rewrite Z.shiftr_div_pow2. Qed.
Lemma PGOFF_mod la : PGOFF la = la mod 2 ^ 12.
Proof. unfold PGOFF. change 0xFFF with (2 ^ 12 - 1). by rewrite land_mask. Qed.
Lemma PGADDR_sum d t o :
  0 ≤ d < 2 ^ 10 → 0 ≤ t < 2 ^ 10 → 0 ≤ o < 2 ^ 12 → PGADDR d t o = d * 2 ^ 22 + t * 2 ^ 12 + o.
Proof.
  intros Hd Ht Ho. unfold PGADDR, PDXSHIFT, PTXSHIFT. rewrite <-Z.lor_assoc.
  rewrite (lor_add t o 12), lor_add by lia. rewrite u32_small by (unfold is_u32; lia). lia.
Qed.
Lemma PTE_ADDR_spec pte : is_u32 pte → PTE_ADDR pte = pte - pte mod 2 ^ 12.
Proof.
  intros Hp. unfold PTE_ADDR, is_u32 in *. transitivity (Z.land pte (Z.lnot (2 ^ 12 - 1))).
  - apply Z.bits_inj'. intros j Hj. rewrite !Z.land_spec, u32_testbit by done.
    destruct (decide (j < 32)); [by rewrite (bool_decide_true (j < 32)) by done|].
    replace pte with (pte mod 2 ^ 32) by (apply Z.mod_small; lia).
    by rewrite Z.mod_pow2_bits_high by lia.
  - change (2 ^ 12 - 1) with (Z.ones 12). rewrite <-Z.ldiff_land, Z.ldiff_ones_r by lia.
    rewrite Z.shiftl_mul_pow2, Z.shiftr_div_pow2 by lia.
    pose proof (Z.div_mod pte (2 ^ 12) ltac:(lia)). lia.
Qed.
Lemma digits3 la a b : 0 < a → 0 < b → la = (la / (a * b)) * (a * b) + (la / b mod a) * b + la mod b.
Proof.
  intros Ha Hb. pose proof (Z.div_mod la b ltac:(lia)). pose proof (Z.div_mod (la / b) a ltac:(lia)).
  rewrite (Z.mul_comm a b), <-Z.div_div by lia. nia.
Qed.

Lemma page_kva_run {S} (s : S) npage page :
  0 ≤ page < npage → npage ≤ KMEMSIZE / PGSIZE →
  page2kva npage page s = Ret (KERNBASE + page * PGSIZE, s) ∧
  kva2page npage (KERNBASE + page * PGSIZE) s = Ret (page, s).
Proof.
  intros Hp Hn. unfold KMEMSIZE in Hn. change (0x38000000 / PGSIZE) with 229376 in Hn.
  assert (Hpa : page2pa page = page * PGSIZE).
  { unfold page2pa, PGSHIFT. rewrite Z.shiftl_mul_pow2 by lia. unfold PGSIZE.
    apply u32_small. unfold is_u32. lia. }
  assert (Hppn : PPN (page * PGSIZE) = page).
  { rewrite PPN_div. unfold PGSIZE. change (2 ^ 12) with 4096. by rewrite Z.div_mul. }
  unfold page2kva, kva2page, KADDR, PADDR, pa2page. rewrite Hpa, Hppn.
  rewrite (bool_decide_false (page >= npage)) by lia. unfold PGSIZE, KERNBASE in *. split.
  - rewrite u32_small by (unfold is_u32; lia). unfold mret, M_ret. do 2 f_equal. lia.
  - rewrite (bool_decide_false (_ < _)) by lia. rewrite bind_mret.
    replace (0xC0000000 + page * 4096 - 0xC0000000) with (page * 4096) by lia.
    rewrite Hppn. by rewrite (bool_decide_false (page >= npage)) by lia.
Qed.

(** ** Properties *)

(** On both architectures PGADDR puts the page directory index, the page
    table index and the offset of an address together again, and takes
    indices in range apart; on x86 page2kva and kva2page are inverse on every
    page of physical memory and do not panic. *)
Theorem address_roundtrips la d t o {S} (s : S) npage page :
  is_u32 la → 0 ≤ d < 2 ^ 10 → 0 ≤ t < 2 ^ 10 → 0 ≤ o < 2 ^ 12 →
  0 ≤ page < npage → npage ≤ KMEMSIZE / PGSIZE →
  PGADDR (PDX la) (PTX la) (PGOFF la) = la ∧
  PDX (PGADDR d t o) = d ∧ PTX (PGADDR d t o) = t ∧ PGOFF (PGADDR d t o) = o ∧
  Arm.PGADDR (Arm.PDX la) (Arm.PTX la) (Arm.PGOFF la) = la ∧
  (page2kva npage page ≫= kva2page npage) s = Ret (page, s).
Proof.
  intros Hla Hd Ht Ho Hp Hn. unfold is_u32 in Hla.
  assert (Hmod : ∀ a k, 0 ≤ k → 0 ≤ a mod 2 ^ k < 2 ^ k) by (intros; apply Z.mod_pos_bound; lia).
  split_and!.
  - rewrite PGADDR_sum, PDX_div, PTX_div, PGOFF_mod; rewrite ?PDX_div, ?PTX_div, ?PGOFF_mod; try (apply Hmod; lia).
    rewrite (Z.mod_small (la / 2 ^ 22)) by (split; [apply Z.div_pos; lia|apply Z.div_lt_upper_bound; lia]).
    symmetry. apply (digits3 la (2 ^ 10) (2 ^ 12)); lia.
  - rewrite PGADDR_sum, PDX_div by done. replace (_ + o) with ((t * 2 ^ 12 + o) + d * 2 ^ 22) by lia.
    rewrite Z.div_add, Z.div_small by lia. apply Z.mod_small. lia.
  - rewrite PGADDR_sum, PTX_div by done. replace (_ + o) with (o + (d * 2 ^ 10 + t) * 2 ^ 12) by lia.
    rewrite Z.div_add, Z.div_small, Z.add_0_l by lia. rewrite Z.add_comm, Z.mod_add by lia. by apply Z.mod_small.
  - rewrite PGADDR_sum, PGOFF_mod by done. replace (_ + o) with (o + (d * 2 ^ 10 + t) * 2 ^ 12) by lia.
    rewrite Z.mod_add by lia. by apply Z.mod_small.
  - unfold Arm.PGADDR, Arm.PDX, Arm.PTX, Arm.PGOFF, Arm.PDXSHIFT, Arm.PTXSHIFT.
    change 0xFFF with (2 ^ 12 - 1). change 0xFF with (2 ^ 8 - 1). rewrite !land_mask by lia.
    rewrite !Z.shiftr_div_pow2 by lia.
    pose proof (Hmod la 12 ltac:(lia)). pose proof (Hmod (la / 2 ^ 12) 8 ltac:(lia)).
    rewrite <-Z.lor_assoc, (lor_add _ (la mod 2 ^ 12) 12), lor_add by lia.
    rewrite (Z.mod_small (la / 2 ^ 20)) by (split; [apply Z.div_pos; lia|apply Z.div_lt_upper_bound; lia]).
    pose proof (digits3 la (2 ^ 8) (2 ^ 12) ltac:(lia) ltac:(lia)) as Hd3.
    change (2 ^ 8 * 2 ^ 12) with (2 ^ 20) in Hd3. rewrite u32_small; unfold is_u32; lia.
  - destruct (page_kva_run s npage page Hp Hn) as [E1 E2]. by mrun E1.
Qed.

Lemma address_roundtrips_witness :
  PGADDR (PDX 0xC0123456) (PTX 0xC0123456) (PGOFF 0xC0123456) = 0xC0123456 ∧
  PDX (PGADDR 768 291 1110) = 768 ∧ PTX (PGADDR 768 291 1110) = 291 ∧ PGOFF (PGADDR 768 291 1110) = 1110 ∧
  Arm.PGADDR (Arm.PDX 0xC0123456) (Arm.PTX 0xC0123456) (Arm.PGOFF 0xC0123456) = 0xC0123456 ∧
  (page2kva 1000 7 ≫= kva2page 1000) () = Ret (7, ()).
Proof.
  apply (address_roundtrips 0xC0123456 768 291 1110 () 1000 7); unfold is_u32; try lia.
  vm_compute. intros H. discriminate H.
Defined.

Lemma halves a : Z.lor (Z.shiftl (Z.shiftr a 16) 16) (Z.land a 0xffff) = a.
Proof.
  change 0xffff with (2 ^ 16 - 1). rewrite land_mask, lor_add, Z.shiftr_div_pow2 by (try (apply Z.mod_pos_bound; lia); lia).
  pose proof (Z.div_mod a (2 ^ 16) ltac:(lia)). lia.
Qed.

(** The processor reads the handler's address out of a gate made by
    SETGATE and SETCALLGATE, the base out of a segment descriptor made by SEG
    and SEGTSS, and as limit the given one rounded up to a page (SEG) or the
    given one (SEGTSS, limits below 1 MB). *)
Theorem descriptors_roundtrip istrap ss off dpl type base lim :
  is_u32 off → is_u32 base → is_u32 lim →
  gate_offset (SETGATE istrap ss off dpl) = off ∧
  gate_offset (SETCALLGATE ss off dpl) = off ∧
  seg_base (SEG type base lim dpl) = base ∧ seg_base (SEGTSS type base lim dpl) = base ∧
  seg_limit (SEG type base lim dpl) = lim - lim mod PGSIZE + (PGSIZE - 1) ∧
  (lim < 2 ^ 20 → seg_limit (SEGTSS type base lim dpl) = lim).
Proof.
  intros Hoff Hbase Hlim. unfold is_u32 in *.
  assert (Hmod : ∀ a k, 0 ≤ k → 0 ≤ a mod 2 ^ k < 2 ^ k) by (intros; apply Z.mod_pos_bound; lia).
  pose proof halves as Hlo.
  assert (Hb : Z.lor (Z.lor (Z.shiftl (Z.shiftr base 24) 24) (Z.shiftl (Z.land (Z.shiftr base 16) 0xff) 16))
                 (Z.land base 0xffff) = base).
  { change 0xff with (2 ^ 8 - 1). change 0xffff with (2 ^ 16 - 1). rewrite !land_mask by lia.
    rewrite <-Z.lor_assoc, (lor_add _ (base mod _) 16) by (try apply Hmod; lia).
    rewrite !Z.shiftr_div_pow2 by lia. pose proof (Hmod (base / 2 ^ 16) 8). pose proof (Hmod base 16).
    rewrite lor_add by lia. pose proof (digits3 base (2 ^ 8) (2 ^ 16) ltac:(lia) ltac:(lia)) as Hd3.
    change (2 ^ 8 * 2 ^ 16) with (2 ^ 24) in Hd3. lia. }
  split_and!; [exact (Hlo off)|exact (Hlo off)|exact Hb|exact Hb|..].
  - unfold seg_limit. cbn [SEG sd_g sd_lim_19_16 sd_lim_15_0]. rewrite bool_decide_true by done.
    replace (Z.shiftr lim 28) with (Z.shiftr (Z.shiftr lim 12) 16) by (by rewrite Z.shiftr_shiftr).
    rewrite Hlo, lor_add, Z.shiftr_div_pow2 by lia. unfold PGSIZE.
    pose proof (Z.div_mod lim (2 ^ 12) ltac:(lia)). change (2 ^ 12) with 4096 in *. lia.
  - intros Hl. unfold seg_limit. cbn [SEGTSS sd_g sd_lim_19_16 sd_lim_15_0].
    rewrite bool_decide_false by done. unfold field. rewrite (Z.mod_small (Z.shiftr lim 16)); [apply Hlo|].
    rewrite Z.shiftr_div_pow2 by lia. split; [apply Z.div_pos; lia|apply Z.div_lt_upper_bound; lia].
Qed.

Lemma descriptors_roundtrip_witness :
  gate_offset (SETGATE false 8 0xC0101234 0) = 0xC0101234 ∧
  gate_offset (SETCALLGATE 8 0xC0101234 0) = 0xC0101234 ∧
  seg_base (SEG 10 0 0xFFFFFFFF 3) = 0 ∧ seg_base (SEGTSS 10 0 0xFFFFFFFF 3) = 0 ∧
  seg_limit (SEG 10 0 0xFFFFFFFF 3) = 0xFFFFFFFF - 0xFFFFFFFF mod PGSIZE + (PGSIZE - 1) ∧
  (0xFFFFFFFF < 2 ^ 20 → seg_limit (SEGTSS 10 0 0xFFFFFFFF 3) = 0xFFFFFFFF).
Proof.
  destruct (descriptors_roundtrip false 8 0xC0101234 0 10 0 0xFFFFFFFF) as (H1 & H2 & _); [unfold is_u32; lia..|].
  destruct (descriptors_roundtrip false 8 0xC0101234 3 10 0 0xFFFFFFFF) as (_ & _ & H3 & H4 & H5 & H6);
    [unfold is_u32; lia..|].
  split; [exact H1|]. split; [exact H2|]. split; [exact H3|]. split; [exact H4|]. split; [exact H5|exact H6].
Defined.
