(* ===== verification/Alloc.v ===== *)
(** * The allocators as interfaces

    What the rest of the kernel relies on of alloc_pages/free_pages (pmm.c, a
    pmm_manager) and of kmalloc/kfree (slab.c).  The buddy allocator implements
    the first interface. *)
From stdpp Require Import base gmap list fin_maps.
From Stdlib Require Import ZArith Lia.
From S2P Require Import Prelude DList Bits Buddy BuddyInv BuddyProps BuddyInit BuddySpec.

(** [held a R]: [R] are the ranges of pages handed out and not yet given back. *)
Class PageAllocator {A} (alloc_pages : Z → M A (option Z)) (free_pages : Z → Z → M A unit)
    (np : Z) (held : A → list (Z * Z) → Prop) : Prop := {
  pa_alloc a R n : held a R → 0 < n ≤ 2 ^ 10 → ∃ r a', alloc_pages n a = Ret (r, a') ∧
    held a' (match r with Some i => (i, n) :: R | None => R end);
  pa_free a R i n : held a ((i, n) :: R) → ∃ a', free_pages i n a = Ret ((), a') ∧ held a' R;
  pa_nodup a R : held a R → NoDup (hand_pages R);
  pa_range a R i n : held a R → (i, n) ∈ R → 0 ≤ i ∧ i + n ≤ np }.

(** [live a O]: [O] are the addresses of the objects allocated.  kmalloc serves
    sizes from 1 to 128 KB. *)
Definition KMALLOC_MAX : Z := 2 ^ 17.

Class ObjectAllocator {A} (kmalloc : Z → M A Z) (kfree : Z → M A unit)
    (live : A → gset Z → Prop) : Prop := {
  oa_kmalloc a O n : live a O → 0 < n ≤ KMALLOC_MAX → ∃ p a', kmalloc n a = Ret (p, a') ∧
    (p = 0 ∧ live a' O ∨ p ≠ 0 ∧ p ∉ O ∧ live a' ({[p]} ∪ O));
  oa_kfree a O p : live a O → p ∈ O → ∃ a', kfree p a = Ret ((), a') ∧ live a' (O ∖ {[p]}) }.

(** Both on one memory. *)
Class KernelAlloc {A} (kmalloc : Z → M A Z) (kfree : Z → M A unit)
    (alloc_pages : Z → M A (option Z)) (free_pages : Z → Z → M A unit)
    (np : Z) (mem : A → gset Z → list (Z * Z) → Prop) : Prop := {
  ka_pages O :: PageAllocator alloc_pages free_pages np (λ a R, mem a O R);
  ka_objects R :: ObjectAllocator kmalloc kfree (λ a O, mem a O R) }.

(** ** The buddy allocator is a page allocator *)
Definition buddy_held (np : Z) (s : pmm) (R : list (Z * Z)) : Prop :=
  npage s = np ∧ ∃ L, holds s L R.

Lemma holdable_range s B L i n : inv s B L None → holdable s (i, n) → 0 ≤ i ∧ i + n ≤ npage s.
Proof.
  intros Hi [Hn (z & b & Hb & Hle & Hz)]. simpl in *.
  destruct (Hz i) as (pg & Hpg & _); [lia|]. destruct (Hz (i + n - 1)) as (pg' & Hpg' & _); [lia|].
  assert (is_Some (pages s !! i)) as H1 by by eexists. assert (is_Some (pages s !! (i + n - 1))) as H2 by by eexists.
  apply (inv_npage _ _ _ _ Hi) in H1, H2. lia.
Qed.

Lemma alloc_pages_npage s B L n r s' :
  inv s B L None → 0 < n ≤ 2 ^ 10 → buddy_alloc_pages n s = Ret (r, s') → npage s' = npage s.
Proof.
  intros Hi Hn E. destruct (alloc_pages_spec s B L n Hi Hn) as
    [[E' _]|(i & z & b & s1 & B1 & L1 & E' & _ & Ev & _)]; rewrite E' in E; injection E as <- <-; [done|].
  apply (ev_npage _ _ Ev).
Qed.

#[export] Instance buddy_page_allocator np :
  PageAllocator buddy_alloc_pages buddy_free_pages np (buddy_held np).
Proof.
  split.
  - intros s R n [Hnp [L H]] Hn. destruct (run_op_spec s L R (OpAlloc n) H Hn) as (s' & L' & R' & E & H' & _).
    unfold run_op in E. apply bind_inv in E as (r & s1 & E & E1). injection E1 as <- <-.
    exists r, s1. split; [done|]. destruct H as [[B HB] _ _]. split; [|by exists L'].
    rewrite <-Hnp. by eapply alloc_pages_npage.
  - intros s R i n [Hnp [L H]]. destruct (run_op_spec s L ((i, n) :: R) (OpFree 0) H I) as (s' & L' & R' & E & H' & _).
    unfold run_op in E. simpl in E. pose proof E as E0. apply bind_inv in E as (r & s1 & E & E1).
    injection E1 as <- <-. destruct r. exists s1. split; [done|]. split; [|by exists L'].
    rewrite <-Hnp. destruct H as [[B HB] Hr Hnd]. apply Forall_cons in Hr as [[Hn (z & b & Hb & Hle & Hz)] _].
    destruct (free_pages_spec s B L z b i n HB) as (s2 & B2 & L2 & E2 & _ & Ev & _).
    + split; try done. intros p Hp Hc. unfold hand_pages in Hnd. csimpl in Hnd.
      rewrite <-app_assoc in Hnd. apply NoDup_app in Hnd as (_ & Hd & _).
      apply (Hd p); [by apply elem_of_seqZ|]. apply elem_of_app. right. by eapply elem_of_free_list.
    + simpl in Hn. lia.
    + rewrite E2 in E. injection E as <-. apply (ev_npage _ _ Ev).
  - intros s R [_ [L [_ _ Hnd]]]. by apply NoDup_app in Hnd as [? _].
  - intros s R i n [<- [L [[B HB] Hr _]]] Hin. eapply holdable_range; [done|].
    by eapply Forall_forall in Hr.
Qed.

(** ** An object allocator and a page allocator side by side *)
Section Pair.
Context {A1 A2 : Type} {kmalloc : Z → M A1 Z} {kfree : Z → M A1 unit} {live : A1 → gset Z → Prop}.
Context {alloc_pages : Z → M A2 (option Z)} {free_pages : Z → Z → M A2 unit} {np : Z}.
Context {held : A2 → list (Z * Z) → Prop}.
Context `{!ObjectAllocator kmalloc kfree live} `{!PageAllocator alloc_pages free_pages np held}.

Definition fst_lens : lens (A1 * A2) A1 := Lens fst (λ a s, (a, s.2)).
Definition snd_lens : lens (A1 * A2) A2 := Lens snd (λ a s, (s.1, a)).

#[export] Instance pair_kernel_alloc :
  KernelAlloc (λ n, zoom fst_lens (kmalloc n)) (λ p, zoom fst_lens (kfree p))
    (λ n, zoom snd_lens (alloc_pages n)) (λ i n, zoom snd_lens (free_pages i n)) np
    (λ s O R, live s.1 O ∧ held s.2 R).
Proof.
  split.
  - intros O. split.
    + intros [a1 a2] R n [Hl Hh] Hn. destruct (pa_alloc a2 R n Hh Hn) as (r & a' & E & H').
      exists r, (a1, a'). split; [by apply (zoom_Ret snd_lens)|done].
    + intros [a1 a2] R i n [Hl Hh]. destruct (pa_free a2 R i n Hh) as (a' & E & H').
      exists (a1, a'). split; [by apply (zoom_Ret snd_lens)|done].
    + intros [a1 a2] R [_ Hh]. by eapply pa_nodup.
    + intros [a1 a2] R i n [_ Hh]. exact (pa_range a2 R i n Hh).
  - intros R. split.
    + intros [a1 a2] O n [Hl Hh] Hn. destruct (oa_kmalloc a1 O n Hl Hn) as (p & a' & E & H').
      exists p, (a', a2). split; [by apply (zoom_Ret fst_lens)|naive_solver].
    + intros [a1 a2] O p [Hl Hh] Hp. destruct (oa_kfree a1 O p Hl Hp) as (a' & E & H').
      exists (a', a2). split; [by apply (zoom_Ret fst_lens)|done].
Qed.
End Pair.
