(* ===== verification/Cpu.v ===== *)
(** * The processor: arch/x86/include/x86.h, the descriptors and registers of
    arch/x86/pmm.c, and the page manager behind the interrupt mask

    The registers that the instructions of x86.h read and write, the global
    descriptor table and the task state that gdt_init loads, enable_paging, and
    alloc_pages, free_pages and nr_free_pages, which call the pmm_manager with
    interrupts off. *)
From stdpp Require Import base gmap list fin_maps.
From Stdlib Require Import ZArith Lia.
From S2P Require Import Prelude DList Bits Printfmt Mmu Buddy BuddySpec Alloc.

Record x86_cpu : Type := MkX86 {
  gdtr : Z * Z; (* limit, base *)
  cs : Z; ds : Z; es : Z; fs : Z; gs : Z; ss : Z; tr : Z;
  cr0 : Z; cr2 : Z; cr3 : Z; eflags : Z; dr : gmap Z Z }.

(** struct taskstate: the fields in order, without the paddings. *)
Record taskstate : Type := MkTs {
  ts_link : Z; ts_esp0 : Z; ts_ss0 : Z; ts_esp1 : Z; ts_ss1 : Z; ts_esp2 : Z; ts_ss2 : Z;
  ts_cr3 : Z; ts_eip : Z; ts_eflags : Z; ts_eax : Z; ts_ecx : Z; ts_edx : Z; ts_ebx : Z;
  ts_esp : Z; ts_ebp : Z; ts_esi : Z; ts_edi : Z; ts_es : Z; ts_cs : Z; ts_ss : Z; ts_ds : Z;
  ts_fs : Z; ts_gs : Z; ts_ldt : Z; ts_t : Z; ts_iomb : Z }.
Definition sizeof_taskstate : Z := 104.

(** struct pmm_manager of kern/include/pmm.h. *)
Record pmm_manager {A : Type} : Type := MkManager {
  pm_name : list Z;
  pm_init : M A unit;
  pm_init_memmap : Z → Z → M A unit;
  pm_alloc_pages : Z → M A (option Z);
  pm_free_pages : Z → Z → M A unit;
  pm_nr_free_pages : M A Z;
  pm_check : M A unit }.
Arguments pmm_manager : clear implicits.

(** The statics of pmm.c that these functions use, and the state of the manager. *)
Record pc {A : Type} : Type := MkPc {
  cpu : x86_cpu; ts : taskstate; gdt : list segdesc; manager : option (pmm_manager A); pages_of : A }.
Arguments pc : clear implicits.

(** ** mmu.h *)
Definition STA_X : Z := 0x8.
Definition STA_W : Z := 0x2.
Definition STA_R : Z := 0x2.
Definition STS_T32B : Z := 0xB.
Definition CR0_PE : Z := 0x00000001.
Definition CR0_MP : Z := 0x00000002.
Definition CR0_EM : Z := 0x00000004.
Definition CR0_TS : Z := 0x00000008.
Definition CR0_NE : Z := 0x00000020.
Definition CR0_WP : Z := 0x00010000.
Definition CR0_AM : Z := 0x00040000.
Definition CR0_PG : Z := 0x80000000.

(** The global descriptor table as pmm.c initialises it. *)
Definition gdt_static : list segdesc :=
  [SEG_NULL; SEG (Z.lor STA_X STA_R) 0 0xFFFFFFFF DPL_KERNEL; SEG STA_W 0 0xFFFFFFFF DPL_KERNEL;
   SEG (Z.lor STA_X STA_R) 0 0xFFFFFFFF DPL_USER; SEG STA_W 0 0xFFFFFFFF DPL_USER; SEG_NULL].
(** sizeof(gdt) - 1 and its address. *)
Definition gdt_pd (gdt_addr : Z) : Z * Z := (6 * 8 - 1, gdt_addr).

Section Model.
Context {A : Type} (gdt_addr ts_addr bootstacktop : Z).
Abbreviation BM := (M (pc A)).

Definition on_cpu (f : x86_cpu → x86_cpu) : BM unit :=
  modify (λ s, MkPc A (f (cpu s)) (ts s) (gdt s) (manager s) (pages_of s)).
Definition reg {B} (f : x86_cpu → B) : BM B := gets (λ s, f (cpu s)).

(** ** x86.h *)
Definition set_flags (v : Z) (c : x86_cpu) : x86_cpu :=
  MkX86 (gdtr c) (cs c) (ds c) (es c) (fs c) (gs c) (ss c) (tr c) (cr0 c) (cr2 c) (cr3 c) v (dr c).
Definition sti : BM unit := on_cpu (λ c, set_flags (Z.lor (eflags c) FL_IF) c).
Definition cli : BM unit := on_cpu (λ c, set_flags (Z.ldiff (eflags c) FL_IF) c).
Definition read_eflags : BM Z := reg eflags.
Definition write_eflags (v : Z) : BM unit := on_cpu (set_flags v).
Definition lcr0 (v : Z) : BM unit := on_cpu (λ c,
  MkX86 (gdtr c) (cs c) (ds c) (es c) (fs c) (gs c) (ss c) (tr c) v (cr2 c) (cr3 c) (eflags c) (dr c)).
Definition lcr3 (v : Z) : BM unit := on_cpu (λ c,
  MkX86 (gdtr c) (cs c) (ds c) (es c) (fs c) (gs c) (ss c) (tr c) (cr0 c) (cr2 c) v (eflags c) (dr c)).
Definition rcr0 : BM Z := reg cr0.
(** CR1 is reserved: reading it is an invalid instruction. *)
Definition rcr1 : BM Z := fault.
Definition rcr2 : BM Z := reg cr2.
Definition rcr3 : BM Z := reg cr3.
Definition dr_exists (n : Z) : bool := bool_decide (n ∈ [0; 1; 2; 3; 6; 7]).
Definition read_dr (regnum : Z) : BM Z :=
  if dr_exists regnum then reg (λ c, default 0 (dr c !! regnum)) else mret 0.
Definition write_dr (regnum value : Z) : BM unit :=
  if dr_exists regnum then on_cpu (λ c,
    MkX86 (gdtr c) (cs c) (ds c) (es c) (fs c) (gs c) (ss c) (tr c) (cr0 c) (cr2 c) (cr3 c) (eflags c) (<[regnum := value]> (dr c)))
  else skip.

(** The descriptor of a selector: the entry of the table GDTR points to; the
    processor faults beyond its limit, on an absent descriptor and, in the
    kernel, where it cannot be used for the register. *)
Definition descriptor (sel : Z) (ok : segdesc → bool) : BM segdesc := λ s,
  let '(lim, base) := gdtr (cpu s) in
  if bool_decide (base = gdt_addr) && bool_decide (Z.lor (Z.ldiff sel 7) 7 ≤ lim) then
    match gdt s !! Z.to_nat (Z.shiftr sel 3) with
    | Some d => if bool_decide (sd_p d = 1) && ok d then Ret (d, s) else Fault
    | None => Fault
    end
  else Fault.
Definition rpl (sel : Z) : Z := Z.land sel 3.
Definition is_code (d : segdesc) : bool := bool_decide (sd_s d = 1) && Z.testbit (sd_type d) 3.
(** Readable, and not more privileged than the selector asks for. *)
Definition data_seg (sel : Z) (d : segdesc) : bool :=
  bool_decide (sd_s d = 1) && (negb (is_code d) || Z.testbit (sd_type d) 1) && bool_decide (rpl sel ≤ sd_dpl d).
Definition stack_seg (sel : Z) (d : segdesc) : bool :=
  bool_decide (sd_s d = 1) && negb (is_code d) && Z.testbit (sd_type d) 1 && bool_decide (rpl sel = 0 ∧ sd_dpl d = 0).
Definition code_seg (sel : Z) (d : segdesc) : bool := is_code d && bool_decide (rpl sel = 0 ∧ sd_dpl d = 0).

Definition mov_gs (v : Z) : BM unit := descriptor v (data_seg v);; on_cpu (λ c,
  MkX86 (gdtr c) (cs c) (ds c) (es c) (fs c) v (ss c) (tr c) (cr0 c) (cr2 c) (cr3 c) (eflags c) (dr c)).
Definition mov_fs (v : Z) : BM unit := descriptor v (data_seg v);; on_cpu (λ c,
  MkX86 (gdtr c) (cs c) (ds c) (es c) v (gs c) (ss c) (tr c) (cr0 c) (cr2 c) (cr3 c) (eflags c) (dr c)).
Definition mov_es (v : Z) : BM unit := descriptor v (data_seg v);; on_cpu (λ c,
  MkX86 (gdtr c) (cs c) (ds c) v (fs c) (gs c) (ss c) (tr c) (cr0 c) (cr2 c) (cr3 c) (eflags c) (dr c)).
Definition mov_ds (v : Z) : BM unit := descriptor v (data_seg v);; on_cpu (λ c,
  MkX86 (gdtr c) (cs c) v (es c) (fs c) (gs c) (ss c) (tr c) (cr0 c) (cr2 c) (cr3 c) (eflags c) (dr c)).
Definition mov_ss (v : Z) : BM unit := descriptor v (stack_seg v);; on_cpu (λ c,
  MkX86 (gdtr c) (cs c) (ds c) (es c) (fs c) (gs c) v (tr c) (cr0 c) (cr2 c) (cr3 c) (eflags c) (dr c)).
Definition ljmp (v : Z) : BM unit := descriptor v (code_seg v);; on_cpu (λ c,
  MkX86 (gdtr c) v (ds c) (es c) (fs c) (gs c) (ss c) (tr c) (cr0 c) (cr2 c) (cr3 c) (eflags c) (dr c)).

(** ltr takes an available 32-bit task state segment and marks it busy. *)
Definition mark_busy (d : segdesc) : segdesc :=
  MkSeg (sd_lim_15_0 d) (sd_base_15_0 d) (sd_base_23_16 d) STS_T32B (sd_s d) (sd_dpl d) (sd_p d)
    (sd_lim_19_16 d) (sd_avl d) (sd_rsv1 d) (sd_db d) (sd_g d) (sd_base_31_24 d).
Definition set_gdt (i : Z) (d : segdesc) : BM unit :=
  modify (λ s, MkPc A (cpu s) (ts s) (<[Z.to_nat i := d]> (gdt s)) (manager s) (pages_of s)).
Definition ltr (sel : Z) : BM unit :=
  d ← descriptor sel (λ d, bool_decide (sd_s d = 0 ∧ sd_type d = STS_T32A));
  set_gdt (Z.shiftr sel 3) (mark_busy d);;
  on_cpu (λ c, MkX86 (gdtr c) (cs c) (ds c) (es c) (fs c) (gs c) (ss c) sel (cr0 c) (cr2 c) (cr3 c) (eflags c) (dr c)).

(** ** pmm.c: descriptors and paging *)
Definition lgdt (pd : Z * Z) : BM unit :=
  on_cpu (λ c, MkX86 pd (cs c) (ds c) (es c) (fs c) (gs c) (ss c) (tr c) (cr0 c) (cr2 c) (cr3 c) (eflags c) (dr c));;
  mov_gs USER_DS;;
  mov_fs USER_DS;;
  mov_es KERNEL_DS;;
  mov_ds KERNEL_DS;;
  mov_ss KERNEL_DS;;
  ljmp KERNEL_CS.

Definition on_ts (f : taskstate → taskstate) : BM unit :=
  modify (λ s, MkPc A (cpu s) (f (ts s)) (gdt s) (manager s) (pages_of s)).
Definition set_stack (esp0 ss0 : Z) (t : taskstate) : taskstate :=
  MkTs (ts_link t) esp0 ss0 (ts_esp1 t) (ts_ss1 t) (ts_esp2 t) (ts_ss2 t) (ts_cr3 t) (ts_eip t) (ts_eflags t)
    (ts_eax t) (ts_ecx t) (ts_edx t) (ts_ebx t) (ts_esp t) (ts_ebp t) (ts_esi t) (ts_edi t) (ts_es t) (ts_cs t)
    (ts_ss t) (ts_ds t) (ts_fs t) (ts_gs t) (ts_ldt t) (ts_t t) (ts_iomb t).
Definition load_esp0 (esp0 : Z) : BM unit := on_ts (λ t, set_stack esp0 (ts_ss0 t) t).
Definition gdt_init : BM unit :=
  load_esp0 bootstacktop;;
  on_ts (λ t, set_stack (ts_esp0 t) KERNEL_DS t);;
  set_gdt SEG_TSS (SEGTSS STS_T32A ts_addr sizeof_taskstate DPL_KERNEL);;
  lgdt (gdt_pd gdt_addr);;
  ltr GD_TSS.

Definition enable_paging (boot_pgdir_p : Z) : BM unit :=
  lcr3 boot_pgdir_p;;
  c ← rcr0;
  let c := Z.lor c (Z.lor (Z.lor (Z.lor (Z.lor (Z.lor (Z.lor (Z.lor CR0_PE CR0_PG) CR0_AM) CR0_WP) CR0_NE) CR0_TS) CR0_EM) CR0_MP) in
  let c := Z.land c (u32 (Z.lnot (Z.lor CR0_TS CR0_EM))) in
  lcr0 c.

(** ** pmm.c: the page manager *)
Definition with_manager (mg : pmm_manager A) : BM unit :=
  modify (λ s, MkPc A (cpu s) (ts s) (gdt s) (Some mg) (pages_of s)).
Definition pages_lens : lens (pc A) A := Lens pages_of (λ a s, MkPc A (cpu s) (ts s) (gdt s) (manager s) a).
(** A call through the pointer pmm_manager. *)
Definition call {B} (f : pmm_manager A → M A B) : BM B := λ s,
  match manager s with Some mg => zoom pages_lens (f mg) s | None => Fault end.
(** local_irq_save(flag); ...; local_irq_restore(flag); *)
Definition irq_masked {B} (m : BM B) : BM B := flags ← read_eflags; cli;; r ← m; write_eflags flags;; mret r.

Definition init_pmm_manager (mg : pmm_manager A) : BM unit := with_manager mg;; call pm_init.
Definition init_memmap (base n : Z) : BM unit := call (λ mg, pm_init_memmap mg base n).
Definition alloc_pages (n : Z) : BM (option Z) := irq_masked (call (λ mg, pm_alloc_pages mg n)).
Definition free_pages (base n : Z) : BM unit := irq_masked (call (λ mg, pm_free_pages mg base n)).
Definition nr_free_pages : BM Z := irq_masked (call pm_nr_free_pages).
Definition check_alloc_page : BM unit := call pm_check.
End Model.

(** buddy_pmm_manager of buddy_pmm.c; the name is a string of the image. *)
Definition buddy_pmm_manager (name : list Z) (fuel : nat) : pmm_manager pmm :=
  MkManager pmm name buddy_init (buddy_init_memmap fuel) buddy_alloc_pages buddy_free_pages buddy_nr_free_pages (buddy_check fuel).

(** ** What they do *)
Section Facts.
Context {A : Type} (gdt_addr ts_addr bootstacktop : Z).
Implicit Types s : pc A.

Lemma descriptor_run s sel ok d : gdtr (cpu s) = gdt_pd gdt_addr → Z.lor (Z.ldiff sel 7) 7 ≤ 47 →
  gdt s !! Z.to_nat (Z.shiftr sel 3) = Some d → sd_p d = 1 → ok d = true → descriptor gdt_addr sel ok s = Ret (d, s).
Proof.
  intros Hg Hs Hd Hp Ho. unfold descriptor. rewrite Hg. unfold gdt_pd. rewrite (bool_decide_true (gdt_addr = _)) by done.
  rewrite (bool_decide_true (_ ≤ _)) by exact Hs. simpl. by rewrite Hd, (bool_decide_true (sd_p d = 1)), Ho by done.
Qed.

(** gdt_init: every selector of the kernel and of user programs has a flat
    segment of the right privilege behind it, no load faults, and the task
    register points to the task state with the boot stack. *)
Lemma gdt_init_correct s : gdt s = gdt_static → is_u32 ts_addr →
  ∃ s' tss, gdt_init gdt_addr ts_addr bootstacktop s = Ret ((), s') ∧
    gdt s' = take 5 gdt_static ++ [tss] ∧ seg_base tss = ts_addr ∧ seg_limit tss = sizeof_taskstate ∧
    sd_type tss = STS_T32B ∧ sd_dpl tss = DPL_KERNEL ∧
    cs (cpu s') = KERNEL_CS ∧ ds (cpu s') = KERNEL_DS ∧ es (cpu s') = KERNEL_DS ∧ ss (cpu s') = KERNEL_DS ∧
    fs (cpu s') = USER_DS ∧ gs (cpu s') = USER_DS ∧ tr (cpu s') = GD_TSS ∧ gdtr (cpu s') = gdt_pd gdt_addr ∧
    ts s' = set_stack bootstacktop KERNEL_DS (ts s) ∧ cr0 (cpu s') = cr0 (cpu s) ∧ eflags (cpu s') = eflags (cpu s) ∧
    manager s' = manager s ∧ pages_of s' = pages_of s.
Proof.
  intros Hg Hts. destruct s as [c t g mg a]. simpl in Hg. subst g.
  set (tss := SEGTSS STS_T32A ts_addr sizeof_taskstate DPL_KERNEL).
  eexists _, (mark_busy tss). split.
  { unfold gdt_init, load_esp0, on_ts, set_gdt, lgdt. rewrite !bind_modify. unfold on_cpu at 1. rewrite bind_assoc, bind_modify. fold tss.
    assert (Hrun : ∀ c' sel ok d f (k : unit → M (pc A) unit), gdtr c' = gdt_pd gdt_addr →
      Z.lor (Z.ldiff sel 7) 7 ≤ 47 → (<[5%nat := tss]> gdt_static) !! Z.to_nat (Z.shiftr sel 3) = Some d → sd_p d = 1 → ok d = true →
      ((descriptor gdt_addr sel ok;; on_cpu f) ≫= k) (MkPc A c' (set_stack bootstacktop KERNEL_DS t) (<[5%nat := tss]> gdt_static) mg a) =
      k () (MkPc A (f c') (set_stack bootstacktop KERNEL_DS t) (<[5%nat := tss]> gdt_static) mg a)).
    { intros c' sel ok d f k H1 H2 H3 H4 H5. rewrite bind_assoc. by rewrite (bind_Ret _ _ _ _ _ (descriptor_run (MkPc A c' _ _ mg a) sel ok d H1 H2 H3 H4 H5)). }
    unfold mov_gs, mov_fs, mov_es, mov_ds, mov_ss, ljmp.
    cbn [cpu ts gdt manager pages_of gdtr cs ds es fs gs ss tr cr0 cr2 cr3 eflags dr].
    change (Z.to_nat SEG_TSS) with 5%nat.
    change (set_stack (ts_esp0 (set_stack bootstacktop (ts_ss0 t) t)) KERNEL_DS (set_stack bootstacktop (ts_ss0 t) t)) with (set_stack bootstacktop KERNEL_DS t).
    do 2 (rewrite bind_assoc, (Hrun _ _ _ (SEG STA_W 0 0xFFFFFFFF DPL_USER)) by first [reflexivity|vm_compute; discriminate]; cbn [gdtr cs ds es fs gs ss tr cr0 cr2 cr3 eflags dr]).
    do 3 (rewrite bind_assoc, (Hrun _ _ _ (SEG STA_W 0 0xFFFFFFFF DPL_KERNEL)) by first [reflexivity|vm_compute; discriminate]; cbn [gdtr cs ds es fs gs ss tr cr0 cr2 cr3 eflags dr]).
    rewrite (Hrun _ _ _ (SEG (Z.lor STA_X STA_R) 0 0xFFFFFFFF DPL_KERNEL)) by first [reflexivity|vm_compute; discriminate]. cbn [gdtr cs ds es fs gs ss tr cr0 cr2 cr3 eflags dr].
    unfold ltr. erewrite bind_Ret by (apply (descriptor_run _ GD_TSS _ tss); first [reflexivity|vm_compute; discriminate]).
    unfold set_gdt, on_cpu. rewrite bind_modify. reflexivity. }
  destruct (descriptors_roundtrip false 0 0 DPL_KERNEL STS_T32A ts_addr sizeof_taskstate) as (_ & _ & _ & Hb & _ & Hl);
    [done|done|unfold is_u32, sizeof_taskstate; lia|].
  split_and!; first [reflexivity|exact Hb|by apply Hl].
Qed.

Lemma paging_bits c j : is_u32 c →
  Z.testbit (Z.land (Z.lor c (Z.lor (Z.lor (Z.lor (Z.lor (Z.lor (Z.lor (Z.lor CR0_PE CR0_PG) CR0_AM) CR0_WP) CR0_NE) CR0_TS) CR0_EM) CR0_MP))
    (u32 (Z.lnot (Z.lor CR0_TS CR0_EM)))) j =
  bool_decide (j ∈ [0; 1; 5; 16; 18; 31]) || (negb (bool_decide (j ∈ [2; 3])) && Z.testbit c j).
Proof.
  intros Hc. rewrite Z.land_spec, Z.lor_spec. set (k := Z.lor _ CR0_MP). set (k' := u32 _).
  destruct (decide (0 ≤ j < 32)) as [Hj|Hj].
  - assert (Hall : forallb (λ j, forallb (λ b, Bool.eqb ((b || Z.testbit k j) && Z.testbit k' j)
      (bool_decide (j ∈ [0; 1; 5; 16; 18; 31]) || (negb (bool_decide (j ∈ [2; 3])) && b))) [true; false]) (seqZ 0 32) = true)
      by (vm_compute; reflexivity).
    rewrite forallb_forall in Hall. specialize (Hall j). rewrite <-list_elem_of_In, elem_of_seqZ in Hall. specialize (Hall ltac:(lia)).
    rewrite forallb_forall in Hall. apply Bool.eqb_prop, Hall. destruct (Z.testbit c j); simpl; auto.
  - assert (Hz : ∀ x, 0 ≤ x < 2 ^ 32 → Z.testbit x j = false).
    { intros x Hx. destruct (decide (j < 0)); [by apply Z.testbit_neg_r|]. rewrite <-(Z.mod_small x (2 ^ 32)) by done.
      apply Z.mod_pow2_bits_high. lia. }
    rewrite (Hz k'), (Hz c), !andb_false_r by (done || apply u32_range). symmetry. rewrite orb_false_r. apply bool_decide_eq_false.
    intros Hin. rewrite !elem_of_cons, elem_of_nil in Hin. lia.
Qed.

(** enable_paging turns on protection, paging, write protection and alignment
    checks, selects the x87 error mode and leaves the other bits of CR0. *)
Lemma enable_paging_correct s boot_pgdir_p : is_u32 (cr0 (cpu s)) →
  ∃ s', enable_paging boot_pgdir_p s = Ret ((), s') ∧ cr3 (cpu s') = boot_pgdir_p ∧
    (∀ j, Z.testbit (cr0 (cpu s')) j =
      bool_decide (j ∈ [0; 1; 5; 16; 18; 31]) || (negb (bool_decide (j ∈ [2; 3])) && Z.testbit (cr0 (cpu s)) j)) ∧
    gdtr (cpu s') = gdtr (cpu s) ∧ eflags (cpu s') = eflags (cpu s) ∧ gdt s' = gdt s ∧ ts s' = ts s ∧ pages_of s' = pages_of s.
Proof.
  intros Hc. unfold enable_paging, lcr3, on_cpu. rewrite bind_modify. unfold rcr0, reg. rewrite bind_gets.
  eexists. split; [reflexivity|]. cbn [cpu cr0 cr3 gdtr eflags gdt ts pages_of]. split_and!; try done.
  intros j. apply paging_bits. exact Hc.
Qed.

(** ** The page manager behind the mask *)
Lemma irq_masked_run {B} (m : M (pc A) B) s b s' :
  m (MkPc A (set_flags (Z.ldiff (eflags (cpu s)) FL_IF) (cpu s)) (ts s) (gdt s) (manager s) (pages_of s)) = Ret (b, s') →
  irq_masked m s = Ret (b, MkPc A (set_flags (eflags (cpu s)) (cpu s')) (ts s') (gdt s') (manager s') (pages_of s')).
Proof.
  intros E. unfold irq_masked, read_eflags, reg. rewrite bind_gets. unfold cli, on_cpu. rewrite bind_modify.
  rewrite (bind_Ret _ _ _ _ _ E). unfold write_eflags, on_cpu. by rewrite bind_modify.
Qed.
Definition at_pages (a : A) s : pc A := MkPc A (cpu s) (ts s) (gdt s) (manager s) a.
Lemma masked_call {B} (f : pmm_manager A → M A B) s mg b a' :
  manager s = Some mg → f mg (pages_of s) = Ret (b, a') → irq_masked (call f) s = Ret (b, at_pages a' s).
Proof.
  destruct s as [[] ? ? ? ?]. simpl. intros -> E. erewrite irq_masked_run.
  2: { unfold call. cbn [manager]. apply (zoom_Ret pages_lens). exact E. }
  reflexivity.
Qed.

(** alloc_pages and free_pages are a page allocator when the manager is one;
    interrupts are as before when they return. *)
#[export] Instance masked_allocator mg np held `{HP : !PageAllocator (pm_alloc_pages mg) (pm_free_pages mg) np held} :
  PageAllocator alloc_pages free_pages np (λ s R, manager s = Some mg ∧ held (pages_of s) R).
Proof.
  split.
  - intros s R n [Hm Hh] Hn. destruct (pa_alloc (PageAllocator := HP) _ R n Hh Hn) as (r & a' & E & Hh').
    exists r, (at_pages a' s). split; [by apply (masked_call _ s mg)|done].
  - intros s R i n [Hm Hh]. destruct (pa_free (PageAllocator := HP) _ R i n Hh) as (a' & E & Hh').
    exists (at_pages a' s). split; [by apply (masked_call _ s mg)|done].
  - intros s R [_ Hh]. by apply (pa_nodup (PageAllocator := HP) (pages_of s)).
  - intros s R i n [_ Hh]. by apply (pa_range (PageAllocator := HP) (pages_of s)).
Qed.
End Facts.

(** The kernel's manager. *)
#[export] Instance buddy_masked name fuel np :
  PageAllocator alloc_pages free_pages np (λ s R, manager s = Some (buddy_pmm_manager name fuel) ∧ buddy_held np (pages_of s) R).
Proof. apply masked_allocator, buddy_page_allocator. Qed.
