(* ===== verification/Proc.v ===== *)
(** * kern/process/proc.c and kern/schedule/sched.c: processes

    A struct proc_struct pointer is the address kmalloc returned, NULL is 0.
    The two lists of processes run through the entries list_link and hash_link
    of the structures.  The allocators are parameters; [Alloc] states what the
    code relies on.  The interrupt flag is a bit of the processor state; what
    follows switch_to in proc_run and schedule belongs to the process switched
    to, and the restored flag is its own. *)
From stdpp Require Import base gmap list fin_maps.
From Stdlib Require Import ZArith Lia.
From S2P Require Import Prelude DList Bits Printfmt Mmu.

Definition NULL : Z := 0.
Inductive proc_state : Type := PROC_UNINIT | PROC_SLEEPING | PROC_RUNNABLE | PROC_ZOMBIE.
#[global] Instance proc_state_eq_dec : EqDecision proc_state.
Proof. solve_decision. Defined.

Definition PROC_NAME_LEN : Z := 15.
Definition MAX_PROCESS : Z := 4096.
Definition MAX_PID : Z := MAX_PROCESS * 2.
Definition HASH_SHIFT : Z := 10.
Definition HASH_LIST_SIZE : Z := Z.shiftl 1 HASH_SHIFT.
Definition pid_hashfn (x : Z) : Z := hash32 (u32 x) HASH_SHIFT.

(** ** arch/x86/include/proc.h and intr.h *)
Record context : Type := MkContext {
  eip : Z; esp : Z; ebx : Z; ecx : Z; edx : Z; esi : Z; edi : Z; ebp : Z }.
Definition zero_context : context := MkContext 0 0 0 0 0 0 0 0.

Record pushregs : Type := MkRegs {
  reg_edi : Z; reg_esi : Z; reg_ebp : Z; reg_oesp : Z; reg_ebx : Z; reg_edx : Z; reg_ecx : Z;
  reg_eax : Z }.
Record trapframe : Type := MkTf {
  tf_regs : pushregs; tf_es : Z; tf_padding1 : Z; tf_ds : Z; tf_padding2 : Z; tf_trapno : Z;
  tf_err : Z; tf_eip : Z; tf_cs : Z; tf_padding3 : Z; tf_eflags : Z; tf_esp : Z; tf_ss : Z;
  tf_padding4 : Z }.
Definition sizeof_trapframe : Z := 68.
Definition CLONE_VM : Z := 0x100.

(** ** struct proc_struct *)
Record proc_struct : Type := MkProc {
  state : proc_state; pid : Z; runs : Z; kstack : Z; need_resched : bool; parent : Z; mm : Z;
  ctx : context; tf : Z; pgdir_addr : Z; pflags : Z; name : list Z }.

Definition set_state v p := MkProc v (pid p) (runs p) (kstack p) (need_resched p) (parent p) (mm p)
  (ctx p) (tf p) (pgdir_addr p) (pflags p) (name p).
Definition set_pid v p := MkProc (state p) v (runs p) (kstack p) (need_resched p) (parent p) (mm p)
  (ctx p) (tf p) (pgdir_addr p) (pflags p) (name p).
Definition set_runs v p := MkProc (state p) (pid p) v (kstack p) (need_resched p) (parent p) (mm p)
  (ctx p) (tf p) (pgdir_addr p) (pflags p) (name p).
Definition set_kstack v p := MkProc (state p) (pid p) (runs p) v (need_resched p) (parent p) (mm p)
  (ctx p) (tf p) (pgdir_addr p) (pflags p) (name p).
Definition set_need_resched v p := MkProc (state p) (pid p) (runs p) (kstack p) v (parent p) (mm p)
  (ctx p) (tf p) (pgdir_addr p) (pflags p) (name p).
Definition set_parent v p := MkProc (state p) (pid p) (runs p) (kstack p) (need_resched p) v (mm p)
  (ctx p) (tf p) (pgdir_addr p) (pflags p) (name p).
Definition set_ctx v p := MkProc (state p) (pid p) (runs p) (kstack p) (need_resched p) (parent p)
  (mm p) v (tf p) (pgdir_addr p) (pflags p) (name p).
Definition set_tf v p := MkProc (state p) (pid p) (runs p) (kstack p) (need_resched p) (parent p)
  (mm p) (ctx p) v (pgdir_addr p) (pflags p) (name p).
Definition set_name v p := MkProc (state p) (pid p) (runs p) (kstack p) (need_resched p) (parent p)
  (mm p) (ctx p) (tf p) (pgdir_addr p) (pflags p) v.

(** Addresses of list entries. *)
Inductive plink : Type := ProcList | HashList (i : Z) | ListLink (p : Z) | HashLink (p : Z).
#[global] Instance plink_eq_dec : EqDecision plink.
Proof. solve_decision. Defined.
#[global] Instance plink_countable : Countable plink.
Proof.
  refine (inj_countable'
    (λ a, match a with ProcList => inl () | HashList i => inr (inl i) | ListLink p => inr (inr (inl p))
          | HashLink p => inr (inr (inr p)) end)
    (λ s, match s with inl _ => ProcList | inr (inl i) => HashList i | inr (inr (inl p)) => ListLink p
          | inr (inr (inr p)) => HashLink p end) _).
  by intros [].
Defined.

(** The processor: the registers switch_to saves (eip is the return address of
    its call), ts.ts_esp0, CR3 and the interrupt flag. *)
Record cpu : Type := MkCpu { regs : context; esp0 : Z; cr3 : Z; iflag : bool }.

Record kernel {A : Type} : Type := MkKernel {
  procs : gmap Z proc_struct;
  plinks : gmap plink (list_entry plink);
  idleproc : Z; initproc : Z; current : Z;
  nr_process : Z;
  next_safe : Z; last_pid : Z;      (* the statics of get_pid *)
  tframes : gmap Z trapframe;       (* trap frames by address *)
  processor : cpu;
  alloc : A }.
Arguments kernel : clear implicits.

Section Model.
Context {A : Type}.
Abbreviation K := (kernel A).

Definition upd_procs (f : gmap Z proc_struct → gmap Z proc_struct) (k : K) : K :=
  MkKernel A (f (procs k)) (plinks k) (idleproc k) (initproc k) (current k) (nr_process k)
    (next_safe k) (last_pid k) (tframes k) (processor k) (alloc k).
Definition upd_links (f : gmap plink (list_entry plink) → gmap plink (list_entry plink)) (k : K) : K :=
  MkKernel A (procs k) (f (plinks k)) (idleproc k) (initproc k) (current k) (nr_process k)
    (next_safe k) (last_pid k) (tframes k) (processor k) (alloc k).
Definition set_idleproc (v : Z) (k : K) : K :=
  MkKernel A (procs k) (plinks k) v (initproc k) (current k) (nr_process k)
    (next_safe k) (last_pid k) (tframes k) (processor k) (alloc k).
Definition set_initproc (v : Z) (k : K) : K :=
  MkKernel A (procs k) (plinks k) (idleproc k) v (current k) (nr_process k)
    (next_safe k) (last_pid k) (tframes k) (processor k) (alloc k).
Definition set_current (v : Z) (k : K) : K :=
  MkKernel A (procs k) (plinks k) (idleproc k) (initproc k) v (nr_process k)
    (next_safe k) (last_pid k) (tframes k) (processor k) (alloc k).
Definition set_nr_process (v : Z) (k : K) : K :=
  MkKernel A (procs k) (plinks k) (idleproc k) (initproc k) (current k) v
    (next_safe k) (last_pid k) (tframes k) (processor k) (alloc k).
Definition set_pids (ns lp : Z) (k : K) : K :=
  MkKernel A (procs k) (plinks k) (idleproc k) (initproc k) (current k) (nr_process k)
    ns lp (tframes k) (processor k) (alloc k).
Definition set_last_pid (v : Z) (k : K) : K := set_pids (next_safe k) v k.
Definition set_next_safe (v : Z) (k : K) : K := set_pids v (last_pid k) k.
Definition upd_tframes (f : gmap Z trapframe → gmap Z trapframe) (k : K) : K :=
  MkKernel A (procs k) (plinks k) (idleproc k) (initproc k) (current k) (nr_process k)
    (next_safe k) (last_pid k) (f (tframes k)) (processor k) (alloc k).
Definition set_processor (c : cpu) (k : K) : K :=
  MkKernel A (procs k) (plinks k) (idleproc k) (initproc k) (current k) (nr_process k)
    (next_safe k) (last_pid k) (tframes k) c (alloc k).
Definition set_alloc (a : A) (k : K) : K :=
  MkKernel A (procs k) (plinks k) (idleproc k) (initproc k) (current k) (nr_process k)
    (next_safe k) (last_pid k) (tframes k) (processor k) a.

Definition plinks_lens : lens K (gmap plink (list_entry plink)) := Lens plinks (λ l, upd_links (λ _, l)).
Definition alloc_lens : lens K A := Lens alloc set_alloc.

Definition get_proc (p : Z) : M K proc_struct := λ k,
  match procs k !! p with Some pr => Ret (pr, k) | None => Fault end.
Definition set_proc (p : Z) (f : proc_struct → proc_struct) : M K unit := λ k,
  match procs k !! p with
  | Some pr => Ret ((), upd_procs (<[p := f pr]>) k)
  | None => Fault
  end.

(** le2proc(le, list_link) and le2proc(le, hash_link) *)
Definition le2proc_list (le : plink) : M K Z :=
  match le with ListLink p => mret p | _ => fault end.
Definition le2proc_hash (le : plink) : M K Z :=
  match le with HashLink p => mret p | _ => fault end.

(** local_irq_save and local_irq_restore of arch/x86 *)
Definition local_irq_save : M K bool :=
  c ← gets processor; modify (set_processor (MkCpu (regs c) (esp0 c) (cr3 c) false));; mret (iflag c).
Definition local_irq_restore (b : bool) : M K unit :=
  c ← gets processor; modify (set_processor (MkCpu (regs c) (esp0 c) (cr3 c) b)).

(** ** get_pid *)

(** The while loop; the result says whether it left by goto repeat. *)
Fixpoint pid_scan (fuel : nat) (le : plink) : M K bool :=
  match fuel with
  | O => out_of_fuel
  | S fuel =>
    le ← zoom plinks_lens (list_next le);
    if bool_decide (le ≠ ProcList) then
      p ← le2proc_list le;
      pr ← get_proc p;
      lp ← gets last_pid; ns ← gets next_safe;
      if bool_decide (pid pr = lp) then
        modify (set_last_pid (lp + 1));;
        if bool_decide (lp + 1 >= ns) then
          (if bool_decide (lp + 1 >= MAX_PID) then modify (set_last_pid 1) else skip);;
          modify (set_next_safe MAX_PID);; mret true
        else pid_scan fuel le
      else if bool_decide (pid pr > lp ∧ ns > pid pr) then
        modify (set_next_safe (pid pr));; pid_scan fuel le
      else pid_scan fuel le
    else mret false
  end.
(** repeat: le = list; while ... *)
Fixpoint pid_repeat (turns fuel : nat) : M K unit :=
  match turns with
  | O => out_of_fuel
  | S turns => again ← pid_scan fuel ProcList; if (again : bool) then pid_repeat turns fuel else skip
  end.

Definition get_pid (turns fuel : nat) : M K Z :=
  lp ← gets last_pid;
  modify (set_last_pid (lp + 1));;
  (if bool_decide (lp + 1 >= MAX_PID) then
     modify (set_last_pid 1);; modify (set_next_safe MAX_PID);; pid_repeat turns fuel
   else
     ns ← gets next_safe;
     if bool_decide (lp + 1 >= ns) then modify (set_next_safe MAX_PID);; pid_repeat turns fuel
     else skip);;
  gets last_pid.

(** ** The hash table *)
Definition hash_proc (p : Z) : M K unit :=
  pr ← get_proc p; zoom plinks_lens (list_add (HashList (pid_hashfn (pid pr))) (HashLink p)).

Fixpoint find_loop (fuel : nat) (pid_ : Z) (list le : plink) : M K Z :=
  match fuel with
  | O => out_of_fuel
  | S fuel =>
    le ← zoom plinks_lens (list_next le);
    if bool_decide (le ≠ list) then
      p ← le2proc_hash le;
      pr ← get_proc p;
      if bool_decide (pid pr = pid_) then mret p else find_loop fuel pid_ list le
    else mret NULL
  end.
Definition find_proc (fuel : nat) (pid_ : Z) : M K Z :=
  if bool_decide (0 < pid_ ∧ pid_ < MAX_PID) then
    let list := HashList (pid_hashfn pid_) in find_loop fuel pid_ list list
  else mret NULL.

(** ** sched.c *)
Definition wakeup_proc (p : Z) : M K unit :=
  pr ← get_proc p;
  assert (bool_decide (state pr ≠ PROC_ZOMBIE) && bool_decide (state pr ≠ PROC_RUNNABLE));;
  set_proc p (set_state PROC_RUNNABLE).

(** arch/x86/switch.S *)
Definition switch_to (from to : Z) : M K unit :=
  c ← gets processor;
  set_proc from (set_ctx (regs c));;
  pr ← get_proc to;
  c ← gets processor;
  modify (set_processor (MkCpu (ctx pr) (esp0 c) (cr3 c) (iflag c))).

Definition load_esp0 (v : Z) : M K unit :=
  c ← gets processor; modify (set_processor (MkCpu (regs c) v (cr3 c) (iflag c))).
Definition load_page_dir (v : Z) : M K unit :=
  c ← gets processor; modify (set_processor (MkCpu (regs c) (esp0 c) v (iflag c))).

Definition proc_run (p : Z) : M K unit :=
  cur ← gets current;
  if bool_decide (p ≠ cur) then
    local_irq_save;;
    modify (set_current p);;
    pr ← get_proc p;
    load_esp0 (u32 (kstack pr + KSTACKSIZE));;
    load_page_dir (pgdir_addr pr);;
    switch_to cur p
  else skip.

(** do ... while (le != last); the result is next, NULL when no process was
    looked at. *)
Fixpoint sched_loop (fuel : nat) (last le : plink) (next : Z) : M K Z :=
  match fuel with
  | O => out_of_fuel
  | S fuel =>
    le ← zoom plinks_lens (list_next le);
    if bool_decide (le ≠ ProcList) then
      next ← le2proc_list le;
      pr ← get_proc next;
      if bool_decide (state pr = PROC_RUNNABLE) then mret next
      else if bool_decide (le ≠ last) then sched_loop fuel last le next else mret next
    else if bool_decide (le ≠ last) then sched_loop fuel last le next else mret next
  end.

Definition schedule (fuel : nat) : M K unit :=
  intr_flag ← local_irq_save;
  cur ← gets current;
  set_proc cur (set_need_resched false);;
  idle ← gets idleproc;
  let last := if bool_decide (cur = idle) then ProcList else ListLink cur in
  next ← sched_loop fuel last last NULL;
  runnable ← (if bool_decide (next = NULL) then mret false
              else pr ← get_proc next; mret (bool_decide (state pr = PROC_RUNNABLE)));
  let next := if (runnable : bool) then next else idle in
  set_proc next (λ pr, set_runs (s32 (runs pr + 1)) pr);;
  if bool_decide (next ≠ cur) then proc_run next
  else local_irq_restore intr_flag.

(** while (1) { if (current->need_resched) schedule(); }: one turn *)
Definition cpu_idle_turn (fuel : nat) : M K unit :=
  cur ← gets current;
  pr ← get_proc cur;
  if need_resched pr then schedule fuel else skip.
End Model.

(** ** do_fork and proc_init *)
Definition sizeof_proc_struct : Z := 104.
Section Fork.
Context {A : Type}.
Context (kmalloc : Z → M A Z) (kfree : Z → M A unit).
Context (alloc_pages : Z → M A (option Z)) (free_pages : Z → Z → M A unit).
Context (npage boot_pgdir_p bootstack : Z).
(** The addresses of forkret and kernel_thread_entry, and sizeof(struct proc_struct). *)
Context (forkret kernel_thread_entry : Z).
Abbreviation K := (kernel A).

(** The list entries of the new structure are memory with unknown contents. *)
Definition fresh_links (p : Z) (l : gmap plink (list_entry plink)) : gmap plink (list_entry plink) :=
  <[ListLink p := ListEntry ProcList ProcList]> (<[HashLink p := ListEntry ProcList ProcList]> l).

Definition alloc_proc : M K Z :=
  p ← zoom alloc_lens (kmalloc sizeof_proc_struct);
  if bool_decide (p ≠ NULL) then
    modify (upd_links (fresh_links p));;
    modify (upd_procs (<[p := MkProc PROC_UNINIT (-1) 0 0 false NULL NULL zero_context NULL
                                boot_pgdir_p 0 (replicate 16 0)]>));;
    mret p
  else mret p.

(** kfree(proc): the structure and its list entries are gone. *)
Definition kfree_proc (p : Z) : M K unit :=
  zoom alloc_lens (kfree p);;
  modify (upd_links (λ l, delete (ListLink p) (delete (HashLink p) l)));;
  modify (upd_procs (delete p)).

(** memcpy(proc->name, nm, PROC_NAME_LEN), reading 15 bytes at [nm]; the
    sixteenth byte stays as memset left it. *)
Definition set_proc_name (p : Z) (nm : list Z) : M K unit :=
  if bool_decide (length nm < 15)%nat then fault
  else set_proc p (set_name (take 15 nm ++ [0])).
Definition get_proc_name (p : Z) : M K (list Z) :=
  pr ← get_proc p; mret (take 15 (name pr) ++ [0]).

Definition setup_kstack (p : Z) : M K Z :=
  page ← zoom alloc_lens (alloc_pages KSTACKPAGE);
  match page with
  | Some pg => kva ← page2kva npage pg; set_proc p (set_kstack kva);; mret 0
  | None => mret (- E_NO_MEM)
  end.
Definition put_kstack (p : Z) : M K unit :=
  pr ← get_proc p;
  page ← kva2page npage (kstack pr);
  zoom alloc_lens (free_pages page KSTACKPAGE).

Definition copy_mm (clone_flags p : Z) : M K Z :=
  cur ← gets current; pr ← get_proc cur;
  assert (bool_decide (mm pr = NULL));; mret 0.

Definition copy_thread (p esp_ : Z) (t : trapframe) : M K unit :=
  pr ← get_proc p;
  let a := u32 (kstack pr + KSTACKSIZE - sizeof_trapframe) in
  set_proc p (set_tf a);;
  modify (upd_tframes (<[a :=
    let r := tf_regs t in
    MkTf (MkRegs (reg_edi r) (reg_esi r) (reg_ebp r) (reg_oesp r) (reg_ebx r) (reg_edx r) (reg_ecx r) 0)
      (tf_es t) (tf_padding1 t) (tf_ds t) (tf_padding2 t) (tf_trapno t) (tf_err t) (tf_eip t) (tf_cs t)
      (tf_padding3 t) (Z.lor (tf_eflags t) FL_IF) esp_ (tf_ss t) (tf_padding4 t)]>));;
  set_proc p (λ pr, set_ctx (MkContext forkret a (ebx (ctx pr)) (ecx (ctx pr)) (edx (ctx pr))
                               (esi (ctx pr)) (edi (ctx pr)) (ebp (ctx pr))) pr).

Definition do_fork (turns fuel : nat) (clone_flags stack : Z) (t : trapframe) : M K Z :=
  nr ← gets nr_process;
  if bool_decide (nr >= MAX_PROCESS) then mret (- E_NO_FREE_PROC)
  else
    p ← alloc_proc;
    if bool_decide (p = NULL) then mret (- E_NO_MEM)
    else
      cur ← gets current;
      set_proc p (set_parent cur);;
      r ← setup_kstack p;
      if bool_decide (r ≠ 0) then kfree_proc p;; mret (- E_NO_MEM)
      else
        r ← copy_mm clone_flags p;
        if bool_decide (r ≠ 0) then put_kstack p;; kfree_proc p;; mret (- E_NO_MEM)
        else
          copy_thread p stack t;;
          intr_flag ← local_irq_save;
          n ← get_pid turns fuel;
          set_proc p (set_pid n);;
          hash_proc p;;
          zoom plinks_lens (list_add ProcList (ListLink p));;
          nr ← gets nr_process; modify (set_nr_process (nr + 1));;
          local_irq_restore intr_flag;;
          wakeup_proc p;;
          pr ← get_proc p; mret (pid pr).

Definition kernel_thread (turns fuel : nat) (fn arg clone_flags : Z) : M K Z :=
  do_fork turns fuel (Z.lor clone_flags CLONE_VM) 0
    (MkTf (MkRegs 0 0 0 0 fn arg 0 0) KERNEL_DS 0 KERNEL_DS 0 0 0 kernel_thread_entry KERNEL_CS 0 0 0
       KERNEL_DS 0).

Definition do_exit (error_code : Z) : M K Z := panic.

Fixpoint init_hash (n : nat) (i : Z) : M K unit :=
  match n with
  | O => skip
  | S n => zoom plinks_lens (list_init (HashList i));; init_hash n (i + 1)
  end.

(** [idle_name], [init_name]: the bytes in memory at the literals "idle" and
    "init"; [init_main], [hello]: the addresses passed to kernel_thread. *)
Definition proc_init (turns fuel : nat) (idle_name init_name : list Z) (init_main hello : Z) : M K unit :=
  zoom plinks_lens (list_init ProcList);;
  init_hash (Z.to_nat HASH_LIST_SIZE) 0;;
  idle ← alloc_proc;
  modify (set_idleproc idle);;
  (if bool_decide (idle = NULL) then panic else skip);;
  set_proc idle (set_pid 0);;
  set_proc idle (set_state PROC_RUNNABLE);;
  set_proc idle (set_kstack bootstack);;
  set_proc idle (set_need_resched true);;
  set_proc_name idle idle_name;;
  nr ← gets nr_process; modify (set_nr_process (nr + 1));;
  modify (set_current idle);;
  pid_ ← kernel_thread turns fuel init_main hello 0;
  (if bool_decide (pid_ ≤ 0) then panic else skip);;
  init ← find_proc fuel pid_;
  modify (set_initproc init);;
  set_proc_name init init_name;;
  idle ← gets idleproc; pi ← get_proc idle;
  assert (bool_decide (idle ≠ NULL) && bool_decide (pid pi = 0));;
  init ← gets initproc; pn ← get_proc init;
  assert (bool_decide (init ≠ NULL) && bool_decide (pid pn = 1)).
End Fork.
