(* ===== verification/ProcPid.v ===== *)
(** * get_pid, the hash table and the scheduler's walk

    The loops over the process lists, related to functions on the list of
    processes. *)
From stdpp Require Import base gmap list fin_maps.
From Stdlib Require Import ZArith Lia.
From S2P Require Import Prelude DList Bits Mmu Proc.

(** ** get_pid on the list of pids *)

(** The while loop of get_pid on the pids of the processes. *)
Fixpoint scan (ps : list Z) (lp ns : Z) : bool * Z * Z :=
  match ps with
  | [] => (false, lp, ns)
  | q :: ps =>
    if bool_decide (q = lp) then
      if bool_decide (lp + 1 >= ns) then (true, if bool_decide (lp + 1 >= MAX_PID) then 1 else lp + 1, MAX_PID)
      else scan ps (lp + 1) ns
    else if bool_decide (q > lp ∧ ns > q) then scan ps lp q
    else scan ps lp ns
  end.

(** [used ps lp m]: every number from [lp] to [m - 1] is a pid. *)
Definition used (ps : list Z) (lp m : Z) : Prop := ∀ v, lp ≤ v < m → v ∈ ps.
(** No pid in [lp, ns). *)
Definition vacant (ps : list Z) (lp ns : Z) : Prop := ∀ q, q ∈ ps → ¬ (lp ≤ q < ns).

Lemma scan_false seen ps lp ns lp' ns' :
  vacant seen lp ns → lp < ns ≤ MAX_PID → scan ps lp ns = (false, lp', ns') →
  vacant (seen ++ ps) lp' ns' ∧ lp ≤ lp' < ns' ∧ ns' ≤ MAX_PID.
Proof.
  revert seen lp ns. induction ps as [|q ps IH]; intros seen lp ns Hv Hns; simpl.
  - intros [= <- <-]. rewrite app_nil_r. split_and!; [done|lia..].
  - intros E. destruct (decide (q = lp)) as [->|Hne].
    + rewrite (bool_decide_true (lp = lp)) in E by done. case_bool_decide as H1; [done|].
      destruct (IH (seen ++ [lp]) (lp + 1) ns) as (H & ?); [|lia|done|].
      * intros q [Hq|Hq%list_elem_of_singleton]%elem_of_app; [specialize (Hv q Hq)|]; lia.
      * rewrite <-app_assoc in H. split; [done|lia].
    + rewrite (bool_decide_false (q = lp)) in E by done. case_bool_decide as H1.
      * destruct (IH (seen ++ [q]) lp q) as (H & ?); [|lia|done|].
        -- intros v [Hq|Hq%list_elem_of_singleton]%elem_of_app; [specialize (Hv v Hq)|]; lia.
        -- rewrite <-app_assoc in H. split; [done|lia].
      * destruct (IH (seen ++ [q]) lp ns) as (H & ?); [|lia|done|].
        -- intros v [Hq|Hq%list_elem_of_singleton]%elem_of_app; [by apply Hv|]. lia.
        -- rewrite <-app_assoc in H. split; [done|lia].
Qed.

Lemma scan_true all ps lp ns lp' ns' :
  (∀ q, q ∈ ps → q ∈ all) → lp < ns ≤ MAX_PID → scan ps lp ns = (true, lp', ns') →
  ns' = MAX_PID ∧ ∃ m, lp < m ≤ MAX_PID ∧ used all lp m ∧ lp' = if bool_decide (m >= MAX_PID) then 1 else m.
Proof.
  revert lp ns. induction ps as [|q ps IH]; intros lp ns Hall Hns; simpl; [done|]. intros E.
  assert (Hall' : ∀ q, q ∈ ps → q ∈ all) by (intros; apply Hall; by right).
  destruct (decide (q = lp)) as [->|Hne].
  - rewrite (bool_decide_true (lp = lp)) in E by done.
    assert (Hlp : lp ∈ all) by (apply Hall; by left). case_bool_decide as H1.
    + injection E as <- <-. split; [done|]. exists (lp + 1). split_and!; [lia|lia| |done].
      intros v Hv. by replace v with lp by lia.
    + destruct (IH (lp + 1) ns Hall') as (? & m & Hm & Hu & ?); [lia|done|]. split; [done|].
      exists m. split_and!; [lia|lia| |done]. intros v Hv. destruct (decide (v = lp)) as [->|]; [done|].
      apply Hu. lia.
  - rewrite (bool_decide_false (q = lp)) in E by done.
    case_bool_decide as H1; (eapply IH; [done| |done]); lia.
Qed.

(** Cyclic distance to an unused pid [u]. *)
Definition dist (u v : Z) : Z := if bool_decide (v ≤ u) then u - v else MAX_PID - 1 - v + u.
Definition ahead (u : Z) (ps : list Z) (lp : Z) : list Z := filter (λ v, dist u v ≤ dist u lp) ps.

Lemma scan_progress u ps lp lp' ns' :
  u ∉ ps → 1 ≤ u < MAX_PID → 1 ≤ lp < MAX_PID → scan ps lp MAX_PID = (true, lp', ns') →
  ns' = MAX_PID ∧ 1 ≤ lp' < MAX_PID ∧ (length (ahead u ps lp') < length (ahead u ps lp))%nat.
Proof.
  intros Hu Hur Hlp E. destruct (scan_true ps ps lp MAX_PID lp' ns') as (-> & m & Hm & Hus & Hl); [done|lia|done|].
  split; [done|]. assert (Hlin : lp ∈ ps) by (apply Hus; lia).
  assert (Hnu : ¬ lp ≤ u < m) by (intros Hx; by apply Hu, Hus).
  assert (Hd : dist u lp' < dist u lp).
  { unfold dist. subst lp'. repeat case_bool_decide; lia. }
  split; [subst lp'; case_bool_decide; lia|]. clear Hl E Hus Hnu Hm Hlp.
  assert (Hsub : ∀ qs, (length (ahead u qs lp') ≤ length (ahead u qs lp))%nat).
  { unfold ahead. induction qs as [|q qs IH]; [done|]. rewrite !filter_cons.
    repeat destruct (decide _); simpl; lia. }
  apply list_elem_of_split in Hlin as (l1 & l2 & ->). unfold ahead in *. rewrite !filter_app, !length_app, !filter_cons.
  rewrite (decide_True (P := dist u lp ≤ dist u lp)) by lia.
  rewrite (decide_False (P := dist u lp ≤ dist u lp')) by lia. simpl.
  pose proof (Hsub l1). pose proof (Hsub l2). lia.
Qed.

Lemma unused_pid ps : Z.of_nat (length ps) < MAX_PID - 1 → ∃ u, 1 ≤ u < MAX_PID ∧ u ∉ ps.
Proof.
  intros Hlen. destruct (decide (Exists (λ u, u ∉ ps) (seqZ 1 (MAX_PID - 1)))) as [H|H].
  - apply Exists_exists in H as (u & Hu%elem_of_seqZ & ?). exists u. split; [lia|done].
  - exfalso. assert (Hs : seqZ 1 (MAX_PID - 1) ⊆+ ps).
    { apply NoDup_submseteq; [apply NoDup_seqZ|]. intros u Hu.
      destruct (decide (u ∈ ps)); [done|]. destruct H. apply Exists_exists. by exists u. }
    apply submseteq_length in Hs. rewrite length_seqZ in Hs. unfold MAX_PID, MAX_PROCESS in *. lia.
Qed.

(** ** The loops on the heap *)
Section Heap.
Context {A : Type}.
Implicit Types k : kernel A.

Definition pidof k (p : Z) : Z := default 0 (pid <$> procs k !! p).
Definition runnable k (p : Z) : bool :=
  match procs k !! p with Some pr => bool_decide (state pr = PROC_RUNNABLE) | None => false end.

Lemma get_proc_run k p pr : procs k !! p = Some pr → get_proc p k = Ret (pr, k).
Proof. intros E. unfold get_proc. by rewrite E. Qed.
Lemma set_proc_run k p f pr :
  procs k !! p = Some pr → set_proc p f k = Ret ((), upd_procs (<[p := f pr]>) k).
Proof. intros E. unfold set_proc. by rewrite E. Qed.
Lemma plinks_run {B} (m : M _ B) k a l :
  m (plinks k) = Ret (a, l) → zoom plinks_lens m k = Ret (a, upd_links (λ _, l) k).
Proof. intros E. by apply (zoom_Ret plinks_lens). Qed.
Lemma upd_links_id k : upd_links (λ _, plinks k) k = k.
Proof. by destruct k. Qed.
Lemma next_run k a b : nxt (plinks k) a = Some b → zoom plinks_lens (list_next a) k = Ret (b, k).
Proof. intros E. erewrite plinks_run; [|by apply list_next_run]. by rewrite upd_links_id. Qed.

(** A stretch of the process list. *)
Definition present k (l : list Z) : Prop := Forall (λ p, is_Some (procs k !! p)) l.
Definition path k (a : plink) (l : list Z) (z : plink) : Prop := chain (plinks k) a (ListLink <$> l) z.

Lemma path_step k a p l z : path k a (p :: l) z → nxt (plinks k) a = Some (ListLink p) ∧ path k (ListLink p) l z.
Proof. intros [[? _] ?]. done. Qed.
Lemma path_end k a z : path k a [] z → nxt (plinks k) a = Some z.
Proof. by intros [? _]. Qed.

Lemma pid_scan_run fuel k a l :
  (length l < fuel)%nat → path k a l ProcList → present k l →
  let '(b, lp, ns) := scan (pidof k <$> l) (last_pid k) (next_safe k) in
  pid_scan fuel a k = Ret (b, set_pids ns lp k).
Proof.
  revert fuel k a. induction l as [|p l IH]; intros fuel k a Hf Hp Hpr; destruct fuel as [|fuel]; try (simpl in *; lia).
  - simpl. mrun (next_run _ _ _ (path_end _ _ _ Hp)). simpl. by destruct k.
  - apply path_step in Hp as [Hn Hp]. apply Forall_cons in Hpr as [[pr Hpr] Hprs].
    cbn [pid_scan]. mrun (next_run _ _ _ Hn). rewrite bool_decide_true by done. cbn [le2proc_list].
    rewrite bind_mret. mrun (get_proc_run _ _ _ Hpr). rewrite !bind_gets.
    assert (Hpid : pidof k p = pid pr) by (unfold pidof; by rewrite Hpr).
    rewrite fmap_cons, Hpid. cbn [scan]. destruct (decide (pid pr = last_pid k)) as [Hq|Hq].
    + rewrite !(bool_decide_true (pid pr = last_pid k)) by done. rewrite bind_modify. case_bool_decide as H1.
      * case_bool_decide; rewrite ?bind_modify, ?bind_skip, ?bind_modify; by destruct k.
      * specialize (IH fuel (set_last_pid (last_pid k + 1) k) (ListLink p)). simpl in IH.
        change (pidof (set_last_pid _ k)) with (pidof k) in IH.
        destruct (scan (pidof k <$> l) (last_pid k + 1) (next_safe k)) as [[b lp] ns].
        rewrite IH; [done|simpl in Hf; lia|done|done].
    + rewrite !(bool_decide_false (pid pr = last_pid k)) by done. case_bool_decide as H1.
      * rewrite bind_modify. specialize (IH fuel (set_next_safe (pid pr) k) (ListLink p)). simpl in IH.
        change (pidof (set_next_safe _ k)) with (pidof k) in IH.
        destruct (scan (pidof k <$> l) (last_pid k) (pid pr)) as [[b lp] ns].
        rewrite IH; [done|simpl in Hf; lia|done|done].
      * specialize (IH fuel k (ListLink p)).
        destruct (scan (pidof k <$> l) (last_pid k) (next_safe k)) as [[b lp] ns].
        apply IH; [simpl in Hf; lia|done|done].
Qed.

Lemma pid_repeat_run turns fuel k l u :
  (length l < fuel)%nat → path k ProcList l ProcList → present k l → next_safe k = MAX_PID →
  1 ≤ u < MAX_PID → u ∉ pidof k <$> l → 1 ≤ last_pid k < MAX_PID →
  (length (ahead u (pidof k <$> l) (last_pid k)) < turns)%nat →
  ∃ lp ns, pid_repeat turns fuel k = Ret ((), set_pids ns lp k) ∧ 1 ≤ lp < ns ∧ ns ≤ MAX_PID ∧
    vacant (pidof k <$> l) lp ns.
Proof.
  revert k. induction turns as [|turns IH]; intros k Hf Hp Hpr Hns Hu Hul Hlp Ht; [lia|].
  cbn [pid_repeat]. pose proof (pid_scan_run fuel k ProcList l Hf Hp Hpr) as E. rewrite Hns in E.
  destruct (scan (pidof k <$> l) (last_pid k) MAX_PID) as [[b lp] ns] eqn:Es. mrun E. destruct b.
  - destruct (scan_progress u _ _ _ _ Hul Hu Hlp Es) as (-> & Hlp' & Hlen).
    destruct (IH (set_pids MAX_PID lp k)) as (lp2 & ns2 & E2 & ?); try done.
    + simpl. change (pidof (set_pids MAX_PID lp k)) with (pidof k). lia.
    + exists lp2, ns2. split; [done|]. done.
  - destruct (scan_false [] (pidof k <$> l) (last_pid k) MAX_PID lp ns ltac:(by intros ? ?%elem_of_nil) ltac:(lia) Es) as (Hv & ? & ?).
    exists lp, ns. split; [done|]. split; [lia|]. split; [lia|done].
Qed.

Lemma get_pid_run turns fuel k l :
  (length l < fuel)%nat → (length l < turns)%nat → path k ProcList l ProcList → present k l →
  Z.of_nat (length l) < MAX_PID - 1 → 0 ≤ last_pid k ≤ MAX_PID → next_safe k ≤ MAX_PID →
  vacant (pidof k <$> l) (last_pid k + 1) (next_safe k) →
  ∃ lp ns, get_pid turns fuel k = Ret (lp, set_pids ns lp k) ∧ 1 ≤ lp < ns ∧ ns ≤ MAX_PID ∧
    vacant (pidof k <$> l) lp ns ∧ (l = [] → MAX_PID ≤ last_pid k + 1 → lp = 1).
Proof.
  intros Hf Ht Hp Hpr Hlen Hlp Hns Hv. destruct (unused_pid (pidof k <$> l)) as (u & Hu & Hul).
  { by rewrite length_fmap. }
  assert (Hah : ∀ lp, (length (ahead u (pidof k <$> l) lp) < turns)%nat).
  { intros lp. eapply Nat.le_lt_trans; [|exact Ht]. unfold ahead.
    etransitivity; [apply length_filter|]. by rewrite length_fmap. }
  unfold get_pid. rewrite bind_gets, bind_modify. case_bool_decide as H1.
  - rewrite !bind_assoc, bind_modify. rewrite bind_assoc, bind_modify.
    destruct (pid_repeat_run turns fuel (set_pids MAX_PID 1 k) l u) as (lp & ns & E & ? & ? & ?); try done.
    exists lp, ns. split_and!; [by mrun E|lia|lia|done|done|]. intros -> _.
    destruct turns as [|turns]; [simpl in Ht; lia|]. cbn [pid_repeat] in E.
    pose proof (pid_scan_run fuel (set_pids MAX_PID 1 k) ProcList [] Hf Hp ltac:(constructor)) as Es.
    cbn [scan fmap list_fmap] in Es. rewrite (bind_Ret _ _ _ _ _ Es) in E.
    by apply (f_equal (λ o, match o with Ret (_, k) => last_pid k | _ => 0 end)) in E.
  - rewrite bind_assoc, bind_gets. simpl next_safe. case_bool_decide as H2.
    + rewrite bind_assoc, bind_modify.
      destruct (pid_repeat_run turns fuel (set_pids MAX_PID (last_pid k + 1) k) l u) as (lp & ns & E & ?); try done;
        [simpl; lia|].
      exists lp, ns. split; [by mrun E|]. split_and!; try tauto. lia.
    + rewrite bind_skip. exists (last_pid k + 1), (next_safe k). split_and!; [done|lia|lia|done|done|lia].
Qed.

(** ** find_proc *)
Definition hpath k (a : plink) (l : list Z) (z : plink) : Prop := chain (plinks k) a (HashLink <$> l) z.

Lemma find_loop_run fuel k n i a l :
  (length l < fuel)%nat → hpath k a l (HashList i) → present k l →
  find_loop fuel n (HashList i) a k =
    Ret (default NULL (head (filter (λ p, pidof k p = n) l)), k).
Proof.
  revert fuel a. induction l as [|p l IH]; intros fuel a Hf Hp Hpr; destruct fuel as [|fuel]; try (simpl in *; lia);
    cbn [find_loop].
  - destruct Hp as [Hn _]. mrun (next_run _ _ _ Hn). by rewrite bool_decide_false by tauto.
  - destruct Hp as [[Hn _] Hp]. apply Forall_cons in Hpr as [[pr Hpr] Hprs].
    mrun (next_run _ _ _ Hn). rewrite bool_decide_true by done. cbn [le2proc_hash].
    rewrite bind_mret. mrun (get_proc_run _ _ _ Hpr). rewrite filter_cons.
    assert (Hpid : pidof k p = pid pr) by (unfold pidof; by rewrite Hpr). rewrite Hpid.
    destruct (decide (pid pr = n)) as [Hq|Hq].
    + by rewrite (bool_decide_true (pid pr = n)) by done.
    + rewrite (bool_decide_false (pid pr = n)) by done. apply IH; [simpl in Hf; lia|done|done].
Qed.

(** ** The scheduler's walk *)
Lemma runnable_spec k p pr : procs k !! p = Some pr → runnable k p = bool_decide (state pr = PROC_RUNNABLE).
Proof. intros E. unfold runnable. by rewrite E. Qed.

Definition is_runnable k (p : Z) : Prop := runnable k p = true.
#[global] Instance is_runnable_dec k p : Decision (is_runnable k p) := decide (runnable k p = true).

(** A stretch without [last]: the walk stops at the first runnable process, or
    goes on at its end. *)
Lemma sched_walk k fuel last a l z nx :
  path k a l z → present k l → last ∉ ListLink <$> l →
  match head (filter (is_runnable k) l) with
  | Some p => sched_loop (length l + fuel) last a nx k = Ret (p, k)
  | None => sched_loop (length l + fuel) last a nx k =
            sched_loop fuel last (lastof a (ListLink <$> l)) (lastof nx l) k
  end.
Proof.
  revert a nx. induction l as [|p l IH]; intros a nx Hp Hpr Hlast; [done|].
  apply path_step in Hp as [Hn Hp]. apply Forall_cons in Hpr as [[pr Hpr] Hprs].
  rewrite fmap_cons, not_elem_of_cons in Hlast. destruct Hlast as [Hl1 Hl2].
  rewrite filter_cons. cbn [length Nat.add sched_loop]. mrun (next_run _ _ _ Hn).
  rewrite (bool_decide_true (ListLink p ≠ ProcList)) by done. cbn [le2proc_list]. rewrite bind_mret.
  mrun (get_proc_run _ _ _ Hpr). pose proof (runnable_spec _ _ _ Hpr) as Hr.
  destruct (decide (state pr = PROC_RUNNABLE)) as [Hs|Hs].
  - rewrite decide_True by (unfold is_runnable; rewrite Hr; by apply bool_decide_true). simpl.
    by rewrite (bool_decide_true (state pr = PROC_RUNNABLE)) by done.
  - rewrite decide_False by (unfold is_runnable; rewrite Hr, bool_decide_false; done).
    rewrite (bool_decide_false (state pr = PROC_RUNNABLE)) by done.
    rewrite (bool_decide_true (ListLink p ≠ last)) by congruence.
    specialize (IH (ListLink p) p Hp Hprs Hl2). rewrite fmap_cons, !lastof_cons. done.
Qed.
End Heap.
