(* ===== verification/ProcProps.v ===== *)
(** * Processes: the invariant of the process table and the main operations *)
From stdpp Require Import base gmap list fin_maps.
From Stdlib Require Import ZArith Lia.
From S2P Require Import Prelude DList Bits Printfmt Mmu Proc ProcPid BuddySpec Alloc.

#[local] Arguments pid_hashfn : simpl never.
#[local] Arguments hash32 : simpl never.
#[local] Arguments HASH_LIST_SIZE : simpl never.
#[local] Arguments MAX_PID : simpl never.

Section Table.
Context {A : Type}.
Implicit Types k : kernel A.

Definition bucket k (i : Z) (xs : list Z) : list Z := filter (λ p, pid_hashfn (pidof k p) = i) xs.

Record pinv k (xs : list Z) : Prop := {
  pv_lists : ∃ F, dlists (plinks k) F ∧ F !! ProcList = Some (ListLink <$> xs) ∧
    (∀ i, 0 ≤ i < HASH_LIST_SIZE → F !! HashList i = Some (HashLink <$> bucket k i xs)) ∧
    (∀ hd ys, F !! hd = Some ys → hd = ProcList ∨ ∃ i, hd = HashList i ∧ 0 ≤ i < HASH_LIST_SIZE);
  pv_links : ∀ p, (is_Some (procs k !! p) ↔ is_Some (plinks k !! ListLink p)) ∧
    (is_Some (procs k !! p) ↔ is_Some (plinks k !! HashLink p));
  pv_present : present k xs;
  pv_idle : is_Some (procs k !! idleproc k) ∧ idleproc k ≠ NULL ∧ idleproc k ∉ xs;
  pv_nonnull : NULL ∉ xs;
  pv_pids : NoDup (pidof k <$> xs);
  pv_range : ∀ p, p ∈ xs → 1 ≤ pidof k p < MAX_PID;
  pv_nr : nr_process k = Z.of_nat (length xs) + 1;
  pv_max : nr_process k ≤ MAX_PROCESS;
  pv_last : 0 ≤ last_pid k ≤ MAX_PID ∧ next_safe k ≤ MAX_PID ∧
    vacant (pidof k <$> xs) (last_pid k + 1) (next_safe k);
  pv_cur : current k = idleproc k ∨ current k ∈ xs;
  pv_mm : ∀ p pr, procs k !! p = Some pr → mm pr = NULL }.

Lemma pinv_path k xs : pinv k xs → path k ProcList xs ProcList.
Proof. intros Hi. destruct (pv_lists _ _ Hi) as (F & D & HF & _). by apply (dl_chain _ _ D). Qed.
Lemma pinv_NoDup k xs : pinv k xs → NoDup xs.
Proof. intros Hi. eapply NoDup_fmap_1, (pv_pids _ _ Hi). Qed.
Lemma pinv_cur k xs : pinv k xs → is_Some (procs k !! current k).
Proof.
  intros Hi. destruct (pv_cur _ _ Hi) as [->|Hin]; [apply (pv_idle _ _ Hi)|].
  pose proof (pv_present _ _ Hi) as Hp. unfold present in Hp. rewrite Forall_forall in Hp. by apply Hp.
Qed.

Lemma pidof_upd k p pr q : pidof (upd_procs (<[p := pr]>) k) q = if decide (q = p) then pid pr else pidof k q.
Proof.
  unfold pidof. simpl. destruct (decide (q = p)) as [->|Hne].
  - by rewrite lookup_insert_eq.
  - by rewrite lookup_insert_ne.
Qed.
Lemma upd_lookup_is_Some k p pr q :
  is_Some (procs k !! p) → is_Some (procs (upd_procs (<[p := pr]>) k) !! q) ↔ is_Some (procs k !! q).
Proof.
  intros Hp. simpl. destruct (decide (q = p)) as [->|Hne].
  - rewrite lookup_insert_eq. split; [done|by eexists].
  - by rewrite lookup_insert_ne.
Qed.

(** Changing a process, but neither its pid, if it is in the table, nor mm. *)
Lemma pinv_update k xs p pr pr' :
  pinv k xs → procs k !! p = Some pr → (p ∈ xs → pid pr' = pid pr) → mm pr' = NULL →
  pinv (upd_procs (<[p := pr']>) k) xs.
Proof.
  intros Hi Hpr Hpid Hmm. assert (Hs : is_Some (procs k !! p)) by by eexists.
  assert (Hpe : ∀ q, q ∈ xs → pidof (upd_procs (<[p := pr']>) k) q = pidof k q).
  { intros q Hq. rewrite pidof_upd. destruct (decide (q = p)) as [->|]; [|done].
    unfold pidof. rewrite Hpr. simpl. by apply Hpid. }
  assert (Hf : pidof (upd_procs (<[p := pr']>) k) <$> xs = pidof k <$> xs).
  { apply list_fmap_ext. intros i q Hq. apply Hpe. by eapply list_elem_of_lookup_2. }
  destruct Hi as [Hl Hk Hp Hid Hnn Hnd Hr Hnr Hmx Hla Hcu Hm]. split; try done.
  - destruct Hl as (F & D & H1 & H2 & H3). exists F. split_and!; [done|done| |done]. intros i Hi.
    rewrite H2 by done. do 2 f_equal. unfold bucket. apply filter_ext_in.
    intros q Hq. by rewrite Hpe.
  - intros q. rewrite !upd_lookup_is_Some by done. apply Hk.
  - eapply Forall_impl; [done|]. intros q ?. by apply upd_lookup_is_Some.
  - split; [|apply Hid]. apply upd_lookup_is_Some; [done|apply Hid].
  - by rewrite Hf.
  - intros q Hq. rewrite Hpe by done. by apply Hr.
  - by rewrite Hf.
  - intros q prq. simpl. intros [[<- <-]|[_ ?]]%lookup_insert_Some; [done|by eapply Hm].
Qed.

(** A new process, not yet in the table. *)
Lemma pinv_new k xs p pr :
  pinv k xs → procs k !! p = None → mm pr = NULL →
  pinv (upd_procs (<[p := pr]>) (upd_links (fresh_links p) k)) xs.
Proof.
  intros Hi Hp Hmm.
  assert (Hne : ∀ q, is_Some (procs k !! q) → q ≠ p) by (intros q [? ?] ->; congruence).
  assert (Hpe : ∀ q, q ∈ xs → q ≠ p).
  { intros q Hq. apply Hne. pose proof (pv_present _ _ Hi) as Hx. unfold present in Hx.
    rewrite Forall_forall in Hx. by apply Hx. }
  assert (Hpid : ∀ q, q ∈ xs → pidof (upd_procs (<[p := pr]>) (upd_links (fresh_links p) k)) q = pidof k q).
  { intros q Hq. rewrite pidof_upd. rewrite decide_False by by apply Hpe. done. }
  assert (Hf : pidof (upd_procs (<[p := pr]>) (upd_links (fresh_links p) k)) <$> xs = pidof k <$> xs).
  { apply list_fmap_ext. intros i q Hq. apply Hpid. by eapply list_elem_of_lookup_2. }
  assert (Hln : plinks k !! ListLink p = None ∧ plinks k !! HashLink p = None).
  { destruct (pv_links _ _ Hi p) as [H1 H2]. rewrite Hp in H1, H2.
    split; apply eq_None_not_Some; rewrite <-?H1, <-?H2; by intros [? ?]. }
  destruct Hi as [Hl Hk Hpr Hid Hnn Hnd Hr Hnr Hmx Hla Hcu Hm]. split; try done.
  - destruct Hl as (F & D & H1 & H2 & H3). exists F. split_and!; [|done| |done].
    + apply dlists_new; [apply dlists_new; [done|apply Hln]|]. rewrite lookup_insert_ne by done. apply Hln.
    + intros i Hi. rewrite H2 by done. do 2 f_equal. unfold bucket. apply filter_ext_in.
      intros q Hq. by rewrite Hpid.
  - intros q. simpl. unfold fresh_links. destruct (decide (q = p)) as [->|Hq].
    + rewrite !lookup_insert_eq. rewrite lookup_insert_ne, lookup_insert_eq by done.
      split; split; by eexists.
    + rewrite !lookup_insert_ne by congruence. apply Hk.
  - eapply Forall_impl; [done|]. intros q Hq. simpl. by rewrite lookup_insert_ne by (symmetry; by apply Hne).
  - simpl. split; [|apply Hid]. rewrite lookup_insert_ne by (symmetry; by apply Hne, Hid). apply Hid.
  - by rewrite Hf.
  - intros q Hq. rewrite Hpid by done. by apply Hr.
  - by rewrite Hf.
  - intros q prq. simpl. intros [[<- <-]|[_ ?]]%lookup_insert_Some; [done|by eapply Hm].
Qed.

(** ** Entering a process into the table *)
Definition enter (turns fuel : nat) (p : Z) : M (kernel A) unit :=
  n ← get_pid turns fuel;
  set_proc p (set_pid n);;
  hash_proc p;;
  zoom plinks_lens (list_add ProcList (ListLink p));;
  nr ← gets nr_process; modify (set_nr_process (nr + 1)).

Lemma hash_range n : 0 ≤ pid_hashfn n < HASH_LIST_SIZE.
Proof. apply (hash32_range (u32 n) HASH_SHIFT). unfold HASH_SHIFT. lia. Qed.

Lemma enter_spec turns fuel k xs p pr :
  pinv k xs → procs k !! p = Some pr → p ∉ xs → p ≠ NULL → p ≠ idleproc k → nr_process k < MAX_PROCESS →
  (length xs < fuel)%nat → (length xs < turns)%nat →
  ∃ n ns l', enter turns fuel p k = Ret ((), set_nr_process (nr_process k + 1)
       (upd_links (λ _, l') (upd_procs (<[p := set_pid n pr]>) (set_pids ns n k)))) ∧
    1 ≤ n < MAX_PID ∧ n ∉ pidof k <$> xs ∧ (xs = [] → MAX_PID ≤ last_pid k + 1 → n = 1) ∧
    pinv (set_nr_process (nr_process k + 1)
       (upd_links (λ _, l') (upd_procs (<[p := set_pid n pr]>) (set_pids ns n k)))) (p :: xs).
Proof.
  intros Hi Hpr Hpx Hpn Hpi Hnr Hf Ht.
  destruct (get_pid_run turns fuel k xs) as (n & ns & E & Hn & Hns & Hv & Hone); try done; try apply Hi.
  { by apply pinv_path. }
  { pose proof (pv_nr _ _ Hi). unfold MAX_PID, MAX_PROCESS in *. lia. }
  assert (Hnx : n ∉ pidof k <$> xs) by (intros Hx; apply (Hv n Hx); lia).
  pose (k1 := upd_procs (<[p := set_pid n pr]>) (set_pids ns n k)).
  assert (Hpe : ∀ q, q ∈ xs → pidof k1 q = pidof k q).
  { intros q Hq. unfold k1. rewrite pidof_upd. rewrite decide_False by (by intros ->). done. }
  assert (Hpp : pidof k1 p = n) by (unfold k1; by rewrite pidof_upd, decide_True).
  assert (Hfm : pidof k1 <$> xs = pidof k <$> xs).
  { apply list_fmap_ext. intros i q Hq. apply Hpe. by eapply list_elem_of_lookup_2. }
  destruct (pv_lists _ _ Hi) as (F & D & H1 & H2 & H3).
  assert (Hun : unowned F (HashLink p) ∧ unowned F (ListLink p)).
  { split; intros hd (ys & Hys & Hin); destruct (H3 _ _ Hys) as [->|(i & -> & Hir)].
    - rewrite H1 in Hys. injection Hys as <-. apply elem_of_cons in Hin as [?|Hin]; [done|].
      by apply list_elem_of_fmap in Hin as (? & ? & ?).
    - rewrite H2 in Hys by done. injection Hys as <-. apply elem_of_cons in Hin as [?|Hin]; [done|].
      apply list_elem_of_fmap in Hin as (q & [= <-] & Hq). by apply list_elem_of_filter in Hq as [_ ?].
    - rewrite H1 in Hys. injection Hys as <-. apply elem_of_cons in Hin as [?|Hin]; [done|].
      by apply list_elem_of_fmap in Hin as (q & [= <-] & Hq).
    - rewrite H2 in Hys by done. injection Hys as <-. apply elem_of_cons in Hin as [?|Hin]; [done|].
      by apply list_elem_of_fmap in Hin as (q & ? & Hq). }
  pose proof (hash_range n) as Hh. destruct (pv_links _ _ Hi p) as [Hl1 Hl2].
  destruct (list_add_head_dlists (plinks k) F (HashList (pid_hashfn n)) (HashLink <$> bucket k (pid_hashfn n) xs)
    (HashLink p)) as (l1 & E1 & D1 & Hd1); [done|by apply H2|apply Hun|by apply Hl2|].
  destruct (list_add_head_dlists l1 (<[HashList (pid_hashfn n) := HashLink p :: (HashLink <$> bucket k (pid_hashfn n) xs)]> F)
    ProcList (ListLink <$> xs) (ListLink p)) as (l2 & E2 & D2 & Hd2); [done| | | |].
  { by rewrite lookup_insert_ne by done. }
  { intros hd (ys & Hys & Hin). apply lookup_insert_Some in Hys as [[<- <-]|[_ Hys]].
    - apply elem_of_cons in Hin as [?|Hin]; [done|]. apply elem_of_cons in Hin as [?|Hin]; [done|].
      by apply list_elem_of_fmap in Hin as (q & ? & Hq).
    - apply (proj2 Hun hd). by exists ys. }
  { eapply dom_is_Some; [done|]. by apply Hl1. }
  exists n, ns, l2. split_and!; [|lia|lia|done|done|].
  - unfold enter. mrun E. mrun (set_proc_run (set_pids ns n k) p (set_pid n) pr Hpr).
    assert (Eh : hash_proc p k1 = Ret ((), upd_links (λ _, l1) k1)).
    { unfold hash_proc. erewrite bind_Ret; [|apply get_proc_run; apply lookup_insert_eq]. by apply plinks_run. }
    mrun Eh. erewrite bind_Ret; [|by apply plinks_run]. by rewrite bind_gets.
  - destruct Hi as [_ Hk Hp Hid Hnn Hnd Hr Hnr' Hmx Hla Hcu Hm].
    assert (Hs : is_Some (procs k !! p)) by by eexists.
    assert (Hdom : ∀ a, is_Some (l2 !! a) ↔ is_Some (plinks k !! a)).
    { intros a. rewrite <-!elem_of_dom. by rewrite Hd2, Hd1. }
    split; cbn [procs plinks idleproc current nr_process next_safe last_pid set_nr_process upd_links upd_procs set_pids].
    + exists (<[ProcList := ListLink <$> p :: xs]>
        (<[HashList (pid_hashfn n) := HashLink p :: (HashLink <$> bucket k (pid_hashfn n) xs)]> F)).
      split_and!; [done|by rewrite lookup_insert_eq| |].
      * intros i Hir. rewrite lookup_insert_ne by done. unfold bucket. rewrite filter_cons.
        change (pidof _ p) with (pidof k1 p). rewrite Hpp.
        assert (Eb : filter (λ q, pid_hashfn (pidof k1 q) = i) xs = bucket k i xs).
        { apply filter_ext_in. intros q Hq. by rewrite Hpe. }
        destruct (decide (pid_hashfn n = i)) as [<-|Hne].
        -- rewrite lookup_insert_eq. rewrite fmap_cons. do 3 f_equal. done.
        -- rewrite lookup_insert_ne by congruence. rewrite H2 by done. do 2 f_equal. done.
      * intros hd ys [[<- _]|[_ [[<- _]|[_ Hy]]%lookup_insert_Some]]%lookup_insert_Some; [by left| |by eapply H3].
        right. by eexists.
    + intros q. rewrite !Hdom. change (<[p := set_pid n pr]> (procs k)) with (procs (upd_procs (<[p := set_pid n pr]>) k)).
      rewrite upd_lookup_is_Some by done. apply Hk.
    + constructor; [simpl; rewrite lookup_insert_eq; by eexists|].
      eapply Forall_impl; [done|]. intros q ?. by apply (upd_lookup_is_Some k p (set_pid n pr) q).
    + split_and!; [by apply (upd_lookup_is_Some k p (set_pid n pr)); [done|apply Hid]|apply Hid|].
      apply not_elem_of_cons. split; [done|apply Hid].
    + apply not_elem_of_cons. done.
    + change (NoDup (pidof k1 p :: (pidof k1 <$> xs))). rewrite Hpp, Hfm. by constructor.
    + intros q [->|Hq]%elem_of_cons; [change (1 ≤ pidof k1 p < MAX_PID); rewrite Hpp; lia|].
      change (1 ≤ pidof k1 q < MAX_PID). rewrite Hpe by done. by apply Hr.
    + cbn [length]; lia.
    + lia.
    + split_and!; [lia|lia|lia|]. change (vacant (pidof k1 p :: (pidof k1 <$> xs)) (n + 1) ns).
      rewrite Hpp, Hfm. intros q [->|Hq]%elem_of_cons; [lia|]. specialize (Hv q Hq). lia.
    + destruct Hcu as [?|?]; [by left|right; by right].
    + intros q prq [[<- <-]|[_ ?]]%lookup_insert_Some; [|by eapply Hm]. simpl. by eapply Hm.
Qed.

(** ** The scheduler *)

(** The processes in the order in which the scheduler looks at them: the ones
    after the current one, then from the front of the list to the current one. *)
Definition candidates k (xs : list Z) : list Z :=
  if bool_decide (current k = idleproc k) then xs
  else match list_find (λ p, p = current k) xs with
       | Some (i, _) => drop (S i) xs ++ take (S i) xs
       | None => xs
       end.
Definition next_proc k (xs : list Z) : Z :=
  default (idleproc k) (head (filter (is_runnable k) (candidates k xs))).

Lemma candidates_split k xs l1 l2 :
  current k ≠ idleproc k → xs = l1 ++ current k :: l2 → NoDup xs → candidates k xs = l2 ++ l1 ++ [current k].
Proof.
  intros Hne -> Hnd. unfold candidates. rewrite bool_decide_false by done.
  assert (Hf : list_find (λ p, p = current k) (l1 ++ current k :: l2) = Some (length l1, current k)).
  { apply list_find_Some. split_and!; [by apply list_lookup_middle|done|].
    intros j y Hj Hlt ->. apply NoDup_app in Hnd as (_ & Hd & _). apply (Hd (current k)).
    - rewrite lookup_app_l in Hj by done. by eapply list_elem_of_lookup_2.
    - by left. }
  rewrite Hf. rewrite cons_middle, (app_assoc l1).
  assert (Hlen : S (length l1) = length (l1 ++ [current k])) by (rewrite length_app; simpl; lia).
  by rewrite Hlen, drop_app_length, take_app_length.
Qed.

Lemma elem_of_candidates k xs p : p ∈ candidates k xs ↔ p ∈ xs.
Proof.
  unfold candidates. case_bool_decide; [done|]. destruct (list_find _ _) as [[i q]|]; [|done].
  rewrite <-(take_drop (S i) xs) at 3. rewrite !elem_of_app. tauto.
Qed.

Lemma present_app k l1 l2 : present k (l1 ++ l2) ↔ present k l1 ∧ present k l2.
Proof. apply Forall_app. Qed.

Lemma head_filter_app {B} (P : B → Prop) `{∀ x, Decision (P x)} (l1 l2 : list B) :
  head (filter P (l1 ++ l2)) = match head (filter P l1) with Some x => Some x | None => head (filter P l2) end.
Proof. rewrite filter_app. by destruct (filter P l1). Qed.

Lemma path_lastof k a l z : path k a l z → nxt (plinks k) (lastof a (ListLink <$> l)) = Some z.
Proof.
  unfold path. intros Hc. rewrite <-(app_nil_r (ListLink <$> l)) in Hc. apply chain_split in Hc as [Hc _].
  done.
Qed.

Definition sched_result k xs (r : Z) : Prop :=
  match head (filter (is_runnable k) (candidates k xs)) with
  | Some p => r = p
  | None => r = NULL ∨ (r ∈ xs ∧ runnable k r = false)
  end.

Lemma not_runnable_in k l p : head (filter (is_runnable k) l) = None → p ∈ l → runnable k p = false.
Proof.
  intros Hh Hp. destruct (runnable k p) eqn:E; [|done]. exfalso.
  assert (Hin : p ∈ filter (is_runnable k) l) by by apply list_elem_of_filter.
  destruct (filter (is_runnable k) l); [by apply elem_of_nil in Hin|done].
Qed.

Lemma sched_loop_idle k xs fuel :
  pinv k xs → current k = idleproc k → (length xs < fuel)%nat →
  ∃ r, sched_loop fuel ProcList ProcList NULL k = Ret (r, k) ∧ sched_result k xs r.
Proof.
  intros Hi Hc Hf. pose proof (sched_walk k (fuel - length xs) ProcList ProcList xs ProcList NULL) as Hw.
  replace (length xs + (fuel - length xs))%nat with fuel in Hw by lia.
  specialize (Hw (pinv_path _ _ Hi) (pv_present _ _ Hi)).
  specialize (Hw ltac:(intros (? & ? & ?)%list_elem_of_fmap; done)).
  unfold sched_result, candidates. rewrite bool_decide_true by done.
  destruct (head (filter (is_runnable k) xs)) as [p|] eqn:E; [by exists p|].
  destruct (fuel - length xs)%nat as [|f] eqn:Ef; [lia|]. cbn [sched_loop] in Hw.
  rewrite (bind_Ret _ _ _ _ _ (next_run _ _ _ (path_lastof _ _ _ _ (pinv_path _ _ Hi)))) in Hw.
  rewrite !(bool_decide_false (ProcList ≠ ProcList)) in Hw by tauto.
  exists (lastof NULL xs). split; [done|].
  pose proof (lastof_in NULL xs) as [->|Hin]%elem_of_cons; [by left|right].
  split; [done|by eapply not_runnable_in].
Qed.

Lemma sched_loop_listed k xs fuel :
  pinv k xs → current k ≠ idleproc k → (length xs + 1 < fuel)%nat →
  ∃ r, sched_loop fuel (ListLink (current k)) (ListLink (current k)) NULL k = Ret (r, k) ∧ sched_result k xs r.
Proof.
  intros Hi Hc Hf. destruct (pv_cur _ _ Hi) as [?|Hin]; [done|].
  pose proof (pinv_NoDup _ _ Hi) as Hnd. pose proof (pv_present _ _ Hi) as Hpr.
  pose proof (pinv_path _ _ Hi) as Hp. destruct (list_elem_of_split _ _ Hin) as (l1 & l2 & Ex).
  unfold sched_result. rewrite (candidates_split k xs l1 l2) by done.
  assert (Hlen : length xs = (length l1 + S (length l2))%nat) by (rewrite Ex, length_app; done).
  pose proof Hnd as Hnd0. rewrite Ex in Hpr, Hp, Hnd. apply present_app in Hpr as [Hpr1 Hpr2].
  pose proof Hpr2 as Hpr2'. apply Forall_cons in Hpr2 as [[prc Hprc] Hpr2].
  unfold path in Hp. rewrite fmap_app, fmap_cons in Hp. apply chain_app in Hp as [Hp1 Hp2].
  apply NoDup_app in Hnd as (_ & Hd & Hnd2). apply NoDup_cons in Hnd2 as [Hc2 _].
  assert (Hl2 : ListLink (current k) ∉ ListLink <$> l2).
  { by intros (? & [= <-] & ?)%list_elem_of_fmap. }
  assert (Hl1 : ListLink (current k) ∉ ListLink <$> l1).
  { intros (? & [= <-] & Hx)%list_elem_of_fmap. apply (Hd _ Hx). by left. }
  pose proof (sched_walk k (fuel - length l2) (ListLink (current k)) (ListLink (current k)) l2 ProcList NULL Hp2 Hpr2 Hl2) as Hw2.
  replace (length l2 + (fuel - length l2))%nat with fuel in Hw2 by lia. rewrite !head_filter_app.
  destruct (head (filter (is_runnable k) l2)) as [p|] eqn:E2; [by exists p|].
  destruct (fuel - length l2)%nat as [|f2] eqn:Ef2; [lia|]. cbn [sched_loop] in Hw2.
  rewrite (bind_Ret _ _ _ _ _ (next_run _ _ _ (path_lastof _ _ _ _ Hp2))) in Hw2.
  rewrite (bool_decide_false (ProcList ≠ ProcList)), (bool_decide_true (ProcList ≠ _)) in Hw2 by (done || tauto).
  pose proof (sched_walk k (f2 - length l1) (ListLink (current k)) ProcList l1 (ListLink (current k)) (lastof NULL l2) Hp1 Hpr1 Hl1) as Hw1.
  replace (length l1 + (f2 - length l1))%nat with f2 in Hw1 by lia. rewrite Hw2.
  destruct (head (filter (is_runnable k) l1)) as [p|] eqn:E1; [by exists p|].
  destruct (f2 - length l1)%nat as [|f1] eqn:Ef1; [lia|]. cbn [sched_loop] in Hw1.
  rewrite (bind_Ret _ _ _ _ _ (next_run _ _ _ (path_lastof _ _ _ _ Hp1))) in Hw1.
  rewrite (bool_decide_true (ListLink (current k) ≠ ProcList)) in Hw1 by done. cbn [le2proc_list] in Hw1.
  rewrite bind_mret, (bind_Ret _ _ _ _ _ (get_proc_run _ _ _ Hprc)) in Hw1.
  rewrite (bool_decide_false (ListLink (current k) ≠ ListLink (current k))) in Hw1 by tauto.
  exists (current k). rewrite Hw1. rewrite filter_cons, filter_nil. split; [by case_bool_decide|].
  destruct (decide _) as [Hr|Hr]; [done|]. simpl. right. split; [done|].
  unfold is_runnable in Hr. by destruct (runnable k (current k)).
Qed.

Lemma sched_loop_spec k xs fuel :
  pinv k xs → (length xs + 1 < fuel)%nat →
  ∃ r, (let last := if bool_decide (current k = idleproc k) then ProcList else ListLink (current k) in
        sched_loop fuel last last NULL k) = Ret (r, k) ∧ sched_result k xs r.
Proof.
  intros Hi Hf. cbv zeta. case_bool_decide as Hc.
  - apply sched_loop_idle; [done|done|lia].
  - by apply sched_loop_listed.
Qed.

(** Two states with the same table: only run counts, the reschedule flag and
    saved registers differ. *)
Record same_table k k' : Prop := {
  st_procs : ∀ p pr, procs k !! p = Some pr → ∃ pr', procs k' !! p = Some pr' ∧ state pr' = state pr ∧
    pid pr' = pid pr ∧ kstack pr' = kstack pr ∧ parent pr' = parent pr ∧ pgdir_addr pr' = pgdir_addr pr ∧
    mm pr' = mm pr;
  st_dom : ∀ p, is_Some (procs k' !! p) ↔ is_Some (procs k !! p);
  st_plinks : plinks k' = plinks k;
  st_idle : idleproc k' = idleproc k;
  st_pids : next_safe k' = next_safe k ∧ last_pid k' = last_pid k ∧ nr_process k' = nr_process k }.

Lemma same_table_runnable k k' p : same_table k k' → runnable k' p = runnable k p.
Proof.
  intros H. unfold runnable. destruct (procs k !! p) as [pr|] eqn:E.
  - destruct (st_procs _ _ H p pr E) as (pr' & -> & Hs & _). by rewrite Hs.
  - destruct (procs k' !! p) eqn:E'; [|done]. exfalso.
    assert (is_Some (procs k !! p)) as [? ?] by (apply (st_dom _ _ H); by eexists). congruence.
Qed.
Lemma same_table_pidof k k' p : same_table k k' → pidof k' p = pidof k p.
Proof.
  intros H. unfold pidof. destruct (procs k !! p) as [pr|] eqn:E.
  - destruct (st_procs _ _ H p pr E) as (pr' & -> & _ & Hs & _). simpl. done.
  - destruct (procs k' !! p) eqn:E'; [|done]. exfalso.
    assert (is_Some (procs k !! p)) as [? ?] by (apply (st_dom _ _ H); by eexists). congruence.
Qed.
Lemma same_table_pinv k k' xs :
  same_table k k' → (current k' = idleproc k ∨ current k' ∈ xs) → pinv k xs → pinv k' xs.
Proof.
  intros Hs Hcur [Hl Hk Hp Hid Hnn Hnd Hr Hnr Hmx Hla _ Hm].
  assert (Hf : pidof k' <$> xs = pidof k <$> xs).
  { apply list_fmap_ext. intros. by apply same_table_pidof. }
  destruct (st_pids _ _ Hs) as (Hns & Hlp & Hn).
  split; rewrite ?Hf, ?(st_idle _ _ Hs), ?Hns, ?Hlp, ?Hn, ?(st_plinks _ _ Hs); try done.
  - destruct Hl as (F & D & H1 & H2 & H3). exists F. split_and!; [done|done| |done]. intros i Hi.
    rewrite H2 by done. do 2 f_equal. apply filter_ext_in. intros q _. by rewrite (same_table_pidof k k').
  - intros p. rewrite (st_dom _ _ Hs). apply Hk.
  - eapply Forall_impl; [done|]. intros p ?. by apply (st_dom _ _ Hs).
  - split; [apply (st_dom _ _ Hs), Hid|apply Hid].
  - intros p Hin. rewrite (same_table_pidof k k') by done. by apply Hr.
  - intros p pr Hpr. assert (is_Some (procs k !! p)) as [pr0 Hpr0] by (apply (st_dom _ _ Hs); by eexists).
    destruct (st_procs _ _ Hs p pr0 Hpr0) as (pr' & E' & Hx). rewrite Hpr in E'. injection E' as <-.
    destruct Hx as (_ & _ & _ & _ & _ & ->). by eapply Hm.
Qed.
Lemma same_table_refl k : same_table k k.
Proof. split; [|done..]. intros p pr E. by exists pr. Qed.
Lemma same_table_trans k1 k2 k3 : same_table k1 k2 → same_table k2 k3 → same_table k1 k3.
Proof.
  intros [P1 D1 L1 I1 (N1 & M1 & R1)] [P2 D2 L2 I2 (N2 & M2 & R2)]. split; try congruence.
  - intros p pr E. destruct (P1 p pr E) as (pr1 & E1 & H1). destruct (P2 p pr1 E1) as (pr2 & E2 & H2).
    exists pr2. destruct H1 as (? & ? & ? & ? & ? & ?), H2 as (? & ? & ? & ? & ? & ?). split_and!; congruence.
  - intros p. by rewrite D2.
  - split_and!; congruence.
Qed.
Lemma same_table_upd k p pr f :
  procs k !! p = Some pr → state (f pr) = state pr ∧ pid (f pr) = pid pr ∧ kstack (f pr) = kstack pr ∧
    parent (f pr) = parent pr ∧ pgdir_addr (f pr) = pgdir_addr pr ∧ mm (f pr) = mm pr →
  same_table k (upd_procs (<[p := f pr]>) k).
Proof.
  intros Hpr Hf. split; try done.
  - intros q prq Hq. simpl. destruct (decide (q = p)) as [->|Hne].
    + rewrite lookup_insert_eq. exists (f pr). rewrite Hpr in Hq. injection Hq as <-. by split.
    + rewrite lookup_insert_ne by done. by exists prq.
  - intros q. apply upd_lookup_is_Some. by eexists.
Qed.
Lemma same_table_next k k' xs :
  same_table k k' → current k' = current k → next_proc k' xs = next_proc k xs.
Proof.
  intros Hs Hc. unfold next_proc, candidates. rewrite Hc, (st_idle _ _ Hs). do 2 f_equal.
  apply filter_ext_in. intros p _. unfold is_runnable. by rewrite (same_table_runnable k k').
Qed.

Lemma next_proc_in k xs : next_proc k xs = idleproc k ∨ next_proc k xs ∈ xs ∧ runnable k (next_proc k xs) = true.
Proof.
  unfold next_proc. destruct (filter (is_runnable k) (candidates k xs)) as [|p l] eqn:E; [by left|right].
  assert (Hin : p ∈ filter (is_runnable k) (candidates k xs)) by (rewrite E; by left).
  apply list_elem_of_filter in Hin as [? ?]. by rewrite <-(elem_of_candidates k).
Qed.

(** The scheduler's choice, from the result of the walk. *)
Lemma pick_run k xs r idle :
  pinv k xs → sched_result k xs r → idle = idleproc k →
  (b ← (if bool_decide (r = NULL) then mret false
        else pr ← get_proc r; mret (bool_decide (state pr = PROC_RUNNABLE)));
   mret (if (b : bool) then r else idle)) k = Ret (next_proc k xs, k).
Proof.
  intros Hi Hr ->. unfold sched_result, next_proc in *.
  destruct (filter (is_runnable k) (candidates k xs)) as [|p l] eqn:E; simpl in *.
  - destruct Hr as [->|[Hin Hn]]; [done|].
    rewrite bool_decide_false by (intros ->; by apply (pv_nonnull _ _ Hi)).
    pose proof (pv_present _ _ Hi) as Hp. unfold present in Hp. rewrite Forall_forall in Hp.
    destruct (Hp r Hin) as [pr Hpr]. rewrite bind_assoc. mrun (get_proc_run _ _ _ Hpr). rewrite bind_mret.
    by rewrite <-(runnable_spec _ _ _ Hpr), Hn.
  - subst r. assert (Hin : p ∈ filter (is_runnable k) (candidates k xs)) by (rewrite E; by left).
    apply list_elem_of_filter in Hin as [Hrn Hin%elem_of_candidates].
    rewrite bool_decide_false by (intros ->; by apply (pv_nonnull _ _ Hi)).
    pose proof (pv_present _ _ Hi) as Hp. unfold present in Hp. rewrite Forall_forall in Hp.
    destruct (Hp p Hin) as [pr Hpr]. rewrite bind_assoc. mrun (get_proc_run _ _ _ Hpr). rewrite bind_mret.
    by rewrite <-(runnable_spec _ _ _ Hpr), Hrn.
Qed.
End Table.
