(* ===== verification/ProcSpec.v ===== *)
(** * Processes: the contract

    schedule, do_fork and proc_init against the table of processes. *)
From stdpp Require Import base gmap list fin_maps.
From Stdlib Require Import ZArith Lia.
From S2P Require Import Prelude DList Bits Printfmt Mmu Proc ProcPid ProcProps BuddySpec Alloc.

#[local] Arguments pid_hashfn : simpl never.
#[local] Arguments HASH_LIST_SIZE : simpl never.
#[local] Arguments MAX_PID : simpl never.

Section Sched.
Context {A : Type}.
Implicit Types k : kernel A.

Lemma pinv_present k xs p : pinv k xs → p = idleproc k ∨ p ∈ xs → is_Some (procs k !! p).
Proof.
  intros Hi [->|Hp]; [apply (pv_idle _ _ Hi)|]. pose proof (pv_present _ _ Hi) as H. unfold present in H.
  rewrite Forall_forall in H. by apply H.
Qed.
Lemma next_present k xs : pinv k xs → is_Some (procs k !! next_proc k xs).
Proof. intros Hi. eapply pinv_present; [done|]. pose proof (next_proc_in k xs). tauto. Qed.

Lemma same_table_processor k c : same_table k (set_processor c k).
Proof. split; [|done..]. intros p pr E. by exists pr. Qed.
Lemma same_table_current k c : same_table k (set_current c k).
Proof. split; [|done..]. intros p pr E. by exists pr. Qed.

(** proc_run of another process. *)
Lemma proc_run_spec k p pr cpr :
  procs k !! p = Some pr → procs k !! current k = Some cpr → p ≠ current k →
  proc_run p k = Ret ((), set_processor (MkCpu (ctx pr) (u32 (kstack pr + KSTACKSIZE)) (pgdir_addr pr) false)
    (upd_procs (<[current k := set_ctx (regs (processor k)) cpr]>) (set_current p k))).
Proof.
  intros Hp Hc Hne. unfold proc_run. rewrite bind_gets, bool_decide_true by done.
  unfold local_irq_save. rewrite !bind_assoc, bind_gets, bind_assoc, bind_modify, bind_mret, bind_modify.
  erewrite bind_Ret; [|by apply get_proc_run]. unfold load_esp0, load_page_dir.
  rewrite !bind_assoc, bind_gets, bind_modify, !bind_assoc, bind_gets, bind_modify.
  unfold switch_to. rewrite bind_gets. erewrite bind_Ret; [|by apply set_proc_run].
  erewrite bind_Ret; [|apply get_proc_run; simpl; by rewrite lookup_insert_ne]. by rewrite bind_gets.
Qed.

Lemma schedule_spec k xs fuel :
  pinv k xs → (length xs + 1 < fuel)%nat →
  ∃ k', schedule fuel k = Ret ((), k') ∧ same_table k k' ∧ pinv k' xs ∧ current k' = next_proc k xs ∧
    (next_proc k xs = current k → processor k' = processor k) ∧
    (next_proc k xs ≠ current k → ∃ pr cpr, procs k !! next_proc k xs = Some pr ∧
       procs k' !! current k = Some cpr ∧ ctx cpr = regs (processor k) ∧
       processor k' = MkCpu (ctx pr) (u32 (kstack pr + KSTACKSIZE)) (pgdir_addr pr) false) ∧
    (∃ pr pr', procs k !! next_proc k xs = Some pr ∧ procs k' !! next_proc k xs = Some pr' ∧
       runs pr' = s32 (runs pr + 1)) ∧ alloc k' = alloc k.
Proof.
  intros Hi Hf. destruct (pinv_cur _ _ Hi) as [cpr Hcpr]. destruct (next_present _ _ Hi) as [npr Hnpr].
  set (n := next_proc k xs) in *. set (c := processor k).
  pose (k1 := upd_procs (<[current k := set_need_resched false cpr]>)
                (set_processor (MkCpu (regs c) (esp0 c) (cr3 c) false) k)).
  assert (S1 : same_table k k1).
  { eapply same_table_trans; [apply same_table_processor|]. by apply (same_table_upd _ _ cpr (set_need_resched false)). }
  assert (I1 : pinv k1 xs) by (eapply same_table_pinv; [done| |done]; apply (pv_cur _ _ Hi)).
  assert (Hn1 : next_proc k1 xs = n) by by apply same_table_next.
  destruct (sched_loop_spec k1 xs fuel I1 Hf) as (r & Er & Hr).
  pose proof (pick_run k1 xs r (idleproc k) I1 Hr eq_refl) as Ep. rewrite Hn1 in Ep.
  apply bind_inv in Ep as (b & k1' & Eb & Ep). injection Ep as En ->.
  destruct (next_present _ _ I1) as [npr1 Hnpr1]. rewrite Hn1 in Hnpr1.
  assert (Hr1 : runs npr1 = runs npr ∧ (n ≠ current k → npr1 = npr)).
  { simpl in Hnpr1. apply lookup_insert_Some in Hnpr1 as [[Hx <-]|[Hx Hy]].
    - rewrite <-Hx, Hcpr in Hnpr. injection Hnpr as <-. done.
    - rewrite Hnpr in Hy. by injection Hy as <-. }
  pose (k2 := upd_procs (<[n := set_runs (s32 (runs npr1 + 1)) npr1]>) k1).
  assert (S2 : same_table k k2).
  { eapply same_table_trans; [done|].
    by apply (same_table_upd k1 n npr1 (λ pr, set_runs (s32 (runs pr + 1)) pr)). }
  assert (Erun : schedule fuel k = (if bool_decide (n ≠ current k) then proc_run n else local_irq_restore (iflag c)) k2).
  { unfold schedule, local_irq_save. rewrite bind_assoc, bind_gets, bind_assoc, bind_modify, bind_mret, bind_gets.
    erewrite bind_Ret; [|by apply set_proc_run]. rewrite bind_gets.
    erewrite bind_Ret; [|exact Er]. erewrite bind_Ret; [|exact Eb]. cbv zeta. simpl idleproc. rewrite En.
    erewrite bind_Ret; [|by apply set_proc_run]. simpl current. by case_bool_decide. }
  rewrite Erun. destruct Hr1 as [Hr1 Hr2]. pose proof (next_proc_in k xs) as Hnin. fold n in Hnin.
  case_bool_decide as Hne.
  - assert (Hcpr2 : procs k2 !! current k2 = Some (set_need_resched false cpr)).
    { simpl. by rewrite lookup_insert_ne, lookup_insert_eq. }
    assert (Hnpr2 : procs k2 !! n = Some (set_runs (s32 (runs npr1 + 1)) npr1)) by apply lookup_insert_eq.
    rewrite (proc_run_spec k2 n _ _ Hnpr2 Hcpr2 Hne). eexists. split; [done|].
    assert (S3 : same_table k2 (set_processor (MkCpu (ctx npr1) (u32 (kstack npr1 + KSTACKSIZE)) (pgdir_addr npr1) false)
      (upd_procs (<[current k := set_ctx (regs (processor k2)) (set_need_resched false cpr)]>) (set_current n k2)))).
    { eapply same_table_trans; [|apply same_table_processor]. eapply same_table_trans; [apply same_table_current|].
      by apply (same_table_upd (set_current n k2) (current k) (set_need_resched false cpr) (set_ctx (regs (processor k2)))). }
    assert (S4 := same_table_trans _ _ _ S2 S3). split_and!; [exact S4| |done|done| | |done].
    + eapply same_table_pinv; [exact S4| |done]. simpl. tauto.
    + intros _. exists npr, (set_ctx (regs c) (set_need_resched false cpr)).
      specialize (Hr2 Hne). subst npr1. split_and!; [done|by apply lookup_insert_eq|done|done].
    + exists npr, (set_runs (s32 (runs npr1 + 1)) npr1). split_and!; [done| |simpl; by rewrite Hr1].
      simpl. rewrite lookup_insert_ne by done. apply lookup_insert_eq.
  - assert (Hnc : n = current k) by (destruct (decide (n = current k)); tauto).
    unfold local_irq_restore. rewrite bind_gets. eexists. split; [done|].
    assert (S3 : same_table k (set_processor (MkCpu (regs (processor k2)) (esp0 (processor k2)) (cr3 (processor k2)) (iflag c)) k2)).
    { eapply same_table_trans; [exact S2|apply same_table_processor]. }
    split_and!; [exact S3| |done| |done| |done].
    + eapply same_table_pinv; [exact S3| |done]. apply (pv_cur _ _ Hi).
    + intros _. simpl. fold c. by destruct c.
    + exists npr, (set_runs (s32 (runs npr1 + 1)) npr1). split_and!; [done| |simpl; by rewrite Hr1].
      apply lookup_insert_eq.
Qed.
End Sched.

(** ** do_fork *)
Section Fork.
Context {A : Type} (kmalloc : Z → M A Z) (kfree : Z → M A unit).
Context (alloc_pages : Z → M A (option Z)) (free_pages : Z → Z → M A unit) (np : Z).
Context (mem : A → gset Z → list (Z * Z) → Prop).
Context `{HA : !KernelAlloc kmalloc kfree alloc_pages free_pages np mem}.
Context (boot_pgdir_p bootstack forkret kernel_thread_entry : Z).
Implicit Types k : kernel A.

Definition new_proc : proc_struct :=
  MkProc PROC_UNINIT (-1) 0 0 false NULL NULL zero_context NULL boot_pgdir_p 0 (replicate 16 0).

(** The child's trap frame. *)
Definition child_frame (stack : Z) (t : trapframe) : trapframe :=
  let r := tf_regs t in
  MkTf (MkRegs (reg_edi r) (reg_esi r) (reg_ebp r) (reg_oesp r) (reg_ebx r) (reg_edx r) (reg_ecx r) 0)
    (tf_es t) (tf_padding1 t) (tf_ds t) (tf_padding2 t) (tf_trapno t) (tf_err t) (tf_eip t) (tf_cs t)
    (tf_padding3 t) (Z.lor (tf_eflags t) FL_IF) stack (tf_ss t) (tf_padding4 t).

Lemma alloc_run {B} (m : M A B) k b a : m (alloc k) = Ret (b, a) → zoom alloc_lens m k = Ret (b, set_alloc a k).
Proof. intros E. by apply (zoom_Ret alloc_lens). Qed.

Lemma alloc_proc_spec k O R :
  mem (alloc k) O R →
  (∃ a, alloc_proc kmalloc boot_pgdir_p k = Ret (NULL, set_alloc a k) ∧
     kmalloc sizeof_proc_struct (alloc k) = Ret (NULL, a) ∧ mem a O R) ∨
  (∃ p a, alloc_proc kmalloc boot_pgdir_p k =
       Ret (p, upd_procs (<[p := new_proc]>) (upd_links (fresh_links p) (set_alloc a k))) ∧
     kmalloc sizeof_proc_struct (alloc k) = Ret (p, a) ∧ p ≠ NULL ∧ p ∉ O ∧ mem a ({[p]} ∪ O) R).
Proof.
  intros Hm. destruct (oa_kmalloc (ObjectAllocator := ka_objects R) (alloc k) O sizeof_proc_struct Hm ltac:(done))
    as (p & a & E & [[-> Ha]|(Hp & Hn & Ha)]); unfold alloc_proc.
  - left. exists a. erewrite bind_Ret; [|by apply alloc_run]. done.
  - right. exists p, a. erewrite bind_Ret; [|by apply alloc_run]. rewrite bool_decide_true by done.
    rewrite !bind_modify. done.
Qed.

Lemma enter_unfold turns fuel p {B} (m : M (kernel A) B) k :
  (n ← get_pid turns fuel; set_proc p (set_pid n);; hash_proc p;;
   zoom plinks_lens (list_add ProcList (ListLink p));;
   nr ← gets nr_process; modify (set_nr_process (nr + 1));; m) k = (enter turns fuel p;; m) k.
Proof. unfold enter, mbind, M_bind. repeat (case_match; simplify_eq; try done). Qed.

Lemma free_fresh_links p (l : gmap plink (list_entry plink)) :
  l !! ListLink p = None → l !! HashLink p = None →
  delete (ListLink p) (delete (HashLink p) (fresh_links p l)) = l.
Proof.
  intros H1 H2. unfold fresh_links. rewrite delete_insert_ne by done. rewrite (delete_insert_id l) by done.
  by apply delete_insert_id.
Qed.

Lemma kernel_ext k k' :
  procs k = procs k' → plinks k = plinks k' → idleproc k = idleproc k' → initproc k = initproc k' →
  current k = current k' → nr_process k = nr_process k' → next_safe k = next_safe k' →
  last_pid k = last_pid k' → tframes k = tframes k' → processor k = processor k' → alloc k = alloc k' → k = k'.
Proof. destruct k, k'; simpl; congruence. Qed.

Lemma undo_new k p pr pr' a a2 a3 :
  procs k !! p = None → plinks k !! ListLink p = None → plinks k !! HashLink p = None →
  upd_procs (delete p) (upd_links (λ l, delete (ListLink p) (delete (HashLink p) l))
    (set_alloc a3 (set_alloc a2 (upd_procs (<[p := pr']>) (upd_procs (<[p := pr]>)
      (upd_links (fresh_links p) (set_alloc a k))))))) = set_alloc a3 k.
Proof.
  intros H1 H2 H3. apply kernel_ext; try reflexivity.
  - change (delete p (<[p := pr']> (<[p := pr]> (procs k))) = procs k).
    rewrite !delete_insert_eq. by rewrite delete_id.
  - by apply free_fresh_links.
Qed.

Definition fork_tail (turns fuel : nat) (p : Z) : M (kernel A) Z :=
  intr_flag ← local_irq_save;
  n ← get_pid turns fuel;
  set_proc p (set_pid n);;
  hash_proc p;;
  zoom plinks_lens (list_add ProcList (ListLink p));;
  nr ← gets nr_process; modify (set_nr_process (nr + 1));;
  local_irq_restore intr_flag;;
  wakeup_proc p;;
  pr ← get_proc p; mret (pid pr).

Lemma same_table_current_pinv k k' xs : same_table k k' → current k' = current k → pinv k xs → pinv k' xs.
Proof. intros Hs Hc Hi. eapply same_table_pinv; [done| |done]. rewrite Hc. apply (pv_cur _ _ Hi). Qed.

(** From the child prepared to the child in the table. *)
Lemma fork_tail_spec turns fuel k xs p pr :
  pinv k xs → procs k !! p = Some pr → p ∉ xs → p ≠ NULL → p ≠ idleproc k → nr_process k < MAX_PROCESS →
  state pr = PROC_UNINIT → (length xs < fuel)%nat → (length xs < turns)%nat →
  ∃ n ns l', let k' := upd_procs (<[p := set_state PROC_RUNNABLE (set_pid n pr)]>)
      (set_nr_process (nr_process k + 1) (upd_links (λ _, l') (set_pids ns n k))) in
    fork_tail turns fuel p k = Ret (n, k') ∧ 1 ≤ n < MAX_PID ∧ n ∉ pidof k <$> xs ∧
    (xs = [] → MAX_PID ≤ last_pid k + 1 → n = 1) ∧ pinv k' (p :: xs).
Proof.
  intros Hi Hpr Hpx Hp0 Hpi Hnr Hst Hf Ht. set (c := processor k).
  set (k1 := set_processor (MkCpu (regs c) (esp0 c) (cr3 c) false) k).
  assert (I1 : pinv k1 xs) by (eapply (same_table_current_pinv k); [apply same_table_processor|done|done]).
  destruct (enter_spec turns fuel k1 xs p pr) as (n & ns & l' & E & Hn & Hnx & Hone & I2); try done.
  exists n, ns, l'. cbv zeta. split_and!; [|lia|lia|done|done|].
  - unfold fork_tail, local_irq_save. rewrite bind_assoc, bind_gets, bind_assoc, bind_modify, bind_mret.
    rewrite enter_unfold. mrun E. unfold local_irq_restore. rewrite bind_assoc, bind_gets, bind_modify.
    unfold wakeup_proc. rewrite bind_assoc. erewrite bind_Ret; [|apply get_proc_run; apply lookup_insert_eq].
    rewrite bind_assoc, bind_assert by (simpl; by rewrite Hst).
    erewrite bind_Ret; [|apply set_proc_run; apply lookup_insert_eq].
    erewrite bind_Ret; [|apply get_proc_run; apply lookup_insert_eq].
    unfold mret, M_ret. simpl pid. do 2 f_equal. apply kernel_ext; try reflexivity.
    + apply insert_insert_eq.
    + change (MkCpu (regs c) (esp0 c) (cr3 c) (iflag c) = processor k). fold c. by destruct c.
  - eapply (pinv_update _ _ p _ (set_state PROC_RUNNABLE (set_pid n pr))) in I2;
      [|apply lookup_insert_eq|done|exact (pv_mm _ _ Hi p pr Hpr)].
    refine (same_table_current_pinv _ _ _ _ _ I2); [|done]. split; try done.
    + intros q prq Hq. exists prq. split; [|done]. rewrite <-Hq. symmetry. apply (f_equal (lookup q)), insert_insert_eq.
    + intros q. change (is_Some (<[p := set_state PROC_RUNNABLE (set_pid n pr)]> (procs k) !! q) ↔
        is_Some (<[p := set_state PROC_RUNNABLE (set_pid n pr)]> (<[p := set_pid n pr]> (procs k)) !! q)).
      by rewrite insert_insert_eq.
Qed.

(** The child's registers and trap frame. *)
Definition threaded (ta : Z) (pr : proc_struct) : proc_struct :=
  set_ctx (MkContext forkret ta (ebx (ctx pr)) (ecx (ctx pr)) (edx (ctx pr)) (esi (ctx pr)) (edi (ctx pr))
             (ebp (ctx pr))) (set_tf ta pr).
Lemma copy_thread_run k p pr stack t :
  procs k !! p = Some pr →
  let ta := u32 (kstack pr + KSTACKSIZE - sizeof_trapframe) in
  copy_thread forkret p stack t k =
    Ret ((), upd_procs (<[p := threaded ta pr]>) (upd_tframes (<[ta := child_frame stack t]>) k)).
Proof.
  intros Hp ta. unfold copy_thread. erewrite bind_Ret; [|by apply get_proc_run].
  erewrite bind_Ret; [|by apply set_proc_run]. rewrite bind_modify.
  erewrite set_proc_run; [|apply lookup_insert_eq]. do 2 f_equal. apply kernel_ext; try reflexivity.
  apply insert_insert_eq.
Qed.

Definition fork_failed k (O : gset Z) R (r : Z) k' : Prop :=
  nr_process k = MAX_PROCESS ∧ r = - E_NO_FREE_PROC ∧ k' = k ∨
  ∃ a, r = - E_NO_MEM ∧ k' = set_alloc a k ∧ mem a O R.

Record forked k xs (O : gset Z) R (stack : Z) (t : trapframe) (r : Z) k' (p i : Z) (pr : proc_struct) : Prop := {
  fk_range : 1 ≤ r < MAX_PID;
  fk_fresh : r ∉ pidof k <$> xs;
  fk_first : xs = [] → MAX_PID ≤ last_pid k + 1 → r = 1;
  fk_new : p ∉ O ∧ procs k' = <[p := pr]> (procs k);
  fk_inv : pinv k' (p :: xs);
  fk_mem : mem (alloc k') ({[p]} ∪ O) ((i, KSTACKPAGE) :: R);
  fk_proc : state pr = PROC_RUNNABLE ∧ pid pr = r ∧ parent pr = current k ∧
    kstack pr = KERNBASE + i * PGSIZE ∧ eip (ctx pr) = forkret ∧ esp (ctx pr) = tf pr;
  fk_frame : tf pr = kstack pr + KSTACKSIZE - sizeof_trapframe ∧
    tframes k' = <[tf pr := child_frame stack t]> (tframes k);
  fk_same : current k' = current k ∧ idleproc k' = idleproc k ∧ processor k' = processor k }.

(** The memory do_fork asks for, and whether it got it. *)
Definition fork_requests : M A bool :=
  p ← kmalloc sizeof_proc_struct;
  if bool_decide (p = NULL) then mret false
  else page ← alloc_pages KSTACKPAGE; mret (bool_decide (is_Some page)).

Lemma do_fork_cases turns fuel flags stack t k xs O R :
  pinv k xs → mem (alloc k) O R → (∀ p, is_Some (procs k !! p) → p ∈ O) → np ≤ KMEMSIZE / PGSIZE →
  (length xs < fuel)%nat → (length xs < turns)%nat →
  ∃ r k', do_fork kmalloc kfree alloc_pages free_pages np boot_pgdir_p forkret
            turns fuel flags stack t k = Ret (r, k') ∧
    ((fork_failed k O R r k' ∧ (nr_process k < MAX_PROCESS → ∃ a, fork_requests (alloc k) = Ret (false, a))) ∨
     ((∃ a, fork_requests (alloc k) = Ret (true, a)) ∧ ∃ p i pr, forked k xs O R stack t r k' p i pr)).
Proof.
  intros Hi Hm HO Hnp Hf Ht. unfold do_fork. rewrite bind_gets. case_bool_decide as Hnr.
  { eexists _, _. split; [done|]. left. split; [|lia]. left. pose proof (pv_max _ _ Hi). split_and!; [lia|done|done]. }
  destruct (alloc_proc_spec k O R Hm) as [(a & E & Ek & Ha)|(p & a & E & Ek & Hp0 & HpO & Ha)]; mrun E.
  { rewrite bool_decide_true by done. eexists _, _. split; [done|]. left. split; [right; by exists a|].
    intros _. exists a. unfold fork_requests. by rewrite (bind_Ret _ _ _ _ _ Ek). }
  rewrite (bool_decide_false (p = NULL)) by done. rewrite bind_gets.
  assert (Hpk : procs k !! p = None).
  { apply eq_None_not_Some. intros Hs. by apply HpO, HO. }
  erewrite bind_Ret; [|apply set_proc_run; apply lookup_insert_eq].
  set (k1 := upd_procs (<[p := set_parent (current k) new_proc]>) (upd_procs (<[p := new_proc]>)
    (upd_links (fresh_links p) (set_alloc a k)))).
  assert (Hp1 : procs k1 !! p = Some (set_parent (current k) new_proc)) by apply lookup_insert_eq.
  destruct (pa_alloc (PageAllocator := ka_pages ({[p]} ∪ O)) a R KSTACKPAGE Ha ltac:(unfold KSTACKPAGE; lia))
    as (r & a2 & E2 & Ha2).
  assert (Ereq : fork_requests (alloc k) = Ret (bool_decide (is_Some r), a2)).
  { unfold fork_requests. rewrite (bind_Ret _ _ _ _ _ Ek), bool_decide_false by done. by rewrite (bind_Ret _ _ _ _ _ E2). }
  unfold setup_kstack. rewrite bind_assoc. erewrite bind_Ret; [|apply alloc_run; exact E2].
  destruct r as [i|].
  2: { (* no kernel stack: the structure is freed *)
    rewrite bind_mret, bool_decide_true by done.
    destruct (oa_kfree (ObjectAllocator := ka_objects R) a2 ({[p]} ∪ O) p Ha2 ltac:(set_solver)) as (a3 & E3 & Ha3).
    unfold kfree_proc. rewrite bind_assoc. erewrite bind_Ret; [|by apply alloc_run].
    rewrite bind_assoc, !bind_modify. eexists _, _. split; [done|]. left. split; [|intros _; exists a2; by rewrite Ereq].
    right. exists a3. split_and!; [done| |].
    - destruct (pv_links _ _ Hi p) as [H1 H2]. rewrite Hpk in H1, H2.
      apply undo_new; [done|apply eq_None_not_Some; rewrite <-H1; by intros [? ?]|].
      apply eq_None_not_Some; rewrite <-H2; by intros [? ?].
    - replace (({[p]} ∪ O) ∖ {[p]}) with O in Ha3 by set_solver. done. }
  assert (Hir : 0 ≤ i < np ∧ i + 2 ≤ np).
  { destruct (pa_range (PageAllocator := ka_pages ({[p]} ∪ O)) a2 _ i KSTACKPAGE Ha2 ltac:(by left)).
    unfold KSTACKPAGE in *. lia. }
  destruct (page_kva_run (set_alloc a2 k1) np i ltac:(lia) Hnp) as [Ekva _].
  rewrite bind_assoc. erewrite bind_Ret; [|exact Ekva]. rewrite bind_assoc.
  erewrite bind_Ret; [|apply set_proc_run; exact Hp1]. rewrite bind_mret.
  rewrite (bool_decide_false (0 ≠ 0)) by tauto.
  set (pr2 := set_kstack (KERNBASE + i * PGSIZE) (set_parent (current k) new_proc)).
  set (k2 := upd_procs (<[p := pr2]>) (set_alloc a2 k1)).
  (* copy_mm *)
  destruct (pinv_cur _ _ Hi) as [cpr Hcpr]. pose proof (pv_mm _ _ Hi _ _ Hcpr) as Hmm.
  assert (Hcp : current k ≠ p) by congruence.
  assert (Hcpr2 : procs k2 !! current k2 = Some cpr).
  { simpl. rewrite !lookup_insert_ne by congruence. done. }
  unfold copy_mm. rewrite bind_assoc, bind_gets, bind_assoc. erewrite bind_Ret; [|apply get_proc_run; exact Hcpr2].
  rewrite bind_assoc, bind_assert by by apply bool_decide_true. rewrite bind_mret.
  rewrite (bool_decide_false (0 ≠ 0)) by tauto.
  (* copy_thread *)
  assert (Hp2 : procs k2 !! p = Some pr2) by apply lookup_insert_eq.
  erewrite bind_Ret; [|apply copy_thread_run; exact Hp2]. fold (fork_tail turns fuel p).
  set (ta := u32 (kstack pr2 + KSTACKSIZE - sizeof_trapframe)).
  set (k3 := upd_procs (<[p := threaded ta pr2]>) (upd_tframes (<[ta := child_frame stack t]>) k2)).
  assert (Hprocs3 : procs k3 = <[p := threaded ta pr2]> (procs k)).
  { change (<[p := threaded ta pr2]> (<[p := pr2]> (<[p := set_parent (current k) new_proc]>
      (<[p := new_proc]> (procs k)))) = <[p := threaded ta pr2]> (procs k)). by rewrite !insert_insert_eq. }
  assert (I3 : pinv k3 xs).
  { refine (same_table_current_pinv _ _ _ _ _ (pinv_new k xs p (threaded ta pr2) Hi Hpk eq_refl)); [|done].
    split; try done; [|by rewrite Hprocs3]. intros q prq Hq. exists prq. split; [|done].
    rewrite Hprocs3. exact Hq. }
  destruct (fork_tail_spec turns fuel k3 xs p (threaded ta pr2)) as (n & ns & l' & E5 & Hn & Hnx & Hone & I5); try done.
  { by rewrite Hprocs3, lookup_insert_eq. }
  { intros Hin. destruct (pinv_present k xs p Hi (or_intror Hin)). congruence. }
  { destruct (pv_idle _ _ Hi) as [[? ?] _]. change (p ≠ idleproc k). congruence. }
  { change (nr_process k < MAX_PROCESS). lia. }
  rewrite E5. eexists _, _. split; [done|]. right. split; [by exists a2|].
  exists p, i, (set_state PROC_RUNNABLE (set_pid n (threaded ta pr2))).
  assert (Hta : ta = kstack pr2 + KSTACKSIZE - sizeof_trapframe).
  { apply u32_small. unfold KMEMSIZE in Hnp. change (0x38000000 / PGSIZE) with 229376 in Hnp.
    change (kstack pr2) with (KERNBASE + i * PGSIZE).
    unfold is_u32, sizeof_trapframe, KSTACKSIZE, KSTACKPAGE, PGSIZE, KERNBASE in *. lia. }
  split; try done.
  - erewrite list_fmap_ext; [exact Hnx|]. intros j q Hq. unfold pidof. rewrite Hprocs3.
    rewrite lookup_insert_ne; [done|]. intros <-.
    destruct (pinv_present k xs p Hi (or_intror (list_elem_of_lookup_2 _ _ _ Hq))). congruence.
  - split; [done|]. change (<[p := set_state PROC_RUNNABLE (set_pid n (threaded ta pr2))]> (procs k3) =
      <[p := set_state PROC_RUNNABLE (set_pid n (threaded ta pr2))]> (procs k)).
    by rewrite Hprocs3, insert_insert_eq.
Qed.

Lemma do_fork_spec turns fuel flags stack t k xs O R :
  pinv k xs → mem (alloc k) O R → (∀ p, is_Some (procs k !! p) → p ∈ O) → np ≤ KMEMSIZE / PGSIZE →
  (length xs < fuel)%nat → (length xs < turns)%nat →
  ∃ r k', do_fork kmalloc kfree alloc_pages free_pages np boot_pgdir_p forkret
            turns fuel flags stack t k = Ret (r, k') ∧
    (fork_failed k O R r k' ∨ ∃ p i pr, forked k xs O R stack t r k' p i pr).
Proof.
  intros Hi Hm HO Hnp Hf Ht.
  destruct (do_fork_cases turns fuel flags stack t k xs O R Hi Hm HO Hnp Hf Ht) as (r & k' & E & [[H _]|[_ H]]);
    exists r, k'; (split; [done|]); [by left|by right].
Qed.
End Fork.
