(* ===== verification/ProcMain.v ===== *)
(** * Processes: lookup by pid, start-up, round robin and sequences of calls *)
From stdpp Require Import base gmap list fin_maps.
From Stdlib Require Import ZArith Lia.
From S2P Require Import Prelude DList Bits Printfmt Mmu Proc ProcPid ProcProps ProcSpec.
From S2P Require Import Buddy BuddyInv BuddyProps BuddyInit BuddySpec Alloc.

#[local] Arguments pid_hashfn : simpl never.
#[local] Arguments HASH_LIST_SIZE : simpl never.
#[local] Arguments MAX_PID : simpl never.

Lemma fmap_inj_in {B C} (f : B → C) (xs : list B) p q :
  NoDup (f <$> xs) → p ∈ xs → q ∈ xs → f p = f q → p = q.
Proof.
  intros Hnd [i Hi]%list_elem_of_lookup [j Hj]%list_elem_of_lookup E.
  assert (i = j) as ->; [|congruence].
  eapply (NoDup_lookup (f <$> xs)); [done| |]; rewrite list_lookup_fmap, ?Hi, ?Hj; simpl; [done|by rewrite E].
Qed.

Section Lookup.
Context {A : Type}.
Implicit Types k : kernel A.

Lemma find_proc_run k xs fuel n :
  pinv k xs → (length xs < fuel)%nat → 0 < n < MAX_PID →
  find_proc fuel n k = Ret (default NULL (head (filter (λ p, pidof k p = n) xs)), k).
Proof.
  intros Hi Hf Hn. unfold find_proc. rewrite bool_decide_true by done.
  destruct (pv_lists _ _ Hi) as (F & D & _ & HF & _).
  pose proof (HF (pid_hashfn n) (hash_range n)) as Hb. pose proof (dl_chain _ _ D _ _ Hb) as Hc.
  rewrite (find_loop_run fuel k n (pid_hashfn n) _ (bucket k (pid_hashfn n) xs)).
  - do 4 f_equal. unfold bucket. rewrite list_filter_filter. apply filter_ext_in.
    intros p _. split; [tauto|]. intros <-. done.
  - eapply Nat.le_lt_trans; [apply length_filter|done].
  - exact Hc.
  - unfold present, bucket. apply Forall_forall. intros p [_ Hp]%list_elem_of_filter.
    eapply pinv_present; [done|by right].
Qed.

Lemma find_proc_hit k xs fuel p :
  pinv k xs → (length xs < fuel)%nat → p ∈ xs → find_proc fuel (pidof k p) k = Ret (p, k).
Proof.
  intros Hi Hf Hp. pose proof (pv_range _ _ Hi p Hp). rewrite (find_proc_run k xs) by (done || lia).
  destruct (filter (λ q, pidof k q = pidof k p) xs) as [|q l] eqn:E.
  - exfalso. assert (Hin : p ∈ filter (λ q, pidof k q = pidof k p) xs) by by apply list_elem_of_filter.
    rewrite E in Hin. by apply elem_of_nil in Hin.
  - assert (Hin : q ∈ filter (λ q, pidof k q = pidof k p) xs) by (rewrite E; by left).
    apply list_elem_of_filter in Hin as [Hq Hqx]. simpl. by rewrite (fmap_inj_in _ _ q p (pv_pids _ _ Hi)).
Qed.
Lemma find_proc_miss k xs fuel n :
  pinv k xs → (length xs < fuel)%nat → n ∉ pidof k <$> xs → find_proc fuel n k = Ret (NULL, k).
Proof.
  intros Hi Hf Hn. destruct (decide (0 < n < MAX_PID)) as [Hr|Hr].
  - rewrite (find_proc_run k xs) by done. destruct (filter (λ q, pidof k q = n) xs) as [|q l] eqn:E; [done|].
    exfalso. assert (Hin : q ∈ filter (λ q, pidof k q = n) xs) by (rewrite E; by left).
    apply list_elem_of_filter in Hin as [<- Hqx]. apply Hn. by apply list_elem_of_fmap_2.
  - unfold find_proc. by rewrite bool_decide_false.
Qed.

(** ** Round robin *)
Lemma candidates_rotation k xs : pinv k xs → ∃ a b, xs = a ++ b ∧ candidates k xs = b ++ a.
Proof.
  intros Hi. destruct (decide (current k = idleproc k)) as [Hc|Hc].
  - exists [], xs. rewrite app_nil_r. unfold candidates. by rewrite bool_decide_true.
  - destruct (pv_cur _ _ Hi) as [?|Hin]; [done|]. destruct (list_elem_of_split _ _ Hin) as (l1 & l2 & Ex).
    exists (l1 ++ [current k]), l2. split; [by rewrite <-app_assoc|].
    by apply candidates_split; [..|by eapply pinv_NoDup].
Qed.
Lemma candidates_next k k' xs u q v :
  pinv k xs → pinv k' xs → candidates k xs = u ++ q :: v → current k' = q → current k' ≠ idleproc k' →
  candidates k' xs = v ++ u ++ [q].
Proof.
  intros Hi Hi' Hc <- Hne. destruct (candidates_rotation k xs Hi) as (a & b & Ex & Ec). rewrite Hc in Ec.
  assert (Hnd := pinv_NoDup _ _ Hi).
  destruct (app_eq_inv _ _ _ _ Ec) as [(w & -> & ->)|(w & -> & Ew)].
  - rewrite (candidates_split k' xs w (v ++ b)); [by rewrite <-!app_assoc|done| |done].
    rewrite Ex. by rewrite <-app_assoc.
  - destruct w as [|x w].
    + rewrite app_nil_r in *. simpl in Ew. subst a.
      rewrite (candidates_split k' xs [] (v ++ u)); [by rewrite <-app_assoc|done|by rewrite Ex|done].
    + injection Ew as <- ->. rewrite (candidates_split k' xs (a ++ u) w); [by rewrite <-!app_assoc|done| |done].
      rewrite Ex. by rewrite <-!app_assoc.
Qed.

Fixpoint schedules (m fuel : nat) : M (kernel A) unit :=
  match m with
  | O => skip
  | S m => schedule fuel;; schedules m fuel
  end.

Lemma first_runnable k : ∀ l p, p ∈ l → runnable k p = true →
  ∃ u q v, l = u ++ q :: v ∧ head (filter (is_runnable k) l) = Some q ∧ (p = q ∨ p ∈ v).
Proof.
  induction l as [|x l IH]; intros p Hp Hr; [by apply elem_of_nil in Hp|]. rewrite filter_cons.
  destruct (decide (is_runnable k x)) as [Hx|Hx].
  - exists [], x, l. split_and!; [done|done|]. by apply elem_of_cons in Hp.
  - apply elem_of_cons in Hp as [->|Hp]; [done|]. destruct (IH p Hp Hr) as (u & q & v & -> & ? & ?).
    exists (x :: u), q, v. by split_and!.
Qed.

(** A call of the scheduler reaches a RUNNABLE process or brings it nearer. *)
Lemma round_robin_step k k1 xs p a b :
  pinv k xs → pinv k1 xs → same_table k k1 → current k1 = next_proc k xs → p ∈ xs → runnable k p = true → candidates k xs = a ++ p :: b →
  current k1 = p ∨ ∃ a' b', candidates k1 xs = a' ++ p :: b' ∧ (length a' < length a)%nat.
Proof.
  intros Hi I1 S1 Hc1 Hp Hr Hc. assert (Hpc : p ∈ candidates k xs) by by apply elem_of_candidates.
  destruct (first_runnable k _ p Hpc Hr) as (u & q & v & Hcq & Hh & Hpq).
  assert (Hnx : next_proc k xs = q) by (unfold next_proc; by rewrite Hh). rewrite Hnx in Hc1.
  destruct (decide (p = q)) as [<-|Hne]; [by left|right].
  destruct Hpq as [?|Hpv]; [done|]. apply list_elem_of_split in Hpv as (v1 & v2 & ->).
  assert (Hqx : q ∈ xs) by (rewrite <-(elem_of_candidates k), Hcq; apply elem_of_app; right; by left).
  assert (Hcn : candidates k1 xs = (v1 ++ p :: v2) ++ u ++ [q]).
  { eapply (candidates_next k k1); try done. rewrite Hc1, (st_idle _ _ S1). intros ->.
    by apply (pv_idle _ _ Hi). }
  exists v1, (v2 ++ u ++ [q]). split; [by rewrite Hcn, <-app_assoc|].
  assert (Hnd : NoDup (candidates k xs)).
  { destruct (candidates_rotation k xs Hi) as (c & d & Ex & Ec). rewrite Ec.
    assert (Hnd := pinv_NoDup _ _ Hi). rewrite Ex in Hnd. rewrite NoDup_app in Hnd |- *. naive_solver. }
  assert (Ha : candidates k xs !! length a = Some p) by (rewrite Hc; by apply list_lookup_middle).
  assert (Hb : candidates k xs !! (length u + S (length v1))%nat = Some p).
  { rewrite Hcq, lookup_app_r by lia. replace (length u + S (length v1) - length u)%nat with (S (length v1)) by lia.
    simpl. by apply list_lookup_middle. }
  pose proof (NoDup_lookup _ _ _ _ Hnd Ha Hb). lia.
Qed.
Lemma candidates_place k xs p : pinv k xs → p ∈ xs → ∃ u v, candidates k xs = u ++ p :: v ∧ (length u < length xs)%nat.
Proof.
  intros Hi Hp. apply (elem_of_candidates k) in Hp. apply list_elem_of_split in Hp as (u & v & E). exists u, v. split; [done|].
  assert (length (candidates k xs) = length xs) as Hl.
  { destruct (candidates_rotation k xs Hi) as (a & b & -> & ->). rewrite !length_app. lia. }
  rewrite E, length_app in Hl. simpl in Hl. lia.
Qed.

Lemma round_robin_aux n k xs fuel p :
  pinv k xs → (length xs + 1 < fuel)%nat → p ∈ xs → runnable k p = true →
  (∃ u v, candidates k xs = u ++ p :: v ∧ length u < n)%nat →
  ∃ m k', (m ≤ n)%nat ∧ schedules m fuel k = Ret ((), k') ∧ pinv k' xs ∧ same_table k k' ∧ current k' = p.
Proof.
  revert k. induction n as [|n IH]; intros k Hi Hf Hp Hr (a & b & Hc & Hn); [lia|].
  destruct (schedule_spec k xs fuel Hi Hf) as (k1 & E1 & S1 & I1 & Hc1 & _).
  destruct (round_robin_step k k1 xs p a b) as [Hd|(a' & b' & Hc' & Hlen)]; try done.
  { exists 1%nat, k1. split_and!; try done; [lia|]. simpl. by mrun E1. }
  destruct (IH k1) as (m & k' & Hm & E & I' & S' & Hcur); try done.
  { by rewrite (same_table_runnable k k1). }
  { exists a', b'. split; [done|lia]. }
  exists (S m), k'. split_and!; try done; [lia|simpl; by mrun E1|by eapply same_table_trans].
Qed.

Lemma round_robin_spec k xs fuel p :
  pinv k xs → (length xs + 1 < fuel)%nat → p ∈ xs → runnable k p = true →
  ∃ m k', (m ≤ length xs)%nat ∧ schedules m fuel k = Ret ((), k') ∧ pinv k' xs ∧ same_table k k' ∧ current k' = p.
Proof. intros Hi Hf Hp Hr. apply round_robin_aux; try done. by apply candidates_place. Qed.
End Lookup.

(** ** Start-up *)
Section Init.
Context {A : Type}.
Implicit Types k : kernel A.

(** Memory before proc_init. *)
Record unbooted k : Prop := {
  ub_procs : procs k = ∅;
  ub_proc_list : is_Some (plinks k !! ProcList);
  ub_hash_list : ∀ i, 0 ≤ i < HASH_LIST_SIZE → is_Some (plinks k !! HashList i);
  ub_links : ∀ p, plinks k !! ListLink p = None ∧ plinks k !! HashLink p = None;
  ub_nr : nr_process k = 0;
  ub_pids : next_safe k = MAX_PID ∧ last_pid k = MAX_PID }.

(** The lists initialised so far. *)
Definition lists_up_to (i : Z) (F : gmap plink (list plink)) : Prop :=
  F !! ProcList = Some [] ∧ (∀ j, 0 ≤ j < i → F !! HashList j = Some []) ∧
  (∀ hd ys, F !! hd = Some ys → ys = [] ∧ (hd = ProcList ∨ ∃ j, hd = HashList j ∧ 0 ≤ j < i)).

Lemma init_hash_spec n i k F :
  i + Z.of_nat n = HASH_LIST_SIZE → 0 ≤ i → dlists (plinks k) F → lists_up_to i F →
  (∀ j, 0 ≤ j < HASH_LIST_SIZE → is_Some (plinks k !! HashList j)) →
  ∃ l' F', init_hash n i k = Ret ((), upd_links (λ _, l') k) ∧ dlists l' F' ∧
    lists_up_to HASH_LIST_SIZE F' ∧ dom l' = dom (plinks k).
Proof.
  revert i k F. induction n as [|n IH]; intros i k F Hin Hi D (H1 & H2 & H3) Hc.
  - exists (plinks k), F. rewrite upd_links_id. assert (i = HASH_LIST_SIZE) as -> by lia.
    split_and!; try done.
  - destruct (list_init_dlists (plinks k) F (HashList i)) as (l1 & E1 & D1 & Hd1); [done| |apply Hc; lia|].
    { intros hd (ys & Hys & Hx). destruct (H3 hd ys Hys) as (-> & Hhd).
      apply list_elem_of_singleton in Hx as <-. destruct Hhd as [?|(j & [= <-] & Hj)]; [done|lia]. }
    destruct (IH (i + 1) (upd_links (λ _, l1) k) (<[HashList i := []]> F)) as (l' & F' & E & D' & HL & Hd);
      [lia|lia|done| | |].
    + split_and!.
      * by rewrite lookup_insert_ne.
      * intros j Hj. destruct (decide (j = i)) as [->|Hne]; [by rewrite lookup_insert_eq|].
        rewrite lookup_insert_ne by congruence. apply H2. lia.
      * intros hd ys [[<- <-]|[_ Hy]]%lookup_insert_Some.
        { split; [done|]. right. exists i. split; [done|lia]. }
        destruct (H3 hd ys Hy) as (-> & [->|(j & -> & Hj)]); split; try done; [by left|].
        right. exists j. split; [done|lia].
    + intros j Hj. simpl. eapply dom_is_Some; [done|]. by apply Hc.
    + exists l', F'. split_and!; [|done|done|by rewrite Hd, <-Hd1].
      cbn [init_hash]. erewrite bind_Ret; [|by apply plinks_run]. rewrite E. done.
Qed.

Context (kmalloc : Z → M A Z) (kfree : Z → M A unit).
Context (alloc_pages : Z → M A (option Z)) (free_pages : Z → Z → M A unit) (np : Z).
Context (mem : A → gset Z → list (Z * Z) → Prop).
Context `{HA : !KernelAlloc kmalloc kfree alloc_pages free_pages np mem}.
Context (boot_pgdir_p bootstack forkret kernel_thread_entry : Z).

(** The table with only the idle process. *)
Lemma pinv_idle k p pr l F :
  dlists l F → lists_up_to HASH_LIST_SIZE F → (∀ q, l !! ListLink q = None ∧ l !! HashLink q = None) →
  p ≠ NULL → mm pr = NULL → procs k = {[p := pr]} → plinks k = fresh_links p l → idleproc k = p →
  current k = p → nr_process k = 1 → next_safe k = MAX_PID → last_pid k = MAX_PID → pinv k [].
Proof.
  intros D (H1 & H2 & H3) Hl Hp Hmm Epr Epl Eid Ecur Enr Ens Elp. split.
  - exists F. rewrite Epl. split_and!.
    + apply dlists_new; [apply dlists_new; [done|apply Hl]|]. rewrite lookup_insert_ne by done. apply Hl.
    + done.
    + intros i Hi. by apply H2.
    + intros hd ys Hy. by destruct (H3 hd ys Hy).
  - intros q. rewrite Epr, Epl. unfold fresh_links. destruct (decide (q = p)) as [->|Hne].
    + rewrite lookup_singleton_eq, lookup_insert_eq, lookup_insert_ne, lookup_insert_eq by done.
      split; split; by eexists.
    + rewrite lookup_singleton_ne, !lookup_insert_ne by congruence. destruct (Hl q) as [-> ->]. done.
  - constructor.
  - rewrite Eid, Epr, lookup_singleton_eq. split_and!; [by eexists|done|by apply not_elem_of_nil].
  - by apply not_elem_of_nil.
  - constructor.
  - by intros ? ?%elem_of_nil.
  - done.
  - rewrite Enr. unfold MAX_PROCESS. lia.
  - rewrite Elp, Ens. split_and!; [unfold MAX_PID, MAX_PROCESS; lia|lia|lia|by intros ? ?%elem_of_nil].
  - left. congruence.
  - intros q prq. rewrite Epr. by intros [<- <-]%lookup_singleton_Some.
Qed.

Lemma set_proc_name_run k p pr nm :
  procs k !! p = Some pr → (15 ≤ length nm)%nat →
  set_proc_name p nm k = Ret ((), upd_procs (<[p := set_name (take 15 nm ++ [0]) pr]>) k).
Proof.
  intros Hp Hl. unfold set_proc_name. rewrite bool_decide_false by lia. by apply set_proc_run.
Qed.

(** proc_init up to the idle process. *)
Definition init_idle (idle_name : list Z) : M (kernel A) unit :=
  zoom plinks_lens (list_init ProcList);;
  init_hash (Z.to_nat HASH_LIST_SIZE) 0;;
  idle ← alloc_proc kmalloc boot_pgdir_p;
  modify (set_idleproc idle);;
  (if bool_decide (idle = NULL) then panic else skip);;
  set_proc idle (set_pid 0);;
  set_proc idle (set_state PROC_RUNNABLE);;
  set_proc idle (set_kstack bootstack);;
  set_proc idle (set_need_resched true);;
  set_proc_name idle idle_name;;
  nr ← gets nr_process; modify (set_nr_process (nr + 1));;
  modify (set_current idle).

Lemma init_idle_spec nm k O R :
  unbooted k → mem (alloc k) O R → (15 ≤ length nm)%nat →
  (init_idle nm k = Panic ∧ ∃ a, kmalloc sizeof_proc_struct (alloc k) = Ret (NULL, a)) ∨
  ∃ k' p pr, init_idle nm k = Ret ((), k') ∧
    (kmalloc sizeof_proc_struct (alloc k) = Ret (p, alloc k') ∧ p ≠ NULL) ∧ pinv k' [] ∧ procs k' = {[p := pr]} ∧ idleproc k' = p ∧
    p ∉ O ∧ mem (alloc k') ({[p]} ∪ O) R ∧ last_pid k' = MAX_PID ∧ pid pr = 0 ∧ state pr = PROC_RUNNABLE ∧
    need_resched pr = true ∧ kstack pr = bootstack.
Proof.
  intros Hub Hm Hnm. unfold init_idle.
  destruct (list_init_dlists (plinks k) ∅ ProcList) as (l1 & E1 & D1 & Hd1);
    [split; intros *; rewrite ?lookup_empty; try done; intros (? & Hx & _); by rewrite lookup_empty in Hx
    |intros hd (? & Hx & _); by rewrite lookup_empty in Hx|apply (ub_proc_list _ Hub)|].
  erewrite bind_Ret; [|by apply plinks_run].
  destruct (init_hash_spec (Z.to_nat HASH_LIST_SIZE) 0 (upd_links (λ _, l1) k) (<[ProcList := []]> ∅))
    as (l2 & F & E2 & D2 & HL & Hd2); [by rewrite Z2Nat.id|done|done| | |].
  { split_and!; [by rewrite lookup_insert_eq|lia|].
    intros hd ys [[<- <-]|[_ Hx]]%lookup_insert_Some; [split; [done|by left]|by rewrite lookup_empty in Hx]. }
  { intros j Hj. simpl. eapply dom_is_Some; [done|]. by apply (ub_hash_list _ Hub). }
  mrun E2. destruct (alloc_proc_spec kmalloc kfree alloc_pages free_pages np mem boot_pgdir_p
    (upd_links (λ _, l2) (upd_links (λ _, l1) k)) O R Hm) as [(a & E & Ek & Ha)|(p & a & E & Ek & Hp0 & HpO & Ha)]; mrun E.
  { left. rewrite bind_modify. rewrite bool_decide_true by done. split; [done|by exists a]. }
  right. rewrite bind_modify, (bool_decide_false (p = NULL)), bind_skip by done.
  repeat (erewrite bind_Ret; [|apply set_proc_run; apply lookup_insert_eq]).
  erewrite bind_Ret; [|apply set_proc_name_run; [apply lookup_insert_eq|done]].
  rewrite bind_gets, bind_modify. eexists _, p, _. split; [done|].
  match goal with |- _ ∧ pinv ?k' [] ∧ _ => set (k3 := k') end.
  assert (Epr : procs k3 = {[p := set_name (take 15 nm ++ [0]) (set_need_resched true (set_kstack bootstack
      (set_state PROC_RUNNABLE (set_pid 0 (new_proc boot_pgdir_p)))))]}).
  { transitivity (<[p := set_name (take 15 nm ++ [0]) (set_need_resched true (set_kstack bootstack
      (set_state PROC_RUNNABLE (set_pid 0 (new_proc boot_pgdir_p)))))]> (procs k)).
    - unfold k3. cbn [procs upd_procs set_current set_nr_process set_idleproc]. by rewrite !insert_insert_eq.
    - rewrite (ub_procs _ Hub). done. }
  split; [split; [exact Ek|done]|].
  split_and!; [|exact Epr|done|done|done|apply (ub_pids _ Hub)|done..].
  eapply (pinv_idle k3 p _ l2 F); try done; try exact Epr.
  - intros q. assert (∀ b, plinks k !! b = None → l2 !! b = None) as Hn.
    { intros b. rewrite <-!not_elem_of_dom. change (dom l2 = dom l1) in Hd2. by rewrite Hd2, Hd1. }
    split; apply Hn, (ub_links _ Hub).
  - done.
  - change (nr_process k + 1 = 1). by rewrite (ub_nr _ Hub).
  - apply (ub_pids _ Hub).
  - apply (ub_pids _ Hub).
Qed.

Abbreviation do_fork' := (do_fork kmalloc kfree alloc_pages free_pages np boot_pgdir_p forkret).
Abbreviation kernel_thread' := (kernel_thread kmalloc kfree alloc_pages free_pages np boot_pgdir_p forkret
  kernel_thread_entry).
Abbreviation proc_init' := (proc_init kmalloc kfree alloc_pages free_pages np boot_pgdir_p bootstack forkret
  kernel_thread_entry).

(** The table and the memory of the processes. *)
Definition kinv k (xs : list Z) : Prop :=
  pinv k xs ∧ ∃ O R, mem (alloc k) O R ∧ ∀ p, is_Some (procs k !! p) → p ∈ O.

(** proc_init from the idle process on. *)
Definition init_second (turns fuel : nat) (init_name : list Z) (init_main hello : Z) : M (kernel A) unit :=
  pid_ ← kernel_thread' turns fuel init_main hello 0;
  (if bool_decide (pid_ ≤ 0) then panic else skip);;
  init ← find_proc fuel pid_;
  modify (set_initproc init);;
  set_proc_name init init_name;;
  idle ← gets idleproc; pi ← get_proc idle;
  assert (bool_decide (idle ≠ NULL) && bool_decide (pid pi = 0));;
  init ← gets initproc; pn ← get_proc init;
  assert (bool_decide (init ≠ NULL) && bool_decide (pid pn = 1)).

Lemma proc_init_unfold turns fuel nm1 nm2 im he k :
  proc_init' turns fuel nm1 nm2 im he k = (init_idle nm1;; init_second turns fuel nm2 im he) k.
Proof.
  unfold proc_init, init_idle. rewrite !bind_assoc. unfold mbind, M_bind.
  repeat (case_match; simplify_eq; try done).
Qed.

Lemma init_second_spec turns fuel nm im he k p0 pr0 O R :
  pinv k [] → mem (alloc k) O R → (∀ p, is_Some (procs k !! p) → p ∈ O) → np ≤ KMEMSIZE / PGSIZE →
  procs k = {[p0 := pr0]} → idleproc k = p0 → pid pr0 = 0 → last_pid k = MAX_PID →
  (15 ≤ length nm)%nat → (1 < fuel)%nat → (0 < turns)%nat →
  (init_second turns fuel nm im he k = Panic ∧ ∃ a, fork_requests kmalloc alloc_pages (alloc k) = Ret (false, a)) ∨
  ∃ k' p, init_second turns fuel nm im he k = Ret ((), k') ∧
    (∃ a, fork_requests kmalloc alloc_pages (alloc k) = Ret (true, a)) ∧ kinv k' [p] ∧ initproc k' = p ∧ pidof k' p = 1 ∧
    runnable k' p = true ∧ idleproc k' = p0 ∧ current k' = p0 ∧ pidof k' p0 = 0.
Proof.
  intros Hi Hm HO Hnp Epr Eid Hpid Hlp Hnm Hf Ht. unfold init_second, kernel_thread.
  match goal with |- context [do_fork _ _ _ _ _ _ _ _ _ ?fl ?st ?tf] =>
    destruct (do_fork_cases kmalloc kfree alloc_pages free_pages np mem boot_pgdir_p forkret
      turns fuel fl st tf k [] O R) as (r & k1 & E & Hr); try done; [simpl; lia|] end.
  mrun E. assert (Hnr : nr_process k < MAX_PROCESS) by (rewrite (pv_nr _ _ Hi); done).
  destruct Hr as [[[(_ & -> & _)|(a & -> & _)] Hreq]|[Hreq (p & i & pr & [Hrg _ Hfirst [HpO Hpr] I1 Hm1 Hproc _ (Hcu & Hid & _)])]];
    [left; split; [done|by apply Hreq]..|].
  right. assert (r = 1) as -> by (apply Hfirst; [done|rewrite Hlp; lia]).
  rewrite (bool_decide_false (1 ≤ 0)), bind_skip by lia.
  assert (Hpidp : pidof k1 p = 1) by (unfold pidof; rewrite Hpr, lookup_insert_eq; apply Hproc).
  assert (Ef : find_proc fuel 1 k1 = Ret (p, k1)).
  { rewrite <-Hpidp. eapply find_proc_hit; [done|simpl; lia|by left]. }
  mrun Ef. rewrite bind_modify.
  assert (Hp1 : procs (set_initproc p k1) !! p = Some pr) by (simpl; by rewrite Hpr, lookup_insert_eq).
  erewrite bind_Ret; [|apply set_proc_name_run; [exact Hp1|done]].
  set (pr' := set_name (take 15 nm ++ [0]) pr).
  set (k2 := upd_procs (<[p := pr']>) (set_initproc p k1)).
  assert (Hpp : p ≠ p0).
  { intros ->. apply HpO, HO. rewrite Epr, lookup_singleton_eq. by eexists. }
  assert (Hk2 : procs k2 !! p0 = Some pr0).
  { unfold k2. cbn [procs upd_procs set_initproc]. rewrite lookup_insert_ne by done.
    rewrite Hpr, lookup_insert_ne by done. by rewrite Epr, lookup_singleton_eq. }
  assert (Hk2p : procs k2 !! p = Some pr') by apply lookup_insert_eq.
  assert (Hid2 : idleproc k2 = p0) by (change (idleproc k1 = p0); by rewrite Hid).
  rewrite bind_gets, Hid2. erewrite bind_Ret; [|apply get_proc_run; exact Hk2].
  rewrite bind_assert by (rewrite !bool_decide_true; [done|done|rewrite <-Eid; apply (pv_idle _ _ Hi)]).
  rewrite bind_gets. change (initproc k2) with p. erewrite bind_Ret; [|apply get_proc_run; exact Hk2p].
  destruct Hproc as (Hst & Hpd & _). assert (Hp0 : p ≠ NULL).
  { intros ->. apply (pv_nonnull _ _ I1). by left. }
  unfold assert. rewrite !bool_decide_true by done. simpl. exists k2, p. split; [done|]. split; [exact Hreq|].
  assert (S2 : same_table k1 k2).
  { eapply same_table_trans; [|by apply (same_table_upd (set_initproc p k1) p pr (set_name (take 15 nm ++ [0])))].
    split; [|done..]. intros q prq Hq. by exists prq. }
  split_and!; [|done| | |done| |].
  - split; [refine (same_table_current_pinv _ _ _ S2 _ I1); done|].
    exists ({[p]} ∪ O), ((i, KSTACKPAGE) :: R). split; [done|]. intros q. rewrite (st_dom _ _ S2), Hpr.
    rewrite lookup_insert_is_Some. intros [->|[_ ?%HO]]; set_solver.
  - by rewrite (same_table_pidof k1).
  - unfold runnable. rewrite Hk2p. by apply bool_decide_true.
  - change (current k1 = p0). rewrite Hcu. destruct (pv_cur _ _ Hi) as [->|?%elem_of_nil]; done.
  - unfold pidof. by rewrite Hk2.
Qed.

(** The memory proc_init asks for: the structures of the two processes and the
    kernel stack of the second. *)
Definition boot_requests : M A bool :=
  p ← kmalloc sizeof_proc_struct;
  if bool_decide (p = NULL) then mret false else fork_requests kmalloc alloc_pages.

Lemma proc_init_cases turns fuel nm1 nm2 im he k O R :
  unbooted k → mem (alloc k) O R → np ≤ KMEMSIZE / PGSIZE → (15 ≤ length nm1)%nat → (15 ≤ length nm2)%nat →
  (1 < fuel)%nat → (0 < turns)%nat → ∃ b a, boot_requests (alloc k) = Ret (b, a) ∧
  if (b : bool) then
    ∃ k' p, proc_init' turns fuel nm1 nm2 im he k = Ret ((), k') ∧ kinv k' [p] ∧ initproc k' = p ∧
      pidof k' p = 1 ∧ runnable k' p = true ∧ current k' = idleproc k' ∧ pidof k' (idleproc k') = 0
  else proc_init' turns fuel nm1 nm2 im he k = Panic.
Proof.
  intros Hub Hm Hnp H1 H2 Hf Ht. rewrite proc_init_unfold. unfold boot_requests.
  destruct (init_idle_spec nm1 k O R Hub Hm H1) as
    [[E [a Ek]]|(k1 & p0 & pr0 & E & [Ek Hp0n] & I1 & Epr & Eid & HpO & Hm1 & Hlp & Hp0 & _)].
  { exists false, a. rewrite (bind_Ret _ _ _ _ _ Ek), bool_decide_true by done. split; [done|].
    unfold mbind, M_bind. by rewrite E. }
  rewrite (bind_Ret _ _ _ _ _ Ek), bool_decide_false by done.
  mrun E. destruct (init_second_spec turns fuel nm2 im he k1 p0 pr0 ({[p0]} ∪ O) R) as
    [[E2 [a Hq]]|(k' & p & E2 & [a Hq] & I' & Hin & Hpd & Hr & Hid & Hcu & Hpi)]; try done.
  - intros q. rewrite Epr. intros [? [<- _]%lookup_singleton_Some]. set_solver.
  - by exists false, a.
  - exists true, a. split; [done|]. exists k', p. split_and!; try done; congruence.
Qed.

Lemma proc_init_spec turns fuel nm1 nm2 im he k O R :
  unbooted k → mem (alloc k) O R → np ≤ KMEMSIZE / PGSIZE → (15 ≤ length nm1)%nat → (15 ≤ length nm2)%nat →
  (1 < fuel)%nat → (0 < turns)%nat →
  proc_init' turns fuel nm1 nm2 im he k = Panic ∨
  ∃ k' p, proc_init' turns fuel nm1 nm2 im he k = Ret ((), k') ∧ kinv k' [p] ∧ initproc k' = p ∧
    pidof k' p = 1 ∧ runnable k' p = true ∧ current k' = idleproc k' ∧ pidof k' (idleproc k') = 0.
Proof.
  intros Hub Hm Hnp H1 H2 Hf Ht.
  destruct (proc_init_cases turns fuel nm1 nm2 im he k O R Hub Hm Hnp H1 H2 Hf Ht) as ([] & a & _ & H); [by right|by left].
Qed.

(** ** Sequences of calls *)
Inductive kernel_op : Type := OpFork (flags stack : Z) (t : trapframe) | OpSchedule.
Definition run_kernel_op (turns fuel : nat) (op : kernel_op) : M (kernel A) Z :=
  match op with
  | OpFork flags stack t => do_fork' turns fuel flags stack t
  | OpSchedule => schedule fuel;; mret 0
  end.
Fixpoint run_kernel_ops (turns fuel : nat) (ops : list kernel_op) : M (kernel A) (list Z) :=
  match ops with
  | [] => mret []
  | op :: ops => r ← run_kernel_op turns fuel op; rs ← run_kernel_ops turns fuel ops; mret (r :: rs)
  end.

Lemma run_kernel_op_spec turns fuel op k xs :
  kinv k xs → np ≤ KMEMSIZE / PGSIZE → (length xs + 1 < fuel)%nat → (length xs < turns)%nat →
  ∃ r k' xs', run_kernel_op turns fuel op k = Ret (r, k') ∧ kinv k' xs' ∧
    (xs' = xs ∨ ∃ p, xs' = p :: xs ∧ pidof k' p = r ∧ p ∉ xs) ∧ (∀ p, p ∈ xs → pidof k' p = pidof k p).
Proof.
  intros [Hi (O & R & Hm & HO)] Hnp Hf Ht. destruct op as [flags stack t|]; simpl.
  - destruct (do_fork_spec kmalloc kfree alloc_pages free_pages np mem boot_pgdir_p forkret
      turns fuel flags stack t k xs O R) as (r & k1 & E & Hr); try done; [lia|].
    exists r, k1. destruct Hr as [[(_ & -> & ->)|(a & -> & -> & Ha)]|(p & i & pr & [Hrg _ _ [HpO Hpr] I1 Hm1 Hproc _ _])].
    + exists xs. split_and!; [done| |by left|done]. split; [done|]. by exists O, R.
    + exists xs. split_and!; [done| |by left|done]. split; [|by exists O, R].
      refine (same_table_current_pinv k _ _ _ _ Hi); [|done]. split; [|done..]. intros q prq Hq. by exists prq.
    + assert (Hpx : p ∉ xs) by (intros Hin; by apply HpO, HO, (pinv_present k xs p Hi (or_intror Hin))).
      exists (p :: xs). split_and!; [done| | |].
      * split; [done|]. exists ({[p]} ∪ O), ((i, KSTACKPAGE) :: R). split; [done|].
        intros q. rewrite Hpr, lookup_insert_is_Some. intros [->|[_ ?%HO]]; set_solver.
      * right. exists p. split_and!; [done| |done]. unfold pidof. rewrite Hpr, lookup_insert_eq. apply Hproc.
      * intros q Hq. unfold pidof. rewrite Hpr, lookup_insert_ne; [done|]. by intros <-.
  - destruct (schedule_spec k xs fuel Hi Hf) as (k1 & E & S1 & I1 & _ & _ & _ & _ & Ha). mrun E.
    exists 0, k1, xs. split_and!; [done| |by left|].
    + split; [done|]. exists O, R. split; [|intros q Hq; by apply HO, (st_dom _ _ S1)].
      by rewrite Ha.
    + intros p _. by apply same_table_pidof.
Qed.

Lemma run_kernel_ops_spec turns fuel ops k xs :
  kinv k xs → np ≤ KMEMSIZE / PGSIZE → (length xs + length ops + 1 < fuel)%nat →
  (length xs + length ops < turns)%nat →
  ∃ rs k' ys, run_kernel_ops turns fuel ops k = Ret (rs, k') ∧ kinv k' (ys ++ xs) ∧
    (∀ p, p ∈ xs → pidof k' p = pidof k p) ∧ (∀ p, p ∈ ys → pidof k' p ∈ rs).
Proof.
  revert k xs. induction ops as [|op ops IH]; intros k xs Hk Hnp Hf Ht; simpl in *.
  { exists [], k, []. split_and!; try done. by intros ? ?%elem_of_nil. }
  destruct (run_kernel_op_spec turns fuel op k xs) as (r & k1 & xs1 & E1 & K1 & Hx & Hp1); try done; [lia|lia|].
  assert (Hlen : (length xs1 ≤ S (length xs))%nat) by (destruct Hx as [->|(p & -> & _)]; simpl; lia).
  destruct (IH k1 xs1) as (rs & k' & ys & E & K' & Hpx & Hpy); try done; [lia|lia|]. mrun E1. mrun E.
  destruct Hx as [->|(p & -> & Hp & Hpn)].
  - exists (r :: rs), k', ys. split_and!; try done.
    + intros p Hin. rewrite Hpx, Hp1 by done. done.
    + intros p Hin. right. by apply Hpy.
  - exists (r :: rs), k', (ys ++ [p]). split_and!; try done.
    + by rewrite <-app_assoc.
    + intros q Hin. rewrite Hpx, Hp1 by (done || by right). done.
    + intros q [Hin|Hin%list_elem_of_singleton]%elem_of_app; [right; by apply Hpy|subst q].
      rewrite Hpx, Hp by (by left). by left.
Qed.
End Init.
