(* ===== verification/ProcThms.v ===== *)
(** * Processes: properties of proc.c and sched.c, with a concrete machine *)
From stdpp Require Import base gmap list fin_maps.
From Stdlib Require Import ZArith Lia.
From S2P Require Import Prelude DList Bits Printfmt Mmu Buddy BuddyInv BuddyProps BuddyInit BuddySpec Alloc.
From S2P Require Import Proc ProcPid ProcProps ProcSpec ProcMain.

#[local] Arguments pid_hashfn : simpl never.
#[local] Arguments HASH_LIST_SIZE : simpl never.
#[local] Arguments MAX_PID : simpl never.

(** ** A machine: objects handed out in order, pages by the buddy allocator *)
Definition bump_kmalloc (n : Z) : M Z Z := λ a, Ret (a, a + 1).
Definition bump_kfree (p : Z) : M Z unit := λ a, Ret ((), a).
Definition bump_live (a : Z) (O : gset Z) : Prop := 0 < a ∧ ∀ p, p ∈ O → p < a.
#[global] Instance bump_allocator : ObjectAllocator bump_kmalloc bump_kfree bump_live.
Proof.
  split.
  - intros a O n [Ha Hl]. exists a, (a + 1). split; [done|]. right. split_and!; [lia| |].
    + intros Hin. specialize (Hl _ Hin). lia.
    + split; [lia|]. intros p [->%elem_of_singleton|Hp%Hl]%elem_of_union; lia.
  - intros a O p [Ha Hl] Hp. exists a. split; [done|]. split; [done|].
    intros q [Hq _]%elem_of_difference. by apply Hl.
Qed.

Definition ex_pmm : pmm :=
  match buddy_boot 100 [(3, 40); (50, 20)] (blank 70) with Ret (_, s) => s | _ => blank 0 end.
Lemma ex_pmm_held : buddy_held (npage ex_pmm) ex_pmm [].
Proof.
  destruct booted_holds as (s & L & E & H). unfold ex_pmm. rewrite E. split; [done|]. by exists L.
Qed.

Abbreviation machine := (Z * pmm)%type.
Definition ex_kmalloc (n : Z) : M machine Z := zoom fst_lens (bump_kmalloc n).
Definition ex_kfree (p : Z) : M machine unit := zoom fst_lens (bump_kfree p).
Definition ex_alloc_pages (n : Z) : M machine (option Z) := zoom snd_lens (buddy_alloc_pages n).
Definition ex_free_pages (i n : Z) : M machine unit := zoom snd_lens (buddy_free_pages i n).
Definition ex_mem (s : machine) (O : gset Z) (R : list (Z * Z)) : Prop :=
  bump_live s.1 O ∧ buddy_held 70 s.2 R.
#[global] Instance ex_kernel_alloc : KernelAlloc ex_kmalloc ex_kfree ex_alloc_pages ex_free_pages 70 ex_mem.
Proof. exact pair_kernel_alloc. Qed.

Definition ex_kernel : kernel machine :=
  MkKernel machine ∅
    (list_to_map ((ProcList, ListEntry ProcList ProcList) ::
       ((λ i, (HashList i, ListEntry ProcList ProcList)) <$> seqZ 0 HASH_LIST_SIZE)))
    0 0 0 0 MAX_PID MAX_PID ∅ (MkCpu zero_context 0 0 true) (1, ex_pmm).

Lemma ex_plinks a : is_Some (plinks ex_kernel !! a) ↔ a = ProcList ∨ ∃ i, a = HashList i ∧ 0 ≤ i < HASH_LIST_SIZE.
Proof.
  rewrite <-not_eq_None_Some. unfold ex_kernel. cbn [plinks]. rewrite <-not_elem_of_list_to_map.
  rewrite fmap_cons, <-list_fmap_compose. split.
  - intros Hn. apply dec_stable in Hn. apply elem_of_cons in Hn as [->|Hn]; [by left|].
    apply list_elem_of_fmap in Hn as (i & -> & Hi%elem_of_seqZ). right. by exists i.
  - intros Ha Hn. apply Hn. apply elem_of_cons. destruct Ha as [->|(i & -> & Hi)]; [by left|right].
    apply list_elem_of_fmap. exists i. by rewrite elem_of_seqZ.
Qed.

Lemma ex_unbooted : unbooted ex_kernel.
Proof.
  split.
  - reflexivity.
  - apply (proj2 (ex_plinks _)). by left.
  - intros i Hi. apply (proj2 (ex_plinks _)). right. by exists i.
  - intros p. split; apply eq_None_not_Some; intros Hs%ex_plinks; destruct Hs as [?|(? & ? & _)]; done.
  - reflexivity.
  - split; reflexivity.
Qed.
Lemma ex_memory : ex_mem (alloc ex_kernel) ∅ [].
Proof.
  split; [split; [simpl; lia|set_solver]|]. simpl. replace 70 with (npage ex_pmm) by (vm_compute; reflexivity).
  apply ex_pmm_held.
Qed.

Definition ex_init : M (kernel machine) unit :=
  proc_init ex_kmalloc ex_kfree ex_alloc_pages ex_free_pages 70 0x100000 0xC0110000 0xC0101000 0xC0101100 
    10 10 (replicate 20 65) (replicate 20 66) 0xC0102000 0xC0103000.
Lemma ex_init_runs : match ex_init ex_kernel with Panic => False | _ => True end.
Proof. vm_compute. exact I. Qed.

(** The kernel after proc_init. *)
Lemma ex_booted : ∃ k p, ex_init ex_kernel = Ret ((), k) ∧ kinv ex_mem k [p] ∧ pidof k p = 1 ∧
  runnable k p = true ∧ current k = idleproc k.
Proof.
  destruct (proc_init_spec ex_kmalloc ex_kfree ex_alloc_pages ex_free_pages 70 ex_mem 0x100000 0xC0110000
    0xC0101000 0xC0101100  10 10 (replicate 20 65) (replicate 20 66) 0xC0102000 0xC0103000 ex_kernel ∅ [])
    as [E|(k & p & E & K & _ & Hp & Hr & Hc & _)];
    [apply ex_unbooted|apply ex_memory|vm_compute; discriminate|simpl; lia|simpl; lia|lia|lia| |].
  - exfalso. pose proof ex_init_runs as H. unfold ex_init in H. by rewrite E in H.
  - exists k, p. unfold ex_init. split; [exact E|]. split; [exact K|]. split; [exact Hp|]. split; [exact Hr|exact Hc].
Qed.

(** ** Properties *)

(** C4. From proc_init on, every sequence of do_fork and schedule calls
    returns without a failed assertion or a bad access.  The list of processes
    stays well formed, every hash bucket holds exactly the processes with its
    hash, pids stay distinct and between 1 and MAX_PID - 1, nr_process counts
    them; old processes keep their pids and every new process has the pid its
    do_fork returned. *)
Theorem process_table_invariant {A} kmalloc kfree alloc_pages free_pages np mem
    `{!KernelAlloc (A := A) kmalloc kfree alloc_pages free_pages np mem}
    boot_pgdir_p forkret turns fuel ops k xs :
  kinv mem k xs → np ≤ KMEMSIZE / PGSIZE → (length xs + length ops + 1 < fuel)%nat →
  (length xs + length ops < turns)%nat →
  ∃ rs k' ys, run_kernel_ops kmalloc kfree alloc_pages free_pages np boot_pgdir_p forkret
      turns fuel ops k = Ret (rs, k') ∧ kinv mem k' (ys ++ xs) ∧
    (∀ p, p ∈ xs → pidof k' p = pidof k p) ∧ (∀ p, p ∈ ys → pidof k' p ∈ rs).
Proof. apply run_kernel_ops_spec. exact _. Qed.

Definition ex_tf : trapframe := MkTf (MkRegs 0 0 0 0 0 0 0 7) 16 0 16 0 0 0 0xC0101100 8 0 0 0 16 0.

Lemma process_table_invariant_witness :
  ∃ k xs, kinv ex_mem k xs ∧
  ∃ rs k' ys, run_kernel_ops ex_kmalloc ex_kfree ex_alloc_pages ex_free_pages 70 0x100000 0xC0101000 
      10 10 [OpFork 0 0 ex_tf; OpSchedule; OpFork 0 0 ex_tf; OpSchedule] k = Ret (rs, k') ∧ kinv ex_mem k' (ys ++ xs) ∧
    (∀ p, p ∈ xs → pidof k' p = pidof k p) ∧ (∀ p, p ∈ ys → pidof k' p ∈ rs).
Proof.
  destruct ex_booted as (k & p & E & K & _). exists k, [p]. split; [exact K|].
  apply (process_table_invariant ex_kmalloc ex_kfree ex_alloc_pages ex_free_pages 70 ex_mem
    0x100000 0xC0101000  10 10 [OpFork 0 0 ex_tf; OpSchedule; OpFork 0 0 ex_tf; OpSchedule] k [p]);
    [exact K|vm_compute; discriminate|simpl; lia|simpl; lia].
Defined.

(** C20. do_fork either fails, with -E_NO_FREE_PROC and the state unchanged when
    the table is full or with -E_NO_MEM and everything it allocated given back,
    or returns a fresh pid of a new process that is RUNNABLE, a child of the
    current one, in the list and in its hash bucket, with a kernel stack of its
    own and a trap frame that returns 0 to the child. *)
Theorem do_fork_correct {A} kmalloc kfree alloc_pages free_pages np mem
    `{!KernelAlloc (A := A) kmalloc kfree alloc_pages free_pages np mem}
    boot_pgdir_p forkret turns fuel flags stack t k xs O R :
  pinv k xs → mem (alloc k) O R → (∀ p, is_Some (procs k !! p) → p ∈ O) → np ≤ KMEMSIZE / PGSIZE →
  (length xs < fuel)%nat → (length xs < turns)%nat →
  ∃ r k', do_fork kmalloc kfree alloc_pages free_pages np boot_pgdir_p forkret
            turns fuel flags stack t k = Ret (r, k') ∧
    (fork_failed mem k O R r k' ∨ ∃ p i pr, forked mem forkret k xs O R stack t r k' p i pr).
Proof. apply do_fork_spec. exact _. Qed.

Lemma do_fork_correct_witness :
  ∃ k xs O R, pinv k xs ∧
  ∃ r k', do_fork ex_kmalloc ex_kfree ex_alloc_pages ex_free_pages 70 0x100000 0xC0101000 
            10 10 0 0 ex_tf k = Ret (r, k') ∧
    (fork_failed ex_mem k O R r k' ∨ ∃ p i pr, forked ex_mem 0xC0101000 k xs O R 0 ex_tf r k' p i pr).
Proof.
  destruct ex_booted as (k & p & E & [K (O & R & Hm & HO)] & _). exists k, [p], O, R. split; [exact K|].
  apply (do_fork_correct ex_kmalloc ex_kfree ex_alloc_pages ex_free_pages 70 ex_mem
    0x100000 0xC0101000  10 10 0 0 ex_tf k [p] O R);
    [exact K|exact Hm|exact HO|vm_compute; discriminate|simpl; lia|simpl; lia].
Defined.

(** C21. schedule makes the first RUNNABLE process after the current one in
    cyclic list order current, or the idle process when there is none, counts
    the run, saves the registers of the process that leaves and loads those,
    the kernel stack and the page directory of the one that comes; it changes
    nothing else of the table, and when it stays with the same process the
    processor state is as before. *)
Theorem schedule_correct {A} (k : kernel A) xs fuel :
  pinv k xs → (length xs + 1 < fuel)%nat →
  ∃ k', schedule fuel k = Ret ((), k') ∧ same_table k k' ∧ pinv k' xs ∧ current k' = next_proc k xs ∧
    (next_proc k xs = current k → processor k' = processor k) ∧
    (next_proc k xs ≠ current k → ∃ pr cpr, procs k !! next_proc k xs = Some pr ∧
       procs k' !! current k = Some cpr ∧ ctx cpr = regs (processor k) ∧
       processor k' = MkCpu (ctx pr) (u32 (kstack pr + KSTACKSIZE)) (pgdir_addr pr) false) ∧
    (∃ pr pr', procs k !! next_proc k xs = Some pr ∧ procs k' !! next_proc k xs = Some pr' ∧
       runs pr' = s32 (runs pr + 1)) ∧ alloc k' = alloc k.
Proof. apply schedule_spec. Qed.

Lemma schedule_correct_witness :
  ∃ (k : kernel machine) xs, pinv k xs ∧
  ∃ k', schedule 10 k = Ret ((), k') ∧ same_table k k' ∧ pinv k' xs ∧ current k' = next_proc k xs ∧
    (next_proc k xs = current k → processor k' = processor k) ∧
    (next_proc k xs ≠ current k → ∃ pr cpr, procs k !! next_proc k xs = Some pr ∧
       procs k' !! current k = Some cpr ∧ ctx cpr = regs (processor k) ∧
       processor k' = MkCpu (ctx pr) (u32 (kstack pr + KSTACKSIZE)) (pgdir_addr pr) false) ∧
    (∃ pr pr', procs k !! next_proc k xs = Some pr ∧ procs k' !! next_proc k xs = Some pr' ∧
       runs pr' = s32 (runs pr + 1)) ∧ alloc k' = alloc k.
Proof.
  destruct ex_booted as (k & p & E & [K _] & _). exists k, [p]. split; [exact K|].
  apply (schedule_correct k [p] 10); [exact K|simpl; lia].
Defined.

(** Round robin: a RUNNABLE process becomes current within as many calls of
    schedule as there are processes in the list, whatever the current process
    is. *)
Theorem schedule_round_robin {A} (k : kernel A) xs fuel p :
  pinv k xs → (length xs + 1 < fuel)%nat → p ∈ xs → runnable k p = true →
  ∃ m k', (m ≤ length xs)%nat ∧ schedules m fuel k = Ret ((), k') ∧ pinv k' xs ∧ same_table k k' ∧ current k' = p.
Proof. apply round_robin_spec. Qed.

Lemma schedule_round_robin_witness :
  ∃ (k : kernel machine) xs p, runnable k p = true ∧
  ∃ m k', (m ≤ length xs)%nat ∧ schedules m 10 k = Ret ((), k') ∧ pinv k' xs ∧ same_table k k' ∧ current k' = p.
Proof.
  destruct ex_booted as (k & p & E & [K _] & _ & Hr & _). exists k, [p], p. split; [exact Hr|].
  apply (schedule_round_robin k [p] 10 p); [exact K|simpl; lia|left|exact Hr].
Defined.

(** C25. get_pid returns, after at most as many passes over the list as there
    are processes plus one, a pid between 1 and MAX_PID - 1 that no process
    has, and leaves next_safe such that the pids up to it are free as well. *)
Theorem get_pid_correct {A} turns fuel (k : kernel A) l :
  (length l < fuel)%nat → (length l < turns)%nat → path k ProcList l ProcList → present k l →
  Z.of_nat (length l) < MAX_PID - 1 → 0 ≤ last_pid k ≤ MAX_PID → next_safe k ≤ MAX_PID →
  vacant (pidof k <$> l) (last_pid k + 1) (next_safe k) →
  ∃ lp ns, get_pid turns fuel k = Ret (lp, set_pids ns lp k) ∧ 1 ≤ lp < ns ∧ ns ≤ MAX_PID ∧
    vacant (pidof k <$> l) lp ns ∧ lp ∉ pidof k <$> l.
Proof.
  intros H1 H2 H3 H4 H5 H6 H7 H8.
  destruct (get_pid_run turns fuel k l) as (lp & ns & E & Hr & Hn & Hv & _); try done.
  exists lp, ns. split_and!; try done; try lia. intros Hin. apply (Hv lp Hin). lia.
Qed.

Lemma get_pid_correct_witness :
  ∃ (k : kernel machine) l,
  ∃ lp ns, get_pid 10 10 k = Ret (lp, set_pids ns lp k) ∧ 1 ≤ lp < ns ∧ ns ≤ MAX_PID ∧
    vacant (pidof k <$> l) lp ns ∧ lp ∉ pidof k <$> l.
Proof.
  destruct ex_booted as (k & p & E & [K _] & _). exists k, [p].
  apply (get_pid_correct 10 10 k [p]);
    [simpl; lia|simpl; lia|apply pinv_path; exact K|apply (pv_present _ _ K)|vm_compute; reflexivity
    |apply (pv_last _ _ K)..].
Defined.

(** find_proc finds every process of the table by its pid and returns NULL
    for every other number. *)
Theorem find_proc_correct {A} (k : kernel A) xs fuel :
  pinv k xs → (length xs < fuel)%nat →
  (∀ p, p ∈ xs → find_proc fuel (pidof k p) k = Ret (p, k)) ∧
  (∀ n, n ∉ pidof k <$> xs → find_proc fuel n k = Ret (NULL, k)).
Proof. intros Hi Hf. split; intros; [by eapply find_proc_hit|by eapply find_proc_miss]. Qed.

Lemma find_proc_correct_witness :
  ∃ (k : kernel machine) xs, pinv k xs ∧
  (∀ p, p ∈ xs → find_proc 10 (pidof k p) k = Ret (p, k)) ∧
  (∀ n, n ∉ pidof k <$> xs → find_proc 10 n k = Ret (NULL, k)).
Proof.
  destruct ex_booted as (k & p & E & [K _] & _). exists k, [p]. split; [exact K|].
  apply (find_proc_correct k [p] 10); [exact K|simpl; lia].
Defined.

(** proc_init panics (when memory runs out) or leaves the idle process
    with pid 0 current and one RUNNABLE process with pid 1 as initproc; its
    final assertions hold. *)
Theorem proc_init_correct {A} kmalloc kfree alloc_pages free_pages np mem
    `{!KernelAlloc (A := A) kmalloc kfree alloc_pages free_pages np mem}
    boot_pgdir_p bootstack forkret kernel_thread_entry turns fuel nm1 nm2 im he k O R :
  unbooted k → mem (alloc k) O R → np ≤ KMEMSIZE / PGSIZE → (15 ≤ length nm1)%nat → (15 ≤ length nm2)%nat →
  (1 < fuel)%nat → (0 < turns)%nat →
  let init := proc_init kmalloc kfree alloc_pages free_pages np boot_pgdir_p bootstack forkret
    kernel_thread_entry turns fuel nm1 nm2 im he in
  init k = Panic ∨
  ∃ k' p, init k = Ret ((), k') ∧ kinv mem k' [p] ∧ initproc k' = p ∧
    pidof k' p = 1 ∧ runnable k' p = true ∧ current k' = idleproc k' ∧ pidof k' (idleproc k') = 0.
Proof. apply proc_init_spec. exact _. Qed.

Lemma proc_init_correct_witness :
  ex_init ex_kernel = Panic ∨
  ∃ k' p, ex_init ex_kernel = Ret ((), k') ∧ kinv ex_mem k' [p] ∧ initproc k' = p ∧
    pidof k' p = 1 ∧ runnable k' p = true ∧ current k' = idleproc k' ∧ pidof k' (idleproc k') = 0.
Proof.
  apply (proc_init_correct ex_kmalloc ex_kfree ex_alloc_pages ex_free_pages 70 ex_mem 0x100000 0xC0110000
    0xC0101000 0xC0101100  10 10 (replicate 20 65) (replicate 20 66) 0xC0102000 0xC0103000 ex_kernel ∅ []);
    [apply ex_unbooted|apply ex_memory|vm_compute; discriminate|simpl; lia|simpl; lia|lia|lia].
Defined.
