(* ===== verification/Pmm.v ===== *)
(** * arch/x86/pmm.c: page tables

    The words of physical memory that hold page directories and page tables
    are a map from word addresses (physical address divided by 4) to 32-bit
    numbers; the kernel sees them at KERNBASE.  The page allocator and the
    reference counts are parameters; [Alloc] and [PmmRefs] state what the code
    relies on and show that the buddy allocator provides it. *)
From stdpp Require Import base gmap list fin_maps.
From Stdlib Require Import ZArith Lia.
From S2P Require Import Prelude DList Bits Printfmt Buddy Mmu.

Record vmem {A : Type} : Type := MkVmem {
  words : gmap Z Z;
  vm_cr3 : Z;
  tlb : gmap Z Z;          (* page number -> cached page table entry *)
  palloc : A }.
Arguments vmem : clear implicits.

Section Model.
Context {A : Type}.
Context (alloc_pages : Z → M A (option Z)) (free_pages : Z → Z → M A unit) (npage : Z).
Context (get_ref : Z → M A Z) (set_ref : Z → Z → M A unit).
Abbreviation V := (vmem A).

Definition palloc_lens : lens V A := Lens palloc (λ a s, MkVmem A (words s) (vm_cr3 s) (tlb s) a).
Definition set_words (w : gmap Z Z) (s : V) : V := MkVmem A w (vm_cr3 s) (tlb s) (palloc s).
Definition set_tlb (t : gmap Z Z) (s : V) : V := MkVmem A (words s) (vm_cr3 s) t (palloc s).

Definition alloc_page : M V (option Z) := zoom palloc_lens (alloc_pages 1).
Definition free_page (p : Z) : M V unit := zoom palloc_lens (free_pages p 1).
Definition page_ref_inc (p : Z) : M V Z :=
  zoom palloc_lens (r ← get_ref p; set_ref p (s32 (r + 1));; mret (s32 (r + 1))).
Definition page_ref_dec (p : Z) : M V Z :=
  zoom palloc_lens (r ← get_ref p; set_ref p (s32 (r - 1));; mret (s32 (r - 1))).

(** A word of kernel memory. *)
Definition word (w : gmap Z Z) (i : Z) : Z := default 0 (w !! i).
Definition kva_ok (kva : Z) : bool :=
  bool_decide (KERNBASE ≤ kva) && bool_decide (kva - KERNBASE < npage * PGSIZE).
Definition load (kva : Z) : M V Z := λ s,
  if kva_ok kva then Ret (word (words s) ((kva - KERNBASE) / 4), s) else Fault.
Definition store (kva v : Z) : M V unit := λ s,
  if kva_ok kva then Ret ((), set_words (<[(kva - KERNBASE) / 4 := v]> (words s)) s) else Fault.

(** memset(kva, 0, PGSIZE) *)
Fixpoint clear_words (n : nat) (i : Z) (w : gmap Z Z) : gmap Z Z :=
  match n with
  | O => w
  | S n => clear_words n (i + 1) (<[i := 0]> w)
  end.
Fixpoint copy_words (n : nat) (dst src : Z) (w : gmap Z Z) : gmap Z Z :=
  match n with
  | O => w
  | S n => copy_words n (dst + 1) (src + 1) (<[dst := word w src]> w)
  end.
Definition memset_page (kva : Z) : M V unit := λ s,
  if kva_ok kva then Ret ((), set_words (clear_words 1024 ((kva - KERNBASE) / 4) (words s)) s) else Fault.

(** ** get_pte; 0 is NULL *)
Definition get_pte (pgdir la : Z) (create : bool) : M V Z :=
  let pdep := pgdir + 4 * PDX la in
  pde ← load pdep;
  ok ← (if bool_decide (Z.land pde PTE_P = 0) then
          if create then
            page ← alloc_page;
            match page with
            | None => mret false
            | Some pg =>
              zoom palloc_lens (set_ref pg 1);;
              let pa := page2pa pg in
              kva ← KADDR npage pa;
              memset_page kva;;
              store pdep (Z.lor (Z.lor (Z.lor pa PTE_U) PTE_W) PTE_P);;
              mret true
            end
          else mret false
        else mret true);
  if (ok : bool) then
    pde ← load pdep;
    kva ← KADDR npage (PDE_ADDR pde);
    mret (kva + 4 * PTX la)
  else mret 0.

(** get_page with the stored pte pointer. *)
Definition get_page (pgdir la : Z) : M V (option Z * Z) :=
  ptep ← get_pte pgdir la false;
  if bool_decide (ptep ≠ 0) then
    pte ← load ptep;
    if bool_decide (Z.land pte PTE_P ≠ 0) then p ← pa2page npage pte; mret (Some p, ptep)
    else mret (None, ptep)
  else mret (None, ptep).

Definition invlpg (la : Z) : M V unit := modify (λ s, set_tlb (delete (PPN la) (tlb s)) s).
Definition tlb_invalidate (pgdir la : Z) : M V unit :=
  cr ← gets vm_cr3;
  pa ← PADDR pgdir;
  if bool_decide (cr = pa) then invlpg la else skip.

Definition page_remove_pte (pgdir la ptep : Z) : M V unit :=
  pte ← load ptep;
  if bool_decide (Z.land pte PTE_P ≠ 0) then
    page ← pte2page npage pte;
    r ← page_ref_dec page;
    (if bool_decide (r = 0) then free_page page else skip);;
    store ptep 0;;
    tlb_invalidate pgdir la
  else skip.

Definition page_remove (pgdir la : Z) : M V unit :=
  ptep ← get_pte pgdir la false;
  if bool_decide (ptep ≠ 0) then page_remove_pte pgdir la ptep else skip.

Definition page_insert (pgdir page la perm : Z) : M V Z :=
  ptep ← get_pte pgdir la true;
  if bool_decide (ptep = 0) then mret (- E_NO_MEM)
  else
    page_ref_inc page;;
    pte ← load ptep;
    (if bool_decide (Z.land pte PTE_P ≠ 0) then
       p ← pte2page npage pte;
       if bool_decide (p = page) then page_ref_dec page;; skip
       else page_remove_pte pgdir la ptep
     else skip);;
    store ptep (Z.lor (Z.lor (page2pa page) PTE_P) perm);;
    tlb_invalidate pgdir la;;
    mret 0.

(** None is NULL. *)
Definition pgdir_alloc_page (pgdir la perm : Z) : M V (option Z) :=
  page ← alloc_page;
  match page with
  | Some p =>
    r ← page_insert pgdir p la perm;
    if bool_decide (r ≠ 0) then free_page p;; mret None else mret (Some p)
  | None => mret None
  end.

(** do ... while (start != 0 && start < end) *)
Fixpoint unmap_loop (fuel : nat) (pgdir start end_ : Z) : M V unit :=
  match fuel with
  | O => out_of_fuel
  | S fuel =>
    ptep ← get_pte pgdir start false;
    start' ← (if bool_decide (ptep = 0) then mret (ROUNDDOWN (u32 (start + PTSIZE)) PTSIZE)
              else
                pte ← load ptep;
                (if bool_decide (pte ≠ 0) then page_remove_pte pgdir start ptep else skip);;
                mret (u32 (start + PGSIZE)));
    if bool_decide (start' ≠ 0 ∧ start' < end_) then unmap_loop fuel pgdir start' end_ else skip
  end.
Definition unmap_range (fuel : nat) (pgdir start end_ : Z) : M V unit :=
  assert (bool_decide (start mod PGSIZE = 0) && bool_decide (end_ mod PGSIZE = 0));;
  assert (USER_ACCESS start end_);;
  unmap_loop fuel pgdir start end_.

Fixpoint exit_loop (fuel : nat) (pgdir start end_ : Z) : M V unit :=
  match fuel with
  | O => out_of_fuel
  | S fuel =>
    let pdep := pgdir + 4 * PDX start in
    pde ← load pdep;
    (if bool_decide (Z.land pde PTE_P ≠ 0) then
       p ← pde2page npage pde; free_page p;; store pdep 0
     else skip);;
    let start' := u32 (start + PTSIZE) in
    if bool_decide (start' ≠ 0 ∧ start' < end_) then exit_loop fuel pgdir start' end_ else skip
  end.
Definition exit_range (fuel : nat) (pgdir start end_ : Z) : M V unit :=
  assert (bool_decide (start mod PGSIZE = 0) && bool_decide (end_ mod PGSIZE = 0));;
  assert (USER_ACCESS start end_);;
  exit_loop fuel pgdir (ROUNDDOWN start PTSIZE) end_.

Fixpoint copy_loop (fuel : nat) (to from start end_ : Z) (share : bool) : M V Z :=
  match fuel with
  | O => out_of_fuel
  | S fuel =>
    let go start' :=
      if bool_decide (start' ≠ 0 ∧ start' < end_) then copy_loop fuel to from start' end_ share else mret 0 in
    ptep ← get_pte from start false;
    if bool_decide (ptep = 0) then go (ROUNDDOWN (u32 (start + PTSIZE)) PTSIZE)
    else
      pte ← load ptep;
      if bool_decide (pte ≠ 0) then
        nptep ← get_pte to start true;
        if bool_decide (nptep = 0) then mret (- E_NO_MEM)
        else
          pte ← load ptep; npte ← load nptep;
          assert (bool_decide (pte ≠ 0) && bool_decide (npte = 0));;
          (if bool_decide (Z.land pte PTE_P ≠ 0) then
             let perm := Z.land pte PTE_USER in
             page ← pte2page npage pte;
             perm ← (if negb share && bool_decide (Z.land pte PTE_W ≠ 0) then
                       let perm := Z.land perm (u32 (Z.lnot PTE_W)) in
                       page_insert from page start perm;; mret perm
                     else mret perm);
             ret ← page_insert to page start perm;
             assert (bool_decide (ret = 0))
           else skip);;
          go (u32 (start + PGSIZE))
      else go (u32 (start + PGSIZE))
  end.
Definition copy_range (fuel : nat) (to from start end_ : Z) (share : bool) : M V Z :=
  assert (bool_decide (start mod PGSIZE = 0) && bool_decide (end_ mod PGSIZE = 0));;
  assert (USER_ACCESS start end_);;
  copy_loop fuel to from start end_ share.

(** ** Boot *)
Fixpoint map_loop (n : nat) (pgdir la pa perm : Z) : M V unit :=
  match n with
  | O => skip
  | S n =>
    ptep ← get_pte pgdir la true;
    assert (bool_decide (ptep ≠ 0));;
    store ptep (Z.lor (Z.lor pa PTE_P) perm);;
    map_loop n pgdir (u32 (la + PGSIZE)) (u32 (pa + PGSIZE)) perm
  end.
Definition boot_map_segment (pgdir la size pa perm : Z) : M V unit :=
  assert (bool_decide (PGOFF la = PGOFF pa));;
  let n := ROUNDUP (u32 (size + PGOFF la)) PGSIZE / PGSIZE in
  map_loop (Z.to_nat n) pgdir (ROUNDDOWN la PGSIZE) (ROUNDDOWN pa PGSIZE) perm.

Definition boot_alloc_page : M V Z :=
  p ← alloc_page;
  match p with Some p => page2kva npage p | None => panic end.

(** ** check_pgdir *)
Definition check_ref (p n : Z) : M V unit :=
  r ← zoom palloc_lens (get_ref p); assert (bool_decide (r = n)).
Definition check_alloc : M V Z :=
  p ← alloc_page; match p with Some p => mret p | None => fault end.
Definition check_insert (pgdir p la perm : Z) : M V unit :=
  r ← page_insert pgdir p la perm; assert (bool_decide (r = 0)).
Definition check_pte (pgdir la : Z) : M V Z :=
  ptep ← get_pte pgdir la false; assert (bool_decide (ptep ≠ 0));; mret ptep.

Definition check_pgdir (boot_pgdir : Z) : M V unit :=
  assert (bool_decide (npage ≤ KMEMSIZE / PGSIZE));;
  assert (bool_decide (boot_pgdir ≠ 0) && bool_decide (PGOFF boot_pgdir = 0));;
  r ← get_page boot_pgdir 0; assert (bool_decide (r.1 = None));;
  p1 ← check_alloc;
  check_insert boot_pgdir p1 0 0;;
  ptep ← check_pte boot_pgdir 0;
  pte ← load ptep; q ← pa2page npage pte; assert (bool_decide (q = p1));; check_ref p1 1;;
  pde ← load boot_pgdir; kva ← KADDR npage (PDE_ADDR pde);
  let ptep := kva + 4 in
  ptep' ← get_pte boot_pgdir PGSIZE false; assert (bool_decide (ptep' = ptep));;
  p2 ← check_alloc;
  check_insert boot_pgdir p2 PGSIZE (Z.lor PTE_U PTE_W);;
  ptep ← check_pte boot_pgdir PGSIZE;
  pte ← load ptep; assert (bool_decide (Z.land pte PTE_U ≠ 0));; assert (bool_decide (Z.land pte PTE_W ≠ 0));;
  pde ← load boot_pgdir; assert (bool_decide (Z.land pde PTE_U ≠ 0));; check_ref p2 1;;
  check_insert boot_pgdir p1 PGSIZE 0;; check_ref p1 2;; check_ref p2 0;;
  ptep ← check_pte boot_pgdir PGSIZE;
  pte ← load ptep; q ← pa2page npage pte; assert (bool_decide (q = p1));;
  assert (bool_decide (Z.land pte PTE_U = 0));;
  page_remove boot_pgdir 0;; check_ref p1 1;; check_ref p2 0;;
  page_remove boot_pgdir PGSIZE;; check_ref p1 0;; check_ref p2 0;;
  pde ← load boot_pgdir; q ← pa2page npage pde; check_ref q 1;;
  free_page q;; store boot_pgdir 0.

(** pmm_init after check_alloc_page, without gdt_init (the segment registers
    are not part of this state) and the final checks. *)
Definition pmm_init_paging : M V Z :=
  boot_pgdir ← boot_alloc_page;
  memset_page boot_pgdir;;
  boot_pgdir_p ← PADDR boot_pgdir;
  check_pgdir boot_pgdir;;
  store (boot_pgdir + 4 * PDX VPT) (Z.lor (Z.lor boot_pgdir_p PTE_P) PTE_W);;
  boot_map_segment boot_pgdir KERNBASE KMEMSIZE 0 PTE_W;;
  pde ← load (boot_pgdir + 4 * PDX KERNBASE);
  store boot_pgdir pde;;
  modify (λ s, MkVmem A (words s) boot_pgdir_p (tlb s) (palloc s));;
  store boot_pgdir 0;;
  mret boot_pgdir.
End Model.

(** ** Printing the page tables *)

(** The character codes of perm2str. *)
Definition perm2str (perm : Z) : list Z :=
  [if bool_decide (Z.land perm PTE_U ≠ 0) then 117 else 45; 114;
   if bool_decide (Z.land perm PTE_W ≠ 0) then 119 else 45; 0].

Fixpoint skip_absent (fuel : nat) (table : Z → Z) (right start : Z) : Z :=
  match fuel with
  | O => start
  | S fuel => if bool_decide (start < right) && bool_decide (Z.land (table start) PTE_P = 0)
              then skip_absent fuel table right (start + 1) else start
  end.
Fixpoint skip_same (fuel : nat) (table : Z → Z) (right perm start : Z) : Z :=
  match fuel with
  | O => start
  | S fuel => if bool_decide (start < right) && bool_decide (Z.land (table start) PTE_USER = perm)
              then skip_same fuel table right perm (start + 1) else start
  end.
(** The result is perm, *left_store and *right_store; [fuel] bounds both loops. *)
Definition get_pgtable_items (fuel : nat) (right start : Z) (table : Z → Z) : Z * option (Z * Z) :=
  if bool_decide (start >= right) then (0, None)
  else
    let start := skip_absent fuel table right start in
    if bool_decide (start < right) then
      let perm := Z.land (table start) PTE_USER in
      (perm, Some (start, skip_same fuel table right perm (start + 1)))
    else (0, None).

(** The lines printed by print_pgdir: left, right and permission. *)
Fixpoint pgtable_items (turns fuel : nat) (right start : Z) (table : Z → Z) : list (Z * Z * Z) :=
  match turns with
  | O => []
  | S turns =>
    match get_pgtable_items fuel right start table with
    | (perm, Some (l, r)) => if bool_decide (perm ≠ 0) then (l, r, perm) :: pgtable_items turns fuel right r table
                             else []
    | (_, None) => []
    end
  end.
Definition print_pgdir (vpd vpt : Z → Z) : list ((Z * Z * Z) * list (Z * Z * Z)) :=
  (λ '(l, r, perm), ((l, r, perm),
     pgtable_items (Z.to_nat ((r - l) * NPTEENTRY)) (Z.to_nat ((r - l) * NPTEENTRY)) (r * NPTEENTRY)
       (l * NPTEENTRY) vpt)) <$>
  pgtable_items (Z.to_nat NPDEENTRY) (Z.to_nat NPDEENTRY) NPDEENTRY 0 vpd.

(** ** page_init *)
Record e820entry : Type := MkE820 { e_addr : Z; e_size : Z; e_type : Z }.
Definition E820_ARM : Z := 1.

Definition max_pa (memmap : list e820entry) : Z :=
  let maxpa := foldl (λ maxpa e,
    let end_ := u64 (e_addr e + e_size e) in
    if bool_decide (e_type e = E820_ARM) && bool_decide (maxpa < end_) && bool_decide (e_addr e < KMEMSIZE)
    then end_ else maxpa) 0 memmap in
  if bool_decide (maxpa > KMEMSIZE) then KMEMSIZE else maxpa.

(** The ranges given to init_memmap: first page and number of pages. *)
Definition memmap_range (freemem : Z) (e : e820entry) : option (Z * Z) :=
  let begin := e_addr e in
  let end_ := u64 (e_addr e + e_size e) in
  if bool_decide (e_type e = E820_ARM) then
    let begin := if bool_decide (begin < freemem) then freemem else begin in
    let end_ := if bool_decide (end_ > KMEMSIZE) then KMEMSIZE else end_ in
    if bool_decide (begin < end_) then
      let begin := ROUNDUP begin PGSIZE in
      let end_ := ROUNDDOWN end_ PGSIZE in
      if bool_decide (begin < end_) then Some (PPN begin, (end_ - begin) / PGSIZE) else None
    else None
  else None.

Fixpoint reserve_pages (n : nat) (i : Z) : M pmm unit :=
  match n with
  | O => skip
  | S n => set_page i SetPageReserved;; reserve_pages n (i + 1)
  end.
Fixpoint init_ranges (fuel : nat) (freemem : Z) (memmap : list e820entry) : M pmm unit :=
  match memmap with
  | [] => skip
  | e :: memmap =>
    match memmap_range freemem e with
    | Some (base, n) =>
      np ← gets npage;
      if bool_decide (base >= np) then panic else buddy_init_memmap fuel base n
    | None => skip
    end;;
    init_ranges fuel freemem memmap
  end.

(** [end_]: the address after the kernel image; [raw]: what the memory of the
    page array holds. *)
Definition page_init (fuel : nat) (memmap : list e820entry) (end_ sizeof_Page : Z) (raw : Z → Page) : M pmm unit :=
  let np := max_pa memmap / PGSIZE in
  let pages_ := ROUNDUP end_ PGSIZE in
  modify (λ s, MkPmm (list_to_map ((λ i, (i, raw i)) <$> seqZ 0 np)) (links s) (nr_free s) (mem_base s)
                 (zone_count s) np);;
  reserve_pages (Z.to_nat np) 0;;
  freemem ← PADDR (u32 (pages_ + sizeof_Page * np));
  init_ranges fuel freemem memmap.
