(* ===== verification/PmmRefs.v ===== *)
(** * Reference counts of pages and the page allocator

    The field ref of struct Page belongs to the code that maps pages; the
    buddy allocator keeps it for all pages but those it is given back. *)
From stdpp Require Import base gmap list fin_maps.
From Stdlib Require Import ZArith Lia.
From S2P Require Import Prelude DList Bits Buddy BuddyInv BuddyProps BuddyInit BuddySpec Alloc.

(** [refof a p]: the count of page [p]. *)
Class RefAllocator {A} (alloc_pages : Z → M A (option Z)) (free_pages : Z → Z → M A unit)
    (get_ref : Z → M A Z) (set_ref : Z → Z → M A unit) (np : Z)
    (held : A → list (Z * Z) → Prop) (refof : A → Z → Z) : Prop := {
  ra_pages :: PageAllocator alloc_pages free_pages np held;
  ra_perm a R R' : held a R → R ≡ₚ R' → held a R';
  ra_get a R p : held a R → p ∈ hand_pages R → get_ref p a = Ret (refof a p, a);
  ra_set a R p v : held a R → p ∈ hand_pages R → ∃ a', set_ref p v a = Ret ((), a') ∧ held a' R ∧
    refof a' p = v ∧ ∀ q, q ≠ p → refof a' q = refof a q;
  ra_alloc a R n r a' : held a R → 0 < n ≤ 2 ^ 10 → alloc_pages n a = Ret (r, a') →
    ∀ q, q ∈ hand_pages R → refof a' q = refof a q;
  ra_free a R i n a' : held a ((i, n) :: R) → free_pages i n a = Ret ((), a') →
    ∀ q, q ∈ hand_pages R → refof a' q = refof a q }.

(** Objects and pages with counts on one memory; kmalloc and kfree leave the
    counts of the pages of others alone. *)
Class KernelRefs {A} (kmalloc : Z → M A Z) (kfree : Z → M A unit)
    (alloc_pages : Z → M A (option Z)) (free_pages : Z → Z → M A unit)
    (get_ref : Z → M A Z) (set_ref : Z → Z → M A unit) (np : Z)
    (mem : A → gset Z → list (Z * Z) → Prop) (refof : A → Z → Z) : Prop := {
  kr_pages O :: RefAllocator alloc_pages free_pages get_ref set_ref np (λ a R, mem a O R) refof;
  kr_kmalloc a O R n : mem a O R → 0 < n ≤ KMALLOC_MAX → ∃ p a', kmalloc n a = Ret (p, a') ∧
    (p = 0 ∧ mem a' O R ∨ p ≠ 0 ∧ p ∉ O ∧ mem a' ({[p]} ∪ O) R) ∧ ∀ q, q ∈ hand_pages R → refof a' q = refof a q;
  kr_kfree a O R p : mem a O R → p ∈ O → ∃ a', kfree p a = Ret ((), a') ∧ mem a' (O ∖ {[p]}) R ∧
    ∀ q, q ∈ hand_pages R → refof a' q = refof a q }.

(** ** The buddy allocator and the counts *)
Definition page_refof (s : pmm) (p : Z) : Z := match pages s !! p with Some pg => ref pg | None => 0 end.
Definition buddy_get_ref (p : Z) : M pmm Z := pg ← get_page p; mret (page_ref pg).
Definition buddy_set_ref (p v : Z) : M pmm unit := set_page p (set_page_ref v).

(** What [π] shows of page [p]. *)
Definition page_view {T} (π : Page → T) (s : pmm) (p : Z) : option T := π <$> pages s !! p.

(** A computation that keeps what [π] shows of the pages in [X]. *)
Class Keeps {T B} (π : Page → T) (X : Z → Prop) (m : M pmm B) : Prop :=
  keeps : ∀ s r s', m s = Ret (r, s') → ∀ q, X q → page_view π s' q = page_view π s q.

(** A field the buddy allocator writes only in the pages it is given back. *)
Class Foreign {T} (π : Page → T) : Prop := {
  fo_property o pg : π (set_property o pg) = π pg;
  fo_Set pg : π (SetPageProperty pg) = π pg;
  fo_Clear pg : π (ClearPageProperty pg) = π pg }.
#[export] Instance ref_foreign : Foreign ref.
Proof. by split. Qed.

Lemma order_size_double o : 0 ≤ o ≤ 10 → u32 (Z.shiftl (2 ^ o) 1) = 2 ^ (o + 1).
Proof.
  intros Ho. rewrite Z.shiftl_mul_pow2, <-Z.pow_add_r by lia. apply u32_small. unfold is_u32.
  split; [apply Z.pow_nonneg; lia|]. apply Z.pow_lt_mono_r; lia.
Qed.

Section Keeps.
Context {T : Type} (π : Page → T) `{!Foreign π} (X : Z → Prop).

#[export] Instance keeps_bind {B C} (m : M pmm B) (k : B → M pmm C) :
  Keeps π X m → (∀ b, Keeps π X (k b)) → Keeps π X (m ≫= k).
Proof.
  intros Hm Hk s r s' E q Hq. apply bind_inv in E as (b & s1 & E1 & E2).
  rewrite (Hk b s1 r s' E2 q Hq). by eapply Hm.
Qed.
#[export] Instance keeps_ret {B} (b : B) : Keeps π X (mret b).
Proof. intros s r s' E. by injection E as <- <-. Qed.
#[export] Instance keeps_skip : Keeps π X skip.
Proof. apply keeps_ret. Qed.
#[export] Instance keeps_stop {B} (m : M pmm B) : (∀ s r, m s ≠ Ret r) → Keeps π X m.
Proof. intros Hm s r s' E. by destruct (Hm s (r, s')). Qed.
#[export] Instance keeps_fault {B} : Keeps π X (@fault pmm B).
Proof. by apply keeps_stop. Qed.
#[export] Instance keeps_panic {B} : Keeps π X (@panic pmm B).
Proof. by apply keeps_stop. Qed.
#[export] Instance keeps_fuel {B} : Keeps π X (@out_of_fuel pmm B).
Proof. by apply keeps_stop. Qed.
#[export] Instance keeps_assert b : Keeps π X (assert b).
Proof. destruct b; apply _. Qed.
#[export] Instance keeps_if {B} (b : bool) (m1 m2 : M pmm B) : Keeps π X m1 → Keeps π X m2 → Keeps π X (if b then m1 else m2).
Proof. by destruct b. Qed.
#[export] Instance keeps_gets {B} (f : pmm → B) : Keeps π X (gets f).
Proof. intros s r s' E. by injection E as <- <-. Qed.
#[export] Instance keeps_get_page p : Keeps π X (get_page p).
Proof. intros s r s' E. unfold get_page in E. case_match; by simplify_eq. Qed.
#[export] Instance keeps_get_nr_free o : Keeps π X (get_nr_free o).
Proof. intros s r s' E. unfold get_nr_free in E. case_match; by simplify_eq. Qed.
#[export] Instance keeps_get_mem_base z : Keeps π X (get_mem_base z).
Proof. intros s r s' E. unfold get_mem_base in E. case_match; by simplify_eq. Qed.
#[export] Instance keeps_set_nr_free o n : Keeps π X (set_nr_free o n).
Proof. intros s r s' E. by injection E as <- <-. Qed.
#[export] Instance keeps_links {B} (m : M (gmap addr (list_entry addr)) B) : Keeps π X (zoom links_lens m).
Proof. intros s r s' E q Hq. unfold zoom in E. case_match; simplify_eq. by case_match; simplify_eq. Qed.
#[export] Instance keeps_le2page le : Keeps π X (le2page le).
Proof. destruct le; apply _. Qed.

Lemma keeps_set_page p f : (∀ pg, X p → π (f pg) = π pg) → Keeps π X (set_page p f).
Proof.
  intros Hf s r s' E q Hq. unfold set_page in E. destruct (pages s !! p) as [pg|] eqn:Ep; simplify_eq.
  unfold page_view. simpl. destruct (decide (q = p)) as [->|Hne].
  - rewrite lookup_insert_eq, Ep. simpl. f_equal. by apply Hf.
  - by rewrite lookup_insert_ne.
Qed.
#[export] Instance keeps_set_property p o : Keeps π X (set_page p (set_property o)).
Proof. apply keeps_set_page. intros. apply fo_property. Qed.
#[export] Instance keeps_SetPageProperty p : Keeps π X (set_page p SetPageProperty).
Proof. apply keeps_set_page. intros. apply fo_Set. Qed.
#[export] Instance keeps_ClearPageProperty p : Keeps π X (set_page p ClearPageProperty).
Proof. apply keeps_set_page. intros. apply fo_Clear. Qed.

#[export] Instance keeps_split fuel page cur order size : Keeps π X (split_loop fuel page cur order size).
Proof. revert cur size. induction fuel; intros; cbn [split_loop]; apply _. Qed.
#[export] Instance keeps_option {B C} (o : option B) (m1 : B → M pmm C) m2 :
  (∀ b, Keeps π X (m1 b)) → Keeps π X m2 → Keeps π X (match o with Some b => m1 b | None => m2 end).
Proof. by destruct o. Qed.
#[export] Instance keeps_alloc_loop fuel order cur : Keeps π X (alloc_loop fuel order cur).
Proof. revert cur. induction fuel; intros; cbn [alloc_loop]; apply _. Qed.
#[export] Instance keeps_page_is_buddy p o z : Keeps π X (page_is_buddy p o z).
Proof. unfold page_is_buddy. apply _. Qed.
#[export] Instance keeps_idx2page z i : Keeps π X (idx2page z i).
Proof. unfold idx2page. apply _. Qed.
#[export] Instance keeps_page2idx p : Keeps π X (page2idx p).
Proof. unfold page2idx. apply _. Qed.
#[export] Instance keeps_merge fuel z i o : Keeps π X (merge_loop fuel z i o).
Proof. revert i o. induction fuel; intros; cbn [merge_loop]; apply _. Qed.
#[export] Instance keeps_pair {B C D} (x : B * C) (m : B → C → M pmm D) :
  (∀ b c, Keeps π X (m b c)) → Keeps π X (let '(b, c) := x in m b c).
Proof. by destruct x. Qed.
#[export] Instance keeps_lower fuel n o z : Keeps π X (lower fuel n o z).
Proof. revert o z. induction fuel; intros; cbn [lower]; apply _. Qed.
#[export] Instance keeps_getorder n : Keeps π X (getorder n).
Proof. unfold getorder. generalize 11%nat 0 1. intros f. induction f; intros; cbn [getorder_loop]; apply _. Qed.

(** Outside the range freed. *)
Definition outside (i n : Z) : Prop := ∀ q, X q → ¬ i ≤ q < i + n.

Lemma keeps_free_clear n i : outside i (Z.of_nat n) → Keeps π X (free_clear n i).
Proof.
  revert i. induction n as [|n IH]; intros i Ho; cbn [free_clear]; [apply _|].
  assert (Keeps π X (set_page i (λ pg, set_page_ref 0 (set_flags 0 pg)))).
  { apply keeps_set_page. intros pg Hi. destruct (Ho i Hi). lia. }
  assert (Keeps π X (free_clear n (i + 1))) by (apply IH; intros q Hq ?; destruct (Ho q Hq); lia).
  apply _.
Qed.
Lemma keeps_free_sub i o : 0 ≤ o → outside i (2 ^ o) → Keeps π X (buddy_free_pages_sub i o).
Proof.
  intros Ho Hx. assert (Keeps π X (free_clear (Z.to_nat (Z.shiftl 1 o)) i)).
  { apply keeps_free_clear. rewrite Z.shiftl_1_l. pose proof (pow2_pos o Ho). by rewrite Z2Nat.id by lia. }
  unfold buddy_free_pages_sub. apply _.
Qed.

Lemma outside_rest i n k : 0 ≤ k → outside i n → outside (i + k) (n - k).
Proof. intros Hk Ho q Hq ?. destruct (Ho q Hq). lia. Qed.
Lemma outside_part i n k : k ≤ n → outside i n → outside i k.
Proof. intros Hk Ho q Hq ?. destruct (Ho q Hq). lia. Qed.

Lemma lower_run fuel n o s r s' :
  0 ≤ o → 0 < n → lower fuel n o (2 ^ o) s = Ret (r, s') → s' = s ∧ 0 ≤ r.1 ∧ r.2 = 2 ^ r.1 ∧ 2 ^ r.1 ≤ n.
Proof.
  revert o. induction fuel as [|fuel IH]; intros o Ho Hn; cbn [lower]; [done|]. case_bool_decide as E.
  - destruct (decide (o = 0)) as [->|Hne]; [simpl in E; lia|].
    rewrite Z.shiftr_div_pow2, <-Z.pow_sub_r by lia. apply IH; lia.
  - intros [= <- <-]. simpl. split_and!; [done|lia|done|lia].
Qed.
Lemma free_low_keeps fuel i n o s r s' :
  0 ≤ o ≤ 11 → 0 ≤ n → outside i n → free_low fuel i n o (2 ^ o) s = Ret (r, s') →
  (∀ q, X q → page_view π s' q = page_view π s q) ∧
  ∃ i' n' o', r = (i', n', o', 2 ^ o') ∧ 0 ≤ o' ∧ 0 ≤ n' ∧ outside i' n'.
Proof.
  revert i n o s. induction fuel as [|fuel IH]; intros i n o s Ho Hn0 Hx; cbn [free_low]; [done|].
  destruct (decide (n >= 2 ^ o)) as [Hge|Hlt].
  2: { rewrite (bool_decide_false (n >= 2 ^ o)) by done. intros [= <- <-]. split; [done|]. exists i, n, o.
       split_and!; [done|lia|done|done]. }
  rewrite (bool_decide_true (n >= 2 ^ o)) by done. intros E.
  apply bind_assert_inv in E as [Hmax%bool_decide_eq_true E]. unfold MAX_ORDER in Hmax.
  apply bind_inv in E as (idx & s1 & E1 & E). apply bind_inv in E as ([i1 n1] & s2 & E2 & E).
  assert (Hk1 : ∀ q, X q → page_view π s1 q = page_view π s q) by by eapply keeps_page2idx.
  rewrite order_size_double in E by lia.
  assert (H2 : (∀ q, X q → page_view π s2 q = page_view π s1 q) ∧ 0 ≤ n1 ∧ outside i1 n1).
  { pose proof (pow2_pos o ltac:(lia)). case_bool_decide; simpl in E2.
    - apply bind_inv in E2 as ([] & s3 & E3 & [= <- <- <-]). split_and!; [|lia|apply outside_rest; [lia|done]].
      eapply (keeps_free_sub i o); [lia|by eapply outside_part; [|done]; lia|done].
    - by injection E2 as <- <- <-. }
  destruct H2 as (Hk2 & Hn1 & Hx2). destruct (IH i1 n1 (o + 1) s2 ltac:(lia) Hn1 Hx2 E) as [Hk3 ?]. split; [|done].
  intros q Hq. by rewrite Hk3, Hk2, Hk1.
Qed.
Lemma free_high_keeps fuel i n o s r s' :
  0 ≤ o → 0 ≤ n → outside i n → free_high fuel i n o (2 ^ o) s = Ret (r, s') →
  ∀ q, X q → page_view π s' q = page_view π s q.
Proof.
  revert i n o s. induction fuel as [|fuel IH]; intros i n o s Ho Hn Hx; cbn [free_high]; [done|].
  case_bool_decide as Hn0; [|by intros [= <- <-]]. intros E.
  apply bind_inv in E as ([o1 z1] & s1 & E1 & E). apply lower_run in E1 as (-> & Ho1 & Hz & Hle); [|lia|lia].
  simpl in *. subst z1. apply bind_inv in E as ([] & s2 & E2 & E).
  pose proof (pow2_pos o1 Ho1).
  intros q Hq. etransitivity.
  { eapply (IH (i + 2 ^ o1) (n - 2 ^ o1) o1 s2); [lia|lia|apply outside_rest; [lia|done]|done|done]. }
  eapply (keeps_free_sub i o1); [lia|by eapply outside_part|done|done].
Qed.

Lemma keeps_free_pages i n : outside i n → Keeps π X (buddy_free_pages i n).
Proof.
  intros Hx s r s' E. unfold buddy_free_pages in E. apply bind_assert_inv in E as [Hn%bool_decide_eq_true E].
  case_bool_decide as H1.
  - subst n. by eapply (keeps_free_sub i 0).
  - apply bind_inv in E as ([[[i1 n1] o1] z1] & s1 & E1 & E).
    destruct (free_low_keeps 13 i n 0 s _ s1 ltac:(lia) ltac:(lia) Hx E1) as (Hk & i' & n' & o' & [= -> -> -> ->] & Ho & Hn' & Hx').
    intros q Hq. rewrite <-(Hk q Hq). by eapply (free_high_keeps 13 i' n' o').
Qed.
End Keeps.

(** Allocation keeps the counts of the pages that are not free. *)
Lemma alloc_keeps {T} (π : Page → T) `{!Foreign π} s B L n r s' q :
  inv s B L None → 0 < n ≤ 2 ^ 10 → buddy_alloc_pages n s = Ret (r, s') → ¬ covers B q →
  page_view π s' q = page_view π s q.
Proof.
  intros Hi Hn E Hq. unfold buddy_alloc_pages in E. apply bind_assert_inv in E as [_ E].
  apply bind_inv in E as (o & s1 & E1 & E). apply bind_inv in E as (p & s2 & E2 & E).
  assert (Hs1 : s1 = s ∧ 0 ≤ o ≤ 10).
  { unfold getorder in E1. destruct (getorder_loop_spec 11 n 0 s) as (o' & Eo & Ho & _); try lia.
    change (2 ^ 0) with 1 in Eo. rewrite E1 in Eo. injection Eo as <- <-. split; [done|lia]. }
  destruct Hs1 as [-> Ho]. assert (H2 : page_view π s2 q = page_view π s q).
  { unfold buddy_alloc_pages_sub in E2. apply bind_assert_inv in E2 as [_ E2].
    by eapply (keeps_alloc_loop π (λ _, True)). }
  destruct p as [i|]; [|by injection E as <- <-]. apply bind_inv in E as ([] & s3 & E3 & [= <- <-]).
  destruct (alloc_sub_spec s B L o Ho Hi) as [[E _]|(i' & z & s4 & B4 & L4 & E & _ & _ & _ & _ & Hin & _)];
    rewrite E in E2; [done|]. injection E2 as -> ->. rewrite <-H2.
  case_bool_decide; [|by injection E3 as <-].
  eapply (keeps_free_pages π (λ q, ¬ covers B q)); [|done|done]. intros q' Hq' Hr. apply Hq', Hin.
  rewrite Z.shiftl_1_l in Hr. unfold in_block. lia.
Qed.

(** A change of a page that the buddy allocator does not see. *)
Class Unseen (f : Page → Page) : Prop :=
  unseen : ∀ pg, zone_num (f pg) = zone_num pg ∧ property (f pg) = property pg ∧
    PageProperty (f pg) = PageProperty pg ∧ PageReserved (f pg) = PageReserved pg.
#[export] Instance set_page_ref_unseen v : Unseen (set_page_ref v).
Proof. done. Qed.

Lemma inv_unseen s B L p pg f `{!Unseen f} :
  inv s B L None → pages s !! p = Some pg →
  inv (with_pages (<[p := f pg]> (pages s)) s) B L None ∧
  evolves s (with_pages (<[p := f pg]> (pages s)) s).
Proof.
  intros Hi Hpg. destruct (unseen (f := f) pg) as (U1 & U2 & U3 & U4).
  assert (Ev : evolves s (with_pages (<[p := f pg]> (pages s)) s)).
  { split; [|done..]. intros q qg Hq. simpl. destruct (decide (q = p)) as [->|Hne].
    - rewrite lookup_insert_eq. rewrite Hpg in Hq. injection Hq as <-. eexists. split_and!; [done|done|by rewrite U4].
    - rewrite lookup_insert_ne by done. by exists qg. }
  split; [|done]. destruct Hi as [H1 H2 H3 H4 H5 H6 H7 H8 H9 H10 H11]. split; simpl; try done.
  - intros q Hq. apply H2. destruct (decide (q = p)) as [->|Hne]; [by eexists|]. by rewrite lookup_insert_ne in Hq.
  - intros j o Hj. destruct (H6 j o Hj) as (z' & ? & ?). exists z'.
    split; [by eapply evolves_zoned|by eapply evolves_aligned].
  - intros j o Hj. destruct (H7 j o Hj) as (jg & Hjg & ? & ?). destruct (decide (j = p)) as [->|Hne].
    + rewrite lookup_insert_eq. rewrite Hpg in Hjg. injection Hjg as <-. eexists. by rewrite U2, U3.
    + rewrite lookup_insert_ne by done. by exists jg.
  - intros q qg Hq Hp He. destruct (decide (q = p)) as [->|Hne].
    + rewrite lookup_insert_eq in Hq. injection Hq as <-. rewrite U2. rewrite U3 in Hp. by apply (H8 p pg).
    + rewrite lookup_insert_ne in Hq by done. by apply H8.
  - intros q. rewrite <-H10. destruct (decide (q = p)) as [->|Hne].
    + rewrite lookup_insert_eq, Hpg. split; by eexists.
    + by rewrite lookup_insert_ne.
Qed.

Lemma hand_pages_perm R R' : R ≡ₚ R' → hand_pages R ≡ₚ hand_pages R'.
Proof. intros HR. unfold hand_pages. by rewrite HR. Qed.

Lemma held_page np s R p : buddy_held np s R → p ∈ hand_pages R → ∃ pg, pages s !! p = Some pg.
Proof.
  intros [_ (L & [_ Hr _])] (r & Hp & Hin)%list_elem_of_bind. destruct r as [i n]. apply elem_of_seqZ in Hp.
  rewrite Forall_forall in Hr. destruct (Hr _ Hin) as [_ (z & b & _ & _ & Hz)]. simpl in *.
  destruct (Hz p) as (pg & ? & _); [lia|]. by exists pg.
Qed.

Lemma buddy_held_perm np s R R' : buddy_held np s R → R ≡ₚ R' → buddy_held np s R'.
Proof.
  intros [Hn (L & [HB Hr Hnd])] HR. split; [done|]. exists L. split; [done| |].
  - by rewrite <-HR.
  - by rewrite <-(hand_pages_perm _ _ HR).
Qed.

Lemma held_unseen np s R p f `{!Unseen f} :
  buddy_held np s R → p ∈ hand_pages R → ∃ pg, pages s !! p = Some pg ∧
    let s' := with_pages (<[p := f pg]> (pages s)) s in set_page p f s = Ret ((), s') ∧ buddy_held np s' R.
Proof.
  intros Hh Hp. destruct (held_page np s R p Hh Hp) as [pg Hpg]. exists pg. split; [done|].
  destruct Hh as [Hn (L & [[B HB] Hr Hnd])]. destruct (inv_unseen s B L p pg f HB Hpg) as [I' Ev].
  split; [by apply set_page_run|]. split; [done|]. exists L. split; [by exists B| |done].
  eapply Forall_impl; [done|]. intros. by eapply holdable_evolves.
Qed.

Lemma held_alloc_keeps {T} (π : Page → T) `{!Foreign π} np s R n r s' q :
  buddy_held np s R → 0 < n ≤ 2 ^ 10 → buddy_alloc_pages n s = Ret (r, s') → q ∈ hand_pages R →
  page_view π s' q = page_view π s q.
Proof.
  intros [Hn (L & [[B HB] Hr Hnd])] Hnr E Hq. eapply alloc_keeps; [done..|]. intros Hc.
  apply NoDup_app in Hnd as (_ & Hd & _). apply (Hd q Hq). by eapply elem_of_free_list.
Qed.
Lemma held_free_keeps {T} (π : Page → T) `{!Foreign π} np s R i n s' q :
  buddy_held np s ((i, n) :: R) → buddy_free_pages i n s = Ret ((), s') → q ∈ hand_pages R →
  page_view π s' q = page_view π s q.
Proof.
  intros [Hn (L & [[B HB] Hr Hnd])] E Hq. eapply (keeps_free_pages π (λ q, q ∈ hand_pages R)); try done.
  intros q' Hq' Hin. unfold hand_pages at 1 in Hnd. csimpl in Hnd. rewrite <-app_assoc in Hnd.
  apply NoDup_app in Hnd as (_ & Hd & _). apply (Hd q'); [by apply elem_of_seqZ|]. apply elem_of_app. by left.
Qed.

Lemma page_refof_view s s' q : page_view ref s' q = page_view ref s q → page_refof s' q = page_refof s q.
Proof. unfold page_view, page_refof. destruct (pages s !! q), (pages s' !! q); simpl; congruence. Qed.

#[export] Instance buddy_ref_allocator np :
  RefAllocator buddy_alloc_pages buddy_free_pages buddy_get_ref buddy_set_ref np (buddy_held np) page_refof.
Proof.
  split; [apply _|apply buddy_held_perm|..].
  - intros s R p Hh Hp. destruct (held_page np s R p Hh Hp) as [pg Hpg]. unfold buddy_get_ref.
    mrun (get_page_run _ _ _ Hpg). unfold page_refof. by rewrite Hpg.
  - intros s R p v Hh Hp. destruct (held_unseen np s R p (set_page_ref v) Hh Hp) as (pg & Hpg & E & H').
    eexists. split_and!; [done|done|..].
    + unfold page_refof. simpl. by rewrite lookup_insert_eq.
    + intros q Hq. unfold page_refof. simpl. by rewrite lookup_insert_ne.
  - intros s R n r s' Hh Hnr E q Hq. apply page_refof_view. by eapply held_alloc_keeps.
  - intros s R i n s' Hh E q Hq. apply page_refof_view. by eapply held_free_keeps.
Qed.
