(* ===== verification/PmmFresh.v ===== *)
(** * Free pages have no references

    buddy_free_pages clears the counts of the pages it is given, so the pages
    buddy_alloc_pages hands out have none. *)
From stdpp Require Import base gmap list fin_maps.
From Stdlib Require Import ZArith Lia.
From S2P Require Import Prelude DList Bits Buddy BuddyInv BuddyProps BuddyInit BuddySpec Alloc PmmRefs.

(** The pages alloc_pages gives out have no references. *)
Class FreshRefs {A} (alloc_pages : Z → M A (option Z)) (held : A → list (Z * Z) → Prop) (refof : A → Z → Z) : Prop :=
  fresh_ref : ∀ a R n p a' q, held a R → 0 < n ≤ 2 ^ 10 → alloc_pages n a = Ret (Some p, a') → p ≤ q < p + n → refof a' q = 0.


(** ** What buddy_free_pages clears *)
Definition cleared (s : pmm) (i n : Z) : Prop := ∀ q, i ≤ q < i + n → page_refof s q = 0.
Lemma cleared_kept s s' i n : (∀ q, i ≤ q < i + n → page_view ref s' q = page_view ref s q) → cleared s i n → cleared s' i n.
Proof. intros Hk Hc q Hq. rewrite (page_refof_view s s' q) by auto. auto. Qed.
Lemma cleared_join s i m n : 0 ≤ m → cleared s i m → cleared s (i + m) n → cleared s i (m + n).
Proof. intros Hm H1 H2 q Hq. destruct (decide (q < i + m)); [apply H1|apply H2]; lia. Qed.

Lemma free_clear_cleared n i s r s' : free_clear n i s = Ret (r, s') → cleared s' i (Z.of_nat n).
Proof.
  revert i s. induction n as [|n IH]; intros i s E; [intros q Hq; lia|]. cbn [free_clear] in E.
  apply bind_inv in E as (pg & s1 & E1 & E). apply bind_assert_inv in E as [_ E]. apply bind_inv in E as ([] & s2 & E2 & E).
  replace (Z.of_nat (S n)) with (1 + Z.of_nat n) by lia. apply cleared_join; [lia| |by eapply IH].
  apply (cleared_kept s2).
  - intros q Hq. eapply (keeps_free_clear ref (λ q, q = i) n (i + 1)); [|exact E|lia]. intros q' -> ?. lia.
  - intros q Hq. replace q with i by lia. unfold set_page in E2. case_match; simplify_eq. unfold page_refof. simpl.
    by rewrite lookup_insert_eq.
Qed.
Lemma free_sub_cleared i o s r s' : 0 ≤ o → buddy_free_pages_sub i o s = Ret (r, s') → cleared s' i (2 ^ o).
Proof.
  intros Ho E. unfold buddy_free_pages_sub in E. apply bind_inv in E as (idx & s1 & E1 & E).
  apply bind_assert_inv in E as [_ E]. apply bind_inv in E as ([] & s2 & E2 & E).
  apply free_clear_cleared in E2. rewrite Z.shiftl_1_l, Z2Nat.id in E2 by (pose proof (pow2_pos o Ho); lia).
  eapply cleared_kept; [|exact E2]. intros q _. revert E. generalize s2 r s'. clear.
  intros s r s' E. refine (keeps (π := ref) (X := λ _, True) _ _ _ E q I).
Qed.

Lemma free_low_cleared fuel i n o s r s' : 0 ≤ o ≤ 11 → 0 ≤ n → free_low fuel i n o (2 ^ o) s = Ret (r, s') →
  ∃ i' n' o', r = (i', n', o', 2 ^ o') ∧ i ≤ i' ∧ i' + n' = i + n ∧ cleared s' i (i' - i).
Proof.
  revert i n o s. induction fuel as [|fuel IH]; intros i n o s Ho Hn; cbn [free_low]; [done|].
  destruct (decide (n >= 2 ^ o)) as [Hge|Hlt].
  2: { rewrite (bool_decide_false (n >= 2 ^ o)) by done. intros [= <- <-]. exists i, n, o. split_and!; [done|lia|lia|intros q; lia]. }
  rewrite (bool_decide_true (n >= 2 ^ o)) by done. intros E.
  apply bind_assert_inv in E as [Hmax%bool_decide_eq_true E]. unfold MAX_ORDER in Hmax.
  apply bind_inv in E as (idx & s1 & E1 & E). apply bind_inv in E as ([i1 n1] & s2 & E2 & E).
  rewrite (order_size_double o ltac:(lia)) in E. pose proof (pow2_pos o ltac:(lia)).
  assert (H2 : i ≤ i1 ∧ i1 + n1 = i + n ∧ 0 ≤ n1 ∧ cleared s2 i (i1 - i)).
  { case_bool_decide; simpl in E2.
    - apply bind_inv in E2 as ([] & s3 & E3 & [= <- <- <-]). split_and!; [lia..|].
      replace (i + 2 ^ o - i) with (2 ^ o) by lia. eapply free_sub_cleared; [lia|done].
    - injection E2 as <- <- <-. split_and!; [lia..|intros q; lia]. }
  destruct H2 as (Hi1 & Hs1 & Hn1 & Hc1). destruct (IH i1 n1 (o + 1) s2 ltac:(lia) Hn1 E) as (i' & n' & o' & -> & Hi' & Hs' & Hc').
  exists i', n', o'. split_and!; [done|lia|lia|]. replace (i' - i) with ((i1 - i) + (i' - i1)) by lia.
  apply cleared_join; [lia| |by replace (i + (i1 - i)) with i1 by lia]. eapply cleared_kept; [|exact Hc1]. intros q Hq.
  assert (Hout : outside (λ q, q < i1) i1 n1) by (intros q' ??; lia).
  destruct (free_low_keeps ref (λ q, q < i1) fuel i1 n1 (o + 1) s2 _ s' ltac:(lia) Hn1 Hout E) as [Hk _]. apply Hk. lia.
Qed.

Lemma free_high_cleared fuel i n o s r s' : 0 ≤ o → 0 ≤ n → free_high fuel i n o (2 ^ o) s = Ret (r, s') → cleared s' i n.
Proof.
  revert i n o s. induction fuel as [|fuel IH]; intros i n o s Ho Hn; cbn [free_high]; [done|].
  case_bool_decide as Hn0; [|intros [= <- <-] q; lia]. intros E.
  apply bind_inv in E as ([o1 z1] & s1 & E1 & E). apply lower_run in E1 as (-> & Ho1 & Hz & Hle); [|lia|lia].
  simpl in *. subst z1. apply bind_inv in E as ([] & s2 & E2 & E). pose proof (pow2_pos o1 Ho1).
  replace n with (2 ^ o1 + (n - 2 ^ o1)) by lia. apply cleared_join; [lia| |by eapply IH; [exact Ho1|lia|]].
  eapply cleared_kept; [|by eapply free_sub_cleared; [exact Ho1|]]. intros q Hq.
  eapply (free_high_keeps ref (λ q, q < i + 2 ^ o1) fuel (i + 2 ^ o1) (n - 2 ^ o1) o1 s2); [lia|lia| |exact E|lia].
  intros q' ??. lia.
Qed.

Lemma free_pages_cleared i n s r s' : buddy_free_pages i n s = Ret (r, s') → cleared s' i n.
Proof.
  intros E. unfold buddy_free_pages in E. apply bind_assert_inv in E as [Hn%bool_decide_eq_true E]. case_bool_decide as H1.
  - subst n. by eapply (free_sub_cleared i 0).
  - apply bind_inv in E as ([[[i1 n1] o1] z1] & s1 & E1 & E).
    assert (Hout : outside (λ _, False) i n) by (intros q' []).
    destruct (free_low_keeps ref (λ _, False) 13 i n 0 s _ s1 ltac:(lia) ltac:(lia) Hout E1) as (_ & ? & ? & ? & [= <- <- <- ->] & Ho & Hn1 & _).
    destruct (free_low_cleared 13 i n 0 s _ s1 ltac:(lia) ltac:(lia) E1) as (? & ? & ? & [= <- <- Heq] & Hi1 & Hs1 & Hc1).
    replace n with ((i1 - i) + n1) by lia. apply cleared_join; [lia| |].
    + eapply cleared_kept; [|exact Hc1]. intros q Hq.
      eapply (free_high_keeps ref (λ q, q < i1) 13 i1 n1 o1 s1); [lia|lia| |exact E|lia]. intros q' ??. lia.
    + replace (i + (i1 - i)) with i1 by lia. by eapply free_high_cleared; [exact Ho|exact Hn1|].
Qed.

(** ** buddy_alloc_pages: the counts stay or are cleared *)
Lemma alloc_pages_refs n s r s' q : buddy_alloc_pages n s = Ret (r, s') → page_refof s' q = page_refof s q ∨ page_refof s' q = 0.
Proof.
  intros E. unfold buddy_alloc_pages in E. apply bind_assert_inv in E as [_ E].
  apply bind_inv in E as (o & s1 & E1 & E). apply bind_inv in E as (p & s2 & E2 & E).
  assert (H2 : page_refof s2 q = page_refof s q).
  { rewrite (page_refof_view s1 s2); [|]; [apply page_refof_view|].
    - by eapply (keeps_getorder ref (λ _, True)).
    - unfold buddy_alloc_pages_sub in E2. apply bind_assert_inv in E2 as [_ E2]. by eapply (keeps_alloc_loop ref (λ _, True)). }
  destruct p as [i|]; [|injection E as <- <-; by left]. apply bind_inv in E as ([] & s3 & E3 & [= <- <-]).
  rewrite <-H2. case_bool_decide; [|injection E3 as <-; by left].
  destruct (decide (i + n ≤ q < i + n + (Z.shiftl 1 o - n))) as [Hin|Hout].
  - right. by eapply free_pages_cleared.
  - left. apply page_refof_view. eapply (keeps_free_pages ref (λ q', q' = q)); [|exact E3|done]. intros q' -> ?. lia.
Qed.

(** ** The allocator with the counts of its free pages *)
Definition buddy_fresh (np : Z) (s : pmm) (R : list (Z * Z)) : Prop :=
  npage s = np ∧ ∃ L, holds s L R ∧ ∀ q, q ∈ free_list L → page_refof s q = 0.
Lemma fresh_held np s R : buddy_fresh np s R → buddy_held np s R.
Proof. intros (Hn & L & H & _). split; [done|by exists L]. Qed.

Lemma elem_of_hand i n R q : q ∈ hand_pages ((i, n) :: R) ↔ i ≤ q < i + n ∨ q ∈ hand_pages R.
Proof. unfold hand_pages. csimpl. by rewrite elem_of_app, elem_of_seqZ. Qed.

(** A page is in hand or free, not both. *)
Lemma holds_free s L R q : holds s L R → q ∈ hand_pages R → q ∉ free_list L.
Proof. intros [_ _ Hnd] Hq. by apply NoDup_app in Hnd as (_ & Hd & _); auto. Qed.

Lemma alloc_fresh np s R n : buddy_fresh np s R → 0 < n ≤ 2 ^ 10 → ∃ r s', buddy_alloc_pages n s = Ret (r, s') ∧
  buddy_fresh np s' (match r with Some i => (i, n) :: R | None => R end) ∧
  match r with Some i => cleared s' i n | None => True end.
Proof.
  intros (Hnp & L & H & Hz) Hn. destruct (run_op_spec s L R (OpAlloc n) H Hn) as (s' & L' & R' & E & H' & HP). simpl in E.
  apply bind_inv in E as (r & s1 & E1 & [= <- <-]). exists r, s1. split; [done|].
  assert (Hz' : ∀ q, q ∈ free_list L → page_refof s1 q = 0).
  { intros q Hq. destruct (alloc_pages_refs n s r s1 q E1) as [->|?]; auto. }
  split; [split|].
  - destruct H as [[B HB] _ _]. by rewrite (alloc_pages_npage s B L n r s1).
  - exists L'. split; [by destruct r|]. intros q Hq.
    assert (Hin : q ∈ hand_pages R ++ free_list L) by (rewrite <-HP; set_solver +Hq).
    apply elem_of_app in Hin as [Hin|Hin]; [|auto]. destruct (holds_free _ _ _ q H'); [|done].
    destruct r; [|done]. apply elem_of_hand. by right.
  - destruct r as [i|]; [|done]. intros q Hq. assert (Hh : q ∈ hand_pages ((i, n) :: R)) by (apply elem_of_hand; by left).
    assert (Hin : q ∈ hand_pages R ++ free_list L) by (rewrite <-HP; set_solver +Hh).
    apply elem_of_app in Hin as [Hin|Hin]; [|auto]. destruct H' as [_ _ Hnd]. apply NoDup_app in Hnd as (Hnd & _).
    unfold hand_pages in Hnd. csimpl in Hnd. apply NoDup_app in Hnd as (_ & Hd & _). destruct (Hd q); [by apply elem_of_seqZ|done].
Qed.

Lemma free_fresh np s R i n : buddy_fresh np s ((i, n) :: R) → ∃ s', buddy_free_pages i n s = Ret ((), s') ∧ buddy_fresh np s' R.
Proof.
  intros Hf. destruct (pa_free (PageAllocator := buddy_page_allocator np) s R i n (fresh_held _ _ _ Hf)) as (s1 & E0 & Hh1).
  destruct Hf as (Hnp & L & H & Hz). destruct (run_op_spec s L ((i, n) :: R) (OpFree 0) H I) as (s' & L' & R' & E & H' & HP).
  simpl in E. apply bind_inv in E as ([] & s2 & E1 & [= <- <-]). rewrite E0 in E1. injection E1 as <-.
  exists s1. split; [done|]. split; [apply Hh1|]. exists L'. split; [done|]. intros q Hq.
  assert (Hin : q ∈ hand_pages ((i, n) :: R) ++ free_list L) by (rewrite <-HP; set_solver +Hq).
  rewrite elem_of_app, elem_of_hand in Hin. destruct (decide (i ≤ q < i + n)) as [Hr|Hr].
  { by eapply free_pages_cleared. }
  destruct Hin as [[?|Hin]|Hin]; [done|by destruct (holds_free _ _ _ q H')|].
  rewrite (page_refof_view s s1 q); [auto|].
  eapply (keeps_free_pages ref (λ q', q' = q)); [|exact E0|done]. intros q' -> ?. done.
Qed.

#[export] Instance buddy_fresh_allocator np :
  RefAllocator buddy_alloc_pages buddy_free_pages buddy_get_ref buddy_set_ref np (buddy_fresh np) page_refof.
Proof.
  pose proof (buddy_ref_allocator np) as HR. split.
  - split.
    + intros s R n Hf Hn. destruct (alloc_fresh np s R n Hf Hn) as (r & s' & ? & ? & _). by exists r, s'.
    + apply free_fresh.
    + intros s R Hf%fresh_held. by apply (pa_nodup (PageAllocator := buddy_page_allocator np) s).
    + intros s R i n Hf%fresh_held. by apply (pa_range (PageAllocator := buddy_page_allocator np) s).
  - intros s R R' (Hn & L & [HB Hr Hnd] & Hz) HR'. split; [done|]. exists L. split; [|done]. split; [done|by rewrite <-HR'|].
    by rewrite <-(hand_pages_perm _ _ HR').
  - intros s R p Hf%fresh_held. by apply (ra_get (RefAllocator := HR)).
  - intros s R p v Hf Hp. destruct (held_page np s R p (fresh_held _ _ _ Hf) Hp) as [pg Hpg].
    destruct Hf as (Hn & L & Hh & Hz). pose proof Hh as [[B HB] Hr Hnd].
    destruct (inv_unseen s B L p pg (set_page_ref v) HB Hpg) as [I' Ev]. eexists. split; [by apply set_page_run|].
    assert (Hrv : ∀ q, q ≠ p → page_refof (with_pages (<[p:=set_page_ref v pg]> (pages s)) s) q = page_refof s q).
    { intros q Hq. unfold page_refof. simpl. by rewrite lookup_insert_ne. }
    split_and!; [|by unfold page_refof; simpl; rewrite lookup_insert_eq|done].
    split; [done|]. exists L. split.
    + split; [by exists B| |done]. eapply Forall_impl; [done|]. intros. by eapply holdable_evolves.
    + intros q Hq. rewrite Hrv; [auto|]. intros ->. by eapply holds_free.
  - intros s R n r s' Hf%fresh_held. by apply (ra_alloc (RefAllocator := HR)).
  - intros s R i n s' Hf%fresh_held. by apply (ra_free (RefAllocator := HR)).
Qed.

#[export] Instance buddy_fresh_refs np : FreshRefs buddy_alloc_pages (buddy_fresh np) page_refof.
Proof.
  intros s R n p s' q Hf Hn E Hq. destruct (alloc_fresh np s R n Hf Hn) as (r & s1 & E1 & _ & Hc).
  rewrite E in E1. injection E1 as <- <-. by apply Hc.
Qed.
