(* ===== verification/PmmInv.v ===== *)
(** * Page tables: the invariant and the elementary steps

    The user part of an address space (below KERNBASE, page numbers below
    768 * 1024) as a function from page numbers to page table entries. *)
From stdpp Require Import base gmap list fin_maps.
From Stdlib Require Import ZArith Lia.
From S2P Require Import Prelude DList Bits Printfmt Mmu Buddy BuddySpec Alloc PmmRefs Pmm.

Definition UPDE : Z := 768.
Definition UPN : Z := UPDE * 1024.

(** ** Words *)
Lemma word_insert_eq w i x : word (<[i := x]> w) i = x.
Proof. unfold word. by rewrite lookup_insert_eq. Qed.
Lemma word_insert_ne w i j x : j ≠ i → word (<[i := x]> w) j = word w j.
Proof. intros. unfold word. by rewrite lookup_insert_ne. Qed.
Lemma word_clear n i w j :
  word (clear_words n i w) j = if decide (i ≤ j < i + Z.of_nat n) then 0 else word w j.
Proof.
  revert i w. induction n as [|n IH]; intros i w; cbn [clear_words].
  - rewrite decide_False by lia. done.
  - rewrite IH. destruct (decide (j = i)) as [->|Hne].
    + rewrite decide_False, decide_True, word_insert_eq by lia. done.
    + rewrite word_insert_ne by done. do 2 destruct (decide _); try done; lia.
Qed.

(** ** Entries *)
Lemma present_spec e : Z.land e PTE_P ≠ 0 ↔ e mod 2 = 1.
Proof.
  unfold PTE_P. change 1 with (2 ^ 1 - 1) at 1. rewrite land_mask by lia. change (2 ^ 1) with 2.
  pose proof (Z.mod_pos_bound e 2 ltac:(lia)). lia.
Qed.
Lemma absent_spec e : Z.land e PTE_P = 0 ↔ e mod 2 = 0.
Proof.
  unfold PTE_P. change 1 with (2 ^ 1 - 1) at 1. rewrite land_mask by lia. done.
Qed.
Lemma page2pa_small p : 0 ≤ p < 2 ^ 20 → page2pa p = p * PGSIZE.
Proof.
  intros Hp. unfold page2pa, PGSHIFT, PGSIZE. rewrite Z.shiftl_mul_pow2 by lia. apply u32_small. unfold is_u32. lia.
Qed.
Lemma low_bits p perm :
  0 ≤ p < 2 ^ 20 → 0 ≤ perm < PGSIZE →
  let e := Z.lor (page2pa p) (Z.lor 1 perm) in e / PGSIZE = p ∧ e mod 2 = 1 ∧ is_u32 e.
Proof.
  intros Hp Hperm. unfold PGSIZE in *. assert (Hl : 0 ≤ Z.lor 1 perm < 2 ^ 12).
  { split; [apply Z.lor_nonneg; lia|]. apply Z.log2_lt_pow2; [|rewrite Z.log2_lor by lia].
    - pose proof (Z.lor_nonneg 1 perm) as Hn. assert (Z.lor 1 perm ≠ 0); [|lia].
      rewrite Z.lor_eq_0_iff. lia.
    - apply Z.max_lub_lt; [done|]. destruct (decide (perm = 0)) as [->|]; [done|].
      apply Z.log2_lt_pow2; lia. }
  assert (Hodd : Z.lor 1 perm mod 2 = 1).
  { change 2 with (2 ^ 1). rewrite <-Z.land_ones, Z.land_lor_distr_l by lia. change (Z.ones 1) with 1.
    change (Z.land 1 1) with 1. change 1 with (Z.ones 1) at 2. rewrite Z.land_ones by lia. change (2 ^ 1) with 2.
    pose proof (Z.mod_pos_bound perm 2 ltac:(lia)).
    assert (perm mod 2 = 0 ∨ perm mod 2 = 1) as [->| ->] by lia; done. }
  cbv zeta. rewrite page2pa_small by done. unfold PGSIZE.
  pose proof (lor_add p (Z.lor 1 perm) 12 ltac:(lia) Hl) as Heq. rewrite Z.shiftl_mul_pow2 in Heq by lia.
  change (2 ^ 12) with 4096 in *. rewrite Heq. split_and!.
  - rewrite Z.add_comm, Z.div_add by lia. rewrite Z.div_small by lia. done.
  - replace (p * 4096) with (p * 2048 * 2) by lia. rewrite Z.add_comm, Z.mod_add by lia. done.
  - unfold is_u32. lia.
Qed.

(** The entry page_insert stores. *)
Lemma pte_value p perm :
  0 ≤ p < 2 ^ 20 → 0 ≤ perm < PGSIZE →
  let e := Z.lor (Z.lor (page2pa p) PTE_P) perm in e / PGSIZE = p ∧ e mod 2 = 1 ∧ is_u32 e.
Proof. intros Hp Hperm. cbv zeta. rewrite <-Z.lor_assoc. by apply low_bits. Qed.
(** The entry get_pte stores in the page directory. *)
Lemma pde_value p :
  0 ≤ p < 2 ^ 20 →
  let e := Z.lor (Z.lor (Z.lor (page2pa p) PTE_U) PTE_W) PTE_P in e / PGSIZE = p ∧ e mod 2 = 1 ∧ is_u32 e.
Proof.
  intros Hp. cbv zeta. rewrite <-!Z.lor_assoc. change (Z.lor PTE_U (Z.lor PTE_W PTE_P)) with (Z.lor 1 6).
  apply low_bits; [done|]. unfold PGSIZE. lia.
Qed.

Lemma PPN_addr e : is_u32 e → PPN (PTE_ADDR e) = e / PGSIZE.
Proof.
  intros He. rewrite PPN_div, PTE_ADDR_spec by done. unfold PGSIZE. change (2 ^ 12) with 4096.
  pose proof (Z.div_mod e 4096 ltac:(lia)). replace (e - e mod 4096) with (e / 4096 * 4096) by lia.
  by rewrite Z.div_mul.
Qed.

Lemma pte2page_ret {S} np (s : S) e :
  e mod 2 = 1 → is_u32 e → 0 ≤ e / PGSIZE < np → pte2page np e s = Ret (e / PGSIZE, s).
Proof.
  intros He Hu Hr. unfold pte2page, pa2page. rewrite bool_decide_false by (rewrite absent_spec; lia).
  rewrite PPN_addr by done. by rewrite bool_decide_false by lia.
Qed.

Section Inv.
Context (np : Z) (Hnp : np ≤ KMEMSIZE / PGSIZE).

Lemma np_bound : np ≤ 229376.
Proof using Hnp. exact Hnp. Qed.

(** [T]: the page tables of the user part, by page directory index. *)
Record pgd_ok (w : gmap Z Z) (d : Z) (T : gmap Z Z) : Prop := {
  pd_dir : 0 ≤ d < np;
  pd_range : ∀ i t, T !! i = Some t → 0 ≤ i < UPDE ∧ 0 ≤ t < np ∧ t ≠ d;
  pd_inj : ∀ i j t, T !! i = Some t → T !! j = Some t → i = j;
  pd_pde : ∀ i, 0 ≤ i < UPDE → let e := word w (d * 1024 + i) in
    match T !! i with Some t => e mod 2 = 1 ∧ e / PGSIZE = t ∧ is_u32 e | None => e mod 2 = 0 end }.

Definition tentry (w : gmap Z Z) (T : gmap Z Z) (v : Z) : Z :=
  match T !! (v / 1024) with Some t => word w (t * 1024 + v mod 1024) | None => 0 end.

Lemma split_addr a b i j : 0 ≤ i < 1024 → 0 ≤ j < 1024 → a * 1024 + i = b * 1024 + j → a = b ∧ i = j.
Proof. lia. Qed.
Lemma mod1024 v : 0 ≤ v mod 1024 < 1024.
Proof. apply Z.mod_pos_bound. lia. Qed.

Lemma tentry_store w T v x v' t :
  (∀ i j t, T !! i = Some t → T !! j = Some t → i = j) → T !! (v / 1024) = Some t →
  tentry (<[t * 1024 + v mod 1024 := x]> w) T v' = if decide (v' = v) then x else tentry w T v'.
Proof using Type.
  intros Hinj Ht. unfold tentry. pose proof (mod1024 v). pose proof (mod1024 v').
  destruct (decide (v' = v)) as [->|Hne]; [by rewrite Ht, word_insert_eq|].
  destruct (T !! (v' / 1024)) as [t'|] eqn:Et; [|done]. apply word_insert_ne.
  intros [-> Hm]%split_addr; [|done|done]. pose proof (Hinj _ _ _ Et Ht) as Hd.
  apply Hne. rewrite (Z.div_mod v' 1024), (Z.div_mod v 1024) by lia. lia.
Qed.
Lemma tentry_update w d T v x v' t :
  pgd_ok w d T → T !! (v / 1024) = Some t →
  tentry (<[t * 1024 + v mod 1024 := x]> w) T v' = if decide (v' = v) then x else tentry w T v'.
Proof. intros Hp Ht. apply tentry_store; [apply (pd_inj _ _ _ Hp)|done]. Qed.
Lemma pgd_ok_update w d T t j x :
  pgd_ok w d T → t ≠ d → 0 ≤ j < 1024 → pgd_ok (<[t * 1024 + j := x]> w) d T.
Proof.
  intros [H1 H2 H3 H4] Ht Hj. split; try done. intros i Hi. unfold UPDE in *. rewrite word_insert_ne; [by apply H4|].
  intros [? _]%split_addr; [done|lia|lia].
Qed.

(** The mappings of a page. *)
Definition maps (w : gmap Z Z) (T : gmap Z Z) (p v : Z) : Prop := tentry w T v ≠ 0 ∧ tentry w T v / PGSIZE = p.
#[global] Instance maps_dec w T p v : Decision (maps w T p v).
Proof. unfold maps. apply _. Defined.
Definition count (w : gmap Z Z) (T : gmap Z Z) (p : Z) : Z :=
  Z.of_nat (length (filter (maps w T p) (seqZ 0 UPN))).

Lemma count_ext w T w' T' p :
  (∀ v, 0 ≤ v < UPN → tentry w' T' v = tentry w T v) → count w' T' p = count w T p.
Proof.
  intros He. unfold count. f_equal. f_equal.
  apply filter_ext_in. intros v Hv%elem_of_seqZ. unfold maps. by rewrite He by lia.
Qed.

Definition here (e p : Z) : Z := if bool_decide (e ≠ 0 ∧ e / PGSIZE = p) then 1 else 0.

Lemma count_update w T w' T' p v x :
  0 ≤ v < UPN → (∀ v', tentry w' T' v' = if decide (v' = v) then x else tentry w T v') →
  count w' T' p = count w T p - here (tentry w T v) p + here x p.
Proof.
  intros Hv He. unfold count.
  assert (Hs : seqZ 0 UPN = seqZ 0 v ++ v :: seqZ (v + 1) (UPN - v - 1)).
  { replace UPN with (v + (UPN - v)) at 1 by lia. rewrite seqZ_app by lia.
    f_equal. rewrite Z.add_0_l, (seqZ_cons v) by lia. by replace (Z.pred (UPN - v)) with (UPN - v - 1) by lia. }
  assert (Hout : ∀ l : list Z, v ∉ l → filter (maps w' T' p) l = filter (maps w T p) l).
  { intros l Hl. apply filter_ext_in. intros u Hu. assert (u ≠ v) by (by intros ->).
    unfold maps. rewrite He. by rewrite decide_False. }
  rewrite Hs, !filter_app, !filter_cons, !length_app.
  rewrite !Hout by (rewrite elem_of_seqZ; lia).
  assert (Hh : ∀ w0 T0, (if decide (maps w0 T0 p v) then 1 else 0) = here (tentry w0 T0 v) p).
  { intros w0 T0. unfold here, maps. case_bool_decide; by repeat destruct (decide _). }
  pose proof (Hh w T) as H1. pose proof (Hh w' T') as H2. rewrite (He v), (decide_True (P := v = v)) in H2 by done.
  rewrite <-H1, <-H2. repeat destruct (decide _); simpl; lia.
Qed.
Lemma count_nonneg w T p : 0 ≤ count w T p.
Proof. unfold count. lia. Qed.
Lemma count_bound w T p : count w T p ≤ UPN.
Proof.
  unfold count. pose proof (length_filter (maps w T p) (seqZ 0 UPN)) as Hl. rewrite length_seqZ in Hl.
  unfold UPN, UPDE in *. lia.
Qed.
Lemma count_pos w T p v : 0 ≤ v < UPN → maps w T p v → 1 ≤ count w T p.
Proof.
  intros Hv Hm. unfold count. assert (Hin : v ∈ filter (maps w T p) (seqZ 0 UPN)).
  { apply list_elem_of_filter. split; [done|]. apply elem_of_seqZ. lia. }
  destruct (filter _ _); [by apply elem_of_nil in Hin|simpl; lia].
Qed.
Lemma count_other w T p v v' :
  0 ≤ v < UPN → 0 ≤ v' < UPN → v' ≠ v → maps w T p v' → here (tentry w T v) p + 1 ≤ count w T p.
Proof using Type.
  clear Hnp.
  intros Hv Hv' Hne Hm. unfold here. case_bool_decide as Hb.
  2: { pose proof (count_pos w T p v' Hv' Hm). lia. }
  assert (Hl : [v; v'] ⊆+ filter (maps w T p) (seqZ 0 UPN)).
  { apply NoDup_submseteq.
    - repeat constructor; set_solver.
    - intros u Hu. apply list_elem_of_filter. rewrite elem_of_seqZ.
      assert (u = v ∨ u = v') as [-> | ->] by set_solver; split; try done; lia. }
  apply submseteq_length in Hl. unfold count. simpl in Hl. lia.
Qed.
(** Every entry is empty or maps a data page. *)
Definition data_ok (w T : gmap Z Z) (D : list Z) : Prop := ∀ v, 0 ≤ v < UPN → let e := tentry w T v in
  e = 0 ∨ (e mod 2 = 1 ∧ is_u32 e ∧ e / PGSIZE ∈ D).
(** One entry changes; the pages given up were mapped there only. *)
Lemma data_update w T w' T' D D' v x :
  data_ok w T D → 0 ≤ v < UPN → (∀ v', tentry w' T' v' = if decide (v' = v) then x else tentry w T v') →
  (x = 0 ∨ (x mod 2 = 1 ∧ is_u32 x ∧ x / PGSIZE ∈ D')) →
  (∀ q, q ∈ D → q ∉ D' → count w T q = here (tentry w T v) q) → data_ok w' T' D'.
Proof using Type.
  intros Hd Hr He Hx Hgone v' Hr'. cbv zeta. rewrite He. destruct (decide (v' = v)) as [->|Hne]; [done|].
  destruct (Hd v' Hr') as [?|(? & ? & Hin)]; [by left|]. right. split_and!; [done..|].
  destruct (decide (tentry w T v' / PGSIZE ∈ D')) as [|Hn]; [done|].
  assert (Hm : maps w T (tentry w T v' / PGSIZE) v').
  { split; [|done]. intros E. rewrite E in *. done. }
  pose proof (count_other _ _ _ v v' Hr Hr' Hne Hm). rewrite (Hgone _ Hin Hn) in *. lia.
Qed.
Lemma count_absent w T D p : data_ok w T D → p ∉ D → count w T p = 0.
Proof using Type.
  intros Hd Hp. unfold count. destruct (filter (maps w T p) (seqZ 0 UPN)) as [|v l] eqn:E; [done|]. exfalso.
  assert (Hin : v ∈ filter (maps w T p) (seqZ 0 UPN)) by (rewrite E; by left).
  apply list_elem_of_filter in Hin as [[Hm1 Hm2] Hr%elem_of_seqZ].
  destruct (Hd v ltac:(lia)) as [?|(_ & _ & Hin)]; [done|]. by rewrite Hm2 in Hin.
Qed.

End Inv.
