(* ===== verification/PmmProps.v ===== *)
(** * Page tables: get_pte, page_insert, page_remove and the range operations *)
From stdpp Require Import base gmap list fin_maps.
From Stdlib Require Import ZArith Lia.
From S2P Require Import Prelude DList Bits Printfmt Mmu Buddy BuddySpec Alloc PmmRefs Pmm PmmInv.

Section Props.
Context {A : Type}.
Context (alloc_pages : Z → M A (option Z)) (free_pages : Z → Z → M A unit) (np : Z).
Context (get_ref : Z → M A Z) (set_ref : Z → Z → M A unit).
Context (held : A → list (Z * Z) → Prop) (refof : A → Z → Z).
Context `{HA : !RefAllocator alloc_pages free_pages get_ref set_ref np held refof}.
Context (Hnp : np ≤ KMEMSIZE / PGSIZE).
Implicit Types s : vmem A.

Definition frames (T : gmap Z Z) : list Z := (map_to_list T).*2.
Definition singles (l : list Z) : list (Z * Z) := (λ p, (p, 1)) <$> l.
Lemma hand_singles l R : hand_pages (singles l ++ R) = l ++ hand_pages R.
Proof.
  unfold hand_pages, singles. rewrite bind_app. f_equal. induction l as [|p l IH]; [done|]. csimpl. by rewrite IH.
Qed.

(** The address space of page directory [d]: tables [T], data pages [D], the
    other references [ext] and the pages [R0] of everybody else. *)
Record vm_ok (s : vmem A) (d : Z) (T : gmap Z Z) (D : list Z) (ext : Z → Z) (R0 : list (Z * Z)) : Prop := {
  vo_pgd : pgd_ok np (words s) d T;
  vo_held : held (palloc s) (singles (d :: frames T ++ D) ++ R0);
  vo_data : ∀ v, 0 ≤ v < UPN → let e := tentry (words s) T v in
    e = 0 ∨ (e mod 2 = 1 ∧ is_u32 e ∧ e / PGSIZE ∈ D);
  vo_refs : ∀ p, p ∈ D → refof (palloc s) p = count (words s) T p + ext p;
  vo_ext : ∀ p, 0 ≤ ext p < 2 ^ 30;
  vo_tlb : vm_cr3 s = d * PGSIZE → ∀ v e, 0 ≤ v < UPN → tlb s !! v = Some e → e = tentry (words s) T v }.

(** CR3 and the memory outside the pages of the tables are as before. *)
Definition same_outside (F : list Z) (s s' : vmem A) : Prop :=
  vm_cr3 s' = vm_cr3 s ∧ ∀ i, i / 1024 ∉ F → word (words s') i = word (words s) i.
Lemma same_outside_trans F s1 s2 s3 : same_outside F s1 s2 → same_outside F s2 s3 → same_outside F s1 s3.
Proof. intros [H1 H2] [K1 K2]. split; [congruence|]. intros i Hi. by rewrite K2, H2. Qed.
Lemma same_outside_mono F F' s s' : same_outside F s s' → (∀ p, p ∈ F → p ∈ F') → same_outside F' s s'.
Proof. intros [H1 H2] HF. split; [done|]. intros i Hi. apply H2. auto. Qed.
Lemma same_outside_store F s s' t j x : vm_cr3 s' = vm_cr3 s → words s' = <[t * 1024 + j := x]> (words s) → 0 ≤ j < 1024 → t ∈ F → same_outside F s s'.
Proof.
  intros Hc Hw Hj Ht. split; [done|]. intros i Hi. rewrite Hw. apply word_insert_ne. intros ->. apply Hi.
  replace ((t * 1024 + j) / 1024) with t; [done|]. rewrite Z.add_comm, Z.div_add, Z.div_small by lia. done.
Qed.
Lemma elem_of_frames T i t : T !! i = Some t → t ∈ frames T.
Proof. intros Ht. unfold frames. apply list_elem_of_fmap. exists (i, t). split; [done|]. by apply elem_of_map_to_list. Qed.

Definition kva_of (f j : Z) : Z := KERNBASE + f * PGSIZE + 4 * j.

Lemma kva_of_ok f j : 0 ≤ f < np → 0 ≤ j < 1024 → kva_ok np (kva_of f j) = true ∧ (kva_of f j - KERNBASE) / 4 = f * 1024 + j.
Proof.
  intros Hf Hj. unfold kva_ok, kva_of. split.
  - rewrite !bool_decide_true; [done|unfold PGSIZE; lia|unfold PGSIZE; lia].
  - unfold PGSIZE. replace (KERNBASE + f * 4096 + 4 * j - KERNBASE) with ((f * 1024 + j) * 4) by lia.
    by rewrite Z.div_mul.
Qed.
Lemma load_run s f j : 0 ≤ f < np → 0 ≤ j < 1024 → load np (kva_of f j) s = Ret (word (words s) (f * 1024 + j), s).
Proof. intros Hf Hj. unfold load. destruct (kva_of_ok f j Hf Hj) as [-> ->]. done. Qed.
Lemma store_run s f j x : 0 ≤ f < np → 0 ≤ j < 1024 →
  store np (kva_of f j) x s = Ret ((), set_words (<[f * 1024 + j := x]> (words s)) s).
Proof. intros Hf Hj. unfold store. destruct (kva_of_ok f j Hf Hj) as [-> ->]. done. Qed.
Lemma KADDR_run s p : 0 ≤ p < np → KADDR np (p * PGSIZE) s = Ret (kva_of p 0, s).
Proof.
  intros Hp. pose proof (np_bound np Hnp). unfold KADDR. assert (Hppn : PPN (p * PGSIZE) = p).
  { rewrite PPN_div. unfold PGSIZE. change (2 ^ 12) with 4096. by rewrite Z.div_mul. }
  rewrite Hppn, bool_decide_false by lia. unfold mret, M_ret, kva_of, PGSIZE, KERNBASE. do 2 f_equal.
  rewrite u32_small by (unfold is_u32; lia). lia.
Qed.
Lemma palloc_run {B} (m : M A B) s b a :
  m (palloc s) = Ret (b, a) → zoom palloc_lens m s = Ret (b, over palloc_lens a s).
Proof. intros E. by apply (zoom_Ret palloc_lens). Qed.

Lemma la_split la : 0 ≤ la < KERNBASE → 0 ≤ PPN la < UPN ∧ PDX la = PPN la / 1024 ∧ PTX la = PPN la mod 1024 ∧
  0 ≤ PPN la / 1024 < UPDE.
Proof.
  unfold KERNBASE. intros Hla. rewrite PDX_div, PTX_div, PPN_div. unfold UPN, UPDE.
  change (2 ^ 12) with 4096. change (2 ^ 22) with (4096 * 1024). rewrite <-Z.div_div by lia.
  assert (0 ≤ la / 4096 < 786432) as Hv by (split; [apply Z.div_pos; lia|apply Z.div_lt_upper_bound; lia]).
  assert (0 ≤ la / 4096 / 1024 < 768) by (split; [apply Z.div_pos; lia|apply Z.div_lt_upper_bound; lia]).
  split_and!; try lia; [|done]. change (2 ^ 10) with 1024. apply Z.mod_small. lia.
Qed.

(** ** get_pte *)
Abbreviation get_pte' := (get_pte alloc_pages np set_ref).

Lemma pde_found s d T la t :
  pgd_ok np (words s) d T → 0 ≤ la < KERNBASE → T !! (PPN la / 1024) = Some t →
  (pde ← load np (kva_of d 0 + 4 * PDX la); kva ← KADDR np (PDE_ADDR pde); mret (kva + 4 * PTX la)) s =
  Ret (kva_of t (PPN la mod 1024), s).
Proof.
  intros Hp Hla Ht. destruct (la_split la Hla) as (Hv & Hpdx & Hptx & Hi). unfold UPDE in Hi.
  pose proof (pd_pde _ _ _ _ Hp (PPN la / 1024) Hi) as He. cbv zeta in He. rewrite Ht in He.
  destruct He as (Hodd & Hfr & Hu). destruct (pd_range _ _ _ _ Hp _ _ Ht) as (_ & Htr & _).
  assert (E1 : load np (kva_of d 0 + 4 * PDX la) s = Ret (word (words s) (d * 1024 + PPN la / 1024), s)).
  { replace (kva_of d 0 + 4 * PDX la) with (kva_of d (PPN la / 1024)) by (unfold kva_of; lia).
    apply load_run; [apply (pd_dir _ _ _ _ Hp)|lia]. }
  mrun E1. replace (PDE_ADDR (word (words s) (d * 1024 + PPN la / 1024))) with (t * PGSIZE).
  2: { unfold PDE_ADDR. rewrite PTE_ADDR_spec by done. rewrite <-Hfr. unfold PGSIZE. change (2 ^ 12) with 4096.
       pose proof (Z.div_mod (word (words s) (d * 1024 + PPN la / 1024)) 4096 ltac:(lia)). lia. }
  mrun (KADDR_run s t Htr). unfold mret, M_ret. rewrite Hptx. unfold kva_of. do 2 f_equal. lia.
Qed.

Lemma load_pde s d T la :
  pgd_ok np (words s) d T → 0 ≤ la < KERNBASE →
  load np (kva_of d 0 + 4 * PDX la) s = Ret (word (words s) (d * 1024 + PPN la / 1024), s).
Proof.
  intros Hp Hla. destruct (la_split la Hla) as (Hv & Hpdx & Hptx & Hi). unfold UPDE in Hi.
  replace (kva_of d 0 + 4 * PDX la) with (kva_of d (PPN la / 1024)) by (unfold kva_of; lia).
  apply load_run; [apply (pd_dir _ _ _ _ Hp)|lia].
Qed.

Lemma get_pte_found s d T la t create :
  pgd_ok np (words s) d T → 0 ≤ la < KERNBASE → T !! (PPN la / 1024) = Some t →
  get_pte' (kva_of d 0) la create s = Ret (kva_of t (PPN la mod 1024), s).
Proof.
  intros Hp Hla Ht. destruct (la_split la Hla) as (Hv & Hpdx & Hptx & Hi).
  pose proof (pd_pde _ _ _ _ Hp (PPN la / 1024) Hi) as He. cbv zeta in He. rewrite Ht in He.
  unfold get_pte. mrun (load_pde s d T la Hp Hla). rewrite bool_decide_false by (rewrite absent_spec; lia).
  rewrite bind_mret. by apply (pde_found s d T).
Qed.
Lemma get_pte_none s d T la :
  pgd_ok np (words s) d T → 0 ≤ la < KERNBASE → T !! (PPN la / 1024) = None →
  get_pte' (kva_of d 0) la false s = Ret (0, s).
Proof.
  intros Hp Hla Ht. destruct (la_split la Hla) as (Hv & Hpdx & Hptx & Hi).
  pose proof (pd_pde _ _ _ _ Hp (PPN la / 1024) Hi) as He. cbv zeta in He. rewrite Ht in He.
  unfold get_pte. mrun (load_pde s d T la Hp Hla). rewrite bool_decide_true by (by apply absent_spec). done.
Qed.

(** A page table just added: cleared, and entered in the page directory. *)
Lemma new_table s d T la t e :
  let i := PPN la / 1024 in
  pgd_ok np (words s) d T → 0 ≤ la < KERNBASE → T !! i = None → 0 ≤ t < np → t ≠ d → t ∉ frames T →
  e / PGSIZE = t → e mod 2 = 1 → is_u32 e →
  let w' := <[d * 1024 + i := e]> (clear_words 1024 (t * 1024) (words s)) in
  pgd_ok np w' d (<[i := t]> T) ∧ ∀ v, tentry w' (<[i := t]> T) v = tentry (words s) T v.
Proof.
  intros i Hp Hla Hi Ht Htd HtT He1 He2 He3 w'. destruct (la_split la Hla) as (_ & _ & _ & Hir).
  fold i in Hir. destruct Hp as [H1 H2 H3 H4]. unfold UPDE in *.
  assert (Hfr : ∀ j t', T !! j = Some t' → t' ≠ t).
  { intros j t' Hj ->. apply HtT. apply list_elem_of_fmap. exists (j, t). by rewrite elem_of_map_to_list. }
  split; [split; try done|].
  - intros j t' [[<- <-]|[_ Hj]]%lookup_insert_Some; [unfold UPDE; lia|by eapply H2].
  - intros j j' t' [[<- <-]|[_ Hj]]%lookup_insert_Some [[<- Ej]|[_ Hj']]%lookup_insert_Some; try done.
    + by destruct (Hfr _ _ Hj').
    + subst t'. by destruct (Hfr _ _ Hj).
    + by eapply H3.
  - intros j Hj e'. unfold UPDE in Hj. destruct (decide (j = i)) as [->|Hne].
    + rewrite lookup_insert_eq. subst e'. unfold w'. rewrite word_insert_eq. done.
    + rewrite lookup_insert_ne by done. subst e'. unfold w'. rewrite word_insert_ne by lia.
      rewrite word_clear, decide_False by lia. by apply H4.
  - intros v. unfold tentry. pose proof (mod1024 v). destruct (decide (v / 1024 = i)) as [->|Hne].
    + rewrite lookup_insert_eq, Hi. unfold w'. rewrite word_insert_ne by (intros [? _]%split_addr; [done|lia|lia]).
      rewrite word_clear, decide_True by lia. done.
    + rewrite lookup_insert_ne by done. destruct (T !! (v / 1024)) as [t'|] eqn:Et; [|done].
      destruct (H2 _ _ Et) as (_ & _ & Ht'd). unfold w'.
      rewrite word_insert_ne by (intros [? _]%split_addr; [done|lia|lia]).
      rewrite word_clear, decide_False; [done|]. pose proof (Hfr _ _ Et). lia.
Qed.

(** What get_pte, page_insert and page_remove leave alone. *)
Definition same_cpu s s' : Prop := vm_cr3 s' = vm_cr3 s.

Lemma frames_insert T i t : T !! i = None → frames (<[i := t]> T) ≡ₚ t :: frames T.
Proof. intros Hi. unfold frames. by rewrite map_to_list_insert. Qed.

Lemma held_fresh a d T D R0 t :
  held a ((t, 1) :: singles (d :: frames T ++ D) ++ R0) → 0 ≤ t < np ∧ t ≠ d ∧ t ∉ frames T ∧ t ∉ D ∧ t ∉ hand_pages R0.
Proof using HA.
  intros Hh. destruct (pa_range (PageAllocator := ra_pages) a _ t 1 Hh ltac:(by left)) as [H0 H1].
  pose proof (pa_nodup (PageAllocator := ra_pages) a _ Hh) as Hnd.
  change ((t, 1) :: singles (d :: frames T ++ D) ++ R0) with (singles (t :: d :: frames T ++ D) ++ R0) in Hnd.
  rewrite hand_singles in Hnd. apply NoDup_app in Hnd as (Hnd & Hd & _).
  apply NoDup_cons in Hnd as [Hn _]. split; [lia|]. rewrite not_elem_of_cons, not_elem_of_app in Hn.
  split_and!; try tauto. apply Hd. by left.
Qed.

Lemma get_pte_create s d T D ext R0 la :
  vm_ok s d T D ext R0 → 0 ≤ la < KERNBASE →
  (∃ s', get_pte' (kva_of d 0) la true s = Ret (0, s') ∧ vm_ok s' d T D ext R0 ∧ words s' = words s ∧
     tlb s' = tlb s ∧ vm_cr3 s' = vm_cr3 s) ∨
  (∃ t T' s', get_pte' (kva_of d 0) la true s = Ret (kva_of t (PPN la mod 1024), s') ∧
     T' !! (PPN la / 1024) = Some t ∧ vm_ok s' d T' D ext R0 ∧
     (∀ v, tentry (words s') T' v = tentry (words s) T v) ∧ tlb s' = tlb s ∧ same_outside (d :: frames T') s s').
Proof using HA Hnp.
  intros Hv Hla. pose proof (vo_pgd _ _ _ _ _ _ Hv) as Hp.
  destruct (T !! (PPN la / 1024)) as [t|] eqn:Et.
  { right. exists t, T, s. rewrite (get_pte_found s d T la t) by done. by split_and!. }
  destruct (la_split la Hla) as (Hvr & Hpdx & Hptx & Hi).
  pose proof (pd_pde _ _ _ _ Hp (PPN la / 1024) Hi) as He. cbv zeta in He. rewrite Et in He.
  unfold get_pte. rewrite (bind_Ret _ _ _ _ _ (load_pde s d T la Hp Hla)).
  rewrite bool_decide_true by (by apply absent_spec).
  destruct (pa_alloc (PageAllocator := ra_pages) (palloc s) _ 1 (vo_held _ _ _ _ _ _ Hv) ltac:(lia))
    as (r & a1 & E1 & H1).
  assert (Hk1 : ∀ q, q ∈ D → refof a1 q = refof (palloc s) q).
  { intros q Hq. eapply (ra_alloc (palloc s)); [apply Hv|..|exact E1|]; [lia|]. rewrite hand_singles. set_solver. }
  unfold alloc_page. rewrite bind_assoc, (bind_Ret _ _ _ _ _ (palloc_run _ s _ _ E1)).
  destruct r as [t|].
  2: { left. eexists. split; [done|]. split_and!; try done. destruct Hv as [V1 V2 V3 V4 V5 V6]. split; try done.
       intros p Hpd. simpl. rewrite Hk1 by done. by apply V4. }
  right. destruct (held_fresh _ _ _ _ _ _ H1) as (Htr & Htd & HtT & HtD & _).
  pose proof (np_bound np Hnp) as Hb.
  destruct (ra_set a1 _ t 1 H1) as (a2 & E2 & H2 & _ & Hk2).
  { unfold hand_pages. csimpl. by left. }
  rewrite bind_assoc, (bind_Ret _ _ _ _ _ (palloc_run _ (over palloc_lens a1 s) _ _ E2)).
  rewrite page2pa_small by lia. rewrite bind_assoc, (bind_Ret _ _ _ _ _ (KADDR_run _ t Htr)).
  rewrite bind_assoc. destruct (kva_of_ok t 0 Htr ltac:(lia)) as [Hok Hidx].
  assert (Em : ∀ s0, memset_page np (kva_of t 0) s0 = Ret ((), set_words (clear_words 1024 (t * 1024) (words s0)) s0)).
  { intros s0. unfold memset_page. rewrite Hok, Hidx. by rewrite Z.add_0_r. }
  rewrite (bind_Ret _ _ _ _ _ (Em _)). rewrite bind_assoc.
  replace (kva_of d 0 + 4 * PDX la) with (kva_of d (PPN la / 1024)) by (unfold kva_of; lia).
  rewrite (bind_Ret _ _ _ _ _ (store_run _ d (PPN la / 1024) _ (pd_dir _ _ _ _ Hp) ltac:(unfold UPDE in Hi; lia))).
  rewrite bind_mret. rewrite <-(page2pa_small t) by lia.
  destruct (pde_value t ltac:(lia)) as (He1 & He2 & He3).
  destruct (new_table s d T la t _ Hp Hla Et Htr Htd HtT He1 He2 He3) as [Hp' Ht'].
  set (w' := <[_ := _]> (clear_words _ _ _)) in Hp', Ht'.
  set (s' := set_words _ _). assert (Hw : words s' = w') by reflexivity.
  assert (Ha : palloc s' = a2) by reflexivity. assert (Htl : tlb s' = tlb s) by reflexivity.
  assert (Hcr : vm_cr3 s' = vm_cr3 s) by reflexivity.
  assert (Hso : ∀ F, t ∈ F → d ∈ F → same_outside F s s').
  { intros F HtF HdF. split; [done|]. intros i Hni. rewrite Hw. unfold w'.
    assert (i / 1024 ≠ t) by (intros Hx; apply Hni; rewrite Hx; exact HtF). assert (i / 1024 ≠ d) by (intros Hx; apply Hni; rewrite Hx; exact HdF).
    pose proof (Z.div_mod i 1024). pose proof (mod1024 i). unfold UPDE in Hi.
    rewrite word_insert_ne by (intros ->; rewrite Z.add_comm, Z.div_add, Z.div_small in * by lia; lia).
    rewrite word_clear, decide_False by lia. done. }
  rewrite <-Hw in Hp', Ht'. clearbody s'. clear Hw w' Em.
  exists t, (<[PPN la / 1024 := t]> T), s'. split_and!; try done.
  - replace (kva_of d (PPN la / 1024)) with (kva_of d 0 + 4 * PDX la) by (unfold kva_of; lia).
    apply (pde_found s' d (<[PPN la / 1024 := t]> T)); [done|done|by rewrite lookup_insert_eq].
  - by rewrite lookup_insert_eq.
  - destruct Hv as [V1 V2 V3 V4 V5 V6]. split; try done.
    + rewrite Ha. eapply ra_perm; [exact H2|]. unfold singles. rewrite !fmap_cons.
      rewrite (frames_insert T) by done. simpl. by rewrite perm_swap.
    + intros v Hvr'. rewrite Ht'. by apply V3.
    + intros p Hpd. rewrite Ha. rewrite Hk2 by (by intros ->). rewrite Hk1, V4 by done.
      f_equal. symmetry. by apply count_ext.
    + rewrite Htl, Hcr. intros Hc v e0 Hvr' He0. rewrite Ht'. by apply V6.
  - apply Hso; [|by left]. right. eapply elem_of_frames. by rewrite lookup_insert_eq.
Qed.

(** ** One entry rewritten *)
Lemma in_hand s d T D ext R0 p :
  vm_ok s d T D ext R0 → p ∈ D → p ∈ hand_pages (singles (d :: frames T ++ D) ++ R0) ∧ 0 ≤ p < np.
Proof using All.
  intros Hv Hp. split; [rewrite hand_singles; set_solver|].
  assert (Hin : (p, 1) ∈ singles (d :: frames T ++ D) ++ R0).
  { apply elem_of_app. left. apply list_elem_of_fmap. exists p. split; [done|]. set_solver. }
  pose proof (pa_range (PageAllocator := ra_pages) _ _ _ _ (vo_held _ _ _ _ _ _ Hv) Hin). lia.
Qed.
Lemma data_page s d T D ext R0 v :
  vm_ok s d T D ext R0 → 0 ≤ v < UPN → let e := tentry (words s) T v in e ≠ 0 →
  e mod 2 = 1 ∧ is_u32 e ∧ e / PGSIZE ∈ D.
Proof using All. intros Hv Hr e He. by destruct (vo_data _ _ _ _ _ _ Hv v Hr) as [?|?]. Qed.

Definition tlb_after s (d v : Z) : gmap Z Z :=
  if bool_decide (vm_cr3 s = d * PGSIZE) then delete v (tlb s) else tlb s.

Lemma vm_ok_update s s' d T D D' ext ext' R0 v t x :
  vm_ok s d T D ext R0 → 0 ≤ v < UPN → T !! (v / 1024) = Some t →
  words s' = <[t * 1024 + v mod 1024 := x]> (words s) →
  held (palloc s') (singles (d :: frames T ++ D') ++ R0) →
  (x = 0 ∨ (x mod 2 = 1 ∧ is_u32 x ∧ x / PGSIZE ∈ D')) →
  (∀ q, q ∈ D → q ∉ D' → count (words s) T q = here (tentry (words s) T v) q) →
  (∀ q, q ∈ D' → refof (palloc s') q =
     count (words s) T q - here (tentry (words s) T v) q + here x q + ext' q) →
  (∀ p, 0 ≤ ext' p < 2 ^ 30) → vm_cr3 s' = vm_cr3 s → tlb s' = tlb_after s d v →
  vm_ok s' d T D' ext' R0 ∧
  ∀ v', tentry (words s') T v' = if decide (v' = v) then x else tentry (words s) T v'.
Proof using All.
  intros Hv Hr Ht Hw Hh Hx Hgone Href Hext Hcr Htl.
  assert (He : ∀ v', tentry (words s') T v' = if decide (v' = v) then x else tentry (words s) T v').
  { intros v'. rewrite Hw. apply (tentry_update np _ d); [apply Hv|done]. }
  split; [|exact He]. destruct Hv as [V1 V2 V3 V4 V5 V6]. split; try done.
  - rewrite Hw. apply pgd_ok_update; [done|apply (pd_range _ _ _ _ V1 _ _ Ht)|apply mod1024].
  - by eapply (data_update (words s) T).
  - intros p Hp. rewrite Href by done. by rewrite (count_update (words s) T (words s') T p v x).
  - intros Hc v' e Hr' Hl. rewrite Hcr in Hc. rewrite Htl in Hl. unfold tlb_after in Hl.
    rewrite bool_decide_true in Hl by done. apply lookup_delete_Some in Hl as [Hne Hl].
    rewrite He, decide_False by done. by apply V6.
Qed.

Lemma tlb_invalidate_run s d la :
  0 ≤ d < np → tlb_invalidate (kva_of d 0) la s = Ret ((), set_tlb (tlb_after s d (PPN la)) s).
Proof using All.
  intros Hd. pose proof (np_bound np Hnp). unfold tlb_invalidate, tlb_after. rewrite bind_gets.
  assert (E : PADDR (kva_of d 0) s = Ret (d * PGSIZE, s)).
  { unfold PADDR, kva_of. rewrite bool_decide_false by (unfold PGSIZE; lia). unfold mret, M_ret. do 2 f_equal. lia. }
  mrun E. case_bool_decide; [done|]. by destruct s.
Qed.

(** page_ref_inc and page_ref_dec change one count. *)
Lemma ref_run s R p (f : Z → Z) :
  held (palloc s) R → p ∈ hand_pages R →
  ∃ a', zoom palloc_lens (r ← get_ref p; set_ref p (f r);; mret (f r)) s =
      Ret (f (refof (palloc s) p), over palloc_lens a' s) ∧
    held a' R ∧ refof a' p = f (refof (palloc s) p) ∧ ∀ q, q ≠ p → refof a' q = refof (palloc s) q.
Proof using All.
  intros Hh Hp. destruct (ra_set _ _ p (f (refof (palloc s) p)) Hh Hp) as (a' & E & H1 & H2 & H3).
  exists a'. split_and!; try done. apply palloc_run.
  rewrite (bind_Ret _ _ _ _ _ (ra_get _ _ _ Hh Hp)). by rewrite (bind_Ret _ _ _ _ _ E).
Qed.

(** ** page_remove_pte and page_remove *)
Abbreviation page_remove_pte' := (page_remove_pte free_pages np get_ref set_ref).

Lemma pte2page_run s e :
  e mod 2 = 1 → is_u32 e → 0 ≤ e / PGSIZE < np → pte2page np e s = Ret (e / PGSIZE, s).
Proof using All. apply pte2page_ret. Qed.

Lemma singles_free F D D' p R0 :
  D ≡ₚ p :: D' → singles (F ++ D) ++ R0 ≡ₚ (p, 1) :: singles (F ++ D') ++ R0.
Proof.
  intros Hp. change ((p, 1) :: singles (F ++ D') ++ R0) with (singles (p :: F ++ D') ++ R0).
  apply Permutation_app_tail. unfold singles. apply fmap_Permutation. rewrite Hp. solve_Permutation.
Qed.

(** The pages that remain once the mapping [e] is gone. *)
Definition drop_page (n : Z) (p : Z) (D : list Z) : list Z :=
  if bool_decide (n = 0) then filter (.≠ p) D else D.
Lemma filter_out (p : Z) (D : list Z) : NoDup D → p ∈ D → D ≡ₚ p :: filter (.≠ p) D.
Proof.
  intros Hnd Hp. apply NoDup_Permutation; [done| |].
  - constructor; [by intros [? _]%list_elem_of_filter|by apply NoDup_filter].
  - intros q. rewrite elem_of_cons, list_elem_of_filter. destruct (decide (q = p)) as [->|]; naive_solver.
Qed.
Lemma elem_of_drop n p D q : q ∈ drop_page n p D ↔ q ∈ D ∧ (n = 0 → q ≠ p).
Proof. unfold drop_page. case_bool_decide; [rewrite list_elem_of_filter|]; naive_solver. Qed.
Lemma data_nodup s d T D ext R0 : vm_ok s d T D ext R0 → NoDup D.
Proof using All.
  intros Hv. pose proof (pa_nodup (PageAllocator := ra_pages) _ _ (vo_held _ _ _ _ _ _ Hv)) as Hn.
  rewrite hand_singles in Hn. apply NoDup_app in Hn as (Hn & _). apply NoDup_cons in Hn as [_ Hn].
  by apply NoDup_app in Hn as (_ & _ & Hn).
Qed.

Lemma drop_page_run s F D R0 p :
  held (palloc s) (singles (F ++ D) ++ R0) → p ∈ D → NoDup D → let n := refof (palloc s) p in
  ∃ a', (if bool_decide (n = 0) then free_page free_pages p else skip) s = Ret ((), over palloc_lens a' s) ∧
    held a' (singles (F ++ drop_page n p D) ++ R0) ∧
    ∀ q, q ∈ drop_page n p D → refof a' q = refof (palloc s) q.
Proof using All.
  intros Hh Hp Hnd n. unfold drop_page. case_bool_decide as Hn.
  2: { exists (palloc s). split_and!; [by destruct s|done|done]. }
  pose proof (filter_out p D Hnd Hp) as Hperm.
  pose proof (ra_perm _ _ _ Hh (singles_free F D _ p R0 Hperm)) as Hh'.
  destruct (pa_free (PageAllocator := ra_pages) _ _ _ _ Hh') as (a' & E & H1). exists a'.
  split_and!; [by apply palloc_run|done|]. intros q Hq. eapply ra_free; [exact Hh'|exact E|].
  rewrite hand_singles. set_solver.
Qed.

Lemma page_remove_pte_ok s d T D ext R0 la t :
  let v := PPN la in let e := tentry (words s) T v in let p := e / PGSIZE in
  vm_ok s d T D ext R0 → 0 ≤ la < KERNBASE → T !! (v / 1024) = Some t → e ≠ 0 →
  ∃ s', page_remove_pte' (kva_of d 0) la (kva_of t (v mod 1024)) s = Ret ((), s') ∧
    vm_ok s' d T (drop_page (refof (palloc s) p - 1) p D) ext R0 ∧
    (∀ v', tentry (words s') T v' = if decide (v' = v) then 0 else tentry (words s) T v') ∧
    same_outside (frames T) s s'.
Proof using All.
  intros v e p Hv Hla Ht He. destruct (la_split la Hla) as (Hr & _). fold v in Hr.
  destruct (data_page _ _ _ _ _ _ v Hv Hr He) as (Hodd & Hu & Hp). fold e p in Hodd, Hu, Hp.
  destruct (in_hand _ _ _ _ _ _ p Hv Hp) as [Hhand Hpr].
  destruct (pd_range _ _ _ _ (vo_pgd _ _ _ _ _ _ Hv) _ _ Ht) as (_ & Htr & _). pose proof (mod1024 v) as Hm.
  assert (El : load np (kva_of t (v mod 1024)) s = Ret (e, s)).
  { rewrite load_run by done. unfold e, tentry. by rewrite Ht. }
  unfold page_remove_pte. rewrite (bind_Ret _ _ _ _ _ El).
  rewrite bool_decide_true by (by apply present_spec). rewrite (bind_Ret _ _ _ _ _ (pte2page_run s e Hodd Hu Hpr)).
  pose proof (vo_refs _ _ _ _ _ _ Hv p Hp) as Href. pose proof (vo_ext _ _ _ _ _ _ Hv p) as Hext.
  pose proof (count_pos (words s) T p v Hr ltac:(done)) as Hpos. pose proof (count_bound (words s) T p) as Hbd.
  unfold UPN, UPDE in Hbd.
  destruct (ref_run s _ p (λ r, s32 (r - 1)) (vo_held _ _ _ _ _ _ Hv) Hhand) as (a1 & E1 & H1 & Hr1 & Hq1).
  rewrite s32_small in E1, Hr1 by lia. unfold page_ref_dec. rewrite (bind_Ret _ _ _ _ _ E1).
  set (s1 := over palloc_lens a1 s) in *.
  destruct (drop_page_run s1 (d :: frames T) D R0 p H1 Hp (data_nodup _ _ _ _ _ _ Hv)) as (a2 & E2 & H2 & Hq2).
  change (palloc s1) with a1 in *. rewrite Hr1 in E2, H2, Hq2.
  rewrite (bind_Ret _ _ _ _ _ E2).
  rewrite (bind_Ret _ _ _ _ _ (store_run _ t (v mod 1024) 0 Htr Hm)).
  rewrite tlb_invalidate_run by apply (vo_pgd _ _ _ _ _ _ Hv).
  eexists. split; [done|]. destruct (vm_ok_update s (set_tlb (tlb_after s d v)
      (set_words (<[t * 1024 + v mod 1024 := 0]> (words s)) (over palloc_lens a2 s1))) d T D
      (drop_page (refof (palloc s) p - 1) p D) ext ext R0 v t 0 Hv Hr Ht) as [Hv' He']; try done.
  - by left.
  - intros q Hq Hnq. rewrite elem_of_drop in Hnq. destruct (decide (refof (palloc s) p - 1 = 0)) as [H0|]; [|tauto].
    destruct (decide (q = p)) as [->|]; [|tauto]. fold e. unfold here. rewrite bool_decide_true by done. lia.
  - intros q Hq. change (palloc _) with a2. rewrite Hq2 by done. apply elem_of_drop in Hq as [Hq _].
    fold e. unfold here. rewrite (bool_decide_false (0 ≠ 0 ∧ _)) by tauto.
    destruct (decide (q = p)) as [->|Hne].
    + rewrite bool_decide_true by done. lia.
    + rewrite (bool_decide_false (e ≠ 0 ∧ _)) by (by intros [_ ?]). rewrite Hq1 by done.
      rewrite (vo_refs _ _ _ _ _ _ Hv q Hq). lia.
  - apply (vo_ext _ _ _ _ _ _ Hv).
  - split_and!; [done|done|]. eapply same_outside_store; [done|done|done|by eapply elem_of_frames].
Qed.

Lemma page_remove_ok s d T D ext R0 la :
  let v := PPN la in let p := tentry (words s) T v / PGSIZE in
  vm_ok s d T D ext R0 → 0 ≤ la < KERNBASE →
  ∃ s', page_remove alloc_pages free_pages np get_ref set_ref (kva_of d 0) la s = Ret ((), s') ∧
    vm_ok s' d T (if bool_decide (tentry (words s) T v = 0) then D
                  else drop_page (refof (palloc s) p - 1) p D) ext R0 ∧
    (∀ v', tentry (words s') T v' = if decide (v' = v) then 0 else tentry (words s) T v') ∧
    same_outside (frames T) s s'.
Proof using All.
  intros v p Hv Hla. pose proof (vo_pgd _ _ _ _ _ _ Hv) as Hp. unfold page_remove.
  destruct (T !! (v / 1024)) as [t|] eqn:Et.
  - rewrite (bind_Ret _ _ _ _ _ (get_pte_found s d T la t false Hp Hla Et)).
    destruct (pd_range _ _ _ _ Hp _ _ Et) as (_ & Ht & _). pose proof (mod1024 v) as Hm.
    rewrite bool_decide_true by (unfold kva_of, KERNBASE, PGSIZE; fold v; lia).
    case_bool_decide as He; [|by apply page_remove_pte_ok].
    exists s. split_and!; try done.
    + unfold page_remove_pte. rewrite (bind_Ret _ _ _ _ _ (load_run s t _ Ht Hm)).
      unfold tentry in He. rewrite Et in He. fold v. by rewrite He.
    + intros v'. by destruct (decide (v' = v)) as [->|].
  - rewrite (bind_Ret _ _ _ _ _ (get_pte_none s d T la Hp Hla Et)).
    assert (He : tentry (words s) T v = 0) by (unfold tentry; by rewrite Et).
    rewrite (bool_decide_true (tentry (words s) T v = 0)) by done. exists s. split_and!; try done.
    intros v'. by destruct (decide (v' = v)) as [->|].
Qed.

(** ** page_insert *)
Lemma ref_change_ok s d T D ext ext' R0 p f :
  vm_ok s d T D ext R0 → p ∈ D → (∀ q, q ≠ p → ext' q = ext q) →
  f (refof (palloc s) p) = count (words s) T p + ext' p → (∀ q, 0 ≤ ext' q < 2 ^ 30) →
  ∃ s' n, zoom palloc_lens (r ← get_ref p; set_ref p (f r);; mret (f r)) s = Ret (n, s') ∧
    vm_ok s' d T D ext' R0 ∧ words s' = words s ∧ vm_cr3 s' = vm_cr3 s ∧ tlb s' = tlb s.
Proof using All.
  intros Hv Hp Hne Hf Hext. destruct (in_hand _ _ _ _ _ _ p Hv Hp) as [Hh _].
  destruct (ref_run s _ p f (vo_held _ _ _ _ _ _ Hv) Hh) as (a' & E & H1 & H2 & H3).
  eexists _, _. split; [exact E|]. split_and!; try done. destruct Hv as [V1 V2 V3 V4 V5 V6]. split; try done.
  intros q Hq. simpl. destruct (decide (q = p)) as [->|Hqp]; [by rewrite H2|].
  rewrite H3, V4, Hne by done. done.
Qed.

Lemma set_entry_ok s d T D ext ext' R0 la t x :
  let v := PPN la in let e := tentry (words s) T v in
  vm_ok s d T D ext' R0 → 0 ≤ la < KERNBASE → T !! (v / 1024) = Some t →
  x mod 2 = 1 → is_u32 x → x / PGSIZE ∈ D →
  (∀ q, ext' q + here e q = here x q + ext q) → (∀ q, 0 ≤ ext q < 2 ^ 30) →
  ∃ s', (store np (kva_of t (v mod 1024)) x;; tlb_invalidate (kva_of d 0) la;; mret 0) s = Ret (0, s') ∧
    vm_ok s' d T D ext R0 ∧
    (∀ v', tentry (words s') T v' = if decide (v' = v) then x else tentry (words s) T v') ∧
    same_outside (frames T) s s'.
Proof using All.
  intros v e Hv Hla Ht Hodd Hu Hp Hx Hext. destruct (la_split la Hla) as (Hr & _). fold v in Hr.
  pose proof (vo_pgd _ _ _ _ _ _ Hv) as Hpg. pose proof (mod1024 v) as Hm.
  destruct (pd_range _ _ _ _ Hpg _ _ Ht) as (_ & Htr & _).
  rewrite (bind_Ret _ _ _ _ _ (store_run _ t (v mod 1024) x Htr Hm)).
  rewrite (bind_Ret _ _ _ _ _ (tlb_invalidate_run _ d la (pd_dir _ _ _ _ Hpg))).
  eexists. split; [done|].
  destruct (vm_ok_update s (set_tlb (tlb_after s d v) (set_words (<[t * 1024 + v mod 1024 := x]> (words s)) s))
      d T D D ext' ext R0 v t x Hv Hr Ht) as [Hv' He']; try done.
  - apply (vo_held _ _ _ _ _ _ Hv).
  - by right.
  - intros q Hq. simpl. rewrite (vo_refs _ _ _ _ _ _ Hv q Hq). fold e. pose proof (Hx q). lia.
  - split_and!; [done|done|]. eapply same_outside_store; [done|done|done|by eapply elem_of_frames].
Qed.

Definition displaced s (T : gmap Z Z) (v p : Z) (D : list Z) : list Z :=
  let e := tentry (words s) T v in
  if bool_decide (e ≠ 0 ∧ e / PGSIZE ≠ p) then drop_page (refof (palloc s) (e / PGSIZE) - 1) (e / PGSIZE) D else D.

Lemma displaced_in s T v p D q : q ∈ displaced s T v p D →q ∈ D.
Proof. unfold displaced. cbv zeta. case_bool_decide; [|done]. by intros [? _]%elem_of_drop. Qed.
Lemma displaced_self s T v p D : p ∈ D → p ∈ displaced s T v p D.
Proof. intros Hp. unfold displaced. cbv zeta. case_bool_decide as He; [|done]. apply elem_of_drop. naive_solver. Qed.
Lemma displaced_ext s s' d T T' D ext R0 v p :
  vm_ok s d T D ext R0 → vm_ok s' d T' D ext R0 → 0 ≤ v < UPN →
  (∀ u, tentry (words s') T' u = tentry (words s) T u) → displaced s' T' v p D = displaced s T v p D.
Proof using All.
  intros Hv Hv' Hr He. unfold displaced. rewrite He. cbv zeta. case_bool_decide as Hb; [|done].
  destruct (data_page _ _ _ _ _ _ v Hv Hr) as (_ & _ & Hin); [tauto|].
  rewrite (vo_refs _ _ _ _ _ _ Hv), (vo_refs _ _ _ _ _ _ Hv') by done.
  by rewrite (count_ext (words s) T (words s') T').
Qed.

Abbreviation page_insert' := (page_insert alloc_pages free_pages np get_ref set_ref).
Definition pte_of (p perm : Z) : Z := Z.lor (Z.lor (page2pa p) PTE_P) perm.

(** The middle of page_insert: the old mapping is given up. *)
Lemma release_ok s d T D ext R0 la t p x :
  let v := PPN la in let e := tentry (words s) T v in
  vm_ok s d T D (λ q, ext q + here x q) R0 → 0 ≤ la < KERNBASE → T !! (v / 1024) = Some t →
  p ∈ D → x ≠ 0 → x / PGSIZE = p → (∀ q, 0 ≤ ext q < 2 ^ 30) →
  ∃ s' ext', (if bool_decide (Z.land e PTE_P ≠ 0) then
       p' ← pte2page np e;
       if bool_decide (p' = p) then page_ref_dec get_ref set_ref p;; skip
       else page_remove_pte' (kva_of d 0) la (kva_of t (v mod 1024))
     else skip) s = Ret ((), s') ∧
    vm_ok s' d T (displaced s T v p D) ext' R0 ∧
    (∀ q, ext' q + here (tentry (words s') T v) q = here x q + ext q) ∧
    (∀ v', v' ≠ v → tentry (words s') T v' = tentry (words s) T v') ∧ same_outside (frames T) s s'.
Proof using All.
  intros v e Hv Hla Ht Hp Hx0 Hx Hext. destruct (la_split la Hla) as (Hr & _). fold v in Hr.
  unfold displaced. fold e. cbv zeta.
  destruct (vo_data _ _ _ _ _ _ Hv v Hr) as [He|(Hodd & Hu & Hin)].
  1: fold e in He. 2: fold e in Hodd, Hu, Hin.
  - rewrite (bool_decide_false (e ≠ 0 ∧ _)) by (rewrite He; tauto). rewrite He. simpl.
    exists s, (λ q, ext q + here x q). split_and!; try done. intros q. fold e. rewrite He. unfold here at 2.
    rewrite (bool_decide_false (0 ≠ 0 ∧ _)) by tauto. lia.
  - rewrite bool_decide_true by (by apply present_spec). destruct (in_hand _ _ _ _ _ _ _ Hv Hin) as [_ Hpr].
    rewrite (bind_Ret _ _ _ _ _ (pte2page_run s e Hodd Hu Hpr)).
    assert (He0 : e ≠ 0) by (intros E; rewrite E in Hodd; done).
    case_bool_decide as Hep.
    + rewrite (bool_decide_false (e ≠ 0 ∧ _)) by tauto.
      pose proof (count_bound (words s) T p) as Hcb. pose proof (count_nonneg (words s) T p) as Hc0.
      unfold UPN, UPDE in Hcb. pose proof (Hext p) as Hep'.
      destruct (ref_change_ok s d T D _ ext R0 p (λ r, s32 (r - 1)) Hv Hp) as (s' & n & E & Hv' & Hw & Hc & Htl).
      { intros q Hq. unfold here. rewrite bool_decide_false by (intros [_ ?]; congruence). lia. }
      { rewrite (vo_refs _ _ _ _ _ _ Hv p Hp). unfold here. rewrite bool_decide_true by done.
        rewrite s32_small by lia. lia. }
      { done. }
      unfold page_ref_dec. rewrite (bind_Ret _ _ _ _ _ E). exists s', ext. rewrite Hw.
      split_and!; try done; [|split; [done|]; intros i _; by rewrite Hw]. intros q. fold e. unfold here. rewrite Hep, Hx. rewrite Z.add_comm. f_equal.
      by case_bool_decide; case_bool_decide; naive_solver.
    + rewrite (bool_decide_true (e ≠ 0 ∧ _)) by done.
      destruct (page_remove_pte_ok s d T D _ R0 la t Hv Hla Ht He0) as (s' & E & Hv' & He' & Hc).
      exists s', (λ q, ext q + here x q). split_and!; try done.
      * intros q. fold v. rewrite He', decide_True by done. unfold here at 2.
        rewrite (bool_decide_false (0 ≠ 0 ∧ _)) by tauto. lia.
      * intros v' Hne. by rewrite He', decide_False.
Qed.

Lemma insert_found s0 s d T D ext R0 la t p perm :
  let v := PPN la in
  get_pte' (kva_of d 0) la true s0 = Ret (kva_of t (v mod 1024), s) →
  vm_ok s d T D ext R0 → 0 ≤ la < KERNBASE → T !! (v / 1024) = Some t →
  p ∈ D → 0 ≤ perm < PGSIZE → ext p + 1 < 2 ^ 30 →
  ∃ s', page_insert' (kva_of d 0) p la perm s0 = Ret (0, s') ∧
    vm_ok s' d T (displaced s T v p D) ext R0 ∧
    (∀ v', tentry (words s') T v' = if decide (v' = v) then pte_of p perm else tentry (words s) T v') ∧
    same_outside (frames T) s s'.
Proof using All.
  intros v E Hv Hla Ht Hp Hperm Hlim. pose proof (np_bound np Hnp) as Hnb. pose proof (mod1024 v) as Hm.
  destruct (pd_range _ _ _ _ (vo_pgd _ _ _ _ _ _ Hv) _ _ Ht) as (_ & Htr & _).
  destruct (in_hand _ _ _ _ _ _ p Hv Hp) as [_ Hpr]. pose proof (vo_ext _ _ _ _ _ _ Hv) as Hext.
  destruct (pte_value p perm ltac:(lia) Hperm) as (Hx1 & Hx2 & Hx3). fold (pte_of p perm) in Hx1, Hx2, Hx3.
  assert (Hx0 : pte_of p perm ≠ 0) by (intros H0; rewrite H0 in Hx2; done).
  set (x := pte_of p perm) in *. unfold page_insert. rewrite (bind_Ret _ _ _ _ _ E).
  rewrite bool_decide_false by (unfold kva_of, KERNBASE, PGSIZE; lia).
  assert (Hh : ∀ q, 0 ≤ here x q ≤ 1) by (intros q; unfold here; case_bool_decide; lia).
  assert (Hhp : here x p = 1) by (unfold here; by rewrite bool_decide_true).
  assert (Hhq : ∀ q, q ≠ p → here x q = 0).
  { intros q Hq. unfold here. rewrite bool_decide_false; [done|]. intros [_ ?]. congruence. }
  pose proof (count_bound (words s) T p) as Hcb. pose proof (count_nonneg (words s) T p) as Hc0.
  unfold UPN, UPDE in Hcb.
  destruct (ref_change_ok s d T D ext (λ q, ext q + here x q) R0 p (λ r, s32 (r + 1)) Hv Hp)
    as (s1 & n & E1 & Hv1 & Hw1 & Hc1 & _).
  { intros q Hq. rewrite Hhq by done. lia. }
  { rewrite (vo_refs _ _ _ _ _ _ Hv p Hp). rewrite s32_small; pose proof (Hext p); lia. }
  { intros q. pose proof (Hext q). destruct (decide (q = p)) as [->|Hq]; [lia|]. rewrite Hhq by done. lia. }
  unfold page_ref_inc. rewrite (bind_Ret _ _ _ _ _ E1).
  assert (El : load np (kva_of t (v mod 1024)) s1 = Ret (tentry (words s1) T v, s1)).
  { rewrite load_run by done. unfold tentry. by rewrite Ht. }
  rewrite (bind_Ret _ _ _ _ _ El).
  destruct (release_ok s1 d T D ext R0 la t p x Hv1 Hla Ht Hp Hx0 Hx1 Hext) as (s2 & ext' & E2 & Hv2 & He2 & Hn2 & Hc2).
  fold v in E2, Hv2. rewrite (bind_Ret _ _ _ _ _ E2). fold (pte_of p perm). fold x.
  replace (displaced s1 T v p D) with (displaced s T v p D) in Hv2.
  2: { clear E2. unfold displaced. rewrite Hw1. cbv zeta. case_bool_decide as Hb; [destruct Hb as [Hb1 Hb2]|done].
       destruct (la_split la Hla) as (Hr & _). destruct (data_page _ _ _ _ _ _ v Hv Hr Hb1) as (_ & _ & Hin).
       rewrite Hw1 in *. rewrite (vo_refs _ _ _ _ _ _ Hv _ Hin), (vo_refs _ _ _ _ _ _ Hv1 _ Hin), Hw1. cbv beta.
       rewrite Hhq by done. f_equal. lia. }
  destruct (set_entry_ok s2 d T _ ext ext' R0 la t x Hv2 Hla Ht Hx2 Hx3) as (s3 & E3 & Hv3 & He3 & Hc3).
  { rewrite Hx1. by apply displaced_self. }
  { exact He2. }
  { exact Hext. }
  exists s3. split_and!; [exact E3|exact Hv3| |].
  - intros v'. rewrite He3. fold v. destruct (decide (v' = v)) as [->|Hne]; [done|]. rewrite Hn2 by done. by rewrite Hw1.
  - eapply same_outside_trans; [|exact Hc3]. eapply same_outside_trans; [|exact Hc2]. split; [done|]. intros i _. by rewrite Hw1.
Qed.

Lemma page_insert_ok s d T D ext R0 la p perm :
  let v := PPN la in
  vm_ok s d T D ext R0 → 0 ≤ la < KERNBASE → p ∈ D → 0 ≤ perm < PGSIZE → ext p + 1 < 2 ^ 30 →
  (∃ s', page_insert' (kva_of d 0) p la perm s = Ret (- E_NO_MEM, s') ∧ vm_ok s' d T D ext R0 ∧
     words s' = words s ∧ vm_cr3 s' = vm_cr3 s) ∨
  (∃ T' s', page_insert' (kva_of d 0) p la perm s = Ret (0, s') ∧
     vm_ok s' d T' (displaced s T v p D) ext R0 ∧
     (∀ v', tentry (words s') T' v' = if decide (v' = v) then pte_of p perm else tentry (words s) T v') ∧
     same_outside (d :: frames T') s s').
Proof using All.
  intros v Hv Hla Hp Hperm Hlim. destruct (get_pte_create s d T D ext R0 la Hv Hla) as
    [(s1 & E & Hv1 & Hw & _ & Hc)|(t & T' & s1 & E & Ht & Hv1 & He & _ & Hc)].
  - left. exists s1. unfold page_insert. by rewrite (bind_Ret _ _ _ _ _ E).
  - right. destruct (insert_found s s1 d T' D ext R0 la t p perm E Hv1 Hla Ht Hp Hperm Hlim)
      as (s2 & E2 & Hv2 & He2 & Hc2). destruct (la_split la Hla) as (Hr & _).
    exists T', s2. split_and!; [done| | |].
    + by rewrite <-(displaced_ext s s1 d T T' D ext R0).
    + intros v'. rewrite He2. by destruct (decide (v' = _)); [|apply He].
    + eapply same_outside_trans; [exact Hc|]. eapply same_outside_mono; [exact Hc2|]. intros q Hq. by right.
Qed.

(** ** unmap_range *)
Definition refs s (T : gmap Z Z) (ext : Z → Z) (q : Z) : Z := count (words s) T q + ext q.
(** The data pages after mappings were removed: those still referenced. *)
Definition kept s s' (T : gmap Z Z) (ext : Z → Z) (D D' : list Z) : Prop :=
  ∀ q, q ∈ D' ↔ q ∈ D ∧ (refs s' T ext q = 0 → refs s T ext q = 0).

Lemma refs_remove s s' d T D ext R0 v :
  vm_ok s d T D ext R0 → 0 ≤ v < UPN →
  (∀ v', tentry (words s') T v' = if decide (v' = v) then 0 else tentry (words s) T v') →
  ∀ q, refs s' T ext q = refs s T ext q - here (tentry (words s) T v) q.
Proof using All.
  intros Hv Hr He q. unfold refs. rewrite (count_update (words s) T (words s') T q v 0) by done.
  unfold here at 2. rewrite bool_decide_false by tauto. lia.
Qed.
Lemma here_range e q : 0 ≤ here e q ≤ 1.
Proof. unfold here. case_bool_decide; lia. Qed.

Lemma kept_drop s s' d T D ext R0 v :
  let p := tentry (words s) T v / PGSIZE in
  vm_ok s d T D ext R0 → 0 ≤ v < UPN → tentry (words s) T v ≠ 0 →
  (∀ v', tentry (words s') T v' = if decide (v' = v) then 0 else tentry (words s) T v') →
  kept s s' T ext D (drop_page (refof (palloc s) p - 1) p D).
Proof using All.
  intros p Hv Hr H0 He q. destruct (data_page _ _ _ _ _ _ v Hv Hr H0) as (_ & _ & Hin). fold p in Hin.
  rewrite elem_of_drop, (refs_remove _ _ _ _ _ _ _ v Hv Hr He), (vo_refs _ _ _ _ _ _ Hv _ Hin).
  unfold here. fold p. case_bool_decide as Hq.
  - destruct Hq as [_ Hq]. subst q. pose proof (count_pos (words s) T p v Hr ltac:(done)).
    pose proof (vo_ext _ _ _ _ _ _ Hv p). unfold refs. naive_solver lia.
  - assert (q ≠ p) by (intros ->; tauto). rewrite Z.sub_0_r. naive_solver.
Qed.

Lemma kept_trans s s1 s2 T ext D D1 D2 :
  (∀ q, 0 ≤ refs s2 T ext q ≤ refs s1 T ext q ∧ refs s1 T ext q ≤ refs s T ext q) →
  kept s s1 T ext D D1 → kept s1 s2 T ext D1 D2 → kept s s2 T ext D D2.
Proof.
  intros Hm H1 H2 q. rewrite (H2 q), (H1 q). pose proof (Hm q). naive_solver lia.
Qed.

Lemma refs_mono s s' d T D ext R0 (P : Z → Prop) `{∀ v, Decision (P v)} :
  vm_ok s d T D ext R0 →
  (∀ v, 0 ≤ v < UPN → tentry (words s') T v = if decide (P v) then 0 else tentry (words s) T v) →
  ∀ q, 0 ≤ refs s' T ext q ≤ refs s T ext q.
Proof using All.
  intros Hv He q. pose proof (vo_ext _ _ _ _ _ _ Hv q). unfold refs.
  pose proof (count_nonneg (words s') T q). split; [lia|]. apply Z.add_le_mono_r. unfold count.
  apply Nat2Z.inj_le, submseteq_length, NoDup_submseteq; [apply NoDup_filter, NoDup_seqZ|].
  intros v. rewrite !list_elem_of_filter. intros [[M1 M2] Hin]. split; [|done].
  apply elem_of_seqZ in Hin. unfold maps. rewrite He in M1, M2 by lia. by destruct (decide (P v)).
Qed.

Lemma page_number v : 0 ≤ v < UPN → 0 ≤ v * PGSIZE < KERNBASE ∧ PPN (v * PGSIZE) = v.
Proof.
  unfold UPN, UPDE, KERNBASE, PGSIZE. intros Hv. split; [lia|]. rewrite PPN_div. change (2 ^ 12) with 4096.
  by rewrite Z.div_mul.
Qed.
Lemma next_table v : 0 ≤ v < UPN →
  ROUNDDOWN (u32 (v * PGSIZE + PTSIZE)) PTSIZE = ((v / 1024 + 1) * 1024) * PGSIZE.
Proof.
  unfold UPN, UPDE. intros Hv. change PTSIZE with (1024 * PGSIZE). unfold PGSIZE.
  rewrite u32_small, ROUNDDOWN_spec by (unfold is_u32; lia).
  replace (v * 4096 + 1024 * 4096) with ((v + 1 * 1024) * 4096) by lia.
  rewrite Z.div_mul_cancel_r, Z.div_add by lia. lia.
Qed.
Lemma no_table_zero w T v v' : T !! (v / 1024) = None → v ≤ v' < (v / 1024 + 1) * 1024 → tentry w T v' = 0.
Proof.
  intros Ht Hr. unfold tentry. replace (v' / 1024) with (v / 1024); [by rewrite Ht|].
  apply (Z.div_unique_pos v' 1024 _ (v' - v / 1024 * 1024)); [|lia].
  pose proof (Z.div_mod v 1024 ltac:(lia)). pose proof (mod1024 v). lia.
Qed.

Abbreviation unmap_loop' := (unmap_loop alloc_pages free_pages np get_ref set_ref).

(** One turn at page [v], which goes on at [v']. *)
Lemma unmap_step s d T D ext R0 v :
  vm_ok s d T D ext R0 → 0 ≤ v < UPN →
  ∃ v' s' D', v < v' ∧ v' ≤ UPN ∧
    (∀ fuel end_, unmap_loop' (S fuel) (kva_of d 0) (v * PGSIZE) end_ s =
      (if bool_decide (v' * PGSIZE ≠ 0 ∧ v' * PGSIZE < end_)
       then unmap_loop' fuel (kva_of d 0) (v' * PGSIZE) end_ else skip) s') ∧
    vm_ok s' d T D' ext R0 ∧ kept s s' T ext D D' ∧ vm_cr3 s' = vm_cr3 s ∧
    (∀ u, tentry (words s') T u = if decide (u = v) then 0 else tentry (words s) T u) ∧
    (∀ u, v < u < v' → tentry (words s) T u = 0).
Proof using All.
  intros Hv Hr. destruct (page_number v Hr) as [Hla Hppn]. pose proof (vo_pgd _ _ _ _ _ _ Hv) as Hp.
  assert (Hi : 0 ≤ v / 1024 < UPDE).
  { unfold UPN in Hr. split; [apply Z.div_pos; lia|apply Z.div_lt_upper_bound; lia]. }
  destruct (T !! (v / 1024)) as [t|] eqn:Et.
  2: { exists ((v / 1024 + 1) * 1024), s, D. pose proof (Z.div_mod v 1024 ltac:(lia)). pose proof (mod1024 v).
    split_and!; try done; [lia|unfold UPN, UPDE in *; lia| |by intros q; naive_solver|..].
    - intros fuel end_. cbn [unmap_loop].
      rewrite (bind_Ret _ _ _ _ _ (get_pte_none s d T (v * PGSIZE) Hp Hla ltac:(by rewrite Hppn))).
      rewrite (bool_decide_true (0 = 0)), bind_mret by done. by rewrite next_table.
    - intros u. destruct (decide _); [|done]. apply (no_table_zero _ _ v); [done|lia].
    - intros u Hu. apply (no_table_zero _ _ v); [done|lia]. }
  destruct (pd_range _ _ _ _ Hp _ _ Et) as (_ & Ht & _). pose proof (mod1024 v) as Hm.
  assert (Eg : get_pte' (kva_of d 0) (v * PGSIZE) false s = Ret (kva_of t (v mod 1024), s)).
  { rewrite <-Hppn at 2. apply (get_pte_found s d T); [done..|by rewrite Hppn]. }
  assert (El : load np (kva_of t (v mod 1024)) s = Ret (tentry (words s) T v, s)).
  { rewrite load_run by done. unfold tentry. by rewrite Et. }
  assert (Hn0 : kva_of t (v mod 1024) ≠ 0) by (unfold kva_of, KERNBASE, PGSIZE; lia).
  assert (Hnext : u32 (v * PGSIZE + PGSIZE) = (v + 1) * PGSIZE).
  { unfold UPN, UPDE, PGSIZE in *. rewrite u32_small by (unfold is_u32; lia). lia. }
  destruct (decide (tentry (words s) T v = 0)) as [He|He].
  - exists (v + 1), s, D. split_and!; try done; [lia|lia| |by intros q; naive_solver|..].
    + intros fuel end_. cbn [unmap_loop]. rewrite (bind_Ret _ _ _ _ _ Eg).
      rewrite (bool_decide_false (_ = 0)) by done. rewrite bind_assoc, (bind_Ret _ _ _ _ _ El).
      rewrite (bool_decide_false (_ ≠ 0)) by tauto. by rewrite bind_assoc, bind_skip, bind_mret, Hnext.
    + intros u. destruct (decide _) as [->|]; [|done]. done.
    + lia.
  - destruct (page_remove_pte_ok s d T D ext R0 (v * PGSIZE) t Hv Hla) as (s' & E & Hv' & He' & [Hc _]).
    { by rewrite Hppn. } { by rewrite Hppn. }
    rewrite Hppn in E, Hv', He'. eexists (v + 1), s', _. split_and!; [lia|lia| |exact Hv'| |done|exact He'|lia].
    + intros fuel end_. cbn [unmap_loop]. rewrite (bind_Ret _ _ _ _ _ Eg).
      rewrite (bool_decide_false (_ = 0)) by done. rewrite bind_assoc, (bind_Ret _ _ _ _ _ El).
      rewrite (bool_decide_true (_ ≠ 0)) by done. by rewrite bind_assoc, (bind_Ret _ _ _ _ _ E), bind_mret, Hnext.
    + by apply (kept_drop s s' d T D ext R0 v).
Qed.

(** With one unit of fuel per page the loop ends; the mappings of the range
    are gone and nothing else has changed. *)
Lemma unmap_loop_ok fuel s d T D ext R0 v ve :
  vm_ok s d T D ext R0 → 0 ≤ v < ve → ve ≤ UPN → (Z.to_nat (ve - v) ≤ fuel)%nat →
  ∃ s' D', unmap_loop' fuel (kva_of d 0) (v * PGSIZE) (ve * PGSIZE) s = Ret ((), s') ∧
    vm_ok s' d T D' ext R0 ∧ kept s s' T ext D D' ∧ vm_cr3 s' = vm_cr3 s ∧
    ∀ u, tentry (words s') T u = if decide (v ≤ u < ve) then 0 else tentry (words s) T u.
Proof using All.
  revert s D v. induction fuel as [|fuel IH]; intros s D v Hv Hr Hve Hf; [lia|].
  destruct (unmap_step s d T D ext R0 v Hv ltac:(lia)) as (v' & s1 & D1 & H1 & H2 & E & Hv1 & Hk1 & Hc1 & He1 & Hz).
  rewrite E. unfold PGSIZE at 1 2. case_bool_decide as Hb.
  - assert (v' < ve) by (unfold PGSIZE in Hb; lia).
    destruct (IH s1 D1 v' Hv1 ltac:(lia) Hve ltac:(lia)) as (s2 & D2 & E2 & Hv2 & Hk2 & Hc2 & He2).
    assert (Hall : ∀ u, tentry (words s2) T u = if decide (v ≤ u < ve) then 0 else tentry (words s) T u).
    { intros u. rewrite He2, He1. repeat destruct (decide _); try done; try lia. apply Hz. lia. }
    exists s2, D2. split_and!; try done; [|congruence]. apply (kept_trans s s1 s2 T ext D D1 D2); [|done|done].
    intros q. split; [|].
    + eapply (refs_mono s1 s2 d T D1 ext R0 (λ u, v' ≤ u < ve)); [done|by intros; apply He2].
    + eapply (refs_mono s s1 d T D ext R0 (λ u, u = v)); [done|by intros; apply He1].
  - assert (ve ≤ v') by (unfold PGSIZE in Hb; lia). exists s1, D1. split_and!; try done.
    intros u. rewrite He1. repeat destruct (decide _); try done; try lia. apply Hz. lia.
Qed.

(** ** exit_range *)
Abbreviation exit_loop' := (exit_loop free_pages np).

Lemma frames_delete T i t : T !! i = Some t → frames T ≡ₚ t :: frames (delete i T).
Proof. intros Hi. unfold frames. by rewrite <-(map_to_list_delete T i t). Qed.

Lemma delete_table w d T i t :
  pgd_ok np w d T → T !! i = Some t → (∀ v, v / 1024 = i → tentry w T v = 0) →
  let w' := <[d * 1024 + i := 0]> w in
  pgd_ok np w' d (delete i T) ∧ ∀ v, tentry w' (delete i T) v = tentry w T v.
Proof.
  intros [H1 H2 H3 H4] Hi Hz w'. destruct (H2 _ _ Hi) as (Hir & _). unfold UPDE in *. split; [split; try done|].
  - intros j t' [_ Hj]%lookup_delete_Some. by eapply H2.
  - intros j j' t' [_ Hj]%lookup_delete_Some [_ Hj']%lookup_delete_Some. by eapply H3.
  - intros j Hj e. subst e. unfold w'. destruct (decide (j = i)) as [->|Hne].
    + by rewrite lookup_delete_eq, word_insert_eq.
    + rewrite lookup_delete_ne by done. rewrite word_insert_ne by lia. by apply H4.
  - intros v. destruct (decide (v / 1024 = i)) as [Hv|Hv].
    + rewrite (Hz v Hv). unfold tentry. by rewrite Hv, lookup_delete_eq.
    + unfold tentry. rewrite lookup_delete_ne by done. destruct (T !! (v / 1024)) as [t'|] eqn:Et; [|done].
      pose proof (mod1024 v). destruct (H2 _ _ Et) as (_ & _ & Htd). unfold w'. apply word_insert_ne.
      intros [? _]%split_addr; [done|lia|lia].
Qed.

Lemma exit_step s d T D ext R0 i :
  vm_ok s d T D ext R0 → 0 ≤ i < UPDE → (∀ v, v / 1024 = i → tentry (words s) T v = 0) →
  ∃ s', (∀ fuel end_, exit_loop' (S fuel) (kva_of d 0) (i * PTSIZE) end_ s =
      (if bool_decide ((i + 1) * PTSIZE ≠ 0 ∧ (i + 1) * PTSIZE < end_)
       then exit_loop' fuel (kva_of d 0) ((i + 1) * PTSIZE) end_ else skip) s') ∧
    vm_ok s' d (delete i T) D ext R0 ∧ vm_cr3 s' = vm_cr3 s ∧ tlb s' = tlb s ∧
    ∀ v, tentry (words s') (delete i T) v = tentry (words s) T v.
Proof using All.
  intros Hv Hi Hz. pose proof (vo_pgd _ _ _ _ _ _ Hv) as Hp. pose proof (np_bound np Hnp) as Hnb. unfold UPDE in Hi.
  change PTSIZE with (1024 * PGSIZE).
  assert (Hla : 0 ≤ i * (1024 * PGSIZE) < KERNBASE) by (unfold PGSIZE, KERNBASE; lia).
  assert (Hppn : PPN (i * (1024 * PGSIZE)) / 1024 = i).
  { rewrite PPN_div. unfold PGSIZE. change (2 ^ 12) with 4096. rewrite Z.div_div by lia.
    change (1024 * 4096) with (4096 * 1024). by rewrite Z.div_mul. }
  assert (El : load np (kva_of d 0 + 4 * PDX (i * (1024 * PGSIZE))) s = Ret (word (words s) (d * 1024 + i), s)).
  { rewrite (load_pde s d T) by done. by rewrite Hppn. }
  assert (Epde : kva_of d 0 + 4 * PDX (i * (1024 * PGSIZE)) = kva_of d i).
  { destruct (la_split _ Hla) as (_ & -> & _). rewrite Hppn. unfold kva_of. lia. }
  assert (Hnext : u32 (i * (1024 * PGSIZE) + PTSIZE) = (i + 1) * (1024 * PGSIZE)).
  { change PTSIZE with (1024 * PGSIZE). unfold PGSIZE. rewrite u32_small by (unfold is_u32; lia). lia. }
  pose proof (pd_pde _ _ _ _ Hp i ltac:(done)) as He. cbv zeta in He. destruct (T !! i) as [t|] eqn:Et.
  - destruct He as (Hodd & Hfr & Hu). destruct (pd_range _ _ _ _ Hp _ _ Et) as (_ & Htr & _).
    assert (E1 : pde2page np (word (words s) (d * 1024 + i)) s = Ret (t, s)).
    { unfold pde2page, pa2page, PDE_ADDR. rewrite PPN_addr, Hfr by done. by rewrite bool_decide_false by lia. }
    pose proof (vo_held _ _ _ _ _ _ Hv) as Hh.
    assert (Hh' : held (palloc s) ((t, 1) :: singles (d :: frames (delete i T) ++ D) ++ R0)).
    { eapply ra_perm; [exact Hh|]. unfold singles. rewrite !fmap_cons, (frames_delete T i t) by done. simpl.
      by rewrite perm_swap. }
    destruct (pa_free (PageAllocator := ra_pages) _ _ _ _ Hh') as (a' & E2 & Ha').
    exists (set_words (<[d * 1024 + i := 0]> (words s)) (over palloc_lens a' s)).
    destruct (delete_table (words s) d T i t Hp Et Hz) as [Hp' He'].
    split_and!; try done.
    + intros fuel end_. cbn [exit_loop]. rewrite (bind_Ret _ _ _ _ _ El).
      rewrite (bool_decide_true (Z.land _ _ ≠ 0)) by (by apply present_spec).
      rewrite bind_assoc, (bind_Ret _ _ _ _ _ E1), bind_assoc.
      unfold free_page. rewrite (bind_Ret _ _ _ _ _ (palloc_run _ s _ _ E2)).
      rewrite Epde, (bind_Ret _ _ _ _ _ (store_run _ d i 0 (pd_dir _ _ _ _ Hp) ltac:(lia))). by rewrite Hnext.
    + destruct Hv as [V1 V2 V3 V4 V5 V6]. split; try done.
      * intros v Hr. cbv zeta. rewrite He'. by apply V3.
      * intros p Hpd. change (palloc _) with a'. rewrite (ra_free _ _ _ _ _ Hh' E2) by (rewrite hand_singles; set_solver).
        rewrite V4 by done. f_equal. symmetry. by apply count_ext.
      * intros Hc v e Hr Hl. change (words _) with (<[d * 1024 + i := 0]> (words s)). rewrite He'. by apply V6.
  - assert (Hdel : delete i T = T) by (by apply delete_id). rewrite Hdel.
    exists s. split_and!; try done. intros fuel end_. cbn [exit_loop]. rewrite (bind_Ret _ _ _ _ _ El).
    rewrite (bool_decide_false (Z.land _ _ ≠ 0)) by (rewrite present_spec; lia). by rewrite bind_skip, Hnext.
Qed.

(** The page tables of the range are given back. *)
Lemma exit_loop_ok fuel s d T D ext R0 i end_ :
  vm_ok s d T D ext R0 → 0 ≤ i → i * PTSIZE < end_ → end_ ≤ UPDE * PTSIZE → end_ - i * PTSIZE ≤ Z.of_nat fuel * PTSIZE →
  (∀ v, i ≤ v / 1024 → (v / 1024) * PTSIZE < end_ → tentry (words s) T v = 0) →
  ∃ s' T', exit_loop' fuel (kva_of d 0) (i * PTSIZE) end_ s = Ret ((), s') ∧ vm_ok s' d T' D ext R0 ∧
    (∀ j, T' !! j = if decide (i ≤ j ∧ j * PTSIZE < end_) then None else T !! j) ∧
    vm_cr3 s' = vm_cr3 s ∧ tlb s' = tlb s ∧ ∀ v, tentry (words s') T' v = tentry (words s) T v.
Proof using All.
  revert s T i. induction fuel as [|fuel IH]; intros s T i Hv Hi Hie Hend Hf Hz; [lia|].
  assert (HP : PTSIZE = 4194304) by reflexivity.
  destruct (exit_step s d T D ext R0 i Hv) as (s1 & E & Hv1 & Hc1 & Ht1 & He1); [lia|..].
  { intros v Hvi. apply Hz; lia. }
  rewrite E. destruct (decide ((i + 1) * PTSIZE < end_)) as [Hb|Hb].
  - rewrite (bool_decide_true (_ ∧ _)) by lia.
    destruct (IH s1 (delete i T) (i + 1) Hv1) as (s2 & T2 & E2 & Hv2 & Hl2 & Hc2 & Ht2 & He2); [rewrite ?HP in Hf, Hb, Hend, Hie |- *; lia..| |].
    { intros v Hvi Hve. rewrite He1. apply Hz; lia. }
    exists s2, T2. split_and!; try done; [|congruence..|].
    + intros j. rewrite Hl2. destruct (decide (j = i)) as [->|Hne].
      * rewrite lookup_delete_eq. repeat destruct (decide _); try done; lia.
      * rewrite lookup_delete_ne by done. repeat destruct (decide _); try done; lia.
    + intros v. by rewrite He2.
  - rewrite (bool_decide_false (_ ∧ _)) by lia. exists s1, (delete i T). split_and!; try done.
    intros j. destruct (decide (j = i)) as [->|Hne].
    + rewrite lookup_delete_eq. by rewrite decide_True by lia.
    + rewrite lookup_delete_ne by done. rewrite decide_False by lia. done.
Qed.
End Props.
