(* ===== verification/PmmFault.v ===== *)
(** * Page tables: fresh pages, copies and the steps of the page fault handler *)
From stdpp Require Import base gmap list fin_maps.
From Stdlib Require Import ZArith Lia.
From S2P Require Import Prelude DList Bits Printfmt Mmu Buddy BuddySpec Alloc PmmRefs PmmFresh Pmm PmmInv PmmProps.

Lemma frame_index t j : 0 ≤ j < 1024 → (t * 1024 + j) / 1024 = t.
Proof. intros Hj. rewrite Z.div_add_l, Z.div_small by lia. lia. Qed.

Section Fault.
Context {A : Type} (alloc_pages : Z → M A (option Z)) (free_pages : Z → Z → M A unit) (np : Z).
Context (get_ref : Z → M A Z) (set_ref : Z → Z → M A unit).
Context (held : A → list (Z * Z) → Prop) (refof : A → Z → Z).
Context `{HA : !RefAllocator alloc_pages free_pages get_ref set_ref np held refof} (Hnp : np ≤ KMEMSIZE / PGSIZE).
Context `{HF : !FreshRefs alloc_pages held refof}.
Implicit Types s : vmem A.
Abbreviation vm_ok' := (vm_ok np held refof).

(** References from elsewhere are to the data pages only. *)
Definition ext_in (ext : Z → Z) (D : list Z) : Prop := ∀ p, ext p ≠ 0 → p ∈ D.

Lemma ext_kept s s' T ext D D' : (∀ p, 0 ≤ ext p < 2 ^ 30) → kept s s' T ext D D' → ext_in ext D → ext_in ext D'.
Proof.
  intros He Hk Hx p Hp. apply Hk. split; [by apply Hx|]. unfold refs. pose proof (count_nonneg (words s') T p).
  specialize (He p). lia.
Qed.

(** A page that no entry maps. *)
Lemma count_out s d T D ext R0 p : vm_ok' s d T D ext R0 → p ∉ D → count (words s) T p = 0.
Proof. intros Hv. exact (count_absent _ _ _ _ (vo_data _ _ _ _ _ _ _ _ _ Hv)). Qed.

(** The same memory with another state of the allocator. *)
Definition same_memory s s' : Prop := words s' = words s ∧ vm_cr3 s' = vm_cr3 s ∧ tlb s' = tlb s.

Lemma alloc_data s d T D ext R0 : vm_ok' s d T D ext R0 → ext_in ext D →
  ∃ r s', alloc_page alloc_pages s = Ret (r, s') ∧ same_memory s s' ∧
    match r with
    | None => vm_ok' s' d T D ext R0
    | Some p => p ∉ D ∧ p ≠ d ∧ p ∉ frames T ∧ 0 ≤ p < np ∧ refof (palloc s') p = 0 ∧ vm_ok' s' d T (p :: D) ext R0
    end.
Proof using All.
  intros Hv Hext. destruct (pa_alloc (PageAllocator := ra_pages) (palloc s) _ 1 (vo_held _ _ _ _ _ _ _ _ _ Hv) ltac:(lia)) as (r & a1 & E1 & H1).
  assert (Hk1 : ∀ q, q ∈ D → refof a1 q = refof (palloc s) q).
  { intros q Hq. eapply (ra_alloc (palloc s)); [apply Hv|..|exact E1|]; [lia|]. rewrite hand_singles. set_solver. }
  exists r, (over palloc_lens a1 s). split; [by apply palloc_run|]. split; [done|].
  pose proof Hv as [V1 V2 V3 V4 V5 V6]. destruct r as [p|].
  - pose proof (fresh_ref (palloc s) _ 1 p a1 p V2 ltac:(lia) E1 ltac:(lia)) as Hz.
    destruct (held_fresh alloc_pages free_pages np get_ref set_ref held refof a1 d T D R0 p H1) as (Hpr & Hpd & HpT & HpD & _). split_and!; try done; try lia. split; try done.
    + eapply ra_perm; [exact H1|]. change ((p, 1) :: singles (d :: frames T ++ D) ++ R0) with (singles (p :: d :: frames T ++ D) ++ R0).
      apply Permutation_app_tail. unfold singles. apply fmap_Permutation. solve_Permutation.
    + intros v Hr. destruct (V3 v Hr) as [?|(? & ? & ?)]; [by left|right]. split_and!; [done|done|]. by right.
    + intros q Hq. simpl. apply elem_of_cons in Hq as [->|Hq]; [|rewrite Hk1 by done; by apply V4].
      rewrite Hz, (count_out s d T D ext R0) by done. destruct (decide (ext p = 0)) as [->|Hne]; [done|]. by destruct (HpD (Hext p Hne)).
  - split; try done. intros q Hq. simpl. rewrite Hk1 by done. by apply V4.
Qed.

(** A data page without references goes back. *)
Lemma free_data s d T D ext R0 p : vm_ok' s d T D ext R0 → ext_in ext D → p ∈ D → refof (palloc s) p = 0 →
  ∃ s', free_page free_pages p s = Ret ((), s') ∧ same_memory s s' ∧ vm_ok' s' d T (drop_page 0 p D) ext R0 ∧ ext_in ext (drop_page 0 p D).
Proof using All.
  intros Hv Hext Hp Hz. pose proof Hv as [V1 V2 V3 V4 V5 V6].
  destruct (drop_page_run alloc_pages free_pages np get_ref set_ref held refof Hnp s (d :: frames T) D R0 p V2 Hp) as (a' & E & H1 & H2);
    [by eapply data_nodup|]. rewrite Hz in *. simpl in E.
  assert (Hc : count (words s) T p = 0 ∧ ext p = 0).
  { pose proof (V4 p Hp) as Hr. pose proof (count_nonneg (words s) T p). pose proof (V5 p). lia. }
  destruct Hc as [Hc He]. exists (over palloc_lens a' s). split; [exact E|]. split; [done|]. split.
  - split; try done.
    + intros v Hr. destruct (V3 v Hr) as [?|(? & ? & Hin)]; [by left|right]. split_and!; [done|done|]. apply elem_of_drop. split; [done|].
      intros _ Heq. assert (Hm : maps (words s) T p v) by (split; [intros Hx; rewrite Hx in *; done|done]).
      pose proof (count_pos (words s) T p v Hr Hm). lia.
    + intros q Hq. simpl. rewrite H2 by done. apply elem_of_drop in Hq as [Hq _]. by apply V4.
  - intros q Hq. apply elem_of_drop. split; [by apply Hext|]. intros _ ->. done.
Qed.

(** Data pages do not overlap the tables. *)
Lemma data_apart s d T D ext R0 p : vm_ok' s d T D ext R0 → p ∈ D → p ≠ d ∧ p ∉ frames T.
Proof using All.
  intros Hv Hp. pose proof (pa_nodup (PageAllocator := ra_pages) _ _ (vo_held _ _ _ _ _ _ _ _ _ Hv)) as Hnd.
  rewrite hand_singles in Hnd. apply NoDup_app in Hnd as (Hnd & _ & _). apply NoDup_cons in Hnd as [Hd Hnd].
  apply NoDup_app in Hnd as (_ & Hx & _). split; [set_solver|]. intros Hf. by apply (Hx p Hf).
Qed.
Definition content s (p j : Z) : Z := word (words s) (p * 1024 + j).
Lemma content_kept F s s' p j : same_outside F s s' → p ∉ F → 0 ≤ j < 1024 → content s' p j = content s p j.
Proof. intros [_ Hw] Hp Hj. unfold content. apply Hw. by rewrite frame_index. Qed.

(** Writing into data pages. *)
Lemma data_write s d T D ext R0 p w' : vm_ok' s d T D ext R0 → p ∈ D → (∀ i, i / 1024 ≠ p → word w' i = word (words s) i) →
  vm_ok' (set_words w' s) d T D ext R0 ∧ ∀ v, tentry w' T v = tentry (words s) T v.
Proof using All.
  intros Hv Hp Hw. destruct (data_apart _ _ _ _ _ _ _ Hv Hp) as [Hd Hf].
  assert (He : ∀ v, tentry w' T v = tentry (words s) T v).
  { intros v. unfold tentry. destruct (T !! (v / 1024)) as [t|] eqn:Et; [|done]. apply Hw. pose proof (mod1024 v).
    rewrite frame_index by done. intros ->. by apply Hf, (elem_of_frames T (v / 1024)). }
  split; [|done]. pose proof Hv as [V1 V2 V3 V4 V5 V6]. split; simpl; try done.
  - destruct V1 as [P1 P2 P3 P4]. split; try done. intros i Hi. cbv zeta. rewrite Hw; [by apply P4|]. unfold UPDE in Hi.
    rewrite frame_index by lia. congruence.
  - intros v Hr. cbv zeta. rewrite He. by apply V3.
  - intros q Hq. rewrite V4 by done. f_equal. symmetry. apply count_ext. intros v _. apply He.
  - intros Hc v e Hr Hl. rewrite He. by apply V6.
Qed.

Lemma drop_fresh p D : p ∉ D → drop_page 0 p (p :: D) = D.
Proof.
  intros Hp. unfold drop_page. rewrite bool_decide_true by done. rewrite filter_cons, decide_False by (intros H; by apply H).
  induction D as [|q D IH]; [done|]. rewrite filter_cons, decide_True by (intros ->; apply Hp; by left).
  f_equal. apply IH. intros H. apply Hp. by right.
Qed.

(** A new page for an address without a page. *)
Abbreviation pgdir_alloc_page' := (pgdir_alloc_page alloc_pages free_pages np get_ref set_ref).
Lemma pgdir_alloc_ok s d T D ext R0 la perm : vm_ok' s d T D ext R0 → ext_in ext D → 0 ≤ la < KERNBASE → 0 ≤ perm < PGSIZE →
  tentry (words s) T (PPN la) = 0 →
  (∃ s', pgdir_alloc_page' (kva_of d 0) la perm s = Ret (None, s') ∧ vm_ok' s' d T D ext R0 ∧ words s' = words s) ∨
  (∃ p T' s', pgdir_alloc_page' (kva_of d 0) la perm s = Ret (Some p, s') ∧ p ∉ D ∧ vm_ok' s' d T' (p :: D) ext R0 ∧
     (∀ v, tentry (words s') T' v = if decide (v = PPN la) then pte_of p perm else tentry (words s) T v) ∧ same_outside (d :: frames T') s s').
Proof using All.
  intros Hv Hext Hla Hperm He. unfold pgdir_alloc_page.
  destruct (alloc_data s d T D ext R0 Hv Hext) as (r & s1 & E1 & (W1 & C1 & L1) & Hr). rewrite (bind_Ret _ _ _ _ _ E1).
  destruct r as [p|]; [|left; by exists s1]. destruct Hr as (HpD & Hpd & HpF & Hpr & Hz & Hv1).
  assert (Hep : ext p = 0) by (destruct (decide (ext p = 0)) as [|Hne]; [done|by destruct (HpD (Hext p Hne))]).
  assert (Hext1 : ext_in ext (p :: D)) by (intros q Hq; right; by apply Hext).
  assert (Hp1 : p ∈ p :: D) by by left. assert (Hlim : ext p + 1 < 2 ^ 30) by lia.
  destruct (page_insert_ok alloc_pages free_pages np get_ref set_ref held refof Hnp s1 d T (p :: D) ext R0 la p perm Hv1 Hla Hp1 Hperm Hlim)
    as [(s2 & E2 & Hv2 & Hw2 & _)|(T' & s2 & E2 & Hv2 & He2 & Hso)]; rewrite (bind_Ret _ _ _ _ _ E2).
  - rewrite bool_decide_true by done. left.
    assert (Hz2 : refof (palloc s2) p = 0).
    { rewrite (vo_refs _ _ _ _ _ _ _ _ _ Hv2 p Hp1), Hw2, W1. rewrite (count_out s d T D ext R0 p Hv HpD). lia. }
    destruct (free_data s2 d T (p :: D) ext R0 p Hv2 Hext1 Hp1 Hz2) as (s3 & E3 & (W3 & _) & Hv3 & _).
    rewrite (bind_Ret _ _ _ _ _ E3). exists s3. split; [done|]. rewrite drop_fresh in Hv3 by done. split; [done|congruence].
  - rewrite bool_decide_false by (intros H; by apply H). right. exists p, T', s2. split; [done|]. split; [done|].
    assert (Hdis : displaced refof s1 T (PPN la) p (p :: D) = p :: D).
    { unfold displaced. rewrite W1, He. by rewrite bool_decide_false by tauto. }
    rewrite Hdis in Hv2. split; [done|]. split; [intros v; by rewrite He2, W1|].
    destruct Hso as [S1 S2]. split; [congruence|]. intros i Hi. by rewrite S2, W1.
Qed.

(** Mapping a page in place of another at an address that has a table. *)
Lemma remap_ok s d T D ext R0 la t p perm : vm_ok' s d T D ext R0 → 0 ≤ la < KERNBASE → T !! (PPN la / 1024) = Some t → p ∈ D →
  0 ≤ perm < PGSIZE → ext p + 1 < 2 ^ 30 →
  ∃ s', page_insert alloc_pages free_pages np get_ref set_ref (kva_of d 0) p la perm s = Ret (0, s') ∧
    vm_ok' s' d T (displaced refof s T (PPN la) p D) ext R0 ∧
    (∀ v, tentry (words s') T v = if decide (v = PPN la) then pte_of p perm else tentry (words s) T v) ∧ same_outside (frames T) s s'.
Proof using All.
  intros Hv Hla Ht Hp Hperm Hlim. pose proof (vo_pgd _ _ _ _ _ _ _ _ _ Hv) as Hpg.
  apply (insert_found alloc_pages free_pages np get_ref set_ref held refof Hnp s s d T D ext R0 la t p perm); try done.
  by apply (get_pte_found alloc_pages np set_ref Hnp s d T la t true).
Qed.
End Fault.
