(* ===== verification/PmmThms.v ===== *)
(** * arch/x86/pmm.c: the theorems

    Page tables over the buddy allocator, the listing of the page tables and
    the memory ranges given to the allocator at boot. *)
From stdpp Require Import base gmap list fin_maps sorting.
From Stdlib Require Import ZArith Lia.
From S2P Require Import Prelude DList Bits Printfmt Mmu Buddy BuddySpec Alloc PmmRefs Pmm PmmInv PmmProps.

(** ** A concrete memory: two pages of the booted buddy memory are in use *)
Definition ex_step {A} (s0 : A) (r : outcome (option Z * A)) : A := match r with Ret (_, s) => s | _ => s0 end.
Definition ex_boot : pmm :=
  match buddy_boot 100 [(3, 40); (50, 20)] (blank 70) with Ret (_, s) => s | _ => blank 0 end.
Definition ex_one : pmm := ex_step ex_boot (buddy_alloc_pages 1 ex_boot).
Definition ex_two : pmm := ex_step ex_one (buddy_alloc_pages 1 ex_one).
Definition ex_vm : vmem pmm := MkVmem pmm ∅ (66 * PGSIZE) ∅ ex_two.

Definition ok_alloc (r : outcome (option Z * pmm)) : option (option Z) :=
  match r with Ret (p, _) => Some p | _ => None end.
Lemma ex_boot_held : buddy_held 70 ex_boot [].
Proof.
  destruct booted_holds as (s & L & E & H). assert (Es : ex_boot = s) by (unfold ex_boot; by rewrite E).
  split; [vm_compute; reflexivity|]. rewrite Es. by exists L.
Qed.
Lemma alloc_held s R p s' :
  buddy_held 70 s R → buddy_alloc_pages 1 s = Ret (Some p, s') → buddy_held 70 s' ((p, 1) :: R).
Proof.
  intros H E. destruct (pa_alloc (PageAllocator := buddy_page_allocator 70) s R 1 H ltac:(lia)) as (r & s1 & E1 & H1).
  rewrite E in E1. by injection E1 as <- <-.
Qed.
Lemma ex_step_ok s p : ok_alloc (buddy_alloc_pages 1 s) = Some (Some p) →
  buddy_alloc_pages 1 s = Ret (Some p, ex_step s (buddy_alloc_pages 1 s)).
Proof. destruct (buddy_alloc_pages 1 s) as [[r s']| | |]; simpl; intros H; by simplify_eq. Qed.
Lemma ex_two_held : buddy_held 70 ex_two [(67, 1); (66, 1)].
Proof.
  unfold ex_two. eapply alloc_held; [|apply ex_step_ok; vm_compute; reflexivity].
  unfold ex_one. eapply alloc_held; [apply ex_boot_held|apply ex_step_ok; vm_compute; reflexivity].
Qed.

Section Empty.
Context {A : Type} (held : A → list (Z * Z) → Prop) (refof : A → Z → Z) (np : Z).
(** A cleared page directory. *)
Lemma vm_ok_empty a cr3 d D ext R0 :
  held a (singles (d :: D) ++ R0) → 0 ≤ d < np → (∀ p, p ∈ D → refof a p = ext p) → (∀ p, 0 ≤ ext p < 2 ^ 30) →
  vm_ok np held refof (MkVmem A ∅ cr3 ∅ a) d ∅ D ext R0.
Proof.
  intros Hh Hd Hr Hext.
  assert (He : ∀ v, tentry ∅ ∅ v = 0) by (intros v; unfold tentry; by rewrite lookup_empty).
  split; unfold words, palloc, tlb.
  - split; [done|intros i t; by rewrite lookup_empty|intros i j t; by rewrite lookup_empty|].
    intros i Hi. by rewrite lookup_empty.
  - unfold frames. by rewrite map_to_list_empty.
  - intros v _. left. apply He.
  - intros p Hp. rewrite Hr by done. assert (Hc : count ∅ ∅ p = 0); [|lia]. unfold count.
    assert (Hf : filter (maps ∅ ∅ p) (seqZ 0 UPN) = []); [|by rewrite Hf].
    apply elem_of_nil_inv. intros v [[Hv _] _]%list_elem_of_filter. by rewrite He in Hv.
  - done.
  - intros _ v e _. by rewrite lookup_empty.
Qed.
End Empty.

Lemma ex_vm_ok : vm_ok 70 (buddy_held 70) page_refof ex_vm 66 ∅ [67] (λ _, 0) [].
Proof.
  apply vm_ok_empty; [|lia| |lia].
  - eapply (ra_perm (RefAllocator := buddy_ref_allocator 70)); [apply ex_two_held|]. apply perm_swap.
  - intros p ->%list_elem_of_singleton. vm_compute. reflexivity.
Qed.

Section Thms.
Context {A : Type}.
Context (alloc_pages : Z → M A (option Z)) (free_pages : Z → Z → M A unit) (np : Z).
Context (get_ref : Z → M A Z) (set_ref : Z → Z → M A unit).
Context (held : A → list (Z * Z) → Prop) (refof : A → Z → Z).
Abbreviation vm_ok' := (vm_ok np held refof).

(** C15. page_insert either fails with -E_NO_MEM and leaves every page table as
    it was, or returns 0 with the page mapped at the address with the given
    permission, every other mapping unchanged, and the page mapped there
    before given back exactly when that was its last reference.  In both
    cases the invariant holds: a page's count is the number of entries that
    map it plus the references held elsewhere, the directory, the tables and
    the data pages are distinct pages of the allocator, and the TLB holds no
    stale entry. *)
Theorem page_insert_correct `{!RefAllocator alloc_pages free_pages get_ref set_ref np held refof}
    (s : vmem A) d T D ext R0 la p perm :
  np ≤ KMEMSIZE / PGSIZE → vm_ok' s d T D ext R0 →
  0 ≤ la < KERNBASE → p ∈ D → 0 ≤ perm < PGSIZE → ext p + 1 < 2 ^ 30 →
  let insert := page_insert alloc_pages free_pages np get_ref set_ref (kva_of d 0) p la perm in
  let v := PPN la in
  (∃ s', insert s = Ret (- E_NO_MEM, s') ∧ vm_ok' s' d T D ext R0 ∧ words s' = words s) ∨
  (∃ T' D' s', insert s = Ret (0, s') ∧ vm_ok' s' d T' D' ext R0 ∧
     (∀ v', tentry (words s') T' v' =
        if decide (v' = v) then Z.lor (Z.lor (page2pa p) PTE_P) perm else tentry (words s) T v') ∧
     D' = displaced refof s T v p D).
Proof.
  intros Hnp Hv Hla Hp Hperm Hlim. cbv zeta.
  destruct (page_insert_ok _ _ _ _ _ _ _ Hnp s d T D ext R0 la p perm Hv Hla Hp Hperm Hlim)
    as [(s' & E & Hv' & Hw & _)|(T' & s' & E & Hv' & He & _)].
  - left. by exists s'.
  - right. by exists T', (displaced refof s T (PPN la) p D), s'.
Qed.

(** C17. unmap_range on a page-aligned range of user addresses ends, removes
    every mapping of the range and none other, and gives back the pages whose
    last reference this was; the invariant is kept, the TLB included. *)
Theorem unmap_range_correct `{!RefAllocator alloc_pages free_pages get_ref set_ref np held refof}
    (s : vmem A) d T D ext R0 v ve fuel :
  np ≤ KMEMSIZE / PGSIZE → vm_ok' s d T D ext R0 →
  USER_ACCESS (v * PGSIZE) (ve * PGSIZE) = true → (Z.to_nat (ve - v) ≤ fuel)%nat →
  ∃ s' D', unmap_range alloc_pages free_pages np get_ref set_ref fuel (kva_of d 0) (v * PGSIZE) (ve * PGSIZE) s =
      Ret ((), s') ∧ vm_ok' s' d T D' ext R0 ∧
    (∀ q, q ∈ D' ↔ q ∈ D ∧ (refs s' T ext q = 0 → refs s T ext q = 0)) ∧
    ∀ u, tentry (words s') T u = if decide (v ≤ u < ve) then 0 else tentry (words s) T u.
Proof.
  intros Hnp Hv Hua Hf. pose proof Hua as Hua'. unfold USER_ACCESS, USERTOP in Hua'. rewrite !andb_true_iff, !bool_decide_eq_true in Hua'.
  unfold USERBASE, PGSIZE in Hua'. destruct (unmap_loop_ok _ _ _ _ _ _ _ Hnp fuel s d T D ext R0 v ve Hv)
    as (s' & D' & E & Hv' & Hk & _ & He); [lia|unfold UPN, UPDE; lia|done|].
  exists s', D'. split_and!; try done. unfold unmap_range. rewrite !Z.mod_mul by done. rewrite Hua. exact E.
Qed.

(** exit_range on a user range whose mappings are gone gives back exactly
    the page tables of the range and ends; the invariant is kept. *)
Theorem exit_range_correct `{!RefAllocator alloc_pages free_pages get_ref set_ref np held refof}
    (s : vmem A) d T D ext R0 i ve fuel :
  np ≤ KMEMSIZE / PGSIZE → vm_ok' s d T D ext R0 →
  USER_ACCESS (i * PTSIZE) (ve * PGSIZE) = true → ve * PGSIZE - i * PTSIZE ≤ Z.of_nat fuel * PTSIZE →
  (∀ v, i ≤ v / 1024 → (v / 1024) * PTSIZE < ve * PGSIZE → tentry (words s) T v = 0) →
  ∃ s' T', exit_range free_pages np fuel (kva_of d 0) (i * PTSIZE) (ve * PGSIZE) s = Ret ((), s') ∧
    vm_ok' s' d T' D ext R0 ∧
    (∀ j, T' !! j = if decide (i ≤ j ∧ j * PTSIZE < ve * PGSIZE) then None else T !! j) ∧
    ∀ v, tentry (words s') T' v = tentry (words s) T v.
Proof.
  intros Hnp Hv Hua Hf Hz. pose proof Hua as Hua'. unfold USER_ACCESS, USERTOP in Hua'.
  rewrite !andb_true_iff, !bool_decide_eq_true in Hua'. assert (HP : PTSIZE = 4194304) by reflexivity.
  unfold USERBASE in Hua'.
  destruct (exit_loop_ok _ _ _ _ _ _ _ Hnp fuel s d T D ext R0 i (ve * PGSIZE) Hv)
    as (s' & T' & E & Hv' & HT & _ & _ & He); [rewrite ?HP in *; unfold PGSIZE, UPDE in *; lia..|exact Hf|exact Hz|].
  exists s', T'. split_and!; try done. unfold exit_range. rewrite Z.mod_mul by done.
  replace (i * PTSIZE mod PGSIZE) with 0.
  2: { change PTSIZE with (1024 * PGSIZE). by rewrite Z.mul_assoc, Z.mod_mul. }
  rewrite Hua. rewrite ROUNDDOWN_spec by (unfold is_u32; lia). rewrite Z.div_mul by done. exact E.
Qed.
End Thms.

(** ** The theorems at the concrete memory *)
Abbreviation ex_insert := (page_insert buddy_alloc_pages buddy_free_pages 70 buddy_get_ref buddy_set_ref).
Abbreviation ex_ok := (vm_ok 70 (buddy_held 70) page_refof).
Lemma ex_np : 70 ≤ KMEMSIZE / PGSIZE.
Proof. vm_compute. discriminate. Qed.
Lemma ex_insert_val : ret_val (ex_insert (kva_of 66 0) 67 0x800000 6 ex_vm) = Some 0.
Proof. vm_compute. reflexivity. Qed.

Lemma page_insert_correct_witness : ∃ T' D' s',
  ex_insert (kva_of 66 0) 67 0x800000 6 ex_vm = Ret (0, s') ∧ ex_ok s' 66 T' D' (λ _, 0) [] ∧
  tentry (words s') T' 0x800 = 67 * PGSIZE + 7.
Proof.
  destruct (page_insert_correct buddy_alloc_pages buddy_free_pages 70 buddy_get_ref buddy_set_ref (buddy_held 70)
    page_refof ex_vm 66 ∅ [67] (λ _, 0) [] 0x800000 67 6 ex_np ex_vm_ok)
    as [(s' & E & _)|(T' & D' & s' & E & Hv & He & _)].
  - unfold KERNBASE. lia.
  - by left.
  - unfold PGSIZE. lia.
  - lia.
  - apply ret_val_Ret in E. rewrite ex_insert_val in E. discriminate E.
  - exists T', D', s'. split; [exact E|]. split; [exact Hv|]. rewrite He. reflexivity.
Defined.

Lemma ex_mapped : ∃ T D s, ex_ok s 66 T D (λ _, 0) [] ∧ tentry (words s) T 0x800 = 67 * PGSIZE + 7.
Proof.
  destruct (page_insert_ok buddy_alloc_pages buddy_free_pages 70 buddy_get_ref buddy_set_ref (buddy_held 70)
    page_refof ex_np ex_vm 66 ∅ [67] (λ _, 0) [] 0x800000 67 6 ex_vm_ok)
    as [(s' & E & _)|(T' & s' & E & Hv & He & _)]; [unfold KERNBASE; lia|by left|unfold PGSIZE; lia|lia|..].
  - apply ret_val_Ret in E. rewrite ex_insert_val in E. discriminate E.
  - eexists T', _, s'. split; [exact Hv|]. rewrite He. reflexivity.
Qed.

Lemma unmap_range_correct_witness : ∃ s T s', tentry (words s) T 0x800 = 67 * PGSIZE + 7 ∧
  unmap_range buddy_alloc_pages buddy_free_pages 70 buddy_get_ref buddy_set_ref 512 (kva_of 66 0)
    (0x700 * PGSIZE) (0x900 * PGSIZE) s = Ret ((), s') ∧ tentry (words s') T 0x800 = 0.
Proof.
  destruct ex_mapped as (T & D & s & Hv & Hm). exists s, T.
  destruct (unmap_range_correct buddy_alloc_pages buddy_free_pages 70 buddy_get_ref buddy_set_ref (buddy_held 70)
    page_refof s 66 T D (λ _, 0) [] 0x700 0x900 512 ex_np Hv) as (s' & D' & E & _ & _ & He); [reflexivity|lia|].
  exists s'. split; [exact Hm|]. split; [exact E|]. rewrite He. reflexivity.
Defined.

(** The directory after its only mapping is removed still has a page table. *)
Lemma ex_unmapped : ∃ T D s, ex_ok s 66 T D (λ _, 0) [] ∧ T !! 2 ≠ None ∧ ∀ v, 1 ≤ v / 1024 → tentry (words s) T v = 0.
Proof.
  destruct ex_mapped as (T & D & s & Hv & Hm).
  destruct (unmap_loop_ok buddy_alloc_pages buddy_free_pages 70 buddy_get_ref buddy_set_ref (buddy_held 70)
    page_refof ex_np (Z.to_nat (UPN - 0x400)) s 66 T D (λ _, 0) [] 0x400 UPN Hv) as (s' & D' & _ & Hv' & _ & _ & He);
    [unfold UPN, UPDE; lia|lia|lia|].
  exists T, D', s'. split; [done|]. split.
  - intros HT. unfold tentry in Hm. change (0x800 / 1024) with 2 in Hm. by rewrite HT in Hm.
  - intros v Hv1. rewrite He. destruct (decide _) as [|Hn]; [done|].
    assert (Hd : 1024 ≤ v) by (pose proof (Z.div_mod v 1024 ltac:(lia)); pose proof (mod1024 v); lia).
    unfold tentry. destruct (T !! (v / 1024)) as [t|] eqn:Et; [|done].
    destruct (pd_range _ _ _ _ (vo_pgd _ _ _ _ _ _ _ _ _ Hv) _ _ Et) as (Hr & _). unfold UPN, UPDE in *.
    pose proof (Z.div_mod v 1024 ltac:(lia)); pose proof (mod1024 v); lia.
Qed.

Lemma exit_range_correct_witness : ∃ s (T : gmap Z Z) s' (T' : gmap Z Z) D, T !! 2 ≠ None ∧
  exit_range buddy_free_pages 70 703 (kva_of 66 0) (1 * PTSIZE) (0xB0000 * PGSIZE) s = Ret ((), s') ∧
  ex_ok s' 66 T' D (λ _, 0) [] ∧ T' !! 2 = None.
Proof.
  destruct ex_unmapped as (T & D & s & Hv & HT & Hz).
  destruct (exit_range_correct buddy_alloc_pages buddy_free_pages 70 buddy_get_ref buddy_set_ref (buddy_held 70)
    page_refof s 66 T D (λ _, 0) [] 1 0xB0000 703 ex_np Hv) as (s' & T' & E & Hv' & HT' & _).
  - reflexivity.
  - unfold PGSIZE. change PTSIZE with 4194304. lia.
  - intros v Hv1 _. apply Hz. exact Hv1.
  - exists s, T, s', T', D. split; [exact HT|]. split; [exact E|]. split; [exact Hv'|]. rewrite HT'. reflexivity.
Defined.

(** ** get_pgtable_items *)
Section Items.
Context (table : Z → Z) (right : Z).
Abbreviation present i := (Z.land (table i) PTE_P ≠ 0).
Abbreviation user i := (Z.land (table i) PTE_USER).

Lemma skip_absent_spec fuel start :
  start ≤ right → (Z.to_nat (right - start) ≤ fuel)%nat →
  let l := skip_absent fuel table right start in
  start ≤ l ≤ right ∧ (∀ i, start ≤ i < l → ¬ present i) ∧ (l < right → present l).
Proof.
  revert start. induction fuel as [|fuel IH]; intros start Hs Hf; cbn [skip_absent].
  { split_and!; [lia|lia|lia..]. }
  destruct (bool_decide (start < right)) eqn:E1; [|apply bool_decide_eq_false in E1; split_and!; simpl; lia].
  apply bool_decide_eq_true in E1. destruct (bool_decide (Z.land _ _ = 0)) eqn:E2; simpl.
  - apply bool_decide_eq_true in E2. destruct (IH (start + 1) ltac:(lia) ltac:(lia)) as (H1 & H2 & H3).
    split_and!; [lia|lia| |done]. intros i Hi. destruct (decide (i = start)) as [->|]; [tauto|apply H2; lia].
  - apply bool_decide_eq_false in E2. split_and!; [lia|lia|lia|done].
Qed.

Lemma skip_same_spec fuel perm start :
  start ≤ right → (Z.to_nat (right - start) ≤ fuel)%nat →
  let r := skip_same fuel table right perm start in
  start ≤ r ≤ right ∧ (∀ i, start ≤ i < r → user i = perm) ∧ (r < right → user r ≠ perm).
Proof.
  revert start. induction fuel as [|fuel IH]; intros start Hs Hf; cbn [skip_same].
  { split_and!; [lia|lia|lia..]. }
  destruct (bool_decide (start < right)) eqn:E1; [|apply bool_decide_eq_false in E1; split_and!; simpl; lia].
  apply bool_decide_eq_true in E1. destruct (bool_decide (Z.land _ _ = perm)) eqn:E2; simpl.
  - apply bool_decide_eq_true in E2. destruct (IH (start + 1) ltac:(lia) ltac:(lia)) as (H1 & H2 & H3).
    split_and!; [lia|lia| |done]. intros i Hi. destruct (decide (i = start)) as [->|]; [done|apply H2; lia].
  - apply bool_decide_eq_false in E2. split_and!; [lia|lia|lia|done].
Qed.

Lemma user_present i : present i ↔ Z.land (user i) PTE_P ≠ 0.
Proof. by rewrite <-Z.land_assoc. Qed.

(** The first run at or after [start]. *)
Lemma items_spec fuel start :
  (Z.to_nat (right - start) ≤ fuel)%nat →
  match get_pgtable_items fuel right start table with
  | (perm, Some (l, r)) => start ≤ l < r ∧ r ≤ right ∧ perm ≠ 0 ∧ (∀ i, start ≤ i < l → ¬ present i) ∧
      (∀ i, l ≤ i < r → present i ∧ user i = perm) ∧ (r < right → user r ≠ perm)
  | (perm, None) => perm = 0 ∧ ∀ i, start ≤ i < right → ¬ present i
  end.
Proof.
  intros Hf. unfold get_pgtable_items. destruct (bool_decide (start >= right)) eqn:E1.
  { apply bool_decide_eq_true in E1. split; [done|lia]. }
  apply bool_decide_eq_false in E1. destruct (skip_absent_spec fuel start) as (H1 & H2 & H3); [lia|done|].
  set (l := skip_absent _ _ _ _) in *. destruct (bool_decide (l < right)) eqn:E2.
  2: { apply bool_decide_eq_false in E2. split; [done|]. intros i Hi. apply H2. lia. }
  apply bool_decide_eq_true in E2. specialize (H3 E2).
  destruct (skip_same_spec fuel (user l) (l + 1)) as (R1 & R2 & R3); [lia|lia|].
  set (r := skip_same _ _ _ _ _) in *.
  assert (Hu : ∀ i, l ≤ i < r → user i = user l).
  { intros i Hi. destruct (decide (i = l)) as [->|]; [done|apply R2; lia]. }
  split_and!; try done; [lia|lia|lia| |].
  - intros E. apply user_present in H3. by rewrite E in H3.
  - intros i Hi. rewrite user_present, (Hu i Hi). split; [|done]. by apply user_present.
Qed.

Lemma pgtable_items_spec turns fuel start :
  (Z.to_nat (right - start) ≤ turns)%nat → (Z.to_nat (right - start) ≤ fuel)%nat →
  (∀ i, start ≤ i < right → present i ↔
     ∃ l r perm, (l, r, perm) ∈ pgtable_items turns fuel right start table ∧ l ≤ i < r) ∧
  (∀ l r perm, (l, r, perm) ∈ pgtable_items turns fuel right start table →
     start ≤ l < r ∧ r ≤ right ∧ (∀ i, l ≤ i < r → user i = perm) ∧ (r < right → user r ≠ perm)) ∧
  StronglySorted (λ x y, x.1.2 ≤ y.1.1) (pgtable_items turns fuel right start table).
Proof.
  revert start fuel. induction turns as [|turns IH]; intros start fuel Ht Hf; cbn [pgtable_items].
  { split_and!; [lia|intros l r perm []%elem_of_nil|constructor]. }
  pose proof (items_spec fuel start Hf) as Hi. destruct (get_pgtable_items _ _ _ _) as [perm [[l r]|]].
  2: { destruct Hi as [_ Hi]. split_and!; [|intros ? ? ? []%elem_of_nil|constructor].
       intros i Hr. split; [intros Hp; by destruct (Hi i Hr)|]. by intros (? & ? & ? & []%elem_of_nil & _). }
  destruct Hi as (H1 & H2 & H3 & H4 & H5 & H6). rewrite bool_decide_true by done.
  destruct (IH r fuel) as (I1 & I2 & I3); [lia|lia|]. split_and!.
  - intros i Hr. destruct (decide (i < l)) as [Hl|Hl]; [|destruct (decide (i < r)) as [Hlr|Hlr]].
    + split; [intros Hp; by destruct (H4 i ltac:(lia))|].
      intros (l' & r' & p' & [Heq|Hin]%elem_of_cons & Hb); [injection Heq as -> -> ->; lia|].
      apply I2 in Hin. lia.
    + split; [|intros _; apply H5; lia]. intros _. exists l, r, perm. split; [by left|lia].
    + rewrite (I1 i) by lia. split; intros (l' & r' & p' & Hin & Hb); exists l', r', p'.
      * split; [by right|done].
      * split; [|done]. apply elem_of_cons in Hin as [Heq|]; [|done]. injection Heq as -> -> ->. lia.
  - intros l' r' p' [Heq|Hin]%elem_of_cons.
    + injection Heq as -> -> ->. split_and!; try done; [lia|lia|]. intros i Hb. by apply H5.
    + destruct (I2 _ _ _ Hin) as (J1 & J2 & J3 & J4). split_and!; try done; lia.
  - constructor; [done|]. apply Forall_forall. intros [[l' r'] p'] Hin. simpl. apply I2 in Hin. lia.
Qed.
End Items.

(** The lines of print_pgdir: listing a table from [start] to [right]
    ends; the intervals are in order, each is a longest run of one permission, and
    an entry is present exactly when an interval covers it. *)
Theorem pgtable_listing_correct (table : Z → Z) right start n :
  n = Z.to_nat (right - start) →
  let items := pgtable_items n n right start table in
  (∀ i, start ≤ i < right →
     Z.land (table i) PTE_P ≠ 0 ↔ ∃ l r perm, (l, r, perm) ∈ items ∧ l ≤ i < r) ∧
  (∀ l r perm, (l, r, perm) ∈ items → start ≤ l < r ∧ r ≤ right ∧
     (∀ i, l ≤ i < r → Z.land (table i) PTE_USER = perm) ∧ (r < right → Z.land (table r) PTE_USER ≠ perm)) ∧
  StronglySorted (λ x y, x.1.2 ≤ y.1.1) items.
Proof. intros ->. by apply pgtable_items_spec. Qed.

Lemma pgtable_listing_correct_witness :
  let table i := if bool_decide (4 ≤ i < 7) then 0x5007 else 0 in
  pgtable_items 10 10 10 0 table = [(4, 7, 7)] ∧
  StronglySorted (λ x y, x.1.2 ≤ y.1.1) (pgtable_items 10 10 10 0 table).
Proof.
  intros table. split; [vm_compute; reflexivity|].
  apply (pgtable_listing_correct table 10 0 10). reflexivity.
Defined.

(** ** page_init *)
Definition wider (maxpa : Z) (e : e820entry) : Z :=
  let end_ := u64 (e_addr e + e_size e) in
  if bool_decide (e_type e = E820_ARM) && bool_decide (maxpa < end_) && bool_decide (e_addr e < KMEMSIZE)
  then end_ else maxpa.

Lemma wider_fold memmap m e :
  m ≤ foldl wider m memmap ∧
  (e ∈ memmap → e_type e = E820_ARM → e_addr e < KMEMSIZE → u64 (e_addr e + e_size e) ≤ foldl wider m memmap).
Proof.
  revert m. induction memmap as [|x memmap IH]; intros m; cbn [foldl]; [split; [lia|by intros []%elem_of_nil]|].
  assert (Hw : m ≤ wider m x ∧ (e_type x = E820_ARM → e_addr x < KMEMSIZE → u64 (e_addr x + e_size x) ≤ wider m x)).
  { unfold wider. cbv zeta. repeat case_bool_decide; simpl; split; try done; intros; try lia; try done. }
  destruct (IH (wider m x)) as [H1 H2]. split; [lia|].
  intros [->|Hin]%elem_of_cons Ht Ha; [|by apply H2]. destruct Hw as [_ Hw]. specialize (Hw Ht Ha). lia.
Qed.

(** page_init gives the allocator, for every entry of the memory map, only
    whole pages of a usable (type 1) region, above the kernel image and the page
    array, below KMEMSIZE and below npage, so pa2page never panics there. *)
Theorem page_init_ranges memmap freemem e base n :
  e ∈ memmap → 0 ≤ e_addr e → is_u32 freemem → memmap_range freemem e = Some (base, n) →
  0 < n ∧ e_type e = E820_ARM ∧ e_addr e ≤ base * PGSIZE ∧ freemem ≤ base * PGSIZE ∧
  (base + n) * PGSIZE ≤ u64 (e_addr e + e_size e) ∧
  base + n ≤ max_pa memmap / PGSIZE ∧ max_pa memmap / PGSIZE ≤ KMEMSIZE / PGSIZE.
Proof.
  intros Hin Ha Hf. unfold memmap_range. set (end_ := u64 _).
  destruct (bool_decide (e_type e = E820_ARM)) eqn:Et; [apply bool_decide_eq_true in Et|done].
  set (b := if bool_decide (e_addr e < freemem) then freemem else e_addr e).
  set (c := if bool_decide (end_ > KMEMSIZE) then KMEMSIZE else end_).
  assert (Hb : e_addr e ≤ b ∧ freemem ≤ b) by (subst b; case_bool_decide; lia).
  assert (Hc : c ≤ end_ ∧ c ≤ KMEMSIZE) by (subst c; case_bool_decide; lia).
  destruct (bool_decide (b < c)) eqn:E1; [apply bool_decide_eq_true in E1|done]. unfold is_u32, KMEMSIZE in *.
  rewrite ROUNDUP_spec, ROUNDDOWN_spec by (unfold is_u32, PGSIZE; lia). unfold PGSIZE in *.
  destruct (bool_decide (_ < c / 4096 * 4096)) eqn:E2; [apply bool_decide_eq_true in E2|done].
  intros Heq. injection Heq as <- <-. rewrite PPN_div. change (2 ^ 12) with 4096.
  rewrite <-Z.mul_sub_distr_r, !Z.div_mul by done.
  pose proof (Z.div_mod (b + 4096 - 1) 4096 ltac:(lia)). pose proof (Z.mod_pos_bound (b + 4096 - 1) 4096 ltac:(lia)).
  pose proof (Z.div_mod c 4096 ltac:(lia)). pose proof (Z.mod_pos_bound c 4096 ltac:(lia)).
  destruct (wider_fold memmap 0 e) as [_ Hw]. specialize (Hw Hin Et ltac:(unfold KMEMSIZE; lia)).
  assert (Hm : c ≤ max_pa memmap).
  { unfold max_pa. change (foldl _ 0 memmap) with (foldl wider 0 memmap). fold end_ in Hw. unfold KMEMSIZE.
    case_bool_decide; lia. }
  assert (Hk : max_pa memmap ≤ 0x38000000).
  { unfold max_pa. change (foldl _ 0 memmap) with (foldl wider 0 memmap). unfold KMEMSIZE. case_bool_decide; lia. }
  split_and!; try done; try lia.
  - replace (_ + (_ - _)) with (c / 4096) by lia. by apply Z.div_le_mono.
  - by apply Z.div_le_mono.
Qed.

Lemma page_init_ranges_witness :
  memmap_range 0x200800 (MkE820 0x100000 0x7ee0000 1) = Some (0x201, 0x7ddf) ∧
  0x201 + 0x7ddf ≤ max_pa [MkE820 0 0x9fc00 1; MkE820 0xf0000 0x10000 2; MkE820 0x100000 0x7ee0000 1] / PGSIZE.
Proof.
  assert (E : memmap_range 0x200800 (MkE820 0x100000 0x7ee0000 1) = Some (0x201, 0x7ddf)) by (vm_compute; reflexivity).
  split; [exact E|].
  apply (page_init_ranges [MkE820 0 0x9fc00 1; MkE820 0xf0000 0x10000 2; MkE820 0x100000 0x7ee0000 1] 0x200800
           (MkE820 0x100000 0x7ee0000 1) 0x201 0x7ddf).
  - right; right; left.
  - cbn [e_addr]. lia.
  - unfold is_u32. lia.
  - exact E.
Defined.
