(* ===== verification/PmmCopy.v ===== *)
(** * copy_range: two address spaces over the same pages *)
From stdpp Require Import base gmap list fin_maps.
From Stdlib Require Import ZArith Lia.
From S2P Require Import Prelude DList Bits Printfmt Mmu Buddy BuddySpec Alloc PmmRefs PmmFresh Pmm PmmInv PmmProps PmmFault PmmThms.

(** ** The functions of pmm.c only remove translations from the TLB *)
Class Shrinks {A B} (m : M (vmem A) B) : Prop := shrinks : ∀ s r s', m s = Ret (r, s') → tlb s' ⊆ tlb s.

Section Shrinks.
Context {A : Type}.
#[export] Instance shrinks_bind {B C} (m : M (vmem A) B) (k : B → M (vmem A) C) :
  Shrinks m → (∀ b, Shrinks (k b)) → Shrinks (m ≫= k).
Proof. intros Hm Hk s r s' E. apply bind_inv in E as (b & s1 & E1 & E2). etransitivity; [by eapply Hk|by eapply Hm]. Qed.
Lemma shrinks_same {B} (m : M (vmem A) B) : (∀ s r s', m s = Ret (r, s') → tlb s' = tlb s) → Shrinks m.
Proof. intros H s r s' E. by rewrite (H s r s' E). Qed.
#[export] Instance shrinks_ret {B} (b : B) : Shrinks (A := A) (mret b).
Proof. apply shrinks_same. by intros s r s' [= <- <-]. Qed.
#[export] Instance shrinks_skip : Shrinks (A := A) skip.
Proof. apply shrinks_ret. Qed.
#[export] Instance shrinks_panic {B} : Shrinks (@panic (vmem A) B).
Proof. by intros s r s' E. Qed.
#[export] Instance shrinks_assert b : Shrinks (A := A) (assert b).
Proof. destruct b; apply _. Qed.
#[export] Instance shrinks_if {B} (b : bool) (m1 m2 : M (vmem A) B) : Shrinks m1 → Shrinks m2 → Shrinks (if b then m1 else m2).
Proof. by destruct b. Qed.
#[export] Instance shrinks_option {B C} (o : option B) (m1 : B → M (vmem A) C) m2 :
  (∀ b, Shrinks (m1 b)) → Shrinks m2 → Shrinks (match o with Some b => m1 b | None => m2 end).
Proof. by destruct o. Qed.
#[export] Instance shrinks_gets {B} (f : vmem A → B) : Shrinks (gets f).
Proof. apply shrinks_same. by intros s r s' [= <- <-]. Qed.
#[export] Instance shrinks_palloc {B} (m : M A B) : Shrinks (zoom palloc_lens m).
Proof. apply shrinks_same. intros s r s' E. unfold zoom in E. case_match; simplify_eq. by case_match; simplify_eq. Qed.
#[export] Instance shrinks_load np kva : Shrinks (A := A) (load np kva).
Proof. apply shrinks_same. intros s r s' E. unfold load in E. by case_match; simplify_eq. Qed.
#[export] Instance shrinks_store np kva x : Shrinks (A := A) (store np kva x).
Proof. apply shrinks_same. intros s r s' E. unfold store in E. by case_match; simplify_eq. Qed.
#[export] Instance shrinks_memset np kva : Shrinks (A := A) (memset_page np kva).
Proof. apply shrinks_same. intros s r s' E. unfold memset_page in E. revert E. generalize (clear_words 1024 ((kva - KERNBASE) / 4) (words s)). intros w E. by case_match; simplify_eq. Qed.
#[export] Instance shrinks_KADDR np pa : Shrinks (A := A) (KADDR np pa).
Proof. unfold KADDR. apply _. Qed.
#[export] Instance shrinks_PADDR kva : Shrinks (A := A) (PADDR kva).
Proof. unfold PADDR. apply _. Qed.
#[export] Instance shrinks_pa2page np pa : Shrinks (A := A) (pa2page np pa).
Proof. unfold pa2page. apply _. Qed.
#[export] Instance shrinks_pte2page np pte : Shrinks (A := A) (pte2page np pte).
Proof. unfold pte2page. apply _. Qed.
#[export] Instance shrinks_invlpg la : Shrinks (A := A) (invlpg la).
Proof. intros s r s' [= <- <-]. simpl. apply delete_subseteq. Qed.
#[export] Instance shrinks_invalidate pgdir la : Shrinks (A := A) (tlb_invalidate pgdir la).
Proof. unfold tlb_invalidate. apply _. Qed.

Context (alloc_pages : Z → M A (option Z)) (free_pages : Z → Z → M A unit) (np : Z).
Context (get_ref : Z → M A Z) (set_ref : Z → Z → M A unit).
#[export] Instance shrinks_get_pte pgdir la create : Shrinks (get_pte alloc_pages np set_ref pgdir la create).
Proof. unfold get_pte, alloc_page. apply _. Qed.
#[export] Instance shrinks_remove_pte pgdir la ptep : Shrinks (page_remove_pte free_pages np get_ref set_ref pgdir la ptep).
Proof. unfold page_remove_pte, page_ref_dec, free_page. apply _. Qed.
#[export] Instance shrinks_insert pgdir page la perm : Shrinks (page_insert alloc_pages free_pages np get_ref set_ref pgdir page la perm).
Proof. unfold page_insert, page_ref_inc, page_ref_dec. apply _. Qed.
End Shrinks.

(** ** Two page directories over the same data pages *)
Section Copy.
Context {A : Type} (alloc_pages : Z → M A (option Z)) (free_pages : Z → Z → M A unit) (np : Z).
Context (get_ref : Z → M A Z) (set_ref : Z → Z → M A unit).
Context (held : A → list (Z * Z) → Prop) (refof : A → Z → Z).
Context `{HA : !RefAllocator alloc_pages free_pages get_ref set_ref np held refof} (Hnp : np ≤ KMEMSIZE / PGSIZE).
Implicit Types s : vmem A.
Abbreviation vm_ok' := (vm_ok np held refof).

(** Each directory sees the mappings of the other as references from
    elsewhere, and the tables of the other as pages of others. *)
Record two_ok s d T d' T' D ext R : Prop := {
  tw_from : vm_ok' s d T D (λ p, count (words s) T' p + ext p) (singles (d' :: frames T') ++ R);
  tw_to : vm_ok' s d' T' D (λ p, count (words s) T p + ext p) (singles (d :: frames T) ++ R);
  tw_ext : ∀ p, 0 ≤ ext p < 2 ^ 29 }.

Lemma two_sym s d T d' T' D ext R : two_ok s d T d' T' D ext R → two_ok s d' T' d T D ext R.
Proof. by intros [H1 H2 H3]. Qed.

Lemma singles_app l k : singles (l ++ k) = singles l ++ singles k.
Proof. apply fmap_app. Qed.

(** The tables of one directory are not among the tables of the other. *)
Lemma tables_apart a d F d' F' D R : held a (singles (d' :: F' ++ D) ++ singles (d :: F) ++ R) →
  (d ∉ d' :: F') ∧ ∀ t, t ∈ F → t ∉ d' :: F'.
Proof using HA Hnp.
  intros Hh. pose proof (pa_nodup (PageAllocator := ra_pages) _ _ Hh) as Hnd.
  rewrite hand_singles in Hnd. apply NoDup_app in Hnd as (_ & Hx & _). rewrite hand_singles in Hx.
  split; [intros Hd|intros t Ht Hd]; apply (Hx _ ltac:(rewrite !elem_of_cons, elem_of_app in *; naive_solver)); set_solver.
Qed.

(** A change of one address space leaves the other alone. *)
Lemma two_frame s s' d T d' T' T2 D ext R :
  two_ok s d T d' T' D ext R → vm_ok' s' d' T2 D (λ p, count (words s) T p + ext p) (singles (d :: frames T) ++ R) →
  same_outside (d' :: frames T2) s s' → tlb s' ⊆ tlb s →
  two_ok s' d T d' T2 D ext R ∧ ∀ v, tentry (words s') T v = tentry (words s) T v.
Proof using HA Hnp.
  intros [Hf Ht Hx] Hv [Hc Hw] Htl. destruct (tables_apart _ _ _ _ _ _ _ (vo_held _ _ _ _ _ _ _ _ _ Hv)) as [Hd Hfr].
  assert (He : ∀ v, tentry (words s') T v = tentry (words s) T v).
  { intros v. unfold tentry. destruct (T !! (v / 1024)) as [t|] eqn:Et; [|done]. apply Hw. rewrite frame_index by apply mod1024.
    apply Hfr. by eapply elem_of_frames. }
  split; [|done]. assert (Hcnt : ∀ p, count (words s') T p = count (words s) T p) by (intros p; apply count_ext; auto).
  destruct Hf as [[P1 P2 P3 P4] _ F3 _ _ F6]. destruct Hv as [V1 V2 V3 V4 V5 V6]. split; [split|split|exact Hx].
  - split; [exact P1|exact P2|exact P3|]. intros i Hi. cbv zeta. rewrite Hw; [by apply P4|]. unfold UPDE in Hi. by rewrite frame_index by lia.
  - eapply ra_perm; [exact V2|]. rewrite !app_comm_cons, !singles_app. solve_Permutation.
  - intros v Hv. cbv zeta. rewrite He. by apply F3.
  - intros p Hp. rewrite V4, Hcnt by done. lia.
  - intros p. pose proof (count_nonneg (words s') T2 p). pose proof (count_bound (words s') T2 p). pose proof (Hx p). unfold UPN, UPDE in *. lia.
  - intros Hcr v e Hv He'. rewrite He. apply F6; [congruence|exact Hv|]. by eapply lookup_weaken.
  - exact V1.
  - exact V2.
  - exact V3.
  - intros p Hp. rewrite V4, Hcnt by done. reflexivity.
  - intros p. rewrite Hcnt. apply V5.
  - exact V6.
Qed.

(** The data pages keep their contents. *)
Definition data_kept (D : list Z) s s' : Prop := ∀ q j, q ∈ D → 0 ≤ j < 1024 → content s' q j = content s q j.
Lemma data_kept_trans D s1 s2 s3 : data_kept D s1 s2 → data_kept D s2 s3 → data_kept D s1 s3.
Proof. intros H1 H2 q j Hq Hj. by rewrite H2, H1. Qed.
Lemma outside_data s s' d T D ext R0 : vm_ok' s' d T D ext R0 → same_outside (d :: frames T) s s' → data_kept D s s'.
Proof using HA Hnp.
  intros Hv Ho q j Hq Hj. apply (content_kept _ _ _ q j Ho); [|done].
  pose proof (pa_nodup (PageAllocator := ra_pages) _ _ (vo_held _ _ _ _ _ _ _ _ _ Hv)) as Hnd.
  rewrite hand_singles in Hnd. apply NoDup_app in Hnd as (Hnd & _ & _). apply NoDup_cons in Hnd as [Hd Hnd].
  apply NoDup_app in Hnd as (_ & Hx & _). intros [->|Hf]%elem_of_cons; [apply Hd, elem_of_app; by right|by apply (Hx q Hf)].
Qed.

(** get_pte on one of the two. *)
Lemma two_create s d T d' T' D ext R la : two_ok s d T d' T' D ext R → 0 ≤ la < KERNBASE →
  (∃ s', get_pte alloc_pages np set_ref (kva_of d' 0) la true s = Ret (0, s') ∧ two_ok s' d T d' T' D ext R ∧ words s' = words s) ∨
  (∃ t T2 s', get_pte alloc_pages np set_ref (kva_of d' 0) la true s = Ret (kva_of t (PPN la mod 1024), s') ∧
     T2 !! (PPN la / 1024) = Some t ∧ two_ok s' d T d' T2 D ext R ∧ data_kept D s s' ∧
     (∀ v, tentry (words s') T2 v = tentry (words s) T' v) ∧ ∀ v, tentry (words s') T v = tentry (words s) T v).
Proof using HA Hnp.
  intros H2 Hla. destruct (get_pte_create alloc_pages free_pages np get_ref set_ref held refof Hnp s d' T' D _ _ la (tw_to _ _ _ _ _ _ _ _ H2) Hla)
    as [(s' & E & Hv & Hw & Htl & Hc)|(t & T2 & s' & E & Ht & Hv & He & Htl & Ho)]; pose proof (shrinks _ _ _ E) as Hs.
  - left. exists s'. split; [exact E|]. split; [|exact Hw]. eapply two_frame; [exact H2|exact Hv| |exact Hs].
    split; [exact Hc|]. intros i _. by rewrite Hw.
  - right. exists t, T2, s'. destruct (two_frame s s' d T d' T' T2 D ext R H2 Hv Ho Hs) as [H2' He'].
    split_and!; [exact E|exact Ht|exact H2'|by eapply outside_data|exact He|exact He'].
Qed.

(** page_insert on one of the two, of the page that is mapped there or where nothing is. *)
Lemma two_insert s d T d' T' D ext R la t p perm : two_ok s d T d' T' D ext R → 0 ≤ la < KERNBASE → T' !! (PPN la / 1024) = Some t →
  p ∈ D → 0 ≤ perm < PGSIZE → tentry (words s) T' (PPN la) = 0 ∨ tentry (words s) T' (PPN la) / PGSIZE = p →
  ∃ s', page_insert alloc_pages free_pages np get_ref set_ref (kva_of d' 0) p la perm s = Ret (0, s') ∧ two_ok s' d T d' T' D ext R ∧
    data_kept D s s' ∧ (∀ v, tentry (words s') T' v = if decide (v = PPN la) then pte_of p perm else tentry (words s) T' v) ∧
    ∀ v, tentry (words s') T v = tentry (words s) T v.
Proof using HA Hnp.
  intros H2 Hla Ht Hp Hperm Hold. pose proof (tw_to _ _ _ _ _ _ _ _ H2) as Hv0.
  assert (Hlim : count (words s) T p + ext p + 1 < 2 ^ 30).
  { pose proof (count_bound (words s) T p). pose proof (tw_ext _ _ _ _ _ _ _ _ H2 p). unfold UPN, UPDE in *. lia. }
  pose proof (vo_pgd _ _ _ _ _ _ _ _ _ Hv0) as Hpg.
  destruct (insert_found alloc_pages free_pages np get_ref set_ref held refof Hnp s s d' T' D _ _ la t p perm
    (get_pte_found alloc_pages np set_ref Hnp s d' T' la t true Hpg Hla Ht) Hv0 Hla Ht Hp Hperm Hlim) as (s' & E & Hv & He & Ho).
  assert (Hdis : displaced refof s T' (PPN la) p D = D) by (unfold displaced; by rewrite bool_decide_false by tauto).
  rewrite Hdis in Hv. assert (Ho' : same_outside (d' :: frames T') s s') by (eapply same_outside_mono; [exact Ho|by right]).
  destruct (two_frame s s' d T d' T' T' D ext R H2 Hv Ho' (shrinks _ _ _ E)) as [H2' He'].
  exists s'. split_and!; [exact E|exact H2'|by eapply outside_data|exact He|exact He'].
Qed.

(** *** copy_range *)

(** The entries of an address after it was copied: a page that is not shared
    loses the permission to write in both address spaces. *)
Definition copy_perm (share : bool) (e : Z) : Z :=
  if negb share && bool_decide (Z.land e PTE_W ≠ 0) then Z.land (Z.land e PTE_USER) (u32 (Z.lnot PTE_W)) else Z.land e PTE_USER.
Definition child_pte (share : bool) (e : Z) : Z :=
  if bool_decide (e = 0) then 0 else pte_of (e / PGSIZE) (copy_perm share e).
Definition parent_pte (share : bool) (e : Z) : Z :=
  if bool_decide (e ≠ 0) && negb share && bool_decide (Z.land e PTE_W ≠ 0) then pte_of (e / PGSIZE) (copy_perm share e) else e.

Lemma copy_perm_small share e : 0 ≤ copy_perm share e < PGSIZE.
Proof.
  assert (Hu : 0 ≤ Z.land e PTE_USER < 8).
  { change PTE_USER with (2 ^ 3 - 1). rewrite land_mask by lia. apply Z.mod_pos_bound. lia. }
  unfold copy_perm, PGSIZE. destruct (_ && _); [|lia].
  rewrite (Z.land_comm (Z.land e PTE_USER)). pose proof (Z.land_nonneg (u32 (Z.lnot PTE_W)) (Z.land e PTE_USER)).
  assert (Hle : Z.land (u32 (Z.lnot PTE_W)) (Z.land e PTE_USER) = Z.land (Z.land e (Z.land (u32 (Z.lnot PTE_W)) PTE_USER)) 7).
  { change (Z.land (u32 (Z.lnot PTE_W)) PTE_USER) with 5. change PTE_USER with 7. change (u32 (Z.lnot PTE_W)) with 0xfffffffd.
    rewrite (Z.land_comm e 7), Z.land_assoc. change (Z.land 0xfffffffd 7) with 5. rewrite <-Z.land_assoc. change (Z.land 5 7) with 5. apply Z.land_comm. }
  rewrite Hle. change 7 with (2 ^ 3 - 1). rewrite land_mask by lia. pose proof (Z.mod_pos_bound (Z.land e (Z.land (u32 (Z.lnot PTE_W)) PTE_USER)) (2 ^ 3)). lia.
Qed.

Abbreviation copy_loop' := (copy_loop alloc_pages free_pages np get_ref set_ref).

(** The page of an entry is entered in the copy. *)
Definition copy_entry (from to page start : Z) (pte : Z) (share : bool) : M (vmem A) unit :=
  perm ← (if negb share && bool_decide (Z.land pte PTE_W ≠ 0) then
            let perm := Z.land (Z.land pte PTE_USER) (u32 (Z.lnot PTE_W)) in
            page_insert alloc_pages free_pages np get_ref set_ref from page start perm;; mret perm
          else mret (Z.land pte PTE_USER));
  ret ← page_insert alloc_pages free_pages np get_ref set_ref to page start perm; assert (bool_decide (ret = 0)).
Lemma copy_entry_ok s d T d' T' D ext R la t t' share :
  let e := tentry (words s) T (PPN la) in
  two_ok s d T d' T' D ext R → 0 ≤ la < KERNBASE → T !! (PPN la / 1024) = Some t → T' !! (PPN la / 1024) = Some t' →
  e ≠ 0 → e / PGSIZE ∈ D → tentry (words s) T' (PPN la) = 0 →
  ∃ s', copy_entry (kva_of d 0) (kva_of d' 0) (e / PGSIZE) la e share s = Ret ((), s') ∧ two_ok s' d T d' T' D ext R ∧ data_kept D s s' ∧
    (∀ u, tentry (words s') T u = if decide (u = PPN la) then parent_pte share e else tentry (words s) T u) ∧
    (∀ u, tentry (words s') T' u = if decide (u = PPN la) then child_pte share e else tentry (words s) T' u).
Proof using HA Hnp.
  intros e H2 Hla Ht Ht' He Hin H0. pose proof (copy_perm_small share e) as Hperm.
  assert (H1 : ∃ s1, (if negb share && bool_decide (Z.land e PTE_W ≠ 0) then
      let perm := Z.land (Z.land e PTE_USER) (u32 (Z.lnot PTE_W)) in
      page_insert alloc_pages free_pages np get_ref set_ref (kva_of d 0) (e / PGSIZE) la perm;; mret perm
    else mret (Z.land e PTE_USER)) s = Ret (copy_perm share e, s1) ∧ two_ok s1 d T d' T' D ext R ∧ data_kept D s s1 ∧
    (∀ u, tentry (words s1) T u = if decide (u = PPN la) then parent_pte share e else tentry (words s) T u) ∧
    (∀ u, tentry (words s1) T' u = tentry (words s) T' u)).
  { unfold parent_pte, copy_perm in *. rewrite (bool_decide_true (e ≠ 0)) by done. cbn [andb] in *. destruct (negb share && _).
    - destruct (two_insert s d' T' d T D ext R la t (e / PGSIZE) _ (two_sym _ _ _ _ _ _ _ _ H2) Hla Ht Hin Hperm ltac:(by right))
        as (s1 & E1 & H2' & Hd & He1 & He1'). exists s1. cbv zeta. rewrite (bind_Ret _ _ _ _ _ E1).
      split_and!; [reflexivity|by apply two_sym|exact Hd|exact He1|exact He1'].
    - exists s. split_and!; [reflexivity|exact H2|by intros ?? _ _| |reflexivity]. intros u. by destruct (decide _) as [->|]. }
  destruct H1 as (s1 & E1 & H21 & Hd1 & He1 & He1'). unfold copy_entry. rewrite (bind_Ret _ _ _ _ _ E1).
  destruct (two_insert s1 d T d' T' D ext R la t' (e / PGSIZE) (copy_perm share e) H21 Hla Ht' Hin Hperm) as (s' & E & H2' & Hd & He2 & He2').
  { left. by rewrite He1'. }
  rewrite (bind_Ret _ _ _ _ _ E). rewrite bool_decide_true by done. exists s'. split_and!; [reflexivity|exact H2'|by eapply data_kept_trans| |].
  - intros u. by rewrite He2', He1.
  - intros u. rewrite He2, He1'. unfold child_pte. by rewrite bool_decide_false.
Qed.

(** One turn at page [v]: there is no memory for a table, or it goes on at [v']. *)
Lemma copy_step s d T d' T' D ext R v share :
  two_ok s d T d' T' D ext R → 0 ≤ v < UPN → tentry (words s) T' v = 0 →
  (∃ s', (∀ fuel end_, copy_loop' (S fuel) (kva_of d' 0) (kva_of d 0) (v * PGSIZE) end_ share s = Ret (- E_NO_MEM, s')) ∧
     two_ok s' d T d' T' D ext R ∧ words s' = words s) ∨
  (∃ v' s' T2, v < v' ∧ v' ≤ UPN ∧
     (∀ fuel end_, copy_loop' (S fuel) (kva_of d' 0) (kva_of d 0) (v * PGSIZE) end_ share s =
       (if bool_decide (v' * PGSIZE ≠ 0 ∧ v' * PGSIZE < end_)
        then copy_loop' fuel (kva_of d' 0) (kva_of d 0) (v' * PGSIZE) end_ share else mret 0) s') ∧
     two_ok s' d T d' T2 D ext R ∧ data_kept D s s' ∧
     (∀ u, tentry (words s') T u = if decide (u = v) then parent_pte share (tentry (words s) T v) else tentry (words s) T u) ∧
     (∀ u, tentry (words s') T2 u = if decide (u = v) then child_pte share (tentry (words s) T v) else tentry (words s) T' u) ∧
     (∀ u, v < u < v' → tentry (words s) T u = 0)).
Proof using HA Hnp.
  intros H2 Hr H0. destruct (page_number v Hr) as [Hla Hppn]. pose proof (tw_from _ _ _ _ _ _ _ _ H2) as Hv.
  pose proof (vo_pgd _ _ _ _ _ _ _ _ _ Hv) as Hp. pose proof (mod1024 v) as Hm.
  assert (Hnext : u32 (v * PGSIZE + PGSIZE) = (v + 1) * PGSIZE).
  { unfold UPN, UPDE, PGSIZE in *. rewrite u32_small by (unfold is_u32; lia). lia. }
  destruct (T !! (v / 1024)) as [t|] eqn:Et.
  2: { right. exists ((v / 1024 + 1) * 1024), s, T'. pose proof (Z.div_mod v 1024 ltac:(lia)).
    assert (Hz : ∀ u, v ≤ u < (v / 1024 + 1) * 1024 → tentry (words s) T u = 0) by (intros u Hu; by apply (no_table_zero _ _ v)).
    assert (Hi : v / 1024 < UPDE) by (unfold UPN in Hr; apply Z.div_lt_upper_bound; lia).
    split_and!; [lia|unfold UPN, UPDE in *; lia| |exact H2|by intros ?? _ _|..].
    - intros fuel end_. cbn [copy_loop].
      rewrite (bind_Ret _ _ _ _ _ (get_pte_none alloc_pages np set_ref s d T (v * PGSIZE) Hp Hla ltac:(by rewrite Hppn))).
      rewrite (bool_decide_true (0 = 0)) by done. by rewrite next_table.
    - intros u. rewrite (Hz v) by lia. destruct (decide _) as [->|]; [apply Hz; lia|reflexivity].
    - intros u. rewrite (Hz v) by lia. by destruct (decide _) as [->|].
    - intros u Hu. apply Hz. lia. }
  destruct (pd_range _ _ _ _ Hp _ _ Et) as (_ & Htr & _).
  assert (Eg : get_pte alloc_pages np set_ref (kva_of d 0) (v * PGSIZE) false s = Ret (kva_of t (v mod 1024), s)).
  { rewrite <-Hppn at 2. apply (get_pte_found alloc_pages np set_ref Hnp s d T); [done..|by rewrite Hppn]. }
  assert (El : ∀ s', load np (kva_of t (v mod 1024)) s' = Ret (tentry (words s') T v, s')).
  { intros s'. rewrite (load_run np s' t _ Htr Hm). unfold tentry. by rewrite Et. }
  assert (Hn0 : ∀ t, 0 ≤ t → kva_of t (v mod 1024) ≠ 0) by (intros; unfold kva_of, KERNBASE, PGSIZE; lia).
  set (e := tentry (words s) T v). destruct (decide (e = 0)) as [He|He].
  - right. exists (v + 1), s, T'. split_and!; [lia|lia| |exact H2|by intros ?? _ _|..|intros u Hu; lia].
    + intros fuel end_. cbn [copy_loop]. rewrite (bind_Ret _ _ _ _ _ Eg). rewrite (bool_decide_false (_ = 0)) by (apply Hn0; lia).
      rewrite (bind_Ret _ _ _ _ _ (El s)). fold e. rewrite (bool_decide_false (_ ≠ 0)) by tauto. by rewrite Hnext.
    + intros u. rewrite He. by destruct (decide _) as [->|].
    + intros u. rewrite He. by destruct (decide _) as [->|].
  - destruct (vo_data _ _ _ _ _ _ _ _ _ Hv v Hr) as [?|(Hodd & Hu32 & Hin)]; [done|]. fold e in Hodd, Hu32, Hin.
    destruct (in_hand alloc_pages free_pages np get_ref set_ref held refof Hnp s d T D _ _ _ Hv Hin) as [_ Hpr].
    destruct (two_create s d T d' T' D ext R (v * PGSIZE) H2 Hla) as [(s' & E & H2' & W')|(t' & T2 & s1 & E & Ht' & H21 & Hd1 & He1 & He1')];
      [left|right; rewrite Hppn in E, Ht'].
    + exists s'. split; [|by split]. intros fuel end_. cbn [copy_loop]. rewrite (bind_Ret _ _ _ _ _ Eg).
      rewrite (bool_decide_false (_ = 0)) by (apply Hn0; lia). rewrite (bind_Ret _ _ _ _ _ (El s)). fold e. rewrite (bool_decide_true (_ ≠ 0)) by done.
      rewrite (bind_Ret _ _ _ _ _ E). by rewrite (bool_decide_true (0 = 0)) by done.
    + destruct (pd_range _ _ _ _ (vo_pgd _ _ _ _ _ _ _ _ _ (tw_to _ _ _ _ _ _ _ _ H21)) _ _ Ht') as (_ & Htr' & _).
      destruct (copy_entry_ok s1 d T d' T2 D ext R (v * PGSIZE) t t' share H21 Hla) as (s' & Ec & H2' & Hd & Hf & Hc);
        rewrite ?Hppn, ?He1', ?He1 in *; [exact Et|exact Ht'|exact He|exact Hin|exact H0|].
      exists (v + 1), s', T2. split_and!; [lia|lia| |exact H2'|by eapply data_kept_trans| | |intros u Hu; lia].
      * intros fuel end_. cbn [copy_loop]. rewrite (bind_Ret _ _ _ _ _ Eg). rewrite (bool_decide_false (_ = 0)) by (apply Hn0; lia).
        rewrite (bind_Ret _ _ _ _ _ (El s)). fold e. rewrite (bool_decide_true (e ≠ 0)) by done.
        rewrite (bind_Ret _ _ _ _ _ E). rewrite (bool_decide_false (_ = 0)) by (apply Hn0; lia).
        rewrite (bind_Ret _ _ _ _ _ (El s1)), He1'. fold e.
        assert (El' : load np (kva_of t' (v mod 1024)) s1 = Ret (0, s1)).
        { rewrite (load_run np s1 t' _ Htr' Hm). rewrite <-H0, <-(He1 v). unfold tentry. by rewrite Ht'. }
        rewrite (bind_Ret _ _ _ _ _ El'). rewrite bind_assert by (by rewrite !bool_decide_true by done).
        rewrite (bool_decide_true (Z.land e PTE_P ≠ 0)) by (rewrite present_spec; lia). cbv zeta. rewrite bind_assoc.
        rewrite (bind_Ret _ _ _ _ _ (pte2page_run alloc_pages free_pages np get_ref set_ref held refof Hnp s1 e Hodd Hu32 Hpr)).
        unfold copy_entry in Ec. cbv zeta in Ec. rewrite (bind_Ret _ _ _ _ _ Ec). by rewrite Hnext.
      * intros u. rewrite Hf, He1'. done.
      * intros u. rewrite Hc, He1. done.
Qed.

Lemma parent_none share : parent_pte share 0 = 0.
Proof. reflexivity. Qed.
Lemma child_none share : child_pte share 0 = 0.
Proof. reflexivity. Qed.

(** The pages from [v] up to [m] are copied. *)
Definition copied (share : bool) s s' T T' T2 (v m : Z) : Prop := ∀ u,
  tentry (words s') T u = (if decide (v ≤ u < m) then parent_pte share (tentry (words s) T u) else tentry (words s) T u) ∧
  tentry (words s') T2 u = (if decide (v ≤ u < m) then child_pte share (tentry (words s) T u) else tentry (words s) T' u).

(** A turn at [v], empty entries up to [v'], and the rest. *)
Lemma copied_step share s s1 s' T T' T1 T2 v v' m ve :
  (∀ u, tentry (words s1) T u = if decide (u = v) then parent_pte share (tentry (words s) T v) else tentry (words s) T u) →
  (∀ u, tentry (words s1) T1 u = if decide (u = v) then child_pte share (tentry (words s) T v) else tentry (words s) T' u) →
  (∀ u, v < u < v' → tentry (words s) T u = 0) → (∀ u, v ≤ u < ve → tentry (words s) T' u = 0) →
  v < v' → v < m ≤ ve → (v' ≤ m → copied share s1 s' T T1 T2 v' m) → (m < v' → s' = s1 ∧ T2 = T1) →
  copied share s s' T T' T2 v m.
Proof.
  intros H1 H2 Hz H0 Hlt Hm Hc Hs u. destruct (decide (v' ≤ m)) as [Hle|Hgt].
  - destruct (Hc Hle u) as [-> ->]. rewrite H1, H2. destruct (decide (u = v)) as [->|Hne].
    + by rewrite !(decide_False (P := v' ≤ v < m)), !(decide_True (P := v ≤ v < m)) by lia.
    + destruct (decide (v ≤ u < m)), (decide (v' ≤ u < m)); try lia; try done. rewrite Hz, H0 by lia. by rewrite parent_none, child_none.
  - destruct (Hs ltac:(lia)) as [-> ->]. rewrite H1, H2. destruct (decide (u = v)) as [->|Hne]; [by rewrite !decide_True by lia|].
    destruct (decide (v ≤ u < m)); [|done]. rewrite Hz, H0 by lia. by rewrite parent_none, child_none.
Qed.

Lemma copy_loop_ok fuel s d T d' T' D ext R v ve share :
  two_ok s d T d' T' D ext R → 0 ≤ v < ve → ve ≤ UPN → (Z.to_nat (ve - v) ≤ fuel)%nat →
  (∀ u, v ≤ u < ve → tentry (words s) T' u = 0) →
  ∃ r s' T2 m, copy_loop' fuel (kva_of d' 0) (kva_of d 0) (v * PGSIZE) (ve * PGSIZE) share s = Ret (r, s') ∧
    two_ok s' d T d' T2 D ext R ∧ data_kept D s s' ∧ copied share s s' T T' T2 v m ∧ v ≤ m ≤ ve ∧
    (r = 0 ∧ m = ve ∨ r = - E_NO_MEM ∧ m < ve).
Proof using HA Hnp.
  revert s T' v. induction fuel as [|fuel IH]; intros s T' v H2 Hr Hve Hf H0; [lia|].
  destruct (copy_step s d T d' T' D ext R v share H2 ltac:(lia) ltac:(apply H0; lia))
    as [(s' & E & H2' & W')|(v' & s1 & T1 & L1 & L2 & E & H21 & Hd1 & Hf1 & Hc1 & Hz)]; rewrite E.
  { exists (- E_NO_MEM), s', T', v. split_and!; [done|done|..|lia|lia|right; split; [done|lia]].
    - intros q j _ _. unfold content. by rewrite W'.
    - intros u. rewrite W'. by rewrite !decide_False by lia. }
  case_bool_decide as Hb.
  - assert (Hlt : v' < ve) by (unfold PGSIZE in Hb; lia).
    destruct (IH s1 T1 v' H21 ltac:(lia) Hve ltac:(lia)) as (r & s' & T2 & m & E2 & H2' & Hd2 & Hcp & Hm & Hres).
    { intros u Hu. rewrite Hc1, decide_False by lia. apply H0. lia. }
    exists r, s', T2, m. split_and!; [exact E2|exact H2'|by eapply data_kept_trans| |lia|lia|exact Hres].
    apply (copied_step share s s1 s' T T' T1 T2 v v' m ve); try done; lia.
  - assert (Hge : ve ≤ v') by (unfold PGSIZE in Hb; lia). exists 0, s1, T1, ve.
    split_and!; [done|done|done| |lia|lia|by left]. apply (copied_step share s s1 s1 T T' T1 T1 v v' ve ve); try done; try lia.
    intros Hle u. by rewrite !decide_False by lia.
Qed.
End Copy.

(** The permission to write. *)
Lemma pte_write p perm : 0 ≤ p < 2 ^ 20 → Z.land (pte_of p perm) PTE_W = Z.land perm PTE_W.
Proof.
  intros Hp. unfold pte_of. rewrite page2pa_small by done. rewrite !Z.land_lor_distr_l. change (Z.land PTE_P PTE_W) with 0.
  replace (p * PGSIZE) with (Z.shiftl p 12) by (rewrite Z.shiftl_mul_pow2 by lia; reflexivity).
  assert (H0 : Z.land (Z.shiftl p 12) PTE_W = 0); [|by rewrite H0].
  apply Z.bits_inj'. intros n Hn. rewrite Z.land_spec, Z.bits_0. change PTE_W with (2 ^ 1). rewrite Z.pow2_bits_eqb by lia.
  destruct (Z.eqb_spec 1 n) as [<-|]; [|apply andb_false_r]. by rewrite Z.shiftl_spec_low by lia.
Qed.
Lemma copy_perm_write share e : Z.land (copy_perm share e) PTE_W = if share then Z.land e PTE_W else 0.
Proof.
  assert (Hu : Z.land (Z.land e PTE_USER) PTE_W = Z.land e PTE_W) by (rewrite <-Z.land_assoc; reflexivity).
  unfold copy_perm. destruct share; cbn [negb andb]; [exact Hu|]. case_bool_decide as Hw.
  - rewrite <-Z.land_assoc. change (Z.land (u32 (Z.lnot PTE_W)) PTE_W) with 0. apply Z.land_0_r.
  - rewrite Hu. lia.
Qed.

Section Thms.
Context {A : Type} (alloc_pages : Z → M A (option Z)) (free_pages : Z → Z → M A unit) (np : Z).
Context (get_ref : Z → M A Z) (set_ref : Z → Z → M A unit).
Context (held : A → list (Z * Z) → Prop) (refof : A → Z → Z).
Abbreviation two_ok' := (two_ok np held refof).

(** The entries of the two address spaces for an address mapped by [e]. *)
Definition shared_page (share : bool) (e e1 e2 : Z) : Prop :=
  e1 / PGSIZE = e / PGSIZE ∧ e2 / PGSIZE = e / PGSIZE ∧ e2 = pte_of (e / PGSIZE) (copy_perm share e) ∧
  if share then e1 = e ∧ Z.land e2 PTE_W = Z.land e PTE_W else Z.land e1 PTE_W = 0 ∧ Z.land e2 PTE_W = 0.
Lemma shared_ptes share e : e ≠ 0 → 0 ≤ e / PGSIZE < 2 ^ 20 → shared_page share e (parent_pte share e) (child_pte share e).
Proof.
  intros He Hp. pose proof (copy_perm_small share e) as Hperm. destruct (pte_value (e / PGSIZE) (copy_perm share e) Hp Hperm) as (Hv & _).
  fold (pte_of (e / PGSIZE) (copy_perm share e)) in Hv. unfold shared_page, parent_pte, child_pte.
  rewrite (bool_decide_false (e = 0)), (bool_decide_true (e ≠ 0)) by done. cbn [andb].
  assert (Hw : Z.land (pte_of (e / PGSIZE) (copy_perm share e)) PTE_W = if share then Z.land e PTE_W else 0) by (by rewrite pte_write, copy_perm_write).
  destruct share; cbn [negb andb]; [by split_and!|]. case_bool_decide as Hew; split_and!; done || lia.
Qed.

(** C11. copy_range over a page-aligned range of user addresses at which the
    copy has no pages.  It ends; it stops with -E_NO_MEM at the first page for
    which there is no memory for a page table, else it returns 0.  Below the
    page at which it stopped both address spaces map the same pages, and
    without [share] neither may write to them any more (copy on write); from
    there on and outside the range no entry changes.  No page changes its
    contents, and the invariant of both address spaces holds: the count of a
    page is the number of entries that map it in either plus the references
    held elsewhere, the tables are distinct, and the TLB holds no stale entry. *)
Theorem copy_range_correct `{!RefAllocator alloc_pages free_pages get_ref set_ref np held refof}
    (s : vmem A) d T d' T' D ext R a b share fuel :
  np ≤ KMEMSIZE / PGSIZE → two_ok' s d T d' T' D ext R →
  USER_ACCESS (a * PGSIZE) (b * PGSIZE) = true → (Z.to_nat (b - a) ≤ fuel)%nat →
  (∀ u, a ≤ u < b → tentry (words s) T' u = 0) →
  ∃ r s' T2 m, copy_range alloc_pages free_pages np get_ref set_ref fuel (kva_of d' 0) (kva_of d 0)
      (a * PGSIZE) (b * PGSIZE) share s = Ret (r, s') ∧
    two_ok' s' d T d' T2 D ext R ∧ data_kept D s s' ∧ a ≤ m ≤ b ∧ (r = 0 ∧ m = b ∨ r = - E_NO_MEM ∧ m < b) ∧
    ∀ u, let e := tentry (words s) T u in let e1 := tentry (words s') T u in let e2 := tentry (words s') T2 u in
      if decide (a ≤ u < m ∧ e ≠ 0) then shared_page share e e1 e2 else e1 = e ∧ e2 = tentry (words s) T' u.
Proof.
  intros Hnp H2 Hua Hf H0. pose proof Hua as Hr. unfold USER_ACCESS, USERTOP in Hr. rewrite !andb_true_iff, !bool_decide_eq_true in Hr.
  unfold USERBASE, PGSIZE in Hr. destruct (copy_loop_ok alloc_pages free_pages np get_ref set_ref held refof Hnp fuel s d T d' T' D ext R a b share H2)
    as (r & s' & T2 & m & E & H2' & Hd & Hc & Hm & Hres); [lia|unfold UPN, UPDE; lia|done|done|].
  exists r, s', T2, m. split_and!; try done; try lia.
  - unfold copy_range. rewrite !Z.mod_mul by done. rewrite Hua. exact E.
  - intros u e e1 e2. destruct (Hc u) as [Hu1 Hu2]. fold e e1 in Hu1. fold e e2 in Hu2. pose proof (np_bound np Hnp).
    destruct (decide (a ≤ u < m ∧ e ≠ 0)) as [[Hu He]|Hn].
    + rewrite decide_True in Hu1, Hu2 by done. rewrite Hu1, Hu2. apply shared_ptes; [done|].
      pose proof (tw_from _ _ _ _ _ _ _ _ _ _ _ H2) as Hv. destruct (vo_data _ _ _ _ _ _ _ _ _ Hv u ltac:(unfold UPN, UPDE; lia)) as [?|(_ & _ & Hin)]; [done|].
      destruct (in_hand alloc_pages free_pages np get_ref set_ref held refof Hnp s d T D _ _ _ Hv Hin) as [_ Hpr]. fold e in Hpr. lia.
    + destruct (decide (a ≤ u < m)) as [Hu|Hu]; [|done]. destruct (decide (e = 0)) as [Hz|]; [|by destruct Hn].
      rewrite Hz in Hu1, Hu2. rewrite parent_none in Hu1. rewrite child_none in Hu2. split; [congruence|]. rewrite Hu2, H0 by lia. done.
Qed.
End Thms.

(** ** Page 67 mapped in one of two address spaces *)
Definition ex_three : pmm := ex_step ex_two (buddy_alloc_pages 1 ex_two).
Definition ex_page3 : Z := match buddy_alloc_pages 1 ex_two with Ret (Some p, _) => p | _ => 0 end.
Definition ex_vm_two : vmem pmm := MkVmem pmm ∅ (66 * PGSIZE) ∅ ex_three.
Lemma ex_three_held : buddy_held 70 ex_three [(ex_page3, 1); (67, 1); (66, 1)].
Proof. unfold ex_three. eapply alloc_held; [apply ex_two_held|]. apply ex_step_ok. vm_compute. reflexivity. Qed.
Lemma ex_two_spaces : two_ok 70 (buddy_held 70) page_refof ex_vm_two 66 ∅ ex_page3 ∅ [67] (λ _, 0) [].
Proof.
  assert (Hc : ∀ p, count ∅ ∅ p = 0).
  { intros p. unfold count. assert (Hf : filter (maps ∅ ∅ p) (seqZ 0 UPN) = []); [|by rewrite Hf].
    apply elem_of_nil_inv. intros v [[Hv _] _]%list_elem_of_filter. unfold tentry in Hv. by rewrite lookup_empty in Hv. }
  split; [apply vm_ok_empty|apply vm_ok_empty|lia].
  - eapply (ra_perm (RefAllocator := buddy_ref_allocator 70)); [apply ex_three_held|]. simpl. solve_Permutation.
  - lia.
  - intros p ->%list_elem_of_singleton. rewrite Hc. vm_compute. reflexivity.
  - intros p. rewrite Hc. lia.
  - eapply (ra_perm (RefAllocator := buddy_ref_allocator 70)); [apply ex_three_held|]. simpl. solve_Permutation.
  - vm_compute. split; [discriminate|reflexivity].
  - intros p ->%list_elem_of_singleton. rewrite Hc. vm_compute. reflexivity.
  - intros p. rewrite Hc. lia.
Qed.
Lemma ex_two_mapped : ∃ s T, two_ok 70 (buddy_held 70) page_refof s 66 T ex_page3 ∅ [67] (λ _, 0) [] ∧ tentry (words s) T 0x800 = 67 * PGSIZE + 7.
Proof.
  pose proof (two_sym _ _ _ _ _ _ _ _ _ _ _ ex_two_spaces) as H2.
  destruct (two_create buddy_alloc_pages buddy_free_pages 70 buddy_get_ref buddy_set_ref (buddy_held 70) page_refof ex_np ex_vm_two
    ex_page3 ∅ 66 ∅ [67] (λ _, 0) [] 0x800000 H2) as [(s & E & _)|(t & T & s & E & Ht & H2' & _ & He & _)]; [unfold KERNBASE; lia|..].
  - exfalso. assert (Hv : match get_pte buddy_alloc_pages 70 buddy_set_ref (kva_of 66 0) 0x800000 true ex_vm_two with
      | Ret (p, _) => bool_decide (p = 0) | _ => true end = false) by (vm_compute; reflexivity).
    rewrite E in Hv. discriminate Hv.
  - destruct (two_insert buddy_alloc_pages buddy_free_pages 70 buddy_get_ref buddy_set_ref (buddy_held 70) page_refof ex_np s
      ex_page3 ∅ 66 T [67] (λ _, 0) [] 0x800000 t 67 6 H2') as (s' & _ & H3 & _ & He' & _); [unfold KERNBASE; lia|exact Ht|by left|unfold PGSIZE; lia| |].
    + left. rewrite He. unfold tentry. by rewrite lookup_empty.
    + exists s', T. split; [by apply two_sym|]. change 0x800 with (PPN 0x800000). rewrite He', decide_True by done. reflexivity.
Qed.

Lemma copy_range_correct_witness : ∃ s T r s' T2 m, tentry (words s) T 0x800 = 67 * PGSIZE + 7 ∧
  copy_range buddy_alloc_pages buddy_free_pages 70 buddy_get_ref buddy_set_ref 16 (kva_of ex_page3 0) (kva_of 66 0)
    (0x7f8 * PGSIZE) (0x808 * PGSIZE) false s = Ret (r, s') ∧
  (r = - E_NO_MEM ∨ shared_page false (67 * PGSIZE + 7) (tentry (words s') T 0x800) (tentry (words s') T2 0x800)) ∧
  0x7f8 ≤ m ≤ 0x808 ∧ content s' 67 5 = content s 67 5.
Proof.
  destruct ex_two_mapped as (s & T & H2 & He). exists s, T.
  destruct (copy_range_correct buddy_alloc_pages buddy_free_pages 70 buddy_get_ref buddy_set_ref (buddy_held 70) page_refof
    s 66 T ex_page3 ∅ [67] (λ _, 0) [] 0x7f8 0x808 false 16 ex_np H2) as (r & s' & T2 & m & E & _ & Hd & Hm & Hres & Hall).
  - reflexivity.
  - lia.
  - intros u _. unfold tentry. rewrite lookup_empty. reflexivity.
  - exists r, s', T2, m. split; [exact He|]. split; [exact E|]. split; [|split; [exact Hm|apply Hd; [by left|lia]]].
    destruct Hres as [[-> ->]|[-> _]]; [right|left; reflexivity]. specialize (Hall 0x800). cbv zeta in Hall. rewrite He in Hall.
    rewrite decide_True in Hall by (split; [lia|discriminate]). exact Hall.
Defined.
