(* ===== verification/Shmem.v ===== *)
(** * kern/mm/shmem.c: shared memory objects

    A shared memory object is a list of shmn nodes, each with a page of page
    table entries.  The nodes and objects are heaps of structures; the pages
    of entries are words of physical memory, read and written through the
    kernel's addresses as in [Pmm]. *)
From stdpp Require Import base gmap list fin_maps.
From Stdlib Require Import ZArith Lia.
From S2P Require Import Prelude DList Bits Printfmt Mmu Pmm.

Record shmn_t : Type := MkShmn { sn_start : Z; sn_end : Z; sn_entry : Z }.
Record shmem_struct : Type := MkShmem {
  shmn_cache : Z; shmem_len : Z; shmem_refs : Z; shmem_lock : gmap Z Z }.

(** Addresses of list entries: shmem->shmn_list and shmn->list_link. *)
Inductive slink : Type := ShmnList (shmem : Z) | ShmnLink (shmn : Z).
#[global] Instance slink_eq_dec : EqDecision slink.
Proof. solve_decision. Defined.
#[global] Instance slink_countable : Countable slink.
Proof.
  refine (inj_countable' (λ a, match a with ShmnList x => inl x | ShmnLink p => inr p end)
            (λ s, match s with inl x => ShmnList x | inr p => ShmnLink p end) _).
  by intros [].
Defined.
Definition le2shmn (le : slink) : Z := match le with ShmnLink n => n | ShmnList _ => 0 end.

Record shms {A : Type} : Type := MkShms {
  shmns : gmap Z shmn_t;
  shmems : gmap Z shmem_struct;
  slinks : gmap slink (list_entry slink);
  svm : vmem A }.
Arguments shms : clear implicits.

(** What a fresh object holds before it is initialised. *)
Definition junk_entry {K} (k : K) : list_entry K := ListEntry k k.

Section Model.
Context {A : Type}.
Context (alloc_pages : Z → M A (option Z)) (free_pages : Z → Z → M A unit) (npage : Z).
Context (get_ref : Z → M A Z) (set_ref : Z → Z → M A unit) (PageSwap : Z → M A bool).
Context (kmalloc : Z → M A Z) (kfree : Z → M A unit).
Abbreviation SM := (shms A).

Definition svm_lens : lens SM (vmem A) := Lens svm (λ v s, MkShms A (shmns s) (shmems s) (slinks s) v).
Definition slinks_lens : lens SM (gmap slink (list_entry slink)) :=
  Lens slinks (λ l s, MkShms A (shmns s) (shmems s) l (svm s)).
Definition upd_shmns (f : gmap Z shmn_t → gmap Z shmn_t) (s : SM) : SM :=
  MkShms A (f (shmns s)) (shmems s) (slinks s) (svm s).
Definition upd_shmems (f : gmap Z shmem_struct → gmap Z shmem_struct) (s : SM) : SM :=
  MkShms A (shmns s) (f (shmems s)) (slinks s) (svm s).
Definition upd_slinks (f : gmap slink (list_entry slink) → gmap slink (list_entry slink)) (s : SM) : SM :=
  MkShms A (shmns s) (shmems s) (f (slinks s)) (svm s).

Definition vm {B} (m : M (vmem A) B) : M SM B := zoom svm_lens m.
Definition on_alloc {B} (m : M A B) : M SM B := zoom svm_lens (zoom palloc_lens m).
Definition sl {B} (m : M (gmap slink (list_entry slink)) B) : M SM B := zoom slinks_lens m.
Definition get_shmn (p : Z) : M SM shmn_t := λ s, match shmns s !! p with Some n => Ret (n, s) | None => Fault end.
Definition get_shmem (p : Z) : M SM shmem_struct := λ s,
  match shmems s !! p with Some n => Ret (n, s) | None => Fault end.
Definition set_shmem (p : Z) (f : shmem_struct → shmem_struct) : M SM unit := λ s,
  match shmems s !! p with Some n => Ret ((), upd_shmems <[p := f n]> s) | None => Fault end.

Definition SHMN_NENTRY : Z := PGSIZE / 4.
Definition sizeof_shmem : Z := 24.
Definition sizeof_shmn : Z := 20.

(** ** The reference count and the lock: shmem.h *)
Definition set_refs (v : Z) (m : shmem_struct) : shmem_struct :=
  MkShmem (shmn_cache m) (shmem_len m) v (shmem_lock m).
Definition set_cache (v : Z) (m : shmem_struct) : shmem_struct :=
  MkShmem v (shmem_len m) (shmem_refs m) (shmem_lock m).
Definition shmem_ref (p : Z) : M SM Z := m ← get_shmem p; mret (shmem_refs m).
Definition set_shmem_ref (p v : Z) : M SM unit := set_shmem p (set_refs v).
Definition shmem_ref_inc (p : Z) : M SM Z :=
  m ← get_shmem p; set_shmem p (set_refs (s32 (shmem_refs m + 1)));; mret (s32 (shmem_refs m + 1)).
Definition shmem_ref_dec (p : Z) : M SM Z :=
  m ← get_shmem p; set_shmem p (set_refs (s32 (shmem_refs m - 1)));; mret (s32 (shmem_refs m - 1)).
Definition on_lock {B} (p : Z) (op : M (gmap Z Z) B) : M SM B :=
  m ← get_shmem p;
  match op (shmem_lock m) with
  | Ret (b, w) => set_shmem p (λ m, MkShmem (shmn_cache m) (shmem_len m) (shmem_refs m) w);; mret b
  | Panic => panic
  | Fault => fault
  | OutOfFuel => out_of_fuel
  end.
(** lock() waits for the scheduler while the lock is taken, which no sequential
    run ends: such a call has no result here. *)
Definition lock_shmem (p : Z) : M SM unit :=
  b ← on_lock p try_lock; if (b : bool) then skip else out_of_fuel.
Definition unlock_shmem (p : Z) : M SM unit := on_lock p unlock.

(** ** shmem.c *)
Definition shmem_create (len : Z) : M SM Z :=
  shmem ← on_alloc (kmalloc sizeof_shmem);
  (if bool_decide (shmem ≠ 0) then
     modify (upd_slinks <[ShmnList shmem := junk_entry (ShmnList shmem)]>);;
     modify (upd_shmems <[shmem := MkShmem 0 0 0 ∅]>);;
     sl (list_init (ShmnList shmem));;
     set_shmem shmem (λ m, MkShmem 0 len 0 {[0 := 0]})
   else skip);;
  mret shmem.

(** The assertion is on (start % PGSIZE) * SHMN_NENTRY, as C reads it. *)
Definition shmn_create (start : Z) : M SM Z :=
  assert (bool_decide (u32 (start mod PGSIZE * SHMN_NENTRY) = 0));;
  shmn ← on_alloc (kmalloc sizeof_shmn);
  if bool_decide (shmn ≠ 0) then
    page ← vm (alloc_page alloc_pages);
    match page with
    | Some page =>
      kva ← page2kva npage page;
      modify (upd_slinks <[ShmnLink shmn := junk_entry (ShmnLink shmn)]>);;
      modify (upd_shmns <[shmn := MkShmn start (u32 (start + PGSIZE * SHMN_NENTRY)) kva]>);;
      vm (memset_page npage kva);;
      mret shmn
    | None => on_alloc (kfree shmn);; mret 0
    end
  else mret shmn.

Definition shmem_remove_entry_pte (ptep : Z) : M SM unit :=
  assert (bool_decide (ptep ≠ 0));;
  pte ← vm (load npage ptep);
  if bool_decide (Z.land pte PTE_P ≠ 0) then
    page ← pte2page npage pte;
    swap ← on_alloc (PageSwap page);
    (if negb swap then
       r ← vm (page_ref_dec get_ref set_ref page);
       if bool_decide (r = 0) then vm (free_page free_pages page) else skip
     else vm (page_ref_dec get_ref set_ref page);; skip);;
    vm (store npage ptep 0)
  else if bool_decide (pte ≠ 0) then vm (store npage ptep 0)
  else skip.

Fixpoint remove_entries (n : nat) (ptep : Z) : M SM unit :=
  match n with
  | O => skip
  | S n => shmem_remove_entry_pte ptep;; remove_entries n (ptep + 4)
  end.
Definition shmn_destroy (shmn : Z) : M SM unit :=
  n ← get_shmn shmn;
  remove_entries (Z.to_nat SHMN_NENTRY) (sn_entry n);;
  page ← kva2page npage (sn_entry n);
  vm (free_page free_pages page);;
  on_alloc (kfree shmn);;
  modify (upd_shmns (delete shmn));; modify (upd_slinks (delete (ShmnLink shmn))).

Fixpoint find_shmn_loop (fuel : nat) (shmem : Z) (addr : Z) (le : slink) : M SM Z :=
  match fuel with
  | O => out_of_fuel
  | S fuel =>
    le ← sl (list_next le);
    if bool_decide (le = ShmnList shmem) then mret 0
    else
      tmp ← get_shmn (le2shmn le);
      if bool_decide (sn_start tmp ≤ addr) && bool_decide (addr < sn_end tmp) then mret (le2shmn le)
      else find_shmn_loop fuel shmem addr le
  end.
Definition find_shmn (fuel : nat) (shmem addr : Z) : M SM Z :=
  m ← get_shmem shmem;
  let shmn := shmn_cache m in
  hit ← (if bool_decide (shmn ≠ 0) then
           n ← get_shmn shmn; mret (bool_decide (sn_start n ≤ addr) && bool_decide (addr < sn_end n))
         else mret false);
  shmn ← (if (hit : bool) then mret shmn else find_shmn_loop fuel shmem addr (ShmnList shmem));
  (if bool_decide (shmn ≠ 0) then set_shmem shmem (set_cache shmn) else skip);;
  mret shmn.

Definition check_shmn_overlap (prev next : shmn_t) : M SM unit :=
  assert (bool_decide (sn_start prev < sn_end prev));;
  assert (bool_decide (sn_end prev ≤ sn_start next));;
  assert (bool_decide (sn_start next < sn_end next)).

(** The loop that finds the entry to insert after. *)
Fixpoint insert_shmn_loop (fuel : nat) (shmem start : Z) (le le_prev : slink) : M SM slink :=
  match fuel with
  | O => out_of_fuel
  | S fuel =>
    le ← sl (list_next le);
    if bool_decide (le = ShmnList shmem) then mret le_prev
    else
      p ← get_shmn (le2shmn le);
      if bool_decide (sn_start p > start) then mret le_prev
      else insert_shmn_loop fuel shmem start le le
  end.
Definition insert_shmn (fuel : nat) (shmem shmn : Z) : M SM unit :=
  let list := ShmnList shmem in
  n ← get_shmn shmn;
  le_prev ← insert_shmn_loop fuel shmem (sn_start n) list list;
  le_next ← sl (list_next le_prev);
  (if bool_decide (le_prev ≠ list) then p ← get_shmn (le2shmn le_prev); check_shmn_overlap p n else skip);;
  (if bool_decide (le_next ≠ list) then p ← get_shmn (le2shmn le_next); check_shmn_overlap n p else skip);;
  sl (list_add_after le_prev (ShmnLink shmn)).

Fixpoint destroy_loop (fuel : nat) (shmem : Z) : M SM unit :=
  match fuel with
  | O => out_of_fuel
  | S fuel =>
    le ← sl (list_next (ShmnList shmem));
    if bool_decide (le = ShmnList shmem) then skip
    else sl (list_del le);; shmn_destroy (le2shmn le);; destroy_loop fuel shmem
  end.
Definition shmem_destroy (fuel : nat) (shmem : Z) : M SM unit :=
  destroy_loop fuel shmem;;
  on_alloc (kfree shmem);;
  modify (upd_shmems (delete shmem));; modify (upd_slinks (delete (ShmnList shmem))).

(** The address of the entry; 0 is NULL. *)
Definition shmem_get_entry (fuel : nat) (shmem addr : Z) (create : bool) : M SM Z :=
  m ← get_shmem shmem;
  assert (bool_decide (addr < shmem_len m));;
  let addr := ROUNDDOWN addr PGSIZE in
  shmn ← find_shmn fuel shmem addr;
  (if bool_decide (shmn = 0) then skip
   else n ← get_shmn shmn; assert (bool_decide (sn_start n ≤ addr) && bool_decide (addr < sn_end n)));;
  shmn ← (if bool_decide (shmn = 0) then
            let start := ROUNDDOWN addr (PGSIZE * SHMN_NENTRY) in
            if create then
              shmn ← shmn_create start;
              (if bool_decide (shmn = 0) then skip else insert_shmn fuel shmem shmn);;
              mret shmn
            else mret 0
          else mret shmn);
  if bool_decide (shmn = 0) then mret 0
  else
    n ← get_shmn shmn;
    let ptep := sn_entry n + 4 * (u32 (addr - sn_start n) / PGSIZE) in
    pte ← vm (load npage ptep);
    (if bool_decide (pte = 0) then
       if create then
         page ← vm (alloc_page alloc_pages);
         match page with
         | Some page =>
           vm (store npage ptep (Z.lor (page2pa page) PTE_P));;
           vm (page_ref_inc get_ref set_ref page);; skip
         | None => skip
         end
       else skip
     else skip);;
    mret ptep.

Definition shmem_insert_entry (fuel : nat) (shmem addr entry : Z) : M SM Z :=
  ptep ← shmem_get_entry fuel shmem addr true;
  if bool_decide (ptep = 0) then mret (- E_NO_MEM)
  else
    pte ← vm (load npage ptep);
    (if bool_decide (pte ≠ 0) then shmem_remove_entry_pte ptep else skip);;
    (if bool_decide (Z.land entry PTE_P ≠ 0) then
       p ← pte2page npage entry; vm (page_ref_inc get_ref set_ref p);; skip
     else skip);;
    vm (store npage ptep entry);;
    mret 0.

Definition shmem_remove_entry (fuel : nat) (shmem addr : Z) : M SM Z :=
  shmem_insert_entry fuel shmem addr 0.
End Model.
