(* ===== verification/ShmemInv.v ===== *)
(** * Shared memory objects: the pages of entries

    The entries of a shared memory object lie in pages that its nodes point to:
    [T] gives the page of each 4 MB piece, as for a page table. *)
From stdpp Require Import base gmap list fin_maps sorting.
From Stdlib Require Import ZArith Lia.
From S2P Require Import Prelude DList Bits Printfmt Mmu Buddy BuddySpec Alloc PmmRefs PmmFresh Pmm PmmInv PmmProps PmmFault.

Lemma here_zero q : here 0 q = 0.
Proof. unfold here. by rewrite bool_decide_false by tauto. Qed.

(** The pages that are left once a mapping of [p], of [n] in all, is gone. *)
Definition without (e n : Z) (D : list Z) : list Z :=
  if bool_decide (e = 0) then D else drop_page (n - 1) (e / PGSIZE) D.
Lemma elem_of_without e n D q : q ∈ without e n D ↔ q ∈ D ∧ ¬ (e ≠ 0 ∧ n = 1 ∧ q = e / PGSIZE).
Proof.
  unfold without. case_bool_decide as He; [naive_solver|]. rewrite elem_of_drop. split.
  - intros [Hq Hn]. split; [done|]. intros (_ & H1 & H2). apply Hn; [lia|done].
  - intros [Hq Hn]. split; [done|]. intros H0 ->. apply Hn. split_and!; [done|lia|done].
Qed.

Section Entries.
Context {A : Type} (alloc_pages : Z → M A (option Z)) (free_pages : Z → Z → M A unit) (np : Z).
Context (get_ref : Z → M A Z) (set_ref : Z → Z → M A unit).
Context (held : A → list (Z * Z) → Prop) (refof : A → Z → Z).
Context `{HA : !RefAllocator alloc_pages free_pages get_ref set_ref np held refof} (Hnp : np ≤ KMEMSIZE / PGSIZE).
Context `{HF : !FreshRefs alloc_pages held refof}.
Implicit Types v : vmem A.

(** Tables [T], data pages [D], references [ext] from elsewhere, pages [R0] of
    everybody else. *)
Record ents_ok v (T : gmap Z Z) (D : list Z) (ext : Z → Z) (R0 : list (Z * Z)) : Prop := {
  eo_range : ∀ i t, T !! i = Some t → 0 ≤ i < UPDE ∧ 0 ≤ t < np;
  eo_inj : ∀ i j t, T !! i = Some t → T !! j = Some t → i = j;
  eo_held : held (palloc v) (singles (frames T ++ D) ++ R0);
  eo_data : data_ok (words v) T D;
  eo_refs : ∀ p, p ∈ D → refof (palloc v) p = count (words v) T p + ext p;
  eo_ext : ∀ p, 0 ≤ ext p < 2 ^ 30;
  eo_in : ext_in ext D }.

(** Only the pages [F] are written. *)
Definition calm (F : list Z) v v' : Prop := same_outside F v v' ∧ tlb v' = tlb v.
Lemma calm_refl F v : calm F v v.
Proof. done. Qed.
Lemma calm_trans F v1 v2 v3 : calm F v1 v2 → calm F v2 v3 → calm F v1 v3.
Proof. intros [H1 H2] [K1 K2]. split; [by eapply same_outside_trans|congruence]. Qed.
Lemma calm_mono F F' v v' : calm F v v' → (∀ p, p ∈ F → p ∈ F') → calm F' v v'.
Proof. intros [H1 H2] Hs. split; [by eapply same_outside_mono|done]. Qed.
Lemma calm_alloc F v a : calm F v (over palloc_lens a v).
Proof. done. Qed.

Lemma eo_hand v T D ext R0 p : ents_ok v T D ext R0 → p ∈ D →
  p ∈ hand_pages (singles (frames T ++ D) ++ R0) ∧ 0 ≤ p < np.
Proof using HA.
  intros Hv Hp. split; [rewrite hand_singles; set_solver +Hp|].
  assert (Hin : (p, 1) ∈ singles (frames T ++ D) ++ R0).
  { apply elem_of_app. left. apply list_elem_of_fmap. exists p. split; [done|set_solver +Hp]. }
  pose proof (pa_range (PageAllocator := ra_pages) _ _ _ _ (eo_held _ _ _ _ _ Hv) Hin). lia.
Qed.
Lemma eo_nodup v T D ext R0 : ents_ok v T D ext R0 → NoDup (frames T ++ D) ∧ NoDup D.
Proof using HA.
  intros Hv. pose proof (pa_nodup (PageAllocator := ra_pages) _ _ (eo_held _ _ _ _ _ Hv)) as Hn.
  rewrite hand_singles in Hn. apply NoDup_app in Hn as (Hn & _). split; [done|]. by apply NoDup_app in Hn as (_ & _ & Hn).
Qed.

Lemma ents_update v v' T D D' ext R0 u t x :
  ents_ok v T D ext R0 → 0 ≤ u < UPN → T !! (u / 1024) = Some t →
  words v' = <[t * 1024 + u mod 1024 := x]> (words v) →
  held (palloc v') (singles (frames T ++ D') ++ R0) →
  (x = 0 ∨ (x mod 2 = 1 ∧ is_u32 x ∧ x / PGSIZE ∈ D')) →
  (∀ q, q ∈ D → q ∉ D' → count (words v) T q = here (tentry (words v) T u) q ∧ ext q = 0) →
  (∀ q, q ∈ D' → refof (palloc v') q = count (words v) T q - here (tentry (words v) T u) q + here x q + ext q) →
  ents_ok v' T D' ext R0 ∧ ∀ u', tentry (words v') T u' = if decide (u' = u) then x else tentry (words v) T u'.
Proof using Type.
  intros [V1 V2 V3 V4 V5 V6 V7] Hr Ht Hw Hh Hx Hgone Href.
  assert (He : ∀ u', tentry (words v') T u' = if decide (u' = u) then x else tentry (words v) T u').
  { intros u'. rewrite Hw. by apply tentry_store. }
  split; [|exact He]. split; try done.
  - eapply (data_update (words v) T); try done. intros q Hq Hn. by apply Hgone.
  - intros p Hp. rewrite Href by done. by rewrite (count_update (words v) T (words v') T p u x).
  - intros q Hq. destruct (decide (q ∈ D')) as [|Hn]; [done|]. by destruct (Hgone q (V7 q Hq) Hn).
Qed.

(** A page gets one more entry. *)
Lemma ents_put v v' T D ext R0 u t x :
  ents_ok v T D ext R0 → 0 ≤ u < UPN → T !! (u / 1024) = Some t → tentry (words v) T u = 0 →
  x mod 2 = 1 → is_u32 x → x / PGSIZE ∈ D →
  words v' = <[t * 1024 + u mod 1024 := x]> (words v) →
  held (palloc v') (singles (frames T ++ D) ++ R0) →
  refof (palloc v') (x / PGSIZE) = refof (palloc v) (x / PGSIZE) + 1 →
  (∀ q, q ≠ x / PGSIZE → refof (palloc v') q = refof (palloc v) q) →
  ents_ok v' T D ext R0 ∧ ∀ u', tentry (words v') T u' = if decide (u' = u) then x else tentry (words v) T u'.
Proof using Type.
  intros Hv Hr Ht H0 Hodd Hu Hp Hw Hh H1 H2. apply (ents_update v v' T D D ext R0 u t x Hv Hr Ht Hw Hh); [by right|by intros|].
  intros q Hq. rewrite H0, here_zero. assert (Hx : x ≠ 0) by (intros ->; done). pose proof (eo_refs _ _ _ _ _ Hv q Hq) as Hc.
  unfold here. case_bool_decide as Hb.
  - destruct Hb as [_ <-]. lia.
  - rewrite H2; [lia|]. intros ->. tauto.
Qed.

(** A page of the allocator joins the data pages. *)
Lemma ents_alloc v T D ext R0 : ents_ok v T D ext R0 →
  ∃ r a', alloc_page alloc_pages v = Ret (r, over palloc_lens a' v) ∧
    match r with
    | None => ents_ok (over palloc_lens a' v) T D ext R0
    | Some p => p ∉ frames T ∧ p ∉ D ∧ p ∉ hand_pages R0 ∧ 0 ≤ p < np ∧ refof a' p = 0 ∧
        held a' ((p, 1) :: singles (frames T ++ D) ++ R0) ∧ (∀ q, q ∈ D → refof a' q = refof (palloc v) q) ∧
        ents_ok (over palloc_lens a' v) T (p :: D) ext R0
    end.
Proof using HA HF.
  intros Hv. pose proof Hv as [V1 V2 V3 V4 V5 V6 V7].
  destruct (pa_alloc (PageAllocator := ra_pages) (palloc v) _ 1 V3 ltac:(lia)) as (r & a1 & E1 & H1).
  assert (Hk : ∀ q, q ∈ D → refof a1 q = refof (palloc v) q).
  { intros q Hq. eapply (ra_alloc (palloc v)); [exact V3|..|exact E1|]; [lia|]. rewrite hand_singles. set_solver +Hq. }
  exists r, a1. split; [by apply palloc_run|]. destruct r as [p|].
  2: { split; try done. intros q Hq. simpl. rewrite Hk by done. by apply V5. }
  pose proof (pa_nodup (PageAllocator := ra_pages) _ _ H1) as Hnd.
  change ((p, 1) :: singles (frames T ++ D) ++ R0) with (singles (p :: frames T ++ D) ++ R0) in Hnd.
  rewrite hand_singles in Hnd. apply NoDup_cons in Hnd as [Hnin Hnd].
  pose proof (pa_range (PageAllocator := ra_pages) _ _ p 1 H1 ltac:(by left)) as Hpr.
  pose proof (fresh_ref (palloc v) _ 1 p a1 p V3 ltac:(lia) E1 ltac:(lia)) as Hz.
  assert (HpD : p ∉ D) by set_solver +Hnin.
  split_and!; [set_solver +Hnin|done|set_solver +Hnin|lia|lia|done|done|done|]. split; try done.
  - eapply ra_perm; [exact H1|]. change ((p, 1) :: singles (frames T ++ D) ++ R0) with (singles (p :: frames T ++ D) ++ R0).
    apply Permutation_app_tail. unfold singles. apply fmap_Permutation. solve_Permutation.
  - intros u Hr. destruct (V4 u Hr) as [?|(? & ? & ?)]; [by left|right]. split_and!; [done|done|by right].
  - intros q Hq. simpl. apply elem_of_cons in Hq as [->|Hq]; [|rewrite Hk by done; by apply V5].
    rewrite Hz, (count_absent _ _ D) by done. destruct (decide (ext p = 0)) as [->|Hne]; [done|]. by destruct (HpD (V7 p Hne)).
  - intros q Hq. right. by apply V7.
Qed.
(** A cleared page becomes the table of piece [i]. *)
Lemma ents_table v a T D ext R0 i t :
  ents_ok v T D ext R0 → T !! i = None → 0 ≤ i < UPDE → 0 ≤ t < np → t ∉ frames T →
  held a ((t, 1) :: singles (frames T ++ D) ++ R0) → (∀ q, q ∈ D → refof a q = refof (palloc v) q) →
  let v' := set_words (clear_words 1024 (t * 1024) (words v)) (over palloc_lens a v) in
  ents_ok v' (<[i := t]> T) D ext R0 ∧ (∀ u, tentry (words v') (<[i := t]> T) u = tentry (words v) T u) ∧ calm [t] v v'.
Proof using HA.
  intros Hv Hi Hir Htr Ht Hh Hk v'. pose proof Hv as [V1 V2 V3 V4 V5 V6 V7].
  assert (Hw : ∀ x, word (words v') x = if decide (x / 1024 = t) then 0 else word (words v) x).
  { intros x. unfold v'. cbn [set_words words over palloc_lens]. rewrite word_clear.
    destruct (decide (x / 1024 = t)) as [E|E]; [rewrite decide_True|rewrite decide_False]; try done;
      pose proof (Z.div_mod x 1024); pose proof (mod1024 x); lia. }
  assert (He : ∀ u, tentry (words v') (<[i := t]> T) u = tentry (words v) T u).
  { intros u. unfold tentry. pose proof (mod1024 u). destruct (decide (u / 1024 = i)) as [->|Hne].
    - rewrite lookup_insert_eq, Hi, Hw, frame_index, decide_True by done. done.
    - rewrite lookup_insert_ne by done. destruct (T !! (u / 1024)) as [t'|] eqn:Et; [|done].
      rewrite Hw, frame_index, decide_False by (done || intros ->; by apply Ht, (elem_of_frames T (u / 1024))). done. }
  split; [|split; [exact He|]]; [split|].
  - intros j t' Hj. destruct (decide (j = i)) as [->|Hne]; [rewrite lookup_insert_eq in Hj; by injection Hj as <-|].
    rewrite lookup_insert_ne in Hj by done. by apply V1.
  - intros j j' t'. destruct (decide (j = i)) as [->|H1], (decide (j' = i)) as [->|H2];
      rewrite ?lookup_insert_eq, ?lookup_insert_ne by done; intros E1 E2; simplify_eq; try done.
    + destruct Ht. by eapply elem_of_frames.
    + destruct Ht. by eapply elem_of_frames.
    + by eapply V2.
  - eapply ra_perm; [exact Hh|]. change ((t, 1) :: singles (frames T ++ D) ++ R0) with (singles (t :: frames T ++ D) ++ R0).
    apply Permutation_app_tail. unfold singles. apply fmap_Permutation. by rewrite (frames_insert T i t Hi).
  - intros u Hr. cbv zeta. rewrite He. by apply V4.
  - intros p Hp. change (palloc v') with a. rewrite Hk, V5 by done. f_equal. symmetry. apply count_ext. intros u _. apply He.
  - done.
  - done.
  - split; [|done]. split; [done|]. intros x Hx. rewrite Hw, decide_False; [done|]. intros E. apply Hx. rewrite E. by left.
Qed.

(** A table of empty entries goes back. *)
Lemma ents_free v T D ext R0 i t :
  ents_ok v T D ext R0 → T !! i = Some t → (∀ u, u / 1024 = i → tentry (words v) T u = 0) →
  ∃ a', free_page free_pages t v = Ret ((), over palloc_lens a' v) ∧
    ents_ok (over palloc_lens a' v) (delete i T) D ext R0 ∧
    (∀ u, tentry (words v) (delete i T) u = tentry (words v) T u) ∧
    ∀ q, q ∈ D → refof a' q = refof (palloc v) q.
Proof using HA.
  intros Hv Ht Hz. pose proof Hv as [V1 V2 V3 V4 V5 V6 V7].
  assert (Hh : held (palloc v) ((t, 1) :: singles (frames (delete i T) ++ D) ++ R0)).
  { eapply ra_perm; [exact V3|].
    change ((t, 1) :: singles (frames (delete i T) ++ D) ++ R0) with (singles (t :: frames (delete i T) ++ D) ++ R0).
    apply Permutation_app_tail. unfold singles. apply fmap_Permutation. by rewrite (frames_delete T i t Ht). }
  destruct (pa_free (PageAllocator := ra_pages) _ _ _ _ Hh) as (a' & E & H1).
  assert (Hk : ∀ q, q ∈ D → refof a' q = refof (palloc v) q).
  { intros q Hq. eapply ra_free; [exact Hh|exact E|]. rewrite hand_singles. set_solver +Hq. }
  assert (He : ∀ u, tentry (words v) (delete i T) u = tentry (words v) T u).
  { intros u. destruct (decide (u / 1024 = i)) as [Eu|Eu].
    - rewrite Hz by done. unfold tentry. by rewrite Eu, lookup_delete_eq.
    - unfold tentry. by rewrite lookup_delete_ne. }
  exists a'. split; [by apply palloc_run|]. split; [|done]. split; try done.
  - intros j t' [_ Hj]%lookup_delete_Some. by apply V1.
  - intros j j' t' [_ Hj]%lookup_delete_Some [_ Hj']%lookup_delete_Some. by eapply V2.
  - intros u Hr. cbv zeta. change (words (over palloc_lens a' v)) with (words v). rewrite He. by apply V4.
  - intros p Hp. change (palloc (over palloc_lens a' v)) with a'. rewrite Hk, V5 by done. f_equal. symmetry.
    apply count_ext. intros u _. apply He.
Qed.

(** One entry goes: its page loses a reference and goes back when it was the
    last. *)
Lemma ents_take v v1 a2 T D ext R0 u t :
  let e := tentry (words v) T u in let p := e / PGSIZE in let n := refof (palloc v) p in
  ents_ok v T D ext R0 → 0 ≤ u < UPN → T !! (u / 1024) = Some t → e ≠ 0 →
  words v1 = <[t * 1024 + u mod 1024 := 0]> (words v) → palloc v1 = a2 →
  held a2 (singles (frames T ++ without e n D) ++ R0) →
  (∀ q, q ∈ without e n D → refof a2 q = refof (palloc v) q - here e q) →
  ents_ok v1 T (without e n D) ext R0 ∧ ∀ u', tentry (words v1) T u' = if decide (u' = u) then 0 else tentry (words v) T u'.
Proof using Type.
  intros e p n Hv Hr Ht He Hw <- Hh Href. apply (ents_update v v1 T D _ ext R0 u t 0 Hv Hr Ht Hw Hh); [by left|..].
  - intros q Hq Hn. rewrite elem_of_without in Hn. fold e.
    destruct (decide (n = 1 ∧ q = p)) as [[H1 Hqp]|Hx]; [|exfalso; apply Hn; split; [done|]; naive_solver].
    subst q. pose proof (eo_refs _ _ _ _ _ Hv p Hq) as Hc. fold n in Hc. pose proof (eo_ext _ _ _ _ _ Hv p).
    pose proof (count_pos (words v) T p u Hr ltac:(done)). unfold here. rewrite bool_decide_true by done. lia.
  - intros q Hq. rewrite Href, here_zero by done. apply elem_of_without in Hq as [Hq _].
    rewrite (eo_refs _ _ _ _ _ Hv q Hq). fold e. lia.
Qed.
End Entries.

(** The entries do not depend on the objects. *)
Lemma ents_objects {A} np (held held' : A → list (Z * Z) → Prop) refof v a T D ext R0 :
  ents_ok np held refof v T D ext R0 → held' a (singles (frames T ++ D) ++ R0) →
  (∀ q, q ∈ D → refof a q = refof (palloc v) q) → ents_ok np held' refof (over palloc_lens a v) T D ext R0.
Proof. intros [V1 V2 V3 V4 V5 V6 V7] Hh Hk. split; try done. intros p Hp. simpl. rewrite Hk by done. by apply V5. Qed.
