(* ===== verification/ShmemProps.v ===== *)
(** * Shared memory objects: the nodes

    [nodes_ok s F shmem m N T]: the object [shmem] has the nodes [N], in address
    order, one for each piece of 4 MB in [T]. *)
From stdpp Require Import base gmap list fin_maps sorting.
From Stdlib Require Import ZArith Lia.
From S2P Require Import Prelude DList Bits Printfmt Mmu Buddy BuddySpec Alloc PmmRefs PmmFresh Pmm PmmInv PmmProps PmmFault Shmem ShmemInv.

(** The bytes one node covers. *)
Definition PIECE : Z := PGSIZE * SHMN_NENTRY.
Lemma PIECE_eq : PIECE = 1024 * PGSIZE.
Proof. done. Qed.
(** The node of piece [i] with its entries in page [t]. *)
Definition node (i t : Z) : shmn_t := MkShmn (i * PIECE) (i * PIECE + PIECE) (kva_of t 0).
Lemma node_inj i t i' t' : node i t = node i' t' → i = i' ∧ t = t'.
Proof. unfold node, kva_of, PIECE, PGSIZE, SHMN_NENTRY. intros [= ? ?]. change (PGSIZE / 4) with 1024 in *. lia. Qed.
Definition piece_of (ns : gmap Z shmn_t) (n : Z) : Z := match ns !! n with Some x => sn_start x / PIECE | None => -1 end.
Lemma piece_node ns n i t : ns !! n = Some (node i t) → piece_of ns n = i.
Proof. intros E. unfold piece_of. rewrite E. unfold node. simpl. by rewrite Z.div_mul. Qed.
Lemma covers_piece i addr : i * PIECE ≤ addr < i * PIECE + PIECE ↔ addr / PIECE = i.
Proof.
  assert (0 < PIECE) by done. pose proof (Z.div_mod addr PIECE ltac:(lia)). pose proof (Z.mod_pos_bound addr PIECE ltac:(lia)).
  split; [|intros <-; nia]. intros Hr. symmetry. apply (Z.div_unique addr PIECE i (addr - i * PIECE)); lia.
Qed.
Lemma covered i t addr :
  bool_decide (sn_start (node i t) ≤ addr) && bool_decide (addr < sn_end (node i t)) = bool_decide (addr / PIECE = i).
Proof.
  unfold node. simpl. rewrite (bool_decide_ext (addr / PIECE = i) (i * PIECE ≤ addr < i * PIECE + PIECE)) by (by rewrite covers_piece).
  by rewrite bool_decide_and.
Qed.

Section Nodes.
Context {A : Type}.
Implicit Types (s : shms A) (F : gmap slink (list slink)).

Record nodes_ok s F (shmem : Z) (m : shmem_struct) (N : list Z) (T : gmap Z Z) : Prop := {
  no_shmem : shmems s !! shmem = Some m;
  no_links : dlists (slinks s) F;
  no_list : F !! ShmnList shmem = Some (ShmnLink <$> N);
  no_sorted : StronglySorted (λ a b, piece_of (shmns s) a < piece_of (shmns s) b) N;
  no_node : ∀ n, n ∈ N → n ≠ 0 ∧ ∃ i t, shmns s !! n = Some (node i t);
  no_table : ∀ i t, T !! i = Some t ↔ ∃ n, n ∈ N ∧ shmns s !! n = Some (node i t) }.

Lemma get_shmn_run s n x : shmns s !! n = Some x → get_shmn n s = Ret (x, s).
Proof. intros E. unfold get_shmn. by rewrite E. Qed.
Lemma get_shmem_run s p m : shmems s !! p = Some m → get_shmem p s = Ret (m, s).
Proof. intros E. unfold get_shmem. by rewrite E. Qed.
Lemma set_shmem_run s p m f : shmems s !! p = Some m → set_shmem p f s = Ret ((), upd_shmems <[p := f m]> s).
Proof. intros E. unfold set_shmem. by rewrite E. Qed.
Lemma sl_read {B} (m : M (gmap slink (list_entry slink)) B) s b : m (slinks s) = Ret (b, slinks s) → sl m s = Ret (b, s).
Proof. intros E. unfold sl. rewrite (zoom_Ret slinks_lens _ s _ _ E). by destruct s. Qed.
Lemma sl_run {B} (m : M (gmap slink (list_entry slink)) B) s b h : m (slinks s) = Ret (b, h) →
  sl m s = Ret (b, upd_slinks (λ _, h) s).
Proof. intros E. unfold sl. by rewrite (zoom_Ret slinks_lens _ s _ _ E). Qed.
Lemma vm_run {B} (m : M (vmem A) B) s b v : m (svm s) = Ret (b, v) → vm m s = Ret (b, over svm_lens v s).
Proof. intros E. unfold vm. by rewrite (zoom_Ret svm_lens _ s _ _ E). Qed.
Lemma vm_read {B} (m : M (vmem A) B) s b : m (svm s) = Ret (b, svm s) → vm m s = Ret (b, s).
Proof. intros E. rewrite (vm_run _ _ _ _ E). by destruct s. Qed.
Lemma on_alloc_run {B} (m : M A B) s b a : m (palloc (svm s)) = Ret (b, a) →
  on_alloc m s = Ret (b, over svm_lens (over palloc_lens a (svm s)) s).
Proof. intros E. unfold on_alloc. apply (vm_run (zoom palloc_lens m)). by apply palloc_run. Qed.

Lemma lastof_link shmem l1 n : lastof (ShmnList shmem) (ShmnLink <$> l1 ++ [n]) = ShmnLink n.
Proof. unfold lastof. rewrite fmap_app. csimpl. by rewrite last_snoc. Qed.

(** The next entry while a list is walked. *)
Lemma next_node s F shmem m N T l1 l2 : nodes_ok s F shmem m N T → N = l1 ++ l2 →
  sl (list_next (lastof (ShmnList shmem) (ShmnLink <$> l1))) s = Ret (firstof (ShmnLink <$> l2) (ShmnList shmem), s).
Proof.
  intros Hn ->. apply sl_read. eapply next_at; [apply Hn|]. rewrite <-fmap_app. apply Hn.
Qed.

Lemma find_shmn_loop_ok fuel s F shmem m N T l1 l2 addr :
  nodes_ok s F shmem m N T → N = l1 ++ l2 → (length l2 < fuel)%nat →
  ∃ n, find_shmn_loop fuel shmem addr (lastof (ShmnList shmem) (ShmnLink <$> l1)) s = Ret (n, s) ∧
    ((n = 0 ∧ ∀ x, x ∈ l2 → piece_of (shmns s) x ≠ addr / PIECE) ∨
     (n ∈ l2 ∧ piece_of (shmns s) n = addr / PIECE)).
Proof.
  intros Hn. revert l1 fuel. induction l2 as [|n l2 IH]; intros l1 fuel HN Hf; (destruct fuel as [|fuel]; [simpl in Hf; lia|]);
    cbn [find_shmn_loop]; rewrite (bind_Ret _ _ _ _ _ (next_node _ _ _ _ _ _ l1 _ Hn HN)); unfold firstof; simpl.
  - exists 0. rewrite bool_decide_true by done. split; [done|]. left. split; [done|]. intros x []%elem_of_nil.
  - destruct (no_node _ _ _ _ _ _ Hn n) as (H0 & i & t & Ex); [subst N; set_solver +|].
    rewrite (bind_Ret _ _ _ _ _ (get_shmn_run _ _ _ Ex)), covered. pose proof (piece_node _ _ _ _ Ex) as Hp.
    case_bool_decide as Hc.
    + exists n. split; [done|]. right. split; [by left|congruence].
    + destruct (IH (l1 ++ [n]) fuel) as (r & E & Hr); [by rewrite HN, <-app_assoc|simpl in Hf; lia|].
      rewrite lastof_link in E. exists r. split; [exact E|]. destruct Hr as [[-> Hr]|[Hr1 Hr2]].
      * left. split; [done|]. intros x [->|Hx]%elem_of_cons; [congruence|by apply Hr].
      * right. split; [by right|done].
Qed.

(** The result of find_shmn: the node of the address's piece, which is cached. *)
Definition found s (N : list Z) (T : gmap Z Z) (addr n : Z) : Prop :=
  match T !! (addr / PIECE) with
  | None => n = 0
  | Some t => n ∈ N ∧ n ≠ 0 ∧ shmns s !! n = Some (node (addr / PIECE) t)
  end.
Definition cache_set (shmem n : Z) (m : shmem_struct) s : shms A :=
  if bool_decide (n = 0) then s else upd_shmems <[shmem := set_cache n m]> s.
Definition cached (n : Z) (m : shmem_struct) : shmem_struct := if bool_decide (n = 0) then m else set_cache n m.

Lemma found_in s F shmem m N T addr n : nodes_ok s F shmem m N T → n ∈ N → piece_of (shmns s) n = addr / PIECE → found s N T addr n.
Proof.
  intros Hn Hin Hp. destruct (no_node _ _ _ _ _ _ Hn n Hin) as (H0 & i & t & Ex). rewrite (piece_node _ _ _ _ Ex) in Hp. subst i.
  unfold found. destruct (T !! (addr / PIECE)) as [t'|] eqn:Et.
  - split_and!; [done|done|]. pose proof (proj2 (no_table _ _ _ _ _ _ Hn (addr / PIECE) t)) as Ht. rewrite Et in Ht.
    assert (Some t' = Some t) as [= ->] by (apply Ht; by exists n). done.
  - pose proof (proj2 (no_table _ _ _ _ _ _ Hn (addr / PIECE) t)) as Ht. rewrite Et in Ht. by discriminate Ht; exists n.
Qed.
Lemma found_none s F shmem m N T addr : nodes_ok s F shmem m N T → (∀ x, x ∈ N → piece_of (shmns s) x ≠ addr / PIECE) → found s N T addr 0.
Proof.
  intros Hn Hall. unfold found. destruct (T !! (addr / PIECE)) as [t|] eqn:Et; [|done].
  apply (no_table _ _ _ _ _ _ Hn) in Et as (n & Hin & Ex). destruct (Hall n Hin). by eapply piece_node.
Qed.

Lemma find_shmn_ok fuel s F shmem m N T addr :
  nodes_ok s F shmem m N T → shmn_cache m = 0 ∨ shmn_cache m ∈ N → (length N < fuel)%nat →
  ∃ n, find_shmn fuel shmem addr s = Ret (n, cache_set shmem n m s) ∧ found s N T addr n.
Proof.
  intros Hn Hc Hf. unfold find_shmn. rewrite (bind_Ret _ _ _ _ _ (get_shmem_run _ _ _ (no_shmem _ _ _ _ _ _ Hn))).
  assert (Hend : ∀ n, (n = 0 ∨ n ∈ N) →
    ((if bool_decide (n ≠ 0) then set_shmem shmem (set_cache n) else skip);; mret n) s = Ret (n, cache_set shmem n m s)).
  { intros n _. unfold cache_set. destruct (decide (n = 0)) as [H0|H0].
    - rewrite (bool_decide_false (n ≠ 0)), (bool_decide_true (n = 0)) by tauto. done.
    - rewrite (bool_decide_true (n ≠ 0)), (bool_decide_false (n = 0)) by tauto.
      by rewrite (bind_Ret _ _ _ _ _ (set_shmem_run _ _ _ _ (no_shmem _ _ _ _ _ _ Hn))). }
  assert (Hloop : ∃ n, find_shmn_loop fuel shmem addr (ShmnList shmem) s = Ret (n, s) ∧ found s N T addr n ∧ (n = 0 ∨ n ∈ N)).
  { destruct (find_shmn_loop_ok fuel s F shmem m N T [] N addr Hn eq_refl Hf) as (n & E & [[-> Hall]|[Hin Hp]]).
    - exists 0. split_and!; [exact E|by eapply found_none|by left].
    - exists n. split_and!; [exact E|by eapply found_in|by right]. }
  destruct Hloop as (n & E & Hfd & HnN).
  destruct (decide (shmn_cache m = 0)) as [H0|H0].
  - rewrite (bool_decide_false (shmn_cache m ≠ 0)) by tauto. rewrite bind_mret, (bind_Ret _ _ _ _ _ E). exists n. auto.
  - rewrite (bool_decide_true (shmn_cache m ≠ 0)) by done. destruct Hc as [?|Hc]; [done|].
    destruct (no_node _ _ _ _ _ _ Hn _ Hc) as (_ & i & t & Ex).
    rewrite bind_assoc, (bind_Ret _ _ _ _ _ (get_shmn_run _ _ _ Ex)), bind_mret, covered.
    case_bool_decide as Hp; [|rewrite (bind_Ret _ _ _ _ _ E); exists n; auto].
    rewrite bind_mret. exists (shmn_cache m). split; [apply Hend; auto|]. eapply found_in; [done|done|].
    by rewrite (piece_node _ _ _ _ Ex).
Qed.
Lemma nodes_cached s F shmem m N T n : nodes_ok s F shmem m N T → nodes_ok (cache_set shmem n m s) F shmem (cached n m) N T.
Proof.
  intros Hn. unfold cache_set, cached. case_bool_decide; [done|]. destruct Hn as [N1 N2 N3 N4 N5 N6]. split; try done.
  simpl. by rewrite lookup_insert_eq.
Qed.
(** The walk of insert_shmn stops behind the nodes of lower pieces. *)
Lemma insert_shmn_loop_ok fuel s F shmem m N T l1 l2 i :
  nodes_ok s F shmem m N T → N = l1 ++ l2 → (length l2 < fuel)%nat →
  let le := lastof (ShmnList shmem) (ShmnLink <$> l1) in
  ∃ m1 m2, l2 = m1 ++ m2 ∧
    insert_shmn_loop fuel shmem (i * PIECE) le le s = Ret (lastof (ShmnList shmem) (ShmnLink <$> l1 ++ m1), s) ∧
    (∀ x, x ∈ m1 → piece_of (shmns s) x ≤ i) ∧ (∀ x, head m2 = Some x → i < piece_of (shmns s) x).
Proof.
  intros Hn. revert l1 fuel. induction l2 as [|n l2 IH]; intros l1 fuel HN Hf le; (destruct fuel as [|fuel]; [simpl in Hf; lia|]);
    cbn [insert_shmn_loop]; unfold le; rewrite (bind_Ret _ _ _ _ _ (next_node _ _ _ _ _ _ l1 _ Hn HN)); unfold firstof; simpl.
  - exists [], []. rewrite bool_decide_true, (app_nil_r l1) by done. split_and!; [done|done|by intros x []%elem_of_nil|done].
  - destruct (no_node _ _ _ _ _ _ Hn n) as (H0 & j & t & Ex); [subst N; set_solver +|].
    rewrite (bind_Ret _ _ _ _ _ (get_shmn_run _ _ _ Ex)). pose proof (piece_node _ _ _ _ Ex) as Hp. simpl.
    assert (Hcmp : j * PIECE > i * PIECE ↔ i < j) by (assert (0 < PIECE) by done; nia).
    case_bool_decide as Hc; rewrite Hcmp in Hc.
    + exists [], (n :: l2). rewrite app_nil_r. split_and!; [done|done|by intros x []%elem_of_nil|]. intros x [= <-]. lia.
    + destruct (IH (l1 ++ [n]) fuel) as (m1 & m2 & -> & E & H1 & H2); [by rewrite HN, <-app_assoc|simpl in Hf; lia|].
      rewrite lastof_link in E. rewrite <-app_assoc in E. exists (n :: m1), m2. split_and!; [done|exact E| |done].
      intros x [->|Hx]%elem_of_cons; [lia|by apply H1].
Qed.

Lemma check_overlap_ok s i t j t' : i < j → check_shmn_overlap (node i t) (node j t') s = Ret ((), s).
Proof.
  intros Hlt. unfold check_shmn_overlap, node. simpl. assert (0 < PIECE) by done. by rewrite !bool_decide_true by nia.
Qed.

Lemma sorted_insert (f : Z → Z) l1 n l2 :
  StronglySorted (λ a b, f a < f b) (l1 ++ l2) → (∀ x, x ∈ l1 → f x < f n) → (∀ x, x ∈ l2 → f n < f x) →
  StronglySorted (λ a b, f a < f b) (l1 ++ n :: l2).
Proof.
  rewrite !StronglySorted_app. intros (H1 & H2 & H3) Hl Hr. split_and!; [|done|].
  - intros x y Hx [->|Hy]%elem_of_cons; [by apply Hl|by apply H1].
  - constructor; [done|]. by apply Forall_forall.
Qed.
Lemma sorted_head (f : Z → Z) l i :
  StronglySorted (λ a b, f a < f b) l → (∀ x, head l = Some x → i < f x) → ∀ x, x ∈ l → i < f x.
Proof.
  intros Hs Hh x Hx. destruct l as [|y l]; [by apply elem_of_nil in Hx|]. specialize (Hh y eq_refl).
  apply elem_of_cons in Hx as [->|Hx]; [done|]. inversion Hs as [|? ? _ Hf]; subst. rewrite Forall_forall in Hf.
  specialize (Hf x Hx). simpl in Hf. lia.
Qed.

Lemma nodes_insert s h F shmem m l1 l2 T n i t :
  nodes_ok s F shmem m (l1 ++ l2) T → n ≠ 0 → shmns s !! n = Some (node i t) → T !! i = None →
  (∀ x, x ∈ l1 → piece_of (shmns s) x < i) → (∀ x, x ∈ l2 → i < piece_of (shmns s) x) →
  dlists h (<[ShmnList shmem := ShmnLink <$> l1 ++ n :: l2]> F) →
  nodes_ok (upd_slinks (λ _, h) s) (<[ShmnList shmem := ShmnLink <$> l1 ++ n :: l2]> F) shmem m (l1 ++ n :: l2) (<[i := t]> T).
Proof.
  intros [N1 N2 N3 N4 N5 N6] H0 Ex HT Hl Hr Hd. pose proof (piece_node _ _ _ _ Ex) as Hp. split; simpl; try done.
  - by rewrite lookup_insert_eq.
  - apply sorted_insert; [done|..]; by rewrite Hp.
  - intros x Hx. destruct (decide (x = n)) as [->|Hne]; [split; [done|by exists i, t]|]. apply N5. set_solver.
  - intros j t'. destruct (decide (j = i)) as [->|Hne].
    + rewrite lookup_insert_eq. split; [intros [= <-]; exists n; split; [set_solver +|done]|].
      intros (x & Hx & Ex'). destruct (decide (x = n)) as [->|Hxn]; [rewrite Ex in Ex'; apply Some_inj, node_inj in Ex' as [_ ->]; done|].
      assert (T !! i = Some t') by (apply N6; exists x; split; [set_solver|done]). congruence.
    + rewrite lookup_insert_ne, N6 by done. split; intros (x & Hx & Ex'); exists x; (split; [|done]); [set_solver|].
      destruct (decide (x = n)) as [->|]; [|set_solver]. rewrite Ex in Ex'. by apply Some_inj, node_inj in Ex' as [-> _].
Qed.
Lemma firstof_link shmem l : firstof (ShmnLink <$> l) (ShmnList shmem) = match l with [] => ShmnList shmem | x :: _ => ShmnLink x end.
Proof. by destruct l. Qed.

(** A node of a piece that has none goes to its place. *)
Lemma insert_shmn_ok fuel s F shmem m N T n i t :
  nodes_ok s F shmem m N T → n ≠ 0 → shmns s !! n = Some (node i t) → T !! i = None →
  is_Some (slinks s !! ShmnLink n) → unowned F (ShmnLink n) → (length N < fuel)%nat →
  ∃ h N', let F' := <[ShmnList shmem := ShmnLink <$> N']> F in
    insert_shmn fuel shmem n s = Ret ((), upd_slinks (λ _, h) s) ∧
    nodes_ok (upd_slinks (λ _, h) s) F' shmem m N' (<[i := t]> T) ∧ N' ≡ₚ n :: N.
Proof.
  intros Hn H0 Ex HT Hl Hu Hf.
  destruct (insert_shmn_loop_ok fuel s F shmem m N T [] N i Hn eq_refl Hf) as (l1 & l2 & -> & E & H1 & H2). simpl app in E.
  assert (Hne : ∀ x, x ∈ l1 ++ l2 → piece_of (shmns s) x ≠ i).
  { intros x Hx Hp. destruct (no_node _ _ _ _ _ _ Hn x Hx) as (_ & j & t' & Ex'). rewrite (piece_node _ _ _ _ Ex') in Hp. subst j.
    assert (T !! i = Some t') by (apply (no_table _ _ _ _ _ _ Hn); by exists x). congruence. }
  assert (Hlow : ∀ x, x ∈ l1 → piece_of (shmns s) x < i).
  { intros x Hx. specialize (H1 x Hx). specialize (Hne x ltac:(set_solver +Hx)). lia. }
  assert (Hhigh : ∀ x, x ∈ l2 → i < piece_of (shmns s) x).
  { apply sorted_head; [|done]. pose proof (no_sorted _ _ _ _ _ _ Hn) as Hs. by apply StronglySorted_app in Hs as (_ & _ & ?). }
  destruct (add_at (slinks s) F (ShmnList shmem) (ShmnLink <$> l1) (ShmnLink <$> l2) (ShmnLink n)) as (h & Eadd & Hd & _);
    [apply Hn|rewrite <-fmap_app; apply Hn|done|done|].
  replace ((ShmnLink <$> l1) ++ ShmnLink n :: (ShmnLink <$> l2)) with (ShmnLink <$> l1 ++ n :: l2) in Hd by (by rewrite fmap_app).
  exists h, (l1 ++ n :: l2). cbv zeta. split_and!; [|by apply (nodes_insert s)|by rewrite Permutation_middle].
  unfold insert_shmn. rewrite (bind_Ret _ _ _ _ _ (get_shmn_run _ _ _ Ex)).
  rewrite (bind_Ret _ _ _ _ _ E : (insert_shmn_loop fuel shmem (sn_start (node i t)) _ _ ≫= _) s = _).
  rewrite (bind_Ret _ _ _ _ _ (next_node _ _ _ _ _ _ l1 l2 Hn eq_refl)).
  assert (Ec1 : (if bool_decide (lastof (ShmnList shmem) (ShmnLink <$> l1) ≠ ShmnList shmem)
    then p ← get_shmn (le2shmn (lastof (ShmnList shmem) (ShmnLink <$> l1))); check_shmn_overlap p (node i t) else skip) s = Ret ((), s)).
  { destruct l1 as [|x l1 _] using rev_ind; [by rewrite bool_decide_false by (intros H; by apply H)|]. rewrite lastof_link, bool_decide_true by done. simpl le2shmn.
    destruct (no_node _ _ _ _ _ _ Hn x) as (_ & j & t' & Ex'); [set_solver +|].
    rewrite (bind_Ret _ _ _ _ _ (get_shmn_run _ _ _ Ex')). apply check_overlap_ok. rewrite <-(piece_node _ _ _ _ Ex').
    apply Hlow. set_solver +. }
  rewrite (bind_Ret _ _ _ _ _ Ec1). rewrite firstof_link.
  assert (Ec2 : (if bool_decide (match l2 with [] => ShmnList shmem | x :: _ => ShmnLink x end ≠ ShmnList shmem)
    then p ← get_shmn (le2shmn (match l2 with [] => ShmnList shmem | x :: _ => ShmnLink x end)); check_shmn_overlap (node i t) p
    else skip) s = Ret ((), s)).
  { destruct l2 as [|x l2]; [by rewrite bool_decide_false by tauto|]. rewrite bool_decide_true by done. simpl le2shmn.
    destruct (no_node _ _ _ _ _ _ Hn x) as (_ & j & t' & Ex'); [set_solver +|].
    rewrite (bind_Ret _ _ _ _ _ (get_shmn_run _ _ _ Ex')). apply check_overlap_ok. rewrite <-(piece_node _ _ _ _ Ex').
    apply Hhigh. by left. }
  rewrite (bind_Ret _ _ _ _ _ Ec2). by apply sl_run.
Qed.

(** The first node leaves the list. *)
Lemma nodes_pop s h F shmem m n N T i t :
  nodes_ok s F shmem m (n :: N) T → shmns s !! n = Some (node i t) →
  dlists h (<[ShmnList shmem := ShmnLink <$> N]> F) → nodes_ok (upd_slinks (λ _, h) s) (<[ShmnList shmem := ShmnLink <$> N]> F) shmem m N (delete i T).
Proof.
  intros [N1 N2 N3 N4 N5 N6] Ex Hd. pose proof (piece_node _ _ _ _ Ex) as Hp.
  apply StronglySorted_cons in N4 as [Hall N4]. rewrite Forall_forall in Hall.
  assert (Hne : ∀ x, x ∈ N → piece_of (shmns s) x ≠ i) by (intros x Hx; specialize (Hall x Hx); simpl in Hall; lia).
  split; simpl; try done.
  - by rewrite lookup_insert_eq.
  - intros x Hx. apply N5. by right.
  - intros j t'. rewrite lookup_delete_Some, N6. split.
    + intros (Hji & x & [->|Hx]%elem_of_cons & Ex'); [|by exists x]. rewrite Ex in Ex'. by apply Some_inj, node_inj in Ex' as [-> _].
    + intros (x & Hx & Ex'). split; [|exists x; split; [by right|done]]. intros <-. apply (Hne x Hx). by eapply piece_node.
Qed.
End Nodes.

(** ** The entries through the kernel's addresses *)
(** All references to a page. *)
Definition totals {A} (v : vmem A) (T : gmap Z Z) (ext : Z → Z) (q : Z) : Z := count (words v) T q + ext q.
(** References go, and the pages that lose their last. *)
Definition left_over (c c' : Z → Z) (D D' : list Z) : Prop :=
  (∀ q, 0 ≤ c' q ≤ c q) ∧ ∀ q, q ∈ D' ↔ q ∈ D ∧ (c' q = 0 → c q = 0).
Lemma left_over_trans c1 c2 c3 D1 D2 D3 : left_over c1 c2 D1 D2 → left_over c2 c3 D2 D3 → left_over c1 c3 D1 D3.
Proof.
  intros [H1 H2] [K1 K2]. split; intros q; specialize (H1 q); specialize (K1 q); [lia|].
  rewrite (K2 q), (H2 q). naive_solver lia.
Qed.
Lemma left_over_step c c' e n D :
  (∀ q, c' q = c q - here e q) → (∀ q, 0 ≤ c' q) → (e / PGSIZE ∈ D → n = c (e / PGSIZE)) → left_over c c' D (without e n D).
Proof.
  intros Hc H0 Hn. split; intros q.
  - pose proof (here_range e q). specialize (Hc q). specialize (H0 q). lia.
  - rewrite elem_of_without, Hc. unfold here. case_bool_decide as Hb; split; intros [Hq Hx]; (split; [done|]).
    + destruct Hb as [Hb <-]. rewrite Hn in Hx by done. naive_solver lia.
    + destruct Hb as [Hb <-]. rewrite Hn by done. naive_solver lia.
    + lia.
    + intros (H1 & _ & ->). tauto.
Qed.
Lemma left_over_refl {A} (v : vmem A) T ext D : (∀ q, 0 ≤ ext q < 2 ^ 30) → left_over (totals v T ext) (totals v T ext) D D.
Proof. intros He. split; [|tauto]. intros q. unfold totals. pose proof (count_nonneg (words v) T q). specialize (He q). lia. Qed.

Section Steps.
Context {A : Type} (alloc_pages : Z → M A (option Z)) (free_pages : Z → Z → M A unit) (np : Z).
Context (get_ref : Z → M A Z) (set_ref : Z → Z → M A unit) (PageSwap : Z → M A bool).
Context (held : A → list (Z * Z) → Prop) (refof : A → Z → Z).
Context `{HA : !RefAllocator alloc_pages free_pages get_ref set_ref np held refof} (Hnp : np ≤ KMEMSIZE / PGSIZE).
Context (Hswap : ∀ a R p, held a R → p ∈ hand_pages R → PageSwap p a = Ret (false, a)).
Implicit Types s : shms A.
Abbreviation ents_ok' := (ents_ok np held refof).
Abbreviation remove_pte := (shmem_remove_entry_pte free_pages np get_ref set_ref PageSwap).

Lemma entry_load s T D ext R0 u t : ents_ok' (svm s) T D ext R0 → T !! (u / 1024) = Some t →
  vm (load np (kva_of t (u mod 1024))) s = Ret (tentry (words (svm s)) T u, s).
Proof using Type.
  intros Hv Ht. apply vm_read. rewrite load_run; [|apply (eo_range _ _ _ _ _ _ _ _ Hv _ _ Ht)|apply mod1024]. unfold tentry. by rewrite Ht.
Qed.
Lemma entry_store s T D ext R0 u t x : ents_ok' (svm s) T D ext R0 → T !! (u / 1024) = Some t → ∀ a,
  vm (store np (kva_of t (u mod 1024)) x) (over svm_lens (over palloc_lens a (svm s)) s) =
  Ret ((), over svm_lens (set_words (<[t * 1024 + u mod 1024 := x]> (words (svm s))) (over palloc_lens a (svm s))) s).
Proof using Type.
  intros Hv Ht a. erewrite vm_run; [|apply store_run; [apply (eo_range _ _ _ _ _ _ _ _ Hv _ _ Ht)|apply mod1024]]. done.
Qed.
Lemma calm_store v a t u x T : T !! (u / 1024) = Some t →
  calm (frames T) v (set_words (<[t * 1024 + u mod 1024 := x]> (words v)) (over palloc_lens a v) : vmem A).
Proof using Type.
  intros Ht. split; [|done]. eapply same_outside_store; [done|done|apply mod1024|by eapply elem_of_frames].
Qed.
Lemma back_same s : over svm_lens (over palloc_lens (palloc (svm s)) (svm s)) s = s.
Proof using Type. by destruct s as [? ? ? []]. Qed.

Lemma remove_pte_ok s T D ext R0 u t :
  let e := tentry (words (svm s)) T u in let D' := without e (refof (palloc (svm s)) (e / PGSIZE)) D in
  ents_ok' (svm s) T D ext R0 → 0 ≤ u < UPN → T !! (u / 1024) = Some t →
  ∃ v', remove_pte (kva_of t (u mod 1024)) s = Ret ((), over svm_lens v' s) ∧ ents_ok' v' T D' ext R0 ∧
    (∀ u', tentry (words v') T u' = if decide (u' = u) then 0 else tentry (words (svm s)) T u') ∧
    calm (frames T) (svm s) v'.
Proof using HA Hnp Hswap.
  intros e D' Hv Hr Ht. unfold shmem_remove_entry_pte. destruct (eo_range _ _ _ _ _ _ _ _ Hv _ _ Ht) as [_ Htr].
  rewrite bind_assert by (apply bool_decide_eq_true; unfold kva_of, KERNBASE, PGSIZE; pose proof (mod1024 u); lia).
  rewrite (bind_Ret _ _ _ _ _ (entry_load s T D ext R0 u t Hv Ht)). fold e.
  destruct (decide (e = 0)) as [He|He].
  { rewrite He. rewrite (bool_decide_false (Z.land 0 PTE_P ≠ 0)), bool_decide_false by (intros H; by apply H).
    exists (svm s). split; [by destruct s|]. subst D'. rewrite He. unfold without. rewrite bool_decide_true by done.
    split_and!; [done| |done]. intros u'. destruct (decide (u' = u)) as [->|]; done. }
  destruct (eo_data _ _ _ _ _ _ _ _ Hv u Hr) as [?|(Hodd & Hu & Hp)]; [done|]. fold e in Hodd, Hu, Hp.
  set (p := e / PGSIZE) in *. destruct (eo_hand alloc_pages free_pages np get_ref set_ref held refof _ _ _ _ _ p Hv Hp) as [Hhand Hpr].
  pose proof (eo_held _ _ _ _ _ _ _ _ Hv) as Hh.
  rewrite bool_decide_true by (by apply present_spec).
  rewrite (bind_Ret _ _ _ _ _ (pte2page_ret np s e Hodd Hu Hpr)). fold p.
  rewrite (bind_Ret _ _ _ _ _ (on_alloc_run _ s _ _ (Hswap _ _ _ Hh Hhand))), back_same. cbn [negb].
  pose proof (eo_refs _ _ _ _ _ _ _ _ Hv p Hp) as Href. pose proof (eo_ext _ _ _ _ _ _ _ _ Hv p) as Hext.
  pose proof (count_pos (words (svm s)) T p u Hr ltac:(done)) as Hpos. pose proof (count_bound (words (svm s)) T p) as Hbd.
  unfold UPN, UPDE in Hbd.
  destruct (ref_run alloc_pages free_pages np get_ref set_ref held refof Hnp (svm s) _ p (λ r, s32 (r - 1)) Hh Hhand) as (a1 & E1 & H1 & Hr1 & Hq1).
  rewrite s32_small in E1, Hr1 by lia. rewrite bind_assoc. rewrite (bind_Ret _ _ _ _ _ (vm_run _ s _ _ E1)).
  destruct (drop_page_run alloc_pages free_pages np get_ref set_ref held refof Hnp (over palloc_lens a1 (svm s)) (frames T) D R0 p H1 Hp)
    as (a2 & E2 & H2 & Hq2); [by eapply eo_nodup|].
  change (palloc (over palloc_lens a1 (svm s))) with a1 in *. rewrite Hr1 in E2, H2, Hq2.
  assert (E3 : (if bool_decide (refof (palloc (svm s)) p - 1 = 0) then vm (free_page free_pages p) else skip)
    (over svm_lens (over palloc_lens a1 (svm s)) s) = Ret ((), over svm_lens (over palloc_lens a2 (svm s)) s)).
  { clear -E2. destruct (bool_decide (refof (palloc (svm s)) p - 1 = 0)).
    { by rewrite (vm_run _ (over svm_lens (over palloc_lens a1 (svm s)) s) _ _ E2). }
    injection E2 as E2. unfold skip, mret, M_ret. by rewrite E2. }
  rewrite (bind_Ret _ _ _ _ _ E3), (entry_store s T D ext R0 u t 0 Hv Ht a2).
  assert (HD : D' = drop_page (refof (palloc (svm s)) p - 1) p D) by (unfold D', without; by rewrite bool_decide_false).
  eexists. split; [done|]. destruct (ents_take np held refof (svm s) (set_words (<[t * 1024 + u mod 1024 := 0]> (words (svm s))) (over palloc_lens a2 (svm s)))
    a2 T D ext R0 u t Hv Hr Ht He) as [Hv' He']; [done|done|fold e p; fold D'; by rewrite HD| |].
  - fold e p. fold D'. rewrite HD. intros q Hq. rewrite Hq2 by done. unfold here. fold p.
    destruct (decide (q = p)) as [->|Hne]; [by rewrite (bool_decide_true (e ≠ 0 ∧ p = p))|].
    rewrite (bool_decide_false (e ≠ 0 ∧ p = q)), Hq1 by naive_solver. lia.
  - split_and!; [exact Hv'|exact He'|by apply calm_store].
Qed.
Lemma left_over_take (v v' : vmem A) T D ext R0 u :
  let e := tentry (words v) T u in
  ents_ok' v T D ext R0 → 0 ≤ u < UPN →
  (∀ u', tentry (words v') T u' = if decide (u' = u) then 0 else tentry (words v) T u') →
  left_over (totals v T ext) (totals v' T ext) D (without e (refof (palloc v) (e / PGSIZE)) D).
Proof using Type.
  intros e Hv Hr He. apply left_over_step.
  - intros q. unfold totals. rewrite (count_update (words v) T (words v') T q u 0 Hr He), here_zero. fold e. lia.
  - intros q. pose proof (count_nonneg (words v') T q). pose proof (eo_ext _ _ _ _ _ _ _ _ Hv q). unfold totals. lia.
  - intros Hq. apply (eo_refs _ _ _ _ _ _ _ _ Hv _ Hq).
Qed.

(** The loop of shmn_destroy. *)
Lemma remove_entries_ok n s T D ext R0 i t j :
  ents_ok' (svm s) T D ext R0 → T !! i = Some t → 0 ≤ j → j + Z.of_nat n = 1024 →
  ∃ v' D', remove_entries free_pages np get_ref set_ref PageSwap n (kva_of t j) s = Ret ((), over svm_lens v' s) ∧
    ents_ok' v' T D' ext R0 ∧
    (∀ u, tentry (words v') T u = if decide (i * 1024 + j ≤ u < i * 1024 + 1024) then 0 else tentry (words (svm s)) T u) ∧
    left_over (totals (svm s) T ext) (totals v' T ext) D D' ∧ calm (frames T) (svm s) v'.
Proof using HA Hnp Hswap.
  revert s D j. induction n as [|n IH]; intros s D j Hv Ht Hj Hn; cbn [remove_entries].
  - exists (svm s), D. split; [by destruct s|]. split_and!; [done| |by eapply left_over_refl; apply (eo_ext _ _ _ _ _ _ _ _ Hv)|done].
    intros u. by rewrite decide_False by lia.
  - set (u := i * 1024 + j). assert (Hui : u / 1024 = i) by (apply frame_index; lia).
    assert (Huj : u mod 1024 = j) by (unfold u; rewrite Z.add_comm, Z.mod_add, Z.mod_small; lia).
    destruct (eo_range _ _ _ _ _ _ _ _ Hv _ _ Ht) as [Hir Htr].
    assert (Hr : 0 ≤ u < UPN) by (unfold UPN, UPDE, u in *; lia).
    destruct (remove_pte_ok s T D ext R0 u t Hv Hr ltac:(by rewrite Hui)) as (v1 & E1 & Hv1 & He1 & Hc1).
    rewrite Huj in E1. rewrite (bind_Ret _ _ _ _ _ E1).
    replace (kva_of t j + 4) with (kva_of t (j + 1)) by (unfold kva_of; lia).
    destruct (IH (over svm_lens v1 s) _ (j + 1) Hv1 Ht ltac:(lia) ltac:(lia)) as (v2 & D2 & E2 & Hv2 & He2 & Hl2 & Hc2).
    exists v2, D2. split; [exact E2|]. split; [done|]. split_and!.
    + intros u'. rewrite He2. simpl svm. rewrite He1. repeat destruct (decide _); done || lia.
    + eapply left_over_trans; [|exact Hl2]. by apply left_over_take with (R0 := R0).
    + by eapply calm_trans.
Qed.
End Steps.
