(* ===== verification/ShmemOps.v ===== *)
(** * Shared memory objects: the operations of shmem.c *)
From stdpp Require Import base gmap list fin_maps sorting.
From Stdlib Require Import ZArith Lia.
From S2P Require Import Prelude DList Bits Printfmt Mmu Buddy BuddySpec Alloc PmmRefs PmmFresh Pmm PmmInv PmmProps PmmFault Shmem ShmemInv ShmemProps.

Lemma kva_zero t : KERNBASE + t * PGSIZE = kva_of t 0.
Proof. unfold kva_of. lia. Qed.
Lemma piece_page u : u * PGSIZE / PIECE = u / 1024.
Proof. rewrite PIECE_eq, Z.div_mul_cancel_r; done. Qed.
Lemma ROUNDDOWN_page addr : 0 ≤ addr < KERNBASE → ROUNDDOWN addr PGSIZE = addr / PGSIZE * PGSIZE.
Proof.
  unfold KERNBASE. intros Ha. unfold ROUNDDOWN. rewrite (u32_small addr) by (unfold is_u32; lia).
  rewrite Z.mod_eq by done. replace (addr - (addr - PGSIZE * (addr / PGSIZE))) with (addr / PGSIZE * PGSIZE) by lia.
  apply u32_small. unfold is_u32, PGSIZE. Z.div_mod_to_equations. lia.
Qed.
Lemma ROUNDDOWN_piece u : 0 ≤ u < UPN → ROUNDDOWN (u * PGSIZE) PIECE = u / 1024 * PIECE.
Proof.
  unfold UPN, UPDE. intros Hu. unfold ROUNDDOWN. rewrite (u32_small (u * PGSIZE)) by (unfold is_u32, PGSIZE; lia).
  rewrite Z.mod_eq by done. rewrite piece_page.
  replace (u * PGSIZE - (u * PGSIZE - PIECE * (u / 1024))) with (u / 1024 * PIECE) by lia.
  apply u32_small. rewrite PIECE_eq. unfold is_u32, PGSIZE. Z.div_mod_to_equations. lia.
Qed.

Section Ops.
Context {A : Type} (kmalloc : Z → M A Z) (kfree : Z → M A unit).
Context (alloc_pages : Z → M A (option Z)) (free_pages : Z → Z → M A unit) (np : Z).
Context (get_ref : Z → M A Z) (set_ref : Z → Z → M A unit) (PageSwap : Z → M A bool).
Context (mem : A → gset Z → list (Z * Z) → Prop) (refof : A → Z → Z).
Context `{HK : !KernelRefs kmalloc kfree alloc_pages free_pages get_ref set_ref np mem refof} (Hnp : np ≤ KMEMSIZE / PGSIZE).
Context `{HF : !∀ O, FreshRefs alloc_pages (λ a R, mem a O R) refof}.
Context (Hswap : ∀ a O R p, mem a O R → p ∈ hand_pages R → PageSwap p a = Ret (false, a)).
Implicit Types (s : shms A) (F : gmap slink (list slink)) (O : gset Z).
Abbreviation ents O := (ents_ok np (λ a R, mem a O R) refof).

Record shm_inv s F O (shmem : Z) (m : shmem_struct) (N : list Z) (T : gmap Z Z) (D : list Z) (ext : Z → Z) (R0 : list (Z * Z)) : Prop := {
  si_nodes : nodes_ok s F shmem m N T;
  si_ents : ents O (svm s) T D ext R0;
  si_cache : shmn_cache m = 0 ∨ shmn_cache m ∈ N;
  si_object : shmem ∈ O ∧ shmem ∉ N;
  si_owned : ∀ n hd, owns F (ShmnLink n) hd → n ∈ O }.

Lemma in_objects s F O shmem m N T D ext R0 n : shm_inv s F O shmem m N T D ext R0 → n ∈ N → n ∈ O.
Proof using Type.
  intros Hi Hn. apply (si_owned _ _ _ _ _ _ _ _ _ _ Hi n (ShmnList shmem)). eexists. split; [apply Hi|].
  right. by apply list_elem_of_fmap_2.
Qed.

Lemma kmalloc_ents O v T D ext R0 n : ents O v T D ext R0 → 0 < n ≤ KMALLOC_MAX →
  ∃ p a', kmalloc n (palloc v) = Ret (p, a') ∧
    (p = 0 ∧ ents O (over palloc_lens a' v) T D ext R0 ∨ p ≠ 0 ∧ p ∉ O ∧ ents ({[p]} ∪ O) (over palloc_lens a' v) T D ext R0).
Proof using HK.
  intros Hv Hn. destruct (kr_kmalloc _ O _ n (eo_held _ _ _ _ _ _ _ _ Hv) Hn) as (p & a' & E & Hp & Hr).
  exists p, a'. split; [done|].
  assert (Hr' : ∀ q, q ∈ D → refof a' q = refof (palloc v) q) by (intros q Hq; apply Hr; rewrite hand_singles; set_solver +Hq).
  destruct Hp as [[-> Hp]|(H0 & HO & Hp)]; [left|right]; split_and!; try done; by eapply ents_objects.
Qed.
Lemma kfree_ents O v T D ext R0 p : ents O v T D ext R0 → p ∈ O →
  ∃ a', kfree p (palloc v) = Ret ((), a') ∧ ents (O ∖ {[p]}) (over palloc_lens a' v) T D ext R0 ∧
    (∀ q, q ∈ D → refof a' q = refof (palloc v) q).
Proof using HK.
  intros Hv Hp. destruct (kr_kfree _ O _ p (eo_held _ _ _ _ _ _ _ _ Hv) Hp) as (a' & E & Hm & Hr).
  exists a'. assert (Hr' : ∀ q, q ∈ D → refof a' q = refof (palloc v) q) by (intros q Hq; apply Hr; rewrite hand_singles; set_solver +Hq).
  split_and!; [done| |done]. by eapply ents_objects.
Qed.

Lemma shmn_create_ok s O T D ext R0 i :
  ents O (svm s) T D ext R0 → T !! i = None → 0 ≤ i < UPDE →
  ∃ n s', shmn_create alloc_pages np kmalloc kfree (i * PIECE) s = Ret (n, s') ∧
    ((n = 0 ∧ (∃ a, s' = over svm_lens (over palloc_lens a (svm s)) s) ∧ ents O (svm s') T D ext R0) ∨
     (n ≠ 0 ∧ n ∉ O ∧ ∃ t v', T !! i = None ∧
       s' = MkShms A (<[n := node i t]> (shmns s)) (shmems s) (<[ShmnLink n := junk_entry (ShmnLink n)]> (slinks s)) v' ∧
       ents ({[n]} ∪ O) v' (<[i := t]> T) D ext R0 ∧
       (∀ u, tentry (words v') (<[i := t]> T) u = tentry (words (svm s)) T u) ∧ calm [t] (svm s) v')).
Proof using HK Hnp HF.
  intros Hv HT Hi. unfold shmn_create.
  rewrite bind_assert.
  2: { apply bool_decide_eq_true. replace (i * PIECE mod PGSIZE) with 0; [done|]. symmetry. rewrite PIECE_eq.
       replace (i * (1024 * PGSIZE)) with (i * 1024 * PGSIZE) by lia. by apply Z.mod_mul. }
  destruct (kmalloc_ents O (svm s) T D ext R0 sizeof_shmn Hv ltac:(done)) as (n & a1 & E1 & Hn).
  rewrite (bind_Ret _ _ _ _ _ (on_alloc_run _ s _ _ E1)). destruct Hn as [[-> Hn]|(H0 & HO & Hn)].
  { rewrite bool_decide_false by tauto. eexists 0, _. split; [done|]. left. split_and!; [done|by eexists|done]. }
  rewrite bool_decide_true by done. set (v1 := over palloc_lens a1 (svm s)) in *. set (O1 := {[n]} ∪ O) in *.
  destruct (ents_alloc alloc_pages free_pages np get_ref set_ref (λ a R, mem a O1 R) refof v1 T D ext R0 Hn) as (r & a2 & E2 & Hr).
  rewrite (bind_Ret _ _ _ _ _ (vm_run _ (over svm_lens v1 s) _ _ E2)). destruct r as [t|].
  - destruct Hr as (HtT & HtD & HtR & Htr & _ & Hh & Hk & _).
    destruct (page_kva_run (over svm_lens (over palloc_lens a2 v1) s) np t Htr Hnp) as [Ek _]. rewrite kva_zero in Ek.
    change (over svm_lens (over palloc_lens a2 v1) (over svm_lens v1 s)) with (over svm_lens (over palloc_lens a2 v1) s).
    rewrite (bind_Ret _ _ _ _ _ Ek), !bind_modify.
    replace (u32 (i * PIECE + PGSIZE * SHMN_NENTRY)) with (i * PIECE + PIECE).
    2: { fold PIECE. symmetry. apply u32_small. rewrite PIECE_eq. unfold is_u32, PGSIZE, UPDE in *. lia. }
    assert (Em : memset_page np (kva_of t 0) (over palloc_lens a2 v1) =
      Ret ((), set_words (clear_words 1024 (t * 1024) (words v1)) (over palloc_lens a2 v1))).
    { unfold memset_page. destruct (kva_of_ok np t 0 Htr ltac:(lia)) as [-> ->]. by rewrite Z.add_0_r. }
    match goal with |- context [(vm (memset_page np (kva_of t 0)) ≫= ?k) ?s2] => rewrite (bind_Ret _ k s2 _ _ (vm_run _ s2 _ _ Em)) end.
    destruct (ents_table alloc_pages free_pages np get_ref set_ref (λ a R, mem a O1 R) refof v1 a2 T D ext R0 i t Hn HT Hi Htr HtT Hh Hk) as (Hv' & He' & Hc').
    eexists n, _. split; [reflexivity|]. right. split_and!; [done|done|]. eexists t, _. split_and!; [done|reflexivity|exact Hv'|exact He'|].
    exact Hc'.
  - destruct (kfree_ents O1 _ T D ext R0 n Hr) as (a3 & E3 & Hv3 & _); [set_solver +|].
    rewrite (bind_Ret _ _ _ _ _ (on_alloc_run _ (over svm_lens (over palloc_lens a2 v1) (over svm_lens v1 s)) _ _ E3)).
    eexists 0, _. split; [reflexivity|]. left. split_and!; [done|by exists a3|].
    replace (O1 ∖ {[n]}) with O in Hv3 by set_solver +HO. exact Hv3.
Qed.
(** What asking for entry [u] does to the entries and the data pages. *)
Definition slot_step (create : bool) (u : Z) (e e' : Z → Z) (D D' : list Z) : Prop :=
  ((∀ u', e' u' = e u') ∧ D' = D) ∨
  (create = true ∧ e u = 0 ∧ ∃ p, p ∉ D ∧ D' = p :: D ∧ 0 ≤ p < np ∧ ∀ u', e' u' = if decide (u' = u) then p * PGSIZE + 1 else e u').

(** The last part of shmem_get_entry: the slot of a node. *)
Definition slot (shmn addr : Z) (create : bool) : M (shms A) Z :=
  n ← get_shmn shmn;
  let ptep := sn_entry n + 4 * (u32 (addr - sn_start n) / PGSIZE) in
  pte ← vm (load np ptep);
  (if bool_decide (pte = 0) then
     if create then
       page ← vm (alloc_page alloc_pages);
       match page with
       | Some page => vm (store np ptep (Z.lor (page2pa page) PTE_P));; vm (page_ref_inc get_ref set_ref page);; skip
       | None => skip
       end
     else skip
   else skip);;
  mret ptep.

Lemma slot_address u t : 0 ≤ u < UPN →
  sn_entry (node (u / 1024) t) + 4 * (u32 (u * PGSIZE - sn_start (node (u / 1024) t)) / PGSIZE) = kva_of t (u mod 1024).
Proof using Type.
  unfold UPN, UPDE. intros Hu. unfold node. cbn [sn_entry sn_start]. rewrite PIECE_eq.
  replace (u * PGSIZE - u / 1024 * (1024 * PGSIZE)) with (u mod 1024 * PGSIZE) by (pose proof (Z.div_mod u 1024 ltac:(lia)); lia).
  rewrite u32_small by (unfold is_u32, PGSIZE; pose proof (mod1024 u); lia). rewrite Z.div_mul by done. unfold kva_of. lia.
Qed.
Lemma entry_of_page p : 0 ≤ p < np → Z.lor (page2pa p) PTE_P = p * PGSIZE + 1 ∧
  (p * PGSIZE + 1) / PGSIZE = p ∧ (p * PGSIZE + 1) mod 2 = 1 ∧ is_u32 (p * PGSIZE + 1).
Proof using Hnp.
  intros Hp. pose proof (np_bound np Hnp). rewrite page2pa_small by lia. unfold PTE_P, PGSIZE.
  pose proof (lor_add p 1 12 ltac:(lia) ltac:(lia)) as Hl. rewrite Z.shiftl_mul_pow2 in Hl by lia. change (2 ^ 12) with 4096 in Hl.
  rewrite Hl. split_and!; [done|..].
  - rewrite Z.div_add_l by lia. change (1 / 4096) with 0. lia.
  - replace (p * 4096) with (p * 2048 * 2) by lia. by rewrite Z.add_comm, Z.mod_add.
  - unfold is_u32. lia.
Qed.

Lemma slot_ok s O T D ext R0 n u t create :
  ents O (svm s) T D ext R0 → 0 ≤ u < UPN → T !! (u / 1024) = Some t → shmns s !! n = Some (node (u / 1024) t) →
  ∃ v' D', slot n (u * PGSIZE) create s = Ret (kva_of t (u mod 1024), over svm_lens v' s) ∧ ents O v' T D' ext R0 ∧
    slot_step create u (tentry (words (svm s)) T) (tentry (words v') T) D D' ∧ calm (frames T) (svm s) v' ∧
    (create = false → v' = svm s).
Proof using HK Hnp HF.
  intros Hv Hu Ht Ex. unfold slot. rewrite (bind_Ret _ _ _ _ _ (get_shmn_run _ _ _ Ex)). cbv zeta. rewrite slot_address by done.
  rewrite (bind_Ret _ _ _ _ _ (entry_load np _ refof s T D ext R0 u t Hv Ht)).
  assert (Hsame : ∃ v' D', (skip;; mret (kva_of t (u mod 1024))) s = Ret (kva_of t (u mod 1024), over svm_lens v' s) ∧ ents O v' T D' ext R0 ∧
    slot_step create u (tentry (words (svm s)) T) (tentry (words v') T) D D' ∧ calm (frames T) (svm s) v' ∧ (create = false → v' = svm s)).
  { exists (svm s), D. split; [by destruct s|]. split_and!; [done|by left|done|done]. }
  case_bool_decide as He; [|exact Hsame]. destruct create; [|exact Hsame]. clear Hsame.
  destruct (ents_alloc alloc_pages free_pages np get_ref set_ref (λ a R, mem a O R) refof _ T D ext R0 Hv) as (r & a1 & E1 & Hr).
  rewrite bind_assoc, (bind_Ret _ _ _ _ _ (vm_run _ s _ _ E1)). destruct r as [p|].
  2: { exists (over palloc_lens a1 (svm s)), D. split_and!; [done|done|by left|done|done]. }
  destruct Hr as (_ & HpD & _ & Hpr & Hz & _ & _ & Hv1). destruct (entry_of_page p Hpr) as (Ee & Hep & Heo & Heu). rewrite Ee.
  set (v1 := over palloc_lens a1 (svm s)) in *. set (x := p * PGSIZE + 1) in *.
  rewrite !bind_assoc. rewrite (bind_Ret _ _ _ _ _ (entry_store np _ refof s T D ext R0 u t x Hv Ht a1)).
  set (v2 := set_words (<[t * 1024 + u mod 1024 := x]> (words (svm s))) (over palloc_lens a1 (svm s))).
  destruct (ref_run alloc_pages free_pages np get_ref set_ref (λ a R, mem a O R) refof Hnp v2 _ p (λ r, s32 (r + 1)) (eo_held _ _ _ _ _ _ _ _ Hv1))
    as (a3 & E3 & H3 & Hr3 & Hq3); [rewrite hand_singles; set_solver +|].
  change (palloc v2) with a1 in *. rewrite Hz in E3, Hr3. change (s32 (0 + 1)) with 1 in E3, Hr3.
  rewrite bind_assoc, (bind_Ret _ _ _ _ _ (vm_run _ (over svm_lens v2 s) _ _ E3)).
  destruct (ents_put np (λ a R, mem a O R) refof v1 (over palloc_lens a3 v2) T (p :: D) ext R0 u t x) as [Hv' He']; try done.
  - rewrite Hep. by left.
  - rewrite Hep. change (palloc v1) with a1. rewrite Hz. exact Hr3.
  - rewrite Hep. exact Hq3.
  - exists (over palloc_lens a3 v2), (p :: D). split_and!; [done|done| | |done].
    + right. split_and!; [done|exact He|]. exists p. split_and!; [done|done|lia|lia|exact He'].
    + by apply (calm_store (svm s) a3 t u x T).
Qed.
Lemma sorted_ext (f g : Z → Z) l : (∀ x, x ∈ l → g x = f x) →
  StronglySorted (λ a b, f a < f b) l → StronglySorted (λ a b, g a < g b) l.
Proof using Type.
  intros He Hs. induction Hs as [|x l Hs IH Hf]; constructor.
  - apply IH. intros y Hy. apply He. by right.
  - rewrite Forall_forall in Hf |- *. intros y Hy. rewrite !He; [by apply Hf|by right|by left].
Qed.

(** A new node, not yet in the list. *)
Lemma nodes_fresh s F shmem m N T n x v' :
  nodes_ok s F shmem m N T → n ∉ N → unowned F (ShmnLink n) →
  nodes_ok (MkShms A (<[n := x]> (shmns s)) (shmems s) (<[ShmnLink n := junk_entry (ShmnLink n)]> (slinks s)) v') F shmem m N T.
Proof using Type.
  intros [N1 N2 N3 N4 N5 N6] Hn Hu. assert (Hl : ∀ y, y ∈ N → <[n := x]> (shmns s) !! y = shmns s !! y).
  { intros y Hy. apply lookup_insert_ne. intros ->. done. }
  split; simpl; try done.
  - by apply dlists_fresh.
  - eapply sorted_ext; [|exact N4]. intros y Hy. unfold piece_of. by rewrite Hl.
  - intros y Hy. rewrite Hl by done. by apply N5.
  - intros i t. rewrite N6. split; intros (y & Hy & Ey); exists y; (split; [done|]); [by rewrite Hl|by rewrite Hl in Ey].
Qed.
Lemma nodes_vm s F shmem m N T v : nodes_ok s F shmem m N T → nodes_ok (over svm_lens v s) F shmem m N T.
Proof using Type. by intros [N1 N2 N3 N4 N5 N6]. Qed.
Lemma inv_vm s F O shmem m N T D D' ext R0 v :
  shm_inv s F O shmem m N T D ext R0 → ents O v T D' ext R0 → shm_inv (over svm_lens v s) F O shmem m N T D' ext R0.
Proof using Type. intros [I1 I2 I3 I4 I5] Hv. split; try done. by apply nodes_vm. Qed.
Lemma shm_inv_cached s F O shmem m N T D ext R0 n :
  shm_inv s F O shmem m N T D ext R0 → n = 0 ∨ n ∈ N → shm_inv (cache_set shmem n m s) F O shmem (cached n m) N T D ext R0.
Proof using Type.
  intros [I1 I2 I3 I4 I5] Hn. split; [by apply nodes_cached| | |done|done].
  - unfold cache_set. by case_bool_decide.
  - unfold cached. case_bool_decide; [done|]. simpl. tauto.
Qed.

(** shmn_create and insert_shmn. *)
Lemma add_node_ok fuel s F O shmem m N T D ext R0 i :
  shm_inv s F O shmem m N T D ext R0 → (length N < fuel)%nat → T !! i = None → 0 ≤ i < UPDE →
  ∃ n s' F' O' N' T', (shmn ← shmn_create alloc_pages np kmalloc kfree (i * PIECE);
      (if bool_decide (shmn = 0) then skip else insert_shmn fuel shmem shmn);; mret shmn) s = Ret (n, s') ∧
    shm_inv s' F' O' shmem m N' T' D ext R0 ∧ shmems s' = shmems s ∧ O ⊆ O' ∧ O' ∖ list_to_set N' = O ∖ list_to_set N ∧
    (∀ u, tentry (words (svm s')) T' u = tentry (words (svm s)) T u) ∧ calm (frames T') (svm s) (svm s') ∧
    (n = 0 ∧ T' = T ∨ n ≠ 0 ∧ ∃ t, T' !! i = Some t ∧ shmns s' !! n = Some (node i t)).
Proof using HK Hnp HF.
  intros Hi Hf HT Hir. destruct Hi as [I1 I2 I3 I4 I5].
  destruct (shmn_create_ok s O T D ext R0 i I2 HT Hir) as (n & s1 & E1 & [(-> & (a & ->) & Hv)|(H0 & HO & t & v' & _ & -> & Hv & He & Hc)]).
  { rewrite (bind_Ret _ _ _ _ _ E1), bool_decide_true by done. eexists 0, _, F, O, N, T. split; [reflexivity|].
    split_and!; [|done|done|done|done|done|by left]. split; try done. by apply nodes_vm. }
  rewrite (bind_Ret _ _ _ _ _ E1), bool_decide_false by done.
  assert (Hun : unowned F (ShmnLink n)) by (intros hd Ho; apply HO; by eapply I5).
  assert (HnN : n ∉ N).
  { intros Hin. apply HO. apply (I5 n (ShmnList shmem)). eexists. split; [apply I1|]. right. by apply list_elem_of_fmap_2. }
  set (s1 := MkShms A _ _ _ v') in *. pose proof (nodes_fresh s F shmem m N T n (node i t) v' I1 HnN Hun) as Hn1. fold s1 in Hn1.
  destruct (insert_shmn_ok fuel s1 F shmem m N T n i t Hn1 H0) as (h & N' & E2 & Hn2 & HN'); try done.
  { simpl. by rewrite lookup_insert_eq. } { simpl. rewrite lookup_insert_eq. by eexists. }
  rewrite (bind_Ret _ _ _ _ _ E2). eexists n, _, _, ({[n]} ∪ O), N', (<[i := t]> T). split; [reflexivity|].
  split_and!; [|done|set_solver +| |exact He| |].
  - split; [exact Hn2|exact Hv| | |].
    + destruct I3 as [?|?]; [by left|right]. rewrite HN'. by right.
    + destruct I4 as [J1 J2]. split; [set_solver +J1|]. rewrite HN'. intros [->|?]%elem_of_cons; done.
    + intros y hd [[-> Hy]|[_ Hy]]%owns_insert.
      * apply elem_of_cons in Hy as [?|Hy]; [done|]. apply list_elem_of_fmap in Hy as (y' & [= <-] & Hy). rewrite HN' in Hy.
        apply elem_of_cons in Hy as [->|Hy]; [set_solver +|]. apply elem_of_union_r, (I5 y (ShmnList shmem)).
        eexists. split; [apply I1|]. right. by apply list_elem_of_fmap_2.
      * apply elem_of_union_r. by eapply I5.
  - assert (HN : (list_to_set N' : gset Z) = {[n]} ∪ list_to_set N) by (by rewrite (list_to_set_perm_L _ _ HN')).
    rewrite HN. set_solver +HO.
  - eapply calm_mono; [exact Hc|]. intros p ->%list_elem_of_singleton. rewrite frames_insert by done. by left.
  - right. split; [done|]. exists t. split; [by rewrite lookup_insert_eq|]. simpl. by rewrite lookup_insert_eq.
Qed.
(** ** shmem_get_entry *)
Abbreviation get_entry := (shmem_get_entry alloc_pages np get_ref set_ref kmalloc kfree).

(** The address returned, for tables [T]. *)
Definition slot_of (T : gmap Z Z) (u : Z) : Z := match T !! (u / 1024) with Some t => kva_of t (u mod 1024) | None => 0 end.
(** Whatever an operation does elsewhere. *)
Record apart (shmem : Z) s s' O O' (N N' : list Z) (m m' : shmem_struct) (T' : gmap Z Z) : Prop := {
  ap_memory : calm (frames T') (svm s) (svm s');
  ap_objects : O ⊆ O';
  ap_rest : O' ∖ list_to_set N' = O ∖ list_to_set N;
  ap_length : shmem_len m' = shmem_len m;
  ap_others : ∀ q, q ≠ shmem → shmems s' !! q = shmems s !! q }.

Lemma page_index addr : 0 ≤ addr < KERNBASE → 0 ≤ addr / PGSIZE < UPN.
Proof using Type. unfold KERNBASE, UPN, UPDE, PGSIZE. intros. Z.div_mod_to_equations. lia. Qed.
Lemma piece_index u : 0 ≤ u < UPN → 0 ≤ u / 1024 < UPDE.
Proof using Type. unfold UPN, UPDE. intros. Z.div_mod_to_equations. lia. Qed.

Lemma cache_set_len n m : shmem_len (cached n m) = shmem_len m.
Proof using Type. unfold cached. by case_bool_decide. Qed.
Lemma cache_set_svm shmem n m s : svm (cache_set shmem n m s) = svm s ∧ shmns (cache_set shmem n m s) = shmns s.
Proof using Type. unfold cache_set. by case_bool_decide. Qed.
Lemma cache_set_others shmem n m s q : q ≠ shmem → shmems (cache_set shmem n m s) !! q = shmems s !! q.
Proof using Type. intros. unfold cache_set. case_bool_decide; [done|]. simpl. by rewrite lookup_insert_ne. Qed.

Lemma get_entry_ok fuel s F O shmem m N T D ext R0 addr create :
  let u := addr / PGSIZE in
  shm_inv s F O shmem m N T D ext R0 → (length N < fuel)%nat → 0 ≤ addr < shmem_len m → shmem_len m ≤ KERNBASE →
  ∃ s' F' O' m' N' T' D', get_entry fuel shmem addr create s = Ret (slot_of T' u, s') ∧
    shm_inv s' F' O' shmem m' N' T' D' ext R0 ∧
    slot_step create u (tentry (words (svm s)) T) (tentry (words (svm s')) T') D D' ∧
    apart shmem s s' O O' N N' m m' T' ∧ (create = false → svm s' = svm s ∧ T' = T ∧ O' = O).
Proof using HK Hnp HF.
  intros u Hi Hf Ha Hlen. pose proof (page_index addr ltac:(lia)) as Hu. fold u in Hu. pose proof (piece_index u Hu) as Hui.
  pose proof (si_nodes _ _ _ _ _ _ _ _ _ _ Hi) as Hn. unfold shmem_get_entry.
  rewrite (bind_Ret _ _ _ _ _ (get_shmem_run _ _ _ (no_shmem _ _ _ _ _ _ Hn))), bind_assert by (apply bool_decide_eq_true; lia).
  cbv zeta. rewrite ROUNDDOWN_page by lia. fold u.
  destruct (find_shmn_ok fuel s F shmem m N T (u * PGSIZE) Hn (si_cache _ _ _ _ _ _ _ _ _ _ Hi) Hf) as (n & E1 & Hfd).
  rewrite (bind_Ret _ _ _ _ _ E1). unfold found in Hfd. rewrite piece_page in Hfd.
  destruct (cache_set_svm shmem n m s) as [Esv Esn]. set (s1 := cache_set shmem n m s) in *.
  (* the slot of a node found or made *)
  assert (Hslot : ∀ s2 F2 O2 m2 N2 T2 n2 t, shm_inv s2 F2 O2 shmem m2 N2 T2 D ext R0 → T2 !! (u / 1024) = Some t →
    shmns s2 !! n2 = Some (node (u / 1024) t) → apart shmem s s2 O O2 N N2 m m2 T2 →
    (∀ u', tentry (words (svm s2)) T2 u' = tentry (words (svm s)) T u') →
    (create = false → svm s2 = svm s ∧ T2 = T ∧ O2 = O) →
    ∃ s' F' O' m' N' T' D', slot n2 (u * PGSIZE) create s2 = Ret (slot_of T' u, s') ∧ shm_inv s' F' O' shmem m' N' T' D' ext R0 ∧
      slot_step create u (tentry (words (svm s)) T) (tentry (words (svm s')) T') D D' ∧
      apart shmem s s' O O' N N' m m' T' ∧ (create = false → svm s' = svm s ∧ T' = T ∧ O' = O)).
  { intros s2 F2 O2 m2 N2 T2 n2 t Hi2 Ht2 Ex2 [P1 P2 P2' P3 P4] He2 Hcr.
    destruct (slot_ok s2 O2 T2 D ext R0 n2 u t create (si_ents _ _ _ _ _ _ _ _ _ _ Hi2) Hu Ht2 Ex2) as (v' & D' & E & Hv' & Hst & Hc & Hcv).
    exists (over svm_lens v' s2), F2, O2, m2, N2, T2, D'. unfold slot_of. rewrite Ht2. split; [exact E|].
    split_and!; [by eapply inv_vm| | |].
    - destruct Hst as [[H1 H2]|(H1 & H2 & p & Hp & HD & Hpr & H3)]; [left; split; [|done]; intros u'; by rewrite H1|].
      right. split_and!; [done|by rewrite <-He2|]. exists p. split_and!; [done|done|lia|lia|]. intros u'. rewrite H3. by rewrite He2.
    - split; [by eapply calm_trans|done|done|done|done].
    - intros Hcf. destruct (Hcr Hcf) as (? & ? & ?). split_and!; [by rewrite (Hcv Hcf)|done|done]. }
  destruct (T !! (u / 1024)) as [t|] eqn:Et.
  - destruct Hfd as (HnN & H0 & Ex). rewrite <-Esn in Ex. rewrite (bool_decide_false (n = 0)) by done.
    rewrite (bind_Ret _ _ s1 () s1).
    2: { rewrite (bind_Ret _ _ _ _ _ (get_shmn_run _ _ _ Ex)), covered, piece_page. by rewrite bool_decide_true. }
    rewrite bind_mret, (bool_decide_false (n = 0)) by done.
    apply (Hslot s1 F O (cached n m) N T n t); [by apply shm_inv_cached; [|right]|done|done| |by rewrite Esv|done].
    split; [by rewrite Esv|done|done|apply cache_set_len|by intros; apply cache_set_others].
  - subst n. change s1 with s. rewrite bool_decide_true by done. rewrite bind_skip. fold PIECE. rewrite ROUNDDOWN_piece by done.
    destruct create.
    2: { rewrite bind_mret. simpl. exists s, F, O, m, N, T, D. unfold slot_of. rewrite Et. split_and!; [done|done|by left|by split|done]. }
    destruct (add_node_ok fuel s F O shmem m N T D ext R0 (u / 1024) Hi Hf Et Hui)
      as (n & s2 & F2 & O2 & N2 & T2 & E2 & Hi2 & Hsm & HO & HON & He2 & Hc2 & Hcase).
    rewrite (bind_Ret _ _ _ _ _ E2).
    assert (Hap : apart shmem s s2 O O2 N N2 m m T2) by (split; [done|done|done|done|by rewrite Hsm]).
    destruct Hcase as [[-> ->]|(H0 & t & Ht & Ex)].
    + rewrite bool_decide_true by done. exists s2, F2, O2, m, N2, T, D. unfold slot_of. rewrite Et. split_and!; [done|done|by left|done|done].
    + rewrite bool_decide_false by done. by apply (Hslot s2 F2 O2 m N2 T2 n t).
Qed.
(** ** shmem_insert_entry *)
Abbreviation insert_entry := (shmem_insert_entry alloc_pages free_pages np get_ref set_ref PageSwap kmalloc kfree).

(** The references to a page depend on the entries only. *)
Lemma refs_same O O' v v' T T' D D' ext R0 R0' q :
  ents O v T D ext R0 → ents O' v' T' D' ext R0' → (∀ u, tentry (words v') T' u = tentry (words v) T u) → q ∈ D → q ∈ D' →
  refof (palloc v') q = refof (palloc v) q.
Proof using Type.
  intros H1 H2 He Hq Hq'. rewrite (eo_refs _ _ _ _ _ _ _ _ H1 q Hq), (eo_refs _ _ _ _ _ _ _ _ H2 q Hq').
  f_equal. by apply count_ext.
Qed.

(** The old entry goes, whether it was there before or just made. *)
Lemma clear_slot_ok s O T D ext R0 O1 s1 T1 D1 u t :
  let e := tentry (words (svm s)) T in let p := e u / PGSIZE in
  ents O (svm s) T D ext R0 → ents O1 (svm s1) T1 D1 ext R0 → 0 ≤ u < UPN → T1 !! (u / 1024) = Some t →
  slot_step true u e (tentry (words (svm s1)) T1) D D1 →
  ∃ v2, (if bool_decide (tentry (words (svm s1)) T1 u ≠ 0)
         then shmem_remove_entry_pte free_pages np get_ref set_ref PageSwap (kva_of t (u mod 1024)) else skip) s1 =
      Ret ((), over svm_lens v2 s1) ∧
    ents O1 v2 T1 (without (e u) (refof (palloc (svm s)) p) D) ext R0 ∧ calm (frames T1) (svm s1) v2 ∧
    ∀ u', tentry (words v2) T1 u' = if decide (u' = u) then 0 else e u'.
Proof using HK Hnp Hswap.
  intros e p Hv Hv1 Hu Ht Hst. set (e1 := tentry (words (svm s1)) T1 u).
  destruct (remove_pte_ok alloc_pages free_pages np get_ref set_ref PageSwap (λ a R, mem a O1 R) refof Hnp (λ a R, Hswap a O1 R) s1 T1 D1 ext R0 u t Hv1 Hu Ht)
    as (v2 & E2 & Hv2 & He2 & Hc2). fold e1 in Hv2.
  assert (HD : without e1 (refof (palloc (svm s1)) (e1 / PGSIZE)) D1 = without (e u) (refof (palloc (svm s)) p) D ∧
    ∀ u', u' ≠ u → tentry (words (svm s1)) T1 u' = e u').
  { destruct Hst as [[Hs ->]|(_ & H0 & q & Hq & -> & Hqr & Hs)].
    - split; [|by intros]. assert (Ee : e1 = e u) by (unfold e1; by rewrite Hs). rewrite Ee. fold p. unfold without.
      case_bool_decide as Hz; [done|]. destruct (eo_data _ _ _ _ _ _ _ _ Hv u Hu) as [?|(_ & _ & Hp)]; [done|].
      by rewrite (refs_same O O1 (svm s) (svm s1) T T1 D D ext R0 R0 p Hv Hv1 Hs Hp Hp).
    - split; [|intros u' Hne; rewrite Hs; by rewrite decide_False].
      assert (Ee : e1 = q * PGSIZE + 1) by (unfold e1; rewrite Hs; by rewrite decide_True).
      destruct (entry_of_page q Hqr) as (_ & Eq & _). rewrite Ee, Eq.
      assert (Hr1 : refof (palloc (svm s1)) q = 1).
      { rewrite (eo_refs _ _ _ _ _ _ _ _ Hv1 q ltac:(by left)), (count_update (words (svm s)) T _ _ q u (q * PGSIZE + 1) Hu Hs).
        rewrite (count_absent _ _ D) by (done || apply Hv). unfold e in H0. rewrite H0, here_zero. unfold here.
        rewrite bool_decide_true by (split; [unfold PGSIZE; lia|done]).
        destruct (decide (ext q = 0)) as [->|Hx]; [done|]. destruct Hq. by apply (eo_in _ _ _ _ _ _ _ _ Hv). }
      rewrite Hr1. unfold without. rewrite bool_decide_false by (unfold PGSIZE; lia). rewrite Eq. change (1 - 1) with 0.
      rewrite drop_fresh by done. rewrite bool_decide_true; done. }
  destruct HD as [HD Hrest]. rewrite HD in Hv2.
  assert (He2' : ∀ u', tentry (words v2) T1 u' = if decide (u' = u) then 0 else e u').
  { intros u'. rewrite He2. destruct (decide (u' = u)); [done|by apply Hrest]. }
  destruct (decide (e1 = 0)) as [H0|H0]; [|rewrite bool_decide_true by done; by exists v2].
  rewrite bool_decide_false by tauto. exists (svm s1). split; [by destruct s1|].
  rewrite <-HD. unfold without. rewrite bool_decide_true by done. split_and!; [done|done|]. intros u'.
  destruct (decide (u' = u)) as [->|]; [done|by apply Hrest].
Qed.

(** page_ref_inc when the entry is present, and the store. *)
Lemma fill_slot_ok s1 O v2 T D ext R0 u t entry :
  ents O v2 T D ext R0 → 0 ≤ u < UPN → T !! (u / 1024) = Some t → tentry (words v2) T u = 0 →
  entry = 0 ∨ (entry mod 2 = 1 ∧ is_u32 entry ∧ entry / PGSIZE ∈ D) →
  ∃ v', ((if bool_decide (Z.land entry PTE_P ≠ 0) then
           p ← pte2page np entry; vm (page_ref_inc get_ref set_ref p);; skip else skip);;
         vm (store np (kva_of t (u mod 1024)) entry);; mret 0) (over svm_lens v2 s1) = Ret (0, over svm_lens v' s1) ∧
    ents O v' T D ext R0 ∧ calm (frames T) v2 v' ∧ ∀ u', tentry (words v') T u' = if decide (u' = u) then entry else tentry (words v2) T u'.
Proof using HK Hnp.
  intros Hv Hu Ht H0 Hen. set (s2 := over svm_lens v2 s1 : shms A).
  destruct Hen as [->|(Hodd & Hu32 & Hp)].
  - rewrite bool_decide_false by (intros H; by apply H). rewrite bind_skip.
    pose proof (entry_store np (λ a R, mem a O R) refof s2 T D ext R0 u t 0 Hv Ht (palloc v2)) as E. change (palloc v2) with (palloc (svm s2)) in E at 1.
    rewrite back_same in E. rewrite (bind_Ret _ _ _ _ _ E). eexists. split; [reflexivity|].
    destruct (ents_update np (λ a R, mem a O R) refof v2 (set_words (<[t * 1024 + u mod 1024 := 0]> (words v2)) v2) T D D ext R0 u t 0 Hv Hu Ht)
      as [Hv' He']; [done|apply Hv|by left|by intros| |].
    + intros q Hq. rewrite H0, here_zero. simpl palloc. rewrite (eo_refs _ _ _ _ _ _ _ _ Hv q Hq). lia.
    + split_and!; [by destruct v2|by apply (calm_store v2 (palloc v2) t u 0 T)|exact He'].
  - rewrite bool_decide_true by (by apply present_spec).
    destruct (eo_hand alloc_pages free_pages np get_ref set_ref (λ a R, mem a O R) refof _ _ _ _ _ _ Hv Hp) as [Hh Hpr].
    rewrite bind_assoc, (bind_Ret _ _ _ _ _ (pte2page_ret np s2 entry Hodd Hu32 Hpr)).
    destruct (ref_run alloc_pages free_pages np get_ref set_ref (λ a R, mem a O R) refof Hnp v2 _ (entry / PGSIZE) (λ r, s32 (r + 1))
      (eo_held _ _ _ _ _ _ _ _ Hv) Hh) as (a3 & E3 & H3 & Hr3 & Hq3).
    rewrite bind_assoc, (bind_Ret _ _ _ _ _ (vm_run _ s2 _ _ E3)), bind_skip.
    rewrite (bind_Ret _ _ _ _ _ (entry_store np (λ a R, mem a O R) refof s2 T D ext R0 u t entry Hv Ht a3)).
    eexists. split; [reflexivity|]. rewrite s32_small in Hr3.
    2: { pose proof (eo_refs _ _ _ _ _ _ _ _ Hv _ Hp) as Hc. pose proof (count_bound (words v2) T (entry / PGSIZE)).
         pose proof (count_nonneg (words v2) T (entry / PGSIZE)).
         pose proof (eo_ext _ _ _ _ _ _ _ _ Hv (entry / PGSIZE)). unfold UPN, UPDE in *. lia. }
    destruct (ents_put np (λ a R, mem a O R) refof v2 (set_words (<[t * 1024 + u mod 1024 := entry]> (words v2)) (over palloc_lens a3 v2))
      T D ext R0 u t entry) as [Hv' He']; try done.
    split_and!; [exact Hv'|by apply calm_store|exact He'].
Qed.

Lemma insert_entry_ok fuel s F O shmem m N T D ext R0 addr entry :
  let u := addr / PGSIZE in let e := tentry (words (svm s)) T in let p := e u / PGSIZE in
  let D1 := without (e u) (refof (palloc (svm s)) p) D in
  shm_inv s F O shmem m N T D ext R0 → (length N < fuel)%nat → 0 ≤ addr < shmem_len m → shmem_len m ≤ KERNBASE →
  entry = 0 ∨ (entry mod 2 = 1 ∧ is_u32 entry ∧ entry / PGSIZE ∈ D1) →
  ∃ r s' F' O' m' N' T' D', insert_entry fuel shmem addr entry s = Ret (r, s') ∧
    shm_inv s' F' O' shmem m' N' T' D' ext R0 ∧ apart shmem s s' O O' N N' m m' T' ∧
    ((r = - E_NO_MEM ∧ T' !! (u / 1024) = None ∧ D' = D ∧ ∀ u', tentry (words (svm s')) T' u' = e u') ∨
     (r = 0 ∧ D' = D1 ∧ ∀ u', tentry (words (svm s')) T' u' = if decide (u' = u) then entry else e u')).
Proof using HK Hnp HF Hswap.
  intros u e p D1 Hi Hf Ha Hlen Hen. pose proof (page_index addr ltac:(lia)) as Hu. fold u in Hu.
  destruct (get_entry_ok fuel s F O shmem m N T D ext R0 addr true Hi Hf Ha Hlen)
    as (s1 & F1 & O1 & m1 & N1 & T1 & D' & E1 & Hi1 & Hst & Hap & _). fold u e in E1, Hst.
  unfold shmem_insert_entry. rewrite (bind_Ret _ _ _ _ _ E1). unfold slot_of.
  pose proof (si_ents _ _ _ _ _ _ _ _ _ _ Hi) as Hv. pose proof (si_ents _ _ _ _ _ _ _ _ _ _ Hi1) as Hv1.
  destruct (T1 !! (u / 1024)) as [t|] eqn:Et.
  2: { rewrite bool_decide_true by done. eexists _, s1, F1, O1, m1, N1, T1, D'. split_and!; [done|done|done|]. left.
       split_and!; [done|done|..]; destruct Hst as [[Hs ->]|(_ & _ & q & _ & _ & Hqr & Hs)]; try done;
         specialize (Hs u); unfold tentry in Hs at 1; rewrite Et, decide_True in Hs by done; unfold PGSIZE in Hs; lia. }
  destruct (eo_range _ _ _ _ _ _ _ _ Hv1 _ _ Et) as [_ Htr].
  rewrite bool_decide_false by (unfold kva_of, KERNBASE, PGSIZE; pose proof (mod1024 u); lia).
  rewrite (bind_Ret _ _ _ _ _ (entry_load np _ refof s1 T1 D' ext R0 u t Hv1 Et)).
  destruct (clear_slot_ok s O T D ext R0 O1 s1 T1 D' u t Hv Hv1 Hu Et Hst) as (v2 & E2 & Hv2 & Hc2 & He2). fold e p in Hv2, He2. fold D1 in Hv2.
  rewrite (bind_Ret _ _ _ _ _ E2).
  destruct (fill_slot_ok s1 O1 v2 T1 D1 ext R0 u t entry Hv2 Hu Et ltac:(rewrite He2; by rewrite decide_True) Hen) as (v3 & E3 & Hv3 & Hc3 & He3).
  eexists 0, (over svm_lens v3 s1), F1, O1, m1, N1, T1, D1. split; [exact E3|]. split_and!; [by eapply inv_vm| |].
  - destruct Hap as [P1 P2 P2' P3 P4]. split; [|done|done|done|done]. eapply calm_trans; [exact P1|]. by eapply calm_trans.
  - right. split_and!; [done|done|]. intros u'. simpl svm. rewrite He3, He2. by destruct (decide (u' = u)).
Qed.
(** ** shmem_destroy *)
Abbreviation destroy_node := (shmn_destroy free_pages np get_ref set_ref PageSwap kfree).

(** shmn_destroy, on a node that is in no list. *)
Lemma shmn_destroy_ok s O T D ext R0 n i t :
  ents O (svm s) T D ext R0 → n ∈ O → T !! i = Some t → shmns s !! n = Some (node i t) →
  ∃ v' D', destroy_node n s = Ret ((), MkShms A (delete n (shmns s)) (shmems s) (delete (ShmnLink n) (slinks s)) v') ∧
    ents (O ∖ {[n]}) v' (delete i T) D' ext R0 ∧
    left_over (totals (svm s) T ext) (totals v' (delete i T) ext) D D' ∧ calm (frames T) (svm s) v'.
Proof using HK Hnp Hswap.
  intros Hv Hn Ht Ex. unfold shmn_destroy. rewrite (bind_Ret _ _ _ _ _ (get_shmn_run _ _ _ Ex)). cbn [sn_entry node].
  destruct (eo_range _ _ _ _ _ _ _ _ Hv _ _ Ht) as [_ Htr]. change (Z.to_nat SHMN_NENTRY) with 1024%nat.
  destruct (remove_entries_ok alloc_pages free_pages np get_ref set_ref PageSwap (λ a R, mem a O R) refof Hnp (λ a R, Hswap a O R) 1024 s T D ext R0 i t 0
    Hv Ht ltac:(lia) ltac:(lia)) as (v1 & D1 & E1 & Hv1 & He1 & Hl1 & Hc1).
  rewrite (bind_Ret _ _ _ _ _ E1).
  destruct (page_kva_run (over svm_lens v1 s) np t Htr Hnp) as [_ Ek]. rewrite kva_zero in Ek. rewrite (bind_Ret _ _ _ _ _ Ek).
  destruct (ents_free alloc_pages free_pages np get_ref set_ref (λ a R, mem a O R) refof v1 T D1 ext R0 i t Hv1 Ht) as (a2 & E2 & Hv2 & He2 & _).
  { intros u Eu. rewrite He1, decide_True; [done|]. pose proof (Z.div_mod u 1024 ltac:(lia)). pose proof (mod1024 u). lia. }
  rewrite (bind_Ret _ _ _ _ _ (vm_run _ (over svm_lens v1 s) _ _ E2)).
  destruct (kfree_ents O (over palloc_lens a2 v1) (delete i T) D1 ext R0 n Hv2 Hn) as (a3 & E3 & Hv3 & _).
  rewrite (bind_Ret _ _ _ _ _ (on_alloc_run _ (over svm_lens (over palloc_lens a2 v1) (over svm_lens v1 s)) _ _ E3)).
  eexists _, D1. split; [reflexivity|]. split_and!; [exact Hv3| |exact Hc1].
  eapply left_over_trans; [exact Hl1|]. split.
  - intros q. pose proof (eo_ext _ _ _ _ _ _ _ _ Hv q). unfold totals. pose proof (count_nonneg (words v1) (delete i T) q).
    cbn [words over palloc_lens]. rewrite (count_ext (words v1) T (words v1) (delete i T) q) in * by (intros; apply He2). lia.
  - intros q. unfold totals. cbn [words over palloc_lens]. rewrite (count_ext (words v1) T (words v1) (delete i T) q) by (intros; apply He2). tauto.
Qed.

Lemma nodes_gone s F shmem m N T n v' : nodes_ok s F shmem m N T → n ∉ N → unowned F (ShmnLink n) →
  nodes_ok (MkShms A (delete n (shmns s)) (shmems s) (delete (ShmnLink n) (slinks s)) v') F shmem m N T.
Proof using Type.
  intros [N1 N2 N3 N4 N5 N6] Hn Hu. assert (Hl : ∀ y, y ∈ N → delete n (shmns s) !! y = shmns s !! y).
  { intros y Hy. apply lookup_delete_ne. intros ->. done. }
  split; simpl; try done.
  - by apply dlists_delete.
  - eapply sorted_ext; [|exact N4]. intros y Hy. unfold piece_of. by rewrite Hl.
  - intros y Hy. rewrite Hl by done. by apply N5.
  - intros i t. rewrite N6. split; intros (y & Hy & Ey); exists y; (split; [done|]); [by rewrite Hl|by rewrite Hl in Ey].
Qed.
Lemma nodes_nil s F shmem m T : nodes_ok s F shmem m [] T → T = ∅.
Proof using Type.
  intros Hn. apply map_empty. intros i. destruct (T !! i) as [t|] eqn:E; [|done].
  apply (no_table _ _ _ _ _ _ Hn) in E as (n & []%elem_of_nil & _).
Qed.

Lemma destroy_loop_ok fuel s F O shmem m N T D ext R0 :
  nodes_ok s F shmem m N T → ents O (svm s) T D ext R0 → (∀ n, n ∈ N → n ∈ O) → (length N < fuel)%nat →
  ∃ s' O' D', destroy_loop free_pages np get_ref set_ref PageSwap kfree fuel shmem s = Ret ((), s') ∧
    nodes_ok s' (<[ShmnList shmem := []]> F) shmem m [] ∅ ∧ ents O' (svm s') ∅ D' ext R0 ∧ O' = O ∖ list_to_set N ∧
    left_over (totals (svm s) T ext) (totals (svm s') ∅ ext) D D' ∧ shmems s' = shmems s ∧ calm (frames T) (svm s) (svm s').
Proof using HK Hnp Hswap.
  revert fuel s F O T D. induction N as [|n N IH]; intros fuel s F O T D Hn Hv HO Hf; (destruct fuel as [|fuel]; [simpl in Hf; lia|]);
    cbn [destroy_loop]; rewrite (bind_Ret _ _ _ _ _ (next_node s F shmem m _ T [] _ Hn eq_refl)); unfold firstof; simpl.
  - rewrite bool_decide_true by done. pose proof (nodes_nil _ _ _ _ _ Hn) as ->. exists s, O, D. split; [reflexivity|]. split_and!; [|exact Hv| | |reflexivity|apply calm_refl].
    + rewrite insert_id; [done|]. apply (no_list _ _ _ _ _ _ Hn).
    + set_solver +.
    + apply left_over_refl. apply (eo_ext _ _ _ _ _ _ _ _ Hv).
  - destruct (no_node _ _ _ _ _ _ Hn n ltac:(by left)) as (H0 & i & t & Ex).
    assert (Ht : T !! i = Some t) by (apply (no_table _ _ _ _ _ _ Hn); exists n; split; [by left|done]).
    destruct (list_del_dlists (slinks s) F (ShmnList shmem) [] (ShmnLink n) (ShmnLink <$> N)) as (h & E1 & Hd & _ & Hun);
      [apply Hn|apply Hn|]. simpl app in Hd, Hun.
    rewrite (bind_Ret _ _ _ _ _ (sl_run _ s _ _ E1)). set (s1 := upd_slinks (λ _, h) s).
    pose proof (nodes_pop s h F shmem m n N T i t Hn Ex Hd) as Hn1. fold s1 in Hn1.
    destruct (shmn_destroy_ok s1 O T D ext R0 n i t Hv ltac:(apply HO; by left) Ht Ex) as (v2 & D2 & E2 & Hv2 & Hl2 & Hc2).
    rewrite (bind_Ret _ _ _ _ _ E2).
    assert (HnN : n ∉ N).
    { intros Hin. apply (Hun (ShmnList shmem)). eexists. split; [by rewrite lookup_insert_eq|]. right. by apply list_elem_of_fmap_2. }
    pose proof (nodes_gone s1 _ shmem m N _ n v2 Hn1 HnN Hun) as Hn2.
    assert (HO' : ∀ x, x ∈ N → x ∈ O ∖ {[n]}).
    { intros x Hx. apply elem_of_difference. split; [apply HO; by right|]. intros ->%elem_of_singleton. done. }
    destruct (IH fuel _ _ (O ∖ {[n]}) (delete i T) D2 Hn2 Hv2 HO' ltac:(simpl in Hf; lia)) as (s' & O' & D' & E3 & Hn3 & Hv3 & HO3 & Hl3 & Hs3 & Hc3).
    rewrite insert_insert_eq in Hn3. exists s', O', D'. split; [exact E3|]. split_and!; [exact Hn3|exact Hv3| | |exact Hs3|].
    + rewrite HO3. set_solver +.
    + eapply left_over_trans; [exact Hl2|exact Hl3].
    + eapply calm_trans; [exact Hc2|]. eapply calm_mono; [exact Hc3|]. intros p Hp. rewrite (frames_delete T i t Ht). by right.
Qed.

Lemma shmem_destroy_ok fuel s F O shmem m N T D ext R0 :
  shm_inv s F O shmem m N T D ext R0 → (length N < fuel)%nat →
  ∃ s' D', shmem_destroy free_pages np get_ref set_ref PageSwap kfree fuel shmem s = Ret ((), s') ∧
    mem (palloc (svm s')) (O ∖ ({[shmem]} ∪ list_to_set N)) (singles D' ++ R0) ∧
    (∀ q, q ∈ D' ↔ q ∈ D ∧ (ext q = 0 → count (words (svm s)) T q = 0)) ∧
    (∀ q, q ∈ D' → refof (palloc (svm s')) q = ext q) ∧
    shmems s' = delete shmem (shmems s) ∧ dlists (slinks s') (delete (ShmnList shmem) F) ∧ calm (frames T) (svm s) (svm s').
Proof using HK Hnp Hswap.
  intros Hi Hf. pose proof Hi as [I1 I2 I3 [I4 I4'] I5].
  destruct (destroy_loop_ok fuel s F O shmem m N T D ext R0 I1 I2 (λ n, in_objects s F O shmem m N T D ext R0 n Hi) Hf)
    as (s1 & O1 & D1 & E1 & Hn1 & Hv1 & -> & Hl1 & Hs1 & Hc1).
  unfold shmem_destroy. rewrite (bind_Ret _ _ _ _ _ E1).
  destruct (kfree_ents _ (svm s1) ∅ D1 ext R0 shmem Hv1) as (a2 & E2 & Hv2 & Hk2).
  { apply elem_of_difference. split; [done|]. by rewrite elem_of_list_to_set. }
  rewrite (bind_Ret _ _ _ _ _ (on_alloc_run _ s1 _ _ E2)).
  assert (Hz : ∀ w q, count w ∅ q = 0).
  { intros w q. apply (count_absent _ _ []); [|by intros ?%elem_of_nil]. intros u _. left. unfold tentry. by rewrite lookup_empty. }
  eexists _, D1. split; [reflexivity|]. cbn [upd_slinks upd_shmems svm palloc over svm_lens palloc_lens shmems slinks].
  split_and!; [| | |by rewrite Hs1| |exact Hc1].
  - pose proof (eo_held _ _ _ _ _ _ _ _ Hv2) as Hm. unfold frames in Hm. rewrite map_to_list_empty in Hm. simpl in Hm.
    replace (O ∖ ({[shmem]} ∪ list_to_set N)) with ((O ∖ list_to_set N) ∖ {[shmem]}) by set_solver +. exact Hm.
  - intros q. destruct Hl1 as [_ Hl1]. rewrite Hl1. unfold totals. rewrite Hz.
    pose proof (count_nonneg (words (svm s)) T q) as Hc. revert Hc. generalize (count (words (svm s)) T q) (ext q). clear.
    intros c x Hc. split; intros [Hq Hx]; (split; [exact Hq|]); intros H0; specialize (Hx ltac:(lia)); lia.
  - intros q Hq. rewrite Hk2 by done. rewrite (eo_refs _ _ _ _ _ _ _ _ Hv1 q Hq), Hz. lia.
  - rewrite <-(delete_insert_eq F (ShmnList shmem) []). eapply dlists_delete; [by apply dlists_drop, (no_links _ _ _ _ _ _ Hn1)|].
    eapply dlists_dropped; [apply Hn1|]. eexists. split; [by rewrite lookup_insert_eq|by left].
Qed.
(** ** shmem_create, and how many nodes there can be *)
Lemma shmem_create_ok s F O D ext R0 len :
  dlists (slinks s) F → ents O (svm s) ∅ D ext R0 →
  (∀ n hd, owns F (ShmnLink n) hd → n ∈ O) → (∀ n hd, owns F (ShmnList n) hd → n ∈ O) →
  ∃ p s', shmem_create kmalloc len s = Ret (p, s') ∧
    ((p = 0 ∧ ents O (svm s') ∅ D ext R0) ∨
     (p ≠ 0 ∧ p ∉ O ∧ shm_inv s' (<[ShmnList p := []]> F) ({[p]} ∪ O) p (MkShmem 0 len 0 {[0 := 0]}) [] ∅ D ext R0)).
Proof using HK.
  intros Hd Hv Hl1 Hl2. unfold shmem_create.
  destruct (kmalloc_ents O (svm s) ∅ D ext R0 sizeof_shmem Hv ltac:(done)) as (p & a1 & E1 & Hp).
  rewrite (bind_Ret _ _ _ _ _ (on_alloc_run _ s _ _ E1)). destruct Hp as [[-> Hp]|(H0 & HO & Hp)].
  { rewrite bool_decide_false by tauto. eexists 0, _. split; [reflexivity|]. left. split; [done|exact Hp]. }
  rewrite bool_decide_true by done. rewrite !bind_assoc, bind_modify, bind_assoc, bind_modify.
  assert (Hun : unowned F (ShmnList p)) by (intros hd Ho; apply HO; by eapply Hl2).
  destruct (list_init_dlists (<[ShmnList p := junk_entry (ShmnList p)]> (slinks s)) F (ShmnList p)) as (h & E2 & Hd2 & _);
    [by apply dlists_fresh|done|rewrite lookup_insert_eq; by eexists|].
  match goal with |- context [(_ ≫= ?k) ?s2] => set (s2' := s2) end.
  rewrite bind_assoc, (bind_Ret _ _ _ _ _ (sl_run _ s2' _ _ E2)).
  rewrite (bind_Ret _ _ _ _ _ (set_shmem_run (upd_slinks (λ _, h) s2') p (MkShmem 0 0 0 ∅) _ ltac:(simpl; by rewrite lookup_insert_eq))).
  eexists p, _. split; [reflexivity|]. right. split_and!; [done|done|]. split.
  - split; simpl; try done.
    + by rewrite lookup_insert_eq.
    + by rewrite lookup_insert_eq.
    + constructor.
    + by intros n ?%elem_of_nil.
    + intros i t. rewrite lookup_empty. split; [done|]. by intros (n & ?%elem_of_nil & _).
  - exact Hp.
  - by left.
  - split; [set_solver +|by intros ?%elem_of_nil].
  - intros n hd [[-> Hn]|[_ Hn]]%owns_insert; [by apply list_elem_of_singleton in Hn|]. apply elem_of_union_r. by eapply Hl1.
Qed.

Lemma nodes_length s F O shmem m N T D ext R0 : shm_inv s F O shmem m N T D ext R0 → (length N ≤ 768)%nat.
Proof using Type.
  intros [I1 I2 _ _ _]. pose proof (no_sorted _ _ _ _ _ _ I1) as Hs.
  assert (Hnd : NoDup (piece_of (shmns s) <$> N)).
  { clear -Hs. induction Hs as [|x l Hs IH Hf]; csimpl; constructor; [|done].
    rewrite list_elem_of_fmap. intros (y & Hy & Hin). rewrite Forall_forall in Hf. specialize (Hf y Hin). simpl in Hf. lia. }
  rewrite <-(length_fmap (piece_of (shmns s))). change 768%nat with (length (seqZ 0 768)).
  apply submseteq_length, NoDup_submseteq; [done|]. intros i (n & -> & Hn)%list_elem_of_fmap.
  destruct (no_node _ _ _ _ _ _ I1 n Hn) as (_ & j & t & Ex). rewrite (piece_node _ _ _ _ Ex).
  assert (Ht : T !! j = Some t) by (apply (no_table _ _ _ _ _ _ I1); by exists n).
  destruct (eo_range _ _ _ _ _ _ _ _ I2 _ _ Ht) as [Hj _]. unfold UPDE in Hj. apply elem_of_seqZ. lia.
Qed.
End Ops.
