(* ===== verification/Vmm.v ===== *)
(** * kern/mm/vmm.c: virtual memory areas

    A memory descriptor (mm_struct) has its areas in a list ordered by address
    and, from RB_MIN_MAP_COUNT areas on, in a red-black tree as well.  The list
    entries and the tree nodes embedded in the areas are the heaps of [DList]
    and [RbTree]; an area's tree node has the area's address. *)
From stdpp Require Import base gmap list fin_maps.
From Stdlib Require Import ZArith Lia.
From S2P Require Import Prelude DList Bits Printfmt Mmu RbTree Pmm Shmem.

Record vma_struct : Type := MkVma {
  vm_mm : Z; vm_start : Z; vm_end : Z; vm_flags : Z; vm_shmem : Z; shmem_off : Z }.
Record mm_struct : Type := MkMm { mmap_tree : Z; mmap_cache : Z; pgdir : Z; map_count : Z }.

(** Addresses of list entries: mm->mmap_list, vma->list_link and the local
    variable free_list of mm_unmap. *)
Inductive vlink : Type := MmapList (mm : Z) | VmaLink (vma : Z) | UnmapList.
#[global] Instance vlink_eq_dec : EqDecision vlink.
Proof. solve_decision. Defined.
#[global] Instance vlink_countable : Countable vlink.
Proof.
  refine (inj_countable'
    (λ a, match a with MmapList x => inl x | VmaLink p => inr (inl p) | UnmapList => inr (inr ()) end)
    (λ s, match s with inl x => MmapList x | inr (inl p) => VmaLink p | inr (inr _) => UnmapList end) _).
  by intros [].
Defined.
Definition le2vma (le : vlink) : Z := match le with VmaLink v => v | _ => 0 end.

Record vmms {A : Type} : Type := MkVmms {
  vmas : gmap Z vma_struct;
  mms : gmap Z mm_struct;
  vlinks : gmap vlink (list_entry vlink);
  rbnodes : gmap Z rb_node;
  rbtrees : gmap Z (Z * Z);       (* the nil and root nodes of a tree *)
  sh : shms A }.
Arguments vmms : clear implicits.

Definition VM_READ : Z := 1.
Definition VM_WRITE : Z := 2.
Definition VM_EXEC : Z := 4.
Definition VM_STACK : Z := 8.
Definition VM_SHARE : Z := 16.
Definition RB_MIN_MAP_COUNT : Z := 32.

(** vma_compare, with the areas the two nodes are embedded in. *)
Definition start_of (vs : gmap Z vma_struct) (v : Z) : Z := match vs !! v with Some x => vm_start x | None => 0 end.
Definition vma_compare (vs : gmap Z vma_struct) (node1 node2 : Z) : Z :=
  let start1 := start_of vs node1 in
  let start2 := start_of vs node2 in
  if bool_decide (start1 < start2) then -1 else if bool_decide (start1 > start2) then 1 else 0.

Section Model.
Context {A : Type}.
Context (alloc_pages : Z → M A (option Z)) (free_pages : Z → Z → M A unit) (npage : Z).
Context (get_ref : Z → M A Z) (set_ref : Z → Z → M A unit) (PageSwap : Z → M A bool).
Context (kmalloc : Z → M A Z) (kfree : Z → M A unit).
Context (fuel : nat).
Abbreviation VM := (vmms A).

Definition sh_lens : lens VM (shms A) :=
  Lens sh (λ x s, MkVmms A (vmas s) (mms s) (vlinks s) (rbnodes s) (rbtrees s) x).
Definition vlinks_lens : lens VM (gmap vlink (list_entry vlink)) :=
  Lens vlinks (λ x s, MkVmms A (vmas s) (mms s) x (rbnodes s) (rbtrees s) (sh s)).
Definition rb_lens : lens VM (gmap Z rb_node) :=
  Lens rbnodes (λ x s, MkVmms A (vmas s) (mms s) (vlinks s) x (rbtrees s) (sh s)).
Definition upd_vmas (f : gmap Z vma_struct → gmap Z vma_struct) (s : VM) : VM :=
  MkVmms A (f (vmas s)) (mms s) (vlinks s) (rbnodes s) (rbtrees s) (sh s).
Definition upd_mms (f : gmap Z mm_struct → gmap Z mm_struct) (s : VM) : VM :=
  MkVmms A (vmas s) (f (mms s)) (vlinks s) (rbnodes s) (rbtrees s) (sh s).
Definition upd_vlinks (f : gmap vlink (list_entry vlink) → gmap vlink (list_entry vlink)) (s : VM) : VM :=
  MkVmms A (vmas s) (mms s) (f (vlinks s)) (rbnodes s) (rbtrees s) (sh s).
Definition upd_rbnodes (f : gmap Z rb_node → gmap Z rb_node) (s : VM) : VM :=
  MkVmms A (vmas s) (mms s) (vlinks s) (f (rbnodes s)) (rbtrees s) (sh s).
Definition upd_rbtrees (f : gmap Z (Z * Z) → gmap Z (Z * Z)) (s : VM) : VM :=
  MkVmms A (vmas s) (mms s) (vlinks s) (rbnodes s) (f (rbtrees s)) (sh s).

Definition on_sh {B} (m : M (shms A) B) : M VM B := zoom sh_lens m.
Definition on_vm {B} (m : M (vmem A) B) : M VM B := on_sh (vm m).
Definition on_al {B} (m : M A B) : M VM B := on_sh (on_alloc m).
Definition on_links {B} (m : M (gmap vlink (list_entry vlink)) B) : M VM B := zoom vlinks_lens m.
Definition on_rb {B} (m : M (gmap Z rb_node) B) : M VM B := zoom rb_lens m.

Definition get_vma (v : Z) : M VM vma_struct := λ s,
  match vmas s !! v with Some x => Ret (x, s) | None => Fault end.
Definition set_vma (v : Z) (f : vma_struct → vma_struct) : M VM unit := λ s,
  match vmas s !! v with Some x => Ret ((), upd_vmas <[v := f x]> s) | None => Fault end.
Definition get_mm (m : Z) : M VM mm_struct := λ s,
  match mms s !! m with Some x => Ret (x, s) | None => Fault end.
Definition set_mm (m : Z) (f : mm_struct → mm_struct) : M VM unit := λ s,
  match mms s !! m with Some x => Ret ((), upd_mms <[m := f x]> s) | None => Fault end.
(** The tree at an address, with vma_compare on the areas of the moment. *)
Definition get_tree (t : Z) : M VM rb_tree := λ s,
  match rbtrees s !! t with
  | Some (n, r) => Ret (RbTree (vma_compare (vmas s)) n r, s)
  | None => Fault
  end.

Definition set_vm_mm (x : Z) (v : vma_struct) : vma_struct :=
  MkVma x (vm_start v) (vm_end v) (vm_flags v) (vm_shmem v) (shmem_off v).
Definition set_vm_range (s e : Z) (v : vma_struct) : vma_struct :=
  MkVma (vm_mm v) s e (vm_flags v) (vm_shmem v) (shmem_off v).
Definition set_vm_flags (x : Z) (v : vma_struct) : vma_struct :=
  MkVma (vm_mm v) (vm_start v) (vm_end v) x (vm_shmem v) (shmem_off v).
Definition set_vm_shmem (x o : Z) (v : vma_struct) : vma_struct :=
  MkVma (vm_mm v) (vm_start v) (vm_end v) (vm_flags v) x o.
Definition set_mmap_tree (x : Z) (m : mm_struct) : mm_struct := MkMm x (mmap_cache m) (pgdir m) (map_count m).
Definition set_mmap_cache (x : Z) (m : mm_struct) : mm_struct := MkMm (mmap_tree m) x (pgdir m) (map_count m).
Definition set_map_count (x : Z) (m : mm_struct) : mm_struct := MkMm (mmap_tree m) (mmap_cache m) (pgdir m) x.

Definition sizeof_mm : Z := 24.
Definition sizeof_vma : Z := 48.

(** ** Creation; 0 is NULL *)
Definition mm_create : M VM Z :=
  mm ← on_al (kmalloc sizeof_mm);
  (if bool_decide (mm ≠ 0) then
     modify (upd_vlinks <[MmapList mm := junk_entry (MmapList mm)]>);;
     on_links (list_init (MmapList mm));;
     modify (upd_mms <[mm := MkMm 0 0 0 0]>)
   else skip);;
  mret mm.

Definition vma_create (vm_start vm_end vm_flags : Z) : M VM Z :=
  vma ← on_al (kmalloc sizeof_vma);
  (if bool_decide (vma ≠ 0) then
     modify (upd_vlinks <[VmaLink vma := junk_entry (VmaLink vma)]>);;
     modify (upd_rbnodes <[vma := RbNode false 0 0 0]>);;
     modify (upd_vmas <[vma := MkVma 0 vm_start vm_end vm_flags 0 0]>)
   else skip);;
  mret vma.

Definition vma_destroy (vma : Z) : M VM unit :=
  v ← get_vma vma;
  (if bool_decide (Z.land (vm_flags v) VM_SHARE ≠ 0) then
     r ← on_sh (shmem_ref_dec (vm_shmem v));
     if bool_decide (r = 0)
     then on_sh (shmem_destroy free_pages npage get_ref set_ref PageSwap kfree fuel (vm_shmem v)) else skip
   else skip);;
  on_al (kfree vma);;
  modify (upd_vmas (delete vma));; modify (upd_vlinks (delete (VmaLink vma)));; modify (upd_rbnodes (delete vma)).

(** ** Lookup *)
Fixpoint find_vma_rb_loop (n : nat) (tree : rb_tree) (addr node vma : Z) : M VM Z :=
  match n with
  | O => out_of_fuel
  | S n =>
    if bool_decide (node = 0) then mret vma
    else
      tmp ← get_vma node;
      if bool_decide (vm_end tmp > addr) then
        if bool_decide (vm_start tmp ≤ addr) then mret node
        else l ← on_rb (rb_node_left tree node); find_vma_rb_loop n tree addr l node
      else r ← on_rb (rb_node_right tree node); find_vma_rb_loop n tree addr r vma
  end.
Definition find_vma_rb (tree : rb_tree) (addr : Z) : M VM Z :=
  node ← on_rb (rb_node_root tree); find_vma_rb_loop fuel tree addr node 0.

Fixpoint find_vma_list (n : nat) (mm addr : Z) (le : vlink) : M VM Z :=
  match n with
  | O => out_of_fuel
  | S n =>
    le ← on_links (list_next le);
    if bool_decide (le = MmapList mm) then mret 0
    else
      v ← get_vma (le2vma le);
      if bool_decide (addr < vm_end v) then mret (le2vma le) else find_vma_list n mm addr le
  end.

Definition find_vma (mm addr : Z) : M VM Z :=
  if bool_decide (mm ≠ 0) then
    m ← get_mm mm;
    let vma := mmap_cache m in
    hit ← (if bool_decide (vma ≠ 0) then
             v ← get_vma vma; mret (bool_decide (vm_start v ≤ addr) && bool_decide (vm_end v > addr))
           else mret false);
    vma ← (if (hit : bool) then mret vma
           else if bool_decide (mmap_tree m ≠ 0) then tree ← get_tree (mmap_tree m); find_vma_rb tree addr
           else find_vma_list fuel mm addr (MmapList mm));
    (if bool_decide (vma ≠ 0) then set_mm mm (set_mmap_cache vma) else skip);;
    mret vma
  else mret 0.

(** ** Insertion and removal *)
Definition check_vma_overlap (prev next : vma_struct) : M VM unit :=
  assert (bool_decide (vm_start prev < vm_end prev));;
  assert (bool_decide (vm_end prev ≤ vm_start next));;
  assert (bool_decide (vm_start next < vm_end next)).

(** The previous area of the tree when [want_prev], which is vma_prevp != NULL. *)
Definition insert_vma_rb (t vma : Z) (want_prev : bool) : M VM Z :=
  tree ← get_tree t;
  on_rb (rb_insert fuel tree vma);;
  if want_prev then on_rb (rb_node_prev fuel tree vma) else mret 0.

Fixpoint insert_vma_loop (n : nat) (mm start : Z) (le le_prev : vlink) : M VM vlink :=
  match n with
  | O => out_of_fuel
  | S n =>
    le ← on_links (list_next le);
    if bool_decide (le = MmapList mm) then mret le_prev
    else
      p ← get_vma (le2vma le);
      if bool_decide (vm_start p > start) then mret le_prev else insert_vma_loop n mm start le le
  end.
(** Filling a new tree from the list. *)
Fixpoint build_tree (n : nat) (mm t : Z) (le : vlink) : M VM unit :=
  match n with
  | O => out_of_fuel
  | S n =>
    le ← on_links (list_next le);
    if bool_decide (le = MmapList mm) then skip
    else insert_vma_rb t (le2vma le) false;; build_tree n mm t le
  end.

Definition insert_vma_struct (mm vma : Z) : M VM unit :=
  v ← get_vma vma;
  assert (bool_decide (vm_start v < vm_end v));;
  m ← get_mm mm;
  let list := MmapList mm in
  le_prev ← (if bool_decide (mmap_tree m ≠ 0) then
               p ← insert_vma_rb (mmap_tree m) vma true;
               mret (if bool_decide (p ≠ 0) then VmaLink p else list)
             else insert_vma_loop fuel mm (vm_start v) list list);
  le_next ← on_links (list_next le_prev);
  (if bool_decide (le_prev ≠ list) then p ← get_vma (le2vma le_prev); check_vma_overlap p v else skip);;
  (if bool_decide (le_next ≠ list) then n ← get_vma (le2vma le_next); check_vma_overlap v n else skip);;
  set_vma vma (set_vm_mm mm);;
  on_links (list_add_after le_prev (VmaLink vma));;
  set_mm mm (λ m, set_map_count (s32 (map_count m + 1)) m);;
  m ← get_mm mm;
  if bool_decide (mmap_tree m = 0) && bool_decide (map_count m >= RB_MIN_MAP_COUNT) then
    cmp ← gets (λ s, vma_compare (vmas s));
    r ← rb_tree_create rb_lens (λ n, on_al (kmalloc n)) (λ p, on_al (kfree p)) cmp;
    match r with
    | Some (t, tree) =>
      modify (upd_rbtrees <[t := (nil tree, root tree)]>);;
      set_mm mm (set_mmap_tree t);;
      build_tree fuel mm t list
    | None => skip
    end
  else skip.

Definition remove_vma_struct (mm vma : Z) : M VM unit :=
  v ← get_vma vma;
  assert (bool_decide (mm = vm_mm v));;
  m ← get_mm mm;
  (if bool_decide (mmap_tree m ≠ 0) then tree ← get_tree (mmap_tree m); on_rb (rb_delete fuel tree vma) else skip);;
  on_links (list_del (VmaLink vma));;
  set_mm mm (λ m, set_map_count (s32 (map_count m - 1))
    (if bool_decide (vma = mmap_cache m) then set_mmap_cache 0 m else m)).

Fixpoint mm_destroy_loop (n : nat) (mm : Z) : M VM unit :=
  match n with
  | O => out_of_fuel
  | S n =>
    le ← on_links (list_next (MmapList mm));
    if bool_decide (le = MmapList mm) then skip
    else on_links (list_del le);; vma_destroy (le2vma le);; mm_destroy_loop n mm
  end.
Definition mm_destroy (mm : Z) : M VM unit :=
  m ← get_mm mm;
  (if bool_decide (mmap_tree m ≠ 0) then
     tree ← get_tree (mmap_tree m);
     rb_tree_destroy (λ p, on_al (kfree p)) (mmap_tree m) tree;;
     modify (upd_rbtrees (delete (mmap_tree m)))
   else skip);;
  mm_destroy_loop fuel mm;;
  on_al (kfree mm);;
  modify (upd_mms (delete mm));; modify (upd_vlinks (delete (MmapList mm))).

(** ** Mapping: the result code and the area stored *)
Definition mm_map (mm addr len flags : Z) : M VM (Z * Z) :=
  let start := ROUNDDOWN addr PGSIZE in
  let end_ := ROUNDUP (u32 (addr + len)) PGSIZE in
  if negb (USER_ACCESS start end_) then mret (- E_INVAL, 0)
  else
    assert (bool_decide (mm ≠ 0));;
    vma ← find_vma mm start;
    taken ← (if bool_decide (vma ≠ 0) then v ← get_vma vma; mret (bool_decide (end_ > vm_start v)) else mret false);
    if (taken : bool) then mret (- E_INVAL, 0)
    else
      vma ← vma_create start end_ (Z.land flags (u32 (Z.lnot VM_SHARE)));
      if bool_decide (vma = 0) then mret (- E_NO_MEM, 0)
      else insert_vma_struct mm vma;; mret (0, vma).

Definition mm_map_shmem (mm addr flags shmem : Z) : M VM (Z * Z) :=
  if bool_decide (addr mod PGSIZE ≠ 0 ∨ shmem = 0) then mret (- E_INVAL, 0)
  else
    on_sh (shmem_ref_inc shmem);;
    m ← on_sh (get_shmem shmem);
    r ← mm_map mm addr (shmem_len m) flags;
    let '(ret, vma) := (r : Z * Z) in
    if bool_decide (ret ≠ 0) then on_sh (shmem_ref_dec shmem);; mret (ret, 0)
    else
      set_vma vma (λ v, set_vm_flags (Z.lor (vm_flags v) VM_SHARE) (set_vm_shmem shmem 0 v));;
      mret (0, vma).

Definition vma_resize (vma start end_ : Z) : M VM unit :=
  assert (bool_decide (start mod PGSIZE = 0) && bool_decide (end_ mod PGSIZE = 0));;
  v ← get_vma vma;
  assert (bool_decide (vm_start v ≤ start) && bool_decide (start < end_) && bool_decide (end_ ≤ vm_end v));;
  (if bool_decide (Z.land (vm_flags v) VM_SHARE ≠ 0)
   then set_vma vma (λ v, set_vm_shmem (vm_shmem v) (u32 (shmem_off v + (start - vm_start v))) v) else skip);;
  set_vma vma (set_vm_range start end_).

Abbreviation unmap_range' pgdir start end_ :=
  (on_vm (unmap_range alloc_pages free_pages npage get_ref set_ref fuel pgdir start end_)).

(** The first loop of mm_unmap: the areas that meet the range move to free_list. *)
Fixpoint unmap_collect (n : nat) (mm end_ vma : Z) : M VM unit :=
  match n with
  | O => out_of_fuel
  | S n =>
    v ← get_vma vma;
    if bool_decide (vm_start v < end_) then
      le ← on_links (list_next (VmaLink vma));
      remove_vma_struct mm vma;;
      on_links (list_add UnmapList (VmaLink vma));;
      if bool_decide (le = MmapList mm) then skip else unmap_collect n mm end_ (le2vma le)
    else skip
  end.
(** The second loop: what remains of each area goes back. *)
Fixpoint unmap_return (n : nat) (mm start end_ : Z) (le : vlink) : M VM unit :=
  match n with
  | O => out_of_fuel
  | S n =>
    if bool_decide (le = UnmapList) then skip
    else
      let vma := le2vma le in
      le ← on_links (list_next le);
      v ← get_vma vma;
      m ← get_mm mm;
      (if bool_decide (vm_start v < start) then
         vma_resize vma (vm_start v) start;; insert_vma_struct mm vma;;
         unmap_range' (pgdir m) start (vm_end v)
       else if bool_decide (end_ < vm_end v) then
         vma_resize vma end_ (vm_end v);; insert_vma_struct mm vma;;
         unmap_range' (pgdir m) (vm_start v) end_
       else
         vma_destroy vma;; unmap_range' (pgdir m) (vm_start v) (vm_end v));;
      unmap_return n mm start end_ le
  end.

Definition mm_unmap (mm addr len : Z) : M VM Z :=
  let start := ROUNDDOWN addr PGSIZE in
  let end_ := ROUNDUP (u32 (addr + len)) PGSIZE in
  if negb (USER_ACCESS start end_) then mret (- E_INVAL)
  else
    assert (bool_decide (mm ≠ 0));;
    vma ← find_vma mm start;
    if bool_decide (vma = 0) then mret 0
    else
      v ← get_vma vma;
      if bool_decide (end_ ≤ vm_start v) then mret 0
      else if bool_decide (vm_start v < start) && bool_decide (end_ < vm_end v) then
        nvma ← vma_create (vm_start v) start (vm_flags v);
        if bool_decide (nvma = 0) then mret (- E_NO_MEM)
        else
          vma_resize vma end_ (vm_end v);;
          insert_vma_struct mm nvma;;
          m ← get_mm mm;
          unmap_range' (pgdir m) start end_;;
          mret 0
      else
        modify (upd_vlinks <[UnmapList := junk_entry UnmapList]>);;
        on_links (list_init UnmapList);;
        unmap_collect fuel mm end_ vma;;
        le ← on_links (list_next UnmapList);
        unmap_return fuel mm start end_ le;;
        modify (upd_vlinks (delete UnmapList));;
        mret 0.

(** ** Address spaces *)
Fixpoint dup_loop (n : nat) (to from : Z) (le : vlink) : M VM Z :=
  match n with
  | O => out_of_fuel
  | S n =>
    le ← on_links (list_prev le);
    if bool_decide (le = MmapList from) then mret 0
    else
      v ← get_vma (le2vma le);
      nvma ← vma_create (vm_start v) (vm_end v) (vm_flags v);
      if bool_decide (nvma = 0) then mret (- E_NO_MEM)
      else
        let share := bool_decide (Z.land (vm_flags v) VM_SHARE ≠ 0) in
        (if share then
           set_vma nvma (set_vm_shmem (vm_shmem v) (shmem_off v));; on_sh (shmem_ref_inc (vm_shmem v));; skip
         else skip);;
        insert_vma_struct to nvma;;
        t ← get_mm to; f ← get_mm from;
        r ← on_vm (copy_range alloc_pages free_pages npage get_ref set_ref fuel (pgdir t) (pgdir f)
                     (vm_start v) (vm_end v) share);
        if bool_decide (r ≠ 0) then mret (- E_NO_MEM) else dup_loop n to from le
  end.
Definition dup_mmap (to from : Z) : M VM Z :=
  assert (bool_decide (to ≠ 0) && bool_decide (from ≠ 0));;
  dup_loop fuel to from (MmapList from).

(** The loops of exit_mmap, [f] being unmap_range or exit_range. *)
Fixpoint exit_vmas (n : nat) (mm : Z) (f : Z → Z → M VM unit) (le : vlink) : M VM unit :=
  match n with
  | O => out_of_fuel
  | S n =>
    le ← on_links (list_next le);
    if bool_decide (le = MmapList mm) then skip
    else v ← get_vma (le2vma le); f (vm_start v) (vm_end v);; exit_vmas n mm f le
  end.
Definition exit_mmap (mm : Z) : M VM unit :=
  assert (bool_decide (mm ≠ 0));;
  m ← get_mm mm;
  exit_vmas fuel mm (λ s e, unmap_range' (pgdir m) s e) (MmapList mm);;
  exit_vmas fuel mm (λ s e, on_vm (exit_range free_pages npage fuel (pgdir m) s e)) (MmapList mm).

Fixpoint unmapped_loop (n : nat) (mm len start : Z) (le : vlink) : M VM Z :=
  match n with
  | O => out_of_fuel
  | S n =>
    le ← on_links (list_prev le);
    if bool_decide (le = MmapList mm) then mret (if bool_decide (start >= USERBASE) then start else 0)
    else
      v ← get_vma (le2vma le);
      if bool_decide (start >= vm_end v) then mret start
      else if bool_decide (u32 (start + len) > vm_start v) then
        if bool_decide (len >= vm_start v) then mret 0
        else unmapped_loop n mm len (vm_start v - len) le
      else unmapped_loop n mm len start le
  end.
Definition get_unmapped_area (mm len : Z) : M VM Z :=
  if bool_decide (len = 0 ∨ len > USERTOP) then mret 0
  else unmapped_loop fuel mm len (USERTOP - len) (MmapList mm).

Fixpoint mem_check_loop (n : nat) (mm start end_ : Z) (write : bool) : M VM bool :=
  match n with
  | O => out_of_fuel
  | S n =>
    if bool_decide (start < end_) then
      vma ← find_vma mm start;
      if bool_decide (vma = 0) then mret false
      else
        v ← get_vma vma;
        if bool_decide (start < vm_start v) then mret false
        else if bool_decide (Z.land (vm_flags v) (if write then VM_WRITE else VM_READ) = 0) then mret false
        else if write && bool_decide (Z.land (vm_flags v) VM_STACK ≠ 0)
                  && bool_decide (start < u32 (vm_start v + PGSIZE)) then mret false
        else mem_check_loop n mm (vm_end v) end_ write
    else mret true
  end.
Definition user_mem_check (mm addr len : Z) (write : bool) : M VM bool :=
  if bool_decide (mm ≠ 0) then
    if negb (USER_ACCESS addr (u32 (addr + len))) then mret false
    else mem_check_loop fuel mm addr (u32 (addr + len)) write
  else mret (KERN_ACCESS addr (u32 (addr + len))).

(** ** Page faults *)
(** memcpy(dst, src, PGSIZE) of two pages *)
Definition memcpy_page (dst src : Z) : M (vmem A) unit := λ s,
  if kva_ok npage dst && kva_ok npage src
  then Ret ((), set_words (copy_words 1024 ((dst - KERNBASE) / 4) ((src - KERNBASE) / 4) (words s)) s) else Fault.

Abbreviation page_insert' pgdir page addr perm :=
  (on_vm (page_insert alloc_pages free_pages npage get_ref set_ref pgdir page addr perm)).

(** An entry that is 0: a new page, or the page of the shared object. *)
Definition fault_absent (pgdir ptep addr perm : Z) (v : vma_struct) : M VM Z :=
  if bool_decide (Z.land (vm_flags v) VM_SHARE = 0) then
    p ← on_vm (pgdir_alloc_page alloc_pages free_pages npage get_ref set_ref pgdir addr perm);
    match p with Some _ => mret 0 | None => mret (- E_NO_MEM) end
  else
    on_sh (lock_shmem (vm_shmem v));;
    let shmem_addr := u32 (addr - vm_start v + shmem_off v) in
    sh_ptep ← on_sh (shmem_get_entry alloc_pages npage get_ref set_ref kmalloc kfree fuel (vm_shmem v) shmem_addr true);
    bad ← (if bool_decide (sh_ptep = 0) then mret true
           else e ← on_vm (load npage sh_ptep); mret (bool_decide (e = 0)));
    on_sh (unlock_shmem (vm_shmem v));;
    if (bad : bool) then mret (- E_NO_MEM)
    else
      e ← on_vm (load npage sh_ptep);
      (if bool_decide (Z.land e PTE_P ≠ 0) then
         p ← pa2page npage e; page_insert' pgdir p addr perm;; skip
       else on_vm (store npage ptep e));;
      mret 0.

(** An entry in use: copy on write. *)
Definition fault_present (error_code pgdir ptep addr perm : Z) (v : vma_struct) : M VM Z :=
  pte ← on_vm (load npage ptep);
  let cow := bool_decide (Z.land (vm_flags v) (Z.lor VM_SHARE VM_WRITE) = VM_WRITE) in
  assert (bool_decide (Z.land pte PTE_P = 0) ||
          (bool_decide (Z.land error_code 2 ≠ 0) && bool_decide (Z.land pte PTE_W = 0) && cow));;
  newpage ← (if cow then on_vm (alloc_page alloc_pages) else mret None);
  if bool_decide (Z.land pte PTE_P ≠ 0) then
    page ← pte2page npage pte;
    r ← on_al (get_ref page);
    if cow && bool_decide (r > 1) then
      match newpage with
      | None => mret (- E_NO_MEM)
      | Some np =>
        dst ← page2kva npage np; src ← page2kva npage page;
        on_vm (memcpy_page dst src);;
        page_insert' pgdir np addr perm;; mret 0
      end
    else
      page_insert' pgdir page addr perm;;
      match newpage with Some np => on_vm (free_page free_pages np) | None => skip end;;
      mret 0
  else panic.

Definition do_pgfault (mm error_code addr : Z) : M VM Z :=
  vma ← find_vma mm addr;
  if bool_decide (vma = 0) then mret (- E_INVAL)
  else
    v ← get_vma vma;
    if bool_decide (vm_start v > addr) then mret (- E_INVAL)
    else
      let kind := Z.land error_code 3 in
      let allowed :=
        if bool_decide (kind = 1) then false
        else if bool_decide (kind = 0) then bool_decide (Z.land (vm_flags v) (Z.lor VM_READ VM_EXEC) ≠ 0)
        else bool_decide (Z.land (vm_flags v) VM_WRITE ≠ 0) in
      if negb allowed then mret (- E_INVAL)
      else
        let perm := if bool_decide (Z.land (vm_flags v) VM_WRITE ≠ 0) then Z.lor PTE_U PTE_W else PTE_U in
        let addr := ROUNDDOWN addr PGSIZE in
        m ← get_mm mm;
        ptep ← on_vm (get_pte alloc_pages npage set_ref (pgdir m) addr true);
        if bool_decide (ptep = 0) then mret (- E_NO_MEM)
        else
          pte ← on_vm (load npage ptep);
          if bool_decide (pte = 0) then fault_absent (pgdir m) ptep addr perm v
          else fault_present error_code (pgdir m) ptep addr perm v.
End Model.
