(* ===== verification/VmmInv.v ===== *)
(** * Virtual memory areas: the invariant and find_vma

    [mm_ok s F mm xs]: the descriptor [mm] has the areas [xs], in address
    order and disjoint, in its list and, when it has one, in its tree. *)
From stdpp Require Import base gmap list fin_maps sorting.
From Stdlib Require Import ZArith Lia.
From S2P Require Import Prelude DList Bits Printfmt Mmu RbTree RbRepr RbInsert RbQuery RbErase RbFrame RbProps Pmm.
From S2P Require Import Shmem Vmm.

Definition end_of (vs : gmap Z vma_struct) (v : Z) : Z := match vs !! v with Some x => vm_end x | None => 0 end.
Definition flags_of (vs : gmap Z vma_struct) (v : Z) : Z := match vs !! v with Some x => vm_flags x | None => 0 end.
Definition mm_of (vs : gmap Z vma_struct) (v : Z) : Z := match vs !! v with Some x => vm_mm x | None => 0 end.

(** The areas in order, without overlap. *)
Definition areas (vs : gmap Z vma_struct) (xs : list Z) : Prop :=
  StronglySorted (λ a b, end_of vs a ≤ start_of vs b) xs ∧
  ∀ v, v ∈ xs → v ≠ 0 ∧ is_Some (vs !! v) ∧ start_of vs v < end_of vs v.

(** ** The reference lookup: the first area that ends after [addr] *)
Fixpoint lookup_vma (vs : gmap Z vma_struct) (addr : Z) (xs : list Z) : Z :=
  match xs with
  | [] => 0
  | v :: xs => if bool_decide (addr < end_of vs v) then v else lookup_vma vs addr xs
  end.

Lemma areas_cons vs v xs :
  areas vs (v :: xs) ↔ areas vs xs ∧ v ≠ 0 ∧ is_Some (vs !! v) ∧ start_of vs v < end_of vs v ∧
    ∀ w, w ∈ xs → end_of vs v ≤ start_of vs w.
Proof.
  unfold areas. split.
  - intros [Hs Hv]. apply StronglySorted_inv in Hs as [Hs Hf]. rewrite Forall_forall in Hf.
    split_and!; try done; try (apply Hv; by left). intros w Hw. apply Hv. by right.
  - intros ([Hs Hv] & H0 & H1 & H2 & H3). split.
    + constructor; [done|]. by apply Forall_forall.
    + intros w [->|Hw]%elem_of_cons; [done|by apply Hv].
Qed.
Lemma areas_app vs xs ys :
  areas vs (xs ++ ys) ↔ areas vs xs ∧ areas vs ys ∧ ∀ a b, a ∈ xs → b ∈ ys → end_of vs a ≤ start_of vs b.
Proof.
  induction xs as [|x xs IH]; simpl.
  - split; [|tauto]. intros H. split_and!; [|done|by intros a b []%elem_of_nil].
    split; [constructor|by intros v []%elem_of_nil].
  - rewrite !areas_cons, IH. split.
    + intros ((Hx & Hy & Hxy) & H0 & H1 & H2 & H3). split_and!; try done.
      * intros w Hw. apply H3. set_solver.
      * intros a b [->|Ha]%elem_of_cons Hb; [apply H3; set_solver|by apply Hxy].
    + intros ((Hx & H0 & H1 & H2 & H3) & Hy & Hxy). split_and!; try done.
      * intros a b Ha Hb. apply Hxy; [by right|done].
      * intros w [Hw|Hw]%elem_of_app; [by apply H3|]. apply Hxy; [by left|done].
Qed.
Lemma areas_nodup vs xs : areas vs xs → NoDup xs.
Proof.
  induction xs as [|x xs IH]; [constructor|]. rewrite areas_cons. intros (Hx & _ & _ & H2 & H3).
  constructor; [|by apply IH]. intros Hin. specialize (H3 x Hin). lia.
Qed.
Lemma areas_sorted vs xs : areas vs xs → sorted (start_of vs) xs.
Proof.
  induction xs as [|x xs IH]; [constructor|]. rewrite areas_cons. intros (Hx & _ & _ & H2 & H3).
  apply sorted_cons. split; [by apply IH|]. intros b Hb. specialize (H3 b Hb). lia.
Qed.
Lemma areas_ext vs vs' xs :
  (∀ v, v ∈ xs → is_Some (vs !! v) → is_Some (vs' !! v) ∧ start_of vs' v = start_of vs v ∧ end_of vs' v = end_of vs v) →
  areas vs xs → areas vs' xs.
Proof.
  induction xs as [|x xs IH]; intros He; [by intros [_ _]; split; [constructor|intros v []%elem_of_nil]|].
  rewrite !areas_cons. intros (Hx & H0 & H1 & H2 & H3). destruct (He x ltac:(by left) H1) as (? & Es & Ee).
  split_and!; try done; [|lia|].
  - apply IH; [|done]. intros v Hv. apply He. by right.
  - intros w Hw. destruct Hx as [_ Hx]. destruct (Hx w Hw) as (_ & Hs & _).
    destruct (He w ltac:(by right) Hs) as (_ & Ew & _). specialize (H3 w Hw). lia.
Qed.

Lemma lookup_vma_app vs addr xs ys :
  (∀ v, v ∈ xs → end_of vs v ≤ addr) → lookup_vma vs addr (xs ++ ys) = lookup_vma vs addr ys.
Proof.
  induction xs as [|x xs IH]; intros Hx; simpl; [done|].
  rewrite bool_decide_false by (specialize (Hx x ltac:(by left)); lia). apply IH. intros v Hv. apply Hx. by right.
Qed.
Lemma lookup_vma_spec vs addr xs :
  areas vs xs → let v := lookup_vma vs addr xs in
  (v = 0 ∧ ∀ w, w ∈ xs → end_of vs w ≤ addr) ∨
  (v ∈ xs ∧ v ≠ 0 ∧ addr < end_of vs v ∧ ∀ w, w ∈ xs → end_of vs w ≤ addr ∨ w = v ∨ end_of vs v ≤ start_of vs w).
Proof.
  induction xs as [|x xs IH]; simpl; [left; split; [done|by intros w []%elem_of_nil]|].
  rewrite areas_cons. intros (Hx & H0 & H1 & H2 & H3). case_bool_decide as Hb.
  - right. split_and!; [by left|done|done|]. intros w [->|Hw]%elem_of_cons; [tauto|]. right; right. by apply H3.
  - destruct (IH Hx) as [[E Hall]|(Hin & Hn & He & Hall)].
    + left. split; [done|]. intros w [->|Hw]%elem_of_cons; [lia|by apply Hall].
    + right. split_and!; [by right|done|done|]. intros w [->|Hw]%elem_of_cons; [left; lia|by apply Hall].
Qed.
(** An area that contains the address is the one found. *)
Lemma lookup_vma_hit vs addr xs v :
  areas vs xs → v ∈ xs → start_of vs v ≤ addr < end_of vs v → lookup_vma vs addr xs = v.
Proof.
  intros Ha Hv Hr. destruct (lookup_vma_spec vs addr xs Ha) as [[_ Hall]|(_ & _ & He & Hall)];
    destruct (Hall v Hv) as [?|[?|?]] || specialize (Hall v Hv); done || lia.
Qed.

(** ** The address space as a function: the flags of a mapped address *)
Definition space (vs : gmap Z vma_struct) (xs : list Z) (a : Z) : option Z :=
  let v := lookup_vma vs a xs in
  if bool_decide (v ≠ 0 ∧ start_of vs v ≤ a) then Some (flags_of vs v) else None.

Lemma space_some vs xs a f :
  areas vs xs → space vs xs a = Some f ↔ ∃ v, v ∈ xs ∧ start_of vs v ≤ a < end_of vs v ∧ flags_of vs v = f.
Proof.
  intros Ha. unfold space. split.
  - case_bool_decide as Hb; [|done]. intros [= <-]. exists (lookup_vma vs a xs).
    destruct (lookup_vma_spec vs a xs Ha) as [[E _]|(Hin & _ & Hlt & _)]; [tauto|]. split_and!; try done; lia.
  - intros (v & Hv & Hr & <-). rewrite (lookup_vma_hit vs a xs v Ha Hv Hr).
    rewrite bool_decide_true; [done|]. destruct Ha as [_ Ha]. destruct (Ha v Hv) as [? _]. split; [done|lia].
Qed.
Lemma space_ext vs xs vs' xs' a :
  areas vs xs → areas vs' xs' →
  (∀ f, (∃ v, v ∈ xs ∧ start_of vs v ≤ a < end_of vs v ∧ flags_of vs v = f) ↔
        (∃ v, v ∈ xs' ∧ start_of vs' v ≤ a < end_of vs' v ∧ flags_of vs' v = f)) →
  space vs' xs' a = space vs xs a.
Proof.
  intros H1 H2 Heq. apply option_eq. intros f. by rewrite !space_some, Heq.
Qed.
Lemma lookup_vma_same vs vs' xs a :
  (∀ v, v ∈ xs → vs' !! v = vs !! v) → lookup_vma vs' a xs = lookup_vma vs a xs.
Proof.
  induction xs as [|y ys IH]; intros Hs; simpl; [done|]. unfold end_of at 1 2. rewrite Hs by (by left).
  rewrite IH; [done|]. intros z Hz. apply Hs. by right.
Qed.
Lemma space_same vs vs' xs a :
  areas vs xs → (∀ v, v ∈ xs → vs' !! v = vs !! v) → space vs' xs a = space vs xs a.
Proof.
  intros Ha Hs. unfold space. rewrite (lookup_vma_same vs vs') by done.
  destruct (lookup_vma_spec vs a xs Ha) as [[E0 _]|(Hin & _)].
  - rewrite E0. by rewrite !bool_decide_false by tauto.
  - unfold start_of, flags_of. by rewrite Hs by done.
Qed.
Lemma space_none vs xs a :
  areas vs xs → space vs xs a = None ↔ ∀ v, v ∈ xs → ¬ (start_of vs v ≤ a < end_of vs v).
Proof.
  intros Ha. rewrite eq_None_not_Some. split.
  - intros Hn v Hv Hr. apply Hn. exists (flags_of vs v). apply space_some; [done|]. by exists v.
  - intros Hv [f Hf]. apply space_some in Hf as (v & Hin & Hr & _); [|done]. by apply (Hv v).
Qed.

(** ** The search in the tree *)
Fixpoint tree_vma (vs : gmap Z vma_struct) (addr : Z) (t : tree) (acc : Z) : Z :=
  match t with
  | L => acc
  | N _ l x r =>
    if bool_decide (addr < end_of vs x) then
      if bool_decide (start_of vs x ≤ addr) then x else tree_vma vs addr l x
    else tree_vma vs addr r acc
  end.
Lemma tree_vma_spec vs addr t acc :
  areas vs (inorder t) → tree_vma vs addr t acc =
    (if bool_decide (lookup_vma vs addr (inorder t) = 0) then acc else lookup_vma vs addr (inorder t)).
Proof.
  revert acc. induction t as [|c l IHl x r IHr]; intros acc; cbn [inorder tree_vma]; [done|].
  intros (Hl & Hr & Hlr)%areas_app. apply areas_cons in Hr as (Hr & H0 & H1 & H2 & H3).
  assert (Hlx : ∀ a, a ∈ inorder l → end_of vs a ≤ start_of vs x) by (intros a Ha; apply Hlr; [done|by left]).
  destruct (decide (addr < end_of vs x)) as [Hb|Hb];
    [rewrite (bool_decide_true (addr < _)) by done; destruct (decide (start_of vs x ≤ addr)) as [Hs|Hs];
       [rewrite (bool_decide_true (_ ≤ addr)) by done|rewrite (bool_decide_false (_ ≤ addr)) by done]
    |rewrite (bool_decide_false (addr < _)) by done].
  - rewrite lookup_vma_app by (intros v Hv; specialize (Hlx v Hv); lia). simpl.
    by rewrite (bool_decide_true (addr < _)), bool_decide_false by done.
  - rewrite IHl by done.
    assert (E : lookup_vma vs addr (inorder l ++ x :: inorder r) =
                if bool_decide (lookup_vma vs addr (inorder l) = 0) then x else lookup_vma vs addr (inorder l)).
    { destruct (lookup_vma_spec vs addr (inorder l) Hl) as [[E Hall]|(Hin & Hn & He & _)].
      - rewrite E, bool_decide_true, lookup_vma_app by done. simpl. by rewrite bool_decide_true.
      - rewrite (bool_decide_false (_ = 0)) by done. clear -Hn. revert Hn. generalize (inorder l) as ys.
        induction ys as [|y ys IH]; simpl; [done|]. case_bool_decide; [done|]. by apply IH. }
    rewrite E. case_bool_decide as Hz; [by rewrite bool_decide_false|]. by rewrite bool_decide_false.
  - rewrite IHr by done. rewrite lookup_vma_app by (intros v Hv; specialize (Hlx v Hv); lia).
    simpl. by rewrite (bool_decide_false (addr < _)).
Qed.

Definition nocmp (_ _ : Z) : Z := 0.

Section Find.
Context {A : Type}.
Implicit Types (s : vmms A) (F : gmap vlink (list vlink)).

Record mm_ok s F (mm : Z) (m : mm_struct) (xs : list Z) : Prop := {
  mo_mm : mms s !! mm = Some m;
  mo_nz : mm ≠ 0;
  mo_links : dlists (vlinks s) F;
  mo_list : F !! MmapList mm = Some (VmaLink <$> xs);
  mo_areas : areas (vmas s) xs;
  mo_owner : ∀ v, v ∈ xs → mm_of (vmas s) v = mm;
  mo_count : map_count m = Z.of_nat (length xs);
  mo_cache : mmap_cache m = 0 ∨ mmap_cache m ∈ xs;
  mo_tree : mmap_tree m = 0 ∨ ∃ n r, rbtrees s !! mmap_tree m = Some (n, r) ∧
    represents (RbTree nocmp n r) (start_of (vmas s)) (rbnodes s) xs }.

Lemma get_vma_run s v x : vmas s !! v = Some x → get_vma v s = Ret (x, s).
Proof. intros E. unfold get_vma. by rewrite E. Qed.
Lemma get_mm_run s m x : mms s !! m = Some x → get_mm m s = Ret (x, s).
Proof. intros E. unfold get_mm. by rewrite E. Qed.
Lemma set_mm_run s m x f : mms s !! m = Some x → set_mm m f s = Ret ((), upd_mms <[m := f x]> s).
Proof. intros E. unfold set_mm. by rewrite E. Qed.
Lemma set_vma_run s v x f : vmas s !! v = Some x → set_vma v f s = Ret ((), upd_vmas <[v := f x]> s).
Proof. intros E. unfold set_vma. by rewrite E. Qed.
Lemma on_links_read {B} (m : M (gmap vlink (list_entry vlink)) B) s b :
  m (vlinks s) = Ret (b, vlinks s) → on_links m s = Ret (b, s).
Proof. intros E. unfold on_links. rewrite (zoom_Ret vlinks_lens _ s _ _ E). by destruct s. Qed.
Lemma on_rb_read {B} (m : M (gmap Z rb_node) B) s b :
  m (rbnodes s) = Ret (b, rbnodes s) → on_rb m s = Ret (b, s).
Proof. intros E. unfold on_rb. rewrite (zoom_Ret rb_lens _ s _ _ E). by destruct s. Qed.

Lemma lastof_fmap mm l1 v : lastof (MmapList mm) (VmaLink <$> l1 ++ [v]) = VmaLink v.
Proof. unfold lastof. rewrite fmap_app. csimpl. by rewrite last_snoc. Qed.

Lemma find_vma_list_ok n s F mm m xs l1 l2 addr :
  mm_ok s F mm m xs → xs = l1 ++ l2 → (length l2 < n)%nat →
  find_vma_list n mm addr (lastof (MmapList mm) (VmaLink <$> l1)) s = Ret (lookup_vma (vmas s) addr l2, s).
Proof.
  intros Hm. revert l1 n. induction l2 as [|v l2 IH]; intros l1 n Hxs Hn; (destruct n as [|n]; [simpl in Hn; lia|]);
    cbn [find_vma_list].
  - rewrite (bind_Ret _ _ _ _ _ (on_links_read _ s _ (next_at _ F _ (VmaLink <$> l1) [] (mo_links _ _ _ _ _ Hm)
      ltac:(rewrite <-fmap_nil with (f := VmaLink), <-fmap_app, <-Hxs; apply Hm)))). simpl.
    by rewrite bool_decide_true.
  - rewrite (bind_Ret _ _ _ _ _ (on_links_read _ s _ (next_at _ F _ (VmaLink <$> l1) (VmaLink v :: (VmaLink <$> l2))
      (mo_links _ _ _ _ _ Hm) ltac:(rewrite <-fmap_cons, <-fmap_app, <-Hxs; apply Hm)))).
    unfold firstof. simpl.
    destruct (mo_areas _ _ _ _ _ Hm) as [_ Hall]. destruct (Hall v) as (H0 & [x Hx] & _); [subst xs; set_solver|].
    rewrite (bind_Ret _ _ _ _ _ (get_vma_run _ _ _ Hx)).
    assert (He : end_of (vmas s) v = vm_end x) by (unfold end_of; by rewrite Hx). rewrite He.
    case_bool_decide; [done|]. rewrite <-(lastof_fmap mm l1 v).
    apply IH; [by rewrite Hxs, <-app_assoc|simpl in Hn; lia].
Qed.

Lemma find_vma_rb_ok tr addr n s t k acc :
  rep tr (rbnodes s) k t → (height t < n)%nat →
  (∀ v, v ∈ inorder t → v ≠ 0 ∧ is_Some (vmas s !! v)) →
  find_vma_rb_loop n tr addr (or_null tr (rt tr t)) acc s = Ret (tree_vma (vmas s) addr t acc, s).
Proof.
  revert n k acc. induction t as [|c l IHl x r IHr]; intros n k acc Hr Hn Hv; (destruct n as [|n]; [simpl in Hn; lia|]);
    cbn [find_vma_rb_loop].
  - assert (E : or_null tr (rt tr L) = 0) by (unfold or_null; simpl; by rewrite bool_decide_false by tauto).
    rewrite E. by rewrite bool_decide_true.
  - rewrite (or_null_rt tr _ _ _ Hr) by done. simpl rt. destruct (Hv x) as [H0 [v Hx]]; [simpl; set_solver|].
    rewrite bool_decide_false by done. rewrite (bind_Ret _ _ _ _ _ (get_vma_run _ _ _ Hx)).
    assert (He : end_of (vmas s) x = vm_end v ∧ start_of (vmas s) x = vm_start v).
    { unfold end_of, start_of. by rewrite Hx. }
    destruct He as [He Hs]. cbn [tree_vma]. rewrite He, Hs. simpl in Hn.
    pose proof (rep_N tr _ _ _ _ _ _ Hr) as Hx'.
    destruct (decide (addr < vm_end v)) as [Hb|Hb].
    + rewrite (bool_decide_true (vm_end v > addr)), (bool_decide_true (addr < _)) by lia.
      case_bool_decide; [done|].
      assert (El : rb_node_left tr x (rbnodes s) = Ret (or_null tr (rt tr l), rbnodes s)).
      { unfold rb_node_left. rewrite (bind_Ret _ _ _ _ _ (get_child_run _ Left _ _ Hx')). done. }
      rewrite (bind_Ret _ _ _ _ _ (on_rb_read _ _ _ El)).
      apply (IHl n (Frame Left c x r :: k)); [by apply rep_left|lia|]. intros w Hw. apply Hv. simpl. set_solver.
    + rewrite (bool_decide_false (vm_end v > addr)), (bool_decide_false (addr < _)) by lia.
      assert (El : rb_node_right tr x (rbnodes s) = Ret (or_null tr (rt tr r), rbnodes s)).
      { unfold rb_node_right. rewrite (bind_Ret _ _ _ _ _ (get_child_run _ Right _ _ Hx')). done. }
      rewrite (bind_Ret _ _ _ _ _ (on_rb_read _ _ _ El)).
      apply (IHr n (Frame Right c x l :: k)); [by apply rep_right|lia|]. intros w Hw. apply Hv. simpl. set_solver.
Qed.

Lemma rep_any c c' n r h k t : rep (RbTree c n r) h k t → rep (RbTree c' n r) h k t.
Proof.
  intros [H1 H2 H3]. assert (Ea : all (RbTree c n r) k t = all (RbTree c' n r) k t) by reflexivity.
  split; [by rewrite <-Ea|by rewrite <-Ea|exact H3].
Qed.
Lemma represents_any c c' n r key h xs : represents (RbTree c n r) key h xs → represents (RbTree c' n r) key h xs.
Proof. intros (t & Hr & ?). exists t. split; [by apply (rep_any c)|done]. Qed.
Lemma represents_key tr key key' h xs :
  (∀ v, v ∈ xs → key' v = key v) → represents tr key h xs → represents tr key' h xs.
Proof.
  intros Hk (t & Hr & Hv & Hi & Hs). exists t. split_and!; try done. clear Hi. unfold sorted in *.
  induction Hs as [|x xs Hs IH Hf]; constructor.
  - apply IH. intros v Hv'. apply Hk. by right.
  - rewrite Forall_forall in Hf |- *. intros y Hy. rewrite !Hk; [by apply Hf|by right|by left].
Qed.

Lemma get_tree_run s t n r :
  rbtrees s !! t = Some (n, r) → get_tree t s = Ret (RbTree (vma_compare (vmas s)) n r, s).
Proof. intros E. unfold get_tree. by rewrite E. Qed.

Definition cached (mm v : Z) (m : mm_struct) s : vmms A :=
  if bool_decide (v = 0) then s else upd_mms <[mm := set_mmap_cache v m]> s.
Definition cached_mm (v : Z) (m : mm_struct) : mm_struct := if bool_decide (v = 0) then m else set_mmap_cache v m.

Lemma mm_ok_cached s F mm m xs v :
  mm_ok s F mm m xs → v = 0 ∨ v ∈ xs → mm_ok (cached mm v m s) F mm (cached_mm v m) xs.
Proof.
  intros Hm Hv. unfold cached, cached_mm. case_bool_decide as H0; [done|].
  destruct Hm as [M1 M2 M3 M4 M5 M6 M7 M8 M9]. split; try done.
  - simpl. by rewrite lookup_insert_eq.
Qed.

Lemma find_vma_ok fuel s F mm m xs addr :
  mm_ok s F mm m xs → (length xs < fuel)%nat → (rb_fuel (length xs) < fuel)%nat →
  let v := lookup_vma (vmas s) addr xs in
  find_vma fuel mm addr s = Ret (v, cached mm v m s) ∧ mm_ok (cached mm v m s) F mm (cached_mm v m) xs.
Proof.
  intros Hm Hf1 Hf2 v.
  assert (Hv : v = 0 ∨ v ∈ xs).
  { destruct (lookup_vma_spec (vmas s) addr xs (mo_areas _ _ _ _ _ Hm)) as [[? _]|(? & _)]; [by left|by right]. }
  split; [|by apply mm_ok_cached]. unfold find_vma. rewrite bool_decide_true by apply (mo_nz _ _ _ _ _ Hm).
  rewrite (bind_Ret _ _ _ _ _ (get_mm_run _ _ _ (mo_mm _ _ _ _ _ Hm))).
  assert (Hend : ∀ b : bool, (b = true → mmap_cache m = v) → 
    (vma ← (if b then mret (mmap_cache m)
           else if bool_decide (mmap_tree m ≠ 0) then tree ← get_tree (mmap_tree m); find_vma_rb fuel tree addr
           else find_vma_list fuel mm addr (MmapList mm));
    (if bool_decide (vma ≠ 0) then set_mm mm (set_mmap_cache vma) else skip);;
    mret vma) s = Ret (v, cached mm v m s)).
  { intros b Hb.
    assert (Efind : (if b then mret (mmap_cache m)
           else if bool_decide (mmap_tree m ≠ 0) then tree ← get_tree (mmap_tree m); find_vma_rb fuel tree addr
           else find_vma_list fuel mm addr (MmapList mm)) s = Ret (v, s)).
    { destruct b; [by rewrite Hb|]. case_bool_decide as Ht.
      - destruct (mo_tree _ _ _ _ _ Hm) as [?|(n & r & Et & t & Hr & Hval & Hin & Hs)]; [done|].
        rewrite (bind_Ret _ _ _ _ _ (get_tree_run _ _ _ _ Et)). unfold find_vma_rb.
        set (tr := RbTree (vma_compare (vmas s)) n r). pose proof (rep_any nocmp (vma_compare (vmas s)) n r _ _ _ Hr) as Hr'.
        fold tr in Hr'. pose proof (rep_top tr _ _ _ Hr') as Htop.
        assert (Eroot : rb_node_root tr (rbnodes s) = Ret (or_null tr (rt tr t), rbnodes s)).
        { unfold rb_node_root. by rewrite (bind_Ret _ _ _ _ _ (get_child_run _ Left _ _ Htop)). }
        rewrite (bind_Ret _ _ _ _ _ (on_rb_read _ _ _ Eroot)).
        pose proof (mo_areas _ _ _ _ _ Hm) as Ha. pose proof (valid_height t Hval) as Hh. rewrite Hin in Hh.
        rewrite (find_vma_rb_ok tr addr fuel s t []); [|done|lia|].
        2: { rewrite Hin. intros w Hw. destruct Ha as [_ Ha]. destruct (Ha w Hw) as (? & ? & _). done. }
        rewrite tree_vma_spec; rewrite Hin; [|done]. fold v. by case_bool_decide as H0; [rewrite H0|].
      - apply (find_vma_list_ok fuel s F mm m xs [] xs addr Hm eq_refl Hf1). }
    rewrite (bind_Ret _ _ _ _ _ Efind). unfold cached. destruct (decide (v = 0)) as [H0|H0].
    - rewrite (bool_decide_false (v ≠ 0)), (bool_decide_true (v = 0)) by tauto. by rewrite bind_skip.
    - rewrite (bool_decide_true (v ≠ 0)), (bool_decide_false (v = 0)) by tauto.
      by rewrite (bind_Ret _ _ _ _ _ (set_mm_run _ _ _ _ (mo_mm _ _ _ _ _ Hm))). }
  destruct (decide (mmap_cache m = 0)) as [Hc|Hc].
  - rewrite (bool_decide_false (mmap_cache m ≠ 0)) by tauto. rewrite bind_mret. by apply (Hend false).
  - rewrite (bool_decide_true (mmap_cache m ≠ 0)) by done. destruct (mo_cache _ _ _ _ _ Hm) as [?|Hin]; [done|].
    destruct (mo_areas _ _ _ _ _ Hm) as [Hs Hall]. destruct (Hall _ Hin) as (_ & [x Hx] & _).
    rewrite bind_assoc, (bind_Ret _ _ _ _ _ (get_vma_run _ _ _ Hx)), bind_mret.
    apply (Hend (bool_decide (vm_start x ≤ addr) && bool_decide (vm_end x > addr))).
    rewrite andb_true_iff, !bool_decide_eq_true. intros [H1 H2]. symmetry. apply lookup_vma_hit; [done|done|].
    unfold start_of, end_of. rewrite Hx. lia.
Qed.
End Find.
