(* ===== verification/VmmProps.v ===== *)
(** * Virtual memory areas: insertion and removal *)
From stdpp Require Import base gmap list fin_maps sorting.
From Stdlib Require Import ZArith Lia.
From S2P Require Import Prelude DList Bits Printfmt Mmu RbTree RbRepr RbInsert RbQuery RbErase RbFrame RbProps Alloc.
From S2P Require Import Pmm Shmem Vmm VmmInv.

Section Props.
Context {A : Type} (kmalloc : Z → M A Z) (kfree : Z → M A unit) (live : A → gset Z → Prop).
Context `{HO : !ObjectAllocator kmalloc kfree live}.
Context (fuel : nat).
Implicit Types (s : vmms A) (F : gmap vlink (list vlink)).

Definition al s : A := palloc (svm (sh s)).
Definition with_al (a : A) s : vmms A := over sh_lens (over svm_lens (over palloc_lens a (svm (sh s))) (sh s)) s.

Lemma on_al_run {B} (m : M A B) s b a : m (al s) = Ret (b, a) → on_al m s = Ret (b, with_al a s).
Proof. intros E. by apply (zoom_Ret sh_lens), (zoom_Ret svm_lens), (zoom_Ret palloc_lens). Qed.
Lemma with_al_id s : with_al (al s) s = s.
Proof. by destruct s as [? ? ? ? ? [? ? ? []]]. Qed.
Lemma with_al_twice a b s : with_al a (with_al b s) = with_al a s.
Proof. done. Qed.

(** ** A new tree *)
Definition rb_cells (n r : Z) (h : gmap Z rb_node) : gmap Z rb_node :=
  <[r := RbNode false n n n]> (<[n := RbNode false n n n]> h).

Lemma create_tree s O cmp :
  live (al s) O → ∃ res a h, 
    rb_tree_create rb_lens (λ n, on_al (kmalloc n)) (λ p, on_al (kfree p)) cmp s =
      Ret (res, with_al a (upd_rbnodes (λ _, h) s)) ∧
    match res with
    | None => live a O ∧ ∃ n x, h = rbnodes s ∨ n ∉ O ∧ h = <[n := x]> (rbnodes s)
    | Some (t, tree) => live a ({[t; nil tree; root tree]} ∪ O) ∧ t ≠ 0 ∧ t ∉ O ∧ nil tree ∉ O ∧ root tree ∉ O ∧
        nil tree ≠ root tree ∧ tree = RbTree cmp (nil tree) (root tree) ∧ h = rb_cells (nil tree) (root tree) (rbnodes s)
    end.
Proof using HO.
  intros Hl. unfold rb_tree_create, rb_node_create.
  assert (Hid : ∀ s' : vmms A, upd_rbnodes (λ _, rbnodes s') s' = s') by (by intros []).
  destruct (oa_kmalloc (al s) O sizeof_rb_tree Hl ltac:(done)) as (t & a1 & E1 & H1).
  rewrite (bind_Ret _ _ _ _ _ (on_al_run _ s _ _ E1)). unfold NULL.
  destruct H1 as [[-> L1]|(Ht & Hto & L1)].
  { exists None, a1, (rbnodes s). rewrite bool_decide_true by done. rewrite Hid. split; [done|].
    split; [done|]. exists 0, (RbNode false 0 0 0). by left. }
  rewrite bool_decide_false by done.
  destruct (oa_kmalloc a1 _ sizeof_rb_node L1 ltac:(done)) as (n & a2 & E2 & H2).
  rewrite (bind_Ret _ _ _ _ _ (on_al_run _ (with_al a1 s) _ _ E2)). rewrite with_al_twice.
  destruct H2 as [[-> L2]|(Hn & Hno & L2)].
  { rewrite bool_decide_true by done. destruct (oa_kfree a2 _ t L2) as (a3 & E3 & L3); [set_solver|].
    rewrite (bind_Ret _ _ _ _ _ (on_al_run _ (with_al a2 s) _ _ E3)). exists None, a3, (rbnodes s). rewrite Hid.
    split; [done|]. split; [|exists 0, (RbNode false 0 0 0); by left].
    by replace (({[t]} ∪ O) ∖ {[t]}) with O in L3 by set_solver + Hto. }
  rewrite bool_decide_false by done. rewrite (bind_Ret _ _ _ _ _ (zoom_insert rb_lens _ _ _)).
  set (s2 := over rb_lens _ _).
  destruct (oa_kmalloc a2 _ sizeof_rb_node L2 ltac:(done)) as (r & a3 & E3 & H3).
  rewrite (bind_Ret _ _ _ _ _ (on_al_run _ s2 _ _ E3)).
  destruct H3 as [[-> L3]|(Hr & Hro & L3)].
  { rewrite bool_decide_true by done. destruct (oa_kfree a3 _ n L3) as (a4 & E4 & L4); [set_solver|].
    rewrite (bind_Ret _ _ _ _ _ (on_al_run _ (with_al a3 s2) _ _ E4)).
    destruct (oa_kfree a4 _ t L4) as (a5 & E5 & L5); [set_solver|]. rewrite with_al_twice.
    rewrite (bind_Ret _ _ _ _ _ (on_al_run _ (with_al a4 s2) _ _ E5)).
    exists None, a5, (<[n := RbNode false n n n]> (rbnodes s)). split; [done|]. split.
    - by replace ((({[n]} ∪ ({[t]} ∪ O)) ∖ {[n]}) ∖ {[t]}) with O in L5 by set_solver + Hto Hno.
    - exists n, (RbNode false n n n). right. split; [set_solver|done]. }
  rewrite bool_decide_false by done. rewrite (bind_Ret _ _ _ _ _ (zoom_insert rb_lens _ _ _)).
  exists (Some (t, RbTree cmp n r)), a3, (rb_cells n r (rbnodes s)). split; [done|]. simpl.
  split_and!; [|done|done|set_solver + Hno|set_solver + Hro|set_solver + Hro|done|done].
  by replace ({[t; n; r]} ∪ O) with ({[r]} ∪ ({[n]} ∪ ({[t]} ∪ O))) by set_solver +.
Qed.

(** ** Insertion into the tree *)
Lemma vma_keyed vs n r : keyed (RbTree (vma_compare vs) n r) (start_of vs).
Proof. intros a b. simpl. unfold vma_compare. cbv zeta. repeat case_bool_decide; lia. Qed.

Definition set_rb (h : gmap Z rb_node) s : vmms A := upd_rbnodes (λ _, h) s.

Lemma rb_insert_ok s n r v l1 l2 :
  represents (RbTree nocmp n r) (start_of (vmas s)) (rbnodes s) (l1 ++ l2) →
  (rb_fuel (length (l1 ++ l2)) ≤ fuel)%nat → v ∉ n :: r :: l1 ++ l2 → is_Some (rbnodes s !! v) →
  (∀ q, q ∈ l1 → start_of (vmas s) q ≤ start_of (vmas s) v) →
  (∀ q, q ∈ l2 → start_of (vmas s) v < start_of (vmas s) q) →
  ∃ h, on_rb (rb_insert fuel (RbTree (vma_compare (vmas s)) n r) v) s = Ret ((), set_rb h s) ∧
    represents (RbTree nocmp n r) (start_of (vmas s)) h (l1 ++ v :: l2) ∧ dom h = dom (rbnodes s) ∧
    ∀ q, q ∉ n :: r :: v :: l1 ++ l2 → h !! q = rbnodes s !! q.
Proof using All.
  intros Hr Hf Hv Hs H1 H2. apply (represents_any _ (vma_compare (vmas s))) in Hr.
  destruct (insert_represents _ _ (vma_keyed _ n r) fuel _ _ v Hr Hf Hv Hs) as (h & E & Hr' & Hd & Hfr).
  rewrite sinsert_split in Hr' by done. exists h. split_and!; [by apply (zoom_Ret rb_lens)|by eapply represents_any|done|exact Hfr].
Qed.

Lemma build_tree_ok k s F mm t n r l1 l2 :
  dlists (vlinks s) F → F !! MmapList mm = Some (VmaLink <$> l1 ++ l2) → rbtrees s !! t = Some (n, r) →
  areas (vmas s) (l1 ++ l2) → n ∉ l1 ++ l2 → r ∉ l1 ++ l2 → (∀ v, v ∈ l1 ++ l2 → is_Some (rbnodes s !! v)) →
  represents (RbTree nocmp n r) (start_of (vmas s)) (rbnodes s) l1 →
  (rb_fuel (length (l1 ++ l2)) ≤ fuel)%nat → (length l2 < k)%nat →
  ∃ h, build_tree fuel k mm t (lastof (MmapList mm) (VmaLink <$> l1)) s = Ret ((), set_rb h s) ∧
    represents (RbTree nocmp n r) (start_of (vmas s)) h (l1 ++ l2) ∧ dom h = dom (rbnodes s) ∧
    ∀ q, q ∉ n :: r :: l1 ++ l2 → h !! q = rbnodes s !! q.
Proof using All.
  revert s k l1. induction l2 as [|v l2 IH]; intros s k l1 Hd HF Ht Ha Hn Hr0 Hnode Hrep Hf Hk;
    (destruct k as [|k]; [simpl in Hk; lia|]); cbn [build_tree].
  - rewrite app_nil_r in *. exists (rbnodes s).
    rewrite (bind_Ret _ _ _ _ _ (on_links_read _ s _ (next_at _ F _ (VmaLink <$> l1) [] Hd ltac:(by rewrite app_nil_r)))).
    simpl. rewrite bool_decide_true by done. split_and!; try done. unfold set_rb. by destruct s.
  - rewrite (bind_Ret _ _ _ _ _ (on_links_read _ s _ (next_at _ F _ (VmaLink <$> l1) (VmaLink <$> v :: l2) Hd
      ltac:(by rewrite <-fmap_app)))). simpl.
    rewrite length_app in Hf. pose proof Ha as (Ha1 & Ha2 & Hc)%areas_app. apply areas_cons in Ha2 as (_ & _ & _ & Hlt & _).
    assert (Hin : v ∈ l1 ++ v :: l2) by set_solver +.
    pose proof (areas_nodup _ _ Ha) as Hnd.
    destruct (rb_insert_ok s n r v l1 []) as (h & E & Hrep' & Hdom & Hfr).
    { by rewrite app_nil_r. }
    { rewrite app_nil_r. eapply Nat.le_trans; [|exact Hf]. apply rb_fuel_mono. lia. }
    { rewrite app_nil_r, !not_elem_of_cons. split_and!; [set_solver|set_solver|].
      apply NoDup_app in Hnd as (_ & Hnd & _). intros Hq. apply (Hnd v Hq). by left. }
    { by apply Hnode. }
    { intros q Hq. specialize (Hc q v Hq ltac:(by left)). destruct Ha1 as [_ Ha1]. destruct (Ha1 q Hq) as (_ & _ & ?). lia. }
    { by intros q []%elem_of_nil. }
    unfold insert_vma_rb. rewrite bind_assoc, (bind_Ret _ _ _ _ _ (get_tree_run _ _ _ _ Ht)), bind_assoc.
    rewrite (bind_Ret _ _ _ _ _ E), bind_mret.
    destruct (IH (set_rb h s) k (l1 ++ [v])) as (h' & E' & Hrep'' & Hdom' & Hfr'); rewrite <-?app_assoc; try done.
    { intros w Hw. apply elem_of_dom. change (rbnodes (set_rb h s)) with h. rewrite Hdom. apply elem_of_dom. by apply Hnode. }
    { by rewrite length_app. }
    { simpl in Hk. lia. }
    rewrite lastof_fmap in E'. exists h'. split_and!; [exact E'| |etrans; [exact Hdom'|exact Hdom]|].
    + rewrite <-app_assoc in Hrep''. exact Hrep''.
    + intros q Hq. rewrite Hfr' by (rewrite <-app_assoc; exact Hq). apply Hfr. rewrite app_nil_r. set_solver +Hq.
Qed.

(** ** The position of a new area *)
Lemma split_at vs xs st :
  areas vs xs → ∃ l1 l2, xs = l1 ++ l2 ∧ (∀ a, a ∈ l1 → start_of vs a ≤ st) ∧ (∀ b, b ∈ l2 → st < start_of vs b).
Proof.
  induction xs as [|x xs IH]; intros Ha.
  { exists [], []. split_and!; [done|by intros a []%elem_of_nil|by intros a []%elem_of_nil]. }
  apply areas_cons in Ha as (Ha & _ & _ & Hlt & Hx). destruct (decide (start_of vs x ≤ st)) as [Hs|Hs].
  - destruct (IH Ha) as (l1 & l2 & -> & H1 & H2). exists (x :: l1), l2. split_and!; [done| |done].
    intros a [->|Hin]%elem_of_cons; [done|by apply H1].
  - exists [], (x :: xs). split_and!; [done|by intros a []%elem_of_nil|].
    intros b [->|Hin]%elem_of_cons; [lia|]. specialize (Hx b Hin). lia.
Qed.

(** No area meets [st, en). *)
Definition fits (vs : gmap Z vma_struct) (xs : list Z) (st en : Z) : Prop :=
  ∀ y, y ∈ xs → end_of vs y ≤ st ∨ en ≤ start_of vs y.

Lemma insert_vma_loop_ok n s F mm m xs st l0 lb l2 :
  mm_ok s F mm m xs → xs = (l0 ++ lb) ++ l2 → (length lb < n)%nat →
  (∀ a, a ∈ lb → start_of (vmas s) a ≤ st) → (∀ b, b ∈ l2 → st < start_of (vmas s) b) →
  let le := lastof (MmapList mm) (VmaLink <$> l0) in
  insert_vma_loop n mm st le le s = Ret (lastof (MmapList mm) (VmaLink <$> l0 ++ lb), s).
Proof.
  intros Hm. revert l0 n. induction lb as [|v lb IH]; intros l0 n Hxs Hn Hb H2 le; (destruct n as [|n]; [simpl in Hn; lia|]);
    cbn [insert_vma_loop]; pose proof (mo_list _ _ _ _ _ Hm) as HF; rewrite Hxs, !fmap_app in HF.
  - rewrite app_nil_r in *.
    rewrite (bind_Ret _ _ _ _ _ (on_links_read _ s _ (next_at _ F _ _ _ (mo_links _ _ _ _ _ Hm) HF))).
    destruct l2 as [|w l2]; [by rewrite bool_decide_true|]. simpl.
    destruct (mo_areas _ _ _ _ _ Hm) as [_ Hall]. destruct (Hall w) as (_ & [x Hx] & _); [subst xs; set_solver +|].
    rewrite (bind_Ret _ _ _ _ _ (get_vma_run _ _ _ Hx)). specialize (H2 w ltac:(by left)).
    unfold start_of in H2. rewrite Hx in H2. by rewrite bool_decide_true by lia.
  - rewrite <-app_assoc in HF.
    rewrite (bind_Ret _ _ _ _ _ (on_links_read _ s _ (next_at _ F _ _ _ (mo_links _ _ _ _ _ Hm) HF))). simpl.
    destruct (mo_areas _ _ _ _ _ Hm) as [_ Hall]. destruct (Hall v) as (_ & [x Hx] & _); [subst xs; set_solver +|].
    rewrite (bind_Ret _ _ _ _ _ (get_vma_run _ _ _ Hx)). pose proof (Hb v ltac:(by left)) as Hv.
    unfold start_of in Hv. rewrite Hx in Hv. rewrite bool_decide_false by lia.
    rewrite <-(lastof_fmap mm l0 v). replace (l0 ++ v :: lb) with ((l0 ++ [v]) ++ lb) by (by rewrite <-app_assoc).
    apply IH; [|simpl in Hn; lia| |done].
    + rewrite Hxs. by rewrite <-!app_assoc.
    + intros a Ha. apply Hb. by right.
Qed.

(** What is needed of an area to be inserted. *)
Record ready s F (m : mm_struct) (xs : list Z) (v : Z) (x : vma_struct) : Prop := {
  rd_vma : vmas s !! v = Some x;
  rd_nz : v ≠ 0;
  rd_new : v ∉ xs;
  rd_range : vm_start x < vm_end x;
  rd_fits : fits (vmas s) xs (vm_start x) (vm_end x);
  rd_free : unowned F (VmaLink v);
  rd_link : is_Some (vlinks s !! VmaLink v);
  rd_node : is_Some (rbnodes s !! v);
  rd_tree : mmap_tree m ≠ 0 → ∀ n r, rbtrees s !! mmap_tree m = Some (n, r) → v ≠ n ∧ v ≠ r }.

Definition tree_ok s (t : Z) (xs : list Z) : Prop :=
  t = 0 ∨ ∃ n r, rbtrees s !! t = Some (n, r) ∧ represents (RbTree nocmp n r) (start_of (vmas s)) (rbnodes s) xs.

(** The sentinels of the tree of a descriptor. *)
Definition tree_nodes s (m : mm_struct) : list Z :=
  if bool_decide (mmap_tree m = 0) then []
  else match rbtrees s !! mmap_tree m with Some (n, r) => [n; r] | None => [] end.
Lemma off_tree s m z :
  z ∉ tree_nodes s m ↔ (mmap_tree m ≠ 0 → ∀ n r, rbtrees s !! mmap_tree m = Some (n, r) → z ≠ n ∧ z ≠ r).
Proof.
  unfold tree_nodes. case_bool_decide as H0; [split; [done|intros _; apply not_elem_of_nil]|].
  destruct (rbtrees s !! mmap_tree m) as [[n r]|]; [|split; [done|intros _; apply not_elem_of_nil]].
  rewrite !not_elem_of_cons. split; [intros (? & ? & _) _ n' r' [= <- <-]; done|].
  intros H. destruct (H H0 n r eq_refl). split_and!; [done|done|apply not_elem_of_nil].
Qed.

Lemma position_ok s F mm m xs v x l1 l2 :
  mm_ok s F mm m xs → ready s F m xs v x → xs = l1 ++ l2 →
  (∀ a, a ∈ l1 → start_of (vmas s) a ≤ vm_start x) → (∀ b, b ∈ l2 → vm_start x < start_of (vmas s) b) →
  (length xs < fuel)%nat → (rb_fuel (S (length xs)) ≤ fuel)%nat →
  ∃ h, (if bool_decide (mmap_tree m ≠ 0) then
          p ← insert_vma_rb fuel (mmap_tree m) v true; mret (if bool_decide (p ≠ 0) then VmaLink p else MmapList mm)
        else insert_vma_loop fuel mm (vm_start x) (MmapList mm) (MmapList mm)) s =
      Ret (lastof (MmapList mm) (VmaLink <$> l1), set_rb h s) ∧ dom h = dom (rbnodes s) ∧
    tree_ok (set_rb h s) (mmap_tree m) (l1 ++ v :: l2) ∧
    ∀ q, q ∉ v :: xs → q ∉ tree_nodes s m → h !! q = rbnodes s !! q.
Proof using All.
  intros Hm Hrd Hxs H1 H2 Hf Hf2. pose proof (rd_vma _ _ _ _ _ _ Hrd) as Hx.
  assert (Hst : start_of (vmas s) v = vm_start x) by (unfold start_of; by rewrite Hx).
  destruct (decide (mmap_tree m = 0)) as [Ht|Ht].
  - rewrite (bool_decide_false (_ ≠ 0)) by tauto. exists (rbnodes s).
    assert (Hid : set_rb (rbnodes s) s = s) by (by destruct s). rewrite Hid. split_and!; [|done|by left|done].
    apply (insert_vma_loop_ok fuel s F mm m xs (vm_start x) [] l1 l2 Hm Hxs); [|done|done].
    subst xs. rewrite length_app in Hf. lia.
  - rewrite (bool_decide_true (_ ≠ 0)) by done.
    destruct (mo_tree _ _ _ _ _ Hm) as [?|(n & r & Et & Hrep)]; [done|].
    destruct (rd_tree _ _ _ _ _ _ Hrd Ht n r Et) as [Hvn Hvr]. rewrite Hxs in Hrep.
    assert (Hlen : length (l1 ++ v :: l2) = S (length xs)).
    { subst xs. rewrite !length_app. simpl. lia. }
    destruct (rb_insert_ok s n r v l1 l2 Hrep) as (h & E & Hrep' & Hdom & Hfr).
    { rewrite <-Hxs. pose proof (rb_fuel_mono (length xs) (S (length xs)) ltac:(lia)). lia. }
    { rewrite !not_elem_of_cons, <-Hxs. split_and!; [done|done|apply Hrd]. }
    { apply Hrd. } { by rewrite Hst. } { by rewrite Hst. }
    exists h. unfold insert_vma_rb. rewrite bind_assoc, (bind_Ret _ _ _ _ _ (get_tree_run _ _ _ _ Et)), bind_assoc.
    rewrite (bind_Ret _ _ _ _ _ E).
    assert (Ep : on_rb (rb_node_prev fuel (RbTree (vma_compare (vmas s)) n r) v) (set_rb h s) =
                 Ret (default NULL (last l1), set_rb h s)).
    { apply on_rb_read. eapply prev_represents; [by eapply represents_any|]. by rewrite Hlen. }
    rewrite (bind_Ret _ _ _ _ _ Ep). split_and!; [|done| |].
    + unfold mret, M_ret. do 2 f_equal. unfold lastof. rewrite fmap_last. destruct (last l1) as [p|] eqn:El; simpl; [|done].
      rewrite bool_decide_true; [done|]. destruct (mo_areas _ _ _ _ _ Hm) as [_ Hall].
      apply Hall. rewrite Hxs. apply last_Some_elem_of in El. set_solver.
    + right. exists n, r. done.
    + intros q Hq Hqt. apply Hfr. unfold tree_nodes in Hqt. rewrite bool_decide_false, Et in Hqt by done. rewrite <-Hxs. set_solver +Hq Hqt.
Qed.

(** ** insert_vma_struct *)
Lemma set_mm_fields vs v x mm w :
  vs !! v = Some x → let vs' := <[v := set_vm_mm mm x]> vs in
  start_of vs' w = start_of vs w ∧ end_of vs' w = end_of vs w ∧ (is_Some (vs !! w) → is_Some (vs' !! w)).
Proof.
  intros Hx vs'. unfold start_of, end_of, vs'. destruct (decide (w = v)) as [->|Hne].
  - rewrite lookup_insert_eq, Hx. by split_and!.
  - by rewrite lookup_insert_ne by done.
Qed.

Definition linked s (mm v : Z) (x : vma_struct) (m : mm_struct) (h : gmap Z rb_node)
    (lk : gmap vlink (list_entry vlink)) : vmms A :=
  upd_mms <[mm := set_map_count (map_count m + 1) m]>
    (over vlinks_lens lk (upd_vmas <[v := set_vm_mm mm x]> (set_rb h s))).

Lemma linked_ok s F mm m xs v x l1 l2 h lk :
  mm_ok s F mm m xs → ready s F m xs v x → xs = l1 ++ l2 →
  (∀ a, a ∈ l1 → start_of (vmas s) a ≤ vm_start x) → (∀ b, b ∈ l2 → vm_start x < start_of (vmas s) b) →
  tree_ok (set_rb h s) (mmap_tree m) (l1 ++ v :: l2) → dlists lk (<[MmapList mm := VmaLink <$> l1 ++ v :: l2]> F) →
  mm_ok (linked s mm v x m h lk) (<[MmapList mm := VmaLink <$> l1 ++ v :: l2]> F) mm
    (set_map_count (map_count m + 1) m) (l1 ++ v :: l2).
Proof using All.
  intros Hm Hrd Hxs H1 H2 Ht Hlk. pose proof (rd_vma _ _ _ _ _ _ Hrd) as Hx. pose proof (rd_fits _ _ _ _ _ _ Hrd) as Hfit.
  pose proof (rd_range _ _ _ _ _ _ Hrd) as Hrg.
  assert (Hst : start_of (vmas s) v = vm_start x ∧ end_of (vmas s) v = vm_end x) by (unfold start_of, end_of; by rewrite Hx).
  destruct Hst as [Hst Hen]. destruct Hm as [M1 M2 M3 M4 M5 M6 M7 M8 M9].
  assert (Ha : areas (vmas s) (l1 ++ v :: l2)).
  { rewrite Hxs in M5. apply areas_app in M5 as (A1 & A2 & A3). apply areas_app. split_and!; [done|apply areas_cons|].
    - split_and!; [done|apply Hrd|by eexists|lia|]. intros w Hw. destruct A2 as [_ A2].
      destruct (A2 w Hw) as (_ & _ & ?). destruct (Hfit w) as [?|?]; [subst xs; set_solver|specialize (H2 w Hw); lia|lia].
    - intros a b Ha [->|Hb]%elem_of_cons; [|by apply A3]. destruct A1 as [_ A1]. destruct (A1 a Ha) as (_ & _ & ?).
      specialize (H1 a Ha). destruct (Hfit a) as [?|?]; [subst xs; set_solver|lia|lia]. }
  split; try done.
  - simpl. by rewrite lookup_insert_eq.
  - by rewrite lookup_insert_eq.
  - apply (areas_ext (vmas s)); [|done]. intros w _ Hw. destruct (set_mm_fields (vmas s) v x mm w Hx) as (E1 & E2 & E3).
    split_and!; [by apply E3|done|done].
  - intros w Hw. simpl. unfold mm_of. destruct (decide (w = v)) as [->|Hne]; [by rewrite lookup_insert_eq|].
    rewrite lookup_insert_ne by done. apply M6. subst xs. set_solver.
  - simpl. rewrite M7, Hxs, !length_app. simpl. lia.
  - simpl. destruct M8 as [?|Hc]; [by left|right]. subst xs. set_solver.
  - destruct Ht as [?|(n & r & Et & Hrep)]; [by left|right]. exists n, r. split; [done|].
    eapply represents_key; [|exact Hrep]. intros w _. apply (set_mm_fields (vmas s) v x mm w Hx).
Qed.

(** The objects of a descriptor: its areas with their nodes, and its tree. *)
Record objs s (O : gset Z) (m : mm_struct) (xs : list Z) : Prop := {
  ob_vma : ∀ v, v ∈ xs → v ∈ O ∧ is_Some (rbnodes s !! v);
  ob_tree : mmap_tree m ≠ 0 → ∀ n r, rbtrees s !! mmap_tree m = Some (n, r) → n ∈ O ∧ r ∈ O }.

(** Everything but the areas, the list entries, the nodes, the trees and the
    allocator is as before. *)
Definition others_kept (mm : Z) s s' : Prop :=
  (∀ m', m' ≠ mm → mms s' !! m' = mms s !! m') ∧ sh s' = sh (with_al (al s') s).

Lemma over_vlinks_run e F hd l1 l2 s :
  dlists (vlinks s) F → F !! hd = Some (l1 ++ l2) → unowned F e → is_Some (vlinks s !! e) →
  ∃ lk, on_links (list_add_after (lastof hd l1) e) s = Ret ((), over vlinks_lens lk s) ∧
    dlists lk (<[hd := l1 ++ e :: l2]> F) ∧ dom lk = dom (vlinks s) ∧
    (∀ x, unowned F x → x ≠ e → lk !! x = vlinks s !! x).
Proof.
  intros Hd HF Hu He. destruct (add_at _ _ _ _ _ _ Hd HF Hu He) as (lk & E & Hlk & Hdom).
  exists lk. split; [by apply (zoom_Ret vlinks_lens)|done].
Qed.

Definition maybe_tree (mm : Z) : M (vmms A) unit :=
  m ← get_mm mm;
  if bool_decide (mmap_tree m = 0) && bool_decide (map_count m >= RB_MIN_MAP_COUNT) then
    cmp ← gets (λ s, vma_compare (vmas s));
    r ← rb_tree_create rb_lens (λ n, on_al (kmalloc n)) (λ p, on_al (kfree p)) cmp;
    match r with
    | Some (t, tree) =>
      modify (upd_rbtrees <[t := (nil tree, root tree)]>);;
      set_mm mm (set_mmap_tree t);;
      build_tree fuel fuel mm t (MmapList mm)
    | None => skip
    end
  else skip.

(** What the end of an insertion keeps. *)
Record settled (mm : Z) s s' (m m' : mm_struct) (O O' : gset Z) (xs : list Z) : Prop := {
  se_live : live (al s') O';
  se_mono : O ⊆ O';
  se_objs : objs s' O' m' xs;
  se_vmas : vmas s' = vmas s;
  se_links : vlinks s' = vlinks s;
  se_nodes : ∀ v, is_Some (rbnodes s !! v) → is_Some (rbnodes s' !! v);
  se_pgdir : pgdir m' = pgdir m;
  se_tree : ∀ z, z ∈ O → z ∉ tree_nodes s m → z ∉ tree_nodes s' m';
  se_others : others_kept mm s s';
  se_apart : ∀ q, q ∈ O → q ∉ xs → q ∉ tree_nodes s m → rbnodes s' !! q = rbnodes s !! q;
  se_trees : ∀ t, t ∈ O → rbtrees s' !! t = rbtrees s !! t }.

Lemma with_al_sh a s : sh (with_al a s) = sh (with_al (al (with_al a s)) s).
Proof. done. Qed.

Lemma maybe_tree_ok s F mm m xs O :
  mm_ok s F mm m xs → live (al s) O → objs s O m xs → (length xs < fuel)%nat → (rb_fuel (length xs) ≤ fuel)%nat →
  ∃ s' m' O', maybe_tree mm s = Ret ((), s') ∧ mm_ok s' F mm m' xs ∧ settled mm s s' m m' O O' xs.
Proof using All.
  intros Hm Hl Hob Hf1 Hf2. unfold maybe_tree. pose proof (mo_mm _ _ _ _ _ Hm) as Hmm.
  rewrite (bind_Ret _ _ _ _ _ (get_mm_run _ _ _ Hmm)).
  assert (Hsame : ∃ s' m' O', (skip : M (vmms A) unit) s = Ret ((), s') ∧ mm_ok s' F mm m' xs ∧ settled mm s s' m m' O O' xs).
  { exists s, m, O. split_and!; [done|done|]. split; try done. split; [done|]. by rewrite with_al_id. }
  destruct (decide (mmap_tree m = 0)) as [Ht|Ht]; [|by rewrite (bool_decide_false (_ = 0))].
  rewrite (bool_decide_true (_ = 0)) by done. simpl. case_bool_decide as Hc; [|done]. clear Hsame.
  rewrite bind_gets. destruct (create_tree s O (vma_compare (vmas s)) Hl) as (res & a & h & E & Hres).
  rewrite (bind_Ret _ _ _ _ _ E). set (s1 := with_al a (upd_rbnodes (λ _, h) s)).
  destruct Hm as [M1 M2 M3 M4 M5 M6 M7 M8 M9].
  destruct res as [[t tree]|].
  2: { destruct Hres as [Hl' (n & x & Hh)]. exists s1, m, O. split_and!; [done|split; try done; by left|].
    assert (Hd : ∀ v, is_Some (rbnodes s !! v) → is_Some (h !! v)).
    { intros v Hv. destruct Hh as [->|[_ ->]]; [done|]. destruct (decide (v = n)) as [->|]; [by rewrite lookup_insert_eq|].
      by rewrite lookup_insert_ne. }
    split; try done.
    - destruct Hob as [O1 O2]. split; [|done]. intros v Hv. destruct (O1 v Hv). split; [done|by apply Hd].
    - intros q Hq _ _. change (rbnodes s1) with h. destruct Hh as [->|[Hn ->]]; [done|]. rewrite lookup_insert_ne; [done|]. by intros ->. }
  destruct Hres as (Hl' & Ht0 & HtO & HnO & HrO & Hnr & Htr & Hh). set (n := nil tree) in *. set (r := root tree) in *.
  rewrite bind_modify. set (s2 := upd_rbtrees <[t := (n, r)]> s1).
  rewrite (bind_Ret _ _ _ _ _ (set_mm_run s2 mm m (set_mmap_tree t) M1)).
  set (s3 := upd_mms <[mm := set_mmap_tree t m]> s2).
  assert (Hnot : ∀ v, v ∈ xs → v ≠ n ∧ v ≠ r).
  { intros v Hv. destruct (ob_vma _ _ _ _ Hob v Hv) as [HvO _]. split; intros ->; done. }
  assert (Hnode : ∀ v, v ∈ xs → is_Some (rbnodes s3 !! v)).
  { intros v Hv. destruct (Hnot v Hv). change (rbnodes s3) with h. rewrite Hh. unfold rb_cells.
    rewrite !lookup_insert_ne by done. by apply (ob_vma _ _ _ _ Hob). }
  destruct (build_tree_ok fuel s3 F mm t n r [] xs) as (h' & E' & Hrep & Hdom & Hfr); try done.
  { change (rbtrees s3) with (<[t := (n, r)]> (rbtrees s)). by rewrite lookup_insert_eq. }
  { intros Hin. by destruct (Hnot _ Hin). } { intros Hin. by destruct (Hnot _ Hin). }
  { change (rbnodes s3) with h. rewrite Hh. unfold rb_cells. apply rep_empty; simpl; [|by rewrite lookup_insert_eq|done].
    rewrite lookup_insert_ne by done. by rewrite lookup_insert_eq. }
  change (lastof (MmapList mm) (VmaLink <$> [])) with (MmapList mm) in E'.
  exists (set_rb h' s3), (set_mmap_tree t m), ({[t; n; r]} ∪ O). split_and!; [exact E'|split; try done|].
  - change (mms (set_rb h' s3)) with (<[mm := set_mmap_tree t m]> (mms s)). by rewrite lookup_insert_eq.
  - right. exists n, r. split; [|exact Hrep]. change (rbtrees (set_rb h' s3)) with (<[t := (n, r)]> (rbtrees s)).
    by rewrite lookup_insert_eq.
  - assert (Hd : ∀ v, is_Some (h !! v) → is_Some (h' !! v)).
    { intros v Hv. apply elem_of_dom. rewrite Hdom. by apply elem_of_dom. }
    split; try done; [set_solver +| | | | | |].
    + split.
      * intros v Hv. split; [|apply Hd, Hnode, Hv]. destruct (ob_vma _ _ _ _ Hob v Hv). set_solver.
      * intros _ n' r' Hlk. change (rbtrees (set_rb h' s3)) with (<[t := (n, r)]> (rbtrees s)) in Hlk.
        simpl in Hlk. rewrite lookup_insert_eq in Hlk. injection Hlk as <- <-. set_solver +.
    + intros v Hv. apply Hd. rewrite Hh. unfold rb_cells. destruct (decide (v = r)) as [->|]; [by rewrite lookup_insert_eq|].
      rewrite lookup_insert_ne by done. destruct (decide (v = n)) as [->|]; [by rewrite lookup_insert_eq|].
      by rewrite lookup_insert_ne.
    + intros z Hz _. apply off_tree. intros _ n' r' Hlk.
      change (rbtrees (set_rb h' s3)) with (<[t := (n, r)]> (rbtrees s)) in Hlk.
      simpl in Hlk. rewrite lookup_insert_eq in Hlk. injection Hlk as <- <-. split; intros ->; done.
    + split; [|done]. intros m' Hm'. change (mms (set_rb h' s3)) with (<[mm := set_mmap_tree t m]> (mms s)).
      by rewrite lookup_insert_ne.
    + intros q Hq Hqx _. assert (q ≠ n ∧ q ≠ r) as [Hqn Hqr] by (split; intros ->; done).
      change (rbnodes (set_rb h' s3)) with h'. rewrite Hfr by (rewrite !not_elem_of_cons; by split_and!).
      change (rbnodes s3) with h. rewrite Hh. unfold rb_cells. by rewrite !lookup_insert_ne.
    + intros t' Ht'. change (rbtrees (set_rb h' s3)) with (<[t := (n, r)]> (rbtrees s)). rewrite lookup_insert_ne; [done|]. by intros ->.
Qed.

Lemma overlap_ok (x y : vma_struct) s {B} (k : unit → M (vmms A) B) :
  vm_start x < vm_end x → vm_end x ≤ vm_start y → vm_start y < vm_end y → (check_vma_overlap x y ≫= k) s = k () s.
Proof.
  intros H1 H2 H3. unfold check_vma_overlap. rewrite bind_assoc, bind_assert by (by apply bool_decide_eq_true).
  rewrite bind_assoc, bind_assert by (by apply bool_decide_eq_true).
  by rewrite bind_assert by (by apply bool_decide_eq_true).
Qed.

(** The areas with one more, in its place. *)
Lemma insert_vma_struct_ok s F mm m xs v x O :
  mm_ok s F mm m xs → ready s F m xs v x → live (al s) O → objs s O m xs → v ∈ O →
  (S (length xs) < fuel)%nat → (rb_fuel (S (length xs)) ≤ fuel)%nat → Z.of_nat (length xs) + 1 < 2 ^ 31 →
  ∃ s' m' O' l1 l2, insert_vma_struct kmalloc kfree fuel mm v s = Ret ((), s') ∧ xs = l1 ++ l2 ∧
    mm_ok s' (<[MmapList mm := VmaLink <$> l1 ++ v :: l2]> F) mm m' (l1 ++ v :: l2) ∧
    live (al s') O' ∧ O ⊆ O' ∧ objs s' O' m' (l1 ++ v :: l2) ∧
    vmas s' = <[v := set_vm_mm mm x]> (vmas s) ∧ dom (vlinks s') = dom (vlinks s) ∧
    (∀ w, is_Some (rbnodes s !! w) → is_Some (rbnodes s' !! w)) ∧ pgdir m' = pgdir m ∧ others_kept mm s s' ∧
    (∀ e, unowned F e → e ≠ VmaLink v → vlinks s' !! e = vlinks s !! e) ∧
    (∀ z, z ∈ O → z ∉ tree_nodes s m → z ∉ tree_nodes s' m') ∧
    (∀ q, q ∈ O → q ∉ v :: xs → q ∉ tree_nodes s m → rbnodes s' !! q = rbnodes s !! q) ∧
    (∀ t, t ∈ O → rbtrees s' !! t = rbtrees s !! t).
Proof using All.
  intros Hm Hrd Hl Hob HvO Hf1 Hf2 Hlen.
  pose proof (rd_vma _ _ _ _ _ _ Hrd) as Hx. pose proof (rd_range _ _ _ _ _ _ Hrd) as Hrg.
  destruct (split_at (vmas s) xs (vm_start x) (mo_areas _ _ _ _ _ Hm)) as (l1 & l2 & Hxs & H1 & H2).
  destruct (position_ok s F mm m xs v x l1 l2 Hm Hrd Hxs H1 H2 ltac:(lia) Hf2) as (h & Epos & Hdom & Htree & Hap).
  pose proof (mo_list _ _ _ _ _ Hm) as HF. rewrite Hxs, fmap_app in HF.
  pose proof (mo_links _ _ _ _ _ Hm) as Hdl.
  destruct (over_vlinks_run (VmaLink v) F (MmapList mm) (VmaLink <$> l1) (VmaLink <$> l2)
    (upd_vmas <[v := set_vm_mm mm x]> (set_rb h s)) Hdl HF (rd_free _ _ _ _ _ _ Hrd) (rd_link _ _ _ _ _ _ Hrd))
    as (lk & Eadd & Hlk & Hdlk & Hfr).
  change (VmaLink v :: (VmaLink <$> l2)) with (VmaLink <$> v :: l2) in Hlk. rewrite <-fmap_app in Hlk.
  pose proof (linked_ok s F mm m xs v x l1 l2 h lk Hm Hrd Hxs H1 H2 Htree Hlk) as Hm2.
  set (s2 := linked s mm v x m h lk) in *. set (m2 := set_map_count (map_count m + 1) m) in *.
  assert (Hob2 : objs s2 O m2 (l1 ++ v :: l2)).
  { destruct Hob as [O1 O2]. split.
    - intros w Hw. change (rbnodes s2) with h. destruct (decide (w = v)) as [->|Hne].
      + split; [done|]. apply elem_of_dom. rewrite Hdom. apply elem_of_dom. apply Hrd.
      + destruct (O1 w) as [? Hn]; [subst xs; set_solver|]. split; [done|].
        apply elem_of_dom. rewrite Hdom. by apply elem_of_dom.
    - exact O2. }
  assert (Hlen2 : length (l1 ++ v :: l2) = S (length xs)) by (subst xs; rewrite !length_app; simpl; lia).
  destruct (maybe_tree_ok s2 _ mm m2 (l1 ++ v :: l2) O Hm2 Hl Hob2) as (s3 & m3 & O3 & E3 & Hm3 & Hset);
    [rewrite Hlen2; lia|by rewrite Hlen2|].
  exists s3, m3, O3, l1, l2. destruct Hset as [S1 S2 S3 S4 S5 S6 S7 S7' S8 Sap Str].
  split_and!; try done.
  - unfold insert_vma_struct. rewrite (bind_Ret _ _ _ _ _ (get_vma_run _ _ _ Hx)).
    rewrite bind_assert by (by apply bool_decide_eq_true).
    rewrite (bind_Ret _ _ _ _ _ (get_mm_run _ _ _ (mo_mm _ _ _ _ _ Hm))).
    rewrite (bind_Ret _ _ _ _ _ Epos). set (s1 := set_rb h s).
    rewrite (bind_Ret _ _ _ _ _ (on_links_read _ s1 _ (next_at _ F _ _ _ Hdl HF))).
    destruct (mo_areas _ _ _ _ _ Hm) as [_ Hall]. pose proof (rd_fits _ _ _ _ _ _ Hrd) as Hfit.
    assert (Hget : ∀ w, w ∈ xs → ∃ y, vmas s !! w = Some y ∧ vm_start y < vm_end y ∧
              (vm_end y ≤ vm_start x ∨ vm_end x ≤ vm_start y) ∧ start_of (vmas s) w = vm_start y).
    { intros w Hw. destruct (Hall w Hw) as (_ & [y Hy] & Hlt). pose proof (Hfit w Hw) as Hf.
      unfold start_of, end_of in *. rewrite Hy in *. by exists y. }
    assert (Hprev : ∀ {B} (k : unit → M (vmms A) B),
      ((if bool_decide (lastof (MmapList mm) (VmaLink <$> l1) ≠ MmapList mm) then
          p ← get_vma (le2vma (lastof (MmapList mm) (VmaLink <$> l1))); check_vma_overlap p x else skip) ≫= k) s1 = k () s1).
    { intros B k. destruct l1 as [|w l1' _] using rev_ind; [by rewrite bool_decide_false by tauto|].
      rewrite lastof_fmap, bool_decide_true by done. simpl.
      destruct (Hget w) as (y & Hy & Hlt & Hf & Hs); [subst xs; set_solver +|].
      rewrite bind_assoc, (bind_Ret _ _ _ _ _ (get_vma_run s1 _ _ Hy)). apply overlap_ok; [done| |done].
      specialize (H1 w ltac:(set_solver +)). lia. }
    assert (Hnext : ∀ {B} (k : unit → M (vmms A) B),
      ((if bool_decide (firstof (VmaLink <$> l2) (MmapList mm) ≠ MmapList mm) then
          p ← get_vma (le2vma (firstof (VmaLink <$> l2) (MmapList mm))); check_vma_overlap x p else skip) ≫= k) s1 = k () s1).
    { intros B k. destruct l2 as [|w l2']; [by rewrite bool_decide_false by (simpl; tauto)|].
      rewrite bool_decide_true by done. simpl.
      destruct (Hget w) as (y & Hy & Hlt & Hf & Hs); [subst xs; set_solver +|].
      rewrite bind_assoc, (bind_Ret _ _ _ _ _ (get_vma_run s1 _ _ Hy)). apply overlap_ok; [done| |done].
      specialize (H2 w ltac:(by left)). lia. }
    rewrite Hprev, Hnext. rewrite (bind_Ret _ _ _ _ _ (set_vma_run s1 _ _ _ Hx)). rewrite (bind_Ret _ _ _ _ _ Eadd).
    rewrite (bind_Ret _ _ _ _ _ (set_mm_run (over vlinks_lens lk (upd_vmas <[v := set_vm_mm mm x]> s1)) mm m _
      (mo_mm _ _ _ _ _ Hm))).
    rewrite s32_small; [|pose proof (mo_count _ _ _ _ _ Hm); lia]. exact E3.
  - rewrite S5. exact Hdlk.
  - intros w Hw. apply S6. apply elem_of_dom. change (rbnodes s2) with h. rewrite Hdom. by apply elem_of_dom.
  - destruct S8 as [S8 S9]. split; [|exact S9]. intros m' Hm'. rewrite S8 by done.
    change (mms s2) with (<[mm := m2]> (mms s)). by rewrite lookup_insert_ne.
  - intros e He Hne. rewrite S5. by apply Hfr.
  - intros q Hq Hqv Hqt. rewrite Sap; [|done|subst xs; set_solver +Hqv|exact Hqt]. by apply Hap.
Qed.

(** ** The invariant of one descriptor with its objects *)
Record vm_inv s F (O : gset Z) (mm : Z) (m : mm_struct) (xs : list Z) : Prop := {
  vi_ok : mm_ok s F mm m xs;
  vi_objs : objs s O m xs;
  vi_live : live (al s) O;
  vi_owned : ∀ w hd, owns F (VmaLink w) hd → w ∈ O }.

Definition enough (n : nat) : Prop := (S n < fuel)%nat ∧ (rb_fuel (S n) < fuel)%nat ∧ Z.of_nat n + 1 < 2 ^ 31.

Lemma inv_find s F O mm m xs addr :
  vm_inv s F O mm m xs → enough (length xs) → let v := lookup_vma (vmas s) addr xs in
  find_vma fuel mm addr s = Ret (v, cached mm v m s) ∧ vm_inv (cached mm v m s) F O mm (cached_mm v m) xs.
Proof using All.
  intros [H1 H2 H3 H4] (Hf1 & Hf2 & _) v.
  assert (Hf3 : (rb_fuel (length xs) < fuel)%nat).
  { pose proof (rb_fuel_mono (length xs) (S (length xs)) ltac:(lia)). lia. }
  destruct (find_vma_ok fuel s F mm m xs addr H1 ltac:(lia) Hf3) as [E Hok].
  fold v in E, Hok. split; [exact E|]. unfold cached, cached_mm in *. case_bool_decide; [done|]. split; try done.
  destruct H2 as [O1 O2]. by split.
Qed.

(** A fresh area. *)
Definition created_vma s (a : A) (v : Z) (x : vma_struct) : vmms A :=
  upd_vmas <[v := x]> (upd_rbnodes <[v := RbNode false 0 0 0]>
    (upd_vlinks <[VmaLink v := junk_entry (VmaLink v)]> (with_al a s))).

Lemma fresh_ok s F O mm m xs a v x :
  vm_inv s F O mm m xs → v ∉ O → v ≠ 0 → live a ({[v]} ∪ O) →
  vm_inv (created_vma s a v x) F ({[v]} ∪ O) mm m xs ∧
  (vm_start x < vm_end x → fits (vmas s) xs (vm_start x) (vm_end x) → ready (created_vma s a v x) F m xs v x) ∧
  ∀ w, w ∈ xs → vmas (created_vma s a v x) !! w = vmas s !! w.
Proof using All.
  intros [Hm [O1 O2] H3 H4] HvO Hv0 Hl. destruct Hm as [M1 M2 M3 M4 M5 M6 M7 M8 M9].
  set (s' := created_vma s a v x).
  assert (Hne : ∀ w, w ∈ xs → w ≠ v) by (intros w Hw ->; by destruct (O1 v Hw)).
  assert (Hvm : ∀ w, w ∈ xs → vmas s' !! w = vmas s !! w).
  { intros w Hw. change (vmas s') with (<[v := x]> (vmas s)). rewrite lookup_insert_ne; [done|]. by apply not_eq_sym, Hne. }
  assert (Hst : ∀ w, w ∈ xs → start_of (vmas s') w = start_of (vmas s) w ∧ end_of (vmas s') w = end_of (vmas s) w).
  { intros w Hw. unfold start_of, end_of. by rewrite Hvm. }
  assert (Hun : unowned F (VmaLink v)) by (intros hd Ho; by apply H4 in Ho).
  assert (Htree : ∀ n r, mmap_tree m ≠ 0 → rbtrees s !! mmap_tree m = Some (n, r) → v ≠ n ∧ v ≠ r).
  { intros n r Ht Hlk. destruct (O2 Ht n r Hlk). split; intros ->; done. }
  assert (Hnode : ∀ w, is_Some (rbnodes s !! w) → is_Some (rbnodes s' !! w)).
  { intros w Hw. change (rbnodes s') with (<[v := RbNode false 0 0 0]> (rbnodes s)).
    destruct (decide (w = v)) as [->|]; [by rewrite lookup_insert_eq|by rewrite lookup_insert_ne]. }
  split_and!; [split|..].
  - split; try done.
    + by apply dlists_fresh.
    + eapply areas_ext; [|exact M5]. intros w Hw Hs. rewrite Hvm by done. by destruct (Hst w Hw).
    + intros w Hw. unfold mm_of. rewrite Hvm by done. by apply M6.
    + destruct (decide (mmap_tree m = 0)) as [H0|H0]; [by left|].
      destruct M9 as [?|(n & r & Et & Hrep)]; [by left|right]. exists n, r. split; [done|].
      eapply (represents_key _ (start_of (vmas s))); [by intros w Hw; apply Hst|].
      destruct Hrep as (t & Hr & Hval & Hin & Hs). exists t. split_and!; try done. eapply rep_agree; [exact Hr|].
      intros q Hq. change (rbnodes s') with (<[v := RbNode false 0 0 0]> (rbnodes s)). apply lookup_insert_ne. intros ->.
      destruct (Htree n r H0 Et) as [Hn1 Hn2]. unfold aids in Hq. simpl in Hq.
      rewrite <-(inorder_ids t), Hin in Hq. rewrite !elem_of_cons in Hq. destruct Hq as [?|[?|Hq]]; [done|done|].
      by apply (Hne q).
  - split; [intros w Hw; destruct (O1 w Hw); split; [set_solver|by apply Hnode]|].
    intros H0 n r Hlk. destruct (O2 H0 n r Hlk). set_solver.
  - done.
  - intros w hd Ho. apply H4 in Ho. set_solver.
  - intros Hlt Hfit. split; try done.
    + change (vmas s') with (<[v := x]> (vmas s)). by rewrite lookup_insert_eq.
    + intros Hin. by apply (Hne v).
    + intros y Hy. destruct (Hst y Hy) as [-> ->]. by apply Hfit.
    + change (vlinks s') with (<[VmaLink v := junk_entry (VmaLink v)]> (vlinks s)). by rewrite lookup_insert_eq.
    + change (rbnodes s') with (<[v := RbNode false 0 0 0]> (rbnodes s)). by rewrite lookup_insert_eq.
    + intros H0 n r Hlk. by apply Htree.
  - done.
Qed.

(** ** mm_map *)
Lemma not_fits vs xs st en :
  areas vs xs → st < en → let v := lookup_vma vs st xs in (v ≠ 0 ∧ start_of vs v < en) ↔ ¬ fits vs xs st en.
Proof.
  intros Ha Hlt v. pose proof (lookup_vma_spec vs st xs Ha) as Hsp. cbv zeta in Hsp. fold v in Hsp.
  destruct Hsp as [[E Hall]|(Hin & Hn & Hend & Hall)].
  - split; [tauto|]. intros Hf. destruct Hf. intros y Hy. left. by apply Hall.
  - split.
    + intros [_ Hs] Hf. destruct (Hf v Hin); lia.
    + intros Hf. split; [done|]. destruct (decide (start_of vs v < en)) as [|Hge]; [done|]. destruct Hf.
      intros y Hy. destruct (Hall y Hy) as [?|[->|?]]; [by left|right; lia|right].
      destruct Ha as [_ Ha]. destruct (Ha v Hin) as (_ & _ & ?). lia.
Qed.

Lemma find_fits vs xs st en :
  areas vs xs → st < en → let v := lookup_vma vs st xs in v = 0 ∨ en ≤ start_of vs v → fits vs xs st en.
Proof.
  intros Ha Hlt v Hv. destruct (decide (Forall (λ y, end_of vs y ≤ st ∨ en ≤ start_of vs y) xs)) as [Hf|Hf].
  - intros y Hy. rewrite Forall_forall in Hf. by apply Hf.
  - destruct (not_fits vs xs st en Ha Hlt) as [_ Hn]. fold v in Hn. destruct Hn as [H0 H1]; [|lia].
    intros Hf'. apply Hf. by apply Forall_forall.
Qed.

Definition set_in (st en f : Z) (g : Z → option Z) (a : Z) : option Z :=
  if bool_decide (st ≤ a < en) then Some f else g a.

Lemma space_insert vs vs' l1 l2 v x mm :
  areas vs (l1 ++ l2) → areas vs' (l1 ++ v :: l2) → vs !! v = Some x → vs' = <[v := set_vm_mm mm x]> vs →
  v ∉ l1 ++ l2 → ∀ a, space vs' (l1 ++ v :: l2) a = set_in (vm_start x) (vm_end x) (vm_flags x) (space vs (l1 ++ l2)) a.
Proof.
  intros H1 H2 Hx Hvs Hv a. unfold set_in.
  assert (Hsame : ∀ w, w ≠ v → start_of vs' w = start_of vs w ∧ end_of vs' w = end_of vs w ∧ flags_of vs' w = flags_of vs w).
  { intros w Hw. unfold start_of, end_of, flags_of. subst vs'. by rewrite lookup_insert_ne. }
  assert (Hnew : start_of vs' v = vm_start x ∧ end_of vs' v = vm_end x ∧ flags_of vs' v = vm_flags x).
  { unfold start_of, end_of, flags_of. subst vs'. by rewrite lookup_insert_eq. }
  destruct Hnew as (N1 & N2 & N3). case_bool_decide as Hb.
  - apply space_some; [done|]. exists v. rewrite N1, N2, N3. split_and!; try done; [set_solver +|lia|lia].
  - apply space_ext; [done|done|]. intros f. split; intros (w & Hw & Hr & Hf); exists w.
    + assert (w ≠ v) by (by intros ->). destruct (Hsame w) as (-> & -> & ->); [done|]. split_and!; try done; [set_solver|lia|lia].
    + destruct (decide (w = v)) as [->|Hne]; [rewrite N1, N2 in Hr; lia|].
      destruct (Hsame w Hne) as (E1 & E2 & E3). rewrite E1, E2, E3 in *. split_and!; try done; [set_solver|lia|lia].
Qed.

Lemma inv_insert s F O mm m xs v x :
  vm_inv s F O mm m xs → ready s F m xs v x → v ∈ O → enough (length xs) →
  ∃ s' F' O' m' xs', insert_vma_struct kmalloc kfree fuel mm v s = Ret ((), s') ∧ vm_inv s' F' O' mm m' xs' ∧
    (∀ w, w ∈ xs' ↔ w = v ∨ w ∈ xs) ∧ length xs' = S (length xs) ∧ vmas s' = <[v := set_vm_mm mm x]> (vmas s) ∧
    (∀ a, space (vmas s') xs' a = set_in (vm_start x) (vm_end x) (vm_flags x) (space (vmas s) xs) a) ∧
    pgdir m' = pgdir m ∧ others_kept mm s s' ∧ O ⊆ O' ∧ F' = <[MmapList mm := VmaLink <$> xs']> F ∧
    dom (vlinks s') = dom (vlinks s) ∧ (∀ w, is_Some (rbnodes s !! w) → is_Some (rbnodes s' !! w)) ∧
    (∀ e, unowned F e → e ≠ VmaLink v → vlinks s' !! e = vlinks s !! e) ∧
    (∀ z, z ∈ O → z ∉ tree_nodes s m → z ∉ tree_nodes s' m') ∧
    (∀ q, q ∈ O → q ∉ v :: xs → q ∉ tree_nodes s m → rbnodes s' !! q = rbnodes s !! q) ∧
    (∀ t, t ∈ O → rbtrees s' !! t = rbtrees s !! t).
Proof using All.
  intros [Hm Hob Hl Hown] Hrd HvO (Hf1 & Hf2 & Hlen).
  destruct (insert_vma_struct_ok s F mm m xs v x O Hm Hrd Hl Hob HvO Hf1 ltac:(lia) Hlen)
    as (s' & m' & O' & l1 & l2 & E & Hxs & Hm' & Hl' & HO' & Hob' & Hvm & Hdl & Hnd & Hpg & Hoth & Hfr & Htn & Hap & Htr).
  exists s', (<[MmapList mm := VmaLink <$> l1 ++ v :: l2]> F), O', m', (l1 ++ v :: l2). split_and!; try done.
  - split; try done. intros w hd Ho. rewrite owns_insert in Ho.
    assert (Hsub : w = v ∨ w ∈ O → w ∈ O') by (intros [->|?]; set_solver). apply Hsub.
    destruct Ho as [[-> Hin]|[_ Ho]]; [|right; by apply (Hown w hd)].
    apply elem_of_cons in Hin as [?|Hin]; [done|]. apply list_elem_of_fmap in Hin as (w' & [= <-] & Hin).
    destruct (decide (w = v)) as [->|Hne]; [by left|right]. apply (ob_vma _ _ _ _ Hob). subst xs. set_solver.
  - intros w. subst xs. set_solver +.
  - subst xs. rewrite !length_app. simpl. lia.
  - pose proof (mo_areas _ _ _ _ _ Hm) as Ha. rewrite Hxs in Ha |- *.
    eapply space_insert; [done|apply (mo_areas _ _ _ _ _ Hm')|apply Hrd|exact Hvm|]. rewrite <-Hxs. apply Hrd.
Qed.

Lemma vma_create_ok s F O mm m xs st en fl :
  vm_inv s F O mm m xs → ∃ v a, live a (if bool_decide (v = 0) then O else {[v]} ∪ O) ∧ (v ≠ 0 → v ∉ O) ∧
    vma_create kmalloc st en fl s =
      Ret (v, if bool_decide (v = 0) then with_al a s else created_vma s a v (MkVma 0 st en fl 0 0)).
Proof using All.
  intros [Hm Hob Hl Hown]. unfold vma_create.
  destruct (oa_kmalloc (al s) O sizeof_vma Hl ltac:(done)) as (v & a & E & Hv). exists v, a.
  rewrite (bind_Ret _ _ _ _ _ (on_al_run _ s _ _ E)).
  destruct (decide (v = 0)) as [->|H0].
  - rewrite !(bool_decide_true (0 = 0)), (bool_decide_false (0 ≠ 0)) by tauto. rewrite bind_skip.
    split_and!; [|done|done]. by destruct Hv as [[_ ?]|(? & _)].
  - rewrite !(bool_decide_false (v = 0)), (bool_decide_true (v ≠ 0)) by tauto.
    destruct Hv as [[? _]|(_ & HvO & Hl')]; [done|]. by split_and!.
Qed.

Lemma inv_with_al s F O mm m xs a : vm_inv s F O mm m xs → live a O → vm_inv (with_al a s) F O mm m xs.
Proof. intros [[] [] ? ?] Hl. split; try done; by split. Qed.

Lemma others_refl mm s a : others_kept mm s (with_al a s).
Proof. by split. Qed.
Lemma others_trans mm s1 s2 s3 : others_kept mm s1 s2 → others_kept mm s2 s3 → others_kept mm s1 s3.
Proof.
  intros [H1 H2] [H3 H4]. split; [intros m' Hm'; by rewrite H3, H1|]. rewrite H4. unfold with_al. simpl. rewrite H2. done.
Qed.
Lemma others_cached mm v m s : others_kept mm s (cached mm v m s).
Proof.
  unfold cached. case_bool_decide; (split; [|simpl; by destruct s as [? ? ? ? ? [? ? ? []]]]); [done|].
  intros m' Hm'. simpl. by rewrite lookup_insert_ne.
Qed.
Lemma cached_vmas mm v m s : vmas (cached mm v m s) = vmas s.
Proof. unfold cached. by case_bool_decide. Qed.
Lemma cached_pgdir v m : pgdir (cached_mm v m) = pgdir m.
Proof. unfold cached_mm. by case_bool_decide. Qed.

Lemma mm_map_ok s F O mm m xs addr len fl :
  vm_inv s F O mm m xs → enough (length xs) →
  let st := ROUNDDOWN addr PGSIZE in let en := ROUNDUP (u32 (addr + len)) PGSIZE in
  ∃ r v s' F' O' m' xs', mm_map kmalloc kfree fuel mm addr len fl s = Ret ((r, v), s') ∧ vm_inv s' F' O' mm m' xs' ∧
    pgdir m' = pgdir m ∧ others_kept mm s s' ∧
    ((r = - E_INVAL ∧ (USER_ACCESS st en = false ∨ ¬ fits (vmas s) xs st en) ∧ xs' = xs ∧ vmas s' = vmas s) ∨
     (r = - E_NO_MEM ∧ USER_ACCESS st en = true ∧ fits (vmas s) xs st en ∧ xs' = xs ∧ vmas s' = vmas s) ∨
     (r = 0 ∧ USER_ACCESS st en = true ∧ fits (vmas s) xs st en ∧ v ∈ xs' ∧ length xs' = S (length xs) ∧
      ∀ a, space (vmas s') xs' a = set_in st en (Z.land fl (u32 (Z.lnot VM_SHARE))) (space (vmas s) xs) a)).
Proof using All.
  intros Hi Hen st en. unfold mm_map. fold st en. destruct (USER_ACCESS st en) eqn:Hua; simpl.
  2: { exists (- E_INVAL), 0, s, F, O, m, xs. split_and!; [done|done|done| |left; tauto].
       rewrite <-(with_al_id s) at 2. apply others_refl. }
  rewrite bind_assert by (apply bool_decide_eq_true, Hi).
  destruct (inv_find s F O mm m xs st Hi Hen) as [E Hi1]. rewrite (bind_Ret _ _ _ _ _ E). clear E.
  set (v := lookup_vma (vmas s) st xs) in *. set (s1 := cached mm v m s) in *. set (m1 := cached_mm v m) in *.
  pose proof (mo_areas _ _ _ _ _ (vi_ok _ _ _ _ _ _ Hi)) as Ha.
  assert (Hlt : st < en).
  { unfold USER_ACCESS in Hua. rewrite !andb_true_iff, !bool_decide_eq_true in Hua. lia. }
  assert (Etaken : (if bool_decide (v ≠ 0) then w ← get_vma v; mret (bool_decide (en > vm_start w)) else mret false) s1 =
      Ret (bool_decide (v ≠ 0 ∧ start_of (vmas s) v < en), s1)).
  { destruct (decide (v = 0)) as [H0|H0].
    - rewrite (bool_decide_false (v ≠ 0)), (bool_decide_false (_ ∧ _)) by tauto. done.
    - rewrite (bool_decide_true (v ≠ 0)) by done.
      destruct (lookup_vma_spec (vmas s) st xs Ha) as [[? _]|(Hin & _)]; [done|]. fold v in Hin.
      destruct Ha as [_ Ha]. destruct (Ha v Hin) as (_ & [y Hy] & _).
      assert (Hy1 : vmas s1 !! v = Some y) by (unfold s1; by rewrite cached_vmas).
      rewrite (bind_Ret _ _ _ _ _ (get_vma_run _ _ _ Hy1)). unfold mret, M_ret. do 2 f_equal.
      apply bool_decide_ext. unfold start_of. rewrite Hy. lia. }
  rewrite (bind_Ret _ _ _ _ _ Etaken). clear Etaken. pose proof (not_fits (vmas s) xs st en Ha Hlt) as Hnf. fold v in Hnf.
  assert (Hv1 : vmas s1 = vmas s) by apply cached_vmas.
  case_bool_decide as Ht.
  { exists (- E_INVAL), 0, s1, F, O, m1, xs. split_and!; [done|done|apply cached_pgdir|apply others_cached|].
    left. split_and!; try done. right. by apply Hnf. }
  assert (Hfit : fits (vmas s) xs st en).
  { apply find_fits; [done|done|]. fold v. destruct (decide (v = 0)) as [|H0]; [by left|right].
    destruct (decide (en ≤ start_of (vmas s) v)) as [|Hn]; [done|]. destruct Ht. split; [done|lia]. }
  destruct (vma_create_ok s1 F O mm m1 xs st en (Z.land fl (u32 (Z.lnot VM_SHARE))) Hi1) as (w & a & Hl & HwO & E).
  rewrite (bind_Ret _ _ _ _ _ E). clear E. set (x := MkVma 0 st en _ 0 0).
  destruct (decide (w = 0)) as [->|H0].
  - rewrite !(bool_decide_true (0 = 0)) in * by done. exists (- E_NO_MEM), 0, (with_al a s1), F, O, m1, xs.
    split_and!; [done|by apply inv_with_al|apply cached_pgdir| |right; left; by split_and!].
    eapply others_trans; [apply others_cached|apply others_refl].
  - rewrite !(bool_decide_false (w = 0)) in * by done.
    destruct (fresh_ok s1 F O mm m1 xs a w x Hi1 (HwO H0) H0 Hl) as (Hi2 & Hrd & Hsame).
    rewrite Hv1 in Hrd. specialize (Hrd Hlt Hfit).
    destruct (inv_insert _ F _ mm m1 xs w x Hi2 Hrd ltac:(set_solver +) Hen)
      as (s3 & F3 & O3 & m3 & xs3 & E3 & Hi3 & Hin3 & Hlen3 & Hvm3 & Hsp & Hpg & Hoth & _).
    rewrite (bind_Ret _ _ _ _ _ E3). exists 0, w, s3, F3, O3, m3, xs3.
    split_and!; [done|done|rewrite Hpg; apply cached_pgdir| |].
    + eapply others_trans; [apply others_cached|]. fold s1. eapply others_trans; [|exact Hoth]. by split.
    + right; right. split_and!; try done; [apply Hin3; by left|]. intros a0. rewrite Hsp. unfold set_in. simpl.
      case_bool_decide; [done|]. apply space_same; [done|]. intros y Hy. by rewrite Hsame, Hv1 by done.
Qed.

(** ** get_unmapped_area *)
Definition user_areas (vs : gmap Z vma_struct) (xs : list Z) : Prop :=
  ∀ v, v ∈ xs → USERBASE ≤ start_of vs v ∧ end_of vs v ≤ USERTOP.

(** No place above [q] is free; [r] is free or 0. *)
Definition highest (vs : gmap Z vma_struct) (xs : list Z) (len r : Z) : Prop :=
  (r = 0 ∨ (USERBASE ≤ r ∧ r + len ≤ USERTOP ∧ fits vs xs r (r + len))) ∧
  ∀ p, USERBASE ≤ p → r < p → p + len ≤ USERTOP → ¬ fits vs xs p (p + len).

Lemma unmapped_loop_ok n s F mm m xs l1 l2 len start :
  mm_ok s F mm m xs → user_areas (vmas s) xs → xs = l1 ++ l2 → (length l1 < n)%nat → 0 < len →
  0 ≤ start → start + len ≤ USERTOP → (∀ v, v ∈ l2 → start + len ≤ start_of (vmas s) v) →
  (∀ p, start < p → p + len ≤ USERTOP → ¬ fits (vmas s) xs p (p + len)) →
  ∃ r, unmapped_loop n mm len start (firstof (VmaLink <$> l2) (MmapList mm)) s = Ret (r, s) ∧ highest (vmas s) xs len r.
Proof.
  intros Hm Hu Hxs Hn Hlen. pose proof (mo_areas _ _ _ _ _ Hm) as Ha. unfold USERTOP, USERBASE in *.
  revert n l2 start Hxs Hn. induction l1 as [|v l1 IH] using rev_ind; intros n l2 start Hxs Hn H0 Htop Hl2 Hp;
    (destruct n as [|n]; [lia|]); cbn [unmapped_loop];
    pose proof (mo_list _ _ _ _ _ Hm) as HF; rewrite Hxs, fmap_app in HF;
    rewrite (bind_Ret _ _ _ _ _ (on_links_read _ s _ (prev_at _ F _ _ _ (mo_links _ _ _ _ _ Hm) HF))).
  - rewrite (bool_decide_true (lastof _ _ = _)) by done.
    exists (if bool_decide (start >= USERBASE) then start else 0). split; [done|]. unfold highest, USERBASE, USERTOP.
    case_bool_decide as Hb; (split; [|by intros p ? ? ?; apply Hp; lia]); [|by left].
    right. split_and!; [lia|done|]. intros y Hy. right. apply Hl2. by subst xs.
  - rewrite lastof_fmap, (bool_decide_false (_ = MmapList _)) by done. simpl.
    rewrite length_app in Hn. simpl in Hn. rewrite Hxs in Ha. apply areas_app in Ha as (Ha1 & Ha2 & Ha12).
    apply areas_app in Ha1 as (Ha0 & Hav & Ha0v). apply areas_cons in Hav as (_ & Hv0 & [x Hx] & Hvr & _).
    assert (Hs : start_of (vmas s) v = vm_start x ∧ end_of (vmas s) v = vm_end x) by (unfold start_of, end_of; by rewrite Hx).
    destruct Hs as [Hs He]. rewrite (bind_Ret _ _ _ _ _ (get_vma_run _ _ _ Hx)).
    assert (Hin : v ∈ xs) by (subst xs; set_solver +). destruct (Hu v Hin) as [Hub Hut]. unfold USERBASE, USERTOP in Hub, Hut.
    case_bool_decide as Hge.
    + exists start. split; [done|]. split; [right|by intros p ? ? ?; apply Hp].
      unfold USERBASE, USERTOP. split_and!; [lia|done|]. intros y Hy.
      destruct (decide (y ∈ l2)) as [Hy2|Hy2]; [right; by apply Hl2|left]. subst xs.
      destruct (decide (y = v)) as [->|Hne]; [lia|]. assert (Hy0 : y ∈ l1) by set_solver.
      specialize (Ha0v y v Hy0 ltac:(by left)). lia.
    + rewrite u32_small by (unfold is_u32; lia). case_bool_decide as Hov.
      * case_bool_decide as Hlv.
        { exists 0. split; [done|]. split; [by left|]. unfold USERBASE, USERTOP. intros p Hp0 Hp1 Hp2 Hf.
          destruct (decide (start < p)) as [|Hsp]; [by apply (Hp p)|]. destruct (Hf v Hin); lia. }
        apply (IH n (v :: l2) (vm_start x - len)); try done; try lia.
        { by rewrite Hxs, <-app_assoc. }
        { intros w [->|Hw]%elem_of_cons; [lia|]. specialize (Ha12 v w ltac:(set_solver +) Hw). lia. }
        { intros p Hp1 Hp2 Hf. destruct (decide (start < p)) as [|Hsp]; [by apply (Hp p)|].
          destruct (Hf v Hin); lia. }
      * apply (IH n (v :: l2) start); try done; try lia.
        { by rewrite Hxs, <-app_assoc. }
        { intros w [->|Hw]%elem_of_cons; [lia|]. by apply Hl2. }
Qed.

Lemma get_unmapped_area_ok s F mm m xs len :
  mm_ok s F mm m xs → user_areas (vmas s) xs → (length xs < fuel)%nat → 0 ≤ len →
  ∃ r, get_unmapped_area fuel mm len s = Ret (r, s) ∧
    (0 < len → highest (vmas s) xs len r) ∧ (len = 0 → r = 0).
Proof using All.
  intros Hm Hu Hf Hlen. unfold get_unmapped_area. case_bool_decide as Hb.
  - exists 0. split_and!; [done| |done]. intros H0. split; [by left|]. unfold USERBASE, USERTOP in *. lia.
  - destruct (unmapped_loop_ok fuel s F mm m xs xs [] len (USERTOP - len)) as (r & E & Hr); try done; try lia.
    { by rewrite app_nil_r. } { by intros v []%elem_of_nil. }
    exists r. split_and!; [exact E|done|lia].
Qed.

(** ** user_mem_check *)
Definition may_access (vs : gmap Z vma_struct) (xs : list Z) (write : bool) (a : Z) : Prop :=
  ∃ v, v ∈ xs ∧ start_of vs v ≤ a < end_of vs v ∧
    Z.land (flags_of vs v) (if write then VM_WRITE else VM_READ) ≠ 0 ∧
    (write = true → Z.land (flags_of vs v) VM_STACK ≠ 0 → start_of vs v + PGSIZE ≤ a).

Lemma vi_areas s F O mm m xs : vm_inv s F O mm m xs → areas (vmas s) xs.
Proof. intros Hi. apply Hi. Qed.

Lemma access_unique vs xs write a v :
  areas vs xs → v ∈ xs → start_of vs v ≤ a < end_of vs v → may_access vs xs write a →
  Z.land (flags_of vs v) (if write then VM_WRITE else VM_READ) ≠ 0 ∧
  (write = true → Z.land (flags_of vs v) VM_STACK ≠ 0 → start_of vs v + PGSIZE ≤ a).
Proof.
  intros Ha Hv Hr (w & Hw & Hwr & Hok). assert (w = v) as <-; [|done].
  rewrite <-(lookup_vma_hit vs a xs v Ha Hv Hr). symmetry. by apply lookup_vma_hit.
Qed.

Lemma mem_check_loop_ok n s F O mm m xs l1 l2 start end_ write :
  vm_inv s F O mm m xs → enough (length xs) → user_areas (vmas s) xs → xs = l1 ++ l2 → (length l2 < n)%nat →
  (∀ v, v ∈ l1 → end_of (vmas s) v ≤ start) → 
  ∃ b s' m', mem_check_loop fuel n mm start end_ write s = Ret (b, s') ∧ vm_inv s' F O mm m' xs ∧
    vmas s' = vmas s ∧ pgdir m' = pgdir m ∧ others_kept mm s s' ∧
    (b = true ↔ ∀ a, start ≤ a < end_ → may_access (vmas s) xs write a).
Proof using All.
  revert s m n l1 start. induction l2 as [|v l2 IH]; intros s m n l1 start Hi Hen Hu Hxs Hn Hl1;
    (destruct n as [|n]; [simpl in Hn; lia|]).
  - cbn [mem_check_loop]. pose proof (vi_areas _ _ _ _ _ _ Hi) as Ha. case_bool_decide as Hse.
    2: { exists true, s, m. split_and!; try done; [rewrite <-(with_al_id s) at 2; apply others_refl|].
         split; [|done]. intros _ a ?. lia. }
    destruct (inv_find s F O mm m xs start Hi Hen) as [E Hi1].
    assert (Hlk : lookup_vma (vmas s) start xs = 0).
    { rewrite Hxs. by rewrite lookup_vma_app. }
    rewrite Hlk in E, Hi1. rewrite (bind_Ret _ _ _ _ _ E), bool_decide_true by done.
    eexists false, _, _. split_and!; [done|exact Hi1|by rewrite cached_vmas|by rewrite cached_pgdir|apply others_cached|].
    split; [done|]. intros Hall. destruct (Hall start ltac:(lia)) as (w & Hw & Hr & _). subst xs. rewrite app_nil_r in *.
    specialize (Hl1 w Hw). lia.
  - pose proof (vi_areas _ _ _ _ _ _ Hi) as Ha. simpl in Hn.
    destruct (decide (end_of (vmas s) v ≤ start)) as [Hpast|Hpast].
    { apply (IH s m (S n) (l1 ++ [v]) start); try done; [by rewrite Hxs, <-app_assoc|lia|].
      intros w [Hw|Hw]%elem_of_app; [by apply Hl1|]. by apply list_elem_of_singleton in Hw as ->. }
    cbn [mem_check_loop]. case_bool_decide as Hse.
    2: { exists true, s, m. split_and!; try done; [rewrite <-(with_al_id s) at 2; apply others_refl|].
         split; [|done]. intros _ a ?. lia. }
    destruct (inv_find s F O mm m xs start Hi Hen) as [E Hi1].
    assert (Hlk : lookup_vma (vmas s) start xs = v).
    { rewrite Hxs. rewrite lookup_vma_app by done. simpl. by rewrite bool_decide_true by lia. }
    rewrite Hlk in E, Hi1. rewrite (bind_Ret _ _ _ _ _ E). assert (Hin : v ∈ xs) by (subst xs; set_solver +).
    pose proof Ha as [_ Hall]. destruct (Hall v Hin) as (Hv0 & [x Hx] & Hvr).
    rewrite (bool_decide_false (v = 0)) by done. set (s1 := cached mm v m s) in *.
    assert (Hv1 : vmas s1 = vmas s) by apply cached_vmas.
    rewrite (bind_Ret _ _ _ _ _ (get_vma_run s1 v x ltac:(by rewrite Hv1))).
    assert (Hst : start_of (vmas s) v = vm_start x ∧ end_of (vmas s) v = vm_end x ∧ flags_of (vmas s) v = vm_flags x)
      by (unfold start_of, end_of, flags_of; by rewrite Hx). destruct Hst as (Hst & Hend & Hfl).
    destruct (Hu v Hin) as [Hub Hut]. unfold USERBASE, USERTOP in Hub, Hut.
    assert (Hno : (may_access (vmas s) xs write start → False) → 
      ∃ b s' m', (mret false : M (vmms A) bool) s1 = Ret (b, s') ∧ vm_inv s' F O mm m' xs ∧
        vmas s' = vmas s ∧ pgdir m' = pgdir m ∧ others_kept mm s s' ∧
        (b = true ↔ ∀ a, start ≤ a < end_ → may_access (vmas s) xs write a)).
    { intros Hbad. exists false, s1, (cached_mm v m).
      split_and!; [done|exact Hi1|done|by rewrite cached_pgdir|apply others_cached|].
      split; [done|]. intros Hacc. destruct Hbad. apply Hacc. lia. }
    case_bool_decide as Hlow; [|case_bool_decide as Hperm; [|destruct (write && _ && _) eqn:Hstk]].
    + apply Hno. intros (w & Hw & Hr & _). rewrite Hxs in Hw. apply elem_of_app in Hw as [Hw|Hw].
      { specialize (Hl1 w Hw). lia. } rewrite Hxs in Ha. apply areas_app in Ha as (_ & Ha2 & _).
      apply areas_cons in Ha2 as (_ & _ & _ & _ & Hc). apply elem_of_cons in Hw as [->|Hw]; [lia|].
      specialize (Hc w Hw). lia.
    + apply Hno. intros Hacc.
      destruct (access_unique (vmas s) xs write start v Ha Hin ltac:(lia) Hacc) as [Hp _]. by rewrite Hfl in Hp.
    + apply Hno. intros Hacc. rewrite !andb_true_iff, !bool_decide_eq_true in Hstk. destruct Hstk as [[Hw Hs] Hlt].
      destruct (access_unique (vmas s) xs write start v Ha Hin ltac:(lia) Hacc) as [_ Hp]. rewrite Hfl in Hp. specialize (Hp Hw Hs).
      rewrite u32_small in Hlt by (unfold is_u32, PGSIZE in *; lia). lia.
    + destruct (IH s1 (cached_mm v m) n (l1 ++ [v]) (vm_end x)) as (b & s' & m' & E' & Hi' & Hv' & Hpg & Ho & Hb); try done.
      { by rewrite Hv1. } { by rewrite Hxs, <-app_assoc. } { lia. }
      { rewrite Hv1. intros w [Hw|Hw]%elem_of_app; [specialize (Hl1 w Hw); lia|].
        apply list_elem_of_singleton in Hw as ->. lia. }
      exists b, s', m'. rewrite Hv1 in Hb. split_and!; [exact E'|exact Hi'|congruence|by rewrite Hpg, cached_pgdir| |].
      { eapply others_trans; [apply others_cached|exact Ho]. }
      rewrite Hb. split; intros Hacc a Har; [|apply Hacc; lia].
      destruct (decide (vm_end x ≤ a)) as [|Hlt]; [apply Hacc; lia|]. exists v. rewrite Hfl, Hst, Hend.
      split_and!; [done|lia|lia|done|]. intros Hw Hs. rewrite Hw in Hstk. simpl in Hstk.
      rewrite (bool_decide_true (_ ≠ 0)) in Hstk by done. apply bool_decide_eq_false in Hstk.
      rewrite u32_small in Hstk by (unfold is_u32, PGSIZE in *; lia). lia.
Qed.

(** ** mm_create *)
Lemma mm_create_ok s F O :
  dlists (vlinks s) F → live (al s) O → (∀ w hd, owns F (VmaLink w) hd → w ∈ O) →
  (∀ w hd, owns F (MmapList w) hd → w ∈ O) →
  ∃ mm s', mm_create kmalloc s = Ret (mm, s') ∧ vmas s' = vmas s ∧ sh s' = sh (with_al (al s') s) ∧
    (mm = 0 ∧ live (al s') O ∨
     mm ∉ O ∧ vm_inv s' (<[MmapList mm := []]> F) ({[mm]} ∪ O) mm (MkMm 0 0 0 0) []).
Proof using All.
  intros Hd Hl Hv Hmm. unfold mm_create.
  destruct (oa_kmalloc (al s) O sizeof_mm Hl ltac:(done)) as (mm & a & E & Hres).
  rewrite (bind_Ret _ _ _ _ _ (on_al_run _ s _ _ E)).
  destruct Hres as [[-> Hl']|(H0 & HmO & Hl')].
  { exists 0, (with_al a s). rewrite (bool_decide_false (0 ≠ 0)), bind_skip by tauto. split_and!; try done. by left. }
  rewrite bool_decide_true by done. rewrite bind_assoc, bind_modify.
  assert (Hun : unowned F (MmapList mm)) by (intros hd Ho; by apply Hmm in Ho).
  set (s1 := upd_vlinks _ _).
  destruct (list_init_dlists (vlinks s1) F (MmapList mm)) as (lk & El & Hlk & _).
  { by apply dlists_fresh. } { done. }
  { change (vlinks s1) with (<[MmapList mm := junk_entry (MmapList mm)]> (vlinks s)). by rewrite lookup_insert_eq. }
  assert (El' : on_links (list_init (MmapList mm)) s1 = Ret ((), over vlinks_lens lk s1)) by (by apply (zoom_Ret vlinks_lens)).
  rewrite bind_assoc, (bind_Ret _ _ _ _ _ El'), bind_modify.
  eexists mm, _. split; [done|]. split_and!; [done|done|]. right. split; [done|]. split.
  - split; try done.
    + simpl. by rewrite lookup_insert_eq.
    + by rewrite lookup_insert_eq.
    + split; [constructor|by intros v []%elem_of_nil].
    + by intros v []%elem_of_nil.
    + by left.
    + by left.
  - split; [by intros v []%elem_of_nil|done].
  - done.
  - intros w hd Ho. rewrite owns_insert in Ho. destruct Ho as [[-> Hin]|[_ Ho]]; [|apply Hv in Ho; set_solver].
    by apply list_elem_of_singleton in Hin.
Qed.
End Props.
