(* ===== verification/VmmThms.v ===== *)
(** * kern/mm/vmm.c: the theorems about areas *)
From stdpp Require Import base gmap list fin_maps sorting.
From Stdlib Require Import ZArith Lia.
From S2P Require Import Prelude DList Bits Printfmt Mmu RbTree RbProps Alloc ProcThms Pmm Shmem Vmm VmmInv VmmProps.

Section Thms.
Context {A : Type} (kmalloc : Z → M A Z) (kfree : Z → M A unit) (live : A → gset Z → Prop).
Implicit Types (s : vmms A) (F : gmap vlink (list vlink)).
Abbreviation inv := (vm_inv live).

(** C16. find_vma returns the first area that ends after the address, or NULL,
    whether the answer comes from mmap_cache, from the red-black tree or from the
    list; only mmap_cache changes. *)
Theorem find_vma_correct `{!ObjectAllocator kmalloc kfree live} fuel s F O mm m xs addr :
  inv s F O mm m xs → enough fuel (length xs) → ∃ s' m',
    find_vma fuel mm addr s = Ret (lookup_vma (vmas s) addr xs, s') ∧ inv s' F O mm m' xs ∧
    vmas s' = vmas s ∧ vlinks s' = vlinks s ∧ rbnodes s' = rbnodes s ∧ sh s' = sh s ∧ others_kept mm s s'.
Proof.
  intros Hi Hen. destruct (inv_find kmalloc kfree live fuel s F O mm m xs addr Hi Hen) as [E Hi'].
  eexists _, _. split; [exact E|]. split; [exact Hi'|].
  split_and!; [apply cached_vmas|unfold cached; by case_bool_decide..|apply others_cached].
Qed.

(** C5. mm_map rounds the range to pages, refuses it with -E_INVAL exactly when
    it leaves the user addresses or meets an area, fails with -E_NO_MEM without
    changing an area, and otherwise maps exactly the range with the given flags less
    VM_SHARE; the list, the tree (built when the count reaches 32), the cache and
    the count stay consistent. *)
Theorem mm_map_correct `{!ObjectAllocator kmalloc kfree live} fuel s F O mm m xs addr len fl :
  inv s F O mm m xs → enough fuel (length xs) →
  let st := ROUNDDOWN addr PGSIZE in let en := ROUNDUP (u32 (addr + len)) PGSIZE in
  ∃ r v s' F' O' m' xs', mm_map kmalloc kfree fuel mm addr len fl s = Ret ((r, v), s') ∧ inv s' F' O' mm m' xs' ∧
    pgdir m' = pgdir m ∧ others_kept mm s s' ∧
    ((r = - E_INVAL ∧ (USER_ACCESS st en = false ∨ ¬ fits (vmas s) xs st en) ∧ xs' = xs ∧ vmas s' = vmas s) ∨
     (r = - E_NO_MEM ∧ USER_ACCESS st en = true ∧ fits (vmas s) xs st en ∧ xs' = xs ∧ vmas s' = vmas s) ∨
     (r = 0 ∧ USER_ACCESS st en = true ∧ fits (vmas s) xs st en ∧ v ∈ xs' ∧ length xs' = S (length xs) ∧
      ∀ a, space (vmas s') xs' a =
        if bool_decide (st ≤ a < en) then Some (Z.land fl (u32 (Z.lnot VM_SHARE))) else space (vmas s) xs a)).
Proof. intros Hi Hen. by eapply mm_map_ok. Qed.

(** C34. get_unmapped_area returns the highest address at which the length fits
    between the areas and below USERTOP, and 0 exactly when there is none (or
    the length is 0). *)
Theorem get_unmapped_area_correct `{!ObjectAllocator kmalloc kfree live} fuel s F O mm m xs len :
  inv s F O mm m xs → user_areas (vmas s) xs → enough fuel (length xs) → 0 ≤ len →
  ∃ r, get_unmapped_area fuel mm len s = Ret (r, s) ∧ (len = 0 → r = 0) ∧
    (0 < len →
     (r = 0 ∨ (USERBASE ≤ r ∧ r + len ≤ USERTOP ∧ fits (vmas s) xs r (r + len))) ∧
     (∀ p, USERBASE ≤ p → r < p → p + len ≤ USERTOP → ¬ fits (vmas s) xs p (p + len))).
Proof.
  intros Hi Hu Hen Hlen. destruct (get_unmapped_area_ok kmalloc kfree live fuel s F mm m xs len) as (r & E & H1 & H2); try done.
  - apply Hi.
  - unfold enough in Hen. lia.
  - by exists r.
Qed.

(** C33. user_mem_check answers yes exactly when the range lies in the user
    addresses and every address of it is in an area with the permission asked
    for and, for writes to a stack area, not in its first page. *)
Theorem user_mem_check_correct `{!ObjectAllocator kmalloc kfree live} fuel s F O mm m xs addr len write :
  inv s F O mm m xs → user_areas (vmas s) xs → enough fuel (length xs) →
  ∃ b s' m', user_mem_check fuel mm addr len write s = Ret (b, s') ∧ inv s' F O mm m' xs ∧ vmas s' = vmas s ∧
    (b = true ↔ USER_ACCESS addr (u32 (addr + len)) = true ∧
       ∀ a, addr ≤ a < u32 (addr + len) → may_access (vmas s) xs write a).
Proof.
  intros Hi Hu Hen. unfold user_mem_check. rewrite bool_decide_true by apply Hi.
  destruct (USER_ACCESS addr (u32 (addr + len))) eqn:Hua; simpl.
  - destruct (mem_check_loop_ok kmalloc kfree live fuel fuel s F O mm m xs [] xs addr (u32 (addr + len)) write)
      as (b & s' & m' & E & Hi' & Hv & _ & _ & Hb); try done; [unfold enough in Hen; lia|by intros v []%elem_of_nil|].
    exists b, s', m'. split_and!; try done. rewrite Hb. tauto.
  - exists false, s, m. split_and!; try done. split; [done|]. by intros [? _].
Qed.
End Thms.

(** ** An address space *)
Definition ex_vmm0 : vmms Z := MkVmms Z ∅ ∅ ∅ ∅ ∅ (MkShms Z ∅ ∅ ∅ (MkVmem Z ∅ 0 ∅ 1)).
Abbreviation ex_inv := (vm_inv bump_live).

Lemma ex_created : ∃ s F O, mm_create bump_kmalloc ex_vmm0 = Ret (1, s) ∧ ex_inv s F O 1 (MkMm 0 0 0 0) [].
Proof.
  destruct (mm_create_ok bump_kmalloc bump_kfree bump_live 100 ex_vmm0 ∅ ∅) as (mm & s & E & _ & _ & Hres).
  - apply dlists_empty.
  - split; [vm_compute; reflexivity|]. intros p Hp. by apply elem_of_empty in Hp.
  - intros w hd (xs & Hl & _). by rewrite lookup_empty in Hl.
  - intros w hd (xs & Hl & _). by rewrite lookup_empty in Hl.
  - assert (mm = 1) as ->.
    { assert (ret_val (mm_create bump_kmalloc ex_vmm0) = Some 1) as H by (vm_compute; reflexivity).
      rewrite E in H. by injection H. }
    destruct Hres as [[? _]|[_ Hi]]; [done|]. by eexists _, _, _.
Qed.

Lemma ex_enough n : (n ≤ 8)%nat → enough 100 n.
Proof.
  intros Hn. unfold enough. split_and!; [lia| |lia]. pose proof (rb_fuel_mono (S n) 9 ltac:(lia)) as Hm.
  change (rb_fuel 9) with 7%nat in Hm. lia.
Qed.

(** One area: two pages at 0x300000, readable and writable. *)
Lemma ex_mapped_area : ∃ s F O m xs, ex_inv s F O 1 m xs ∧ length xs = 1%nat ∧ user_areas (vmas s) xs ∧
  ∀ a, space (vmas s) xs a = if bool_decide (0x300000 ≤ a < 0x302000) then Some 3 else None.
Proof.
  destruct ex_created as (s & F & O & E & Hi).
  destruct (mm_map_ok bump_kmalloc bump_kfree bump_live 100 s F O 1 _ [] 0x300000 0x1800 19 Hi (ex_enough 0 ltac:(lia)))
    as (r & v & s' & F' & O' & m' & xs' & E' & Hi' & _ & _ & Hcase).
  change (ROUNDDOWN 0x300000 PGSIZE) with 0x300000 in Hcase.
  change (ROUNDUP (u32 (0x300000 + 0x1800)) PGSIZE) with 0x302000 in Hcase.
  assert (Hr : r = 0).
  { assert (Hval : ret_val ((mm ← mm_create bump_kmalloc; mm_map bump_kmalloc bump_kfree 100 mm 0x300000 0x1800 19) ex_vmm0)
      = Some (0, 2)) by (vm_compute; reflexivity).
    rewrite (bind_Ret _ _ _ _ _ E), E' in Hval. by injection Hval. }
  subst r. destruct Hcase as [(? & _)|[(? & _)|(_ & _ & _ & Hin & Hlen & Hsp)]]; [done|done|].
  exists s', F', O', m', xs'. pose proof (vi_areas _ _ _ _ _ _ _ Hi') as Ha. split_and!; try done.
  intros w Hw. destruct Ha as [Hs Ha]. destruct (Ha w Hw) as (_ & _ & Hlt).
  assert (Hmap : ∀ a, start_of (vmas s') w ≤ a < end_of (vmas s') w → 0x300000 ≤ a < 0x302000).
  { intros a Hr. pose proof (Hsp a) as Hspa. destruct (decide (0x300000 ≤ a < 0x302000)) as [|Hn]; [done|].
    unfold set_in in Hspa. rewrite (bool_decide_false _ Hn) in Hspa. change (space (vmas s) [] a) with (@None Z) in Hspa.
    apply (space_none _ _ _ (conj Hs Ha)) with (v := w) in Hspa; done. }
  pose proof (Hmap (start_of (vmas s') w) ltac:(lia)). pose proof (Hmap (end_of (vmas s') w - 1) ltac:(lia)).
  unfold USERBASE, USERTOP. lia.
Qed.

Lemma find_vma_correct_witness : ∃ (s : vmms Z) xs (s' : vmms Z) v, length xs = 1%nat ∧ find_vma 100 1 0x301234 s = Ret (v, s') ∧
  v = lookup_vma (vmas s) 0x301234 xs ∧ vmas s' = vmas s.
Proof.
  destruct ex_mapped_area as (s & F & O & m & xs & Hi & Hl & _).
  destruct (find_vma_correct bump_kmalloc bump_kfree bump_live 100 s F O 1 m xs 0x301234 Hi)
    as (s' & m' & E & _ & Hv & _).
  - apply ex_enough. rewrite Hl. lia.
  - eexists s, xs, s', _. split; [exact Hl|]. split; [exact E|]. split; [reflexivity|exact Hv].
Defined.

Lemma mm_map_correct_witness : ∃ (s : vmms Z) (xs : list Z) r v s' F' O' m' xs', length xs = 1%nat ∧
  mm_map bump_kmalloc bump_kfree 100 1 0x400000 0x1000 1 s = Ret ((r, v), s') ∧ ex_inv s' F' O' 1 m' xs'.
Proof.
  destruct ex_mapped_area as (s & F & O & m & xs & Hi & Hl & _).
  destruct (mm_map_correct bump_kmalloc bump_kfree bump_live 100 s F O 1 m xs 0x400000 0x1000 1 Hi)
    as (r & v & s' & F' & O' & m' & xs' & E & Hi' & _).
  - apply ex_enough. rewrite Hl. lia.
  - exists s, xs, r, v, s', F', O', m', xs'. split; [exact Hl|]. split; [exact E|exact Hi'].
Defined.

Lemma get_unmapped_area_correct_witness : ∃ (s : vmms Z) xs r, length xs = 1%nat ∧
  get_unmapped_area 100 1 0x1000 s = Ret (r, s) ∧
  ∀ p, USERBASE ≤ p → r < p → p + 0x1000 ≤ USERTOP → ¬ fits (vmas s) xs p (p + 0x1000).
Proof.
  destruct ex_mapped_area as (s & F & O & m & xs & Hi & Hl & Hu & _).
  destruct (get_unmapped_area_correct bump_kmalloc bump_kfree bump_live 100 s F O 1 m xs 0x1000 Hi Hu)
    as (r & E & _ & Hr).
  - apply ex_enough. rewrite Hl. lia.
  - lia.
  - exists s, xs, r. split; [exact Hl|]. split; [exact E|]. apply Hr. lia.
Defined.

Lemma user_mem_check_correct_witness : ∃ (s : vmms Z) xs b s', length xs = 1%nat ∧
  user_mem_check 100 1 0x301000 0x800 true s = Ret (b, s') ∧
  (b = true ↔ USER_ACCESS 0x301000 (u32 (0x301000 + 0x800)) = true ∧
     ∀ a, 0x301000 ≤ a < u32 (0x301000 + 0x800) → may_access (vmas s) xs true a).
Proof.
  destruct ex_mapped_area as (s & F & O & m & xs & Hi & Hl & Hu & _).
  destruct (user_mem_check_correct bump_kmalloc bump_kfree bump_live 100 s F O 1 m xs 0x301000 0x800 true Hi Hu)
    as (b & s' & m' & E & _ & _ & Hb).
  - apply ex_enough. rewrite Hl. lia.
  - exists s, xs, b, s'. split; [exact Hl|]. split; [exact E|exact Hb].
Defined.
