(* ===== verification/VmmUnmap.v ===== *)
(** * kern/mm/vmm.c: mm_unmap

    The areas of the range leave the descriptor, what remains of them goes
    back, and the page tables lose the mappings of the range.  The page tables
    appear through the interface [PageTables]; the functions of [Pmm] over an
    allocator with reference counts implement it. *)
From stdpp Require Import base gmap list fin_maps sorting.
From Stdlib Require Import ZArith Lia.
From S2P Require Import Prelude DList Bits Printfmt Mmu RbTree RbRepr RbInsert RbQuery RbErase RbFrame RbProps Alloc.
From S2P Require Import PmmRefs Pmm PmmInv PmmProps ProcThms PmmThms Shmem Vmm VmmInv VmmProps VmmThms.

(** [pt v O e]: in the memory [v] the objects [O] are allocated and the page
    tables of the directory [pgd] have the entries [e]. *)
Class PageTables {A} (alloc_pages : Z → M A (option Z)) (free_pages : Z → Z → M A unit) (npage : Z)
    (get_ref : Z → M A Z) (set_ref : Z → Z → M A unit) (kmalloc : Z → M A Z) (kfree : Z → M A unit)
    (fuel : nat) (pt : vmem A → gset Z → (Z → Z) → Prop) (pgd : Z) : Prop := {
  pg_objects v e :: ObjectAllocator kmalloc kfree (λ a O, pt (over palloc_lens a v) O e);
  pg_unmap v O e a b : pt v O e → USER_ACCESS (a * PGSIZE) (b * PGSIZE) = true →
    ∃ v' e', unmap_range alloc_pages free_pages npage get_ref set_ref fuel pgd (a * PGSIZE) (b * PGSIZE) v = Ret ((), v') ∧
      pt v' O e' ∧ ∀ u, e' u = if decide (a ≤ u < b) then 0 else e u }.

Section Frame.
Context {A : Type}.
Implicit Types (s : vmms A) (F : gmap vlink (list vlink)) (live : A → gset Z → Prop).

Lemma inv_live live live' s F O mm m xs :
  vm_inv live s F O mm m xs → live' (al s) O → vm_inv live' s F O mm m xs.
Proof. intros [H1 H2 H3 H4] Hl. by split. Qed.

(** The invariant depends on the objects of the descriptor only. *)
Lemma inv_agree live live' s s' F O O' mm m xs :
  vm_inv live s F O mm m xs → mms s' !! mm = mms s !! mm → rbtrees s' = rbtrees s → dlists (vlinks s') F →
  (∀ v, v ∈ xs → vmas s' !! v = vmas s !! v) →
  (∀ q, q ∈ xs ∨ q ∈ tree_nodes s m → rbnodes s' !! q = rbnodes s !! q) →
  live' (al s') O' → (∀ w, w ∈ O → w ∈ O' ∨ (w ∉ xs ∧ w ∉ tree_nodes s m ∧ unowned F (VmaLink w))) →
  vm_inv live' s' F O' mm m xs.
Proof.
  intros [[M1 M2 M3 M4 M5 M6 M7 M8 M9] [O1 O2] H3 H4] Hmm Hrt Hdl Hvm Hrb Hl HO.
  assert (Hst : ∀ w, w ∈ xs → start_of (vmas s') w = start_of (vmas s) w ∧ end_of (vmas s') w = end_of (vmas s) w).
  { intros w Hw. unfold start_of, end_of. by rewrite Hvm. }
  assert (Htn : ∀ n r, mmap_tree m ≠ 0 → rbtrees s !! mmap_tree m = Some (n, r) → tree_nodes s m = [n; r]).
  { intros n r H0 Hlk. unfold tree_nodes. by rewrite bool_decide_false, Hlk. }
  split; [split| |done|].
  - by rewrite Hmm.
  - done.
  - done.
  - done.
  - eapply areas_ext; [|exact M5]. intros w Hw Hs. rewrite Hvm by done. by destruct (Hst w Hw).
  - intros w Hw. unfold mm_of. rewrite Hvm by done. by apply M6.
  - done.
  - done.
  - destruct (decide (mmap_tree m = 0)) as [H0|H0]; [by left|].
    destruct M9 as [?|(n & r & Et & Hrep)]; [by left|right]. exists n, r. rewrite Hrt. split; [done|].
    eapply (represents_key _ (start_of (vmas s))); [by intros w Hw; apply Hst|].
    destruct Hrep as (t & Hr & Hval & Hin & Hs). exists t. split_and!; try done. eapply rep_agree; [exact Hr|].
    intros q Hq. apply Hrb. rewrite (Htn n r H0 Et). unfold aids in Hq. simpl in Hq.
    rewrite <-(inorder_ids t), Hin in Hq. rewrite !elem_of_cons in Hq |- *. tauto.
  - split.
    + intros v Hv. destruct (O1 v Hv) as [HvO Hn]. split; [|rewrite Hrb by (by left); done].
      destruct (HO v HvO) as [?|(? & _)]; done.
    + intros H0 n r Hlk. rewrite Hrt in Hlk. destruct (O2 H0 n r Hlk) as [Hn Hr].
      rewrite (Htn n r H0 Hlk) in HO.
      split; [destruct (HO n Hn) as [?|(_ & Hx & _)]|destruct (HO r Hr) as [?|(_ & Hx & _)]]; try done; set_solver +Hx.
  - intros w hd Ho. destruct (HO w (H4 w hd Ho)) as [?|(_ & _ & Hu)]; [done|]. by destruct (Hu hd).
Qed.

(** ** remove_vma_struct *)
Lemma inv_remove live fuel s F O mm m xs l1 v l2 :
  vm_inv live s F O mm m xs → xs = l1 ++ v :: l2 → (rb_fuel (length xs) ≤ fuel)%nat → Z.of_nat (length xs) < 2 ^ 31 →
  let F' := <[MmapList mm := VmaLink <$> l1 ++ l2]> F in
  ∃ s' m', remove_vma_struct fuel mm v s = Ret ((), s') ∧ vm_inv live s' F' O mm m' (l1 ++ l2) ∧
    vmas s' = vmas s ∧ sh s' = sh s ∧ rbtrees s' = rbtrees s ∧ mmap_tree m' = mmap_tree m ∧ pgdir m' = pgdir m ∧
    dom (vlinks s') = dom (vlinks s) ∧ dom (rbnodes s') = dom (rbnodes s) ∧
    unowned F' (VmaLink v) ∧ (∀ m', m' ≠ mm → mms s' !! m' = mms s !! m').
Proof.
  intros [Hm Hob Hl Hown] Hxs Hf Hlen F'. pose proof Hm as [M1 M2 M3 M4 M5 M6 M7 M8 M9].
  pose proof M5 as [_ Hall]. assert (Hin : v ∈ xs) by (subst xs; set_solver +). destruct (Hall v Hin) as (Hv0 & [x Hx] & _).
  assert (Hsub : ∀ w, w ∈ l1 ++ l2 → w ∈ xs) by (rewrite Hxs; set_solver +).
  assert (Hown_v : mm = vm_mm x). { specialize (M6 v Hin). unfold mm_of in M6. by rewrite Hx in M6. }
  rewrite Hxs, fmap_app, fmap_cons in M4. pose proof M5 as Hnd. apply areas_nodup in Hnd. rewrite Hxs in Hnd.
  destruct (list_del_dlists _ _ _ _ _ _ M3 M4) as (lk & El & Hlk & Hdlk & Hun).
  rewrite <-fmap_app in Hlk, Hun. change (<[MmapList mm := _]> F) with F' in Hlk, Hun.
  assert (Htree : ∃ h, (if bool_decide (mmap_tree m ≠ 0) then tree ← get_tree (mmap_tree m); on_rb (rb_delete fuel tree v)
       else skip) s = Ret ((), upd_rbnodes (λ _, h) s) ∧ dom h = dom (rbnodes s) ∧
     (mmap_tree m = 0 ∨ ∃ n r, rbtrees s !! mmap_tree m = Some (n, r) ∧
        represents (RbTree nocmp n r) (start_of (vmas s)) h (l1 ++ l2))).
  { destruct (decide (mmap_tree m = 0)) as [H0|H0].
    - rewrite bool_decide_false by tauto. exists (rbnodes s). split_and!; [by destruct s|done|by left].
    - rewrite bool_decide_true by done. destruct M9 as [?|(n & r & Et & Hrep)]; [done|].
      rewrite (bind_Ret _ _ _ _ _ (get_tree_run _ _ _ _ Et)).
      apply (represents_any _ (vma_compare (vmas s))) in Hrep.
      destruct (delete_represents _ _ fuel _ _ v Hrep Hf Hin) as (h & E & Hrep' & Hd & _).
      exists h. split_and!; [by apply (zoom_Ret rb_lens)|done|right]. exists n, r. split; [done|].
      rewrite Hxs, sdelete_split in Hrep' by done. by eapply represents_any. }
  destruct Htree as (h & Et & Hdh & Htr).
  set (m' := set_map_count (s32 (map_count m - 1)) (if bool_decide (v = mmap_cache m) then set_mmap_cache 0 m else m)).
  set (s1 := over vlinks_lens lk (upd_rbnodes (λ _, h) s)). set (s2 := upd_mms <[mm := m']> s1).
  assert (Hm' : mmap_tree m' = mmap_tree m ∧ pgdir m' = pgdir m).
  { unfold m'. simpl. by destruct (bool_decide (v = mmap_cache m)). }
  destruct Hm' as [Hmt Hmp]. exists s2, m'. split_and!; try done.
  - unfold remove_vma_struct. rewrite (bind_Ret _ _ _ _ _ (get_vma_run _ _ _ Hx)).
    rewrite bind_assert by (by apply bool_decide_eq_true). rewrite (bind_Ret _ _ _ _ _ (get_mm_run _ _ _ M1)).
    rewrite (bind_Ret _ _ _ _ _ Et).
    assert (El' : on_links (list_del (VmaLink v)) (upd_rbnodes (λ _, h) s) = Ret ((), s1)) by (by apply (zoom_Ret vlinks_lens)).
    rewrite (bind_Ret _ _ _ _ _ El'). exact (set_mm_run s1 mm m _ M1).
  - split.
    + split; try done.
      * change (mms s2) with (<[mm := m']> (mms s)). by rewrite lookup_insert_eq.
      * unfold F'. by rewrite lookup_insert_eq.
      * rewrite Hxs in M5. apply areas_app in M5 as (A1 & A2 & A3). apply areas_cons in A2 as (A2 & _).
        apply areas_app. split_and!; [done|done|]. intros a b Ha Hb. apply A3; [done|by right].
      * intros w Hw. by apply M6, Hsub.
      * unfold m'. simpl. rewrite M7, Hxs, !length_app in *. simpl in *. rewrite s32_small by lia. lia.
      * unfold m'. simpl. clear Et. case_bool_decide as Hc; [by left|]. destruct M8 as [?|Hc']; [by left|right].
        rewrite Hxs in Hc'. set_solver +Hc Hc'.
      * rewrite Hmt. exact Htr.
    + destruct Hob as [O1 O2]. split.
      * intros w Hw. destruct (O1 w) as [? Hn]; [by apply Hsub|]. split; [done|].
        apply elem_of_dom. change (rbnodes s2) with h. rewrite Hdh. by apply elem_of_dom.
      * rewrite Hmt. exact O2.
    + exact Hl.
    + intros w hd Ho. unfold F' in Ho. rewrite owns_insert in Ho. destruct Ho as [[-> Hw]|[_ Ho]]; [|by eapply Hown].
      apply elem_of_cons in Hw as [?|Hw]; [done|]. apply list_elem_of_fmap in Hw as (w' & [= <-] & Hw).
      by apply (ob_vma _ _ _ _ Hob), Hsub.
  - intros m'' Hne. change (mms s2) with (<[mm := m']> (mms s)). by rewrite lookup_insert_ne.
Qed.

(** ** Resizing *)
Definition resized (v lo hi : Z) (x : vma_struct) s : vmms A := upd_vmas <[v := set_vm_range lo hi x]> s.

Lemma resize_run s v x lo hi :
  vmas s !! v = Some x → Z.land (vm_flags x) VM_SHARE = 0 → lo mod PGSIZE = 0 → hi mod PGSIZE = 0 →
  vm_start x ≤ lo → lo < hi → hi ≤ vm_end x → vma_resize v lo hi s = Ret ((), resized v lo hi x s).
Proof.
  intros Hx Hp H1 H2 H3 H4 H5. unfold vma_resize. rewrite bind_assert by (rewrite andb_true_iff, !bool_decide_eq_true; done).
  rewrite (bind_Ret _ _ _ _ _ (get_vma_run _ _ _ Hx)).
  rewrite bind_assert by (rewrite !andb_true_iff, !bool_decide_eq_true; done).
  rewrite (bool_decide_false (_ ≠ 0)) by tauto. rewrite bind_skip. unfold set_vma. by rewrite Hx.
Qed.

(** An area outside the descriptor. *)
Lemma inv_resize_out live s F O mm m xs v lo hi x :
  vm_inv live s F O mm m xs → v ∉ xs → vm_inv live (resized v lo hi x s) F O mm m xs.
Proof.
  intros Hi Hv. eapply (inv_agree live live s); [exact Hi|done|done|apply (mo_links _ _ _ _ _ (vi_ok _ _ _ _ _ _ _ Hi))| |done| |].
  - intros w Hw. simpl. rewrite lookup_insert_ne; [done|]. by intros ->.
  - apply (vi_live _ _ _ _ _ _ _ Hi).
  - by left.
Qed.

(** An area of the descriptor. *)
Lemma inv_resize_in live s F O mm m xs v lo hi x :
  vm_inv live s F O mm m xs → v ∈ xs → vmas s !! v = Some x → vm_start x ≤ lo → lo < hi → hi ≤ vm_end x →
  vm_inv live (resized v lo hi x s) F O mm m xs.
Proof.
  intros [[M1 M2 M3 M4 M5 M6 M7 M8 M9] [O1 O2] H3 H4] Hv Hx L1 L2 L3. set (vs' := vmas (resized v lo hi x s)).
  assert (Hso : ∀ w, w ≠ v → start_of vs' w = start_of (vmas s) w ∧ end_of vs' w = end_of (vmas s) w).
  { intros w Hw. unfold start_of, end_of, vs'. simpl. by rewrite lookup_insert_ne. }
  assert (Hsv : start_of vs' v = lo ∧ end_of vs' v = hi) by (unfold start_of, end_of, vs'; simpl; by rewrite lookup_insert_eq).
  assert (Hold : start_of (vmas s) v = vm_start x ∧ end_of (vmas s) v = vm_end x) by (unfold start_of, end_of; by rewrite Hx).
  assert (Hin : ∀ w, start_of (vmas s) w ≤ start_of vs' w ∧ end_of vs' w ≤ end_of (vmas s) w).
  { intros w. destruct (decide (w = v)) as [->|Hw]; [lia|]. destruct (Hso w Hw). lia. }
  assert (Ha : areas vs' xs).
  { destruct M5 as [S1 S2]. split.
    - clear -S1 Hin. induction S1 as [|a l S1 IH Hf]; [constructor|]. constructor; [done|].
      eapply Forall_impl; [exact Hf|]. intros b Hab. simpl in Hab. pose proof (Hin a). pose proof (Hin b). lia.
    - intros w Hw. destruct (S2 w Hw) as (Hn & [y Hy] & Hlt). split; [done|].
      destruct (decide (w = v)) as [->|Hne].
      { split; [|lia]. unfold vs'. simpl. rewrite lookup_insert_eq. by eexists. }
      destruct (Hso w Hne) as [-> ->]. split; [|done]. unfold vs'. simpl. rewrite lookup_insert_ne by done. by eexists. }
  split; [|by split|done|done]. split; try done.
  - intros w Hw. specialize (M6 w Hw). unfold mm_of in *. simpl. destruct (decide (w = v)) as [->|Hne].
    + rewrite lookup_insert_eq. by rewrite Hx in M6.
    + by rewrite lookup_insert_ne.
  - destruct M9 as [?|(n & r & Et & t & Hr & Hval & Hio & Hs)]; [by left|right]. exists n, r. split; [done|].
    exists t. split_and!; try done. by apply areas_sorted.
Qed.
(** ** The lists *)
Lemma inv_lists live s F F' lk O mm m xs :
  vm_inv live s F O mm m xs → dlists lk F' → F' !! MmapList mm = F !! MmapList mm →
  (∀ w hd, owns F' (VmaLink w) hd → w ∈ O) → vm_inv live (over vlinks_lens lk s) F' O mm m xs.
Proof.
  intros [[M1 M2 M3 M4 M5 M6 M7 M8 M9] [O1 O2] H3 H4] Hdl HF Ho. split; try done; split; try done. by rewrite HF.
Qed.

(** The first loop: the areas [ys] leave the descriptor for the other list. *)
Record collected live s s' F' O mm m m' (xs' acc : list Z) : Prop := {
  cl_inv : vm_inv live s' F' O mm m' xs';
  cl_list : F' !! UnmapList = Some (VmaLink <$> acc);
  cl_vmas : vmas s' = vmas s;
  cl_sh : sh s' = sh s;
  cl_trees : rbtrees s' = rbtrees s;
  cl_tree : mmap_tree m' = mmap_tree m;
  cl_pgdir : pgdir m' = pgdir m;
  cl_nodes : dom (rbnodes s') = dom (rbnodes s);
  cl_others : ∀ m', m' ≠ mm → mms s' !! m' = mms s !! m' }.

Lemma collected_trans live s s1 s2 F1 F2 O mm m m1 m2 xs1 xs2 acc1 acc2 :
  collected live s s1 F1 O mm m m1 xs1 acc1 → collected live s1 s2 F2 O mm m1 m2 xs2 acc2 →
  collected live s s2 F2 O mm m m2 xs2 acc2.
Proof.
  intros [A1 A2 A3 A4 A5 A6 A7 A8 A9] [B1 B2 B3 B4 B5 B6 B7 B8 B9].
  split; try done; try congruence. intros m' Hm'. rewrite B9, A9; done.
Qed.

(** One area moves. *)
Lemma area_move_ok live fuel s F O mm m l1 y l2 acc :
  vm_inv live s F O mm m (l1 ++ y :: l2) → F !! UnmapList = Some (VmaLink <$> acc) →
  (rb_fuel (length (l1 ++ y :: l2)) ≤ fuel)%nat → Z.of_nat (length (l1 ++ y :: l2)) < 2 ^ 31 →
  ∃ s' F' m', (remove_vma_struct fuel mm y;; on_links (list_add UnmapList (VmaLink y))) s = Ret ((), s') ∧
    collected live s s' F' O mm m m' (l1 ++ l2) (y :: acc).
Proof.
  intros Hi HU Hf Hlen. pose proof (vi_objs _ _ _ _ _ _ _ Hi) as [O1 _].
  destruct (inv_remove live fuel s F O mm m _ l1 y l2 Hi eq_refl Hf Hlen)
    as (s1 & m1 & E1 & Hi1 & Hvm & Hsh & Hrt & Hmt & Hpg & Hdl & Hdn & Hun & Hoth).
  rewrite (bind_Ret _ _ _ _ _ E1). set (F1 := <[MmapList mm := VmaLink <$> l1 ++ l2]> F) in *.
  pose proof (mo_links _ _ _ _ _ (vi_ok _ _ _ _ _ _ _ Hi)) as Hd0.
  pose proof (mo_links _ _ _ _ _ (vi_ok _ _ _ _ _ _ _ Hi1)) as Hd1.
  assert (HU1 : F1 !! UnmapList = Some (VmaLink <$> acc)) by (unfold F1; by rewrite lookup_insert_ne).
  assert (Hy : is_Some (vlinks s1 !! VmaLink y)).
  { eapply dom_is_Some; [exact Hdl|]. eapply dlists_alloc; [exact Hd0|]. eapply (owns_member F (MmapList mm)).
    - apply (mo_list _ _ _ _ _ (vi_ok _ _ _ _ _ _ _ Hi)).
    - apply list_elem_of_fmap_2. set_solver +. }
  destruct (list_add_head_dlists _ _ _ _ _ Hd1 HU1 Hun Hy) as (lk & E2 & Hd2 & _).
  set (F2 := <[UnmapList := VmaLink y :: (VmaLink <$> acc)]> F1) in *.
  exists (over vlinks_lens lk s1), F2, m1. split; [by apply (zoom_Ret vlinks_lens)|]. split; try done.
  - apply (inv_lists live s1 F1); [done|exact Hd2|unfold F2; by rewrite lookup_insert_ne|].
    intros w hd Ho. unfold F2 in Ho. rewrite owns_insert in Ho. destruct Ho as [[-> Ho]|[_ Ho]];
      [|by apply (vi_owned _ _ _ _ _ _ _ Hi1 w hd)].
    apply elem_of_cons in Ho as [?|Ho]; [done|]. apply elem_of_cons in Ho as [[= ->]|Ho].
    + apply O1. set_solver +.
    + apply (vi_owned _ _ _ _ _ _ _ Hi w UnmapList). by eapply owns_member.
  - unfold F2. by rewrite lookup_insert_eq.
Qed.

Lemma unmap_collect_ok live fuel en n s F O mm m l1 ys l2 acc :
  vm_inv live s F O mm m (l1 ++ ys ++ l2) → F !! UnmapList = Some (VmaLink <$> acc) →
  (∀ y, y ∈ ys → start_of (vmas s) y < en) → (∀ y, y ∈ l2 → en ≤ start_of (vmas s) y) → (length ys < n)%nat →
  (rb_fuel (length (l1 ++ ys ++ l2)) ≤ fuel)%nat → Z.of_nat (length (l1 ++ ys ++ l2)) < 2 ^ 31 →
  let le := firstof (VmaLink <$> ys ++ l2) (MmapList mm) in
  ∃ s' F' m', (if bool_decide (le = MmapList mm) then skip else unmap_collect fuel n mm en (le2vma le)) s = Ret ((), s') ∧
    collected live s s' F' O mm m m' (l1 ++ l2) (rev ys ++ acc).
Proof.
  revert n s F m acc. induction ys as [|y ys IH]; intros n s F m acc Hi HU Hy Hl2 Hn Hf Hlen le;
    (destruct n as [|n]; [simpl in Hn; lia|]); pose proof (mo_areas _ _ _ _ _ (vi_ok _ _ _ _ _ _ _ Hi)) as [_ Hall].
  - exists s, F, m. split; [|by split]. subst le. destruct l2 as [|w l2]; [by rewrite bool_decide_true|].
    change (firstof _ _) with (VmaLink w). rewrite bool_decide_false by done. cbn [le2vma unmap_collect].
    destruct (Hall w) as (_ & [x Hx] & _); [set_solver +|]. rewrite (bind_Ret _ _ _ _ _ (get_vma_run _ _ _ Hx)).
    specialize (Hl2 w ltac:(by left)). unfold start_of in Hl2. rewrite Hx in Hl2. by rewrite bool_decide_false by lia.
  - subst le. change (firstof _ _) with (VmaLink y). rewrite bool_decide_false by done. cbn [le2vma unmap_collect].
    destruct (Hall y) as (_ & [x Hx] & _); [set_solver +|]. rewrite (bind_Ret _ _ _ _ _ (get_vma_run _ _ _ Hx)).
    pose proof (Hy y ltac:(by left)) as Hy1. unfold start_of in Hy1. rewrite Hx in Hy1. rewrite bool_decide_true by lia.
    pose proof (mo_list _ _ _ _ _ (vi_ok _ _ _ _ _ _ _ Hi)) as HF. csimpl in HF. rewrite fmap_app in HF. csimpl in HF.
    pose proof (mo_links _ _ _ _ _ (vi_ok _ _ _ _ _ _ _ Hi)) as Hd.
    rewrite (bind_Ret _ _ _ _ _ (on_links_read _ s _ (list_next_member _ _ _ _ _ _ Hd HF))).
    destruct (area_move_ok live fuel s F O mm m l1 y (ys ++ l2) acc Hi HU Hf Hlen) as (s1 & F1 & m1 & E1 & C1).
    rewrite <-bind_assoc. rewrite (bind_Ret _ _ _ _ _ E1).
    destruct (IH n s1 F1 m1 (y :: acc)) as (s2 & F2 & m2 & E2 & C2).
    + apply C1.
    + apply C1.
    + rewrite (cl_vmas _ _ _ _ _ _ _ _ _ _ C1). intros w Hw. apply Hy. by right.
    + rewrite (cl_vmas _ _ _ _ _ _ _ _ _ _ C1). exact Hl2.
    + simpl in Hn. lia.
    + etransitivity; [|exact Hf]. apply rb_fuel_mono. rewrite !length_app. simpl. lia.
    + rewrite !length_app in *. simpl in *. lia.
    + exists s2, F2, m2. split; [exact E2|]. simpl. rewrite <-app_assoc. by eapply collected_trans.
Qed.
End Frame.

(** ** The areas go back *)
Section Unmap.
Context {A : Type} {alloc_pages : Z → M A (option Z)} {free_pages : Z → Z → M A unit} {npage : Z}.
Context {get_ref : Z → M A Z} {set_ref : Z → Z → M A unit} {PageSwap : Z → M A bool}.
Context {kmalloc : Z → M A Z} {kfree : Z → M A unit} {fuel : nat}.
Context {pt : vmem A → gset Z → (Z → Z) → Prop} {pgd : Z}.
Context `{HP : !PageTables alloc_pages free_pages npage get_ref set_ref kmalloc kfree fuel pt pgd}.
Implicit Types (s : vmms A) (F : gmap vlink (list vlink)) (e : Z → Z).

(** The entries of the page tables are [e]. *)
Definition plive s e : A → gset Z → Prop := λ a O, pt (over palloc_lens a (svm (sh s))) O e.
Record pinv s F O mm m xs e : Prop := {
  pv_inv : vm_inv (plive s e) s F O mm m xs;
  pv_pgdir : pgdir m = pgd }.

Lemma plive_kept mm s s' e a O : others_kept mm s s' → plive s' e a O ↔ plive s e a O.
Proof. intros [_ Hsh]. unfold plive. by rewrite Hsh. Qed.
Lemma pinv_kept mm s s' F O m xs e :
  others_kept mm s s' → vm_inv (plive s e) s' F O mm m xs → pgdir m = pgd → pinv s' F O mm m xs e.
Proof.
  intros Ho Hi Hp. split; [|done]. eapply inv_live; [exact Hi|]. apply (plive_kept mm s s' e _ _ Ho). apply (vi_live _ _ _ _ _ _ _ Hi).
Qed.

(** *** unmap_range inside an address space *)
Abbreviation unmap_range'' a b :=
  (on_vm (unmap_range alloc_pages free_pages npage get_ref set_ref fuel pgd a b)).
Definition with_svm (v : vmem A) s : vmms A := over sh_lens (over svm_lens v (sh s)) s.

Lemma unmap_ok s F O mm m xs e a b :
  pinv s F O mm m xs e → a mod PGSIZE = 0 → b mod PGSIZE = 0 → USER_ACCESS a b = true →
  ∃ v e', unmap_range'' a b s = Ret ((), with_svm v s) ∧ pinv (with_svm v s) F O mm m xs e' ∧
    ∀ u, e' u = if decide (a ≤ u * PGSIZE < b) then 0 else e u.
Proof using All.
  intros [Hi Hp] Ha Hb Hua. assert (HPG : PGSIZE = 4096) by done.
  assert (Ea : a = a / PGSIZE * PGSIZE) by (pose proof (Z.div_mod a PGSIZE ltac:(lia)); lia).
  assert (Eb : b = b / PGSIZE * PGSIZE) by (pose proof (Z.div_mod b PGSIZE ltac:(lia)); lia).
  assert (Hpt : pt (svm (sh s)) O e).
  { pose proof (vi_live _ _ _ _ _ _ _ Hi) as Hl. unfold plive, al in Hl. by destruct (svm (sh s)). }
  rewrite Ea, Eb in Hua |- *. destruct (pg_unmap (svm (sh s)) O e _ _ Hpt Hua) as (v & e' & E & Hpt' & He).
  exists v, e'. split_and!.
  - unfold on_vm, on_sh, vm. apply (zoom_Ret sh_lens). by apply (zoom_Ret svm_lens).
  - split; [|done]. eapply (inv_agree (plive s e) _ s); try done.
    + exact (mo_links _ _ _ _ _ (vi_ok _ _ _ _ _ _ _ Hi)).
    + unfold plive, al. simpl. by destruct v.
    + by left.
  - intros u. rewrite He. apply decide_ext. rewrite HPG. lia.
Qed.

#[local] Instance plive_objects s e : ObjectAllocator kmalloc kfree (plive s e).
Proof using HP. apply (pg_objects (svm (sh s)) e). Qed.

Lemma owns_areas F mm xs w hd : owns (<[MmapList mm := VmaLink <$> xs]> F) (VmaLink w) hd → w ∈ xs ∨ owns F (VmaLink w) hd.
Proof.
  rewrite owns_insert. intros [[-> Hin]|[_ Ho]]; [|by right]. apply elem_of_cons in Hin as [?|Hin]; [done|].
  apply list_elem_of_fmap in Hin as (w' & [= <-] & Hin). by left.
Qed.

(** A private area of whole pages of the user addresses. *)
Record good_area (vs : gmap Z vma_struct) (v : Z) : Prop := {
  ga_low : USERBASE ≤ start_of vs v;
  ga_high : end_of vs v ≤ USERTOP;
  ga_start : start_of vs v mod PGSIZE = 0;
  ga_end : end_of vs v mod PGSIZE = 0;
  ga_private : Z.land (flags_of vs v) VM_SHARE = 0 }.
Lemma good_same vs vs' v : vs' !! v = vs !! v → good_area vs v → good_area vs' v.
Proof. intros E [G1 G2 G3 G4 G5]. split; unfold start_of, end_of, flags_of in *; by rewrite E. Qed.
Lemma good_part vs vs' w v x x' :
  vs !! v = Some x → good_area vs v → vm_start x ≤ vm_start x' → vm_end x' ≤ vm_end x →
  vm_start x' mod PGSIZE = 0 → vm_end x' mod PGSIZE = 0 → vm_flags x' = vm_flags x → vs' !! w = Some x' → good_area vs' w.
Proof.
  intros E [G1 G2 G3 G4 G5] ????? E'. unfold start_of, end_of, flags_of in *. rewrite E in *.
  split; unfold start_of, end_of, flags_of; rewrite E'; try done; [lia|lia|congruence].
Qed.

Section Return.
(** The areas [xs0] and the entries [e0] before the call; the range. *)
Context (s0 : vmms A) (xs0 : list Z) (e0 : Z → Z) (mm st en : Z).
Abbreviation start0 := (start_of (vmas s0)).
Abbreviation end0 := (end_of (vmas s0)).
Context (Ha0 : areas (vmas s0) xs0) (Hg0 : ∀ v, v ∈ xs0 → good_area (vmas s0) v).
Context (Hst : st mod PGSIZE = 0) (Hen : en mod PGSIZE = 0) (Hua : USER_ACCESS st en = true).
(** No area reaches over both ends of the range. *)
Context (Hcut : ∀ v, v ∈ xs0 → start0 v < st → end0 v ≤ en).
Context (Henough : enough fuel (length xs0)).

Definition inside (a v : Z) : Prop := start0 v ≤ a < end0 v.

(** The areas [zs] have left the descriptor and wait on the list of mm_unmap;
    only the next pointers of that list matter from here on. *)
Record returning s F O m cur (zs : list Z) e : Prop := {
  rt_inv : pinv s F O mm m cur e;
  rt_nodup : NoDup zs;
  rt_sub : ∀ z, z ∈ zs → z ∈ xs0 ∧ st < end0 z ∧ start0 z < en;
  rt_rec : ∀ z, z ∈ zs → vmas s !! z = vmas s0 !! z ∧ z ∈ O ∧ z ∉ cur ∧ z ∉ tree_nodes s m ∧ unowned F (VmaLink z) ∧
    is_Some (rbnodes s !! z);
  rt_next : ∀ i z, zs !! i = Some z → nxt (vlinks s) (VmaLink z) = Some (firstof (VmaLink <$> drop (S i) zs) UnmapList);
  rt_fits : ∀ z, z ∈ zs → fits (vmas s) cur (start0 z) (end0 z);
  rt_len : (length cur + length zs ≤ length xs0)%nat;
  rt_space : ∀ a, space (vmas s) cur a =
    if bool_decide (st ≤ a < en ∨ Exists (inside a) zs) then None else space (vmas s0) xs0 a;
  rt_out : ∀ u, ¬ st ≤ u * PGSIZE < en → e u = e0 u;
  rt_in : ∀ u, st ≤ u * PGSIZE < en → e u = 0 ∨ Exists (inside (u * PGSIZE)) zs;
  rt_good : ∀ v, v ∈ cur → good_area (vmas s) v;
  rt_family : unowned F UnmapList;
  rt_others : ∀ m', m' ≠ mm → mms s !! m' = mms s0 !! m' }.

Lemma disjoint0 v w a : v ∈ xs0 → w ∈ xs0 → inside a v → inside a w → v = w.
Proof using Ha0.
  intros Hv Hw H1 H2. rewrite <-(lookup_vma_hit (vmas s0) a xs0 v Ha0 Hv H1). by apply lookup_vma_hit.
Qed.

Lemma enough_le n : (n ≤ length xs0)%nat → enough fuel n.
Proof using Henough.
  intros Hn. destruct Henough as (H1 & H2 & H3). pose proof (rb_fuel_mono (S n) (S (length xs0)) ltac:(lia)).
  split_and!; lia.
Qed.

(** A part [lo, hi) of the first area goes back, the entries of the rest
    [a, b) are removed. *)
Lemma back_ok s F O m cur z zs e lo hi a b :
  returning s F O m cur (z :: zs) e →
  lo mod PGSIZE = 0 → hi mod PGSIZE = 0 → start0 z ≤ lo → lo < hi → hi ≤ end0 z →
  a mod PGSIZE = 0 → b mod PGSIZE = 0 → a < b → st ≤ a → b ≤ en → hi ≤ st ∨ en ≤ lo →
  (∀ c, inside c z → lo ≤ c < hi ∨ a ≤ c < b) →
  ∃ s' F' O' m' cur' e',
    (vma_resize z lo hi;; insert_vma_struct kmalloc kfree fuel mm z;; unmap_range'' a b) s = Ret ((), s') ∧
    returning s' F' O' m' cur' zs e'.
Proof using All.
  intros Hr L1 L2 L3 L4 L5 B1 B2 B3 B4 B5 Hdis Hcov. pose proof Hr as [R1 R2 R3 R4 R5 R6 R7 R8 R9 R10 R12 R13 R11].
  apply NoDup_cons in R2 as [Hz Hnd]. destruct (R3 z ltac:(by left)) as (Hzx & Hz1 & Hz2).
  destruct (R4 z ltac:(by left)) as (Hv & HzO & Hzc & Hzt & Hzu & Hzn). pose proof R1 as [Hi Hpg].
  destruct (proj2 Ha0 z Hzx) as (Hz0 & [x Hx0] & _). assert (Hx : vmas s !! z = Some x) by congruence.
  assert (Hsx : start0 z = vm_start x ∧ end0 z = vm_end x ∧ flags_of (vmas s0) z = vm_flags x)
    by (unfold start_of, end_of, flags_of; by rewrite Hx0). destruct Hsx as (Es & Ee & Ef).
  assert (E1 : vma_resize z lo hi s = Ret ((), resized z lo hi x s)).
  { apply resize_run; try done; [rewrite <-Ef; by apply (ga_private _ _ (Hg0 z Hzx))|lia|lia]. }
  rewrite (bind_Ret _ _ _ _ _ E1). set (s1 := resized z lo hi x s). set (x1 := set_vm_range lo hi x).
  pose proof (inv_resize_out _ s F O mm m cur z lo hi x Hi Hzc) as Hi1. fold s1 in Hi1.
  assert (Hv1 : vmas s1 = <[z := x1]> (vmas s)) by done.
  assert (Hsame : ∀ w, w ≠ z → vmas s1 !! w = vmas s !! w) by (intros w Hw; rewrite Hv1; by rewrite lookup_insert_ne).
  assert (Hfits : fits (vmas s1) cur lo hi).
  { intros y Hy. assert (y ≠ z) by (by intros ->). unfold end_of, start_of. rewrite Hsame by done.
    destruct (R6 z ltac:(by left) y Hy) as [Hq|Hq]; [left|right]; unfold end_of, start_of in *; lia. }
  assert (Hrd : ready s1 F m cur z x1).
  { split; try done.
    - rewrite Hv1. by rewrite lookup_insert_eq.
    - exact (nxt_is_Some _ _ _ (R5 0%nat z eq_refl)).
    - by apply off_tree. }
  destruct (inv_insert kmalloc kfree (plive s e) fuel s1 F O mm m cur z x1 Hi1 Hrd HzO)
    as (s2 & F2 & O2 & m2 & cur2 & E2 & Hi2 & Hin2 & Hlen2 & Hvm2 & Hsp2 & Hpg2 & Hoth2 & HO2 & HF2 & Hd2 & Hrb2 & Hfr2 & Htn2 & _).
  { apply enough_le. simpl in R7. lia. }
  rewrite (bind_Ret _ _ _ _ _ E2).
  assert (Hp2 : pinv s2 F2 O2 mm m2 cur2 e).
  { apply (pinv_kept mm s1 s2); [done|exact Hi2|congruence]. }
  destruct (unmap_ok s2 F2 O2 mm m2 cur2 e a b Hp2 B1 B2) as (v3 & e3 & E3 & Hp3 & He3).
  { unfold USER_ACCESS in Hua |- *. rewrite !andb_true_iff, !bool_decide_eq_true in Hua |- *. lia. }
  exists (with_svm v3 s2), F2, O2, m2, cur2, e3. split; [exact E3|].
  assert (Hne : ∀ w, w ∈ zs → w ≠ z) by (intros w Hw ->; done).
  assert (Hvw : ∀ w, w ≠ z → vmas s2 !! w = vmas s !! w).
  { intros w Hw. rewrite Hvm2, lookup_insert_ne by done. by apply Hsame. }
  split; try done.
  - intros w Hw. apply R3. by right.
  - intros w Hw. destruct (R4 w ltac:(by right)) as (W1 & W2 & W3 & W4 & W5 & W6). split_and!.
    + simpl. rewrite Hvw by (by apply Hne). done.
    + by apply HO2.
    + rewrite Hin2. intros [->|?]; [by apply (Hne z)|done].
    + by apply Htn2.
    + intros hd Ho. rewrite HF2 in Ho. apply owns_areas in Ho as [Ho|Ho]; [|by apply (W5 hd)].
      apply Hin2 in Ho as [->|?]; [by apply (Hne z)|done].
    + by apply Hrb2.
  - intros i w Hw. specialize (R5 (S i) w Hw). simpl in R5. simpl. unfold nxt in *. rewrite Hfr2; [done| |].
    + apply (R4 w). right. by eapply list_elem_of_lookup_2.
    + intros [= ->]. apply (Hne z); [by eapply list_elem_of_lookup_2|done].
  - intros w Hw y Hy. assert (Hwz : w ≠ z) by (by apply Hne). simpl. apply Hin2 in Hy as [->|Hy].
    + unfold end_of, start_of. rewrite Hvm2, !lookup_insert_eq. simpl.
      destruct (R3 w ltac:(by right)) as (Hwx & _). destruct (proj2 Ha0 w Hwx) as (_ & _ & Hlw).
      destruct (decide (hi ≤ start0 w)) as [|Hc1]; [by left|]. destruct (decide (end0 w ≤ lo)) as [|Hc2]; [by right|].
      exfalso. apply Hwz. apply (disjoint0 w z (Z.max lo (start0 w)) Hwx Hzx); unfold inside; lia.
    + destruct (R6 w ltac:(by right) y Hy) as [Hq|Hq]; unfold end_of, start_of in *;
        rewrite Hvw by (by intros ->); [by left|by right].
  - simpl in R7. lia.
  - intros c. change (vmas (with_svm v3 s2)) with (vmas s2). rewrite Hsp2. unfold set_in.
    change (vm_start x1) with lo. change (vm_end x1) with hi. change (vm_flags x1) with (vm_flags x).
    assert (Hsc : space (vmas s1) cur c = space (vmas s) cur c).
    { apply space_same; [apply (vi_areas _ _ _ _ _ _ _ Hi)|]. intros y Hy. apply Hsame. by intros ->. }
    rewrite Hsc, R8. destruct (decide (lo ≤ c < hi)) as [Hc|Hc].
    + rewrite (bool_decide_true (lo ≤ c < hi)) by done. rewrite bool_decide_false.
      * symmetry. apply space_some; [done|]. exists z. split_and!; try done; lia.
      * intros [?|Hex]; [lia|]. apply Exists_exists in Hex as (w & Hw & Hwc). apply (Hne w Hw).
        apply (disjoint0 w z c); [apply (R3 w); by right|done|done|]. unfold inside. lia.
    + rewrite (bool_decide_false (lo ≤ c < hi)) by done.
      rewrite (bool_decide_ext (st ≤ c < en ∨ Exists (inside c) (z :: zs)) (st ≤ c < en ∨ Exists (inside c) zs)); [done|].
      rewrite Exists_cons.
      split; [|tauto]. intros [?|[Hc'|?]]; [by left| |by right]. destruct (Hcov c Hc'); [lia|left; lia].
  - intros u Hu. rewrite He3, decide_False by lia. by apply R9.
  - intros u Hu. rewrite He3. destruct (decide (a ≤ u * PGSIZE < b)) as [|Hn]; [by left|].
    destruct (R10 u Hu) as [?|Hex]; [by left|right]. apply Exists_cons in Hex as [Hc|?]; [|done].
    exfalso. destruct (Hcov _ Hc); lia.
  - intros w Hw. simpl. rewrite Hvm2. apply Hin2 in Hw as [->|Hw].
    + eapply (good_part (vmas s0)); [exact Hx0|by apply Hg0|..|by apply lookup_insert_eq]; simpl; try done; lia.
    + assert (w ≠ z) by (by intros ->). apply (good_same (vmas s)); [|by apply R12].
      rewrite lookup_insert_ne by done. by apply Hsame.
  - intros hd Ho. rewrite HF2, owns_insert in Ho. destruct Ho as [[-> Ho]|[_ Ho]]; [|by apply (R13 hd)].
    apply elem_of_cons in Ho as [?|Ho]; [done|]. by apply list_elem_of_fmap in Ho as (? & ? & _).
  - intros m' Hm'. simpl. rewrite (proj1 Hoth2) by done. by apply R11.
Qed.

Abbreviation vma_destroy' := (vma_destroy free_pages npage get_ref set_ref PageSwap kfree fuel).

(** The first area lies in the range and goes away. *)
Lemma drop_ok s F O m cur z zs e :
  returning s F O m cur (z :: zs) e → st ≤ start0 z → end0 z ≤ en →
  ∃ s' O' e', (vma_destroy' z;; unmap_range'' (start0 z) (end0 z)) s = Ret ((), s') ∧ returning s' F O' m cur zs e'.
Proof using All.
  intros Hr L1 L2. pose proof Hr as [R1 R2 R3 R4 R5 R6 R7 R8 R9 R10 R12 R13 R11].
  apply NoDup_cons in R2 as [Hz Hnd]. destruct (R3 z ltac:(by left)) as (Hzx & Hz1 & Hz2).
  destruct (R4 z ltac:(by left)) as (Hv & HzO & Hzc & Hzt & Hzu & Hzn). pose proof R1 as [Hi Hpg].
  destruct (proj2 Ha0 z Hzx) as (Hz0 & [x Hx0] & Hlt). assert (Hx : vmas s !! z = Some x) by congruence.
  assert (Ef : flags_of (vmas s0) z = vm_flags x) by (unfold flags_of; by rewrite Hx0).
  destruct (oa_kfree (al s) O z (vi_live _ _ _ _ _ _ _ Hi) HzO) as (a & Ea & Hla).
  set (s1 := upd_rbnodes (delete z) (upd_vlinks (delete (VmaLink z)) (upd_vmas (delete z) (with_al a s)))).
  assert (E1 : vma_destroy' z s = Ret ((), s1)).
  { unfold vma_destroy. rewrite (bind_Ret _ _ _ _ _ (get_vma_run _ _ _ Hx)).
    rewrite (bool_decide_false (_ ≠ 0)) by (rewrite <-Ef, (ga_private _ _ (Hg0 z Hzx)); tauto). rewrite bind_skip.
    by rewrite (bind_Ret _ _ _ _ _ (on_al_run _ s _ _ Ea)). }
  rewrite (bind_Ret _ _ _ _ _ E1).
  assert (Hoth : others_kept mm s s1) by (by split).
  assert (Hne : ∀ w, w ∈ zs → w ≠ z) by (intros w Hw ->; done).
  assert (Hcne : ∀ w, w ∈ cur → w ≠ z) by (intros w Hw ->; done).
  assert (Hp1 : pinv s1 F (O ∖ {[z]}) mm m cur e).
  { apply (pinv_kept mm s s1); [done| |done]. eapply (inv_agree (plive s e) _ s); [exact Hi|done|done|..].
    - apply dlists_delete; [|done]. exact (mo_links _ _ _ _ _ (vi_ok _ _ _ _ _ _ _ Hi)).
    - intros w Hw. simpl. by rewrite lookup_delete_ne by (apply not_eq_sym; by apply Hcne).
    - intros w Hw. simpl. rewrite lookup_delete_ne; [done|]. intros <-. by destruct Hw.
    - exact Hla.
    - intros w Hw. destruct (decide (w = z)) as [->|Hwz]; [by right|left]. set_solver +Hw Hwz. }
  destruct (Hg0 z Hzx) as [U1 U2 A1 A2 _].
  destruct (unmap_ok s1 F _ mm m cur e (start0 z) (end0 z) Hp1 A1 A2) as (v3 & e3 & E3 & Hp3 & He3).
  { unfold USER_ACCESS. rewrite !andb_true_iff, !bool_decide_eq_true. lia. }
  exists (with_svm v3 s1), (O ∖ {[z]}), e3. split; [exact E3|]. split; try done.
  - intros w Hw. apply R3. by right.
  - intros w Hw. destruct (R4 w ltac:(by right)) as (W1 & W2 & W3 & W4 & W5 & W6). pose proof (Hne w Hw) as Hwz. simpl.
    rewrite !lookup_delete_ne by done. split_and!; try done. set_solver +W2 Hwz.
  - intros i w Hw. specialize (R5 (S i) w Hw). simpl in R5. simpl. unfold nxt in *. rewrite lookup_delete_ne; [done|].
    intros [= ->]. apply (Hne w); [by eapply list_elem_of_lookup_2|done].
  - intros w Hw y Hy. destruct (R6 w ltac:(by right) y Hy) as [Hq|Hq]; unfold end_of, start_of in *; simpl;
      rewrite lookup_delete_ne by (apply not_eq_sym; by apply Hcne); [by left|by right].
  - simpl in R7. lia.
  - intros c. etransitivity; [apply (space_same (vmas s)); [apply (vi_areas _ _ _ _ _ _ _ Hi)|]|].
    { intros y Hy. simpl. by rewrite lookup_delete_ne by (apply not_eq_sym; by apply Hcne). }
    rewrite R8. rewrite (bool_decide_ext (st ≤ c < en ∨ Exists (inside c) (z :: zs)) (st ≤ c < en ∨ Exists (inside c) zs)); [done|].
    rewrite Exists_cons. split; [|tauto]. intros [?|[Hc|?]]; [by left|left; unfold inside in Hc; lia|by right].
  - intros u Hu. rewrite He3, decide_False by lia. by apply R9.
  - intros u Hu. rewrite He3. destruct (decide (start0 z ≤ u * PGSIZE < end0 z)) as [|Hn]; [by left|].
    destruct (R10 u Hu) as [?|Hex]; [by left|right]. by apply Exists_cons in Hex as [Hc|?].
  - intros w Hw. apply (good_same (vmas s)); [|by apply R12]. simpl.
    by rewrite lookup_delete_ne by (apply not_eq_sym; by apply Hcne).
Qed.

Abbreviation unmap_return' := (unmap_return alloc_pages free_pages npage get_ref set_ref PageSwap kmalloc kfree fuel).

Lemma unmap_return_ok n s F O m cur zs e :
  returning s F O m cur zs e → (length zs < n)%nat →
  ∃ s' F' O' m' cur' e', unmap_return' n mm st en (firstof (VmaLink <$> zs) UnmapList) s = Ret ((), s') ∧
    returning s' F' O' m' cur' [] e'.
Proof using All.
  revert n s F O m cur e. induction zs as [|z zs IH]; intros n s F O m cur e Hr Hn; (destruct n as [|n]; [simpl in Hn; lia|]);
    cbn [unmap_return].
  - rewrite bool_decide_true by done. by eexists s, F, O, m, cur, e.
  - cbn [fmap list_fmap firstof]. rewrite bool_decide_false by done. cbn [le2vma].
    pose proof (rt_next _ _ _ _ _ _ _ Hr 0%nat z eq_refl) as Hnx.
    assert (Enx : on_links (list_next (VmaLink z)) s = Ret (firstof (VmaLink <$> zs) UnmapList, s)).
    { apply on_links_read. by apply list_next_run. }
    rewrite (bind_Ret _ _ _ _ _ Enx).
    destruct (rt_sub _ _ _ _ _ _ _ Hr z ltac:(by left)) as (Hzx & Hz1 & Hz2).
    destruct (proj2 Ha0 z Hzx) as (Hz0 & [x Hx0] & Hlt). destruct (rt_rec _ _ _ _ _ _ _ Hr z ltac:(by left)) as (Hv & _).
    rewrite Hx0 in Hv. rewrite (bind_Ret _ _ _ _ _ (get_vma_run _ _ _ Hv)).
    pose proof (rt_inv _ _ _ _ _ _ _ Hr) as [Hi Hpg].
    rewrite (bind_Ret _ _ _ _ _ (get_mm_run _ _ _ (mo_mm _ _ _ _ _ (vi_ok _ _ _ _ _ _ _ Hi)))). rewrite Hpg.
    assert (Hsx : vm_start x = start0 z ∧ vm_end x = end0 z) by (unfold start_of, end_of; by rewrite Hx0).
    destruct Hsx as [-> ->]. destruct (Hg0 z Hzx) as [_ _ A1 A2 _].
    assert (Hstep : ∃ s' F' O' m' cur' e',
      (if bool_decide (start0 z < st) then
         vma_resize z (start0 z) st;; insert_vma_struct kmalloc kfree fuel mm z;; unmap_range'' st (end0 z)
       else if bool_decide (en < end0 z) then
         vma_resize z en (end0 z);; insert_vma_struct kmalloc kfree fuel mm z;; unmap_range'' (start0 z) en
       else vma_destroy' z;; unmap_range'' (start0 z) (end0 z)) s = Ret ((), s') ∧ returning s' F' O' m' cur' zs e').
    { destruct (decide (start0 z < st)) as [C1|C1].
      - rewrite (bool_decide_true (start0 z < st)) by done. pose proof (Hcut z Hzx C1) as Hc1.
        eapply back_ok; [exact Hr|..]; try done; try lia. intros c Hc. unfold inside in Hc. lia.
      - rewrite (bool_decide_false (start0 z < st)) by done. destruct (decide (en < end0 z)) as [C2|C2].
        + rewrite (bool_decide_true (en < end0 z)) by done.
          eapply back_ok; [exact Hr|..]; try done; try lia. intros c Hc. unfold inside in Hc. lia.
        + rewrite (bool_decide_false (en < end0 z)) by done.
          destruct (drop_ok s F O m cur z zs e Hr) as (s' & O' & e' & E & Hr'); [lia|lia|]. by exists s', F, O', m, cur, e'. }
    destruct Hstep as (s' & F' & O' & m' & cur' & e' & E & Hr'). rewrite (bind_Ret _ _ _ _ _ E).
    apply (IH n s' F' O' m' cur' e' Hr'). simpl in Hn. lia.
Qed.
End Return.

(** ** mm_unmap *)
(** The invariant of an address space: its areas are good and every user entry
    of the page tables lies in an area. *)
Record space_inv s F O mm m xs e : Prop := {
  sv_inv : pinv s F O mm m xs e;
  sv_good : ∀ v, v ∈ xs → good_area (vmas s) v;
  sv_cover : ∀ u, USERBASE ≤ u * PGSIZE < USERTOP → e u ≠ 0 → space (vmas s) xs (u * PGSIZE) ≠ None;
  sv_family : unowned F UnmapList }.

(** The areas that meet [st, en) are consecutive. *)
Lemma split_range vs xs st en :
  areas vs xs → st < en → let v := lookup_vma vs st xs in v ≠ 0 → start_of vs v < en →
  ∃ l1 ys l2, xs = l1 ++ (v :: ys) ++ l2 ∧ (∀ y, y ∈ l1 → end_of vs y ≤ st) ∧
    (∀ y, y ∈ v :: ys → st < end_of vs y ∧ start_of vs y < en) ∧ (∀ y, y ∈ l2 → en ≤ start_of vs y).
Proof.
  intros Ha Hlt v Hv0 Hse. destruct (lookup_vma_spec vs st xs Ha) as [[? _]|(Hin & _ & Hend & Hall)]; [done|].
  fold v in Hin, Hend, Hall. clearbody v. apply list_elem_of_split in Hin as (l1 & r & Exs). subst xs.
  apply areas_app in Ha as (A1 & A2 & A3). pose proof A2 as Hr. apply areas_cons in Hr as (_ & _ & _ & Hvlt & Hvr).
  destruct (split_at vs _ (en - 1) A2) as (ys & l2 & E & Hys & Hl2). destruct ys as [|w ys].
  { simpl in E. subst l2. specialize (Hl2 v ltac:(by left)). lia. }
  injection E as <- Er. exists l1, ys, l2. split_and!.
  - by rewrite Er.
  - intros y Hy. destruct (Hall y) as [?|[->|?]]; [set_solver +Hy|done|..].
    + specialize (A3 v v Hy ltac:(by left)). lia.
    + specialize (A3 y v Hy ltac:(by left)). destruct A1 as [_ A1]. destruct (A1 y Hy) as (_ & _ & ?). lia.
  - intros y Hy. split; [|specialize (Hys y Hy); lia]. apply elem_of_cons in Hy as [->|Hy]; [done|].
    assert (y ∈ r) by (subst r; set_solver +Hy). specialize (Hvr y ltac:(done)).
    destruct A2 as [_ A2]. destruct (A2 y) as (_ & _ & ?); [by right|]. lia.
  - intros y Hy. specialize (Hl2 y Hy). lia.
Qed.
Lemma areas_off_tree s F mm m xs v : mm_ok s F mm m xs → v ∈ xs → v ∉ tree_nodes s m.
Proof.
  intros Hm Hv. apply off_tree. intros H0 n r Hlk. destruct (mo_tree _ _ _ _ _ Hm) as [?|(n' & r' & Et & t & Hr & _ & Hin & _)]; [done|].
  rewrite Hlk in Et. injection Et as <- <-. rewrite <-Hin, inorder_ids in Hv. apply rep_ids in Hr. unfold aids in Hr. simpl in Hr.
  rewrite !NoDup_cons, not_elem_of_cons in Hr. destruct Hr as ((_ & H1) & H2 & _). split; intros ->; done.
Qed.

Lemma space_split vs l1 ys l2 st en a :
  areas vs (l1 ++ ys ++ l2) → (∀ y, y ∈ l1 → end_of vs y ≤ st) → (∀ y, y ∈ l2 → en ≤ start_of vs y) →
  space vs (l1 ++ l2) a =
    if bool_decide (st ≤ a < en ∨ Exists (λ y, start_of vs y ≤ a < end_of vs y) ys) then None
    else space vs (l1 ++ ys ++ l2) a.
Proof.
  intros Ha H1 H2. assert (Ha' : areas vs (l1 ++ l2)).
  { apply areas_app in Ha as (A1 & A2 & A3). apply areas_app in A2 as (_ & A2 & _). apply areas_app.
    split_and!; [done|done|]. intros x y Hx Hy. apply A3; [done|]. set_solver +Hy. }
  case_bool_decide as Hb.
  - apply space_none; [done|]. intros w Hw Hr. destruct Hb as [Hb|Hb].
    + apply elem_of_app in Hw as [Hw|Hw]; [specialize (H1 w Hw)|specialize (H2 w Hw)]; lia.
    + apply Exists_exists in Hb as (y & Hy & Hya).
      assert (Hwy : w = y).
      { rewrite <-(lookup_vma_hit vs a (l1 ++ ys ++ l2) w); [|done|set_solver +Hw|done].
        apply lookup_vma_hit; [done|set_solver +Hy|done]. }
      subst w. apply areas_nodup in Ha. apply NoDup_app in Ha as (_ & Hd1 & Ha). apply NoDup_app in Ha as (_ & Hd2 & _).
      apply elem_of_app in Hw as [Hw|Hw]; [apply (Hd1 y Hw); set_solver +Hy|by apply (Hd2 y Hy)].
  - apply space_ext; [done|done|]. intros f. split; intros (w & Hw & Hr & Hf); exists w; (split; [|done]).
    + apply elem_of_app in Hw as [Hw|Hw]; [set_solver +Hw|]. apply elem_of_app in Hw as [Hw|Hw]; [|set_solver +Hw].
      destruct Hb. right. apply Exists_exists. by exists w.
    + set_solver +Hw.
Qed.

(** After the first loop. *)
Lemma collected_returning s s' F' O mm m m' l1 ys l2 e st en :
  areas (vmas s) (l1 ++ ys ++ l2) → mm_ok s' F' mm m' (l1 ++ l2) → (∀ v, v ∈ l1 ++ ys ++ l2 → good_area (vmas s) v) →
  objs s O m (l1 ++ ys ++ l2) → (∀ y, y ∈ ys → y ∉ tree_nodes s m) → pgdir m = pgd →
  (∀ u, st ≤ u * PGSIZE < en → e u ≠ 0 → space (vmas s) (l1 ++ ys ++ l2) (u * PGSIZE) ≠ None) →
  (∀ y, y ∈ l1 → end_of (vmas s) y ≤ st) → (∀ y, y ∈ ys → st < end_of (vmas s) y ∧ start_of (vmas s) y < en) →
  (∀ y, y ∈ l2 → en ≤ start_of (vmas s) y) →
  collected (plive s e) s s' F' O mm m m' (l1 ++ l2) (rev ys) →
  returning s (l1 ++ ys ++ l2) e mm st en s' (delete UnmapList F') O m' (l1 ++ l2) (rev ys) e.
Proof using All.
  intros Ha Hm' Hg [O1 _] Hoff Hpg Hcov H1 Hys H2 [C1 C2 C3 C4 C5 C6 C7 C8 C9].
  pose proof (mo_links _ _ _ _ _ Hm') as Hd. pose proof (areas_nodup _ _ Ha) as Hnd.
  assert (Hrev : ∀ z, z ∈ rev ys ↔ z ∈ ys) by (intros z; rewrite <-(Permutation_rev ys); done).
  assert (Hsub : ∀ z, z ∈ ys → z ∈ l1 ++ ys ++ l2) by (intros z Hz; set_solver +Hz).
  split.
  - split; [|congruence]. replace s' with (over vlinks_lens (vlinks s') s') by (by destruct s').
    apply (inv_lists _ _ F').
    + eapply inv_live; [exact C1|]. unfold plive. simpl. rewrite C4. exact (vi_live _ _ _ _ _ _ _ C1).
    + by apply dlists_drop.
    + by rewrite lookup_delete_ne.
    + intros w hd [_ Ho]%owns_delete. by apply (vi_owned _ _ _ _ _ _ _ C1 w hd).
  - rewrite <-(Permutation_rev ys). apply NoDup_app in Hnd as (_ & _ & Hnd). by apply NoDup_app in Hnd as (? & _).
  - intros z Hz. apply Hrev in Hz. split; [by apply Hsub|]. by apply Hys.
  - intros z Hz. apply Hrev in Hz. destruct (O1 z (Hsub z Hz)) as [Hz1 Hz2]. split_and!.
    + by rewrite C3.
    + done.
    + intros Hin. apply NoDup_app in Hnd as (_ & D1 & Hnd). apply NoDup_app in Hnd as (_ & D2 & _).
      apply elem_of_app in Hin as [Hin|Hin]; [apply (D1 z Hin); set_solver +Hz|by apply (D2 z Hz)].
    + unfold tree_nodes in *. rewrite C5, C6. by apply Hoff.
    + eapply dlists_dropped; [exact Hd|]. eapply owns_member; [exact C2|]. apply list_elem_of_fmap_2. by apply Hrev.
    + apply elem_of_dom. rewrite C8. by apply elem_of_dom.
  - intros i z Hz. eapply (nxt_member _ F' UnmapList (VmaLink <$> take i (rev ys))); [exact Hd|].
    by rewrite C2, <-(take_drop_middle _ _ _ Hz) at 1; rewrite fmap_app.
  - intros z Hz y Hy. apply Hrev in Hz. rewrite C3. apply areas_app in Ha as (_ & A2 & A3). apply areas_app in A2 as (_ & _ & A4).
    apply elem_of_app in Hy as [Hy|Hy]; [left; apply A3; [done|set_solver +Hz]|right; by apply A4].
  - rewrite !length_app, length_rev. lia.
  - intros a. rewrite C3, (space_split (vmas s) l1 ys l2 st en a) by done.
    rewrite (bool_decide_ext _ (st ≤ a < en ∨ Exists (inside s a) (rev ys))); [done|].
    rewrite !Exists_exists. setoid_rewrite Hrev. done.
  - done.
  - intros u Hu. destruct (decide (e u = 0)) as [|Hne]; [by left|right]. pose proof (Hcov u Hu Hne) as Hs.
    destruct (space _ _ _) as [f|] eqn:Es; [|done]. apply space_some in Es as (w & Hw & Hr & _); [|done].
    apply Exists_exists. exists w. split; [|exact Hr]. apply Hrev. apply elem_of_app in Hw as [Hw|Hw]; [specialize (H1 w Hw); lia|].
    apply elem_of_app in Hw as [Hw|Hw]; [done|]. specialize (H2 w Hw). lia.
  - intros v Hv. rewrite C3. apply Hg. set_solver +Hv.
  - eapply dlists_dropped; [exact Hd|]. by eapply owns_head.
  - done.
Qed.

(** *** The range lies inside one area *)
Lemma space_shrink vs vs' xs v x mid a :
  areas vs xs → areas vs' xs → v ∈ xs → vs !! v = Some x → vs' !! v = Some (set_vm_range mid (vm_end x) x) →
  (∀ w, w ∈ xs → w ≠ v → vs' !! w = vs !! w) → vm_start x ≤ mid < vm_end x →
  space vs' xs a = if bool_decide (vm_start x ≤ a < mid) then None else space vs xs a.
Proof.
  intros Ha Ha' Hv Hx Hx' Hsame Hmid.
  assert (Hw : ∀ w, w ∈ xs → w ≠ v → start_of vs' w = start_of vs w ∧ end_of vs' w = end_of vs w ∧ flags_of vs' w = flags_of vs w).
  { intros w ??. unfold start_of, end_of, flags_of. by rewrite Hsame. }
  assert (Hvv : start_of vs v = vm_start x ∧ end_of vs v = vm_end x ∧ flags_of vs v = vm_flags x)
    by (unfold start_of, end_of, flags_of; by rewrite Hx).
  assert (Hvv' : start_of vs' v = mid ∧ end_of vs' v = vm_end x ∧ flags_of vs' v = vm_flags x)
    by (unfold start_of, end_of, flags_of; by rewrite Hx').
  destruct Hvv as (V1 & V2 & V3), Hvv' as (W1 & W2 & W3). case_bool_decide as Hb.
  - apply space_none; [done|]. intros w Hin Hr. destruct (decide (w = v)) as [->|Hne]; [lia|].
    destruct (Hw w Hin Hne) as (E1 & E2 & _). rewrite E1, E2 in Hr. apply Hne.
    rewrite <-(lookup_vma_hit vs a xs w Ha Hin Hr). apply lookup_vma_hit; [done|done|lia].
  - apply space_ext; [done|done|]. intros f. split; intros (w & Hin & Hr & Hf); exists w; (split; [done|]);
      (destruct (decide (w = v)) as [->|Hne]; [rewrite ?V1, ?V2, ?V3, ?W1, ?W2, ?W3 in *; split; [lia|done]|]);
      destruct (Hw w Hin Hne) as (E1 & E2 & E3); rewrite E1, E2, E3 in *; done.
Qed.

Abbreviation insert_vma_struct' := (insert_vma_struct kmalloc kfree fuel).

Lemma split_ok s F O mm m xs e v x w a st en :
  space_inv s F O mm m xs e → enough fuel (length xs) → v ∈ xs → vmas s !! v = Some x →
  vm_start x < st → st < en → en < vm_end x → st mod PGSIZE = 0 → en mod PGSIZE = 0 → USER_ACCESS st en = true →
  w ≠ 0 → w ∉ O → plive s e a ({[w]} ∪ O) →
  let nx := MkVma 0 (vm_start x) st (vm_flags x) 0 0 in
  ∃ s' F' O' m' xs' e',
    (vma_resize v en (vm_end x);; insert_vma_struct' mm w;; m ← get_mm mm;
     on_vm (unmap_range alloc_pages free_pages npage get_ref set_ref fuel (pgdir m) st en)) (created_vma s a w nx)
      = Ret ((), s') ∧
    space_inv s' F' O' mm m' xs' e' ∧ (∀ m', m' ≠ mm → mms s' !! m' = mms s !! m') ∧
    (∀ c, space (vmas s') xs' c = if bool_decide (st ≤ c < en) then None else space (vmas s) xs c) ∧
    (∀ u, e' u = if bool_decide (st ≤ u * PGSIZE < en) then 0 else e u).
Proof using All.
  intros [Hp Hg Hcov Hfam] Hen Hv Hx L1 L2 L3 A1 A2 Hua Hw0 HwO Hl nx. pose proof Hp as [Hi Hpg].
  pose proof (vi_areas _ _ _ _ _ _ _ Hi) as Ha. destruct (Hg v Hv) as [G1 G2 G3 G4 G5].
  assert (Hvx : start_of (vmas s) v = vm_start x ∧ end_of (vmas s) v = vm_end x ∧ flags_of (vmas s) v = vm_flags x)
    by (unfold start_of, end_of, flags_of; by rewrite Hx).
  destruct Hvx as (V1 & V2 & V3). rewrite V1, V2, V3 in *.
  destruct (fresh_ok kmalloc kfree (plive s e) fuel s F O mm m xs a w nx Hi HwO Hw0 Hl) as (Hi1 & _ & Hsame).
  set (s1 := created_vma s a w nx) in *.
  assert (Hwxs : w ∉ xs) by (intros ?; by apply HwO, (vi_objs _ _ _ _ _ _ _ Hi)).
  assert (Hwv : w ≠ v) by (by intros ->).
  assert (Hx1 : vmas s1 !! v = Some x) by (by rewrite Hsame).
  assert (E1 : vma_resize v en (vm_end x) s1 = Ret ((), resized v en (vm_end x) x s1)) by (apply resize_run; try done; lia).
  rewrite (bind_Ret _ _ _ _ _ E1). set (s2 := resized v en (vm_end x) x s1).
  assert (Hi2 : vm_inv (plive s e) s2 F ({[w]} ∪ O) mm m xs) by (apply inv_resize_in; try done; lia).
  pose proof (vi_areas _ _ _ _ _ _ _ Hi2) as Ha2.
  assert (Hv2 : vmas s2 !! v = Some (set_vm_range en (vm_end x) x)) by (apply lookup_insert_eq).
  assert (Hs2 : ∀ y, y ∈ xs → y ≠ v → vmas s2 !! y = vmas s !! y).
  { intros y Hy Hne. rewrite <-Hsame by done. by apply lookup_insert_ne. }
  assert (Hw2 : vmas s2 !! w = Some nx).
  { etransitivity; [apply lookup_insert_ne; done|]. apply lookup_insert_eq. }
  assert (Hrd : ready s2 F m xs w nx).
  { split; try done.
    - intros y Hy. change (vm_start nx) with (vm_start x). change (vm_end nx) with st. destruct (decide (y = v)) as [->|Hne].
      { right. unfold start_of. rewrite Hv2. simpl. lia. }
      destruct (decide (end_of (vmas s) y ≤ vm_start x)) as [?|C1];
        [left; unfold end_of; by rewrite Hs2|right; unfold start_of; rewrite Hs2 by done; fold (start_of (vmas s) y)].
      destruct (decide (st ≤ start_of (vmas s) y)) as [|C2]; [done|]. exfalso. apply Hne.
      destruct (proj2 Ha y Hy) as (_ & _ & ?). set (c := Z.max (vm_start x) (start_of (vmas s) y)).
      rewrite <-(lookup_vma_hit (vmas s) c xs y Ha Hy ltac:(lia)). apply lookup_vma_hit; [done|done|lia].
    - intros hd Ho. by apply HwO, (vi_owned _ _ _ _ _ _ _ Hi w hd).
    - change (vlinks s2) with (<[VmaLink w := junk_entry (VmaLink w)]> (vlinks s)). by rewrite lookup_insert_eq.
    - change (rbnodes s2) with (<[w := RbNode false 0 0 0]> (rbnodes s)). by rewrite lookup_insert_eq.
    - intros H0 n r Hlk. destruct (vi_objs _ _ _ _ _ _ _ Hi) as [_ O2]. destruct (O2 H0 n r Hlk). split; by intros ->. }
  destruct (inv_insert kmalloc kfree (plive s e) fuel s2 F _ mm m xs w nx Hi2 Hrd ltac:(set_solver +) Hen)
    as (s3 & F3 & O3 & m3 & xs3 & E3 & Hi3 & Hin3 & Hlen3 & Hvm3 & Hsp3 & Hpg3 & Hoth3 & HO3 & HF3 & _).
  rewrite (bind_Ret _ _ _ _ _ E3). rewrite (bind_Ret _ _ _ _ _ (get_mm_run _ _ _ (mo_mm _ _ _ _ _ (vi_ok _ _ _ _ _ _ _ Hi3)))).
  assert (Hp3 : pinv s3 F3 O3 mm m3 xs3 e).
  { apply (pinv_kept mm s2 s3); [done| |congruence]. eapply inv_live; [exact Hi3|]. exact (vi_live _ _ _ _ _ _ _ Hi3). }
  destruct (unmap_ok s3 F3 O3 mm m3 xs3 e st en Hp3 A1 A2 Hua) as (v4 & e4 & E4 & Hp4 & He4).
  rewrite (pv_pgdir _ _ _ _ _ _ _ Hp3). exists (with_svm v4 s3), F3, O3, m3, xs3, e4.
  assert (Hspace : ∀ c, space (vmas s3) xs3 c = if bool_decide (st ≤ c < en) then None else space (vmas s) xs c).
  { intros c. rewrite Hsp3. unfold set_in. simpl. rewrite (space_shrink (vmas s) _ xs v x en c) by (done || lia).
    destruct (decide (vm_start x ≤ c < st)) as [Hc|Hc].
    - rewrite bool_decide_true, bool_decide_false by lia. symmetry. apply space_some; [done|].
      exists v. rewrite V1, V2, V3. split_and!; done || lia.
    - rewrite (bool_decide_false (_ ≤ c < st)) by done.
      by rewrite (bool_decide_ext (vm_start x ≤ c < en) (st ≤ c < en)) by lia. }
  assert (He : ∀ u, e4 u = if bool_decide (st ≤ u * PGSIZE < en) then 0 else e u).
  { intros u. rewrite He4. case_bool_decide; [by rewrite decide_True|by rewrite decide_False]. }
  split_and!; [exact E4| |by apply Hoth3|done|done]. split; [done|..].
  - intros y Hy. simpl. rewrite Hvm3. apply Hin3 in Hy as [->|Hy].
    + eapply (good_part (vmas s)); [exact Hx|by apply Hg|..|by apply lookup_insert_eq]; simpl; done || lia.
    + assert (y ≠ w) by (by intros ->). destruct (decide (y = v)) as [->|Hne].
      * eapply (good_part (vmas s)); [exact Hx|by apply Hg|..|by rewrite lookup_insert_ne, Hv2 by done]; simpl; done || lia.
      * apply (good_same (vmas s)); [|by apply Hg]. rewrite lookup_insert_ne by done. by apply Hs2.
  - intros u Hu. rewrite He. simpl. rewrite Hspace. case_bool_decide; [done|]. by apply Hcov.
  - intros hd Ho. rewrite HF3, owns_insert in Ho. destruct Ho as [[-> Ho]|[_ Ho]]; [|by apply (Hfam hd)].
    apply elem_of_cons in Ho as [?|Ho]; [done|]. by apply list_elem_of_fmap in Ho as (? & ? & _).
Qed.

(** *** The range reaches over the end of an area *)
Abbreviation mm_unmap' := (mm_unmap alloc_pages free_pages npage get_ref set_ref PageSwap kmalloc kfree fuel).
Definition unmap_areas (mm st en v : Z) : M (vmms A) unit :=
  modify (upd_vlinks <[UnmapList := junk_entry UnmapList]>);;
  on_links (list_init UnmapList);;
  unmap_collect fuel fuel mm en v;;
  le ← on_links (list_next UnmapList);
  unmap_return alloc_pages free_pages npage get_ref set_ref PageSwap kmalloc kfree fuel fuel mm st en le;;
  modify (upd_vlinks (delete UnmapList)).

(** What mm_unmap does to the address space. *)
Record unmapped s s' mm xs xs' e e' (st en : Z) : Prop := {
  um_space : ∀ c, space (vmas s') xs' c = if bool_decide (st ≤ c < en) then None else space (vmas s) xs c;
  um_entries : ∀ u, e' u = if bool_decide (st ≤ u * PGSIZE < en) then 0 else e u;
  um_others : ∀ m', m' ≠ mm → mms s' !! m' = mms s !! m' }.

Lemma unmap_areas_ok s F O mm m xs e st en :
  space_inv s F O mm m xs e → enough fuel (length xs) → st < en → st mod PGSIZE = 0 → en mod PGSIZE = 0 →
  USER_ACCESS st en = true → let v := lookup_vma (vmas s) st xs in
  v ≠ 0 → start_of (vmas s) v < en → ¬ (start_of (vmas s) v < st ∧ en < end_of (vmas s) v) →
  ∃ s' F' O' m' xs' e', unmap_areas mm st en v s = Ret ((), s') ∧ space_inv s' F' O' mm m' xs' e' ∧
    unmapped s s' mm xs xs' e e' st en.
Proof using All.
  intros [Hp Hg Hcov Hfam] Hen Hlt A1 A2 Hua v Hv0 Hvs Hncut. pose proof Hp as [Hi Hpg].
  pose proof (vi_areas _ _ _ _ _ _ _ Hi) as Ha.
  destruct (split_range (vmas s) xs st en Ha Hlt Hv0 Hvs) as (l1 & ys & l2 & Exs & H1 & H2 & H3). fold v in Exs, H2.
  assert (Hua' : USERBASE ≤ st ∧ en ≤ USERTOP).
  { unfold USER_ACCESS in Hua. rewrite !andb_true_iff, !bool_decide_eq_true in Hua. lia. }
  assert (Hcut : ∀ w, w ∈ xs → start_of (vmas s) w < st → end_of (vmas s) w ≤ en).
  { intros w Hw Hws. destruct (lookup_vma_spec (vmas s) st xs Ha) as [[? _]|(_ & _ & He & Hall)]; [done|].
    fold v in He, Hall. destruct (Hall w Hw) as [?|[->|?]]; lia. }
  unfold unmap_areas. rewrite bind_modify.
  set (s1 := upd_vlinks <[UnmapList := junk_entry UnmapList]> s).
  assert (Hd1 : dlists (vlinks s1) F) by (apply dlists_fresh; [apply (mo_links _ _ _ _ _ (vi_ok _ _ _ _ _ _ _ Hi))|done]).
  destruct (list_init_dlists (vlinks s1) F UnmapList Hd1 Hfam) as (lk & E2 & Hd2 & _).
  { change (vlinks s1) with (<[UnmapList := junk_entry UnmapList]> (vlinks s)). by rewrite lookup_insert_eq. }
  rewrite (bind_Ret _ _ _ _ _ (zoom_Ret vlinks_lens _ s1 _ _ E2)).
  set (s2 := over vlinks_lens lk s1). set (F2 := <[UnmapList := []]> F) in *.
  assert (Hi2 : vm_inv (plive s e) s2 F2 O mm m xs).
  { change s2 with (over vlinks_lens lk s). apply (inv_lists _ _ F); [done|done|unfold F2; by rewrite lookup_insert_ne|].
    intros w hd Ho. unfold F2 in Ho. rewrite owns_insert in Ho. destruct Ho as [[_ Ho]|[_ Ho]];
      [set_solver +Ho|by apply (vi_owned _ _ _ _ _ _ _ Hi w hd)]. }
  assert (Hfu : (rb_fuel (length xs) ≤ fuel)%nat ∧ (length xs < fuel)%nat ∧ Z.of_nat (length xs) < 2 ^ 31).
  { destruct Hen as (? & ? & ?). pose proof (rb_fuel_mono (length xs) (S (length xs)) ltac:(lia)). split_and!; lia. }
  destruct Hfu as (Hf1 & Hf2 & Hf3). rewrite Exs in Hi2, Hf1, Hf2, Hf3.
  destruct (unmap_collect_ok (plive s e) fuel en fuel s2 F2 O mm m l1 (v :: ys) l2 [] Hi2) as (s3 & F3 & m3 & E3 & C3); try done.
  { unfold F2. by rewrite lookup_insert_eq. }
  { intros y Hy. by apply H2. }
  { rewrite !length_app in Hf2. lia. }
  rewrite bool_decide_false in E3 by done. cbn [le2vma] in E3. rewrite app_nil_r in C3.
  change (firstof _ _) with (VmaLink v) in E3. cbn [le2vma] in E3. rewrite (bind_Ret _ _ _ _ _ E3).
  assert (Hr : returning s2 (l1 ++ (v :: ys) ++ l2) e mm st en s3 (delete UnmapList F3) O m3 (l1 ++ l2) (rev (v :: ys)) e).
  { eapply (collected_returning s2 s3 F3 O mm m m3); try done.
    - rewrite <-Exs. exact Ha.
    - apply C3.
    - rewrite <-Exs. exact Hg.
    - apply Hi2.
    - intros y Hy. apply (areas_off_tree s2 F2 mm m _ y (vi_ok _ _ _ _ _ _ _ Hi2)). set_solver +Hy.
    - intros u Hu. rewrite <-Exs. apply Hcov. lia. }
  pose proof (mo_links _ _ _ _ _ (vi_ok _ _ _ _ _ _ _ (cl_inv _ _ _ _ _ _ _ _ _ _ C3))) as Hd3.
  rewrite (bind_Ret _ _ _ _ _ (on_links_read _ s3 _ (list_next_head _ _ _ _ Hd3 (cl_list _ _ _ _ _ _ _ _ _ _ C3)))).
  rewrite <-Exs in Hr.
  destruct (unmap_return_ok s2 xs e mm st en Ha Hg A1 A2 Hua Hcut Hen fuel s3 (delete UnmapList F3) O m3 (l1 ++ l2)
    (rev (v :: ys)) e Hr) as (s4 & F4 & O4 & m4 & xs4 & e4 & E4 & R4).
  { rewrite length_rev. rewrite !length_app in Hf2. simpl in *. lia. }
  rewrite (bind_Ret _ _ _ _ _ E4). destruct R4 as [[R1 Rp] _ _ _ _ _ _ R8 R9 R10 R12 R13 R11].
  assert (Hspace : ∀ c, space (vmas s4) xs4 c = if bool_decide (st ≤ c < en) then None else space (vmas s) xs c).
  { intros c. rewrite R8. rewrite (bool_decide_ext (_ ∨ _) (st ≤ c < en)); [done|]. rewrite Exists_nil. tauto. }
  assert (He : ∀ u, e4 u = if bool_decide (st ≤ u * PGSIZE < en) then 0 else e u).
  { intros u. case_bool_decide as Hu; [|by apply R9]. destruct (R10 u Hu) as [?|Hx]; [done|]. by apply Exists_nil in Hx. }
  set (s5 := upd_vlinks (delete UnmapList) s4). exists s5, F4, O4, m4, xs4, e4.
  split_and!; [done| |by split]. split.
  - split; [|done]. change s5 with (over vlinks_lens (delete UnmapList (vlinks s4)) s4). apply (inv_lists _ _ F4); try done.
    + apply dlists_delete; [|done]. exact (mo_links _ _ _ _ _ (vi_ok _ _ _ _ _ _ _ R1)).
    + exact (vi_owned _ _ _ _ _ _ _ R1).
  - exact R12.
  - intros u Hu. rewrite He. change (vmas s5) with (vmas s4). rewrite Hspace. case_bool_decide; [done|]. by apply Hcov.
  - exact R13.
Qed.

Lemma ROUNDDOWN_aligned a : ROUNDDOWN a PGSIZE mod PGSIZE = 0.
Proof. unfold ROUNDDOWN, PGSIZE. cbv zeta. set (b := u32 a). unfold u32. Z.div_mod_to_equations. lia. Qed.
Lemma ROUNDUP_aligned a : ROUNDUP a PGSIZE mod PGSIZE = 0.
Proof. apply ROUNDDOWN_aligned. Qed.

Lemma inv_cached s F O mm m xs e addr :
  space_inv s F O mm m xs e → enough fuel (length xs) → let v := lookup_vma (vmas s) addr xs in
  find_vma fuel mm addr s = Ret (v, cached mm v m s) ∧ space_inv (cached mm v m s) F O mm (cached_mm v m) xs e.
Proof using All.
  intros [Hp Hg Hcov Hfam] Hen v. pose proof Hp as [Hi Hpg].
  destruct (inv_find kmalloc kfree (plive s e) fuel s F O mm m xs addr Hi Hen) as [E Hi1]. split; [exact E|].
  fold v in Hi1. pose proof (cached_vmas mm v m s) as Hv. split; try done.
  - apply (pinv_kept mm s); [apply others_cached|done|]. by rewrite cached_pgdir.
  - intros w Hw. apply (good_same (vmas s)); [by rewrite Hv|by apply Hg].
  - by rewrite Hv.
Qed.

(** Nothing to unmap. *)
Lemma unmap_nothing s F O mm m xs e st en :
  space_inv s F O mm m xs e → USER_ACCESS st en = true → fits (vmas s) xs st en → unmapped s s mm xs xs e e st en.
Proof using All.
  intros [Hp Hg Hcov Hfam] Hua Hf. pose proof (vi_areas _ _ _ _ _ _ _ (pv_inv _ _ _ _ _ _ _ Hp)) as Ha.
  unfold USER_ACCESS in Hua. rewrite !andb_true_iff, !bool_decide_eq_true in Hua.
  assert (Hn : ∀ c, st ≤ c < en → space (vmas s) xs c = None).
  { intros c Hc. apply space_none; [done|]. intros v Hv. destruct (Hf v Hv); lia. }
  split; [..|done].
  - intros c. case_bool_decide as Hc; [by apply Hn|done].
  - intros u. case_bool_decide as Hu; [|done]. destruct (decide (e u = 0)) as [|Hne]; [done|].
    destruct (Hcov u); [lia|done|by apply Hn].
Qed.

Lemma mm_unmap_ok s F O mm m xs e addr len :
  space_inv s F O mm m xs e → enough fuel (length xs) →
  let st := ROUNDDOWN addr PGSIZE in let en := ROUNDUP (u32 (addr + len)) PGSIZE in
  ∃ r s' F' O' m' xs' e', mm_unmap' mm addr len s = Ret (r, s') ∧ space_inv s' F' O' mm m' xs' e' ∧
    ((r = - E_INVAL ∧ USER_ACCESS st en = false ∧ s' = s ∧ xs' = xs ∧ e' = e) ∨
     (r = - E_NO_MEM ∧ USER_ACCESS st en = true ∧ vmas s' = vmas s ∧ xs' = xs ∧ e' = e ∧
      (∃ v, v ∈ xs ∧ start_of (vmas s) v < st ∧ en < end_of (vmas s) v)) ∨
     (r = 0 ∧ USER_ACCESS st en = true ∧ unmapped s s' mm xs xs' e e' st en)).
Proof using All.
  intros Hs Hen st en. unfold mm_unmap. fold st en. destruct (USER_ACCESS st en) eqn:Hua; simpl.
  2: { exists (- E_INVAL), s, F, O, m, xs, e. split_and!; [done|done|by left]. }
  pose proof (ROUNDDOWN_aligned addr : st mod PGSIZE = 0) as A1.
  pose proof (ROUNDUP_aligned (u32 (addr + len)) : en mod PGSIZE = 0) as A2.
  assert (Hlt : st < en) by (unfold USER_ACCESS in Hua; rewrite !andb_true_iff, !bool_decide_eq_true in Hua; lia).
  pose proof (sv_inv _ _ _ _ _ _ _ Hs) as [Hi0 _]. rewrite bind_assert by (apply bool_decide_eq_true, Hi0).
  destruct (inv_cached s F O mm m xs e st Hs Hen) as [E Hs1]. rewrite (bind_Ret _ _ _ _ _ E). clear E.
  pose proof (vi_areas _ _ _ _ _ _ _ Hi0) as Ha.
  pose proof (lookup_vma_spec (vmas s) st xs Ha) as Hspec. cbv zeta in Hspec.
  set (v := lookup_vma (vmas s) st xs) in *. set (s1 := cached mm v m s) in *.
  assert (Hv1 : vmas s1 = vmas s) by apply cached_vmas.
  assert (Hoth : ∀ m', m' ≠ mm → mms s1 !! m' = mms s !! m') by apply (others_cached mm v m s).
  assert (Hback : ∀ s' xs' e', unmapped s1 s' mm xs xs' e e' st en → unmapped s s' mm xs xs' e e' st en).
  { intros s' xs' e' [U1 U2 U3]. split; [by rewrite <-Hv1|done|]. intros m' Hm'. by rewrite U3, Hoth. }
  assert (Hnone : fits (vmas s) xs st en → ∃ r s' F' O' m' xs' e', (mret 0 : M (vmms A) Z) s1 = Ret (r, s') ∧
    space_inv s' F' O' mm m' xs' e' ∧ r = 0 ∧ unmapped s s' mm xs xs' e e' st en).
  { intros Hf. exists 0, s1, F, O, (cached_mm v m), xs, e. split_and!; try done. apply Hback.
    eapply unmap_nothing; [exact Hs1|done|]. by rewrite Hv1. }
  destruct (decide (v = 0)) as [H0|H0].
  { rewrite bool_decide_true by done. destruct Hnone as (r & s' & F' & O' & m' & xs' & e' & E & Hs' & Hr & Hu).
    - apply find_fits; [done|done|by left].
    - exists r, s', F', O', m', xs', e'. split_and!; [done|done|tauto]. }
  rewrite (bool_decide_false (v = 0)) by done. destruct Hspec as [[? _]|(Hin & _ & Hend & _)]; [done|].
  destruct (proj2 Ha v Hin) as (_ & [x Hx] & _). assert (Hx1 : vmas s1 !! v = Some x) by (by rewrite Hv1).
  rewrite (bind_Ret _ _ _ _ _ (get_vma_run _ _ _ Hx1)).
  assert (Hvx : start_of (vmas s) v = vm_start x ∧ end_of (vmas s) v = vm_end x) by (unfold start_of, end_of; by rewrite Hx).
  destruct Hvx as [V1 V2].
  destruct (decide (en ≤ vm_start x)) as [Hc|Hc].
  { rewrite bool_decide_true by done. destruct Hnone as (r & s' & F' & O' & m' & xs' & e' & E & Hs' & Hr & Hu).
    - apply find_fits; [done|done|]. fold v. rewrite V1. by right.
    - exists r, s', F', O', m', xs', e'. split_and!; [done|done|tauto]. }
  rewrite (bool_decide_false (en ≤ _)) by done. destruct (decide (vm_start x < st ∧ en < vm_end x)) as [[Hc1 Hc2]|Hc12].
  - rewrite !bool_decide_true by done. simpl.
    destruct (vma_create_ok kmalloc kfree (plive s1 e) fuel s1 F O mm (cached_mm v m) xs (vm_start x) st (vm_flags x))
      as (w & a & Hl & HwO & E); [apply Hs1|]. rewrite (bind_Ret _ _ _ _ _ E). clear E.
    destruct (decide (w = 0)) as [Hw|Hw].
    + rewrite !(bool_decide_true (w = 0)) in * by done.
      exists (- E_NO_MEM), (with_al a s1), F, O, (cached_mm v m), xs, e. split_and!; [done| |].
      * destruct Hs1 as [[P1 P2] P3 P4 P5]. split; try done. split; [|done]. eapply inv_with_al; [|exact Hl].
        eapply inv_live; [exact P1|]. exact (vi_live _ _ _ _ _ _ _ P1).
      * right; left. split_and!; try done. exists v. rewrite V1, V2. done.
    + rewrite !(bool_decide_false (w = 0)) in * by done.
      destruct (split_ok s1 F O mm (cached_mm v m) xs e v x w a st en) as (s' & F' & O' & m' & xs' & e' & E & Hs' & Ho' & Hsp & He);
        try done; [by apply HwO|].
      exists 0, s', F', O', m', xs', e'. split_and!; [|done|right; right; split_and!; [done|done|by apply Hback]].
      mfollow E.
      mfollow E.
      mfollow E.
      by rewrite (bind_Ret _ _ _ _ _ E).
  - assert (Hb : bool_decide (vm_start x < st) && bool_decide (en < vm_end x) = false).
    { apply not_true_iff_false. rewrite andb_true_iff, !bool_decide_eq_true. done. }
    rewrite Hb. destruct (unmap_areas_ok s1 F O mm (cached_mm v m) xs e st en) as (s' & F' & O' & m' & xs' & e' & E & Hs' & Hu);
      try done; rewrite ?Hv1; fold v; rewrite ?V1, ?V2; try done; [lia|].
    exists 0, s', F', O', m', xs', e'. split_and!; [|done|right; right; split_and!; [done|done|by apply Hback]].
    rewrite Hv1 in E. fold v in E. unfold unmap_areas in E.
    mfollow E.
    mfollow E.
    mfollow E.
    mfollow E.
    mfollow E.
    by rewrite (bind_Ret _ _ _ _ _ E).
Qed.

End Unmap.
