(* ===== verification/VmmPages.v ===== *)
(** * kern/mm/vmm.c: mm_unmap over the x86 page tables

    The interface of [VmmUnmap] implemented by the page tables of [Pmm], for any
    memory that has an object allocator beside a page allocator with reference
    counts. *)
From stdpp Require Import base gmap list fin_maps sorting.
From Stdlib Require Import ZArith Lia.
From S2P Require Import Prelude DList Bits Printfmt Mmu RbTree RbProps Buddy BuddySpec Alloc ProcThms PmmRefs PmmFresh Pmm PmmInv PmmProps PmmThms PmmFault.
From S2P Require Import Shmem Vmm VmmInv VmmProps VmmThms VmmUnmap.

(** ** The page tables *)
Section Tables.
Context {A : Type} (kmalloc : Z → M A Z) (kfree : Z → M A unit).
Context (alloc_pages : Z → M A (option Z)) (free_pages : Z → Z → M A unit) (np : Z).
Context (get_ref : Z → M A Z) (set_ref : Z → Z → M A unit).
Context (mem : A → gset Z → list (Z * Z) → Prop) (refof : A → Z → Z).
Context `{HK : !KernelRefs kmalloc kfree alloc_pages free_pages get_ref set_ref np mem refof}.
Context (fuel : nat) (d : Z) (ext : Z → Z) (R0 : list (Z * Z)).

(** The entries of the page tables at directory [d]; [ext] are the references
    to its data pages held elsewhere, [R0] the pages of others. *)
Definition tables (v : vmem A) (O : gset Z) (e : Z → Z) : Prop :=
  ∃ T D, vm_ok np (λ a R, mem a O R) refof v d T D ext R0 ∧ (∀ u, e u = tentry (words v) T u) ∧ ext_in ext D.

(** The tables do not depend on the objects. *)
Lemma tables_objects v a O O' T D :
  vm_ok np (λ a R, mem a O R) refof v d T D ext R0 → mem a O' (singles (d :: frames T ++ D) ++ R0) →
  (∀ q, q ∈ D → refof a q = refof (palloc v) q) →
  vm_ok np (λ a R, mem a O' R) refof (over palloc_lens a v) d T D ext R0.
Proof. intros [V1 V2 V3 V4 V5 V6] Hm Hr. split; try done. intros p Hp. simpl. rewrite Hr by done. by apply V4. Qed.

Lemma data_in_hand T D p : p ∈ D → p ∈ hand_pages (singles (d :: frames T ++ D) ++ R0).
Proof. intros Hp. rewrite hand_singles. set_solver +Hp. Qed.

#[export] Instance page_tables :
  np ≤ KMEMSIZE / PGSIZE → (Z.to_nat (USERTOP / PGSIZE) ≤ fuel)%nat →
  PageTables alloc_pages free_pages np get_ref set_ref kmalloc kfree fuel tables (kva_of d 0).
Proof using HK.
  intros Hnp Hf. split.
  - intros v e. split.
    + intros a O n (T & D & Hv & He & Hx) Hn. pose proof (vo_held _ _ _ _ _ _ _ _ _ Hv) as Hm. simpl in Hm.
      destruct (kr_kmalloc a O _ n Hm Hn) as (p & a' & E & Hp & Hr). exists p, a'. split; [done|].
      assert (Hr' : ∀ q, q ∈ D → refof a' q = refof a q) by (intros q Hq; apply Hr; by apply data_in_hand).
      destruct Hp as [[-> Hp]|(Hp0 & HpO & Hp)]; [left|right]; split_and!; try done;
        exists T, D; (split; [by apply (tables_objects _ _ _ _ _ _ Hv)|by split]).
    + intros a O p (T & D & Hv & He & Hx) HpO. pose proof (vo_held _ _ _ _ _ _ _ _ _ Hv) as Hm. simpl in Hm.
      destruct (kr_kfree a O _ p Hm HpO) as (a' & E & Hp & Hr). exists a'. split; [done|].
      exists T, D. split; [|by split]. apply (tables_objects _ _ _ _ _ _ Hv); [done|]. intros q Hq. apply Hr. by apply data_in_hand.
  - intros v O e a b (T & D & Hv & He & Hx) Hua. pose proof Hua as Hr.
    unfold USER_ACCESS in Hr. rewrite !andb_true_iff, !bool_decide_eq_true in Hr.
    assert (Hfu : (Z.to_nat (b - a) ≤ fuel)%nat).
    { etransitivity; [|exact Hf]. change (USERTOP / PGSIZE) with 0xB0000. unfold USERBASE, USERTOP, PGSIZE in Hr. lia. }
    destruct (unmap_loop_ok alloc_pages free_pages np get_ref set_ref (λ a R, mem a O R) refof Hnp fuel v d T D ext R0 a b Hv)
      as (v' & D' & E & Hv' & Hk & _ & He'); [unfold USERBASE, USERTOP, PGSIZE, UPN, UPDE in *; lia..|done|].
    exists v', (tentry (words v') T). split_and!.
    + unfold unmap_range. rewrite !Z.mod_mul by done. rewrite Hua. exact E.
    + exists T, D'. split_and!; [done..|]. by eapply ext_kept; [apply (vo_ext _ _ _ _ _ _ _ _ _ Hv)|..].
    + intros u. rewrite He', He. done.
Qed.
End Tables.

(** ** mm_unmap *)
Section Thms.
Context {A : Type} (kmalloc : Z → M A Z) (kfree : Z → M A unit).
Context (alloc_pages : Z → M A (option Z)) (free_pages : Z → Z → M A unit) (np : Z).
Context (get_ref : Z → M A Z) (set_ref : Z → Z → M A unit) (PageSwap : Z → M A bool).
Context (mem : A → gset Z → list (Z * Z) → Prop) (refof : A → Z → Z).
Implicit Types (s : vmms A) (F : gmap vlink (list vlink)).

(** C9. mm_unmap on an address space of private areas: it refuses a range
    outside the user addresses with -E_INVAL and no effect; it fails with
    -E_NO_MEM only when an area reaches over both ends of the range, and then
    no area and no mapping changes; otherwise it ends with exactly the range
    removed, from the areas (cut, split or destroyed) and from the page tables,
    whatever list or tree the areas are found by.  The invariant of the areas,
    the page tables, the reference counts and the allocator is kept, and so are
    the other descriptors. *)
Theorem mm_unmap_correct `{!KernelRefs kmalloc kfree alloc_pages free_pages get_ref set_ref np mem refof}
    fuel d ext R0 s F O mm m xs e addr len :
  np ≤ KMEMSIZE / PGSIZE → (Z.to_nat (USERTOP / PGSIZE) ≤ fuel)%nat → enough fuel (length xs) →
  let inv := space_inv (pt := tables np mem refof d ext R0) (pgd := kva_of d 0) in
  let unmap := mm_unmap alloc_pages free_pages np get_ref set_ref PageSwap kmalloc kfree fuel in
  let st := ROUNDDOWN addr PGSIZE in let en := ROUNDUP (u32 (addr + len)) PGSIZE in
  inv s F O mm m xs e →
  ∃ r s' F' O' m' xs' e', unmap mm addr len s = Ret (r, s') ∧ inv s' F' O' mm m' xs' e' ∧
    ((r = - E_INVAL ∧ USER_ACCESS st en = false ∧ s' = s ∧ xs' = xs ∧ e' = e) ∨
     (r = - E_NO_MEM ∧ USER_ACCESS st en = true ∧ vmas s' = vmas s ∧ xs' = xs ∧ e' = e ∧
      (∃ v, v ∈ xs ∧ start_of (vmas s) v < st ∧ en < end_of (vmas s) v)) ∨
     (r = 0 ∧ USER_ACCESS st en = true ∧
      (∀ a, space (vmas s') xs' a = if bool_decide (st ≤ a < en) then None else space (vmas s) xs a) ∧
      (∀ u, e' u = if bool_decide (st ≤ u * PGSIZE < en) then 0 else e u) ∧
      (∀ m', m' ≠ mm → mms s' !! m' = mms s !! m'))).
Proof.
  intros Hnp Hf Hen inv unmap st en Hi.
  pose proof (page_tables kmalloc kfree alloc_pages free_pages np get_ref set_ref mem refof fuel d ext R0 Hnp Hf) as HP.
  destruct (mm_unmap_ok (PageSwap := PageSwap) s F O mm m xs e addr len Hi Hen)
    as (r & s' & F' & O' & m' & xs' & e' & E & Hi' & [?|[?|(Hr & Hua & [U1 U2 U3])]]);
    exists r, s', F', O', m', xs', e'; split_and!; tauto.
Qed.
End Thms.

(** ** An address space with a mapped page *)
Definition ex_get_ref (p : Z) : M machine Z := zoom snd_lens (buddy_get_ref p).
Definition ex_set_ref (p v : Z) : M machine unit := zoom snd_lens (buddy_set_ref p v).
Definition ex_refof (s : machine) (p : Z) : Z := page_refof s.2 p.
Definition ex_fresh (s : machine) (O : gset Z) (R : list (Z * Z)) : Prop := bump_live s.1 O ∧ buddy_fresh 70 s.2 R.
#[global] Instance ex_kernel_refs :
  KernelRefs ex_kmalloc ex_kfree ex_alloc_pages ex_free_pages ex_get_ref ex_set_ref 70 ex_fresh ex_refof.
Proof.
  pose proof (buddy_fresh_allocator 70) as HR. pose proof (ra_pages (RefAllocator := HR)) as HP. split.
  - intros O. split.
    + apply (ka_pages (KernelAlloc := pair_kernel_alloc)).
    + intros a R R' [H1 H2] Hp. split; [done|]. by eapply (ra_perm (RefAllocator := HR)).
    + intros a R p [H1 H2] Hp. unfold ex_get_ref.
      rewrite (zoom_Ret snd_lens _ a _ _ (ra_get (RefAllocator := HR) _ _ _ H2 Hp)). by destruct a.
    + intros a R p v [H1 H2] Hp. destruct (ra_set (RefAllocator := HR) _ _ _ v H2 Hp) as (a' & E & Hh & Hr).
      eexists. split_and!; [by apply (zoom_Ret snd_lens)|done|apply Hr|apply Hr].
    + intros a R n r a' [H1 H2] Hn E. unfold ex_alloc_pages, zoom in E. simpl in E.
      destruct (buddy_alloc_pages n a.2) as [[r1 a1]| | |] eqn:E1; simplify_eq.
      by apply (ra_alloc (RefAllocator := HR) _ _ _ _ _ H2 Hn E1).
    + intros a R i n a' [H1 H2] E. unfold ex_free_pages, zoom in E. simpl in E.
      destruct (buddy_free_pages i n a.2) as [[r1 a1]| | |] eqn:E1; simplify_eq.
      by apply (ra_free (RefAllocator := HR) _ _ _ _ _ H2 E1).
  - intros a O R n [H1 H2] Hn. destruct (oa_kmalloc a.1 O n H1 Hn) as (p & a' & E & Hp).
    eexists p, _. split_and!; [by apply (zoom_Ret fst_lens)| |done].
    destruct Hp as [[? ?]|(? & ? & ?)]; [by left|by right].
  - intros a O R p [H1 H2] Hp. destruct (oa_kfree a.1 O p H1 Hp) as (a' & E & Hl).
    eexists. split_and!; [by apply (zoom_Ret fst_lens)|done|done].
Qed.

Lemma ex_two_fresh : buddy_fresh 70 ex_two [(67, 1); (66, 1)].
Proof.
  destruct ex_two_held as [Hn [L H]]. split; [done|]. exists L. split; [done|]. intros q _.
  assert (Hz : forallb (λ '(_, pg), Z.eqb (ref pg) 0) (map_to_list (pages ex_two)) = true) by (vm_compute; reflexivity).
  rewrite forallb_forall in Hz. unfold page_refof. destruct (pages ex_two !! q) as [pg|] eqn:Hq; [|done].
  apply elem_of_map_to_list, list_elem_of_In, Hz in Hq. lia.
Qed.
Definition ex_vm2 : vmem machine := MkVmem machine ∅ (66 * PGSIZE) ∅ (1, ex_two).
Abbreviation ex_tables := (tables 70 ex_fresh ex_refof 66 (λ _, 0) []).
Abbreviation ex_fuel := (Z.to_nat (USERTOP / PGSIZE)).
(** Page 67 at 0x800000, read-only. *)
Definition ex_insert2 : outcome (Z * vmem machine) :=
  page_insert ex_alloc_pages ex_free_pages 70 ex_get_ref ex_set_ref (kva_of 66 0) 67 0x800000 4 ex_vm2.
Definition ex_vm3 : vmem machine := match ex_insert2 with Ret (_, v) => v | _ => ex_vm2 end.
Lemma ex_vm3_mapped : ∃ e, ex_tables ex_vm3 ∅ e ∧ ∀ u, e u = if decide (u = 0x800) then 67 * PGSIZE + 5 else 0.
Proof.
  assert (Hok : vm_ok 70 (λ a R, ex_fresh a ∅ R) ex_refof ex_vm2 66 ∅ [67] (λ _, 0) []).
  { apply vm_ok_empty; [|lia| |lia].
    - split; [split; [done|by intros p Hp%elem_of_empty]|].
      eapply (ra_perm (RefAllocator := buddy_fresh_allocator 70)); [apply ex_two_fresh|]. apply perm_swap.
    - intros p ->%list_elem_of_singleton. vm_compute. reflexivity. }
  destruct (page_insert_ok ex_alloc_pages ex_free_pages 70 ex_get_ref ex_set_ref (λ a R, ex_fresh a ∅ R) ex_refof ex_np
    ex_vm2 66 ∅ [67] (λ _, 0) [] 0x800000 67 4 Hok) as [(s' & E & _)|(T' & s' & E & Hv & He & _)];
    [unfold KERNBASE; lia|by left|unfold PGSIZE; lia|lia|..].
  - exfalso. apply ret_val_Ret in E. assert (Hval : ret_val ex_insert2 = Some 0) by (vm_compute; reflexivity).
    unfold ex_insert2 in Hval. rewrite Hval in E. discriminate E.
  - assert (Es : ex_vm3 = s') by (unfold ex_vm3, ex_insert2; rewrite E; reflexivity).
    rewrite Es. exists (tentry (words s') T'). split; [eexists T', _; split; [exact Hv|split; [by intros u|intros q Hq; destruct (Hq eq_refl)]]|].
    intros u. rewrite He. change (PPN 0x800000) with 0x800.
    destruct (decide (u = 0x800)); [reflexivity|]. unfold tentry. by rewrite lookup_empty.
Qed.

#[local] Opaque ex_vm3.
Definition ex_vmm3 : vmms machine := MkVmms machine ∅ ∅ ∅ ∅ ∅ (MkShms machine ∅ ∅ ∅ ex_vm3).
Abbreviation ex_space := (space_inv (pt := ex_tables) (pgd := kva_of 66 0)).

Definition with_pgdir (p : Z) (m : mm_struct) : mm_struct := MkMm (mmap_tree m) (mmap_cache m) p (map_count m).
Lemma inv_pgdir {A} (live : A → gset Z → Prop) s F O mm m xs p :
  vm_inv live s F O mm m xs → vm_inv live (upd_mms <[mm := with_pgdir p m]> s) F O mm (with_pgdir p m) xs.
Proof.
  intros [[M1 M2 M3 M4 M5 M6 M7 M8 M9] [O1 O2] H3 H4]. split; [split|by split|done|done]; try done.
  simpl. by rewrite lookup_insert_eq.
Qed.

(** An area that is alone. *)
Lemma single_area vs w st en f :
  areas vs [w] → st < en → (∀ a, space vs [w] a = if bool_decide (st ≤ a < en) then Some f else None) →
  start_of vs w = st ∧ end_of vs w = en ∧ flags_of vs w = f.
Proof.
  intros Ha Hlt Hsp. destruct (proj2 Ha w ltac:(by left)) as (_ & _ & Hw).
  assert (Hin : ∀ a, st ≤ a < en → start_of vs w ≤ a < end_of vs w ∧ flags_of vs w = f).
  { intros a Hr. pose proof (Hsp a) as Hs. rewrite (bool_decide_true _ Hr) in Hs.
    by apply space_some in Hs as (w' & ->%list_elem_of_singleton & ?); [|done]. }
  assert (Hout : ∀ a, start_of vs w ≤ a < end_of vs w → st ≤ a < en).
  { intros a Hr. pose proof (Hsp a) as Hs. case_bool_decide; [done|].
    apply (space_none _ _ _ Ha) with (v := w) in Hs; [done|by left]. }
  destruct (Hin st) as [??], (Hin (en - 1)) as [??], (Hout (start_of vs w)), (Hout (end_of vs w - 1)); lia || split_and!; done || lia.
Qed.

Definition ex_links {B} (r : outcome (B * vmms machine)) : option (list_entry vlink) :=
  match r with Ret (_, s) => vlinks s !! UnmapList | _ => None end.

(** One area from 0x700000 to 0x900000 with one page of it mapped. *)
Lemma ex_space_full : ∃ s F O m xs e, ex_space s F O 1 m xs e ∧ length xs = 1%nat ∧
  (∀ a, space (vmas s) xs a = if bool_decide (0x700000 ≤ a < 0x900000) then Some 3 else None) ∧
  (∀ u, e u = if decide (u = 0x800) then 67 * PGSIZE + 5 else 0) ∧ words (svm (sh s)) = words ex_vm3.
Proof.
  destruct ex_vm3_mapped as (e & Ht & He).
  pose proof (page_tables ex_kmalloc ex_kfree ex_alloc_pages ex_free_pages 70 ex_get_ref ex_set_ref ex_fresh ex_refof
    ex_fuel 66 (λ _, 0) [] ex_np (le_n _)) as HP.
  set (live := λ (a : machine) O, ex_tables (over palloc_lens a ex_vm3) O e).
  assert (HO : ObjectAllocator ex_kmalloc ex_kfree live) by apply (pg_objects (PageTables := HP) ex_vm3 e).
  assert (Hl : live (al ex_vmm3) ∅).
  { unfold live, al. change (palloc (svm (sh ex_vmm3))) with (palloc ex_vm3). clear -Ht. by destruct ex_vm3. }
  assert (Hnone : ∀ x hd, ¬ owns (∅ : gmap vlink (list vlink)) x hd) by (intros x hd (l & Hl' & _); by rewrite lookup_empty in Hl').
  destruct (mm_create_ok ex_kmalloc ex_kfree live 100 ex_vmm3 ∅ ∅) as (mm & s & E & Hvm & Hsh & Hres);
    [apply dlists_empty|exact Hl|by intros w hd ?%Hnone|by intros w hd ?%Hnone|].
  assert (Hmm : ret_val (mm_create ex_kmalloc ex_vmm3) = Some 1) by (vm_compute; reflexivity).
  rewrite E in Hmm. injection Hmm as ->. destruct Hres as [[? _]|[_ Hi]]; [done|].
  destruct (mm_map_ok ex_kmalloc ex_kfree live 100 s _ _ 1 _ [] 0x700000 0x200000 3 Hi (ex_enough 0 ltac:(lia)))
    as (r & v & s' & F' & O' & m' & xs' & E' & Hi' & _ & [_ Hsh'] & Hcase).
  change (ROUNDDOWN 0x700000 PGSIZE) with 0x700000 in Hcase.
  change (ROUNDUP (u32 (0x700000 + 0x200000)) PGSIZE) with 0x900000 in Hcase.
  assert (Hr : r = 0).
  { assert (Hval : ret_val ((mm ← mm_create ex_kmalloc; mm_map ex_kmalloc ex_kfree 100 mm 0x700000 0x200000 3) ex_vmm3)
      = Some (0, 2)) by (vm_compute; reflexivity).
    rewrite (bind_Ret _ _ _ _ _ E), E' in Hval. by injection Hval. }
  assert (Hlist : vlinks s' !! UnmapList = None).
  { assert (Hval : ex_links ((mm ← mm_create ex_kmalloc; mm_map ex_kmalloc ex_kfree 100 mm 0x700000 0x200000 3) ex_vmm3)
      = None) by (vm_compute; reflexivity).
    rewrite (bind_Ret _ _ _ _ _ E), E' in Hval. exact Hval. }
  subst r. destruct Hcase as [(? & _)|[(? & _)|(_ & _ & _ & Hin & Hlen & Hsp)]]; [done|done|].
  destruct xs' as [|w [|]]; [done| |done].
  assert (Hsp' : ∀ a, space (vmas s') [w] a = if bool_decide (0x700000 ≤ a < 0x900000) then Some 3 else None) by exact Hsp.
  destruct (single_area (vmas s') w 0x700000 0x900000 3 (vi_areas _ _ _ _ _ _ _ Hi') ltac:(lia) Hsp') as (W1 & W2 & W3).
  set (m2 := with_pgdir (kva_of 66 0) m'). set (s2 := upd_mms <[1 := m2]> s').
  exists s2, F', O', m2, [w], e. split_and!; [|done|exact Hsp'|exact He|].
  2: { change (sh s2) with (sh s'). rewrite Hsh'. change (words (svm (sh s)) = words ex_vm3). by rewrite Hsh. }
  split.
  - split; [|done]. eapply inv_live; [apply inv_pgdir; exact Hi'|]. pose proof (vi_live _ _ _ _ _ _ _ Hi') as Hl'.
    unfold plive, live, al in *. change (sh s2) with (sh s'). rewrite Hsh' in *. simpl in *. rewrite Hsh in *. exact Hl'.
  - intros w' ->%list_elem_of_singleton. split; simpl; rewrite ?W1, ?W2, ?W3; done.
  - intros u Hu Hne. rewrite He in Hne. destruct (decide (u = 0x800)) as [->|]; [|by destruct Hne]. change (vmas s2) with (vmas s'). rewrite Hsp'. discriminate.
  - intros hd Ho. pose proof (mo_links _ _ _ _ _ (vi_ok _ _ _ _ _ _ _ Hi')) as Hd. apply (dlists_alloc _ _ _ _ Hd) in Ho.
    rewrite Hlist in Ho. by destruct Ho.
Qed.

Lemma ex_space_area : ∃ s F O m xs e, ex_space s F O 1 m xs e ∧ length xs = 1%nat ∧ e 0x800 = 67 * PGSIZE + 5 ∧
  ∀ a, space (vmas s) xs a = if bool_decide (0x700000 ≤ a < 0x900000) then Some 3 else None.
Proof.
  destruct ex_space_full as (s & F & O & m & xs & e & H1 & H2 & H3 & H4 & _). exists s, F, O, m, xs, e. split_and!; [done|done|by rewrite H4|done].
Qed.

Lemma ex_fuel_enough : enough ex_fuel 1.
Proof.
  unfold enough. change (rb_fuel 2) with 3%nat. change (USERTOP / PGSIZE) with 0xB0000. split_and!; lia.
Qed.

Lemma mm_unmap_correct_witness : ∃ (s : vmms machine) (xs : list Z) s' F' O' m' xs' e', length xs = 1%nat ∧
  mm_unmap ex_alloc_pages ex_free_pages 70 ex_get_ref ex_set_ref (λ _, mret false) ex_kmalloc ex_kfree ex_fuel
    1 0x7ff123 0x200000 s = Ret (0, s') ∧ ex_space s' F' O' 1 m' xs' e' ∧ e' 0x800 = 0 ∧
  ∀ a, space (vmas s') xs' a = if bool_decide (0x700000 ≤ a < 0x7ff000) then Some 3 else None.
Proof.
  destruct ex_space_area as (s & F & O & m & xs & e & Hi & Hlen & He & Hsp).
  destruct (mm_unmap_correct ex_kmalloc ex_kfree ex_alloc_pages ex_free_pages 70 ex_get_ref ex_set_ref (λ _, mret false) ex_fresh
    ex_refof ex_fuel 66 (λ _, 0) [] s F O 1 m xs e 0x7ff123 0x200000 ex_np (le_n _)) as (r & s' & F' & O' & m' & xs' & e' & E & Hi' & Hcase).
  - rewrite Hlen. exact ex_fuel_enough.
  - exact Hi.
  - change (ROUNDDOWN 0x7ff123 PGSIZE) with 0x7ff000 in Hcase.
    change (ROUNDUP (u32 (0x7ff123 + 0x200000)) PGSIZE) with 0xa00000 in Hcase.
    destruct Hcase as [(_ & Hua & _)|[(_ & _ & _ & _ & _ & v & Hv & Hv1 & Hv2)|(-> & _ & Hs & He' & _)]].
    + discriminate Hua.
    + exfalso. pose proof (vi_areas _ _ _ _ _ _ _ (pv_inv _ _ _ _ _ _ _ (sv_inv _ _ _ _ _ _ _ Hi))) as Ha.
      pose proof (Hsp 0xa00000) as Hn. rewrite bool_decide_false in Hn by lia.
      apply (space_none _ _ _ Ha) with (v := v) in Hn; [apply Hn; lia|exact Hv].
    + exists s, xs, s', F', O', m', xs', e'. split; [exact Hlen|]. split; [exact E|]. split; [exact Hi'|]. split.
      * rewrite He'. reflexivity.
      * intros a. rewrite Hs, Hsp. repeat case_bool_decide; reflexivity || lia.
Defined.
