(* ===== verification/VmmFault.v ===== *)
(** * kern/mm/vmm.c: the page fault handler on private areas *)
From stdpp Require Import base gmap list fin_maps sorting.
From Stdlib Require Import ZArith Lia.
From S2P Require Import Prelude DList Bits Printfmt Mmu RbTree RbProps Buddy BuddySpec Alloc ProcThms PmmRefs PmmFresh Pmm PmmInv PmmProps PmmThms PmmFault.
From S2P Require Import Shmem Vmm VmmInv VmmProps VmmThms VmmUnmap VmmPages.

Lemma word_copy n dst src w i : src + Z.of_nat n ≤ dst ∨ dst + Z.of_nat n ≤ src →
  word (copy_words n dst src w) i = if decide (dst ≤ i < dst + Z.of_nat n) then word w (src + (i - dst)) else word w i.
Proof.
  revert dst src w. induction n as [|n IH]; intros dst src w Hd; cbn [copy_words].
  - by rewrite decide_False by lia.
  - rewrite IH by lia. destruct (decide (i = dst)) as [->|Hne].
    + rewrite decide_False, decide_True, word_insert_eq by lia. f_equal. lia.
    + destruct (decide (dst ≤ i < dst + Z.of_nat (S n))).
      * rewrite decide_True, word_insert_ne by lia. f_equal. lia.
      * rewrite decide_False, word_insert_ne by lia. done.
Qed.

Section Fault.
Context {A : Type} (alloc_pages : Z → M A (option Z)) (free_pages : Z → Z → M A unit) (np : Z).
Context (get_ref : Z → M A Z) (set_ref : Z → Z → M A unit).
Context (held : A → list (Z * Z) → Prop) (refof : A → Z → Z).
Context `{HA : !RefAllocator alloc_pages free_pages get_ref set_ref np held refof} (Hnp : np ≤ KMEMSIZE / PGSIZE).
Context `{HF : !FreshRefs alloc_pages held refof}.
Implicit Types (s : vmms A) (v : vmem A).
Abbreviation vm_ok' := (vm_ok np held refof).

Lemma on_vm_run {B} (m : M (vmem A) B) s r v : m (svm (sh s)) = Ret (r, v) → on_vm m s = Ret (r, with_svm v s).
Proof. intros E. unfold on_vm, on_sh, vm. apply (zoom_Ret sh_lens). by apply (zoom_Ret svm_lens). Qed.
Lemma with_svm_svm v v' s : with_svm v' (with_svm v s) = with_svm v' s.
Proof. done. Qed.
Lemma with_svm_same s : with_svm (svm (sh s)) s = s.
Proof. destruct s as [? ? ? ? ? []]. done. Qed.
Lemma page2kva_run {S} p (x : S) : 0 ≤ p < np → page2kva np p x = Ret (kva_of p 0, x).
Proof using Hnp.
  intros Hp. pose proof (np_bound np Hnp). unfold page2kva. rewrite page2pa_small by lia. unfold KADDR.
  assert (Hppn : PPN (p * PGSIZE) = p).
  { rewrite PPN_div. unfold PGSIZE. change (2 ^ 12) with 4096. by rewrite Z.div_mul. }
  rewrite Hppn, bool_decide_false by lia. unfold mret, M_ret, kva_of, PGSIZE, KERNBASE. do 2 f_equal.
  rewrite u32_small by (unfold is_u32; lia). lia.
Qed.
Lemma pte2page_at {S} e (x : S) : e mod 2 = 1 → is_u32 e → 0 ≤ e / PGSIZE < np → pte2page np e x = Ret (e / PGSIZE, x).
Proof using Hnp.
  intros He Hu Hr. unfold pte2page, pa2page. rewrite bool_decide_false by (rewrite absent_spec; lia).
  rewrite PPN_addr by done. by rewrite bool_decide_false by lia.
Qed.
Lemma memcpy_run v p q : 0 ≤ p < np → 0 ≤ q < np → p ≠ q → ∃ w', memcpy_page np (kva_of p 0) (kva_of q 0) v = Ret ((), set_words w' v) ∧
  (∀ i, i / 1024 ≠ p → word w' i = word (words v) i) ∧ ∀ j, 0 ≤ j < 1024 → word w' (p * 1024 + j) = word (words v) (q * 1024 + j).
Proof using Hnp.
  intros Hp Hq Hne. unfold memcpy_page. destruct (kva_of_ok np p 0 Hp ltac:(lia)) as [-> ->], (kva_of_ok np q 0 Hq ltac:(lia)) as [-> ->].
  eexists. split; [reflexivity|]. rewrite !Z.add_0_r. split.
  - intros i Hi. rewrite word_copy by lia. rewrite decide_False; [done|]. change (Z.of_nat 1024) with 1024. intros Hr. apply Hi.
    symmetry. apply (Z.div_unique _ _ _ (i - p * 1024)); lia.
  - intros j Hj. rewrite word_copy by lia. rewrite decide_True by (change (Z.of_nat 1024) with 1024; lia). f_equal. lia.
Qed.

(** The entry of an address in a data page. *)
Lemma entry_page v d T D ext R0 u : vm_ok' v d T D ext R0 → 0 ≤ u < UPN → let e := tentry (words v) T u in e ≠ 0 →
  e mod 2 = 1 ∧ is_u32 e ∧ e / PGSIZE ∈ D ∧ 0 ≤ e / PGSIZE < np ∧ 1 ≤ count (words v) T (e / PGSIZE).
Proof using All.
  intros Hv Hu e He. destruct (vo_data _ _ _ _ _ _ _ _ _ Hv u Hu) as [?|(H1 & H2 & H3)]; [done|].
  split_and!; try done; [apply (in_hand alloc_pages free_pages np get_ref set_ref held refof Hnp v d T D ext R0 _ Hv H3)..|].
  by apply (count_pos _ _ _ u).
Qed.
Lemma here_at p perm : 0 ≤ p < np → 0 ≤ perm < PGSIZE → here (pte_of p perm) p = 1.
Proof using Hnp.
  intros Hp Hperm. pose proof (np_bound np Hnp). destruct (pte_value p perm ltac:(lia) Hperm) as (Hx1 & Hx2 & Hx3).
  unfold here. rewrite bool_decide_true; [done|]. unfold pte_of. split; [|done]. intros H0. by rewrite H0 in Hx2.
Qed.

(** The entry of [la] now maps [q], with one reference. *)
Definition served v v' d T T' D ext R0 (la q perm : Z) : Prop :=
  vm_ok' v' d T' D ext R0 ∧ ext_in ext D ∧ q ∈ D ∧ refof (palloc v') q = 1 ∧
  ∀ u, tentry (words v') T' u = if decide (u = PPN la) then pte_of q perm else tentry (words v) T u.

(** The page has other references: the new page takes a copy. *)
Lemma copy_ok v v1 d T D ext R0 la t q perm :
  let e := tentry (words v) T (PPN la) in let p := e / PGSIZE in
  vm_ok' v d T D ext R0 → vm_ok' v1 d T (q :: D) ext R0 → same_memory v v1 → q ∉ D → ext_in ext D →
  0 ≤ la < KERNBASE → T !! (PPN la / 1024) = Some t → 0 ≤ perm < PGSIZE → e ≠ 0 → 1 < refof (palloc v) p →
  ∃ v2 v', memcpy_page np (kva_of q 0) (kva_of p 0) v1 = Ret ((), v2) ∧
    page_insert alloc_pages free_pages np get_ref set_ref (kva_of d 0) q la perm v2 = Ret (0, v') ∧
    served v v' d T T (q :: D) ext R0 la q perm ∧
    (∀ j, 0 ≤ j < 1024 → content v' q j = content v p j) ∧
    (∀ r j, r ∈ D → 0 ≤ j < 1024 → content v' r j = content v r j).
Proof using All.
  intros e p Hv Hv1 (W1 & C1 & L1) Hq Hx Hla Ht Hperm He Hr.
  destruct (la_split la Hla) as (Hu & _). destruct (entry_page v d T D ext R0 _ Hv Hu He) as (E1 & E2 & E3 & E4 & E5). fold e p in E3, E4, E5.
  assert (Hqp : q ≠ p) by (intros ->; done). assert (Hq1 : q ∈ q :: D) by by left.
  assert (Hqr : 0 ≤ q < np) by apply (in_hand alloc_pages free_pages np get_ref set_ref held refof Hnp v1 d T _ ext R0 _ Hv1 Hq1).
  destruct (memcpy_run v1 q p Hqr E4 Hqp) as (w' & Ec & Hw & Hc).
  destruct (data_write alloc_pages free_pages np get_ref set_ref held refof Hnp v1 d T (q :: D) ext R0 q w' Hv1 Hq1 Hw) as [Hv2 He2].
  assert (Hxq : ext q = 0) by (destruct (decide (ext q = 0)) as [|Hne]; [done|by destruct (Hq (Hx q Hne))]).
  destruct (remap_ok alloc_pages free_pages np get_ref set_ref held refof Hnp _ d T (q :: D) ext R0 la t q perm Hv2 Hla Ht Hq1 Hperm ltac:(lia))
    as (v' & Ei & Hv' & He' & Ho').
  assert (Hdis : displaced refof (set_words w' v1) T (PPN la) q (q :: D) = q :: D).
  { unfold displaced. cbn [words set_words palloc]. rewrite He2, W1. fold e p. rewrite bool_decide_true by done.
    unfold drop_page. rewrite bool_decide_false; [done|].
    rewrite (vo_refs _ _ _ _ _ _ _ _ _ Hv1 p ltac:(by right)), W1, <-(vo_refs _ _ _ _ _ _ _ _ _ Hv p E3). lia. }
  rewrite Hdis in Hv'. eexists _, v'. split; [exact Ec|]. split; [exact Ei|].
  assert (He'' : ∀ u, tentry (words v') T u = if decide (u = PPN la) then pte_of q perm else tentry (words v) T u).
  { intros u. rewrite He'. cbn [words set_words]. by rewrite He2, W1. }
  assert (Hkeep : ∀ r j, r ∈ q :: D → 0 ≤ j < 1024 → content v' r j = word w' (r * 1024 + j)).
  { intros r j Hr' Hj. rewrite (content_kept _ _ _ r j Ho'); [done| |done].
    by apply (data_apart alloc_pages free_pages np get_ref set_ref held refof Hnp v1 d T (q :: D) ext R0). }
  split_and!.
  - split; [exact Hv'|]. split; [intros r Hr'; right; by apply Hx|]. split; [exact Hq1|]. split; [|exact He''].
    rewrite (vo_refs _ _ _ _ _ _ _ _ _ Hv' q Hq1), (count_update _ _ _ _ q _ _ Hu He''), here_at by done. fold e.
    rewrite (count_out np held refof v d T D ext R0 q Hv Hq). unfold here. rewrite bool_decide_false; [lia|]. intros [_ Heq]. by apply Hqp.
  - intros j Hj. rewrite Hkeep, Hc by done. unfold content. by rewrite W1.
  - intros r j Hr' Hj. rewrite Hkeep by (done || by right). rewrite Hw, W1; [done|]. rewrite frame_index by done. by intros ->.
Qed.

(** The page has no other reference: it stays and becomes writable. *)
Lemma keep_ok v v1 d T D D1 ext R0 la t perm :
  let e := tentry (words v) T (PPN la) in let p := e / PGSIZE in
  vm_ok' v d T D ext R0 → vm_ok' v1 d T D1 ext R0 → same_memory v v1 → ext_in ext D → (∀ q, q ∈ D → q ∈ D1) →
  0 ≤ la < KERNBASE → T !! (PPN la / 1024) = Some t → 0 ≤ perm < PGSIZE → e ≠ 0 → refof (palloc v) p ≤ 1 →
  ∃ v', page_insert alloc_pages free_pages np get_ref set_ref (kva_of d 0) p la perm v1 = Ret (0, v') ∧
    served v v' d T T D1 ext R0 la p perm ∧ ∀ r j, r ∈ D → 0 ≤ j < 1024 → content v' r j = content v r j.
Proof using All.
  intros e p Hv Hv1 (W1 & C1 & L1) Hx Hsub Hla Ht Hperm He Hr.
  destruct (la_split la Hla) as (Hu & _). destruct (entry_page v d T D ext R0 _ Hv Hu He) as (E1 & E2 & E3 & E4 & E5). fold e p in E3, E4, E5.
  pose proof (vo_refs _ _ _ _ _ _ _ _ _ Hv p E3) as Hrp. pose proof (vo_ext _ _ _ _ _ _ _ _ _ Hv p) as Hxp.
  destruct (remap_ok alloc_pages free_pages np get_ref set_ref held refof Hnp v1 d T D1 ext R0 la t p perm Hv1 Hla Ht (Hsub p E3) Hperm ltac:(lia))
    as (v' & Ei & Hv' & He' & Ho').
  assert (Hdis : displaced refof v1 T (PPN la) p D1 = D1).
  { unfold displaced. rewrite W1. fold e p. by rewrite bool_decide_false by tauto. }
  rewrite Hdis in Hv'. rewrite W1 in He'. exists v'. split; [exact Ei|]. split.
  - split; [exact Hv'|]. split; [intros r Hr'; by apply Hsub, Hx|]. split; [by apply Hsub|]. split; [|exact He'].
    rewrite (vo_refs _ _ _ _ _ _ _ _ _ Hv' p (Hsub p E3)), (count_update _ _ _ _ p _ _ Hu He'), here_at by done. fold e.
    unfold here. rewrite bool_decide_true by done. lia.
  - intros r j Hr' Hj. rewrite (content_kept _ _ _ r j Ho'); [unfold content; by rewrite W1| |done].
    by apply (data_apart alloc_pages free_pages np get_ref set_ref held refof Hnp v d T D ext R0 r Hv Hr').
Qed.

(** A page nobody uses goes back, and the rest stays. *)
Lemma served_free v v' d T D ext R0 la p q perm :
  served v v' d T T (q :: D) ext R0 la p perm → ext_in ext D → q ∉ D → p ∈ D → count (words v) T q = 0 → 0 ≤ la < KERNBASE →
  0 ≤ p < np → 0 ≤ perm < PGSIZE → tentry (words v) T (PPN la) / PGSIZE = p →
  ∃ v'', free_page free_pages q v' = Ret ((), v'') ∧ served v v'' d T T D ext R0 la p perm ∧ words v'' = words v'.
Proof using All.
  intros (Hv' & Hx' & Hp' & Hr' & He') Hx Hq Hp Hc Hla Hpr Hperm Hep. destruct (la_split la Hla) as (Hu & _).
  assert (Hpq : p ≠ q) by (intros ->; done). pose proof (np_bound np Hnp).
  assert (Hxq : ext q = 0) by (destruct (decide (ext q = 0)) as [|Hne]; [done|by destruct (Hq (Hx q Hne))]).
  destruct (pte_value p perm ltac:(lia) Hperm) as (Hx1 & _). fold (pte_of p perm) in Hx1.
  assert (Hz : refof (palloc v') q = 0).
  { rewrite (vo_refs _ _ _ _ _ _ _ _ _ Hv' q ltac:(by left)), (count_update _ _ _ _ q _ _ Hu He'), Hc, Hxq.
    unfold here. rewrite !bool_decide_false; [lia|intros [_ ?]; congruence..]. }
  destruct (free_data alloc_pages free_pages np get_ref set_ref held refof Hnp v' d T (q :: D) ext R0 q Hv' Hx' ltac:(by left) Hz)
    as (v'' & E & (W & _) & Hv'' & _).
  rewrite drop_fresh in Hv'' by done. exists v''. split; [done|]. split; [|done]. split; [done|]. split; [done|]. split; [done|].
  split; [|by rewrite W]. rewrite (vo_refs _ _ _ _ _ _ _ _ _ Hv'' p Hp), W, <-(vo_refs _ _ _ _ _ _ _ _ _ Hv' p Hp'). done.
Qed.

Lemma get_ref_run s d T D ext R0 p : vm_ok' (svm (sh s)) d T D ext R0 → p ∈ D → on_al (get_ref p) s = Ret (refof (palloc (svm (sh s))) p, s).
Proof using All.
  intros Hv Hp. destruct (in_hand alloc_pages free_pages np get_ref set_ref held refof Hnp _ d T D ext R0 p Hv Hp) as [Hh _].
  pose proof (ra_get _ _ _ (vo_held _ _ _ _ _ _ _ _ _ Hv) Hh) as E. apply (zoom_Ret palloc_lens) in E.
  transitivity (on_vm (zoom palloc_lens (get_ref p)) s); [done|].
  assert (Hsame : over palloc_lens (palloc (svm (sh s))) (svm (sh s)) = svm (sh s)) by by destruct (svm (sh s)).
  rewrite (on_vm_run _ _ _ _ E). change (view palloc_lens) with (@palloc A). by rewrite Hsame, with_svm_same.
Qed.

Abbreviation fault_present' := (fault_present alloc_pages free_pages np get_ref set_ref).
(** A write to a page that is mapped read-only in a writable private area. *)
Lemma fault_present_ok s d T D ext R0 la t perm err x :
  let v := svm (sh s) in let e := tentry (words v) T (PPN la) in let p := e / PGSIZE in
  let run := fault_present' err (kva_of d 0) (kva_of t (PPN la mod 1024)) la perm x s in
  vm_ok' v d T D ext R0 → ext_in ext D → 0 ≤ la < KERNBASE → T !! (PPN la / 1024) = Some t → 0 ≤ perm < PGSIZE → e ≠ 0 →
  Z.land err 2 ≠ 0 → Z.land e PTE_W = 0 → Z.land (vm_flags x) (Z.lor VM_SHARE VM_WRITE) = VM_WRITE →
  ∃ v', (run = Ret (- E_NO_MEM, with_svm v' s) ∧ vm_ok' v' d T D ext R0 ∧ same_memory v v' ∧ 1 < refof (palloc v) p) ∨
    ∃ q D', run = Ret (0, with_svm v' s) ∧ served v v' d T T D' ext R0 la q perm ∧
      (if bool_decide (1 < refof (palloc v) p) then q ∉ D else q = p) ∧
      (∀ j, 0 ≤ j < 1024 → content v' q j = content v p j) ∧ (∀ r j, r ∈ D → 0 ≤ j < 1024 → content v' r j = content v r j).
Proof using All.
  intros v e p run Hv Hx Hla Ht Hperm He Herr Hw Hcow.
  destruct (la_split la Hla) as (Hu & _). destruct (entry_page v d T D ext R0 _ Hv Hu He) as (E1 & E2 & E3 & E4 & E5). fold e in E1, E2. fold e p in E3, E4, E5.
  pose proof (vo_pgd _ _ _ _ _ _ _ _ _ Hv) as Hpg. destruct (pd_range _ _ _ _ Hpg _ _ Ht) as (_ & Htr & _). pose proof (mod1024 (PPN la)) as Hm.
  assert (El : on_vm (load np (kva_of t (PPN la mod 1024))) s = Ret (e, s)).
  { rewrite (on_vm_run _ _ _ _ (load_run np v t _ Htr Hm)). unfold v. rewrite with_svm_same. unfold e, tentry. by rewrite Ht. }
  assert (Hp1 : Z.land e PTE_P ≠ 0) by (rewrite absent_spec; lia).
  subst run. unfold fault_present. rewrite (bind_Ret _ _ _ _ _ El). cbv zeta. rewrite (bool_decide_true (_ = VM_WRITE)) by done.
  rewrite bind_assert by (rewrite (bool_decide_true (Z.land err 2 ≠ 0)), (bool_decide_true (Z.land e PTE_W = 0)) by done; apply orb_true_r).
  destruct (alloc_data alloc_pages free_pages np get_ref set_ref held refof Hnp v d T D ext R0 Hv Hx) as (r & v1 & Ea & Hs1 & Hr).
  rewrite (bind_Ret _ _ _ _ _ (on_vm_run _ _ _ _ Ea)). rewrite (bool_decide_true (Z.land e PTE_P ≠ 0)) by done.
  rewrite (bind_Ret _ _ _ _ _ (pte2page_at e _ E1 E2 E4)). fold p.
  assert (Hv1 : ∃ D1, vm_ok' v1 d T D1 ext R0 ∧ ∀ q, q ∈ D → q ∈ D1).
  { destruct r as [q|]; [exists (q :: D); split; [apply Hr|by right]|by exists D]. }
  destruct Hv1 as (D1 & Hv1 & Hsub).
  rewrite (bind_Ret _ _ _ _ _ (get_ref_run (with_svm v1 s) d T D1 ext R0 p Hv1 (Hsub p E3))).
  assert (Hrp : refof (palloc v1) p = refof (palloc v) p).
  { rewrite (vo_refs _ _ _ _ _ _ _ _ _ Hv1 p (Hsub p E3)), (vo_refs _ _ _ _ _ _ _ _ _ Hv p E3). destruct Hs1 as (-> & _). done. }
  change (palloc (svm (sh (with_svm v1 s)))) with (palloc v1). rewrite Hrp. cbn [andb].
  destruct (decide (1 < refof (palloc v) p)) as [Hgt|Hle].
  - rewrite !bool_decide_true by lia. destruct r as [q|].
    + destruct Hr as (HqD & _ & _ & Hqr & Hz & Hv1').
      destruct (copy_ok v v1 d T D ext R0 la t q perm Hv Hv1' Hs1 HqD Hx Hla Ht Hperm He Hgt) as (v2 & v' & Ec & Ei & Hsv & Hc1 & Hc2). fold e p in Ec.
      rewrite (bind_Ret _ _ _ _ _ (page2kva_run q _ Hqr)), (bind_Ret _ _ _ _ _ (page2kva_run p _ E4)).
      rewrite (bind_Ret _ _ _ _ _ (on_vm_run _ (with_svm v1 s) _ _ Ec)), (bind_Ret _ _ _ _ _ (on_vm_run _ (with_svm v2 _) _ _ Ei)).
      exists v'. right. by exists q, (q :: D).
    + exists v1. left. by split_and!.
  - assert (Hle' : refof (palloc v) p ≤ 1) by lia. rewrite !bool_decide_false by lia. destruct r as [q|].
    + destruct Hr as (HqD & _ & _ & Hqr & Hz & Hv1').
      destruct (keep_ok v v1 d T D (q :: D) ext R0 la t perm Hv Hv1' Hs1 Hx ltac:(by right) Hla Ht Hperm He Hle') as (v2 & Ei & Hsv & Hc). fold e p in Ei, Hsv.
      destruct (served_free v v2 d T D ext R0 la p q perm Hsv Hx HqD E3) as (v' & Ef & Hsv' & W'); try done.
      { by apply (count_out np held refof v d T D ext R0). }
      rewrite (bind_Ret _ _ _ _ _ (on_vm_run _ (with_svm v1 s) _ _ Ei)), (bind_Ret _ _ _ _ _ (on_vm_run _ (with_svm v2 _) _ _ Ef)).
      exists v'. right. exists p, D. assert (Hc' : ∀ r j, r ∈ D → 0 ≤ j < 1024 → content v' r j = content v r j).
      { intros r j Hr Hj. unfold content. rewrite W'. by apply Hc. }
      split_and!; try done. intros j Hj. by apply Hc'.
    + destruct (keep_ok v v1 d T D D ext R0 la t perm Hv Hr Hs1 Hx ltac:(done) Hla Ht Hperm He Hle') as (v' & Ei & Hsv & Hc). fold e p in Ei, Hsv.
      rewrite (bind_Ret _ _ _ _ _ (on_vm_run _ (with_svm v1 s) _ _ Ei)).
      exists v'. right. exists p, D. split_and!; try done. intros j Hj. by apply Hc.
Qed.

Abbreviation fault_absent' := (fault_absent alloc_pages free_pages np get_ref set_ref).
(** A page that is not there yet, in a private area. *)
Lemma fault_absent_ok kmalloc kfree fuel s d T D ext R0 la ptep perm x :
  let v := svm (sh s) in let run := fault_absent' kmalloc kfree fuel (kva_of d 0) ptep la perm x s in
  vm_ok' v d T D ext R0 → ext_in ext D → 0 ≤ la < KERNBASE → 0 ≤ perm < PGSIZE → tentry (words v) T (PPN la) = 0 →
  Z.land (vm_flags x) VM_SHARE = 0 →
  ∃ v', (run = Ret (- E_NO_MEM, with_svm v' s) ∧ vm_ok' v' d T D ext R0 ∧ words v' = words v) ∨
    ∃ q T', run = Ret (0, with_svm v' s) ∧ served v v' d T T' (q :: D) ext R0 la q perm ∧ q ∉ D ∧
      ∀ r j, r ∈ D → 0 ≤ j < 1024 → content v' r j = content v r j.
Proof using All.
  intros v run Hv Hx Hla Hperm He Hsh. subst run. unfold fault_absent. rewrite bool_decide_true by done.
  destruct (la_split la Hla) as (Hu & _).
  destruct (pgdir_alloc_ok alloc_pages free_pages np get_ref set_ref held refof Hnp v d T D ext R0 la perm Hv Hx Hla Hperm He)
    as [(v' & E & Hv' & W)|(q & T' & v' & E & Hq & Hv' & He' & Ho)]; rewrite (bind_Ret _ _ _ _ _ (on_vm_run _ _ _ _ E)); exists v'; [by left|right].
  assert (Hq1 : q ∈ q :: D) by by left.
  assert (Hqr : 0 ≤ q < np) by apply (in_hand alloc_pages free_pages np get_ref set_ref held refof Hnp v' d T' _ ext R0 _ Hv' Hq1).
  assert (Hxq : ext q = 0) by (destruct (decide (ext q = 0)) as [|Hne]; [done|by destruct (Hq (Hx q Hne))]).
  exists q, T'. split; [done|]. split; [|split; [done|]].
  - split; [done|]. split; [intros r Hr; right; by apply Hx|]. split; [done|]. split; [|done].
    rewrite (vo_refs _ _ _ _ _ _ _ _ _ Hv' q Hq1), (count_update _ _ _ _ q _ _ Hu He'), here_at, He, Hxq by done.
    rewrite (count_out np held refof v d T D ext R0 q Hv Hq). unfold here. rewrite bool_decide_false by tauto. done.
  - intros r j Hr Hj. apply (content_kept _ _ _ r j Ho); [|done].
    destruct (data_apart alloc_pages free_pages np get_ref set_ref held refof Hnp v' d T' (q :: D) ext R0 r Hv' ltac:(by right)) as [H1 H2].
    set_solver +H1 H2.
Qed.
End Fault.

(** ** do_pgfault *)

(** What the flags of an area allow, and the permissions of its pages. *)
Definition fault_allowed (f err : Z) : bool :=
  if bool_decide (Z.land err 3 = 1) then false
  else if bool_decide (Z.land err 3 = 0) then bool_decide (Z.land f (Z.lor VM_READ VM_EXEC) ≠ 0)
  else bool_decide (Z.land f VM_WRITE ≠ 0).
Definition fault_perm (f : Z) : Z := if bool_decide (Z.land f VM_WRITE ≠ 0) then Z.lor PTE_U PTE_W else PTE_U.

Lemma fault_perm_small f : 0 ≤ fault_perm f < PGSIZE.
Proof. unfold fault_perm. by case_bool_decide. Qed.
Lemma round_page addr : 0 ≤ addr < KERNBASE → 0 ≤ ROUNDDOWN addr PGSIZE < KERNBASE ∧ PPN (ROUNDDOWN addr PGSIZE) = PPN addr.
Proof.
  unfold ROUNDDOWN, KERNBASE, PGSIZE. intros Ha. cbv zeta. rewrite !PPN_div. change (2 ^ 12) with 4096.
  rewrite (u32_small addr) by (unfold is_u32; lia). pose proof (Z.mod_pos_bound addr 4096 ltac:(lia)). pose proof (Z.mod_le addr 4096 ltac:(lia) ltac:(lia)).
  rewrite u32_small by (unfold is_u32; lia). split; [lia|]. pose proof (Z.div_mod addr 4096 ltac:(lia)).
  replace (addr - addr mod 4096) with (addr / 4096 * 4096) by lia. by rewrite Z.div_mul.
Qed.
(** A write that is allowed in a private area is a copy on write. *)
Lemma write_cow f err : Z.land err 2 ≠ 0 → fault_allowed f err = true → Z.land f VM_SHARE = 0 →
  Z.land f (Z.lor VM_SHARE VM_WRITE) = VM_WRITE.
Proof.
  intros Herr Hal Hsh. rewrite Z.land_lor_distr_r, Hsh, Z.lor_0_l. unfold fault_allowed in Hal.
  assert (Hbit : ∀ a, Z.land a 2 = if Z.testbit a 1 then 2 else 0).
  { intros a. apply Z.bits_inj'. intros n Hn. rewrite Z.land_spec. change 2 with (2 ^ 1) at 1. rewrite Z.pow2_bits_eqb by lia.
    destruct (Z.eqb_spec 1 n) as [<-|Hne].
    - rewrite andb_true_r. by destruct (Z.testbit a 1).
    - rewrite andb_false_r. destruct (Z.testbit a 1); [|by rewrite Z.bits_0]. change 2 with (2 ^ 1). rewrite Z.pow2_bits_eqb by lia.
      by destruct (Z.eqb_spec 1 n). }
  assert (H3 : Z.testbit (Z.land err 3) 1 = true).
  { rewrite Z.land_spec. rewrite Hbit in Herr. by destruct (Z.testbit err 1). }
  rewrite bool_decide_false in Hal by (intros H0; by rewrite H0 in H3). rewrite bool_decide_false in Hal by (intros H0; by rewrite H0 in H3).
  apply bool_decide_eq_true in Hal. unfold VM_WRITE in *. rewrite Hbit in Hal |- *. by destruct (Z.testbit f 1).
Qed.

(** The page of an address of an area that starts at a page is in the area. *)
Lemma page_in_area a b addr : a mod PGSIZE = 0 → a ≤ addr → addr < b → a ≤ PPN addr * PGSIZE < b.
Proof.
  intros Ha Hle Hlt. rewrite PPN_div. change (2 ^ 12) with PGSIZE. unfold PGSIZE in *.
  pose proof (Z.div_mod addr 4096 ltac:(lia)). pose proof (Z.mod_pos_bound addr 4096 ltac:(lia)).
  pose proof (Z.div_mod a 4096 ltac:(lia)). pose proof (Z.div_le_mono a addr 4096 ltac:(lia) Hle). lia.
Qed.
Lemma cached_frame {A} mm v m (s : vmms A) : sh (cached mm v m s) = sh s ∧ vmas (cached mm v m s) = vmas s ∧
  ∀ m', m' ≠ mm → mms (cached mm v m s) !! m' = mms s !! m'.
Proof. unfold cached. case_bool_decide; [done|]. split_and!; [done|done|]. intros m' Hm'. simpl. by rewrite lookup_insert_ne. Qed.

Section Handler.
Context {A : Type} (kmalloc : Z → M A Z) (kfree : Z → M A unit).
Context (alloc_pages : Z → M A (option Z)) (free_pages : Z → Z → M A unit) (np : Z).
Context (get_ref : Z → M A Z) (set_ref : Z → Z → M A unit).
Context (mem : A → gset Z → list (Z * Z) → Prop) (refof : A → Z → Z).
Context `{HK : !KernelRefs kmalloc kfree alloc_pages free_pages get_ref set_ref np mem refof}.
Context {HF : ∀ O, FreshRefs alloc_pages (λ a R, mem a O R) refof} (Hnp : np ≤ KMEMSIZE / PGSIZE).
Context (fuel : nat) (d : Z) (ext : Z → Z) (R0 : list (Z * Z)).
Implicit Types (s : vmms A) (F : gmap vlink (list vlink)) (e : Z → Z) (v : vmem A).
Abbreviation pt := (tables np mem refof d ext R0).
Abbreviation inv := (space_inv (pt := pt) (pgd := kva_of d 0)).

(** The pages mapped keep their contents. *)
Definition pages_kept e v v' : Prop :=
  ∀ w j, 0 ≤ w < UPN → 0 ≤ j < 1024 → e w ≠ 0 → content v' (e w / PGSIZE) j = content v (e w / PGSIZE) j.

(** [q] is the page of address [u] after the fault: a page of its own, new when there
    was none or when the one there was had other references, with the contents
    of the one there was. *)
Record page_given e e' v v' (u perm q : Z) : Prop := {
  pg_entry w : e' w = if decide (w = u) then pte_of q perm else e w;
  pg_private : refof (palloc v') q = 1;
  pg_new : if bool_decide (e u = 0 ∨ 1 < refof (palloc v) (e u / PGSIZE))
           then ∀ w, 0 ≤ w < UPN → e w ≠ 0 → e w / PGSIZE ≠ q else q = e u / PGSIZE;
  pg_copy j : e u ≠ 0 → 0 ≤ j < 1024 → content v' q j = content v (e u / PGSIZE) j }.

Lemma tables_of s F O mm m xs e : inv s F O mm m xs e → pt (svm (sh s)) O e.
Proof.
  intros Hi. pose proof (vi_live _ _ _ _ _ _ _ (pv_inv _ _ _ _ _ _ _ (sv_inv _ _ _ _ _ _ _ Hi))) as Hl.
  unfold plive, al in Hl. by destruct (svm (sh s)).
Qed.

(** The invariant with other page tables. *)
Lemma inv_tables s F O mm m xs e v' e' u :
  inv s F O mm m xs e → pt v' O e' → space (vmas s) xs (u * PGSIZE) ≠ None → (∀ w, w ≠ u → e' w = e w) →
  inv (with_svm v' s) F O mm m xs e'.
Proof.
  intros [[Hi Hp] Hg Hcov Hfam] Ht Hu He. split; [split; [|done]|done| |done].
  - eapply (inv_agree (plive s e) _ s); try done.
    + exact (mo_links _ _ _ _ _ (vi_ok _ _ _ _ _ _ _ Hi)).
    + unfold plive, al. simpl. by destruct v'.
    + by left.
  - intros w Hw He'. destruct (decide (w = u)) as [->|Hne]; [done|]. rewrite He in He' by done. by apply Hcov.
Qed.

(** A mapped page is a data page. *)
Lemma mapped_data v O T D e w : vm_ok np (λ a R, mem a O R) refof v d T D ext R0 → (∀ u, e u = tentry (words v) T u) →
  0 ≤ w < UPN → e w ≠ 0 → e w / PGSIZE ∈ D.
Proof.
  intros Hv He Hw Hne. rewrite He in Hne |- *. by destruct (vo_data _ _ _ _ _ _ _ _ _ Hv w Hw) as [?|(_ & _ & ?)].
Qed.
Lemma outside_kept v v' O T T' D e : vm_ok np (λ a R, mem a O R) refof v d T D ext R0 → vm_ok np (λ a R, mem a O R) refof v' d T' D ext R0 →
  (∀ u, e u = tentry (words v) T u) → same_outside (d :: frames T') v v' → pages_kept e v v'.
Proof using HK HF Hnp.
  intros Hv Hv' He Ho w j Hw Hj Hne. apply (content_kept _ _ _ _ _ Ho); [|done].
  destruct (data_apart alloc_pages free_pages np get_ref set_ref (λ a R, mem a O R) refof Hnp v' d T' D ext R0 (e w / PGSIZE) Hv') as [H1 H2];
    [by apply (mapped_data v O T D)|set_solver +H1 H2].
Qed.
Lemma kept_then e v v1 v' (D : list Z) : (∀ w, 0 ≤ w < UPN → e w ≠ 0 → e w / PGSIZE ∈ D) → pages_kept e v v1 →
  (∀ r j, r ∈ D → 0 ≤ j < 1024 → content v' r j = content v1 r j) → pages_kept e v v'.
Proof. intros Hd H1 H2 w j Hw Hj Hne. rewrite H2 by auto. by apply H1. Qed.

(** Equal entries, equal counts. *)
Lemma same_refs v v1 O T T1 D e u : vm_ok np (λ a R, mem a O R) refof v d T D ext R0 → vm_ok np (λ a R, mem a O R) refof v1 d T1 D ext R0 →
  (∀ w, e w = tentry (words v) T w) → (∀ w, tentry (words v1) T1 w = e w) → 0 ≤ u < UPN → e u ≠ 0 →
  refof (palloc v1) (e u / PGSIZE) = refof (palloc v) (e u / PGSIZE).
Proof.
  intros Hv Hv1 He He1 Hu H0. pose proof (mapped_data v O T D e u Hv He Hu H0) as Hin.
  rewrite (vo_refs _ _ _ _ _ _ _ _ _ Hv1 _ Hin), (vo_refs _ _ _ _ _ _ _ _ _ Hv _ Hin). f_equal. apply count_ext. intros w _. by rewrite He1, He.
Qed.
(** The ways the handler ends, from the memory [v1] in which the address has a table. *)
Lemma fault_failed s F O mm m xs e v v1 v' T1 D :
  inv s F O mm m xs e → vm_ok np (λ a R, mem a O R) refof v' d T1 D ext R0 → ext_in ext D → words v' = words v1 →
  (∀ w, tentry (words v1) T1 w = e w) → pages_kept e v v1 →
  ∃ e', inv (with_svm v' s) F O mm m xs e' ∧ pages_kept e v v' ∧ ∀ w, e' w = e w.
Proof.
  intros Hi Hv' Hx W' He1 Hk. exists e. split_and!; [| |done].
  - pose proof Hi as [[Hvm Hpg] Hg Hcov Hfam]. split; [split; [|done]|done|done|done]. eapply (inv_agree (plive s e) _ s); try done.
    + exact (mo_links _ _ _ _ _ (vi_ok _ _ _ _ _ _ _ Hvm)).
    + exists T1, D. unfold al. simpl. split_and!; [by destruct v'|by intros u; rewrite W', He1|done].
    + by left.
  - intros w j Hw Hj Hne. unfold content. rewrite W'. by apply Hk.
Qed.
Lemma fault_served s F O mm m xs e v v1 v' T T1 T' D D' la q perm :
  inv s F O mm m xs e → vm_ok np (λ a R, mem a O R) refof v d T D ext R0 → (∀ u, e u = tentry (words v) T u) →
  (∀ w, tentry (words v1) T1 w = e w) → pages_kept e v v1 → space (vmas s) xs (PPN la * PGSIZE) ≠ None →
  served np (λ a R, mem a O R) refof v1 v' d T1 T' D' ext R0 la q perm →
  (∀ r j, r ∈ D → 0 ≤ j < 1024 → content v' r j = content v1 r j) →
  ∃ e', inv (with_svm v' s) F O mm m xs e' ∧ pages_kept e v v' ∧
    ∀ w, e' w = if decide (w = PPN la) then pte_of q perm else e w.
Proof.
  intros Hi Hv He He1 Hk Hu (Hv' & Hx' & Hq' & Hr' & He') Hc. exists (tentry (words v') T').
  assert (Hent : ∀ w, tentry (words v') T' w = if decide (w = PPN la) then pte_of q perm else e w) by (intros w; by rewrite He', He1).
  split_and!; [| |done].
  - apply (inv_tables s F O mm m xs e v' _ (PPN la)); [done| |done|intros w Hw; by rewrite Hent, decide_False]. by exists T', D'.
  - apply (kept_then e v v1 v' D); [|done|done]. intros w. by apply (mapped_data v O T D).
Qed.

(** The rest of the handler once the access is allowed. *)
Definition serve_fault (mm err addr : Z) (x : vma_struct) : M (vmms A) Z :=
  let la := ROUNDDOWN addr PGSIZE in let perm := fault_perm (vm_flags x) in
  m ← get_mm mm; ptep ← on_vm (get_pte alloc_pages np set_ref (pgdir m) la true);
  if bool_decide (ptep = 0) then mret (- E_NO_MEM)
  else
    pte ← on_vm (load np ptep);
    if bool_decide (pte = 0) then fault_absent alloc_pages free_pages np get_ref set_ref kmalloc kfree fuel (pgdir m) ptep la perm x
    else fault_present alloc_pages free_pages np get_ref set_ref err (pgdir m) ptep la perm x.

Lemma serve_fault_ok s F O mm m xs e err addr x :
  let u := PPN addr in let v := svm (sh s) in
  inv s F O mm m xs e → 0 ≤ addr < KERNBASE → space (vmas s) xs (u * PGSIZE) ≠ None → Z.land (vm_flags x) VM_SHARE = 0 →
  fault_allowed (vm_flags x) err = true → (e u ≠ 0 → Z.land err 2 ≠ 0 ∧ Z.land (e u) PTE_W = 0) →
  ∃ r v' e', serve_fault mm err addr x s = Ret (r, with_svm v' s) ∧ inv (with_svm v' s) F O mm m xs e' ∧ pages_kept e v v' ∧
    (r = - E_NO_MEM ∧ (∀ w, e' w = e w) ∨ r = 0 ∧ ∃ q, page_given e e' v v' u (fault_perm (vm_flags x)) q).
Proof using HK HF Hnp.
  intros u v Hi Haddr Hu Hsh Hal Hhw. destruct (tables_of _ _ _ _ _ _ _ Hi) as (T & D & Hv & He & Hx). fold v in Hv, He.
  pose proof Hi as [[Hvm Hpg] _ _ _]. pose proof (fault_perm_small (vm_flags x)) as Hperm. destruct (round_page addr Haddr) as [Hla Hppn].
  unfold serve_fault. rewrite (bind_Ret _ _ _ _ _ (get_mm_run _ _ _ (mo_mm _ _ _ _ _ (vi_ok _ _ _ _ _ _ _ Hvm)))). rewrite Hpg.
  set (la := ROUNDDOWN addr PGSIZE) in *. fold u in Hppn. destruct (la_split la Hla) as (Hur & _).
  destruct (get_pte_create alloc_pages free_pages np get_ref set_ref (λ a R, mem a O R) refof Hnp v d T D ext R0 la Hv Hla)
    as [(v1 & Eg & Hv1 & W1 & _)|(t & T1 & v1 & Eg & Ht & Hv1 & He1 & _ & Ho1)]; rewrite (bind_Ret _ _ _ _ _ (on_vm_run _ _ _ _ Eg)).
  { rewrite bool_decide_true by done.
    destruct (fault_failed s F O mm m xs e v v v1 T D Hi Hv1 Hx W1) as (e' & ? & ? & ?); [done|done|]. eexists _, v1, e'. split_and!; try done. by left. }
  destruct (pd_range _ _ _ _ (vo_pgd _ _ _ _ _ _ _ _ _ Hv1) _ _ Ht) as (_ & Htr & _). pose proof (mod1024 (PPN la)) as Hm.
  rewrite bool_decide_false by (unfold kva_of, KERNBASE, PGSIZE; lia).
  assert (He1' : ∀ w, tentry (words v1) T1 w = e w) by (intros w; by rewrite He1, He).
  assert (El : on_vm (load np (kva_of t (PPN la mod 1024))) (with_svm v1 s) = Ret (e u, with_svm v1 s)).
  { rewrite (on_vm_run _ (with_svm v1 s) _ _ (load_run np v1 t _ Htr Hm)). rewrite <-He1', <-Hppn. unfold tentry. by rewrite Ht. }
  rewrite (bind_Ret _ _ _ _ _ El). clear El Eg. rewrite <-Hppn in *. clear Hppn u.
  assert (Hk1 : pages_kept e v v1) by (by apply (outside_kept v v1 O T T1 D)).
  assert (Hnew : ∀ q, q ∉ D → ∀ w, 0 ≤ w < UPN → e w ≠ 0 → e w / PGSIZE ≠ q).
  { intros q Hq w Hw Hne Heq. apply Hq. rewrite <-Heq. by apply (mapped_data v O T D). }
  set (s1 := with_svm v1 s). destruct (decide (e (PPN la) = 0)) as [H0|H0].
  - rewrite bool_decide_true by done.
    destruct (fault_absent_ok alloc_pages free_pages np get_ref set_ref (λ a R, mem a O R) refof Hnp kmalloc kfree fuel s1 d T1 D ext R0 la
      (kva_of t (PPN la mod 1024)) (fault_perm (vm_flags x)) x Hv1 Hx Hla Hperm (eq_trans (He1' _) H0) Hsh)
      as (v' & [(E & Hv' & W')|(q & T' & E & Hs & Hq & Hc)]); rewrite E; change (svm (sh s1)) with v1 in *.
    + destruct (fault_failed s F O mm m xs e v v1 v' T1 D) as (e' & ? & ? & ?); try done. eexists _, v', e'. split_and!; try done. by left.
    + destruct (fault_served s F O mm m xs e v v1 v' T T1 T' D (q :: D) la q (fault_perm (vm_flags x))) as (e' & ? & ? & ?); try done.
      eexists _, v', e'. split_and!; try done. right. split; [done|]. exists q. split; [done|apply Hs| |done].
      rewrite bool_decide_true by (by left). by apply Hnew.
  - rewrite bool_decide_false by done. destruct (Hhw H0) as [Herr Hro].
    destruct (fault_present_ok alloc_pages free_pages np get_ref set_ref (λ a R, mem a O R) refof Hnp s1 d T1 D ext R0 la t
      (fault_perm (vm_flags x)) err x Hv1 Hx Hla Ht Hperm) as (v' & [(E & Hv' & (W' & _) & _)|(q & D' & E & Hs & Hq & Hc1 & Hc2)]);
      change (svm (sh s1)) with v1 in *; rewrite ?He1' in *; [done|done|done|by eapply write_cow|..]; rewrite E.
    + destruct (fault_failed s F O mm m xs e v v1 v' T1 D) as (e' & ? & ? & ?); try done. eexists _, v', e'. split_and!; try done. by left.
    + destruct (fault_served s F O mm m xs e v v1 v' T T1 T1 D D' la q (fault_perm (vm_flags x))) as (e' & ? & ? & ?); try done.
      eexists _, v', e'. split_and!; try done. right. split; [done|]. exists q. split; [done|apply Hs| |].
      * rewrite (same_refs v v1 O T T1 D e) in Hq by done. case_bool_decide as Hgt.
        -- rewrite bool_decide_true by (by right). by apply Hnew.
        -- by rewrite bool_decide_false by tauto.
      * intros j _ Hj. rewrite Hc1 by done. by apply Hk1.
Qed.
End Handler.

Section Thms.
Context {A : Type} (kmalloc : Z → M A Z) (kfree : Z → M A unit).
Context (alloc_pages : Z → M A (option Z)) (free_pages : Z → Z → M A unit) (np : Z).
Context (get_ref : Z → M A Z) (set_ref : Z → Z → M A unit).
Context (mem : A → gset Z → list (Z * Z) → Prop) (refof : A → Z → Z).
Implicit Types (s : vmms A) (F : gmap vlink (list vlink)).

(** C8. do_pgfault on an address space of private areas.  An address outside
    the areas and an access its area does not allow are refused with -E_INVAL,
    no page and no mapping changing.  Any other fault (on an entry that is
    empty, or a write to one that is read-only) either fails with -E_NO_MEM and
    every mapping as it was, or returns 0 with the address mapped to a page
    that nothing else references, with the permissions of the area: a new page
    when there was none, a copy of the page there was when it has other
    references (copy on write), and that page itself when it has not.  No
    other entry changes, every page mapped before keeps its contents, and the
    invariant of the areas, the page tables, the reference counts and the
    allocator holds after. *)
Theorem do_pgfault_correct `{!KernelRefs kmalloc kfree alloc_pages free_pages get_ref set_ref np mem refof}
    `{!∀ O, FreshRefs alloc_pages (λ a R, mem a O R) refof} fuel d ext R0 s F O mm m xs e err addr :
  np ≤ KMEMSIZE / PGSIZE → (Z.to_nat (USERTOP / PGSIZE) ≤ fuel)%nat → enough fuel (length xs) →
  let inv := space_inv (pt := tables np mem refof d ext R0) (pgd := kva_of d 0) in
  let fault := do_pgfault alloc_pages free_pages np get_ref set_ref kmalloc kfree fuel in
  let u := PPN addr in
  inv s F O mm m xs e → (e u ≠ 0 → Z.land err 2 ≠ 0 ∧ Z.land (e u) PTE_W = 0) →
  ∃ r s' m' e', fault mm err addr s = Ret (r, s') ∧ inv s' F O mm m' xs e' ∧ vmas s' = vmas s ∧
    (∀ m', m' ≠ mm → mms s' !! m' = mms s !! m') ∧ pages_kept e (svm (sh s)) (svm (sh s')) ∧
    match space (vmas s) xs addr with
    | Some f =>
      if fault_allowed f err then
        r = - E_NO_MEM ∧ (∀ w, e' w = e w) ∨
        r = 0 ∧ ∃ q, page_given refof e e' (svm (sh s)) (svm (sh s')) u (fault_perm f) q
      else r = - E_INVAL ∧ sh s' = sh s ∧ e' = e
    | None => r = - E_INVAL ∧ sh s' = sh s ∧ e' = e
    end.
Proof.
  intros Hnp Hf Hen inv fault u Hi Hhw.
  pose proof (page_tables kmalloc kfree alloc_pages free_pages np get_ref set_ref mem refof fuel d ext R0 Hnp Hf) as HP.
  destruct (inv_cached (PageSwap := λ _, mret false) s F O mm m xs e addr Hi Hen) as [Ef Hi1]. set (v := lookup_vma (vmas s) addr xs) in *. set (s1 := cached mm v m s) in *.
  pose proof (vi_areas _ _ _ _ _ _ _ (pv_inv _ _ _ _ _ _ _ (sv_inv _ _ _ _ _ _ _ Hi))) as Ha.
  destruct (cached_frame mm v m s) as (Hsh & Hvm & Hmms). fold s1 in Hsh, Hvm, Hmms. unfold fault, do_pgfault. rewrite (bind_Ret _ _ _ _ _ Ef).
  assert (Hrefuse : ∃ r s' m' e', Ret (- E_INVAL, s1) = Ret (r, s') ∧ inv s' F O mm m' xs e' ∧ vmas s' = vmas s ∧
    (∀ m', m' ≠ mm → mms s' !! m' = mms s !! m') ∧ pages_kept e (svm (sh s)) (svm (sh s')) ∧ r = - E_INVAL ∧ sh s' = sh s ∧ e' = e).
  { eexists _, s1, _, e. split_and!; try done. intros w j _ _ _. by rewrite Hsh. }
  unfold space. fold v. destruct (decide (v = 0)) as [H0|H0].
  { rewrite bool_decide_true, bool_decide_false by tauto. exact Hrefuse. }
  rewrite bool_decide_false by done. destruct (lookup_vma_spec (vmas s) addr xs Ha) as [[? _]|(Hin & _ & Hend & _)]; [done|]. fold v in Hin, Hend.
  destruct (proj2 Ha v Hin) as (_ & [x Hx] & _). assert (Hx1 : vmas s1 !! v = Some x) by (by rewrite Hvm).
  rewrite (bind_Ret _ _ _ _ _ (get_vma_run _ _ _ Hx1)).
  assert (Hst : start_of (vmas s) v = vm_start x ∧ flags_of (vmas s) v = vm_flags x) by (unfold start_of, flags_of; by rewrite Hx).
  destruct Hst as [Hst Hfl]. rewrite Hst, Hfl. destruct (decide (vm_start x ≤ addr)) as [Hle|Hgt].
  2: { rewrite bool_decide_true, bool_decide_false by lia. exact Hrefuse. }
  rewrite (bool_decide_false (vm_start x > addr)), (bool_decide_true (v ≠ 0 ∧ vm_start x ≤ addr)) by first [lia | by split]. cbv zeta. fold (fault_allowed (vm_flags x) err).
  destruct (fault_allowed (vm_flags x) err) eqn:Hal; cbn [negb]; [|exact Hrefuse].
  destruct (sv_good _ _ _ _ _ _ _ Hi v Hin) as [G1 G2 G3 G4 G5]. rewrite Hst in G1, G3. rewrite Hfl in G5.
  assert (Haddr : 0 ≤ addr < KERNBASE) by (unfold USERBASE, USERTOP, KERNBASE in *; lia).
  assert (Hu : space (vmas s1) xs (u * PGSIZE) ≠ None).
  { rewrite Hvm. intros Hn. apply (space_none _ _ _ Ha) with (v := v) in Hn; [|done]. apply Hn. rewrite Hst. by apply page_in_area. }
  destruct (serve_fault_ok kmalloc kfree alloc_pages free_pages np get_ref set_ref mem refof Hnp fuel d ext R0 s1 F O mm _ xs e err addr x
    Hi1 Haddr Hu G5 Hal Hhw) as (r & v' & e' & E & Hi' & Hk & Hres). rewrite Hsh in Hk, Hres.
  exists r, (with_svm v' s1), (cached_mm v m), e'. split_and!; try done.
Qed.
End Thms.

(** ** A write to the page of the example, which is mapped read-only *)
#[global] Instance ex_fresh_refs O : FreshRefs ex_alloc_pages (λ a R, ex_fresh a O R) ex_refof.
Proof.
  intros a R n p a' q [H1 H2] Hn E Hq. unfold ex_alloc_pages, zoom in E. simpl in E.
  destruct (buddy_alloc_pages n a.2) as [[r1 a1]| | |] eqn:E1; [|discriminate E..]. injection E as -> <-.
  exact (fresh_ref a.2 R n p a1 q H2 Hn E1 Hq).
Qed.

Lemma do_pgfault_correct_witness : ∃ (s : vmms machine) F O m xs e r s' m' e', ex_space s F O 1 m xs e ∧ e 0x800 = 67 * PGSIZE + 5 ∧
  do_pgfault ex_alloc_pages ex_free_pages 70 ex_get_ref ex_set_ref ex_kmalloc ex_kfree ex_fuel 1 3 0x800123 s = Ret (r, s') ∧
  ex_space s' F O 1 m' xs e' ∧
  (r = - E_NO_MEM ∧ (∀ w, e' w = e w) ∨ r = 0 ∧ ∃ q, page_given ex_refof e e' (svm (sh s)) (svm (sh s')) 0x800 6 q).
Proof.
  destruct ex_space_area as (s & F & O & m & xs & e & Hi & Hlen & He & Hsp).
  destruct (do_pgfault_correct ex_kmalloc ex_kfree ex_alloc_pages ex_free_pages 70 ex_get_ref ex_set_ref ex_fresh
    ex_refof ex_fuel 66 (λ _, 0) [] s F O 1 m xs e 3 0x800123 ex_np (le_n _)) as (r & s' & m' & e' & E & Hi' & _ & _ & _ & Hcase).
  - rewrite Hlen. exact ex_fuel_enough.
  - exact Hi.
  - intros _. change (PPN 0x800123) with 0x800. rewrite He. split; [discriminate|reflexivity].
  - rewrite Hsp in Hcase. exists s, F, O, m, xs, e, r, s', m', e'. split; [exact Hi|]. split; [exact He|]. split; [exact E|]. split; [exact Hi'|].
    exact Hcase.
Defined.
