(* ===== verification/VmmExit.v ===== *)
(** * kern/mm/vmm.c: exit_mmap gives back the pages of an address space *)
From stdpp Require Import base gmap list fin_maps sorting.
From Stdlib Require Import ZArith Lia.
From S2P Require Import Prelude DList Bits Printfmt Mmu RbTree RbProps Buddy BuddySpec Alloc ProcThms PmmRefs PmmFresh Pmm PmmInv PmmProps PmmThms PmmFault.
From S2P Require Import Shmem Vmm VmmInv VmmProps VmmThms VmmUnmap VmmPages VmmFault.

(** ** The walks of exit_mmap

    A walk that changes the page tables only, with an invariant [I] that holds
    of the areas behind. *)
Section Walk.
Context {A : Type}.
Implicit Types (s : vmms A) (v : vmem A).
Lemma exit_vmas_ok (I : list Z → vmem A → Prop) (f : Z → Z → M (vmms A) unit) s F mm m xs : mm_ok s F mm m xs →
  (∀ l1 x l2 va v, xs = l1 ++ x :: l2 → vmas s !! x = Some va → I l1 v →
    ∃ v', f (vm_start va) (vm_end va) (with_svm v s) = Ret ((), with_svm v' s) ∧ I (l1 ++ [x]) v') →
  ∀ n l1 l2 v, xs = l1 ++ l2 → (length l2 < n)%nat → I l1 v →
  ∃ v', exit_vmas n mm f (lastof (MmapList mm) (VmaLink <$> l1)) (with_svm v s) = Ret ((), with_svm v' s) ∧ I xs v'.
Proof.
  intros Hm Hf n. induction n as [|n IH]; intros l1 l2 v E Hn Hi; [lia|]. cbn [exit_vmas].
  pose proof (mo_list _ _ _ _ _ Hm) as HF. rewrite E, fmap_app in HF.
  erewrite bind_Ret; [|by apply on_links_read, (next_at _ F _ _ _ (mo_links _ _ _ _ _ Hm) HF)].
  destruct l2 as [|x l2]; cbn [firstof fmap list_fmap].
  - rewrite bool_decide_true by done. exists v. split; [done|]. by rewrite E, app_nil_r.
  - rewrite bool_decide_false by done. cbn [le2vma].
    destruct (mo_areas _ _ _ _ _ Hm) as [_ Ha]. destruct (Ha x ltac:(rewrite E; set_solver)) as (_ & [va Hva] & _).
    erewrite bind_Ret by (by apply get_vma_run). destruct (Hf l1 x l2 va v E Hva Hi) as (v1 & E1 & Hi1). mrun E1.
    destruct (IH (l1 ++ [x]) l2 v1) as (v' & E' & H'); [by rewrite <-app_assoc|simpl in Hn; lia|done|].
    exists v'. split; [|done]. rewrite <-E'. rewrite fmap_app. cbn [fmap list_fmap]. unfold lastof. by rewrite last_snoc.
Qed.
End Walk.

(** An area of whole pages among the user addresses; it may be shared. *)
Record user_area (vs : gmap Z vma_struct) (x : Z) : Prop := {
  us_low : USERBASE ≤ start_of vs x; us_high : end_of vs x ≤ USERTOP;
  us_start : start_of vs x mod PGSIZE = 0; us_end : end_of vs x mod PGSIZE = 0; us_order : start_of vs x < end_of vs x }.

Lemma good_range vs x : user_area vs x →
  ∃ a b, start_of vs x = a * PGSIZE ∧ end_of vs x = b * PGSIZE ∧ 0 ≤ a < b ∧ b ≤ USERTOP / PGSIZE ∧ USER_ACCESS (a * PGSIZE) (b * PGSIZE) = true.
Proof.
  intros [G1 G2 G3 G4 Hlt]. exists (start_of vs x / PGSIZE), (end_of vs x / PGSIZE).
  assert (E1 : start_of vs x / PGSIZE * PGSIZE = start_of vs x) by (unfold PGSIZE in *; Z.to_euclidean_division_equations; lia).
  assert (E2 : end_of vs x / PGSIZE * PGSIZE = end_of vs x) by (unfold PGSIZE in *; Z.to_euclidean_division_equations; lia).
  rewrite E1, E2. unfold USER_ACCESS. rewrite !bool_decide_true by done. change (USERTOP / PGSIZE) with 0xB0000. unfold PGSIZE, USERBASE, USERTOP in *. split_and!; done || lia.
Qed.

Section Exit.
Context {A : Type} (alloc_pages : Z → M A (option Z)) (free_pages : Z → Z → M A unit) (np : Z).
Context (get_ref : Z → M A Z) (set_ref : Z → Z → M A unit).
Context (held : A → list (Z * Z) → Prop) (refof : A → Z → Z).
Context `{HA : !RefAllocator alloc_pages free_pages get_ref set_ref np held refof} (Hnp : np ≤ KMEMSIZE / PGSIZE).
Context (fuel : nat) (Hfuel : (Z.to_nat (USERTOP / PGSIZE) ≤ fuel)%nat).
Implicit Types (s : vmms A) (v : vmem A).
Abbreviation vm_ok' := (vm_ok np held refof).

(** Areas that a page, or a page table, lies in. *)
Definition page_in (vs : gmap Z vma_struct) (u x : Z) : Prop := start_of vs x ≤ u * PGSIZE < end_of vs x.
Definition table_in (vs : gmap Z vma_struct) (j x : Z) : Prop := start_of vs x / PTSIZE ≤ j ∧ j * PTSIZE < end_of vs x.
#[local] Instance page_in_dec vs u x : Decision (page_in vs u x).
Proof. unfold page_in. apply _. Defined.
#[local] Instance table_in_dec vs j x : Decision (table_in vs j x).
Proof. unfold table_in. apply _. Defined.

(** After the areas [l] have been unmapped. *)
Record unmapped_areas vs v0 d T D ext R0 (l : list Z) v : Prop := {
  ua_kept : ∃ D', vm_ok' v d T D' ext R0 ∧ kept v0 v T ext D D';
  ua_entry : ∀ u, tentry (words v) T u = if decide (Exists (page_in vs u) l) then 0 else tentry (words v0) T u }.

Lemma unmap_area vs v0 d T D ext R0 l x v : unmapped_areas vs v0 d T D ext R0 l v → vm_ok' v0 d T D ext R0 →
  user_area vs x →
  ∃ v', unmap_range alloc_pages free_pages np get_ref set_ref fuel (kva_of d 0) (start_of vs x) (end_of vs x) v = Ret ((), v') ∧
    unmapped_areas vs v0 d T D ext R0 (l ++ [x]) v'.
Proof using All.
  intros [(D1 & Hv1 & Hk1) He1] Hv0 Hg. destruct (good_range vs x Hg) as (a & b & Ea & Eb & Hab & Hb & Hua).
  assert (Hfu : (Z.to_nat (b - a) ≤ fuel)%nat) by lia. change (USERTOP / PGSIZE) with 0xB0000 in Hb.
  destruct (unmap_loop_ok alloc_pages free_pages np get_ref set_ref held refof Hnp fuel v d T D1 ext R0 a b Hv1)
    as (v' & D' & E & Hv' & Hk & _ & He'); [lia|unfold UPN, UPDE; lia|done|].
  assert (Hpx : ∀ u, page_in vs u x ↔ a ≤ u < b) by (intros u; unfold page_in; rewrite Ea, Eb; unfold PGSIZE; lia).
  exists v'. split; [rewrite Ea, Eb; unfold unmap_range; rewrite !Z.mod_mul by done; rewrite Hua; exact E|]. split.
  - exists D'. split; [done|]. apply (kept_trans v0 v v' T ext D D1 D'); [|done|done]. intros q. split.
    + eapply (refs_mono alloc_pages free_pages np get_ref set_ref held refof Hnp v v' d T D1 ext R0 (λ u, a ≤ u < b)); [done|by intros; apply He'].
    + eapply (refs_mono alloc_pages free_pages np get_ref set_ref held refof Hnp v0 v d T D ext R0 (λ u, Exists (page_in vs u) l)); [done|by intros; apply He1].
  - intros u. rewrite He', He1. destruct (decide (a ≤ u < b)) as [Hin|Hout], (decide (Exists (page_in vs u) (l ++ [x]))) as [H1|H1]; try done.
    + exfalso. apply H1. rewrite Exists_app, Exists_cons, Hpx. tauto.
    + rewrite Exists_app, Exists_cons, Exists_nil, Hpx in H1. rewrite decide_True; [done|]. tauto.
    + rewrite Exists_app in H1. rewrite decide_False; [done|]. tauto.
Qed.

(** After the tables of the areas [l] have been given back. *)
Record freed_tables vs d (T : gmap Z Z) D ext R0 (l : list Z) v : Prop := {
  ft_ok : ∃ T', vm_ok' v d T' D ext R0 ∧ (∀ u, 0 ≤ u < UPN → tentry (words v) T' u = 0) ∧
    ∀ j, T' !! j = if decide (Exists (table_in vs j) l) then None else T !! j }.

Lemma free_tables vs d T D ext R0 l x v : freed_tables vs d T D ext R0 l v → user_area vs x →
  ∃ v', exit_range free_pages np fuel (kva_of d 0) (start_of vs x) (end_of vs x) v = Ret ((), v') ∧ freed_tables vs d T D ext R0 (l ++ [x]) v'.
Proof using All.
  intros [(T1 & Hv1 & Hz1 & HT1)] Hg. destruct (good_range vs x Hg) as (a & b & Ea & Eb & Hab & Hb & Hua).
  change (USERTOP / PGSIZE) with 0xB0000 in *. assert (HP : PTSIZE = 4194304) by reflexivity.
  set (i := start_of vs x / PTSIZE). assert (Hi : 0 ≤ i ∧ i * PTSIZE ≤ a * PGSIZE) by (unfold i; rewrite Ea, HP; unfold PGSIZE in *; Z.to_euclidean_division_equations; lia).
  destruct (exit_loop_ok alloc_pages free_pages np get_ref set_ref held refof Hnp fuel v d T1 D ext R0 i (b * PGSIZE) Hv1)
    as (v' & T' & E & Hv' & HT' & _ & _ & He'); [rewrite ?HP in *; unfold PGSIZE, UPDE in *; lia..| |].
  { intros u Hu1 Hu2. apply Hz1. rewrite HP in Hu2. unfold UPN, UPDE, PGSIZE in *. pose proof (Z.div_mod u 1024 ltac:(lia)). pose proof (Z.mod_pos_bound u 1024 ltac:(lia)). lia. }
  exists v'. split.
  - rewrite Eb, Ea. unfold exit_range. rewrite !Z.mod_mul by done. rewrite Hua. rewrite ROUNDDOWN_spec by (unfold is_u32, PGSIZE in *; lia).
    rewrite <-Ea. exact E.
  - split. exists T'. split; [done|]. split; [intros u Hu; rewrite He'; by apply Hz1|]. intros j. rewrite HT', HT1.
    assert (Hpx : table_in vs j x ↔ i ≤ j ∧ j * PTSIZE < b * PGSIZE) by (unfold table_in; by rewrite Eb).
    destruct (decide (i ≤ j ∧ j * PTSIZE < b * PGSIZE)) as [Hin|Hout], (decide (Exists (table_in vs j) (l ++ [x]))) as [H1|H1]; try done.
    + exfalso. apply H1. rewrite Exists_app, Exists_cons, Hpx. tauto.
    + rewrite Exists_app, Exists_cons, Exists_nil, Hpx in H1. rewrite decide_True; [done|]. tauto.
    + rewrite Exists_app in H1. rewrite decide_False; [done|]. tauto.
Qed.
End Exit.

Section Thms.
Context {A : Type} (alloc_pages : Z → M A (option Z)) (free_pages : Z → Z → M A unit) (np : Z).
Context (get_ref : Z → M A Z) (set_ref : Z → Z → M A unit).
Context (held : A → list (Z * Z) → Prop) (refof : A → Z → Z).

(** C12. exit_mmap on an address space whose pages and page tables all lie in
    its areas, private or shared: it ends, changes no structure but the page
    tables (what memory holds besides them is not described), and then no user address is mapped, every page table and every data page
    that nothing else refers to is back at the allocator, and the reference
    counts of the pages that others share are those of the others. *)
Theorem exit_mmap_correct `{!RefAllocator alloc_pages free_pages get_ref set_ref np held refof}
    fuel (s : vmms A) F mm m xs d T D ext R0 :
  np ≤ KMEMSIZE / PGSIZE → (Z.to_nat (USERTOP / PGSIZE) ≤ fuel)%nat → (length xs < fuel)%nat →
  mm_ok s F mm m xs → pgdir m = kva_of d 0 → (∀ x, x ∈ xs → user_area (vmas s) x) →
  vm_ok np held refof (svm (sh s)) d T D ext R0 →
  (∀ u, 0 ≤ u < UPN → tentry (words (svm (sh s))) T u ≠ 0 → ∃ x, x ∈ xs ∧ page_in (vmas s) u x) →
  (∀ j t, T !! j = Some t → ∃ x, x ∈ xs ∧ table_in (vmas s) j x) →
  ∃ v' D', exit_mmap alloc_pages free_pages np get_ref set_ref fuel mm s = Ret ((), with_svm v' s) ∧
    vm_ok np held refof v' d ∅ D' ext R0 ∧
    ∀ p, p ∈ D' ↔ p ∈ D ∧ (ext p = 0 → count (words (svm (sh s))) T p = 0).
Proof.
  intros Hnp Hfuel Hlen Hm Hpg Hus Hv Hpages Htabs. set (v0 := svm (sh s)) in *.
  unfold exit_mmap. rewrite bind_assert by (apply bool_decide_eq_true; apply (mo_nz _ _ _ _ _ Hm)).
  erewrite bind_Ret by (apply get_mm_run, (mo_mm _ _ _ _ _ Hm)). rewrite Hpg.
  assert (Hva : ∀ x va, vmas s !! x = Some va → vm_start va = start_of (vmas s) x ∧ vm_end va = end_of (vmas s) x).
  { intros x va E. unfold start_of, end_of. by rewrite E. }
  destruct (exit_vmas_ok (unmapped_areas np held refof (vmas s) v0 d T D ext R0)
    (λ a b, on_vm (unmap_range alloc_pages free_pages np get_ref set_ref fuel (kva_of d 0) a b)) s F mm m xs Hm) with (n := fuel) (l1 := [] : list Z) (l2 := xs) (v := v0)
    as (v1 & E1 & [(D1 & Hv1 & Hk1) He1]); [|done|done| |].
  { intros l1 x l2 va v E Hx Hi. destruct (Hva x va Hx) as [-> ->].
    destruct (unmap_area alloc_pages free_pages np get_ref set_ref held refof Hnp fuel Hfuel (vmas s) v0 d T D ext R0 l1 x v Hi Hv) as (v' & E' & H'); [apply Hus; rewrite E; set_solver|].
    exists v'. split; [|done]. by apply (on_vm_run _ (with_svm v s)). }
  { split; [|intros u; rewrite decide_False; [done|by intros ?%Exists_nil]]. exists D. split; [done|]. intros q. tauto. }
  assert (Hz : ∀ u, 0 ≤ u < UPN → tentry (words v1) T u = 0).
  { intros u Hu. rewrite He1. case_decide as Hd; [done|]. destruct (decide (tentry (words v0) T u = 0)) as [|Hne]; [done|].
    destruct Hd. apply Exists_exists. by apply Hpages. }
  unfold v0 in E1. rewrite with_svm_same in E1. change (lastof (MmapList mm) (VmaLink <$> [])) with (MmapList mm) in E1. mrun E1.
  destruct (exit_vmas_ok (freed_tables np held refof (vmas s) d T D1 ext R0)
    (λ a b, on_vm (exit_range free_pages np fuel (kva_of d 0) a b)) s F mm m xs Hm) with (n := fuel) (l1 := [] : list Z) (l2 := xs) (v := v1)
    as (v2 & E2 & [(T2 & Hv2 & Hz2 & HT2)]); [|done|done| |].
  { intros l1 x l2 va v E Hx Hi. destruct (Hva x va Hx) as [-> ->].
    destruct (free_tables alloc_pages free_pages np get_ref set_ref held refof Hnp fuel Hfuel (vmas s) d T D1 ext R0 l1 x v Hi) as (v' & E' & H'); [apply Hus; rewrite E; set_solver|].
    exists v'. split; [|done]. by apply (on_vm_run _ (with_svm v s)). }
  { split. exists T. split; [done|]. split; [done|]. intros j. rewrite decide_False; [done|by intros ?%Exists_nil]. }
  assert (T2 = ∅) as ->.
  { apply map_eq. intros j. rewrite HT2, lookup_empty. case_decide as Hd; [done|]. destruct (T !! j) as [t|] eqn:Hj; [|done].
    destruct Hd. apply Exists_exists. by apply (Htabs j t). }
  exists v2, D1. split; [exact E2|]. split; [done|]. intros p. rewrite (Hk1 p). unfold refs.
  assert (Hc : count (words v1) T p = 0).
  { unfold count. destruct (filter (maps (words v1) T p) (seqZ 0 UPN)) as [|u l] eqn:El; [done|]. exfalso.
    assert (Hu : u ∈ filter (maps (words v1) T p) (seqZ 0 UPN)) by (rewrite El; left).
    apply list_elem_of_filter in Hu as [[Hne _] Hr%elem_of_seqZ]. apply Hne, Hz. lia. }
  pose proof (vo_ext _ _ _ _ _ _ _ _ _ Hv p). pose proof (count_nonneg (words v0) T p). rewrite Hc. split; intros [Hp Hr]; (split; [done|]); intros; lia.
Qed.
End Thms.

(** ** At the concrete address space with one mapped page *)
(** The directory of [ex_vm3] has one entry. *)
Lemma ex_vm3_dir i : 0 ≤ i < UPDE → i ≠ 2 → word (words ex_vm3) (66 * 1024 + i) = 0.
Proof.
  intros Hi Hne.
  assert (Hz : forallb (λ '(k, x), Z.eqb x 0 || Z.eqb k (66 * 1024 + 2) || negb (Z.eqb (k / 1024) 66)) (map_to_list (words ex_vm3)) = true)
    by (vm_compute; reflexivity).
  unfold word. destruct (words ex_vm3 !! (66 * 1024 + i)) as [x|] eqn:E; [|done]. simpl.
  rewrite forallb_forall in Hz. apply elem_of_map_to_list, list_elem_of_In, Hz in E.
  assert (Hd : (66 * 1024 + i) / 1024 = 66) by (unfold UPDE in Hi; Z.to_euclidean_division_equations; lia). rewrite Hd in E. lia.
Qed.

Lemma exit_mmap_correct_witness : ∃ (s : vmms machine) (T : gmap Z Z) v' D' O, T !! 2 ≠ None ∧
  exit_mmap ex_alloc_pages ex_free_pages 70 ex_get_ref ex_set_ref ex_fuel 1 s = Ret ((), with_svm v' s) ∧
  vm_ok 70 (λ a R, ex_fresh a O R) ex_refof v' 66 ∅ D' (λ _, 0) [] ∧ 67 ∉ D'.
Proof.
  destruct ex_space_full as (s & F & O & m & xs & e & Hi & Hlen & Hsp & He & Hw).
  pose proof Hi as [[Hinv Hpg] Hg _ _]. pose proof (vi_live _ _ _ _ _ _ _ Hinv) as (T & D & Hv & Het & Hx).
  assert (Hsv : over palloc_lens (al s) (svm (sh s)) = svm (sh s)) by (unfold al; by destruct (svm (sh s))).
  rewrite Hsv in Hv, Het. pose proof (vi_areas _ _ _ _ _ _ _ Hinv) as Ha.
  destruct xs as [|w [|]]; [discriminate Hlen| |discriminate Hlen].
  destruct (single_area (vmas s) w 0x700000 0x900000 3 Ha ltac:(lia) Hsp) as (W1 & W2 & _).
  assert (Ht : ∀ u, tentry (words (svm (sh s))) T u = if decide (u = 0x800) then 67 * PGSIZE + 5 else 0) by (intros u; by rewrite <-Het, He).
  assert (HT : T !! 2 ≠ None).
  { intros E. pose proof (Ht 0x800) as H8. unfold tentry in H8. change (0x800 / 1024) with 2 in H8. rewrite E in H8. discriminate H8. }
  destruct (exit_mmap_correct ex_alloc_pages ex_free_pages 70 ex_get_ref ex_set_ref (λ a R, ex_fresh a O R) ex_refof ex_fuel s F 1 m [w] 66 T D (λ _, 0) [])
    as (v' & D' & E & Hv' & HD').
  - exact ex_np.
  - apply le_n.
  - change (USERTOP / PGSIZE) with 0xB0000. simpl length. lia.
  - exact (vi_ok _ _ _ _ _ _ _ Hinv).
  - exact Hpg.
  - intros x Hx1. apply list_elem_of_singleton in Hx1. subst x. destruct (Hg w ltac:(by left)) as [G1 G2 G3 G4 _]. split; try assumption. rewrite W1, W2. lia.
  - exact Hv.
  - intros u Hu Hne. exists w. split; [by left|]. rewrite Ht in Hne. destruct (decide (u = 0x800)) as [->|]; [|by destruct Hne].
    unfold page_in. rewrite W1, W2. unfold PGSIZE. lia.
  - intros j t Hj. exists w. split; [by left|]. assert (Hj2 : j = 2).
    { destruct (decide (j = 2)) as [|Hne]; [done|]. exfalso. pose proof (vo_pgd _ _ _ _ _ _ _ _ _ Hv) as Hpd.
      destruct (pd_range _ _ _ _ Hpd j t Hj) as [Hr _]. pose proof (pd_pde _ _ _ _ Hpd j Hr) as Hp. cbv zeta in Hp. rewrite Hj, Hw in Hp.
      rewrite (ex_vm3_dir j Hr Hne) in Hp. destruct Hp as [Hp _]. discriminate Hp. }
    subst j. unfold table_in. rewrite W1, W2. split; vm_compute; [discriminate|reflexivity].
  - exists s, T, v', D', O. split; [exact HT|]. split; [exact E|]. split; [exact Hv'|]. intros H67. apply HD' in H67 as [_ Hc].
    specialize (Hc eq_refl). revert Hc. unfold count.
    assert (H8 : 0x800 ∈ filter (maps (words (svm (sh s))) T 67) (seqZ 0 UPN)).
    { apply list_elem_of_filter. split; [|apply elem_of_seqZ; unfold UPN, UPDE; lia]. unfold maps. rewrite Ht, decide_True by done. split; [discriminate|reflexivity]. }
    destruct (filter _ _) as [|u l]; [by apply elem_of_nil in H8|]. simpl length. lia.
Defined.
