(* ===== verification/VmmDup.v ===== *)
(** * kern/mm/vmm.c: dup_mmap copies an address space of private areas *)
From stdpp Require Import base gmap list fin_maps sorting.
From Stdlib Require Import ZArith Lia.
From S2P Require Import Prelude DList Bits Printfmt Mmu RbTree RbRepr RbQuery RbFrame RbProps Buddy BuddySpec Alloc ProcThms PmmRefs PmmFresh Pmm PmmInv PmmProps PmmThms PmmFault PmmCopy.
From S2P Require Import Shmem Vmm VmmInv VmmProps VmmThms VmmUnmap VmmPages VmmFault VmmExit.

(** ** A descriptor while another one changes *)
Section Other.
Context {A : Type}.
Implicit Types (s : vmms A) (live : A → gset Z → Prop).
Lemma inv_other live live' s s' F F' O O' mm m xs :
  vm_inv live s F O mm m xs → mms s' !! mm = mms s !! mm → dlists (vlinks s') F' → F' !! MmapList mm = F !! MmapList mm →
  (mmap_tree m ≠ 0 → rbtrees s' !! mmap_tree m = rbtrees s !! mmap_tree m) →
  (∀ v, v ∈ xs → vmas s' !! v = vmas s !! v) →
  (∀ q, q ∈ xs ∨ q ∈ tree_nodes s m → rbnodes s' !! q = rbnodes s !! q) →
  live' (al s') O' → O ⊆ O' → (∀ w hd, owns F' (VmaLink w) hd → w ∈ O') →
  vm_inv live' s' F' O' mm m xs.
Proof.
  intros [[M1 M2 M3 M4 M5 M6 M7 M8 M9] [O1 O2] H3 H4] Hmm Hdl HF Hrt Hvm Hrb Hl HO Hown.
  assert (Hst : ∀ w, w ∈ xs → start_of (vmas s') w = start_of (vmas s) w ∧ end_of (vmas s') w = end_of (vmas s) w).
  { intros w Hw. unfold start_of, end_of. by rewrite Hvm. }
  assert (Htn : ∀ n r, mmap_tree m ≠ 0 → rbtrees s !! mmap_tree m = Some (n, r) → tree_nodes s m = [n; r]).
  { intros n r H0 Hlk. unfold tree_nodes. by rewrite bool_decide_false, Hlk. }
  split; [split| |done|done].
  - by rewrite Hmm.
  - done.
  - done.
  - by rewrite HF.
  - eapply areas_ext; [|exact M5]. intros w Hw Hs. rewrite Hvm by done. by destruct (Hst w Hw).
  - intros w Hw. unfold mm_of. rewrite Hvm by done. by apply M6.
  - done.
  - done.
  - destruct (decide (mmap_tree m = 0)) as [H0|H0]; [by left|].
    destruct M9 as [?|(n & r & Et & Hrep)]; [by left|right]. exists n, r. rewrite Hrt by done. split; [done|].
    eapply (represents_key _ (start_of (vmas s))); [by intros w Hw; apply Hst|].
    destruct Hrep as (t & Hr & Hval & Hin & Hs). exists t. split_and!; try done. eapply rep_agree; [exact Hr|].
    intros q Hq. apply Hrb. rewrite (Htn n r H0 Et). unfold aids in Hq. simpl in Hq.
    rewrite <-(inorder_ids t), Hin in Hq. rewrite !elem_of_cons in Hq |- *. tauto.
  - split.
    + intros v Hv. destruct (O1 v Hv) as [HvO Hn]. split; [by apply HO|rewrite Hrb by (by left); done].
    + intros H0 n r Hlk. rewrite Hrt in Hlk by done. destruct (O2 H0 n r Hlk) as [Hn Hr]. split; by apply HO.
Qed.
Lemma space_cons vs0 x l a : areas vs0 (x :: l) →
  space vs0 (x :: l) a = set_in (start_of vs0 x) (end_of vs0 x) (flags_of vs0 x) (space vs0 l) a.
Proof.
  intros Ha. pose proof Ha as (Hl & _ & _ & Hlt & Hx)%areas_cons. unfold set_in. case_bool_decide as Hb.
  - apply space_some; [done|]. exists x. split; [by left|]. split; [lia|done].
  - apply space_ext; [done|done|]. intros f. split; intros (w & Hw & Hr & Hf); exists w.
    + split; [by right|done].
    + apply elem_of_cons in Hw as [->|Hw]; [lia|done].
Qed.

(** An area of the copy is where an area behind was. *)
Lemma next_fits vs0 s ys x l2 : areas vs0 (x :: l2) → areas (vmas s) ys → (∀ a, space (vmas s) ys a = space vs0 l2 a) →
  fits (vmas s) ys (start_of vs0 x) (end_of vs0 x).
Proof.
  intros Ha Hy Hsp y Hin. destruct (decide (end_of (vmas s) y ≤ start_of vs0 x)) as [|H1]; [by left|].
  destruct (decide (end_of vs0 x ≤ start_of (vmas s) y)) as [|H2]; [by right|]. exfalso.
  pose proof Ha as (Hl & _ & _ & Hlt & Hx)%areas_cons. destruct Hy as [Hs Hall]. destruct (Hall y Hin) as (_ & _ & Hylt).
  set (a := Z.max (start_of (vmas s) y) (start_of vs0 x)).
  assert (Hsome : space (vmas s) ys a = Some (flags_of (vmas s) y)).
  { apply space_some; [done|]. exists y. split_and!; [done|unfold a; lia..|done]. }
  rewrite Hsp in Hsome. apply space_some in Hsome as (w & Hw & Hr & _); [|done]. specialize (Hx w Hw). unfold a in Hr. lia.
Qed.
End Other.

(** ** Two address spaces on one memory with objects *)
Section Dup.
Context {A : Type} (kmalloc : Z → M A Z) (kfree : Z → M A unit).
Context (alloc_pages : Z → M A (option Z)) (free_pages : Z → Z → M A unit) (np : Z).
Context (get_ref : Z → M A Z) (set_ref : Z → Z → M A unit).
Context (mem : A → gset Z → list (Z * Z) → Prop) (refof : A → Z → Z).
Context `{HK : !KernelRefs kmalloc kfree alloc_pages free_pages get_ref set_ref np mem refof} (Hnp : np ≤ KMEMSIZE / PGSIZE).
Context (d d' : Z) (T : gmap Z Z) (D : list Z) (ext : Z → Z) (R : list (Z * Z)).
Implicit Types (s : vmms A) (v : vmem A) (F : gmap vlink (list vlink)).

Abbreviation two O v T' := (two_ok np (λ a R, mem a O R) refof v d T d' T' D ext R).
Definition tlive (v : vmem A) (T' : gmap Z Z) : A → gset Z → Prop := λ a O, two O (over palloc_lens a v) T'.

(** The tables do not depend on the objects. *)
Lemma vm_ok_objects v a a' O O' d1 T1 D1 ext1 R1 :
  vm_ok np (λ a R, mem a O R) refof (over palloc_lens a v) d1 T1 D1 ext1 R1 → mem a' O' (singles (d1 :: frames T1 ++ D1) ++ R1) →
  (∀ q, q ∈ D1 → refof a' q = refof a q) → vm_ok np (λ a R, mem a O' R) refof (over palloc_lens a' v) d1 T1 D1 ext1 R1.
Proof using. intros [V1 V2 V3 V4 V5 V6] Hm Hr. split; try done. intros p Hp. simpl. rewrite Hr by done. by apply V4. Qed.
#[local] Instance two_alloc v T' : ObjectAllocator kmalloc kfree (tlive v T').
Proof using HK.
  split.
  - intros a O n Ht Hn. pose proof Ht as [H1 H2 _]. pose proof (vo_held _ _ _ _ _ _ _ _ _ H1) as M1. simpl in M1.
    pose proof (vo_held _ _ _ _ _ _ _ _ _ H2) as M2. simpl in M2.
    destruct (kr_kmalloc a O _ n M1 Hn) as (p & a' & E & Hp & Hr). exists p, a'. split; [done|].
    destruct (kr_kmalloc a O _ n M2 Hn) as (p2 & a2 & E2 & Hp2 & Hr2). assert (p2 = p ∧ a2 = a') as [-> ->] by (split; congruence).
    assert (Hd : ∀ q, q ∈ D → refof a' q = refof a q) by (intros q Hq; apply Hr; by apply data_in_hand).
    destruct Ht as [_ _ Hx].
    destruct Hp as [[-> Hp]|(Hp0 & HpO & Hp)], Hp2 as [[Hq0 Hp2]|(Hq0 & _ & Hp2)]; try done; [left|right]; (split_and!; try done);
      (split; [by eapply vm_ok_objects|by eapply vm_ok_objects|done]).
  - intros a O p Ht HpO. pose proof Ht as [H1 H2 Hx]. pose proof (vo_held _ _ _ _ _ _ _ _ _ H1) as M1. simpl in M1.
    pose proof (vo_held _ _ _ _ _ _ _ _ _ H2) as M2. simpl in M2.
    destruct (kr_kfree a O _ p M1 HpO) as (a' & E & Hp & Hr). exists a'. split; [done|].
    destruct (kr_kfree a O _ p M2 HpO) as (a2 & E2 & Hp2 & _). assert (a2 = a') as -> by congruence.
    assert (Hd : ∀ q, q ∈ D → refof a' q = refof a q) by (intros q Hq; apply Hr; by apply data_in_hand).
    split; [by eapply vm_ok_objects|by eapply vm_ok_objects|done].
Qed.

(** ** The loop of dup_mmap *)
Context (fuel : nat) (Hfuel : (Z.to_nat (USERTOP / PGSIZE) ≤ fuel)%nat).
Context (to from : Z) (Hne : to ≠ from) (mf : mm_struct) (xs : list Z) (Hpf : pgdir mf = kva_of d 0).
Context (vs0 : gmap Z vma_struct) (v0 : vmem A) (Hgood : ∀ x, x ∈ xs → good_area vs0 x) (Henough : enough fuel (length xs)).

(** The areas [l2] are copied, and the pages of the addresses in [P]. *)
Record dup_inv s F O mt ys T' (l2 : list Z) (P : Z → Prop) : Prop := {
  di_from : vm_inv (tlive (svm (sh s)) T') s F O from mf xs;
  di_to : vm_inv (tlive (svm (sh s)) T') s F O to mt ys;
  di_pgdir : pgdir mt = kva_of d' 0;
  di_len : length ys = length l2;
  di_space : ∀ a, space (vmas s) ys a = space vs0 l2 a;
  di_vmas : ∀ x, x ∈ xs → vmas s !! x = vs0 !! x;
  di_apart : ∀ q, q ∈ xs ∨ q ∈ tree_nodes s mf → q ∉ ys ∧ q ∉ tree_nodes s mt;
  di_tree : mmap_tree mf ≠ 0 → mmap_tree mf ∈ O;
  di_data : data_kept D v0 (svm (sh s));
  di_entry : ∀ u, let e := tentry (words v0) T u in let e1 := tentry (words (svm (sh s))) T u in
    let e2 := tentry (words (svm (sh s))) T' u in
    (P u → e1 = parent_pte false e ∧ e2 = child_pte false e) ∧ (¬ P u → e1 = e ∧ e2 = 0) }.
Definition within (l : list Z) (u : Z) : Prop := Exists (page_in vs0 u) l.
#[local] Instance within_dec l u : Decision (within l u).
Proof using. unfold within, page_in. apply _. Defined.

Lemma over_palloc v : over palloc_lens (palloc v) v = v.
Proof using. by destruct v. Qed.
(** A new state of the page tables. *)
Lemma dup_inv_tables s F O mm m ys T1 T2 v : vm_inv (tlive (svm (sh s)) T1) s F O mm m ys → two O v T2 →
  vm_inv (tlive v T2) (with_svm v s) F O mm m ys.
Proof using.
  intros Hi Ht. pose proof (vi_owned _ _ _ _ _ _ _ Hi) as Ho. eapply inv_other; [exact Hi|done|apply (mo_links _ _ _ _ _ (vi_ok _ _ _ _ _ _ _ Hi))|done..| |done|done].
  unfold tlive, al. change (svm (sh (with_svm v s))) with v. by rewrite over_palloc.
Qed.

(** A turn of the loop with the rest of it. *)
Definition dup_turn (x : Z) (k : M (vmms A) Z) : M (vmms A) Z :=
  v ← get_vma x;
  nvma ← vma_create kmalloc (vm_start v) (vm_end v) (vm_flags v);
  if bool_decide (nvma = 0) then mret (- E_NO_MEM)
  else
    let share := bool_decide (Z.land (vm_flags v) VM_SHARE ≠ 0) in
    (if share then
       set_vma nvma (set_vm_shmem (vm_shmem v) (shmem_off v));; on_sh (shmem_ref_inc (vm_shmem v));; skip
     else skip);;
    insert_vma_struct kmalloc kfree fuel to nvma;;
    t ← get_mm to; f ← get_mm from;
    r ← on_vm (copy_range alloc_pages free_pages np get_ref set_ref fuel (pgdir t) (pgdir f) (vm_start v) (vm_end v) share);
    if bool_decide (r ≠ 0) then mret (- E_NO_MEM) else k.
Definition dup_end s' : Prop :=
  ∃ F O mt ys T' l1 l2 P, xs = l1 ++ l2 ∧ dup_inv s' F O mt ys T' l2 P ∧ (∀ u, P u → within xs u) ∧ ∀ u, P u ∨ ¬ P u.

Lemma enough_at n : (n ≤ length xs)%nat → enough fuel n.
Proof using Henough.
  clear Hfuel. intros Hn. destruct Henough as (H1 & H2 & H3). pose proof (rb_fuel_mono (S n) (S (length xs)) ltac:(lia)). split_and!; lia.
Qed.
(** The page tables after an insertion: only the allocator has moved. *)
Lemma svm_kept s s1 s2 a : sh s1 = sh (with_al a s) → sh s2 = sh (with_al (al s2) s1) →
  svm (sh s2) = over palloc_lens (al s2) (svm (sh s)).
Proof using. intros H1 H2. rewrite H2 at 1. unfold with_al at 1. cbn [sh over sh_lens svm svm_lens]. rewrite H1. done. Qed.

(** *** The new area *)
Lemma dup_area s F O mt ys T' l1 x l2 P a w vx : dup_inv s F O mt ys T' l2 P → xs = l1 ++ x :: l2 → vmas s !! x = Some vx →
  w ≠ 0 → w ∉ O → tlive (svm (sh s)) T' a ({[w]} ∪ O) →
  ∃ s2 F2 O2 mt2 ys2, insert_vma_struct kmalloc kfree fuel to w (created_vma s a w (MkVma 0 (vm_start vx) (vm_end vx) (vm_flags vx) 0 0)) = Ret ((), s2) ∧
    dup_inv s2 F2 O2 mt2 ys2 T' (x :: l2) P ∧ words (svm (sh s2)) = words (svm (sh s)).
Proof using All.
  intros [I1 I2 I3 I4 I5 I6 I7 I8 I9 I10] Exs Hx Hw0 HwO Hl.
  set (nx := MkVma 0 (vm_start vx) (vm_end vx) (vm_flags vx) 0 0). set (s1 := created_vma s a w nx).
  pose proof (vi_areas _ _ _ _ _ _ _ I1) as Ha. pose proof (vi_areas _ _ _ _ _ _ _ I2) as Hay.
  assert (Hxin : x ∈ xs) by (rewrite Exs; set_solver +).
  assert (Hx0 : vs0 !! x = Some vx) by (by rewrite <-I6).
  assert (Hvx : start_of vs0 x = vm_start vx ∧ end_of vs0 x = vm_end vx ∧ flags_of vs0 x = vm_flags vx) by (unfold start_of, end_of, flags_of; by rewrite Hx0).
  destruct Hvx as (V1 & V2 & V3).
  assert (Ha0 : areas vs0 (x :: l2)).
  { assert (Ha' : areas vs0 xs) by (eapply areas_ext; [|exact Ha]; intros z Hz Hs; unfold start_of, end_of; rewrite <-I6 by done; done).
    rewrite Exs in Ha'. by apply areas_app in Ha' as (_ & Ha' & _). }
  pose proof Ha0 as (_ & _ & _ & Hlt & _)%areas_cons. rewrite V1, V2 in Hlt.
  pose proof (next_fits vs0 s ys x l2 Ha0 Hay I5) as Hfit. rewrite V1, V2 in Hfit.
  destruct (fresh_ok kmalloc kfree _ fuel s F O from mf xs a w nx I1 HwO Hw0 Hl) as (J1 & _ & Hsx).
  destruct (fresh_ok kmalloc kfree _ fuel s F O to mt ys a w nx I2 HwO Hw0 Hl) as (J2 & Hrd & Hsy). specialize (Hrd Hlt Hfit). fold s1 in J1, J2, Hrd, Hsx, Hsy.
  destruct (inv_insert kmalloc kfree _ fuel s1 F _ to mt ys w nx J2 Hrd ltac:(set_solver +)) as
    (s2 & F2 & O2 & mt2 & ys2 & E2 & K2 & Hin2 & Hlen2 & Hvm2 & Hsp2 & Hpg2 & [Hoth2 Hsh2] & HO2 & HF2 & _ & _ & _ & Htn2 & Hap2 & Htr2).
  { apply enough_at. rewrite I4, Exs, length_app. simpl. lia. }
  assert (HxO : ∀ q, q ∈ xs ∨ q ∈ tree_nodes s mf → q ∈ O).
  { intros q [Hq|Hq]; [by apply (ob_vma _ _ _ _ (vi_objs _ _ _ _ _ _ _ I1))|]. unfold tree_nodes in Hq. case_bool_decide as H0; [by apply elem_of_nil in Hq|].
    destruct (rbtrees s !! mmap_tree mf) as [[n r]|] eqn:Et; [|by apply elem_of_nil in Hq].
    destruct (ob_tree _ _ _ _ (vi_objs _ _ _ _ _ _ _ I1) H0 n r Et). rewrite !elem_of_cons, elem_of_nil in Hq. destruct Hq as [->|[->|[]]]; done. }
  assert (Hwx : ∀ q, q ∈ xs ∨ q ∈ tree_nodes s mf → q ≠ w) by (intros q Hq ->; by apply HwO, HxO).
  assert (Htf : mmap_tree mf ≠ 0 → rbtrees s2 !! mmap_tree mf = rbtrees s !! mmap_tree mf).
  { intros H0. apply Htr2. specialize (I8 H0). set_solver +I8. }
  assert (Hsvm : svm (sh s2) = over palloc_lens (al s2) (svm (sh s))) by (by apply (svm_kept s s1 s2 a)).
  assert (Hv2 : ∀ z, z ∈ xs → vmas s2 !! z = vmas s !! z).
  { intros z Hz. rewrite Hvm2, lookup_insert_ne by (apply not_eq_sym, Hwx; by left). by apply Hsx. }
  exists s2, F2, O2, mt2, ys2. split; [exact E2|]. rewrite Hsvm. split; [|done]. split.
  - rewrite Hsvm. eapply inv_other; [exact J1|by apply Hoth2, not_eq_sym|apply (mo_links _ _ _ _ _ (vi_ok _ _ _ _ _ _ _ K2))| | | | | |exact HO2|exact (vi_owned _ _ _ _ _ _ _ K2)].
    + rewrite HF2, lookup_insert_ne; [done|]. by intros [= E].
    + exact Htf.
    + intros z Hz. rewrite Hvm2, lookup_insert_ne; [done|]. apply not_eq_sym, Hwx. by left.
    + intros q Hq. apply Hap2; [apply HxO in Hq; set_solver +Hq| |by apply I7]. rewrite not_elem_of_cons. split; [by apply Hwx|by apply I7].
    + exact (vi_live _ _ _ _ _ _ _ K2).
  - rewrite Hsvm. exact K2.
  - by rewrite Hpg2.
  - rewrite Hlen2, I4. done.
  - intros c. rewrite Hsp2, space_cons by done. rewrite V1, V2, V3. unfold set_in. cbn [vm_start vm_end vm_flags nx]. case_bool_decide; [done|].
    rewrite <-I5. by apply space_same.
  - intros z Hz. rewrite Hv2 by done. by apply I6.
  - intros q Hq. assert (Hq' : q ∈ xs ∨ q ∈ tree_nodes s mf).
    { destruct Hq as [?|Hq]; [by left|right]. unfold tree_nodes in *. case_bool_decide as H0; [done|]. by rewrite Htf in Hq. }
    split; [rewrite Hin2; intros [?|?]; [by apply (Hwx q)|by destruct (I7 q Hq')]|]. apply Htn2; [specialize (HxO q Hq'); set_solver +HxO|]. by apply I7.
  - intros H0. specialize (I8 H0). set_solver +I8 HO2.
  - rewrite Hsvm. exact I9.
  - rewrite Hsvm. exact I10.
Qed.

(** *** Its pages *)
Lemma dup_pages s F O mt ys T' l1 x l2 vx : dup_inv s F O mt ys T' (x :: l2) (within l2) → xs = l1 ++ x :: l2 → vmas s !! x = Some vx →
  ∃ r s' T2 P, on_vm (copy_range alloc_pages free_pages np get_ref set_ref fuel (kva_of d' 0) (kva_of d 0) (vm_start vx) (vm_end vx) false) s = Ret (r, s') ∧
    dup_inv s' F O mt ys T2 (x :: l2) P ∧
    (r = 0 ∧ (∀ u, P u ↔ within (x :: l2) u) ∨ r = - E_NO_MEM ∧ (∀ u, P u → within xs u) ∧ ∀ u, P u ∨ ¬ P u).
Proof using All.
  intros [I1 I2 I3 I4 I5 I6 I7 I8 I9 I10] Exs Hx. assert (Hxin : x ∈ xs) by (rewrite Exs; set_solver +).
  assert (Hx0 : vs0 !! x = Some vx) by (by rewrite <-I6).
  assert (Hvx : start_of vs0 x = vm_start vx ∧ end_of vs0 x = vm_end vx) by (unfold start_of, end_of; by rewrite Hx0).
  destruct Hvx as [V1 V2]. pose proof (vi_areas _ _ _ _ _ _ _ I1) as Ha.
  assert (Ha0 : areas vs0 (x :: l2)).
  { assert (Ha' : areas vs0 xs) by (eapply areas_ext; [|exact Ha]; intros z Hz Hs; unfold start_of, end_of; rewrite <-I6 by done; done).
    rewrite Exs in Ha'. by apply areas_app in Ha' as (_ & Ha' & _). }
  pose proof Ha0 as (_ & _ & _ & Hlt & Hafter)%areas_cons.
  assert (Hus : user_area vs0 x) by (destruct (Hgood x Hxin); by split).
  destruct (good_range vs0 x Hus) as (a & b & Ea & Eb & Hab & Hb & Hua).
  assert (Hpx : ∀ u, page_in vs0 u x ↔ a ≤ u < b) by (intros u; unfold page_in; rewrite Ea, Eb; unfold PGSIZE; lia).
  assert (Hno : ∀ u, a ≤ u < b → ¬ within l2 u).
  { intros u Hu (z & Hz & Hp)%Exists_exists. specialize (Hafter z Hz). unfold page_in in Hp. rewrite Eb in Hafter. unfold PGSIZE in *. lia. }
  pose proof (vi_live _ _ _ _ _ _ _ I1) as Ht. unfold tlive, al in Ht. rewrite over_palloc in Ht.
  assert (Hfu : (Z.to_nat (b - a) ≤ fuel)%nat) by lia. change (USERTOP / PGSIZE) with 0xB0000 in Hb.
  pose proof (kr_pages O) as HRA. simpl in HRA.
  destruct (copy_loop_ok alloc_pages free_pages np get_ref set_ref (λ a R, mem a O R) refof Hnp fuel (svm (sh s)) d T d' T' D ext R a b false Ht)
    as (r & v3 & T2 & m & E & Ht3 & Hd3 & Hc & Hm & Hres); [lia|unfold UPN, UPDE; lia|done|intros u Hu; apply (I10 u), Hno, Hu|].
  exists r, (with_svm v3 s), T2, (λ u, within l2 u ∨ a ≤ u < m). split; [|split].
  - apply on_vm_run. rewrite <-V1, <-V2, Ea, Eb. unfold copy_range. rewrite !Z.mod_mul by done. rewrite Hua. exact E.
  - split; try done; [by eapply dup_inv_tables|by eapply dup_inv_tables|by eapply data_kept_trans|].
    intros u e e1 e2. destruct (Hc u) as [Hc1 Hc2]. destruct (I10 u) as [Hp Hn]. fold e in Hp, Hn. unfold e1, e2. change (svm (sh (with_svm v3 s))) with v3. rewrite Hc1, Hc2.
    destruct (decide (a ≤ u < m)) as [Hu|Hu].
    + destruct (Hn (Hno u ltac:(lia))) as [-> _]. split; [done|tauto].
    + split; [intros [Hw|?]; [by apply Hp|done]|intros Hw; apply Hn; tauto].
  - destruct Hres as [[-> ->]|[-> Hmb]]; [left|right]; (split; [done|]).
    + intros u. unfold within. rewrite Exists_cons, Hpx. tauto.
    + split; [|intros u; destruct (decide (within l2 u)), (decide (a ≤ u < m)); tauto].
      intros u Hu. unfold within. rewrite Exs, Exists_app, Exists_cons, Hpx. unfold within in Hu. destruct Hu; [tauto|]. right. left. lia.
Qed.

Lemma dup_turn_ok s F O mt ys T' l1 x l2 : dup_inv s F O mt ys T' l2 (within l2) → xs = l1 ++ x :: l2 →
  (∃ s' F' O' mt' ys' T2, (∀ k, dup_turn x k s = k s') ∧ dup_inv s' F' O' mt' ys' T2 (x :: l2) (within (x :: l2))) ∨
  (∃ s', (∀ k, dup_turn x k s = Ret (- E_NO_MEM, s')) ∧ dup_end s').
Proof using All.
  intros Hi Exs. pose proof Hi as [I1 I2 I3 I4 I5 I6 I7 I8 I9 I10]. assert (Hxin : x ∈ xs) by (rewrite Exs; set_solver +).
  destruct (proj2 (vi_areas _ _ _ _ _ _ _ I1) x Hxin) as (_ & [vx Hx] & _).
  assert (Hfl : Z.land (vm_flags vx) VM_SHARE = 0).
  { destruct (Hgood x Hxin) as [_ _ _ _ G]. unfold flags_of in G. by rewrite <-I6, Hx in G. }
  assert (Hsub : ∀ u, within l2 u → within xs u) by (intros u Hu; unfold within in *; rewrite Exs, Exists_app, Exists_cons; tauto).
  destruct (vma_create_ok kmalloc kfree _ fuel s F O to mt ys (vm_start vx) (vm_end vx) (vm_flags vx) I2) as (w & a & Hl & HwO & Ec).
  destruct (decide (w = 0)) as [->|Hw0].
  - right. rewrite bool_decide_true in Hl by done. exists (with_al a s). split.
    + intros k. unfold dup_turn. rewrite (bind_Ret _ _ _ _ _ (get_vma_run _ _ _ Hx)), (bind_Ret _ _ _ _ _ Ec). by rewrite bool_decide_true.
    + exists F, O, mt, ys, T', (l1 ++ [x]), l2, (within l2). split; [by rewrite <-app_assoc|]. split; [|split; [done|intros u; destruct (decide (within l2 u)); tauto]].
      split; try done; by apply inv_with_al.
  - rewrite bool_decide_false in Hl, Ec by done.
    destruct (dup_area s F O mt ys T' l1 x l2 (within l2) a w vx Hi Exs Hx Hw0 (HwO Hw0) Hl) as (s2 & F2 & O2 & mt2 & ys2 & E2 & Hi2 & _).
    pose proof Hi2 as [J1 J2 J3 _ _ J6 _ _ _ _]. assert (Hx2 : vmas s2 !! x = Some vx) by (by rewrite J6, <-I6).
    destruct (dup_pages s2 F2 O2 mt2 ys2 T' l1 x l2 vx Hi2 Exs Hx2) as (r & s3 & T2 & P & E3 & Hi3 & Hres).
    assert (Hrun : ∀ k, dup_turn x k s = (if bool_decide (r ≠ 0) then mret (- E_NO_MEM) else k) s3).
    { intros k. unfold dup_turn. rewrite (bind_Ret _ _ _ _ _ (get_vma_run _ _ _ Hx)), (bind_Ret _ _ _ _ _ Ec). rewrite bool_decide_false by done.
      rewrite (bool_decide_false (Z.land _ _ ≠ 0)) by tauto. cbv zeta. rewrite bind_skip, (bind_Ret _ _ _ _ _ E2).
      rewrite (bind_Ret _ _ _ _ _ (get_mm_run _ _ _ (mo_mm _ _ _ _ _ (vi_ok _ _ _ _ _ _ _ J2)))).
      rewrite (bind_Ret _ _ _ _ _ (get_mm_run _ _ _ (mo_mm _ _ _ _ _ (vi_ok _ _ _ _ _ _ _ J1)))). rewrite J3, Hpf, (bind_Ret _ _ _ _ _ E3). done. }
    destruct Hres as [[-> HP]|(-> & HP & Hdec)].
    + left. exists s3, F2, O2, mt2, ys2, T2. split; [done|]. destruct Hi3 as [K1 K2 K3 K4 K5 K6 K7 K8 K9 K10]. split; try done.
      intros u e e1 e2. destruct (K10 u) as [Hp Hn]. split; intros Hu; [apply Hp; by apply HP|apply Hn; by rewrite HP].
    + right. exists s3. split; [done|]. by exists F2, O2, mt2, ys2, T2, l1, (x :: l2), P.
Qed.

Lemma dup_loop_ok n s F O mt ys T' l1 l2 : dup_inv s F O mt ys T' l2 (within l2) → xs = l1 ++ l2 → (length l1 < n)%nat →
  ∃ r s', dup_loop alloc_pages free_pages np get_ref set_ref kmalloc kfree fuel n to from (firstof (VmaLink <$> l2) (MmapList from)) s = Ret (r, s') ∧
    (r = 0 ∧ (∃ F' O' mt' ys' T2, dup_inv s' F' O' mt' ys' T2 xs (within xs)) ∨ r = - E_NO_MEM ∧ dup_end s').
Proof using All.
  revert s F O mt ys T' l1 l2. induction n as [|n IH]; intros s F O mt ys T' l1 l2 Hi Exs Hn; [lia|]. cbn [dup_loop].
  pose proof (mo_list _ _ _ _ _ (vi_ok _ _ _ _ _ _ _ (di_from _ _ _ _ _ _ _ _ Hi))) as HF. rewrite Exs, fmap_app in HF.
  erewrite bind_Ret; [|by apply on_links_read, (prev_at _ F _ _ _ (mo_links _ _ _ _ _ (vi_ok _ _ _ _ _ _ _ (di_from _ _ _ _ _ _ _ _ Hi))) HF)].
  destruct l1 as [|x l1 _] using rev_ind.
  - rewrite bool_decide_true by done. exists 0, s. split; [done|]. left. split; [done|]. rewrite Exs. by eexists _, _, _, _, _.
  - rewrite <-app_assoc in Exs. rewrite length_app in Hn. simpl in Hn. rewrite lastof_fmap, bool_decide_false by done. cbn [le2vma].
    destruct (dup_turn_ok s F O mt ys T' l1 x l2 Hi Exs) as [(s1 & F1 & O1 & mt1 & ys1 & T1 & E & Hi1)|(s1 & E & He)].
    + destruct (IH s1 F1 O1 mt1 ys1 T1 l1 (x :: l2) Hi1 Exs ltac:(lia)) as (r & s' & E' & Hr). exists r, s'. split; [|done].
      rewrite <-E'. apply (E (dup_loop alloc_pages free_pages np get_ref set_ref kmalloc kfree fuel n to from (VmaLink x))).
    + exists (- E_NO_MEM), s1. split; [apply (E (dup_loop alloc_pages free_pages np get_ref set_ref kmalloc kfree fuel n to from (VmaLink x)))|by right].
Qed.
End Dup.

Section Thms.
Context {A : Type} (kmalloc : Z → M A Z) (kfree : Z → M A unit).
Context (alloc_pages : Z → M A (option Z)) (free_pages : Z → Z → M A unit) (np : Z).
Context (get_ref : Z → M A Z) (set_ref : Z → Z → M A unit).
Context (mem : A → gset Z → list (Z * Z) → Prop) (refof : A → Z → Z).

(** C10. dup_mmap from an address space of private areas into an empty one.  It
    ends; it returns 0, or -E_NO_MEM when there is no memory for an area or a
    page table.  The areas of the original are untouched, whatever list or tree
    they are found by, and the copy has the same areas, or the last ones of
    them when the memory ran out.  With 0 every mapped page of the original is
    mapped in both at the same address and may be written by neither (copy on
    write), and no other address is mapped in the copy; with -E_NO_MEM this
    holds of a part of the pages.  No page changes its contents; the reference
    counts, both sets of page tables and the TLB are consistent. *)
Theorem dup_mmap_correct `{!KernelRefs kmalloc kfree alloc_pages free_pages get_ref set_ref np mem refof}
    fuel (s : vmms A) F O to from mt mf xs d d' T T' D ext R :
  np ≤ KMEMSIZE / PGSIZE → (Z.to_nat (USERTOP / PGSIZE) ≤ fuel)%nat → enough fuel (length xs) → to ≠ from →
  let live v T' := tlive np mem refof d d' T D ext R v T' in
  vm_inv (live (svm (sh s)) T') s F O from mf xs → vm_inv (live (svm (sh s)) T') s F O to mt [] →
  pgdir mf = kva_of d 0 → pgdir mt = kva_of d' 0 → (∀ x, x ∈ xs → good_area (vmas s) x) →
  mmap_tree mt = 0 → (mmap_tree mf ≠ 0 → mmap_tree mf ∈ O) → (∀ u, tentry (words (svm (sh s))) T' u = 0) →
  ∃ r s' F' O' mt' ys T2 l1 l2,
    dup_mmap alloc_pages free_pages np get_ref set_ref kmalloc kfree fuel to from s = Ret (r, s') ∧ xs = l1 ++ l2 ∧
    vm_inv (live (svm (sh s')) T2) s' F' O' from mf xs ∧ vm_inv (live (svm (sh s')) T2) s' F' O' to mt' ys ∧
    (∀ x, x ∈ xs → vmas s' !! x = vmas s !! x) ∧ (∀ a, space (vmas s') ys a = space (vmas s) l2 a) ∧
    data_kept D (svm (sh s)) (svm (sh s')) ∧
    let e u := tentry (words (svm (sh s))) T u in
    let e1 u := tentry (words (svm (sh s'))) T u in let e2 u := tentry (words (svm (sh s'))) T2 u in
    let copied_at u := (∃ x, x ∈ xs ∧ page_in (vmas s) u x) ∧ e u ≠ 0 ∧ shared_page false (e u) (e1 u) (e2 u) in
    let same_at u := e1 u = e u ∧ e2 u = 0 in
    (r = 0 ∧ l1 = [] ∧ ∀ u, copied_at u ∨ same_at u ∧ ((∃ x, x ∈ xs ∧ page_in (vmas s) u x) → e u = 0)) ∨
    (r = - E_NO_MEM ∧ ∀ u, copied_at u ∨ same_at u).
Proof.
  intros Hnp Hfuel Hen Hne live Hf Ht Hpf Hpt Hg Htt Htf He0.
  assert (Hi : dup_inv np mem refof d d' T D ext R to from mf xs (vmas s) (svm (sh s)) s F O mt [] T' [] (within (vmas s) [])).
  { split; try done.
    - intros q _. split; [apply not_elem_of_nil|]. unfold tree_nodes. rewrite bool_decide_true by done. apply not_elem_of_nil.
    - intros u e e1 e2. split; [by intros ?%Exists_nil|]. intros _. split; [done|]. apply He0. }
  destruct (dup_loop_ok kmalloc kfree alloc_pages free_pages np get_ref set_ref mem refof Hnp d d' T D ext R fuel Hfuel to from Hne mf xs Hpf
    (vmas s) (svm (sh s)) Hg Hen fuel s F O mt [] T' xs [] Hi) as (r & s' & E & Hres); [by rewrite app_nil_r|destruct Hen; lia|].
  assert (Erun : dup_mmap alloc_pages free_pages np get_ref set_ref kmalloc kfree fuel to from s = Ret (r, s')).
  { unfold dup_mmap. rewrite bind_assert; [exact E|]. rewrite !bool_decide_true; [done|apply (mo_nz _ _ _ _ _ (vi_ok _ _ _ _ _ _ _ Hf))|apply (mo_nz _ _ _ _ _ (vi_ok _ _ _ _ _ _ _ Ht))]. }
  pose proof (vi_live _ _ _ _ _ _ _ Hf) as H2. unfold live, tlive, al in H2. rewrite over_palloc in H2.
  assert (Hsh : ∀ u, within (vmas s) xs u → tentry (words (svm (sh s))) T u ≠ 0 →
    shared_page false (tentry (words (svm (sh s))) T u) (parent_pte false (tentry (words (svm (sh s))) T u)) (child_pte false (tentry (words (svm (sh s))) T u))).
  { intros u (x & Hx & Hp)%Exists_exists Hn. apply shared_ptes; [done|]. pose proof (tw_from _ _ _ _ _ _ _ _ _ _ _ H2) as Hv.
    assert (Hu : 0 ≤ u < UPN). { destruct (Hg x Hx) as [G1 G2 _ _ _]. unfold page_in, USERBASE, USERTOP, UPN, UPDE, PGSIZE in *. lia. }
    destruct (vo_data _ _ _ _ _ _ _ _ _ Hv u Hu) as [?|(_ & _ & Hin)]; [done|]. pose proof (kr_pages O) as HRA. simpl in HRA.
    destruct (in_hand alloc_pages free_pages np get_ref set_ref (λ a R, mem a O R) refof Hnp _ d T D _ _ _ Hv Hin) as [_ Hpr]. pose proof (np_bound np Hnp). lia. }
  destruct Hres as [(-> & F' & O' & mt' & ys & T2 & [I1 I2 I3 I4 I5 I6 I7 I8 I9 I10])|(-> & F' & O' & mt' & ys & T2 & l1 & l2 & P & Exs & [I1 I2 I3 I4 I5 I6 I7 I8 I9 I10] & HP & Hdec)].
  - exists 0, s', F', O', mt', ys, T2, [], xs. split_and!; try done. left. split; [done|]. split; [done|]. intros u. destruct (I10 u) as [Hp Hn].
    destruct (decide (within (vmas s) xs u)) as [Hw|Hw].
    + destruct (Hp Hw) as [E1 E2]. destruct (decide (tentry (words (svm (sh s))) T u = 0)) as [Hz|Hz].
      * right. rewrite Hz in E1, E2. rewrite Hz. by split.
      * left. split; [by apply Exists_exists|]. split; [done|]. rewrite E1, E2. by apply Hsh.
    + right. split; [by apply Hn|]. intros Hex. destruct Hw. by apply Exists_exists.
  - exists (- E_NO_MEM), s', F', O', mt', ys, T2, l1, l2. split_and!; try done. right. split; [done|]. intros u. destruct (I10 u) as [Hp Hn].
    destruct (Hdec u) as [Hu|Hu]; [|right; by apply Hn]. destruct (Hp Hu) as [E1 E2]. destruct (decide (tentry (words (svm (sh s))) T u = 0)) as [Hz|Hz].
    + right. rewrite Hz in E1, E2. rewrite Hz. by split.
    + left. split; [apply Exists_exists; by apply HP|]. split; [done|]. rewrite E1, E2. apply Hsh; [by apply HP|done].
Qed.
End Thms.

(** ** A concrete address space with one area and one page, and an empty one *)
Definition ex_objs : gset Z := {[1; 2; 3]}.
Abbreviation ex_holds := (λ a R, ex_fresh a ex_objs R).
Definition ex_pair : vmem machine := MkVmem machine ∅ (66 * PGSIZE) ∅ (4, ex_three).
Lemma Ret_pair {X Y} (x x' : X) (y y' : Y) : Ret (x, y) = Ret (x', y') → x' = x ∧ y' = y.
Proof. by intros [= -> ->]. Qed.
Lemma ex_pair_fresh : ex_fresh (4, ex_three) ex_objs [(ex_page3, 1); (67, 1); (66, 1)].
Proof.
  split; [split; [simpl; lia|unfold ex_objs; simpl; set_solver by lia]|]. simpl.
  destruct (alloc_fresh 70 ex_two _ 1 ex_two_fresh ltac:(lia)) as (r & s' & E & Hf & _).
  assert (Hok : ok_alloc (buddy_alloc_pages 1 ex_two) = Some (Some ex_page3)) by (vm_compute; reflexivity).
  rewrite (ex_step_ok _ _ Hok) in E. apply Ret_pair in E as [Er Es]. rewrite Er, Es in Hf. exact Hf.
Qed.
Lemma ex_pair_ok : two_ok 70 ex_holds ex_refof ex_pair 66 ∅ ex_page3 ∅ [67] (λ _, 0) [].
Proof.
  assert (Hc : ∀ p, count ∅ ∅ p = 0).
  { intros p. unfold count. assert (Hf : filter (maps ∅ ∅ p) (seqZ 0 UPN) = []); [|by rewrite Hf].
    apply elem_of_nil_inv. intros v [[Hv _] _]%list_elem_of_filter. unfold tentry in Hv. by rewrite lookup_empty in Hv. }
  assert (Hp : ∀ R', [(ex_page3, 1); (67, 1); (66, 1)] ≡ₚ R' → ex_fresh (4, ex_three) ex_objs R').
  { intros R' HR. destruct ex_pair_fresh as [H1 H2]. split; [exact H1|]. by eapply (ra_perm (RefAllocator := buddy_fresh_allocator 70)). }
  split; [apply vm_ok_empty|apply vm_ok_empty|lia].
  - apply Hp. simpl. solve_Permutation.
  - lia.
  - intros p ->%list_elem_of_singleton. rewrite Hc. vm_compute. reflexivity.
  - intros p. rewrite Hc. lia.
  - apply Hp. simpl. solve_Permutation.
  - vm_compute. split; [discriminate|reflexivity].
  - intros p ->%list_elem_of_singleton. rewrite Hc. vm_compute. reflexivity.
  - intros p. rewrite Hc. lia.
Qed.
Lemma ex_pair_mapped : ∃ v T, two_ok 70 ex_holds ex_refof v 66 T ex_page3 ∅ [67] (λ _, 0) [] ∧ tentry (words v) T 0x800 = 67 * PGSIZE + 7 ∧
  ∀ u, u ≠ 0x800 → tentry (words v) T u = 0.
Proof.
  pose proof (two_sym _ _ _ _ _ _ _ _ _ _ _ ex_pair_ok) as H2. pose proof (kr_pages (KernelRefs := ex_kernel_refs) ex_objs) as HRA. simpl in HRA.
  destruct (two_create ex_alloc_pages ex_free_pages 70 ex_get_ref ex_set_ref ex_holds ex_refof ex_np ex_pair
    ex_page3 ∅ 66 ∅ [67] (λ _, 0) [] 0x800000 H2) as [(s & E & _)|(t & T & s & E & Ht & H2' & _ & He & _)]; [unfold KERNBASE; lia|..].
  - exfalso. assert (Hv : match get_pte ex_alloc_pages 70 ex_set_ref (kva_of 66 0) 0x800000 true ex_pair with
      | Ret (p, _) => bool_decide (p = 0) | _ => true end = false) by (vm_compute; reflexivity).
    rewrite E in Hv. discriminate Hv.
  - assert (He0 : ∀ u, tentry (words s) T u = 0) by (intros u; rewrite He; unfold tentry; by rewrite lookup_empty).
    destruct (two_insert ex_alloc_pages ex_free_pages 70 ex_get_ref ex_set_ref ex_holds ex_refof ex_np s
      ex_page3 ∅ 66 T [67] (λ _, 0) [] 0x800000 t 67 6 H2') as (s' & _ & H3 & _ & He' & _); [unfold KERNBASE; lia|exact Ht|by left|unfold PGSIZE; lia|by left|].
    exists s', T. split; [by apply two_sym|]. split.
    + change 0x800 with (PPN 0x800000). rewrite He', decide_True by done. reflexivity.
    + intros u Hu. rewrite He', decide_False; [apply He0|exact Hu].
Qed.

(** The lists of the two descriptors. *)
Definition ex_dup_family : gmap vlink (list vlink) := <[MmapList 1 := [VmaLink 2]]> (<[MmapList 3 := []]> (<[MmapList 1 := []]> ∅)).
Lemma ex_dup_links : ∃ h, dlists h ex_dup_family.
Proof.
  pose (h0 := list_to_map ((λ l, (l, junk_entry l)) <$> [MmapList 1; MmapList 3; VmaLink 2]) : gmap vlink (list_entry vlink)).
  assert (Hun : ∀ e, unowned (∅ : gmap vlink (list vlink)) e) by (intros e hd (l & Hl & _); by rewrite lookup_empty in Hl).
  destruct (list_init_dlists h0 ∅ (MmapList 1)) as (h1 & _ & D1 & M1); [apply dlists_empty|done|by eexists|].
  assert (Hd0 : ∀ l, l ∈ [MmapList 1; MmapList 3; VmaLink 2] → l ∈ dom h0).
  { intros l Hl. rewrite !elem_of_cons, elem_of_nil in Hl. destruct Hl as [->|[->|[->|[]]]]; apply elem_of_dom; by eexists. }
  destruct (list_init_dlists h1 (<[MmapList 1 := []]> ∅) (MmapList 3)) as (h2 & _ & D2 & M2); [done| |apply elem_of_dom; rewrite M1; apply Hd0; set_solver +|].
  { intros hd Ho. apply owns_insert in Ho as [[_ Hin]|[_ Ho]]; [|by apply Hun in Ho]. set_solver +Hin. }
  destruct (add_at h2 (<[MmapList 3 := []]> (<[MmapList 1 := []]> ∅)) (MmapList 1) [] [] (VmaLink 2)) as (h3 & _ & D3 & _); [done|by vm_compute| | |by exists h3].
  - intros hd Ho. apply owns_insert in Ho as [[_ Hin]|[_ Ho]]; [set_solver +Hin|]. apply owns_insert in Ho as [[_ Hin]|[_ Ho]]; [set_solver +Hin|by apply Hun in Ho].
  - apply elem_of_dom. rewrite M2, M1. apply Hd0. set_solver +.
Qed.
#[local] Opaque ex_page3 ex_three.
Definition ex_from : mm_struct := MkMm 0 0 (kva_of 66 0) 1.
Definition ex_to : mm_struct := MkMm 0 0 (kva_of ex_page3 0) 0.
Definition ex_dup_state (h : gmap vlink (list_entry vlink)) (v : vmem machine) : vmms machine :=
  MkVmms machine {[2 := MkVma 1 0x700000 0x900000 3 0 0]} (<[1 := ex_from]> {[3 := ex_to]}) h {[2 := RbNode false 0 0 0]} ∅ (MkShms machine ∅ ∅ ∅ v).
Abbreviation ex_tlive v T := (tlive 70 ex_fresh ex_refof 66 ex_page3 T [67] (λ _, 0) [] v ∅).
Lemma ex_dup_owned w hd : owns ex_dup_family (VmaLink w) hd → w ∈ ex_objs.
Proof.
  unfold ex_dup_family. intros [[_ Hin]|[_ Ho]]%owns_insert; [set_solver +Hin|].
  apply owns_insert in Ho as [[_ Hin]|[_ Ho]]; [set_solver +Hin|]. apply owns_insert in Ho as [[_ Hin]|[_ (l & Hl & _)]]; [set_solver +Hin|]. by rewrite lookup_empty in Hl.
Qed.
Lemma ex_dup_live h v T : two_ok 70 ex_holds ex_refof v 66 T ex_page3 ∅ [67] (λ _, 0) [] → ex_tlive v T (al (ex_dup_state h v)) ex_objs.
Proof. intros H2. unfold tlive, al. change (svm (sh (ex_dup_state h v))) with v. rewrite over_palloc. exact H2. Qed.
Lemma ex_dup_from h v T : dlists h ex_dup_family → two_ok 70 ex_holds ex_refof v 66 T ex_page3 ∅ [67] (λ _, 0) [] →
  vm_inv (ex_tlive v T) (ex_dup_state h v) ex_dup_family ex_objs 1 ex_from [2].
Proof.
  intros Hd H2. split; [split| |exact (ex_dup_live h v T H2)|exact ex_dup_owned].
  - reflexivity.
  - discriminate.
  - exact Hd.
  - reflexivity.
  - split; [apply SSorted_cons; [constructor|constructor]|]. intros x ->%list_elem_of_singleton. split; [discriminate|]. split; [by eexists|]. vm_compute. reflexivity.
  - intros x ->%list_elem_of_singleton. reflexivity.
  - reflexivity.
  - left. reflexivity.
  - left. reflexivity.
  - split; [|intros C; by destruct C]. intros x ->%list_elem_of_singleton. split; [set_solver +|]. by eexists.
Qed.
Lemma ex_dup_to h v T : dlists h ex_dup_family → two_ok 70 ex_holds ex_refof v 66 T ex_page3 ∅ [67] (λ _, 0) [] →
  vm_inv (ex_tlive v T) (ex_dup_state h v) ex_dup_family ex_objs 3 ex_to [].
Proof.
  intros Hd H2. split; [split| |exact (ex_dup_live h v T H2)|exact ex_dup_owned].
  - reflexivity.
  - discriminate.
  - exact Hd.
  - reflexivity.
  - split; [constructor|]. by intros x []%elem_of_nil.
  - by intros x []%elem_of_nil.
  - reflexivity.
  - left. reflexivity.
  - left. reflexivity.
  - split; [by intros x []%elem_of_nil|intros C; by destruct C].
Qed.
Lemma dup_mmap_correct_witness : ∃ (s : vmms machine) (T : gmap Z Z) r s' (T2 : gmap Z Z), tentry (words (svm (sh s))) T 0x800 = 67 * PGSIZE + 7 ∧
  dup_mmap ex_alloc_pages ex_free_pages 70 ex_get_ref ex_set_ref ex_kmalloc ex_kfree ex_fuel 3 1 s = Ret (r, s') ∧
  (r = - E_NO_MEM ∨ shared_page false (67 * PGSIZE + 7) (tentry (words (svm (sh s'))) T 0x800) (tentry (words (svm (sh s'))) T2 0x800)).
Proof.
  destruct ex_pair_mapped as (v & T & H2 & He & He0). destruct ex_dup_links as (h & Hd).
  destruct (dup_mmap_correct ex_kmalloc ex_kfree ex_alloc_pages ex_free_pages 70 ex_get_ref ex_set_ref ex_fresh ex_refof ex_fuel (ex_dup_state h v) ex_dup_family
    ex_objs 3 1 ex_to ex_from [2] 66 ex_page3 T ∅ [67] (λ _, 0) []) as (r & s' & F' & O' & mt' & ys & T2 & l1 & l2 & E & _ & _ & _ & _ & _ & _ & Hres).
  - exact ex_np.
  - apply le_n.
  - exact ex_fuel_enough.
  - discriminate.
  - exact (ex_dup_from h v T Hd H2).
  - exact (ex_dup_to h v T Hd H2).
  - reflexivity.
  - reflexivity.
  - intros x ->%list_elem_of_singleton. split; vm_compute; first [discriminate|reflexivity].
  - reflexivity.
  - intros C. by destruct C.
  - intros u. unfold tentry. rewrite lookup_empty. reflexivity.
  - exists (ex_dup_state h v), T, r, s', T2. split; [exact He|]. split; [exact E|]. cbv zeta in Hres. change (svm (sh (ex_dup_state h v))) with v in Hres.
    destruct Hres as [(_ & _ & Hall)|(-> & _)]; [right|left; reflexivity]. specialize (Hall 0x800). rewrite He in Hall.
    destruct Hall as [(_ & _ & Hs)|(_ & Hz)]; [exact Hs|]. exfalso. assert (Hf : 67 * PGSIZE + 7 = 0); [|discriminate Hf].
    apply Hz. exists 2. split; [by left|]. vm_compute. split; [discriminate|reflexivity].
Defined.
