(* ===== verification/ShmemThms.v ===== *)
(** * kern/mm/shmem.c: a shared memory object as a function from pages to entries *)
From stdpp Require Import base gmap list fin_maps sorting.
From Stdlib Require Import ZArith Lia.
From S2P Require Import Prelude DList Bits Printfmt Mmu Buddy BuddySpec Alloc ProcThms PmmRefs PmmFresh Pmm PmmInv PmmProps PmmThms PmmFault.
From S2P Require Import Shmem ShmemInv ShmemProps ShmemOps VmmThms VmmPages VmmFault.

(** No page of the kernel is in a swap cache: PG_swap is never set. *)
Class SwapFree {A} (PageSwap : Z → M A bool) (mem : A → gset Z → list (Z * Z) → Prop) : Prop :=
  swap_free : ∀ a O R p, mem a O R → p ∈ hand_pages R → PageSwap p a = Ret (false, a).

Section Thms.
Context {A : Type} (kmalloc : Z → M A Z) (kfree : Z → M A unit).
Context (alloc_pages : Z → M A (option Z)) (free_pages : Z → Z → M A unit) (np : Z).
Context (get_ref : Z → M A Z) (set_ref : Z → Z → M A unit) (PageSwap : Z → M A bool).
Context (mem : A → gset Z → list (Z * Z) → Prop) (refof : A → Z → Z).
Implicit Types (s : shms A) (O : gset Z) (e : Z → Z) (D : list Z).

(** The object [shmem] of [len] bytes: page number [u] has the entry [e u].  [D]
    are the pages the entries may map, with [ext] references from elsewhere; [O]
    and [R0] are the allocated objects and the pages of everybody else.  The
    allocated objects are those and the object's own: its structure and the
    structures of its nodes [N]. *)
Definition shared s O (shmem len : Z) e D (ext : Z → Z) (R0 : list (Z * Z)) : Prop :=
  ∃ F X m N T, shm_inv np mem refof s F X shmem m N T D ext R0 ∧ O = X ∖ ({[shmem]} ∪ list_to_set N) ∧
    shmem_len m = len ∧ ∀ u, e u = tentry (words (svm s)) T u.

Lemma rest_own (X X' : gset Z) (N N' : list Z) x :
  X' ∖ list_to_set N' = X ∖ list_to_set N → X' ∖ ({[x]} ∪ list_to_set N') = X ∖ ({[x]} ∪ list_to_set N).
Proof. intros H. apply set_eq. intros y. assert (y ∈ X' ∖ list_to_set N' ↔ y ∈ X ∖ list_to_set N) as Hy by (by rewrite H). set_solver +Hy. Qed.

(** What the pages [X] hold, CR3 and the TLB are as before. *)
Definition pages_kept (X : list Z) s s' : Prop :=
  vm_cr3 (svm s') = vm_cr3 (svm s) ∧ tlb (svm s') = tlb (svm s) ∧
  ∀ i, i / 1024 ∈ X → word (words (svm s')) i = word (words (svm s)) i.

(** The entry of an address, by shmem_get_entry without create. *)
Definition entry_at (fuel : nat) (shmem addr : Z) : M (shms A) Z :=
  p ← shmem_get_entry alloc_pages np get_ref set_ref kmalloc kfree fuel shmem addr false;
  if bool_decide (p = 0) then mret 0 else vm (load np p).

Lemma calm_pages (F X : list Z) v v' : calm F v v' → (∀ p, p ∈ X → p ∉ F) →
  vm_cr3 v' = vm_cr3 v ∧ tlb v' = tlb v ∧ ∀ i, i / 1024 ∈ X → word (words v') i = word (words (v : vmem A)) i.
Proof. intros [[H1 H2] H3] Hx. split_and!; [done|done|]. intros i Hi. apply H2. by apply Hx. Qed.

Section Facts.
Context `{HK : !KernelRefs kmalloc kfree alloc_pages free_pages get_ref set_ref np mem refof}.
Context `{HF : !∀ O, FreshRefs alloc_pages (λ a R, mem a O R) refof}.

Lemma inv_apart s F O shmem m N T D ext R0 p : shm_inv np mem refof s F O shmem m N T D ext R0 → p ∈ D ++ hand_pages R0 → p ∉ frames T.
Proof using HK.
  intros Hi Hp Hf. pose proof (eo_held _ _ _ _ _ _ _ _ (si_ents _ _ _ _ _ _ _ _ _ _ _ _ _ Hi)) as Hh.
  apply (pa_nodup (PageAllocator := ra_pages (RefAllocator := kr_pages O))) in Hh. rewrite hand_singles, <-app_assoc in Hh.
  apply NoDup_app in Hh as (_ & Hd & _). by apply (Hd p).
Qed.

Lemma entry_at_ok fuel s O shmem len e D ext R0 addr :
  np ≤ KMEMSIZE / PGSIZE → (768 < fuel)%nat → shared s O shmem len e D ext R0 → 0 ≤ addr < len → len ≤ KERNBASE →
  ∃ s', entry_at fuel shmem addr s = Ret (e (addr / PGSIZE), s') ∧ shared s' O shmem len e D ext R0 ∧ svm s' = svm s.
Proof using HK HF.
  intros Hnp Hf (F & X & m & N & T & Hi & -> & <- & He) Ha Hlen. pose proof (nodes_length _ _ _ _ _ _ _ _ _ _ _ _ _ Hi) as HN.
  destruct (get_entry_ok kmalloc kfree alloc_pages free_pages np get_ref set_ref mem refof Hnp fuel s F X shmem m N T D ext R0 addr false Hi ltac:(lia) Ha Hlen)
    as (s' & F' & O' & m' & N' & T' & D' & E & Hi' & Hst & [_ _ Hrest Hl _] & Hc).
  destruct (Hc eq_refl) as (Hs & -> & ->). destruct Hst as [[_ ->]|(? & _)]; [|done].
  exists s'. split_and!; [|exists F', X, m', N', T; split_and!; [done|symmetry; by apply rest_own|done|by rewrite Hs]|done].
  unfold entry_at. rewrite (bind_Ret _ _ _ _ _ E). rewrite He, <-Hs. unfold slot_of. set (u := addr / PGSIZE).
  pose proof (si_ents _ _ _ _ _ _ _ _ _ _ _ _ _ Hi') as Hv.
  destruct (T !! (u / 1024)) as [t|] eqn:Et; [|rewrite bool_decide_true by done; unfold tentry; by rewrite Et].
  destruct (eo_range _ _ _ _ _ _ _ _ Hv _ _ Et) as [_ Htr].
  rewrite bool_decide_false by (unfold kva_of, KERNBASE, PGSIZE; pose proof (mod1024 u); lia).
  by apply (entry_load np (λ a R, mem a X R) refof s' T D ext R0).
Qed.
End Facts.

(** C13. shmem_insert_entry on a shared memory object, for an entry that is 0 (as
    shmem_remove_entry passes) or maps a page that the slot does not hold the
    last reference to: it fails with -E_NO_MEM and no entry changes, or returns
    0 and the object has the new entry there and the old ones elsewhere, which
    is what shmem_get_entry then finds.  The pages keep one reference per entry
    that maps them, the page that lost its last reference goes back to the
    allocator and no other; pages of others and the contents of the mapped pages
    stay as they are. *)
Theorem shmem_insert_entry_correct `{!KernelRefs kmalloc kfree alloc_pages free_pages get_ref set_ref np mem refof}
    `{!∀ O, FreshRefs alloc_pages (λ a R, mem a O R) refof} `{!SwapFree PageSwap mem}
    fuel s O shmem len e D ext R0 addr entry :
  let u := addr / PGSIZE in
  let last p := e u ≠ 0 ∧ refof (palloc (svm s)) p = 1 ∧ p = e u / PGSIZE in
  np ≤ KMEMSIZE / PGSIZE → (768 < fuel)%nat → len ≤ KERNBASE →
  shared s O shmem len e D ext R0 → 0 ≤ addr < len →
  entry = 0 ∨ (Z.land entry PTE_P ≠ 0 ∧ is_u32 entry ∧ entry / PGSIZE ∈ D ∧ ¬ last (entry / PGSIZE)) →
  ∃ r s' e' D',
    shmem_insert_entry alloc_pages free_pages np get_ref set_ref PageSwap kmalloc kfree fuel shmem addr entry s = Ret (r, s') ∧
    shared s' O shmem len e' D' ext R0 ∧ pages_kept (D' ++ hand_pages R0) s s' ∧
    (∀ q, q ≠ shmem → shmems s' !! q = shmems s !! q) ∧
    ((r = - E_NO_MEM ∧ D' = D ∧ ∀ u', e' u' = e u') ∨
     (r = 0 ∧ (∀ p, p ∈ D' ↔ p ∈ D ∧ ¬ last p) ∧ (∀ u', e' u' = if decide (u' = u) then entry else e u') ∧
      ∀ addr', 0 ≤ addr' < len → ∃ s'', entry_at fuel shmem addr' s' =
        Ret (if decide (addr' / PGSIZE = u) then entry else e (addr' / PGSIZE), s''))).
Proof.
  intros u last Hnp Hf Hlen Hsh Ha Hen. destruct Hsh as (F & X & m & N & T & Hi & -> & <- & He).
  pose proof (nodes_length _ _ _ _ _ _ _ _ _ _ _ _ _ Hi) as HN.
  destruct (insert_entry_ok kmalloc kfree alloc_pages free_pages np get_ref set_ref PageSwap mem refof Hnp swap_free fuel s F X shmem m N T D ext R0
    addr entry Hi ltac:(lia) Ha Hlen) as (r & s' & F' & X' & m' & N' & T' & D' & E & Hi' & [P1 _ P2 P3 P4] & Hcase).
  { destruct Hen as [->|(H1 & H2 & H3 & H4)]; [by left|right]. apply present_spec in H1. split_and!; [done..|].
    apply elem_of_without. split; [done|]. fold u. rewrite <-He. intros (K1 & K2 & K3). apply H4. split_and!; [done| |done]. by rewrite K3. }
  fold u in Hcase.
  set (O := X ∖ ({[shmem]} ∪ list_to_set N)).
  assert (Hsh' : shared s' O shmem (shmem_len m) (tentry (words (svm s')) T') D' ext R0).
  { exists F', X', m', N', T'. split_and!; [done|symmetry; by apply rest_own|done|done]. }
  exists r, s', (tentry (words (svm s')) T'), D'. split_and!; [exact E|exact Hsh'| |done|].
  - apply (calm_pages (frames T')); [done|]. intros p Hp. by eapply inv_apart.
  - destruct Hcase as [(-> & _ & -> & He')|(-> & -> & He')]; [left|right]; split_and!; [done|done|by intros; rewrite He', He|done|..].
    + intros p. rewrite elem_of_without. unfold last. rewrite <-He. split; intros [Hp Hn]; (split; [done|]); intros (K1 & K2 & K3);
        apply Hn; split_and!; try done; [by rewrite <-K3|by rewrite K3].
    + intros u'. by rewrite He', He.
    + intros addr' Ha'. destruct (entry_at_ok fuel s' O shmem _ _ _ ext R0 addr' Hnp Hf Hsh' Ha' Hlen) as (s'' & E' & _).
      exists s''. rewrite E'. rewrite He', He. done.
Qed.

(** C14. shmem_destroy ends, for an object with any entries, and gives back
    everything: the structures of the object and of every one of its nodes (only
    the objects of everybody else stay allocated), the pages of its entries, and
    every mapped page that nobody else refers to; the other mapped pages keep
    exactly the references from elsewhere.  Other objects and the contents of
    the pages that stay are as they were. *)
Theorem shmem_destroy_correct `{!KernelRefs kmalloc kfree alloc_pages free_pages get_ref set_ref np mem refof}
    `{!SwapFree PageSwap mem} fuel s O shmem len e D ext R0 :
  np ≤ KMEMSIZE / PGSIZE → (768 < fuel)%nat → shared s O shmem len e D ext R0 →
  ∃ s' D', shmem_destroy free_pages np get_ref set_ref PageSwap kfree fuel shmem s = Ret ((), s') ∧
    mem (palloc (svm s')) O (singles D' ++ R0) ∧
    (∀ p, p ∈ D' ↔ p ∈ D ∧ (ext p ≠ 0 ∨ ∀ u, 0 ≤ u < UPN → e u ≠ 0 → e u / PGSIZE ≠ p)) ∧
    (∀ p, p ∈ D' → refof (palloc (svm s')) p = ext p) ∧
    shmems s' = delete shmem (shmems s) ∧ pages_kept (D' ++ hand_pages R0) s s'.
Proof.
  intros Hnp Hf (F & X & m & N & T & Hi & -> & <- & He). pose proof (nodes_length _ _ _ _ _ _ _ _ _ _ _ _ _ Hi) as HN.
  destruct (shmem_destroy_ok kmalloc kfree alloc_pages free_pages np get_ref set_ref PageSwap mem refof Hnp swap_free fuel s F X shmem m N T D ext R0 Hi ltac:(lia))
    as (s' & D' & E & Hm & HD & Hr & Hs & _ & Hc).
  exists s', D'. split_and!; [exact E|exact Hm| |exact Hr|exact Hs|].
  - intros p. rewrite HD. split; intros [Hp Hx]; (split; [exact Hp|]).
    + destruct (decide (ext p = 0)) as [H0|H0]; [right|by left]. intros u Hu Hne Hpg. rewrite He in Hne, Hpg.
      pose proof (count_pos (words (svm s)) T p u Hu (conj Hne Hpg)) as Hpos. rewrite (Hx H0) in Hpos. lia.
    + intros H0. destruct Hx as [?|Hx]; [done|]. unfold count.
      destruct (filter (maps (words (svm s)) T p) (seqZ 0 UPN)) as [|u l] eqn:Ef; [reflexivity|]. exfalso.
      assert (Hin : u ∈ filter (maps (words (svm s)) T p) (seqZ 0 UPN)) by (rewrite Ef; by left).
      apply list_elem_of_filter in Hin as [[M1 M2] Hu%elem_of_seqZ]. apply (Hx u ltac:(lia)); by rewrite He.
  - apply (calm_pages (frames T)); [exact Hc|]. intros p Hp. eapply inv_apart; [exact Hi|].
    apply elem_of_app in Hp as [Hp|Hp]; apply elem_of_app; [left; by apply HD|by right].
Qed.
End Thms.

(** ** An object of 16 pages and two data pages *)
Definition ex_shms : shms machine := MkShms machine ∅ ∅ ∅ ex_vm2.
Definition ex_PageSwap (_ : Z) : M machine bool := mret false.
#[global] Instance ex_swap_free : SwapFree ex_PageSwap ex_fresh.
Proof. by intros a O R p _ _. Qed.
Abbreviation ex_shared_at := (shared 70 ex_fresh ex_refof).
Abbreviation ex_insert_entry := (shmem_insert_entry ex_alloc_pages ex_free_pages 70 ex_get_ref ex_set_ref ex_PageSwap ex_kmalloc ex_kfree 800).
Definition ex_entry : Z := 67 * PGSIZE + 3.

Lemma ex_vm2_ents : ents_ok 70 (λ a R, ex_fresh a ∅ R) ex_refof ex_vm2 ∅ [67; 66] (λ _, 0) [].
Proof.
  assert (He : ∀ u, tentry (words ex_vm2) ∅ u = 0) by (intros u; unfold tentry; by rewrite lookup_empty).
  split.
  - intros i t. by rewrite lookup_empty.
  - intros i j t. by rewrite lookup_empty.
  - split; [split; [done|by intros p Hp%elem_of_empty]|]. exact ex_two_fresh.
  - intros u _. left. apply He.
  - intros p Hp. rewrite (count_absent _ _ []); [|by intros u _; left; apply He|by intros ?%elem_of_nil].
    assert (p = 67 ∨ p = 66) as [-> | ->] by set_solver +Hp; vm_compute; reflexivity.
  - intros p. lia.
  - by intros p [].
Qed.

Lemma ex_shmem_created : ∃ s, shmem_create ex_kmalloc 0x10000 ex_shms = Ret (1, s) ∧ ex_shared_at s ∅ 1 0x10000 (λ _, 0) [67; 66] (λ _, 0) [].
Proof.
  assert (Hnone : ∀ x hd, ¬ owns (∅ : gmap slink (list slink)) x hd) by (intros x hd (l & Hl & _); by rewrite lookup_empty in Hl).
  destruct (shmem_create_ok ex_kmalloc ex_kfree ex_alloc_pages ex_free_pages 70 ex_get_ref ex_set_ref ex_fresh ex_refof ex_shms ∅ ∅ [67; 66] (λ _, 0) []
    0x10000 (dlists_empty _) ex_vm2_ents) as (p & s & E & Hcase); [by intros n hd ?%Hnone|by intros n hd ?%Hnone|].
  assert (Hp : ret_val (shmem_create ex_kmalloc 0x10000 ex_shms) = Some 1) by (vm_compute; reflexivity).
  rewrite E in Hp. injection Hp as ->. destruct Hcase as [[? _]|(_ & _ & Hi)]; [discriminate|].
  exists s. split; [exact E|]. eexists _, _, _, _, ∅. split; [exact Hi|]. split; [vm_compute; reflexivity|]. split; [reflexivity|].
  intros u. unfold tentry. rewrite lookup_empty. reflexivity.
Qed.
Lemma ex_inserted : ret_val ((p ← shmem_create ex_kmalloc 0x10000; ex_insert_entry p 0x5123 ex_entry) ex_shms) = Some 0.
Proof. vm_compute. reflexivity. Qed.

Lemma shmem_insert_entry_correct_witness : ∃ s s' s'', shmem_create ex_kmalloc 0x10000 ex_shms = Ret (1, s) ∧
  ex_insert_entry 1 0x5123 ex_entry s = Ret (0, s') ∧
  entry_at ex_kmalloc ex_kfree ex_alloc_pages 70 ex_get_ref ex_set_ref 800 1 0x5fff s' = Ret (ex_entry, s'').
Proof.
  destruct ex_shmem_created as (s & E & Hsh). pose proof ex_inserted as Hr. rewrite (bind_Ret _ _ _ _ _ E) in Hr.
  destruct (shmem_insert_entry_correct ex_kmalloc ex_kfree ex_alloc_pages ex_free_pages 70 ex_get_ref ex_set_ref ex_PageSwap ex_fresh ex_refof
    800 s ∅ 1 0x10000 (λ _, 0) [67; 66] (λ _, 0) [] 0x5123 ex_entry ex_np) as (r & s' & e' & D' & E' & _ & _ & _ & Hcase).
  - lia.
  - unfold KERNBASE. lia.
  - exact Hsh.
  - lia.
  - right. split; [discriminate|]. split; [unfold is_u32, ex_entry, PGSIZE; lia|]. split; [by left|]. intros [Hz _]. by apply Hz.
  - rewrite E' in Hr. injection Hr as ->. destruct Hcase as [[H0 _]|(_ & _ & _ & Hl)]; [discriminate H0|].
    destruct (Hl 0x5fff) as [s'' E'']; [lia|]. exists s, s', s''. split; [exact E|]. split; [exact E'|exact E''].
Defined.

(** Page 67 at 0x5000 of the object. *)
Lemma ex_filled : ∃ s e, ex_shared_at s ∅ 1 0x10000 e [67; 66] (λ _, 0) [] ∧ e 5 = ex_entry ∧ ∀ u, u ≠ 5 → e u = 0.
Proof.
  destruct ex_shmem_created as (s & E & F & O & m & N & T & Hi & HO & Hlen & He). pose proof ex_inserted as Hr. rewrite (bind_Ret _ _ _ _ _ E) in Hr.
  pose proof (nodes_length _ _ _ _ _ _ _ _ _ _ _ _ _ Hi) as HN.
  destruct (insert_entry_ok ex_kmalloc ex_kfree ex_alloc_pages ex_free_pages 70 ex_get_ref ex_set_ref ex_PageSwap ex_fresh ex_refof ex_np swap_free
    800 s F O 1 m N T [67; 66] (λ _, 0) [] 0x5123 ex_entry Hi) as (r & s' & F' & O' & m' & N' & T' & D' & E' & Hi' & [_ _ Hrest Hl _] & Hcase).
  - lia.
  - rewrite Hlen. lia.
  - rewrite Hlen. unfold KERNBASE. lia.
  - right. split; [reflexivity|]. split; [unfold is_u32, ex_entry, PGSIZE; lia|]. rewrite <-He. by left.
  - rewrite E' in Hr. injection Hr as ->. destruct Hcase as [[H0 _]|(_ & -> & He')]; [discriminate H0|].
    rewrite <-He in Hi'. exists s', (tentry (words (svm s')) T'). split.
    + exists F', O', m', N', T'. split; [exact Hi'|]. split; [rewrite HO; symmetry; by apply rest_own|]. split; [by rewrite Hl|]. intros u. reflexivity.
    + change (0x5123 / PGSIZE) with 5 in He'. split; [by rewrite He'|]. intros u Hu. rewrite He', decide_False by exact Hu. by rewrite <-He.
Qed.

Lemma shmem_destroy_correct_witness : ∃ s s' D', shmem_destroy ex_free_pages 70 ex_get_ref ex_set_ref ex_PageSwap ex_kfree 800 1 s = Ret ((), s') ∧
  ex_fresh (palloc (svm s')) ∅ (singles D' ++ []) ∧ 67 ∉ D' ∧ 66 ∈ D'.
Proof.
  destruct ex_filled as (s & e & Hsh & H5 & Hne).
  destruct (shmem_destroy_correct ex_kmalloc ex_kfree ex_alloc_pages ex_free_pages 70 ex_get_ref ex_set_ref ex_PageSwap ex_fresh ex_refof
    800 s ∅ 1 0x10000 e [67; 66] (λ _, 0) [] ex_np ltac:(lia) Hsh) as (s' & D' & E & Hm & HD & _).
  exists s, s', D'. split; [exact E|]. split; [exact Hm|]. split.
  - intros [_ [Hx|Hx]]%HD; [by apply Hx|]. apply (Hx 5); [unfold UPN, UPDE; lia|rewrite H5; discriminate|rewrite H5; reflexivity].
  - apply HD. split; [by right; left|]. right. intros u _ Hu. destruct (decide (u = 5)) as [->|Hu5]; [rewrite H5; discriminate|].
    destruct Hu. by apply Hne.
Defined.
