(* ===== verification/Slab.v ===== *)
(** * kern/mm/slab.c: kmalloc and kfree

    A cache is the index of its structure in the array slab_cache; the address
    of a slab_t is the address of its control area, which lies at the start of
    the pages of the slab or, off slab, in an object of a smaller cache.  The
    array of kmem_bufctl_t behind a slab_t is a map from addresses to words.
    While a page belongs to a slab, its page_link holds a pointer to the cache
    (next) and one to the slab (prev).  alloc_pages and free_pages and the flag
    PG_slab of a page are parameters; [SlabPages] states what the code relies on
    and shows that the buddy allocator provides it.  The messages printed are
    left out. *)
From stdpp Require Import base gmap list fin_maps.
From Stdlib Require Import ZArith Lia.
From S2P Require Import Prelude DList Bits Printfmt Mmu.

Definition BUFCTL_END : Z := 0xFFFFFFFF.
Definition SLAB_LIMIT : Z := 0xFFFFFFFE.
Definition MIN_SIZE_ORDER : Z := 5.
Definition MAX_SIZE_ORDER : Z := 17.
Definition SLAB_CACHE_NUM : Z := MAX_SIZE_ORDER - MIN_SIZE_ORDER + 1.
Definition KMALLOC_MAX_ORDER : Z := 10.

Record slab_t : Type := MkSlab { s_mem : Z; inuse : Z; s_offset : Z; s_free : Z }.
Record kmem_cache_t : Type := MkCache {
  objsize : Z; num : Z; offset : Z; off_slab : bool; page_order : Z;
  slab_cachep : option Z }.

Definition sizeof_slab_t : Z := 24.
Definition sizeof_kmem_bufctl_t : Z := 4.

(** &slab_cache[c].slabs_full, &slab_cache[c].slabs_notfull, &slabp->slab_link *)
Inductive slink : Type := SlabsFull (c : Z) | SlabsNotfull (c : Z) | SlabLink (slabp : Z).
#[global] Instance slink_eq_dec : EqDecision slink.
Proof. solve_decision. Defined.
#[global] Instance slink_countable : Countable slink.
Proof.
  refine (inj_countable' (λ l, match l with SlabsFull c => inl c | SlabsNotfull c => inr (inl c) | SlabLink p => inr (inr p) end)
            (λ s, match s with inl c => SlabsFull c | inr (inl c) => SlabsNotfull c | inr (inr p) => SlabLink p end) _).
  by intros [].
Defined.

Record kmem {A : Type} : Type := MkKmem {
  slab_cache : gmap Z kmem_cache_t;
  slabs : gmap Z slab_t;
  bufctls : gmap Z Z;
  slinks : gmap slink (list_entry slink);
  page_next : gmap Z Z;        (* page_link.next of the pages of slabs *)
  page_prev : gmap Z Z;        (* page_link.prev *)
  intr_on : bool;              (* the interrupt flag *)
  spages : A }.
Arguments kmem : clear implicits.

(** ** The layout of a slab *)
Definition slab_mgmt_size (num align : Z) : Z :=
  ROUNDUP (u32 (sizeof_slab_t + u32 (num * sizeof_kmem_bufctl_t))) align.

(** while (slab_mgmt_size(nr_objs, align) + nr_objs * objsize > slab_size) *)
Fixpoint estimate_loop (fuel : nat) (slab_size objsize align nr_objs : Z) : option Z :=
  match fuel with
  | O => None
  | S fuel =>
    if bool_decide (u32 (slab_mgmt_size nr_objs align + u32 (nr_objs * objsize)) > slab_size)
    then estimate_loop fuel slab_size objsize align (u32 (nr_objs - 1)) else Some nr_objs
  end.

(** Returns *remainder and *num. *)
Definition cache_estimate {T} (order objsize align : Z) (off_slab : bool) : M T (Z * Z) :=
  let slab_size := u32 (Z.shiftl PGSIZE order) in
  '(mgmt_size, nr_objs) ←
    (if off_slab then
       let nr_objs := slab_size / objsize in
       mret (0, if bool_decide (nr_objs > SLAB_LIMIT) then SLAB_LIMIT else nr_objs)
     else
       let nr_objs := u32 (slab_size - sizeof_slab_t) / u32 (objsize + sizeof_kmem_bufctl_t) in
       match estimate_loop (S (Z.to_nat nr_objs)) slab_size objsize align nr_objs with
       | None => out_of_fuel
       | Some nr_objs =>
         let nr_objs := if bool_decide (nr_objs > SLAB_LIMIT) then SLAB_LIMIT else nr_objs in
         mret (slab_mgmt_size nr_objs align, nr_objs)
       end);
  mret (u32 (slab_size - u32 (nr_objs * objsize) - mgmt_size), nr_objs).

Fixpoint getorder_loop {T} (fuel : nat) (n order order_size : Z) : M T Z :=
  match fuel with
  | O => out_of_fuel
  | S fuel =>
    if bool_decide (order ≤ MAX_SIZE_ORDER) then
      if bool_decide (n ≤ order_size) then mret order
      else getorder_loop fuel n (order + 1) (u32 (Z.shiftl order_size 1))
    else panic
  end.
Definition getorder {T} (n : Z) : M T Z := getorder_loop 14 n MIN_SIZE_ORDER (Z.shiftl 1 MIN_SIZE_ORDER).

Section Model.
Context {A : Type}.
Context (alloc_pages : Z → M A (option Z)) (free_pages : Z → Z → M A unit) (npage : Z).
Context (PageSlab : Z → M A bool) (SetPageSlab ClearPageSlab : Z → M A unit).
Abbreviation K := (kmem A).

Definition slinks_lens : lens K (gmap slink (list_entry slink)) :=
  Lens slinks (λ l s, MkKmem A (slab_cache s) (slabs s) (bufctls s) l (page_next s) (page_prev s) (intr_on s) (spages s)).
Definition spages_lens : lens K A :=
  Lens spages (λ a s, MkKmem A (slab_cache s) (slabs s) (bufctls s) (slinks s) (page_next s) (page_prev s) (intr_on s) a).
Definition upd_cache (f : gmap Z kmem_cache_t → gmap Z kmem_cache_t) (s : K) : K :=
  MkKmem A (f (slab_cache s)) (slabs s) (bufctls s) (slinks s) (page_next s) (page_prev s) (intr_on s) (spages s).
Definition upd_slabs (f : gmap Z slab_t → gmap Z slab_t) (s : K) : K :=
  MkKmem A (slab_cache s) (f (slabs s)) (bufctls s) (slinks s) (page_next s) (page_prev s) (intr_on s) (spages s).
Definition upd_bufctls (f : gmap Z Z → gmap Z Z) (s : K) : K :=
  MkKmem A (slab_cache s) (slabs s) (f (bufctls s)) (slinks s) (page_next s) (page_prev s) (intr_on s) (spages s).
Definition upd_page_links (f g : gmap Z Z → gmap Z Z) (s : K) : K :=
  MkKmem A (slab_cache s) (slabs s) (bufctls s) (slinks s) (f (page_next s)) (g (page_prev s)) (intr_on s) (spages s).
Definition set_intr (b : bool) (s : K) : K :=
  MkKmem A (slab_cache s) (slabs s) (bufctls s) (slinks s) (page_next s) (page_prev s) b (spages s).

Definition get_cache (c : Z) : M K kmem_cache_t := λ s,
  match slab_cache s !! c with Some x => Ret (x, s) | None => Fault end.
Definition set_cache (c : Z) (f : kmem_cache_t → kmem_cache_t) : M K unit := λ s,
  match slab_cache s !! c with Some x => Ret ((), upd_cache <[c := f x]> s) | None => Fault end.
Definition get_slab (p : Z) : M K slab_t := λ s,
  match slabs s !! p with Some x => Ret (x, s) | None => Fault end.
Definition set_slab (p : Z) (f : slab_t → slab_t) : M K unit := λ s,
  match slabs s !! p with Some x => Ret ((), upd_slabs <[p := f x]> s) | None => Fault end.

Definition local_irq_save : M K bool := b ← gets intr_on; modify (set_intr false);; mret b.
Definition local_irq_restore (b : bool) : M K unit := modify (set_intr b).

Definition le2slab (le : slink) : M K Z :=
  match le with SlabLink p => mret p | _ => fault end.

(** &slab_bufctl(slabp)[i] *)
Definition slab_bufctl (slabp i : Z) : Z := u32 (slabp + sizeof_slab_t + sizeof_kmem_bufctl_t * i).
Definition get_bufctl (slabp i : Z) : M K Z := λ s,
  match bufctls s !! slab_bufctl slabp i with Some x => Ret (x, s) | None => Fault end.
Definition set_bufctl (slabp i v : Z) : M K unit := modify (upd_bufctls <[slab_bufctl slabp i := v]>).

Definition on_slinks {B} (m : M (gmap slink (list_entry slink)) B) : M K B := zoom slinks_lens m.
Definition on_spages {B} (m : M A B) : M K B := zoom spages_lens m.

Definition SET_PAGE_CACHE (page cachep : Z) : M K unit := modify (upd_page_links <[page := cachep]> id).
Definition SET_PAGE_SLAB (page slabp : Z) : M K unit := modify (upd_page_links id <[page := slabp]>).
(** What page_link holds of a page in no slab does not matter. *)
Definition GET_PAGE_CACHE (page : Z) : M K Z := gets (λ s, default 0 (page_next s !! page)).
Definition GET_PAGE_SLAB (page : Z) : M K Z := gets (λ s, default 0 (page_prev s !! page)).

(** ** Initialization *)
(** for (order = 0; order <= KMALLOC_MAX_ORDER; order ++); returns *left_over *)
Fixpoint order_loop (fuel : nat) (cachep objsize align : Z) (off : bool) (order : Z) : M K Z :=
  match fuel with
  | O => out_of_fuel
  | S fuel =>
    if bool_decide (order ≤ KMALLOC_MAX_ORDER) then
      '(remainder, n) ← cache_estimate order objsize align off;
      if bool_decide (n ≠ 0) then
        (if off && bool_decide (n > u32 (objsize - sizeof_slab_t) / sizeof_kmem_bufctl_t) then panic else skip);;
        if bool_decide (u32 (remainder * 8) ≤ Z.shiftl PGSIZE order) then
          set_cache cachep (λ c, MkCache (Slab.objsize c) n (offset c) (off_slab c) order (slab_cachep c));;
          mret remainder
        else order_loop fuel cachep objsize align off (order + 1)
      else order_loop fuel cachep objsize align off (order + 1)
    else panic
  end.
Definition calculate_slab_order (cachep objsize align : Z) (off : bool) : M K Z :=
  order_loop 12 cachep objsize align off 0.

Definition init_kmem_cache (cachep objsize align : Z) : M K unit :=
  on_slinks (list_init (SlabsFull cachep));;
  on_slinks (list_init (SlabsNotfull cachep));;
  let objsize := ROUNDUP objsize align in
  let off := bool_decide (objsize >= Z.shiftr PGSIZE 3) in
  set_cache cachep (λ c, MkCache objsize (num c) (offset c) off (page_order c) (slab_cachep c));;
  left_over ← calculate_slab_order cachep objsize align off;
  c ← get_cache cachep;
  assert (bool_decide (num c > 0));;
  let mgmt_size := slab_mgmt_size (num c) align in
  let off := off && negb (bool_decide (left_over >= mgmt_size)) in
  set_cache cachep (λ c, MkCache (Slab.objsize c) (num c) (offset c) off (page_order c) (slab_cachep c));;
  if off then
    order ← getorder mgmt_size;
    set_cache cachep (λ c, MkCache (Slab.objsize c) (num c) 0 (off_slab c) (page_order c) (Some (order - MIN_SIZE_ORDER)))
  else set_cache cachep (λ c, MkCache (Slab.objsize c) (num c) mgmt_size (off_slab c) (page_order c) (slab_cachep c)).

Fixpoint slab_init_loop (n : nat) (i : Z) : M K unit :=
  match n with
  | O => skip
  | S n => init_kmem_cache i (Z.shiftl 1 (i + MIN_SIZE_ORDER)) 16;; slab_init_loop n (i + 1)
  end.
Definition slab_init : M K unit := slab_init_loop 13 0.

(** ** Allocation; 0 is NULL *)
(** The memory at [slabp] becomes a slab_t; the fields the code has not written
    yet have some value. *)
Definition new_slab (slabp : Z) (sl : slab_t) (s : K) : K :=
  over slinks_lens (<[SlabLink slabp := ListEntry (SlabLink slabp) (SlabLink slabp)]> (slinks s))
    (upd_slabs <[slabp := sl]> s).

Definition kmem_cache_slabmgmt (kmem_cache_alloc : Z → M K Z) (cachep page : Z) : M K Z :=
  objp ← page2kva npage page;
  c ← get_cache cachep;
  slabp ← (if off_slab c then
             match slab_cachep c with Some c' => kmem_cache_alloc c' | None => fault end
           else page2kva npage page);
  if bool_decide (slabp = 0) then mret 0
  else modify (new_slab slabp (MkSlab (u32 (objp + offset c)) 0 (offset c) 0));; mret slabp.

(** do ... while (-- order_size) *)
Fixpoint mark_pages (n : nat) (page cachep slabp : Z) : M K unit :=
  match n with
  | O => skip
  | S n =>
    SET_PAGE_CACHE page cachep;; SET_PAGE_SLAB page slabp;; on_spages (SetPageSlab page);;
    mark_pages n (page + 1) cachep slabp
  end.
(** for (i = 0; i < cachep->num; i ++) *)
Fixpoint fill_bufctl (n : nat) (slabp i : Z) : M K unit :=
  match n with
  | O => skip
  | S n => set_bufctl slabp i (u32 (i + 1));; fill_bufctl n slabp (i + 1)
  end.

Definition kmem_cache_grow (kmem_cache_alloc : Z → M K Z) (cachep : Z) : M K bool :=
  c ← get_cache cachep;
  let order_size := Z.shiftl 1 (page_order c) in
  page ← on_spages (alloc_pages order_size);
  match page with
  | None => mret false
  | Some page =>
    slabp ← kmem_cache_slabmgmt kmem_cache_alloc cachep page;
    if bool_decide (slabp = 0) then on_spages (free_pages page order_size);; mret false
    else
      mark_pages (Z.to_nat order_size) page cachep slabp;;
      fill_bufctl (Z.to_nat (num c)) slabp 0;;
      set_bufctl slabp (u32 (num c - 1)) BUFCTL_END;;
      set_slab slabp (λ sl, MkSlab (s_mem sl) (inuse sl) (s_offset sl) 0);;
      intr_flag ← local_irq_save;
      on_slinks (list_add (SlabsNotfull cachep) (SlabLink slabp));;
      local_irq_restore intr_flag;;
      mret true
  end.

Definition kmem_cache_alloc_one (cachep slabp : Z) : M K Z :=
  set_slab slabp (λ sl, MkSlab (s_mem sl) (u32 (inuse sl + 1)) (s_offset sl) (s_free sl));;
  c ← get_cache cachep;
  sl ← get_slab slabp;
  let objp := u32 (s_mem sl + u32 (s_free sl * objsize c)) in
  free ← get_bufctl slabp (s_free sl);
  set_slab slabp (λ sl, MkSlab (s_mem sl) (inuse sl) (s_offset sl) free);;
  (if bool_decide (free = BUFCTL_END) then
     on_slinks (list_del (SlabLink slabp));;
     on_slinks (list_add (SlabsFull cachep) (SlabLink slabp))
   else skip);;
  mret objp.

Fixpoint kmem_cache_alloc (fuel : nat) (cachep : Z) : M K Z :=
  match fuel with
  | O => out_of_fuel
  | S fuel =>
    intr_flag ← local_irq_save;
    empty ← on_slinks (list_empty (SlabsNotfull cachep));
    if (empty : bool) then
      local_irq_restore intr_flag;;
      grown ← kmem_cache_grow (kmem_cache_alloc fuel) cachep;
      if (grown : bool) then kmem_cache_alloc fuel cachep else mret 0
    else
      le ← on_slinks (list_next (SlabsNotfull cachep));
      slabp ← le2slab le;
      objp ← kmem_cache_alloc_one cachep slabp;
      local_irq_restore intr_flag;;
      mret objp
  end.

Definition kmalloc (fuel : nat) (size : Z) : M K Z :=
  assert (bool_decide (size > 0));;
  order ← getorder size;
  if bool_decide (order > MAX_SIZE_ORDER) then mret 0
  else kmem_cache_alloc fuel (order - MIN_SIZE_ORDER).

(** ** Freeing *)
Fixpoint clear_pages (n : nat) (p : Z) : M K unit :=
  match n with
  | O => skip
  | S n =>
    b ← on_spages (PageSlab p); assert b;;
    on_spages (ClearPageSlab p);;
    clear_pages n (p + 1)
  end.

Definition kmem_slab_destroy (kmem_cache_free : Z → Z → M K unit) (cachep slabp : Z) : M K unit :=
  sl ← get_slab slabp;
  page ← kva2page npage (u32 (s_mem sl - s_offset sl));
  c ← get_cache cachep;
  let order_size := Z.shiftl 1 (page_order c) in
  clear_pages (Z.to_nat order_size) page;;
  on_spages (free_pages page order_size);;
  if off_slab c then
    match slab_cachep c with Some c' => kmem_cache_free c' slabp | None => fault end
  else skip.

Definition kmem_cache_free_one (kmem_cache_free : Z → Z → M K unit) (cachep slabp objp : Z) : M K unit :=
  sl ← get_slab slabp;
  c ← get_cache cachep;
  let objnr := u32 (objp - s_mem sl) / objsize c in
  set_bufctl slabp objnr (s_free sl);;
  set_slab slabp (λ sl, MkSlab (s_mem sl) (u32 (inuse sl - 1)) (s_offset sl) objnr);;
  sl ← get_slab slabp;
  if bool_decide (inuse sl = 0) then
    on_slinks (list_del (SlabLink slabp));;
    kmem_slab_destroy kmem_cache_free cachep slabp
  else if bool_decide (inuse sl = u32 (num c - 1)) then
    on_slinks (list_del (SlabLink slabp));;
    on_slinks (list_add (SlabsNotfull cachep) (SlabLink slabp))
  else skip.

Fixpoint kmem_cache_free (fuel : nat) (cachep objp : Z) : M K unit :=
  match fuel with
  | O => out_of_fuel
  | S fuel =>
    page ← kva2page npage objp;
    b ← on_spages (PageSlab page);
    (if negb b then panic else skip);;
    intr_flag ← local_irq_save;
    slabp ← GET_PAGE_SLAB page;
    kmem_cache_free_one (kmem_cache_free fuel) cachep slabp objp;;
    local_irq_restore intr_flag
  end.

Definition kfree (fuel : nat) (objp : Z) : M K unit :=
  page ← kva2page npage objp;
  cachep ← GET_PAGE_CACHE page;
  kmem_cache_free fuel cachep objp.

(** ** slab_allocated *)
(** while ((le = list_next(le)) != list) total += cachep->num * cachep->objsize; *)
Fixpoint full_loop (fuel : nat) (cachep : Z) (le : slink) (total : Z) : M K Z :=
  match fuel with
  | O => out_of_fuel
  | S fuel =>
    le ← on_slinks (list_next le);
    if bool_decide (le ≠ SlabsFull cachep) then
      c ← get_cache cachep;
      full_loop fuel cachep le (u32 (total + u32 (num c * objsize c)))
    else mret total
  end.
Fixpoint notfull_loop (fuel : nat) (cachep : Z) (le : slink) (total : Z) : M K Z :=
  match fuel with
  | O => out_of_fuel
  | S fuel =>
    le ← on_slinks (list_next le);
    if bool_decide (le ≠ SlabsNotfull cachep) then
      slabp ← le2slab le;
      sl ← get_slab slabp;
      c ← get_cache cachep;
      notfull_loop fuel cachep le (u32 (total + u32 (inuse sl * objsize c)))
    else mret total
  end.
Fixpoint allocated_loop (n fuel : nat) (i total : Z) : M K Z :=
  match n with
  | O => mret total
  | S n =>
    total ← full_loop fuel i (SlabsFull i) total;
    total ← notfull_loop fuel i (SlabsNotfull i) total;
    allocated_loop n fuel (i + 1) total
  end.
Definition slab_allocated (fuel : nat) : M K Z :=
  intr_flag ← local_irq_save;
  total ← allocated_loop 13 fuel 0 0;
  local_irq_restore intr_flag;;
  mret total.
End Model.
