(* ===== verification/SlabPages.v ===== *)
(** * The pages of slabs

    What the slab allocator relies on of the page allocator and of the flag
    PG_slab of struct Page, and the proof that the buddy allocator provides
    it. *)
From stdpp Require Import base gmap list fin_maps.
From Stdlib Require Import ZArith Lia.
From S2P Require Import Prelude DList Bits Buddy BuddyInv BuddyProps BuddyInit BuddySpec Alloc PmmRefs.

(** [slab a p]: the flag PG_slab of page [p]. *)
Class SlabPages {A} (alloc_pages : Z → M A (option Z)) (free_pages : Z → Z → M A unit)
    (PageSlab : Z → M A bool) (SetPageSlab ClearPageSlab : Z → M A unit) (np : Z)
    (held : A → list (Z * Z) → Prop) (slab : A → Z → bool) : Prop := {
  sp_pages :: PageAllocator alloc_pages free_pages np held;
  sp_perm a R R' : held a R → R ≡ₚ R' → held a R';
  sp_get a R p : held a R → p ∈ hand_pages R → PageSlab p a = Ret (slab a p, a);
  sp_set a R p : held a R → p ∈ hand_pages R → ∃ a', SetPageSlab p a = Ret ((), a') ∧ held a' R ∧
    ∀ q, slab a' q = if decide (q = p) then true else slab a q;
  sp_clear a R p : held a R → p ∈ hand_pages R → ∃ a', ClearPageSlab p a = Ret ((), a') ∧ held a' R ∧
    ∀ q, slab a' q = if decide (q = p) then false else slab a q;
  sp_alloc a R n r a' : held a R → 0 < n ≤ 2 ^ 10 → alloc_pages n a = Ret (r, a') →
    ∀ q, q ∈ hand_pages R → slab a' q = slab a q;
  sp_free a R i n a' : held a ((i, n) :: R) → free_pages i n a = Ret ((), a') →
    ∀ q, q ∈ hand_pages R → slab a' q = slab a q }.

(** ** kern/include/memlayout.h, over the pages of the buddy allocator *)
Definition PG_slab : Z := 2.
Definition PageSlab (pg : Page) : bool := Z.testbit (flags pg) PG_slab.
Definition SetPageSlab (pg : Page) : Page := set_flags (Z.lor (flags pg) (Z.shiftl 1 PG_slab)) pg.
Definition ClearPageSlab (pg : Page) : Page :=
  set_flags (Z.land (flags pg) (u32 (Z.lnot (Z.shiftl 1 PG_slab)))) pg.

Definition buddy_PageSlab (p : Z) : M pmm bool := pg ← get_page p; mret (PageSlab pg).
Definition buddy_SetPageSlab (p : Z) : M pmm unit := set_page p SetPageSlab.
Definition buddy_ClearPageSlab (p : Z) : M pmm unit := set_page p ClearPageSlab.
Definition slab_flag (s : pmm) (p : Z) : bool := default false (page_view PageSlab s p).

(** set_bit and clear_bit, one bit at a time *)
Lemma set_bit_testbit x k j : 0 ≤ k → 0 ≤ j → Z.testbit (Z.lor x (Z.shiftl 1 k)) j = Z.testbit x j || bool_decide (j = k).
Proof.
  intros Hk Hj. rewrite Z.lor_spec, Z.shiftl_1_l, Z.pow2_bits_eqb by done. f_equal.
  destruct (Z.eqb_spec k j); case_bool_decide; congruence.
Qed.
Lemma clear_bit_testbit x k j : 0 ≤ k < 32 → 0 ≤ j < 32 →
  Z.testbit (Z.land x (u32 (Z.lnot (Z.shiftl 1 k)))) j = Z.testbit x j && bool_decide (j ≠ k).
Proof.
  intros Hk Hj. unfold u32. rewrite Z.land_spec, Z.mod_pow2_bits_low, Z.lnot_spec, Z.shiftl_1_l, Z.pow2_bits_eqb by lia.
  f_equal. destruct (Z.eqb_spec k j); case_bool_decide; simpl; congruence.
Qed.

#[export] Instance PageSlab_foreign : Foreign PageSlab.
Proof.
  split; intros; unfold PageSlab, SetPageProperty, ClearPageProperty, PG_slab, PG_property; [done| |]; simpl flags.
  - rewrite set_bit_testbit by done. by rewrite orb_false_r.
  - rewrite clear_bit_testbit by lia. by rewrite andb_true_r.
Qed.
#[export] Instance SetPageSlab_unseen : Unseen SetPageSlab.
Proof.
  intros pg. unfold PageProperty, PageReserved, SetPageSlab, PG_property, PG_reserved, PG_slab. simpl flags.
  rewrite !set_bit_testbit by done. by rewrite !orb_false_r.
Qed.
#[export] Instance ClearPageSlab_unseen : Unseen ClearPageSlab.
Proof.
  intros pg. unfold PageProperty, PageReserved, ClearPageSlab, PG_property, PG_reserved, PG_slab. simpl flags.
  rewrite !clear_bit_testbit by lia. by rewrite !andb_true_r.
Qed.
Lemma PageSlab_Set pg : PageSlab (SetPageSlab pg) = true.
Proof. unfold PageSlab, SetPageSlab, PG_slab. simpl flags. rewrite set_bit_testbit by done. apply orb_true_r. Qed.
Lemma PageSlab_Clear pg : PageSlab (ClearPageSlab pg) = false.
Proof. unfold PageSlab, ClearPageSlab, PG_slab. simpl flags. rewrite clear_bit_testbit by lia. apply andb_false_r. Qed.

Lemma slab_flag_insert s p pg q :
  slab_flag (with_pages (<[p := pg]> (pages s)) s) q = if decide (q = p) then PageSlab pg else slab_flag s q.
Proof.
  unfold slab_flag, page_view. simpl. destruct (decide (q = p)) as [->|Hne].
  - by rewrite lookup_insert_eq.
  - by rewrite lookup_insert_ne.
Qed.

#[export] Instance buddy_slab_pages np :
  SlabPages buddy_alloc_pages buddy_free_pages buddy_PageSlab buddy_SetPageSlab buddy_ClearPageSlab np
    (buddy_held np) slab_flag.
Proof.
  split; [apply _|apply buddy_held_perm|..].
  - intros s R p Hh Hp. destruct (held_page np s R p Hh Hp) as [pg Hpg]. unfold buddy_PageSlab.
    mrun (get_page_run _ _ _ Hpg). unfold slab_flag, page_view. by rewrite Hpg.
  - intros s R p Hh Hp. destruct (held_unseen np s R p SetPageSlab Hh Hp) as (pg & Hpg & E & H').
    eexists. split_and!; [done|done|]. intros q. by rewrite slab_flag_insert, PageSlab_Set.
  - intros s R p Hh Hp. destruct (held_unseen np s R p ClearPageSlab Hh Hp) as (pg & Hpg & E & H').
    eexists. split_and!; [done|done|]. intros q. by rewrite slab_flag_insert, PageSlab_Clear.
  - intros s R n r s' Hh Hn E q Hq. unfold slab_flag. f_equal. by eapply held_alloc_keeps; [apply _|..].
  - intros s R i n s' Hh E q Hq. unfold slab_flag. f_equal. by eapply held_free_keeps; [apply _|..].
Qed.
