(* ===== verification/SlabInv.v ===== *)
(** * The invariant of the slab allocator

    A ghost map records, for every slab, its cache, its first page and the
    indices of its free objects in the order of the bufctl chain. *)
From stdpp Require Import base gmap list fin_maps.
From Stdlib Require Import ZArith Lia.
From S2P Require Import Prelude DList Bits Printfmt Mmu BuddySpec Alloc SlabPages Slab.

Record gslab : Type := GSlab { g_cache : Z; g_page : Z; g_free : list Z }.

(** ** The caches *)
Definition slab_bytes (x : kmem_cache_t) : Z := 2 ^ page_order x * PGSIZE.

(** The geometry of a cache: the control area and the objects fit. *)
Record cache_ok (C : gmap Z kmem_cache_t) (c : Z) (x : kmem_cache_t) : Prop := {
  co_size : 32 ≤ objsize x;
  co_num : 1 ≤ num x < 2 ^ 16;
  co_order : 0 ≤ page_order x ≤ 10;
  co_offset : 0 ≤ offset x;
  co_fit : offset x + num x * objsize x ≤ slab_bytes x;
  co_on : off_slab x = false → sizeof_slab_t + sizeof_kmem_bufctl_t * num x ≤ offset x;
  co_off : off_slab x = true → ∃ c' x', slab_cachep x = Some c' ∧ C !! c' = Some x' ∧ off_slab x' = false ∧
    sizeof_slab_t + sizeof_kmem_bufctl_t * num x ≤ objsize x' }.
Definition geometry (C : gmap Z kmem_cache_t) : Prop := ∀ c x, C !! c = Some x → cache_ok C c x.

(** ** Slabs and objects *)
Definition base (g : gslab) : Z := KERNBASE + g_page g * PGSIZE.
Definition obj (x : kmem_cache_t) (g : gslab) (k : Z) : Z := base g + offset x + k * objsize x.
Definition region (x : kmem_cache_t) (g : gslab) (q : Z) : Prop := g_page g ≤ q < g_page g + 2 ^ page_order x.

(** The list a slab is on. *)
Definition home (g : gslab) : slink :=
  if decide (g_free g = []) then SlabsFull (g_cache g) else SlabsNotfull (g_cache g).

(** The areas of memory slabs consist of: the control area of a slab that has it
    in its own pages, and the objects. *)
Inductive use : Type := UCtl (p : Z) | UObj (p k : Z).

Section Inv.
Context {A : Type} {alloc_pages : Z → M A (option Z)} {free_pages : Z → Z → M A unit}.
Context {PageSlab : Z → M A bool} {SetPageSlab ClearPageSlab : Z → M A unit} {np : Z}.
Context {held : A → list (Z * Z) → Prop} {slab : A → Z → bool}.
Context `{HS : !SlabPages alloc_pages free_pages PageSlab SetPageSlab ClearPageSlab np held slab}.
Implicit Types (s : kmem A) (G : gmap Z gslab) (R : list (Z * Z)) (C : gmap Z kmem_cache_t).

(** The chain of free objects in the array of bufctls. *)
Definition bchain (b : gmap Z Z) (p : Z) (l : list Z) : Prop :=
  ∀ i k, l !! i = Some k → b !! slab_bufctl p k = Some (default BUFCTL_END (l !! S i)).

(** Object [k] of slab [p] is handed out, and its address is [a]. *)
Definition taken C G (p k a : Z) : Prop :=
  ∃ g x, G !! p = Some g ∧ C !! g_cache g = Some x ∧ 0 ≤ k < num x ∧ k ∉ g_free g ∧ a = obj x g k.

Record slab_ok s G (p : Z) (g : gslab) (x : kmem_cache_t) : Prop := {
  so_slab : slabs s !! p = Some (MkSlab (base g + offset x) (num x - Z.of_nat (length (g_free g))) (offset x)
                                   (default BUFCTL_END (head (g_free g))));
  so_nodup : NoDup (g_free g);
  so_range : ∀ k, k ∈ g_free g → 0 ≤ k < num x;
  so_chain : bchain (bufctls s) p (g_free g);
  so_pages : ∀ q, region x g q →
    page_next s !! q = Some (g_cache g) ∧ page_prev s !! q = Some p ∧ slab (spages s) q = true;
  so_place : if off_slab x then ∃ p' k' g', taken (slab_cache s) G p' k' p ∧ G !! p' = Some g' ∧ slab_cachep x = Some (g_cache g')
             else p = base g }.

Definition ranges C G : list (Z * Z) :=
  (λ '(_, g), (g_page g, match C !! g_cache g with Some x => 2 ^ page_order x | None => 0 end)) <$> map_to_list G.

Record klists C G (h : gmap slink (list_entry slink)) (F : gmap slink (list slink)) : Prop := {
  kl_dlists : dlists h F;
  kl_heads : ∀ hd, is_Some (F !! hd) ↔ ∃ c, is_Some (C !! c) ∧ (hd = SlabsFull c ∨ hd = SlabsNotfull c);
  kl_elems : ∀ hd l e, F !! hd = Some l → e ∈ l ↔ ∃ p g, e = SlabLink p ∧ G !! p = Some g ∧ home g = hd }.

Record kmem_inv s G R : Prop := {
  ki_geo : geometry (slab_cache s);
  ki_held : held (spages s) (ranges (slab_cache s) G ++ R);
  ki_np : np ≤ KMEMSIZE / PGSIZE;
  ki_slab : ∀ p g, G !! p = Some g → ∃ x, slab_cache s !! g_cache g = Some x ∧ slab_ok s G p g x;
  ki_lists : ∃ F, klists (slab_cache s) G (slinks s) F }.

(** ** Addresses *)
Lemma elem_of_hand_pages R i n q : (i, n) ∈ R → i ≤ q < i + n → q ∈ hand_pages R.
Proof.
  intros Hin Hq. unfold hand_pages. apply list_elem_of_bind. exists (i, n). split; [|done]. by apply elem_of_seqZ.
Qed.
Lemma elem_of_ranges C G p g x :
  G !! p = Some g → C !! g_cache g = Some x → (g_page g, 2 ^ page_order x) ∈ ranges C G.
Proof.
  intros Hg Hx. unfold ranges. apply list_elem_of_fmap. exists (p, g). split; [by rewrite Hx|].
  by apply elem_of_map_to_list.
Qed.
Lemma region_held s G R p g x q :
  kmem_inv s G R → G !! p = Some g → slab_cache s !! g_cache g = Some x → region x g q →
  q ∈ hand_pages (ranges (slab_cache s) G).
Proof. intros Hi Hg Hx Hq. eapply elem_of_hand_pages; [|exact Hq]. by eapply elem_of_ranges. Qed.
Lemma page_bounds s G R p g x :
  kmem_inv s G R → G !! p = Some g → slab_cache s !! g_cache g = Some x →
  0 ≤ g_page g ∧ g_page g + 2 ^ page_order x ≤ np ∧ np ≤ 229376.
Proof.
  intros Hi Hg Hx. pose proof (ki_np _ _ _ Hi) as Hnp. change (KMEMSIZE / PGSIZE) with 229376 in Hnp.
  destruct (pa_range (held := held) _ _ (g_page g) (2 ^ page_order x) (ki_held _ _ _ Hi)); [|done].
  apply elem_of_app. left. by eapply elem_of_ranges.
Qed.

(** The page of an address of a slab. *)
Lemma slab_address s G R p g x d :
  kmem_inv s G R → G !! p = Some g → slab_cache s !! g_cache g = Some x → 0 ≤ d < slab_bytes x →
  let q := g_page g + d / PGSIZE in
  region x g q ∧ is_u32 (base g + d) ∧ 0xC0000000 ≤ base g + d ∧
  ∀ {T} (t : T), kva2page np (base g + d) t = Ret (q, t).
Proof.
  intros Hi Hg Hx Hd q. destruct (page_bounds s G R p g x Hi Hg Hx) as (H0 & H1 & H2).
  unfold slab_bytes in Hd. assert (HP : PGSIZE = 4096) by done.
  assert (Hq : 0 ≤ d / PGSIZE < 2 ^ page_order x).
  { split; [apply Z.div_pos; lia|]. apply Z.div_lt_upper_bound; lia. }
  assert (HK : KERNBASE = 0xC0000000) by done.
  split_and!; [unfold region, q; lia|unfold is_u32, base; nia|unfold base; nia|].
  intros T t. unfold kva2page, PADDR, pa2page, base. rewrite bool_decide_false by nia. rewrite bind_mret.
  replace (KERNBASE + g_page g * PGSIZE + d - KERNBASE) with (d + g_page g * PGSIZE) by lia.
  assert (HPPN : PPN (d + g_page g * PGSIZE) = q).
  { unfold PPN, PTXSHIFT, q. rewrite Z.shiftr_div_pow2 by lia. change (2 ^ 12) with PGSIZE.
    rewrite Z.div_add by lia. lia. }
  rewrite HPPN, bool_decide_false by (unfold q; lia). done.
Qed.

Lemma hand_pages_app R R' : hand_pages (R ++ R') = hand_pages R ++ hand_pages R'.
Proof. apply bind_app. Qed.

Definition range_of C (g : gslab) : Z * Z :=
  (g_page g, match C !! g_cache g with Some x => 2 ^ page_order x | None => 0 end).
Lemma ranges_insert C G p g : G !! p = None → ranges C (<[p := g]> G) ≡ₚ range_of C g :: ranges C G.
Proof. intros Hp. unfold ranges. by rewrite map_to_list_insert. Qed.
Lemma ranges_delete C G p g : G !! p = Some g → ranges C G ≡ₚ range_of C g :: ranges C (delete p G).
Proof. intros Hp. unfold ranges. by rewrite <-(map_to_list_delete G p g Hp). Qed.
Lemma ranges_update C G p g g' :
  G !! p = Some g → g_cache g' = g_cache g → g_page g' = g_page g → ranges C (<[p := g']> G) ≡ₚ ranges C G.
Proof.
  intros Hp Hc Hg. rewrite (ranges_delete C G p g Hp), <-insert_delete_eq, ranges_insert by apply lookup_delete_eq.
  unfold range_of. by rewrite Hc, Hg.
Qed.

(** ** Uses of memory do not overlap *)
Definition in_use C G (u : use) (a : Z) : Prop :=
  match u with
  | UCtl p => ∃ g x, G !! p = Some g ∧ C !! g_cache g = Some x ∧ off_slab x = false ∧ base g ≤ a < base g + offset x
  | UObj p k => ∃ g x, G !! p = Some g ∧ C !! g_cache g = Some x ∧ 0 ≤ k < num x ∧ obj x g k ≤ a < obj x g k + objsize x
  end.
Definition use_slab (u : use) : Z := match u with UCtl p => p | UObj p _ => p end.

Lemma in_use_place s G R u a :
  kmem_inv s G R → in_use (slab_cache s) G u a → ∃ g x, G !! use_slab u = Some g ∧ slab_cache s !! g_cache g = Some x ∧
    0 ≤ a - base g < slab_bytes x ∧
    match u with UCtl _ => a - base g < offset x | UObj _ k => 0 ≤ k < num x ∧ obj x g k ≤ a < obj x g k + objsize x end.
Proof.
  intros Hi. destruct u as [p|p k]; simpl.
  - intros (g & x & Hg & Hx & Hoff & Ha). exists g, x. split_and!; try done; [lia| |lia].
    destruct (ki_geo _ _ _ Hi _ _ Hx). nia.
  - intros (g & x & Hg & Hx & Hk & Ha). exists g, x. destruct (ki_geo _ _ _ Hi _ _ Hx).
    assert (0 ≤ k * objsize x ∧ (k + 1) * objsize x ≤ num x * objsize x) by nia.
    unfold obj in *. split_and!; try done; lia.
Qed.

Lemma in_use_page s G R u a :
  kmem_inv s G R → in_use (slab_cache s) G u a → ∃ q,
    (∀ {T} (t : T), kva2page np a t = Ret (q, t)) ∧ q ∈ hand_pages (ranges (slab_cache s) G) ∧
    page_prev s !! q = Some (use_slab u) ∧ slab (spages s) q = true ∧ is_u32 a ∧ 0xC0000000 ≤ a ∧
    ∃ g, G !! use_slab u = Some g ∧ page_next s !! q = Some (g_cache g).
Proof.
  intros Hi Hu. destruct (in_use_place s G R u a Hi Hu) as (g & x & Hg & Hx & Hd & _).
  destruct (slab_address s G R _ g x (a - base g) Hi Hg Hx Hd) as (Hq & H32 & Hlow & Hpg).
  replace (base g + (a - base g)) with a in * by lia.
  eexists. split; [exact Hpg|]. split; [by eapply region_held|].
  destruct (ki_slab _ _ _ Hi _ _ Hg) as (x' & Hx' & [_ _ _ _ Hso _]). rewrite Hx in Hx'. injection Hx' as <-.
  destruct (Hso _ Hq) as (H1 & H2 & H3). split_and!; try done. by exists g.
Qed.

Lemma in_use_inj s G R u u' a :
  kmem_inv s G R → in_use (slab_cache s) G u a → in_use (slab_cache s) G u' a → u = u'.
Proof.
  intros Hi Hu Hu'. destruct (in_use_page s G R u a Hi Hu) as (q & Eq & _ & Hq & _).
  destruct (in_use_page s G R u' a Hi Hu') as (q' & Eq' & _ & Hq' & _).
  assert (q' = q) as ->. { specialize (Eq _ tt). rewrite Eq' in Eq. congruence. }
  assert (Hs : use_slab u = use_slab u') by congruence.
  destruct (in_use_place s G R u a Hi Hu) as (g & x & Hg & Hx & _ & H1).
  destruct (in_use_place s G R u' a Hi Hu') as (g' & x' & Hg' & Hx' & _ & H2).
  rewrite <-Hs, Hg in Hg'. injection Hg' as <-. rewrite Hx in Hx'. injection Hx' as <-.
  destruct (ki_geo _ _ _ Hi _ _ Hx). unfold obj in *.
  destruct u as [p|p k], u' as [p'|p' k']; simpl in Hs; subst p'; [done|nia|nia|]. f_equal. nia.
Qed.

Lemma taken_use C G p k a d x g :
  taken C G p k a → G !! p = Some g → C !! g_cache g = Some x → 0 ≤ d < objsize x → in_use C G (UObj p k) (a + d).
Proof.
  intros (g' & x' & Hg & Hx & Hk & _ & ->) Hg' Hx' Hd. rewrite Hg in Hg'. injection Hg' as <-.
  rewrite Hx in Hx'. injection Hx' as <-. exists g', x'. split_and!; try done; lia.
Qed.
Lemma taken_in_use s G R p k a : kmem_inv s G R → taken (slab_cache s) G p k a → in_use (slab_cache s) G (UObj p k) a.
Proof.
  intros Hi Ht. pose proof Ht as (g & x & Hg & Hx & _). rewrite <-(Z.add_0_r a). eapply taken_use; try done.
  destruct (ki_geo _ _ _ Hi _ _ Hx). lia.
Qed.

(** ** Control areas *)
(** [u] holds the control area of slab [p]. *)
Definition ctl_use C G (p : Z) (u : use) : Prop :=
  match u with
  | UCtl p' => p' = p ∧ ∃ g, G !! p = Some g ∧ p = base g
  | UObj p' k' => taken C G p' k' p
  end.
Lemma ctl_use_inj C G p p' u : ctl_use C G p u → ctl_use C G p' u → p = p'.
Proof.
  destruct u as [p1|p1 k1]; simpl; [naive_solver|].
  intros (g & x & Hg & Hx & _ & _ & ->) (g' & x' & Hg' & Hx' & _ & _ & ->). congruence.
Qed.

Lemma ctl_block s G R p g x :
  kmem_inv s G R → G !! p = Some g → slab_cache s !! g_cache g = Some x →
  ∃ u, ctl_use (slab_cache s) G p u ∧ ∀ d, 0 ≤ d < sizeof_slab_t + sizeof_kmem_bufctl_t * num x → in_use (slab_cache s) G u (p + d).
Proof.
  intros Hi Hg Hx. destruct (ki_slab _ _ _ Hi _ _ Hg) as (x' & Hx' & [_ _ _ _ _ Hpl]).
  rewrite Hx in Hx'. injection Hx' as <-. destruct (ki_geo _ _ _ Hi _ _ Hx) as [_ Hn _ _ _ Hon Hoff].
  destruct (off_slab x) eqn:Eo.
  - destruct Hpl as (p' & k' & g' & Ht & Hg' & Hc). destruct (Hoff eq_refl) as (c' & x' & Hc' & Hx' & _ & Hsz).
    rewrite Hc in Hc'. injection Hc' as <-. exists (UObj p' k'). split; [done|]. intros d Hd. eapply taken_use; try done. lia.
  - exists (UCtl p). split; [split; [done|by exists g]|]. intros d Hd. exists g, x. specialize (Hon eq_refl). split_and!; try done; lia.
Qed.
Lemma ctl_area s G R p g x d :
  kmem_inv s G R → G !! p = Some g → slab_cache s !! g_cache g = Some x →
  0 ≤ d < sizeof_slab_t + sizeof_kmem_bufctl_t * num x →
  ∃ u, ctl_use (slab_cache s) G p u ∧ in_use (slab_cache s) G u (p + d).
Proof. intros Hi Hg Hx Hd. destruct (ctl_block s G R p g x Hi Hg Hx) as (u & Hc & Hu). exists u. split; [done|by apply Hu]. Qed.

Lemma slab_bufctl_eq s G R p g x k :
  kmem_inv s G R → G !! p = Some g → slab_cache s !! g_cache g = Some x → 0 ≤ k < num x →
  slab_bufctl p k = p + (sizeof_slab_t + sizeof_kmem_bufctl_t * k).
Proof.
  intros Hi Hg Hx Hk. unfold slab_bufctl.
  destruct (ctl_area s G R p g x (sizeof_slab_t + sizeof_kmem_bufctl_t * k) Hi Hg Hx) as (u & _ & Hu).
  { unfold sizeof_slab_t, sizeof_kmem_bufctl_t. lia. }
  destruct (in_use_page s G R u _ Hi Hu) as (_ & _ & _ & _ & _ & H32 & _).
  rewrite Z.add_assoc in *. by apply u32_small.
Qed.

Lemma slab_bufctl_inj s G R p g x k p' g' x' k' :
  kmem_inv s G R → G !! p = Some g → slab_cache s !! g_cache g = Some x → 0 ≤ k < num x →
  G !! p' = Some g' → slab_cache s !! g_cache g' = Some x' → 0 ≤ k' < num x' →
  slab_bufctl p k = slab_bufctl p' k' → p = p' ∧ k = k'.
Proof.
  intros Hi Hg Hx Hk Hg' Hx' Hk'.
  rewrite (slab_bufctl_eq s G R p g x k), (slab_bufctl_eq s G R p' g' x' k') by done. intros Heq.
  destruct (ctl_area s G R p g x (sizeof_slab_t + sizeof_kmem_bufctl_t * k) Hi Hg Hx) as (u & Hc & Hu);
    [unfold sizeof_slab_t, sizeof_kmem_bufctl_t; lia|].
  destruct (ctl_area s G R p' g' x' (sizeof_slab_t + sizeof_kmem_bufctl_t * k') Hi Hg' Hx') as (u' & Hc' & Hu');
    [unfold sizeof_slab_t, sizeof_kmem_bufctl_t; lia|].
  rewrite <-Heq in Hu'. assert (u = u') as <- by by eapply in_use_inj. assert (p = p') as <- by by eapply ctl_use_inj.
  split; [done|]. unfold sizeof_slab_t, sizeof_kmem_bufctl_t in Heq. lia.
Qed.

(** The address of a slab is not 0. *)
Lemma slab_nonzero s G R p g : kmem_inv s G R → G !! p = Some g → 0xC0000000 ≤ p < 2 ^ 32.
Proof.
  intros Hi Hg. destruct (ki_slab _ _ _ Hi _ _ Hg) as (x & Hx & _).
  pose proof (co_num _ _ _ (ki_geo _ _ _ Hi _ _ Hx)).
  destruct (ctl_area s G R p g x 0 Hi Hg Hx) as (u & _ & Hu);
    [unfold sizeof_slab_t, sizeof_kmem_bufctl_t; lia|]. rewrite Z.add_0_r in Hu.
  destruct (in_use_page s G R u _ Hi Hu) as (_ & _ & _ & _ & _ & H32 & Hl & _). unfold is_u32 in H32. lia.
Qed.

(** ** The lists of the caches *)
Section Lists.
Context {C : gmap Z kmem_cache_t} {G : gmap Z gslab} {h : gmap slink (list_entry slink)} {F : gmap slink (list slink)}.
Context (HK : klists C G h F).

Lemma home_head g : is_Some (C !! g_cache g) → ∃ l, F !! home g = Some l.
Proof.
  intros Hc. apply (kl_heads _ _ _ _ HK). exists (g_cache g). split; [done|]. unfold home.
  destruct (decide _); [by left|by right].
Qed.

Lemma slab_unowned p : G !! p = None → unowned F (SlabLink p).
Proof.
  intros Hp hd (l & Hl & [<-|Hin]%elem_of_cons).
  - destruct (proj1 (kl_heads _ _ _ _ HK (SlabLink p)) (ex_intro _ l Hl)) as (c & _ & [?|?]); done.
  - apply (kl_elems _ _ _ _ HK _ _ _ Hl) in Hin as (p' & g & [= <-] & Hg & _). congruence.
Qed.

Lemma slab_linked p g : G !! p = Some g → is_Some (C !! g_cache g) → is_Some (h !! SlabLink p).
Proof.
  intros Hg Hc. destruct (home_head g Hc) as [l Hl]. eapply (dlists_alloc h F (SlabLink p) (home g)); [apply HK|].
  eapply owns_member; [done|]. apply (kl_elems _ _ _ _ HK _ _ _ Hl). by exists p, g.
Qed.

Lemma klists_fresh p e : G !! p = None → klists C G (<[SlabLink p := e]> h) F.
Proof.
  intros Hp. pose proof HK as [D H2 H3]. split; [|done..]. apply dlists_fresh; [done|]. by apply slab_unowned.
Qed.

Lemma klists_same p g g' : G !! p = Some g → home g' = home g → klists C (<[p := g']> G) h F.
Proof.
  intros Hg Hh. pose proof HK as [D H2 H3]. split; [done|done|]. intros hd l e Hl. rewrite (H3 hd l e Hl).
  split; intros (p1 & g1 & -> & Hg1 & Hh1).
  - destruct (decide (p1 = p)) as [->|Hne].
    + exists p, g'. rewrite lookup_insert_eq. split_and!; [done..|congruence].
    + exists p1, g1. by rewrite lookup_insert_ne.
  - destruct (decide (p1 = p)) as [->|Hne].
    + rewrite lookup_insert_eq in Hg1. injection Hg1 as <-. exists p, g. split_and!; [done..|congruence].
    + rewrite lookup_insert_ne in Hg1 by done. by exists p1, g1.
Qed.

Lemma klists_del p g : G !! p = Some g → is_Some (C !! g_cache g) →
  ∃ h' F', list_del (SlabLink p) h = Ret ((), h') ∧ klists C (delete p G) h' F' ∧ dom h' = dom h.
Proof.
  intros Hg Hc. destruct (home_head g Hc) as [l Hl]. pose proof HK as [D H2 H3].
  assert (Hin : SlabLink p ∈ l) by (apply (H3 _ _ _ Hl); by exists p, g).
  apply list_elem_of_split in Hin as (l1 & l2 & ->).
  destruct (list_del_dlists h F (home g) l1 (SlabLink p) l2 D Hl) as (h' & E & D' & Hd & Hun).
  exists h', (<[home g := l1 ++ l2]> F). split_and!; [done| |done]. split; [done|..].
  - intros hd. rewrite <-H2. destruct (decide (hd = home g)) as [->|Hne].
    + rewrite lookup_insert_eq. split; intros; by eexists.
    + by rewrite lookup_insert_ne.
  - intros hd l e. destruct (decide (hd = home g)) as [->|Hne].
    + rewrite lookup_insert_eq. intros [= <-]. pose proof (dl_nodup _ _ D _ _ Hl) as [_ Hnd]%NoDup_cons.
      assert (Hmem : e ∈ l1 ++ l2 ↔ e ∈ l1 ++ SlabLink p :: l2 ∧ e ≠ SlabLink p).
      { rewrite NoDup_app, NoDup_cons in Hnd. set_solver. }
      rewrite Hmem, (H3 _ _ _ Hl). split.
      * intros ((p1 & g1 & -> & Hg1 & Hh1) & Hne). exists p1, g1. rewrite lookup_delete_ne by congruence. done.
      * intros (p1 & g1 & -> & [Hne Hg1]%lookup_delete_Some & Hh1). split; [by exists p1, g1|congruence].
    + rewrite lookup_insert_ne by done. intros Hl'. rewrite (H3 _ _ _ Hl'). split.
      * intros (p1 & g1 & -> & Hg1 & Hh1). exists p1, g1. rewrite lookup_delete_ne; [done|]. intros ->. congruence.
      * intros (p1 & g1 & -> & [_ Hg1]%lookup_delete_Some & Hh1). by exists p1, g1.
Qed.

Lemma klists_add p g : G !! p = None → is_Some (C !! g_cache g) → is_Some (h !! SlabLink p) →
  ∃ h' F', list_add (home g) (SlabLink p) h = Ret ((), h') ∧ klists C (<[p := g]> G) h' F' ∧ dom h' = dom h.
Proof.
  intros Hg Hc Hp. destruct (home_head g Hc) as [l Hl]. pose proof HK as [D H2 H3].
  destruct (list_add_head_dlists h F (home g) l (SlabLink p) D Hl (slab_unowned p Hg) Hp) as (h' & E & D' & Hd).
  exists h', (<[home g := SlabLink p :: l]> F). split_and!; [done| |done]. split; [done|..].
  - intros hd. rewrite <-H2. destruct (decide (hd = home g)) as [->|Hne].
    + rewrite lookup_insert_eq. split; intros; by eexists.
    + by rewrite lookup_insert_ne.
  - intros hd l' e. destruct (decide (hd = home g)) as [->|Hne].
    + rewrite lookup_insert_eq. intros [= <-]. rewrite elem_of_cons, (H3 _ _ _ Hl). split.
      * intros [->|(p1 & g1 & -> & Hg1 & Hh1)]; [exists p, g; by rewrite lookup_insert_eq|].
        exists p1, g1. rewrite lookup_insert_ne by congruence. done.
      * intros (p1 & g1 & -> & [[<- <-]|[Hne Hg1]]%lookup_insert_Some & Hh1); [by left|right]. by exists p1, g1.
    + rewrite lookup_insert_ne by done. intros Hl'. rewrite (H3 _ _ _ Hl'). split.
      * intros (p1 & g1 & -> & Hg1 & Hh1). exists p1, g1. rewrite lookup_insert_ne by congruence. done.
      * intros (p1 & g1 & -> & [[<- <-]|[_ Hg1]]%lookup_insert_Some & Hh1); [done|]. by exists p1, g1.
Qed.
End Lists.
End Inv.
