(* ===== verification/SlabProps.v ===== *)
(** * The slab allocator: every operation keeps the invariant *)
From stdpp Require Import base gmap list fin_maps.
From Stdlib Require Import ZArith Lia.
From S2P Require Import Prelude DList Bits Printfmt Mmu BuddySpec Alloc PmmRefs SlabPages Slab SlabInv.

Lemma NoDup_range_length (l : list Z) n : NoDup l → (∀ k, k ∈ l → 0 ≤ k < n) → Z.of_nat (length l) ≤ Z.max 0 n.
Proof.
  intros Hnd Hr. assert (Hsub : l ⊆+ seqZ 0 n).
  { apply NoDup_submseteq; [done|]. intros k Hk. apply elem_of_seqZ. specialize (Hr k Hk). lia. }
  apply submseteq_length in Hsub. rewrite length_seqZ in Hsub. lia.
Qed.

Section Props.
Context {A : Type} {alloc_pages : Z → M A (option Z)} {free_pages : Z → Z → M A unit}.
Context {PageSlab : Z → M A bool} {SetPageSlab ClearPageSlab : Z → M A unit} {np : Z}.
Context {held : A → list (Z * Z) → Prop} {slab : A → Z → bool}.
Context `{HS : !SlabPages alloc_pages free_pages PageSlab SetPageSlab ClearPageSlab np held slab}.
Implicit Types (s : kmem A) (G : gmap Z gslab) (R : list (Z * Z)) (C : gmap Z kmem_cache_t).
Abbreviation kmem_inv := (SlabInv.kmem_inv (np := np) (held := held) (slab := slab)).
Abbreviation slab_ok := (SlabInv.slab_ok (slab := slab)).

(** ** Changes of one slab *)
Lemma taken_update C G p g g' q k a :
  G !! p = Some g → g_cache g' = g_cache g → g_page g' = g_page g → (q = p → k ∉ g_free g') →
  taken C G q k a → taken C (<[p := g']> G) q k a.
Proof.
  intros Hg Hc Hp Hk (g1 & x & Hg1 & Hx & Hr & Hf & ->). destruct (decide (q = p)) as [->|Hne].
  - rewrite Hg in Hg1. injection Hg1 as <-. exists g', x. rewrite lookup_insert_eq, Hc. split_and!; try done; [lia|lia| |].
    + by apply Hk.
    + unfold obj, base. by rewrite Hp.
  - exists g1, x. by rewrite lookup_insert_ne.
Qed.

Lemma inv_update s s' G R p g g' x :
  kmem_inv s G R → G !! p = Some g → slab_cache s !! g_cache g = Some x →
  g_cache g' = g_cache g → g_page g' = g_page g →
  slab_cache s' = slab_cache s → spages s' = spages s → page_next s' = page_next s → page_prev s' = page_prev s →
  slabs s' = <[p := MkSlab (base g + offset x) (num x - Z.of_nat (length (g_free g'))) (offset x)
                (default BUFCTL_END (head (g_free g')))]> (slabs s) →
  NoDup (g_free g') → (∀ k, k ∈ g_free g' → 0 ≤ k < num x) → bchain (bufctls s') p (g_free g') →
  (∀ q g1 x1 k, q ≠ p → G !! q = Some g1 → slab_cache s !! g_cache g1 = Some x1 → 0 ≤ k < num x1 →
     bufctls s' !! slab_bufctl q k = bufctls s !! slab_bufctl q k) →
  (∀ q k, is_Some (G !! q) → taken (slab_cache s) G p k q → k ∉ g_free g') →
  (∃ F, klists (slab_cache s) (<[p := g']> G) (slinks s') F) →
  kmem_inv s' (<[p := g']> G) R.
Proof.
  intros Hi Hg Hx Hc Hp Ec Ea En Ev Es Hnd Hrg Hch Hbuf Htk Hl. pose proof Hi as [I1 I2 I3 I4 I5].
  split; rewrite ?Ec, ?Ea; [done| |done| |done].
  - eapply sp_perm; [exact I2|]. by rewrite (ranges_update _ _ _ _ _ Hg Hc Hp).
  - intros q g1. destruct (decide (q = p)) as [->|Hne].
    + rewrite lookup_insert_eq. intros [= <-]. exists x. rewrite Hc. split; [done|].
      destruct (I4 p g Hg) as (x' & Hx' & [S1 S2 S3 S4 S5 S6]). rewrite Hx in Hx'. injection Hx' as <-.
      split; [..|]; try done.
      * rewrite Es, lookup_insert_eq. unfold base. by rewrite Hp.
      * unfold region. rewrite En, Ev, Ea, Hc, Hp. exact S5.
      * rewrite Ec. destruct (off_slab x); [|unfold base; by rewrite Hp].
        destruct S6 as (p' & k' & g1 & Ht & Hg1 & Hcp). exists p', k'. destruct (decide (p' = p)) as [->|Hn'].
        -- exists g'. rewrite lookup_insert_eq. rewrite Hg in Hg1. injection Hg1 as <-. split_and!; [|done|congruence].
           eapply taken_update; try done. intros _. eapply Htk; [|done]. by exists g.
        -- exists g1. rewrite lookup_insert_ne by done. split_and!; [|done..]. by eapply taken_update.
    + rewrite lookup_insert_ne by done. intros Hq. destruct (I4 q g1 Hq) as (x1 & Hx1 & [S1 S2 S3 S4 S5 S6]).
      exists x1. split; [done|]. split; try done.
      * by rewrite Es, lookup_insert_ne.
      * intros i k Hk. rewrite (Hbuf q g1 x1 k); [by apply S4|done..|]. apply S3. by eapply list_elem_of_lookup_2.
      * by rewrite En, Ev, Ea.
      * rewrite Ec. destruct (off_slab x1); [|done].
        destruct S6 as (p' & k' & g2 & Ht & Hg2 & Hcp). exists p', k'. destruct (decide (p' = p)) as [->|Hn'].
        -- exists g'. rewrite lookup_insert_eq. rewrite Hg in Hg2. injection Hg2 as <-. split_and!; [|done|congruence].
           eapply taken_update; try done. intros _. eapply Htk; [|done]. by exists g1.
        -- exists g2. rewrite lookup_insert_ne by done. split_and!; [|done..]. by eapply taken_update.
Qed.

Lemma inv_delete s s' G R p g x :
  kmem_inv s G R → G !! p = Some g → slab_cache s !! g_cache g = Some x →
  slab_cache s' = slab_cache s → page_next s' = page_next s → page_prev s' = page_prev s →
  (∀ q, q ≠ p → slabs s' !! q = slabs s !! q) →
  (∀ q g1 x1 k, q ≠ p → G !! q = Some g1 → slab_cache s !! g_cache g1 = Some x1 → 0 ≤ k < num x1 →
     bufctls s' !! slab_bufctl q k = bufctls s !! slab_bufctl q k) →
  (∀ q k, is_Some (G !! q) → ¬ taken (slab_cache s) G p k q) →
  held (spages s') (ranges (slab_cache s) (delete p G) ++ R) →
  (∀ q, q ∈ hand_pages (ranges (slab_cache s) (delete p G) ++ R) → slab (spages s') q = slab (spages s) q) →
  (∃ F, klists (slab_cache s) (delete p G) (slinks s') F) →
  kmem_inv s' (delete p G) R.
Proof.
  intros Hi Hg Hx Ec En Ev Es Eb Htk Hh Hfl Hl. pose proof Hi as [I1 I2 I3 I4 I5].
  split; rewrite ?Ec; try done. intros q g1 [Hne Hq]%lookup_delete_Some.
  destruct (I4 q g1 Hq) as (x1 & Hx1 & [S1 S2 S3 S4 S5 S6]). exists x1. split; [done|]. split; rewrite ?Es by done; try done.
  - intros i k Hk. rewrite (Eb q g1 x1 k); [by apply S4|done..|]. apply S3. by eapply list_elem_of_lookup_2.
  - intros r Hr. rewrite En, Ev, Hfl; [by apply S5|]. rewrite hand_pages_app. apply elem_of_app. left.
    eapply elem_of_hand_pages; [|exact Hr]. eapply (elem_of_ranges _ _ q); [by rewrite lookup_delete_ne|done].
  - rewrite Ec. destruct (off_slab x1); [|done]. destruct S6 as (p' & k' & g2 & Ht & Hg2 & Hcp).
    assert (p' ≠ p). { intros ->. eapply Htk; [|exact Ht]. by exists g1. }
    exists p', k', g2. rewrite lookup_delete_ne by done. split_and!; try done.
    destruct Ht as (g3 & x3 & Hg3 & Ht). exists g3, x3. by rewrite lookup_delete_ne.
Qed.

Lemma inv_intr b s G R : kmem_inv s G R → kmem_inv (set_intr b s) G R.
Proof.
  intros [I1 I2 I3 I4 I5]. split; try done. intros q gq Hq. destruct (I4 q gq Hq) as (xq & ? & [? ? ? ? ? ?]).
  exists xq. by split.
Qed.

(** ** A new slab *)
(** Where the control area of a new slab [p] of cache [x] lies. *)
Definition placed C G (p : Z) (g : gslab) (x : kmem_cache_t) : Prop :=
  if off_slab x then ∃ p' k' g', taken C G p' k' p ∧ G !! p' = Some g' ∧ slab_cachep x = Some (g_cache g')
  else p = base g.

Lemma new_range s G R g x :
  kmem_inv s G (range_of (slab_cache s) g :: R) → slab_cache s !! g_cache g = Some x →
  0 ≤ g_page g ∧ g_page g + 2 ^ page_order x ≤ np ∧ np ≤ 229376 ∧
  ∀ q, region x g q → q ∉ hand_pages (ranges (slab_cache s) G) ∧ q ∉ hand_pages R ∧
    q ∈ hand_pages (ranges (slab_cache s) G ++ range_of (slab_cache s) g :: R).
Proof.
  intros Hi Hx. pose proof (ki_np _ _ _ Hi) as Hnp. change (KMEMSIZE / PGSIZE) with 229376 in Hnp.
  pose proof (ki_held _ _ _ Hi) as Hh. unfold range_of in *. rewrite Hx in *.
  destruct (pa_range (held := held) _ _ (g_page g) (2 ^ page_order x) Hh); [set_solver|]. split_and!; try done.
  intros q Hq. pose proof (pa_nodup (held := held) _ _ Hh) as Hnd. rewrite !hand_pages_app in *.
  apply NoDup_app in Hnd as (_ & Hd & Hnd). unfold hand_pages at 1 in Hnd. csimpl in Hnd. apply NoDup_app in Hnd as (_ & Hd' & _).
  assert (Hin : q ∈ seqZ (g_page g) (2 ^ page_order x)) by by apply elem_of_seqZ. split_and!.
  - intros Hc. apply (Hd q Hc). apply list_elem_of_bind. exists (g_page g, 2 ^ page_order x). split; [done|by left].
  - by apply Hd'.
  - apply elem_of_app. right. eapply elem_of_hand_pages; [by left|done].
Qed.

Lemma new_address s G R g x d :
  kmem_inv s G (range_of (slab_cache s) g :: R) → slab_cache s !! g_cache g = Some x → 0 ≤ d < slab_bytes x →
  is_u32 (base g + d) ∧ 0xC0000000 ≤ base g + d ∧ ∀ u, ¬ in_use (slab_cache s) G u (base g + d).
Proof.
  intros Hi Hx Hd. destruct (new_range s G R g x Hi Hx) as (H0 & H1 & H2 & Hnew). unfold slab_bytes in Hd.
  assert (HP : PGSIZE = 4096) by done. assert (HK : KERNBASE = 0xC0000000) by done.
  split_and!; [unfold is_u32, base; nia|unfold base; nia|]. intros u Hu.
  destruct (in_use_page _ _ _ _ _ Hi Hu) as (q & Eq & Hq & _). specialize (Eq _ ()).
  assert (Hr : region x g (g_page g + d / PGSIZE)).
  { unfold region. split; [|apply Z.add_lt_mono_l, Z.div_lt_upper_bound; lia].
    assert (0 ≤ d / PGSIZE) by (apply Z.div_pos; lia). lia. }
  destruct (Hnew _ Hr) as (Hn & _). apply Hn. revert Eq. unfold kva2page, PADDR, pa2page, base.
  rewrite bool_decide_false by nia. rewrite bind_mret.
  replace (KERNBASE + g_page g * PGSIZE + d - KERNBASE) with (d + g_page g * PGSIZE) by lia.
  unfold PPN, PTXSHIFT. rewrite Z.shiftr_div_pow2 by lia. change (2 ^ 12) with PGSIZE.
  rewrite Z.div_add by lia. case_bool_decide; [done|]. intros [= <-].
  by replace (g_page g + d / PGSIZE) with (d / PGSIZE + g_page g) by lia.
Qed.

(** The cells of the new control area belong to no slab of [G]. *)
Lemma new_cell s G R p g x j :
  kmem_inv s G (range_of (slab_cache s) g :: R) → G !! p = None → slab_cache s !! g_cache g = Some x →
  placed (slab_cache s) G p g x → 0 ≤ j < num x →
  slab_bufctl p j = p + (sizeof_slab_t + sizeof_kmem_bufctl_t * j) ∧
  ∀ q g1 x1 k, G !! q = Some g1 → slab_cache s !! g_cache g1 = Some x1 → 0 ≤ k < num x1 →
    slab_bufctl q k ≠ slab_bufctl p j.
Proof.
  intros Hi Hp Hx Hpl Hj. unfold slab_bufctl at 1 3. rewrite <-Z.add_assoc.
  set (d := sizeof_slab_t + sizeof_kmem_bufctl_t * j). destruct (ki_geo _ _ _ Hi _ _ Hx) as [G1 G2 G3 G4 G5 G6 G7].
  assert (Hd : 0 ≤ d < sizeof_slab_t + sizeof_kmem_bufctl_t * num x)
    by (unfold d, sizeof_slab_t, sizeof_kmem_bufctl_t; lia).
  assert (Hkey : is_u32 (p + d) ∧ ∀ q u, is_Some (G !! q) → ctl_use (slab_cache s) G q u → ¬ in_use (slab_cache s) G u (p + d)).
  { unfold placed in Hpl. destruct (off_slab x) eqn:Eo.
    - destruct Hpl as (p' & k' & g' & Ht & Hg' & Hc). destruct (G7 eq_refl) as (c' & x' & Hc' & Hx' & _ & Hsz).
      rewrite Hc in Hc'. injection Hc' as <-.
      assert (Hu : in_use (slab_cache s) G (UObj p' k') (p + d)) by (eapply taken_use; try done; lia).
      destruct (in_use_page _ _ _ _ _ Hi Hu) as (_ & _ & _ & _ & _ & H32 & _). split; [done|].
      intros q u [g1 Hq] Hcu Hu'. assert (u = UObj p' k') as -> by by eapply in_use_inj.
      assert (q = p) as -> by (eapply (ctl_use_inj _ _ q p (UObj p' k')); [exact Hcu|exact Ht]). congruence.
    - subst p. specialize (G6 eq_refl). destruct (new_address s G R g x d Hi Hx) as (H32 & _ & Hno); [nia|].
      split; [done|]. intros q u _ _. apply Hno. }
  destruct Hkey as [H32 Hkey]. rewrite u32_small by done. split; [done|]. intros q g1 x1 k Hq Hx1 Hk Heq.
  destruct (ctl_area s G _ q g1 x1 (sizeof_slab_t + sizeof_kmem_bufctl_t * k) Hi Hq Hx1) as (u & Hcu & Hu);
    [unfold sizeof_slab_t, sizeof_kmem_bufctl_t; lia|].
  eapply Hkey; [by exists g1|exact Hcu|]. rewrite <-Heq. by erewrite slab_bufctl_eq.
Qed.

Lemma inv_add s s' G R p g x :
  kmem_inv s G (range_of (slab_cache s) g :: R) → G !! p = None → slab_cache s !! g_cache g = Some x →
  g_free g = seqZ 0 (num x) → placed (slab_cache s) G p g x →
  slab_cache s' = slab_cache s →
  slabs s' = <[p := MkSlab (base g + offset x) 0 (offset x) 0]> (slabs s) →
  (∀ q, page_next s' !! q = if decide (region x g q) then Some (g_cache g) else page_next s !! q) →
  (∀ q, page_prev s' !! q = if decide (region x g q) then Some p else page_prev s !! q) →
  (∀ q, slab (spages s') q = if decide (region x g q) then true else slab (spages s) q) →
  held (spages s') (ranges (slab_cache s) G ++ range_of (slab_cache s) g :: R) →
  bchain (bufctls s') p (seqZ 0 (num x)) →
  (∀ b, (∀ k, 0 ≤ k < num x → b ≠ slab_bufctl p k) → bufctls s' !! b = bufctls s !! b) →
  (∃ F, klists (slab_cache s) (<[p := g]> G) (slinks s') F) →
  kmem_inv s' (<[p := g]> G) R.
Proof.
  intros Hi Hp Hx Hf Hpl Ec Es En Ev Efl Hh Hch Hb Hl. pose proof Hi as [I1 I2 I3 I4 I5].
  destruct (I1 _ _ Hx) as [G1 G2 G3 G4 G5 G6 G7]. destruct (new_range s G R g x Hi Hx) as (_ & _ & _ & Hnew).
  assert (Htk : ∀ q k a, taken (slab_cache s) G q k a → taken (slab_cache s) (<[p := g]> G) q k a).
  { intros q k a (g1 & x1 & Hg1 & Ht). exists g1, x1. rewrite lookup_insert_ne; [done|]. intros <-. congruence. }
  assert (Hplace : ∀ x1 P, (if off_slab x1 then ∃ p' k' g', taken (slab_cache s) G p' k' P ∧ G !! p' = Some g' ∧ slab_cachep x1 = Some (g_cache g') else True) →
     if off_slab x1 then ∃ p' k' g', taken (slab_cache s) (<[p := g]> G) p' k' P ∧ <[p := g]> G !! p' = Some g' ∧ slab_cachep x1 = Some (g_cache g') else True).
  { intros x1 P. destruct (off_slab x1); [|done]. intros (p' & k' & g' & Ht & Hg' & Hc). exists p', k', g'.
    split_and!; [by apply Htk| |done]. rewrite lookup_insert_ne; [done|]. intros <-. congruence. }
  split; rewrite ?Ec; try done.
  - eapply sp_perm; [exact Hh|]. rewrite (ranges_insert _ _ _ _ Hp). symmetry. apply Permutation_middle.
  - intros q g1 [[<- <-]|[Hne Hq]]%lookup_insert_Some.
    + exists x. split; [done|]. split; rewrite ?Ec, ?Hf; try done.
      * rewrite Es, lookup_insert_eq, length_seqZ, Z2Nat.id by lia. do 2 f_equal; [lia|].
        rewrite seqZ_cons by lia. done.
      * apply NoDup_seqZ.
      * intros k Hk%elem_of_seqZ. lia.
      * intros q Hq. by rewrite En, Ev, Efl, !decide_True.
      * specialize (Hplace x p). unfold placed in Hpl. destruct (off_slab x); [by apply Hplace|done].
    + destruct (I4 q g1 Hq) as (x1 & Hx1 & [S1 S2 S3 S4 S5 S6]). exists x1. split; [done|]. split; rewrite ?Ec; try done.
      * by rewrite Es, lookup_insert_ne.
      * intros i k Hk. rewrite Hb; [by apply S4|]. intros j Hj.
        eapply (new_cell s G R p g x j Hi Hp Hx Hpl Hj); try done. apply S3. by eapply list_elem_of_lookup_2.
      * intros r Hr. assert (¬ region x g r).
        { intros Hr'. destruct (Hnew r Hr') as (Hn & _). apply Hn. by eapply region_held. }
        rewrite En, Ev, Efl, !decide_False by done. by apply S5.
      * specialize (Hplace x1 q). destruct (off_slab x1); [by apply Hplace|done].
Qed.

(** ** The loops over pages and bufctls *)
Abbreviation mark_pages := (Slab.mark_pages (A := A) SetPageSlab).
Abbreviation clear_pages := (Slab.clear_pages (A := A) PageSlab ClearPageSlab).

Definition with_pages_of s (pn pv : gmap Z Z) (a : A) : kmem A :=
  MkKmem A (slab_cache s) (slabs s) (bufctls s) (slinks s) pn pv (intr_on s) a.

Lemma mark_pages_ok n i c p s H :
  held (spages s) H → (∀ q, i ≤ q < i + Z.of_nat n → q ∈ hand_pages H) →
  ∃ pn pv a, mark_pages n i c p s = Ret ((), with_pages_of s pn pv a) ∧ held a H ∧
    ∀ q, pn !! q = (if decide (i ≤ q < i + Z.of_nat n) then Some c else page_next s !! q) ∧
      pv !! q = (if decide (i ≤ q < i + Z.of_nat n) then Some p else page_prev s !! q) ∧
      slab a q = (if decide (i ≤ q < i + Z.of_nat n) then true else slab (spages s) q).
Proof.
  revert i s. induction n as [|n IH]; intros i s Hh Hin; cbn [Slab.mark_pages].
  - exists (page_next s), (page_prev s), (spages s). split_and!; [by destruct s|done|]. intros q.
    by rewrite !decide_False by lia.
  - unfold SET_PAGE_CACHE, SET_PAGE_SLAB. rewrite !bind_modify.
    match goal with |- context [(_ ≫= _) ?s1'] => set (s1 := s1') end.
    destruct (sp_set (spages s1) H i Hh (Hin i ltac:(lia))) as (a1 & E1 & Hh1 & Hfl).
    assert (E1' : on_spages (SetPageSlab i) s1 = Ret ((), over spages_lens a1 s1)) by (by apply (zoom_Ret spages_lens)).
    rewrite (bind_Ret _ _ _ _ _ E1'). destruct (IH (i + 1) (over spages_lens a1 s1) Hh1) as (pn & pv & a & E & Hh2 & Hq).
    { intros q Hq. apply Hin. lia. }
    exists pn, pv, a. split_and!; [exact E|done|]. intros q. destruct (Hq q) as (-> & -> & ->).
    change (page_next (over spages_lens a1 s1)) with (<[i := c]> (page_next s)).
    change (page_prev (over spages_lens a1 s1)) with (<[i := p]> (page_prev s)).
    change (spages (over spages_lens a1 s1)) with a1. rewrite Hfl.
    destruct (decide (q = i)) as [->|Hne].
    + rewrite !(decide_False (P := i + 1 ≤ i < _)), !(decide_True (P := i ≤ i < _)), !lookup_insert_eq by lia. done.
    + rewrite !lookup_insert_ne by done. change (spages s1) with (spages s).
      destruct (decide (i + 1 ≤ q < i + 1 + Z.of_nat n)).
      * by rewrite !decide_True by lia.
      * by rewrite !decide_False by lia.
Qed.

Lemma clear_pages_ok n i s H :
  held (spages s) H → (∀ q, i ≤ q < i + Z.of_nat n → q ∈ hand_pages H ∧ slab (spages s) q = true) →
  ∃ a, clear_pages n i s = Ret ((), over spages_lens a s) ∧ held a H ∧
    ∀ q, ¬ i ≤ q < i + Z.of_nat n → slab a q = slab (spages s) q.
Proof.
  revert i s. induction n as [|n IH]; intros i s Hh Hin; cbn [Slab.clear_pages].
  - exists (spages s). split_and!; [by destruct s|done|done].
  - destruct (Hin i ltac:(lia)) as [Hi Hf].
    assert (E0 : on_spages (PageSlab i) s = Ret (true, s)).
    { rewrite <-Hf. unfold on_spages. rewrite (zoom_Ret spages_lens _ _ _ _ (sp_get _ _ _ Hh Hi)). by destruct s. }
    rewrite (bind_Ret _ _ _ _ _ E0), bind_assert by done.
    destruct (sp_clear (spages s) H i Hh Hi) as (a1 & E1 & Hh1 & Hfl).
    assert (E1' : on_spages (ClearPageSlab i) s = Ret ((), over spages_lens a1 s)) by (by apply (zoom_Ret spages_lens)).
    rewrite (bind_Ret _ _ _ _ _ E1'). destruct (IH (i + 1) (over spages_lens a1 s) Hh1) as (a & E & Hh2 & Hq).
    { intros q Hq. destruct (Hin q ltac:(lia)) as [? ?]. split; [done|]. simpl. by rewrite Hfl, decide_False by lia. }
    exists a. split_and!; [exact E|done|]. intros q Hnq. rewrite Hq by lia. simpl. by rewrite Hfl, decide_False by lia.
Qed.

Lemma fill_bufctl_ok N p n i s :
  (∀ j, 0 ≤ j < N → slab_bufctl p j = p + (sizeof_slab_t + sizeof_kmem_bufctl_t * j)) →
  0 ≤ i → i + Z.of_nat n ≤ N → N < 2 ^ 31 →
  ∃ b, fill_bufctl n p i s = Ret ((), upd_bufctls (λ _, b) s) ∧
    (∀ j, i ≤ j < i + Z.of_nat n → b !! slab_bufctl p j = Some (j + 1)) ∧
    (∀ a, (∀ j, i ≤ j < i + Z.of_nat n → a ≠ slab_bufctl p j) → b !! a = bufctls s !! a).
Proof.
  intros Hcell. revert i s. induction n as [|n IH]; intros i s Hi Hn HN; cbn [fill_bufctl].
  - exists (bufctls s). split_and!; [by destruct s|lia|done].
  - unfold set_bufctl at 1. rewrite bind_modify.
    destruct (IH (i + 1) (upd_bufctls <[slab_bufctl p i := u32 (i + 1)]> s)) as (b & E & Hb & Ho); [lia..|].
    exists b. split_and!; [exact E|..].
    + intros j Hj. destruct (decide (j = i)) as [->|Hne]; [|apply Hb; lia].
      rewrite Ho.
      * change (<[slab_bufctl p i := u32 (i + 1)]> (bufctls s) !! slab_bufctl p i = Some (i + 1)).
        rewrite lookup_insert_eq. f_equal. apply u32_small. unfold is_u32. lia.
      * intros j Hj'. rewrite !Hcell by lia. unfold sizeof_slab_t, sizeof_kmem_bufctl_t. lia.
    + intros a Ha. rewrite Ho by (intros; apply Ha; lia).
      change (<[slab_bufctl p i := u32 (i + 1)]> (bufctls s) !! a = bufctls s !! a).
      rewrite lookup_insert_ne; [done|]. intros <-. apply (Ha i); [lia|done].
Qed.

(** The chain a new slab starts with. *)
Lemma bchain_new N p (b : gmap Z Z) :
  (∀ j, 0 ≤ j < N → slab_bufctl p j = p + (sizeof_slab_t + sizeof_kmem_bufctl_t * j)) → 1 ≤ N →
  (∀ j, 0 ≤ j < N → b !! slab_bufctl p j = Some (j + 1)) →
  bchain (<[slab_bufctl p (N - 1) := BUFCTL_END]> b) p (seqZ 0 N).
Proof.
  intros Hcell HN Hb i k [-> Hi]%lookup_seqZ. rewrite Z.add_0_l.
  destruct (decide (Z.of_nat i = N - 1)) as [Heq|Hne].
  - rewrite Heq, lookup_insert_eq, lookup_seqZ_ge by lia. done.
  - rewrite lookup_insert_ne.
    + rewrite Hb, lookup_seqZ_lt by lia. cbn [default]. f_equal. unfold default, id. lia.
    + rewrite !Hcell by lia. unfold sizeof_slab_t, sizeof_kmem_bufctl_t. lia.
Qed.

(** ** Objects in use *)
(** [L]: the objects handed out to clients, with their caches; control areas of
    slabs are not among them. *)
Definition objs C G (L : gmap Z Z) : Prop := ∀ a c,
  L !! a = Some c ↔ G !! a = None ∧ ∃ p k g, taken C G p k a ∧ G !! p = Some g ∧ g_cache g = c.
(** Every slab has an object in use. *)
Definition busy C G : Prop := ∀ p g x,
  G !! p = Some g → C !! g_cache g = Some x → Z.of_nat (length (g_free g)) < num x.
Record live s G (L : gmap Z Z) R : Prop := {
  lv_inv : kmem_inv s G R;
  lv_objs : objs (slab_cache s) G L;
  lv_busy : busy (slab_cache s) G }.

Lemma objs_nonzero s G L R a c : kmem_inv s G R → objs (slab_cache s) G L → L !! a = Some c → 0xC0000000 ≤ a < 2 ^ 32.
Proof.
  intros Hi Ho (_ & p & k & g & Ht & _)%Ho. pose proof (taken_in_use _ _ _ _ _ _ Hi Ht) as Hu.
  destruct (in_use_page _ _ _ _ _ Hi Hu) as (_ & _ & _ & _ & _ & H32 & Hl & _). unfold is_u32 in H32. lia.
Qed.

Lemma objs_add C G L p g x :
  objs C G L → G !! p = None → C !! g_cache g = Some x → g_free g = seqZ 0 (num x) → objs C (<[p := g]> G) (delete p L).
Proof.
  intros Ho Hp Hx Hf a c. destruct (decide (a = p)) as [->|Hne].
  - rewrite lookup_delete_eq, lookup_insert_eq. naive_solver.
  - rewrite lookup_delete_ne by done. rewrite (Ho a c), lookup_insert_ne by done. apply and_iff_compat_l.
    split; intros (p1 & k & g1 & (g2 & x2 & Hg2 & Hx2 & Hk & Hfr & ->) & Hg1 & Hc).
    + exists p1, k, g1. assert (p1 ≠ p) by congruence. split_and!; [|by rewrite lookup_insert_ne|done].
      exists g2, x2. by rewrite lookup_insert_ne.
    + assert (p1 ≠ p) as Hn1.
      { intros ->. rewrite lookup_insert_eq in Hg2. injection Hg2 as <-. rewrite Hx in Hx2. injection Hx2 as <-.
        apply Hfr. rewrite Hf. apply elem_of_seqZ. lia. }
      rewrite lookup_insert_ne in Hg1, Hg2 by done. exists p1, k, g1. split_and!; [|done..]. by exists g2, x2.
Qed.

(** ** kmem_cache_grow *)
Lemma inv_pages s a G R R' :
  kmem_inv s G R → held a (ranges (slab_cache s) G ++ R') →
  (∀ q, q ∈ hand_pages (ranges (slab_cache s) G) → slab a q = slab (spages s) q) →
  kmem_inv (over spages_lens a s) G R'.
Proof.
  intros Hi Hh Hfl. pose proof Hi as [I1 I2 I3 I4 I5]. split; try done. intros p g Hg.
  destruct (I4 p g Hg) as (x & Hx & [S1 S2 S3 S4 S5 S6]). exists x. split; [done|]. split; try done.
  intros q Hq. change (page_next s !! q = Some (g_cache g) ∧ page_prev s !! q = Some p ∧ slab a q = true).
  rewrite Hfl by (by eapply region_held). by apply S5.
Qed.
Lemma live_pages s a G L R R' :
  live s G L R → held a (ranges (slab_cache s) G ++ R') →
  (∀ q, q ∈ hand_pages (ranges (slab_cache s) G) → slab a q = slab (spages s) q) →
  live (over spages_lens a s) G L R'.
Proof. intros [Hi Ho Hb] Hh Hfl. split; [by eapply inv_pages|done..]. Qed.

Lemma live_alloc s G L R n : live s G L R → 0 < n ≤ 2 ^ 10 →
  ∃ r a, alloc_pages n (spages s) = Ret (r, a) ∧
    live (over spages_lens a s) G L (match r with Some i => (i, n) :: R | None => R end).
Proof.
  intros Hl Hn. pose proof (ki_held _ _ _ (lv_inv _ _ _ _ Hl)) as Hh.
  destruct (pa_alloc (held := held) _ _ n Hh Hn) as (r & a & E & Ha). exists r, a. split; [done|].
  eapply live_pages; [done| |].
  - destruct r as [i|]; [|done]. eapply sp_perm; [done|]. apply Permutation_middle.
  - intros q Hq. eapply sp_alloc; [done..|]. rewrite hand_pages_app. apply elem_of_app. by left.
Qed.
Lemma live_free s G L R i n : live s G L ((i, n) :: R) →
  ∃ a, free_pages i n (spages s) = Ret ((), a) ∧ live (over spages_lens a s) G L R.
Proof.
  intros Hl. pose proof (ki_held _ _ _ (lv_inv _ _ _ _ Hl)) as Hh.
  assert (Hh' : held (spages s) ((i, n) :: ranges (slab_cache s) G ++ R)).
  { eapply sp_perm; [done|]. symmetry. apply Permutation_middle. }
  destruct (pa_free (held := held) _ _ i n Hh') as (a & E & Ha). exists a. split; [done|].
  eapply live_pages; [done|done|]. intros q Hq. eapply sp_free; [done..|]. rewrite hand_pages_app. apply elem_of_app. by left.
Qed.

(** What an allocation from cache [c] does. *)
Definition allocates (m : M (kmem A) Z) (c : Z) s G L R : Prop :=
  ∃ r s' G' L', m s = Ret (r, s') ∧ slab_cache s' = slab_cache s ∧ intr_on s' = intr_on s ∧ live s' G' L' R ∧
    (r = 0 ∧ L' = L ∨ r ≠ 0 ∧ L !! r = None ∧ L' = <[r := c]> L) ∧
    (∀ x, slab_cache s !! c = Some x → off_slab x = false → ∀ p g, g_cache g ≠ c → G' !! p = Some g → G !! p = Some g).
Definition alloc_spec (f : Z → M (kmem A) Z) (c : Z) : Prop := ∀ s G L R x,
  live s G L R → slab_cache s !! c = Some x → off_slab x = false → allocates (f c) c s G L R.

(** The slabs of cache [c] are full. *)
Definition all_full G (c : Z) : Prop := ∀ p g, G !! p = Some g → g_cache g = c → g_free g = [].

Abbreviation slabmgmt := (kmem_cache_slabmgmt (A := A) np).
Lemma slabmgmt_ok alloc c x i s G L R :
  let g := GSlab c i (seqZ 0 (num x)) in
  live s G L (range_of (slab_cache s) g :: R) → slab_cache s !! c = Some x → all_full G c →
  (∀ c', off_slab x = true → slab_cachep x = Some c' → alloc_spec alloc c') →
  ∃ r s1 G1 L1, slabmgmt alloc c i s = Ret (r, if bool_decide (r = 0) then s1 else
      new_slab r (MkSlab (base g + offset x) 0 (offset x) 0) s1) ∧
    slab_cache s1 = slab_cache s ∧ intr_on s1 = intr_on s ∧ live s1 G1 L1 (range_of (slab_cache s) g :: R) ∧
    all_full G1 c ∧ L = delete r L1 ∧ (off_slab x = false → G1 = G) ∧
    (r ≠ 0 → G1 !! r = None ∧ placed (slab_cache s) G1 r g x) ∧ (off_slab x = false → r ≠ 0).
Proof.
  intros g Hl Hx Hfull Hal. pose proof (lv_inv _ _ _ _ Hl) as Hi.
  destruct (new_range s G R g x Hi Hx) as (H0 & H1 & H2 & _).
  pose proof (ki_geo _ _ _ Hi _ _ Hx) as Hco. pose proof (co_order _ _ _ Hco) as Hor.
  pose proof (co_fit _ _ _ Hco) as Hfit. pose proof (co_num _ _ _ Hco) as Hnum. pose proof (co_size _ _ _ Hco) as Hsz.
  assert (0 < 2 ^ page_order x) by (apply Z.pow_pos_nonneg; lia). simpl in H0, H1.
  assert (Hkva : ∀ {T} (t : T), page2kva np i t = Ret (base g, t)).
  { intros T t. by destruct (page_kva_run t np i) as [-> _]; [lia|exact (ki_np _ _ _ Hi)|]. }
  destruct (new_address s G R g x (offset x) Hi Hx) as (Hoff32 & _ & _); [pose proof (co_offset _ _ _ Hco); nia|].
  unfold kmem_cache_slabmgmt. rewrite (bind_Ret _ _ _ _ _ (Hkva _ s)).
  assert (Ec : get_cache c s = Ret (x, s)) by (unfold get_cache; by rewrite Hx).
  rewrite (bind_Ret _ _ _ _ _ Ec), u32_small by done. destruct (off_slab x) eqn:Eo.
  - destruct (co_off _ _ _ Hco Eo) as (c' & x' & Ecp & Hx' & Hon' & _). rewrite Ecp.
    destruct (Hal c' eq_refl Ecp s G L _ x' Hl Hx' Hon') as (r & s1 & G1 & L1 & E & Hc1 & Hi1 & Hl1 & Hr & Hoth).
    rewrite (bind_Ret _ _ _ _ _ E). exists r, s1, G1, L1. rewrite Hc1 in *.
    assert (Hf1 : all_full G1 c).
    { intros p g1 Hg1 Hgc. apply (Hfull p g1); [|done]. eapply (Hoth x' Hx' Hon'); [|done]. intros Hgc'. congruence. }
    destruct Hr as [[-> ->]|(Hr0 & Hrn & ->)].
    + rewrite bool_decide_true by done. split_and!; try done. symmetry. apply delete_id.
      destruct (L !! 0) as [c1|] eqn:E0; [|done]. by destruct (objs_nonzero s G L _ 0 c1 Hi (lv_objs _ _ _ _ Hl) E0).
    + rewrite bool_decide_false by done. rewrite bind_modify. split_and!; try done; [by rewrite delete_insert_id|].
      pose proof (lv_objs _ _ _ _ Hl1) as Ho1. rewrite Hc1 in Ho1.
      destruct (proj1 (Ho1 r c') (lookup_insert_eq _ _ _)) as (Hd & p' & k' & g' & Ht & Hg' & Hgc'). intros _. split; [done|].
      unfold placed. rewrite Eo. exists p', k', g'. split_and!; [done..|congruence].
  - rewrite (bind_Ret _ _ _ _ _ (Hkva _ s)). exists (base g), s, G, L.
    destruct (new_address s G R g x 0 Hi Hx) as (_ & Hb & Hno); [unfold slab_bytes, PGSIZE; lia|]. rewrite Z.add_0_r in Hb, Hno.
    assert (HG : G !! base g = None).
    { destruct (G !! base g) as [g1|] eqn:E1; [|done]. destruct (ki_slab _ _ _ Hi _ _ E1) as (x1 & Hx1 & _).
      destruct (ctl_area s G _ (base g) g1 x1 0 Hi E1 Hx1) as (u & _ & Hu).
      { pose proof (co_num _ _ _ (ki_geo _ _ _ Hi _ _ Hx1)). unfold sizeof_slab_t, sizeof_kmem_bufctl_t. lia. }
      rewrite Z.add_0_r in Hu. by destruct (Hno u). }
    rewrite bool_decide_false by lia. rewrite bind_modify. split_and!; try done; [| |intros _; lia].
    + symmetry. apply delete_id. destruct (L !! base g) as [c1|] eqn:E1; [|done].
      apply (lv_objs _ _ _ _ Hl) in E1 as (_ & p & k & g1 & Ht & _). destruct (Hno (UObj p k)). by eapply taken_in_use.
    + intros _. split; [done|]. unfold placed. by rewrite Eo.
Qed.

(** The part of kmem_cache_grow behind slabmgmt. *)
Definition setup (c page slabp order_size n : Z) : M (kmem A) bool :=
  mark_pages (Z.to_nat order_size) page c slabp;;
  fill_bufctl (Z.to_nat n) slabp 0;;
  set_bufctl slabp (u32 (n - 1)) BUFCTL_END;;
  set_slab slabp (λ sl, MkSlab (s_mem sl) (inuse sl) (s_offset sl) 0);;
  intr_flag ← local_irq_save;
  on_slinks (list_add (SlabsNotfull c) (SlabLink slabp));;
  local_irq_restore intr_flag;;
  mret true.

Lemma setup_ok c x i r s G R :
  let g := GSlab c i (seqZ 0 (num x)) in
  kmem_inv s G (range_of (slab_cache s) g :: R) → slab_cache s !! c = Some x → G !! r = None →
  placed (slab_cache s) G r g x →
  ∃ s', setup c i r (Z.shiftl 1 (page_order x)) (num x) (new_slab r (MkSlab (base g + offset x) 0 (offset x) 0) s) = Ret (true, s') ∧
    slab_cache s' = slab_cache s ∧ intr_on s' = intr_on s ∧ kmem_inv s' (<[r := g]> G) R.
Proof.
  intros g Hi Hx Hr Hpl. pose proof (ki_geo _ _ _ Hi _ _ Hx) as [_ Hnum Hor _ _ _ _].
  assert (Hpo : 0 < 2 ^ page_order x) by (apply Z.pow_pos_nonneg; lia).
  destruct (new_range s G R g x Hi Hx) as (H0 & H1 & H2 & Hnew).
  set (s1 := new_slab r _ s). unfold setup. rewrite Z.shiftl_1_l.
  destruct (mark_pages_ok (Z.to_nat (2 ^ page_order x)) i c r s1 _ (ki_held _ _ _ Hi)) as (pn & pv & a & E1 & Hh & Hq).
  { intros q Hq. apply Hnew. unfold region. simpl. lia. }
  rewrite (bind_Ret _ _ _ _ _ E1).
  assert (Hcell : ∀ j, 0 ≤ j < num x → slab_bufctl r j = r + (sizeof_slab_t + sizeof_kmem_bufctl_t * j)).
  { intros j Hj. by apply (new_cell s G R r g x j). }
  set (s2 := with_pages_of s1 pn pv a).
  destruct (fill_bufctl_ok (num x) r (Z.to_nat (num x)) 0 s2 Hcell) as (b & E2 & Hb & Ho); [lia..|].
  rewrite (bind_Ret _ _ _ _ _ E2), u32_small by (unfold is_u32; lia). unfold set_bufctl. rewrite bind_modify.
  set (b' := <[slab_bufctl r (num x - 1) := BUFCTL_END]> b).
  set (s3 := upd_bufctls <[_ := BUFCTL_END]> _).
  set (ms := MkSlab (base g + offset x) 0 (offset x) 0).
  assert (E3 : set_slab r (λ sl, MkSlab (s_mem sl) (inuse sl) (s_offset sl) 0) s3 = Ret ((), upd_slabs <[r := ms]> s3)).
  { unfold set_slab. change (slabs s3) with (<[r := ms]> (slabs s)). by rewrite lookup_insert_eq. }
  rewrite (bind_Ret _ _ _ _ _ E3). unfold local_irq_save, local_irq_restore. rewrite !bind_assoc, bind_gets, bind_assoc, bind_modify, bind_mret.
  destruct (ki_lists _ _ _ Hi) as [F HF].
  destruct (klists_add (klists_fresh HF r (ListEntry (SlabLink r) (SlabLink r)) Hr) r g Hr) as (h' & F' & E4 & HF' & _);
    [by exists x|rewrite lookup_insert_eq; by eexists|].
  assert (Ehome : home g = SlabsNotfull c).
  { unfold home, g. simpl. rewrite decide_False; [done|]. rewrite seqZ_cons by lia. done. }
  rewrite Ehome in E4.
  match goal with |- context [on_slinks _ ≫= _] => set (s4 := set_intr _ _) end.
  assert (E4' : on_slinks (list_add (SlabsNotfull c) (SlabLink r)) s4 = Ret ((), over slinks_lens h' s4)).
  { by apply (zoom_Ret slinks_lens). }
  rewrite (bind_Ret _ _ _ _ _ E4'). rewrite bind_modify. eexists. split; [reflexivity|]. split_and!; [done|done|].
  assert (HZ : Z.of_nat (Z.to_nat (2 ^ page_order x)) = 2 ^ page_order x) by lia. rewrite HZ in Hq.
  eapply (inv_add s _ G R r g x); try done.
  - change (<[r := ms]> (<[r := ms]> (slabs s)) = <[r := ms]> (slabs s)). apply insert_insert_eq.
  - intros q. apply (proj1 (Hq q)).
  - intros q. apply (proj1 (proj2 (Hq q))).
  - intros q. apply (proj2 (proj2 (Hq q))).
  - apply bchain_new; [done|lia|]. intros j Hj. apply Hb. lia.
  - intros a' Ha. change (b' !! a' = bufctls s !! a'). unfold b'. rewrite lookup_insert_ne; [|intros Hc; apply (Ha (num x - 1)); [lia|done]].
    apply Ho. intros j Hj. apply Ha. lia.
  - by exists F'.
Qed.

Abbreviation grow := (kmem_cache_grow (A := A) alloc_pages free_pages np SetPageSlab).
Lemma grow_unfold alloc c s :
  grow alloc c s = (x ← get_cache c; page ← on_spages (alloc_pages (Z.shiftl 1 (page_order x)));
    match page with
    | None => mret false
    | Some page => slabp ← slabmgmt alloc c page;
      if bool_decide (slabp = 0) then on_spages (free_pages page (Z.shiftl 1 (page_order x)));; mret false
      else setup c page slabp (Z.shiftl 1 (page_order x)) (num x)
    end) s.
Proof. done. Qed.

Lemma grow_ok alloc c x s G L R :
  live s G L R → slab_cache s !! c = Some x → all_full G c →
  (∀ c', off_slab x = true → slab_cachep x = Some c' → alloc_spec alloc c') →
  ∃ b s', grow alloc c s = Ret (b, s') ∧ slab_cache s' = slab_cache s ∧ intr_on s' = intr_on s ∧
    if (b : bool) then ∃ G1 p i, let g := GSlab c i (seqZ 0 (num x)) in
       G1 !! p = None ∧ all_full G1 c ∧ busy (slab_cache s) G1 ∧
       kmem_inv s' (<[p := g]> G1) R ∧ objs (slab_cache s) (<[p := g]> G1) L ∧
       (off_slab x = false → G1 = G)
    else ∃ G1, live s' G1 L R ∧ (off_slab x = false → G1 = G ∧
      alloc_pages (Z.shiftl 1 (page_order x)) (spages s) = Ret (None, spages s')).
Proof.
  intros Hl Hx Hfull Hal. pose proof (ki_geo _ _ _ (lv_inv _ _ _ _ Hl) _ _ Hx) as Hco.
  pose proof (co_order _ _ _ Hco) as Hor. rewrite grow_unfold.
  assert (Ec : get_cache c s = Ret (x, s)) by (unfold get_cache; by rewrite Hx). rewrite (bind_Ret _ _ _ _ _ Ec).
  assert (Hn : 0 < Z.shiftl 1 (page_order x) ≤ 2 ^ 10).
  { rewrite Z.shiftl_1_l. split; [apply Z.pow_pos_nonneg; lia|]. apply Z.pow_le_mono_r; lia. }
  destruct (live_alloc s G L R _ Hl Hn) as (r & a & E & Hl1).
  assert (E' : on_spages (alloc_pages (Z.shiftl 1 (page_order x))) s = Ret (r, over spages_lens a s)) by by apply (zoom_Ret spages_lens).
  rewrite (bind_Ret _ _ _ _ _ E'). destruct r as [i|].
  2: { exists false. eexists. split; [reflexivity|]. split_and!; [done|done|]. exists G. split; [done|]. intros _. by split. }
  set (g := GSlab c i (seqZ 0 (num x))).
  assert (Hrg : range_of (slab_cache s) g = (i, Z.shiftl 1 (page_order x))).
  { unfold range_of, g. simpl. by rewrite Hx, Z.shiftl_1_l. }
  rewrite <-Hrg in Hl1. set (s0 := over spages_lens a s) in *. change (slab_cache s) with (slab_cache s0) in *.
  destruct (slabmgmt_ok alloc c x i s0 G L R Hl1 Hx Hfull Hal)
    as (p & s1 & G1 & L1 & E1 & Hc1 & Hi1 & Hl2 & Hf1 & HL & Hsame & Hp & Hpn).
  rewrite (bind_Ret _ _ _ _ _ E1). case_bool_decide as Hp0.
  - assert (HL1 : L1 = L).
    { subst L p. symmetry. apply delete_id. destruct (L1 !! 0) as [c1|] eqn:E0; [|done].
      by destruct (objs_nonzero s1 G1 L1 _ 0 c1 (lv_inv _ _ _ _ Hl2) (lv_objs _ _ _ _ Hl2) E0). }
    rewrite HL1 in Hl2. fold g in Hl2. rewrite Hrg in Hl2. destruct (live_free s1 G1 L R _ _ Hl2) as (a2 & E2 & Hl3).
    assert (E2' : on_spages (free_pages i (Z.shiftl 1 (page_order x))) s1 = Ret ((), over spages_lens a2 s1)) by by apply (zoom_Ret spages_lens).
    rewrite (bind_Ret _ _ _ _ _ E2'). exists false. eexists. split; [reflexivity|]. split_and!; [done|done|].
    exists G1. split; [done|]. intros Hon. by destruct (Hpn Hon).
  - destruct (Hp Hp0) as [HpG Hpl]. fold g in Hl2, Hpl. rewrite <-Hc1 in Hx, Hpl, Hl2.
    destruct (setup_ok c x i p s1 G1 R (lv_inv _ _ _ _ Hl2) Hx HpG Hpl) as (s2 & E2 & Hc2 & Hi2 & Hinv).
    exists true, s2. split; [exact E2|]. split_and!; [congruence|rewrite Hi2; done|].
    exists G1, p, i. split_and!; try done.
    + rewrite <-Hc1. apply (lv_busy _ _ _ _ Hl2).
    + rewrite HL, <-Hc1. eapply objs_add; [apply (lv_objs _ _ _ _ Hl2)|done|exact Hx|done].
Qed.

(** A slab moves to another list. *)
Lemma move_ok s C G F p g g' :
  klists C G (slinks s) F → G !! p = Some g → is_Some (C !! g_cache g) → g_cache g' = g_cache g →
  ∃ h', (on_slinks (list_del (SlabLink p));; on_slinks (list_add (home g') (SlabLink p))) s = Ret ((), over slinks_lens h' s) ∧
    ∃ F', klists C (<[p := g']> G) h' F'.
Proof.
  intros HF Hg Hc Hc'. destruct (klists_del HF p g Hg Hc) as (h1 & F1 & D1 & HF1 & Hd1).
  destruct (klists_add HF1 p g') as (h2 & F2 & D2 & HF2 & _); [apply lookup_delete_eq|by rewrite Hc'| |].
  { eapply dom_is_Some; [exact Hd1|]. eapply slab_linked; [exact HF|exact Hg|done]. }
  exists h2. split; [|exists F2; by rewrite insert_delete_eq in HF2].
  assert (D1' : on_slinks (list_del (SlabLink p)) s = Ret ((), over slinks_lens h1 s)) by by apply (zoom_Ret slinks_lens).
  rewrite (bind_Ret _ _ _ _ _ D1'). exact (zoom_Ret slinks_lens _ (over slinks_lens h1 s) _ _ D2).
Qed.

(** ** kmem_cache_alloc_one *)
Lemma obj_run s G R p g x k :
  kmem_inv s G R → G !! p = Some g → slab_cache s !! g_cache g = Some x → 0 ≤ k < num x →
  u32 (base g + offset x + u32 (k * objsize x)) = obj x g k ∧ in_use (slab_cache s) G (UObj p k) (obj x g k).
Proof.
  intros Hi Hg Hx Hk. pose proof (ki_geo _ _ _ Hi _ _ Hx) as [Hsz Hn Ho Hof Hfit _ _].
  assert (Hu : in_use (slab_cache s) G (UObj p k) (obj x g k)) by (exists g, x; split_and!; try done; lia).
  split; [|done]. destruct (in_use_page _ _ _ _ _ Hi Hu) as (_ & _ & _ & _ & _ & H32 & _).
  unfold obj in *. destruct (page_bounds _ _ _ _ _ _ Hi Hg Hx) as (P0 & P1 & P2). unfold is_u32 in H32.
  assert (0 ≤ base g) by (unfold base, KERNBASE, PGSIZE; lia).
  rewrite (u32_small (k * objsize x)) by (unfold is_u32; nia). by apply u32_small.
Qed.

Lemma alloc_one_ok s G R p g x k fl :
  let g' := GSlab (g_cache g) (g_page g) fl in
  kmem_inv s G R → G !! p = Some g → slab_cache s !! g_cache g = Some x → g_free g = k :: fl →
  ∃ s', kmem_cache_alloc_one (g_cache g) p s = Ret (obj x g k, s') ∧ slab_cache s' = slab_cache s ∧
    intr_on s' = intr_on s ∧ kmem_inv s' (<[p := g']> G) R.
Proof.
  intros g' Hi Hg Hx Hf. destruct (ki_slab _ _ _ Hi _ _ Hg) as (x' & Hx' & [S1 S2 S3 S4 S5 S6]).
  rewrite Hx in Hx'. injection Hx' as <-. rewrite Hf in S1, S2, S3, S4. apply NoDup_cons in S2 as [Hkf Hnd].
  assert (Hk : 0 ≤ k < num x) by (apply S3; by left). pose proof (ki_geo _ _ _ Hi _ _ Hx) as [Hsz Hn Ho Hof Hfit _ _].
  pose proof (NoDup_range_length fl (num x)) as Hlen.
  destruct (obj_run s G R p g x k Hi Hg Hx Hk) as [Eobj _].
  unfold kmem_cache_alloc_one. set (sl1 := MkSlab (base g + offset x) (u32 (num x - Z.of_nat (length (k :: fl)) + 1)) (offset x) k).
  set (s1 := upd_slabs <[p := sl1]> s).
  assert (E1 : set_slab p (λ sl, MkSlab (s_mem sl) (u32 (inuse sl + 1)) (s_offset sl) (s_free sl)) s = Ret ((), s1)).
  { unfold set_slab. by rewrite S1. }
  rewrite (bind_Ret _ _ _ _ _ E1).
  assert (E2 : get_cache (g_cache g) s1 = Ret (x, s1)) by (unfold get_cache; simpl; by rewrite Hx).
  rewrite (bind_Ret _ _ _ _ _ E2).
  assert (E3 : get_slab p s1 = Ret (sl1, s1)) by (unfold get_slab; simpl; by rewrite lookup_insert_eq).
  rewrite (bind_Ret _ _ _ _ _ E3). simpl (s_mem sl1). simpl (s_free sl1). rewrite Eobj.
  set (fr := default BUFCTL_END (head fl)).
  assert (E4 : get_bufctl p k s1 = Ret (fr, s1)).
  { unfold get_bufctl. change (bufctls s1) with (bufctls s). rewrite (S4 0%nat k eq_refl). by destruct fl. }
  rewrite (bind_Ret _ _ _ _ _ E4). set (sl2 := MkSlab (base g + offset x) (inuse sl1) (offset x) fr).
  set (s2 := upd_slabs <[p := sl2]> s1).
  assert (E5 : set_slab p (λ sl, MkSlab (s_mem sl) (inuse sl) (s_offset sl) fr) s1 = Ret ((), s2)).
  { unfold set_slab. simpl. by rewrite lookup_insert_eq. }
  rewrite (bind_Ret _ _ _ _ _ E5).
  assert (Hfr : fr = BUFCTL_END ↔ fl = []).
  { unfold fr. destruct fl as [|k1 fl]; [done|]. split; [|done]. simpl. intros ->.
    assert (0 ≤ BUFCTL_END < num x) by (apply S3; set_solver +). unfold BUFCTL_END in *. lia. }
  destruct (ki_lists _ _ _ Hi) as [F HF].
  assert (Elist : ∃ h', (if bool_decide (fr = BUFCTL_END) then
       on_slinks (list_del (SlabLink p));; on_slinks (list_add (SlabsFull (g_cache g)) (SlabLink p)) else skip) s2
       = Ret ((), over slinks_lens h' s2) ∧ ∃ F', klists (slab_cache s) (<[p := g']> G) h' F').
  { destruct (decide (fl = [])) as [Hnil|Hnil].
    - rewrite bool_decide_true by tauto.
      assert (Eh : home g' = SlabsFull (g_cache g)) by (unfold home; by rewrite decide_True). rewrite <-Eh.
      eapply (move_ok s2); [exact HF|exact Hg|by eexists|done].
    - rewrite bool_decide_false by tauto. exists (slinks s). split; [by destruct s|]. exists F.
      eapply klists_same; [exact HF|exact Hg|]. unfold home. rewrite Hf. by rewrite !decide_False. }
  destruct Elist as (h' & E6 & F' & HF'). rewrite (bind_Ret _ _ _ _ _ E6). eexists. split; [reflexivity|].
  split_and!; [done|done|]. eapply (inv_update s _ G R p g g' x); try done.
  - change (<[p := sl2]> (<[p := sl1]> (slabs s)) = <[p := MkSlab (base g + offset x) (num x - Z.of_nat (length fl)) (offset x) fr]> (slabs s)).
    rewrite insert_insert_eq. do 2 f_equal. unfold sl2, sl1. f_equal. cbn [inuse length].
    rewrite u32_small; [lia|]. unfold is_u32. cbn [length] in *. specialize (Hlen Hnd ltac:(intros; apply S3; by right)). lia.
  - intros j Hj. apply S3. by right.
  - intros j kj Hj. change (bufctls s !! slab_bufctl p kj = Some (default BUFCTL_END (fl !! S j))). exact (S4 (S j) kj Hj).
  - intros q j _ (g1 & x1 & Hg1 & _ & _ & Hnin & _). rewrite Hg in Hg1. injection Hg1 as <-. rewrite Hf in Hnin. simpl. set_solver +Hnin.
  - by exists F'.
Qed.

(** ** Objects taken and given back *)
Section Shift.
Context {C : gmap Z kmem_cache_t} {G : gmap Z gslab} {p : Z} {g : gslab} {x : kmem_cache_t} {k : Z} {fl : list Z}.
Context (Hg : G !! p = Some g) (Hx : C !! g_cache g = Some x) (Hf : g_free g = k :: fl) (Hkf : k ∉ fl) (Hk : 0 ≤ k < num x).
Let G' := <[p := GSlab (g_cache g) (g_page g) fl]> G.

Lemma shift_dom a : G' !! a = None ↔ G !! a = None.
Proof.
  unfold G'. destruct (decide (a = p)) as [->|Hne]; [|by rewrite lookup_insert_ne].
  rewrite lookup_insert_eq. split; congruence.
Qed.
Lemma shift_cache q c : (∃ g1, G' !! q = Some g1 ∧ g_cache g1 = c) ↔ (∃ g1, G !! q = Some g1 ∧ g_cache g1 = c).
Proof.
  unfold G'. destruct (decide (q = p)) as [->|Hq]; [|by rewrite lookup_insert_ne].
  rewrite lookup_insert_eq, Hg. split; intros (g1 & [= <-] & ?); by eexists.
Qed.
Lemma shift_taken q j a : taken C G' q j a ↔ taken C G q j a ∨ (q = p ∧ j = k ∧ a = obj x g k).
Proof using All.
  split.
  - intros (g1 & x1 & [[<- <-]|[Hne Hg1]]%lookup_insert_Some & Hx1 & Hj & Hn & ->); [|left; by exists g1, x1].
    simpl in Hx1, Hn. rewrite Hx in Hx1. injection Hx1 as <-. destruct (decide (j = k)) as [->|Hne]; [by right|left].
    exists g, x. rewrite Hf. split_and!; try done; [lia|lia|]. set_solver +Hn Hne.
  - intros [Ht|(-> & -> & ->)].
    + eapply taken_update; try done. intros ->. simpl. destruct Ht as (g1 & x1 & Hg1 & _ & _ & Hn & _).
      rewrite Hg in Hg1. injection Hg1 as <-. rewrite Hf in Hn. set_solver +Hn.
    + eexists _, x. unfold G'. rewrite lookup_insert_eq. split_and!; try done; lia.
Qed.
(** The objects other than [k]. *)
Lemma shift_objs a c : a ≠ obj x g k →
  (∃ q j g1, taken C G' q j a ∧ G' !! q = Some g1 ∧ g_cache g1 = c) ↔
  (∃ q j g1, taken C G q j a ∧ G !! q = Some g1 ∧ g_cache g1 = c).
Proof using All.
  intros Hne. split.
  - intros (q & j & g1 & [Ht|(_ & _ & ?)]%shift_taken & Hg1 & Hc); [|done].
    destruct (proj1 (shift_cache q c)) as (g2 & ? & ?); [by exists g1|]. by exists q, j, g2.
  - intros (q & j & g1 & Ht & Hg1 & Hc). destruct (proj2 (shift_cache q c)) as (g2 & ? & ?); [by exists g1|].
    exists q, j, g2. split_and!; try done. rewrite shift_taken. by left.
Qed.
End Shift.

Lemma objs_take s G R L p g x k fl :
  kmem_inv s G R → objs (slab_cache s) G L → G !! p = Some g → slab_cache s !! g_cache g = Some x → g_free g = k :: fl →
  k ∉ fl → 0 ≤ k < num x →
  let G' := <[p := GSlab (g_cache g) (g_page g) fl]> G in
  L !! obj x g k = None ∧ objs (slab_cache s) G' (<[obj x g k := g_cache g]> L).
Proof.
  intros Hi Ho Hg Hx Hf Hkf Hk G'. set (a0 := obj x g k).
  destruct (obj_run s G R p g x k Hi Hg Hx Hk) as [_ Hu]. fold a0 in Hu.
  assert (Hnt : ∀ q j, ¬ taken (slab_cache s) G q j a0).
  { intros q j Ht. pose proof (taken_in_use _ _ _ _ _ _ Hi Ht) as Hu'.
    assert (UObj q j = UObj p k) as [= -> ->] by by eapply in_use_inj.
    destruct Ht as (g1 & x1 & Hg1 & _ & _ & Hn & _). rewrite Hg in Hg1. injection Hg1 as <-. rewrite Hf in Hn. set_solver +Hn. }
  assert (HL0 : L !! a0 = None).
  { destruct (L !! a0) as [c|] eqn:E; [|done]. apply Ho in E as (_ & q & j & g1 & Ht & _). by destruct (Hnt q j). }
  split; [done|].
  assert (HG0 : G !! a0 = None).
  { destruct (G !! a0) as [g1|] eqn:E; [|done]. destruct (ki_slab _ _ _ Hi _ _ E) as (x1 & Hx1 & _).
    destruct (ctl_area s G R a0 g1 x1 0 Hi E Hx1) as (u & Hcu & Hu').
    { pose proof (co_num _ _ _ (ki_geo _ _ _ Hi _ _ Hx1)). unfold sizeof_slab_t, sizeof_kmem_bufctl_t. lia. }
    rewrite Z.add_0_r in Hu'. assert (u = UObj p k) as -> by by eapply in_use_inj. by destruct (Hnt p k). }
  intros a c. unfold G'. rewrite (shift_dom Hg). destruct (decide (a = a0)) as [->|Hne].
  - rewrite lookup_insert_eq. split.
    + intros [= <-]. split; [done|]. exists p, k. eexists. rewrite (shift_taken Hg Hx Hf Hkf Hk).
      rewrite lookup_insert_eq. split_and!; [by right|done..].
    + intros (_ & q & j & g1 & [Ht|(-> & -> & _)]%(shift_taken Hg Hx Hf Hkf Hk) & Hg1 & <-); [by destruct (Hnt q j)|].
      rewrite lookup_insert_eq in Hg1. by injection Hg1 as <-.
  - rewrite lookup_insert_ne by done. rewrite (Ho a c). apply and_iff_compat_l. symmetry. by eapply (shift_objs Hg Hx).
Qed.

Lemma objs_give s G R L p g x k :
  kmem_inv s G R → objs (slab_cache s) G L → G !! p = Some g → slab_cache s !! g_cache g = Some x →
  k ∉ g_free g → 0 ≤ k < num x → G !! obj x g k = None →
  objs (slab_cache s) (<[p := GSlab (g_cache g) (g_page g) (k :: g_free g)]> G) (delete (obj x g k) L).
Proof.
  intros Hi Ho Hg Hx Hkf Hk HG. set (a0 := obj x g k). set (g2 := GSlab (g_cache g) (g_page g) (k :: g_free g)).
  set (G2 := <[p := g2]> G). assert (Hg2 : G2 !! p = Some g2) by apply lookup_insert_eq.
  assert (HG1 : <[p := GSlab (g_cache g2) (g_page g2) (g_free g)]> G2 = G).
  { unfold G2. rewrite insert_insert_eq. apply insert_id. simpl. by destruct g. }
  pose proof (λ q j a, shift_taken Hg2 Hx eq_refl Hkf Hk q j a) as Hst.
  pose proof (λ a c, shift_objs Hg2 Hx eq_refl Hkf Hk a c) as Hso.
  pose proof (λ a, shift_dom (fl := g_free g) Hg2 a) as Hsd. rewrite HG1 in Hst, Hso, Hsd.
  intros a c. rewrite <-(Hsd a). destruct (decide (a = a0)) as [->|Hne].
  - rewrite lookup_delete_eq. split; [done|]. intros (_ & q & j & g1 & Ht & _). exfalso.
    assert (taken (slab_cache s) G q j a0) as Ht' by (apply Hst; by left).
    pose proof (taken_in_use _ _ _ _ _ _ Hi Ht') as Hu. destruct (obj_run s G R p g x k Hi Hg Hx Hk) as [_ Hu'].
    assert (UObj q j = UObj p k) as [= -> ->] by by eapply in_use_inj.
    destruct Ht as (g3 & x3 & Hg3 & _ & _ & Hn & _). rewrite Hg2 in Hg3. injection Hg3 as <-. apply Hn. by left.
  - rewrite lookup_delete_ne by done. rewrite (Ho a c). apply and_iff_compat_l. by apply Hso.
Qed.

(** ** kmem_cache_alloc *)
Abbreviation alloc := (kmem_cache_alloc (A := A) alloc_pages free_pages np SetPageSlab).

(** A slab of the cache has a free object. *)
Lemma alloc_hit fuel c x s G R p0 g0 :
  kmem_inv s G R → slab_cache s !! c = Some x → G !! p0 = Some g0 → g_cache g0 = c → g_free g0 ≠ [] →
  ∃ p g k fl s', G !! p = Some g ∧ g_cache g = c ∧ g_free g = k :: fl ∧
    alloc (S fuel) c s = Ret (obj x g k, s') ∧ slab_cache s' = slab_cache s ∧ intr_on s' = intr_on s ∧
    kmem_inv s' (<[p := GSlab c (g_page g) fl]> G) R.
Proof.
  intros Hi Hx Hp0 Hc0 Hf0. destruct (ki_lists _ _ _ Hi) as [F HF].
  assert (Hh0 : home g0 = SlabsNotfull c) by (unfold home; rewrite decide_False by done; by rewrite Hc0).
  destruct (home_head HF g0) as [l Hl]; [rewrite Hc0; by eexists|]. rewrite Hh0 in Hl.
  assert (Hin : SlabLink p0 ∈ l) by (apply (kl_elems _ _ _ _ HF _ _ _ Hl); by exists p0, g0).
  destruct l as [|e l]; [by apply elem_of_nil in Hin|].
  destruct (proj1 (kl_elems _ _ _ _ HF _ _ e Hl) ltac:(by left)) as (p & g & -> & Hg & Hh).
  assert (Hgc : g_cache g = c ∧ g_free g ≠ []) by (unfold home in Hh; destruct (decide _); [done|by injection Hh as <-]).
  destruct Hgc as [Hgc Hfr]. destruct (g_free g) as [|k fl] eqn:Ef; [done|].
  cbn [kmem_cache_alloc]. unfold local_irq_save at 1. rewrite !bind_assoc, bind_gets, bind_assoc, bind_modify, bind_mret.
  set (s1 := set_intr false s).
  assert (E1 : on_slinks (list_empty (SlabsNotfull c)) s1 = Ret (false, s1)).
  { unfold on_slinks. rewrite (zoom_Ret slinks_lens _ s1 _ _ (list_empty_dlists _ _ _ _ (kl_dlists _ _ _ _ HF) Hl)).
    by rewrite bool_decide_false by done. }
  rewrite (bind_Ret _ _ _ _ _ E1).
  assert (E2 : on_slinks (list_next (SlabsNotfull c)) s1 = Ret (SlabLink p, s1)).
  { unfold on_slinks. by rewrite (zoom_Ret slinks_lens _ s1 _ _ (list_next_head _ _ _ _ (kl_dlists _ _ _ _ HF) Hl)). }
  rewrite (bind_Ret _ _ _ _ _ E2). cbn [le2slab]. rewrite bind_mret.
  rewrite <-Hgc in Hx |- *. destruct (alloc_one_ok s1 G R p g x k fl (inv_intr _ _ _ _ Hi) Hg Hx Ef) as (s2 & E3 & Hc2 & Hi2 & Hinv).
  rewrite (bind_Ret _ _ _ _ _ E3). unfold local_irq_restore. rewrite bind_modify.
  exists p, g, k, fl. eexists. split_and!; try done.
  by apply inv_intr.
Qed.

Lemma alloc_empty fuel c s G R :
  kmem_inv s G R → is_Some (slab_cache s !! c) → all_full G c →
  alloc (S fuel) c s = (grown ← grow (alloc fuel) c; if (grown : bool) then alloc fuel c else mret 0) s.
Proof.
  intros Hi Hc Hfull. destruct (ki_lists _ _ _ Hi) as [F HF].
  destruct (proj2 (kl_heads _ _ _ _ HF (SlabsNotfull c))) as [l Hl]; [exists c; split; [done|by right]|].
  assert (l = []) as ->.
  { destruct l as [|e l]; [done|]. destruct (proj1 (kl_elems _ _ _ _ HF _ _ e Hl) ltac:(by left)) as (p & g & -> & Hg & Hh).
    unfold home in Hh. destruct (decide (g_free g = [])); [done|]. injection Hh as <-. by rewrite (Hfull p g Hg) in n. }
  cbn [kmem_cache_alloc]. unfold local_irq_save at 1. rewrite !bind_assoc, bind_gets, bind_assoc, bind_modify, bind_mret.
  assert (E1 : on_slinks (list_empty (SlabsNotfull c)) (set_intr false s) = Ret (true, set_intr false s)).
  { unfold on_slinks. by rewrite (zoom_Ret slinks_lens _ (set_intr false s) _ _ (list_empty_dlists _ _ _ _ (kl_dlists _ _ _ _ HF) Hl)). }
  rewrite (bind_Ret _ _ _ _ _ E1). unfold local_irq_restore. rewrite bind_modify.
  replace (set_intr (intr_on s) (set_intr false s)) with s by (by destruct s). done.
Qed.

Lemma busy_take C G p g x k fl :
  (∀ q, q ≠ p → ∀ gq xq, G !! q = Some gq → C !! g_cache gq = Some xq → Z.of_nat (length (g_free gq)) < num xq) →
  C !! g_cache g = Some x → NoDup (k :: fl) → (∀ j, j ∈ k :: fl → 0 ≤ j < num x) →
  busy C (<[p := GSlab (g_cache g) (g_page g) fl]> G).
Proof.
  intros Hb Hx Hnd Hr q gq xq [[<- <-]|[Hne Hq]]%lookup_insert_Some Hxq; [|by eapply Hb].
  simpl in *. rewrite Hx in Hxq. injection Hxq as <-. pose proof (NoDup_range_length _ _ Hnd Hr) as Hlen.
  destruct (Hr k ltac:(by left)). simpl in Hlen. lia.
Qed.

(** The object comes from slab [p]. *)
Lemma take_live s s' G R L p g x k fl :
  kmem_inv s G R → objs (slab_cache s) G L → G !! p = Some g → slab_cache s !! g_cache g = Some x → g_free g = k :: fl →
  (∀ q, q ≠ p → ∀ gq xq, G !! q = Some gq → slab_cache s !! g_cache gq = Some xq → Z.of_nat (length (g_free gq)) < num xq) →
  slab_cache s' = slab_cache s → kmem_inv s' (<[p := GSlab (g_cache g) (g_page g) fl]> G) R →
  obj x g k ≠ 0 ∧ L !! obj x g k = None ∧
  live s' (<[p := GSlab (g_cache g) (g_page g) fl]> G) (<[obj x g k := g_cache g]> L) R.
Proof.
  intros Hi Ho Hg Hx Hf Hb Hc Hi'. destruct (ki_slab _ _ _ Hi _ _ Hg) as (x' & Hx' & [_ S2 S3 _ _ _]).
  rewrite Hx in Hx'. injection Hx' as <-. rewrite Hf in S2, S3. pose proof S2 as [Hkf _]%NoDup_cons.
  assert (Hk : 0 ≤ k < num x) by (apply S3; by left).
  destruct (objs_take s G R L p g x k fl Hi Ho Hg Hx Hf Hkf Hk) as [Hn Ho'].
  destruct (obj_run s G R p g x k Hi Hg Hx Hk) as [_ Hu].
  destruct (in_use_page _ _ _ _ _ Hi Hu) as (_ & _ & _ & _ & _ & _ & Hl & _).
  split_and!; [lia|done|]. split; [done|by rewrite Hc|]. rewrite Hc. by eapply busy_take.
Qed.

Lemma all_full_dec G c : all_full G c ∨ ∃ p g, G !! p = Some g ∧ g_cache g = c ∧ g_free g ≠ [].
Proof.
  destruct (decide (map_Forall (λ _ g, g_cache g = c → g_free g = []) G)) as [H|H].
  - left. intros p g Hg. by apply (H p g).
  - right. apply map_not_Forall in H as (p & g & Hg & Hn); [|apply _]. exists p, g. split; [done|].
    destruct (decide (g_cache g = c)), (decide (g_free g = [])); tauto.
Qed.

Lemma alloc_step fuel c x s G L R :
  live s G L R → slab_cache s !! c = Some x →
  (∀ c', off_slab x = true → slab_cachep x = Some c' → alloc_spec (alloc (S fuel)) c') →
  allocates (alloc (S (S fuel)) c) c s G L R.
Proof.
  intros Hl Hx Hal. pose proof Hl as [Hi Ho Hb]. destruct (all_full_dec G c) as [Hfull|(p0 & g0 & Hp0 & Hc0 & Hf0)].
  2: { destruct (alloc_hit (S fuel) c x s G R p0 g0 Hi Hx Hp0 Hc0 Hf0) as (p & g & k & fl & s' & Hg & <- & Hf & E & Hc & Hin & Hi').
       destruct (take_live s s' G R L p g x k fl Hi Ho Hg Hx Hf) as (H0 & HL & Hl'); try done.
       { intros q _ gq xq. apply Hb. }
       eexists _, s', _, _. split_and!; [exact E|done|done|exact Hl'|by right|].
       intros x1 _ _ q gq Hne [[<- <-]|[_ Hq]]%lookup_insert_Some; [done|done]. }
  unfold allocates. rewrite (alloc_empty (S fuel) c s G R) by (try done; by eexists).
  destruct (grow_ok (alloc (S fuel)) c x s G L R Hl Hx Hfull Hal) as (b & s1 & E1 & Hc1 & Hin1 & Hb1).
  rewrite (bind_Ret _ _ _ _ _ E1). destruct b.
  - destruct Hb1 as (G1 & p & i & HpG & Hf1 & Hbu & Hi1 & Ho1 & Hsame). set (g := GSlab c i (seqZ 0 (num x))) in *.
    rewrite <-Hc1 in Hx, Ho1, Hbu. assert (Hpos : g_free g ≠ []).
    { pose proof (co_num _ _ _ (ki_geo _ _ _ Hi1 _ _ Hx)). unfold g. simpl. rewrite seqZ_cons by lia. done. }
    destruct (alloc_hit fuel c x s1 _ R p g Hi1 Hx (lookup_insert_eq _ _ _) eq_refl Hpos)
      as (p' & g' & k & fl & s' & Hg' & Hgc' & Hf & E & Hc & Hin & Hi').
    assert (p' = p) as ->.
    { apply lookup_insert_Some in Hg' as [[<- _]|[Hne Hg']]; [done|]. rewrite (Hf1 p' g' Hg' Hgc') in Hf. done. }
    rewrite lookup_insert_eq in Hg'. injection Hg' as <-.
    destruct (take_live s1 s' _ R L p g x k fl Hi1 Ho1 (lookup_insert_eq _ _ _) Hx Hf) as (H0 & HL & Hl'); try done.
    { intros q Hne gq xq. rewrite lookup_insert_ne by done. apply Hbu. }
    eexists _, s', _, _. split_and!; [exact E|congruence|congruence|exact Hl'|by right|].
    intros x1 Hx1 Hon q gq Hne. rewrite Hc1, Hx1 in Hx. injection Hx as <-. rewrite Hsame by done.
    rewrite insert_insert_eq. intros [[<- <-]|[_ Hq]]%lookup_insert_Some; done.
  - destruct Hb1 as (G1 & Hl1 & Hsame). eexists 0, s1, G1, L. split_and!; [done|done|done|done|by left|].
    intros x1 Hx1 Hon q gq Hne. rewrite Hx1 in Hx. injection Hx as <-. by rewrite (proj1 (Hsame Hon)).
Qed.

Lemma alloc_ok fuel c x s G L R :
  live s G L R → slab_cache s !! c = Some x → allocates (alloc (S (S (S fuel))) c) c s G L R.
Proof.
  intros Hl Hx. eapply alloc_step; [done..|]. intros c' _ _ s1 G1 L1 R1 x1 Hl1 Hx1 Hon.
  eapply alloc_step; [done..|]. intros c2 Hoff. congruence.
Qed.

(** A cache that keeps its descriptors in its slabs has no object only when
    there are no pages for another slab. *)
Lemma alloc_null fuel c x s s' G L R :
  live s G L R → slab_cache s !! c = Some x → off_slab x = false → alloc (S (S fuel)) c s = Ret (0, s') →
  alloc_pages (Z.shiftl 1 (page_order x)) (spages s) = Ret (None, spages s').
Proof using HS.
  intros Hl Hx Hon E. pose proof Hl as [Hi Ho Hb]. destruct (all_full_dec G c) as [Hfull|(p0 & g0 & Hp0 & Hc0 & Hf0)].
  2: { destruct (alloc_hit (S fuel) c x s G R p0 g0 Hi Hx Hp0 Hc0 Hf0) as (p & g & k & fl & s1 & Hg & <- & Hf & E1 & Hc & _ & Hi').
       destruct (take_live s s1 G R L p g x k fl Hi Ho Hg Hx Hf) as (H0 & _); try done.
       { intros q _ gq xq. apply Hb. }
       rewrite E1 in E. by injection E as ? _. }
  rewrite (alloc_empty (S fuel) c s G R) in E by (try done; by eexists).
  destruct (grow_ok (alloc (S fuel)) c x s G L R Hl Hx Hfull) as (b & s1 & E1 & Hc1 & _ & Hb1); [congruence|].
  rewrite (bind_Ret _ _ _ _ _ E1) in E. destruct b.
  - destruct Hb1 as (G1 & p & i & HpG & Hf1 & Hbu & Hi1 & Ho1 & Hsame). set (g := GSlab c i (seqZ 0 (num x))) in *.
    rewrite <-Hc1 in Hx, Ho1, Hbu. assert (Hpos : g_free g ≠ []).
    { pose proof (co_num _ _ _ (ki_geo _ _ _ Hi1 _ _ Hx)). unfold g. simpl. rewrite seqZ_cons by lia. done. }
    destruct (alloc_hit fuel c x s1 _ R p g Hi1 Hx (lookup_insert_eq _ _ _) eq_refl Hpos)
      as (p' & g' & k & fl & s2 & Hg' & <- & Hf & E2 & Hc & _ & Hi').
    destruct (obj_run s1 _ R p' g' x k Hi1 Hg' Hx) as [_ Hu].
    { destruct (ki_slab _ _ _ Hi1 _ _ Hg') as (x' & Hx' & [_ _ S3 _ _ _]). rewrite Hx in Hx'. injection Hx' as <-.
      apply S3. rewrite Hf. by left. }
    destruct (in_use_page _ _ _ _ _ Hi1 Hu) as (_ & _ & _ & _ & _ & _ & Hl1 & _).
    rewrite E2 in E. injection E as E0 _. lia.
  - injection E as <-. destruct Hb1 as (G1 & _ & Hsame). by apply Hsame.
Qed.

(** ** kmem_cache_free_one *)
Lemma live_intr b s G L R : live s G L R → live (set_intr b s) G L R.
Proof. intros [H1 H2 H3]. split; [by apply inv_intr|done..]. Qed.

(** The state after the object [k] has gone back to the bufctl chain. *)
Definition chained (p k : Z) (sl : slab_t) s : kmem A :=
  upd_slabs <[p := MkSlab (s_mem sl) (u32 (inuse sl - 1)) (s_offset sl) k]>
    (upd_bufctls <[slab_bufctl p k := s_free sl]> s).

Section Free.
Context {s : kmem A} {G : gmap Z gslab} {R : list (Z * Z)} {p : Z} {g : gslab} {x : kmem_cache_t} {k : Z}.
Context (Hi : kmem_inv s G R) (Hg : G !! p = Some g) (Hx : slab_cache s !! g_cache g = Some x).
Context (Hk : 0 ≤ k < num x) (Hkf : k ∉ g_free g) (HG : G !! obj x g k = None).
Let g' := GSlab (g_cache g) (g_page g) (k :: g_free g).
Let sl := MkSlab (base g + offset x) (num x - Z.of_nat (length (g_free g))) (offset x)
            (default BUFCTL_END (head (g_free g))).

Lemma slab_entry : slabs s !! p = Some sl.
Proof using Hi Hg Hx.
  destruct (ki_slab _ _ _ Hi _ _ Hg) as (x' & Hx' & [S1 _ _ _ _ _]). rewrite Hx in Hx'. by injection Hx' as <-.
Qed.
Lemma free_list_ok : NoDup (k :: g_free g) ∧ (∀ j, j ∈ k :: g_free g → 0 ≤ j < num x) ∧
  1 ≤ num x - Z.of_nat (length (g_free g)) ≤ num x.
Proof using All.
  destruct (ki_slab _ _ _ Hi _ _ Hg) as (x' & Hx' & [_ S2 S3 _ _ _]). rewrite Hx in Hx'. injection Hx' as <-.
  assert (Hnd : NoDup (k :: g_free g)) by (by apply NoDup_cons).
  assert (Hr : ∀ j, j ∈ k :: g_free g → 0 ≤ j < num x) by (intros j [->|Hj]%elem_of_cons; [done|by apply S3]).
  split_and!; try done; [|lia]. pose proof (NoDup_range_length _ _ Hnd Hr) as Hlen. simpl in Hlen. lia.
Qed.

(** The cells of other slabs are not touched. *)
Lemma chained_other q g1 x1 j :
  q ≠ p → G !! q = Some g1 → slab_cache s !! g_cache g1 = Some x1 → 0 ≤ j < num x1 →
  bufctls (chained p k sl s) !! slab_bufctl q j = bufctls s !! slab_bufctl q j.
Proof using All.
  intros Hne Hq Hx1 Hj. unfold chained. simpl. rewrite lookup_insert_ne; [done|]. intros Heq.
  destruct (slab_bufctl_inj s G R p g x k q g1 x1 j) as [? ?]; congruence.
Qed.

Lemma chained_chain : bchain (bufctls (chained p k sl s)) p (k :: g_free g).
Proof using All.
  destruct (ki_slab _ _ _ Hi _ _ Hg) as (x' & Hx' & [_ S2 S3 S4 _ _]). rewrite Hx in Hx'. injection Hx' as <-.
  intros i j Hj. unfold chained. simpl. destruct i as [|i]; simpl in Hj.
  - injection Hj as <-. rewrite lookup_insert_eq. f_equal. by destruct (g_free g).
  - assert (Hjin : j ∈ g_free g) by by eapply list_elem_of_lookup_2.
    rewrite lookup_insert_ne; [by apply S4|]. intros Heq.
    destruct (slab_bufctl_inj s G R p g x k p g x j) as [_ ?]; try done; [by apply S3|]. by subst.
Qed.

Lemma chained_inv h' : (∃ F', klists (slab_cache s) (<[p := g']> G) h' F') →
  kmem_inv (over slinks_lens h' (chained p k sl s)) (<[p := g']> G) R.
Proof using All.
  intros HF. destruct free_list_ok as (Hnd & Hr & Hlen). eapply (inv_update s _ G R p g g' x); try done.
  - unfold chained. simpl. f_equal. f_equal. rewrite u32_small; [lia|].
    pose proof (co_num _ _ _ (ki_geo _ _ _ Hi _ _ Hx)). unfold is_u32. lia.
  - exact chained_chain.
  - exact chained_other.
  - intros q j [gq Hq] (g1 & x1 & Hg1 & Hx1 & Hj & Hn & ->). rewrite Hg in Hg1. injection Hg1 as <-.
    rewrite Hx in Hx1. injection Hx1 as <-. simpl. rewrite elem_of_cons. intros [->|?]; [congruence|done].
Qed.

(** The objects when [k] was the last one of its slab. *)
Lemma objs_delete L : objs (slab_cache s) G L → (∀ j, 0 ≤ j < num x → j ∉ g_free g → j = k) →
  if off_slab x then ∃ c', slab_cachep x = Some c' ∧ delete (obj x g k) L !! p = None ∧
    objs (slab_cache s) (delete p G) (<[p := c']> (delete (obj x g k) L))
  else objs (slab_cache s) (delete p G) (delete (obj x g k) L).
Proof using All.
  intros Ho Hlast. set (a0 := obj x g k).
  assert (Htk : ∀ q j b, taken (slab_cache s) (delete p G) q j b ↔ taken (slab_cache s) G q j b ∧ q ≠ p).
  { intros q j b. split.
    - intros (g1 & x1 & [Hne Hg1]%lookup_delete_Some & Ht). split; [by exists g1, x1|done].
    - intros [(g1 & x1 & Hg1 & Ht) Hne]. exists g1, x1. by rewrite lookup_delete_ne. }
  destruct (obj_run s G R p g x k Hi Hg Hx Hk) as [_ Hu]. fold a0 in Hu.
  assert (Hpt : ∀ q j b, taken (slab_cache s) G q j b → q = p ↔ b = a0).
  { intros q j b Ht. split; intros ->.
    - destruct Ht as (g1 & x1 & Hg1 & Hx1 & Hj & Hn & ->). rewrite Hg in Hg1. injection Hg1 as <-.
      rewrite Hx in Hx1. injection Hx1 as <-. by rewrite (Hlast j Hj Hn).
    - assert (UObj q j = UObj p k) as [= -> ->]; [|done]. eapply in_use_inj; [exact Hi|by eapply taken_in_use|done]. }
  assert (Hap : p ≠ a0) by (intros Hc; unfold a0 in Hc; congruence).
  assert (Hrest : ∀ b c, b ≠ p → delete a0 L !! b = Some c ↔ delete p G !! b = None ∧
      ∃ q j g1, taken (slab_cache s) (delete p G) q j b ∧ delete p G !! q = Some g1 ∧ g_cache g1 = c).
  { intros b c Hb. rewrite (lookup_delete_ne G p b) by done. destruct (decide (b = a0)) as [->|Hne].
    - rewrite lookup_delete_eq. split; [done|]. intros (_ & q & j & g1 & [Ht Hq]%Htk & _). destruct Hq. by apply (Hpt q j a0 Ht).
    - rewrite lookup_delete_ne by done. rewrite (Ho b c). apply and_iff_compat_l.
      split; intros (q & j & g1 & Ht & Hg1 & Hc).
      + assert (q ≠ p) by (intros Hq; by apply Hne, (Hpt q j b)). exists q, j, g1. rewrite Htk, lookup_delete_ne by done. done.
      + apply Htk in Ht as [Ht Hq]. rewrite lookup_delete_ne in Hg1 by done. by exists q, j, g1. }
  assert (HLp : delete a0 L !! p = None).
  { destruct (delete a0 L !! p) as [c|] eqn:E; [|done]. apply lookup_delete_Some in E as [_ E].
    apply Ho in E as [E _]. congruence. }
  destruct (ki_slab _ _ _ Hi _ _ Hg) as (x' & Hx' & [_ _ _ _ _ S6]). rewrite Hx in Hx'. injection Hx' as <-.
  destruct (off_slab x) eqn:Eo.
  - destruct S6 as (p1 & k1 & g1 & Ht1 & Hg1 & Hc1). exists (g_cache g1). split_and!; try done. intros b c.
    destruct (decide (b = p)) as [->|Hb]; [|rewrite lookup_insert_ne by done; by apply Hrest].
    rewrite lookup_insert_eq, lookup_delete_eq.
    assert (Hp1 : p1 ≠ p) by (intros Hq; by apply Hap, (Hpt p1 k1 p)). split.
    + intros [= <-]. split; [done|]. exists p1, k1, g1. rewrite Htk, lookup_delete_ne by done. done.
    + intros (_ & q & j & g2 & [Ht2 Hq2]%Htk & Hg2 & <-).
      assert (UObj q j = UObj p1 k1) as [= -> ->] by (eapply in_use_inj; [exact Hi|by eapply taken_in_use|by eapply taken_in_use]).
      rewrite lookup_delete_ne in Hg2 by done. congruence.
  - intros b c. destruct (decide (b = p)) as [->|Hb]; [|by apply Hrest]. rewrite HLp. split; [done|].
    intros (_ & q & j & g2 & [Ht2 Hq2]%Htk & _). exfalso.
    assert (Hu' : in_use (slab_cache s) G (UCtl p) p).
    { exists g, x. pose proof (ki_geo _ _ _ Hi _ _ Hx) as [_ ? _ _ _ Hon _]. specialize (Hon Eo).
      unfold sizeof_slab_t, sizeof_kmem_bufctl_t in Hon. split_and!; try done; lia. }
    assert (UObj q j = UCtl p); [|done]. eapply in_use_inj; [exact Hi|by eapply taken_in_use|done].
Qed.
End Free.

(** What kmem_cache_free does. *)
Definition frees (m : M (kmem A) unit) (a : Z) s G L R : Prop :=
  ∃ s' G', m s = Ret ((), s') ∧ slab_cache s' = slab_cache s ∧ intr_on s' = intr_on s ∧ live s' G' (delete a L) R.
Definition free_spec (f : Z → Z → M (kmem A) unit) (c : Z) : Prop := ∀ s G L R x a,
  live s G L R → slab_cache s !! c = Some x → off_slab x = false → L !! a = Some c → frees (f c a) a s G L R.

Abbreviation destroy := (kmem_slab_destroy (A := A) free_pages np PageSlab ClearPageSlab).
Abbreviation free_one := (kmem_cache_free_one (A := A) free_pages np PageSlab ClearPageSlab).
Abbreviation free := (kmem_cache_free (A := A) free_pages np PageSlab ClearPageSlab).

(** The pages of slab [p] go back; [s2] is the state in which it is on no list. *)
Lemma destroy_ok f s s2 G L R p g x k :
  live s G L R → G !! p = Some g → slab_cache s !! g_cache g = Some x → 0 ≤ k < num x → k ∉ g_free g → G !! obj x g k = None →
  (∀ j, 0 ≤ j < num x → j ∉ g_free g → j = k) →
  slab_cache s2 = slab_cache s → spages s2 = spages s → page_next s2 = page_next s → page_prev s2 = page_prev s →
  (∃ sl, slabs s2 !! p = Some sl ∧ s_mem sl = base g + offset x ∧ s_offset sl = offset x) →
  (∀ q, q ≠ p → slabs s2 !! q = slabs s !! q) →
  (∀ q g1 x1 j, q ≠ p → G !! q = Some g1 → slab_cache s !! g_cache g1 = Some x1 → 0 ≤ j < num x1 →
     bufctls s2 !! slab_bufctl q j = bufctls s !! slab_bufctl q j) →
  (∃ F, klists (slab_cache s) (delete p G) (slinks s2) F) →
  (∀ c', off_slab x = true → slab_cachep x = Some c' → free_spec f c') →
  ∃ s' G', destroy f (g_cache g) p s2 = Ret ((), s') ∧ slab_cache s' = slab_cache s ∧ intr_on s' = intr_on s2 ∧
    live s' G' (delete (obj x g k) L) R.
Proof.
  intros [Hi Ho Hb] Hg Hx Hk Hkf HG Hlast Ec Ea En Ev (sl & Hsl & Em & Eof) Hoth Hbuf HF Hfs.
  pose proof (ki_geo _ _ _ Hi _ _ Hx) as Hco. pose proof (co_order _ _ _ Hco). pose proof (co_num _ _ _ Hco). pose proof (co_size _ _ _ Hco).
  assert (Hpo : 0 < 2 ^ page_order x) by (apply Z.pow_pos_nonneg; lia).
  assert (Hrange : range_of (slab_cache s) g = (g_page g, Z.shiftl 1 (page_order x))).
  { unfold range_of. by rewrite Hx, Z.shiftl_1_l. }
  unfold kmem_slab_destroy. assert (E1 : get_slab p s2 = Ret (sl, s2)) by (unfold get_slab; by rewrite Hsl).
  rewrite (bind_Ret _ _ _ _ _ E1), Em, Eof. replace (base g + offset x - offset x) with (base g + 0) by lia.
  destruct (slab_address s G R p g x 0 Hi Hg Hx) as (_ & H32 & _ & Hpage); [unfold slab_bytes, PGSIZE; lia|].
  rewrite u32_small by done. rewrite (bind_Ret _ _ _ _ _ (Hpage _ s2)). rewrite Z.div_0_l, Z.add_0_r by done.
  assert (E2 : get_cache (g_cache g) s2 = Ret (x, s2)) by (unfold get_cache; by rewrite Ec, Hx).
  rewrite (bind_Ret _ _ _ _ _ E2).
  destruct (clear_pages_ok (Z.to_nat (Z.shiftl 1 (page_order x))) (g_page g) s2 (ranges (slab_cache s) G ++ R)) as (a1 & E3 & Hh1 & Hfl1).
  { rewrite Ea. apply (ki_held _ _ _ Hi). }
  { intros q Hq. rewrite Z.shiftl_1_l, Z2Nat.id in Hq by lia.
    destruct (ki_slab _ _ _ Hi _ _ Hg) as (x' & Hx' & [_ _ _ _ S5 _]). rewrite Hx in Hx'. injection Hx' as <-.
    rewrite Ea. split; [|apply S5; done]. rewrite hand_pages_app. apply elem_of_app. left. by eapply region_held. }
  rewrite (bind_Ret _ _ _ _ _ E3).
  assert (Hh2 : held a1 (range_of (slab_cache s) g :: ranges (slab_cache s) (delete p G) ++ R)).
  { eapply sp_perm; [exact Hh1|]. by rewrite (ranges_delete _ _ _ _ Hg). }
  pose proof (pa_nodup (held := held) _ _ Hh2) as Hnd. rewrite Hrange in Hh2, Hnd.
  destruct (pa_free (held := held) _ _ _ _ Hh2) as (a2 & E4 & Hh3). set (s3 := over spages_lens a2 s2).
  assert (E4' : on_spages (free_pages (g_page g) (Z.shiftl 1 (page_order x))) (over spages_lens a1 s2) = Ret ((), s3)).
  { exact (zoom_Ret spages_lens _ (over spages_lens a1 s2) _ _ E4). }
  rewrite (bind_Ret _ _ _ _ _ E4').
  assert (Hi3 : kmem_inv s3 (delete p G) R).
  { eapply (inv_delete s s3 G R p g x); try done.
    - intros q j [gq Hq] (g1 & x1 & Hg1 & Hx1 & Hj & Hn & ->). rewrite Hg in Hg1. injection Hg1 as <-.
      rewrite Hx in Hx1. injection Hx1 as <-. rewrite (Hlast j Hj Hn) in Hq. congruence.
    - intros q Hq. change (spages s3) with a2. rewrite (sp_free _ _ _ _ _ Hh2 E4 q Hq), Hfl1; [by rewrite Ea|].
      intros Hq'. unfold hand_pages at 1 in Hnd. csimpl in Hnd. apply NoDup_app in Hnd as (_ & Hd & _).
      apply (Hd q); [|exact Hq]. apply elem_of_seqZ. rewrite Z2Nat.id in Hq' by (rewrite Z.shiftl_1_l; lia). lia. }
  assert (Hb3 : busy (slab_cache s) (delete p G)) by (intros q gq xq [_ Hq]%lookup_delete_Some; by apply (Hb q)).
  pose proof (objs_delete Hi Hg Hx Hk Hkf HG L Ho Hlast) as Hod. destruct (off_slab x) eqn:Eo.
  - destruct Hod as (c' & Hc' & Hpn & Ho3). rewrite Hc'. destruct (co_off _ _ _ Hco Eo) as (c1 & x1 & Hc1 & Hx1 & Hon & _).
    rewrite Hc' in Hc1. injection Hc1 as <-. rewrite <-Ec in Hx1, Ho3, Hb3.
    destruct (Hfs c' eq_refl Hc' s3 (delete p G) _ R x1 p (Build_live _ _ _ _ Hi3 Ho3 Hb3) Hx1 Hon (lookup_insert_eq _ _ _))
      as (s' & G' & E & Hcs & His & Hl). rewrite delete_insert_id in Hl by done.
    exists s', G'. split_and!; [exact E|rewrite Hcs; exact Ec|exact His|exact Hl].
  - exists s3, (delete p G). split_and!; [done|exact Ec|done|]. rewrite <-Ec in Hod, Hb3. by split.
Qed.

Lemma free_one_ok f s G L R p g x k :
  live s G L R → G !! p = Some g → slab_cache s !! g_cache g = Some x → 0 ≤ k < num x → k ∉ g_free g → G !! obj x g k = None →
  (∀ c', off_slab x = true → slab_cachep x = Some c' → free_spec f c') →
  frees (free_one f (g_cache g) p (obj x g k)) (obj x g k) s G L R.
Proof.
  intros Hl Hg Hx Hk Hkf HG Hfs. pose proof Hl as [Hi Ho Hb].
  pose proof (slab_entry Hi Hg Hx) as Hsl. destruct (free_list_ok Hi Hg Hx Hk Hkf HG) as (Hnd & Hr & Hlen).
  pose proof (ki_geo _ _ _ Hi _ _ Hx) as Hco. pose proof (co_num _ _ _ Hco). pose proof (co_size _ _ _ Hco).
  set (sl := MkSlab _ _ _ _) in Hsl. set (s1 := chained p k sl s). unfold frees, kmem_cache_free_one.
  assert (E1 : get_slab p s = Ret (sl, s)) by (unfold get_slab; by rewrite Hsl). rewrite (bind_Ret _ _ _ _ _ E1).
  assert (E2 : get_cache (g_cache g) s = Ret (x, s)) by (unfold get_cache; by rewrite Hx). rewrite (bind_Ret _ _ _ _ _ E2).
  assert (Enr : u32 (obj x g k - s_mem sl) / objsize x = k).
  { unfold sl, obj. simpl. replace (base g + offset x + k * objsize x - (base g + offset x)) with (k * objsize x) by lia.
    destruct (page_bounds _ _ _ _ _ _ Hi Hg Hx) as (P0 & P1 & P2). pose proof (co_fit _ _ _ Hco). pose proof (co_offset _ _ _ Hco).
    unfold slab_bytes, PGSIZE in *. rewrite u32_small by (unfold is_u32; nia). apply Z.div_mul. lia. }
  rewrite Enr. unfold set_bufctl. rewrite bind_modify.
  assert (E3 : set_slab p (λ sl, MkSlab (s_mem sl) (u32 (inuse sl - 1)) (s_offset sl) k)
     (upd_bufctls <[slab_bufctl p k := s_free sl]> s) = Ret ((), s1)).
  { unfold set_slab. simpl. by rewrite Hsl. }
  rewrite (bind_Ret _ _ _ _ _ E3).
  set (n' := num x - Z.of_nat (length (g_free g)) - 1).
  assert (E4 : get_slab p s1 = Ret (MkSlab (base g + offset x) n' (offset x) k, s1)).
  { unfold get_slab. simpl. rewrite lookup_insert_eq. unfold n'. rewrite u32_small by (unfold is_u32; lia). done. }
  rewrite (bind_Ret _ _ _ _ _ E4). cbn [inuse]. rewrite u32_small by (unfold is_u32; lia).
  destruct (ki_lists _ _ _ Hi) as [F HF].
  destruct (decide (n' = 0)) as [Hz|Hz]; [rewrite (bool_decide_true (n' = 0)) by done|rewrite (bool_decide_false (n' = 0)) by done].
  - destruct (klists_del HF p g Hg) as (h1 & F1 & D1 & HF1 & _); [by eexists|].
    assert (D1' : on_slinks (list_del (SlabLink p)) s1 = Ret ((), over slinks_lens h1 s1)) by by apply (zoom_Ret slinks_lens).
    rewrite (bind_Ret _ _ _ _ _ D1').
    eapply (destroy_ok f s (over slinks_lens h1 s1) G L R p g x k); try done.
    + intros j Hj Hn. destruct (decide (j = k)) as [->|Hne]; [done|]. exfalso.
      assert (Hnd' : NoDup (j :: k :: g_free g)) by (apply NoDup_cons; split; [set_solver +Hn Hne|done]).
      pose proof (NoDup_range_length _ (num x) Hnd') as Hlen'. simpl in Hlen'.
      unfold n' in Hz. enough (Z.of_nat (S (S (length (g_free g)))) ≤ Z.max 0 (num x)) by lia. apply Hlen'.
      intros i [->|Hin]%elem_of_cons; [done|by apply Hr].
    + eexists. simpl. rewrite lookup_insert_eq. split_and!; done.
    + intros q Hq. simpl. by rewrite lookup_insert_ne.
    + exact (chained_other Hi Hg Hx Hk Hkf HG).
    + by exists F1.
  - set (g' := GSlab (g_cache g) (g_page g) (k :: g_free g)).
    assert (Hmv : ∃ h', (if bool_decide (n' = num x - 1) then on_slinks (list_del (SlabLink p));;
        on_slinks (list_add (SlabsNotfull (g_cache g)) (SlabLink p)) else skip) s1 = Ret ((), over slinks_lens h' s1) ∧
        ∃ F', klists (slab_cache s) (<[p := g']> G) h' F').
    { destruct (g_free g) as [|k1 fl] eqn:Ef.
      - rewrite bool_decide_true by (unfold n'; simpl; lia). eapply (move_ok s1 _ G F p g g'); [exact HF|done|by eexists|done].
      - rewrite bool_decide_false by (unfold n'; simpl; lia). exists (slinks s). split; [done|]. exists F.
        eapply klists_same; [exact HF|exact Hg|]. unfold home. rewrite Ef. done. }
    destruct Hmv as (h' & E5 & HF'). eexists _, _. split; [exact E5|]. split_and!; [done|done|].
    pose proof (objs_give s G R L p g x k Hi Ho Hg Hx Hkf Hk HG) as Ho'. fold g' in Ho'. split.
    + exact (chained_inv Hi Hg Hx Hk Hkf HG h' HF').
    + exact Ho'.
    + intros q gq xq [[<- <-]|[Hne Hq]]%lookup_insert_Some Hxq; [|by apply (Hb q)].
      simpl in Hxq |- *. rewrite Hx in Hxq. injection Hxq as <-. unfold n' in Hz. lia.
Qed.

Lemma free_step fuel c x s G L R a :
  live s G L R → slab_cache s !! c = Some x → L !! a = Some c →
  (∀ c', off_slab x = true → slab_cachep x = Some c' → free_spec (free fuel) c') →
  frees (free (S fuel) c a) a s G L R ∧
  ∃ q, (∀ {T} (t : T), kva2page np a t = Ret (q, t)) ∧ page_next s !! q = Some c.
Proof.
  intros Hl Hx Ha Hfs. pose proof Hl as [Hi Ho Hb].
  destruct (proj1 (Ho a c) Ha) as (HGa & p & k & g & Ht & Hg & <-).
  pose proof (taken_in_use _ _ _ _ _ _ Hi Ht) as Hu.
  destruct (in_use_page _ _ _ _ _ Hi Hu) as (q & Eq & Hq & Hprev & Hfl & _ & _ & (g1 & Hg1 & Hnx)).
  simpl in Hprev, Hg1. rewrite Hg in Hg1. injection Hg1 as <-. split; [|by exists q].
  destruct Ht as (g1 & x1 & Hg1 & Hx1 & Hk & Hkf & ->). rewrite Hg in Hg1. injection Hg1 as <-.
  rewrite Hx in Hx1. injection Hx1 as <-.
  unfold frees. cbn [kmem_cache_free]. rewrite (bind_Ret _ _ _ _ _ (Eq _ s)).
  assert (E1 : on_spages (PageSlab q) s = Ret (true, s)).
  { assert (Hq' : q ∈ hand_pages (ranges (slab_cache s) G ++ R)) by (rewrite hand_pages_app; apply elem_of_app; by left).
    rewrite <-Hfl. unfold on_spages. rewrite (zoom_Ret spages_lens _ s _ _ (sp_get _ _ _ (ki_held _ _ _ Hi) Hq')).
    by destruct s. }
  rewrite (bind_Ret _ _ _ _ _ E1). cbn [negb]. rewrite bind_skip.
  unfold local_irq_save. rewrite !bind_assoc, bind_gets, bind_assoc, bind_modify, bind_mret.
  set (s1 := set_intr false s). unfold GET_PAGE_SLAB. rewrite bind_gets. change (page_prev s1) with (page_prev s).
  rewrite Hprev. cbn [default].
  destruct (free_one_ok (free fuel) s1 G L R p g x k (live_intr _ _ _ _ _ Hl) Hg Hx Hk Hkf HGa Hfs) as (s2 & G2 & E2 & Hc2 & Hi2 & Hl2).
  rewrite (bind_Ret _ _ _ _ _ E2). eexists _, G2. split; [reflexivity|]. split_and!; [done|done|]. by apply live_intr.
Qed.

Lemma free_ok fuel c s G L R a :
  live s G L R → L !! a = Some c → frees (free (S (S fuel)) c a) a s G L R ∧
  ∃ q, (∀ {T} (t : T), kva2page np a t = Ret (q, t)) ∧ page_next s !! q = Some c.
Proof.
  intros Hl Ha. destruct (proj1 (lv_objs _ _ _ _ Hl a c) Ha) as (_ & p & k & g & (g1 & x & Hg1 & Hx & _) & Hg & Hc).
  rewrite Hg in Hg1. injection Hg1 as <-. rewrite Hc in Hx.
  eapply free_step; [done..|]. intros c' _ _ s1 G1 L1 R1 x1 a1 Hl1 Hx1 Hon Ha1.
  eapply free_step; [done..|]. intros c2 Hoff. congruence.
Qed.
End Props.
