(* ===== verification/SlabMain.v ===== *)
(** * The slab allocator: slab_init, kmalloc and kfree *)
From stdpp Require Import base gmap list fin_maps.
From Stdlib Require Import ZArith Lia.
From S2P Require Import Prelude DList Bits Printfmt Mmu Buddy BuddySpec Alloc PmmRefs SlabPages Slab SlabInv SlabProps.

(** ** The caches slab_init makes *)
Definition std_caches : list kmem_cache_t :=
  [MkCache 32 113 480 false 0 None; MkCache 64 59 272 false 0 None; MkCache 128 30 144 false 0 None;
   MkCache 256 15 96 false 0 None; MkCache 512 8 0 true 0 (Some 1); MkCache 1024 4 0 true 0 (Some 1);
   MkCache 2048 2 0 true 0 (Some 0); MkCache 4096 1 0 true 0 (Some 0); MkCache 8192 1 0 true 1 (Some 0);
   MkCache 16384 1 0 true 2 (Some 0); MkCache 32768 1 0 true 3 (Some 0); MkCache 65536 1 0 true 4 (Some 0);
   MkCache 131072 1 0 true 5 (Some 0)].

(** The caches 0 .. n-1 are the standard ones, the others of the 13 are still 0. *)
Definition zero_cache : kmem_cache_t := MkCache 0 0 0 false 0 None.
Definition caches_upto (n : Z) (C : gmap Z kmem_cache_t) : Prop := ∀ c,
  C !! c = if decide (0 ≤ c < n) then std_caches !! Z.to_nat c else if decide (n ≤ c < 13) then Some zero_cache else None.
Definition std (C : gmap Z kmem_cache_t) : Prop := caches_upto 13 C.

Lemma std_lookup C c x : std C → C !! c = Some x → 0 ≤ c < 13 ∧ std_caches !! Z.to_nat c = Some x.
Proof.
  intros HC Hx. rewrite HC in Hx. destruct (decide (0 ≤ c < 13)); [done|]. by rewrite decide_False in Hx by lia.
Qed.
Lemma std_get C c x : std C → 0 ≤ c < 13 → std_caches !! Z.to_nat c = Some x → C !! c = Some x.
Proof. intros HC Hc Hx. by rewrite HC, decide_True. Qed.

(** [each13] proves a statement on the 13 caches by cases. *)
Lemma cases13 (P : Z → Prop) :
  P 0 → P 1 → P 2 → P 3 → P 4 → P 5 → P 6 → P 7 → P 8 → P 9 → P 10 → P 11 → P 12 → ∀ c, 0 ≤ c < 13 → P c.
Proof.
  intros. assert (c = 0 ∨ c = 1 ∨ c = 2 ∨ c = 3 ∨ c = 4 ∨ c = 5 ∨ c = 6 ∨ c = 7 ∨ c = 8 ∨ c = 9 ∨ c = 10 ∨ c = 11 ∨ c = 12)
    as Hc by lia. by repeat destruct Hc as [->|Hc]; [..|subst c].
Qed.

Lemma std_geometry C : std C → geometry C.
Proof.
  intros HC c x Hx. destruct (std_lookup C c x HC Hx) as [Hc Hs]. clear Hx. revert x Hs.
  pattern c. revert c Hc. apply cases13; intros x [= <-];
    (split; simpl; unfold slab_bytes, sizeof_slab_t, sizeof_kmem_bufctl_t, PGSIZE; simpl; intros; try lia; try discriminate);
    eexists _, _; (split; [reflexivity|]); (split; [by apply (std_get C _ _ HC); [lia|]|done]).
Qed.
Lemma std_size C c x : std C → C !! c = Some x → objsize x = 2 ^ (c + 5) ∧ offset x mod 16 = 0.
Proof.
  intros HC Hx. destruct (std_lookup C c x HC Hx) as [Hc Hs]. clear Hx. revert x Hs.
  pattern c. revert c Hc. by apply cases13; intros x [= <-].
Qed.

(** ** init_kmem_cache *)
Section Init.
Context {A : Type}.
Implicit Types s : kmem A.

(** What calculate_slab_order finds: the number of objects, the order and the
    bytes left over. *)
Definition plan_of (x : kmem_cache_t) : Z :=
  slab_bytes x - num x * objsize x - (if off_slab x then 0 else offset x).

Definition set_plan (n order : Z) (c : kmem_cache_t) : kmem_cache_t :=
  MkCache (objsize c) n (offset c) (off_slab c) order (slab_cachep c).

Lemma order_loop_std c x s : 0 ≤ c < 13 → std_caches !! Z.to_nat c = Some x →
  calculate_slab_order c (objsize x) 16 (off_slab x) s =
  (set_cache c (set_plan (num x) (page_order x));; mret (plan_of x)) s.
Proof.
  intros Hc. revert x s. pattern c. revert c Hc. by apply cases13; intros x s [= <-].
Qed.

Lemma plan_std c x : 0 ≤ c < 13 → std_caches !! Z.to_nat c = Some x →
  ROUNDUP (Z.shiftl 1 (c + MIN_SIZE_ORDER)) 16 = objsize x ∧
  bool_decide (objsize x >= Z.shiftr PGSIZE 3) = off_slab x ∧ num x > 0 ∧
  off_slab x && negb (bool_decide (plan_of x >= slab_mgmt_size (num x) 16)) = off_slab x ∧
  (if off_slab x then ∃ o, (∀ {T} (t : T), getorder (slab_mgmt_size (num x) 16) t = Ret (o, t)) ∧
                        slab_cachep x = Some (o - MIN_SIZE_ORDER) ∧ offset x = 0
   else offset x = slab_mgmt_size (num x) 16 ∧ slab_cachep x = None).
Proof.
  intros Hc Hx. revert x Hx. pattern c. revert c Hc.
  apply cases13; intros x [= <-]; vm_compute; split_and!; first [done | eexists; split_and!; [intros; reflexivity|done|done]].
Qed.

Definition with_cache (c : Z) (x : kmem_cache_t) s : kmem A := upd_cache <[c := x]> s.
Lemma set_cache_run c x f s : slab_cache s !! c = Some x → set_cache c f s = Ret ((), with_cache c (f x) s).
Proof. intros H. unfold set_cache. by rewrite H. Qed.
Lemma get_cache_run c x s : slab_cache s !! c = Some x → get_cache c s = Ret (x, s).
Proof. intros H. unfold get_cache. by rewrite H. Qed.
Lemma set_cache_with c x f s : set_cache c f (with_cache c x s) = Ret ((), with_cache c (f x) s).
Proof.
  unfold set_cache, with_cache. simpl. rewrite lookup_insert_eq. unfold upd_cache. simpl. by rewrite insert_insert_eq.
Qed.
Lemma get_cache_with c x s : get_cache c (with_cache c x s) = Ret (x, with_cache c x s).
Proof. apply get_cache_run. apply lookup_insert_eq. Qed.

(** The structure of cache [c] after init_kmem_cache. *)
Lemma init_kmem_cache_std c x s h :
  0 ≤ c < 13 → std_caches !! Z.to_nat c = Some x → slab_cache s !! c = Some zero_cache →
  (list_init (SlabsFull c);; list_init (SlabsNotfull c)) (slinks s) = Ret ((), h) →
  init_kmem_cache c (Z.shiftl 1 (c + MIN_SIZE_ORDER)) 16 s = Ret ((), with_cache c x (over slinks_lens h s)).
Proof.
  intros Hc Hx Hz Hl. destruct (plan_std c x Hc Hx) as (Esz & Eoff & Hn & Eoff' & Hrest).
  apply bind_inv in Hl as ([] & h1 & L1 & L2). unfold init_kmem_cache.
  assert (E1 : on_slinks (list_init (SlabsFull c)) s = Ret ((), over slinks_lens h1 s)) by by apply (zoom_Ret slinks_lens).
  rewrite (bind_Ret _ _ _ _ _ E1).
  assert (E2 : on_slinks (list_init (SlabsNotfull c)) (over slinks_lens h1 s) = Ret ((), over slinks_lens h s)).
  { exact (zoom_Ret slinks_lens _ (over slinks_lens h1 s) _ _ L2). }
  rewrite (bind_Ret _ _ _ _ _ E2). cbv zeta. rewrite Esz, Eoff.
  rewrite (bind_Ret _ _ _ _ _ (set_cache_run c zero_cache _ (over slinks_lens h s) Hz)).
  set (s1 := over slinks_lens h s).
  assert (E3 : calculate_slab_order c (objsize x) 16 (off_slab x)
      (with_cache c (MkCache (objsize x) 0 0 (off_slab x) 0 None) s1) =
      Ret (plan_of x, with_cache c (MkCache (objsize x) (num x) 0 (off_slab x) (page_order x) None) s1)).
  { rewrite (order_loop_std c x _ Hc Hx). by rewrite (bind_Ret _ _ _ _ _ (set_cache_with _ _ _ _)). }
  rewrite (bind_Ret _ _ _ _ _ E3).
  rewrite (bind_Ret _ _ _ _ _ (get_cache_with _ _ _)). cbn [num].
  rewrite bind_assert by (by apply bool_decide_eq_true). rewrite Eoff'.
  rewrite (bind_Ret _ _ _ _ _ (set_cache_with _ _ _ _)). cbn [objsize num offset off_slab page_order slab_cachep].
  destruct x as [sz n off os po cp]; cbn [objsize num offset off_slab page_order slab_cachep] in *. destruct os.
  - destruct Hrest as (o & Eo & -> & ->). rewrite (bind_Ret _ _ _ _ _ (Eo _ _)). apply set_cache_with.
  - destruct Hrest as (-> & ->). apply set_cache_with.
Qed.

(** ** slab_init *)
Record heads_upto (n : Z) (h : gmap slink (list_entry slink)) (F : gmap slink (list slink)) : Prop := {
  hu_dlists : dlists h F;
  hu_heads : ∀ hd, is_Some (F !! hd) ↔ ∃ c, 0 ≤ c < n ∧ (hd = SlabsFull c ∨ hd = SlabsNotfull c);
  hu_empty : ∀ hd l, F !! hd = Some l → l = [] }.

(** The entries of the heads are in memory. *)
Definition heads_in_memory (h : gmap slink (list_entry slink)) : Prop :=
  ∀ c, 0 ≤ c < 13 → is_Some (h !! SlabsFull c) ∧ is_Some (h !! SlabsNotfull c).

Lemma heads_unowned n h F hd : heads_upto n h F → F !! hd = None → unowned F hd.
Proof.
  intros HF Hn hd' (l & Hl & Hin). rewrite (hu_empty _ _ _ HF _ _ Hl) in Hin.
  apply list_elem_of_singleton in Hin as ->. congruence.
Qed.

Lemma init_heads n h F : 0 ≤ n < 13 → heads_upto n h F → heads_in_memory h →
  ∃ h' F', (list_init (SlabsFull n);; list_init (SlabsNotfull n)) h = Ret ((), h') ∧
    heads_upto (n + 1) h' F' ∧ dom h' = dom h.
Proof.
  intros Hn HF Hm. destruct (Hm n Hn) as [M1 M2].
  assert (Hno : F !! SlabsFull n = None ∧ F !! SlabsNotfull n = None).
  { split; apply eq_None_not_Some; intros (c & Hc & [?|?])%(hu_heads _ _ _ HF); simplify_eq; lia. }
  destruct Hno as [N1 N2].
  destruct (list_init_dlists h F (SlabsFull n) (hu_dlists _ _ _ HF) (heads_unowned _ _ _ _ HF N1) M1) as (h1 & E1 & D1 & Hd1).
  set (F1 := <[SlabsFull n := []]> F) in *.
  assert (U2 : unowned F1 (SlabsNotfull n)).
  { intros hd'. unfold F1. rewrite owns_insert. intros [[-> Hin]|[_ Ho]]; [|by apply (heads_unowned _ _ _ _ HF N2 hd')].
    by apply list_elem_of_singleton in Hin. }
  destruct (list_init_dlists h1 F1 (SlabsNotfull n) D1 U2) as (h2 & E2 & D2 & Hd2); [by eapply dom_is_Some|].
  exists h2, (<[SlabsNotfull n := []]> F1). split_and!; [by rewrite (bind_Ret _ _ _ _ _ E1)| |congruence]. split; [done|..].
  - intros hd. unfold F1. rewrite !lookup_insert_is_Some', (hu_heads _ _ _ HF). split.
    + intros [<-|[<-|(c & Hc & H)]]; [exists n; split; [lia|by right]|exists n; split; [lia|by left]|].
      exists c. split; [lia|done].
    + intros (c & Hc & H). destruct (decide (c = n)) as [->|Hne]; [naive_solver|]. right. right. exists c. split; [lia|done].
  - intros hd l [[_ <-]|[_ [[_ <-]|[_ Hl]]%lookup_insert_Some]]%lookup_insert_Some; [done..|]. by eapply hu_empty.
Qed.

Lemma slab_init_loop_ok k n s F :
  Z.of_nat k = 13 - n → 0 ≤ n → caches_upto n (slab_cache s) → heads_upto n (slinks s) F → heads_in_memory (slinks s) →
  ∃ C h F', slab_init_loop k n s = Ret ((), upd_cache (λ _, C) (over slinks_lens h s)) ∧ std C ∧ heads_upto 13 h F'.
Proof.
  revert n s F. induction k as [|k IH]; intros n s F Hk Hn HC HF Hm; cbn [slab_init_loop].
  - assert (n = 13) as -> by lia. exists (slab_cache s), (slinks s), F. split_and!; [by destruct s|done|done].
  - destruct (init_heads n _ F ltac:(lia) HF Hm) as (h1 & F1 & E1 & HF1 & Hd).
    assert (Hx : ∃ x, std_caches !! Z.to_nat n = Some x) by (apply lookup_lt_is_Some_2; simpl; lia). destruct Hx as [x Hx].
    assert (Hz : slab_cache s !! n = Some zero_cache) by (rewrite HC; by rewrite decide_False, decide_True by lia).
    rewrite (bind_Ret _ _ _ _ _ (init_kmem_cache_std n x s h1 ltac:(lia) Hx Hz E1)).
    destruct (IH (n + 1) (with_cache n x (over slinks_lens h1 s)) F1) as (C & h & F' & E & HC' & HF'); [lia|lia| |done| |].
    + intros c. simpl. destruct (decide (c = n)) as [->|Hne].
      * rewrite lookup_insert_eq, decide_True by lia. done.
      * rewrite lookup_insert_ne, HC by done.
        destruct (decide (0 ≤ c < n)); [by rewrite decide_True by lia|]. rewrite (decide_False (P := 0 ≤ c < n + 1)) by lia.
        destruct (decide (n ≤ c < 13)); [by rewrite decide_True by lia|by rewrite decide_False by lia].
    + intros c Hc. destruct (Hm c Hc). split; by eapply dom_is_Some.
    + exists C, h, F'. split_and!; [exact E|done|done].
Qed.
End Init.

(** ** kmalloc and kfree *)
Lemma getorder_run n : 0 < n ≤ 2 ^ 17 →
  ∃ c, 0 ≤ c < 13 ∧ n ≤ 2 ^ (c + 5) ∧ (c = 0 ∨ 2 ^ (c + 4) < n) ∧ ∀ {T} (t : T), getorder n t = Ret (c + 5, t).
Proof.
  intros Hn.
  assert (H : ∀ fuel c, 0 ≤ c < 13 → (c + Z.of_nat fuel = 14) → (c = 0 ∨ 2 ^ (c + 4) < n) →
    ∃ c', 0 ≤ c' < 13 ∧ n ≤ 2 ^ (c' + 5) ∧ (c' = 0 ∨ 2 ^ (c' + 4) < n) ∧ ∀ {T} (t : T), getorder_loop fuel n (c + 5) (2 ^ (c + 5)) t = Ret (c' + 5, t)).
  { induction fuel as [|fuel IH]; intros c Hc Hf Hlow; [lia|]. cbn [getorder_loop].
    rewrite (bool_decide_true (c + 5 ≤ MAX_SIZE_ORDER)) by (unfold MAX_SIZE_ORDER; lia).
    destruct (decide (n ≤ 2 ^ (c + 5))) as [Hle|Hgt].
    - exists c. by rewrite bool_decide_true.
    - rewrite bool_decide_false by done. assert (c ≠ 12) by (intros ->; simpl in Hgt; lia).
      destruct (IH (c + 1) ltac:(lia) ltac:(lia)) as (c' & Hc' & Hle' & Hlow' & E).
      { right. replace (c + 1 + 4) with (c + 5) by lia. lia. }
      exists c'. split_and!; [lia..|done|done|]. intros T t. rewrite <-(E T t). f_equal; [lia|].
      rewrite Z.shiftl_mul_pow2, <-Z.pow_add_r by lia. replace (c + 1 + 5) with (c + 5 + 1) by lia. apply u32_small.
      unfold is_u32. split; [apply Z.pow_nonneg; lia|]. apply Z.pow_lt_mono_r; lia. }
  destruct (H 14%nat 0) as (c & Hc & Hle & Hlow & E); [lia|done|by left|]. by exists c.
Qed.

Section Main.
Context {A : Type} {alloc_pages : Z → M A (option Z)} {free_pages : Z → Z → M A unit}.
Context {PageSlab : Z → M A bool} {SetPageSlab ClearPageSlab : Z → M A unit} {np : Z}.
Context {held : A → list (Z * Z) → Prop} {slab : A → Z → bool}.
Context `{HS : !SlabPages alloc_pages free_pages PageSlab SetPageSlab ClearPageSlab np held slab}.
Implicit Types (s : kmem A) (G : gmap Z gslab) (L : gmap Z Z) (R : list (Z * Z)).
Abbreviation live := (SlabProps.live (np := np) (held := held) (slab := slab)).
Abbreviation kmalloc := (Slab.kmalloc (A := A) alloc_pages free_pages np SetPageSlab).
Abbreviation kfree := (Slab.kfree (A := A) free_pages np PageSlab ClearPageSlab).

Lemma kmalloc_ok fuel n s G L R :
  (3 ≤ fuel)%nat → live s G L R → std (slab_cache s) → 0 < n ≤ KMALLOC_MAX →
  ∃ r s' G' L' c, kmalloc fuel n s = Ret (r, s') ∧ slab_cache s' = slab_cache s ∧ intr_on s' = intr_on s ∧
    live s' G' L' R ∧ n ≤ 2 ^ (c + 5) ∧ (r = 0 ∧ L' = L ∨ r ≠ 0 ∧ L !! r = None ∧ L' = <[r := c]> L).
Proof.
  intros Hf Hl HC Hn. destruct (getorder_run n Hn) as (c & Hc & Hle & _ & Eo). unfold Slab.kmalloc.
  rewrite bind_assert by (apply bool_decide_eq_true; lia). rewrite (bind_Ret _ _ _ _ _ (Eo _ s)).
  rewrite bool_decide_false by (unfold MAX_SIZE_ORDER; lia). replace (c + 5 - MIN_SIZE_ORDER) with c by (unfold MIN_SIZE_ORDER; lia).
  assert (Hx : ∃ x, std_caches !! Z.to_nat c = Some x) by (apply lookup_lt_is_Some_2; simpl; lia). destruct Hx as [x Hx].
  destruct fuel as [|[|[|fuel]]]; try lia.
  destruct (alloc_ok fuel c x s G L R Hl) as (r & s' & G' & L' & E & Hc' & Hi' & Hl' & Hr & _); [by apply std_get|].
  by exists r, s', G', L', c.
Qed.

(** Small objects are refused only when there is no page for a new slab. *)
Lemma kmalloc_null n s s' G L R :
  live s G L R → std (slab_cache s) → 0 < n ≤ 256 →
  kmalloc 3 n s = Ret (0, s') → alloc_pages 1 (spages s) = Ret (None, spages s').
Proof using HS.
  intros Hl HC Hn. destruct (getorder_run n ltac:(lia)) as (c & Hc & _ & Hlow & Eo). unfold Slab.kmalloc.
  assert (Hc4 : c < 4).
  { destruct (decide (c < 4)); [done|]. assert (2 ^ 8 ≤ 2 ^ (c + 4)) by (apply Z.pow_le_mono_r; lia). lia. }
  rewrite bind_assert by (apply bool_decide_eq_true; lia). rewrite (bind_Ret _ _ _ _ _ (Eo _ s)).
  rewrite bool_decide_false by (unfold MAX_SIZE_ORDER; lia). replace (c + 5 - MIN_SIZE_ORDER) with c by (unfold MIN_SIZE_ORDER; lia).
  assert (Hx : ∃ x, std_caches !! Z.to_nat c = Some x ∧ off_slab x = false ∧ page_order x = 0).
  { assert (c = 0 ∨ c = 1 ∨ c = 2 ∨ c = 3) as [->|[->|[->| ->]]] by lia; by eexists. }
  destruct Hx as (x & Hx & Hon & Ho). intros E.
  assert (Hp : alloc_pages (Z.shiftl 1 (page_order x)) (spages s) = Ret (None, spages s')); [|by rewrite Ho in Hp].
  apply (alloc_null 1 c x _ _ G L R); try done. by apply std_get.
Qed.

(** Larger requests stop the kernel in getorder. *)
Lemma getorder_large {T} n (t : T) : KMALLOC_MAX < n → getorder n t = Panic.
Proof.
  unfold KMALLOC_MAX. change (2 ^ 17) with 131072. intros Hn. unfold getorder, MIN_SIZE_ORDER.
  change (Z.shiftl 1 5) with 32. cbn [getorder_loop].
  repeat (rewrite (bool_decide_true (_ ≤ MAX_SIZE_ORDER)) by (vm_compute; discriminate);
    rewrite (bool_decide_false (n ≤ _)) by (match goal with |- ¬ (n ≤ ?v) => let v' := eval vm_compute in v in change v with v' end; lia)).
  by rewrite bool_decide_false by (unfold MAX_SIZE_ORDER; lia).
Qed.
Lemma kmalloc_large fuel n s : KMALLOC_MAX < n → kmalloc fuel n s = Panic.
Proof.
  intros Hn. unfold Slab.kmalloc. rewrite bind_assert by (apply bool_decide_eq_true; unfold KMALLOC_MAX in Hn; lia).
  unfold mbind, M_bind. by rewrite getorder_large.
Qed.

Lemma kfree_ok fuel s G L R a :
  (2 ≤ fuel)%nat → live s G L R → is_Some (L !! a) → frees (np := np) (held := held) (slab := slab) (kfree fuel a) a s G L R.
Proof.
  intros Hf Hl [c Ha]. destruct fuel as [|[|fuel]]; try lia. destruct (free_ok fuel c s G L R a Hl Ha) as (Hfr & q & Eq & Hq).
  unfold Slab.kfree, frees. rewrite (bind_Ret _ _ _ _ _ (Eq _ s)). unfold GET_PAGE_CACHE. rewrite bind_gets, Hq. exact Hfr.
Qed.

(** ** Sequences of requests *)
Inductive kop : Type := KMalloc (n : Z) | KFree (i : nat).
Definition kop_ok (o : kop) : Prop := match o with KMalloc n => 0 < n ≤ KMALLOC_MAX | KFree _ => True end.

(** The client keeps the objects it got, with the sizes asked for. *)
Definition run_kop (o : kop) (hand : list (Z * Z)) : M (kmem A) (list (Z * Z)) :=
  match o with
  | KMalloc n => p ← kmalloc 3 n; mret (if bool_decide (p = 0) then hand else (p, n) :: hand)
  | KFree i => match hand !! i with Some (p, _) => kfree 2 p;; mret (delete i hand) | None => mret hand end
  end.
Fixpoint run_kops (os : list kop) (hand : list (Z * Z)) : M (kmem A) (list (Z * Z)) :=
  match os with [] => mret hand | o :: os => hand ← run_kop o hand; run_kops os hand end.

Record serves L (hand : list (Z * Z)) : Prop := {
  sv_nodup : NoDup hand.*1;
  sv_dom : ∀ a, is_Some (L !! a) ↔ a ∈ hand.*1;
  sv_size : ∀ a n, (a, n) ∈ hand → ∃ c, L !! a = Some c ∧ 0 < n ≤ 2 ^ (c + 5) }.

Lemma run_kop_ok o hand s G L R :
  kop_ok o → live s G L R → std (slab_cache s) → serves L hand →
  ∃ hand' s' G' L', run_kop o hand s = Ret (hand', s') ∧ slab_cache s' = slab_cache s ∧ intr_on s' = intr_on s ∧
    live s' G' L' R ∧ serves L' hand'.
Proof.
  intros Ho Hl HC [N1 N2 N3]. destruct o as [n|i]; simpl.
  - simpl in Ho. destruct (kmalloc_ok 3 n s G L R ltac:(lia) Hl HC Ho) as (r & s' & G' & L' & c & E & Hc & Hi & Hl' & Hle & Hr).
    rewrite (bind_Ret _ _ _ _ _ E). eexists _, s', G', L'. split; [reflexivity|]. split_and!; try done.
    destruct Hr as [[-> ->]|(Hr & Hn & ->)]; [by rewrite bool_decide_true|]. rewrite bool_decide_false by done. split.
    + csimpl. apply NoDup_cons. split; [|done]. rewrite <-N2, Hn. by intros [? ?].
    + intros a. csimpl. rewrite elem_of_cons, <-N2. destruct (decide (a = r)) as [->|Hne].
      * rewrite lookup_insert_eq. split; [by left|by eexists].
      * rewrite lookup_insert_ne by done. naive_solver.
    + intros a m [[= -> ->]|Hin]%elem_of_cons; [exists c; rewrite lookup_insert_eq; split; [done|lia]|].
      destruct (N3 a m Hin) as (ca & Ha & Hm). exists ca. rewrite lookup_insert_ne by congruence. done.
  - destruct (hand !! i) as [[p n]|] eqn:Ei; [|by eexists hand, s, G, L].
    assert (Hin : (p, n) ∈ hand) by by eapply list_elem_of_lookup_2.
    destruct (kfree_ok 2 s G L R p ltac:(lia) Hl) as (s' & G' & E & Hc & Hi & Hl').
    { destruct (N3 p n Hin) as (c & ? & _). by eexists. }
    rewrite (bind_Ret _ _ _ _ _ E). eexists _, s', G', _. split; [reflexivity|]. split_and!; [done|done|exact Hl'|].
    apply list_elem_of_split_length in Ei as Hsp. destruct Hsp as (l1 & l2 & -> & Hlen). subst i.
    rewrite delete_middle. rewrite fmap_app, fmap_cons in N1, N2. simpl in N1, N2.
    apply NoDup_app in N1 as (A1 & A2 & [A3 A4]%NoDup_cons).
    assert (Hp : p ∉ l1.*1 ++ l2.*1).
    { rewrite elem_of_app. intros [H|H]; [|done]. apply (A2 p H). by left. }
    split; rewrite ?fmap_app.
    + apply NoDup_app. split_and!; [done| |done]. intros a Ha Hb. apply (A2 a Ha). by right.
    + intros a. destruct (decide (a = p)) as [->|Hne].
      * rewrite lookup_delete_eq. split; [by intros [? ?]|done].
      * rewrite lookup_delete_ne, N2 by done. set_solver +Hne.
    + intros a m Ham. assert (a ≠ p).
      { intros ->. apply Hp. rewrite <-fmap_app. apply (list_elem_of_fmap_2 fst) in Ham. exact Ham. }
      rewrite lookup_delete_ne by done. apply N3. set_solver +Ham.
Qed.

Lemma run_kops_ok os hand s G L R :
  Forall kop_ok os → live s G L R → std (slab_cache s) → serves L hand →
  ∃ hand' s' G' L', run_kops os hand s = Ret (hand', s') ∧ slab_cache s' = slab_cache s ∧ intr_on s' = intr_on s ∧
    live s' G' L' R ∧ serves L' hand'.
Proof.
  revert hand s G L. induction os as [|o os IH]; intros hand s G L Hos Hl HC Hs; simpl.
  - by exists hand, s, G, L.
  - apply Forall_cons in Hos as [Ho Hos].
    destruct (run_kop_ok o hand s G L R Ho Hl HC Hs) as (h1 & s1 & G1 & L1 & E1 & Hc1 & Hi1 & Hl1 & Hs1).
    rewrite (bind_Ret _ _ _ _ _ E1). rewrite <-Hc1 in HC.
    destruct (IH h1 s1 G1 L1 Hos Hl1 HC Hs1) as (h2 & s2 & G2 & L2 & E2 & Hc2 & Hi2 & Hl2 & Hs2).
    exists h2, s2, G2, L2. split_and!; try done; congruence.
Qed.

(** ** What the clients may rely on *)
Definition apart (a n b m : Z) : Prop := a + n ≤ b ∨ b + m ≤ a.

Lemma object_use s G L R a c d :
  live s G L R → std (slab_cache s) → L !! a = Some c → 0 ≤ d < 2 ^ (c + 5) →
  ∃ p k, in_use (slab_cache s) G (UObj p k) (a + d) ∧ taken (slab_cache s) G p k a ∧ G !! a = None ∧ a mod 16 = 0.
Proof.
  intros [Hi Ho _] HC Ha Hd. apply Ho in Ha as (Hn & p & k & g & Ht & Hg & <-). exists p, k.
  pose proof Ht as (g1 & x & Hg1 & Hx & Hk & _ & ->). rewrite Hg in Hg1. injection Hg1 as <-.
  destruct (std_size _ _ _ HC Hx) as [Hsz Hof]. destruct (std_lookup _ _ _ HC Hx) as [Hc _]. split_and!; try done.
  - eapply taken_use; try done. lia.
  - unfold obj, base, KERNBASE, PGSIZE. rewrite Hsz. replace (g_cache g + 5) with (4 + (g_cache g + 1)) by lia.
    rewrite Z.pow_add_r by lia. replace (0xC0000000 + g_page g * 4096 + offset x + k * (2 ^ 4 * 2 ^ (g_cache g + 1)))
      with (offset x + (201326592 + g_page g * 256 + k * 2 ^ (g_cache g + 1)) * 16) by lia. by rewrite Z.mod_add.
Qed.

Lemma uses_apart s G R u v a n b m :
  kmem_inv (np := np) (held := held) (slab := slab) s G R → u ≠ v → 0 < n → 0 < m →
  (∀ d, 0 ≤ d < n → in_use (slab_cache s) G u (a + d)) → (∀ d, 0 ≤ d < m → in_use (slab_cache s) G v (b + d)) →
  apart a n b m.
Proof.
  intros Hi Hne Hn Hm Hu Hv. unfold apart. destruct (decide (a + n ≤ b)), (decide (b + m ≤ a)); try lia.
  exfalso. apply Hne. eapply (in_use_inj s G R u v (Z.max a b) Hi).
  - replace (Z.max a b) with (a + (Z.max a b - a)) by lia. apply Hu. lia.
  - replace (Z.max a b) with (b + (Z.max a b - b)) by lia. apply Hv. lia.
Qed.

(** Slabs without objects of clients are gone. *)
Lemma busy_taken s G R p g :
  kmem_inv (np := np) (held := held) (slab := slab) s G R → busy (slab_cache s) G → G !! p = Some g →
  ∃ k a, taken (slab_cache s) G p k a.
Proof.
  intros Hi Hb Hg. destruct (ki_slab _ _ _ Hi _ _ Hg) as (x & Hx & [_ S2 S3 _ _ _]). specialize (Hb p g x Hg Hx).
  destruct (decide (Forall (.∈ g_free g) (seqZ 0 (num x)))) as [Hall|Hnot].
  - exfalso. assert (Hsub : seqZ 0 (num x) ⊆+ g_free g) by (apply NoDup_submseteq; [apply NoDup_seqZ|]; by apply Forall_forall).
    apply submseteq_length in Hsub. rewrite length_seqZ in Hsub. lia.
  - apply not_Forall_Exists in Hnot; [|apply _]. apply Exists_exists in Hnot as (k & Hk%elem_of_seqZ & Hn).
    exists k, (obj x g k), g, x. split_and!; try done; lia.
Qed.

Lemma no_leak s G R : live s G ∅ R → G = ∅.
Proof.
  intros [Hi Ho Hb].
  assert (Hoff : ∀ p g, G !! p = Some g → ∃ q gq x, G !! q = Some gq ∧ slab_cache s !! g_cache gq = Some x ∧
     off_slab x = true ∧ slab_cachep x = Some (g_cache g)).
  { intros p g Hg. destruct (busy_taken s G R p g Hi Hb Hg) as (k & a & Ht).
    destruct (G !! a) as [ga|] eqn:Ea.
    2: { assert (Hc : (∅ : gmap Z Z) !! a = Some (g_cache g)) by (apply Ho; split; [done|]; by exists p, k, g). done. }
    destruct (ki_slab _ _ _ Hi _ _ Ea) as (x & Hx & [_ _ _ _ _ S6]). pose proof (ki_geo _ _ _ Hi _ _ Hx) as Hco.
    assert (Eo : off_slab x = true).
    { apply not_false_iff_true. intros Eo. rewrite Eo in S6. assert (UObj p k = UCtl a); [|done].
      eapply (in_use_inj s G R _ _ a Hi); [by eapply taken_in_use|]. exists ga, x.
      pose proof (co_on _ _ _ Hco Eo). pose proof (co_num _ _ _ Hco). unfold sizeof_slab_t, sizeof_kmem_bufctl_t in *.
      split_and!; try done; lia. }
    rewrite Eo in S6. destruct S6 as (p' & k' & g' & Ht' & Hg' & Hc). exists a, ga, x. split_and!; try done.
    assert (UObj p' k' = UObj p k) as [= -> ->] by (eapply (in_use_inj s G R _ _ a Hi); by eapply taken_in_use).
    rewrite Hg in Hg'. by injection Hg' as <-. }
  apply map_eq. intros p. rewrite lookup_empty. destruct (G !! p) as [g|] eqn:Hg; [|done]. exfalso.
  destruct (Hoff p g Hg) as (q & gq & x & Hq & Hx & Eo & _). destruct (Hoff q gq Hq) as (r & gr & y & Hr & Hy & Ey & Hcy).
  destruct (co_off _ _ _ (ki_geo _ _ _ Hi _ _ Hy) Ey) as (c & z & Hc & Hz & Ez & _). congruence.
Qed.

(** The memory a state with the slabs [G] has given to its clients. *)
Record served s G R (hand : list (Z * Z)) : Prop := {
  se_apart : ∀ i j a n b m, i ≠ j → hand !! i = Some (a, n) → hand !! j = Some (b, m) → apart a n b m;
  se_place : ∀ a n, (a, n) ∈ hand → a mod 16 = 0 ∧ KERNBASE ≤ a ∧ a + n ≤ KERNBASE + np * PGSIZE;
  se_pages : ∀ a n d q, (a, n) ∈ hand → 0 ≤ d < n → kva2page np (a + d) () = Ret (q, ()) → q ∉ hand_pages R;
  se_control : ∀ a n p g x, (a, n) ∈ hand → G !! p = Some g → slab_cache s !! g_cache g = Some x →
    apart a n p (sizeof_slab_t + sizeof_kmem_bufctl_t * num x);
  se_leak : hand = [] → held (spages s) R }.

Lemma live_served s G L R hand : live s G L R → std (slab_cache s) → serves L hand → served s G R hand.
Proof.
  intros Hl HC [N1 N2 N3]. pose proof Hl as [Hi Ho Hb].
  assert (Huse : ∀ a n, (a, n) ∈ hand → 0 < n ∧ ∃ p k, taken (slab_cache s) G p k a ∧ G !! a = None ∧ a mod 16 = 0 ∧
     ∀ d, 0 ≤ d < n → in_use (slab_cache s) G (UObj p k) (a + d)).
  { intros a n Hin. destruct (N3 a n Hin) as (c & Ha & Hn). split; [lia|].
    destruct (object_use s G L R a c 0 Hl HC Ha ltac:(lia)) as (p & k & _ & Ht & HG & Hm). exists p, k. split_and!; try done.
    intros d Hd. destruct (object_use s G L R a c d Hl HC Ha ltac:(lia)) as (p1 & k1 & Hu & Ht1 & _).
    assert (UObj p1 k1 = UObj p k) as [= -> ->]; [|done].
    eapply in_use_inj; [exact Hi|by eapply taken_in_use|by eapply taken_in_use]. }
  split.
  - intros i j a n b m Hij Ei Ej. destruct (Huse a n) as (Hn & p & k & Ht & _ & _ & Hu); [by eapply list_elem_of_lookup_2|].
    destruct (Huse b m) as (Hm & p' & k' & Ht' & _ & _ & Hu'); [by eapply list_elem_of_lookup_2|].
    eapply uses_apart; [exact Hi| |done..]. intros [= <- <-]. apply Hij.
    assert (a = b) as <- by (eapply (ctl_use_inj _ _ a b (UObj p k)); done).
    eapply (NoDup_lookup hand.*1); [done|..]; by rewrite list_lookup_fmap, ?Ei, ?Ej.
  - intros a n Hin. destruct (Huse a n Hin) as (Hn & p & k & Ht & _ & Hm & Hu). split; [done|].
    destruct (in_use_place _ _ _ _ _ Hi (Hu 0 ltac:(lia))) as (g & x & Hg & Hx & Hd0 & _). simpl in Hg.
    destruct (in_use_place _ _ _ _ _ Hi (Hu (n - 1) ltac:(lia))) as (g1 & x1 & Hg1 & Hx1 & Hd1 & _). simpl in Hg1.
    rewrite Hg in Hg1. injection Hg1 as <-. rewrite Hx in Hx1. injection Hx1 as <-.
    destruct (page_bounds _ _ _ _ _ _ Hi Hg Hx) as (P0 & P1 & P2). unfold base, slab_bytes, PGSIZE in *. split; nia.
  - intros a n d q Hin Hd Eq Hq. destruct (Huse a n Hin) as (_ & p & k & _ & _ & _ & Hu).
    destruct (in_use_page _ _ _ _ _ Hi (Hu d Hd)) as (q' & Eq' & Hq' & _). rewrite Eq' in Eq. injection Eq as ->.
    pose proof (pa_nodup (held := held) _ _ (ki_held _ _ _ Hi)) as Hnd. rewrite hand_pages_app in Hnd.
    apply NoDup_app in Hnd as (_ & Hd' & _). by apply (Hd' q).
  - intros a n p g x Hin Hg Hx. destruct (Huse a n Hin) as (Hn & q & k & Ht & HG & _ & Hu).
    pose proof (co_num _ _ _ (ki_geo _ _ _ Hi _ _ Hx)) as Hnum.
    destruct (ctl_block s G R p g x Hi Hg Hx) as (u & Hcu & Hcu').
    eapply uses_apart; [exact Hi| |done|unfold sizeof_slab_t, sizeof_kmem_bufctl_t; lia|done|exact Hcu'].
    intros <-. simpl in Hcu. assert (p = a) as -> by (eapply (ctl_use_inj _ _ p a (UObj q k)); done). congruence.
  - intros ->. assert (L = ∅) as ->.
    { apply map_eq. intros a. rewrite lookup_empty. apply eq_None_not_Some. rewrite N2. apply not_elem_of_nil. }
    rewrite (no_leak s G R Hl) in Hi. exact (ki_held _ _ _ Hi).
Qed.

(** ** Boot *)
(** The static data of slab.c, and the pages handed out before. *)
Record slab_static s R : Prop := {
  ss_caches : caches_upto 0 (slab_cache s);
  ss_heads : heads_in_memory (slinks s);
  ss_held : held (spages s) R;
  ss_np : np ≤ KMEMSIZE / PGSIZE }.

Lemma slab_init_ok s R : slab_static s R →
  ∃ s', slab_init s = Ret ((), s') ∧ spages s' = spages s ∧ intr_on s' = intr_on s ∧ std (slab_cache s') ∧ live s' ∅ ∅ R.
Proof using HS.
  intros [H1 H2 H3 H4]. destruct (slab_init_loop_ok 13 0 s ∅) as (C & h & F & E & HC & HF); [done|done|done| |done|].
  { split; [apply dlists_empty|..].
    - intros hd. rewrite lookup_empty. split; [by intros [? ?]|]. intros (c & Hc & _). lia.
    - done. }
  eexists. split; [exact E|]. split_and!; [done|done|done|]. split.
  - split; simpl; [by apply std_geometry| |done|done|].
    + unfold ranges. by rewrite map_to_list_empty.
    + exists F. split; [apply HF|..].
      * intros hd. rewrite (hu_heads _ _ _ HF). split; intros (c & Hc & Hhd); exists c; (split; [|done]).
        -- assert (Hx : ∃ x, std_caches !! Z.to_nat c = Some x) by (apply lookup_lt_is_Some_2; simpl; lia).
           destruct Hx as [x Hx]. exists x. by apply std_get.
        -- destruct Hc as [x Hx]. by apply (std_lookup C c x).
      * intros hd l e Hl. rewrite (hu_empty _ _ _ HF _ _ Hl). split; [by intros ?%elem_of_nil|]. by intros (p & g & _ & ? & _).
  - intros a c. split; [done|]. intros (_ & p & k & g & _ & ? & _). done.
  - intros p g x ?. done.
Qed.

Lemma serves_nil : serves ∅ [].
Proof. split; [constructor| |]. - intros a. split; [by intros [? ?]|by intros ?%elem_of_nil]. - by intros a n ?%elem_of_nil. Qed.

(** ** The slab allocator implements the interfaces of the allocators *)
(** [O]: the objects in use; [R]: the pages handed out past the slabs. *)
Definition slab_mem s (O : gset Z) R : Prop := std (slab_cache s) ∧ ∃ G L, live s G L R ∧ O = dom L.

#[export] Instance slab_kernel_alloc :
  KernelAlloc (kmalloc 3) (kfree 2) (λ n, on_spages (alloc_pages n)) (λ i n, on_spages (free_pages i n)) np slab_mem.
Proof using HS.
  split.
  - intros O. split.
    + intros s R n (HC & G & L & Hl & ->) Hn. destruct (live_alloc s G L R n Hl Hn) as (r & a & E & Hl').
      exists r, (over spages_lens a s). split; [by apply (zoom_Ret spages_lens)|]. split; [done|]. by exists G, L.
    + intros s R i n (HC & G & L & Hl & ->). destruct (live_free s G L R i n Hl) as (a & E & Hl').
      exists (over spages_lens a s). split; [by apply (zoom_Ret spages_lens)|]. split; [done|]. by exists G, L.
    + intros s R (HC & G & L & Hl & _). pose proof (pa_nodup (held := held) _ _ (ki_held _ _ _ (lv_inv _ _ _ _ Hl))) as Hnd.
      rewrite hand_pages_app in Hnd. by apply NoDup_app in Hnd as (_ & _ & ?).
    + intros s R i n (HC & G & L & Hl & _) Hin. apply (pa_range (held := held) _ _ i n (ki_held _ _ _ (lv_inv _ _ _ _ Hl))).
      apply elem_of_app. by right.
  - intros R. split.
    + intros s O n (HC & G & L & Hl & ->) Hn.
      destruct (kmalloc_ok 3 n s G L R ltac:(lia) Hl HC Hn) as (r & s' & G' & L' & c & E & Hc & _ & Hl' & _ & Hr).
      exists r, s'. split; [done|]. rewrite <-Hc in HC. destruct Hr as [[-> ->]|(H0 & HL & ->)].
      * left. split; [done|]. split; [done|]. by exists G', L.
      * right. split_and!; [done|by apply not_elem_of_dom|]. split; [done|]. exists G', (<[r := c]> L). split; [done|].
        by rewrite dom_insert_L.
    + intros s O p (HC & G & L & Hl & ->) Hp. apply elem_of_dom in Hp.
      destruct (kfree_ok 2 s G L R p ltac:(lia) Hl Hp) as (s' & G' & E & Hc & _ & Hl').
      exists s'. split; [done|]. rewrite <-Hc in HC. split; [done|]. exists G', (delete p L). split; [done|].
      by rewrite dom_delete_L.
Qed.
End Main.
