(* ===== verification/SlabThms.v ===== *)
(** * The slab allocator: properties of slab.c, over the buddy allocator *)
From stdpp Require Import base gmap list fin_maps.
From Stdlib Require Import ZArith Lia.
From S2P Require Import Prelude DList Bits Printfmt Mmu Buddy BuddyInv BuddyProps BuddyInit BuddySpec Alloc.
From S2P Require Import Proc ProcPid ProcProps ProcSpec ProcMain ProcThms.
From S2P Require Import PmmRefs SlabPages Slab SlabInv SlabProps SlabMain.

(** ** The static data of slab.c before slab_init, over booted pages *)
Definition static_kmem {A} (a : A) : kmem A :=
  MkKmem A (list_to_map ((λ c, (c, zero_cache)) <$> seqZ 0 13)) ∅ ∅
    (list_to_map ((λ c, (SlabsFull c, ListEntry (SlabsFull c) (SlabsFull c))) <$> seqZ 0 13) ∪
     list_to_map ((λ c, (SlabsNotfull c, ListEntry (SlabsFull c) (SlabsFull c))) <$> seqZ 0 13)) ∅ ∅ true a.

Lemma static_caches {A} (a : A) : caches_upto 0 (slab_cache (static_kmem a)).
Proof.
  intros c. rewrite decide_False by lia. unfold static_kmem. cbn [slab_cache]. destruct (decide (0 ≤ c < 13)) as [Hc|Hc].
  - pattern c. revert c Hc. by apply cases13.
  - apply not_elem_of_list_to_map. rewrite <-list_fmap_compose. intros (c' & -> & Hc'%elem_of_seqZ)%list_elem_of_fmap. simpl in Hc. lia.
Qed.
Lemma static_heads {A} (a : A) : heads_in_memory (slinks (static_kmem a)).
Proof.
  intros c Hc. pattern c. revert c Hc. by apply cases13; vm_compute; split; eexists.
Qed.

Definition ex_slab : kmem pmm := static_kmem ex_pmm.
Lemma ex_slab_static : slab_static (np := 70) (held := buddy_held 70) ex_slab [].
Proof.
  split; [apply static_caches|apply static_heads| |vm_compute; discriminate].
  change (buddy_held 70 ex_pmm []). replace 70 with (npage ex_pmm) by (vm_compute; reflexivity). apply ex_pmm_held.
Qed.

(** ** Properties *)
Section Properties.
Context {A : Type} {alloc_pages : Z → M A (option Z)} {free_pages : Z → Z → M A unit}.
Context {PageSlab : Z → M A bool} {SetPageSlab ClearPageSlab : Z → M A unit} {np : Z}.
Context {held : A → list (Z * Z) → Prop} {slab : A → Z → bool}.
Context `{HS : !SlabPages alloc_pages free_pages PageSlab SetPageSlab ClearPageSlab np held slab}.
Implicit Types s : kmem A.
Abbreviation slab_static := (SlabMain.slab_static (np := np) (held := held)).
Abbreviation live := (SlabProps.live (np := np) (held := held) (slab := slab)).
Abbreviation run_kops := (SlabMain.run_kops (alloc_pages := alloc_pages) (free_pages := free_pages) (PageSlab := PageSlab)
  (SetPageSlab := SetPageSlab) (ClearPageSlab := ClearPageSlab) (np := np)).
Abbreviation kmalloc := (Slab.kmalloc (A := A) alloc_pages free_pages np SetPageSlab).
Abbreviation served := (SlabMain.served (np := np) (held := held)).

(** slab_init returns without a failed assertion and leaves thirteen caches
    for objects of 32 bytes to 128 KB, in each of which the control area and at
    least one object fit into the slab, with the control area in the slab or in
    an object of a cache that has its own inside; no slab exists yet. *)
Theorem slab_init_correct s R :
  slab_static s R →
  ∃ s', slab_init s = Ret ((), s') ∧ spages s' = spages s ∧ geometry (slab_cache s') ∧
    (∀ c, is_Some (slab_cache s' !! c) ↔ 0 ≤ c < 13) ∧
    (∀ c x, slab_cache s' !! c = Some x → objsize x = 2 ^ (c + 5)) ∧
    live s' ∅ ∅ R.
Proof using HS.
  intros Hs. destruct (slab_init_ok s R Hs) as (s' & E & Ha & _ & HC & Hl). exists s'.
  split_and!; try done; [by apply std_geometry| |].
  - intros c. split; [intros [x Hx]; by apply (std_lookup _ c x HC)|]. intros Hc. rewrite HC, decide_True by done.
    apply lookup_lt_is_Some_2. simpl. lia.
  - intros c x Hx. by apply (std_size _ c x HC).
Qed.

(** C3. After slab_init every sequence of kmalloc calls (for 1 byte to 128 KB)
    and kfree calls (of objects handed out) returns without a panic or a bad
    access, with interrupts as they were.  The objects a client holds are 16-byte
    aligned, disjoint from each other, from the control areas of all slabs and
    from the pages others got from the page allocator; when every object has
    been freed, every page is back in the page allocator.  After any such
    sequence kmalloc refuses a request of up to 256 bytes only when the page
    allocator has no page, and stops the kernel on a request of more than
    128 KB. *)
Theorem slab_clients_correct s R os :
  slab_static s R → Forall kop_ok os →
  ∃ hand s' G, (slab_init;; run_kops os []) s = Ret (hand, s') ∧
    intr_on s' = intr_on s ∧ served s' G R hand ∧
    (∃ L, live s' G L R ∧ ∀ a, is_Some (L !! a) ↔ a ∈ hand.*1) ∧
    (∀ n s1, 0 < n ≤ 256 → kmalloc 3 n s' = Ret (0, s1) → alloc_pages 1 (spages s') = Ret (None, spages s1)) ∧
    (∀ n, KMALLOC_MAX < n → kmalloc 3 n s' = Panic).
Proof using HS.
  intros Hs Hos. destruct (slab_init_ok s R Hs) as (s1 & E1 & _ & Hi1 & HC & Hl).
  rewrite (bind_Ret _ _ _ _ _ E1).
  destruct (run_kops_ok os [] s1 ∅ ∅ R Hos Hl HC serves_nil) as (hand & s' & G & L & E & Hc & Hi & Hl' & Hsv).
  exists hand, s', G. split_and!; [exact E|congruence|eapply live_served; [exact Hl'|by rewrite Hc|exact Hsv]|..].
  - exists L. split; [done|apply Hsv].
  - intros n s2. apply (kmalloc_null n s' s2 G L R Hl'). by rewrite Hc.
  - intros n. apply kmalloc_large.
Qed.

End Properties.

Lemma slab_init_correct_witness :
  ∃ s', slab_init ex_slab = Ret ((), s') ∧ spages s' = ex_pmm ∧ geometry (slab_cache s') ∧
    (∀ c, is_Some (slab_cache s' !! c) ↔ 0 ≤ c < 13) ∧
    (∀ c x, slab_cache s' !! c = Some x → objsize x = 2 ^ (c + 5)) ∧
    live (np := 70) (held := buddy_held 70) (slab := slab_flag) s' ∅ ∅ [].
Proof. exact (slab_init_correct ex_slab [] ex_slab_static). Defined.

Definition ex_kops : list kop := [KMalloc 600; KMalloc 20; KMalloc 16; KFree 0; KMalloc 5000; KFree 2; KMalloc 40].
Lemma slab_clients_correct_witness :
  ∃ hand s' G, (slab_init;; run_kops (alloc_pages := buddy_alloc_pages) (free_pages := buddy_free_pages) (PageSlab := buddy_PageSlab)
      (SetPageSlab := buddy_SetPageSlab) (ClearPageSlab := buddy_ClearPageSlab) (np := 70) ex_kops []) ex_slab = Ret (hand, s') ∧
    intr_on s' = true ∧ served (np := 70) (held := buddy_held 70) s' G [] hand ∧
    (∃ L, live (np := 70) (held := buddy_held 70) (slab := slab_flag) s' G L [] ∧ ∀ a, is_Some (L !! a) ↔ a ∈ hand.*1) ∧
    kmalloc buddy_alloc_pages buddy_free_pages 70 buddy_SetPageSlab 3 200000 s' = Panic.
Proof.
  destruct (slab_clients_correct (HS := buddy_slab_pages 70) ex_slab [] ex_kops) as (hand & s' & G & E & Hi & Hs & HL & _ & Hp).
  - apply ex_slab_static.
  - repeat constructor; simpl; unfold KMALLOC_MAX; lia.
  - exists hand, s', G. split; [exact E|]. split; [exact Hi|]. split; [exact Hs|]. split; [exact HL|].
    apply Hp. unfold KMALLOC_MAX. lia.
Defined.
(** Three of the requests above are served. *)
Example ex_kops_served :
  match (slab_init;; run_kops (alloc_pages := buddy_alloc_pages) (free_pages := buddy_free_pages) (PageSlab := buddy_PageSlab)
      (SetPageSlab := buddy_SetPageSlab) (ClearPageSlab := buddy_ClearPageSlab) (np := 70) ex_kops []) ex_slab with
  | Ret (hand, _) => hand.*2 = [40; 5000; 20] | _ => False end.
Proof. vm_compute. reflexivity. Qed.
