(* ===== verification/ArmPmm.v ===== *)
(** * arch/arm/pmm.c: page tables and physical memory of the ARM port

    With arch/arm/include/mmu.h and pmm.h, and memlayout.h and memmap.c of the
    S3C2410.  A page directory has 4096 entries on four pages; a page table has
    256 entries at the start of a page.  Memory is as in [Pmm]: words by
    physical address, of which the kernel sees those from PKERNBASE on at
    KERNBASE; the translation table base register is [vm_cr3]. *)
From stdpp Require Import base gmap list fin_maps.
From Stdlib Require Import ZArith Lia.
From S2P Require Import Prelude DList Bits Printfmt Buddy Mmu Pmm.

(** ** memlayout.h and mmu.h *)
Definition PKERNBASE : Z := 0x30000000.
Definition KERNBASE : Z := 0x30000000.
Definition KMEMSIZE : Z := 0x08000000.
Definition VPT : Z := 0xFAC00000.
Definition USERTOP : Z := 0x20000000.
Definition USERBASE : Z := 0x00200000.
Definition USER_ACCESS (start end_ : Z) : bool :=
  bool_decide (USERBASE ≤ start) && bool_decide (start < end_) && bool_decide (end_ ≤ USERTOP).
Definition PGDIRSIZE : Z := 4 * Arm.NPDEENTRY.
Definition PDE_COARSE : Z := 1.
Definition PDE_P : Z := Z.shiftl 1 4.
Definition PTE_P : Z := Z.shiftl 1 1.
Definition PTE_U : Z := Z.lor (Z.lor (Z.lor (Z.shiftl 1 5) (Z.shiftl 1 7)) (Z.shiftl 1 9)) (Z.shiftl 1 11).
Definition PTE_W : Z := Z.lor (Z.lor (Z.lor (Z.shiftl 1 4) (Z.shiftl 1 6)) (Z.shiftl 1 8)) (Z.shiftl 1 10).
Definition PTE_USER : Z := Z.lor (Z.lor PTE_U PTE_W) PTE_P.

(** ** pmm.h *)
Section Conversions.
Context {S : Type} (npage : Z).
Definition PADDR (kva : Z) : M S Z :=
  if bool_decide (kva < KERNBASE) then panic else mret (u32 (kva - KERNBASE + PKERNBASE)).
Definition KADDR (pa : Z) : M S Z :=
  let m_pa := u32 (pa - PKERNBASE) in
  if bool_decide (Arm.PPN m_pa >= npage) then panic else mret (u32 (m_pa + KERNBASE)).
Definition page2pa (page : Z) : Z := u32 (Z.shiftl page PGSHIFT).
Definition pa2page (pa : Z) : M S Z :=
  if bool_decide (Arm.PPN pa >= npage) then panic else mret (Arm.PPN pa).
Definition page2kva (page : Z) : M S Z := KADDR (page2pa page).
Definition kva2page (kva : Z) : M S Z := pa ← PADDR kva; pa2page pa.
Definition pte2page (pte : Z) : M S Z :=
  if bool_decide (Z.land pte PTE_P = 0) then panic else pa2page (Arm.PTE_ADDR pte).
Definition pde2page (pde : Z) : M S Z := pa2page (Arm.PDE_ADDR pde).
End Conversions.

Section Model.
Context {A : Type}.
Context (alloc_pages : Z → M A (option Z)) (free_pages : Z → Z → M A unit) (npage : Z).
Context (get_ref : Z → M A Z) (set_ref : Z → Z → M A unit).
Abbreviation V := (vmem A).
Abbreviation alloc_page' := (alloc_page alloc_pages).
Abbreviation free_page' := (free_page free_pages).

(** Words of kernel memory. *)
Definition kva_ok (kva : Z) : bool :=
  bool_decide (KERNBASE ≤ kva) && bool_decide (kva - KERNBASE + PKERNBASE < npage * PGSIZE).
Definition kva_word (kva : Z) : Z := (kva - KERNBASE + PKERNBASE) / 4.
Definition load (kva : Z) : M V Z := λ s,
  if kva_ok kva then Ret (word (words s) (kva_word kva), s) else Fault.
Definition store (kva v : Z) : M V unit := λ s,
  if kva_ok kva then Ret ((), set_words (<[kva_word kva := v]> (words s)) s) else Fault.
(** memset(kva, 0, n) *)
Definition memset_words (kva n : Z) : M V unit := λ s,
  if kva_ok kva then Ret ((), set_words (clear_words (Z.to_nat (n / 4)) (kva_word kva) (words s)) s) else Fault.
(** memcpy(dst, src, PGSIZE) *)
Definition memcpy_page (dst src : Z) : M V unit := λ s,
  if kva_ok dst && kva_ok src
  then Ret ((), set_words (copy_words 1024 (kva_word dst) (kva_word src) (words s)) s) else Fault.

(** ** get_pte; 0 is NULL *)
Definition get_pte (pgdir la : Z) (create : bool) : M V Z :=
  let pdep := pgdir + 4 * Arm.PDX la in
  pde ← load pdep;
  ok ← (if bool_decide (Z.land pde PDE_P = 0) then
          if create then
            page ← alloc_page';
            match page with
            | None => mret false
            | Some pg =>
              zoom palloc_lens (set_ref pg 1);;
              let pa := page2pa pg in
              kva ← KADDR npage pa;
              memset_words kva PGSIZE;;
              store pdep (Z.lor (Z.lor pa PDE_COARSE) PDE_P);;
              mret true
            end
          else mret false
        else mret true);
  if (ok : bool) then
    pde ← load pdep;
    kva ← KADDR npage (Arm.PDE_ADDR pde);
    mret (kva + 4 * Arm.PTX la)
  else mret 0.

(** get_page with the stored pte pointer. *)
Definition get_page (pgdir la : Z) : M V (option Z * Z) :=
  ptep ← get_pte pgdir la false;
  if bool_decide (ptep ≠ 0) then
    pte ← load ptep;
    if bool_decide (Z.land pte PTE_P ≠ 0) then p ← pa2page npage pte; mret (Some p, ptep)
    else mret (None, ptep)
  else mret (None, ptep).

(** The whole TLB is flushed. *)
Definition tlb_invalidate (pgdir la : Z) : M V unit := modify (set_tlb ∅).

Definition page_remove_pte (pgdir la ptep : Z) : M V unit :=
  pte ← load ptep;
  if bool_decide (Z.land pte PTE_P ≠ 0) then
    page ← pte2page npage pte;
    r ← page_ref_dec get_ref set_ref page;
    (if bool_decide (r = 0) then free_page' page else skip);;
    store ptep 0;;
    tlb_invalidate pgdir la
  else skip.

Definition page_remove (pgdir la : Z) : M V unit :=
  ptep ← get_pte pgdir la false;
  if bool_decide (ptep ≠ 0) then page_remove_pte pgdir la ptep else skip.

Definition page_insert (pgdir page la perm : Z) : M V Z :=
  ptep ← get_pte pgdir la true;
  if bool_decide (ptep = 0) then mret (- E_NO_MEM)
  else
    page_ref_inc get_ref set_ref page;;
    pte ← load ptep;
    (if bool_decide (Z.land pte PTE_P ≠ 0) then
       p ← pte2page npage pte;
       if bool_decide (p = page) then page_ref_dec get_ref set_ref page;; skip
       else page_remove_pte pgdir la ptep
     else skip);;
    store ptep (Z.lor (Z.lor (page2pa page) PTE_P) perm);;
    tlb_invalidate pgdir la;;
    mret 0.

(** None is NULL. *)
Definition pgdir_alloc_page (pgdir la perm : Z) : M V (option Z) :=
  page ← alloc_page';
  match page with
  | Some p =>
    r ← page_insert pgdir p la perm;
    if bool_decide (r ≠ 0) then free_page' p;; mret None else mret (Some p)
  | None => mret None
  end.

(** do ... while (start != 0 && start < end) *)
Fixpoint unmap_loop (fuel : nat) (pgdir start end_ : Z) : M V unit :=
  match fuel with
  | O => out_of_fuel
  | S fuel =>
    ptep ← get_pte pgdir start false;
    start' ← (if bool_decide (ptep = 0) then mret (ROUNDDOWN (u32 (start + Arm.PTSIZE)) Arm.PTSIZE)
              else
                pte ← load ptep;
                (if bool_decide (pte ≠ 0) then page_remove_pte pgdir start ptep else skip);;
                mret (u32 (start + PGSIZE)));
    if bool_decide (start' ≠ 0 ∧ start' < end_) then unmap_loop fuel pgdir start' end_ else skip
  end.
Definition unmap_range (fuel : nat) (pgdir start end_ : Z) : M V unit :=
  assert (bool_decide (start mod PGSIZE = 0) && bool_decide (end_ mod PGSIZE = 0));;
  assert (USER_ACCESS start end_);;
  unmap_loop fuel pgdir start end_.

Fixpoint exit_loop (fuel : nat) (pgdir start end_ : Z) : M V unit :=
  match fuel with
  | O => out_of_fuel
  | S fuel =>
    let pdep := pgdir + 4 * Arm.PDX start in
    pde ← load pdep;
    (if bool_decide (Z.land pde PDE_P ≠ 0) then
       p ← pde2page npage pde; free_page' p;; store pdep 0
     else skip);;
    let start' := u32 (start + Arm.PTSIZE) in
    if bool_decide (start' ≠ 0 ∧ start' < end_) then exit_loop fuel pgdir start' end_ else skip
  end.
Definition exit_range (fuel : nat) (pgdir start end_ : Z) : M V unit :=
  assert (bool_decide (start mod PGSIZE = 0) && bool_decide (end_ mod PGSIZE = 0));;
  assert (USER_ACCESS start end_);;
  exit_loop fuel pgdir (ROUNDDOWN start Arm.PTSIZE) end_.

(** The copy of one entry: without [share] into a new page.  [false]: there was
    no page for the copy. *)
Definition copy_pte (to start ptep nptep : Z) (share : bool) : M V bool :=
  newpage ← alloc_page';
  pte ← load ptep; npte ← load nptep;
  assert (bool_decide (pte ≠ 0) && bool_decide (npte = 0));;
  if bool_decide (Z.land pte PTE_P ≠ 0) then
    let perm := Z.land pte PTE_USER in
    let insert page := ret ← page_insert to page start perm; assert (bool_decide (ret = 0)) in
    if negb share then
      match newpage with
      | None => mret false
      | Some page =>
        dst ← page2kva npage page; old ← pte2page npage pte; src ← page2kva npage old;
        memcpy_page dst src;; insert page;; mret true
      end
    else
      page ← pte2page npage pte;
      insert page;;
      match newpage with Some np => free_page' np | None => skip end;;
      mret true
  else panic.

Fixpoint copy_loop (fuel : nat) (to from start end_ : Z) (share : bool) : M V Z :=
  match fuel with
  | O => out_of_fuel
  | S fuel =>
    let go start' :=
      if bool_decide (start' ≠ 0 ∧ start' < end_) then copy_loop fuel to from start' end_ share else mret 0 in
    ptep ← get_pte from start false;
    if bool_decide (ptep = 0) then go (ROUNDDOWN (u32 (start + Arm.PTSIZE)) Arm.PTSIZE)
    else
      pte ← load ptep;
      if bool_decide (pte ≠ 0) then
        nptep ← get_pte to start true;
        if bool_decide (nptep = 0) then mret (- E_NO_MEM)
        else
          ok ← copy_pte to start ptep nptep share;
          if (ok : bool) then go (u32 (start + PGSIZE)) else mret (- E_NO_MEM)
      else go (u32 (start + PGSIZE))
  end.
Definition copy_range (fuel : nat) (to from start end_ : Z) (share : bool) : M V Z :=
  assert (bool_decide (start mod PGSIZE = 0) && bool_decide (end_ mod PGSIZE = 0));;
  assert (USER_ACCESS start end_);;
  copy_loop fuel to from start end_ share.

(** ** Boot *)

(** for (; size > 0; size -= PGSIZE, la += PGSIZE, pa += PGSIZE), where size is
    a size_t. *)
Fixpoint map_loop (fuel : nat) (pgdir la size pa perm : Z) : M V unit :=
  match fuel with
  | O => out_of_fuel
  | S fuel =>
    if bool_decide (size > 0) then
      ptep ← get_pte pgdir la true;
      assert (bool_decide (ptep ≠ 0));;
      store ptep (Z.lor (Z.lor pa PTE_P) perm);;
      map_loop fuel pgdir (u32 (la + PGSIZE)) (u32 (size - PGSIZE)) (u32 (pa + PGSIZE)) perm
    else skip
  end.
Definition boot_map_segment (fuel : nat) (pgdir la size pa perm : Z) : M V unit :=
  assert (bool_decide (Arm.PGOFF la = Arm.PGOFF pa));;
  map_loop fuel pgdir (ROUNDDOWN la PGSIZE) size (ROUNDDOWN pa PGSIZE) perm.

Definition boot_alloc_page : M V Z :=
  p ← zoom palloc_lens (alloc_pages (PGDIRSIZE / PGSIZE));
  match p with Some p => page2kva npage p | None => panic end.

(** enable_paging: the page directory, the domains and the MMU; the TLB is
    flushed. *)
Definition enable_paging (boot_pgdir_p : Z) : M V unit :=
  modify (λ s, MkVmem A (words s) boot_pgdir_p ∅ (palloc s)).

(** ** check_pgdir *)
Definition check_ref (p n : Z) : M V unit :=
  r ← zoom palloc_lens (get_ref p); assert (bool_decide (r = n)).
Definition check_alloc : M V Z :=
  p ← alloc_page'; match p with Some p => mret p | None => fault end.
Definition check_insert (pgdir p la perm : Z) : M V unit :=
  r ← page_insert pgdir p la perm; assert (bool_decide (r = 0)).
Definition check_pte (pgdir la : Z) : M V Z :=
  ptep ← get_pte pgdir la false; assert (bool_decide (ptep ≠ 0));; mret ptep.

Definition check_pgdir (boot_pgdir : Z) : M V unit :=
  assert (bool_decide (npage ≤ (PKERNBASE + KMEMSIZE) / PGSIZE));;
  assert (bool_decide (boot_pgdir ≠ 0) && bool_decide (Arm.PGOFF boot_pgdir = 0));;
  r ← get_page boot_pgdir 0; assert (bool_decide (r.1 = None));;
  p1 ← check_alloc;
  check_insert boot_pgdir p1 0 0;;
  ptep ← check_pte boot_pgdir 0;
  pte ← load ptep; q ← pa2page npage pte; assert (bool_decide (q = p1));; check_ref p1 1;;
  pde ← load boot_pgdir; kva ← KADDR npage (Arm.PDE_ADDR pde);
  let ptep := kva + 4 in
  ptep' ← get_pte boot_pgdir PGSIZE false; assert (bool_decide (ptep' = ptep));;
  p2 ← check_alloc;
  check_insert boot_pgdir p2 PGSIZE (Z.lor PTE_U PTE_W);;
  ptep ← check_pte boot_pgdir PGSIZE;
  pte ← load ptep; assert (bool_decide (Z.land pte PTE_U ≠ 0));; assert (bool_decide (Z.land pte PTE_W ≠ 0));;
  check_ref p2 1;;
  check_insert boot_pgdir p1 PGSIZE 0;; check_ref p1 2;; check_ref p2 0;;
  ptep ← check_pte boot_pgdir PGSIZE;
  pte ← load ptep; q ← pa2page npage pte; assert (bool_decide (q = p1));;
  assert (bool_decide (Z.land pte PTE_U = 0));;
  page_remove boot_pgdir 0;; check_ref p1 1;; check_ref p2 0;;
  page_remove boot_pgdir PGSIZE;; check_ref p1 0;; check_ref p2 0;;
  pde ← load boot_pgdir; q ← pa2page npage pde; check_ref q 1;;
  free_page' q;; store boot_pgdir 0.

(** The mappings pmm_init sets up; [intr_vector_start] is the address of the
    vectors, a symbol of the linker script. *)
Definition boot_mappings (fuel : nat) (boot_pgdir boot_pgdir_p intr_vector_start : Z) : M V unit :=
  boot_map_segment fuel boot_pgdir VPT PGDIRSIZE boot_pgdir_p PTE_W;;
  boot_map_segment fuel boot_pgdir KERNBASE KMEMSIZE PKERNBASE PTE_W;;
  boot_map_segment fuel boot_pgdir 0x48000000 0x10000000 0x48000000 PTE_W;;
  pa ← PADDR intr_vector_start;
  boot_map_segment fuel boot_pgdir 0 PGSIZE pa PTE_W.

(** pmm_init after check_alloc_page. *)
Definition pmm_init_paging (fuel : nat) (intr_vector_start : Z) : M V Z :=
  boot_pgdir ← boot_alloc_page;
  assert (bool_decide (Z.land boot_pgdir 0x3fff = 0));;
  memset_words boot_pgdir PGDIRSIZE;;
  boot_pgdir_p ← PADDR boot_pgdir;
  check_pgdir boot_pgdir;;
  boot_mappings fuel boot_pgdir boot_pgdir_p intr_vector_start;;
  enable_paging boot_pgdir_p;;
  mret boot_pgdir.
End Model.

(** ** page_init *)

(** fill_physical_memory_map of memmap.c *)
Definition E820_ARR : Z := 2.
Definition fill_physical_memory_map : list e820entry :=
  [MkE820 0x00000000 0x30000000 E820_ARR; MkE820 0x30000000 0x03800000 E820_ARM].

Definition max_pa (memmap : list e820entry) : Z :=
  let maxpa := foldl (λ maxpa e,
    let end_ := u64 (e_addr e + e_size e) in
    if bool_decide (e_type e = E820_ARM) && bool_decide (maxpa < end_) && bool_decide (e_addr e < PKERNBASE + KMEMSIZE)
    then end_ else maxpa) 0 memmap in
  if bool_decide (maxpa > PKERNBASE + KMEMSIZE) then PKERNBASE + KMEMSIZE else maxpa.

(** The ranges given to init_memmap: first page and number of pages. *)
Definition memmap_range (freemem : Z) (e : e820entry) : option (Z * Z) :=
  let begin := e_addr e in
  let end_ := u64 (e_addr e + e_size e) in
  if bool_decide (e_type e = E820_ARM) then
    let begin := if bool_decide (begin < freemem) then freemem else begin in
    let end_ := if bool_decide (end_ > PKERNBASE + KMEMSIZE) then PKERNBASE + KMEMSIZE else end_ in
    if bool_decide (begin < end_) then
      let begin := ROUNDUP begin PGSIZE in
      let end_ := ROUNDDOWN end_ PGSIZE in
      if bool_decide (begin < end_) then Some (Arm.PPN begin, (end_ - begin) / PGSIZE) else None
    else None
  else None.

Fixpoint init_ranges (fuel : nat) (freemem : Z) (memmap : list e820entry) : M pmm unit :=
  match memmap with
  | [] => skip
  | e :: memmap =>
    match memmap_range freemem e with
    | Some (base, n) =>
      np ← gets npage;
      if bool_decide (base >= np) then panic else buddy_init_memmap fuel base n
    | None => skip
    end;;
    init_ranges fuel freemem memmap
  end.

(** [end_]: the address after the kernel image; [raw]: what the memory of the
    page array holds.  The free memory starts at a multiple of four pages, so
    that the page directory can be aligned. *)
Definition page_init (fuel : nat) (end_ sizeof_Page : Z) (raw : Z → Page) : M pmm unit :=
  let memmap := fill_physical_memory_map in
  let np := max_pa memmap / PGSIZE in
  let pages_ := ROUNDUP end_ PGSIZE in
  modify (λ s, MkPmm (list_to_map ((λ i, (i, raw i)) <$> seqZ 0 np)) (links s) (nr_free s) (mem_base s)
                 (zone_count s) np);;
  reserve_pages (Z.to_nat np) 0;;
  freemem ← PADDR (u32 (pages_ + sizeof_Page * np));
  init_ranges fuel (ROUNDUP freemem (4 * PGSIZE)) memmap.
