(* ===== verification/ArmInv.v ===== *)
(** * The page tables of the ARM port: invariant, get_pte and the boot mappings *)
From stdpp Require Import base gmap list fin_maps.
From Stdlib Require Import ZArith Lia.
From S2P Require Import Prelude DList Bits Printfmt Mmu Buddy BuddySpec Alloc PmmRefs PmmFresh Pmm PmmInv PmmProps ArmPmm.

(** ** Addresses *)

(** The number of the first page of memory, and the address the kernel has for
    word [j] of page [p]. *)
Definition PK : Z := 0x30000.
Definition kva_at (p j : Z) : Z := p * PGSIZE + 4 * j.

Lemma arm_PPN la : Arm.PPN la = la / 4096.
Proof. unfold Arm.PPN, PGSHIFT. by rewrite Z.shiftr_div_pow2. Qed.
Lemma arm_PDX la : 0 ≤ la < 2 ^ 32 → Arm.PDX la = Arm.PPN la / 256 ∧ 0 ≤ Arm.PPN la / 256 < 4096.
Proof.
  intros Hla. unfold Arm.PDX, Arm.PDXSHIFT. rewrite arm_PPN, Z.div_div by lia. change (4096 * 256) with (2 ^ 20).
  rewrite Z.shiftr_div_pow2 by lia. change 0xFFF with (2 ^ 12 - 1). rewrite land_mask by lia.
  assert (H : 0 ≤ la / 2 ^ 20 < 4096) by (split; [apply Z.div_pos; lia|apply Z.div_lt_upper_bound; lia]).
  split; [|done]. by apply Z.mod_small.
Qed.
Lemma arm_PTX la : Arm.PTX la = Arm.PPN la mod 256.
Proof.
  unfold Arm.PTX, Arm.PTXSHIFT. rewrite arm_PPN, Z.shiftr_div_pow2 by lia. change 0xFF with (2 ^ 8 - 1). by rewrite land_mask by lia.
Qed.
Lemma mod256 v : 0 ≤ v mod 256 < 256.
Proof. apply Z.mod_pos_bound. lia. Qed.

(** Clearing the low bits of an aligned address with flags. *)
Lemma land_high e k : 0 ≤ k ≤ 32 → 0 ≤ e < 2 ^ 32 → Z.land e (u32 (Z.lnot (2 ^ k - 1))) = e - e mod 2 ^ k.
Proof.
  intros Hk He. rewrite <-land_mask by lia. unfold u32. rewrite <-Z.land_ones by lia.
  replace (2 ^ k - 1) with (Z.ones k) by (by rewrite Z.ones_equiv).
  rewrite (Z.land_comm (Z.lnot _)), Z.land_assoc, (Z.land_ones e 32), (Z.mod_small e) by lia.
  rewrite <-Z.ldiff_land. pose proof (Z.add_lor_land (Z.ldiff e (Z.ones k)) (Z.land e (Z.ones k))) as H.
  assert (H0 : Z.land (Z.ldiff e (Z.ones k)) (Z.land e (Z.ones k)) = 0).
  { apply Z.bits_inj'. intros n Hn. rewrite !Z.land_spec, Z.ldiff_spec, Z.bits_0. destruct (Z.testbit e n), (Z.testbit (Z.ones k) n); done. }
  assert (H1 : Z.lor (Z.ldiff e (Z.ones k)) (Z.land e (Z.ones k)) = e).
  { apply Z.bits_inj'. intros n Hn. rewrite Z.lor_spec, Z.land_spec, Z.ldiff_spec. destruct (Z.testbit e n), (Z.testbit (Z.ones k) n); done. }
  rewrite H0, H1 in H. lia.
Qed.

(** ** Descriptors *)

(** The entry get_pte stores for a table at page [t]. *)
Lemma pde_entry t : 0 ≤ t < 2 ^ 20 → let e := Z.lor (Z.lor (page2pa t) PDE_COARSE) PDE_P in
  Z.land e PDE_P ≠ 0 ∧ Arm.PDE_ADDR e = t * PGSIZE ∧ Z.land e 3 = 1.
Proof.
  intros Ht. cbv zeta. assert (Hp : ArmPmm.page2pa t = Z.shiftl t 12).
  { unfold page2pa, PGSHIFT. apply u32_small. rewrite Z.shiftl_mul_pow2 by lia. unfold is_u32. lia. }
  rewrite Hp, <-Z.lor_assoc. change (Z.lor PDE_COARSE PDE_P) with 17. rewrite lor_add by lia. change (2 ^ 12) with 4096. split_and!.
  - intros H0. assert (Hb : Z.testbit (Z.land (t * 4096 + 17) PDE_P) 4 = false) by (by rewrite H0).
    rewrite Z.land_spec in Hb. change PDE_P with (2 ^ 4) in Hb. rewrite Z.pow2_bits_true, andb_true_r in Hb by lia.
    rewrite Z.testbit_false in Hb by lia. change (2 ^ 4) with 16 in Hb. replace (t * 4096 + 17) with ((t * 256 + 1) * 16 + 1) in Hb by lia.
    rewrite Z.div_add_l, Z.add_0_r in Hb by lia. replace (t * 256 + 1) with (1 + t * 128 * 2) in Hb by lia. by rewrite Z.mod_add in Hb.
  - unfold Arm.PDE_ADDR. change 0x3FF with (2 ^ 10 - 1). rewrite land_high by lia. change (2 ^ 10) with 1024.
    replace (t * 4096 + 17) with (17 + (t * 4) * 1024) at 2 by lia. rewrite Z.mod_add by lia. change (17 mod 1024) with 17. unfold PGSIZE. lia.
  - change 3 with (2 ^ 2 - 1). rewrite land_mask by lia. change (2 ^ 2) with 4. replace (t * 4096 + 17) with (17 + (t * 1024) * 4) by lia.
    by rewrite Z.mod_add.
Qed.

(** The entry boot_map_segment and page_insert store. *)
Lemma pte_entry p perm : 0 ≤ p < 2 ^ 20 → 0 ≤ perm < 4096 → Z.land perm 3 = 0 →
  let e := Z.lor (Z.lor (p * PGSIZE) PTE_P) perm in Z.land e 3 = 2 ∧ Arm.PTE_ADDR e = p * PGSIZE ∧ 0 ≤ e < 2 ^ 32.
Proof.
  intros Hp Hperm Hlow. cbv zeta. assert (Hl : 0 ≤ Z.lor 2 perm < 2 ^ 12).
  { split; [apply Z.lor_nonneg; lia|]. apply Z.log2_lt_pow2; [|rewrite Z.log2_lor by lia].
    - pose proof (Z.lor_nonneg 2 perm). assert (Z.lor 2 perm ≠ 0) by (rewrite Z.lor_eq_0_iff; lia). lia.
    - apply Z.max_lub_lt; [done|]. destruct (decide (perm = 0)) as [->|]; [done|]. apply Z.log2_lt_pow2; lia. }
  rewrite <-Z.lor_assoc. change PTE_P with 2. replace (p * PGSIZE) with (Z.shiftl p 12) by (by rewrite Z.shiftl_mul_pow2 by lia).
  rewrite lor_add by lia. assert (H3 : Z.land (Z.lor 2 perm) 3 = 2) by (by rewrite Z.land_lor_distr_l, Hlow).
  change 3 with (2 ^ 2 - 1) in H3 |- *. rewrite land_mask in H3 |- * by lia. change (2 ^ 2) with 4 in *. change (2 ^ 12) with 4096 in *. split_and!.
  - replace (p * 4096) with (p * 1024 * 4) by lia. by rewrite Z.add_comm, Z.mod_add.
  - unfold Arm.PTE_ADDR. change 0xFFF with (2 ^ 12 - 1). rewrite land_high by lia. change (2 ^ 12) with 4096.
    replace ((p * 4096 + Z.lor 2 perm) mod 4096) with (Z.lor 2 perm); [rewrite Z.shiftl_mul_pow2 by lia; lia|].
    rewrite Z.add_comm, Z.mod_add by lia. symmetry. apply Z.mod_small. lia.
  - lia.
  - lia.
Qed.

Section Tables.
Context (np : Z) (Hnp : np ≤ 0x38000).

Lemma kva_at_ok p j : PK ≤ p < np → 0 ≤ j < 1024 → ArmPmm.kva_ok np (kva_at p j) = true ∧ kva_word (kva_at p j) = p * 1024 + j.
Proof using Hnp.
  unfold PK, kva_at, ArmPmm.kva_ok, kva_word, KERNBASE, PKERNBASE, PGSIZE. intros Hp Hj. split.
  - rewrite !bool_decide_true by lia. done.
  - replace (p * 4096 + 4 * j - 805306368 + 805306368) with ((p * 1024 + j) * 4) by lia. by rewrite Z.div_mul.
Qed.
Context {A : Type}.
Implicit Types s : vmem A.
Lemma arm_load p j s : PK ≤ p < np → 0 ≤ j < 1024 → ArmPmm.load np (kva_at p j) s = Ret (word (words s) (p * 1024 + j), s).
Proof using Hnp. intros Hp Hj. unfold ArmPmm.load. by destruct (kva_at_ok p j Hp Hj) as [-> ->]. Qed.
Lemma arm_store p j x s : PK ≤ p < np → 0 ≤ j < 1024 →
  ArmPmm.store np (kva_at p j) x s = Ret ((), set_words (<[p * 1024 + j := x]> (words s)) s).
Proof using Hnp. intros Hp Hj. unfold ArmPmm.store. by destruct (kva_at_ok p j Hp Hj) as [-> ->]. Qed.
Lemma arm_memset p n s : PK ≤ p < np → memset_words np (kva_at p 0) n s =
  Ret ((), set_words (clear_words (Z.to_nat (n / 4)) (p * 1024) (words s)) s).
Proof using Hnp. intros Hp. unfold memset_words. destruct (kva_at_ok p 0 Hp ltac:(lia)) as [-> ->]. by rewrite Z.add_0_r. Qed.
Lemma arm_KADDR {S} (x : S) p : PK ≤ p < np → ArmPmm.KADDR np (p * PGSIZE) x = Ret (kva_at p 0, x).
Proof using Hnp.
  unfold PK, PGSIZE. intros Hp. unfold ArmPmm.KADDR, KERNBASE, PKERNBASE. cbv zeta. rewrite (u32_small (p * 4096 - _)) by (unfold is_u32; lia).
  rewrite arm_PPN. rewrite bool_decide_false.
  - rewrite u32_small by (unfold is_u32; lia). unfold mret, M_ret, kva_at, PGSIZE. do 2 f_equal. lia.
  - pose proof (Z.div_lt_upper_bound (p * 4096 - 805306368) 4096 np). lia.
Qed.
Lemma arm_page2pa p : 0 ≤ p < 2 ^ 20 → ArmPmm.page2pa p = p * PGSIZE.
Proof. intros Hp. unfold ArmPmm.page2pa, PGSHIFT, PGSIZE. rewrite Z.shiftl_mul_pow2 by lia. apply u32_small. unfold is_u32. lia. Qed.

(** ** The tables [T] of the directory on the pages [d] to [d + 3] *)
Record dir_ok (w : gmap Z Z) (d : Z) (T : gmap Z Z) : Prop := {
  dr_dir : PK ≤ d ∧ d + 4 ≤ np;
  dr_range : ∀ i t, T !! i = Some t → 0 ≤ i < 4096 ∧ PK ≤ t < np ∧ ¬ d ≤ t < d + 4;
  dr_inj : ∀ i j t, T !! i = Some t → T !! j = Some t → i = j;
  dr_pde : ∀ i, 0 ≤ i < 4096 → let e := word w (d * 1024 + i) in
    match T !! i with
    | Some t => Z.land e PDE_P ≠ 0 ∧ Arm.PDE_ADDR e = t * PGSIZE ∧ Z.land e 3 = 1
    | None => e = 0 end }.
(** The entry of page [v]. *)
Definition entry (w : gmap Z Z) (T : gmap Z Z) (v : Z) : Z :=
  match T !! (v / 256) with Some t => word w (t * 1024 + v mod 256) | None => 0 end.

Lemma dir_word d i s : PK ≤ d ∧ d + 4 ≤ np → 0 ≤ i < 4096 →
  ArmPmm.load np (kva_at d 0 + 4 * i) s = Ret (word (words s) (d * 1024 + i), s) ∧
  ∀ x, ArmPmm.store np (kva_at d 0 + 4 * i) x s = Ret ((), set_words (<[d * 1024 + i := x]> (words s)) s).
Proof using Hnp.
  intros Hd Hi. pose proof (Z.div_mod i 1024 ltac:(lia)). pose proof (mod1024 i).
  assert (Hq : 0 ≤ i / 1024 < 4) by (split; [apply Z.div_pos; lia|apply Z.div_lt_upper_bound; lia]).
  replace (kva_at d 0 + 4 * i) with (kva_at (d + i / 1024) (i mod 1024)) by (unfold kva_at, PGSIZE; lia).
  replace (d * 1024 + i) with ((d + i / 1024) * 1024 + i mod 1024) by lia. split; [|intros x]; [apply arm_load|apply arm_store]; lia.
Qed.

(** get_pte where the table is there. *)
Context (alloc_pages : Z → M A (option Z)) (set_ref : Z → Z → M A unit).
Abbreviation get_pte' := (ArmPmm.get_pte alloc_pages np set_ref).
Lemma arm_pte_there s d T la t : dir_ok (words s) d T → 0 ≤ la < 2 ^ 32 → T !! (Arm.PPN la / 256) = Some t →
  (pde ← ArmPmm.load np (kva_at d 0 + 4 * Arm.PDX la); kva ← ArmPmm.KADDR np (Arm.PDE_ADDR pde); mret (kva + 4 * Arm.PTX la)) s =
  Ret (kva_at t (Arm.PPN la mod 256), s).
Proof using Hnp.
  intros Hd Hla Ht. destruct (arm_PDX la Hla) as [Hx Hi]. rewrite Hx.
  destruct (dir_word d _ s (dr_dir _ _ _ Hd) Hi) as [El _]. rewrite (bind_Ret _ _ _ _ _ El).
  pose proof (dr_pde _ _ _ Hd _ Hi) as He. cbv zeta in He. rewrite Ht in He. destruct He as (_ & -> & _).
  destruct (dr_range _ _ _ Hd _ _ Ht) as (_ & Htr & _). rewrite (bind_Ret _ _ _ _ _ (arm_KADDR s t Htr)).
  unfold mret, M_ret, kva_at. rewrite arm_PTX. do 2 f_equal. lia.
Qed.
Lemma arm_get_found s d T la t create : dir_ok (words s) d T → 0 ≤ la < 2 ^ 32 → T !! (Arm.PPN la / 256) = Some t →
  get_pte' (kva_at d 0) la create s = Ret (kva_at t (Arm.PPN la mod 256), s).
Proof using Hnp.
  intros Hd Hla Ht. destruct (arm_PDX la Hla) as [Hx Hi]. unfold ArmPmm.get_pte. rewrite Hx.
  destruct (dir_word d _ s (dr_dir _ _ _ Hd) Hi) as [El _]. rewrite (bind_Ret _ _ _ _ _ El).
  pose proof (dr_pde _ _ _ Hd _ Hi) as He. cbv zeta in He. rewrite Ht in He. destruct He as (Hp & _).
  rewrite bool_decide_false by done. rewrite bind_mret. rewrite <-Hx. by apply (arm_pte_there s d T).
Qed.

(** A new entry. *)
Lemma entry_update w d T v x v' t : dir_ok w d T → T !! (v / 256) = Some t →
  entry (<[t * 1024 + v mod 256 := x]> w) T v' = if decide (v' = v) then x else entry w T v'.
Proof.
  intros Hp Ht. unfold entry. pose proof (mod256 v). pose proof (mod256 v').
  destruct (decide (v' = v)) as [->|Hne]; [by rewrite Ht, word_insert_eq|].
  destruct (T !! (v' / 256)) as [t'|] eqn:Et; [|done]. apply word_insert_ne.
  intros [-> Hm]%split_addr; [|lia|lia]. pose proof (dr_inj _ _ _ Hp _ _ _ Et Ht) as Hd.
  apply Hne. rewrite (Z.div_mod v' 256), (Z.div_mod v 256) by lia. lia.
Qed.
Lemma dir_update w d T t j x : dir_ok w d T → ¬ d ≤ t < d + 4 → 0 ≤ j < 1024 → dir_ok (<[t * 1024 + j := x]> w) d T.
Proof.
  intros [H1 H2 H3 H4] Ht Hj. split; try done. intros i Hi. rewrite word_insert_ne by lia. by apply H4.
Qed.

(** A new table at page [t], cleared and entered in the directory. *)
Lemma arm_new_table w d T i t : dir_ok w d T → 0 ≤ i < 4096 → T !! i = None → PK ≤ t < np → ¬ d ≤ t < d + 4 → t ∉ frames T →
  let w' := <[d * 1024 + i := Z.lor (Z.lor (ArmPmm.page2pa t) PDE_COARSE) PDE_P]> (clear_words 1024 (t * 1024) w) in
  dir_ok w' d (<[i := t]> T) ∧ ∀ v, entry w' (<[i := t]> T) v = entry w T v.
Proof using Hnp.
  intros [H1 H2 H3 H4] Hi Ht Htr Htd Hfr w'. assert (Hnf : ∀ j t', T !! j = Some t' → t' ≠ t).
  { intros j t' Hj ->. by apply Hfr, (elem_of_frames T j). }
  assert (Ht20 : 0 ≤ t < 2 ^ 20) by (unfold PK in Htr; lia). split; [split; [done|..]|].
  - intros j t' [[<- <-]|[_ Hj]]%lookup_insert_Some; [done|by eapply H2].
  - intros j j' t' [[<- <-]|[Hj1 Hj]]%lookup_insert_Some [[<- ?]|[Hj1' Hj']]%lookup_insert_Some; try done.
    + by destruct (Hnf _ _ Hj').
    + subst. by destruct (Hnf _ _ Hj).
    + by eapply H3.
  - intros j Hj. cbv zeta. unfold w'. destruct (decide (j = i)) as [->|Hne].
    + rewrite lookup_insert_eq, word_insert_eq. by apply pde_entry.
    + rewrite lookup_insert_ne, word_insert_ne by lia. rewrite word_clear, decide_False by lia. by apply H4.
  - intros v. pose proof (mod256 v). unfold entry, w'. destruct (decide (v / 256 = i)) as [->|Hne].
    + rewrite lookup_insert_eq, Ht, word_insert_ne by lia. rewrite word_clear, decide_True by lia. done.
    + rewrite lookup_insert_ne by done. destruct (T !! (v / 256)) as [t'|] eqn:Et; [|done].
      destruct (H2 _ _ Et) as (_ & _ & Hn). pose proof (Hnf _ _ Et). rewrite word_insert_ne, word_clear, decide_False by lia. done.
Qed.
End Tables.

(** ** Allocators with pages left *)

(** [supply a k]: the next [k] requests for a page succeed. *)
Class PageSupply {A} (alloc_pages : Z → M A (option Z)) (set_ref : Z → Z → M A unit) (held : A → list (Z * Z) → Prop)
    (supply : A → nat → Prop) : Prop := {
  sup_alloc a R k : held a R → supply a (S k) → ∃ p a', alloc_pages 1 a = Ret (Some p, a') ∧ supply a' k;
  sup_set a R p v a' k : held a R → supply a k → set_ref p v a = Ret ((), a') → supply a' k }.

(** The directory entries of [I] that have no table yet. *)
Definition missing (T : gmap Z Z) (I : list Z) : nat := length (filter (λ i, T !! i = None) I).
Lemma missing_other T I i t : i ∉ I → missing (<[i := t]> T) I = missing T I.
Proof. intros Hi. unfold missing. f_equal. apply filter_ext_in. intros j Hj. rewrite lookup_insert_ne; [done|]. by intros ->. Qed.
Lemma missing_insert T I i t : NoDup I → i ∈ I → T !! i = None → missing T I = S (missing (<[i := t]> T) I).
Proof.
  induction I as [|j I IH]; intros Hnd Hin Hi; [by apply elem_of_nil in Hin|].
  apply NoDup_cons in Hnd as [Hj Hnd]. unfold missing in *. rewrite !filter_cons. destruct (decide (j = i)) as [->|Hne].
  - rewrite (decide_True (P := T !! i = None)) by done. rewrite decide_False by (by rewrite lookup_insert_eq). simpl. f_equal.
    symmetry. by apply missing_other.
  - apply elem_of_cons in Hin as [->|Hin]; [done|]. rewrite lookup_insert_ne by done.
    destruct (decide _); simpl; [f_equal|]; by apply IH.
Qed.

(** ** Mapping segments *)
Section Boot.
Context {A : Type} (alloc_pages : Z → M A (option Z)) (free_pages : Z → Z → M A unit) (np : Z).
Context (get_ref : Z → M A Z) (set_ref : Z → Z → M A unit).
Context (held : A → list (Z * Z) → Prop) (refof : A → Z → Z) (supply : A → nat → Prop).
Context `{HA : !RefAllocator alloc_pages free_pages get_ref set_ref np held refof} `{HS : !PageSupply alloc_pages set_ref held supply}.
Context (Hnp : np ≤ 0x38000) (Hlow : ∀ a R i n, held a R → (i, n) ∈ R → PK ≤ i).
Implicit Types s : vmem A.

(** The directory at [d] with the tables [T]; there are pages for the missing
    tables of [I]. *)
Record boot_ok (I : list Z) s d T R : Prop := {
  bo_dir : dir_ok np (words s) d T;
  bo_held : held (palloc s) ((d, 4) :: singles (frames T) ++ R);
  bo_supply : supply (palloc s) (missing T I) }.

(** A page just allocated is none of the directory and the tables. *)
Lemma fresh_table a d T R t : held a ((t, 1) :: (d, 4) :: singles (frames T) ++ R) → PK ≤ t < np ∧ ¬ d ≤ t < d + 4 ∧ t ∉ frames T.
Proof using HA Hlow.
  intros Hh. destruct (pa_range (PageAllocator := ra_pages) a _ t 1 Hh ltac:(by left)) as [_ Hr].
  pose proof (Hlow _ _ t 1 Hh ltac:(by left)) as Hl. pose proof (pa_nodup (PageAllocator := ra_pages) a _ Hh) as Hnd.
  change (hand_pages _) with (seqZ t 1 ++ hand_pages ((d, 4) :: singles (frames T) ++ R)) in Hnd. apply NoDup_app in Hnd as (_ & Hn & _).
  specialize (Hn t ltac:(apply elem_of_seqZ; lia)). rewrite elem_of_hand, hand_singles, elem_of_app in Hn. split; [lia|]. tauto.
Qed.

Abbreviation get_pte' := (ArmPmm.get_pte alloc_pages np set_ref).
(** get_pte enters the page [t] just allocated as a new table. *)
Lemma arm_new_run a1 a2 s d T la t : dir_ok np (words s) d T → 0 ≤ la < 2 ^ 32 → T !! (Arm.PPN la / 256) = None →
  PK ≤ t < np → ¬ d ≤ t < d + 4 → t ∉ frames T → alloc_pages 1 (palloc s) = Ret (Some t, a1) → set_ref t 1 a1 = Ret ((), a2) →
  ∃ w, get_pte' (kva_at d 0) la true s = Ret (kva_at t (Arm.PPN la mod 256), set_words w (over palloc_lens a2 s)) ∧
    dir_ok np w d (<[Arm.PPN la / 256 := t]> T) ∧ ∀ v, entry w (<[Arm.PPN la / 256 := t]> T) v = entry (words s) T v.
Proof using Hnp.
  intros Hd Hla Et Htr Htd Htf Ea Er. destruct (arm_PDX la Hla) as [Hx Hi]. pose proof (dr_dir _ _ _ _ Hd) as Hdr.
  destruct (arm_new_table np Hnp (words s) d T (Arm.PPN la / 256) t Hd Hi Et Htr Htd Htf) as [Hd' He'].
  eexists. split; [|split; [exact Hd'|exact He']]. set (i := Arm.PPN la / 256) in *.
  unfold ArmPmm.get_pte. destruct (dir_word np Hnp d i s Hdr Hi) as [El _]. rewrite Hx, (bind_Ret _ _ _ _ _ El).
  pose proof (dr_pde _ _ _ _ Hd i Hi) as He. cbv zeta in He. rewrite Et in He. rewrite He, bool_decide_true by done.
  rewrite bind_assoc, (bind_Ret _ _ _ _ _ (zoom_Ret palloc_lens _ s _ _ Ea)).
  rewrite bind_assoc, (bind_Ret _ _ _ _ _ (zoom_Ret palloc_lens (set_ref t 1) (over palloc_lens a1 s) () a2 Er)).
  set (s2 := over palloc_lens a2 (over palloc_lens a1 s)).
  assert (Ek : ArmPmm.KADDR np (ArmPmm.page2pa t) s2 = Ret (kva_at t 0, s2)).
  { rewrite arm_page2pa by (unfold PK in Htr; lia). by apply arm_KADDR. }
  cbv zeta. rewrite bind_assoc, (bind_Ret _ _ _ _ _ Ek).
  rewrite bind_assoc, (bind_Ret _ _ _ _ _ (arm_memset np Hnp t PGSIZE s2 Htr)). change (Z.to_nat (PGSIZE / 4)) with 1024%nat.
  set (s3 := set_words _ s2). destruct (dir_word np Hnp d i s3 Hdr Hi) as [_ Est].
  rewrite bind_assoc, (bind_Ret _ _ _ _ _ (Est _)), bind_mret.
  pose proof (arm_pte_there np Hnp (set_words _ s3) d (<[i := t]> T) la t Hd' Hla ltac:(by rewrite lookup_insert_eq)) as Ef.
  rewrite Hx in Ef. exact Ef.
Qed.

Lemma arm_get_create I s d T R la : boot_ok I s d T R → NoDup I → 0 ≤ la < 2 ^ 32 → Arm.PPN la / 256 ∈ I →
  ∃ t T' s', get_pte' (kva_at d 0) la true s = Ret (kva_at t (Arm.PPN la mod 256), s') ∧ boot_ok I s' d T' R ∧
    T' !! (Arm.PPN la / 256) = Some t ∧ ∀ v, entry (words s') T' v = entry (words s) T v.
Proof using All.
  intros Hb Hnd Hla Hin. pose proof Hb as [Hd Hh Hs]. destruct (T !! (Arm.PPN la / 256)) as [t|] eqn:Et.
  { exists t, T, s. split; [by apply (arm_get_found np Hnp alloc_pages set_ref s d T)|]. done. }
  rewrite (missing_insert T I _ 0 Hnd Hin Et) in Hs.
  destruct (sup_alloc _ _ _ Hh Hs) as (t & a1 & Ea & Hs1). destruct (pa_alloc (PageAllocator := ra_pages) _ _ 1 Hh ltac:(lia)) as (r & a1' & Ea' & Hh1).
  rewrite Ea in Ea'. injection Ea' as <- <-. simpl in Hh1. destruct (fresh_table _ _ _ _ _ Hh1) as (Htr & Htd & Htf).
  destruct (ra_set a1 _ t 1 Hh1) as (a2 & Er & Hh2 & _); [apply elem_of_hand; left; lia|].
  destruct (arm_new_run a1 a2 s d T la t Hd Hla Et Htr Htd Htf Ea Er) as (w & E & Hd' & He').
  eexists t, _, _. split; [exact E|]. split; [|split; [by rewrite lookup_insert_eq|exact He']]. split; [exact Hd'| |].
  - eapply ra_perm; [exact Hh2|]. rewrite perm_swap. apply perm_skip.
    change ((t, 1) :: singles (frames T) ++ R) with (singles (t :: frames T) ++ R). apply Permutation_app_tail, fmap_Permutation.
    symmetry. by apply frames_insert.
  - pose proof (sup_set _ _ _ _ _ _ Hh1 Hs1 Er) as Hs2. simpl. pose proof (missing_insert T I _ 0 Hnd Hin Et).
    pose proof (missing_insert T I _ t Hnd Hin Et). by replace (missing (<[Arm.PPN la / 256 := t]> T) I) with (missing (<[Arm.PPN la / 256 := 0]> T) I) by lia.
Qed.

(** *** boot_map_segment *)
Abbreviation map_loop' := (ArmPmm.map_loop alloc_pages np set_ref).
Lemma map_loop_ok fuel I s d T R v n p perm : boot_ok I s d T R → NoDup I → 0 ≤ v → 0 ≤ n → v + n < 2 ^ 20 → 0 ≤ p → p + n < 2 ^ 20 →
  (∀ u, v ≤ u < v + n → u / 256 ∈ I) → (Z.to_nat n < fuel)%nat →
  ∃ s' T', map_loop' fuel (kva_at d 0) (v * PGSIZE) (n * PGSIZE) (p * PGSIZE) perm s = Ret ((), s') ∧ boot_ok I s' d T' R ∧
    ∀ u, entry (words s') T' u =
      if decide (v ≤ u < v + n) then Z.lor (Z.lor ((p + (u - v)) * PGSIZE) PTE_P) perm else entry (words s) T u.
Proof using All.
  revert s T v n p. induction fuel as [|fuel IH]; intros s T v n p Hb Hnd Hv Hn Hvn Hp Hpn HI Hf; [lia|]. cbn [ArmPmm.map_loop].
  destruct (decide (n = 0)) as [->|Hn0].
  { rewrite bool_decide_false by (unfold PGSIZE; lia). exists s, T. split; [done|]. split; [done|]. intros u. by rewrite decide_False by lia. }
  rewrite bool_decide_true by (unfold PGSIZE; lia). assert (Hppn : Arm.PPN (v * PGSIZE) = v) by (rewrite arm_PPN; by apply Z.div_mul).
  destruct (arm_get_create I s d T R (v * PGSIZE) Hb Hnd ltac:(unfold PGSIZE; lia) ltac:(rewrite Hppn; apply HI; lia))
    as (t & T1 & s1 & E & Hb1 & Ht & He1). rewrite Hppn in E, Ht.
  rewrite (bind_Ret _ _ _ _ _ E). pose proof Hb1 as [Hd1 Hh1 Hs1]. destruct (dr_range _ _ _ _ Hd1 _ _ Ht) as (_ & Htr & Htd). pose proof (mod256 v).
  rewrite bind_assert by (apply bool_decide_eq_true; unfold kva_at, PK, PGSIZE in *; lia).
  rewrite (bind_Ret _ _ _ _ _ (arm_store np Hnp t (v mod 256) _ s1 Htr ltac:(lia))).
  set (x := Z.lor (Z.lor (p * PGSIZE) PTE_P) perm). set (s2 := set_words (<[t * 1024 + v mod 256 := x]> (words s1)) s1).
  assert (Hb2 : boot_ok I s2 d T1 R) by (split; [apply dir_update; [done|done|lia]|done|done]).
  assert (Hadd : ∀ k, 0 ≤ k → k + 1 < 2 ^ 20 → u32 (k * PGSIZE + PGSIZE) = (k + 1) * PGSIZE).
  { intros k Hk Hk'. unfold PGSIZE. rewrite u32_small by (unfold is_u32; lia). lia. }
  rewrite !Hadd by lia. replace (u32 (n * PGSIZE - PGSIZE)) with ((n - 1) * PGSIZE) by (unfold PGSIZE; rewrite u32_small by (unfold is_u32; lia); lia).
  assert (HI' : ∀ u, v + 1 ≤ u < v + 1 + (n - 1) → u / 256 ∈ I) by (intros u Hu; apply HI; lia).
  destruct (IH s2 T1 (v + 1) (n - 1) (p + 1) Hb2 Hnd) as (s' & T' & E' & Hb' & He'); [lia..|exact HI'|lia|].
  exists s', T'. split; [exact E'|]. split; [exact Hb'|]. intros u. rewrite He'. unfold s2. cbn [words set_words].
  rewrite (entry_update np (words s1) d T1 v x u t Hd1 Ht), He1. destruct (decide (u = v)) as [->|Hne].
  - rewrite decide_False, decide_True by lia. unfold x. do 3 f_equal. lia.
  - destruct (decide (v + 1 ≤ u < v + 1 + (n - 1))), (decide (v ≤ u < v + n)); try lia. do 3 f_equal. lia.
Qed.

Abbreviation boot_map_segment' := (ArmPmm.boot_map_segment alloc_pages np set_ref).
Lemma map_segment_ok fuel I s d T R v n p perm : boot_ok I s d T R → NoDup I → 0 ≤ v → 0 ≤ n → v + n < 2 ^ 20 → 0 ≤ p → p + n < 2 ^ 20 →
  (∀ u, v ≤ u < v + n → u / 256 ∈ I) → (Z.to_nat n < fuel)%nat →
  ∃ s' T', boot_map_segment' fuel (kva_at d 0) (v * PGSIZE) (n * PGSIZE) (p * PGSIZE) perm s = Ret ((), s') ∧ boot_ok I s' d T' R ∧
    ∀ u, entry (words s') T' u =
      if decide (v ≤ u < v + n) then Z.lor (Z.lor ((p + (u - v)) * PGSIZE) PTE_P) perm else entry (words s) T u.
Proof using All.
  intros Hb Hnd Hv Hn Hvn Hp Hpn HI Hf. unfold ArmPmm.boot_map_segment.
  assert (Hoff : ∀ k, Arm.PGOFF (k * PGSIZE) = 0).
  { intros k. unfold Arm.PGOFF. change 0xFFF with (2 ^ 12 - 1). rewrite land_mask by lia. by apply Z.mod_mul. }
  assert (Hrd : ∀ k, 0 ≤ k < 2 ^ 20 → ROUNDDOWN (k * PGSIZE) PGSIZE = k * PGSIZE).
  { intros k Hk. unfold ROUNDDOWN, PGSIZE. cbv zeta. rewrite (u32_small (k * 4096)) by (unfold is_u32; lia). rewrite Z.mod_mul by done.
    rewrite u32_small by (unfold is_u32; lia). lia. }
  rewrite bind_assert by (apply bool_decide_eq_true; by rewrite !Hoff). rewrite !Hrd by lia. by apply map_loop_ok.
Qed.
End Boot.
