(* ===== verification/ArmThms.v ===== *)
(** * The ARM port: properties of the boot mappings *)
From stdpp Require Import base gmap list fin_maps.
From Stdlib Require Import ZArith Lia.
From S2P Require Import Prelude DList Bits Printfmt Mmu Buddy BuddySpec Alloc PmmRefs PmmFresh Pmm PmmInv PmmProps ArmPmm ArmInv.

(** ** The translation of the MMU

    A first-level descriptor with the low bits 01 points to a coarse table of
    256 entries; a second-level descriptor with the low bits 10 is a small
    page. *)
Definition mmu_walk (w : gmap Z Z) (ttb va : Z) : option Z :=
  let d1 := word w (ttb / 4 + va / 2 ^ 20) in
  if bool_decide (Z.land d1 3 = 1) then
    let d2 := word w (Z.land d1 (u32 (Z.lnot 0x3ff)) / 4 + (va / 2 ^ 12) mod 256) in
    if bool_decide (Z.land d2 3 = 2) then Some (Z.land d2 (u32 (Z.lnot 0xfff)) + va mod 4096) else None
  else None.

Section Walk.
Context (np : Z) (Hnp : np ≤ 0x38000).
Lemma walk_entry w d T va : dir_ok np w d T → 0 ≤ va < 2 ^ 32 → mmu_walk w (d * PGSIZE) va =
  let e := entry w T (va / 4096) in if bool_decide (Z.land e 3 = 2) then Some (Arm.PTE_ADDR e + va mod 4096) else None.
Proof.
  intros Hd Hva. unfold mmu_walk, entry. assert (Hdir : d * PGSIZE / 4 = d * 1024) by (unfold PGSIZE; replace (d * 4096) with (d * 1024 * 4) by lia; by apply Z.div_mul).
  rewrite Hdir. assert (Hi : 0 ≤ va / 2 ^ 20 < 4096) by (split; [apply Z.div_pos; lia|apply Z.div_lt_upper_bound; lia]).
  assert (Hq : va / 4096 / 256 = va / 2 ^ 20) by (by rewrite Z.div_div). rewrite Hq. change (2 ^ 12) with 4096.
  pose proof (dr_pde _ _ _ _ Hd _ Hi) as He. cbv zeta in *. destruct (T !! (va / 2 ^ 20)) as [t|].
  - destruct He as (_ & Ha & ->). rewrite bool_decide_true by done. fold (Arm.PDE_ADDR (word w (d * 1024 + va / 2 ^ 20))). rewrite Ha.
    replace (t * PGSIZE / 4) with (t * 1024); [done|]. unfold PGSIZE. replace (t * 4096) with (t * 1024 * 4) by lia. by rewrite Z.div_mul.
  - rewrite He. done.
Qed.
End Walk.

(** ** What pmm_init maps *)

(** The directory entries its segments need. *)
Definition boot_tables : list Z := 0 :: seqZ 0x300 128 ++ seqZ 0x480 256 ++ [0xFAC].
Lemma boot_tables_nodup : NoDup boot_tables.
Proof. apply (bool_decide_eq_true_1 _). vm_compute. reflexivity. Qed.
(** The physical address of [va]: the vectors at 0, the memory of the kernel,
    the devices, the page directory at VPT. *)
Definition boot_target (pgdir vectors va : Z) (old : option Z) : option Z :=
  if bool_decide (0 ≤ va < PGSIZE) then Some (vectors + va)
  else if bool_decide (KERNBASE ≤ va < KERNBASE + KMEMSIZE) then Some (va - KERNBASE + PKERNBASE)
  else if bool_decide (0x48000000 ≤ va < 0x58000000) then Some va
  else if bool_decide (VPT ≤ va < VPT + PGDIRSIZE) then Some (pgdir + (va - VPT))
  else old.

(** Four segments one over the other. *)
Definition segment (v n p : Z) (e : Z → Z) (u : Z) : Z :=
  if decide (v ≤ u < v + n) then Z.lor (Z.lor ((p + (u - v)) * PGSIZE) PTE_P) PTE_W else e u.
Lemma segment_target v n p e va : 0 ≤ p → p + n < 2 ^ 20 →
  let x := segment v n p e (va / 4096) in let x0 := e (va / 4096) in
  (if bool_decide (Z.land x 3 = 2) then Some (Arm.PTE_ADDR x + va mod 4096) else None) =
  if bool_decide (v * PGSIZE ≤ va < (v + n) * PGSIZE) then Some (p * PGSIZE + (va - v * PGSIZE))
  else if bool_decide (Z.land x0 3 = 2) then Some (Arm.PTE_ADDR x0 + va mod 4096) else None.
Proof.
  intros Hp Hpn. cbv zeta. unfold segment, PGSIZE. pose proof (Z.div_mod va 4096 ltac:(lia)). pose proof (Z.mod_pos_bound va 4096 ltac:(lia)).
  destruct (decide (v ≤ va / 4096 < v + n)) as [Hin|Hout].
  - rewrite (bool_decide_true (v * 4096 ≤ va < _)) by lia.
    destruct (pte_entry (p + (va / 4096 - v)) PTE_W) as (H1 & H2 & _); [lia|split; [discriminate|reflexivity]|reflexivity|].
    unfold PGSIZE in H1, H2. rewrite H1, H2, bool_decide_true by done. f_equal. lia.
  - by rewrite (bool_decide_false (v * 4096 ≤ va < _)) by lia.
Qed.

Section Thms.
Context {A : Type} (alloc_pages : Z → M A (option Z)) (free_pages : Z → Z → M A unit) (np : Z).
Context (get_ref : Z → M A Z) (set_ref : Z → Z → M A unit).
Context (held : A → list (Z * Z) → Prop) (refof : A → Z → Z) (supply : A → nat → Prop).

(** C18. The mappings pmm_init of the ARM port builds, over any allocator of
    the memory from PKERNBASE on that has a page for each of the at most 386
    page tables: boot_map_segment ends for all four segments, and then the MMU
    finds the vectors at address 0, the memory of the kernel at KERNBASE, the
    devices at their own addresses and the page directory at VPT; every other
    address translates as before.  The page tables are distinct pages of the
    allocator, none of them part of the directory. *)
Theorem arm_boot_mappings_correct
    `{!RefAllocator alloc_pages free_pages get_ref set_ref np held refof} `{!PageSupply alloc_pages set_ref held supply}
    (s : vmem A) d T R q fuel :
  np ≤ 0x38000 → (∀ a R i n, held a R → (i, n) ∈ R → PK ≤ i) →
  boot_ok np held supply boot_tables s d T R → KERNBASE ≤ q * PGSIZE < KERNBASE + KMEMSIZE → (Z.to_nat 0x10000 < fuel)%nat →
  ∃ s' T', boot_mappings alloc_pages np set_ref fuel (kva_at d 0) (d * PGSIZE) (q * PGSIZE) s = Ret ((), s') ∧
    boot_ok np held supply boot_tables s' d T' R ∧
    ∀ va, 0 ≤ va < 2 ^ 32 → mmu_walk (words s') (d * PGSIZE) va =
      boot_target (d * PGSIZE) (q * PGSIZE - KERNBASE + PKERNBASE) va (mmu_walk (words s) (d * PGSIZE) va).
Proof.
  intros Hnp Hlow Hb Hq Hf. pose proof (dr_dir _ _ _ _ (bo_dir _ _ _ _ _ _ _ _ Hb)) as Hd. unfold PK in Hd.
  pose proof (map_segment_ok alloc_pages free_pages np get_ref set_ref held refof supply Hnp Hlow fuel boot_tables) as Hmap.
  assert (Hin : ∀ v n u, v * 256 ≤ u < (v + n) * 256 → u / 256 ∈ seqZ v n).
  { intros v n u Hu. apply elem_of_seqZ. pose proof (Z.div_le_lower_bound u 256 v ltac:(lia)). pose proof (Z.div_lt_upper_bound u 256 (v + n) ltac:(lia)). lia. }
  destruct (Hmap s d T R 0xFAC00 4 d PTE_W Hb boot_tables_nodup) as (s1 & T1 & E1 & Hb1 & He1); [lia..| |lia|].
  { intros u Hu. unfold boot_tables. pose proof (Hin 0xFAC 1 u ltac:(lia)) as Hs. rewrite elem_of_cons, !elem_of_app. right; right; right. exact Hs. }
  destruct (Hmap s1 d T1 R 0x30000 0x8000 0x30000 PTE_W Hb1 boot_tables_nodup) as (s2 & T2 & E2 & Hb2 & He2); [lia..| |lia|].
  { intros u Hu. unfold boot_tables. rewrite elem_of_cons, elem_of_app. right; left. apply Hin. lia. }
  destruct (Hmap s2 d T2 R 0x48000 0x10000 0x48000 PTE_W Hb2 boot_tables_nodup) as (s3 & T3 & E3 & Hb3 & He3); [lia..| |lia|].
  { intros u Hu. unfold boot_tables. rewrite elem_of_cons, !elem_of_app. right; right; left. apply Hin. lia. }
  unfold KERNBASE, PKERNBASE, KMEMSIZE, PGSIZE in Hq.
  destruct (Hmap s3 d T3 R 0 1 q PTE_W Hb3 boot_tables_nodup) as (s4 & T4 & E4 & Hb4 & He4); [lia..| |lia|].
  { intros u Hu. unfold boot_tables. apply elem_of_cons. left. replace u with 0 by lia. reflexivity. }
  exists s4, T4. split; [|split; [exact Hb4|]].
  - unfold boot_mappings. change VPT with (0xFAC00 * PGSIZE). change PGDIRSIZE with (4 * PGSIZE). rewrite (bind_Ret _ _ _ _ _ E1).
    change KERNBASE with (0x30000 * PGSIZE). change KMEMSIZE with (0x8000 * PGSIZE). change PKERNBASE with (0x30000 * PGSIZE).
    rewrite (bind_Ret _ _ _ _ _ E2). change 0x48000000 with (0x48000 * PGSIZE). change 0x10000000 with (0x10000 * PGSIZE). rewrite (bind_Ret _ _ _ _ _ E3).
    assert (Ep : ArmPmm.PADDR (q * PGSIZE) s3 = Ret (q * PGSIZE, s3)).
    { unfold ArmPmm.PADDR, KERNBASE, PKERNBASE, PGSIZE. rewrite bool_decide_false by lia. rewrite u32_small by (unfold is_u32; lia).
      unfold mret, M_ret. do 2 f_equal. lia. }
    rewrite (bind_Ret _ _ _ _ _ Ep). exact E4.
  - intros va Hva. rewrite (walk_entry np _ d T4 va (bo_dir _ _ _ _ _ _ _ _ Hb4) Hva), (walk_entry np _ d T va (bo_dir _ _ _ _ _ _ _ _ Hb) Hva).
    cbv zeta. rewrite He4. fold (segment 0 1 q (entry (words s3) T3) (va / 4096)). rewrite segment_target by lia.
    rewrite He3. fold (segment 0x48000 0x10000 0x48000 (entry (words s2) T2) (va / 4096)). rewrite segment_target by lia.
    rewrite He2. fold (segment 0x30000 0x8000 0x30000 (entry (words s1) T1) (va / 4096)). rewrite segment_target by lia.
    rewrite He1. fold (segment 0xFAC00 4 d (entry (words s) T) (va / 4096)). rewrite segment_target by lia.
    unfold boot_target, KERNBASE, PKERNBASE, KMEMSIZE, VPT, PGDIRSIZE, PGSIZE, Arm.NPDEENTRY. repeat case_bool_decide; try lia; try done; f_equal; lia.
Qed.
End Thms.

(** ** A machine: the memory of the board handed out page by page *)
Record bump_mem : Type := MkBump { bm_next : Z; bm_refs : gmap Z Z }.
Definition bm_np : Z := 0x33800.
Definition bm_alloc (n : Z) : M bump_mem (option Z) := λ a,
  if bool_decide (bm_next a + n ≤ bm_np) then Ret (Some (bm_next a), MkBump (bm_next a + n) (bm_refs a)) else Ret (None, a).
Definition bm_free (i n : Z) : M bump_mem unit := skip.
Definition bm_refof (a : bump_mem) (p : Z) : Z := default 0 (bm_refs a !! p).
Definition bm_get (p : Z) : M bump_mem Z := gets (λ a, bm_refof a p).
Definition bm_set (p v : Z) : M bump_mem unit := modify (λ a, MkBump (bm_next a) (<[p := v]> (bm_refs a))).
Definition bm_held (a : bump_mem) (R : list (Z * Z)) : Prop :=
  PK ≤ bm_next a ≤ bm_np ∧ NoDup (hand_pages R) ∧ ∀ i n, (i, n) ∈ R → PK ≤ i ∧ i + n ≤ bm_next a.
Definition bm_supply (a : bump_mem) (k : nat) : Prop := bm_next a + Z.of_nat k ≤ bm_np.

Lemma bm_below a R q : bm_held a R → q ∈ hand_pages R → q < bm_next a.
Proof.
  intros (_ & _ & Hr) Hq. unfold hand_pages in Hq. apply list_elem_of_bind in Hq as ([i n] & Hq & Hin).
  apply elem_of_seqZ in Hq. destruct (Hr _ _ Hin). lia.
Qed.
#[global] Instance bm_pages : PageAllocator bm_alloc bm_free bm_np bm_held.
Proof.
  split.
  - intros a R n Hh Hn. unfold bm_alloc. pose proof Hh as (H1 & H2 & H3). case_bool_decide as Hb; [|by eexists _, _].
    eexists _, _. split; [done|]. split; [simpl; lia|]. split.
    + change (hand_pages _) with (seqZ (bm_next a) n ++ hand_pages R). apply NoDup_app. split_and!; [apply NoDup_seqZ| |done].
      intros q Hq%elem_of_seqZ Hq'. apply (bm_below a R q Hh) in Hq'. lia.
    + intros i m [[= -> ->]|Hin]%elem_of_cons; simpl; [lia|]. destruct (H3 _ _ Hin). lia.
  - intros a R i n (H1 & H2 & H3). exists a. split; [done|]. split; [done|]. split.
    + change (hand_pages ((i, n) :: R)) with (seqZ i n ++ hand_pages R) in H2. by apply NoDup_app in H2 as (_ & _ & H2).
    + intros j m Hin. apply H3. by right.
  - intros a R (_ & H2 & _). exact H2.
  - intros a R i n (H1 & _ & H3) Hin. destruct (H3 _ _ Hin). unfold PK in *. lia.
Qed.
#[global] Instance bm_allocator : RefAllocator bm_alloc bm_free bm_get bm_set bm_np bm_held bm_refof.
Proof.
  split; [apply _|..].
  - intros a R R' (H1 & H2 & H3) HR. split; [done|]. split; [by rewrite <-(hand_pages_perm _ _ HR)|]. intros i n Hin. apply H3. by rewrite HR.
  - done.
  - intros a R p v Hh Hp. eexists. split; [reflexivity|]. split; [done|]. unfold bm_refof. simpl. split; [by rewrite lookup_insert_eq|].
    intros q Hq. by rewrite lookup_insert_ne.
  - intros a R n r a' _ _ E q _. unfold bm_alloc in E. case_bool_decide; by simplify_eq.
  - intros a R i n a' _ E q _. injection E as <-. reflexivity.
Qed.
#[global] Instance bm_supplies : PageSupply bm_alloc bm_set bm_held bm_supply.
Proof.
  split.
  - intros a R k _ Hs. unfold bm_supply in *. unfold bm_alloc. rewrite bool_decide_true by lia. eexists _, _. split; [done|]. simpl. lia.
  - intros a R p v a' k _ Hs E. injection E as <-. exact Hs.
Qed.

(** A cleared page directory on the pages from 0x30100 on. *)
Definition arm_machine : vmem bump_mem := MkVmem bump_mem ∅ 0 ∅ (MkBump 0x30104 ∅).
Lemma arm_machine_ok : boot_ok bm_np bm_held bm_supply boot_tables arm_machine 0x30100 ∅ [].
Proof.
  split.
  - split; [unfold PK, bm_np; lia|by intros i t|by intros i j t|]. intros i Hi. rewrite lookup_empty. reflexivity.
  - split; [unfold PK, bm_np; simpl; lia|]. split.
    + simpl. apply (NoDup_seqZ 0x30100 4).
    + intros i n [[= -> ->]|Hin]%elem_of_cons; [unfold PK; simpl; lia|by apply elem_of_nil in Hin].
  - unfold bm_supply. vm_compute. discriminate.
Qed.

Lemma arm_boot_mappings_correct_witness : ∃ s' T',
  boot_mappings bm_alloc bm_np bm_set (Z.to_nat 0x10001) (kva_at 0x30100 0) (0x30100 * PGSIZE) (0x30008 * PGSIZE) arm_machine = Ret ((), s') ∧
  boot_ok bm_np bm_held bm_supply boot_tables s' 0x30100 T' [] ∧
  mmu_walk (words s') (0x30100 * PGSIZE) 0x18 = Some 0x30008018 ∧ mmu_walk (words s') (0x30100 * PGSIZE) 0x32345678 = Some 0x32345678 ∧
  mmu_walk (words s') (0x30100 * PGSIZE) 0x20000000 = None.
Proof.
  destruct (arm_boot_mappings_correct bm_alloc bm_free bm_np bm_get bm_set bm_held bm_refof bm_supply arm_machine 0x30100 ∅ [] 0x30008 (Z.to_nat 0x10001))
    as (s' & T' & E & Hb & Hw).
  - unfold bm_np. lia.
  - intros a R i n (_ & _ & Hr) Hin. apply (Hr i n Hin).
  - exact arm_machine_ok.
  - unfold KERNBASE, KMEMSIZE, PGSIZE. lia.
  - lia.
  - exists s', T'. split; [exact E|]. split; [exact Hb|]. rewrite !Hw by lia. split; [reflexivity|]. split; reflexivity.
Defined.
