(* ===== verification/ArmDev.v ===== *)
(** * The devices of the S3C2410 board: console.c, clock.c and intr.c

    Registers in memory are read and written through two parameters; the
    theorems take the board behind them as a class, with the registers that a
    write of ones clears.  The fault status and address registers and
    do_pgfault of the ARM address spaces are parameters too.  Interrupts that
    arrive while intr_dispatch has them enabled are not modelled. *)
From stdpp Require Import base gmap list fin_maps strings.
From Stdlib Require Import ZArith Lia.
From S2P Require Import Prelude Bits CString Printfmt.

Definition INT_BASE : Z := 0x4a000000.
Definition INTMSK : Z := INT_BASE + 0x8.
Definition INTOFFSET : Z := INT_BASE + 0x14.
Definition INTPND : Z := INT_BASE + 0x10.
Definition SRCPND : Z := INT_BASE + 0x0.
Definition TIMER_BASE : Z := 0x51000000.
Definition TCFG0 : Z := TIMER_BASE + 0x0.
Definition TCON : Z := TIMER_BASE + 0x8.
Definition TCONB4 : Z := TIMER_BASE + 0x3c.
Definition UFCON0 : Z := 0x50000020.

(** struct trapframe, with struct pushregs as the list of r0 to r12. *)
Record trapframe : Type := MkTf { reg_r : list Z; tf_spsr : Z; tf_pc : Z }.

(** The processor status register, the variables of the kernel and the
    devices; [vm]: the address spaces. *)
Record board {D V : Type} : Type := MkBoard { cpsr : Z; ticks : Z; check_mm_struct : Z; io : D; vm : V }.
Arguments board : clear implicits.
Arguments MkBoard {_ _} _ _ _ _ _.

Section Model.
Context {D V : Type} (rd : Z → M D Z) (wr : Z → Z → M D unit) (do_pgfault : Z → Z → Z → M V Z) (fuel : nat).
Abbreviation B := (board D V).
Definition io_lens : lens B D := Lens io (λ d s, MkBoard (cpsr s) (ticks s) (check_mm_struct s) d (vm s)).
Definition vm_lens : lens B V := Lens vm (λ v s, MkBoard (cpsr s) (ticks s) (check_mm_struct s) (io s) v).
Definition set_cpsr (c : Z) (s : B) : B := MkBoard c (ticks s) (check_mm_struct s) (io s) (vm s).
Definition set_ticks (t : Z) (s : B) : B := MkBoard (cpsr s) t (check_mm_struct s) (io s) (vm s).
Definition load (a : Z) : M B Z := zoom io_lens (rd a).
Definition store (a v : Z) : M B unit := zoom io_lens (wr a (u32 v)).
(** [*a |= v] and [*a &= v] *)
Definition or_reg (a v : Z) : M B unit := x ← load a; store a (Z.lor x v).
Definition and_reg (a v : Z) : M B unit := x ← load a; store a (Z.land x v).

(** ** console.c *)
Definition uart_putc (c : Z) : M B unit := store UFCON0 c.
Definition cons_init : M B unit := skip.
Definition cons_putc (c : Z) : M B unit := uart_putc c.
Definition cons_getc : M B Z := mret 0.
(** cprintf of stdio.c on this console, without the count it returns. *)
Definition cprintf (fmt : list Z) (ap : list arg) : M B unit := vprintfmt cons_putc fuel fmt 0 ap.

(** ** intr.c *)
Definition intr_init : M B unit := skip.
(** bic #128 and orr #128 on cpsr *)
Definition intr_enable : M B unit := modify (λ s, set_cpsr (Z.ldiff (cpsr s) 128) s).
Definition intr_disable : M B unit := modify (λ s, set_cpsr (Z.lor (cpsr s) 128) s).
Definition intr_mask (offset : Z) : M B unit := or_reg INTMSK (u32 (Z.shiftl 1 offset)).
Definition intr_umask (offset : Z) : M B unit := and_reg INTMSK (u32 (Z.lnot (Z.shiftl 1 offset))).
Definition intr_clearpending (offset : Z) : M B unit :=
  or_reg SRCPND (u32 (Z.shiftl 1 offset));; or_reg INTPND (u32 (Z.shiftl 1 offset)).

(** for (i=0; i<13; i++) *)
Fixpoint print_regs (i : Z) (rs : list Z) : M B unit :=
  match rs with
  | [] => skip
  | r :: rs => cprintf (codes "tf->regs[%d]: %08lx" ++ [10]) [A32 i; A32 r];; print_regs (i + 1) rs
  end.
Definition print_tf (tf : trapframe) : M B unit :=
  cprintf (codes "tf->pc: %08lx" ++ [10]) [A32 (tf_pc tf)];;
  cprintf (codes "tf->spsr: %08lx" ++ [10]) [A32 (tf_spsr tf)];;
  print_regs 0 (reg_r tf).

(** [tf_a]: the address of the frame; tf_pc is its 15th word. *)
Definition intr_dispatch (tf_a : Z) (tf : trapframe) (code : Z) : M B unit :=
  int_offset ← load INTOFFSET;
  intr_clearpending int_offset;;
  cprintf (codes "%d:%d" ++ [9]) [A32 code; A32 int_offset];;
  intr_enable;;
  cprintf (codes "tf@0x%08lx" ++ [10]) [A32 tf_a];;
  cprintf (codes "tf->tf_pc@0x%08lx" ++ [10]) [A32 (tf_a + 56)];;
  print_tf tf;;
  cprintf (codes "interrupt occured" ++ [10]) [];;
  intr_disable.

Definition fault_code (fsr : Z) : option Z :=
  if bool_decide (Z.land fsr 0x5 ≠ 0) then Some 2 else if bool_decide (Z.land fsr 0xd ≠ 0) then Some 1 else None.
Definition intr_data_abort (fsr far : Z) : M B unit :=
  cprintf (codes "pgfault@%08lx, type: %ld" ++ [10]) [A32 far; A32 fsr];;
  match fault_code fsr with
  | None => panic
  | Some code =>
    mm ← gets check_mm_struct;
    if bool_decide (mm ≠ 0) then
      ret ← zoom vm_lens (do_pgfault mm code far);
      if bool_decide (ret ≠ 0) then panic else skip
    else panic
  end.
Definition unhandled_mode : M B unit := panic.

(** ** clock.c *)
Definition clock_init : M B unit :=
  modify (set_ticks 0);;
  or_reg TCFG0 0xff00;;
  and_reg TCON (u32 (Z.lnot (Z.shiftl 7 20)));;
  or_reg TCON (Z.shiftl 1 22);;
  or_reg TCON (Z.shiftl 1 21);;
  store TCONB4 10000000;;
  or_reg TCON (Z.shiftl 1 20);;
  and_reg TCON (u32 (Z.lnot (Z.shiftl 1 21)));;
  intr_umask 14.
End Model.

(** ** The board

    Plain registers, pending registers in which a write of ones clears the bits
    written, and the transmit register of the serial port. *)
Class S3C2410 {D} (rd : Z → M D Z) (wr : Z → Z → M D unit) (reg : D → Z → Z) (uart : D → list Z) : Prop := {
  bd_word d a : is_u32 (reg d a);
  bd_read d a : a ∈ [SRCPND; INTMSK; INTPND; INTOFFSET; TCFG0; TCON] → rd a d = Ret (reg d a, d);
  bd_write d a v : a ∈ [INTMSK; TCFG0; TCON; TCONB4] → is_u32 v →
    ∃ d', wr a v d = Ret ((), d') ∧ reg d' a = v ∧ (∀ b, b ≠ a → reg d' b = reg d b) ∧ uart d' = uart d;
  bd_clear d a v : a ∈ [SRCPND; INTPND] → is_u32 v →
    ∃ d', wr a v d = Ret ((), d') ∧ reg d' a = Z.ldiff (reg d a) v ∧
      (∀ b, b ≠ a → b ≠ INTOFFSET → reg d' b = reg d b) ∧ uart d' = uart d;
  bd_send d c : is_u32 c → ∃ d', wr UFCON0 c d = Ret ((), d') ∧ reg d' = reg d ∧ uart d' = uart d ++ [u8 c] }.

Lemma u32_lor x y : is_u32 x → is_u32 y → is_u32 (Z.lor x y).
Proof.
  intros Hx Hy. assert (H : u32 (Z.lor x y) = Z.lor x y); [|rewrite <-H; apply u32_range].
  unfold u32. rewrite <-Z.land_ones, Z.land_lor_distr_l, !Z.land_ones by lia. change (x mod 2 ^ 32) with (u32 x). change (y mod 2 ^ 32) with (u32 y).
  by rewrite !u32_small.
Qed.
Lemma u32_land_l x y : is_u32 x → is_u32 (Z.land x y).
Proof.
  intros Hx. assert (H : u32 (Z.land x y) = Z.land x y); [|rewrite <-H; apply u32_range].
  unfold u32. rewrite <-Z.land_ones, (Z.land_comm x y), <-Z.land_assoc, Z.land_ones by lia. change (x mod 2 ^ 32) with (u32 x). by rewrite u32_small.
Qed.
Lemma u32_low_bit x i : 0 ≤ i < 32 → Z.testbit (u32 x) i = Z.testbit x i.
Proof. intros Hi. unfold u32. rewrite Z.mod_pow2_bits_low by lia. done. Qed.

Section Facts.
Context {D V : Type} (rd : Z → M D Z) (wr : Z → Z → M D unit) (reg : D → Z → Z) (uart : D → list Z).
Context `{!S3C2410 rd wr reg uart} (fuel : nat).
Abbreviation B := (board D V).
(** [s'] is [s] with the registers given by [f] and more output. *)
Definition set_io (d : D) (s : B) : B := MkBoard (cpsr s) (ticks s) (check_mm_struct s) d (vm s).
Lemma io_Ret {X} (m : M D X) (s : B) x d : m (io s) = Ret (x, d) → zoom io_lens m s = Ret (x, set_io d s).
Proof. intros E. exact (zoom_Ret io_lens m s x d E). Qed.
Lemma load_ok a (s : B) : a ∈ [SRCPND; INTMSK; INTPND; INTOFFSET; TCFG0; TCON] → load rd a s = Ret (reg (io s) a, s).
Proof. intros Ha. unfold load. rewrite (io_Ret _ s _ _ (bd_read (io s) a Ha)). by destruct s. Qed.
Lemma store_ok a v (s : B) : a ∈ [INTMSK; TCFG0; TCON; TCONB4] → is_u32 v →
  ∃ d', store wr a v s = Ret ((), set_io d' s) ∧ reg d' a = v ∧ (∀ b, b ≠ a → reg d' b = reg (io s) b) ∧ uart d' = uart (io s).
Proof.
  intros Ha Hv. destruct (bd_write (io s) a v Ha Hv) as (d' & E & H). exists d'. split; [|done]. unfold store. rewrite u32_small by done. by apply io_Ret.
Qed.
Lemma or_reg_ok a v (s : B) : a ∈ [INTMSK; TCFG0; TCON] → is_u32 v →
  ∃ d', or_reg rd wr a v s = Ret ((), set_io d' s) ∧ reg d' a = Z.lor (reg (io s) a) v ∧ (∀ b, b ≠ a → reg d' b = reg (io s) b) ∧ uart d' = uart (io s).
Proof.
  intros Ha Hv. unfold or_reg. mrun (load_ok a s ltac:(set_solver)). apply store_ok; [set_solver|]. apply u32_lor; [apply bd_word|done].
Qed.
Lemma and_reg_ok a v (s : B) : a ∈ [INTMSK; TCFG0; TCON] →
  ∃ d', and_reg rd wr a v s = Ret ((), set_io d' s) ∧ reg d' a = Z.land (reg (io s) a) v ∧ (∀ b, b ≠ a → reg d' b = reg (io s) b) ∧ uart d' = uart (io s).
Proof.
  intros Ha. unfold and_reg. mrun (load_ok a s ltac:(set_solver)). apply store_ok; [set_solver|]. apply u32_land_l, bd_word.
Qed.

(** intr_clearpending writes back every bit that is pending, so it clears all
    of them and not only the one of its argument. *)
Lemma clear_all a v (s : B) : a ∈ [SRCPND; INTPND] → is_u32 v →
  ∃ d', or_reg rd wr a v s = Ret ((), set_io d' s) ∧ reg d' a = 0 ∧
    (∀ b, b ≠ a → b ≠ INTOFFSET → reg d' b = reg (io s) b) ∧ uart d' = uart (io s).
Proof.
  intros Ha Hv. unfold or_reg. mrun (load_ok a s ltac:(set_solver)). assert (Hl : is_u32 (Z.lor (reg (io s) a) v)) by (apply u32_lor; [apply bd_word|done]).
  destruct (bd_clear (io s) a _ Ha Hl) as (d' & E & Hz & H). exists d'. split; [|split; [|done]].
  - unfold store. rewrite u32_small by done. by apply io_Ret.
  - rewrite Hz. apply Z.bits_inj'. intros i Hi. rewrite Z.ldiff_spec, Z.lor_spec, Z.bits_0. by destruct (Z.testbit (reg (io s) a) i).
Qed.
Lemma intr_clearpending_all offset (s : B) : ∃ d', intr_clearpending rd wr offset s = Ret ((), set_io d' s) ∧
  reg d' SRCPND = 0 ∧ reg d' INTPND = 0 ∧ (∀ b, b ∉ [SRCPND; INTPND; INTOFFSET] → reg d' b = reg (io s) b) ∧ uart d' = uart (io s).
Proof.
  unfold intr_clearpending. destruct (clear_all SRCPND (u32 (Z.shiftl 1 offset)) s) as (d1 & E1 & H1 & K1 & U1); [set_solver|apply u32_range|]. mrun E1.
  destruct (clear_all INTPND (u32 (Z.shiftl 1 offset)) (set_io d1 s)) as (d2 & E2 & H2 & K2 & U2); [set_solver|apply u32_range|].
  exists d2. rewrite E2. split; [done|]. split; [by rewrite K2|]. split; [done|]. split; [|by rewrite U2].
  intros b Hb. rewrite K2 by set_solver. apply K1; set_solver.
Qed.

(** What clock_init makes of TCON: timer 4 runs and reloads. *)
Lemma tcon_bits x i : 0 ≤ i < 32 →
  Z.testbit (Z.land (Z.lor (Z.lor (Z.lor (Z.land x (u32 (Z.lnot (Z.shiftl 7 20)))) (Z.shiftl 1 22)) (Z.shiftl 1 21)) (Z.shiftl 1 20))
    (u32 (Z.lnot (Z.shiftl 1 21)))) i = if bool_decide (i = 20 ∨ i = 22) then true else if bool_decide (i = 21) then false else Z.testbit x i.
Proof.
  intros Hi. rewrite !Z.land_spec, !Z.lor_spec, !Z.land_spec. generalize (Z.testbit x i). intros b.
  assert (Hin : i ∈ seqZ 0 32) by (apply elem_of_seqZ; lia). clear Hi. revert i Hin.
  apply Forall_forall. apply (bool_decide_unpack _). destruct b; vm_compute; exact I.
Qed.
Lemma arm_umask_bits x k i : 0 ≤ i < 32 → 0 ≤ k → Z.testbit (Z.land x (u32 (Z.lnot (Z.shiftl 1 k)))) i = Z.testbit x i && negb (bool_decide (i = k)).
Proof.
  intros Hi Hk. rewrite Z.land_spec, u32_low_bit, Z.lnot_spec, Z.shiftl_spec by lia. f_equal. f_equal.
  case_bool_decide as Hik; [subst; by rewrite Z.sub_diag|]. destruct (decide (i < k)); [by rewrite Z.testbit_neg_r by lia|].
  change 1 with (2 ^ 0). rewrite Z.pow2_bits_false by lia. done.
Qed.
(** clock_init: the tick counter is zero, timer 4 counts from its new start
    value with the slowest prescaler, its interrupt is not masked; nothing else
    of the timers and of the interrupt mask changes. *)
Theorem arm_clock_init_correct (s : B) : ∃ d', clock_init rd wr s = Ret ((), set_ticks 0 (set_io d' s)) ∧
  reg d' TCONB4 = 10000000 ∧ reg d' TCFG0 = Z.lor (reg (io s) TCFG0) 0xff00 ∧
  (∀ i, 0 ≤ i < 32 → Z.testbit (reg d' TCON) i =
    if bool_decide (i = 20 ∨ i = 22) then true else if bool_decide (i = 21) then false else Z.testbit (reg (io s) TCON) i) ∧
  (∀ i, 0 ≤ i < 32 → Z.testbit (reg d' INTMSK) i = Z.testbit (reg (io s) INTMSK) i && negb (bool_decide (i = 14))) ∧
  ∀ b, b ∉ [TCONB4; TCFG0; TCON; INTMSK] → reg d' b = reg (io s) b.
Proof.
  unfold clock_init. rewrite bind_modify. set (s0 := set_ticks 0 s).
  destruct (or_reg_ok TCFG0 0xff00 s0) as (d1 & E1 & R1 & K1 & _); [set_solver|unfold is_u32; lia|]. mrun E1.
  destruct (and_reg_ok TCON (u32 (Z.lnot (Z.shiftl 7 20))) (set_io d1 s0)) as (d2 & E2 & R2 & K2 & _); [set_solver|]. mrun E2.
  destruct (or_reg_ok TCON (Z.shiftl 1 22) (set_io d2 s0)) as (d3 & E3 & R3 & K3 & _); [set_solver|split; [done|reflexivity]|]. mrun E3.
  destruct (or_reg_ok TCON (Z.shiftl 1 21) (set_io d3 s0)) as (d4 & E4 & R4 & K4 & _); [set_solver|split; [done|reflexivity]|]. mrun E4.
  destruct (store_ok TCONB4 10000000 (set_io d4 s0)) as (d5 & E5 & R5 & K5 & _); [set_solver|unfold is_u32; lia|]. mrun E5.
  destruct (or_reg_ok TCON (Z.shiftl 1 20) (set_io d5 s0)) as (d6 & E6 & R6 & K6 & _); [set_solver|split; [done|reflexivity]|]. mrun E6.
  destruct (and_reg_ok TCON (u32 (Z.lnot (Z.shiftl 1 21))) (set_io d6 s0)) as (d7 & E7 & R7 & K7 & _); [set_solver|]. mrun E7.
  destruct (and_reg_ok INTMSK (u32 (Z.lnot (Z.shiftl 1 14))) (set_io d7 s0)) as (d8 & E8 & R8 & K8 & _); [set_solver|].
  exists d8. split; [exact E8|]. cbn [io set_io set_ticks s0] in *. split_and!.
  - by rewrite K8, K7, K6, R5.
  - by rewrite K8, K7, K6, K5, K4, K3, K2, R1.
  - intros i Hi. rewrite K8, R7, R6, K5, R4, R3, R2, K1 by done. by apply tcon_bits.
  - intros i Hi. rewrite R8, K7, K6, K5, K4, K3, K2, K1 by done. by apply arm_umask_bits.
  - intros b Hb. rewrite K8, K7, K6, K5, K4, K3, K2, K1 by set_solver. done.
Qed.

(** cprintf sends what the format prints. *)
Lemma u8_u32 c : u8 (u32 c) = u8 c.
Proof. unfold u8, u32. rewrite <-Znumtheory.Zmod_div_mod; [done|lia|lia|]. exists (2 ^ 24). lia. Qed.
Lemma cprintf_ok fmt ap l (s : B) : output fuel fmt ap = Ret ((), l) →
  ∃ d', cprintf wr fuel fmt ap s = Ret ((), set_io d' s) ∧ reg d' = reg (io s) ∧ uart d' = uart (io s) ++ (u8 <$> l).
Proof.
  intros E. set (R := λ (o : list Z) (s' : B), ∃ d', s' = set_io d' s ∧ reg d' = reg (io s) ∧ uart d' = uart (io s) ++ (u8 <$> o)).
  assert (Hp : ∀ c, sim R (lputch c) (cons_putc wr c)).
  { intros c o s1 [] o' (d1 & -> & R1 & U1) [= <-]. unfold cons_putc, uart_putc, store.
    destruct (bd_send d1 (u32 c) (u32_range c)) as (d2 & E2 & R2 & U2). rewrite (io_Ret _ (set_io d1 s) _ _ E2).
    eexists. split; [reflexivity|]. exists d2. split; [done|]. split; [by rewrite R2|]. by rewrite U2, U1, u8_u32, fmap_app, <-app_assoc. }
  destruct (sim_vprintfmt R lputch (cons_putc wr) Hp fuel fmt 0 ap [] s () l) as (s' & E' & d' & -> & H); [|exact E|].
  - exists (io s). split; [by destruct s|]. split; [done|]. by rewrite app_nil_r.
  - by exists d'.
Qed.

(** The messages of intr_dispatch. *)
Fixpoint reg_messages (i : Z) (rs : list Z) : list (list Z * list arg) :=
  match rs with [] => [] | r :: rs => (codes "tf->regs[%d]: %08lx" ++ [10], [A32 i; A32 r]) :: reg_messages (i + 1) rs end.
Definition tf_messages (tf : trapframe) : list (list Z * list arg) :=
  (codes "tf->pc: %08lx" ++ [10], [A32 (tf_pc tf)]) :: (codes "tf->spsr: %08lx" ++ [10], [A32 (tf_spsr tf)]) :: reg_messages 0 (reg_r tf).
Definition texts (ms : list (list Z * list arg)) (ls : list (list Z)) : Prop :=
  Forall2 (λ m l, output fuel m.1 m.2 = Ret ((), l)) ms ls.
(** [s'] is [s] after the text [l] has been sent. *)
Definition sent (l : list Z) (s s' : B) : Prop :=
  ∃ d', s' = set_io d' s ∧ reg d' = reg (io s) ∧ uart d' = uart (io s) ++ (u8 <$> l).
Lemma sent_app l1 l2 s1 s2 s3 : sent l1 s1 s2 → sent l2 s2 s3 → sent (l1 ++ l2) s1 s3.
Proof.
  intros (d1 & -> & R1 & U1) (d2 & -> & R2 & U2). simpl in *. exists d2. split; [done|]. split; [by rewrite R2|].
  by rewrite U2, U1, fmap_app, <-app_assoc.
Qed.
Lemma cprintf_sent fmt ap l (s : B) : output fuel fmt ap = Ret ((), l) → ∃ s', cprintf wr fuel fmt ap s = Ret ((), s') ∧ sent l s s'.
Proof. intros E. destruct (cprintf_ok fmt ap l s E) as (d' & E' & H). exists (set_io d' s). split; [done|]. by exists d'. Qed.
Lemma print_regs_sent rs i ls (s : B) : texts (reg_messages i rs) ls →
  ∃ s', print_regs wr fuel i rs s = Ret ((), s') ∧ sent (concat ls) s s'.
Proof.
  revert i ls s. induction rs as [|r rs IH]; intros i ls s Ht; cbn [reg_messages print_regs] in *.
  - apply Forall2_nil_inv_l in Ht as ->. exists s. split; [done|]. exists (io s). split; [by destruct s|]. split; [done|]. by rewrite app_nil_r.
  - apply Forall2_cons_inv_l in Ht as (l & ls' & Hl & Ht & ->). destruct (cprintf_sent _ _ l s Hl) as (s1 & E1 & H1). mrun E1.
    destruct (IH _ _ s1 Ht) as (s2 & E2 & H2). exists s2. split; [done|]. by apply (sent_app _ _ _ s1).
Qed.
Lemma print_tf_sent tf ls (s : B) : texts (tf_messages tf) ls → ∃ s', print_tf wr fuel tf s = Ret ((), s') ∧ sent (concat ls) s s'.
Proof.
  intros (l1 & ls1 & H1 & (l2 & ls2 & H2 & Ht & ->)%Forall2_cons_inv_l & ->)%Forall2_cons_inv_l. unfold print_tf.
  destruct (cprintf_sent _ _ l1 s H1) as (s1 & E1 & P1). mrun E1. destruct (cprintf_sent _ _ l2 s1 H2) as (s2 & E2 & P2). mrun E2.
  destruct (print_regs_sent _ _ _ s2 Ht) as (s3 & E3 & P3). exists s3. split; [done|]. simpl. by eapply sent_app, sent_app.
Qed.

Definition dispatch_messages (tf_a : Z) (tf : trapframe) (code offset : Z) : list (list Z * list arg) :=
  [(codes "%d:%d" ++ [9], [A32 code; A32 offset]); (codes "tf@0x%08lx" ++ [10], [A32 tf_a]);
   (codes "tf->tf_pc@0x%08lx" ++ [10], [A32 (tf_a + 56)])] ++ tf_messages tf ++ [(codes "interrupt occured" ++ [10], [])].
(** intr_dispatch sends its messages and ends with interrupts disabled; no
    request is pending any more, and the mask is as it was. *)
Theorem arm_intr_dispatch_correct tf_a tf code ls (s : B) :
  texts (dispatch_messages tf_a tf code (reg (io s) INTOFFSET)) ls →
  ∃ s', intr_dispatch rd wr fuel tf_a tf code s = Ret ((), s') ∧ Z.testbit (cpsr s') 7 = true ∧
    reg (io s') SRCPND = 0 ∧ reg (io s') INTPND = 0 ∧ reg (io s') INTMSK = reg (io s) INTMSK ∧
    uart (io s') = uart (io s) ++ (u8 <$> concat ls) ∧ ticks s' = ticks s ∧ vm s' = vm s.
Proof.
  unfold dispatch_messages, texts. intros Ht. apply Forall2_app_inv_l in Ht as (la & lb & Ha & Hb & ->).
  apply Forall2_app_inv_l in Hb as (lt & lc & Hlt & Hc & ->).
  apply Forall2_cons_inv_l in Ha as (l1 & ls1 & H1 & Ha & ->). apply Forall2_cons_inv_l in Ha as (l2 & ls2 & H2 & Ha & ->).
  apply Forall2_cons_inv_l in Ha as (l3 & ls3 & H3 & Ha & ->). apply Forall2_nil_inv_l in Ha as ->.
  apply Forall2_cons_inv_l in Hc as (l5 & ls5 & H5 & Hc & ->). apply Forall2_nil_inv_l in Hc as ->. cbn [fst snd] in *.
  unfold intr_dispatch. mrun (load_ok INTOFFSET s ltac:(set_solver)).
  destruct (intr_clearpending_all (reg (io s) INTOFFSET) s) as (d0 & E0 & S0 & P0 & K0 & U0). mrun E0.
  destruct (cprintf_sent _ _ l1 (set_io d0 s) H1) as (s1 & E1 & Q1). mrun E1. unfold intr_enable, intr_disable. rewrite bind_modify.
  destruct (cprintf_sent _ _ l2 (set_cpsr (Z.ldiff (cpsr s1) 128) s1) H2) as (s2 & E2 & Q2). mrun E2.
  destruct (cprintf_sent _ _ l3 s2 H3) as (s3 & E3 & Q3). mrun E3. destruct (print_tf_sent tf lt s3 Hlt) as (s4 & E4 & Q4). mrun E4.
  destruct (cprintf_sent _ _ l5 s4 H5) as (s5 & E5 & Q5). mrun E5. eexists. split; [reflexivity|].
  pose proof (sent_app _ _ _ _ _ Q2 (sent_app _ _ _ _ _ Q3 (sent_app _ _ _ _ _ Q4 Q5))) as (d6 & -> & R6 & U6).
  destruct Q1 as (d1 & -> & R1 & U1). cbn [io set_io set_cpsr cpsr ticks vm] in *. rewrite Z.lor_spec, R6, R1, U6, U1, U0. split_and!; [by rewrite orb_true_r|done|done| | |done|done].
  - apply K0. set_solver.
  - rewrite <-!app_assoc. f_equal. rewrite !concat_app, !fmap_app. simpl. by rewrite !fmap_app, ?app_nil_r, <-!app_assoc.
Qed.

(** The fault status: any of its bits 0 and 2 gives a write fault, which holds
    for alignment, translation, domain (9, 11) and permission (13, 15) faults
    alike; only bit 3 alone gives a read fault. *)
Lemma fault_code_spec fsr : fault_code fsr =
  if Z.testbit fsr 0 || Z.testbit fsr 2 then Some 2 else if Z.testbit fsr 3 then Some 1 else None.
Proof.
  assert (H : ∀ m, Z.land fsr m = 0 ↔ ∀ i, 0 ≤ i → Z.testbit fsr i && Z.testbit m i = false).
  { intros m. split; [intros E i Hi; by rewrite <-Z.land_spec, E, Z.bits_0|]. intros Hb. apply Z.bits_inj'. intros i Hi. rewrite Z.land_spec, Z.bits_0. by apply Hb. }
  assert (H5 : ∀ i, 0 ≤ i → Z.testbit 5 i = bool_decide (i = 0) || bool_decide (i = 2)).
  { intros i Hi. destruct (decide (i < 4)); [assert (i = 0 ∨ i = 1 ∨ i = 2 ∨ i = 3) as [->|[->|[->| ->]]] by lia; done|].
    rewrite !bool_decide_false by lia. apply Z.bits_above_log2; [done|]. simpl. lia. }
  assert (Hd : ∀ i, 0 ≤ i → Z.testbit 0xd i = bool_decide (i = 0) || bool_decide (i = 2) || bool_decide (i = 3)).
  { intros i Hi. destruct (decide (i < 4)); [assert (i = 0 ∨ i = 1 ∨ i = 2 ∨ i = 3) as [->|[->|[->| ->]]] by lia; done|].
    rewrite !bool_decide_false by lia. apply Z.bits_above_log2; [done|]. simpl. lia. }
  unfold fault_code. case_bool_decide as C1; rewrite H in C1.
  - destruct (Z.testbit fsr 0) eqn:B0, (Z.testbit fsr 2) eqn:B2; try done. destruct C1. intros i Hi. rewrite H5 by done.
    repeat case_bool_decide; subst; rewrite ?B0, ?B2, ?andb_false_r; done.
  - assert (B0 := C1 0 ltac:(lia)). assert (B2 := C1 2 ltac:(lia)). change (Z.testbit 5 0) with true in B0. change (Z.testbit 5 2) with true in B2. rewrite andb_true_r in B0, B2. rewrite B0, B2. cbn [orb].
    case_bool_decide as C2; rewrite H in C2.
    + destruct (Z.testbit fsr 3) eqn:B3; [done|]. destruct C2. intros i Hi. rewrite Hd by done. repeat case_bool_decide; subst; rewrite ?B0, ?B2, ?B3, ?andb_false_r; done.
    + assert (B3 := C2 3 ltac:(lia)). change (Z.testbit 0xd 3) with true in B3. rewrite andb_true_r in B3. by rewrite B3.
Qed.
End Facts.

(** ** A board *)
Record chip : Type := MkChip { chip_reg : Z → Z; chip_out : list Z }.
Definition chip_read (a : Z) : M chip Z := gets (λ d, u32 (chip_reg d a)).
Definition chip_write (a v : Z) : M chip unit := modify (λ d,
  if decide (a = UFCON0) then MkChip (chip_reg d) (chip_out d ++ [u8 v])
  else MkChip (λ b, if decide (b = a) then
                      if decide (a = SRCPND ∨ a = INTPND) then Z.ldiff (u32 (chip_reg d a)) v else v
                    else chip_reg d b) (chip_out d)).
#[global] Instance chip_board : S3C2410 chip_read chip_write (λ d a, u32 (chip_reg d a)) chip_out.
Proof.
  split.
  - intros d a. apply u32_range.
  - done.
  - intros d a v Ha Hv. eexists. split; [reflexivity|].
    assert (a ≠ UFCON0 ∧ ¬ (a = SRCPND ∨ a = INTPND)) as [H1 H2].
    { rewrite !elem_of_cons, elem_of_nil in Ha. destruct Ha as [->|[->|[->|[->|[]]]]]; (split; [done|]); intros [E|E]; discriminate E. }
    rewrite decide_False by done. simpl. rewrite decide_True, decide_False by done. split; [by apply u32_small|]. split; [|done].
    intros b Hb. by rewrite decide_False.
  - intros d a v Ha Hv. eexists. split; [reflexivity|].
    assert (Hs : a = SRCPND ∨ a = INTPND) by (rewrite !elem_of_cons, elem_of_nil in Ha; tauto).
    rewrite decide_False by (intros ->; destruct Hs as [E|E]; discriminate E). simpl. rewrite (decide_True _ _ (eq_refl a)), (decide_True _ _ Hs). split; [|split; [|done]].
    + apply u32_small. rewrite Z.ldiff_land. apply u32_land_l, u32_range.
    + intros b Hb _. by rewrite decide_False.
  - intros d c Hc. eexists. split; [reflexivity|]. rewrite decide_True by done. done.
Qed.
(** Requests of the timer (14) and the serial port (28) pending, the first one
    served: both are cleared. *)
Definition busy_board : board chip unit :=
  MkBoard 0x93 0 0 (MkChip (λ a, if decide (a = SRCPND) then 0x10004000 else if decide (a = INTPND) then 0x4000
    else if decide (a = INTOFFSET) then 14 else 0) []) ().
Definition printed (r : outcome (unit * list Z)) : list Z := match r with Ret (_, l) => l | _ => [] end.
Lemma arm_intr_dispatch_correct_witness : ∃ s',
  intr_dispatch chip_read chip_write 200 0x33f00000 (MkTf (replicate 13 7) 0x13 0x31000040) 6 busy_board = Ret ((), s') ∧
  Z.testbit (cpsr s') 7 = true ∧ u32 (chip_reg (io s') SRCPND) = 0.
Proof.
  pose (tf := MkTf (replicate 13 7) 0x13 0x31000040).
  destruct (arm_intr_dispatch_correct (V := unit) chip_read chip_write (λ d a, u32 (chip_reg d a)) chip_out 200 0x33f00000 tf 6
    ((λ m, printed (output 200 m.1 m.2)) <$> dispatch_messages 0x33f00000 tf 6 14) busy_board) as (s' & E & Hc & Hp & _).
  - unfold texts. apply Forall2_fmap_r, Forall_Forall2_diag. repeat (apply Forall_cons; split; [vm_compute; reflexivity|]). apply Forall_nil. exact I.
  - exists s'. split; [exact E|]. split; [exact Hc|exact Hp].
Defined.
