(* ===== verification/Boot.v ===== *)
(** * The boot of the kernel: pages, objects, processes

    kern_init of kern/init/init.c brings up the page allocator, the slab
    allocator over it and the first processes over both.  This file puts the
    components together: the processes of [Proc] allocate with the functions
    of [Slab], which take their pages from [Buddy]. *)
From stdpp Require Import base gmap list fin_maps.
From Stdlib Require Import ZArith Lia.
From S2P Require Import Prelude DList Bits Printfmt Mmu Buddy BuddyInv BuddyProps BuddyInit BuddySpec Alloc.
From S2P Require Import Proc ProcPid ProcProps ProcSpec ProcMain ProcThms.
From S2P Require Import PmmRefs SlabPages Slab SlabInv SlabProps SlabMain SlabThms.

(** ** buddy_init and buddy_init_memmap keep npage *)
Class KeepsNpage {B} (m : M pmm B) : Prop :=
  keeps_npage : ∀ s r s', m s = Ret (r, s') → npage s' = npage s.

Section KeepsNpage.
#[local] Instance np_bind {B C} (m : M pmm B) (k : B → M pmm C) :
  KeepsNpage m → (∀ b, KeepsNpage (k b)) → KeepsNpage (m ≫= k).
Proof.
  intros Hm Hk s r s' E. apply bind_inv in E as (b & s1 & E1 & E2). rewrite (Hk b _ _ _ E2). by eapply Hm.
Qed.
#[local] Instance np_ret {B} (b : B) : KeepsNpage (mret b).
Proof. intros s r s' E. by injection E as <- <-. Qed.
#[local] Instance np_skip : KeepsNpage skip.
Proof. apply np_ret. Qed.
#[local] Instance np_fuel {B} : KeepsNpage (@out_of_fuel pmm B).
Proof. by intros s r s' E. Qed.
#[local] Instance np_assert b : KeepsNpage (assert b).
Proof. destruct b; [apply _|by intros s r s' E]. Qed.
#[local] Instance np_if {B} (b : bool) (m1 m2 : M pmm B) :
  KeepsNpage m1 → KeepsNpage m2 → KeepsNpage (if b then m1 else m2).
Proof. by destruct b. Qed.
#[local] Instance np_gets {B} (f : pmm → B) : KeepsNpage (gets f).
Proof. intros s r s' E. by injection E as <- <-. Qed.
#[local] Instance np_get_page p : KeepsNpage (get_page p).
Proof. intros s r s' E. unfold get_page in E. case_match; by simplify_eq. Qed.
#[local] Instance np_set_page p f : KeepsNpage (set_page p f).
Proof. intros s r s' E. unfold set_page in E. case_match; by simplify_eq. Qed.
#[local] Instance np_get_nr_free o : KeepsNpage (get_nr_free o).
Proof. intros s r s' E. unfold get_nr_free in E. case_match; by simplify_eq. Qed.
#[local] Instance np_set_nr_free o n : KeepsNpage (set_nr_free o n).
Proof. intros s r s' E. by injection E as <- <-. Qed.
#[local] Instance np_links {B} (m : M (gmap addr (list_entry addr)) B) : KeepsNpage (zoom links_lens m).
Proof. intros s r s' E. unfold zoom in E. case_match; simplify_eq. by case_match; simplify_eq. Qed.
#[local] Instance np_init_loop n i : KeepsNpage (buddy_init_loop n i).
Proof. revert i. induction n; intros; cbn [buddy_init_loop]; apply _. Qed.
#[local] Instance np_init_pages n p z : KeepsNpage (init_pages n p z).
Proof. revert p. induction n; intros; cbn [init_pages]; apply _. Qed.
#[local] Instance np_fill_order fuel o z n p : KeepsNpage (fill_order fuel o z n p).
Proof. revert n p. induction fuel; intros; cbn [fill_order]; apply _. Qed.
#[local] Instance np_pair {B C D} (x : B * C) (m : B → C → M pmm D) :
  (∀ b c, KeepsNpage (m b c)) → KeepsNpage (let '(b, c) := x in m b c).
Proof. by destruct x. Qed.
#[local] Instance np_fill fuel o z n p : KeepsNpage (fill fuel o z n p).
Proof. revert o z n p. induction fuel; intros; cbn [fill]; apply _. Qed.
#[local] Instance np_memmap fuel p n : KeepsNpage (buddy_init_memmap fuel p n).
Proof.
  unfold buddy_init_memmap. apply np_bind; [apply _|]. intros zc. repeat (apply np_bind; [apply _|]; intros _).
  apply np_bind; [|apply _]. intros s r s' E. by injection E as <- <-.
Qed.
#[local] Instance np_memmaps fuel rs : KeepsNpage (memmaps fuel rs).
Proof. induction rs as [|[i n] rs IH]; cbn [memmaps]; apply _. Qed.

Lemma buddy_boot_npage fuel rs : KeepsNpage (buddy_boot fuel rs).
Proof. unfold buddy_boot, buddy_init. apply _. Qed.
End KeepsNpage.

Lemma buddy_boot_held fuel rs s :
  raw s → (length rs ≤ 10)%nat → Forall (region_ok s fuel) rs → NoDup (hand_pages rs) →
  ∃ s', buddy_boot fuel rs s = Ret ((), s') ∧ buddy_held (npage s) s' [].
Proof.
  intros Hr Hlen Hok Hnd. destruct (buddy_boot_spec fuel rs s Hr Hlen Hok Hnd) as (s' & B & L & E & I & _).
  exists s'. split; [done|]. split; [by eapply buddy_boot_npage|]. exists L.
  split; [by exists B|done|]. by eapply NoDup_free_list.
Qed.

(** ** The machine *)
Abbreviation machine := (kmem pmm).
Definition k_kmalloc (np n : Z) : M machine Z :=
  kmalloc buddy_alloc_pages buddy_free_pages np buddy_SetPageSlab 3 n.
Definition k_kfree (np p : Z) : M machine unit :=
  kfree buddy_free_pages np buddy_PageSlab buddy_ClearPageSlab 2 p.
Definition k_alloc_pages (n : Z) : M machine (option Z) := on_spages (buddy_alloc_pages n).
Definition k_free_pages (i n : Z) : M machine unit := on_spages (buddy_free_pages i n).
Definition k_mem (np : Z) : machine → gset Z → list (Z * Z) → Prop :=
  slab_mem (np := np) (held := buddy_held np) (slab := slab_flag).

#[export] Instance k_kernel_alloc np : KernelAlloc (k_kmalloc np) (k_kfree np) k_alloc_pages k_free_pages np (k_mem np).
Proof. exact slab_kernel_alloc. Qed.

(** The parts of kern_init that set up memory and processes: the page
    allocator with the regions page_init found, slab_init, proc_init. *)
Definition kern_init (np boot_pgdir_p bootstack forkret kernel_thread_entry : Z) (turns fuel : nat)
    (regions : list (Z * Z)) (idle_name init_name : list Z) (init_main hello : Z) : M (kernel machine) unit :=
  zoom alloc_lens (on_spages (buddy_boot fuel regions));;
  zoom alloc_lens slab_init;;
  proc_init (k_kmalloc np) (k_kfree np) k_alloc_pages k_free_pages np boot_pgdir_p bootstack forkret
    kernel_thread_entry turns fuel idle_name init_name init_main hello.

(** Memory as the boot loader leaves it: the static data of the components is
    zero and every page is reserved. *)
Record power_on (np : Z) (fuel : nat) (regions : list (Z * Z)) (k : kernel machine) : Prop := {
  po_procs : unbooted k;
  po_caches : caches_upto 0 (slab_cache (alloc k));
  po_heads : heads_in_memory (slinks (alloc k));
  po_raw : raw (spages (alloc k));
  po_npage : npage (spages (alloc k)) = np;
  po_limit : np ≤ KMEMSIZE / PGSIZE;
  po_regions : (length regions ≤ 10)%nat ∧ Forall (region_ok (spages (alloc k)) fuel) regions ∧ NoDup (hand_pages regions) }.

Lemma unbooted_alloc k (a : machine) : unbooted k → unbooted (set_alloc a k).
Proof. intros [H1 H2 H3 H4 H5 H6]. by split. Qed.

(** The memory proc_init asks of the allocators: two process structures and a
    kernel stack. *)
Definition k_requests (np : Z) : M machine bool := boot_requests (k_kmalloc np) k_alloc_pages.

(** buddy_alloc_pages that finds no block changes nothing. *)
Lemma buddy_none np a R n a' : buddy_held np a R → 0 < n ≤ 2 ^ 10 → buddy_alloc_pages n a = Ret (None, a') → a' = a.
Proof.
  intros [_ [L [[B HB] _ _]]] Hn E.
  destruct (alloc_pages_spec a B L n HB Hn) as [[E' _]|(i & z & b & s' & B' & L' & E' & _)]; rewrite E' in E; by injection E.
Qed.
Lemma k_mem_held np a O R : k_mem np a O R → ∃ R', buddy_held np (spages a) R'.
Proof. intros (_ & G & L & Hl & _). eexists. apply (ki_held _ _ _ (lv_inv _ _ _ _ Hl)). Qed.

(** [a] has no pages for a slab of small objects or for a kernel stack. *)
Definition out_of_pages (a : machine) : Prop :=
  ∃ n, n ∈ [1; KSTACKPAGE] ∧ buddy_alloc_pages n (spages a) = Ret (None, spages a).

Lemma k_kmalloc_null np a a' O R :
  k_mem np a O R → k_kmalloc np sizeof_proc_struct a = Ret (NULL, a') → out_of_pages a'.
Proof.
  intros Hm E. destruct (k_mem_held _ _ _ _ Hm) as [R' Hh]. destruct Hm as (HC & G & L & Hl & _).
  pose proof (kmalloc_null (HS := buddy_slab_pages np) sizeof_proc_struct a a' G L R Hl HC ltac:(done) E) as Ep.
  exists 1. split; [by left|]. pose proof (buddy_none np (spages a) R' 1 (spages a') Hh ltac:(lia) Ep) as Es. by rewrite Es in Ep |- *.
Qed.

Lemma k_requests_refused np a a' O R :
  k_mem np a O R → k_requests np a = Ret (false, a') → out_of_pages a'.
Proof.
  intros Hm E. unfold k_requests, boot_requests in E. apply bind_inv in E as (p & a1 & E1 & E).
  case_bool_decide as Hp. { injection E as <-. subst p. by eapply k_kmalloc_null. }
  destruct (oa_kmalloc (ObjectAllocator := ka_objects R) a O sizeof_proc_struct Hm ltac:(done))
    as (p' & a1' & E1' & [[-> _]|(_ & _ & Hm1)]); rewrite E1 in E1'; injection E1' as -> <-; [done|].
  unfold fork_requests in E. apply bind_inv in E as (q & a2 & E2 & E).
  case_bool_decide as Hq. { injection E as <-. subst q. by eapply k_kmalloc_null. }
  destruct (oa_kmalloc (ObjectAllocator := ka_objects R) a1 _ sizeof_proc_struct Hm1 ltac:(done))
    as (q' & a2' & E2' & [[-> _]|(_ & _ & Hm2)]); rewrite E2 in E2'; injection E2' as -> <-; [done|].
  apply bind_inv in E as (pg & a3 & E3 & E). unfold mret, M_ret in E. injection E as Hpg <-.
  apply bool_decide_eq_false in Hpg. destruct pg; [by destruct Hpg|].
  exists KSTACKPAGE. split; [by right; left|]. destruct (k_mem_held _ _ _ _ Hm2) as [R' Hh].
  unfold k_alloc_pages, on_spages, zoom in E3.
  destruct (buddy_alloc_pages KSTACKPAGE (view spages_lens a2)) as [[r s']| | |] eqn:Eb; try done. injection E3 as -> <-.
  simpl in Eb |- *. pose proof (buddy_none np (spages a2) R' KSTACKPAGE s' Hh ltac:(done) Eb) as Es. by rewrite Es in Eb |- *.
Qed.

Lemma kern_init_ok np fuel regions k bp bs fr kt turns nm1 nm2 im he :
  power_on np fuel regions k → (15 ≤ length nm1)%nat → (15 ≤ length nm2)%nat → (1 < fuel)%nat → (0 < turns)%nat →
  let init := kern_init np bp bs fr kt turns fuel regions nm1 nm2 im he in
  ∃ a1 a2 b a3, on_spages (buddy_boot fuel regions) (alloc k) = Ret ((), a1) ∧ slab_init a1 = Ret ((), a2) ∧
    k_requests np a2 = Ret (b, a3) ∧
    if (b : bool) then
      ∃ k' p, init k = Ret ((), k') ∧ kinv (k_mem np) k' [p] ∧ initproc k' = p ∧ pidof k' p = 1 ∧
        runnable k' p = true ∧ current k' = idleproc k' ∧ pidof k' (idleproc k') = 0
    else init k = Panic ∧ out_of_pages a3.
Proof.
  intros [H1 H2 H3 H4 H5 H6 (H7 & H8 & H9)] N1 N2 Hf Ht init.
  destruct (buddy_boot_held fuel regions _ H4 H7 H8 H9) as (s1 & E1 & Hh). rewrite H5 in Hh.
  set (a1 := over spages_lens s1 (alloc k)). unfold init, kern_init.
  assert (E1' : on_spages (buddy_boot fuel regions) (alloc k) = Ret ((), a1)) by by apply (zoom_Ret spages_lens).
  rewrite (bind_Ret _ _ _ _ _ (zoom_Ret alloc_lens _ k _ _ E1')).
  destruct (slab_init_ok (HS := buddy_slab_pages np) a1 []) as (a2 & E2 & _ & _ & HC & Hl); [by split|].
  rewrite (bind_Ret _ _ _ _ _ (zoom_Ret alloc_lens slab_init (over alloc_lens a1 k) _ _ E2)).
  assert (Hm : k_mem np a2 ∅ []) by (split; [done|]; exists ∅, ∅; split; [exact Hl|by rewrite dom_empty_L]).
  destruct (proc_init_cases (k_kmalloc np) (k_kfree np) k_alloc_pages k_free_pages np (k_mem np) bp bs fr kt
    turns fuel nm1 nm2 im he (over alloc_lens a2 (over alloc_lens a1 k)) ∅ []) as (b & a3 & Eq & Hb); try done.
  { by do 2 apply unbooted_alloc. }
  exists a1, a2, b, a3. split_and!; try done. destruct b; [exact Hb|].
  split; [exact Hb|]. by eapply k_requests_refused.
Qed.

(** ** A machine with 70 pages *)
Definition ex_power_on : kernel machine :=
  MkKernel machine ∅ (plinks ex_kernel) 0 0 0 0 MAX_PID MAX_PID ∅ (MkCpu zero_context 0 0 true) (static_kmem (blank 70)).
Definition ex_regions : list (Z * Z) := [(3, 40); (50, 20)].
Lemma ex_powered : power_on 70 100 ex_regions ex_power_on.
Proof.
  split.
  - destruct ex_unbooted as [H1 H2 H3 H4 H5 H6]. by split.
  - apply static_caches.
  - apply static_heads.
  - apply blank_raw.
  - reflexivity.
  - vm_compute. discriminate.
  - split; [simpl; lia|]. split; [apply regions_ok|apply regions_nodup].
Qed.

(** ** Properties *)

(** C6. From memory as the boot loader leaves it, setting up the page allocator
    and the slab allocator returns.  proc_init then asks them for two process
    structures and a kernel stack.  If it gets them, the boot returns with the
    idle process and initproc in place, and every sequence of do_fork and
    schedule calls after it returns without a failed assertion or a bad access,
    with every allocation served by kmalloc over the buddy allocator, and keeps
    the process table and both allocators consistent.  The boot panics exactly
    when it does not get them, and then the buddy allocator has no free block
    for a page or for a kernel stack. *)
Theorem kernel_boot_correct np fuel regions k bp bs fr kt turns nm1 nm2 im he ops :
  power_on np fuel regions k → (15 ≤ length nm1)%nat → (15 ≤ length nm2)%nat →
  (length ops + 2 < fuel)%nat → (length ops + 1 < turns)%nat →
  let init := kern_init np bp bs fr kt turns fuel regions nm1 nm2 im he in
  ∃ a1 a2 b a3, on_spages (buddy_boot fuel regions) (alloc k) = Ret ((), a1) ∧ slab_init a1 = Ret ((), a2) ∧
    k_requests np a2 = Ret (b, a3) ∧
    if (b : bool) then
      ∃ k0 p rs k' ys, init k = Ret ((), k0) ∧ pidof k0 p = 1 ∧ initproc k0 = p ∧ pidof k0 (idleproc k0) = 0 ∧
        run_kernel_ops (k_kmalloc np) (k_kfree np) k_alloc_pages k_free_pages np bp fr turns fuel ops k0 = Ret (rs, k') ∧
        kinv (k_mem np) k' (ys ++ [p]) ∧ pidof k' p = 1 ∧ (∀ q, q ∈ ys → pidof k' q ∈ rs)
    else init k = Panic ∧
      ∃ n, n ∈ [1; KSTACKPAGE] ∧ buddy_alloc_pages n (spages a3) = Ret (None, spages a3).
Proof.
  intros Hp N1 N2 Hf Ht init.
  destruct (kern_init_ok np fuel regions k bp bs fr kt turns nm1 nm2 im he Hp N1 N2) as (a1 & a2 & b & a3 & E1 & E2 & E3 & Hb); [lia|lia|].
  exists a1, a2, b, a3. split_and!; [done..|]. destruct b; [|exact Hb].
  destruct Hb as (k0 & p & E & K & Hi & Hp1 & _ & _ & Hi0).
  destruct (run_kernel_ops_spec (k_kmalloc np) (k_kfree np) k_alloc_pages k_free_pages np (k_mem np) bp fr turns fuel ops k0 [p])
    as (rs & k' & ys & E' & K' & Hx & Hy); [done|apply (po_limit _ _ _ _ Hp)|simpl; lia|simpl; lia|].
  exists k0, p, rs, k', ys. split_and!; try done. rewrite Hx; [done|by left].
Qed.

Definition ex_boot : M (kernel machine) unit :=
  kern_init 70 0x100000 0xC0110000 0xC0101000 0xC0101100 10 100 ex_regions (replicate 20 65) (replicate 20 66) 0xC0102000 0xC0103000.
Definition ex_ops : list kernel_op := [OpFork 0 0 ex_tf; OpSchedule; OpFork 0 0 ex_tf; OpSchedule].
(** This machine has memory enough: its boot does not panic. *)
Example ex_boot_runs : match ex_boot ex_power_on with Ret _ => True | _ => False end.
Proof. vm_compute. exact I. Qed.
Lemma kernel_boot_correct_witness :
  ∃ k0 p rs k' ys, ex_boot ex_power_on = Ret ((), k0) ∧ pidof k0 p = 1 ∧ initproc k0 = p ∧ pidof k0 (idleproc k0) = 0 ∧
    run_kernel_ops (k_kmalloc 70) (k_kfree 70) k_alloc_pages k_free_pages 70 0x100000 0xC0101000 10 100 ex_ops k0 = Ret (rs, k') ∧
    kinv (k_mem 70) k' (ys ++ [p]) ∧ pidof k' p = 1 ∧ (∀ q, q ∈ ys → pidof k' q ∈ rs).
Proof.
  destruct (kernel_boot_correct 70 100 ex_regions ex_power_on 0x100000 0xC0110000 0xC0101000 0xC0101100 10
    (replicate 20 65) (replicate 20 66) 0xC0102000 0xC0103000 ex_ops) as (a1 & a2 & b & a3 & _ & _ & _ & Hb);
    [apply ex_powered|simpl; lia..|].
  destruct b; [exact Hb|]. exfalso. destruct Hb as [E _]. pose proof ex_boot_runs as H.
  unfold ex_boot in H. rewrite E in H. exact H.
Defined.
