(* ===== verification/Loader.v ===== *)
(** * The boot loaders and the boot sector tool

    include/elf.h, arch/x86/generic/boot/bootmain.c, insl of x86.h,
    arch/arm/s3c2410/boot/bootmain.c and arch/x86/tool/sign.c.  Memory is a map
    from physical addresses to bytes; a struct in memory is the record of its
    fields read at its address, little endian.  The disk controller behind the
    ports is a parameter. *)
From stdpp Require Import base gmap list fin_maps strings.
From Stdlib Require Import ZArith Lia.
From S2P Require Import Prelude Bits CString.

(** ** elf.h *)
Definition byte (m : gmap Z Z) (a : Z) : Z := default 0 (m !! u32 a).
Definition le16 (rd : Z → Z) (a : Z) : Z := rd a + 256 * rd (a + 1).
Definition le32 (rd : Z → Z) (a : Z) : Z := le16 rd a + 65536 * le16 rd (a + 2).
Definition bytes_at (rd : Z → Z) (a n : Z) : list Z := (λ i, rd (a + i)) <$> seqZ 0 n.

Definition ELF_MAGIC : Z := 0x464C457F.
Record elfhdr : Type := MkElf {
  e_magic : Z; e_elf : list Z; e_type : Z; e_machine : Z; e_version : Z; e_entry : Z; e_phoff : Z; e_shoff : Z; e_flags : Z;
  e_ehsize : Z; e_phentsize : Z; e_phnum : Z; e_shentsize : Z; e_shnum : Z; e_shstrndx : Z }.
Definition elfhdr_at (rd : Z → Z) (a : Z) : elfhdr :=
  MkElf (le32 rd a) (bytes_at rd (a + 4) 12) (le16 rd (a + 16)) (le16 rd (a + 18)) (le32 rd (a + 20)) (le32 rd (a + 24)) (le32 rd (a + 28))
    (le32 rd (a + 32)) (le32 rd (a + 36)) (le16 rd (a + 40)) (le16 rd (a + 42)) (le16 rd (a + 44)) (le16 rd (a + 46))
    (le16 rd (a + 48)) (le16 rd (a + 50)).
Record proghdr : Type := MkProg {
  p_type : Z; p_offset : Z; p_va : Z; p_pa : Z; p_filesz : Z; p_memsz : Z; p_flags : Z; p_align : Z }.
Definition proghdr_at (rd : Z → Z) (a : Z) : proghdr :=
  MkProg (le32 rd a) (le32 rd (a + 4)) (le32 rd (a + 8)) (le32 rd (a + 12)) (le32 rd (a + 16)) (le32 rd (a + 20))
    (le32 rd (a + 24)) (le32 rd (a + 28)).
Definition sizeof_proghdr : Z := 32.

Fixpoint put_bytes (l : list Z) (a : Z) (m : gmap Z Z) : gmap Z Z :=
  match l with [] => m | b :: l => put_bytes l (a + 1) (<[u32 a := b]> m) end.
Definition le32_bytes (w : Z) : list Z :=
  [w mod 256; (w / 256) mod 256; (w / 65536) mod 256; (w / 16777216) mod 256].

(** ** The loop of bootmain over the program headers

    for (; ph < eph; ph ++) readseg(target(ph->p_va), ph->p_memsz, ph->p_offset);
    every header is read from memory when its turn comes. *)
Section Segments.
Context {S : Type} (mem : S → gmap Z Z) (readseg : Z → Z → Z → M S unit) (target : Z → Z).
Fixpoint load_segments (fuel : nat) (ph eph : Z) : M S unit :=
  match fuel with
  | O => out_of_fuel
  | Datatypes.S fuel =>
    if bool_decide (ph < eph) then
      h ← gets (λ s, proghdr_at (byte (mem s)) ph);
      readseg (target (p_va h)) (p_memsz h) (p_offset h);;
      load_segments fuel (u32 (ph + sizeof_proghdr)) eph
    else skip
  end.
End Segments.

(** How bootmain ends: in the kernel, or in an endless loop. *)
Inductive boot_end : Type := Enter (entry : Z) | Hang.

(** ** arch/x86/generic/boot/bootmain.c *)
Module IdeBoot.
Section Model.
Context {D : Type} (in_b : Z → M D Z) (out_b : Z → Z → M D unit) (out_w : Z → Z → M D unit) (in_l : Z → M D Z).
Record loader : Type := MkLoader { lmem : gmap Z Z; ldev : D }.
Definition dev_lens : lens loader D := Lens ldev (λ d s, MkLoader (lmem s) d).

Definition SECTSIZE : Z := 512.
Definition ELFHDR : Z := 0x10000.

Definition inb (port : Z) : M loader Z := zoom dev_lens (in_b port).
Definition outb (port data : Z) : M loader unit := zoom dev_lens (out_b port (u8 data)).
Definition outw (port data : Z) : M loader unit := zoom dev_lens (out_w port (u16 data)).
(** cld; rep insl *)
Fixpoint insl (port addr : Z) (cnt : nat) : M loader unit :=
  match cnt with
  | O => skip
  | S cnt =>
    w ← zoom dev_lens (in_l port);
    modify (λ s, MkLoader (put_bytes (le32_bytes w) addr (lmem s)) (ldev s));;
    insl port (u32 (addr + 4)) cnt
  end.

Fixpoint waitdisk (fuel : nat) : M loader unit :=
  match fuel with
  | O => out_of_fuel
  | S fuel => x ← inb 0x1F7; if bool_decide (Z.land x 0xC0 ≠ 0x40) then waitdisk fuel else skip
  end.

Definition readsect (fuel : nat) (dst secno : Z) : M loader unit :=
  waitdisk fuel;;
  outb 0x1F2 1;;
  outb 0x1F3 (Z.land secno 0xFF);;
  outb 0x1F4 (Z.land (Z.shiftr secno 8) 0xFF);;
  outb 0x1F5 (Z.land (Z.shiftr secno 16) 0xFF);;
  outb 0x1F6 (Z.lor (Z.land (Z.shiftr secno 24) 0xF) 0xE0);;
  outb 0x1F7 0x20;;
  waitdisk fuel;;
  insl 0x1F0 dst (Z.to_nat (SECTSIZE / 4)).

(** for (; va < end_va; va += SECTSIZE, secno ++) *)
Fixpoint readseg_loop (fuel wfuel : nat) (va end_va secno : Z) : M loader unit :=
  match fuel with
  | O => out_of_fuel
  | S fuel =>
    if bool_decide (va < end_va) then
      readsect wfuel va secno;;
      readseg_loop fuel wfuel (u32 (va + SECTSIZE)) end_va (u32 (secno + 1))
    else skip
  end.
Definition readseg (fuel wfuel : nat) (va count offset : Z) : M loader unit :=
  let end_va := u32 (va + count) in
  let va := u32 (va - offset mod SECTSIZE) in
  let secno := u32 (offset / SECTSIZE + 1) in
  readseg_loop fuel wfuel va end_va secno.

Definition bootmain (fuel wfuel : nat) : M loader boot_end :=
  readseg fuel wfuel ELFHDR (SECTSIZE * 8) 0;;
  eh ← gets (λ s, elfhdr_at (byte (lmem s)) ELFHDR);
  if bool_decide (e_magic eh ≠ ELF_MAGIC) then
    outw 0x8A00 0x8A00;; outw 0x8A00 0x8E00;; mret Hang
  else
    let ph := u32 (ELFHDR + e_phoff eh) in
    let eph := u32 (ph + sizeof_proghdr * e_phnum eh) in
    load_segments lmem (readseg fuel wfuel) (λ va, Z.land va 0xFFFFFF) fuel ph eph;;
    eh ← gets (λ s, elfhdr_at (byte (lmem s)) ELFHDR);
    mret (Enter (Z.land (e_entry eh) 0xFFFFFF)).
End Model.
End IdeBoot.

(** ** arch/arm/s3c2410/boot/bootmain.c *)
Module ArmBoot.
(** [uart]: the characters written to UFCON0, the last one first. *)
Record loader : Type := MkLoader { lmem : gmap Z Z; uart : list Z }.
Definition INTIAL_LOAD_ADDRESS : Z := 0x30000000.
Definition ELFHDR : Z := INTIAL_LOAD_ADDRESS + 0x10000.
Definition loading : list Z := codes "ucore bootloader" ++ [10].
Definition calling : list Z := codes "Calling into kernel..." ++ [10].
Definition bad : list Z := codes "Bad Kernel, cannot be loaded." ++ [10].

Definition uart_putc (c : Z) : M loader unit := modify (λ s, MkLoader (lmem s) (c :: uart s)).
Fixpoint uart_puts (p : list Z) : M loader unit :=
  match p with [] => skip | c :: p => uart_putc c;; uart_puts p end.

(** while (n -- > 0) *d ++ = *s ++; *)
Fixpoint memcpy_loop (n : nat) (d s : Z) (m : gmap Z Z) : gmap Z Z :=
  match n with O => m | S n => memcpy_loop n (d + 1) (s + 1) (<[u32 d := byte m s]> m) end.
Definition memcpy (dst src n : Z) : M loader unit :=
  modify (λ s, MkLoader (memcpy_loop (Z.to_nat n) dst src (lmem s)) (uart s)).
Definition readseg (va count offset : Z) : M loader unit := memcpy va (u32 (ELFHDR + offset)) count.

(** The call of the entry point does not return. *)
Definition bootmain (fuel : nat) : M loader boot_end :=
  uart_puts loading;;
  eh ← gets (λ s, elfhdr_at (byte (lmem s)) ELFHDR);
  if bool_decide (e_magic eh ≠ ELF_MAGIC) then uart_puts bad;; mret Hang
  else
    let ph := u32 (ELFHDR + e_phoff eh) in
    let eph := u32 (ph + sizeof_proghdr * e_phnum eh) in
    load_segments lmem readseg (λ va, va) fuel ph eph;;
    uart_puts calling;;
    eh ← gets (λ s, elfhdr_at (byte (lmem s)) ELFHDR);
    mret (Enter (e_entry eh)).
End ArmBoot.

(** ** arch/x86/tool/sign.c *)
Module Sign.
(** The files of the host by name; [readable]: fopen of the file for reading
    succeeds; [room]: how many bytes a new file of the name can take, None when
    it cannot be opened. *)
Record host : Type := MkHost {
  files : gmap (list Z) (list Z); readable : list Z → bool; room : list Z → option nat }.
Definition set_file (f : list Z) (l : list Z) (h : host) : host :=
  MkHost (<[f := l]> (files h)) (readable h) (room h).
Definition zeros (n : nat) : list Z := replicate n 0.
(** buf, after memset, fread and the two stores of the signature. *)
Definition boot_sector (l : list Z) : list Z :=
  <[511%nat := 0xAA]> (<[510%nat := 0x55]> (l ++ zeros (512 - length l))).

(** The exit status; [argv] without the program name.  A stream that could not
    be opened is NULL, and fread and fwrite on it are a fault. *)
Definition main (argv : list (list Z)) : M host Z :=
  match argv with
  | [inp; out] =>
    h ← get;
    match files h !! inp with
    | None => mret (-1)
    | Some l =>
      if bool_decide (510 < length l)%nat then mret (-1)
      else if negb (readable h inp) then fault
      else
        match room h out with
        | None => fault
        | Some r =>
          let size := Nat.min 512 r in
          modify (set_file out (take size (boot_sector l)));;
          if bool_decide (size ≠ 512%nat) then mret (-1) else mret 0
        end
    end
  | _ => mret (-1)
  end.
End Sign.
