(* ===== verification/LoaderThms.v ===== *)
(** * The boot loaders put the kernel where its program headers say

    First the loop over the program headers for any way to read a segment, with
    what the loop needs of it as a class; then the disk of the PC behind its
    ports as a class, with the sectors and segments read from it; then the two
    loaders and the boot sector. *)
From stdpp Require Import base gmap list fin_maps strings.
From Stdlib Require Import ZArith Lia.
From S2P Require Import Prelude Bits CString Loader.

(** ** Bytes in memory *)
Lemma byte_insert m a b x : is_u32 a → is_u32 x → byte (<[u32 a := b]> m) x = if decide (x = a) then b else byte m x.
Proof.
  intros Ha Hx. unfold byte. rewrite !u32_small by done. destruct (decide (x = a)) as [->|]; [by rewrite lookup_insert_eq|by rewrite lookup_insert_ne].
Qed.
Lemma byte_put_bytes l a m x : 0 ≤ a → a + Z.of_nat (length l) ≤ 2 ^ 32 → is_u32 x →
  byte (put_bytes l a m) x = if decide (a ≤ x < a + Z.of_nat (length l)) then l !!! Z.to_nat (x - a) else byte m x.
Proof.
  revert a m. induction l as [|b l IH]; intros a m Ha Hl Hx; simpl length in *; simpl put_bytes.
  - rewrite decide_False by lia. done.
  - rewrite IH by (done || lia). rewrite byte_insert by (unfold is_u32; lia || done).
    destruct (decide (x = a)) as [->|Hne].
    + rewrite decide_False, decide_True by lia. by replace (Z.to_nat (a - a)) with 0%nat by lia.
    + destruct (decide (a ≤ x < a + Z.of_nat (S (length l)))).
      * rewrite decide_True by lia. by replace (Z.to_nat (x - a)) with (S (Z.to_nat (x - (a + 1)))) by lia.
      * by rewrite decide_False by lia.
Qed.
Lemma le16_range rd a : (∀ x, 0 ≤ rd x < 256) → 0 ≤ le16 rd a < 65536.
Proof. intros H. unfold le16. pose proof (H a). pose proof (H (a + 1)). lia. Qed.
Lemma le32_range rd a : (∀ x, 0 ≤ rd x < 256) → is_u32 (le32 rd a).
Proof. intros H. unfold le32, le16, is_u32. pose proof (H a). pose proof (H (a + 1)). pose proof (H (a + 2)). pose proof (H (a + 2 + 1)). lia. Qed.
Lemma le32_bytes_le32 rd a : (∀ x, 0 ≤ rd x < 256) → le32_bytes (le32 rd a) = [rd a; rd (a + 1); rd (a + 2); rd (a + 3)].
Proof.
  intros H. unfold le32_bytes, le32, le16. pose proof (H a). pose proof (H (a + 1)). pose proof (H (a + 2)). pose proof (H (a + 3)).
  replace (a + 2 + 1) with (a + 3) by lia. repeat f_equal; Z.to_euclidean_division_equations; lia.
Qed.
Lemma le16_ext rd rd' a b : rd a = rd' b → rd (a + 1) = rd' (b + 1) → le16 rd a = le16 rd' b.
Proof. unfold le16. by intros -> ->. Qed.

(** A struct only depends on the bytes it lies on. *)
Definition agree (rd rd' : Z → Z) (a b n : Z) : Prop := ∀ k, 0 ≤ k < n → rd (a + k) = rd' (b + k).
Lemma le16_agree rd rd' a b n k : agree rd rd' a b n → 0 ≤ k → k + 2 ≤ n → le16 rd (a + k) = le16 rd' (b + k).
Proof. intros H Hk Hn. unfold le16. rewrite <-!Z.add_assoc, !H by lia. done. Qed.
Lemma le32_agree rd rd' a b n k : agree rd rd' a b n → 0 ≤ k → k + 4 ≤ n → le32 rd (a + k) = le32 rd' (b + k).
Proof. intros H Hk Hn. unfold le32. rewrite <-!Z.add_assoc, !(le16_agree rd rd' a b n) by (done || lia). done. Qed.
Lemma bytes_agree rd rd' a b n k m : agree rd rd' a b n → 0 ≤ k → k + m ≤ n → bytes_at rd (a + k) m = bytes_at rd' (b + k) m.
Proof.
  intros H Hk Hn. unfold bytes_at. apply list_fmap_ext. intros j i Hi%list_elem_of_lookup_2%elem_of_seqZ.
  rewrite <-!Z.add_assoc. apply H. lia.
Qed.
Lemma proghdr_agree rd rd' a b : agree rd rd' a b 32 → proghdr_at rd a = proghdr_at rd' b.
Proof.
  intros H. unfold proghdr_at. rewrite !(le32_agree rd rd' a b 32 _ H) by lia. f_equal.
  rewrite <-(Z.add_0_r a), <-(Z.add_0_r b). by apply (le32_agree rd rd' a b 32).
Qed.
Lemma elfhdr_agree rd rd' a b : agree rd rd' a b 52 → elfhdr_at rd a = elfhdr_at rd' b.
Proof.
  intros H. unfold elfhdr_at. rewrite !(le32_agree rd rd' a b 52 _ H), !(le16_agree rd rd' a b 52 _ H), (bytes_agree rd rd' a b 52 4 12 H) by lia. f_equal.
  rewrite <-(Z.add_0_r a), <-(Z.add_0_r b). by apply (le32_agree rd rd' a b 52).
Qed.

(** ** The program headers of an image *)
Record seg : Type := Seg { sg_dst : Z; sg_len : Z; sg_off : Z }.
Definition seg_of (target : Z → Z) (h : proghdr) : seg := Seg (target (p_va h)) (p_memsz h) (p_offset h).
Fixpoint headers (file : Z → Z) (off : Z) (n : nat) : list proghdr :=
  match n with O => [] | S n => proghdr_at file off :: headers file (off + sizeof_proghdr) n end.
Definition segments (target : Z → Z) (file : Z → Z) : list seg :=
  let eh := elfhdr_at file 0 in seg_of target <$> headers file (e_phoff eh) (Z.to_nat (e_phnum eh)).
(** The bytes of the segment are where its header says. *)
Definition placed (file : Z → Z) (m : gmap Z Z) (g : seg) : Prop :=
  ∀ k, 0 ≤ k < sg_len g → byte m (sg_dst g + k) = file (sg_off g + k).
(** A later segment is not written over an earlier one. *)
Fixpoint compatible (foot : seg → Z * Z) (gs : list seg) : Prop :=
  match gs with
  | [] => True
  | g :: gs => Forall (λ g', (foot g').2 ≤ sg_dst g ∨ sg_dst g + sg_len g ≤ (foot g').1) gs ∧ compatible foot gs
  end.
Definition outside (foot : seg → Z * Z) (gs : list seg) (x : Z) : Prop :=
  Forall (λ g, ¬ ((foot g).1 ≤ x < (foot g).2)) gs.

(** What the loop over the headers needs of readseg: the memory from [base] on
    keeps the first [hsize] bytes of the image, the segment arrives, and only
    its footprint is written. *)
Class SegmentReader {S} (mem : S → gmap Z Z) (readseg : Z → Z → Z → M S unit) (file : Z → Z) (base hsize : Z)
    (inv : S → Prop) (ok : seg → Prop) (foot : seg → Z * Z) : Prop := {
  sr_head s k : inv s → 0 ≤ k < hsize → byte (mem s) (base + k) = file k;
  sr_range g : ok g → 0 ≤ sg_dst g ∧ sg_dst g + sg_len g < 2 ^ 32;
  sr_read s g : inv s → ok g → ∃ s', readseg (sg_dst g) (sg_len g) (sg_off g) s = Ret ((), s') ∧ inv s' ∧
    placed file (mem s') g ∧ ∀ x, is_u32 x → ¬ ((foot g).1 ≤ x < (foot g).2) → byte (mem s') x = byte (mem s) x }.

Section Generic.
Context {S : Type} (mem : S → gmap Z Z) (readseg : Z → Z → Z → M S unit) (file : Z → Z) (base hsize : Z).
Context (inv : S → Prop) (ok : seg → Prop) (foot : seg → Z * Z) (target : Z → Z).
Context `{!SegmentReader mem readseg file base hsize inv ok foot}.

Lemma load_segments_ok n fuel off s : (n < fuel)%nat → 0 ≤ base → base + hsize < 2 ^ 32 → 0 ≤ off → off + 32 * Z.of_nat n ≤ hsize →
  let gs := seg_of target <$> headers file off n in
  Forall ok gs → compatible foot gs → inv s →
  ∃ s', load_segments mem readseg target fuel (base + off) (base + off + 32 * Z.of_nat n) s = Ret ((), s') ∧ inv s' ∧
    Forall (placed file (mem s')) gs ∧ ∀ x, is_u32 x → outside foot gs x → byte (mem s') x = byte (mem s) x.
Proof.
  intros Hf Hb Hbh. revert fuel off s Hf. induction n as [|n IH]; intros fuel off s Hf Ho Hh; (destruct fuel as [|fuel]; [lia|]); cbn -[Z.mul Z.add Z.of_nat].
  - intros _ _ Hi. rewrite bool_decide_false by lia. eexists. split; [reflexivity|]. split; [done|]. split; [constructor|done].
  - intros [Hg Hgs]%Forall_cons [Hc Hcs] Hi. rewrite bool_decide_true by lia. rewrite bind_gets.
    rewrite (proghdr_agree _ file (base + off) off).
    2:{ intros k Hk. rewrite <-Z.add_assoc. apply sr_head; [done|lia]. }
    destruct (sr_read s _ Hi Hg) as (s1 & E1 & Hi1 & Hp1 & Hk1). rewrite (bind_Ret _ _ _ _ _ E1).
    unfold sizeof_proghdr in *. rewrite u32_small by (unfold is_u32; lia).
    destruct (IH fuel (off + 32) s1 ltac:(lia) ltac:(lia) ltac:(lia) Hgs Hcs Hi1) as (s2 & E2 & Hi2 & Hp2 & Hk2).
    exists s2. split; [rewrite <-E2; f_equal; lia|]. split; [done|]. split.
    + constructor; [|done]. intros k Hk. rewrite <-(Hp1 k Hk). destruct (sr_range _ Hg). apply Hk2; [unfold is_u32; lia|].
      apply (Forall_impl _ _ _ Hc). intros g' Hg'. simpl in *. lia.
    + intros x Hx [Hx1 Hx2]%Forall_cons. rewrite Hk2 by done. by apply Hk1.
Qed.
End Generic.

(** ** The disk of the PC

    An ATA disk in programmed input and output: [wait] status reads until it is
    ready, [reg] what its registers hold, [xfer] the sector and the word the
    data port gives next. *)
Definition lba (r : Z → Z) : Z := r 0x1F3 + 256 * r 0x1F4 + 65536 * r 0x1F5 + 16777216 * (Z.land (r 0x1F6) 0xF).
Class IdeDisk {D} (in_b : Z → M D Z) (out_b out_w : Z → Z → M D unit) (in_l : Z → M D Z) (disk : Z → Z) (latency : nat)
    (wait : D → nat) (reg : D → Z → Z) (xfer : D → option (Z * Z)) : Prop := {
  ide_bytes a : 0 ≤ disk a < 256;
  ide_status d : ∃ v d', in_b 0x1F7 d = Ret (v, d') ∧ wait d' = Nat.pred (wait d) ∧ reg d' = reg d ∧ xfer d' = xfer d ∧
    (Z.land v 0xC0 = 0x40 ↔ wait d = 0%nat);
  ide_set d p v : wait d = 0%nat → xfer d = None → 0x1F2 ≤ p ≤ 0x1F6 → 0 ≤ v < 256 →
    ∃ d', out_b p v d = Ret ((), d') ∧ wait d' = 0%nat ∧ xfer d' = None ∧ reg d' p = v ∧ ∀ q, q ≠ p → reg d' q = reg d q;
  ide_command d : wait d = 0%nat → xfer d = None → reg d 0x1F2 = 1 → Z.land (reg d 0x1F6) 0xF0 = 0xE0 →
    ∃ d', out_b 0x1F7 0x20 d = Ret ((), d') ∧ (wait d' ≤ latency)%nat ∧ xfer d' = Some (lba (reg d), 0);
  ide_word d s i : wait d = 0%nat → xfer d = Some (s, i) → 0 ≤ i < 128 →
    ∃ d', in_l 0x1F0 d = Ret (le32 disk (512 * s + 4 * i), d') ∧
      if decide (i = 127) then (wait d' ≤ latency)%nat ∧ xfer d' = None else wait d' = 0%nat ∧ xfer d' = Some (s, i + 1);
  ide_other d v : ∃ d', out_w 0x8A00 v d = Ret ((), d') }.

Section Ide.
Import IdeBoot.
Context {D : Type} (in_b : Z → M D Z) (out_b out_w : Z → Z → M D unit) (in_l : Z → M D Z) (disk : Z → Z) (latency : nat).
Context (wait : D → nat) (reg : D → Z → Z) (xfer : D → option (Z * Z)).
Context `{!IdeDisk in_b out_b out_w in_l disk latency wait reg xfer}.
Abbreviation L := (loader (D := D)).
Definition idle (d : D) : Prop := (wait d ≤ latency)%nat ∧ xfer d = None.
(** The kernel starts at sector 1. *)
Definition image (o : Z) : Z := disk (512 + o).

Lemma dev_Ret {X} (m : M D X) (s : L) x d : m (ldev s) = Ret (x, d) → zoom dev_lens m s = Ret (x, MkLoader (lmem s) d).
Proof. intros E. exact (zoom_Ret dev_lens m s x d E). Qed.

Lemma waitdisk_ok fuel (s : L) : (wait (ldev s) < fuel)%nat →
  ∃ s', waitdisk in_b fuel s = Ret ((), s') ∧ lmem s' = lmem s ∧ wait (ldev s') = 0%nat ∧
    reg (ldev s') = reg (ldev s) ∧ xfer (ldev s') = xfer (ldev s).
Proof.
  revert s. induction fuel as [|fuel IH]; intros s Hw; [lia|]. simpl.
  destruct (ide_status (ldev s)) as (v & d' & E & Hw' & Hr & Hx & Hv).
  assert (E' : inb in_b 0x1F7 s = Ret (v, MkLoader (lmem s) d')) by (by apply dev_Ret).
  rewrite (bind_Ret _ _ _ _ _ E'). destruct (decide (wait (ldev s) = 0%nat)) as [H0|H0].
  - rewrite bool_decide_false by (rewrite <-Hv in H0; lia). eexists. split; [reflexivity|]. simpl. split_and!; [done|lia|done|done].
  - rewrite bool_decide_true by (rewrite <-Hv in H0; done).
    destruct (IH (MkLoader (lmem s) d')) as (s' & Es & H1 & H2 & H3 & H4); [simpl; lia|]. exists s'. simpl in *. split_and!; congruence.
Qed.

Lemma outb_ok p v (s : L) : 0x1F2 ≤ p ≤ 0x1F6 → 0 ≤ v < 256 → wait (ldev s) = 0%nat → xfer (ldev s) = None →
  ∃ s', outb out_b p v s = Ret ((), s') ∧ lmem s' = lmem s ∧ wait (ldev s') = 0%nat ∧ xfer (ldev s') = None ∧
    reg (ldev s') p = v ∧ ∀ q, q ≠ p → reg (ldev s') q = reg (ldev s) q.
Proof.
  intros Hp Hv Hw Hx. destruct (ide_set (ldev s) p v Hw Hx Hp Hv) as (d' & E & H). exists (MkLoader (lmem s) d').
  split; [|by split]. unfold outb, u8. rewrite (Z.mod_small v (2 ^ 8)) by lia. by apply dev_Ret.
Qed.

Lemma insl_ok n i addr (s : L) sec : wait (ldev s) = 0%nat → xfer (ldev s) = Some (sec, i) → 0 ≤ i → (0 < n)%nat → i + Z.of_nat n = 128 →
  0 ≤ addr → addr + 4 * Z.of_nat n < 2 ^ 32 →
  ∃ s', insl in_l 0x1F0 addr n s = Ret ((), s') ∧ idle (ldev s') ∧ ∀ x, is_u32 x → byte (lmem s') x =
    if decide (addr ≤ x < addr + 4 * Z.of_nat n) then disk (512 * sec + 4 * i + (x - addr)) else byte (lmem s) x.
Proof.
  revert i addr s. induction n as [|n IH]; intros i addr s Hw Hx Hi Hpos Hn Ha Hb; [lia|]. cbn -[Z.mul Z.add Z.of_nat put_bytes].
  destruct (ide_word (ldev s) sec i Hw Hx ltac:(lia)) as (d' & E & Hd).
  assert (E' : zoom dev_lens (in_l 0x1F0) s = Ret (le32 disk (512 * sec + 4 * i), MkLoader (lmem s) d')) by (by apply dev_Ret).
  rewrite (bind_Ret _ _ _ _ _ E'), bind_modify. rewrite le32_bytes_le32 by apply ide_bytes. rewrite u32_small by (unfold is_u32; lia).
  set (a := 512 * sec + 4 * i). set (l4 := [disk a; _; _; _]). set (s1 := MkLoader _ _).
  assert (H4 : ∀ x, is_u32 x → byte (lmem s1) x = if decide (addr ≤ x < addr + 4) then disk (a + (x - addr)) else byte (lmem s) x).
  { intros x Hux. change (lmem s1) with (put_bytes l4 addr (lmem s)). rewrite byte_put_bytes by (done || (simpl; lia)). simpl length.
    destruct (decide (addr ≤ x < addr + Z.of_nat 4)); [|by rewrite decide_False by lia]. rewrite decide_True by lia.
    assert (x - addr = 0 ∨ x - addr = 1 ∨ x - addr = 2 ∨ x - addr = 3) as [->|[->|[->| ->]]] by lia; [|done..]. by rewrite Z.add_0_r. }
  destruct n as [|n].
  - rewrite decide_True in Hd by lia. exists s1. split; [reflexivity|]. split; [exact Hd|]. exact H4.
  - rewrite decide_False in Hd by lia. destruct Hd as [Hw' Hx'].
    destruct (IH (i + 1) (addr + 4) s1 Hw' Hx') as (s' & Es & Hidle & Hs'); [lia..|]. exists s'. split; [exact Es|]. split; [exact Hidle|].
    intros x Hux. rewrite Hs', H4 by done. destruct (decide (addr + 4 ≤ x < _)), (decide (addr ≤ x < addr + 4 * _)), (decide (addr ≤ x < addr + 4));
      try lia; try done; f_equal; unfold a; lia.
Qed.

Lemma lba_bytes n : 0 ≤ n < 2 ^ 28 →
  Z.land n 0xFF + 256 * Z.land (Z.shiftr n 8) 0xFF + 65536 * Z.land (Z.shiftr n 16) 0xFF + 16777216 * Z.land (Z.lor (Z.land (Z.shiftr n 24) 0xF) 0xE0) 0xF = n ∧
  Z.land (Z.lor (Z.land (Z.shiftr n 24) 0xF) 0xE0) 0xF0 = 0xE0.
Proof.
  intros Hn. change 0xFF with (Z.ones 8). change 0xF with (Z.ones 4).
  rewrite Z.land_lor_distr_l. rewrite <-(Z.land_assoc _ (Z.ones 4) (Z.ones 4)). change (Z.land (Z.ones 4) (Z.ones 4)) with (Z.ones 4).
  change (Z.land 0xE0 (Z.ones 4)) with 0. rewrite Z.lor_0_r, !Z.land_ones, !Z.shiftr_div_pow2 by lia. split.
  - Z.to_euclidean_division_equations. lia.
  - rewrite Z.land_lor_distr_l. rewrite <-Z.land_ones by lia. rewrite <-Z.land_assoc. change (Z.land (Z.ones 4) 0xF0) with 0. by rewrite Z.land_0_r.
Qed.
Lemma land_byte x : 0 ≤ Z.land x 0xFF < 256.
Proof. change 0xFF with (Z.ones 8). rewrite Z.land_ones by lia. apply Z.mod_pos_bound. lia. Qed.
Lemma drive_byte x : 0 ≤ Z.lor (Z.land x 0xF) 0xE0 < 256.
Proof.
  assert (H : 0 ≤ Z.land x 0xF < 16) by (change 0xF with (Z.ones 4); rewrite Z.land_ones by lia; apply Z.mod_pos_bound; lia).
  generalize dependent (Z.land x 0xF). intros y Hy. assert (Hin : y ∈ seqZ 0 16) by (apply elem_of_seqZ; lia).
  revert y Hin Hy. assert (Hall : Forall (λ y, 0 ≤ Z.lor y 0xE0 < 256) (seqZ 0 16)) by (apply (bool_decide_unpack _); vm_compute; exact I).
  intros y Hin _. by apply (proj1 (Forall_forall _ _) Hall).
Qed.

(** [n] sectors from [sec] on at [dst]; nothing else is written. *)
Definition sectors_at (m m' : gmap Z Z) (dst n sec : Z) : Prop := ∀ x, is_u32 x → byte m' x =
  if decide (dst ≤ x < dst + 512 * n) then disk (512 * sec + (x - dst)) else byte m x.

Lemma readsect_ok fuel dst sec (s : L) : (latency < fuel)%nat → 0 ≤ sec < 2 ^ 28 → 0 ≤ dst → dst + 512 < 2 ^ 32 → idle (ldev s) →
  ∃ s', readsect in_b out_b in_l fuel dst sec s = Ret ((), s') ∧ idle (ldev s') ∧ sectors_at (lmem s) (lmem s') dst 1 sec.
Proof.
  intros Hf Hs Hd Hb [Hw Hx]. destruct (lba_bytes sec Hs) as [Hlba Hdrv]. unfold readsect.
  destruct (waitdisk_ok fuel s ltac:(lia)) as (s0 & E0 & Hm0 & Hw0 & _ & Hx0). rewrite Hx in Hx0. mrun E0.
  destruct (outb_ok 0x1F2 1 s0) as (s1 & E1 & Hm1 & Hw1 & Hx1 & R1 & _); [lia..|done|done|]. mrun E1.
  destruct (outb_ok 0x1F3 (Z.land sec 0xFF) s1) as (s2 & E2 & Hm2 & Hw2 & Hx2 & R2 & K2); [lia|apply land_byte|done..|]. mrun E2.
  destruct (outb_ok 0x1F4 (Z.land (Z.shiftr sec 8) 0xFF) s2) as (s3 & E3 & Hm3 & Hw3 & Hx3 & R3 & K3); [lia|apply land_byte|done..|]. mrun E3.
  destruct (outb_ok 0x1F5 (Z.land (Z.shiftr sec 16) 0xFF) s3) as (s4 & E4 & Hm4 & Hw4 & Hx4 & R4 & K4); [lia|apply land_byte|done..|]. mrun E4.
  destruct (outb_ok 0x1F6 (Z.lor (Z.land (Z.shiftr sec 24) 0xF) 0xE0) s4) as (s5 & E5 & Hm5 & Hw5 & Hx5 & R5 & K5); [lia|apply drive_byte|done..|]. mrun E5.
  destruct (ide_command (ldev s5) Hw5 Hx5) as (d6 & E6 & Hw6 & Hx6).
  { by rewrite K5, K4, K3, K2 by lia. }
  { by rewrite R5. }
  assert (Hl : lba (reg (ldev s5)) = sec).
  { unfold lba. rewrite R5, !K5, R4, !K4, R3, K3, R2 by lia. exact Hlba. }
  rewrite Hl in Hx6. assert (E6' : outb out_b 0x1F7 0x20 s5 = Ret ((), MkLoader (lmem s5) d6)) by (by apply dev_Ret). mrun E6'.
  destruct (waitdisk_ok fuel (MkLoader (lmem s5) d6) ltac:(simpl; lia)) as (s7 & E7 & Hm7 & Hw7 & _ & Hx7). mrun E7.
  simpl in Hm7, Hx7. rewrite Hx6 in Hx7.
  destruct (insl_ok 128 0 dst s7 sec Hw7 Hx7) as (s8 & E8 & Hi8 & Hm8); [lia..|]. exists s8. split; [exact E8|]. split; [exact Hi8|].
  intros x Hux. rewrite Hm8 by done. replace (lmem s7) with (lmem s) by congruence. rewrite Z.mul_0_r, Z.add_0_r. done.
Qed.

Lemma sectors_at_cons m m1 m2 dst n sec : 0 ≤ n → sectors_at m m1 dst 1 sec → sectors_at m1 m2 (dst + 512) n (sec + 1) →
  sectors_at m m2 dst (1 + n) sec.
Proof.
  intros Hn H1 H2 x Hx. rewrite H2, H1 by done.
  destruct (decide (dst + 512 ≤ x < _)), (decide (dst ≤ x < dst + 512 * 1)), (decide (dst ≤ x < dst + 512 * (1 + n))); try lia; try done; f_equal; lia.
Qed.

Lemma readseg_loop_ok wfuel n : (latency < wfuel)%nat → ∀ fuel va end_va sec (s : L), (n < fuel)%nat →
  end_va ≤ va + 512 * Z.of_nat n < end_va + 512 → 0 ≤ va → va + 512 * Z.of_nat n < 2 ^ 32 → 0 ≤ sec → sec + Z.of_nat n < 2 ^ 28 →
  idle (ldev s) → ∃ s', readseg_loop in_b out_b in_l fuel wfuel va end_va sec s = Ret ((), s') ∧ idle (ldev s') ∧
    sectors_at (lmem s) (lmem s') va (Z.of_nat n) sec.
Proof.
  intros Hw. induction n as [|n IH]; intros fuel va end_va sec s Hf He Hv Hvb Hs Hsb Hi; (destruct fuel as [|fuel]; [lia|]); cbn -[Z.mul Z.add Z.of_nat].
  - rewrite bool_decide_false by lia. eexists. split; [reflexivity|]. split; [done|]. intros x Hx. by rewrite decide_False by lia.
  - rewrite bool_decide_true by lia. destruct (readsect_ok wfuel va sec s Hw) as (s1 & E1 & Hi1 & Hm1); [lia..|done|]. mrun E1.
    unfold SECTSIZE. rewrite !u32_small by (unfold is_u32; lia).
    destruct (IH fuel (va + 512) end_va (sec + 1) s1) as (s2 & E2 & Hi2 & Hm2); [lia..|done|]. exists s2. split; [exact E2|]. split; [done|].
    rewrite Nat2Z.inj_succ, <-Z.add_1_l. by eapply sectors_at_cons; [lia|..].
Qed.

(** The sectors readseg reads for a segment, and where they go. *)
Definition seg_sectors (g : seg) : Z := (sg_off g mod 512 + sg_len g + 511) / 512.
Definition ide_foot (g : seg) : Z * Z :=
  (sg_dst g - sg_off g mod 512, sg_dst g - sg_off g mod 512 + 512 * seg_sectors g).
Record ide_seg_ok (g : seg) : Prop := {
  so_off : is_u32 (sg_off g); so_len : 0 ≤ sg_len g; so_low : sg_off g mod 512 ≤ sg_dst g;
  so_high : (ide_foot g).2 < 2 ^ 32; so_head : (ide_foot g).2 ≤ ELFHDR ∨ ELFHDR + 4096 ≤ (ide_foot g).1 }.

Lemma readseg_ok fuel wfuel g (s : L) : (latency < wfuel)%nat → (Z.to_nat (2 ^ 23) < fuel)%nat →
  is_u32 (sg_off g) → 0 ≤ sg_len g → sg_off g mod 512 ≤ sg_dst g → (ide_foot g).2 < 2 ^ 32 → idle (ldev s) →
  ∃ s', readseg in_b out_b in_l fuel wfuel (sg_dst g) (sg_len g) (sg_off g) s = Ret ((), s') ∧ idle (ldev s') ∧
    placed image (lmem s') g ∧ ∀ x, is_u32 x → ¬ ((ide_foot g).1 ≤ x < (ide_foot g).2) → byte (lmem s') x = byte (lmem s) x.
Proof.
  destruct g as [dst len off]. unfold ide_foot, seg_sectors, is_u32. simpl. intros Hw Hf Ho Hl Hlow Hhigh Hi.
  pose proof (Z.mod_pos_bound off 512 ltac:(lia)) as Hr. pose proof (Z.div_mod off 512 ltac:(lia)) as Hdm.
  set (r := off mod 512) in *. set (q := off / 512) in *. set (n := (r + len + 511) / 512) in *.
  assert (Hn : r + len ≤ 512 * n < r + len + 512) by (unfold n; Z.to_euclidean_division_equations; lia).
  unfold readseg, SECTSIZE. cbv zeta. fold r q. rewrite !u32_small by (unfold is_u32; lia).
  destruct (readseg_loop_ok wfuel (Z.to_nat n) Hw fuel (dst - r) (dst + len) (q + 1) s) as (s' & E & Hi' & Hm); [lia..|done|].
  exists s'. split; [exact E|]. split; [exact Hi'|]. split.
  - intros k Hk. simpl in *. rewrite Hm by (unfold is_u32; lia). rewrite decide_True by lia. unfold image. f_equal. lia.
  - intros x Hx Hout. rewrite Hm by done. rewrite decide_False by lia. done.
Qed.

Definition head_kept (s : L) : Prop := idle (ldev s) ∧ ∀ k, 0 ≤ k < 4096 → byte (lmem s) (ELFHDR + k) = image k.
Lemma ide_reader fuel wfuel : (latency < wfuel)%nat → (Z.to_nat (2 ^ 23) < fuel)%nat →
  SegmentReader lmem (readseg in_b out_b in_l fuel wfuel) image ELFHDR 4096 head_kept ide_seg_ok ide_foot.
Proof.
  intros Hw Hf. split.
  - intros s k [_ H]. exact (H k).
  - intros g [Ho Hl Hlow Hhigh _]. unfold ide_foot, seg_sectors in Hhigh. simpl in Hhigh.
    pose proof (Z.mod_pos_bound (sg_off g) 512 ltac:(lia)). Z.to_euclidean_division_equations. lia.
  - intros s g [Hi Hh] [Ho Hl Hlow Hhigh Hhead]. destruct (readseg_ok fuel wfuel g s) as (s' & E & Hi' & Hp & Hk); [done..|].
    exists s'. split; [exact E|]. split; [|done]. split; [done|]. intros k Hk4. rewrite Hk, Hh by (unfold is_u32, ELFHDR in *; lia). done.
Qed.

(** The image on the disk is one the loader can load: an ELF file whose program
    headers lie on its first eight sectors, with segments that do not fall on
    these headers or on an earlier segment. *)
Definition mask24 (va : Z) : Z := Z.land va 0xFFFFFF.
Record ide_image_ok : Prop := {
  im_magic : e_magic (elfhdr_at image 0) = ELF_MAGIC;
  im_table : e_phoff (elfhdr_at image 0) + 32 * e_phnum (elfhdr_at image 0) ≤ 4096;
  im_segs : Forall ide_seg_ok (segments mask24 image);
  im_compat : compatible ide_foot (segments mask24 image) }.

Lemma image_bytes a : 0 ≤ image a < 256.
Proof. unfold image. apply ide_bytes. Qed.
Lemma head_read fuel wfuel (s : L) : (latency < wfuel)%nat → (Z.to_nat (2 ^ 23) < fuel)%nat → idle (ldev s) →
  ∃ s', readseg in_b out_b in_l fuel wfuel ELFHDR (SECTSIZE * 8) 0 s = Ret ((), s') ∧ head_kept s' ∧
    ∀ x, is_u32 x → ¬ (ELFHDR ≤ x < ELFHDR + 4096) → byte (lmem s') x = byte (lmem s) x.
Proof.
  intros Hw Hf Hi. destruct (readseg_ok fuel wfuel (Seg ELFHDR 4096 0) s) as (s' & E & Hi' & Hp & Hk);
    [done|done|unfold is_u32; simpl; lia|simpl; lia|done|done|done|].
  exists s'. split; [exact E|]. split; [split; [done|exact Hp]|]. intros x Hx Hout. apply Hk; [done|]. exact Hout.
Qed.
Lemma elf_head (s : L) : head_kept s → elfhdr_at (byte (lmem s)) ELFHDR = elfhdr_at image 0.
Proof. intros [_ Hh]. apply elfhdr_agree. intros k Hk. apply Hh. lia. Qed.

(** C19. bootmain of the PC, with a disk that becomes ready again after each
    command: from an image with a bad magic number it stops; from a good one it
    ends with the jump to the entry point of the header, and by then every
    segment is in memory at its address as the image has it, and nothing is
    written but the scratch page of the headers and the sectors the segments
    touch. *)
Theorem ide_bootmain_correct fuel wfuel (s : L) : (latency < wfuel)%nat → (Z.to_nat (2 ^ 23) < fuel)%nat → idle (ldev s) →
  (e_magic (elfhdr_at image 0) ≠ ELF_MAGIC → ∃ s', bootmain in_b out_b out_w in_l fuel wfuel s = Ret (Hang, s')) ∧
  (ide_image_ok → ∃ s',
    bootmain in_b out_b out_w in_l fuel wfuel s = Ret (Enter (Z.land (e_entry (elfhdr_at image 0)) 0xFFFFFF), s') ∧
    Forall (placed image (lmem s')) (segments mask24 image) ∧
    ∀ x, is_u32 x → ¬ (ELFHDR ≤ x < ELFHDR + 4096) → outside ide_foot (segments mask24 image) x →
      byte (lmem s') x = byte (lmem s) x).
Proof.
  intros Hw Hf Hi. destruct (head_read fuel wfuel s Hw Hf Hi) as (s1 & E1 & Hh1 & Hk1). unfold bootmain. split.
  - intros Hbad. mrun E1. rewrite bind_gets, (elf_head s1 Hh1), bool_decide_true by done.
    destruct (ide_other (ldev s1) 0x8A00) as (d2 & E2). destruct (ide_other d2 0x8E00) as (d3 & E3).
    assert (E2' : outw out_w 0x8A00 0x8A00 s1 = Ret ((), MkLoader (lmem s1) d2)) by (by apply dev_Ret).
    assert (E3' : outw out_w 0x8A00 0x8E00 (MkLoader (lmem s1) d2) = Ret ((), MkLoader (lmem s1) d3)) by (exact (dev_Ret _ (MkLoader (lmem s1) d2) _ _ E3)).
    mrun E2'. mrun E3'. by eexists.
  - intros [Hmag Htab Hsegs Hcomp]. mrun E1. rewrite bind_gets, (elf_head s1 Hh1), bool_decide_false by (by intros []).
    pose proof (ide_reader fuel wfuel Hw Hf) as Hrd. pose proof (le32_range image 28 image_bytes) as Ho.
    pose proof (proj1 (le16_range image 44 image_bytes)) as Hn. change (le16 image 44) with (e_phnum (elfhdr_at image 0)) in Hn.
    change (le32 image 28) with (e_phoff (elfhdr_at image 0)) in Ho. unfold segments in *. cbv zeta in *.
    set (eh := elfhdr_at image 0) in *. unfold is_u32, ELFHDR, sizeof_proghdr in *. cbv zeta. rewrite !u32_small by (unfold is_u32; lia).
    destruct (load_segments_ok lmem _ image 0x10000 4096 head_kept ide_seg_ok ide_foot mask24 (Z.to_nat (e_phnum eh)) fuel (e_phoff eh) s1)
      as (s2 & E2 & Hh2 & Hp2 & Hk2); [lia..|done|done|done|]. rewrite Z2Nat.id in E2 by done. mrun E2.
    rewrite bind_gets. pose proof (elf_head s2 Hh2) as Heq. unfold ELFHDR in Heq. rewrite Heq. exists s2. split; [reflexivity|]. split; [exact Hp2|].
    intros x Hx Hout Hseg. rewrite Hk2 by done. by apply Hk1.
Qed.
End Ide.

(** ** A disk with a small kernel: two segments, at offsets 0x1000 and 0x1410 *)
Definition ex_header : list Z :=
  [0x7F; 0x45; 0x4C; 0x46] ++ replicate 12 0 ++ [2; 0; 3; 0] ++ le32_bytes 1 ++ le32_bytes 0xC0100010 ++ le32_bytes 52 ++
  replicate 12 0 ++ [2; 0] ++ replicate 6 0 ++
  (le32_bytes 1 ++ le32_bytes 0x1000 ++ le32_bytes 0xC0100000 ++ le32_bytes 0 ++ le32_bytes 700 ++ le32_bytes 700 ++ replicate 8 0) ++
  (le32_bytes 1 ++ le32_bytes 0x1410 ++ le32_bytes 0xC0100410 ++ le32_bytes 0 ++ le32_bytes 16 ++ le32_bytes 32 ++ replicate 8 0).
Definition ex_file (o : Z) : Z := default (7 * o) (ex_header !! Z.to_nat o) mod 256.
Definition ex_disk (a : Z) : Z := ex_file (a - 512).
Record ide : Type := MkIde { i_wait : nat; i_reg : Z → Z; i_xfer : option (Z * Z) }.
Definition ide_in_b (p : Z) : M ide Z := λ d,
  Ret (match i_wait d with O => 0x50 | _ => 0xD0 end, MkIde (Nat.pred (i_wait d)) (i_reg d) (i_xfer d)).
Definition ide_out_b (p v : Z) : M ide unit := modify (λ d,
  if decide (p = 0x1F7) then MkIde 3 (i_reg d) (Some (lba (i_reg d), 0))
  else MkIde (i_wait d) (λ q, if decide (q = p) then v else i_reg d q) (i_xfer d)).
Definition ide_out_w (p v : Z) : M ide unit := skip.
Definition ide_in_l (p : Z) : M ide Z := λ d,
  match i_xfer d with
  | Some (s, i) => Ret (le32 ex_disk (512 * s + 4 * i),
      if decide (i = 127) then MkIde 2 (i_reg d) None else MkIde 0 (i_reg d) (Some (s, i + 1)))
  | None => Ret (0, d)
  end.
#[global] Instance ide_disk : IdeDisk ide_in_b ide_out_b ide_out_w ide_in_l ex_disk 3 i_wait i_reg i_xfer.
Proof.
  split.
  - intros a. apply Z.mod_pos_bound. lia.
  - intros d. eexists _, _. split; [reflexivity|]. simpl. split_and!; [done..|]. by destruct (i_wait d).
  - intros d p v Hw Hx Hp Hv. eexists. split; [reflexivity|]. rewrite decide_False by lia. simpl. split_and!; [done..|by rewrite decide_True|].
    intros q Hq. by rewrite decide_False.
  - intros d Hw Hx H1 H2. eexists. split; [reflexivity|]. simpl. split; [lia|done].
  - intros d s i Hw Hx Hi. unfold ide_in_l. rewrite Hx. eexists. split; [reflexivity|]. destruct (decide (i = 127)); simpl; [split; [lia|done]|done].
  - intros d v. by eexists.
Qed.
Definition ex_loader : IdeBoot.loader (D := ide) := IdeBoot.MkLoader ∅ (MkIde 1 (λ _, 0) None).
Lemma ex_segments : segments mask24 (image ex_disk) = [Seg 0x100000 700 0x1000; Seg 0x100410 32 0x1410].
Proof. vm_compute. reflexivity. Qed.
Lemma ex_image_ok : ide_image_ok ex_disk.
Proof.
  split; [vm_compute; reflexivity|vm_compute; discriminate|rewrite ex_segments..].
  - repeat constructor; unfold is_u32, IdeBoot.ELFHDR, ide_foot, seg_sectors; cbn -[Z.div Z.modulo Z.mul Z.add]; Z.to_euclidean_division_equations; lia.
  - split; [|split; [apply Forall_nil; exact I|exact I]]. apply Forall_cons. split; [right; vm_compute; discriminate|apply Forall_nil; exact I].
Qed.
Lemma ide_bootmain_correct_witness : ∃ s',
  IdeBoot.bootmain ide_in_b ide_out_b ide_out_w ide_in_l (Z.to_nat (2 ^ 23 + 1)) 4 ex_loader = Ret (Enter 0x100010, s') ∧
  byte (IdeBoot.lmem s') 0x100123 = (7 * 0x1123) mod 256 ∧ byte (IdeBoot.lmem s') 0x100411 = (7 * 0x1411) mod 256 ∧
  byte (IdeBoot.lmem s') 0x200000 = 0.
Proof.
  destruct (ide_bootmain_correct ide_in_b ide_out_b ide_out_w ide_in_l ex_disk 3 i_wait i_reg i_xfer (Z.to_nat (2 ^ 23 + 1)) 4 ex_loader) as [_ H];
    [lia|lia|split; [simpl; lia|reflexivity]|].
  destruct (H ex_image_ok) as (s' & E & Hp & Hk). rewrite ex_segments in Hp, Hk. exists s'. split; [exact E|].
  apply Forall_cons in Hp as [Hp1 Hp]. apply Forall_cons in Hp as [Hp2 _]. split; [|split].
  - exact (Hp1 0x123 ltac:(simpl; lia)).
  - exact (Hp2 1 ltac:(simpl; lia)).
  - rewrite Hk; [reflexivity|unfold is_u32; lia|unfold IdeBoot.ELFHDR; lia|].
    repeat constructor; vm_compute; intros [_ Hlt]; discriminate Hlt.
Defined.

(** ** The loader of the S3C2410 board *)
Section Board.
Import ArmBoot.
Lemma memcpy_loop_ok n d a m x : 0 ≤ d → d + Z.of_nat n < 2 ^ 32 → 0 ≤ a → a + Z.of_nat n < 2 ^ 32 →
  d + Z.of_nat n ≤ a ∨ a + Z.of_nat n ≤ d → is_u32 x →
  byte (memcpy_loop n d a m) x = if decide (d ≤ x < d + Z.of_nat n) then byte m (a + (x - d)) else byte m x.
Proof.
  revert d a m. induction n as [|n IH]; intros d a m Hd Hdn Ha Han Hdis Hx; cbn -[Z.of_nat].
  - by rewrite decide_False by lia.
  - rewrite IH by (done || lia). destruct (decide (d + 1 ≤ x < _)).
    + rewrite decide_True by lia. rewrite byte_insert by (unfold is_u32; lia). rewrite decide_False by lia. f_equal. lia.
    + rewrite byte_insert by (unfold is_u32 in *; lia). destruct (decide (x = d)) as [->|].
      * rewrite decide_True by lia. f_equal. lia.
      * by rewrite decide_False by lia.
Qed.
Lemma uart_puts_ok p s : uart_puts p s = Ret ((), MkLoader (lmem s) (reverse p ++ uart s)).
Proof.
  revert s. induction p as [|c p IH]; intros s; simpl; [by destruct s|]. unfold uart_putc. rewrite bind_modify, IH. simpl.
  by rewrite reverse_cons, <-(assoc_L (++)).
Qed.

(** An image of [n] bytes behind ELFHDR, which no segment overwrites. *)
Definition arm_foot (g : seg) : Z * Z := (sg_dst g, sg_dst g + sg_len g).
Record arm_seg_ok (n : Z) (g : seg) : Prop := {
  as_off : 0 ≤ sg_off g; as_len : 0 ≤ sg_len g; as_in : sg_off g + sg_len g ≤ n; as_low : 0 ≤ sg_dst g;
  as_high : sg_dst g + sg_len g < 2 ^ 32; as_head : sg_dst g + sg_len g ≤ ELFHDR ∨ ELFHDR + n ≤ sg_dst g }.
Definition arm_kept (file : Z → Z) (n : Z) (u : list Z) (s : loader) : Prop :=
  uart s = u ∧ ∀ k, 0 ≤ k < n → byte (lmem s) (ELFHDR + k) = file k.

#[local] Instance arm_reader file n u : TCEq (bool_decide (ELFHDR + n < 2 ^ 32)) true →
  SegmentReader lmem readseg file ELFHDR n (arm_kept file n u) (arm_seg_ok n) arm_foot.
Proof.
  intros Hn%TCEq_eq%bool_decide_eq_true. split.
  - intros s k [_ H]. exact (H k).
  - intros g []. lia.
  - intros s g [Hu Hh] []. unfold readseg, memcpy. eexists. split; [reflexivity|]. unfold arm_foot, placed. simpl.
    rewrite u32_small by (unfold is_u32, ELFHDR, INTIAL_LOAD_ADDRESS in *; lia).
    assert (Hm := λ x, memcpy_loop_ok (Z.to_nat (sg_len g)) (sg_dst g) (ELFHDR + sg_off g) (lmem s) x).
    rewrite Z2Nat.id in Hm by done. assert (He : 0 ≤ ELFHDR) by (unfold ELFHDR, INTIAL_LOAD_ADDRESS; lia).
    split; [split; [done|]|split].
    + intros k Hk. simpl. rewrite Hm by (unfold is_u32; lia). rewrite decide_False by lia. by apply Hh.
    + intros k Hk. rewrite Hm by (unfold is_u32; lia). rewrite decide_True by lia. rewrite <-Z.add_assoc, Hh by lia. f_equal. lia.
    + intros x Hx Hout. rewrite Hm by (done || lia). by rewrite decide_False.
Qed.

Record arm_image_ok (file : Z → Z) (n : Z) : Prop := {
  ai_magic : e_magic (elfhdr_at file 0) = ELF_MAGIC;
  ai_table : e_phoff (elfhdr_at file 0) + 32 * e_phnum (elfhdr_at file 0) ≤ n;
  ai_segs : Forall (arm_seg_ok n) (segments id file);
  ai_compat : compatible arm_foot (segments id file) }.

(** bootmain of the board, with the image in memory behind ELFHDR: it
    reports a bad magic number and stops; from a good image it ends with the
    jump to the entry point, every segment is in memory at its address as the
    image has it, nothing else has changed, and the two messages are sent. *)
Theorem arm_bootmain_correct fuel n s : let file k := byte (lmem s) (ELFHDR + k) in
  (Z.to_nat 65536 < fuel)%nat → (∀ k, 0 ≤ file k < 256) → 52 ≤ n → ELFHDR + n < 2 ^ 32 →
  (e_magic (elfhdr_at file 0) ≠ ELF_MAGIC →
    bootmain fuel s = Ret (Hang, MkLoader (lmem s) (reverse (loading ++ bad) ++ uart s))) ∧
  (arm_image_ok file n → ∃ s',
    bootmain fuel s = Ret (Enter (e_entry (elfhdr_at file 0)), s') ∧ uart s' = reverse (loading ++ calling) ++ uart s ∧
    Forall (placed file (lmem s')) (segments id file) ∧
    ∀ x, is_u32 x → outside arm_foot (segments id file) x → byte (lmem s') x = byte (lmem s) x).
Proof.
  intros file Hf Hby Hn Hen.
  assert (Heh : ∀ u, arm_kept file n u (MkLoader (lmem s) u)) by (intros u; split; [done|]; intros k _; reflexivity).
  assert (Hhd : ∀ u s', arm_kept file n u s' → elfhdr_at (byte (lmem s')) ELFHDR = elfhdr_at file 0).
  { intros u s' [_ H]. apply elfhdr_agree. intros k Hk. apply H. lia. }
  pose proof (le32_range file 28 Hby) as Ho. change (le32 file 28) with (e_phoff (elfhdr_at file 0)) in Ho.
  pose proof (le16_range file 44 Hby) as Hp. change (le16 file 44) with (e_phnum (elfhdr_at file 0)) in Hp.
  unfold bootmain. mrun (uart_puts_ok loading s). rewrite bind_gets, (Hhd _ _ (Heh (reverse loading ++ uart s))). split.
  - intros Hbad. rewrite bool_decide_true by done. mrun (uart_puts_ok bad (MkLoader (lmem s) (reverse loading ++ uart s))).
    unfold mret, M_ret. by rewrite reverse_app, <-(assoc_L (++)).
  - intros [Hmag Htab Hsegs Hcomp]. rewrite bool_decide_false by (by intros []). cbv zeta. unfold segments in *. cbv zeta in *.
    set (eh := elfhdr_at file 0) in *. assert (He : 0 ≤ ELFHDR) by (unfold ELFHDR, INTIAL_LOAD_ADDRESS; lia).
    unfold is_u32, sizeof_proghdr in *. rewrite !u32_small by (unfold is_u32; lia).
    assert (Hen' : TCEq (bool_decide (ELFHDR + n < 2 ^ 32)) true) by (rewrite bool_decide_true by done; constructor).
    pose proof (arm_reader file n (reverse loading ++ uart s) Hen') as Hrd.
    destruct (load_segments_ok lmem readseg file ELFHDR n _ (arm_seg_ok n) arm_foot id (Z.to_nat (e_phnum eh)) fuel (e_phoff eh)
      (MkLoader (lmem s) (reverse loading ++ uart s))) as (s2 & E2 & [Hu2 Hh2] & Hp2 & Hk2); [lia..|done|done|apply Heh|].
    rewrite Z2Nat.id in E2 by lia. change (λ va : Z, va) with (id (A := Z)). mrun E2. mrun (uart_puts_ok calling s2).
    rewrite bind_gets. simpl lmem. rewrite (Hhd _ s2 (conj Hu2 Hh2)). eexists. split; [reflexivity|]. cbn [uart lmem]. split_and!; [|exact Hp2|exact Hk2].
    by rewrite Hu2, reverse_app, <-(assoc_L (++)).
Qed.
End Board.

(** An image with one segment of twelve bytes. *)
Definition arm_file : list Z :=
  [0x7F; 0x45; 0x4C; 0x46] ++ replicate 12 0 ++ [2; 0; 40; 0] ++ le32_bytes 1 ++ le32_bytes 0x31000004 ++ le32_bytes 52 ++
  replicate 12 0 ++ [1; 0] ++ replicate 6 0 ++
  (le32_bytes 1 ++ le32_bytes 84 ++ le32_bytes 0x31000000 ++ le32_bytes 0 ++ le32_bytes 12 ++ le32_bytes 12 ++ replicate 8 0) ++
  [11; 22; 33; 44; 55; 66; 77; 88; 99; 110; 121; 132].
Definition board_mem : gmap Z Z := put_bytes arm_file ArmBoot.ELFHDR ∅.
Lemma put_bytes_range l a m x : Forall (λ b, 0 ≤ b < 256) l → (∀ y, 0 ≤ byte m y < 256) → 0 ≤ byte (put_bytes l a m) x < 256.
Proof.
  revert a m. induction l as [|b l IH]; intros a m Hl Hm; simpl; [done|]. apply Forall_cons in Hl as [Hb Hl]. apply IH; [done|].
  intros y. unfold byte. destruct (decide (u32 y = u32 a)) as [->|]; [by rewrite lookup_insert_eq|]. rewrite lookup_insert_ne by done. apply (Hm y).
Qed.
Lemma arm_bootmain_correct_witness : ∃ s',
  ArmBoot.bootmain (Z.to_nat 65537) (ArmBoot.MkLoader board_mem []) = Ret (Enter 0x31000004, s') ∧
  byte (ArmBoot.lmem s') 0x31000002 = 33 ∧ byte (ArmBoot.lmem s') 0x3000FFFF = 0.
Proof.
  assert (Hby : ∀ k, 0 ≤ byte board_mem (ArmBoot.ELFHDR + k) < 256).
  { intros k. apply put_bytes_range; [apply (bool_decide_unpack _); vm_compute; exact I|]. intros y. unfold byte. rewrite lookup_empty. simpl. lia. }
  assert (Hseg : segments id (λ k, byte board_mem (ArmBoot.ELFHDR + k)) = [Seg 0x31000000 12 84]) by (vm_compute; reflexivity).
  destruct (arm_bootmain_correct (Z.to_nat 65537) 96 (ArmBoot.MkLoader board_mem [])) as [_ H]; [lia|exact Hby|lia|reflexivity|].
  change (ArmBoot.lmem (ArmBoot.MkLoader board_mem [])) with board_mem in H. rewrite Hseg in H. destruct H as (s' & E & _ & Hp & Hk).
  - split; [vm_compute; reflexivity|vm_compute; discriminate|rewrite Hseg..].
    + repeat constructor; unfold ArmBoot.ELFHDR, ArmBoot.INTIAL_LOAD_ADDRESS; simpl; lia.
    + split; [apply Forall_nil; exact I|exact I].
  - exists s'. split; [exact E|]. apply Forall_cons in Hp as [Hp _]. split.
    + etransitivity; [exact (Hp 2 ltac:(simpl; lia))|vm_compute; reflexivity].
    + rewrite Hk; [vm_compute; reflexivity|unfold is_u32; lia|]. repeat constructor. simpl. lia.
Defined.

(** ** The boot sector *)
Section BootSector.
Import Sign.
Lemma boot_sector_length l : (length l ≤ 510)%nat → length (boot_sector l) = 512%nat.
Proof. intros Hl. unfold boot_sector, zeros. rewrite !length_insert, length_app, length_replicate. lia. Qed.
Lemma boot_sector_lookup l i : (length l ≤ 510)%nat → (i < 512)%nat → boot_sector l !! i =
  if decide (i < length l)%nat then l !! i else if decide (i = 510%nat) then Some 0x55 else if decide (i = 511%nat) then Some 0xAA else Some 0.
Proof.
  intros Hl Hi. unfold boot_sector, zeros.
  assert (Hlen : length (l ++ replicate (512 - length l) 0) = 512%nat) by (rewrite length_app, length_replicate; lia).
  destruct (decide (i = 511%nat)) as [->|H1].
  - rewrite list_lookup_insert_eq by (rewrite length_insert; lia). rewrite decide_False by lia. done.
  - rewrite list_lookup_insert_ne by done. destruct (decide (i = 510%nat)) as [->|H2].
    + rewrite list_lookup_insert_eq by lia. rewrite decide_False by lia. done.
    + rewrite list_lookup_insert_ne by done. destruct (decide (i < length l)%nat).
      * by rewrite lookup_app_l.
      * rewrite lookup_app_r by lia. apply lookup_replicate_2. lia.
Qed.

(** sign: a file of more than 510 bytes, a missing one or wrong arguments
    give status -1 and change nothing; otherwise the output, if there is room
    for it, is a sector of 512 bytes with the bytes of the input, zeros and the
    signature 0x55 0xAA, and the status is 0. *)
Theorem sign_correct h inp out :
  (∀ argv, length argv ≠ 2%nat → main argv h = Ret (-1, h)) ∧
  match files h !! inp with
  | None => main [inp; out] h = Ret (-1, h)
  | Some l =>
    ((510 < length l)%nat → main [inp; out] h = Ret (-1, h)) ∧
    ((length l ≤ 510)%nat → readable h inp = true → (∃ r, room h out = Some r ∧ (512 ≤ r)%nat) →
      ∃ sec, main [inp; out] h = Ret (0, set_file out sec h) ∧ length sec = 512%nat ∧ take (length l) sec = l ∧
        (∀ i, (length l ≤ i < 510)%nat → sec !! i = Some 0) ∧ sec !! 510%nat = Some 0x55 ∧ sec !! 511%nat = Some 0xAA)
  end.
Proof.
  split.
  - intros [|a [|b [|c argv]]] Ha; [done..|simpl in Ha; lia|done].
  - destruct (files h !! inp) as [l|] eqn:El; unfold main; rewrite bind_get, El; [|done]. split.
    + intros Hl. by rewrite bool_decide_true.
    + intros Hl Hr (r & Hroom & H512). rewrite bool_decide_false, Hr by lia. simpl negb. cbv iota. rewrite Hroom, Nat.min_l by done.
      pose proof (boot_sector_length l Hl) as Hlen. exists (boot_sector l).
      split; [rewrite firstn_all2 by lia; reflexivity|]. split; [done|]. split.
      * apply list_eq. intros i. destruct (decide (i < length l)%nat).
        -- rewrite lookup_take_lt by done. rewrite boot_sector_lookup by lia. by rewrite decide_True.
        -- rewrite lookup_take_ge by lia. symmetry. apply lookup_ge_None. lia.
      * split_and!; [|rewrite boot_sector_lookup by lia; by rewrite decide_False by lia..].
        intros i Hi. rewrite boot_sector_lookup by lia. by rewrite !decide_False by lia.
Qed.
End BootSector.
