(* ===== verification/Console.v ===== *)
(** * Console, interrupt controller and standard output

    arch/x86/generic/console.c, the 8259A part of arch/x86/generic/intr.c,
    arch/x86/generic/clock.c, lib/stdio.c and lib/readline.c.  The devices are
    parameters: [in_port] and [out_port] are the instructions in and out,
    [vread] and [vwrite] accesses to 16-bit cells of video memory. *)
From stdpp Require Import base list strings.
From Stdlib Require Import ZArith Lia Ascii.
From S2P Require Import Prelude Bits CString Printfmt Mmu.

(** ** Constants *)
Definition COM1 : Z := 0x3F8.
Definition COM_RX : Z := 0.
Definition COM_TX : Z := 0.
Definition COM_DLL : Z := 0.
Definition COM_DLM : Z := 1.
Definition COM_IER : Z := 1.
Definition COM_IER_RDI : Z := 0x01.
Definition COM_IIR : Z := 2.
Definition COM_FCR : Z := 2.
Definition COM_LCR : Z := 3.
Definition COM_LCR_DLAB : Z := 0x80.
Definition COM_LCR_WLEN8 : Z := 0x03.
Definition COM_MCR : Z := 4.
Definition COM_LSR : Z := 5.
Definition COM_LSR_DATA : Z := 0x01.
Definition COM_LSR_TXRDY : Z := 0x20.
Definition MONO_BASE : Z := 0x3B4.
Definition MONO_BUF : Z := 0xB0000.
Definition CGA_BASE : Z := 0x3D4.
Definition CGA_BUF : Z := 0xB8000.
Definition CRT_ROWS : Z := 25.
Definition CRT_COLS : Z := 80.
Definition CRT_SIZE : Z := CRT_ROWS * CRT_COLS.
Definition LPTPORT : Z := 0x378.
Definition CONSBUFSIZE : Z := 512.
Definition KBSTATP : Z := 0x64.
Definition KBS_DIB : Z := 0x01.
Definition KBDATAP : Z := 0x60.
Definition IO_PIC1 : Z := 0x20.
Definition IO_PIC2 : Z := 0xA0.
Definition IRQ_SLAVE : Z := 2.
Definition IRQ_OFFSET : Z := 32.
Definition IRQ_TIMER : Z := 0.
Definition IRQ_KBD : Z := 1.
Definition IRQ_COM1 : Z := 4.
Definition X86_EFLAGS_IF : Z := 0x200.
Definition BUFSIZE : Z := 1024.

(** ** Keyboard maps *)
Definition KEY_HOME : Z := 0xE0.
Definition KEY_END : Z := 0xE1.
Definition KEY_UP : Z := 0xE2.
Definition KEY_DN : Z := 0xE3.
Definition KEY_LF : Z := 0xE4.
Definition KEY_RT : Z := 0xE5.
Definition KEY_PGUP : Z := 0xE6.
Definition KEY_PGDN : Z := 0xE7.
Definition KEY_INS : Z := 0xE8.
Definition KEY_DEL : Z := 0xE9.

Definition NO : Z := 0.
Definition SHIFT : Z := 1.
Definition CTL : Z := 2.
Definition ALT : Z := 4.
Definition CAPSLOCK : Z := 8.
Definition NUMLOCK : Z := 16.
Definition SCROLLLOCK : Z := 32.
Definition E0ESC : Z := 64.

(** An array of 256 bytes with an initializer: the leading elements, then
    designated ones. *)
Definition table (init : list Z) (des : list (Z * Z)) : list Z :=
  foldl (λ t p, <[Z.to_nat p.1 := u8 p.2]> t) ((u8 <$> init) ++ replicate (256 - length init) 0) des.

Definition shiftcode : list Z :=
  table [] [(0x1D, CTL); (0x2A, SHIFT); (0x36, SHIFT); (0x38, ALT); (0x9D, CTL); (0xB8, ALT)].
Definition togglecode : list Z := table [] [(0x3A, CAPSLOCK); (0x45, NUMLOCK); (0x46, SCROLLLOCK)].
Definition normalmap : list Z :=
  table ([NO; 0x1B] ++ codes "123456" ++ codes "7890-=" ++ [8; 9] ++
         codes "qwertyui" ++ codes "op[]" ++ [10; NO] ++ codes "as" ++
         codes "dfghjkl;" ++ codes "'`" ++ [NO] ++ codes "\zxcv" ++
         codes "bnm,./" ++ [NO] ++ codes "*" ++ [NO] ++ codes " " ++ replicate 6 NO ++
         replicate 7 NO ++ codes "7" ++ codes "89-456+1" ++ codes "230." ++ replicate 4 NO)
        [(0xC7, KEY_HOME); (0x9C, 10); (0xB5, 47); (0xC8, KEY_UP); (0xC9, KEY_PGUP); (0xCB, KEY_LF); (0xCD, KEY_RT);
         (0xCF, KEY_END); (0xD0, KEY_DN); (0xD1, KEY_PGDN); (0xD2, KEY_INS); (0xD3, KEY_DEL)].
Definition shiftmap : list Z :=
  table ([NO; 27] ++ codes "!@#$%^" ++ codes "&*()_+" ++ [8; 9] ++
         codes "QWERTYUI" ++ codes "OP{}" ++ [10; NO] ++ codes "AS" ++
         codes "DFGHJKL:" ++ [34] ++ codes "~" ++ [NO] ++ codes "|ZXCV" ++
         codes "BNM<>?" ++ [NO] ++ codes "*" ++ [NO] ++ codes " " ++ replicate 6 NO ++
         replicate 7 NO ++ codes "7" ++ codes "89-456+1" ++ codes "230." ++ replicate 4 NO)
        [(0xC7, KEY_HOME); (0x9C, 10); (0xB5, 47); (0xC8, KEY_UP); (0xC9, KEY_PGUP); (0xCB, KEY_LF); (0xCD, KEY_RT);
         (0xCF, KEY_END); (0xD0, KEY_DN); (0xD1, KEY_PGDN); (0xD2, KEY_INS); (0xD3, KEY_DEL)].
Definition C (x : Z) : Z := x - 64.
Definition ctlmap : list Z :=
  table (replicate 8 NO ++ replicate 8 NO ++
         (C <$> codes "QWERTYUI") ++ (C <$> codes "OP") ++ [NO; NO; 13; NO] ++ (C <$> codes "AS") ++
         (C <$> codes "DFGHJKL") ++ [NO] ++ [NO; NO; NO] ++ (C <$> codes "\ZXCV") ++
         (C <$> codes "BNM") ++ [NO; NO] ++ (C <$> codes "/") ++ [NO; NO])
        [(0x97, KEY_HOME); (0xB5, C 47); (0xC8, KEY_UP); (0xC9, KEY_PGUP); (0xCB, KEY_LF); (0xCD, KEY_RT);
         (0xCF, KEY_END); (0xD0, KEY_DN); (0xD1, KEY_PGDN); (0xD2, KEY_INS); (0xD3, KEY_DEL)].
Definition charcode : list (list Z) := [normalmap; shiftmap; ctlmap; ctlmap].

(** ** State *)
(** The variables of console.c (crt_buf, crt_pos, addr_6845, serial_exists, cons,
    shift), of the interrupt controller (irq_mask, did_init), of clock.c (ticks)
    and of readline.c (buf), the flags register, and the devices. *)
Record console {D : Type} : Type := MkConsole {
  crt_buf : Z; crt_pos : Z; addr_6845 : Z; serial_exists : bool;
  cbuf : list Z; rpos : Z; wpos : Z;
  shift : Z;
  irq_mask : Z; did_init : bool;
  ticks : Z;
  linebuf : list Z;
  eflags : Z;
  io : D }.
Arguments console : clear implicits.

Section Model.
Context {D : Type}.
Context (in_port : Z → M D Z) (out_port : Z → Z → M D unit) (vread : Z → M D Z) (vwrite : Z → Z → M D unit).
Abbreviation CS := (console D).
Implicit Types (s : CS).

Definition io_lens : lens CS D :=
  Lens io (λ d s, MkConsole D (crt_buf s) (crt_pos s) (addr_6845 s) (serial_exists s) (cbuf s) (rpos s) (wpos s) (shift s)
    (irq_mask s) (did_init s) (ticks s) (linebuf s) (eflags s) d).
Definition set_crt (b p a : Z) (s : CS) : CS :=
  MkConsole D b p a (serial_exists s) (cbuf s) (rpos s) (wpos s) (shift s) (irq_mask s) (did_init s) (ticks s) (linebuf s) (eflags s) (io s).
Definition set_crt_pos (p : Z) (s : CS) : CS := set_crt (crt_buf s) (u16 p) (addr_6845 s) s.
Definition set_serial_exists (b : bool) (s : CS) : CS :=
  MkConsole D (crt_buf s) (crt_pos s) (addr_6845 s) b (cbuf s) (rpos s) (wpos s) (shift s) (irq_mask s) (did_init s) (ticks s) (linebuf s) (eflags s) (io s).
Definition set_cons (b : list Z) (r w : Z) (s : CS) : CS :=
  MkConsole D (crt_buf s) (crt_pos s) (addr_6845 s) (serial_exists s) b r w (shift s) (irq_mask s) (did_init s) (ticks s) (linebuf s) (eflags s) (io s).
Definition set_shift (x : Z) (s : CS) : CS :=
  MkConsole D (crt_buf s) (crt_pos s) (addr_6845 s) (serial_exists s) (cbuf s) (rpos s) (wpos s) (u32 x) (irq_mask s) (did_init s) (ticks s) (linebuf s) (eflags s) (io s).
Definition set_pic (m : Z) (b : bool) (s : CS) : CS :=
  MkConsole D (crt_buf s) (crt_pos s) (addr_6845 s) (serial_exists s) (cbuf s) (rpos s) (wpos s) (shift s) m b (ticks s) (linebuf s) (eflags s) (io s).
Definition set_ticks (x : Z) (s : CS) : CS :=
  MkConsole D (crt_buf s) (crt_pos s) (addr_6845 s) (serial_exists s) (cbuf s) (rpos s) (wpos s) (shift s) (irq_mask s) (did_init s) (u32 x) (linebuf s) (eflags s) (io s).
Definition set_linebuf (b : list Z) (s : CS) : CS :=
  MkConsole D (crt_buf s) (crt_pos s) (addr_6845 s) (serial_exists s) (cbuf s) (rpos s) (wpos s) (shift s) (irq_mask s) (did_init s) (ticks s) b (eflags s) (io s).
Definition set_eflags (x : Z) (s : CS) : CS :=
  MkConsole D (crt_buf s) (crt_pos s) (addr_6845 s) (serial_exists s) (cbuf s) (rpos s) (wpos s) (shift s) (irq_mask s) (did_init s) (ticks s) (linebuf s) x (io s).

(** ** x86.h and irqflags.h *)
Definition inb (port : Z) : M CS Z := zoom io_lens (in_port (u16 port)).
Definition outb (port data : Z) : M CS unit := zoom io_lens (out_port (u16 port) (u8 data)).
Definition arch_local_irq_disable : M CS unit := modify (λ s, set_eflags (Z.ldiff (eflags s) X86_EFLAGS_IF) s).
Definition arch_local_irq_enable : M CS unit := modify (λ s, set_eflags (Z.lor (eflags s) X86_EFLAGS_IF) s).
Definition x86_local_irq_save : M CS Z := flags ← gets eflags; arch_local_irq_disable;; mret flags.
Definition x86_local_irq_restore (flags : Z) : M CS unit := modify (set_eflags flags).

(** An element of an array. *)
Definition at_index (l : list Z) (i : Z) : M CS Z :=
  if bool_decide (0 ≤ i) then match l !! Z.to_nat i with Some x => mret x | None => fault end else fault.
Definition put_index (l : list Z) (i x : Z) : M CS (list Z) :=
  if bool_decide (0 ≤ i < Z.of_nat (length l)) then mret (<[Z.to_nat i := x]> l) else fault.

(** ** intr.c: the interrupt controllers *)
Definition pic_setmask (mask : Z) : M CS unit :=
  b ← gets did_init;
  modify (set_pic (u16 mask) b);;
  if (b : bool) then outb (IO_PIC1 + 1) (u16 mask);; outb (IO_PIC2 + 1) (Z.shiftr (u16 mask) 8) else skip.
Definition pic_umask (irq : Z) : M CS unit := m ← gets irq_mask; pic_setmask (Z.ldiff m (Z.shiftl 1 irq)).
Definition pic_mask (irq : Z) : M CS unit := m ← gets irq_mask; pic_setmask (Z.lor m (Z.shiftl 1 irq)).

Fixpoint outbs (l : list (Z * Z)) : M CS unit :=
  match l with [] => skip | (p, v) :: l => outb p v;; outbs l end.

Definition pic_init : M CS unit :=
  modify (λ s, set_pic (irq_mask s) true s);;
  outbs [(IO_PIC1 + 1, 0xFF); (IO_PIC2 + 1, 0xFF);
         (IO_PIC1, 0x11); (IO_PIC1 + 1, IRQ_OFFSET); (IO_PIC1 + 1, Z.shiftl 1 IRQ_SLAVE); (IO_PIC1 + 1, 0x3);
         (IO_PIC2, 0x11); (IO_PIC2 + 1, IRQ_OFFSET + 8); (IO_PIC2 + 1, IRQ_SLAVE); (IO_PIC2 + 1, 0x3);
         (IO_PIC1, 0x68); (IO_PIC1, 0x0a); (IO_PIC2, 0x68); (IO_PIC2, 0x0a)];;
  m ← gets irq_mask;
  if bool_decide (m ≠ 0xFFFF) then pic_setmask m else skip.
Definition intr_mask (irq : Z) : M CS unit := pic_mask irq.
Definition intr_umask (irq : Z) : M CS unit := pic_umask irq.
Definition intr_enable : M CS unit := arch_local_irq_enable.
Definition intr_disable : M CS unit := arch_local_irq_disable.

(** ** console.c: output *)
Definition delay : M CS unit := inb 0x84;; inb 0x84;; inb 0x84;; inb 0x84;; skip.
(** for (i = 0; !(inb(port) & mask) && i < n; i ++) delay(); *)
Fixpoint poll (n : nat) (port mask : Z) : M CS unit :=
  x ← inb port;
  if bool_decide (Z.land x mask ≠ 0) then skip
  else match n with O => skip | S n => delay;; poll n port mask end.

Definition cell (i : Z) : M CS Z := b ← gets crt_buf; mret (b + 2 * i).
Definition read_cell (i : Z) : M CS Z := a ← cell i; zoom io_lens (vread a).
Definition write_cell (i x : Z) : M CS unit := a ← cell i; zoom io_lens (vwrite a (u16 x)).

Definition cga_init : M CS unit :=
  let cp := CGA_BUF + KERNBASE in
  was ← zoom io_lens (vread cp);
  zoom io_lens (vwrite cp 0xA55A);;
  x ← zoom io_lens (vread cp);
  '(cp, a) ← (if bool_decide (x ≠ 0xA55A) then mret (MONO_BUF + KERNBASE, MONO_BASE)
              else zoom io_lens (vwrite cp was);; mret (cp, CGA_BASE));
  outb a 14;;
  hi ← inb (a + 1);
  outb a 15;;
  lo ← inb (a + 1);
  modify (set_crt cp (u16 (Z.lor (Z.shiftl hi 8) lo)) a).

Definition serial_init : M CS unit :=
  outb (COM1 + COM_FCR) 0;;
  outb (COM1 + COM_LCR) COM_LCR_DLAB;;
  outb (COM1 + COM_DLL) (u8 (115200 / 9600));;
  outb (COM1 + COM_DLM) 0;;
  outb (COM1 + COM_LCR) (Z.ldiff COM_LCR_WLEN8 COM_LCR_DLAB);;
  outb (COM1 + COM_MCR) 0;;
  outb (COM1 + COM_IER) COM_IER_RDI;;
  x ← inb (COM1 + COM_LSR);
  modify (set_serial_exists (bool_decide (x ≠ 0xFF)));;
  inb (COM1 + COM_IIR);;
  inb (COM1 + COM_RX);;
  if bool_decide (x ≠ 0xFF) then intr_umask IRQ_COM1 else skip.

Definition lpt_putc_sub (c : Z) : M CS unit :=
  poll (Z.to_nat 12800) (LPTPORT + 1) 0x80;;
  outb (LPTPORT + 0) c;;
  outb (LPTPORT + 2) (Z.lor (Z.lor 0x08 0x04) 0x01);;
  outb (LPTPORT + 2) 0x08.
Definition lpt_putc (c : Z) : M CS unit :=
  if bool_decide (c ≠ 8) then lpt_putc_sub c else lpt_putc_sub 8;; lpt_putc_sub 32;; lpt_putc_sub 8.

(** memmove of the cells from [i + CRT_COLS] to [i], upwards; then blanks. *)
Fixpoint move_cells (n : nat) (i : Z) : M CS unit :=
  match n with O => skip | S n => x ← read_cell (i + CRT_COLS); write_cell i x;; move_cells n (i + 1) end.
Fixpoint blank_cells (n : nat) (i : Z) : M CS unit :=
  match n with O => skip | S n => write_cell i (Z.lor 0x0700 32);; blank_cells n (i + 1) end.

Definition cga_char (c : Z) : M CS unit :=
  p ← gets crt_pos;
  let ch := Z.land c 0xff in
  if bool_decide (ch = 8) then
    (if bool_decide (p > 0) then modify (set_crt_pos (p - 1));; write_cell (p - 1) (Z.lor (Z.ldiff c 0xff) 32) else skip)
  else if bool_decide (ch = 10) then
    let p := u16 (p + CRT_COLS) in modify (set_crt_pos (p - p mod CRT_COLS))
  else if bool_decide (ch = 13) then modify (set_crt_pos (p - p mod CRT_COLS))
  else modify (set_crt_pos (p + 1));; write_cell p c.
Definition cga_scroll : M CS unit :=
  p ← gets crt_pos;
  if bool_decide (p >= CRT_SIZE) then
    move_cells (Z.to_nat (CRT_SIZE - CRT_COLS)) 0;;
    blank_cells (Z.to_nat CRT_COLS) (CRT_SIZE - CRT_COLS);;
    modify (set_crt_pos (p - CRT_COLS))
  else skip.
Definition cga_cursor : M CS unit :=
  a ← gets addr_6845; p ← gets crt_pos;
  outb a 14;; outb (a + 1) (Z.shiftr p 8);; outb a 15;; outb (a + 1) p.
Definition cga_putc (c : Z) : M CS unit :=
  cga_char (if bool_decide (Z.ldiff c 0xFF = 0) then Z.lor c 0x0700 else c);;
  cga_scroll;;
  cga_cursor.

Definition serial_putc_sub (c : Z) : M CS unit :=
  poll (Z.to_nat 12800) (COM1 + COM_LSR) COM_LSR_TXRDY;;
  outb (COM1 + COM_TX) c.
Definition serial_putc (c : Z) : M CS unit :=
  if bool_decide (c ≠ 8) then serial_putc_sub c else serial_putc_sub 8;; serial_putc_sub 32;; serial_putc_sub 8.

Definition cons_putc (c : Z) : M CS unit :=
  intr_flag ← x86_local_irq_save;
  lpt_putc c;;
  cga_putc c;;
  serial_putc c;;
  x86_local_irq_restore intr_flag.

(** ** stdio.c: output *)
Definition cputchar (c : Z) : M CS unit := cons_putc c.
(** cputch with its counter. *)
Definition cputch (c : Z) : M (CS * Z) unit := λ p,
  match cons_putc c p.1 with
  | Ret (_, s') => Ret ((), (s', s32 (p.2 + 1)))
  | Panic => Panic | Fault => Fault | OutOfFuel => OutOfFuel
  end.
Definition vcprintf (fuel : nat) (fmt : list Z) (ap : list arg) : M CS Z := λ s,
  match vprintfmt cputch fuel fmt 0 ap (s, 0) with
  | Ret (_, (s', cnt)) => Ret (cnt, s')
  | Panic => Panic | Fault => Fault | OutOfFuel => OutOfFuel
  end.
Definition cprintf (fuel : nat) (fmt : list Z) (ap : list arg) : M CS Z := vcprintf fuel fmt ap.
(** The string is the bytes before its terminator; a char is signed. *)
Fixpoint cputs_loop (str : list Z) (cnt : Z) : M CS Z :=
  match str with
  | [] => mret cnt
  | c :: str => cons_putc (s8 c);; cputs_loop str (s32 (cnt + 1))
  end.
Definition cputs (str : list Z) : M CS Z :=
  cnt ← cputs_loop str 0; cons_putc 10;; mret (s32 (cnt + 1)).

(** ** console.c: input *)
Definition cons_store (c : Z) : M CS unit :=
  s ← get;
  b ← put_index (cbuf s) (wpos s) (u8 c);
  let w := u32 (wpos s + 1) in
  modify (set_cons b (rpos s) (if bool_decide (w = CONSBUFSIZE) then 0 else w)).
Fixpoint cons_intr (fuel : nat) (proc : M CS Z) : M CS unit :=
  match fuel with
  | O => out_of_fuel
  | S fuel =>
    c ← proc;
    if bool_decide (c = -1) then skip
    else (if bool_decide (c ≠ 0) then cons_store c else skip);; cons_intr fuel proc
  end.

Definition serial_proc_data : M CS Z :=
  x ← inb (COM1 + COM_LSR);
  if bool_decide (Z.land x COM_LSR_DATA = 0) then mret (-1)
  else c ← inb (COM1 + COM_RX); mret (if bool_decide (c = 127) then 8 else c).
Definition serial_intr (fuel : nat) : M CS unit :=
  b ← gets serial_exists; if (b : bool) then cons_intr fuel serial_proc_data else skip.

(** The tail of kbd_proc_data: a key with scan code [data] goes down. *)
Definition kbd_press (fuel : nat) (data : Z) : M CS Z :=
  sh ← gets shift;
  x ← at_index shiftcode data;
  t ← at_index togglecode data;
  let sh := Z.lxor (Z.lor sh x) t in
  modify (set_shift sh);;
  c ← (match charcode !! Z.to_nat (Z.land sh (Z.lor CTL SHIFT)) with Some m => at_index m data | None => fault end);
  let c := if bool_decide (Z.land sh CAPSLOCK ≠ 0) then
             (if bool_decide (97 ≤ c ∧ c ≤ 122) then c + (65 - 97)
              else if bool_decide (65 ≤ c ∧ c ≤ 90) then c + (97 - 65) else c) else c in
  (if bool_decide (Z.ldiff (Z.lor CTL ALT) sh = 0 ∧ c = KEY_DEL)
   then cprintf fuel (codes "Rebooting!" ++ [10]) [];; outb 0x92 0x3 else skip);;
  mret c.
Definition kbd_proc_data (fuel : nat) : M CS Z :=
  x ← inb KBSTATP;
  if bool_decide (Z.land x KBS_DIB = 0) then mret (-1)
  else
    data ← inb KBDATAP;
    sh ← gets shift;
    if bool_decide (data = 0xE0) then modify (set_shift (Z.lor sh E0ESC));; mret 0
    else if bool_decide (Z.land data 0x80 ≠ 0) then
      let data := if bool_decide (Z.land sh E0ESC ≠ 0) then data else Z.land data 0x7F in
      x ← at_index shiftcode data;
      modify (set_shift (Z.ldiff sh (Z.lor x E0ESC)));; mret 0
    else if bool_decide (Z.land sh E0ESC ≠ 0) then
      modify (set_shift (Z.ldiff sh E0ESC));; kbd_press fuel (Z.lor data 0x80)
    else kbd_press fuel data.
Definition kbd_intr (fuel : nat) : M CS unit := cons_intr fuel (kbd_proc_data fuel).
Definition kbd_init (fuel : nat) : M CS unit := kbd_intr fuel;; intr_umask IRQ_KBD.

Definition cons_init (fuel : nat) : M CS unit :=
  cga_init;;
  serial_init;;
  kbd_init fuel;;
  b ← gets serial_exists;
  if (b : bool) then skip
  else cprintf fuel (codes "serial port does not exist!!" ++ [10]) [];; skip.

(** The next character of the buffer. *)
Definition cons_take : M CS Z :=
  s ← get;
  if bool_decide (rpos s ≠ wpos s) then
    c ← at_index (cbuf s) (rpos s);
    let r := u32 (rpos s + 1) in
    modify (set_cons (cbuf s) (if bool_decide (r = CONSBUFSIZE) then 0 else r) (wpos s));;
    mret c
  else mret 0.
Definition cons_getc (fuel : nat) : M CS Z :=
  intr_flag ← x86_local_irq_save;
  serial_intr fuel;;
  kbd_intr fuel;;
  c ← cons_take;
  x86_local_irq_restore intr_flag;;
  mret c.

(** ** stdio.c and readline.c: input *)
Fixpoint getchar_loop (turns fuel : nat) : M CS Z :=
  match turns with
  | O => out_of_fuel
  | S turns => c ← cons_getc fuel; if bool_decide (c = 0) then getchar_loop turns fuel else mret c
  end.
Definition getchar (fuel : nat) : M CS Z := getchar_loop fuel fuel.

(** The loop of readline; [None] is NULL, [Some ()] the buffer. *)
Fixpoint readline_loop (turns fuel : nat) (i : Z) : M CS (option unit) :=
  match turns with
  | O => out_of_fuel
  | S turns =>
    c ← getchar fuel;
    if bool_decide (c < 0) then mret None
    else if bool_decide (c >= 32 ∧ i < BUFSIZE - 1) then
      cputchar c;;
      b ← gets linebuf; b ← put_index b i (u8 c); modify (set_linebuf b);;
      readline_loop turns fuel (i + 1)
    else if bool_decide (c = 8 ∧ i > 0) then cputchar c;; readline_loop turns fuel (i - 1)
    else if bool_decide (c = 10 ∨ c = 13) then
      cputchar c;;
      b ← gets linebuf; b ← put_index b i 0; modify (set_linebuf b);;
      mret (Some ())
    else readline_loop turns fuel i
  end.
Definition readline (fuel : nat) (prompt : option (list Z)) : M CS (option unit) :=
  (match prompt with Some p => cprintf fuel (codes "%s") [AStr (Some p)];; skip | None => skip end);;
  readline_loop fuel fuel 0.

(** ** clock.c *)
Definition TIMER_FREQ : Z := 1193182.
Definition TIMER_DIV (x : Z) : Z := (TIMER_FREQ + x / 2) / x.
Definition IO_TIMER1 : Z := 0x40.
Definition TIMER_MODE : Z := IO_TIMER1 + 3.
Definition TIMER_SEL0 : Z := 0x00.
Definition TIMER_RATEGEN : Z := 0x04.
Definition TIMER_16BIT : Z := 0x30.
Definition clock_init (fuel : nat) : M CS unit :=
  outb TIMER_MODE (Z.lor (Z.lor TIMER_SEL0 TIMER_RATEGEN) TIMER_16BIT);;
  outb IO_TIMER1 (TIMER_DIV 100 mod 256);;
  outb IO_TIMER1 (TIMER_DIV 100 / 256);;
  modify (set_ticks 0);;
  cprintf fuel (codes "++ setup timer interrupts" ++ [10]) [];;
  intr_umask IRQ_TIMER.
End Model.
