(* ===== verification/ConsoleDev.v ===== *)
(** * The devices of the console

    What the console relies on of the keyboard controller, the serial port, the
    parallel port and the display, as a class: how each access changes what is
    visible of the devices.  A simple machine shows that it can be met. *)
From stdpp Require Import base gmap list fin_maps.
From Stdlib Require Import ZArith Lia.
From S2P Require Import Prelude Bits CString Printfmt Mmu Console.

(** Input that waits, output made so far, the registers of the display. *)
Record devview : Type := MkDev {
  kbd_in : list Z; ser_in : list Z;
  ser_out : list Z; dlab : bool;
  lpt_out : list Z; lpt_latch : Z;
  crt_port : Z; crtc : Z; cursor_hi : Z; cursor_lo : Z;
  vram : gmap Z Z }.

Definition set_kbd_in l (v : devview) : devview :=
  MkDev l (ser_in v) (ser_out v) (dlab v) (lpt_out v) (lpt_latch v) (crt_port v) (crtc v) (cursor_hi v) (cursor_lo v) (vram v).
Definition set_ser_in l (v : devview) : devview :=
  MkDev (kbd_in v) l (ser_out v) (dlab v) (lpt_out v) (lpt_latch v) (crt_port v) (crtc v) (cursor_hi v) (cursor_lo v) (vram v).
Definition set_ser_out l b (v : devview) : devview :=
  MkDev (kbd_in v) (ser_in v) l b (lpt_out v) (lpt_latch v) (crt_port v) (crtc v) (cursor_hi v) (cursor_lo v) (vram v).
Definition set_lpt l x (v : devview) : devview :=
  MkDev (kbd_in v) (ser_in v) (ser_out v) (dlab v) l x (crt_port v) (crtc v) (cursor_hi v) (cursor_lo v) (vram v).
Definition set_crtc i h l (v : devview) : devview :=
  MkDev (kbd_in v) (ser_in v) (ser_out v) (dlab v) (lpt_out v) (lpt_latch v) (crt_port v) i h l (vram v).
Definition set_vram m (v : devview) : devview :=
  MkDev (kbd_in v) (ser_in v) (ser_out v) (dlab v) (lpt_out v) (lpt_latch v) (crt_port v) (crtc v) (cursor_hi v) (cursor_lo v) m.

(** *** Reading a port *)
Definition in_view (p : Z) (v : devview) : devview :=
  if decide (p = KBDATAP) then set_kbd_in (tail (kbd_in v)) v
  else if decide (p = COM1 + COM_RX) then (if dlab v then v else set_ser_in (tail (ser_in v)) v)
  else v.
Record in_ok (p x : Z) (v : devview) : Prop := {
  io_byte : 0 ≤ x < 256;
  io_kbd : p = KBSTATP → (Z.land x KBS_DIB = 0 ↔ kbd_in v = []);
  io_key c l : p = KBDATAP → kbd_in v = c :: l → x = c;
  io_ser : p = COM1 + COM_LSR → (Z.land x COM_LSR_DATA = 0 ↔ ser_in v = []);
  io_char c l : p = COM1 + COM_RX → dlab v = false → ser_in v = c :: l → x = c;
  io_hi : p = crt_port v + 1 → crtc v = 14 → x = cursor_hi v;
  io_lo : p = crt_port v + 1 → crtc v = 15 → x = cursor_lo v }.

(** *** Writing a port *)
Definition out_view (p x : Z) (v : devview) : devview :=
  if decide (p = COM1 + COM_TX) then (if dlab v then v else set_ser_out (ser_out v ++ [x]) (dlab v) v)
  else if decide (p = COM1 + COM_LCR) then set_ser_out (ser_out v) (Z.testbit x 7) v
  else if decide (p = LPTPORT) then set_lpt (lpt_out v) x v
  else if decide (p = LPTPORT + 2) then (if Z.testbit x 0 then set_lpt (lpt_out v ++ [lpt_latch v]) (lpt_latch v) v else v)
  else if decide (p = crt_port v) then set_crtc x (cursor_hi v) (cursor_lo v) v
  else if decide (p = crt_port v + 1) then
    (if decide (crtc v = 14) then set_crtc 14 x (cursor_lo v) v
     else if decide (crtc v = 15) then set_crtc 15 (cursor_hi v) x v else v)
  else v.

(** Queues and registers hold bytes; the display is one of the two kinds. *)
Record dev_ok (v : devview) : Prop := {
  dk_kbd : Forall (λ c, 0 ≤ c < 256) (kbd_in v);
  dk_ser : Forall (λ c, 0 ≤ c < 256) (ser_in v);
  dk_hi : 0 ≤ cursor_hi v < 256;
  dk_lo : 0 ≤ cursor_lo v < 256;
  dk_port : crt_port v = MONO_BASE ∨ crt_port v = CGA_BASE }.

Class Devices {D} (in_port : Z → M D Z) (out_port : Z → Z → M D unit) (vread : Z → M D Z) (vwrite : Z → Z → M D unit)
    (view : D → devview) : Prop := {
  dv_in d p : dev_ok (view d) → ∃ x d', in_port p d = Ret (x, d') ∧ in_ok p x (view d) ∧ view d' = in_view p (view d);
  dv_out d p x : dev_ok (view d) → 0 ≤ x < 256 → ∃ d', out_port p x d = Ret ((), d') ∧ view d' = out_view p x (view d);
  dv_read d a x : vram (view d) !! a = Some x → ∃ d', vread a d = Ret (x, d') ∧ view d' = view d;
  dv_write d a x y : vram (view d) !! a = Some y →
    ∃ d', vwrite a x d = Ret ((), d') ∧ view d' = set_vram (<[a := x]> (vram (view d))) (view d);
  (* an address without memory *)
  dv_read_none d a : vram (view d) !! a = None → ∃ x d', vread a d = Ret (x, d') ∧ x ≠ 0xA55A ∧ view d' = view d;
  dv_write_none d a x : vram (view d) !! a = None → ∃ d', vwrite a x d = Ret ((), d') ∧ view d' = view d }.

Lemma in_view_ok p v : dev_ok v → dev_ok (in_view p v).
Proof.
  intros [H1 H2 H3 H4 H5]. assert (Ht : ∀ l, Forall (λ c, 0 ≤ c < 256) l → Forall (λ c, 0 ≤ c < 256) (tail l)).
  { intros [|c l] Hl; [done|]. by inversion Hl. }
  unfold in_view. repeat case_decide; try by split.
  - split; simpl; try done. by apply Ht.
  - destruct (dlab v); split; simpl; try done. by apply Ht.
Qed.
Lemma out_view_ok p x v : 0 ≤ x < 256 → dev_ok v → dev_ok (out_view p x v).
Proof.
  intros Hx [H1 H2 H3 H4 H5]. unfold out_view.
  repeat case_decide; try (by split); [by destruct (dlab v); split|by destruct (Z.testbit x 0); split].
Qed.
Lemma set_vram_ok m v : dev_ok v → dev_ok (set_vram m v).
Proof. intros [H1 H2 H3 H4 H5]. by split. Qed.
#[export] Hint Resolve in_view_ok out_view_ok set_vram_ok : devices.

(** ** A machine whose devices are always ready *)
Definition ready_in (p : Z) : M devview Z := λ v,
  let x :=
    if decide (p = KBSTATP) then (match kbd_in v with [] => 0 | _ => 1 end)
    else if decide (p = KBDATAP) then (match kbd_in v with c :: _ => u8 c | [] => 0 end)
    else if decide (p = COM1 + COM_LSR) then (match ser_in v with [] => 0x60 | _ => 0x61 end)
    else if decide (p = COM1 + COM_RX) then (match ser_in v with c :: _ => u8 c | [] => 0 end)
    else if decide (p = crt_port v + 1) then
      (if decide (crtc v = 14) then u8 (cursor_hi v) else if decide (crtc v = 15) then u8 (cursor_lo v) else 0xFF)
    else 0xFF in
  Ret (x, in_view p v).
Definition ready_out (p x : Z) : M devview unit := λ v, Ret ((), out_view p x v).
Definition ready_read (a : Z) : M devview Z := λ v, Ret (default 0xFFFF (vram v !! a), v).
Definition ready_write (a x : Z) : M devview unit := λ v,
  Ret ((), match vram v !! a with Some _ => set_vram (<[a := x]> (vram v)) v | None => v end).

#[export] Instance ready_devices : Devices ready_in ready_out ready_read ready_write id.
Proof.
  split; unfold id.
  - intros v p [H1 H2 H3 H4 H5]. eexists _, _. split; [reflexivity|]. split; [|done].
    assert (Hp : crt_port v + 1 ≠ KBSTATP ∧ crt_port v + 1 ≠ KBDATAP ∧ crt_port v + 1 ≠ COM1 + COM_LSR ∧ crt_port v + 1 ≠ COM1 + COM_RX)
      by (destruct H5 as [->| ->]; vm_compute; naive_solver).
    destruct Hp as (P1 & P2 & P3 & P4).
    assert (Hu : ∀ c, 0 ≤ u8 c < 256) by (intros c; apply Z.mod_pos_bound; lia).
    split.
    + repeat case_decide; try apply Hu; repeat case_match; try lia; apply Hu.
    + intros ->. rewrite decide_True by done. destruct (kbd_in v); vm_compute; naive_solver.
    + intros c l -> E. rewrite E in *. inversion H1; subst. rewrite decide_False, decide_True by done. by apply Z.mod_small.
    + intros ->. rewrite !decide_False, decide_True by done. destruct (ser_in v); vm_compute; naive_solver.
    + intros c l -> _ E. rewrite E in *. inversion H2; subst. rewrite !decide_False, decide_True by done. by apply Z.mod_small.
    + intros -> E. rewrite !(decide_False (P := crt_port v + 1 = _)) by done. rewrite decide_True, decide_True by done. by apply Z.mod_small.
    + intros -> E. rewrite !(decide_False (P := crt_port v + 1 = _)) by done. rewrite decide_True, decide_False, decide_True by (done || lia).
      by apply Z.mod_small.
  - intros v p x _ _. by eexists.
  - intros v a x E. exists v. unfold ready_read. by rewrite E.
  - intros v a x y E. eexists. unfold ready_write. by rewrite E.
  - intros v a E. eexists _, v. unfold ready_read. rewrite E. split_and!; [done| |done]. simpl. lia.
  - intros v a x E. exists v. unfold ready_write. by rewrite E.
Qed.
