(* ===== verification/ConsoleOut.v ===== *)
(** * Console output: the ports, the screen *)
From stdpp Require Import base gmap list fin_maps.
From Stdlib Require Import ZArith Lia.
From S2P Require Import Prelude Bits CString Printfmt Mmu Console ConsoleDev.

Section Out.
Context {D : Type} {in_port : Z → M D Z} {out_port : Z → Z → M D unit} {vread : Z → M D Z} {vwrite : Z → Z → M D unit}.
Context {view : D → devview} `{HD : !Devices in_port out_port vread vwrite view}.
Implicit Types (s : console D).
Abbreviation inb' := (inb in_port).
Abbreviation outb' := (outb out_port).

(** What is visible of the devices of a state. *)
Definition vw s : devview := view (io s).
Definition with_io (d : D) s : console D := over io_lens d s.
Lemma with_io_twice d d' s : with_io d' (with_io d s) = with_io d' s.
Proof. done. Qed.
Lemma with_io_id s : with_io (io s) s = s.
Proof. by destruct s. Qed.

(** A computation that only acts on the devices. *)
Definition does (m : M (console D) unit) (f : devview → devview) : Prop :=
  ∀ s, dev_ok (vw s) → ∃ d, m s = Ret ((), with_io d s) ∧ view d = f (vw s) ∧ dev_ok (view d).

Lemma does_skip : does skip id.
Proof. intros s Hs. exists (io s). by rewrite with_io_id. Qed.
Lemma does_bind m n f g : does m f → does n g → does (m;; n) (g ∘ f).
Proof.
  intros Hm Hn s Hs. destruct (Hm s Hs) as (d & E & Hv & Hok). rewrite (bind_Ret _ _ _ _ _ E).
  destruct (Hn (with_io d s) Hok) as (d' & E' & Hv' & Hok'). exists d'. split_and!; [exact E'| |done].
  rewrite Hv'. unfold vw. simpl. by rewrite Hv.
Qed.
Lemma does_ext m f g : (∀ v, f v = g v) → does m f → does m g.
Proof. intros Hfg Hm s Hs. destruct (Hm s Hs) as (d & E & Hv & Hok). exists d. by rewrite <-Hfg. Qed.
Lemma does_outb p x : does (outb' p x) (out_view (u16 p) (u8 x)).
Proof using HD.
  assert (Hx : 0 ≤ u8 x < 256) by (apply Z.mod_pos_bound; lia).
  intros s Hs. destruct (dv_out (io s) (u16 p) (u8 x) Hs Hx) as (d & E & Hv). exists d.
  split_and!; [by apply (zoom_Ret io_lens)|done|]. rewrite Hv. auto with devices.
Qed.
Lemma inb_run s p : dev_ok (vw s) →
  ∃ x d, inb' p s = Ret (x, with_io d s) ∧ in_ok (u16 p) x (vw s) ∧ view d = in_view (u16 p) (vw s) ∧ dev_ok (view d).
Proof using HD.
  intros Hs. destruct (dv_in (io s) (u16 p) Hs) as (x & d & E & Hx & Hv). exists x, d.
  split_and!; [by apply (zoom_Ret io_lens)|done|done|]. rewrite Hv. auto with devices.
Qed.
(** A port whose reading has no effect. *)
Definition quiet (p : Z) : Prop := ∀ v, in_view (u16 p) v = v.
Lemma does_inb p (k : Z → M (console D) unit) f : quiet p → (∀ x, does (k x) f) → does (x ← inb' p; k x) f.
Proof using HD.
  intros Hq Hk s Hs. destruct (inb_run s p Hs) as (x & d & E & _ & Hv & Hok). rewrite (bind_Ret _ _ _ _ _ E).
  destruct (Hk x (with_io d s) Hok) as (d' & E' & Hv' & Hok'). exists d'. split_and!; [exact E'| |done].
  rewrite Hv'. unfold vw in *. simpl. by rewrite Hv, Hq.
Qed.
Lemma does_poll n p mask : quiet p → does (poll in_port n p mask) id.
Proof using HD.
  intros Hq. assert (Hdelay : does (delay in_port) id).
  { unfold delay. do 4 (apply does_inb; [done|intros _]). apply does_skip. }
  induction n as [|n IH]; cbn [poll]; (apply does_inb; [done|intros x]); case_bool_decide; try apply does_skip.
  eapply does_ext; [|apply does_bind; [exact Hdelay|exact IH]]. done.
Qed.

(** ** The parallel and the serial port *)
(** A character as a printer sees it. *)
Definition expand (c : Z) : list Z := if bool_decide (c = 8) then [8; 32; 8] else [u8 c].
Definition lpt_emit (l : list Z) (v : devview) : devview := set_lpt (lpt_out v ++ l) (default (lpt_latch v) (last l)) v.
Definition ser_emit (l : list Z) (v : devview) : devview := set_ser_out (ser_out v ++ l) (dlab v) v.

Lemma lpt_putc_sub_ok c : does (lpt_putc_sub in_port out_port c) (lpt_emit [u8 c]).
Proof using HD.
  eapply does_ext; [|apply does_bind; [apply does_poll; done|]; apply does_bind; [apply does_outb|];
    apply does_bind; apply does_outb]. intros v. simpl. done.
Qed.
Lemma lpt_putc_ok c : does (lpt_putc in_port out_port c) (lpt_emit (expand c)).
Proof using HD.
  unfold lpt_putc, expand. destruct (decide (c = 8)) as [->|Hc].
  - rewrite bool_decide_false by tauto. rewrite bool_decide_true by done.
    eapply does_ext; [|apply does_bind; [apply lpt_putc_sub_ok|]; apply does_bind; apply lpt_putc_sub_ok].
    intros v. unfold lpt_emit. simpl. by rewrite <-!app_assoc.
  - rewrite bool_decide_true by done. rewrite bool_decide_false by done. apply lpt_putc_sub_ok.
Qed.

(** The serial port with the divisor latch closed. *)
Definition does_ser (m : M (console D) unit) (l : list Z) : Prop :=
  ∀ s, dev_ok (vw s) → dlab (vw s) = false → ∃ d, m s = Ret ((), with_io d s) ∧ view d = ser_emit l (vw s) ∧ dev_ok (view d).
Lemma does_ser_bind m n k l : does_ser m k → does_ser n l → does_ser (m;; n) (k ++ l).
Proof.
  intros Hm Hn s Hs Hl. destruct (Hm s Hs Hl) as (d & E & Hv & Hok). rewrite (bind_Ret _ _ _ _ _ E).
  destruct (Hn (with_io d s) Hok) as (d' & E' & Hv' & Hok'); [unfold vw; simpl; by rewrite Hv|].
  exists d'. split_and!; [exact E'| |done]. rewrite Hv'. unfold vw in *. simpl. rewrite Hv. unfold ser_emit. simpl. by rewrite <-app_assoc.
Qed.
Lemma serial_putc_sub_ok c : does_ser (serial_putc_sub in_port out_port c) [u8 c].
Proof using HD.
  intros s Hs Hl. destruct (does_bind _ _ _ _ (does_poll (Z.to_nat 12800) (COM1 + COM_LSR) COM_LSR_TXRDY (λ v, eq_refl))
    (does_outb (COM1 + COM_TX) c) s Hs) as (d & E & Hv & Hok). exists d. split_and!; [exact E| |done].
  rewrite Hv. unfold compose, id, out_view, ser_emit. rewrite decide_True by done. by rewrite Hl.
Qed.
Lemma serial_putc_ok c : does_ser (serial_putc in_port out_port c) (expand c).
Proof using HD.
  unfold serial_putc, expand. destruct (decide (c = 8)) as [->|Hc].
  - rewrite bool_decide_false by tauto. rewrite bool_decide_true by done.
    apply (does_ser_bind _ _ [8] [32; 8]); [apply serial_putc_sub_ok|].
    apply (does_ser_bind _ _ [32] [8]); apply serial_putc_sub_ok.
  - rewrite bool_decide_true by done. rewrite bool_decide_false by done. apply serial_putc_sub_ok.
Qed.

(** ** The screen *)
(** A terminal of CRT_SIZE cells with its cursor. *)
Record term : Type := MkTerm { scr : list Z; pos : Z }.
Definition blank : Z := 0x720.
Definition attr (c : Z) : Z := if bool_decide (Z.ldiff c 0xFF = 0) then Z.lor c 0x0700 else c.
Definition term_char (c : Z) (t : term) : term :=
  let ch := Z.land c 0xff in
  if bool_decide (ch = 8) then
    if bool_decide (0 < pos t) then MkTerm (<[Z.to_nat (pos t - 1) := u16 (Z.lor (Z.ldiff c 0xff) 32)]> (scr t)) (pos t - 1) else t
  else if bool_decide (ch = 10) then MkTerm (scr t) ((pos t / CRT_COLS + 1) * CRT_COLS)
  else if bool_decide (ch = 13) then MkTerm (scr t) (pos t / CRT_COLS * CRT_COLS)
  else MkTerm (<[Z.to_nat (pos t) := u16 c]> (scr t)) (pos t + 1).
(** The lines move up by one when the cursor is below the last. *)
Definition term_scroll (t : term) : term :=
  if bool_decide (CRT_SIZE ≤ pos t) then MkTerm (drop 80 (scr t) ++ replicate 80 blank) (pos t - CRT_COLS) else t.
Definition term_putc (c : Z) (t : term) : term := term_scroll (term_char (attr c) t).

(** The video memory holds the terminal. *)
Record holds_term (v : devview) (base : Z) (l : list Z) : Prop := {
  ht_len : length l = Z.to_nat CRT_SIZE;
  ht_words : Forall (λ x, 0 ≤ x < 2 ^ 16) l;
  ht_cells i : (i < Z.to_nat CRT_SIZE)%nat → vram v !! (base + 2 * Z.of_nat i) = l !! i }.
(** Only video memory changed. *)
Definition draws (v v' : devview) : Prop := v' = set_vram (vram v') v.
Lemma draws_trans v1 v2 v3 : draws v1 v2 → draws v2 v3 → draws v1 v3.
Proof. unfold draws. intros E1 E2. rewrite E2, E1. done. Qed.
Lemma draws_refl v : draws v v.
Proof. by destruct v. Qed.
Lemma draws_ok v v' : draws v v' → dev_ok v → dev_ok v'.
Proof. intros -> Hv. auto with devices. Qed.

(** Running [m] draws [l'] over [l]. *)
Definition drawn (m : M (console D) unit) s (l l' : list Z) : Prop :=
  holds_term (vw s) (crt_buf s) l → ∃ d, m s = Ret ((), with_io d s) ∧ draws (vw s) (view d) ∧ holds_term (view d) (crt_buf s) l'.
Lemma drawn_bind m n s l1 l2 l3 :
  drawn m s l1 l2 → (∀ d, drawn n (with_io d s) l2 l3) → drawn (m;; n) s l1 l3.
Proof.
  intros Hm Hn Hl. destruct (Hm Hl) as (d & E & Hd & Hl2). rewrite (bind_Ret _ _ _ _ _ E).
  destruct (Hn d Hl2) as (d' & E' & Hd' & Hl3). exists d'. split_and!; [exact E'| |done]. by eapply draws_trans.
Qed.

Abbreviation write_cell' := (write_cell vwrite).
Lemma write_cell_ok s l (i : nat) x : (i < Z.to_nat CRT_SIZE)%nat →
  drawn (write_cell' (Z.of_nat i) x) s l (<[i := u16 x]> l).
Proof using HD.
  intros Hi [Hlen Hw Hc]. assert (is_Some (l !! i)) as [y Hy] by (apply lookup_lt_is_Some; lia).
  pose proof (Hc i Hi) as Ha. rewrite Hy in Ha.
  destruct (dv_write (io s) _ (u16 x) y Ha) as (d & E & Hv). exists d. split_and!.
  - unfold write_cell, cell. rewrite bind_assoc, bind_gets, bind_mret. by apply (zoom_Ret io_lens).
  - rewrite Hv. done.
  - rewrite Hv. split; [by rewrite length_insert|apply Forall_insert; [done|apply Z.mod_pos_bound; lia]|]. intros j Hj. simpl. destruct (decide (j = i)) as [->|Hne].
    + rewrite lookup_insert_eq, list_lookup_insert_eq; [done|lia].
    + rewrite lookup_insert_ne, list_lookup_insert_ne by lia. by apply Hc.
Qed.
Lemma read_cell_run s l (i : nat) y : holds_term (vw s) (crt_buf s) l → l !! i = Some y →
  ∃ d, read_cell vread (Z.of_nat i) s = Ret (y, with_io d s) ∧ view d = vw s.
Proof using HD.
  intros [Hlen Hw Hc] Hy. pose proof (lookup_lt_Some _ _ _ Hy) as Hi. rewrite Hlen in Hi.
  pose proof (Hc i Hi) as Ha. rewrite Hy in Ha. destruct (dv_read (io s) _ y Ha) as (d & E & Hv). exists d. split; [|done].
  unfold read_cell, cell. rewrite bind_assoc, bind_gets, bind_mret. by apply (zoom_Ret io_lens).
Qed.

(** The loops of the scrolling as functions of the cells. *)
Fixpoint blanked (n i : nat) (l : list Z) : list Z := match n with O => l | S n => blanked n (S i) (<[i := blank]> l) end.
Fixpoint moved (n i : nat) (l : list Z) : list Z :=
  match n with O => l | S n => moved n (S i) (<[i := default 0 (l !! (i + 80)%nat)]> l) end.

Lemma drawn_skip s l : drawn skip s l l.
Proof. intros Hl. exists (io s). rewrite with_io_id. split_and!; [done|apply draws_refl|done]. Qed.
Lemma blank_cells_ok n s l i : (i + n ≤ Z.to_nat CRT_SIZE)%nat → drawn (blank_cells vwrite n (Z.of_nat i)) s l (blanked n i l).
Proof using HD.
  revert s l i. induction n as [|n IH]; intros s l i Hn; cbn [blank_cells blanked]; [apply drawn_skip|].
  eapply drawn_bind; [apply write_cell_ok; lia|]. intros d. replace (Z.of_nat i + 1) with (Z.of_nat (S i)) by lia. apply IH. lia.
Qed.
Lemma move_cells_ok n s l i : (i + n + 80 ≤ Z.to_nat CRT_SIZE)%nat → drawn (move_cells vread vwrite n (Z.of_nat i)) s l (moved n i l).
Proof using HD.
  revert s l i. induction n as [|n IH]; intros s l i Hn; cbn [move_cells moved]; [apply drawn_skip|].
  intros Hl. pose proof Hl as [Hlen Hw Hc]. assert (is_Some (l !! (i + 80)%nat)) as [y Hy] by (apply lookup_lt_is_Some; lia).
  destruct (read_cell_run s l (i + 80) y Hl Hy) as (d & E & Hv). replace (Z.of_nat (i + 80)) with (Z.of_nat i + CRT_COLS) in E by (unfold CRT_COLS; lia).
  rewrite (bind_Ret _ _ _ _ _ E), Hy. simpl. eapply Forall_lookup_1 in Hw as Hy16; [|exact Hy].
  assert (Hl' : holds_term (vw (with_io d s)) (crt_buf (with_io d s)) l) by (unfold vw; simpl; by rewrite Hv).
  assert (Hd : drawn (write_cell' (Z.of_nat i) y;; move_cells vread vwrite n (Z.of_nat i + 1)) (with_io d s) l
    (moved n (S i) (<[i := u16 y]> l))).
  { eapply drawn_bind; [apply write_cell_ok; lia|]. intros d'. replace (Z.of_nat i + 1) with (Z.of_nat (S i)) by lia. apply IH. lia. }
  destruct (Hd Hl') as (d' & E' & Hd' & Hl2). exists d'. split_and!; [exact E'| |].
  - unfold vw in Hd'. simpl in Hd'. by rewrite Hv in Hd'.
  - replace y with (u16 y) by (by apply Z.mod_small). exact Hl2.
Qed.

Lemma blanked_lookup n i l j : (i + n ≤ length l)%nat → blanked n i l !! j = if decide (i ≤ j < i + n)%nat then Some blank else l !! j.
Proof.
  revert i l. induction n as [|n IH]; intros i l Hn; cbn [blanked]; [by rewrite decide_False by lia|].
  rewrite IH by (rewrite length_insert; lia). repeat case_decide; try lia; try done.
  - assert (j = i) as -> by lia. rewrite list_lookup_insert_eq; [done|lia].
  - by rewrite list_lookup_insert_ne by lia.
Qed.
Lemma moved_lookup n i l j : (i + n + 80 ≤ length l)%nat → moved n i l !! j = if decide (i ≤ j < i + n)%nat then l !! (j + 80)%nat else l !! j.
Proof.
  revert i l. induction n as [|n IH]; intros i l Hn; cbn [moved]; [by rewrite decide_False by lia|].
  rewrite IH by (rewrite length_insert; lia).
  assert (is_Some (l !! (i + 80)%nat)) as [y Hy] by (apply lookup_lt_is_Some; lia). rewrite Hy. simpl.
  repeat case_decide; try lia; try (by rewrite list_lookup_insert_ne by lia).
  assert (j = i) as -> by lia. rewrite list_lookup_insert_eq; [done|lia].
Qed.
Lemma moved_length n i l : length (moved n i l) = length l.
Proof. revert i l. induction n as [|n IH]; intros i l; cbn [moved]; [done|]. by rewrite IH, length_insert. Qed.

(** Scrolling. *)
Lemma scrolled a l : length l = (a + 80)%nat → blanked 80 a (moved a 0 l) = drop 80 l ++ replicate 80 blank.
Proof.
  intros Hl. apply list_eq. intros j. rewrite blanked_lookup by (rewrite moved_length, Hl; lia). rewrite moved_lookup by (rewrite Hl; lia).
  destruct (decide (j < a)%nat) as [Hj|Hj].
  - rewrite decide_False, decide_True by lia. rewrite lookup_app_l by (rewrite length_drop, Hl; lia). by rewrite lookup_drop, Nat.add_comm.
  - rewrite lookup_app_r by (rewrite length_drop, Hl; lia). rewrite length_drop, Hl. destruct (decide (j < a + 80)%nat) as [Hj2|Hj2].
    + rewrite decide_True by lia. rewrite lookup_replicate_2; [done|lia].
    + rewrite !decide_False by lia. rewrite lookup_ge_None_2 by lia. symmetry. apply lookup_ge_None_2. rewrite length_replicate. lia.
Qed.

(** The console of a terminal. *)
Record shows s (t : term) : Prop := {
  sw_term : holds_term (vw s) (crt_buf s) (scr t);
  sw_pos : crt_pos s = pos t;
  sw_range : 0 ≤ pos t < CRT_SIZE;
  sw_port : addr_6845 s = crt_port (vw s) }.

Lemma cga_char_ok c s t : shows s t → let t' := term_char c t in
  ∃ d, cga_char vwrite c s = Ret ((), with_io d (set_crt_pos (pos t') s)) ∧ draws (vw s) (view d) ∧
    holds_term (view d) (crt_buf s) (scr t') ∧ 0 ≤ pos t' < CRT_SIZE + CRT_COLS.
Proof using HD.
  intros [Hl Hp Hr Ha] t'. unfold CRT_SIZE, CRT_ROWS, CRT_COLS in Hr. unfold cga_char. rewrite bind_gets, Hp. unfold t', term_char.
  assert (Hstay : ∀ p, ∃ d, (modify (set_crt_pos p) : M (console D) unit) s = Ret ((), with_io d (set_crt_pos p s)) ∧
    draws (vw s) (view d) ∧ holds_term (view d) (crt_buf s) (scr t)).
  { intros p. exists (io s). split_and!; [done|apply draws_refl|done]. }
  assert (Hput : ∀ (i : nat) p x, (i < Z.to_nat CRT_SIZE)%nat → ∃ d,
    (modify (set_crt_pos p);; write_cell' (Z.of_nat i) x) s = Ret ((), with_io d (set_crt_pos p s)) ∧
    draws (vw s) (view d) ∧ holds_term (view d) (crt_buf s) (<[i := u16 x]> (scr t))).
  { intros i p x Hi. rewrite bind_modify. exact (write_cell_ok (set_crt_pos p s) (scr t) i x Hi Hl). }
  assert (Hsz : Z.to_nat CRT_SIZE = 2000%nat) by done. unfold CRT_SIZE, CRT_ROWS, CRT_COLS in *.
  case_bool_decide as C1; [|case_bool_decide as C2; [|case_bool_decide as C3]].
  - destruct (decide (0 < pos t)) as [Hgt|Hz].
    + rewrite !bool_decide_true by lia. destruct (Hput (Z.to_nat (pos t - 1)) (pos t - 1) (Z.lor (Z.ldiff c 255) 32)) as (d & E & H1 & H2);
        [rewrite Hsz; lia|]. rewrite Z2Nat.id in E by lia. exists d. split_and!; [exact E|done|done|simpl; lia..].
    + rewrite !bool_decide_false by lia. exists (io s). split_and!; [|apply draws_refl|done|lia..].
      unfold with_io, set_crt_pos. rewrite <-Hp. rewrite <-Hp in Hr. unfold u16. rewrite Z.mod_small by lia. by destruct s.
  - simpl. destruct (Hstay (u16 (pos t + 80) - u16 (pos t + 80) mod 80)) as (d & E & H1 & H2). exists d.
    assert (Eq : u16 (pos t + 80) - u16 (pos t + 80) mod 80 = (pos t / 80 + 1) * 80).
    { unfold u16. rewrite (Z.mod_small (pos t + 80)) by lia. Z.div_mod_to_equations. lia. }
    rewrite Eq in *. pose proof (Z.div_mod (pos t) 80 ltac:(lia)). pose proof (Z.mod_pos_bound (pos t) 80 ltac:(lia)).
    split_and!; [exact E|done|done|lia|lia].
  - simpl. destruct (Hstay (pos t - pos t mod 80)) as (d & E & H1 & H2). exists d.
    assert (Eq : pos t - pos t mod 80 = pos t / 80 * 80) by (pose proof (Z.div_mod (pos t) 80 ltac:(lia)); lia).
    rewrite Eq in *. pose proof (Z.mod_pos_bound (pos t) 80 ltac:(lia)). split_and!; [exact E|done|done|lia|lia].
  - destruct (Hput (Z.to_nat (pos t)) (pos t + 1) c) as (d & E & H1 & H2); [rewrite Hsz; lia|].
    rewrite Z2Nat.id in E by lia. exists d. split_and!; [exact E|done|done|simpl; lia..].
Qed.

Lemma cga_scroll_ok s t : holds_term (vw s) (crt_buf s) (scr t) → crt_pos s = pos t → 0 ≤ pos t < CRT_SIZE + CRT_COLS →
  let t' := term_scroll t in ∃ d, cga_scroll vread vwrite s = Ret ((), with_io d (set_crt_pos (pos t') s)) ∧ draws (vw s) (view d) ∧
    holds_term (view d) (crt_buf s) (scr t') ∧ 0 ≤ pos t' < CRT_SIZE.
Proof using HD.
  intros Hl Hp Hr t'. unfold cga_scroll. rewrite bind_gets, Hp. unfold t', term_scroll.
  unfold CRT_SIZE, CRT_ROWS, CRT_COLS in Hr. destruct (decide (CRT_SIZE ≤ pos t)) as [Hge|Hlt].
  - rewrite !bool_decide_true by lia.
    assert (Hd : drawn (move_cells vread vwrite (Z.to_nat (CRT_SIZE - CRT_COLS)) 0;;
       blank_cells vwrite (Z.to_nat CRT_COLS) (CRT_SIZE - CRT_COLS)) s (scr t) (drop 80 (scr t) ++ replicate 80 blank)).
    { rewrite <-(scrolled (Z.to_nat (CRT_SIZE - CRT_COLS))) by apply Hl. eapply drawn_bind.
      - apply (move_cells_ok _ s (scr t) 0). vm_compute. lia.
      - intros d. apply (blank_cells_ok 80 (with_io d s) _ (Z.to_nat (CRT_SIZE - CRT_COLS))). vm_compute. lia. }
    destruct (Hd Hl) as (d & E & Hd1 & Hd2). exists d. unfold CRT_SIZE, CRT_ROWS, CRT_COLS in *. split_and!; [|done|done|simpl; lia..].
    rewrite <-bind_assoc, (bind_Ret _ _ _ _ _ E). done.
  - unfold CRT_SIZE, CRT_ROWS, CRT_COLS in *. rewrite !bool_decide_false by lia. exists (io s).
    split_and!; [|apply draws_refl|done|lia..]. unfold with_io, set_crt_pos. rewrite <-Hp. rewrite <-Hp in Hr.
    unfold u16. rewrite Z.mod_small by lia. by destruct s.
Qed.

(** The cursor registers follow the position. *)
Lemma cga_cursor_ok s : addr_6845 s = crt_port (vw s) → dev_ok (vw s) → 0 ≤ crt_pos s < CRT_SIZE →
  ∃ d, cga_cursor out_port s = Ret ((), with_io d s) ∧ dev_ok (view d) ∧
    view d = set_crtc 15 (crt_pos s / 256) (crt_pos s mod 256) (vw s).
Proof using HD.
  intros Ha Hok Hr. unfold cga_cursor. rewrite !bind_gets. set (a := addr_6845 s) in *. set (p := crt_pos s) in *.
  destruct (does_bind _ _ _ _ (does_outb a 14) (does_bind _ _ _ _ (does_outb (a + 1) (Z.shiftr p 8))
    (does_bind _ _ _ _ (does_outb a 15) (does_outb (a + 1) p))) s Hok) as (d & E & Hv & Hok').
  exists d. split_and!; [exact E|done|]. rewrite Hv. unfold compose.
  assert (Hp : u8 (Z.shiftr p 8) = p / 256 ∧ u8 p = p mod 256).
  { rewrite Z.shiftr_div_pow2 by lia. unfold u8. split; [|done]. apply Z.mod_small. unfold CRT_SIZE, CRT_ROWS, CRT_COLS in Hr.
    change (2 ^ 8) with 256. Z.div_mod_to_equations. lia. }
  destruct Hp as [-> ->]. change (u8 14) with 14. change (u8 15) with 15.
  pose proof (dk_port _ Hok) as Hport. rewrite <-Ha in Hport.
  assert (Hnear : ∀ x v, crt_port v = a → out_view (u16 a) x v = set_crtc x (cursor_hi v) (cursor_lo v) v ∧
     out_view (u16 (a + 1)) x v = if decide (crtc v = 14) then set_crtc 14 x (cursor_lo v) v
       else if decide (crtc v = 15) then set_crtc 15 (cursor_hi v) x v else v).
  { intros x v Ev. unfold out_view. rewrite Ev. destruct Hport as [->| ->]; done. }
  set (v0 := vw s) in *. symmetry in Ha.
  rewrite (proj1 (Hnear 14 v0 Ha)). rewrite (proj2 (Hnear (p / 256) (set_crtc 14 (cursor_hi v0) (cursor_lo v0) v0) Ha)).
  rewrite decide_True by done.
  match goal with |- out_view _ _ (out_view _ _ ?w) = _ => rewrite (proj1 (Hnear 15 w Ha)) end.
  match goal with |- out_view _ _ ?w = _ => rewrite (proj2 (Hnear (p mod 256) w Ha)) end.
  rewrite decide_False, decide_True by done. done.
Qed.

(** ** Printing *)
Record prints (cs : list Z) s s' (t : term) : Prop := {
  pr_shows : shows s' (foldl (λ t c, term_putc c t) t cs);
  pr_state : s' = with_io (io s') (set_crt_pos (crt_pos s') s);
  pr_ok : dev_ok (vw s');
  pr_ser : ser_out (vw s') = ser_out (vw s) ++ (cs ≫= expand);
  pr_lpt : lpt_out (vw s') = lpt_out (vw s) ++ (cs ≫= expand);
  pr_cursor : cs ≠ [] → cursor_hi (vw s') * 256 + cursor_lo (vw s') = crt_pos s';
  pr_rest : kbd_in (vw s') = kbd_in (vw s) ∧ ser_in (vw s') = ser_in (vw s) ∧ dlab (vw s') = dlab (vw s) ∧
    crt_port (vw s') = crt_port (vw s) }.

Lemma cga_putc_ok c s t : shows s t → dev_ok (vw s) → let t' := term_putc c t in ∃ d,
  cga_putc out_port vread vwrite c s = Ret ((), with_io d (set_crt_pos (pos t') s)) ∧ dev_ok (view d) ∧
  holds_term (view d) (crt_buf s) (scr t') ∧ 0 ≤ pos t' < CRT_SIZE ∧
  ∃ m, view d = set_crtc 15 (pos t' / 256) (pos t' mod 256) (set_vram m (vw s)).
Proof using HD.
  intros Hs Hok t'. unfold cga_putc. destruct (cga_char_ok (attr c) s t Hs) as (d1 & E1 & D1 & H1 & R1).
  rewrite (bind_Ret _ _ _ _ _ E1). set (t1 := term_char (attr c) t) in *. set (s1 := with_io d1 (set_crt_pos (pos t1) s)).
  assert (Hu : ∀ p, 0 ≤ p < CRT_SIZE + CRT_COLS → u16 p = p).
  { intros p Hp. apply Z.mod_small. unfold CRT_SIZE, CRT_ROWS, CRT_COLS in Hp. lia. }
  destruct (cga_scroll_ok s1 t1) as (d2 & E2 & D2 & H2 & R2); [exact H1|by apply Hu|done|].
  rewrite (bind_Ret _ _ _ _ _ E2). fold t' in E2, H2, R2.
  change (with_io d2 (set_crt_pos (pos (term_scroll t1)) s1)) with (with_io d2 (set_crt_pos (pos t') s)).
  pose proof (draws_trans _ _ _ D1 D2) as D12. set (s2 := with_io d2 (set_crt_pos (pos t') s)).
  change (0 ≤ pos t' < CRT_SIZE) in R2. assert (Hp2 : crt_pos s2 = pos t') by (apply Hu; unfold CRT_COLS; lia).
  destruct (cga_cursor_ok s2) as (d3 & E3 & Hok3 & Hv3).
  - unfold s2, vw. simpl. rewrite D12. apply Hs.
  - unfold s2, vw. simpl. by apply (draws_ok _ _ D12).
  - by rewrite Hp2.
  - exists d3. split_and!; [exact E3|done| |lia|lia|].
    + rewrite Hv3. destruct H2 as [L1 L2 L3]. by split.
    + exists (vram (view d2)). rewrite Hv3, Hp2. unfold s2, vw. simpl. by rewrite D12.
Qed.

Abbreviation cons_putc' := (cons_putc in_port out_port vread vwrite).
Lemma cons_putc_ok c s t : shows s t → dev_ok (vw s) → dlab (vw s) = false →
  ∃ s', cons_putc' c s = Ret ((), s') ∧ prints [c] s s' t.
Proof using HD.
  intros Hs Hok Hl. unfold cons_putc, x86_local_irq_save, arch_local_irq_disable.
  rewrite bind_assoc, bind_gets, bind_assoc, bind_modify, bind_mret. set (s0 := set_eflags _ s).
  destruct (lpt_putc_ok c s0 Hok) as (d1 & E1 & Hv1 & Hok1). rewrite (bind_Ret _ _ _ _ _ E1).
  destruct (cga_putc_ok c (with_io d1 s0) t) as (d2 & E2 & Hok2 & H2 & R2 & m & Hv2).
  - destruct Hs as [[L1 L2 L3] S2 S3 S4]. split; try done.
    + unfold vw. simpl. rewrite Hv1. by split.
    + unfold vw. simpl. by rewrite Hv1.
  - exact Hok1.
  - rewrite (bind_Ret _ _ _ _ _ E2). unfold vw in Hv2. simpl in Hv2. rewrite Hv1 in Hv2. set (p := pos (term_putc c t)) in *.
    destruct (serial_putc_ok c (with_io d2 (set_crt_pos p (with_io d1 s0)))) as (d3 & E3 & Hv3 & Hok3); [exact Hok2|unfold vw; simpl; by rewrite Hv2|].
    rewrite (bind_Ret _ _ _ _ _ E3). unfold vw in Hv3. simpl in Hv3. rewrite Hv2 in Hv3. clear E1 E2 E3.
    set (s' := with_io d3 (set_crt_pos p s)). assert (Es : with_io d3 (set_crt_pos p s0) = set_eflags (eflags s0) s') by done.
    exists s'. split; [unfold s'; by destruct s|]. change (vw s0) with (vw s) in *.
    assert (Hpu : u16 p = p) by (apply Z.mod_small; unfold CRT_SIZE, CRT_ROWS, CRT_COLS in R2; lia).
    assert (Hvs : vw s' = ser_emit (expand c) (set_crtc 15 (p / 256) (p mod 256) (set_vram m (lpt_emit (expand c) (vw s))))) by exact Hv3.
    destruct H2 as [L1 L2 L3]. split; try (rewrite Hvs; simpl; by rewrite ?app_nil_r).
    + split; simpl.
      * split; try done. intros i Hi. rewrite Hvs. rewrite Hv2 in L3. by apply L3.
      * exact Hpu.
      * exact R2.
      * rewrite Hvs. apply Hs.
    + unfold s'. simpl. unfold set_crt_pos. simpl. by rewrite !Hpu.
    + exact Hok3.
    + intros _. rewrite Hvs. simpl. rewrite Hpu. pose proof (Z.div_mod p 256 ltac:(lia)). lia.
Qed.

Lemma prints_nil s t : shows s t → dev_ok (vw s) → prints [] s s t.
Proof.
  intros Hs Hok. split; simpl; try done; try (by rewrite app_nil_r). unfold with_io, set_crt_pos.
  rewrite (sw_pos _ _ Hs). pose proof (sw_range _ _ Hs) as Hr. unfold CRT_SIZE, CRT_ROWS, CRT_COLS in Hr.
  unfold u16. rewrite Z.mod_small by lia. rewrite <-(sw_pos _ _ Hs). by destruct s.
Qed.
Lemma prints_app cs ds s s1 s2 t : ds ≠ [] →
  prints cs s s1 t → prints ds s1 s2 (foldl (λ t c, term_putc c t) t cs) → prints (cs ++ ds) s s2 t.
Proof.
  intros Hd [P1 P2 P3 P4 P5 P6 (P7 & P8 & P9 & P10)] [Q1 Q2 Q3 Q4 Q5 Q6 (Q7 & Q8 & Q9 & Q10)]. split.
  - by rewrite foldl_app.
  - rewrite Q2 at 1. rewrite P2. done.
  - done.
  - by rewrite Q4, P4, bind_app, app_assoc.
  - by rewrite Q5, P5, bind_app, app_assoc.
  - intros _. by apply Q6.
  - split_and!; congruence.
Qed.
Lemma prints_snoc cs c s s1 s2 t :
  prints cs s s1 t → prints [c] s1 s2 (foldl (λ t c, term_putc c t) t cs) → prints (cs ++ [c]) s s2 t.
Proof. by apply prints_app. Qed.

(** What vprintfmt makes of the format appears on the console. *)
Record on_console s (t : term) (l : list Z) (p : console D * Z) : Prop := {
  oc_prints : prints l s p.1 t;
  oc_cnt : p.2 = s32 (Z.of_nat (length l)) }.
Lemma cputch_sim s t c : dlab (vw s) = false → sim (on_console s t) (lputch c) (cputch in_port out_port vread vwrite c).
Proof using HD.
  intros Hl l [s1 n] [] l' [Hp Hn] [= <-]. simpl in *. unfold cputch. simpl.
  destruct (cons_putc_ok c s1 _ (pr_shows _ _ _ _ Hp) (pr_ok _ _ _ _ Hp)) as (s2 & -> & Hp2).
  - destruct (pr_rest _ _ _ _ Hp) as (_ & _ & -> & _). done.
  - eexists. split; [done|]. split; simpl; [by eapply prints_snoc|]. rewrite Hn, s32_add_l, length_app. simpl. f_equal. lia.
Qed.
Lemma vcprintf_ok fuel fmt ap l s t : shows s t → dev_ok (vw s) → dlab (vw s) = false → output fuel fmt ap = Ret ((), l) →
  ∃ s', vcprintf in_port out_port vread vwrite fuel fmt ap s = Ret (s32 (Z.of_nat (length l)), s') ∧ prints l s s' t.
Proof using HD.
  intros Hs Hok Hl E. unfold vcprintf.
  destruct (sim_vprintfmt _ _ _ (λ c, cputch_sim s t c Hl) fuel fmt 0 ap [] (s, 0) () l) as ([s' n] & -> & [Hp Hn]); [|exact E|].
  - split; [by apply prints_nil|done].
  - simpl in *. exists s'. by subst n.
Qed.

Lemma cputs_ok str s t : shows s t → dev_ok (vw s) → dlab (vw s) = false →
  ∃ s', cputs in_port out_port vread vwrite str s = Ret (s32 (Z.of_nat (length str) + 1), s') ∧
    prints ((s8 <$> str) ++ [10]) s s' t.
Proof using HD.
  intros Hs Hok Hl. unfold cputs.
  assert (Hloop : ∀ str cs s1 n, prints cs s s1 t → n = s32 (Z.of_nat (length cs)) → ∃ s2,
    cputs_loop in_port out_port vread vwrite str n s1 = Ret (s32 (Z.of_nat (length cs + length str)), s2) ∧ prints (cs ++ (s8 <$> str)) s s2 t).
  { clear str. intros str. induction str as [|c str IH]; intros cs s1 n Hp Hn; cbn [cputs_loop].
    - exists s1. rewrite Nat.add_0_r, app_nil_r. by subst n.
    - destruct (cons_putc_ok (s8 c) s1 _ (pr_shows _ _ _ _ Hp) (pr_ok _ _ _ _ Hp)) as (s2 & E & Hp2).
      { destruct (pr_rest _ _ _ _ Hp) as (_ & _ & -> & _). done. }
      rewrite (bind_Ret _ _ _ _ _ E). destruct (IH (cs ++ [s8 c]) s2 (s32 (n + 1))) as (s3 & E3 & Hp3).
      + by eapply prints_snoc.
      + rewrite Hn, s32_add_l, length_app. simpl. f_equal. lia.
      + exists s3. split; [rewrite E3; do 3 f_equal; rewrite length_app; simpl; lia|]. by rewrite <-app_assoc in Hp3. }
  destruct (Hloop str [] s 0) as (s1 & E1 & Hp1); [by apply prints_nil|done|]. rewrite (bind_Ret _ _ _ _ _ E1).
  destruct (cons_putc_ok 10 s1 _ (pr_shows _ _ _ _ Hp1) (pr_ok _ _ _ _ Hp1)) as (s2 & E2 & Hp2).
  { destruct (pr_rest _ _ _ _ Hp1) as (_ & _ & -> & _). done. }
  rewrite (bind_Ret _ _ _ _ _ E2). exists s2. split; [|by eapply prints_snoc]. unfold mret, M_ret. by rewrite s32_add_l.
Qed.
End Out.
