(* ===== verification/ConsoleIn.v ===== *)
(** * Console input: the ring buffer, the keyboard, lines *)
From stdpp Require Import base gmap list fin_maps.
From Stdlib Require Import ZArith Lia.
From S2P Require Import Prelude Bits CString Printfmt Mmu Console ConsoleDev ConsoleOut.

(** ** The ring buffer *)
(** The characters between the two positions. *)
Definition ring (b : list Z) (r w : Z) : list Z :=
  (λ i, default 0 (b !! Z.to_nat ((r + i) mod CONSBUFSIZE))) <$> seqZ 0 ((w - r) mod CONSBUFSIZE).
(** A character more; the buffer seems empty when it is full. *)
Definition push (q : list Z) (c : Z) : list Z := if bool_decide (length q = 511)%nat then [] else q ++ [c].

Lemma ring_length b r w : length (ring b r w) = Z.to_nat ((w - r) mod CONSBUFSIZE).
Proof. unfold ring. by rewrite length_fmap, length_seqZ. Qed.
Lemma ring_push b r w c :
  length b = Z.to_nat CONSBUFSIZE → 0 ≤ r < CONSBUFSIZE → 0 ≤ w < CONSBUFSIZE →
  ring (<[Z.to_nat w := c]> b) r ((w + 1) mod CONSBUFSIZE) = push (ring b r w) c.
Proof.
  unfold CONSBUFSIZE. intros Hb Hr Hw. unfold push. rewrite ring_length. unfold CONSBUFSIZE.
  set (n := (w - r) mod 512). assert (Hn : 0 ≤ n < 512) by (apply Z.mod_pos_bound; lia).
  assert (Hwn : w = (r + n) mod 512) by (unfold n; rewrite Zplus_mod_idemp_r; replace (r + (w - r)) with w by lia; by rewrite Z.mod_small).
  assert (Hn' : ((w + 1) mod 512 - r) mod 512 = (n + 1) mod 512).
  { unfold n. rewrite Zminus_mod_idemp_l, Zplus_mod_idemp_l. f_equal. lia. }
  unfold ring, CONSBUFSIZE. rewrite Hn'. case_bool_decide as Hc.
  - assert (n = 511) as -> by lia. done.
  - rewrite (Z.mod_small (n + 1)) by lia. rewrite (seqZ_app 0 n 1) by lia. rewrite fmap_app. f_equal.
    + apply list_fmap_ext. intros j i Hi. apply list_elem_of_lookup_2, elem_of_seqZ in Hi.
      rewrite list_lookup_insert_ne; [done|]. rewrite Hwn. intros E. apply Z2Nat.inj in E; [|apply Z.mod_pos_bound; lia..].
      assert (Hmod : (r + n - (r + i)) mod 512 = 0) by (rewrite Zminus_mod, E, Z.sub_diag; done).
      replace (r + n - (r + i)) with (n - i) in Hmod by lia. rewrite Z.mod_small in Hmod by lia. lia.
    + rewrite Z.add_0_l, (seqZ_cons n 1) by lia. change (seqZ (Z.succ n) (Z.pred 1)) with (@nil Z). cbn [fmap list_fmap]. rewrite <-Hwn, list_lookup_insert_eq; [done|]. rewrite Hb. lia.
Qed.
Lemma ring_take b r w :
  0 ≤ r < CONSBUFSIZE → 0 ≤ w < CONSBUFSIZE → r ≠ w →
  ring b r w = default 0 (b !! Z.to_nat r) :: ring b ((r + 1) mod CONSBUFSIZE) w.
Proof.
  unfold CONSBUFSIZE. intros Hr Hw Hne. unfold ring, CONSBUFSIZE.
  assert (Hn : 0 ≤ (w - r) mod 512 < 512) by (apply Z.mod_pos_bound; lia).
  assert (Hn0 : (w - r) mod 512 ≠ 0).
  { intros E. apply Z.mod_divide in E as [k Hk]; [|lia]. assert (k = 0) by lia. lia. }
  assert (E1 : (w - (r + 1) mod 512) mod 512 = (w - r) mod 512 - 1).
  { rewrite Zminus_mod_idemp_r. replace (w - (r + 1)) with ((w - r) - 1) by lia. rewrite <-Zminus_mod_idemp_l. apply Z.mod_small. lia. }
  rewrite E1, (seqZ_cons 0 ((w - r) mod 512)) by lia. rewrite fmap_cons. f_equal.
  - by rewrite Z.add_0_r, Z.mod_small.
  - change (Z.succ 0) with (0 + 1). rewrite <-(fmap_add_seqZ 1 0), <-list_fmap_compose. apply list_fmap_ext. intros j i _.
    simpl. do 3 f_equal. rewrite Zplus_mod_idemp_l. f_equal. lia.
Qed.
Lemma ring_nil b r : ring b r r = [].
Proof. unfold ring. by rewrite Z.sub_diag. Qed.
Lemma ring_empty b r w : 0 ≤ r < CONSBUFSIZE → 0 ≤ w < CONSBUFSIZE → ring b r w = [] → r = w.
Proof. intros Hr Hw E. destruct (decide (r = w)) as [|Hne]; [done|]. by rewrite ring_take in E. Qed.

(** Many characters: what remains is the input since it last seemed empty. *)
Lemma push_all q cs : (length q < 512)%nat →
  foldl push q cs = drop (length (q ++ cs) / 512 * 512) (q ++ cs).
Proof.
  revert q. induction cs as [|c cs IH]; intros q Hq; cbn [foldl].
  - rewrite app_nil_r. by rewrite Nat.div_small.
  - unfold push at 2. case_bool_decide as Hc.
    + rewrite IH by (simpl; lia). simpl app.
      assert (E : (length (q ++ c :: cs) / 512 * 512 = 512 + length cs / 512 * 512)%nat).
      { rewrite length_app, Hc. cbn [length]. replace (511 + S (length cs))%nat with (length cs + 1 * 512)%nat by lia.
        rewrite Nat.div_add by lia. lia. }
      rewrite E, <-drop_drop. f_equal. rewrite cons_middle, app_assoc. symmetry. apply drop_app_length'. rewrite length_app, Hc. done.
    + rewrite IH by (rewrite length_app; simpl; lia). by rewrite <-app_assoc.
Qed.
Lemma push_fits q cs : (length (q ++ cs) < 512)%nat → foldl push q cs = q ++ cs.
Proof. intros Hl. rewrite push_all by (rewrite length_app in Hl; lia). by rewrite Nat.div_small. Qed.

(** ** The keyboard *)
(** The modifiers that are down or on. *)
Record mods : Type := Mods { m_shift : bool; m_ctl : bool; m_alt : bool; m_caps : bool; m_num : bool; m_scroll : bool; m_e0 : bool }.
Definition bits (m : mods) : Z :=
  Z.b2z (m_shift m) * SHIFT + Z.b2z (m_ctl m) * CTL + Z.b2z (m_alt m) * ALT + Z.b2z (m_caps m) * CAPSLOCK +
  Z.b2z (m_num m) * NUMLOCK + Z.b2z (m_scroll m) * SCROLLLOCK + Z.b2z (m_e0 m) * E0ESC.
(** Pressing or releasing a modifier key. *)
Definition hold (down : bool) (code : Z) (m : mods) : mods :=
  let one l := bool_decide (code ∈ l) in
  Mods (if one [0x2A; 0x36] then down else m_shift m) (if one [0x1D; 0x9D] then down else m_ctl m)
    (if one [0x38; 0xB8] then down else m_alt m) (m_caps m) (m_num m) (m_scroll m) false.
Definition toggle (code : Z) (m : mods) : mods :=
  Mods (m_shift m) (m_ctl m) (m_alt m) (xorb (m_caps m) (bool_decide (code = 0x3A))) (xorb (m_num m) (bool_decide (code = 0x45)))
    (xorb (m_scroll m) (bool_decide (code = 0x46))) (m_e0 m).
Definition swap_case (c : Z) : Z :=
  if bool_decide (97 ≤ c ≤ 122) then c - 32 else if bool_decide (65 ≤ c ≤ 90) then c + 32 else c.
Definition key_char (m : mods) (code : Z) : Z :=
  let c := default 0 ((if m_ctl m then ctlmap else if m_shift m then shiftmap else normalmap) !! Z.to_nat code) in
  if m_caps m then swap_case c else c.
(** A byte from the keyboard: the modifiers after it and the character, 0 for
    none. *)
Definition key_event (m : mods) (data : Z) : mods * Z :=
  if bool_decide (data = 0xE0) then (Mods (m_shift m) (m_ctl m) (m_alt m) (m_caps m) (m_num m) (m_scroll m) true, 0)
  else if bool_decide (128 ≤ data) then (hold false (if m_e0 m then data else data - 128) m, 0)
  else let code := if m_e0 m then data + 128 else data in
       let m := toggle code (hold true code m) in (m, key_char m code).
(** Ctrl-Alt-Del. *)
Definition reboots (e : mods * Z) : bool := m_ctl e.1 && m_alt e.1 && bool_decide (e.2 = KEY_DEL).
(** The characters of a sequence of bytes, zeros included; [None] when the
    machine is restarted. *)
Fixpoint key_chars (m : mods) (l : list Z) : option (mods * list Z) :=
  match l with
  | [] => Some (m, [])
  | x :: l =>
    let e := key_event m x in
    if reboots e then None else '(m', cs) ← key_chars e.1 l; Some (m', e.2 :: cs)
  end.

Lemma key_chars_nil m l mf : key_chars m l = Some (mf, []) → l = [] ∧ m = mf.
Proof.
  destruct l as [|x l]; simpl; [by intros [= ->]|]. destruct (reboots _); [done|].
  destruct (key_chars (key_event m x).1 l) as [[]|]; done.
Qed.

(** The code of kbd_proc_data without its effects. *)
Definition kbd_code (sh data : Z) : Z := if bool_decide (Z.land sh E0ESC ≠ 0) then Z.lor data 0x80 else data.
Definition kbd_mods (sh data : Z) : Z :=
  let code := kbd_code sh data in
  Z.lxor (Z.lor (Z.ldiff sh E0ESC) (default 0 (shiftcode !! Z.to_nat code))) (default 0 (togglecode !! Z.to_nat code)).
Definition kbd_char (sh code : Z) : Z :=
  let c := default 0 (default [] (charcode !! Z.to_nat (Z.land sh (Z.lor CTL SHIFT))) !! Z.to_nat code) in
  if bool_decide (Z.land sh CAPSLOCK ≠ 0) then
    (if bool_decide (97 ≤ c ∧ c ≤ 122) then c + (65 - 97) else if bool_decide (65 ≤ c ∧ c ≤ 90) then c + (97 - 65) else c)
  else c.
Definition kbd_release (sh data : Z) : Z :=
  let data := if bool_decide (Z.land sh E0ESC ≠ 0) then data else Z.land data 0x7F in
  Z.ldiff sh (Z.lor (default 0 (shiftcode !! Z.to_nat data)) E0ESC).

Definition bools : list bool := [false; true].
Definition all_mods : list mods :=
  a ← bools; b ← bools; c ← bools; d ← bools; e ← bools; f ← bools; [Mods a b c d e f false; Mods a b c d e f true].
Lemma all_mods_in m : m ∈ all_mods.
Proof.
  assert (Hb : ∀ b, b ∈ bools) by (intros []; [by right; left|by left]).
  destruct m as [a b c d e f []]; unfold all_mods;
    do 6 (apply list_elem_of_bind; eexists; split; [|apply Hb]); [by right; left|by left].
Qed.
Definition key_agrees (m : mods) (data : Z) : bool :=
  let e := key_event m data in let sh := bits m in
  if bool_decide (data = 0xE0) then bool_decide (bits e.1 = Z.lor sh E0ESC)
  else if bool_decide (Z.land data 0x80 ≠ 0) then bool_decide (bits e.1 = kbd_release sh data)
  else bool_decide (bits e.1 = kbd_mods sh data) && bool_decide (e.2 = kbd_char (kbd_mods sh data) (kbd_code sh data)) &&
    bool_decide (0 ≤ e.2 < 256) && eqb (reboots e) (bool_decide (Z.ldiff (Z.lor CTL ALT) (kbd_mods sh data) = 0 ∧ e.2 = KEY_DEL)).
Lemma key_agrees_all : forallb (λ m, forallb (key_agrees m) (seqZ 0 256)) all_mods = true.
Proof. vm_compute. reflexivity. Qed.
Lemma key_agrees_ok m data : 0 ≤ data < 256 → key_agrees m data = true.
Proof.
  intros Hd. pose proof key_agrees_all as H. rewrite forallb_forall in H.
  specialize (H m). rewrite forallb_forall in H. apply H; apply list_elem_of_In; [apply all_mods_in|apply elem_of_seqZ; lia].
Qed.

Section In.
Context {D : Type} {in_port : Z → M D Z} {out_port : Z → Z → M D unit} {vread : Z → M D Z} {vwrite : Z → Z → M D unit}.
Context {view : D → devview} `{HD : !Devices in_port out_port vread vwrite view}.
Implicit Types (s : console D).
Abbreviation vw' := (vw (view := view)).

(** *** The buffer of a state *)
Definition pending s : list Z := ring (cbuf s) (rpos s) (wpos s).
Record ring_ok s : Prop := {
  rg_len : length (cbuf s) = Z.to_nat CONSBUFSIZE;
  rg_r : 0 ≤ rpos s < CONSBUFSIZE;
  rg_w : 0 ≤ wpos s < CONSBUFSIZE;
  rg_chars : Forall (λ c, 0 < c < 256) (pending s) }.
Definition same_ring s s' : Prop := cbuf s' = cbuf s ∧ rpos s' = rpos s ∧ wpos s' = wpos s.
Lemma same_ring_ok s s' : same_ring s s' → ring_ok s → ring_ok s' ∧ pending s' = pending s.
Proof. intros (E1 & E2 & E3) [H1 H2 H3 H4]. unfold pending in *. rewrite E1, E2, E3. split; [|done]. split; unfold pending; by rewrite ?E1, ?E2, ?E3. Qed.

Lemma wrap_step w : 0 ≤ w < CONSBUFSIZE →
  (if bool_decide (u32 (w + 1) = CONSBUFSIZE) then 0 else u32 (w + 1)) = (w + 1) mod CONSBUFSIZE.
Proof.
  unfold CONSBUFSIZE. intros Hw. rewrite u32_small by (unfold is_u32; lia). case_bool_decide as Hc.
  - by rewrite Hc.
  - by rewrite Z.mod_small by lia.
Qed.
Lemma cons_store_ok c s : ring_ok s → 0 < c < 256 →
  ∃ b w, cons_store c s = Ret ((), set_cons b (rpos s) w s) ∧ ring_ok (set_cons b (rpos s) w s) ∧
    pending (set_cons b (rpos s) w s) = push (pending s) c.
Proof.
  intros [H1 H2 H3 H4] Hc. exists (<[Z.to_nat (wpos s) := c]> (cbuf s)), ((wpos s + 1) mod CONSBUFSIZE).
  assert (Hp : ring (<[Z.to_nat (wpos s) := c]> (cbuf s)) (rpos s) ((wpos s + 1) mod CONSBUFSIZE) = push (pending s) c) by (by apply ring_push).
  assert (Hu : u8 c = c) by (apply Z.mod_small; lia).
  split_and!; [|split|done].
  - unfold cons_store, put_index. rewrite bind_get. rewrite (bool_decide_true (0 ≤ wpos s < _)).
    + rewrite bind_mret, Hu. cbv zeta. rewrite wrap_step by done. done.
    + rewrite H1. unfold CONSBUFSIZE in *. lia.
  - simpl. by rewrite length_insert.
  - done.
  - apply Z.mod_pos_bound. done.
  - change (Forall (λ c, 0 < c < 256) (ring (<[Z.to_nat (wpos s) := c]> (cbuf s)) (rpos s) ((wpos s + 1) mod CONSBUFSIZE))).
    rewrite Hp. unfold push. case_bool_decide; [constructor|]. apply Forall_app. split; [done|]. by constructor.
Qed.
Lemma cons_take_ok s : ring_ok s →
  ∃ r, cons_take s = Ret (default 0 (head (pending s)), set_cons (cbuf s) r (wpos s) s) ∧
    ring_ok (set_cons (cbuf s) r (wpos s) s) ∧ pending (set_cons (cbuf s) r (wpos s) s) = tail (pending s).
Proof.
  intros Hok. pose proof Hok as [H1 H2 H3 H4]. unfold cons_take. destruct (decide (rpos s = wpos s)) as [E|Hne].
  - exists (rpos s). rewrite bind_get, bool_decide_false by tauto. unfold pending. rewrite E, ring_nil.
    replace (set_cons (cbuf s) (wpos s) (wpos s) s) with s by (destruct s; simpl in *; by subst).
    split_and!; [done|done|]. rewrite E. by rewrite ring_nil.
  - exists ((rpos s + 1) mod CONSBUFSIZE). unfold pending in *. rewrite (ring_take (cbuf s)) in H4 |- * by done.
    apply Forall_cons in H4 as [Hc H4]. split_and!; [|split|]; simpl; try done.
    + rewrite bind_get, bool_decide_true by done. unfold at_index. rewrite (bool_decide_true (0 ≤ rpos s)) by lia.
      assert (is_Some (cbuf s !! Z.to_nat (rpos s))) as [x Hx] by (apply lookup_lt_is_Some; unfold CONSBUFSIZE in *; lia).
      rewrite Hx, bind_mret. cbv zeta. rewrite wrap_step by done. done.
    + apply Z.mod_pos_bound. done.
Qed.

(** *** cons_intr with a source of characters *)
Record source (proc : M (console D) Z) (I : list Z → console D → Prop) : Prop := {
  sc_none s : I [] s → ∃ s', proc s = Ret (-1, s') ∧ I [] s' ∧ same_ring s s';
  sc_some c cs s : I (c :: cs) s → ∃ s', proc s = Ret (c, s') ∧ I cs s' ∧ same_ring s s';
  sc_byte c cs s : I (c :: cs) s → 0 ≤ c < 256;
  sc_ring cs s b w : I cs s → I cs (set_cons b (rpos s) w s) }.
Abbreviation chars cs := (filter (λ c, c ≠ 0) cs).
Lemma cons_intr_ok proc I fuel cs s : source proc I → I cs s → ring_ok s → (length cs < fuel)%nat →
  ∃ s', cons_intr fuel proc s = Ret ((), s') ∧ I [] s' ∧ ring_ok s' ∧ pending s' = foldl push (pending s) (chars cs).
Proof.
  intros [S1 S2 S3 S4]. revert fuel s. induction cs as [|c cs IH]; intros fuel s Hi Hr Hf; (destruct fuel as [|fuel]; [simpl in Hf; lia|]);
    cbn [cons_intr].
  - destruct (S1 s Hi) as (s' & E & Hi' & Hsr). rewrite (bind_Ret _ _ _ _ _ E), bool_decide_true by done.
    exists s'. destruct (same_ring_ok _ _ Hsr Hr) as [Hr' Hp']. by split_and!.
  - destruct (S2 c cs s Hi) as (s1 & E & Hi1 & Hsr). pose proof (S3 c cs s Hi) as Hc.
    rewrite (bind_Ret _ _ _ _ _ E), bool_decide_false by lia. destruct (same_ring_ok _ _ Hsr Hr) as [Hr1 Hp1].
    destruct (decide (c = 0)) as [->|H0].
    + rewrite (bool_decide_false (0 ≠ 0)) by tauto. rewrite bind_skip.
      destruct (IH fuel s1 Hi1 Hr1 ltac:(simpl in Hf; lia)) as (s' & E' & Hi' & Hr' & Hp'). exists s'.
      rewrite filter_cons_False by tauto. rewrite <-Hp1. by split_and!.
    + rewrite (bool_decide_true (c ≠ 0)) by done.
      destruct (cons_store_ok c s1 Hr1 ltac:(lia)) as (b & w & Es & Hr2 & Hp2). rewrite (bind_Ret _ _ _ _ _ Es).
      destruct (IH fuel _ (S4 _ _ b w Hi1) Hr2 ltac:(simpl in Hf; lia)) as (s' & E' & Hi' & Hr' & Hp'). exists s'.
      rewrite filter_cons_True by done. cbn [foldl]. rewrite <-Hp1, <-Hp2. by split_and!.
Qed.

(** What input leaves alone. *)
Definition out_part s := (crt_buf s, crt_pos s, addr_6845 s, serial_exists s, irq_mask s, did_init s, ticks s, linebuf s, eflags s).

(** *** The serial port *)
Definition ser_char (c : Z) : Z := if bool_decide (c = 127) then 8 else c.
Record ser_source (s0 : console D) (cs : list Z) s : Prop := {
  ss_chars : cs = ser_char <$> ser_in (vw' s);
  ss_ok : dev_ok (vw' s);
  ss_dlab : dlab (vw' s) = false;
  ss_view : vw' s = set_ser_in (ser_in (vw' s)) (vw' s0);
  ss_out : out_part s = out_part s0;
  ss_shift : shift s = shift s0 }.
Lemma serial_source s0 : source (serial_proc_data in_port) (ser_source s0).
Proof using HD.
  split.
  - intros s [H1 H2 H3 H4 H5 H6]. unfold serial_proc_data.
    destruct (inb_run s (COM1 + COM_LSR) H2) as (x & d & E & [_ _ _ Hx _ _ _] & Hv & Hok). rewrite (bind_Ret _ _ _ _ _ E).
    assert (Hnil : ser_in (vw' s) = []) by (destruct (ser_in (vw' s)); done).
    rewrite bool_decide_true by (by apply Hx). change (in_view _ (vw' s)) with (vw' s) in Hv. exists (with_io d s). split_and!; [done| |done].
    split; unfold vw in *; simpl; rewrite ?Hv; done.
  - intros c cs s [H1 H2 H3 H4 H5 H6]. unfold serial_proc_data.
    destruct (inb_run s (COM1 + COM_LSR) H2) as (x & d & E & [_ _ _ Hx _ _ _] & Hv & Hok). rewrite (bind_Ret _ _ _ _ _ E).
    destruct (ser_in (vw' s)) as [|y l] eqn:El; [done|]. injection H1 as -> ->.
    rewrite bool_decide_false by (rewrite Hx; done). change (in_view _ (vw' s)) with (vw' s) in Hv.
    destruct (inb_run (with_io d s) (COM1 + COM_RX) Hok) as (x' & d' & E' & [_ _ _ _ Hx' _ _] & Hv' & Hok').
    rewrite (bind_Ret _ _ _ _ _ E'). unfold vw in Hx', Hv'. simpl in Hx', Hv'. rewrite Hv in Hx', Hv'.
    rewrite (Hx' y l) by done. exists (with_io d' s). split_and!; [done| |done].
    unfold in_view in Hv'. change (u16 (COM1 + COM_RX)) with (COM1 + COM_RX) in Hv'. rewrite decide_False, decide_True, H3, El in Hv' by done.
    simpl in Hv'. split; unfold vw in *; simpl; rewrite ?Hv'; try done; [rewrite <-Hv'; exact Hok'|by rewrite H4].
  - intros c cs s [H1 H2 H3 H4 H5 H6]. destruct (ser_in (vw' s)) as [|y l] eqn:El; [done|]. injection H1 as -> ->.
    pose proof (dk_ser _ H2) as Hb. rewrite El in Hb. apply Forall_cons in Hb as [Hb _]. unfold ser_char. case_bool_decide; lia.
  - intros cs s b w [H1 H2 H3 H4 H5 H6]. by split.
Qed.

(** *** The keyboard *)
Record kbd_source (s0 : console D) (mf : mods) (cs : list Z) s : Prop := {
  ks_chars : ∃ m, shift s = bits m ∧ key_chars m (kbd_in (vw' s)) = Some (mf, cs);
  ks_ok : dev_ok (vw' s);
  ks_view : vw' s = set_kbd_in (kbd_in (vw' s)) (vw' s0);
  ks_out : out_part s = out_part s0 }.
Lemma at_index_run (l : list Z) i s : 0 ≤ i < Z.of_nat (length l) → at_index l i s = Ret (default 0 (l !! Z.to_nat i), s).
Proof.
  intros Hi. unfold at_index. rewrite bool_decide_true by lia.
  assert (is_Some (l !! Z.to_nat i)) as [x ->] by (apply lookup_lt_is_Some; lia). done.
Qed.
Lemma bits_range m : 0 ≤ bits m < 128.
Proof. destruct m as [[] [] [] [] [] [] []]; vm_compute; split; congruence. Qed.
Lemma bits_e0 m : u32 (Z.ldiff (bits m) E0ESC) = Z.ldiff (bits m) E0ESC ∧ (Z.land (bits m) E0ESC = 0 → Z.ldiff (bits m) E0ESC = bits m).
Proof. destruct m as [[] [] [] [] [] [] []]; vm_compute; (split; [reflexivity|congruence]). Qed.
Lemma high_bit x : 0 ≤ x < 256 → Z.land x 128 = (if bool_decide (x < 128) then 0 else 128) ∧ Z.lor x 128 < 256.
Proof.
  intros Hx. assert (Hall : forallb (λ x, bool_decide (Z.land x 128 = (if bool_decide (x < 128) then 0 else 128)) && bool_decide (Z.lor x 128 < 256))
    (seqZ 0 256) = true) by (vm_compute; reflexivity).
  rewrite forallb_forall in Hall. specialize (Hall x). rewrite andb_true_iff, !bool_decide_eq_true in Hall.
  apply Hall. apply list_elem_of_In, elem_of_seqZ. lia.
Qed.
Lemma kbd_code_range sh data : 0 ≤ data < 128 → 0 ≤ kbd_code sh data < 256.
Proof.
  intros Hd. unfold kbd_code. case_bool_decide; [|lia]. split; [apply Z.lor_nonneg; lia|]. by apply high_bit; lia.
Qed.
(** charcode has an array of 256 bytes for every modifier state. *)
Lemma charcode_lookup sh : ∃ t, charcode !! Z.to_nat (Z.land sh (Z.lor CTL SHIFT)) = Some t ∧ length t = 256%nat.
Proof.
  change (Z.lor CTL SHIFT) with (Z.ones 2). rewrite Z.land_ones by lia. change (2 ^ 2) with 4.
  pose proof (Z.mod_pos_bound sh 4 ltac:(lia)) as Hm. assert (Hc : sh mod 4 = 0 ∨ sh mod 4 = 1 ∨ sh mod 4 = 2 ∨ sh mod 4 = 3) by lia.
  destruct Hc as [->|[->|[->| ->]]]; eexists; (split; [reflexivity|vm_compute; reflexivity]).
Qed.

Abbreviation kbd_proc_data' := (kbd_proc_data in_port out_port vread vwrite).
Lemma kbd_press_ok fuel data m s : 0 ≤ data < 128 → let sh := bits m in let code := kbd_code sh data in
  shift s = Z.ldiff sh E0ESC → reboots (key_event m data) = false →
  kbd_press in_port out_port vread vwrite fuel code s = Ret ((key_event m data).2, set_shift (bits (key_event m data).1) s).
Proof.
  intros Hd sh code Hsh Hre. pose proof (key_agrees_ok m data ltac:(lia)) as Ha. unfold key_agrees in Ha. cbv zeta in Ha.
  rewrite (bool_decide_false (data = 0xE0)) in Ha by lia. rewrite (proj1 (high_bit data ltac:(lia))) in Ha.
  rewrite (bool_decide_true (data < 128)), (bool_decide_false (0 ≠ 0)) in Ha by lia.
  rewrite !andb_true_iff, !bool_decide_eq_true, eqb_true_iff in Ha. destruct Ha as (((A1 & A2) & A3) & A4). rewrite Hre in A4.
  fold sh in A1, A2, A4. pose proof (kbd_code_range sh data Hd) as Hc. fold code in Hc, A2.
  unfold kbd_press. rewrite bind_gets, Hsh.
  rewrite (bind_Ret _ _ _ _ _ (at_index_run shiftcode code s Hc)), (bind_Ret _ _ _ _ _ (at_index_run togglecode code s Hc)). cbv zeta.
  change (Z.lxor (Z.lor (Z.ldiff sh E0ESC) _) _) with (kbd_mods sh data). rewrite bind_modify.
  destruct (charcode_lookup (kbd_mods sh data)) as (t & Et & Hlt). rewrite Et.
  rewrite (bind_Ret _ _ _ _ _ (at_index_run t code _ ltac:(rewrite Hlt; exact Hc))).
  assert (Ech : (if bool_decide (Z.land (kbd_mods sh data) CAPSLOCK ≠ 0)
     then if bool_decide (97 ≤ default 0 (t !! Z.to_nat code) ∧ default 0 (t !! Z.to_nat code) ≤ 122)
          then default 0 (t !! Z.to_nat code) + (65 - 97)
          else if bool_decide (65 ≤ default 0 (t !! Z.to_nat code) ∧ default 0 (t !! Z.to_nat code) ≤ 90)
            then default 0 (t !! Z.to_nat code) + (97 - 65) else default 0 (t !! Z.to_nat code)
     else default 0 (t !! Z.to_nat code)) = (key_event m data).2).
  { rewrite A2. unfold kbd_char. by rewrite Et. }
  rewrite Ech, <-A4, bind_skip. unfold mret, M_ret. by rewrite A1.
Qed.
Lemma kbd_step_ok fuel m x l s :
  shift s = bits m → dev_ok (vw' s) → kbd_in (vw' s) = x :: l → reboots (key_event m x) = false →
  ∃ d, kbd_proc_data' fuel s = Ret ((key_event m x).2, set_shift (bits (key_event m x).1) (with_io d s)) ∧
    view d = set_kbd_in l (vw' s) ∧ dev_ok (view d) ∧ 0 ≤ (key_event m x).2 < 256.
Proof using HD.
  intros Hsh Hok Hin Hre. pose proof (dk_kbd _ Hok) as Hb. rewrite Hin in Hb. apply Forall_cons in Hb as [Hb _].
  unfold kbd_proc_data. destruct (inb_run s KBSTATP Hok) as (y & d & E & [_ Hy _ _ _ _ _] & Hv & Hok1).
  rewrite (bind_Ret _ _ _ _ _ E), bool_decide_false by (rewrite Hy, Hin by done; done).
  change (in_view _ (vw' s)) with (vw' s) in Hv.
  destruct (inb_run (with_io d s) KBDATAP Hok1) as (y' & d' & E' & [_ _ Hy' _ _ _ _] & Hv' & Hok').
  rewrite (bind_Ret _ _ _ _ _ E'). unfold vw in Hy', Hv', Hin. simpl in Hy', Hv'. unfold vw in Hv. rewrite Hv in Hy', Hv'.
  rewrite (Hy' x l) by done. clear Hy' Hy E E' y y'. unfold in_view in Hv'. rewrite decide_True, Hin in Hv' by done. simpl in Hv'.
  exists d'. rewrite bind_gets. change (shift (with_io d' (with_io d s))) with (shift s). rewrite Hsh.
  change (with_io d' (with_io d s)) with (with_io d' s).
  pose proof (key_agrees_ok m x Hb) as Ha. unfold key_agrees in Ha. cbv zeta in Ha. rewrite (proj1 (high_bit x Hb)) in Ha |- *.
  split; [|split; [done|split; [done|]]]; destruct (decide (x = 0xE0)) as [->|Hne].
  - rewrite (bool_decide_true (0xE0 = 0xE0)) in Ha |- * by done. apply bool_decide_eq_true in Ha.
    rewrite bind_modify. unfold mret, M_ret. rewrite <-Ha. done.
  - rewrite (bool_decide_false (x = 0xE0)) in Ha |- * by done. destruct (decide (x < 128)) as [Hp|Hr].
    + rewrite (bool_decide_true (x < 128)), (bool_decide_false (0 ≠ 0)) by (done || lia).
      pose proof (kbd_press_ok fuel x m) as Hpress. cbv zeta in Hpress. unfold kbd_code in Hpress.
      destruct (decide (Z.land (bits m) E0ESC ≠ 0)) as [He|He].
      * rewrite (bool_decide_true (Z.land _ _ ≠ 0)) in Hpress |- * by done. rewrite bind_modify.
        rewrite Hpress; [done|lia|by apply bits_e0|done].
      * rewrite (bool_decide_false (Z.land _ _ ≠ 0)) in Hpress |- * by done.
        rewrite Hpress; [done|lia| |done]. change (shift s = Z.ldiff (bits m) E0ESC). rewrite Hsh. symmetry. apply bits_e0. by apply dec_stable.
    + rewrite (bool_decide_false (x < 128)), (bool_decide_true (128 ≠ 0)) in Ha |- * by lia. apply bool_decide_eq_true in Ha. cbv zeta.
      set (dd := if bool_decide (Z.land (bits m) E0ESC ≠ 0) then x else Z.land x 127) in *.
      assert (Hdd : 0 ≤ dd < 256).
      { unfold dd. case_bool_decide; [lia|]. change 127 with (Z.ones 7). rewrite Z.land_ones by lia.
        pose proof (Z.mod_pos_bound x (2 ^ 7) ltac:(lia)). lia. }
      rewrite (bind_Ret _ _ _ _ _ (at_index_run shiftcode dd _ Hdd)), bind_modify. unfold mret, M_ret.
      assert (E2 : (key_event m x).2 = 0).
      { unfold key_event. rewrite (bool_decide_false (x = 0xE0)), bool_decide_true by lia. done. }
      rewrite E2, Ha. done.
  - done.
  - destruct (decide (x < 128)) as [Hp|Hr].
    + rewrite (bool_decide_false (x = 0xE0)), (bool_decide_true (x < 128)), (bool_decide_false (0 ≠ 0)) in Ha by lia.
      rewrite !andb_true_iff, !bool_decide_eq_true in Ha. tauto.
    + unfold key_event. rewrite (bool_decide_false (x = 0xE0)), bool_decide_true by lia. done.
Qed.

Lemma keyboard_source fuel s0 mf : source (kbd_proc_data' fuel) (kbd_source s0 mf).
Proof using HD.
  split.
  - intros s [(m & Hsh & Hk) H2 H3 H4]. destruct (kbd_in (vw' s)) as [|x l] eqn:El.
    + unfold kbd_proc_data. destruct (inb_run s KBSTATP H2) as (y & d & E & [_ Hy _ _ _ _ _] & Hv & Hok).
      rewrite (bind_Ret _ _ _ _ _ E), bool_decide_true by (by apply Hy). change (in_view _ (vw' s)) with (vw' s) in Hv.
      exists (with_io d s). split_and!; [done| |done]. unfold vw in *. split; simpl; unfold vw; simpl; rewrite ?Hv; try done; [|by rewrite El].
      exists m. by rewrite El.
    + by apply key_chars_nil in Hk as [? _].
  - intros c cs s [(m & Hsh & Hk) H2 H3 H4]. destruct (kbd_in (vw' s)) as [|x l] eqn:El; [done|].
    simpl in Hk. destruct (reboots _) eqn:Hre; [done|]. destruct (key_chars (key_event m x).1 l) as [[m' cs']|] eqn:Ek; [|done].
    injection Hk as <- <- <-. destruct (kbd_step_ok fuel m x l s Hsh H2 El Hre) as (d & E & Hv & Hok & _).
    eexists. split_and!; [exact E| |done]. split; unfold vw in *; simpl; rewrite ?Hv; simpl; try done.
    + exists (key_event m x).1. split; [|done]. pose proof (bits_range (key_event m x).1). apply u32_small. unfold is_u32. lia.
    + rewrite <-Hv. exact Hok.
    + by rewrite H3.
  - intros c cs s [(m & Hsh & Hk) H2 H3 H4]. destruct (kbd_in (vw' s)) as [|x l] eqn:El; [done|].
    simpl in Hk. destruct (reboots _) eqn:Hre; [done|]. destruct (key_chars (key_event m x).1 l) as [[m' cs']|] eqn:Ek; [|done].
    injection Hk as <- <- <-. by destruct (kbd_step_ok fuel m x l s Hsh H2 El Hre) as (d & _ & _ & _ & ?).
  - intros cs s b w [H1 H2 H3 H4]. by split.
Qed.

(** *** cons_getc *)
(** Characters from the serial port, if there is one. *)
Definition ser_chars s : list Z := if serial_exists s then chars (ser_char <$> ser_in (vw' s)) else [].
Record got (s s' : console D) (mf : mods) (q : list Z) : Prop := {
  gt_ring : ring_ok s';
  gt_pending : pending s' = tail q;
  gt_shift : shift s' = bits mf;
  gt_ok : dev_ok (vw' s');
  gt_view : vw' s' = set_kbd_in [] (if serial_exists s then set_ser_in [] (vw' s) else vw' s);
  gt_out : out_part s' = out_part s }.

Lemma out_part_eq s s' : out_part s' = out_part s →
  crt_buf s' = crt_buf s ∧ crt_pos s' = crt_pos s ∧ addr_6845 s' = addr_6845 s ∧ serial_exists s' = serial_exists s ∧
  linebuf s' = linebuf s ∧ eflags s' = eflags s.
Proof. unfold out_part. intros E. by simplify_eq. Qed.

Abbreviation cons_getc' := (cons_getc in_port out_port vread vwrite).
Lemma cons_getc_ok fuel s m mf ks :
  ring_ok s → dev_ok (vw' s) → dlab (vw' s) = false → shift s = bits m → key_chars m (kbd_in (vw' s)) = Some (mf, ks) →
  (length ks < fuel)%nat → (length (ser_in (vw' s)) < fuel)%nat →
  let q := foldl push (pending s) (ser_chars s ++ chars ks) in
  ∃ s', cons_getc' fuel s = Ret (default 0 (head q), s') ∧ got s s' mf q.
Proof using HD.
  intros Hr Hok Hl Hsh Hk Hf1 Hf2 q. unfold cons_getc, x86_local_irq_save, arch_local_irq_disable.
  rewrite bind_assoc, bind_gets, bind_assoc, bind_modify, bind_mret. set (s0 := set_eflags _ s).
  assert (Hr0 : ring_ok s0) by (destruct Hr; by split).
  assert (Hser : ∃ s1, serial_intr in_port fuel s0 = Ret ((), s1) ∧ ring_ok s1 ∧ pending s1 = foldl push (pending s) (ser_chars s) ∧
     shift s1 = shift s ∧ dev_ok (vw' s1) ∧ vw' s1 = (if serial_exists s then set_ser_in [] (vw' s) else vw' s) ∧ out_part s1 = out_part s0).
  { unfold serial_intr. rewrite bind_gets. change (serial_exists s0) with (serial_exists s). unfold ser_chars. destruct (serial_exists s).
    - destruct (cons_intr_ok _ _ fuel (ser_char <$> ser_in (vw' s)) s0 (serial_source s0)) as (s1 & E & [I1 I2 I3 I4 I5 I6] & Hr1 & Hp1).
      + split; try done. change (vw' s0) with (vw' s). by destruct (vw' s).
      + done.
      + by rewrite length_fmap.
      + exists s1. split_and!; try done. rewrite I4. symmetry in I1. apply fmap_nil_inv in I1. rewrite I1. done.
    - exists s0. by split_and!. }
  destruct Hser as (s1 & E1 & Hr1 & Hp1 & Hsh1 & Hok1 & Hv1 & Ho1). rewrite (bind_Ret _ _ _ _ _ E1).
  destruct (cons_intr_ok _ _ fuel ks s1 (keyboard_source fuel s1 mf)) as (s2 & E2 & [(m2 & I1 & I1') I2 I3 I4] & Hr2 & Hp2).
  - split; try done; [|by destruct (vw' s1)]. exists m. rewrite Hsh1. split; [done|]. rewrite Hv1. by destruct (serial_exists s).
  - done.
  - done.
  - unfold kbd_intr. rewrite (bind_Ret _ _ _ _ _ E2). rewrite Hp1, <-foldl_app in Hp2. fold q in Hp2.
    destruct (cons_take_ok s2 Hr2) as (r & E3 & Hr3 & Hp3). rewrite (bind_Ret _ _ _ _ _ E3), Hp2.
    assert (Hnil : kbd_in (vw' s2) = [] ∧ m2 = mf).
    { by apply key_chars_nil in I1'. }
    destruct Hnil as [Hnil ->]. eexists. split; [done|]. split.
    + destruct Hr3. by split.
    + change (pending (set_eflags (eflags s) ?x)) with (pending x). by rewrite <-Hp2.
    + exact I1.
    + exact I2.
    + change (vw' s2 = set_kbd_in [] (if serial_exists s then set_ser_in [] (vw' s) else vw' s)). by rewrite I3, Hnil, Hv1.
    + rewrite Ho1 in I4. unfold out_part in I4 |- *. cbn in I4 |- *. injection I4. intros. congruence.
Qed.

(** ** Lines *)
Lemma key_event_range m x : 0 ≤ x < 256 → 0 ≤ (key_event m x).2 < 256.
Proof.
  intros Hx. pose proof (key_agrees_ok m x Hx) as Ha. unfold key_agrees in Ha. cbv zeta in Ha. rewrite (proj1 (high_bit x Hx)) in Ha.
  destruct (decide (x = 0xE0)) as [->|Hne]; [done|]. destruct (decide (x < 128)) as [Hp|Hr].
  - rewrite (bool_decide_false (x = 0xE0)), (bool_decide_true (x < 128)), (bool_decide_false (0 ≠ 0)) in Ha by lia.
    rewrite !andb_true_iff, !bool_decide_eq_true in Ha. tauto.
  - unfold key_event. rewrite (bool_decide_false (x = 0xE0)), bool_decide_true by lia. done.
Qed.
Lemma key_chars_range m l mf cs : Forall (λ c, 0 ≤ c < 256) l → key_chars m l = Some (mf, cs) →
  Forall (λ c, 0 ≤ c < 256) cs ∧ length cs = length l.
Proof.
  revert m cs. induction l as [|x l IH]; intros m cs Hl; simpl; [by intros [= <- <-]|]. apply Forall_cons in Hl as [Hx Hl].
  destruct (reboots _); [done|]. destruct (key_chars (key_event m x).1 l) as [[m' cs']|] eqn:Ek; [|done]. intros [= <- <-].
  destruct (IH _ _ Hl Ek) as [H1 H2]. split; [|simpl; by rewrite H2]. constructor; [|done]. by apply key_event_range.
Qed.
Lemma chars_range cs : Forall (λ c, 0 ≤ c < 256) cs → Forall (λ c, 0 < c < 256) (chars cs).
Proof. intros Hc. rewrite Forall_forall in Hc |- *. intros c [H0 Hin]%list_elem_of_filter. specialize (Hc c Hin). lia. Qed.

(** All the input that waits, in the order in which it is read. *)
Record reading (fuel : nat) s (t : term) (cs : list Z) : Prop := {
  rd_ring : ring_ok s;
  rd_shows : shows (view := view) s t;
  rd_ok : dev_ok (vw' s);
  rd_dlab : dlab (vw' s) = false;
  rd_kbd : (length (kbd_in (vw' s)) < fuel)%nat;
  rd_ser : (length (ser_in (vw' s)) < fuel)%nat;
  rd_input : ∃ m mf ks, shift s = bits m ∧ key_chars m (kbd_in (vw' s)) = Some (mf, ks) ∧
    cs = pending s ++ ser_chars s ++ chars ks;
  rd_fits : (length cs < 512)%nat }.
Lemma ser_chars_range s : dev_ok (vw' s) → Forall (λ c, 0 < c < 256) (ser_chars s).
Proof.
  intros Hok. unfold ser_chars. destruct (serial_exists s); [|constructor]. apply chars_range. apply Forall_fmap.
  eapply Forall_impl; [apply (dk_ser _ Hok)|]. intros c Hc. unfold compose, ser_char in *. case_bool_decide; lia.
Qed.
Lemma push_range q cs : Forall (λ c, 0 < c < 256) q → Forall (λ c, 0 < c < 256) cs → Forall (λ c, 0 < c < 256) (foldl push q cs).
Proof.
  revert q. induction cs as [|c cs IH]; intros q Hq Hcs; simpl; [done|]. apply Forall_cons in Hcs as [Hc Hcs]. apply IH; [|done].
  unfold push. case_bool_decide; [constructor|]. apply Forall_app. split; [done|]. by constructor.
Qed.
Lemma reading_range fuel s t cs : reading fuel s t cs → Forall (λ c, 0 < c < 256) cs.
Proof.
  intros [H1 _ H3 _ _ _ (m & mf & ks & _ & Hk & ->) _]. rewrite !Forall_app. split_and!; [apply H1| |].
  - by apply ser_chars_range.
  - apply chars_range. by apply (key_chars_range _ _ _ _ (dk_kbd _ H3) Hk).
Qed.

Abbreviation getchar' := (getchar in_port out_port vread vwrite).
Lemma getchar_ok fuel s t c cs : reading fuel s t (c :: cs) →
  ∃ s', getchar' fuel s = Ret (c, s') ∧ reading fuel s' t cs ∧ linebuf s' = linebuf s ∧ ser_out (vw' s') = ser_out (vw' s) ∧ 0 < c < 256.
Proof using HD.
  intros Hrd. pose proof (reading_range _ _ _ _ Hrd) as Hc. apply Forall_cons in Hc as [Hc _].
  destruct Hrd as [H1 H2 H3 H4 H5 H6 (m & mf & ks & Hsh & Hk & Hcs) H8].
  destruct (key_chars_range _ _ _ _ (dk_kbd _ H3) Hk) as [_ Hlen]. rewrite <-Hlen in H5.
  destruct (cons_getc_ok fuel s m mf ks H1 H3 H4 Hsh Hk H5 H6) as (s' & E & [G1 G2 G3 G4 G5 G6]).
  rewrite push_fits, <-Hcs in E, G2 by (by rewrite <-Hcs). simpl in E, G2.
  exists s'. destruct fuel as [|fuel]; [lia|]. split_and!; try lia.
  - unfold getchar. cbn [getchar_loop]. rewrite (bind_Ret _ _ _ _ _ E), bool_decide_false by lia. done.
  - destruct (out_part_eq _ _ G6) as (O1 & O2 & O3 & O4 & O5 & O6).
    assert (Hvw : kbd_in (vw' s') = [] ∧ dlab (vw' s') = dlab (vw' s) ∧ vram (vw' s') = vram (vw' s) ∧ crt_port (vw' s') = crt_port (vw' s)).
    { rewrite G5. by destruct (serial_exists s). }
    destruct Hvw as (V1 & V2 & V3 & V4). assert (Hsc : ser_chars s' = []).
    { unfold ser_chars. rewrite O4, G5. by destruct (serial_exists s). }
    split; try done.
    + destruct H2 as [[L1 L2 L3] S2 S3 S4]. split; [split| | |]; try done.
      * by rewrite V3, O1.
      * by rewrite O2.
      * by rewrite O3, V4.
    + by rewrite V2.
    + rewrite V1. simpl. lia.
    + rewrite G5. destruct (serial_exists s); simpl; [lia|exact H6].
    + exists mf, mf, []. rewrite V1, Hsc. split_and!; [done|done|]. by rewrite app_nil_r.
    + simpl in H8. lia.
  - destruct (out_part_eq _ _ G6) as (_ & _ & _ & _ & O5 & _). exact O5.
  - rewrite G5. by destruct (serial_exists s).
Qed.

(** Echoing leaves the input alone. *)
Lemma reading_prints_all fuel s s' t ps cs : reading fuel s t cs → prints (view := view) ps s s' t →
  reading fuel s' (foldl (λ t c, term_putc c t) t ps) cs ∧ linebuf s' = linebuf s ∧ ser_out (vw' s') = ser_out (vw' s) ++ (ps ≫= expand).
Proof.
  intros [H1 H2 H3 H4 H5 H6 H7 H8] [P1 P2 P3 P4 _ _ (P7 & P8 & P9 & P10)].
  assert (Hs : cbuf s' = cbuf s ∧ rpos s' = rpos s ∧ wpos s' = wpos s ∧ shift s' = shift s ∧ serial_exists s' = serial_exists s ∧ linebuf s' = linebuf s)
    by (rewrite P2; done).
  destruct Hs as (S1 & S2 & S3 & S4 & S5 & S6). split_and!; [|done|done].
  assert (Hp : ring_ok s' ∧ pending s' = pending s) by (apply same_ring_ok; done).
  split; try done.
  - apply Hp.
  - by rewrite P9.
  - by rewrite P7.
  - by rewrite P8.
  - unfold ser_chars. rewrite S4, P7, P8, S5, (proj2 Hp). exact H7.
Qed.
Lemma reading_prints fuel s s' t c cs : reading fuel s t cs → prints (view := view) [c] s s' t →
  reading fuel s' (term_putc c t) cs ∧ linebuf s' = linebuf s ∧ ser_out (vw' s') = ser_out (vw' s) ++ expand c.
Proof. intros Hrd Hp. destruct (reading_prints_all _ _ _ _ _ _ Hrd Hp) as (H1 & H2 & H3). csimpl in H3. by rewrite app_nil_r in H3. Qed.

(** What the line editor makes of the input: the line, what is echoed, and the
    rest of the input when the line has ended, [None] when it has not. *)
Fixpoint edit (line cs : list Z) : list Z * list Z * option (list Z) :=
  match cs with
  | [] => (line, [], None)
  | c :: cs =>
    let echo '(l, e, r) := (l, c :: e, r) in
    if bool_decide (32 ≤ c ∧ Z.of_nat (length line) < BUFSIZE - 1) then echo (edit (line ++ [c]) cs)
    else if bool_decide (c = 8 ∧ line ≠ []) then echo (edit (removelast line) cs)
    else if bool_decide (c = 10 ∨ c = 13) then (line, [c], Some cs)
    else edit line cs
  end.

Abbreviation readline_loop' := (readline_loop in_port out_port vread vwrite).
(** The buffer of readline starts with the line. *)
Definition buffered s (line : list Z) : Prop := length (linebuf s) = Z.to_nat BUFSIZE ∧ ∃ rest, linebuf s = line ++ rest.

Lemma put_index_run (l : list Z) (i : nat) x s : (i < length l)%nat → put_index l (Z.of_nat i) x s = Ret (<[i := x]> l, s).
Proof. intros Hi. unfold put_index. rewrite bool_decide_true by lia. by rewrite Nat2Z.id. Qed.
Lemma echo_ok fuel s t c cs : reading fuel s t cs →
  ∃ s', cputchar in_port out_port vread vwrite c s = Ret ((), s') ∧ reading fuel s' (term_putc c t) cs ∧ linebuf s' = linebuf s ∧
    ser_out (vw' s') = ser_out (vw' s) ++ expand c.
Proof using HD.
  intros Hrd. destruct (cons_putc_ok c s t (rd_shows _ _ _ _ Hrd) (rd_ok _ _ _ _ Hrd) (rd_dlab _ _ _ _ Hrd)) as (s' & E & Hp).
  exists s'. split; [done|]. by eapply reading_prints.
Qed.
Lemma reading_linebuf fuel s t cs b : reading fuel s t cs → reading fuel (set_linebuf b s) t cs.
Proof. intros [[] [] ? ? ? ? ? ?]. split; try done; by split. Qed.
Lemma insert_line (line rest : list Z) c : rest ≠ [] → <[length line := c]> (line ++ rest) = line ++ c :: tail rest.
Proof. intros Hr. destruct rest; [done|]. rewrite insert_app_r_alt by lia. by rewrite Nat.sub_diag. Qed.

(** The loop from the middle of a line: it ends with the line, or goes on with
    the line so far when the input has been used up. *)
Definition read_line (turns fuel : nat) (s0 s' : console D) (t : term) (i : Z) (n : nat) (l e : list Z)
    (r : option (list Z)) : Prop :=
  reading fuel s' (foldl (λ t c, term_putc c t) t e) (default [] r) ∧
  ser_out (vw' s') = ser_out (vw' s0) ++ (e ≫= expand) ∧ Z.of_nat (length l) < BUFSIZE ∧
  match r with
  | Some _ => readline_loop' turns fuel i s0 = Ret (Some (), s') ∧ buffered s' (l ++ [0])
  | None => readline_loop' turns fuel i s0 = readline_loop' (turns - n) fuel (Z.of_nat (length l)) s' ∧ buffered s' l
  end.

Lemma read_line_turn turns fuel s0 s1 s' t c i i1 n l e r :
  readline_loop' (S turns) fuel i s0 = readline_loop' turns fuel i1 s1 →
  ser_out (vw' s1) = ser_out (vw' s0) ++ expand c →
  read_line turns fuel s1 s' (term_putc c t) i1 n l e r → read_line (S turns) fuel s0 s' t i (S n) l (c :: e) r.
Proof.
  intros E Ho (H1 & H2 & H3 & H4). split; [exact H1|]. split; [|split; [done|]].
  - rewrite H2, Ho. csimpl. by rewrite <-app_assoc.
  - rewrite E. exact H4.
Qed.

Lemma readline_loop_ok turns fuel s t cs line l e r :
  reading fuel s t cs → (length cs < turns)%nat → buffered s line → Z.of_nat (length line) < BUFSIZE → edit line cs = (l, e, r) →
  ∃ s', read_line turns fuel s s' t (Z.of_nat (length line)) (length cs) l e r.
Proof using HD.
  revert turns s t line l e. induction cs as [|c cs IH]; intros turns s t line l e Hrd Ht [Hbl [rest Hb]] Hll He.
  { injection He as <- <- <-. exists s. split; [exact Hrd|]. split; [by rewrite app_nil_r|]. split; [done|].
    split; [by rewrite Nat.sub_0_r|]. split; [done|by exists rest]. }
  destruct turns as [|turns]; [simpl in Ht; lia|]. cbn [edit length] in He |- *.
  destruct (getchar_ok fuel s t c cs Hrd) as (s1 & E1 & Hrd1 & Hl1 & Ho1 & Hc).
  rewrite Hb, length_app in Hbl. change (Z.to_nat BUFSIZE) with 1024%nat in Hbl.
  assert (HB : BUFSIZE = 1024) by done. assert (Hrest : rest ≠ []) by (destruct rest; simpl in Hbl; [lia|done]).
  assert (Hloop : readline_loop' (S turns) fuel (Z.of_nat (length line)) s =
    (if bool_decide (c >= 32 ∧ Z.of_nat (length line) < BUFSIZE - 1) then
       cputchar in_port out_port vread vwrite c;;
       b ← gets linebuf; b ← put_index b (Z.of_nat (length line)) (u8 c); modify (set_linebuf b);;
       readline_loop' turns fuel (Z.of_nat (length line) + 1)
     else if bool_decide (c = 8 ∧ Z.of_nat (length line) > 0) then
       cputchar in_port out_port vread vwrite c;; readline_loop' turns fuel (Z.of_nat (length line) - 1)
     else if bool_decide (c = 10 ∨ c = 13) then
       cputchar in_port out_port vread vwrite c;;
       b ← gets linebuf; b ← put_index b (Z.of_nat (length line)) 0; modify (set_linebuf b);; mret (Some ())
     else readline_loop' turns fuel (Z.of_nat (length line))) s1).
  { cbn [readline_loop]. rewrite (bind_Ret _ _ _ _ _ E1). by rewrite (bool_decide_false (c < 0)) by lia. }
  destruct (decide (32 ≤ c ∧ Z.of_nat (length line) < BUFSIZE - 1)) as [C1|C1].
  { rewrite (bool_decide_true (32 ≤ c ∧ _)) in He by done. rewrite bool_decide_true in Hloop by lia.
    destruct (edit (line ++ [c]) cs) as [[l' e'] r'] eqn:Ed. injection He as <- <- <-.
    destruct (echo_ok fuel s1 t c cs Hrd1) as (s2 & E2 & Hrd2 & Hl2 & Ho2). rewrite (bind_Ret _ _ _ _ _ E2), bind_gets in Hloop.
    rewrite Hl2, Hl1, Hb in Hloop. rewrite (bind_Ret _ _ _ _ _ (put_index_run (line ++ rest) (length line) (u8 c) s2 ltac:(rewrite length_app; lia))) in Hloop.
    rewrite bind_modify in Hloop. replace (u8 c) with c in Hloop by (symmetry; apply Z.mod_small; lia). rewrite insert_line in Hloop by done.
    destruct (IH turns (set_linebuf (line ++ c :: tail rest) s2) (term_putc c t) (line ++ [c]) l' e') as (s' & Hr'); try done.
    - by apply reading_linebuf.
    - simpl in Ht. lia.
    - split; [|exists (tail rest); by rewrite <-app_assoc]. simpl. rewrite length_app. simpl. destruct rest; [done|]. simpl in *.
      change (Z.to_nat BUFSIZE) with 1024%nat. lia.
    - rewrite length_app. simpl. lia.
    - exists s'. eapply read_line_turn; [exact Hloop|by rewrite <-Ho1|].
      rewrite length_app in Hr'. simpl in Hr'. replace (Z.of_nat (length line + 1)) with (Z.of_nat (length line) + 1) in Hr' by lia. exact Hr'. }
  rewrite (bool_decide_false (32 ≤ c ∧ _)) in He by done. rewrite (bool_decide_false (c >= 32 ∧ _)) in Hloop by lia.
  destruct (decide (c = 8 ∧ line ≠ [])) as [C2|C2].
  { rewrite (bool_decide_true (c = 8 ∧ line ≠ [])) in He by done. destruct C2 as [-> Hne].
    destruct line as [|x line _] using rev_ind; [done|]. rewrite removelast_last in He. rewrite length_app in *. simpl length in *.
    rewrite (bool_decide_true (8 = 8 ∧ _)) in Hloop by (split; [done|rewrite ?length_app; simpl; lia]).
    destruct (edit line cs) as [[l' e'] r'] eqn:Ed. injection He as <- <- <-.
    destruct (echo_ok fuel s1 t 8 cs Hrd1) as (s2 & E2 & Hrd2 & Hl2 & Ho2). rewrite (bind_Ret _ _ _ _ _ E2) in Hloop.
    destruct (IH turns s2 (term_putc 8 t) line l' e') as (s' & Hr'); try done.
    - simpl in Ht. lia.
    - split; [rewrite Hl2, Hl1, Hb, !length_app; simpl; change (Z.to_nat BUFSIZE) with 1024%nat; lia|].
      exists (x :: rest). by rewrite Hl2, Hl1, Hb, <-app_assoc.
    - lia.
    - exists s'. eapply read_line_turn; [exact Hloop|by rewrite <-Ho1|].
      replace (Z.of_nat (length line + length [x]) - 1) with (Z.of_nat (length line)) by (simpl; lia). exact Hr'. }
  rewrite (bool_decide_false (c = 8 ∧ line ≠ [])) in He by done.
  rewrite (bool_decide_false (c = 8 ∧ _)) in Hloop by (destruct line; simpl; naive_solver lia).
  destruct (decide (c = 10 ∨ c = 13)) as [C3|C3].
  - rewrite (bool_decide_true (c = 10 ∨ c = 13)) in He, Hloop by done. injection He as <- <- <-.
    destruct (echo_ok fuel s1 t c cs Hrd1) as (s2 & E2 & Hrd2 & Hl2 & Ho2). rewrite (bind_Ret _ _ _ _ _ E2), bind_gets in Hloop.
    rewrite Hl2, Hl1, Hb in Hloop. rewrite (bind_Ret _ _ _ _ _ (put_index_run (line ++ rest) (length line) 0 s2 ltac:(rewrite length_app; lia))) in Hloop.
    rewrite bind_modify, insert_line in Hloop by done. exists (set_linebuf (line ++ 0 :: tail rest) s2). split_and!.
    + by apply reading_linebuf.
    + change (ser_out (vw' (set_linebuf _ s2))) with (ser_out (vw' s2)). rewrite Ho2, Ho1. csimpl. by rewrite app_nil_r.
    + done.
    + exact Hloop.
    + split; [|exists (tail rest); by rewrite <-app_assoc]. simpl. rewrite length_app. simpl. destruct rest; [done|]. simpl in *.
      change (Z.to_nat BUFSIZE) with 1024%nat. lia.
  - rewrite (bool_decide_false (c = 10 ∨ c = 13)) in He, Hloop by done.
    destruct (IH turns s1 t line l e) as (s' & H1 & H2 & H3 & H4); try done.
    + simpl in Ht. lia.
    + split; [rewrite Hl1, Hb, length_app; done|exists rest; by rewrite Hl1].
    + exists s'. split; [exact H1|]. split; [by rewrite H2, Ho1|]. split; [done|]. rewrite Hloop. exact H4.
Qed.
End In.
