(* ===== verification/ConsoleInit.v ===== *)
(** * cons_init: from power-on to a console in order *)
From stdpp Require Import base gmap list fin_maps strings.
From Stdlib Require Import ZArith Lia.
From S2P Require Import Prelude Bits CString Printfmt Mmu Console ConsoleDev ConsoleOut ConsoleIn.

(** A format without escapes is printed as it is. *)
Lemma output_literal fuel fmt ap : Forall (λ c, c ≠ chr_percent ∧ c ≠ 0) fmt → (length fmt < fuel)%nat → output fuel fmt ap = Ret ((), fmt).
Proof.
  intros Hf Hl. unfold output.
  assert (H : ∀ n i l, (length fmt - i < n)%nat → (i ≤ length fmt)%nat → vprintfmt lputch n fmt i ap l = Ret ((), l ++ drop i fmt)).
  { induction n as [|n IH]; intros i l Hn Hi; [lia|]. cbn [vprintfmt]. unfold fmt_at. destruct (decide (i = length fmt)) as [->|Hne].
    - rewrite (bool_decide_true (_ = _)) by done. rewrite bind_mret, bool_decide_true by done.
      rewrite (bool_decide_true (0 = 0)) by done. rewrite drop_all. by rewrite app_nil_r.
    - rewrite (bool_decide_false (i = length fmt)) by done.
      assert (is_Some (fmt !! i)) as [c Hc] by (apply lookup_lt_is_Some; lia). rewrite Hc, bind_mret.
      pose proof (Forall_lookup_1 _ _ _ _ Hf Hc) as [C1 C2]. rewrite (bool_decide_true (c ≠ chr_percent)), (bool_decide_false (c = 0)) by done.
      erewrite bind_Ret; [|done]. rewrite IH by lia. by rewrite <-app_assoc, (drop_S _ _ _ Hc). }
  rewrite H; [done|lia|lia].
Qed.

Section Init.
Context {D : Type} {in_port : Z → M D Z} {out_port : Z → Z → M D unit} {vread : Z → M D Z} {vwrite : Z → Z → M D unit}.
Context {view : D → devview} `{HD : !Devices in_port out_port vread vwrite view}.
Implicit Types (s : console D).
Abbreviation vw' := (vw (view := view)).

(** The display: its memory and registers are where its kind has them, and the
    cursor is on the screen. *)
Record display (v : devview) (base : Z) (l : list Z) (p : Z) : Prop := {
  di_kind : base = CGA_BUF + KERNBASE ∧ crt_port v = CGA_BASE ∨
            base = MONO_BUF + KERNBASE ∧ crt_port v = MONO_BASE ∧ vram v !! (CGA_BUF + KERNBASE) = None;
  di_cells : holds_term v base l;
  di_pos : p = cursor_hi v * 256 + cursor_lo v;
  di_range : 0 ≤ p < CRT_SIZE }.

(** Reading the cursor. *)
Lemma cursor_run s a : dev_ok (vw' s) → crt_port (vw' s) = a →
  ∃ d, (outb out_port a 14;; hi ← inb in_port (a + 1); outb out_port a 15;; lo ← inb in_port (a + 1); mret (hi, lo)) s =
      Ret ((cursor_hi (vw' s), cursor_lo (vw' s)), with_io d s) ∧ dev_ok (view d) ∧
      view d = set_crtc 15 (cursor_hi (vw' s)) (cursor_lo (vw' s)) (vw' s).
Proof using HD.
  intros Hok Ha. pose proof (dk_port _ Hok) as Hport. rewrite Ha in Hport.
  assert (Hout : ∀ x v, crt_port v = a → out_view (u16 a) x v = set_crtc x (cursor_hi v) (cursor_lo v) v).
  { intros x v Ev. unfold out_view. rewrite Ev. destruct Hport as [->| ->]; done. }
  assert (Hin : ∀ v, in_view (u16 (a + 1)) v = v) by (intros v; destruct Hport as [->| ->]; done).
  assert (Hu : u16 (a + 1) = a + 1) by (destruct Hport as [->| ->]; done).
  destruct (does_outb a 14 s Hok) as (d1 & E1 & V1 & K1). rewrite Hout in V1 by done. rewrite (bind_Ret _ _ _ _ _ E1).
  destruct (inb_run (with_io d1 s) (a + 1) K1) as (hi & d2 & E2 & [_ _ _ _ _ Hhi _] & V2 & K2). rewrite (bind_Ret _ _ _ _ _ E2).
  rewrite Hin in V2. unfold vw in V2, Hhi. simpl in V2, Hhi. rewrite V1 in V2, Hhi. rewrite Hu in Hhi. rewrite Hhi by (simpl; congruence || done).
  destruct (does_outb a 15 (with_io d2 s) K2) as (d3 & E3 & V3 & K3). unfold vw in V3. simpl in V3. rewrite V2, Hout in V3 by done.
  change (with_io d2 (with_io d1 s)) with (with_io d2 s). rewrite (bind_Ret _ _ _ _ _ E3).
  destruct (inb_run (with_io d3 s) (a + 1) K3) as (lo & d4 & E4 & [_ _ _ _ _ _ Hlo] & V4 & K4).
  change (with_io d3 (with_io d2 s)) with (with_io d3 s). rewrite (bind_Ret _ _ _ _ _ E4).
  rewrite Hin in V4. unfold vw in V4, Hlo. simpl in V4, Hlo. rewrite V3 in V4, Hlo. rewrite Hu in Hlo. rewrite Hlo by (simpl; congruence || done).
  exists d4. split_and!; [done|done|]. rewrite V4. done.
Qed.

(** The probe leaves the video memory as it was. *)
Lemma probe_run s base l p : dev_ok (vw' s) → display (vw' s) base l p →
  ∃ d, (was ← zoom io_lens (vread (CGA_BUF + KERNBASE)); zoom io_lens (vwrite (CGA_BUF + KERNBASE) 0xA55A);;
        x ← zoom io_lens (vread (CGA_BUF + KERNBASE));
        if bool_decide (x ≠ 0xA55A) then mret (MONO_BUF + KERNBASE, MONO_BASE)
        else zoom io_lens (vwrite (CGA_BUF + KERNBASE) was);; mret (CGA_BUF + KERNBASE, CGA_BASE)) s =
      Ret ((base, crt_port (vw' s)), with_io d s) ∧ view d = vw' s.
Proof using HD.
  intros Hok [[[-> Hp]|(-> & Hp & Hn)] [Hl1 Hl2 Hl3] _ _]; rewrite Hp.
  - set (a := CGA_BUF + KERNBASE) in *. pose proof (Hl3 0%nat ltac:(by vm_compute; lia)) as H0. rewrite Z.add_0_r in H0.
    assert (is_Some (l !! 0%nat)) as [y Hy] by (apply lookup_lt_is_Some; rewrite Hl1; by vm_compute; lia). rewrite Hy in H0.
    destruct (dv_read (io s) a y H0) as (d1 & E1 & V1). rewrite (bind_Ret _ _ _ _ _ (zoom_Ret io_lens _ s _ _ E1)).
    destruct (dv_write d1 a 0xA55A y) as (d2 & E2 & V2); [by rewrite V1|].
    rewrite (bind_Ret _ _ _ _ _ (zoom_Ret io_lens _ (over io_lens d1 s) _ _ E2)). rewrite V1 in V2.
    destruct (dv_read d2 a 0xA55A) as (d3 & E3 & V3); [rewrite V2; simpl; by rewrite lookup_insert_eq|].
    rewrite (bind_Ret _ _ _ _ _ (zoom_Ret io_lens _ (over io_lens d2 s) _ _ E3)). rewrite bool_decide_false by tauto.
    destruct (dv_write d3 a y 0xA55A) as (d4 & E4 & V4); [rewrite V3, V2; simpl; by rewrite lookup_insert_eq|].
    rewrite (bind_Ret _ _ _ _ _ (zoom_Ret io_lens _ (over io_lens d3 s) _ _ E4)). exists d4. split; [done|].
    rewrite V4, V3, V2. simpl. rewrite insert_insert_eq, insert_id by done. unfold vw. by destruct (view (io s)).
  - set (a := CGA_BUF + KERNBASE) in *. destruct (dv_read_none (io s) a Hn) as (x1 & d1 & E1 & _ & V1).
    rewrite (bind_Ret _ _ _ _ _ (zoom_Ret io_lens _ s _ _ E1)).
    destruct (dv_write_none d1 a 0xA55A) as (d2 & E2 & V2); [by rewrite V1|].
    rewrite (bind_Ret _ _ _ _ _ (zoom_Ret io_lens _ (over io_lens d1 s) _ _ E2)).
    destruct (dv_read_none d2 a) as (x3 & d3 & E3 & Hx3 & V3); [by rewrite V2, V1|].
    rewrite (bind_Ret _ _ _ _ _ (zoom_Ret io_lens _ (over io_lens d2 s) _ _ E3)). rewrite bool_decide_true by done.
    exists d3. split; [done|]. by rewrite V3, V2, V1.
Qed.

Lemma cga_init_ok s base l p : dev_ok (vw' s) → display (vw' s) base l p →
  ∃ d, cga_init in_port out_port vread vwrite s = Ret ((), set_crt base p (crt_port (vw' s)) (with_io d s)) ∧ dev_ok (view d) ∧
    view d = set_crtc 15 (cursor_hi (vw' s)) (cursor_lo (vw' s)) (vw' s).
Proof using HD.
  intros Hok Hd. destruct (probe_run s base l p Hok Hd) as (d1 & E1 & V1).
  assert (Hok1 : dev_ok (vw' (with_io d1 s))) by (unfold vw; simpl; by rewrite V1).
  destruct (cursor_run (with_io d1 s) (crt_port (vw' s)) Hok1) as (d2 & E2 & K2 & V2); [unfold vw; simpl; by rewrite V1|].
  unfold vw in V2, E2. simpl in V2, E2. rewrite V1 in V2, E2. exists d2. split_and!; [|done|done]. unfold cga_init. cbv zeta.
  do 3 mfollow E1. rewrite (bind_Ret _ _ _ _ _ E1). cbn beta iota.
  do 4 mfollow E2. injection E2 as -> -> ->. unfold modify. do 3 f_equal.
  rewrite (di_pos _ _ _ _ Hd). destruct Hok as [_ _ Hhi Hlo _].
  assert (E : Z.lor (Z.shiftl (cursor_hi (vw' s)) 8) (cursor_lo (vw' s)) = cursor_hi (vw' s) * 256 + cursor_lo (vw' s)).
  { by rewrite lor_add by lia. }
  unfold vw in *. rewrite E. apply Z.mod_small. lia.
Qed.

(** *** Ports of no consequence here *)
Definition inert (p : Z) : Prop :=
  u16 p ∉ [COM1 + COM_TX; COM1 + COM_LCR; LPTPORT; LPTPORT + 2; MONO_BASE; MONO_BASE + 1; CGA_BASE; CGA_BASE + 1].
Lemma does_inert p x : inert p → does (view := view) (outb out_port p x) id.
Proof using HD.
  intros Hp s Hok. destruct (does_outb p x s Hok) as (d & E & V & K). exists d. split_and!; [done| |done]. rewrite V. unfold out_view.
  unfold inert in Hp. rewrite !not_elem_of_cons in Hp. destruct Hp as (P1 & P2 & P3 & P4 & P5 & P6 & P7 & P8 & _).
  pose proof (dk_port _ Hok) as Hport. rewrite !decide_False; [done|..]; try done; by destruct Hport as [->| ->].
Qed.

Lemma intr_umask_ok irq s : dev_ok (vw' s) →
  ∃ d, intr_umask out_port irq s = Ret ((), set_pic (u16 (Z.ldiff (irq_mask s) (Z.shiftl 1 irq))) (did_init s) (with_io d s)) ∧
    view d = vw' s ∧ dev_ok (view d).
Proof using HD.
  intros Hok. unfold intr_umask, pic_umask, pic_setmask. rewrite bind_gets, bind_gets, bind_modify. set (m := u16 _). destruct (did_init s).
  - destruct (does_bind _ _ _ _ (does_inert (IO_PIC1 + 1) m ltac:(by vm_compute; set_solver))
      (does_inert (IO_PIC2 + 1) (Z.shiftr m 8) ltac:(by vm_compute; set_solver)) (set_pic m true s) Hok) as (d & E & V & K).
    exists d. by split_and!.
  - exists (io s). split_and!; [by destruct s|done|done].
Qed.

(** *** serial_init *)
Lemma serial_init_ok s : dev_ok (vw' s) →
  ∃ d b m, serial_init in_port out_port s = Ret ((), set_pic m (did_init s) (set_serial_exists b (with_io d s))) ∧ dev_ok (view d) ∧
    view d = set_ser_in (tail (ser_in (vw' s))) (set_ser_out (ser_out (vw' s)) false (vw' s)) ∧
    m = (if b then u16 (Z.ldiff (irq_mask s) (Z.shiftl 1 IRQ_COM1)) else irq_mask s).
Proof using HD.
  intros Hok.
  assert (Hset : does (view := view) (outb out_port (COM1 + COM_FCR) 0;; outb out_port (COM1 + COM_LCR) COM_LCR_DLAB;;
      outb out_port (COM1 + COM_DLL) (u8 (115200 / 9600));; outb out_port (COM1 + COM_DLM) 0;;
      outb out_port (COM1 + COM_LCR) (Z.ldiff COM_LCR_WLEN8 COM_LCR_DLAB);; outb out_port (COM1 + COM_MCR) 0;;
      outb out_port (COM1 + COM_IER) COM_IER_RDI) (λ v, set_ser_out (ser_out v) false v)).
  { eapply does_ext; [|apply does_bind; [apply does_inert; by vm_compute; set_solver|];
      apply does_bind; [apply does_outb|]; apply does_bind; [apply does_outb|]; apply does_bind; [apply does_inert; by vm_compute; set_solver|];
      apply does_bind; [apply does_outb|]; apply does_bind; apply does_inert; by vm_compute; set_solver]. done. }
  destruct (Hset s Hok) as (d1 & E1 & V1 & K1). unfold serial_init. do 6 mfollow E1. rewrite (bind_Ret _ _ _ _ _ E1). clear E1.
  destruct (inb_run (with_io d1 s) (COM1 + COM_LSR) K1) as (lsr & d2 & E2 & _ & V2 & K2). rewrite (bind_Ret _ _ _ _ _ E2).
  unfold vw in V2. simpl in V2. rewrite bind_modify. set (b := bool_decide (lsr ≠ 0xFF)). set (s2 := set_serial_exists b _).
  destruct (inb_run s2 (COM1 + COM_IIR) K2) as (iir & d3 & E3 & _ & V3 & K3). rewrite (bind_Ret _ _ _ _ _ E3).
  destruct (inb_run (with_io d3 s2) (COM1 + COM_RX) K3) as (rx & d4 & E4 & _ & V4 & K4). rewrite (bind_Ret _ _ _ _ _ E4).
  unfold vw in V3, V4. simpl in V3, V4. unfold in_view in V2, V3, V4.
  change (u16 (COM1 + COM_RX)) with (COM1 + COM_RX) in V4. rewrite !decide_False in V2 by done. rewrite !decide_False in V3 by done.
  rewrite decide_False, decide_True in V4 by done. rewrite V3, V2, V1 in V4. simpl in V4.
  change (with_io d4 (with_io d3 s2)) with (set_serial_exists b (with_io d4 s)). destruct b.
  - destruct (intr_umask_ok IRQ_COM1 (set_serial_exists true (with_io d4 s)) K4) as (d5 & E5 & V5 & K5).
    exists d5, true. eexists. split_and!; [exact E5|done| |done]. rewrite V5. unfold vw. simpl. by rewrite V4.
  - exists d4, false, (irq_mask s). split_and!; [by destruct s|done|by rewrite V4|done].
Qed.

(** *** cons_init *)
Definition no_serial : list Z := codes "serial port does not exist!!" ++ [10].
Lemma no_serial_literal : Forall (λ c, c ≠ chr_percent ∧ c ≠ 0) no_serial.
Proof. repeat constructor; done. Qed.
#[local] Opaque no_serial.

Lemma cons_init_ok fuel s base l p m mf ks :
  dev_ok (vw' s) → display (vw' s) base l p → ring_ok s → shift s = bits m → key_chars m (kbd_in (vw' s)) = Some (mf, ks) →
  (length ks < fuel)%nat → (length no_serial < fuel)%nat →
  ∃ s' (b : bool), cons_init in_port out_port vread vwrite fuel s = Ret ((), s') ∧ ring_ok s' ∧
    pending s' = foldl push (pending s) (filter (λ c, c ≠ 0) ks) ∧
    let msg : list Z := if b then [] else no_serial in
    shows (view := view) s' (foldl (λ t c, term_putc c t) (MkTerm l p) msg) ∧ dev_ok (vw' s') ∧ dlab (vw' s') = false ∧
    kbd_in (vw' s') = [] ∧ ser_in (vw' s') = tail (ser_in (vw' s)) ∧ ser_out (vw' s') = ser_out (vw' s) ++ (msg ≫= expand) ∧
    shift s' = bits mf ∧ serial_exists s' = b ∧ did_init s' = did_init s ∧
    irq_mask s' = u16 (Z.ldiff (if b then u16 (Z.ldiff (irq_mask s) (Z.shiftl 1 IRQ_COM1)) else irq_mask s) (Z.shiftl 1 IRQ_KBD)).
Proof using HD.
  intros Hok Hd Hr Hsh Hk Hf1 Hf2. unfold cons_init.
  destruct (cga_init_ok s base l p Hok Hd) as (d1 & E1 & K1 & V1). rewrite (bind_Ret _ _ _ _ _ E1). set (s1 := set_crt _ _ _ _).
  destruct (serial_init_ok s1 K1) as (d2 & b & mk & E2 & K2 & V2 & Hmk). rewrite (bind_Ret _ _ _ _ _ E2). set (s2 := set_pic _ _ _).
  unfold vw in V2. simpl in V2. rewrite V1 in V2.
  destruct (cons_intr_ok _ _ fuel ks s2 (keyboard_source (in_port := in_port) (out_port := out_port) (vread := vread) (vwrite := vwrite) fuel s2 mf))
    as (s3 & E3 & [(m3 & I1 & I1') I2 I3 I4] & Hr3 & Hp3).
  { split; [|exact K2|unfold vw; simpl; by destruct (view d2)|done]. exists m. split; [done|]. unfold vw. simpl. by rewrite V2. }
  { destruct Hr. by split. } { done. }
  unfold kbd_init, kbd_intr. rewrite bind_assoc, (bind_Ret _ _ _ _ _ E3). apply key_chars_nil in I1' as [Hnil ->].
  destruct (intr_umask_ok IRQ_KBD s3 I2) as (d4 & E4 & V4 & K4). rewrite (bind_Ret _ _ _ _ _ E4). set (s4 := set_pic _ _ _).
  assert (Hv4 : vw' s4 = set_kbd_in [] (view d2)) by (change (vw' s4) with (view d4); rewrite V4, I3, Hnil; done).
  injection I4 as O1 O2 O3 O4 O5 O6 O7 O8 O9. simpl in *.
  assert (Hs4 : shows (view := view) s4 (MkTerm l p)).
  { destruct (di_cells _ _ _ _ Hd) as [L1 L2 L3]. split; simpl; [split| | |]; try done.
    - intros i Hi. rewrite Hv4, O1, V2. by apply L3.
    - apply (di_range _ _ _ _ Hd).
    - rewrite O3, Hv4, V2. done. }
  assert (Hr4 : ring_ok s4 ∧ pending s4 = pending s3) by (apply (same_ring_ok s3); done).
  assert (Hmask : irq_mask s4 = u16 (Z.ldiff (if b then u16 (Z.ldiff (irq_mask s) (Z.shiftl 1 IRQ_COM1)) else irq_mask s) (Z.shiftl 1 IRQ_KBD))).
  { simpl. rewrite O5, Hmk. done. }
  rewrite bind_gets. change (serial_exists s4) with (serial_exists s3). rewrite O4. destruct b.
  - exists s4, true. rewrite app_nil_r. simpl. split_and!; try done; try (by rewrite Hv4, V2); try apply Hr4.
  - destruct (vcprintf_ok fuel no_serial [] no_serial s4 (MkTerm l p) Hs4 K4) as (s5 & E5 & [P1 P2 P3 P4 P5 P6 (P7 & P8 & P9 & P10)]).
    + by rewrite Hv4, V2.
    + apply output_literal; [apply no_serial_literal|done].
    + change (codes "serial port does not exist!!" ++ [10]) with no_serial. unfold cprintf. rewrite (bind_Ret _ _ _ _ _ E5). exists s5, false.
      assert (Hs5 : cbuf s5 = cbuf s4 ∧ rpos s5 = rpos s4 ∧ wpos s5 = wpos s4 ∧ shift s5 = shift s4 ∧ serial_exists s5 = serial_exists s4 ∧
        did_init s5 = did_init s4 ∧ irq_mask s5 = irq_mask s4) by (rewrite P2; done).
      destruct Hs5 as (S1 & S2 & S3 & S4 & S5 & S6 & S7). assert (Hr5 : ring_ok s5 ∧ pending s5 = pending s4) by (apply (same_ring_ok s4); [done|apply Hr4]).
      cbv zeta iota. split_and!; [done|..].
      * apply Hr5.
      * by rewrite (proj2 Hr5), (proj2 Hr4), Hp3.
      * exact P1.
      * exact P3.
      * by rewrite P9, Hv4, V2.
      * by rewrite P7, Hv4.
      * by rewrite P8, Hv4, V2.
      * by rewrite P4, Hv4, V2.
      * by rewrite S4.
      * by rewrite S5.
      * by rewrite S6.
      * by rewrite S7.
Qed.
End Init.
