(* ===== verification/ConsoleThms.v ===== *)
(** * Console: the theorems *)
From stdpp Require Import base gmap list fin_maps strings.
From Stdlib Require Import ZArith Lia.
From S2P Require Import Prelude Bits CString Printfmt Mmu Console ConsoleDev ConsoleOut ConsoleIn ConsoleInit.

(** The mask after unmasking the keyboard, and the serial port if there is one. *)
Lemma umask_bits (b : bool) m i : 0 ≤ i < 16 →
  Z.testbit (u16 (Z.ldiff (if b then u16 (Z.ldiff m (Z.shiftl 1 IRQ_COM1)) else m) (Z.shiftl 1 IRQ_KBD))) i =
  (Z.testbit m i && bool_decide (i ≠ IRQ_KBD) && negb (b && bool_decide (i = IRQ_COM1)))%bool.
Proof.
  intros Hi. assert (Hbit : ∀ x k, 0 ≤ k → Z.testbit (u16 (Z.ldiff x (Z.shiftl 1 k))) i = (Z.testbit x i && bool_decide (i ≠ k))%bool).
  { intros x k Hk. unfold u16. rewrite Z.mod_pow2_bits_low, Z.ldiff_spec by lia. f_equal. rewrite Z.shiftl_1_l, Z.pow2_bits_eqb by lia.
    destruct (Z.eqb_spec k i); [rewrite bool_decide_eq_false_2 by lia|rewrite bool_decide_eq_true_2 by lia]; done. }
  rewrite Hbit by done. destruct b; rewrite ?Hbit by done; unfold IRQ_COM1, IRQ_KBD;
    destruct (Z.testbit m i); repeat case_bool_decide; simpl; done || lia.
Qed.

Section Thms.
Context {D : Type} (in_port : Z → M D Z) (out_port : Z → Z → M D unit) (vread : Z → M D Z) (vwrite : Z → Z → M D unit).
Context (view : D → devview).
Implicit Types (s : console D).
Abbreviation vwd := (vw (view := view)).
Abbreviation shown := (shows (view := view)).

(** C7. Whatever vprintfmt makes of a format and its arguments, cprintf
    shows on the screen as a terminal does (cursor, backspace, ends of lines,
    scrolling), sends to the serial and the parallel port in order, and counts;
    it ends also when the ports are never ready, leaves the interrupt flag,
    the waiting input and the input buffer alone, and the cursor registers
    follow. *)
Theorem cprintf_correct `{!Devices in_port out_port vread vwrite view} fuel fmt ap l s t :
  shown s t → dev_ok (vwd s) → dlab (vwd s) = false → output fuel fmt ap = Ret ((), l) →
  ∃ s', cprintf in_port out_port vread vwrite fuel fmt ap s = Ret (s32 (Z.of_nat (length l)), s') ∧
    shown s' (foldl (λ t c, term_putc c t) t l) ∧ dev_ok (vwd s') ∧
    ser_out (vwd s') = ser_out (vwd s) ++ (l ≫= expand) ∧ lpt_out (vwd s') = lpt_out (vwd s) ++ (l ≫= expand) ∧
    (l ≠ [] → cursor_hi (vwd s') * 256 + cursor_lo (vwd s') = crt_pos s') ∧
    s' = with_io (io s') (set_crt_pos (crt_pos s') s) ∧ kbd_in (vwd s') = kbd_in (vwd s) ∧ ser_in (vwd s') = ser_in (vwd s).
Proof.
  intros Hs Hok Hl Ho. destruct (vcprintf_ok fuel fmt ap l s t Hs Hok Hl Ho) as (s' & E & [P1 P2 P3 P4 P5 P6 (P7 & P8 & _)]).
  exists s'. by split_and!.
Qed.

(** C26. cons_getc drains the serial port and then the keyboard into the ring
    buffer and returns the oldest character, or 0 when there is none; the
    characters are those an abstract keyboard with its modifier keys makes of the
    scan codes.  The positions stay in the buffer.  As long as fewer than 512
    characters wait none is lost; otherwise all but the last [n mod 512] are. *)
Theorem cons_getc_correct `{!Devices in_port out_port vread vwrite view} fuel s m mf ks :
  ring_ok s → dev_ok (vwd s) → dlab (vwd s) = false → shift s = bits m → key_chars m (kbd_in (vwd s)) = Some (mf, ks) →
  (length ks < fuel)%nat → (length (ser_in (vwd s)) < fuel)%nat →
  let all := pending s ++ (if serial_exists s then filter (λ c, c ≠ 0) (ser_char <$> ser_in (vwd s)) else []) ++ filter (λ c, c ≠ 0) ks in
  let q := drop (length all / 512 * 512) all in
  ∃ s', cons_getc in_port out_port vread vwrite fuel s = Ret (default 0 (head q), s') ∧
    ring_ok s' ∧ pending s' = tail q ∧ shift s' = bits mf ∧ kbd_in (vwd s') = [] ∧
    (serial_exists s = true → ser_in (vwd s') = []) ∧ eflags s' = eflags s ∧ crt_pos s' = crt_pos s ∧ vram (vwd s') = vram (vwd s).
Proof.
  intros Hr Hok Hl Hsh Hk Hf1 Hf2 all q. destruct (cons_getc_ok fuel s m mf ks Hr Hok Hl Hsh Hk Hf1 Hf2) as (s' & E & [G1 G2 G3 G4 G5 G6]).
  assert (Hlen : (length (pending s) < 512)%nat).
  { unfold pending. rewrite ring_length. pose proof (Z.mod_pos_bound (wpos s - rpos s) CONSBUFSIZE ltac:(done)). unfold CONSBUFSIZE in *. lia. }
  rewrite push_all in E, G2 by done. exists s'. destruct (out_part_eq _ _ G6) as (_ & O2 & _ & _ & _ & O6).
  split_and!; [exact E|done|exact G2|done|..]; rewrite ?G5, ?O2, ?O6; try done; destruct (serial_exists s); done.
Qed.

(** C27. readline prints the prompt and returns the line the editor makes of
    the input (printable characters up to 1023, backspace, the end of line),
    terminated in the buffer, echoes it, and leaves the rest of the input for
    the next call.  Its loop does so from every point of a line: with up to
    1023 characters already in the buffer and fewer than 512 more waiting (what
    the input ring holds), it returns the finished line, or, when the input
    has no end of line, uses it up, keeps the line so far, of at most 1023
    characters, in the buffer and goes on waiting from there, so that a line
    may come in any number of parts. *)
Theorem readline_correct `{!Devices in_port out_port vread vwrite view} fuel s t cs :
  reading (view := view) fuel s t cs →
  (∀ prompt p l e r, length (linebuf s) = Z.to_nat BUFSIZE → (length cs < fuel)%nat →
     (match prompt with Some str => output fuel (codes "%s") [AStr (Some str)] = Ret ((), p) | None => p = [] end) →
     edit [] cs = (l, e, Some r) →
     ∃ s', readline in_port out_port vread vwrite fuel prompt s = Ret (Some (), s') ∧
       (∃ rest, linebuf s' = l ++ 0 :: rest) ∧ reading (view := view) fuel s' (foldl (λ t c, term_putc c t) t (p ++ e)) r ∧
       ser_out (vwd s') = ser_out (vwd s) ++ ((p ++ e) ≫= expand)) ∧
  (∀ turns line l e r, buffered s line → Z.of_nat (length line) ≤ 1023 → (length cs < turns)%nat →
     edit line cs = (l, e, r) →
     ∃ s', reading (view := view) fuel s' (foldl (λ t c, term_putc c t) t e) (default [] r) ∧
       ser_out (vwd s') = ser_out (vwd s) ++ (e ≫= expand) ∧ Z.of_nat (length l) ≤ 1023 ∧
       match r with
       | Some _ =>
         readline_loop in_port out_port vread vwrite turns fuel (Z.of_nat (length line)) s = Ret (Some (), s') ∧
         buffered s' (l ++ [0])
       | None =>
         readline_loop in_port out_port vread vwrite turns fuel (Z.of_nat (length line)) s =
           readline_loop in_port out_port vread vwrite (turns - length cs) fuel (Z.of_nat (length l)) s' ∧
         buffered s' l
       end).
Proof.
  intros Hrd. split.
  - intros prompt p l e r Hb Hf Hp He. unfold readline.
    assert (Hprompt : ∃ s1, (match prompt with Some str => cprintf in_port out_port vread vwrite fuel (codes "%s") [AStr (Some str)];; skip | None => skip end) s
       = Ret ((), s1) ∧ reading (view := view) fuel s1 (foldl (λ t c, term_putc c t) t p) cs ∧ linebuf s1 = linebuf s ∧
       ser_out (vwd s1) = ser_out (vwd s) ++ (p ≫= expand)).
    { destruct prompt as [str|]; [|subst p; exists s; by rewrite app_nil_r].
      destruct (vcprintf_ok fuel _ _ p s t (rd_shows _ _ _ _ Hrd) (rd_ok _ _ _ _ Hrd) (rd_dlab _ _ _ _ Hrd) Hp) as (s1 & E & Hpr).
      unfold cprintf. rewrite (bind_Ret _ _ _ _ _ E). exists s1. split; [done|]. by eapply reading_prints_all. }
    destruct Hprompt as (s1 & E1 & Hrd1 & Hl1 & Ho1). rewrite (bind_Ret _ _ _ _ _ E1).
    destruct (readline_loop_ok fuel fuel s1 (foldl (λ t c, term_putc c t) t p) cs [] l e (Some r) Hrd1 Hf)
      as (s2 & Hrd2 & Ho2 & _ & E2 & _ & rest & Hb2).
    + split; [by rewrite Hl1|by exists (linebuf s1)].
    + done.
    + done.
    + exists s2. split_and!; [exact E2| | |].
      * exists rest. by rewrite Hb2, <-app_assoc.
      * by rewrite foldl_app.
      * by rewrite Ho2, Ho1, bind_app, app_assoc.
  - intros turns line l e r Hb Hl Ht He.
    destruct (readline_loop_ok turns fuel s t cs line l e r Hrd Ht Hb) as (s' & H1 & H2 & H3 & H4); [unfold BUFSIZE; lia|done|].
    exists s'. split; [exact H1|]. split; [exact H2|]. split; [unfold BUFSIZE in H3; lia|exact H4].
Qed.

(** ** Every operation keeps the console well typed *)
Inductive cons_op : Type := OpPutc (c : Z) | OpGetc.
Definition run_cons_op (fuel : nat) (o : cons_op) : M (console D) Z :=
  match o with
  | OpPutc c => cons_putc in_port out_port vread vwrite c;; mret 0
  | OpGetc => cons_getc in_port out_port vread vwrite fuel
  end.
Fixpoint run_cons_ops (fuel : nat) (os : list cons_op) : M (console D) (list Z) :=
  match os with
  | [] => mret []
  | o :: os => r ← run_cons_op fuel o; rs ← run_cons_ops fuel os; mret (r :: rs)
  end.
Record console_ok (fuel : nat) s : Prop := {
  ck_ring : ring_ok s;
  ck_shows : ∃ t, shown s t;
  ck_dev : dev_ok (vwd s);
  ck_dlab : dlab (vwd s) = false;
  ck_kbd : (length (kbd_in (vwd s)) < fuel)%nat;
  ck_ser : (length (ser_in (vwd s)) < fuel)%nat;
  ck_keys : ∃ m, shift s = bits m ∧ is_Some (key_chars m (kbd_in (vwd s))) }.

Lemma run_cons_op_ok `{!Devices in_port out_port vread vwrite view} fuel o s :
  console_ok fuel s → ∃ r s', run_cons_op fuel o s = Ret (r, s') ∧ 0 ≤ r < 256 ∧ console_ok fuel s'.
Proof.
  intros [H1 [t H2] H3 H4 H5 H6 (m & Hsh & [[mf ks] Hk])]. destruct o as [c|]; cbn [run_cons_op].
  - destruct (cons_putc_ok c s t H2 H3 H4) as (s' & E & [P1 P2 P3 P4 P5 P6 (P7 & P8 & P9 & _)]).
    rewrite (bind_Ret _ _ _ _ _ E). exists 0, s'. split; [done|]. split; [lia|].
    assert (Hs : cbuf s' = cbuf s ∧ rpos s' = rpos s ∧ wpos s' = wpos s ∧ shift s' = shift s) by (rewrite P2; done).
    destruct Hs as (S1 & S2 & S3 & S4). split.
    + by apply (same_ring_ok s).
    + by eexists.
    + done.
    + by rewrite P9.
    + by rewrite P7.
    + by rewrite P8.
    + exists m. rewrite S4, P7. split; [done|by eexists].
  - destruct (key_chars_range _ _ _ _ (dk_kbd _ H3) Hk) as [_ Hlen]. rewrite <-Hlen in H5.
    destruct (cons_getc_ok fuel s m mf ks H1 H3 H4 Hsh Hk H5 H6) as (s' & E & [G1 G2 G3 G4 G5 G6]).
    eexists _, s'. split; [exact E|]. destruct (out_part_eq _ _ G6) as (O1 & O2 & O3 & _). split.
    + assert (Hall : Forall (λ c, 0 < c < 256) (foldl push (pending s) (ser_chars (view := view) s ++ filter (λ c, c ≠ 0) ks))).
      { apply push_range; [apply H1|]. apply Forall_app. split; [by apply ser_chars_range|].
        apply chars_range. by apply (key_chars_range _ _ _ _ (dk_kbd _ H3) Hk). }
      destruct (foldl push _ _) as [|c q]; simpl; [lia|]. apply Forall_cons in Hall as [? _]. lia.
    + split; try done.
      * exists t. destruct H2 as [[L1 L2 L3] S2 S3 S4]. split; [split| | |]; try done.
        -- rewrite G5, O1. by destruct (serial_exists s).
        -- by rewrite O2.
        -- rewrite G5, O3. by destruct (serial_exists s).
      * rewrite G5. by destruct (serial_exists s).
      * rewrite G5. destruct (serial_exists s); simpl; lia.
      * rewrite G5. destruct (serial_exists s); simpl; [lia|exact H6].
      * exists mf. split; [done|]. rewrite G5. destruct (serial_exists s); by eexists.
Qed.

(** C28. Typing of the console: under every sequence of cons_putc and cons_getc
    calls no table, buffer or screen access leaves its array and no loop runs
    on; every result is a byte, the positions of the ring buffer and of the
    screen stay in range, the buffer holds bytes other than 0 and the shift
    word stays a set of the seven modifiers. *)
Theorem console_well_typed `{!Devices in_port out_port vread vwrite view} fuel os s :
  console_ok fuel s → ∃ rs s', run_cons_ops fuel os s = Ret (rs, s') ∧ console_ok fuel s' ∧
    length rs = length os ∧ Forall (λ r, 0 ≤ r < 256) rs.
Proof.
  revert s. induction os as [|o os IH]; intros s Hs; cbn [run_cons_ops].
  - exists [], s. by split_and!.
  - destruct (run_cons_op_ok fuel o s Hs) as (r & s1 & E & Hr & Hs1). rewrite (bind_Ret _ _ _ _ _ E).
    destruct (IH s1 Hs1) as (rs & s2 & E2 & Hs2 & Hl & Hrs). rewrite (bind_Ret _ _ _ _ _ E2).
    exists (r :: rs), s2. split_and!; [done|done|simpl; by rewrite Hl|]. by constructor.
Qed.
(** cons_init brings the console up from power-on: whichever display the
    probe of the video memory finds and whether or not the serial port answers,
    the console is then well typed, shows what the display showed, at its cursor
    (and the message about the missing port), has taken the keys that waited,
    and has unmasked the interrupts of the keyboard and of the port it found. *)
Theorem cons_init_correct `{!Devices in_port out_port vread vwrite view} fuel s base l p m mf ks :
  dev_ok (vwd s) → display (vwd s) base l p → ring_ok s → shift s = bits m → key_chars m (kbd_in (vwd s)) = Some (mf, ks) →
  (length ks < fuel)%nat → (length no_serial < fuel)%nat → (length (ser_in (vwd s)) < fuel)%nat →
  ∃ s', cons_init in_port out_port vread vwrite fuel s = Ret ((), s') ∧ console_ok fuel s' ∧
    shown s' (if serial_exists s' then MkTerm l p else foldl (λ t c, term_putc c t) (MkTerm l p) no_serial) ∧
    pending s' = foldl push (pending s) (filter (λ c, c ≠ 0) ks) ∧ shift s' = bits mf ∧
    (∀ i, 0 ≤ i < 16 → Z.testbit (irq_mask s') i =
       (Z.testbit (irq_mask s) i && bool_decide (i ≠ IRQ_KBD) && negb (serial_exists s' && bool_decide (i = IRQ_COM1)))%bool).
Proof.
  intros H1 H2 H3 H4 H5 H6 H7 H8.
  destruct (cons_init_ok fuel s base l p m mf ks H1 H2 H3 H4 H5 H6 H7) as (s' & b & E & I1 & I2 & I3 & I4 & I5 & I6 & I7 & I8 & I9 & I10 & I11 & I12).
  exists s'. rewrite I10. split_and!; [done| |by destruct b|done|done|].
  - split; try done.
    + by eexists.
    + rewrite I6. simpl. lia.
    + rewrite I7. destruct (ser_in (vwd s)); simpl in *; lia.
    + exists mf. rewrite I6. split; [done|]. by eexists.
  - intros i Hi. rewrite I12. apply umask_bits. lia.
Qed.
End Thms.

(** ** A machine: an empty CGA screen, a keyboard on which Hi, backspace, o and
    Enter are typed, a serial port with one character *)
Definition ex_base : Z := CGA_BUF + KERNBASE.
Definition ex_vram : gmap Z Z := list_to_map ((λ i, (ex_base + 2 * Z.of_nat i, blank)) <$> seq 0 (Z.to_nat CRT_SIZE)).
Definition ex_keys : list Z := [0x2A; 0x23; 0xA3; 0xAA; 0x17; 0x97; 0x0E; 0x8E; 0x18; 0x98; 0x1C; 0x9C].
Definition ex_dev : devview := MkDev ex_keys [65] [] false [] 0 CGA_BASE 0 0 0 ex_vram.
Definition ex_console : console devview :=
  MkConsole devview ex_base 0 CGA_BASE true (replicate (Z.to_nat CONSBUFSIZE) 0) 0 0 0 0xFFFB false 0 (replicate (Z.to_nat BUFSIZE) 0) 0x200 ex_dev.
Definition no_mods : mods := Mods false false false false false false false.
Definition ex_term : term := MkTerm (replicate (Z.to_nat CRT_SIZE) blank) 0.

Lemma ex_vram_lookup i : (i < Z.to_nat CRT_SIZE)%nat → ex_vram !! (ex_base + 2 * Z.of_nat i) = Some blank.
Proof.
  intros Hi. apply elem_of_list_to_map.
  - rewrite <-list_fmap_compose. apply NoDup_fmap_2_strong; [|apply NoDup_seq]. intros x y _ _ E. simpl in E. lia.
  - apply list_elem_of_fmap. exists i. split; [done|]. apply elem_of_seq. lia.
Qed.
Lemma ex_shows : shows (view := id) ex_console ex_term.
Proof.
  split; [split| |unfold CRT_SIZE, CRT_ROWS, CRT_COLS; simpl; lia|done].
  - apply length_replicate.
  - apply Forall_replicate. unfold blank. lia.
  - intros i Hi. change (vram (vw (view := id) ex_console)) with ex_vram. rewrite ex_vram_lookup by done.
    symmetry. by apply lookup_replicate_2.
  - done.
Qed.
Lemma ex_dev_ok : dev_ok (vw (view := id) ex_console).
Proof. split; [repeat constructor; lia|repeat constructor; lia|simpl; lia|simpl; lia|by right]. Qed.
Lemma ex_ring : ring_ok ex_console ∧ pending ex_console = [].
Proof. split; [split|]; [done|done|done|constructor|done]. Qed.
Definition ex_chars : list Z := [0; 72; 0; 0; 105; 0; 8; 0; 111; 0; 10; 0].
Lemma ex_decoded : key_chars no_mods ex_keys = Some (no_mods, ex_chars).
Proof. vm_compute. reflexivity. Qed.

Abbreviation ex_cprintf := (cprintf ready_in ready_out ready_read ready_write).
Lemma cprintf_correct_witness : ∃ s', ex_cprintf 200 (codes "a%db" ++ [10; 120]) [A32 (-7)] ex_console = Ret (6, s') ∧
  ser_out (io s') = [97; 45; 55; 98; 10; 120] ∧ crt_pos s' = 81.
Proof.
  destruct (cprintf_correct ready_in ready_out ready_read ready_write id 200 (codes "a%db" ++ [10; 120]) [A32 (-7)] [97; 45; 55; 98; 10; 120]
    ex_console ex_term ex_shows ex_dev_ok eq_refl) as (s' & E & Hs & _ & Ho & _).
  - vm_compute. reflexivity.
  - exists s'. split; [exact E|]. split; [exact Ho|]. rewrite (sw_pos _ _ Hs). vm_compute. reflexivity.
Defined.

Lemma cons_getc_correct_witness : ∃ s', cons_getc ready_in ready_out ready_read ready_write 20 ex_console = Ret (65, s') ∧
  pending s' = [72; 105; 8; 111; 10].
Proof.
  destruct (cons_getc_correct ready_in ready_out ready_read ready_write id 20 ex_console no_mods no_mods ex_chars (proj1 ex_ring) ex_dev_ok
    eq_refl eq_refl ex_decoded) as (s' & E & _ & Hp & _); [simpl; lia|simpl; lia|].
  exists s'. split; [exact E|exact Hp].
Defined.

Lemma ex_reading : reading (view := id) 20 ex_console ex_term [65; 72; 105; 8; 111; 10].
Proof.
  split; try (simpl; lia); [apply ex_ring|apply ex_shows|apply ex_dev_ok|].
  exists no_mods, no_mods, ex_chars. split; [done|]. split; [apply ex_decoded|]. rewrite (proj2 ex_ring). vm_compute. reflexivity.
Qed.
(** The same input with 1022 characters in the buffer: one more fits. *)
Definition ex_line : list Z := replicate 1022 97.
Lemma ex_reading_line : reading (view := id) 20 (set_linebuf (ex_line ++ [0; 0]) ex_console) ex_term [65; 72; 105; 8; 111; 10].
Proof. apply reading_linebuf, ex_reading. Qed.
Lemma readline_correct_witness :
  (∃ s' rest, readline ready_in ready_out ready_read ready_write 20 None ex_console = Ret (Some (), s') ∧
     linebuf s' = [65; 72; 111; 0] ++ rest ∧ ser_out (io s') = [65; 72; 105; 8; 32; 8; 111; 10]) ∧
  (∃ s', readline_loop ready_in ready_out ready_read ready_write 20 20 1022 (set_linebuf (ex_line ++ [0; 0]) ex_console) =
     Ret (Some (), s') ∧ buffered s' ((ex_line ++ [111]) ++ [0]) ∧ ser_out (io s') = [65; 8; 32; 8; 111; 10]).
Proof.
  split.
  - destruct (readline_correct ready_in ready_out ready_read ready_write id 20 ex_console ex_term [65; 72; 105; 8; 111; 10] ex_reading) as [H _].
    destruct (H None [] [65; 72; 111] [65; 72; 105; 8; 111; 10] []) as (s' & E & [rest Hb] & _ & Ho).
    + apply length_replicate.
    + simpl. lia.
    + reflexivity.
    + vm_compute. reflexivity.
    + exists s', rest. split; [exact E|]. split; [exact Hb|]. exact Ho.
  - destruct (readline_correct ready_in ready_out ready_read ready_write id 20 (set_linebuf (ex_line ++ [0; 0]) ex_console) ex_term
      [65; 72; 105; 8; 111; 10] ex_reading_line) as [_ H].
    destruct (H 20%nat ex_line (ex_line ++ [111]) [65; 8; 111; 10] (Some [])) as (s' & _ & Ho & _ & E & Hb).
    + split; [reflexivity|by exists [0; 0]].
    + vm_compute. discriminate.
    + simpl. lia.
    + vm_compute. reflexivity.
    + exists s'. split; [exact E|]. split; [exact Hb|]. exact Ho.
Defined.

Lemma console_well_typed_witness : ∃ rs s', run_cons_ops ready_in ready_out ready_read ready_write 20 [OpPutc 10; OpGetc; OpGetc; OpPutc 8] ex_console = Ret (rs, s') ∧
  length rs = 4%nat ∧ 0 ≤ rpos s' < CONSBUFSIZE.
Proof.
  destruct (console_well_typed ready_in ready_out ready_read ready_write id 20 [OpPutc 10; OpGetc; OpGetc; OpPutc 8] ex_console)
    as (rs & s' & E & Hs' & Hl & _).
  - split; [apply ex_ring|exists ex_term; apply ex_shows|apply ex_dev_ok|done|simpl; lia|simpl; lia|].
    exists no_mods. split; [done|]. exists (no_mods, ex_chars). apply ex_decoded.
  - exists rs, s'. split; [exact E|]. split; [exact Hl|]. apply (rg_r _ (ck_ring _ _ _ Hs')).
Defined.

Lemma ex_display : display (vw (view := id) ex_console) ex_base (replicate (Z.to_nat CRT_SIZE) blank) 0.
Proof. split; [by left|apply (sw_term _ _ ex_shows)|reflexivity|unfold CRT_SIZE, CRT_ROWS, CRT_COLS; lia]. Qed.
Lemma cons_init_correct_witness : ∃ s', cons_init ready_in ready_out ready_read ready_write 40 ex_console = Ret ((), s') ∧
  pending s' = [72; 105; 8; 111; 10] ∧ Z.testbit (irq_mask s') IRQ_KBD = false ∧ Z.testbit (irq_mask s') IRQ_TIMER = true.
Proof.
  destruct (cons_init_correct ready_in ready_out ready_read ready_write id 40 ex_console _ _ _ no_mods no_mods ex_chars ex_dev_ok ex_display (proj1 ex_ring)
    eq_refl ex_decoded) as (s' & E & _ & _ & Hp & _ & Hm); [simpl; lia|apply Nat.leb_le; reflexivity|simpl; lia|].
  exists s'. split; [exact E|]. split; [exact Hp|]. split.
  - rewrite Hm by (unfold IRQ_KBD; lia). reflexivity.
  - rewrite Hm by (unfold IRQ_TIMER; lia). destruct (serial_exists s'); reflexivity.
Defined.

(** The 512th waiting character empties the buffer. *)
Lemma ring_overflow_loses_all c : foldl push (replicate 511 65) [c] = [].
Proof. reflexivity. Qed.
(** The map for Ctrl has no Home key where the others have it. *)
Lemma ctlmap_home_misplaced : normalmap !! 0xC7%nat = Some KEY_HOME ∧ shiftmap !! 0xC7%nat = Some KEY_HOME ∧ ctlmap !! 0xC7%nat = Some 0.
Proof. vm_compute. done. Qed.
