(* ===== verification/Formats.v ===== *)
(** * What a format prints, piece by piece

    A format is a sequence of literal texts and escapes; the output of vprintfmt
    is the concatenation of their texts ([pieces_output]).  One lemma per escape
    that the kernel's messages use. *)
From stdpp Require Import base gmap list fin_maps strings.
From Stdlib Require Import ZArith Lia.
From S2P Require Import Prelude Bits CString Printfmt.

Definition fs0 : fspec := FSpec chr_space (-1) (-1) 0 false.
(** An escape [e] (without the percent sign) with its arguments prints [l]. *)
Definition esc_prints (e : list Z) (a : list arg) (l : list Z) : Prop :=
  ∀ f fmt i r ap acc, (80 ≤ f)%nat → drop i fmt = e ++ r →
    reswitch lputch (λ fm args, vprintfmt lputch f fm 0 args) f fmt i (a ++ ap) fs0 acc = Ret ((i + length e, ap)%nat, acc ++ l).

Inductive piece : Type := Lit (l : list Z) | Esc (e : list Z) (a : list arg) (l : list Z).
Definition piece_fmt (p : piece) : list Z := match p with Lit l => l | Esc e _ _ => chr_percent :: e end.
Definition piece_args (p : piece) : list arg := match p with Lit _ => [] | Esc _ a _ => a end.
Definition piece_text (p : piece) : list Z := match p with Lit l => l | Esc _ _ l => l end.
Definition literal (l : list Z) : Prop := Forall (λ c, c ≠ chr_percent ∧ c ≠ 0) l.
Definition piece_ok (p : piece) : Prop := match p with Lit l => literal l | Esc e a l => esc_prints e a l end.

Lemma fmt_at_cons {S} fmt i c r (s : S) : drop i fmt = c :: r → fmt_at fmt i s = Ret (c, s).
Proof.
  intros Hd. assert (Hc : fmt !! i = Some c) by (rewrite <-(Nat.add_0_r i), <-lookup_drop, Hd; done).
  unfold fmt_at. rewrite bool_decide_false, Hc; [done|]. intros ->. by rewrite lookup_ge_None_2 in Hc.
Qed.
Lemma drop_more {A} i (fmt e r : list A) : drop i fmt = e ++ r → drop (i + length e) fmt = r.
Proof. intros E. by rewrite <-drop_drop, E, drop_app_length. Qed.
Lemma drop_one {A} i (fmt : list A) c r : drop i fmt = c :: r → drop (S i) fmt = r.
Proof. intros E. rewrite <-Nat.add_1_r. by apply (drop_more i fmt [c] r). Qed.

Lemma vprintfmt_literal l f fmt i r ap acc : literal l → drop i fmt = l ++ r →
  vprintfmt lputch (length l + f) fmt i ap acc = vprintfmt lputch f fmt (i + length l) ap (acc ++ l).
Proof.
  intros Hl. revert i acc. induction l as [|c l IH]; intros i acc Hd; simpl length.
  - by rewrite Nat.add_0_r, app_nil_r.
  - apply Forall_cons in Hl as [[C1 C2] Hl]. cbn [Nat.add vprintfmt]. erewrite bind_Ret by (by eapply fmt_at_cons).
    rewrite (bool_decide_true (c ≠ chr_percent)), (bool_decide_false (c = 0)) by done. erewrite bind_Ret by done.
    rewrite IH; [|done|by eapply drop_one]. by rewrite <-app_assoc, Nat.add_succ_r.
Qed.

(** The text of a sequence of pieces. *)
Lemma pieces_run ps fuel acc : Forall piece_ok ps → (length (ps ≫= piece_fmt) + 82 ≤ fuel)%nat →
  vprintfmt lputch fuel (ps ≫= piece_fmt) 0 (ps ≫= piece_args) acc = Ret ((), acc ++ (ps ≫= piece_text)).
Proof.
  intros Hps Hf. remember (ps ≫= piece_fmt) as fmt eqn:Efmt.
  assert (H : ∀ ps f i acc, Forall piece_ok ps → drop i fmt = ps ≫= piece_fmt → (i ≤ length fmt)%nat → (length (ps ≫= piece_fmt) + 82 ≤ f)%nat →
    vprintfmt lputch f fmt i (ps ≫= piece_args) acc = Ret ((), acc ++ (ps ≫= piece_text))).
  { clear. intros ps. induction ps as [|p ps IH]; intros f i acc Hps Hd Hi Hf.
    - assert (i = length fmt) as ->.
      { apply (f_equal length) in Hd. rewrite length_drop in Hd. simpl in Hd. lia. }
      destruct f as [|f]; [simpl in Hf; lia|]. cbn [vprintfmt]. unfold fmt_at. rewrite (bool_decide_true (_ = length _)), bind_mret by done.
      rewrite bool_decide_true by done. simpl. by rewrite app_nil_r.
    - apply Forall_cons in Hps as [Hp Hps]. rewrite !bind_cons in *. rewrite length_app in Hf. destruct p as [l|e a l]; simpl in *.
      + replace f with (length l + (f - length l))%nat by lia. rewrite (vprintfmt_literal l _ fmt i (ps ≫= piece_fmt)) by done.
        pose proof (drop_more _ _ _ _ Hd) as Hd'. etrans; [apply IH; [done|exact Hd'| |lia]|by rewrite <-app_assoc].
        apply (f_equal length) in Hd. rewrite length_drop, length_app in Hd. lia.
      + destruct f as [|f]; [lia|]. cbn [vprintfmt]. erewrite bind_Ret by (by eapply fmt_at_cons). rewrite bool_decide_false by (by intros C; apply C).
        pose proof (drop_one _ _ _ _ Hd) as Hd1. erewrite bind_Ret by (by eapply Hp; [lia|]).
        pose proof (drop_more _ _ _ _ Hd1) as Hd'. etrans; [apply IH; [done|exact Hd'| |lia]|by rewrite <-app_assoc].
        apply (f_equal length) in Hd. rewrite length_drop in Hd. simpl in Hd. rewrite length_app in Hd. lia. }
  apply (H ps fuel 0%nat acc); [done|done|lia|by rewrite <-Efmt].
Qed.

Lemma pieces_output ps fuel fmt ap l : Forall piece_ok ps → fmt = ps ≫= piece_fmt → ap = ps ≫= piece_args → l = ps ≫= piece_text →
  (length fmt + 82 ≤ fuel)%nat → output fuel fmt ap = Ret ((), l).
Proof. intros Hps -> -> -> Hf. by apply (pieces_run ps fuel []). Qed.

(** ** The escapes *)
(** One step of the switch, and the choice of a case. *)
Ltac fstep Hd := erewrite bind_Ret by (eapply fmt_at_cons; exact Hd); apply drop_one in Hd.
Ltac fcase := repeat (rewrite bool_decide_false by lia); rewrite bool_decide_true by lia.

Lemma printnum_mono {S} (putch : Z → M S unit) f f' num base w pc s r :
  (f ≤ f')%nat → printnum putch f num base w pc s = Ret r → printnum putch f' num base w pc s = Ret r.
Proof.
  revert f' num w s r. induction f as [|f IH]; intros f' num w s r Hf E; [done|]. destruct f' as [|f']; [lia|].
  cbn [printnum] in *. destruct (arch_do_div num base) as [[md q]|]; [|done]. destruct r as [x s2].
  apply bind_inv in E as ([] & s1 & E1 & E2). erewrite bind_Ret; [exact E2|]. destruct (bool_decide (num >= base)); [|exact E1]. apply (IH f'); [lia|exact E1].
Qed.
(** The digits of a number of 64 bits, padded on the left. *)
Definition numeral (base w pc n : Z) : list Z :=
  let ds := digits 64 base n in replicate (Z.to_nat (w - Z.of_nat (length ds))) pc ++ (digit_char <$> ds).
Lemma printnum_numeral f n base w pc l : (64 ≤ f)%nat → 2 ≤ base ≤ 16 → 0 ≤ n < 2 ^ 64 → -1 ≤ w < 2 ^ 31 →
  printnum lputch f n base w pc l = Ret ((), l ++ numeral base w pc n).
Proof.
  intros Hf Hb Hn Hw. apply (printnum_mono _ 64); [done|]. apply (printnum_list 63); lia.
Qed.
Definition hex (w n : Z) : list Z := numeral 16 w 48 (u32 n).

Lemma esc_hex w z : 1 ≤ w ≤ 9 → esc_prints [48; 48 + w; 120] [A32 z] (hex w z).
Proof.
  intros Hw f fmt i r ap acc Hf Hd. destruct f as [|f]; [lia|]. simpl in Hd. cbn [reswitch]. fstep Hd. fcase.
  destruct f as [|f]; [lia|]. cbn [reswitch]. fstep Hd. fcase.
  destruct f as [|f]; [lia|]. cbn [scan_width]. rewrite bind_assoc. erewrite bind_Ret by (eapply fmt_at_cons; exact Hd).
  change (s8 120) with 120. rewrite (bool_decide_true (120 < 48 ∨ _)) by lia. rewrite bind_mret.
  cbn [padc width precision lflag altflag fs0]. rewrite bool_decide_true by lia. cbn [reswitch]. fstep Hd. fcase.
  erewrite bind_Ret by reflexivity. cbn [padc width]. rewrite s32_small by (unfold chr_0; lia).
  pose proof (u32_range z) as Hz. unfold is_u32 in Hz. erewrite bind_Ret by (apply printnum_numeral; unfold chr_0; lia).
  replace (0 * 10 + (48 + w) - chr_0) with w by (unfold chr_0; lia). unfold mret, M_ret. do 3 f_equal. simpl. lia.
Qed.
Lemma esc_pointer z : esc_prints [112] [A32 z] (48 :: 120 :: numeral 16 (-1) chr_space (u32 z)).
Proof.
  intros f fmt i r ap acc Hf Hd. destruct f as [|f]; [lia|]. simpl in Hd. cbn [reswitch]. fstep Hd. fcase.
  do 3 (erewrite bind_Ret by reflexivity; cbv beta iota). pose proof (u32_range z) as Hz. unfold is_u32 in Hz. cbn [padc width fs0].
  erewrite bind_Ret by (apply printnum_numeral; lia). unfold mret, M_ret. rewrite <-!app_assoc. do 3 f_equal. simpl. lia.
Qed.
Lemma esc_char z : - 2 ^ 31 ≤ z < 2 ^ 31 → esc_prints [99] [A32 z] [z].
Proof.
  intros Hz f fmt i r ap acc Hf Hd. destruct f as [|f]; [lia|]. simpl in Hd. cbn [reswitch]. fstep Hd. fcase.
  do 2 (erewrite bind_Ret by reflexivity; cbv beta iota). unfold mret, M_ret. rewrite s32_small by lia. do 3 f_equal. simpl. lia.
Qed.
(** %d with a minimal width and zeros, as far as the messages use it. *)
Definition signed (w pc n : Z) : list Z := (if bool_decide (n < 0) then [45] else []) ++ numeral 10 w pc (Z.abs n).
Lemma print_signed f num w pc acc i ap : (64 ≤ f)%nat → -1 ≤ w < 2 ^ 31 → - 2 ^ 31 ≤ num < 2 ^ 31 →
  (n ← (if bool_decide (num < 0) then lputch 45;; mret (u64 (- num)) else mret (u64 num));
   printnum lputch f n 10 w pc;; mret (i, ap)) acc = Ret ((i : nat, ap : list arg), acc ++ signed w pc num).
Proof.
  intros Hf Hw Hn. unfold signed, u64. case_bool_decide.
  - rewrite Z.mod_small by lia. erewrite bind_Ret by reflexivity. cbv beta. erewrite bind_Ret by (apply printnum_numeral; lia).
    rewrite Z.abs_neq by lia. by rewrite <-app_assoc.
  - rewrite Z.mod_small by lia. rewrite bind_mret. erewrite bind_Ret by (apply printnum_numeral; lia). by rewrite Z.abs_eq by lia.
Qed.
Lemma esc_dec n : - 2 ^ 31 ≤ n < 2 ^ 31 → esc_prints [100] [A32 n] (signed (-1) chr_space n).
Proof.
  intros Hn f fmt i r ap acc Hf Hd. destruct f as [|f]; [lia|]. simpl in Hd. cbn [reswitch]. fstep Hd. fcase.
  erewrite bind_Ret by reflexivity. cbv beta iota. cbn [padc width fs0]. rewrite s32_small by lia.
  rewrite print_signed by lia. do 3 f_equal. simpl. lia.
Qed.
Lemma esc_dec0 w n : 1 ≤ w ≤ 9 → - 2 ^ 31 ≤ n < 2 ^ 31 → esc_prints [48; 48 + w; 100] [A32 n] (signed w 48 n).
Proof.
  intros Hw Hn f fmt i r ap acc Hf Hd. destruct f as [|f]; [lia|]. simpl in Hd. cbn [reswitch]. fstep Hd. fcase.
  destruct f as [|f]; [lia|]. cbn [reswitch]. fstep Hd. fcase.
  destruct f as [|f]; [lia|]. cbn [scan_width]. rewrite bind_assoc. erewrite bind_Ret by (eapply fmt_at_cons; exact Hd).
  change (s8 100) with 100. rewrite (bool_decide_true (100 < 48 ∨ _)) by lia. rewrite bind_mret.
  cbn [padc width precision lflag altflag fs0]. rewrite bool_decide_true by lia. cbn [reswitch]. fstep Hd. fcase.
  erewrite bind_Ret by reflexivity. cbv beta iota. cbn [padc width]. rewrite !s32_small by (unfold chr_0; lia).
  rewrite print_signed by (unfold chr_0; lia). replace (0 * 10 + (48 + w) - chr_0) with w by (unfold chr_0; lia). do 3 f_equal. simpl. lia.
Qed.

Lemma print_chars_plain p w acc :
  print_chars lputch p false (-1) w acc = Ret (w - Z.of_nat (length p), acc ++ (s8 <$> p)).
Proof.
  revert w acc. induction p as [|c p IH]; intros w acc; cbn [print_chars].
  - rewrite app_nil_r. unfold mret, M_ret. do 2 f_equal. simpl. lia.
  - rewrite (bool_decide_true (-1 < 0 ∨ _)) by lia. simpl andb. erewrite bind_Ret by reflexivity. rewrite (bool_decide_true (-1 < 0)) by lia.
    rewrite IH. rewrite <-app_assoc. simpl. do 2 f_equal. lia.
Qed.
Lemma reswitch_string pf s f fmt i r ap acc : drop i fmt = [115] ++ r →
  reswitch lputch pf (S f) fmt i (AStr (Some s) :: ap) fs0 acc = Ret (((i + 1)%nat, ap), acc ++ (s8 <$> s)).
Proof.
  intros Hd. simpl in Hd. cbn [reswitch]. fstep Hd. fcase.
  erewrite bind_Ret by reflexivity. cbv beta iota. unfold print_string. cbn [padc width precision altflag fs0 default].
  rewrite (bool_decide_false (-1 > 0 ∧ _)) by lia. rewrite bind_assoc, bind_mret, bind_assoc.
  erewrite bind_Ret by apply print_chars_plain. cbv beta. rewrite Z2Nat.nonpos by lia. erewrite bind_Ret by reflexivity.
  unfold mret, M_ret. do 3 f_equal. simpl. lia.
Qed.
Lemma esc_string s : esc_prints [115] [AStr (Some s)] (s8 <$> s).
Proof. intros f fmt i r ap acc Hf Hd. destruct f as [|f]; [lia|]. by apply (reswitch_string _ s f fmt i r). Qed.
Lemma vprintfmt_string f s acc : vprintfmt lputch (S (S f)) [37; 115] 0 [AStr (Some s)] acc = Ret ((), acc ++ (s8 <$> s)).
Proof.
  remember (S f) as f1 eqn:Ef. cbn [vprintfmt]. erewrite bind_Ret by reflexivity. rewrite bool_decide_false by (intros C; by apply C). subst f1.
  erewrite bind_Ret by (by apply (reswitch_string _ s f _ 1 [])). cbv beta iota. cbn [vprintfmt]. erewrite bind_Ret by reflexivity.
  rewrite bool_decide_true by done. by rewrite bool_decide_true.
Qed.
(** %e of an error code the table knows. *)
Lemma esc_error err s : error_string (Z.abs err) = Some (Some s) → esc_prints [101] [A32 err] (s8 <$> s).
Proof.
  intros Hs. assert (He : - MAXERROR ≤ err ≤ MAXERROR).
  { unfold error_string, E_UNSPECIFIED, E_BAD_PROC, E_INVAL, E_NO_MEM, E_NO_FREE_PROC, E_FAULT in Hs. unfold MAXERROR. repeat (case_bool_decide; [lia|]). done. }
  unfold MAXERROR in He. intros f fmt i r ap acc Hf Hd. destruct f as [|f]; [lia|]. simpl in Hd. cbn [reswitch]. fstep Hd. fcase.
  erewrite bind_Ret by reflexivity. cbv beta iota. rewrite s32_small by lia.
  replace (if bool_decide (err < 0) then s32 (- err) else err) with (Z.abs err) by (case_bool_decide; rewrite ?s32_small; lia).
  rewrite bool_decide_false by (unfold MAXERROR; lia). rewrite Hs, bind_mret.
  destruct f as [|f]; [lia|]. erewrite bind_Ret by apply vprintfmt_string. unfold mret, M_ret. do 3 f_equal. simpl. lia.
Qed.
