(* ===== verification/Trap.v ===== *)
(** * arch/x86/generic/intr.c: the descriptor table and traps; kern/debug/panic.c

    A trap brings the components together: the handlers print on the console,
    read it, ask for a rescheduling of the current process, call the page fault
    handler and the scheduler.  The state is that of the console, that of the
    processes with the address spaces over one allocator, and the variables of
    intr.c and panic.c.  The interrupt flag is the one of the processes; the
    console sees it in its flags register. *)
From stdpp Require Import base gmap list fin_maps strings.
From Stdlib Require Import ZArith Lia.
From S2P Require Import Prelude DList Bits CString Printfmt Mmu Console Proc Pmm Shmem Vmm.

Definition T_PGFLT : Z := 14.
Definition TICK_NUM : Z := 30.
Definition FL_IOPL_MASK : Z := 0x3000.

(** A string literal with its end of line. *)
Definition line (s : string) : list Z := codes s ++ [10].

Definition excnames : list string :=
  ["Divide error"; "Debug"; "Non-Maskable Interrupt"; "Breakpoint"; "Overflow"; "BOUND Range Exceeded";
   "Invalid Opcode"; "Device Not Available"; "Double Fault"; "Coprocessor Segment Overrun"; "Invalid TSS";
   "Segment Not Present"; "Stack Fault"; "General Protection"; "Page Fault"; "(unknown trap)";
   "x87 FPU Floating-Point Error"; "Alignment Check"; "Machine-Check"; "SIMD Floating-Point Exception"]%string.
(** [trapno] is an int; the first comparison is one of unsigned numbers. *)
Definition trapname (trapno : Z) : list Z :=
  match (if bool_decide (u32 trapno < 20) then excnames !! Z.to_nat (u32 trapno) else None) with
  | Some n => codes n
  | None => if bool_decide (trapno >= IRQ_OFFSET ∧ trapno < IRQ_OFFSET + 16) then codes "Hardware Interrupt"
            else codes "(unknown trap)"
  end.
Definition IA32flags : list (option string) :=
  [Some "CF"; None; Some "PF"; None; Some "AF"; None; Some "ZF"; Some "SF";
   Some "TF"; Some "IF"; Some "DF"; Some "OF"; None; None; Some "NT"; None;
   Some "RF"; Some "VM"; Some "AC"; Some "VIF"; Some "VIP"; Some "ID"; None; None]%string.

(** trap_in_kernel *)
Definition trap_in_kernel (tf : trapframe) : bool := bool_decide (tf_cs tf = u16 KERNEL_CS).

Record traps {D A : Type} : Type := MkTraps {
  tcons : console D;
  tkern : kernel (vmms A);
  check_mm_struct : Z;
  cr2 : Z;
  is_panic : bool;
  idt : list gatedesc;
  idtr : option (Z * list gatedesc) }.    (* what lidt loaded: the limit and the table *)
Arguments traps : clear implicits.

Section Model.
Context {D A : Type}.
Context (in_port : Z → M D Z) (out_port : Z → Z → M D unit) (vread : Z → M D Z) (vwrite : Z → Z → M D unit).
Context (alloc_pages : Z → M A (option Z)) (free_pages : Z → Z → M A unit) (npage : Z).
Context (get_ref : Z → M A Z) (set_ref : Z → Z → M A unit).
Context (kmalloc : Z → M A Z) (kfree : Z → M A unit).
Context (file : list Z) (fuel : nat).
Abbreviation T := (traps D A).
Abbreviation K := (kernel (vmms A)).

(** The interrupt flag in a flags register. *)
Definition with_if (b : bool) (x : Z) : Z := if b then Z.lor x X86_EFLAGS_IF else Z.ldiff x X86_EFLAGS_IF.
Definition set_iflag (b : bool) (k : K) : K :=
  set_processor (MkCpu (regs (processor k)) (esp0 (processor k)) (cr3 (processor k)) b) k.
Definition set_tkern (k : K) (s : T) : T :=
  MkTraps D A (tcons s) k (check_mm_struct s) (cr2 s) (is_panic s) (idt s) (idtr s).
Definition kern_lens : lens T K := Lens tkern set_tkern.
Definition cons_view (s : T) : console D :=
  set_eflags (with_if (iflag (processor (tkern s))) (eflags (tcons s))) (tcons s).
Definition cons_over (c : console D) (s : T) : T :=
  MkTraps D A c (set_iflag (Z.testbit (eflags c) 9) (tkern s)) (check_mm_struct s) (cr2 s) (is_panic s) (idt s) (idtr s).
Definition cons_lens : lens T (console D) := Lens cons_view cons_over.
Definition set_is_panic (s : T) : T :=
  MkTraps D A (tcons s) (tkern s) (check_mm_struct s) (cr2 s) true (idt s) (idtr s).
Definition set_idt (i : list gatedesc) (s : T) : T :=
  MkTraps D A (tcons s) (tkern s) (check_mm_struct s) (cr2 s) (is_panic s) i (idtr s).
(** lidt: the processor uses the table. *)
Definition lidt (limit : Z) (s : T) : T :=
  MkTraps D A (tcons s) (tkern s) (check_mm_struct s) (cr2 s) (is_panic s) (idt s) (Some (limit, idt s)).

Definition on_cons {B} (m : M (console D) B) : M T B := zoom cons_lens m.
Definition on_kern {B} (m : M K B) : M T B := zoom kern_lens m.
Definition t_cprintf (fmt : list Z) (ap : list arg) : M T unit :=
  on_cons (cprintf in_port out_port vread vwrite fuel fmt ap);; skip.
Definition t_vcprintf (fmt : list Z) (ap : list arg) : M T unit :=
  on_cons (vcprintf in_port out_port vread vwrite fuel fmt ap);; skip.
Definition get_tf (p : Z) : M T trapframe := λ s,
  match tframes (tkern s) !! p with Some f => Ret (f, s) | None => Fault end.

(** ** panic.c *)
(** What __panic prints before it stops for ever, which is the outcome [Panic]. *)
Definition panic_report (line_no : Z) (fmt : list Z) (ap : list arg) : M T unit :=
  p ← gets is_panic;
  if (p : bool) then skip
  else
    modify set_is_panic;;
    t_cprintf (codes "kernel panic at %s:%d:" ++ 10 :: codes "    ") [AStr (Some file); A32 line_no];;
    t_vcprintf fmt ap;;
    t_cprintf [10] [].
Definition __panic {B} (line_no : Z) (fmt : list Z) (ap : list arg) : M T B := panic_report line_no fmt ap;; panic.
Definition __warn (line_no : Z) (fmt : list Z) (ap : list arg) : M T unit :=
  t_cprintf (codes "kernel warning at %s:%d:" ++ 10 :: codes "    ") [AStr (Some file); A32 line_no];;
  t_vcprintf fmt ap;;
  t_cprintf [10] [].
Definition is_kernel_panic : M T bool := gets is_panic.

(** ** The descriptor table *)
Fixpoint idt_loop (vectors : list Z) (n : nat) (i : nat) : M T unit :=
  match n with
  | O => skip
  | S n =>
    match vectors !! i with
    | Some v =>
      t ← gets idt;
      (if bool_decide (i < length t)%nat then modify (set_idt (<[i := SETGATE false GD_KTEXT v DPL_KERNEL]> t)) else fault);;
      idt_loop vectors n (S i)
    | None => fault
    end
  end.
Definition idt_init (vectors : list Z) : M T unit :=
  idt_loop vectors 256 0;; modify (lidt (8 * 256 - 1)).
Definition intr_init (vectors : list Z) : M T unit := on_cons (pic_init out_port);; idt_init vectors.

(** ** Printing a trap frame *)
Definition print_regs (r : pushregs) : M T unit :=
  t_cprintf (line "  edi  0x%08x") [A32 (reg_edi r)];;
  t_cprintf (line "  esi  0x%08x") [A32 (reg_esi r)];;
  t_cprintf (line "  ebp  0x%08x") [A32 (reg_ebp r)];;
  t_cprintf (line "  oesp 0x%08x") [A32 (reg_oesp r)];;
  t_cprintf (line "  ebx  0x%08x") [A32 (reg_ebx r)];;
  t_cprintf (line "  edx  0x%08x") [A32 (reg_edx r)];;
  t_cprintf (line "  ecx  0x%08x") [A32 (reg_ecx r)];;
  t_cprintf (line "  eax  0x%08x") [A32 (reg_eax r)].
Fixpoint print_flags (names : list (option string)) (flags j : Z) : M T unit :=
  match names with
  | [] => skip
  | n :: names =>
    (match n with
     | Some n => if bool_decide (Z.land flags j ≠ 0) then t_cprintf (codes "%s,") [AStr (Some (codes n))] else skip
     | None => skip
     end);;
    print_flags names flags (Z.shiftl j 1)
  end.
Definition print_trapframe (p : Z) : M T unit :=
  tf ← get_tf p;
  t_cprintf (line "trapframe at %p") [A32 p];;
  print_regs (tf_regs tf);;
  t_cprintf (line "  es   0x----%04x") [A32 (tf_es tf)];;
  t_cprintf (line "  ds   0x----%04x") [A32 (tf_ds tf)];;
  t_cprintf (line "  trap 0x%08x %s") [A32 (tf_trapno tf); AStr (Some (trapname (s32 (tf_trapno tf))))];;
  t_cprintf (line "  err  0x%08x") [A32 (tf_err tf)];;
  t_cprintf (line "  eip  0x%08x") [A32 (tf_eip tf)];;
  t_cprintf (line "  cs   0x----%04x") [A32 (tf_cs tf)];;
  t_cprintf (codes "  flag 0x%08x ") [A32 (tf_eflags tf)];;
  print_flags IA32flags (tf_eflags tf) 1;;
  t_cprintf (line "IOPL=%d") [A32 (Z.shiftr (Z.land (tf_eflags tf) FL_IOPL_MASK) 12)];;
  if negb (trap_in_kernel tf) then
    t_cprintf (line "  esp  0x%08x") [A32 (tf_esp tf)];;
    t_cprintf (line "  ss   0x----%04x") [A32 (tf_ss tf)]
  else skip.

(** ** Page faults *)
Definition print_pgfault (tf : trapframe) : M T unit :=
  a ← gets cr2;
  t_cprintf (line "page fault at 0x%08x: %c/%c [%s].")
    [A32 a; A32 (if bool_decide (Z.land (tf_err tf) 4 ≠ 0) then 85 else 75);
     A32 (if bool_decide (Z.land (tf_err tf) 2 ≠ 0) then 87 else 82);
     AStr (Some (if bool_decide (Z.land (tf_err tf) 1 ≠ 0) then codes "protection fault" else codes "no page found"))].
Definition t_do_pgfault (mm err a : Z) : M T Z :=
  on_kern (zoom alloc_lens (do_pgfault alloc_pages free_pages npage get_ref set_ref kmalloc kfree fuel mm err a)).
Definition pgfault_handler (p : Z) : M T Z :=
  tf ← get_tf p;
  print_pgfault tf;;
  m ← gets check_mm_struct;
  if bool_decide (m ≠ 0) then a ← gets cr2; t_do_pgfault m (tf_err tf) a
  else __panic 229 (line "unhandled page fault.") [].

(** ** Dispatch *)
Definition timer_tick : M T unit :=
  on_cons (modify (λ c, set_ticks (ticks c + 1) c));;
  t ← on_cons (gets ticks);
  if bool_decide (t mod TICK_NUM = 0) then
    t_cprintf (line "tick!") [];;
    cur ← on_kern (gets current);
    (if bool_decide (cur = 0) then __panic 253 (codes "assertion failed: %s") [AStr (Some (codes "current != NULL"))] else skip);;
    on_kern (set_proc cur (set_need_resched true))
  else skip.
(** char c = cons_getc(); cprintf(fmt, c, c); *)
Definition echo_input (fmt : list Z) : M T unit :=
  c ← on_cons (cons_getc in_port out_port vread vwrite fuel);
  t_cprintf fmt [A32 (s8 c); A32 (s8 c)].
Definition intr_dispatch (p : Z) : M T unit :=
  tf ← get_tf p;
  if bool_decide (tf_trapno tf = T_PGFLT) then
    ret ← pgfault_handler p;
    if bool_decide (ret ≠ 0) then print_trapframe p;; __panic 246 (line "handle pgfault failed. %e") [A32 ret] else skip
  else if bool_decide (tf_trapno tf = IRQ_OFFSET + IRQ_TIMER) then timer_tick
  else if bool_decide (tf_trapno tf = IRQ_OFFSET + IRQ_COM1) then echo_input (line "serial [%03d] %c")
  else if bool_decide (tf_trapno tf = IRQ_OFFSET + IRQ_KBD) then echo_input (line "kbd [%03d] %c")
  else if bool_decide (Z.land (tf_cs tf) 3 = 0) then print_trapframe p;; __panic 269 (line "unexpected trap in kernel.") []
  else skip.

Definition trap (p : Z) : M T unit :=
  cur ← on_kern (gets current);
  if bool_decide (cur = 0) then intr_dispatch p
  else
    pr ← on_kern (get_proc cur);
    let otf := Proc.tf pr in
    on_kern (set_proc cur (set_tf p));;
    tf ← get_tf p;
    let in_kernel := trap_in_kernel tf in
    intr_dispatch p;;
    cur ← on_kern (gets current);
    on_kern (set_proc cur (set_tf otf));;
    if negb in_kernel then
      pr ← on_kern (get_proc cur);
      if need_resched pr then on_kern (schedule fuel) else skip
    else skip.
End Model.
