(* ===== verification/TrapProps.v ===== *)
(** * Traps: printing, reading, the dispatch *)
From stdpp Require Import base gmap list fin_maps strings.
From Stdlib Require Import ZArith Lia.
From S2P Require Import Prelude DList Bits CString Printfmt Formats Mmu Console ConsoleDev ConsoleOut ConsoleIn ConsoleInit.
From S2P Require Import Proc ProcPid ProcProps ProcSpec ProcMain Pmm Shmem Vmm Trap.

(** ** The interrupt flag *)
Lemma with_if_bit b x : Z.testbit (with_if b x) 9 = b.
Proof. unfold with_if, X86_EFLAGS_IF. destruct b; [rewrite Z.lor_spec; apply orb_true_r|rewrite Z.ldiff_spec; apply andb_false_r]. Qed.
Lemma with_if_idem b x : with_if b (with_if b x) = with_if b x.
Proof.
  unfold with_if. destruct b; [by rewrite <-Z.lor_assoc, Z.lor_diag|].
  apply Z.bits_inj'. intros n Hn. rewrite !Z.ldiff_spec. by destruct (Z.testbit x n), (Z.testbit X86_EFLAGS_IF n).
Qed.

Section Props.
Context {D A : Type} {in_port : Z → M D Z} {out_port : Z → Z → M D unit} {vread : Z → M D Z} {vwrite : Z → Z → M D unit}.
Context {view : D → devview} `{HD : !Devices in_port out_port vread vwrite view}.
Context (file : list Z) (fuel : nat).
Implicit Types (s : traps D A) (k : kernel (vmms A)).
Abbreviation t_cprintf' := (t_cprintf in_port out_port vread vwrite fuel).

(** The console of the state, with what it needs to work. *)
Abbreviation cv := (@cons_view D A).
Abbreviation vwc s := (vw (view := view) (cv s)).
Record listening s (t : term) (m : mods) : Prop := {
  ls_ring : ring_ok (cv s);
  ls_shows : shows (view := view) (cv s) t;
  ls_dev : dev_ok (vwc s);
  ls_dlab : dlab (vwc s) = false;
  ls_shift : shift (cv s) = bits m;
  ls_kbd : (length (kbd_in (vwc s)) < fuel)%nat;
  ls_ser : (length (ser_in (vwc s)) < fuel)%nat;
  ls_keys : is_Some (key_chars m (kbd_in (vwc s))) }.

(** Two states that differ in the console only. *)
Record same_but_console s s' : Prop := {
  sb_kern : tkern s' = tkern s;
  sb_mm : check_mm_struct s' = check_mm_struct s;
  sb_cr2 : cr2 s' = cr2 s;
  sb_panic : is_panic s' = is_panic s;
  sb_idt : idt s' = idt s ∧ idtr s' = idtr s }.
(** What printing the text [l] does. *)
Record said (l : list Z) s s' (t : term) : Prop := {
  sd_prints : prints (view := view) l (cv s) (cv s') t;
  sd_same : same_but_console s s' }.

Lemma same_but_trans s1 s2 s3 : same_but_console s1 s2 → same_but_console s2 s3 → same_but_console s1 s3.
Proof. intros [H1 H2 H3 H4 [H5 H6]] [K1 K2 K3 K4 [K5 K6]]. split; [..|split]; congruence. Qed.
Lemma same_but_refl s : same_but_console s s.
Proof. by split. Qed.
Lemma said_nil s t m : listening s t m → said [] s s t.
Proof. intros Hl. split; [apply prints_nil; apply Hl|apply same_but_refl]. Qed.
Lemma said_app l1 l2 s s1 s2 t : l2 ≠ [] ∨ s2 = s1 ∧ l2 = [] → said l1 s s1 t →
  said l2 s1 s2 (foldl (λ t c, term_putc c t) t l1) → said (l1 ++ l2) s s2 t.
Proof.
  intros [Hl|[-> ->]] [P1 P2] [Q1 Q2]; [|by rewrite app_nil_r].
  split; [by eapply prints_app|by eapply same_but_trans].
Qed.
Lemma said_listening l s s' t m : listening s t m → said l s s' t → listening s' (foldl (λ t c, term_putc c t) t l) m.
Proof.
  intros [H1 H2 H3 H4 H5 H6 H7 H8] [[P1 P2 P3 P4 P5 P6 (P7 & P8 & P9 & P10)] _].
  assert (Hs : cbuf (cv s') = cbuf (cv s) ∧ rpos (cv s') = rpos (cv s) ∧ wpos (cv s') = wpos (cv s) ∧ shift (cv s') = shift (cv s))
    by (rewrite P2; done).
  destruct Hs as (S1 & S2 & S3 & S4). split; rewrite ?S4, ?P7, ?P8, ?P9; try done. by apply (same_ring_ok (cv s)).
Qed.

(** A console operation that leaves the flags register alone. *)
Lemma on_cons_run {B} (m : M (console D) B) s b c : m (cv s) = Ret (b, c) → eflags c = eflags (cv s) →
  ∃ s', on_cons m s = Ret (b, s') ∧ cv s' = c ∧ same_but_console s s'.
Proof.
  intros E Hf. exists (cons_over c s). split; [by apply (zoom_Ret cons_lens)|].
  assert (Hb : Z.testbit (eflags c) 9 = iflag (processor (tkern s))) by (rewrite Hf; apply with_if_bit).
  assert (Hk : set_iflag (Z.testbit (eflags c) 9) (tkern s) = tkern s).
  { rewrite Hb. unfold set_iflag, set_processor. destruct (tkern s) as [? ? ? ? ? ? ? ? ? [] ?]. done. }
  split; [|split; try done].
  change (set_eflags (with_if (iflag (processor (set_iflag (Z.testbit (eflags c) 9) (tkern s)))) (eflags c)) c = c). rewrite Hk.
  assert (with_if (iflag (processor (tkern s))) (eflags c) = eflags c) as ->; [|by destruct c].
  rewrite Hf. apply with_if_idem.
Qed.

Lemma t_vcprintf_ok fmt ap l s t m : listening s t m → output fuel fmt ap = Ret ((), l) →
  ∃ s', t_cprintf' fmt ap s = Ret ((), s') ∧ said l s s' t.
Proof using HD.
  intros Hl Ho. destruct (vcprintf_ok fuel fmt ap l (cv s) t (ls_shows _ _ _ Hl) (ls_dev _ _ _ Hl) (ls_dlab _ _ _ Hl) Ho) as (c & E & Hp).
  destruct (on_cons_run (cprintf in_port out_port vread vwrite fuel fmt ap) s _ c E) as (s' & E' & <- & Hsb).
  { rewrite (pr_state _ _ _ _ Hp). done. }
  exists s'. split; [|by split]. unfold t_cprintf. by rewrite (bind_Ret _ _ _ _ _ E').
Qed.
(** A step that prints a text and does nothing else. *)
Definition speaks {B} (m : M (traps D A) B) (b : B) (l : list Z) : Prop :=
  ∀ s t mo, listening s t mo → ∃ s', m s = Ret (b, s') ∧ said l s s' t ∧ (l = [] → s' = s).
Lemma speaks_bind {B C} (m : M (traps D A) B) (k : B → M (traps D A) C) b c l1 l2 :
  speaks m b l1 → speaks (k b) c l2 → speaks (m ≫= k) c (l1 ++ l2).
Proof.
  intros Hm Hk s t mo Hl. destruct (Hm s t mo Hl) as (s1 & E1 & S1 & N1). rewrite (bind_Ret _ _ _ _ _ E1).
  destruct (Hk s1 _ mo (said_listening _ _ _ _ _ Hl S1)) as (s2 & E2 & S2 & N2). exists s2. split; [done|]. split.
  - eapply said_app; [|done|done]. destruct l2; [right; split; [by apply N2|done]|by left].
  - intros [-> ->]%app_eq_nil. by rewrite N2, N1.
Qed.
Lemma speaks_skip : speaks skip () [].
Proof. intros s t mo Hl. exists s. split; [done|]. split; [by eapply said_nil|done]. Qed.
Lemma speaks_cprintf fmt ap l : output fuel fmt ap = Ret ((), l) → l ≠ [] → speaks (t_cprintf' fmt ap) () l.
Proof using HD. intros Ho Hne s t mo Hl. destruct (t_vcprintf_ok fmt ap l s t mo Hl Ho) as (s' & E & Hs). by exists s'. Qed.

(** ** The texts *)
Context (Hfuel : (200 ≤ fuel)%nat).
Ltac lits := unfold literal; simpl; repeat constructor; discriminate.
Ltac by_pieces ps := apply speaks_cprintf; [apply (pieces_output ps); [|reflexivity|reflexivity|reflexivity|simpl; lia]; rewrite !Forall_cons; split_and!; try lits|].

Definition row (h : string) (w z : Z) : list Z := codes h ++ hex w z ++ [10].
Definition regs_text (r : pushregs) : list Z :=
  row "  edi  0x" 8 (reg_edi r) ++ row "  esi  0x" 8 (reg_esi r) ++ row "  ebp  0x" 8 (reg_ebp r) ++ row "  oesp 0x" 8 (reg_oesp r) ++
  row "  ebx  0x" 8 (reg_ebx r) ++ row "  edx  0x" 8 (reg_edx r) ++ row "  ecx  0x" 8 (reg_ecx r) ++ row "  eax  0x" 8 (reg_eax r).
Lemma speaks_row h w z : literal (codes h) → (length (codes h) ≤ 20)%nat → 1 ≤ w ≤ 9 →
  speaks (t_cprintf' (codes h ++ [37; 48; 48 + w; 120; 10]) [A32 z]) () (row h w z).
Proof using HD Hfuel.
  intros Hs Hl Hw. apply speaks_cprintf.
  - apply (pieces_output [Lit (codes h); Esc [48; 48 + w; 120] [A32 z] (hex w z); Lit [10]]).
    + rewrite !Forall_cons. split_and!; [done|by apply esc_hex|lits|done].
    + done.
    + done.
    + done.
    + rewrite length_app. cbn [length]. lia.
  - unfold row. intros [_ [_ ?]%app_eq_nil]%app_eq_nil. done.
Qed.
Ltac rows h w := apply (speaks_row h w); [lits|simpl; lia|lia].

Lemma print_regs_speaks r : speaks (print_regs in_port out_port vread vwrite fuel r) () (regs_text r).
Proof using HD Hfuel.
  unfold print_regs, regs_text.
  eapply speaks_bind; [rows "  edi  0x"%string 8|].
  eapply speaks_bind; [rows "  esi  0x"%string 8|].
  eapply speaks_bind; [rows "  ebp  0x"%string 8|].
  eapply speaks_bind; [rows "  oesp 0x"%string 8|].
  eapply speaks_bind; [rows "  ebx  0x"%string 8|].
  eapply speaks_bind; [rows "  edx  0x"%string 8|].
  eapply speaks_bind; [rows "  ecx  0x"%string 8|].
  rows "  eax  0x"%string 8.
Qed.

(** The names of the flags that are set. *)
Definition flag_text (flags : Z) (i : nat) (n : option string) : list Z :=
  match n with Some n => if Z.testbit flags (Z.of_nat i) then codes n ++ [44] else [] | None => [] end.
Definition flags_text (flags : Z) : list Z := concat (imap (flag_text flags) IA32flags).
Lemma land_bit x n : 0 ≤ n → bool_decide (Z.land x (2 ^ n) ≠ 0) = Z.testbit x n.
Proof.
  intros Hn. assert (E : Z.land x (2 ^ n) = if Z.testbit x n then 2 ^ n else 0).
  { apply Z.bits_inj'. intros i Hi. rewrite Z.land_spec, Z.pow2_bits_eqb by done. destruct (Z.eqb_spec n i) as [->|Hne].
    - rewrite andb_true_r. destruct (Z.testbit x i); [by rewrite Z.pow2_bits_true|by rewrite Z.bits_0].
    - rewrite andb_false_r. destruct (Z.testbit x n); [by rewrite Z.pow2_bits_false|by rewrite Z.bits_0]. }
  rewrite E. destruct (Z.testbit x n); [apply bool_decide_eq_true_2; lia|by apply bool_decide_eq_false_2; intros H; apply H].
Qed.
Lemma print_flags_speaks names flags i :
  Forall (λ n, match n with Some n => s8 <$> codes n = codes n | None => True end) names →
  speaks (print_flags in_port out_port vread vwrite fuel names flags (2 ^ Z.of_nat i)) ()
    (concat (imap (λ j, flag_text flags (i + j)) names)).
Proof using HD Hfuel.
  revert i. induction names as [|n names IH]; intros i Hn; cbn [print_flags imap concat]; [apply speaks_skip|].
  apply Forall_cons in Hn as [Hn Hns]. eapply speaks_bind.
  - rewrite Nat.add_0_r. destruct n as [n|]; simpl flag_text; [|apply speaks_skip]. rewrite land_bit by lia.
    destruct (Z.testbit flags (Z.of_nat i)); [|apply speaks_skip]. apply speaks_cprintf; [|by intros [_ ?]%app_eq_nil].
    apply (pieces_output [Esc [115] [AStr (Some (codes n))] (codes n); Lit [44]]); [|done|done|done|simpl; lia].
    rewrite !Forall_cons. split_and!; [|lits|done]. pose proof (esc_string (codes n)) as H. by rewrite Hn in H.
  - rewrite Z.shiftl_mul_pow2 by lia. replace (2 ^ Z.of_nat i * 2 ^ 1) with (2 ^ Z.of_nat (S i)) by (rewrite Nat2Z.inj_succ, Z.pow_succ_r; lia).
    specialize (IH (S i) Hns). erewrite imap_ext; [exact IH|]. intros j x _. simpl. f_equal. lia.
Qed.

Definition trapframe_text (p : Z) (tf : trapframe) : list Z :=
  (codes "trapframe at 0x" ++ numeral 16 (-1) chr_space (u32 p) ++ [10]) ++ regs_text (tf_regs tf) ++
  row "  es   0x----" 4 (tf_es tf) ++ row "  ds   0x----" 4 (tf_ds tf) ++
  (codes "  trap 0x" ++ hex 8 (tf_trapno tf) ++ [32] ++ (s8 <$> trapname (s32 (tf_trapno tf))) ++ [10]) ++
  row "  err  0x" 8 (tf_err tf) ++ row "  eip  0x" 8 (tf_eip tf) ++ row "  cs   0x----" 4 (tf_cs tf) ++
  (codes "  flag 0x" ++ hex 8 (tf_eflags tf) ++ [32]) ++ flags_text (tf_eflags tf) ++
  (codes "IOPL=" ++ signed (-1) chr_space (Z.shiftr (Z.land (tf_eflags tf) FL_IOPL_MASK) 12) ++ [10]) ++
  (if negb (trap_in_kernel tf) then row "  esp  0x" 8 (tf_esp tf) ++ row "  ss   0x----" 4 (tf_ss tf) else []).

Lemma iopl_range x : - 2 ^ 31 ≤ Z.shiftr (Z.land x FL_IOPL_MASK) 12 < 2 ^ 31.
Proof.
  unfold FL_IOPL_MASK. rewrite Z.shiftr_div_pow2 by lia.
  assert (0 ≤ Z.land x 0x3000 ≤ 0x3000).
  { split; [apply Z.land_nonneg; lia|]. change 0x3000 with (Z.land 0x3000 (Z.ones 14)). rewrite Z.land_assoc, Z.land_comm.
    assert (Hb : ∀ a b, 0 ≤ b → Z.land a b ≤ b).
    { intros a b Hb. apply Z.ldiff_le; [done|]. apply Z.bits_inj'. intros n Hn. rewrite Z.ldiff_spec, Z.land_spec, Z.bits_0.
      by destruct (Z.testbit a n), (Z.testbit b n). }
    rewrite Z.land_comm, <-Z.land_assoc. apply Hb. vm_compute. discriminate. }
  pose proof (Z.div_pos (Z.land x 0x3000) (2 ^ 12)). pose proof (Z.div_le_upper_bound (Z.land x 0x3000) (2 ^ 12) 0x3000). lia.
Qed.

Lemma get_tf_run s p tf : tframes (tkern s) !! p = Some tf → get_tf p s = Ret (tf, s).
Proof. unfold get_tf. by intros ->. Qed.

Lemma print_trapframe_ok p tf s t mo : listening s t mo → tframes (tkern s) !! p = Some tf →
  ∃ s', print_trapframe in_port out_port vread vwrite fuel p s = Ret ((), s') ∧ said (trapframe_text p tf) s s' t.
Proof using HD Hfuel.
  intros Hl Htf. unfold print_trapframe. rewrite (bind_Ret _ _ _ _ _ (get_tf_run _ _ _ Htf)).
  match goal with |- ∃ s', ?m s = _ ∧ _ => enough (H : speaks m () (trapframe_text p tf)) end.
  { destruct (H s t mo Hl) as (s' & E & Hs & _). by exists s'. }
  unfold trapframe_text.
  eapply speaks_bind; [by_pieces [Lit (codes "trapframe at "); Esc [112] [A32 p] (48 :: 120 :: numeral 16 (-1) chr_space (u32 p)); Lit [10]]|].
  { apply esc_pointer. } { done. }
  eapply speaks_bind; [apply print_regs_speaks|].
  eapply speaks_bind; [rows "  es   0x----"%string 4|].
  eapply speaks_bind; [rows "  ds   0x----"%string 4|].
  eapply speaks_bind; [by_pieces [Lit (codes "  trap 0x"); Esc [48; 56; 120] [A32 (tf_trapno tf)] (hex 8 (tf_trapno tf)); Lit [32];
    Esc [115] [AStr (Some (trapname (s32 (tf_trapno tf))))] (s8 <$> trapname (s32 (tf_trapno tf))); Lit [10]]|].
  { by apply (esc_hex 8). } { apply esc_string. } { done. }
  eapply speaks_bind; [rows "  err  0x"%string 8|].
  eapply speaks_bind; [rows "  eip  0x"%string 8|].
  eapply speaks_bind; [rows "  cs   0x----"%string 4|].
  eapply speaks_bind; [by_pieces [Lit (codes "  flag 0x"); Esc [48; 56; 120] [A32 (tf_eflags tf)] (hex 8 (tf_eflags tf)); Lit [32]]|].
  { by apply (esc_hex 8). } { done. }
  eapply speaks_bind; [apply (print_flags_speaks IA32flags (tf_eflags tf) 0); repeat constructor|].
  eapply speaks_bind; [by_pieces [Lit (codes "IOPL="); Esc [100] [A32 (Z.shiftr (Z.land (tf_eflags tf) FL_IOPL_MASK) 12)]
    (signed (-1) chr_space (Z.shiftr (Z.land (tf_eflags tf) FL_IOPL_MASK) 12)); Lit [10]]|].
  { apply esc_dec, iopl_range. } { done. }
  destruct (trap_in_kernel tf); simpl negb; cbv iota; [apply speaks_skip|].
  eapply speaks_bind; [rows "  esp  0x"%string 8|rows "  ss   0x----"%string 4].
Qed.

(** ** Panic *)
Definition panic_text (line_no : Z) (l : list Z) : list Z :=
  (codes "kernel panic at " ++ (s8 <$> file) ++ [58] ++ signed (-1) chr_space line_no ++ 58 :: 10 :: codes "    ") ++ l ++ [10].
Abbreviation panic_report' := (panic_report in_port out_port vread vwrite file fuel).
Lemma set_is_panic_listening s t mo : listening s t mo → listening (set_is_panic s) t mo.
Proof. intros [H1 H2 H3 H4 H5 H6 H7 H8]. by split. Qed.
Lemma panic_report_ok line_no fmt ap l s t mo : listening s t mo → - 2 ^ 31 ≤ line_no < 2 ^ 31 →
  output fuel fmt ap = Ret ((), l) → l ≠ [] →
  ∃ s', panic_report' line_no fmt ap s = Ret ((), s') ∧
    if is_panic s then s' = s else said (panic_text line_no l) (set_is_panic s) s' t.
Proof using HD Hfuel.
  intros Hl Hn Ho Hne. unfold panic_report. rewrite bind_gets. destruct (is_panic s); [by exists s|].
  rewrite bind_modify. apply set_is_panic_listening in Hl.
  match goal with |- ∃ s', ?m ?s1 = _ ∧ _ => enough (H : speaks m () (panic_text line_no l)) end.
  { destruct (H _ t mo Hl) as (s' & E & Hs & _). by exists s'. }
  unfold panic_text. eapply speaks_bind; [by_pieces [Lit (codes "kernel panic at "); Esc [115] [AStr (Some file)] (s8 <$> file); Lit [58];
    Esc [100] [A32 line_no] (signed (-1) chr_space line_no); Lit (58 :: 10 :: codes "    ")]|].
  { apply esc_string. } { by apply esc_dec. } { done. }
  eapply speaks_bind; [by apply (speaks_cprintf fmt ap l)|]. by_pieces [Lit [10]]. done.
Qed.
Lemma panic_ok {B} line_no fmt ap l s t mo : listening s t mo → - 2 ^ 31 ≤ line_no < 2 ^ 31 →
  output fuel fmt ap = Ret ((), l) → l ≠ [] → __panic (B := B) in_port out_port vread vwrite file fuel line_no fmt ap s = Panic.
Proof using HD Hfuel.
  intros Hl Hn Ho Hne. destruct (panic_report_ok line_no fmt ap l s t mo Hl Hn Ho Hne) as (s' & E & _).
  unfold __panic. by rewrite (bind_Ret _ _ _ _ _ E).
Qed.

(** ** Changes of the processes and of the ticks *)
Lemma listening_eflags s s' t mo x : listening s t mo → cv s' = set_eflags x (cv s) → listening s' t mo.
Proof.
  intros [[R1 R2 R3 R4] [T1 T2 T3 T4] H3 H4 H5 H6 H7 H8] E. split; rewrite ?E; try done; by split.
Qed.
Lemma listening_same s s' t mo : listening s t mo → cv s' = cv s → listening s' t mo.
Proof. intros Hl E. eapply (listening_eflags s _ t mo (eflags (cv s))); [done|]. rewrite E. by destruct (cv s). Qed.
Lemma listening_kern k s t mo : listening s t mo → listening (set_tkern k s) t mo.
Proof. intros Hl. by eapply (listening_eflags s _ t mo (with_if (iflag (processor k)) (eflags (tcons s)))). Qed.
Lemma listening_ticks n s s' t mo : listening s t mo → cv s' = set_ticks n (cv s) → listening s' t mo.
Proof.
  intros [[R1 R2 R3 R4] [T1 T2 T3 T4] H3 H4 H5 H6 H7 H8] E. split; rewrite ?E; try done; by split.
Qed.
Lemma on_kern_run {B} (m : M (kernel (vmms A)) B) s b k : m (tkern s) = Ret (b, k) → on_kern m s = Ret (b, set_tkern k s).
Proof. apply (zoom_Ret kern_lens). Qed.

(** A step that prints a text and leaves the kernel in [k]. *)
Record effect (l : list Z) (mo : mods) k s s' (t : term) : Prop := {
  ef_listening : listening s' (foldl (λ t c, term_putc c t) t l) mo;
  ef_kern : tkern s' = k;
  ef_rest : check_mm_struct s' = check_mm_struct s ∧ cr2 s' = cr2 s ∧ is_panic s' = is_panic s ∧ idt s' = idt s ∧ idtr s' = idtr s }.

Definition tick_text : list Z := line "tick!".
Lemma tick_speaks : speaks (t_cprintf' (line "tick!") []) () tick_text.
Proof using HD Hfuel. by_pieces [Lit (line "tick!")]. done. Qed.

Abbreviation timer_tick' := (timer_tick in_port out_port vread vwrite file fuel).
Definition ticking s : bool := bool_decide (u32 (ticks (tcons s) + 1) mod TICK_NUM = 0).
Lemma timer_tick_ok s t mo pr : listening s t mo → current (tkern s) ≠ 0 → procs (tkern s) !! current (tkern s) = Some pr →
  ∃ s', timer_tick' s = Ret ((), s') ∧ ticks (tcons s') = u32 (ticks (tcons s) + 1) ∧
    effect (if ticking s then tick_text else []) mo
      (if ticking s then upd_procs (<[current (tkern s) := set_need_resched true pr]>) (tkern s) else tkern s) s s' t.
Proof using HD Hfuel.
  intros Hl Hc Hpr. unfold timer_tick.
  destruct (on_cons_run (modify (λ c, set_ticks (ticks c + 1) c)) s () (set_ticks (ticks (cv s) + 1) (cv s)) eq_refl eq_refl)
    as (s1 & E1 & V1 & [B1 B2 B3 B4 [B5 B6]]).
  rewrite (bind_Ret _ _ _ _ _ E1). pose proof (listening_ticks _ _ _ _ _ Hl V1) as Hl1.
  assert (Ht : ticks (cv s1) = u32 (ticks (tcons s) + 1)) by by rewrite V1.
  destruct (on_cons_run (gets ticks) s1 _ _ eq_refl eq_refl) as (s2 & E2 & V2 & B').
  rewrite (bind_Ret _ _ _ _ _ E2), Ht. fold (ticking s).
  pose proof (listening_same _ _ _ _ Hl1 V2) as Hl2. destruct B' as [C1 C2 C3 C4 [C5 C6]].
  assert (Ht2 : ticks (tcons s2) = u32 (ticks (tcons s) + 1)) by (rewrite <-Ht, <-V2; done).
  assert (Hk2 : tkern s2 = tkern s) by congruence. destruct (ticking s) eqn:Et.
  - destruct (tick_speaks s2 t mo Hl2) as (s3 & E3 & S3 & _). rewrite (bind_Ret _ _ _ _ _ E3).
    pose proof (said_listening _ _ _ _ _ Hl2 S3) as Hl3. destruct S3 as [P3 [G1 G2 G3 G4 [G5 G6]]].
    rewrite (bind_Ret _ _ _ _ _ (on_kern_run (gets current) s3 _ _ eq_refl)). cbv beta.
    assert (Hk3 : tkern s3 = tkern s) by congruence. rewrite Hk3. rewrite bool_decide_false by done. erewrite bind_Ret by reflexivity.
    erewrite (on_kern_run (set_proc _ _)); [|simpl; rewrite ?Hk3; by apply set_proc_run].
    eexists. split; [reflexivity|]. split.
    + change (ticks (cv s3) = u32 (ticks (tcons s) + 1)). rewrite (pr_state _ _ _ _ P3). exact Ht2.
    + split; [by do 2 apply listening_kern|done|]. simpl. split_and!; congruence.
  - exists s2. split; [done|]. split; [done|]. split; [done|done|]. split_and!; congruence.
Qed.

(** ** Input *)
Lemma cons_getc_listening s t m mf ks : listening s t m → key_chars m (kbd_in (vwc s)) = Some (mf, ks) →
  let q := foldl push (pending (cv s)) (ser_chars (view := view) (cv s) ++ filter (λ c, c ≠ 0) ks) in
  ∃ s', on_cons (cons_getc in_port out_port vread vwrite fuel) s = Ret (default 0 (head q), s') ∧ listening s' t mf ∧
    pending (cv s') = tail q ∧ kbd_in (vwc s') = [] ∧ ticks (tcons s') = ticks (tcons s) ∧ same_but_console s s' ∧ Forall (λ c, 0 < c < 256) q.
Proof using HD Hfuel.
  intros [H1 H2 H3 H4 H5 H6 H7 _] Hk q. destruct (key_chars_range _ _ _ _ (dk_kbd _ H3) Hk) as [Hr Hlen]. rewrite <-Hlen in H6.
  destruct (cons_getc_ok fuel (cv s) m mf ks H1 H3 H4 H5 Hk H6 H7) as (c & E & [G1 G2 G3 G4 G5 G6]).
  destruct (out_part_eq _ _ G6) as (O1 & O2 & O3 & O4 & O5 & O6).
  destruct (on_cons_run _ s _ c E O6) as (s' & E' & V & Hsb). exists s'. split; [exact E'|]. rewrite V. split_and!.
  - destruct H2 as [[L1 L2 L3] S2 S3 S4]. split; rewrite ?V; try done.
    + split; [split| | |]; try done; rewrite ?G5, ?O1, ?O2, ?O3; by destruct (serial_exists (cv s)).
    + rewrite G5. by destruct (serial_exists (cv s)).
    + rewrite G5. destruct (serial_exists (cv s)); simpl; lia.
    + rewrite G5. destruct (serial_exists (cv s)); simpl; [lia|exact H7].
    + rewrite G5. destruct (serial_exists (cv s)); by eexists.
  - exact G2.
  - rewrite G5. by destruct (serial_exists (cv s)).
  - change (ticks (cv s') = ticks (cv s)). rewrite V. by injection G6.
  - exact Hsb.
  - apply push_range; [apply H1|]. apply Forall_app. split; [by apply ser_chars_range|]. by apply chars_range.
Qed.

(** The lines the handlers of the two input devices print. *)
Definition echo_text (h : string) (c : Z) : list Z := codes h ++ codes " [" ++ signed 3 48 (s8 c) ++ codes "] " ++ [s8 c; 10].
Lemma s8_range c : - 2 ^ 31 ≤ s8 c < 2 ^ 31.
Proof. unfold s8. pose proof (Z.mod_pos_bound (c + 2 ^ 7) (2 ^ 8)). lia. Qed.
Lemma echo_speaks h c : literal (codes h) → (length (codes h) ≤ 20)%nat →
  speaks (t_cprintf' (codes h ++ codes " [%03d] %c" ++ [10]) [A32 (s8 c); A32 (s8 c)]) () (echo_text h c).
Proof using HD Hfuel.
  intros Hh Hlen. apply speaks_cprintf.
  - apply (pieces_output [Lit (codes h); Lit (codes " ["); Esc [48; 51; 100] [A32 (s8 c)] (signed 3 48 (s8 c)); Lit (codes "] ");
      Esc [99] [A32 (s8 c)] [s8 c]; Lit [10]]); [|done|done|done|rewrite length_app; simpl; lia].
    pose proof (s8_range c). rewrite !Forall_cons. split_and!; [done|lits|by apply (esc_dec0 3)|lits|by apply esc_char|lits|done].
  - unfold echo_text. by intros [_ ?]%app_eq_nil.
Qed.
Lemma echo_input_ok h s t m mf ks : listening s t m → key_chars m (kbd_in (vwc s)) = Some (mf, ks) →
  literal (codes h) → (length (codes h) ≤ 20)%nat →
  let q := foldl push (pending (cv s)) (ser_chars (view := view) (cv s) ++ filter (λ c, c ≠ 0) ks) in
  ∃ s', echo_input in_port out_port vread vwrite fuel (codes h ++ codes " [%03d] %c" ++ [10]) s = Ret ((), s') ∧
    effect (echo_text h (default 0 (head q))) mf (tkern s) s s' t ∧ pending (cv s') = tail q ∧ kbd_in (vwc s') = [] ∧ ticks (tcons s') = ticks (tcons s).
Proof using HD Hfuel.
  intros Hl Hk Hh Hlen q. unfold echo_input.
  destruct (cons_getc_listening s t m mf ks Hl Hk) as (s1 & E1 & Hl1 & Hp1 & Hk1 & Ht1 & [B1 B2 B3 B4 [B5 B6]] & Hq).
  fold q in E1, Hp1. rewrite (bind_Ret _ _ _ _ _ E1).
  destruct (echo_speaks h (default 0 (head q)) Hh Hlen s1 t mf Hl1) as (s2 & E2 & S2 & _). exists s2. split; [exact E2|].
  pose proof (said_listening _ _ _ _ _ Hl1 S2) as Hl2. destruct S2 as [P2 [C1 C2 C3 C4 [C5 C6]]].
  split; [split; [done|congruence|]; split_and!; congruence|]. split_and!.
  - rewrite <-Hp1. apply (same_ring_ok (cv s1)); [|apply Hl1]. rewrite (pr_state _ _ _ _ P2). done.
  - destruct (pr_rest _ _ _ _ P2) as (-> & _). exact Hk1.
  - rewrite <-Ht1. change (ticks (cv s2) = ticks (cv s1)). by rewrite (pr_state _ _ _ _ P2).
Qed.

(** ** Page faults *)
Definition pgfault_text (a err : Z) : list Z :=
  codes "page fault at 0x" ++ hex 8 a ++ codes ": " ++ [if bool_decide (Z.land err 4 ≠ 0) then 85 else 75] ++ [47] ++
  [if bool_decide (Z.land err 2 ≠ 0) then 87 else 82] ++ codes " [" ++
  (if bool_decide (Z.land err 1 ≠ 0) then codes "protection fault" else codes "no page found") ++ codes "]." ++ [10].
Lemma print_pgfault_ok tf s t mo : listening s t mo →
  ∃ s', print_pgfault in_port out_port vread vwrite fuel tf s = Ret ((), s') ∧ said (pgfault_text (cr2 s) (tf_err tf)) s s' t.
Proof using HD Hfuel.
  intros Hl. unfold print_pgfault. rewrite bind_gets.
  match goal with |- ∃ s', ?m s = _ ∧ _ => enough (H : speaks m () (pgfault_text (cr2 s) (tf_err tf))) end.
  { destruct (H s t mo Hl) as (s' & E & Hs & _). by exists s'. }
  unfold pgfault_text. set (c1 := if bool_decide (Z.land (tf_err tf) 4 ≠ 0) then 85 else 75).
  set (c2 := if bool_decide (Z.land (tf_err tf) 2 ≠ 0) then 87 else 82).
  set (str := if bool_decide (Z.land (tf_err tf) 1 ≠ 0) then codes "protection fault" else codes "no page found").
  assert (Hstr : s8 <$> str = str) by (unfold str; case_bool_decide; reflexivity).
  by_pieces [Lit (codes "page fault at 0x"); Esc [48; 56; 120] [A32 (cr2 s)] (hex 8 (cr2 s)); Lit (codes ": "); Esc [99] [A32 c1] [c1]; Lit [47];
    Esc [99] [A32 c2] [c2]; Lit (codes " ["); Esc [115] [AStr (Some str)] str; Lit (codes "]." ++ [10])].
  - by apply (esc_hex 8).
  - apply esc_char. unfold c1. case_bool_decide; lia.
  - apply esc_char. unfold c2. case_bool_decide; lia.
  - pose proof (esc_string str) as H. by rewrite Hstr in H.
  - done.
Qed.
Lemma literal_output l : literal l → (length l + 82 ≤ fuel)%nat → output fuel l [] = Ret ((), l).
Proof. intros Hl Hf. apply (pieces_output [Lit l]); rewrite ?Forall_cons, ?bind_cons; simpl; rewrite ?app_nil_r; done. Qed.
End Props.

(** ** The descriptor table: entry [i] is an interrupt gate of the kernel to vector [i] *)
Lemma idt_loop_ok {D A} vectors n i (s : traps D A) : (i + n ≤ length vectors)%nat → (i + n ≤ length (idt s))%nat →
  ∃ t, idt_loop vectors n i s = Ret ((), set_idt t s) ∧ length t = length (idt s) ∧
    ∀ j, t !! j = if decide (i ≤ j < i + n)%nat then (λ v, SETGATE false GD_KTEXT v DPL_KERNEL) <$> vectors !! j else idt s !! j.
Proof.
  revert i s. induction n as [|n IH]; intros i s Hv Ht; cbn [idt_loop].
  - exists (idt s). split; [by destruct s|]. split; [done|]. intros j. by rewrite decide_False by lia.
  - assert (is_Some (vectors !! i)) as [v Hi] by (apply lookup_lt_is_Some; lia). rewrite Hi, bind_gets, bool_decide_true, bind_modify by lia.
    set (s1 := set_idt _ s). destruct (IH (S i) s1) as (t & E & Hl & Hj); [lia|simpl; rewrite length_insert; lia|].
    exists t. split; [by rewrite E|]. split; [rewrite Hl; simpl; apply length_insert|]. intros j. rewrite Hj. simpl.
    destruct (decide (j = i)) as [->|Hne].
    + rewrite decide_False, decide_True by lia. rewrite list_lookup_insert_eq by lia. by rewrite Hi.
    + rewrite list_lookup_insert_ne by done. by repeat destruct (decide _); try lia.
Qed.
Lemma idt_init_ok {D A} vectors (s : traps D A) : length vectors = 256%nat → length (idt s) = 256%nat →
  ∃ s', idt_init vectors s = Ret ((), s') ∧ idtr s' = Some (2047, idt s') ∧
    ∀ i v, vectors !! i = Some v → ∃ g, idt s' !! i = Some g ∧ gate_offset g = v ∧ gd_ss g = GD_KTEXT ∧ gd_type g = STS_IG32 ∧ gd_dpl g = 0 ∧ gd_p g = 1.
Proof.
  intros Hv Ht. destruct (idt_loop_ok vectors 256 0 s) as (t & E & Hl & Hj); [lia|lia|].
  unfold idt_init. rewrite (bind_Ret _ _ _ _ _ E). eexists. split; [reflexivity|]. split; [done|]. intros i v Hi. simpl. rewrite Hj, decide_True, Hi.
  - eexists. split; [reflexivity|]. split; [unfold gate_offset, SETGATE; cbn [gd_off_31_16 gd_off_15_0]; apply halves|]. repeat split.
  - apply lookup_lt_Some in Hi. lia.
Qed.
