(* ===== verification/TrapThms.v ===== *)
(** * Traps: the theorems *)
From stdpp Require Import base gmap list fin_maps strings.
From Stdlib Require Import ZArith Lia.
From S2P Require Import Prelude DList Bits CString Printfmt Formats Mmu Console ConsoleDev ConsoleOut ConsoleIn ConsoleInit.
From S2P Require Import Proc ProcPid ProcProps ProcSpec ProcMain Pmm Shmem Vmm Trap TrapProps.
From S2P Require Import ConsoleThms ProcThms.

Section Thms.
Context {D A : Type} (in_port : Z → M D Z) (out_port : Z → Z → M D unit) (vread : Z → M D Z) (vwrite : Z → Z → M D unit).
Context (view : D → devview) (alloc_pages : Z → M A (option Z)) (free_pages : Z → Z → M A unit) (npage : Z).
Context (get_ref : Z → M A Z) (set_ref : Z → Z → M A unit) (kmalloc : Z → M A Z) (kfree : Z → M A unit).
Context (file : list Z) (fuel : nat).
Implicit Types (s : traps D A) (k : kernel (vmms A)).
Abbreviation listens := (listening (view := view) fuel).
Abbreviation intr_dispatch' := (intr_dispatch in_port out_port vread vwrite alloc_pages free_pages npage get_ref set_ref kmalloc kfree file fuel).
Abbreviation trap' := (trap in_port out_port vread vwrite alloc_pages free_pages npage get_ref set_ref kmalloc kfree file fuel).
Abbreviation cview := (@cons_view D A).

(** The state between traps: the console listens and the table of processes is
    in order. *)
Record between_traps s (t : term) (m : mods) (xs : list Z) : Prop := {
  bt_listens : listens s t m;
  bt_procs : pinv (tkern s) xs;
  bt_fuel : (200 ≤ fuel)%nat ∧ (length xs + 1 < fuel)%nat }.

(** The current process with the new frame. *)
Definition entered p pr s : traps D A := set_tkern (upd_procs (<[current (tkern s) := set_tf p pr]>) (tkern s)) s.
(** trap after its dispatch. *)
Definition leave (in_kernel : bool) (otf : Z) : M (traps D A) unit :=
  cur ← on_kern (gets current);
  on_kern (set_proc cur (set_tf otf));;
  if negb in_kernel then
    pr ← on_kern (get_proc cur);
    if need_resched pr then on_kern (schedule fuel) else skip
  else skip.
Lemma set_tkern_same s : set_tkern (tkern s) s = s.
Proof. by destruct s. Qed.
Lemma trap_enter p tf pr s :
  tframes (tkern s) !! p = Some tf → current (tkern s) ≠ 0 → procs (tkern s) !! current (tkern s) = Some pr →
  trap' p s = (intr_dispatch' p;; leave (trap_in_kernel tf) (Proc.tf pr)) (entered p pr s).
Proof.
  intros Htf Hc Hpr. unfold trap.
  rewrite (bind_Ret _ _ _ _ _ (on_kern_run (gets current) s _ _ eq_refl)). cbv beta. rewrite bool_decide_false, set_tkern_same by done.
  rewrite (bind_Ret _ _ _ _ _ (on_kern_run _ s _ _ (get_proc_run _ _ _ Hpr))). cbv beta zeta. rewrite set_tkern_same.
  rewrite (bind_Ret _ _ _ _ _ (on_kern_run _ s _ _ (set_proc_run _ _ _ _ Hpr))). cbv beta.
  by erewrite bind_Ret by (apply get_tf_run; exact Htf).
Qed.
(** trap around a dispatch that stops the kernel, and around one that returns. *)
Lemma trap_stops p tf pr s :
  tframes (tkern s) !! p = Some tf → current (tkern s) ≠ 0 → procs (tkern s) !! current (tkern s) = Some pr →
  intr_dispatch' p (entered p pr s) = Panic → trap' p s = Panic.
Proof. intros Htf Hc Hpr E. rewrite (trap_enter p tf pr s Htf Hc Hpr). unfold mbind, M_bind. by rewrite E. Qed.
Lemma trap_around p tf pr s s2 pr2 :
  tframes (tkern s) !! p = Some tf → current (tkern s) ≠ 0 → procs (tkern s) !! current (tkern s) = Some pr →
  intr_dispatch' p (entered p pr s) = Ret ((), s2) →
  current (tkern s2) = current (tkern s) → procs (tkern s2) !! current (tkern s) = Some pr2 →
  trap' p s = (if negb (trap_in_kernel tf) then if need_resched pr2 then on_kern (schedule fuel) else skip else skip)
    (set_tkern (upd_procs (<[current (tkern s) := set_tf (Proc.tf pr) pr2]>) (tkern s2)) s2).
Proof.
  intros Htf Hc Hpr E Hc2 Hpr2. rewrite (trap_enter p tf pr s Htf Hc Hpr), (bind_Ret _ _ _ _ _ E). unfold leave.
  rewrite (bind_Ret _ _ _ _ _ (on_kern_run (gets current) s2 _ _ eq_refl)). cbv beta. rewrite Hc2, set_tkern_same.
  rewrite (bind_Ret _ _ _ _ _ (on_kern_run _ s2 _ _ (set_proc_run _ _ (set_tf (Proc.tf pr)) _ Hpr2))). cbv beta.
  destruct (trap_in_kernel tf); cbn [negb]; [done|].
  erewrite bind_Ret by (apply on_kern_run, get_proc_run; simpl; apply lookup_insert_eq).
  change (need_resched (set_tf (Proc.tf pr) pr2)) with (need_resched pr2). by destruct (need_resched pr2), s2.
Qed.

(** The kernel when the dispatch has set the flag of the current process to [b]. *)
Definition asked (b : bool) (pr : proc_struct) k : kernel (vmms A) := upd_procs (<[current k := set_need_resched b pr]>) k.
Lemma asked_same k pr b : procs k !! current k = Some pr → same_table k (asked b pr k).
Proof. intros Hpr. by apply (same_table_upd k (current k) pr (set_need_resched b)). Qed.
Lemma asked_pinv k xs pr b : pinv k xs → procs k !! current k = Some pr → pinv (asked b pr k) xs.
Proof. intros Hi Hpr. eapply same_table_pinv; [by apply asked_same|apply (pv_cur _ _ Hi)|done]. Qed.
Lemma asked_id k pr : procs k !! current k = Some pr → asked (need_resched pr) pr k = k.
Proof. intros Hpr. unfold asked, upd_procs. destruct k. simpl in *. rewrite insert_id; [done|]. rewrite Hpr. by destruct pr. Qed.

(** What a trap does to the processes when its handler asked for [b]. *)
Record trapped (in_kernel b : bool) (pr : proc_struct) (xs : list Z) k k' : Prop := {
  tp_stay : in_kernel = true ∨ b = false → k' = asked b pr k;
  tp_switch : in_kernel = false → b = true → schedule fuel (asked b pr k) = Ret ((), k') ∧ current k' = next_proc k xs;
  tp_procs : pinv k' xs;
  tp_same : same_table k k' }.

Lemma same_table_alloc a k : same_table k (set_alloc a k).
Proof. split; [|done..]. intros q pr E. by exists pr. Qed.
Lemma set_alloc_same k : set_alloc (alloc k) k = k.
Proof. by destruct k. Qed.
Lemma trap_handled a p tf pr s s2 t m xs b : let k0 := set_alloc a (tkern s) in
  (length xs + 1 < fuel)%nat → pinv (tkern s) xs →
  tframes (tkern s) !! p = Some tf → current (tkern s) ≠ 0 → procs (tkern s) !! current (tkern s) = Some pr →
  intr_dispatch' p (entered p pr s) = Ret ((), s2) →
  tkern s2 = upd_procs (<[current (tkern s) := set_need_resched b (set_tf p pr)]>) k0 → listens s2 t m →
  ∃ s', trap' p s = Ret ((), s') ∧ trapped (trap_in_kernel tf) b pr xs k0 (tkern s') ∧ listens s' t m ∧ tcons s' = tcons s2.
Proof.
  intros k0 Hf Hi Htf Hc Hpr E Hk Hl. assert (Hi0 : pinv k0 xs) by (eapply same_table_pinv; [apply same_table_alloc|apply (pv_cur _ _ Hi)|done]).
  rewrite (trap_around p tf pr s s2 (set_need_resched b (set_tf p pr)) Htf Hc Hpr E); [|by rewrite Hk|by rewrite Hk; apply lookup_insert_eq].
  set (s3 := set_tkern _ s2). assert (Hk3 : tkern s3 = asked b pr k0).
  { unfold s3, asked. simpl. rewrite Hk. unfold upd_procs. simpl. rewrite insert_insert_eq. by destruct pr. }
  assert (Hl3 : listens s3 t m) by by apply listening_kern. change (need_resched (set_need_resched b (set_tf p pr))) with b.
  change (procs k0 !! current k0 = Some pr) in Hpr.
  pose proof (asked_pinv _ _ _ b Hi0 Hpr) as Hi3. pose proof (asked_same _ _ b Hpr) as Hs3.
  destruct (decide (trap_in_kernel tf = false ∧ b = true)) as [[-> ->]|Hn].
  - cbn [negb]. rewrite <-Hk3 in Hi3. destruct (schedule_spec _ xs fuel Hi3 Hf) as (k' & E' & S' & I' & Hc' & _).
    exists (set_tkern k' s3). split; [by apply on_kern_run|]. split_and!; [|by apply listening_kern|done].
    change (tkern (set_tkern k' s3)) with k'. rewrite Hk3 in *. split.
    + by intros [?|?].
    + intros _ _. split; [done|]. rewrite Hc'. by apply same_table_next.
    + done.
    + by eapply same_table_trans.
  - exists s3. split; [destruct (trap_in_kernel tf), b; tauto|]. split_and!; [|done|done]. rewrite Hk3. split; try done.
    intros. by destruct Hn.
Qed.

Lemma between_current s t m xs : between_traps s t m xs → current (tkern s) ≠ 0 ∧ is_Some (procs (tkern s) !! current (tkern s)).
Proof.
  intros [_ Hi _]. split; [|by eapply pinv_cur]. pose proof (pv_idle _ _ Hi) as (_ & H1 & _).
  destruct (pv_cur _ _ Hi) as [->|Hin]; [done|]. intros E. apply (pv_nonnull _ _ Hi). by rewrite E in Hin.
Qed.
Lemma entered_asked p pr s b : upd_procs (<[current (tkern s) := set_need_resched b (set_tf p pr)]>) (tkern (entered p pr s)) =
  upd_procs (<[current (tkern s) := set_need_resched b (set_tf p pr)]>) (tkern s).
Proof. unfold entered, upd_procs. simpl. by rewrite insert_insert_eq. Qed.
Lemma entered_same p pr s : tkern (entered p pr s) = upd_procs (<[current (tkern s) := set_need_resched (need_resched pr) (set_tf p pr)]>) (tkern s).
Proof. by destruct pr. Qed.

Lemma timer_trap_ok `{!Devices in_port out_port vread vwrite view} p tf s t m xs :
  between_traps s t m xs → tframes (tkern s) !! p = Some tf → tf_trapno tf = IRQ_OFFSET + IRQ_TIMER →
  ∃ pr s', procs (tkern s) !! current (tkern s) = Some pr ∧ trap' p s = Ret ((), s') ∧ ticks (tcons s') = u32 (ticks (tcons s) + 1) ∧
    between_traps s' (foldl (λ t c, term_putc c t) t (if ticking s then tick_text else [])) m xs ∧
    trapped (trap_in_kernel tf) (ticking s || need_resched pr) pr xs (tkern s) (tkern s').
Proof.
  intros Hb Htf Hno. destruct (between_current _ _ _ _ Hb) as [Hc [pr Hpr]]. destruct Hb as [Hl Hi [Hf1 Hf2]]. exists pr.
  assert (Hpr1 : procs (tkern (entered p pr s)) !! current (tkern s) = Some (set_tf p pr)) by (simpl; apply lookup_insert_eq).
  assert (Hle : listens (entered p pr s) t m) by by apply listening_kern.
  destruct (timer_tick_ok file fuel Hf1 (entered p pr s) t m (set_tf p pr) Hle Hc Hpr1) as (s2 & E2 & Ht2 & [L2 K2 _]).
  assert (Hd : intr_dispatch' p (entered p pr s) = Ret ((), s2)).
  { unfold intr_dispatch. rewrite (bind_Ret _ _ _ _ _ (get_tf_run (entered p pr s) p tf Htf)). rewrite Hno.
    rewrite (bool_decide_false (_ = T_PGFLT)) by done. by rewrite bool_decide_true. }
  edestruct (trap_handled (alloc (tkern s)) p tf pr s s2) as (s' & E & Htr & Hl' & Ht'); [exact Hf2|exact Hi|exact Htf|done|exact Hpr|exact Hd| |exact L2|].
  - instantiate (1 := ticking s || need_resched pr). rewrite K2, set_alloc_same. change (ticking (entered p pr s)) with (ticking s). change (current (tkern (entered p pr s))) with (current (tkern s)).
    destruct (ticking s); [apply entered_asked|apply entered_same].
  - rewrite set_alloc_same in Htr. exists s'. split_and!; [done|done|by rewrite Ht', Ht2| |done]. split; [done|apply Htr|done].
Qed.

(** C23. A timer interrupt counts a tick and leaves the console and the table of
    processes in order.  On every thirtieth tick "tick!" is shown and the current
    process is asked to give way.  If it was asked, now or before, and runs in
    user mode, the scheduler switches to the next RUNNABLE process; in kernel
    mode nothing but the request changes, and the trap frame of the process is
    again the one it had. *)
Theorem timer_trap_correct `{!Devices in_port out_port vread vwrite view} p tf s t m xs :
  between_traps s t m xs → tframes (tkern s) !! p = Some tf → tf_trapno tf = IRQ_OFFSET + IRQ_TIMER →
  ∃ pr s', procs (tkern s) !! current (tkern s) = Some pr ∧ trap' p s = Ret ((), s') ∧ ticks (tcons s') = u32 (ticks (tcons s) + 1) ∧
    let tick := bool_decide (u32 (ticks (tcons s) + 1) mod TICK_NUM = 0) in
    let k1 := upd_procs (<[current (tkern s) := set_need_resched (tick || need_resched pr) pr]>) (tkern s) in
    between_traps s' (if tick then foldl (λ t c, term_putc c t) t (line "tick!") else t) m xs ∧ same_table (tkern s) (tkern s') ∧
    if negb (trap_in_kernel tf) && (tick || need_resched pr)
    then schedule fuel k1 = Ret ((), tkern s') ∧ current (tkern s') = next_proc (tkern s) xs
    else tkern s' = k1.
Proof.
  intros Hb Htf Hno. destruct (timer_trap_ok p tf s t m xs Hb Htf Hno) as (pr & s' & H1 & H2 & H3 & H4 & [T1 T2 T3 T4]).
  exists pr, s'. split_and!; [done..|]. cbv zeta. fold (ticking s). split_and!; [by destruct (ticking s)|done|].
  destruct (trap_in_kernel tf); cbn [negb andb]; [apply T1; by left|].
  destruct (ticking s || need_resched pr); [by apply T2|apply T1; by right].
Qed.

(** ** Preemption *)
(** An interrupt: the processor and trapentry.S push a frame and call trap. *)
Definition interrupt (p : Z) (tf : trapframe) : M (traps D A) unit := on_kern (modify (upd_tframes (<[p := tf]>)));; trap' p.
Fixpoint interrupts (l : list (Z * trapframe)) : M (traps D A) unit :=
  match l with [] => skip | (p, tf) :: l => interrupt p tf;; interrupts l end.
Lemma interrupts_app l1 l2 s s1 : interrupts l1 s = Ret ((), s1) → interrupts (l1 ++ l2) s = interrupts l2 s1.
Proof.
  revert s. induction l1 as [|[p tf] l1 IH]; intros s E; cbn [interrupts app] in *; [by injection E as ->|].
  apply bind_inv in E as ([] & s2 & E1 & E2). rewrite (bind_Ret _ _ _ _ _ E1). by apply IH.
Qed.
Definition user_timer (x : Z * trapframe) : Prop := tf_trapno x.2 = IRQ_OFFSET + IRQ_TIMER ∧ trap_in_kernel x.2 = false.

Lemma same_table_tframes f k : same_table k (upd_tframes f k).
Proof. split; [|done..]. intros q pr E. by exists pr. Qed.
Lemma interrupt_step `{!Devices in_port out_port vread vwrite view} x s t m xs : between_traps s t m xs → user_timer x →
  ∃ s' t', interrupt x.1 x.2 s = Ret ((), s') ∧ between_traps s' t' m xs ∧ same_table (tkern s) (tkern s') ∧
    ticks (tcons s') = u32 (ticks (tcons s) + 1) ∧
    (current (tkern s') = next_proc (tkern s) xs ∨ current (tkern s') = current (tkern s) ∧ ticking s = false).
Proof.
  intros [Hl Hi Hf] [Hno Hu]. destruct x as [p tf]. simpl in *. unfold interrupt.
  set (s1 := set_tkern (upd_tframes (<[p := tf]>) (tkern s)) s).
  assert (E1 : on_kern (modify (upd_tframes (<[p := tf]>))) s = Ret ((), s1)) by by apply on_kern_run. rewrite (bind_Ret _ _ _ _ _ E1).
  pose proof (same_table_tframes (<[p := tf]>) (tkern s)) as S1.
  assert (Hb1 : between_traps s1 t m xs).
  { split; [by apply listening_kern| |done]. eapply same_table_pinv; [exact S1|apply (pv_cur _ _ Hi)|done]. }
  destruct (timer_trap_ok p tf s1 t m xs Hb1) as (pr & s' & Hpr & E' & Ht & Hb' & [T1 T2 T3 T4]); [simpl; apply lookup_insert_eq|done|].
  exists s'; eexists; split_and!; [exact E'|exact Hb'|by eapply same_table_trans|done|]. rewrite Hu in *.
  assert (Hn : next_proc (tkern s1) xs = next_proc (tkern s) xs) by by apply same_table_next.
  destruct (ticking s1 || need_resched pr) eqn:Eb.
  - left. destruct (T2 eq_refl eq_refl) as [_ ->]. done.
  - right. rewrite T1 by by right. split; [done|]. by apply orb_false_iff in Eb as [? _].
Qed.

(** Within thirty timer interrupts in user mode the scheduler runs. *)
Lemma next_switch `{!Devices in_port out_port vread vwrite view} n l s t m xs :
  between_traps s t m xs → Forall user_timer l → is_u32 (ticks (tcons s)) → 30 - ticks (tcons s) mod 30 ≤ Z.of_nat n → length l = n →
  ∃ l1 l2 s' t', l = l1 ++ l2 ∧ interrupts l1 s = Ret ((), s') ∧ between_traps s' t' m xs ∧ same_table (tkern s) (tkern s') ∧
    is_u32 (ticks (tcons s')) ∧ current (tkern s') = next_proc (tkern s) xs.
Proof.
  revert l s t. induction n as [|n IH]; intros l s t Hb Hu Ht Hn Hlen.
  { pose proof (Z.mod_pos_bound (ticks (tcons s)) 30). lia. }
  destruct l as [|x l]; [done|]. apply Forall_cons in Hu as [Hx Hu]. injection Hlen as Hlen.
  destruct (interrupt_step x s t m xs Hb Hx) as (s1 & t1 & E1 & Hb1 & S1 & Ht1 & Hcur).
  assert (Hr1 : is_u32 (ticks (tcons s1))) by (rewrite Ht1; unfold is_u32, u32; apply Z.mod_pos_bound; lia).
  destruct Hcur as [Hcur|[Hcur Hnt]].
  - exists [x], l, s1, t1. split_and!; try done. destruct x as [p tf]. cbn [interrupts]. simpl in E1. by rewrite (bind_Ret _ _ _ _ _ E1).
  - unfold ticking, TICK_NUM in Hnt. apply bool_decide_eq_false_1 in Hnt. rewrite <-Ht1 in Hnt.
    assert (Hno : ticks (tcons s1) = ticks (tcons s) + 1).
    { unfold is_u32, u32 in *. destruct (decide (ticks (tcons s) + 1 = 2 ^ 32)) as [Ew|Ew]; [|rewrite Ht1; apply Z.mod_small; lia].
      rewrite Ht1, Ew, Z_mod_same_full in Hnt. done. }
    destruct (IH l s1 t1 Hb1 Hu Hr1) as (l1 & l2 & s' & t' & -> & E2 & Hb' & S2 & Hr' & Hc'); [|done|].
    { rewrite Hno in *. pose proof (Z.mod_pos_bound (ticks (tcons s)) 30). pose proof (Z.mod_pos_bound (ticks (tcons s) + 1) 30).
      pose proof (Z.div_mod (ticks (tcons s)) 30). pose proof (Z.div_mod (ticks (tcons s) + 1) 30). nia. }
    exists (x :: l1), l2, s', t'. split_and!; try done.
    + destruct x as [p tf]. cbn [interrupts]. simpl in E1. by rewrite (bind_Ret _ _ _ _ _ E1).
    + by eapply same_table_trans.
    + rewrite Hc'. by apply same_table_next.
Qed.

Lemma preempted `{!Devices in_port out_port vread vwrite view} n l s t m xs q :
  between_traps s t m xs → Forall user_timer l → is_u32 (ticks (tcons s)) → length l = (30 * n)%nat → q ∈ xs → runnable (tkern s) q = true →
  (∃ u v, candidates (tkern s) xs = u ++ q :: v ∧ length u < n)%nat →
  ∃ l1 l2 s' t', l = l1 ++ l2 ∧ interrupts l1 s = Ret ((), s') ∧ between_traps s' t' m xs ∧ same_table (tkern s) (tkern s') ∧ current (tkern s') = q.
Proof.
  revert l s t. induction n as [|n IH]; intros l s t Hb Hu Ht Hlen Hq Hr (u & v & Hc & Hlu); [lia|].
  destruct (next_switch 30 (take 30 l) s t m xs Hb) as (l1 & l2 & s1 & t1 & El & E1 & Hb1 & S1 & Ht1 & Hc1).
  { by apply Forall_take. } { done. } { pose proof (Z.mod_pos_bound (ticks (tcons s)) 30). lia. } { rewrite length_take. lia. }
  assert (Hl : l = l1 ++ l2 ++ drop 30 l) by (rewrite app_assoc, <-El; by rewrite take_drop).
  destruct (round_robin_step (tkern s) (tkern s1) xs q u v) as [Hd|(a' & b' & Hc' & Hlen')];
    [apply Hb|apply Hb1|done|done|done|done|done| |].
  { exists l1, (l2 ++ drop 30 l), s1, t1. by split_and!. }
  set (rest := l2 ++ drop 30 l) in *.
  assert (Hge : (30 * n ≤ length rest)%nat) by (unfold rest; rewrite length_app, length_drop; lia).
  destruct (IH (take (30 * n) rest) s1 t1 Hb1) as (l3 & l4 & s2 & t2 & El2 & E2 & Hb2 & S2 & Hc2); try done.
  { apply Forall_take. rewrite Hl in Hu. by apply Forall_app in Hu as [_ ?]. }
  { rewrite length_take. lia. } { by rewrite (same_table_runnable (tkern s)). } { exists a', b'. split; [done|lia]. }
  exists (l1 ++ l3), (l4 ++ drop (30 * n) rest), s2, t2. split_and!; try done.
  - rewrite Hl at 1. rewrite <-app_assoc, (app_assoc l3), <-El2. by rewrite take_drop.
  - by rewrite (interrupts_app _ _ _ _ E1).
  - by eapply same_table_trans.
Qed.

(** C22. Preemption: whatever the processes do in user mode, every RUNNABLE
    process becomes the current one within thirty timer interrupts per process
    of the table, also when the tick counter wraps around. *)
Theorem preemption_correct `{!Devices in_port out_port vread vwrite view} l s t m xs q :
  between_traps s t m xs → Forall user_timer l → is_u32 (ticks (tcons s)) → length l = (30 * length xs)%nat →
  q ∈ xs → runnable (tkern s) q = true →
  ∃ l1 l2 s' t', l = l1 ++ l2 ∧ interrupts l1 s = Ret ((), s') ∧ between_traps s' t' m xs ∧ same_table (tkern s) (tkern s') ∧ current (tkern s') = q.
Proof. intros Hb Hu Ht Hl Hq Hr. eapply preempted; try done. apply candidates_place; [apply Hb|done]. Qed.

(** The name a handler prints for its device. *)
Definition device_name (trapno : Z) : option string :=
  if bool_decide (trapno = IRQ_OFFSET + IRQ_COM1) then Some "serial"%string
  else if bool_decide (trapno = IRQ_OFFSET + IRQ_KBD) then Some "kbd"%string else None.

(** An interrupt of the keyboard or the serial port takes all waiting input
    into the buffer, removes its oldest character and prints it on one line with
    its code; the current process gives way only if it was asked before and runs
    in user mode. *)
Theorem input_trap_correct `{!Devices in_port out_port vread vwrite view} p tf s t m xs h mf ks :
  between_traps s t m xs → tframes (tkern s) !! p = Some tf → device_name (tf_trapno tf) = Some h →
  key_chars m (kbd_in (vw (view := view) (cview s))) = Some (mf, ks) →
  let q := foldl push (pending (cview s)) (ser_chars (view := view) (cview s) ++ filter (λ c, c ≠ 0) ks) in
  ∃ pr s', procs (tkern s) !! current (tkern s) = Some pr ∧ trap' p s = Ret ((), s') ∧
    between_traps s' (foldl (λ t c, term_putc c t) t (echo_text h (default 0 (head q)))) mf xs ∧ pending (cview s') = tail q ∧
    ticks (tcons s') = ticks (tcons s) ∧ trapped (trap_in_kernel tf) (need_resched pr) pr xs (tkern s) (tkern s').
Proof.
  intros Hb Htf Hh Hk q. destruct (between_current _ _ _ _ Hb) as [Hc [pr Hpr]]. destruct Hb as [Hl Hi [Hf1 Hf2]]. exists pr.
  assert (Hle : listens (entered p pr s) t m) by by apply listening_kern.
  assert (Hh' : literal (codes h) ∧ (length (codes h) ≤ 20)%nat ∧
    intr_dispatch' p (entered p pr s) = echo_input in_port out_port vread vwrite fuel (codes h ++ codes " [%03d] %c" ++ [10]) (entered p pr s)).
  { unfold intr_dispatch. rewrite (bind_Ret _ _ _ _ _ (get_tf_run (entered p pr s) p tf Htf)). unfold device_name in Hh.
    case_bool_decide as C1; [|case_bool_decide as C2; [|done]]; injection Hh as <-;
      (split; [unfold literal; simpl; repeat constructor; discriminate|]; split; [simpl; lia|]); rewrite ?C1, ?C2;
      rewrite (bool_decide_false (_ = T_PGFLT)), (bool_decide_false (_ = _ + IRQ_TIMER)) by done; done. }
  destruct Hh' as (Hlit & Hlen & Hd).
  destruct (echo_input_ok fuel Hf1 h (entered p pr s) t m mf ks Hle Hk Hlit Hlen) as (s2 & E2 & [L2 K2 _] & Hp2 & Hk2 & Ht2).
  rewrite E2 in Hd. edestruct (trap_handled (alloc (tkern s)) p tf pr s s2) as (s' & E & Htr & Hl' & Ht');
    [exact Hf2|exact Hi|exact Htf|done|exact Hpr|exact Hd| |exact L2|].
  - instantiate (1 := need_resched pr). rewrite K2, set_alloc_same. apply entered_same.
  - rewrite set_alloc_same in Htr. exists s'. split_and!; [done|done| | |by rewrite Ht', Ht2|done].
    + split; [done|apply Htr|done].
    + transitivity (pending (cview s2)); [unfold pending; simpl; by rewrite Ht'|exact Hp2].
Qed.

(** The traps without a handler. *)
Definition unhandled (tf : trapframe) : Prop := tf_trapno tf ≠ T_PGFLT ∧ tf_trapno tf ≠ IRQ_OFFSET + IRQ_TIMER ∧ device_name (tf_trapno tf) = None.
Lemma dispatch_unhandled p tf s : tframes (tkern s) !! p = Some tf → unhandled tf →
  intr_dispatch' p s = (if bool_decide (Z.land (tf_cs tf) 3 = 0) then print_trapframe in_port out_port vread vwrite fuel p;;
    __panic in_port out_port vread vwrite file fuel 269 (line "unexpected trap in kernel.") [] else skip) s.
Proof.
  intros Htf (H1 & H2 & H3). unfold intr_dispatch. rewrite (bind_Ret _ _ _ _ _ (get_tf_run s p tf Htf)).
  unfold device_name in H3. rewrite (bool_decide_false (_ = T_PGFLT)), (bool_decide_false (_ = _ + IRQ_TIMER)) by done.
  case_bool_decide; [done|]. by case_bool_decide.
Qed.

Ltac lits := unfold literal; simpl; repeat constructor; discriminate.
(** A trap without a handler is ignored in user mode (the process gives way
    if it was asked to) and stops the kernel in kernel mode, after the trap frame
    and, unless the kernel is already in a panic, the message of the panic have
    been shown in full. *)
Theorem unexpected_trap_correct `{!Devices in_port out_port vread vwrite view} p tf s t m xs :
  between_traps s t m xs → tframes (tkern s) !! p = Some tf → unhandled tf →
  ∃ pr, procs (tkern s) !! current (tkern s) = Some pr ∧
    if bool_decide (Z.land (tf_cs tf) 3 = 0)
    then trap' p s = Panic ∧ ∃ s1 s2, print_trapframe in_port out_port vread vwrite fuel p (entered p pr s) = Ret ((), s1) ∧
      panic_report in_port out_port vread vwrite file fuel 269 (line "unexpected trap in kernel.") [] s1 = Ret ((), s2) ∧ is_panic s2 = true ∧
      listens s2 (foldl (λ t c, term_putc c t) t
        (trapframe_text p tf ++ if is_panic s then [] else panic_text file 269 (line "unexpected trap in kernel."))) m
    else ∃ s', trap' p s = Ret ((), s') ∧ between_traps s' t m xs ∧ trapped (trap_in_kernel tf) (need_resched pr) pr xs (tkern s) (tkern s').
Proof.
  intros Hb Htf Hun. destruct (between_current _ _ _ _ Hb) as [Hc [pr Hpr]]. destruct Hb as [Hl Hi [Hf1 Hf2]]. exists pr. split; [done|].
  assert (Hle : listens (entered p pr s) t m) by by apply listening_kern.
  pose proof (dispatch_unhandled p tf (entered p pr s) Htf Hun) as Hd. case_bool_decide as Hcs.
  - destruct (print_trapframe_ok fuel Hf1 p tf (entered p pr s) t m Hle Htf) as (s1 & E1 & S1).
    pose proof (said_listening _ _ _ _ _ _ Hle S1) as Hl1. rewrite (bind_Ret _ _ _ _ _ E1) in Hd.
    assert (Ho : output fuel (line "unexpected trap in kernel.") [] = Ret ((), line "unexpected trap in kernel."))
      by (apply literal_output; [lits|simpl; lia]).
    destruct (panic_report_ok file fuel Hf1 269 _ [] _ s1 _ m Hl1 ltac:(lia) Ho ltac:(done)) as (s2 & E2 & S2).
    split.
    + eapply trap_stops; [done..|]. rewrite Hd. unfold __panic. by rewrite (bind_Ret _ _ _ _ _ E2).
    + exists s1, s2. split; [exact E1|]. split; [exact E2|]. pose proof (sb_panic _ _ (sd_same _ _ _ _ S1)) as Hp1. simpl in Hp1.
      rewrite Hp1 in S2. destruct (is_panic s) eqn:Ep.
      * subst s2. rewrite app_nil_r. by split; [congruence|].
      * rewrite foldl_app. split; [by rewrite (sb_panic _ _ (sd_same _ _ _ _ S2))|]. eapply said_listening; [|exact S2]. by apply set_is_panic_listening.
  - edestruct (trap_handled (alloc (tkern s)) p tf pr s (entered p pr s)) as (s' & E & Htr & Hl' & Ht');
      [exact Hf2|exact Hi|exact Htf|done|exact Hpr|exact Hd| |exact Hle|].
    + rewrite set_alloc_same. apply entered_same.
    + rewrite set_alloc_same in Htr. exists s'. split; [done|]. split; [|done]. split; [done|apply Htr|done].
Qed.

Abbreviation do_pgfault' := (do_pgfault alloc_pages free_pages npage get_ref set_ref kmalloc kfree fuel).
Lemma pgfault_dispatch `{!Devices in_port out_port vread vwrite view} p tf s t m : (200 ≤ fuel)%nat → listens s t m →
  tframes (tkern s) !! p = Some tf → tf_trapno tf = T_PGFLT → ∃ s1, said (view := view) (pgfault_text (cr2 s) (tf_err tf)) s s1 t ∧
  intr_dispatch' p s = (ret ← (if bool_decide (check_mm_struct s ≠ 0)
      then t_do_pgfault alloc_pages free_pages npage get_ref set_ref kmalloc kfree fuel (check_mm_struct s) (tf_err tf) (cr2 s)
      else __panic in_port out_port vread vwrite file fuel 229 (line "unhandled page fault.") []);
    if bool_decide (ret ≠ 0) then print_trapframe in_port out_port vread vwrite fuel p;;
      __panic in_port out_port vread vwrite file fuel 246 (line "handle pgfault failed. %e") [A32 ret] else skip) s1.
Proof.
  intros Hf Hl Htf Hno. destruct (print_pgfault_ok fuel Hf tf s t m Hl) as (s1 & E1 & S1). exists s1. split; [done|].
  unfold intr_dispatch. rewrite (bind_Ret _ _ _ _ _ (get_tf_run s p tf Htf)), bool_decide_true by done.
  unfold pgfault_handler. rewrite !bind_assoc. rewrite (bind_Ret _ _ _ _ _ (get_tf_run s p tf Htf)), bind_assoc, (bind_Ret _ _ _ _ _ E1), bind_assoc, bind_gets.
  destruct S1 as [_ [B1 B2 B3 B4 B5]]. rewrite B2. case_bool_decide; [|done]. by rewrite bind_assoc, bind_gets, B3.
Qed.

(** do_pgfault returns 0, -E_INVAL or -E_NO_MEM. *)
Definition gives {S} (m : M S Z) (P : Z → Prop) : Prop := ∀ x r y, m x = Ret (r, y) → P r.
Lemma gives_ret {S} x (P : Z → Prop) : P x → gives (S := S) (mret x) P.
Proof. intros HP s r s' E. by injection E as <- <-. Qed.
Lemma gives_bind {S B} (m : M S B) (k : B → M S Z) P : (∀ b, gives (k b) P) → gives (m ≫= k) P.
Proof. intros Hk s r s' E. apply bind_inv in E as (b & s1 & _ & E). by eapply Hk. Qed.
Lemma gives_panic {S} (P : Z → Prop) : gives (S := S) panic P.
Proof. by intros s r s' E. Qed.
Definition fault_result (r : Z) : Prop := r = 0 ∨ r = - E_INVAL ∨ r = - E_NO_MEM.
Ltac gives := repeat first [apply gives_bind; intros | apply gives_ret; unfold fault_result; tauto | apply gives_panic | case_match].
Lemma do_pgfault_result mm err a : gives (do_pgfault' mm err a) fault_result.
Proof. unfold do_pgfault, fault_absent, fault_present. gives. Qed.

(** C24. A page fault: the fault is reported, and without an address space to
    handle it in the kernel stops.  Otherwise do_pgfault decides: when it
    returns 0 the trap returns with its changes made, and otherwise the kernel
    stops after it has shown the trap frame. *)
Theorem pgfault_trap_correct `{!Devices in_port out_port vread vwrite view} p tf s t m xs :
  between_traps s t m xs → tframes (tkern s) !! p = Some tf → tf_trapno tf = T_PGFLT →
  ∃ pr, procs (tkern s) !! current (tkern s) = Some pr ∧
    (check_mm_struct s = 0 → trap' p s = Panic) ∧
    ∀ r a, check_mm_struct s ≠ 0 → do_pgfault' (check_mm_struct s) (tf_err tf) (cr2 s) (alloc (tkern s)) = Ret (r, a) →
      if bool_decide (r = 0)
      then ∃ s', trap' p s = Ret ((), s') ∧ between_traps s' (foldl (λ t c, term_putc c t) t (pgfault_text (cr2 s) (tf_err tf))) m xs ∧
        trapped (trap_in_kernel tf) (need_resched pr) pr xs (set_alloc a (tkern s)) (tkern s')
      else (r = - E_INVAL ∨ r = - E_NO_MEM) ∧ trap' p s = Panic.
Proof.
  intros Hb Htf Hno. destruct (between_current _ _ _ _ Hb) as [Hc [pr Hpr]]. destruct Hb as [Hl Hi [Hf1 Hf2]]. exists pr. split; [done|].
  assert (Hle : listens (entered p pr s) t m) by by apply listening_kern.
  destruct (pgfault_dispatch p tf (entered p pr s) t m Hf1 Hle Htf Hno) as (s1 & S1 & Hd).
  change (check_mm_struct (entered p pr s)) with (check_mm_struct s) in Hd. change (cr2 (entered p pr s)) with (cr2 s) in Hd, S1.
  pose proof (said_listening _ _ _ _ _ _ Hle S1) as Hl1. pose proof (sb_kern _ _ (sd_same _ _ _ _ S1)) as Hk1. split.
  - intros Hz. eapply trap_stops; [done..|]. rewrite Hd, bool_decide_false by (by intros H; apply H).
    assert (Ho : output fuel (line "unhandled page fault.") [] = Ret ((), line "unhandled page fault.")) by (apply literal_output; [lits|simpl; lia]).
    unfold mbind at 1, M_bind at 1. by rewrite (panic_ok file fuel Hf1 229 _ [] _ s1 _ m Hl1 ltac:(lia) Ho ltac:(done)).
  - intros r a Hz E. pose proof (do_pgfault_result _ _ _ _ _ _ E) as Hr. rewrite bool_decide_true in Hd by done.
    set (s2 := set_tkern (set_alloc a (tkern (entered p pr s))) s1).
    assert (E2 : t_do_pgfault alloc_pages free_pages npage get_ref set_ref kmalloc kfree fuel (check_mm_struct s) (tf_err tf) (cr2 s) s1 = Ret (r, s2)).
    { unfold t_do_pgfault. apply on_kern_run. rewrite Hk1. by apply (zoom_Ret alloc_lens). }
    rewrite (bind_Ret _ _ _ _ _ E2) in Hd. assert (Hl2 : listens s2 _ m) by by apply listening_kern.
    destruct (decide (r = 0)) as [Hr0|Hr0]; [rewrite (bool_decide_true (r = 0)) by done|rewrite (bool_decide_false (r = 0)) by done].
    + rewrite (bool_decide_false (r ≠ 0)) in Hd by (by intros H; apply H).
      edestruct (trap_handled a p tf pr s s2) as (s' & E' & Htr & Hl' & Ht'); [exact Hf2|exact Hi|exact Htf|done|exact Hpr|exact Hd| |exact Hl2|].
      * instantiate (1 := need_resched pr). by destruct pr.
      * exists s'. split; [done|]. split; [|done]. split; [done|apply Htr|done].
    + assert (Hr' : r = - E_INVAL ∨ r = - E_NO_MEM) by (destruct Hr; tauto). split; [done|]. eapply trap_stops; [done..|].
      rewrite Hd, (bool_decide_true (r ≠ 0)) by done. destruct (print_trapframe_ok fuel Hf1 p tf s2 _ m Hl2 Htf) as (s3 & E3 & S3).
      rewrite (bind_Ret _ _ _ _ _ E3). pose proof (said_listening _ _ _ _ _ _ Hl2 S3) as Hl3.
      assert (Hes : ∃ str, error_string (Z.abs r) = Some (Some str) ∧ str ≠ []) by (destruct Hr' as [->| ->]; by eexists).
      destruct Hes as (str & Hes & Hne).
      eapply (panic_ok file fuel Hf1 246 _ _ (codes "handle pgfault failed. " ++ (s8 <$> str) ++ [10])); [exact Hl3|lia| |done].
      apply (pieces_output [Lit (codes "handle pgfault failed. "); Esc [101] [A32 r] (s8 <$> str); Lit [10]]); try done; [|simpl; lia].
      rewrite !Forall_cons. split_and!; [lits|by apply esc_error|lits|done].
Qed.
End Thms.

(** ** A machine: the console of [ConsoleThms] and the processes after
    proc_init; no memory is left, and the address space 1 has no areas *)
Definition ex_spaces : vmms Z :=
  MkVmms Z ∅ {[1 := MkMm 0 0 0 0]} {[MmapList 1 := ListEntry (MmapList 1) (MmapList 1)]} ∅ ∅ (MkShms Z ∅ ∅ ∅ (MkVmem Z ∅ 0 ∅ 1)).
Definition ex_frame (trapno cs : Z) : trapframe := MkTf (MkRegs 1 2 3 4 5 6 7 8) 16 0 16 0 trapno 4 0xC0101234 cs 0 0x246 0 0 0.
Definition ex_frames : gmap Z trapframe := {[100 := ex_frame 32 27; 101 := ex_frame 33 8; 102 := ex_frame 13 8; 103 := ex_frame 14 8]}.
Definition ex_kern (k : kernel machine) : kernel (vmms Z) :=
  MkKernel (vmms Z) (procs k) (plinks k) (idleproc k) (initproc k) (current k) (nr_process k) (next_safe k) (last_pid k) ex_frames (processor k) ex_spaces.
Definition ex_traps (k : kernel machine) : traps devview Z :=
  MkTraps devview Z (set_ticks 29 ex_console) (ex_kern k) 1 0x700000 false [] None.

Lemma ex_pinv k xs : pinv k xs → pinv (ex_kern k) xs.
Proof. intros [H1 H2 H3 H4 H5 H6 H7 H8 H9 H10 H11 H12]. by split. Qed.
Abbreviation ex_between := (between_traps id 200).
Lemma ex_ready : ∃ k p, ex_between (ex_traps k) ex_term no_mods [p] ∧ runnable (ex_kern k) p = true.
Proof.
  destruct ex_booted as (k & p & _ & [K _] & _ & Hr & _). exists k, p. split; [|exact Hr]. split; [|by apply ex_pinv|simpl; lia].
  destruct ex_shows as [T1 T2 T3 T4], (proj1 ex_ring) as [R1 R2 R3 R4].
  split; [split; assumption|split; assumption|exact ex_dev_ok|reflexivity|reflexivity|simpl; lia|simpl; lia|].
  exists (no_mods, ex_chars). exact ex_decoded.
Qed.
Abbreviation ex_alloc := (λ _ : Z, mret (M := M Z) (@None Z)).
Abbreviation ex_free := (λ _ _ : Z, skip (S := Z)).
Abbreviation ex_ref := (λ _ : Z, mret (M := M Z) 0).
Abbreviation ex_trap := (trap ready_in ready_out ready_read ready_write ex_alloc ex_free 70 ex_ref ex_free ex_ref (λ _, skip) (codes "intr.c") 200).
Abbreviation ex_interrupts := (interrupts ready_in ready_out ready_read ready_write ex_alloc ex_free 70 ex_ref ex_free ex_ref (λ _, skip) (codes "intr.c") 200).

(** The thirtieth tick, in user mode: the idle process gives way to initproc. *)
Lemma timer_trap_correct_witness : ∃ k p s', runnable (ex_kern k) p = true ∧ ex_trap 100 (ex_traps k) = Ret ((), s') ∧
  ticks (tcons s') = 30 ∧ current (tkern s') = next_proc (ex_kern k) [p].
Proof.
  destruct ex_ready as (k & p & Hb & Hr). exists k, p.
  destruct (timer_trap_correct ready_in ready_out ready_read ready_write id ex_alloc ex_free 70 ex_ref ex_free ex_ref (λ _, skip) (codes "intr.c") 200
    100 (ex_frame 32 27) (ex_traps k) ex_term no_mods [p] Hb) as (pr & s' & Hpr & E & Ht & _ & _ & Hs); [reflexivity|reflexivity|].
  exists s'. split; [exact Hr|]. split; [exact E|]. split; [exact Ht|]. apply Hs.
Defined.
Lemma preemption_correct_witness : ∃ k p l s', runnable (ex_kern k) p = true ∧ ex_interrupts l (ex_traps k) = Ret ((), s') ∧ current (tkern s') = p.
Proof.
  destruct ex_ready as (k & p & Hb & Hr). exists k, p.
  destruct (preemption_correct ready_in ready_out ready_read ready_write id ex_alloc ex_free 70 ex_ref ex_free ex_ref (λ _, skip) (codes "intr.c") 200
    (replicate 30 (5, ex_frame 32 27)) (ex_traps k) ex_term no_mods [p] p Hb) as (l1 & l2 & s' & t' & _ & E & _ & _ & Hc).
  - apply Forall_replicate. split; reflexivity.
  - split; vm_compute; [discriminate|reflexivity].
  - reflexivity.
  - by left.
  - exact Hr.
  - exists l1, s'. split; [exact Hr|]. split; [exact E|exact Hc].
Defined.
Lemma input_trap_correct_witness : ∃ k s', ex_trap 101 (ex_traps k) = Ret ((), s') ∧ pending (cons_view s') = [72; 105; 8; 111; 10].
Proof.
  destruct ex_ready as (k & p & Hb & Hr). exists k.
  destruct (input_trap_correct ready_in ready_out ready_read ready_write id ex_alloc ex_free 70 ex_ref ex_free ex_ref (λ _, skip) (codes "intr.c") 200
    101 (ex_frame 33 8) (ex_traps k) ex_term no_mods [p] "kbd" no_mods ex_chars Hb) as (pr & s' & _ & E & _ & Hp & _);
    [reflexivity|reflexivity|exact ex_decoded|].
  exists s'. split; [exact E|exact Hp].
Defined.
Lemma unexpected_trap_correct_witness : ∃ k, ex_trap 102 (ex_traps k) = Panic.
Proof.
  destruct ex_ready as (k & p & Hb & Hr). exists k.
  destruct (unexpected_trap_correct ready_in ready_out ready_read ready_write id ex_alloc ex_free 70 ex_ref ex_free ex_ref (λ _, skip) (codes "intr.c") 200
    102 (ex_frame 13 8) (ex_traps k) ex_term no_mods [p] Hb) as (pr & _ & H); [reflexivity|split; [discriminate|split; [discriminate|reflexivity]]|].
  apply H.
Defined.
Lemma pgfault_trap_correct_witness : ∃ k, ex_trap 103 (ex_traps k) = Panic.
Proof.
  destruct ex_ready as (k & p & Hb & Hr). exists k.
  destruct (pgfault_trap_correct ready_in ready_out ready_read ready_write id ex_alloc ex_free 70 ex_ref ex_free ex_ref (λ _, skip) (codes "intr.c") 200
    103 (ex_frame 14 8) (ex_traps k) ex_term no_mods [p] Hb) as (pr & _ & _ & H); [reflexivity|reflexivity|].
  apply (H (- E_INVAL) ex_spaces); [discriminate|vm_compute; reflexivity].
Defined.
